(* ===== verification/_CoqProject ===== *)
-Q . S2P
Prelude.v
Text.v
Digest.v
Keys.v
Records.v
Evolution.v
Ontology.v
Lineage.v
Reduction.v
Authority.v
Story.v
NodeModel.v
NodeStore.v
NodeViews.v
NodeFacts.v
NodeSpec.v
NodeScan.v
NodeLaws.v
NodeSync.v
NodeHttp.v
NodeSyncLaws.v
NodePeer.v
NodeStory.v
FileTree.v
TreeHash.v
FasciaTree.v
TreeHashLaws.v
Eip712.v
RegistryActions.v
AccountActions.v
RegistryLaws.v
PublicCheckpoint.v
PublicCheckpointLaws.v
Continuity.v
RegistryStory.v
Clock.v
NetworkCatalog.v
NetworkPublication.v
NetworkSnapshot.v
NetworkSnapshotLaws.v
NetworkCollection.v
NetworkStory.v
Entitlement.v
CompanionModel.v
CompanionJournal.v
CompanionJournalLaws.v
CompanionCrypto.v
CompanionToy.v
CompanionEnvelope.v
CompanionReference.v
CompanionReferenceLaws.v
CompanionPublication.v
CompanionUpdates.v
CompanionCommand.v
CompanionCapability.v
CompanionRecordLaws.v
CompanionPairing.v
CompanionPairingLaws.v
CompanionStory.v
EntitlementLaws.v
LocalCommand.v
CommandJournal.v
CommandJournalLaws.v
ApplicationStory.v
CrashIo.v
IntentPackage.v
IntentPackageLaws.v
PendingIntentions.v
PendingIntentionsLaws.v
PendingIntentionsRecovery.v
PendingIntentionsStory.v
ExecutionModel.v
Executions.v
ExecutionLaws.v
ExecutionRecovery.v
ExecutionHistory.v
ExecutionStory.v
Ledger.v
LedgerLaws.v
LedgerStory.v
