(* ===== verification/Prelude.v ===== *)
(** * Menlo / TOHSENO: verification library

    TOHSENO turns an intention into an app ("Shot") whose history is a chain of
    signed actions that anybody can check. The Rust workspace under [src/] has
    the law of these actions (crate [protocol]), a server that stores and
    replicates them ([node]), the public catalog and its source archives
    ([network]), the private channel between a Mac and a phone ([companion]),
    the Mac's application service ([application]), and an engine and a
    command line that run external tools ([engine], [cli]). This library
    models the first five, and of the engine the ledger of apps, the intake of
    intentions and the executions of the coding harness, as executable
    definitions and proves what makes them correct.

    ** How the parts interact

    A [LineageAction] (protocol) is canonical JSON, signed with a P-256 key. A
    node parses it ([NodeModel], [parse_public]), stores it by digest
    ([NodeStore], [ingest]), classifies it by the same law ([classify] runs
    [verify_lineage_segment] and [reduce_lineage] on its stored ancestry) and
    serves it ([NodeHttp]); another node pulls it ([NodeSync]). What becomes
    public is a checkpoint ([PublicCheckpoint]) bound to an action on a registry
    contract ([RegistryActions]), a catalog release ([NetworkCatalog]) whose
    source is a deterministic archive ([NetworkSnapshot]) committed to by a tree
    digest ([TreeHash]), and an approval by which a phone signs both
    ([NetworkPublication]). Phone and Mac are paired ([CompanionPairing]),
    exchange sealed envelopes ([CompanionEnvelope]) deduplicated by a replay
    window ([CompanionJournal]), and the Mac executes the phone's commands
    ([CompanionCommand]) under revocable grants ([CompanionCapability]), through
    a crash-safe journal ([CommandJournal]) and subject to the product
    entitlement ([Entitlement]). A package that a browser made
    ([IntentPackage]) waits in the Mac's private store ([PendingIntentions])
    until its command is admitted. Each app is a visible folder with a ledger of
    its own, where its Versions are reserved, filled and sealed, and its protocol
    identity is kept ([Ledger]). The command prepares an execution of the
    coding harness, whose record, journal of events and completion are files of
    the Shot ([Executions]); a manager launches its runner, cancels it, and
    settles what a crash left.

    ** Files and what they model

    Shared: [Prelude] (results, loops, machine integers, bytes, sorting, the
    tactics [res_inv] and others, hints), [Text] ([protocol/src/error.rs],
    [text.rs]), [Digest] ([digest.rs], [canonical.rs]; the class [Platform]),
    [Clock] (the [time] crate's instants and dates), [FileTree] (paths and
    directories as the standard library shows them), [CrashIo] (operations whose
    every change of a store may be the last before a crash, and their logic).

    Protocol: [Keys] ([signature.rs], [identity.rs]), [Records] ([record.rs]),
    [Evolution] ([evolution.rs]), [Ontology] ([ontology.rs]), [Lineage] and
    [Reduction] ([lineage.rs], one definition per arm of [apply_one]),
    [TreeHash] ([tree_hash.rs]), [FasciaTree] ([fascia_tree.rs], [genesis.rs]),
    [Eip712] ([identity.rs], the encoding of [actions.rs]), [RegistryActions]
    and [AccountActions] ([actions.rs]), [PublicCheckpoint]
    ([public_checkpoint.rs]), [Continuity] ([continuity.rs]).
    Node: [NodeModel] ([error.rs], [model.rs], [protocol_adapter.rs],
    classification), [NodeStore] ([store.rs], [fs.rs]), [NodeViews] (summaries,
    integrity, health), [NodeSync] ([sync.rs]), [NodeHttp] ([http.rs]).
    Network: [NetworkCatalog] ([error.rs], [catalog.rs], [evidence.rs]),
    [NetworkPublication] ([publication.rs], [claims.rs]), [NetworkSnapshot]
    ([snapshot.rs]).
    Application: [Entitlement] ([entitlement.rs]), [LocalCommand]
    ([command.rs]), [CommandJournal] ([journal.rs]).
    Companion: [CompanionModel] ([lib.rs]), [CompanionJournal] ([journal.rs]),
    [CompanionCrypto] ([crypto.rs], [canonical.rs], [identity.rs]),
    [CompanionEnvelope] ([envelope.rs]), [CompanionReference] ([reference.rs]),
    [CompanionPublication] ([publication.rs]), [CompanionUpdates] ([event.rs],
    in part), [CompanionCommand] ([command.rs]), [CompanionCapability]
    ([capability.rs]), [CompanionPairing] ([pairing.rs]).
    Engine: [Ledger] ([ledger.rs]), [IntentPackage] ([intent_package.rs], the private-reference checks
    of [shot_layout.rs]), [PendingIntentions] ([pending_intention.rs]),
    [ExecutionModel] (the records and rules of [shot_execution.rs],
    [harness_usage.rs] and [application/src/execution_manager.rs]), [Executions]
    (their operations on a Shot's repository).

    For each of them the files [...Laws], [Authority], [NodeFacts], [NodeSpec],
    [NodeScan], [NodePeer], [NetworkCollection], [PendingIntentionsRecovery],
    [ExecutionRecovery] and [ExecutionHistory] hold the proofs, as the last parts
    of [CompanionEnvelope], [CompanionCapability] and [NetworkPublication] do, and the files [...Story] a concrete run on a toy platform at which the hypotheses of
    the theorems hold. State is passed explicitly: an operation on [&mut self]
    returns the record afterwards with its result; a directory is an argument
    and a result; effects that await are a small state monad ([NodeSync.Sync]).
    Errors are values of [Result]. A [u64] or [u32] is a [Z] with its checked
    or saturating operations written out; a byte is a [Z] in a list.

    ** What the theorems show

    - The law of a Shot ([Authority]): [reduce_lineage] accepts exactly the
      histories of authorized steps; only the controller acts; accepted
      versions, genomes, evolutions and facts have their evidence in the
      history; continuing a reduction is reducing from scratch.
    - Nodes ([NodeSpec], [NodeLaws], [NodeScan]): the store refines a set of
      actions, classification is reduction of the ancestry, nodes that accept
      the same actions in any order agree, and a rebuild from disk restores the
      index. Over the network ([NodeSyncLaws], [NodePeer]): a synchronization
      is safe against any peer and complete against an honest one, and what is
      posted is served.
    - Public commitments: tree digests identify the files of trees, those at and
      below the paths of protocol sidecars apart ([TreeHashLaws]); action digests identify action and domain
      ([RegistryLaws]); a public history runs the registry to its head
      ([PublicCheckpointLaws]); an approval covers exactly its request
      ([NetworkPublication]); an archive holds what may be public
      ([NetworkCollection]), is extracted only inside its destination
      ([NetworkSnapshotLaws]) and round-trips.
    - The application: a command is admitted exactly once over every
      interleaving and crash, statuses follow their state machine
      ([CommandJournalLaws]); the entitlement file keeps a contract that is stated in
      the facts recorded and not in phases, and Pro stands on five successful days
      ([EntitlementLaws]).
    - The companion: nothing is delivered twice ([CompanionJournalLaws],
      [CompanionEnvelope]); what is sealed opens; chunks reassemble
      ([CompanionReferenceLaws]); authorized commands are genuine and revocation
      is final ([CompanionCapability]); pairing happens once, with the
      device that holds the keys, and succeeds for an honest phone
      ([CompanionPairingLaws]).
    - The ledger of apps, over every history of its operations, of crashes and of
      renamed folders: a sealed Version never changes and refuses to be written,
      an app keeps its identity (an ExpressionID that was bound before its Shot may
      be replaced with it), its Versions have no hole and are listed exactly,
      and what a crash left can be loaded, reserved again and sealed
      ([LedgerLaws]), where no one writes the seal as a file.
    - The engine: a package is read as it was built, with every byte accounted
      for ([IntentPackageLaws]); it is imported once and consumed for ever over
      every sequence of operations and crashes ([PendingIntentionsLaws]), and an
      import that crashed anywhere is completed by the next one
      ([PendingIntentionsRecovery]). An execution's identity is bound to its work,
      its journal only grows, its completion is final, one execution of a Shot
      is open at a time, over every history of preparations, runs, crashes,
      recoveries and cancellations, one operation at a time, up to the restart of an
      execution that has its completion; and recovery settles what a crash left of an
      execution with an event in its journal ([ExecutionLaws], [ExecutionRecovery], [ExecutionHistory]).

    ** Fuel and bounds

    Recursion is structural except where the source bounds it itself.
    [NetworkSnapshot.collect_directory] has the fuel 65 of the source's depth
    bound 64, and running out is the source's own error. The walk of an ancestry
    in [NodeModel] and the worklist in [NodeStore.reclassify_loop] have a fuel
    computed from the index; that it suffices, and the result with it, is a
    theorem ([NodeLaws.reclassification_repairs]). An operation on the store of
    intentions is given the number of changes it makes before it crashes; twelve
    and two for each image are enough for an import to finish, twenty-seven for
    the recovery of an execution, whose journal must have room for four events of
    4096 bytes; for an app's ledger six are enough to load it, thirteen to
    reserve a Version and twelve to seal one. Everything else ends because its list, tree or text does.

    ** Parameters

    Code outside the repository is a class whose laws, where a theorem needs
    them, are a second class with documented behaviour only: [Platform]
    (SHA-256, RFC 8785 canonical JSON, P-256, RFC 3339), [Keccak], [Unicode]
    (normalization, case), [Codec], [StateReader], [JournalReader],
    [JsonReader], [PairingReader], [ManifestCodec], [IntentionCodec],
    [ExecutionCodec] with [ExecutionCodecLaws] (what is written is read back; an
    event is one line), [LedgerCodec] with [LedgerCodecLaws] (the same of [toml]),
    [CharCase] with [CharCaseLaws] (lower case of a character), [JsonStrings] and [ApiWriter] (serde), [RecordListing] ([read_dir]), [ExecutionClock],
    [PathDisplay] and [TreeDisplay] (how paths are printed), [TimeFormat],
    [Urls], [HttpClient] and [PeerReader] (the HTTP client), [Tar] with
    [TarLaws] (the tar format), [CompanionCrypto] with [CompanionCryptoLaws]
    (key agreement, authenticated encryption, signatures), [JcsLaws]. That a
    hash does not collide is never assumed in general: a theorem that needs it
    names the inputs on which it must not. The stories instantiate every class.

    ** Not modelled

    Decoding of JSON, random material (an argument where it is used),
    concurrency inside one call, the contents a failed copy or a crash leaves in
    a half-written file other than what the journals are built to survive, and
    the components listed here. Protocol: the Fascia manifest, app metadata,
    contract generations and conformance reports ([fascia.rs],
    [app_metadata.rs], [contract_generation.rs], [contract_activation.rs],
    [conformance.rs]), closed-shape validators of build evidence. Network:
    [build_profile.rs], [claim_mark.rs], [claims_activation.rs], and the outer
    order of [create_deterministic_snapshot]. Node: [legacy.rs], [main.rs].
    Companion: the event envelope and snapshots ([event.rs], [snapshot.rs]),
    icons, relay requests. Application: the service, receipts, billing,
    snapshots, and of the execution manager the supervision of the harness's
    process. For executions Git, the discovery of harnesses, the operating
    system's answers about processes and the ledger's about accepted Versions are
    arguments. Of the ledger the snapshots and checkouts of the working tree, the
    migration of version 0.6 and the lock files. The rest of [engine], and [cli]: orchestration of external tools
    and argument parsing, mostly input and output. [contracts]:
    Solidity. *)
From Stdlib Require Export ZArith Lia.
From stdpp Require Export sorting pretty.
From stdpp Require Export base tactics option countable list_numbers gmap sets strings list.


(** ** The Rust [Result] type *)

Inductive Result (E T : Type) : Type :=
  | Ok (t : T)
  | Err (e : E).
Arguments Ok {_ _} _.
Arguments Err {_ _} _.

#[export] Instance Result_ret {E} : MRet (Result E) := fun _ x => Ok x.
#[export] Instance Result_bind {E} : MBind (Result E) :=
  fun _ _ f m => match m with Ok x => f x | Err e => Err e end.

#[export] Instance Result_eq_dec {E T} `{!EqDecision E, !EqDecision T} :
  EqDecision (Result E T).
Proof. solve_decision. Defined.

Definition is_ok {E T} (r : Result E T) : bool :=
  match r with Ok _ => true | Err _ => false end.

(** [if cond { return Err(e) }] *)
Definition fail_if {E} (c : bool) (e : E) : Result E unit :=
  if c then Err e else Ok tt.

(** [option.ok_or(e)?] *)
Definition ok_or {E T} (e : E) (o : option T) : Result E T :=
  match o with Some x => Ok x | None => Err e end.

(** [result.map_err(f)?] *)
Definition map_err {E F T} (f : E -> F) (r : Result E T) : Result F T :=
  match r with Ok x => Ok x | Err e => Err (f e) end.

(** [for x in xs { f(x)? }] *)
Fixpoint for_each {E A} (f : A -> Result E unit) (xs : list A) : Result E unit :=
  match xs with
  | [] => Ok tt
  | x :: xs => f x ;; for_each f xs
  end.

(** A loop that threads a state and stops at the first error. *)
Fixpoint try_fold {E A S} (f : S -> A -> Result E S) (s : S) (xs : list A) : Result E S :=
  match xs with
  | [] => Ok s
  | x :: xs => s' ← f s x; try_fold f s' xs
  end.

(** [for x in xs { f(x)?; if !seen.insert(key(x)) { return Err(e) } }], the
    duplicate-detecting loop the protocol crate uses throughout. *)
Fixpoint for_unique {E A K} `{Countable K} (f : A -> Result E unit) (key : A -> K)
    (dup : A -> E) (seen : gset K) (xs : list A) : Result E unit :=
  match xs with
  | [] => Ok tt
  | x :: xs =>
      f x ;;
      fail_if (bool_decide (key x ∈ seen)) (dup x) ;;
      for_unique f key dup ({[key x]} ∪ seen) xs
  end.

(** Boolean equality tests, written as in the source. *)
Declare Scope rust_scope.
Delimit Scope rust_scope with rust.
Notation "a == b" := (bool_decide (a = b)) (at level 70, no associativity) : rust_scope.
Notation "a != b" := (negb (bool_decide (a = b))) (at level 70, no associativity) : rust_scope.
Infix "<?" := Z.ltb : rust_scope.
Infix "<=?" := Z.leb : rust_scope.
Open Scope rust_scope.

Definition opt_is_some {A} (o : option A) : bool :=
  match o with Some _ => true | None => false end.
Definition opt_is_none {A} (o : option A) : bool := negb (opt_is_some o).
(** [option.is_some_and(p)] *)
Definition is_some_and {A} (p : A -> bool) (o : option A) : bool :=
  match o with Some x => p x | None => false end.

(** ** Machine integers *)

Definition U32_MAX : Z := 4294967295.
Definition U64_MAX : Z := 18446744073709551615.

Definition checked_add (max a b : Z) : option Z :=
  if (a + b <=? max)%Z then Some (a + b)%Z else None.
Definition checked_add_u32 := checked_add U32_MAX.
Definition checked_add_u64 := checked_add U64_MAX.
Definition saturating_add_u64 (a b : Z) : Z := Z.min U64_MAX (a + b).
(** [u64::try_from(usize)] and [u32::try_from(usize)] *)
Definition u64_try_from (n : nat) : option Z :=
  if (Z.of_nat n <=? U64_MAX)%Z then Some (Z.of_nat n) else None.
Definition u32_try_from (n : nat) : option Z :=
  if (Z.of_nat n <=? U32_MAX)%Z then Some (Z.of_nat n) else None.

(** [to_be_bytes] of an unsigned integer of [n] bytes. *)
Fixpoint be_bytes (n : nat) (z : Z) : list Z :=
  match n with
  | O => []
  | S n => Z.modulo (z / 256 ^ Z.of_nat n) 256 :: be_bytes n z
  end.

Lemma be_bytes_length n z : length (be_bytes n z) = n.
Proof. induction n; simpl; congruence. Qed.

Lemma be_bytes_bound n z : Forall (λ b, 0 <= b < 256)%Z (be_bytes n z).
Proof. induction n; simpl; constructor; [by apply Z.mod_pos_bound|done]. Qed.

(** [be_bytes n] determines its argument modulo [256 ^ n]. *)
Lemma be_bytes_mod n a b : be_bytes n a = be_bytes n b ->
  Z.modulo a (256 ^ Z.of_nat n) = Z.modulo b (256 ^ Z.of_nat n).
Proof.
  induction n as [|n IH]; simpl be_bytes; [intros _; by rewrite !Z.mod_1_r|].
  intros [= Hh Ht]. apply IH in Ht.
  rewrite Nat2Z.inj_succ, Z.pow_succ_r, Z.mul_comm by lia.
  by rewrite !Z.rem_mul_r, Hh, Ht by lia.
Qed.

Lemma be_bytes_inj n a b :
  (0 <= a < 256 ^ Z.of_nat n)%Z -> (0 <= b < 256 ^ Z.of_nat n)%Z ->
  be_bytes n a = be_bytes n b -> a = b.
Proof. intros Ha Hb E%be_bytes_mod. by rewrite !Z.mod_small in E by lia. Qed.

(** [from_be_bytes] *)
Definition be_value (bytes : list Z) : Z := foldl (λ acc b, acc * 256 + b)%Z 0%Z bytes.
(** [bytes[i..j]] of a slice that is long enough. *)
Definition slice (bytes : list Z) (i j : nat) : list Z := take (j - i) (drop i bytes).

Lemma be_value_be_bytes n z : be_value (be_bytes n z) = Z.modulo z (256 ^ Z.of_nat n).
Proof.
  assert (forall acc, foldl (λ acc b, acc * 256 + b)%Z acc (be_bytes n z)
    = acc * 256 ^ Z.of_nat n + z mod 256 ^ Z.of_nat n)%Z as H; [|unfold be_value; by rewrite (H 0%Z)].
  induction n as [|n IH]; intros acc; simpl be_bytes; simpl foldl; [rewrite Z.mod_1_r; lia|].
  rewrite IH, Nat2Z.inj_succ, Z.pow_succ_r, (Z.mul_comm 256) by lia.
  rewrite (Z.rem_mul_r z (256 ^ Z.of_nat n) 256) by lia. lia.
Qed.

Lemma be_value_app_bound acc bs : Forall (λ b, 0 <= b < 256)%Z bs ->
  exists v, foldl (λ acc b, acc * 256 + b)%Z acc bs = (acc * 256 ^ Z.of_nat (length bs) + v)%Z /\
    (0 <= v < 256 ^ Z.of_nat (length bs))%Z.
Proof.
  intros Hb. revert acc. induction Hb as [|b bs Hb _ IH]; intros acc; simpl foldl; [exists 0%Z; simpl; lia|].
  destruct (IH (acc * 256 + b)%Z) as (v&->&Hv). cbn [length].
  exists (b * 256 ^ Z.of_nat (length bs) + v)%Z. rewrite Nat2Z.inj_succ, Z.pow_succ_r by lia. split; [lia|nia].
Qed.
Lemma be_value_nonneg bs : Forall (λ b, 0 <= b < 256)%Z bs -> (0 <= be_value bs)%Z.
Proof. intros Hb. destruct (be_value_app_bound 0 bs Hb) as (v&E&Hv). unfold be_value. lia. Qed.
Lemma be_bytes_be_value bs : Forall (λ b, 0 <= b < 256)%Z bs -> be_bytes (length bs) (be_value bs) = bs.
Proof.
  unfold be_value. intros Hb. generalize 0%Z.
  induction Hb as [|b bs Hb Hbs IH]; intros acc; [done|]. cbn [length be_bytes foldl]. rewrite IH. f_equal.
  destruct (be_value_app_bound (acc * 256 + b) bs Hbs) as (v&->&Hv).
  rewrite Z.div_add_l, Z.div_small, Z.add_0_r by lia. rewrite Z.add_comm, Z.mod_add, Z.mod_small; lia.
Qed.

(** ** Stable sorting ([slice::sort_by]) *)

Section insertion_sort.
Context {A : Type} (leb : A -> A -> bool).

Fixpoint sorted_insert (x : A) (l : list A) : list A :=
  match l with
  | [] => [x]
  | y :: l' => if leb x y then x :: y :: l' else y :: sorted_insert x l'
  end.

Fixpoint stable_sort (l : list A) : list A :=
  match l with
  | [] => []
  | x :: l' => sorted_insert x (stable_sort l')
  end.

Lemma sorted_insert_perm x l : sorted_insert x l ≡ₚ x :: l.
Proof.
  induction l as [|y l IH]; simpl; [done|].
  destruct (leb x y); [done|]. rewrite IH. by constructor.
Qed.

Lemma stable_sort_perm l : stable_sort l ≡ₚ l.
Proof. induction l as [|x l IH]; simpl; [done|]. by rewrite sorted_insert_perm, IH. Qed.

Context (leb_total : forall x y, leb x y = true \/ leb y x = true).
Context (leb_trans : forall x y z, leb x y = true -> leb y z = true -> leb x z = true).

Lemma sorted_insert_sorted x l :
  StronglySorted (λ a b, leb a b = true) l ->
  StronglySorted (λ a b, leb a b = true) (sorted_insert x l).
Proof.
  induction 1 as [|y l Hl IH Hy]; simpl; [by repeat constructor|].
  destruct (leb x y) eqn:E.
  - constructor; [by constructor|]. constructor; [done|].
    eapply Forall_impl; [exact Hy|]. simpl; eauto.
  - constructor; [done|]. rewrite sorted_insert_perm. constructor; [|done].
    destruct (leb_total x y); congruence.
Qed.

Lemma stable_sort_sorted l : StronglySorted (λ a b, leb a b = true) (stable_sort l).
Proof. induction l; simpl; [constructor|by apply sorted_insert_sorted]. Qed.

(** Sorting a list whose elements are pairwise distinguished by the order
    depends only on its elements. *)
Lemma sorted_perm_eq l1 l2 :
  StronglySorted (λ a b, leb a b = true) l1 ->
  StronglySorted (λ a b, leb a b = true) l2 ->
  (forall a b, a ∈ l1 -> b ∈ l1 -> leb a b = true -> leb b a = true -> a = b) ->
  l1 ≡ₚ l2 -> l1 = l2.
Proof.
  intros Hs1. revert l2. induction Hs1 as [|x l1 Hl1 IH Hx]; intros l2 Hs2 Has Hp.
  { by apply Permutation_nil_l in Hp. }
  destruct l2 as [|y l2]; [by apply Permutation_nil_r in Hp|].
  assert (x = y) as ->.
  { assert (y ∈ x :: l1) as Hy1. { rewrite Hp. apply elem_of_cons. by left. }
    assert (x ∈ y :: l2) as Hx2. { rewrite <- Hp. apply elem_of_cons. by left. }
    apply StronglySorted_inv in Hs2 as [_ Hf].
    rewrite Forall_forall in Hf, Hx.
    pose proof Hy1 as [Hy|Hy]%elem_of_cons; [done|].
    pose proof Hx2 as [Hx'|Hx']%elem_of_cons; [done|].
    apply Has; [apply elem_of_cons; by left|done|by apply Hx|by apply Hf]. }
  f_equal. apply IH.
  - by apply StronglySorted_inv in Hs2 as [].
  - intros a b Ha Hb. apply Has; set_solver.
  - by apply Permutation_cons_inv in Hp.
Qed.

Lemma stable_sort_ext l1 l2 :
  (forall a b, a ∈ l1 -> b ∈ l1 -> leb a b = true -> leb b a = true -> a = b) ->
  l1 ≡ₚ l2 -> stable_sort l1 = stable_sort l2.
Proof.
  intros Has Hp. apply sorted_perm_eq; auto using stable_sort_sorted.
  - intros a b. rewrite !stable_sort_perm. apply Has.
  - by rewrite !stable_sort_perm.
Qed.

Lemma stable_sort_sorted_id l :
  StronglySorted (λ a b, leb a b = true) l -> stable_sort l = l.
Proof.
  induction 1 as [|x l Hl IH Hx]; simpl; [done|]. rewrite IH.
  destruct l as [|y l]; [done|]. simpl. apply Forall_cons in Hx as [-> _]. done.
Qed.
End insertion_sort.

(** Induction two elements at a time. *)
Lemma list_pair_ind {A} (P : list A -> Prop) :
  P [] -> (forall a, P [a]) -> (forall a b l, P l -> P (a :: b :: l)) -> forall l, P l.
Proof.
  intros H0 H1 H2. fix IH 1. intros [|a [|b l]]; [done|apply H1|]. apply H2, IH.
Qed.

(** ** Inversion of successful computations *)

Section result_lemmas.
Context {E : Type}.

Lemma bind_Ok {A B} (m : Result E A) (f : A -> Result E B) b :
  (m ≫= f) = Ok b <-> exists a, m = Ok a /\ f a = Ok b.
Proof. destruct m; split; [eauto|by intros (?&[= <-]&?)|done|by intros (?&?&?)]. Qed.
Lemma then_Ok {B} (m : Result E unit) (k : Result E B) b : (m ;; k) = Ok b <-> m = Ok tt /\ k = Ok b.
Proof. rewrite bind_Ok. split; [intros ([]&?&?)|intros [? ?]]; eauto. Qed.

Lemma fail_if_Ok (c : bool) (e : E) u : fail_if c e = Ok u <-> c = false.
Proof. destruct c, u; done. Qed.

Lemma ok_or_Ok {A} (e : E) (o : option A) a : ok_or e o = Ok a <-> o = Some a.
Proof. destruct o; split; simpl; congruence. Qed.

Lemma map_err_Ok {F A} (f : E -> F) (r : Result E A) a : map_err f r = Ok a <-> r = Ok a.
Proof. destruct r; split; simpl; congruence. Qed.

Lemma for_each_Ok {A} (f : A -> Result E unit) xs u :
  for_each f xs = Ok u <-> Forall (λ x, f x = Ok tt) xs.
Proof.
  destruct u. induction xs as [|x xs IH]; simpl; [by split; constructor|].
  rewrite bind_Ok, Forall_cons, <- IH. split; [intros ([]&?&?); eauto|intros [? ?]; eauto].
Qed.

Lemma for_unique_Ok {A K} `{Countable K} (f : A -> Result E unit) (key : A -> K) dup seen xs u :
  for_unique f key dup seen xs = Ok u <->
  Forall (λ x, f x = Ok tt) xs /\ NoDup (key <$> xs) /\ Forall (λ x, key x ∉ seen) xs.
Proof.
  destruct u. revert seen. induction xs as [|x xs IH]; intros seen; simpl.
  { split; [intros _; repeat split; constructor|done]. }
  rewrite !Forall_cons, NoDup_cons, list_elem_of_fmap, bind_Ok. split.
  - intros ([]&Hx&Hr). apply bind_Ok in Hr as ([]&Hk%fail_if_Ok&Hr).
    apply bool_decide_eq_false in Hk. apply IH in Hr as (Hf&Hnd&Hs).
    rewrite Forall_forall in Hs. split_and!; auto.
    + intros (y&Hy&Hyin). specialize (Hs y Hyin). set_solver.
    + apply Forall_forall. intros y Hy. specialize (Hs y Hy). set_solver.
  - intros ((Hx&Hf)&(Hxn&Hnd)&Hin&Hs). exists tt; split; [done|].
    apply bind_Ok. exists tt. split; [by apply fail_if_Ok, bool_decide_eq_false|].
    apply IH. split_and!; [done..|]. rewrite Forall_forall in Hs |- *.
    intros y Hy Hc. apply elem_of_union in Hc as [Hc%elem_of_singleton|Hc].
    + apply Hxn. eauto.
    + by apply (Hs y).
Qed.

Lemma try_fold_app {A S} (f : S -> A -> Result E S) s xs ys :
  try_fold f s (xs ++ ys) = s' ← try_fold f s xs; try_fold f s' ys.
Proof. revert s. induction xs as [|x xs IH]; intros s; simpl; [done|].
  destruct (f s x); simpl; [apply IH|done]. Qed.

(** Rule induction for [try_fold]: an invariant of the step holds at the end. *)
Lemma try_fold_inv {A S} (P : S -> Prop) (f : S -> A -> Result E S) s xs s' :
  P s -> (forall s x s', x ∈ xs -> P s -> f s x = Ok s' -> P s') ->
  try_fold f s xs = Ok s' -> P s'.
Proof.
  revert s. induction xs as [|x xs IH]; intros s Hs Hstep; simpl; [congruence|].
  rewrite bind_Ok. intros (s1&H1&H2). apply (IH s1).
  - apply (Hstep s x); [apply elem_of_cons; by left|done..].
  - intros ??? Hin. apply Hstep. apply elem_of_cons. by right.
  - done.
Qed.
End result_lemmas.

Create HintDb rust.

(** [res_inv] inverts every hypothesis stating that a monadic computation
    succeeded, leaving one hypothesis per guard that was passed; the guards
    become propositions. *)
Ltac guard_step :=
  match goal with
  | H : (_ || _) = false |- _ => apply orb_false_iff in H as [? ?]
  | H : (_ && _) = true |- _ => apply andb_true_iff in H as [? ?]
  | H : negb _ = false |- _ => apply negb_false_iff in H
  | H : negb _ = true |- _ => apply negb_true_iff in H
  | H : bool_decide _ = false |- _ => apply bool_decide_eq_false_1 in H
  | H : bool_decide _ = true |- _ => apply bool_decide_eq_true_1 in H
  | H : (_ <? _)%Z = false |- _ => apply Z.ltb_ge in H
  | H : (_ <=? _)%Z = false |- _ => apply Z.leb_gt in H
  | H : (_ <? _)%Z = true |- _ => apply Z.ltb_lt in H
  | H : (_ <=? _)%Z = true |- _ => apply Z.leb_le in H
  end.

Ltac res_step :=
  match goal with
  | H : Ok _ = Ok _ |- _ => injection H as H; first [subst | idtac]
  | H : Err _ = Ok _ |- _ => discriminate H
  | H : Ok _ = Err _ |- _ => discriminate H
  | H : mret _ = Ok _ |- _ => injection H as H; first [subst | idtac]
  | H : (_ ≫= _) = Ok _ |- _ =>
      let a := fresh "r" in let H1 := fresh "H" in
      apply bind_Ok in H as (a & H1 & H); cbv beta zeta in H
  | H : fail_if _ _ = Ok _ |- _ => apply fail_if_Ok in H
  | H : ok_or _ _ = Ok _ |- _ => apply ok_or_Ok in H
  | H : map_err _ _ = Ok _ |- _ => apply map_err_Ok in H
  | u : unit |- _ => destruct u
  end.

Ltac res_inv := repeat (res_step || guard_step).

Create Rewrite HintDb rust_ok.
#[export] Hint Rewrite @bind_Ok @fail_if_Ok @ok_or_Ok @map_err_Ok @for_each_Ok : rust_ok.

(** ** Rust strings

    A [String] is its sequence of UTF-8 bytes, a Rocq [string]; [chars] decodes
    the scalar values, [split_on] is [str::split] with a one-byte separator. *)

Definition bytes_of (s : string) : list Z :=
  (λ a, Z.of_N (Ascii.N_of_ascii a)) <$> String.list_ascii_of_string s.
Definition string_of (bs : list Z) : string :=
  String.string_of_list_ascii ((λ b, Ascii.ascii_of_N (Z.to_N b)) <$> bs).
Definition len (s : string) : nat := String.length s.

Fixpoint chars (bs : list Z) : list Z :=
  match bs with
  | [] => []
  | b :: r =>
      if (b <? 128)%Z then b :: chars r
      else match r with
      | [] => [b]
      | c1 :: r1 =>
          if (b <? 224)%Z then (b mod 32 * 64 + c1 mod 64)%Z :: chars r1
          else match r1 with
          | [] => [b]
          | c2 :: r2 =>
              if (b <? 240)%Z
              then (b mod 16 * 4096 + c1 mod 64 * 64 + c2 mod 64)%Z :: chars r2
              else match r2 with
              | [] => [b]
              | c3 :: r3 =>
                  (b mod 8 * 262144 + c1 mod 64 * 4096 + c2 mod 64 * 64 + c3 mod 64)%Z
                    :: chars r3
              end
          end
      end
  end.

(** [char::is_control]: general category Cc. *)
Definition is_control (c : Z) : bool :=
  ((0 <=? c) && (c <=? 31) || (127 <=? c) && (c <=? 159))%Z.

(** [char::is_whitespace]: the Unicode property White_Space. *)
Definition is_whitespace (c : Z) : bool :=
  ((9 <=? c) && (c <=? 13) || (c =? 32) || (c =? 133) || (c =? 160) || (c =? 5760)
   || (8192 <=? c) && (c <=? 8202) || (c =? 8232) || (c =? 8233) || (c =? 8239)
   || (c =? 8287) || (c =? 12288))%Z.

Fixpoint trim_start (cs : list Z) : list Z :=
  match cs with
  | [] => []
  | c :: r => if is_whitespace c then trim_start r else cs
  end.
(** [str::trim], on the scalar values. *)
Definition trim (cs : list Z) : list Z := rev (trim_start (rev (trim_start cs))).

Fixpoint split_on (sep : Z) (bs : list Z) : list (list Z) :=
  match bs with
  | [] => [[]]
  | b :: r =>
      if (b =? sep)%Z then [] :: split_on sep r
      else match split_on sep r with
           | [] => [[b]]
           | p :: ps => (b :: p) :: ps
           end
  end.
Fixpoint join_with (sep : Z) (ps : list (list Z)) : list Z :=
  match ps with
  | [] => []
  | [p] => p
  | p :: ps => p ++ sep :: join_with sep ps
  end.

Fixpoint starts_with (p s : list Z) : bool :=
  match p, s with
  | [], _ => true
  | a :: p, b :: s => (a =? b)%Z && starts_with p s
  | _ :: _, [] => false
  end.

Definition is_ascii_lowercase (b : Z) : bool := ((97 <=? b) && (b <=? 122))%Z.
Definition is_ascii_uppercase (b : Z) : bool := ((65 <=? b) && (b <=? 90))%Z.
Definition is_ascii_digit (b : Z) : bool := ((48 <=? b) && (b <=? 57))%Z.
Definition is_ascii_alphanumeric (b : Z) : bool :=
  is_ascii_lowercase b || is_ascii_uppercase b || is_ascii_digit b.
Definition is_lower_hex (b : Z) : bool := is_ascii_digit b || ((97 <=? b) && (b <=? 102))%Z.

(** Lexicographic order of byte sequences ([Ord for [u8]] and [str]). *)
Fixpoint bytes_leb (a b : list Z) : bool :=
  match a, b with
  | [], _ => true
  | _ :: _, [] => false
  | x :: a, y :: b => if (x <? y)%Z then true else if (x =? y)%Z then bytes_leb a b else false
  end.

Section strings.
Lemma bytes_of_length s : length (bytes_of s) = len s.
Proof. unfold bytes_of. rewrite length_fmap. induction s; simpl; congruence. Qed.

Lemma string_of_bytes_of s : string_of (bytes_of s) = s.
Proof.
  unfold string_of, bytes_of. rewrite <- list_fmap_compose.
  rewrite <- (String.string_of_list_ascii_of_string s) at 2. f_equal.
  induction (String.list_ascii_of_string s) as [|a l IH]; simpl; [done|].
  f_equal; [|exact IH]. unfold compose. by rewrite N2Z.id, Ascii.ascii_N_embedding.
Qed.

#[export] Instance bytes_of_inj : Inj (=) (=) bytes_of.
Proof. intros a b E. rewrite <- (string_of_bytes_of a), E. apply string_of_bytes_of. Qed.

Lemma bytes_of_string_of bs :
  Forall (λ b, 0 <= b < 256)%Z bs -> bytes_of (string_of bs) = bs.
Proof.
  intros H. unfold bytes_of, string_of.
  rewrite String.list_ascii_of_string_of_list_ascii, <- list_fmap_compose.
  induction H as [|b bs Hb _ IH]; simpl; [done|].
  f_equal; [|exact IH]. unfold compose. rewrite Ascii.N_ascii_embedding by lia. lia.
Qed.

Lemma bytes_of_bound s : Forall (λ b, 0 <= b < 256)%Z (bytes_of s).
Proof.
  apply Forall_forall. intros b (a&->&_)%list_elem_of_fmap.
  pose proof (Ascii.N_ascii_bounded a). lia.
Qed.

Lemma bytes_of_app a b : bytes_of (a +:+ b) = bytes_of a ++ bytes_of b.
Proof. induction a; simpl; [done|]. unfold bytes_of in *. simpl. by f_equal. Qed.

Lemma bytes_leb_total a b : bytes_leb a b = true \/ bytes_leb b a = true.
Proof.
  revert b. induction a as [|x a IH]; intros [|y b]; simpl; auto.
  destruct (Z.ltb_spec x y), (Z.eqb_spec x y), (Z.ltb_spec y x), (Z.eqb_spec y x); auto; lia.
Qed.

Lemma bytes_leb_trans a b c :
  bytes_leb a b = true -> bytes_leb b c = true -> bytes_leb a c = true.
Proof.
  revert b c. induction a as [|x a IH]; intros [|y b] [|z c]; simpl; try done.
  destruct (Z.ltb_spec x y), (Z.eqb_spec x y), (Z.ltb_spec y z), (Z.eqb_spec y z),
    (Z.ltb_spec x z), (Z.eqb_spec x z); try done; try lia. apply IH.
Qed.

Lemma bytes_leb_antisym a b : bytes_leb a b = true -> bytes_leb b a = true -> a = b.
Proof.
  revert b. induction a as [|x a IH]; intros [|y b]; simpl; try done.
  destruct (Z.ltb_spec x y), (Z.eqb_spec x y), (Z.ltb_spec y x), (Z.eqb_spec y x);
    try done; try lia. subst. intros. f_equal. by apply IH.
Qed.

Lemma split_join sep bs : join_with sep (split_on sep bs) = bs.
Proof.
  induction bs as [|b r IH]; [done|]. simpl.
  assert (split_on sep r <> []) as Hne.
  { destruct r as [|c r']; simpl; [done|]. destruct (c =? sep)%Z; [done|].
    by destruct (split_on sep r'). }
  destruct (Z.eqb_spec b sep) as [->|].
  - simpl. destruct (split_on sep r); [done|]. by rewrite IH.
  - destruct (split_on sep r) as [|p ps]; [done|]. simpl in *.
    destruct ps; simpl in *; by rewrite <- IH.
Qed.

Lemma split_on_no_sep sep bs : Forall (λ p, sep ∉ p) (split_on sep bs).
Proof.
  induction bs as [|b r IH]; simpl.
  - constructor; [|constructor]. set_solver.
  - destruct (Z.eqb_spec b sep) as [->|].
    + constructor; [set_solver|done].
    + destruct IH as [|p ps Hp Hps]; constructor; try done; set_solver.
Qed.
End strings.

(** ** Hash chains

    A list whose first element has no predecessor and whose every later element
    names the commitment of the one before it. Both lineage formats are such
    chains; the last element of one determines the whole list, unless the
    commitment function collides on it. *)
Section hash_chain.
Context {A C E : Type} (prev : A -> option C) (commit : A -> Result E C).

Definition linked (l : list A) : Prop :=
  (forall a, l !! 0 = Some a -> prev a = None) /\
  (forall k a b, l !! k = Some a -> l !! S k = Some b ->
     exists c, commit a = Ok c /\ prev b = Some c).

Definition collision_free (l l' : list A) : Prop :=
  forall a b, a ∈ l -> b ∈ l' -> commit a = commit b -> a = b.

Lemma NoDup_collision_free l : NoDup (commit <$> l) -> collision_free l l.
Proof.
  intros Hnd a b (i&Ha)%list_elem_of_lookup (j&Hb)%list_elem_of_lookup Hab.
  assert (i = j) as <-; [|congruence].
  eapply NoDup_lookup; [exact Hnd|by rewrite list_lookup_fmap, Ha|].
  by rewrite list_lookup_fmap, Hb, Hab.
Qed.

Lemma linked_take_eq l l' : linked l -> linked l' -> collision_free l l' ->
  forall k k' a, l !! k = Some a -> l' !! k' = Some a ->
  k = k' /\ take (S k) l = take (S k') l'.
Proof.
  intros [H0 Hk] [H0' Hk'] Hcf. induction k as [|k IH]; intros [|k'] a Ha Ha'.
  - split; [done|]. by erewrite !take_S_r by eassumption.
  - specialize (H0 _ Ha).
    destruct (lookup_lt_is_Some_2 l' k') as [b Hb].
    { apply lookup_lt_Some in Ha'. lia. }
    destruct (Hk' _ _ _ Hb Ha') as (?&_&?). congruence.
  - specialize (H0' _ Ha').
    destruct (lookup_lt_is_Some_2 l k) as [b Hb].
    { apply lookup_lt_Some in Ha. lia. }
    destruct (Hk _ _ _ Hb Ha) as (?&_&?). congruence.
  - destruct (lookup_lt_is_Some_2 l k) as [b Hb].
    { apply lookup_lt_Some in Ha. lia. }
    destruct (lookup_lt_is_Some_2 l' k') as [b' Hb'].
    { apply lookup_lt_Some in Ha'. lia. }
    destruct (Hk _ _ _ Hb Ha) as (c&Hc&Hp), (Hk' _ _ _ Hb' Ha') as (c'&Hc'&Hp').
    assert (b = b') as <-.
    { apply Hcf; [by eapply list_elem_of_lookup_2..|congruence]. }
    destruct (IH _ _ Hb Hb') as [-> Ht]. split; [done|].
    by rewrite (take_S_r _ _ a Ha), (take_S_r _ _ a Ha'), Ht.
Qed.

(** Two chains with the same last element are the same chain. *)
Lemma linked_last_eq l l' a : linked l -> linked l' -> collision_free l l' ->
  last l = Some a -> last l' = Some a -> l = l'.
Proof.
  intros Hl Hl' Hcf Ha Ha'. rewrite last_lookup in Ha, Ha'.
  destruct (linked_take_eq l l' Hl Hl' Hcf _ _ a Ha Ha') as [_ Ht].
  apply lookup_lt_Some in Ha, Ha'.
  by rewrite !take_ge in Ht by lia.
Qed.
End hash_chain.
