(* ===== verification/Text.v ===== *)
(** * Errors and textual validators

    [protocol/src/error.rs] (the error type and its [Display]) and
    [protocol/src/text.rs] (tokens, slugs, bundle identifiers, fixed-width
    hexadecimal), with what each validator accepts. *)
From S2P Require Import Prelude.

(** ** [ProtocolError]

    The carried sources of third-party errors ([serde_json::Error],
    [std::io::Error]) are their messages. *)
Inductive ProtocolError : Type :=
  | InvalidField (field reason : string)
  | Json (message : string)
  | CanonicalJson (message : string)
  | InvalidPublicKey
  | InvalidSignature
  | HighSignatureS
  | DigestMismatch
  | Lineage (sequence : Z) (reason : string)
  | LineageActionError (sequence : Z) (reason : string)
  | InvalidTreePath (path : string)
  | TreeSymlink (path : string)
  | TreeEntryType (path : string)
  | TreeForbidden (path : string)
  | TreeChanged (path : string)
  | DuplicateTreePath (path : string)
  | TreeIo (path source : string)
  | InvalidFasciaTreePath (path : string)
  | FasciaTreeSymlink (path : string)
  | FasciaTreeEntryType (path : string)
  | FasciaTreeChanged (path : string)
  | DuplicateFasciaTreePath (path : string)
  | FasciaTreeIo (path source : string).

#[export] Instance ProtocolError_eq_dec : EqDecision ProtocolError.
Proof. solve_decision. Defined.

Abbreviation result := (Result ProtocolError).

(** The [#[error(...)]] display of each variant. *)
Definition display_error (e : ProtocolError) : string :=
  match e with
  | InvalidField field reason => "invalid " +:+ field +:+ ": " +:+ reason
  | Json m => "invalid JSON: " +:+ m
  | CanonicalJson m => "canonical JSON failed: " +:+ m
  | InvalidPublicKey => "invalid P-256 public key"
  | InvalidSignature => "invalid P-256 signature"
  | HighSignatureS => "P-256 signature is not low-s"
  | DigestMismatch => "digest does not match the signed object"
  | Lineage n reason => "lineage error at sequence " +:+ pretty n +:+ ": " +:+ reason
  | LineageActionError n reason =>
      "lineage-action error at sequence " +:+ pretty n +:+ ": " +:+ reason
  | InvalidTreePath p => "source-tree path is invalid: " +:+ p
  | TreeSymlink p => "source-tree entry is a symbolic link: " +:+ p
  | TreeEntryType p => "source-tree entry is not a regular file or directory: " +:+ p
  | TreeForbidden p => "source-tree contains a forbidden private or generated path: " +:+ p
  | TreeChanged p => "source-tree changed while it was being read: " +:+ p
  | DuplicateTreePath p => "duplicate normalized source-tree path: " +:+ p
  | TreeIo p s => "source-tree I/O failed at " +:+ p +:+ ": " +:+ s
  | InvalidFasciaTreePath p => "Fascia-tree path is invalid: " +:+ p
  | FasciaTreeSymlink p => "Fascia-tree entry is a symbolic link: " +:+ p
  | FasciaTreeEntryType p => "Fascia-tree entry is not a regular file or directory: " +:+ p
  | FasciaTreeChanged p => "Fascia-tree changed while it was being read: " +:+ p
  | DuplicateFasciaTreePath p => "duplicate normalized Fascia-tree path: " +:+ p
  | FasciaTreeIo p s => "Fascia-tree I/O failed at " +:+ p +:+ ": " +:+ s
  end.

Definition invalid (field reason : string) : ProtocolError := InvalidField field reason.

(** ** Validators *)

Definition validate_token (field : string) (value : string) (minimum maximum : nat)
    : result unit :=
  fail_if ((len value <? minimum)%nat || (maximum <? len value)%nat)
    (invalid field ("length must be " +:+ pretty minimum +:+ "..=" +:+ pretty maximum)) ;;
  fail_if ((chars (bytes_of value) != trim (chars (bytes_of value)))
           || existsb is_control (chars (bytes_of value)))
    (invalid field "must be trimmed and contain no control characters").

(** The loop of [validate_slug]: [index] of the byte at hand, whether the
    previous byte was a dash; returns the final [previous_dash]. *)
Fixpoint slug_loop (field : string) (index : nat) (previous_dash : bool) (bs : list Z)
    : result bool :=
  match bs with
  | [] => Ok previous_dash
  | byte :: bs =>
      let valid := is_ascii_lowercase byte || is_ascii_digit byte || (byte =? 45)%Z in
      fail_if (negb valid || ((byte =? 45)%Z && ((index =? 0)%nat || previous_dash)))
        (invalid field "must be lowercase ASCII words separated by single hyphens") ;;
      slug_loop field (S index) (byte =? 45)%Z bs
  end.

Definition validate_slug (field value : string) : result unit :=
  validate_token field value 1 63 ;;
  previous_dash ← slug_loop field 0 false (bytes_of value);
  fail_if previous_dash (invalid field "must not end with a hyphen").

Definition bundle_part_invalid (part : list Z) : bool :=
  (part == []) || starts_with [45%Z] part || starts_with [45%Z] (rev part)
  || negb (forallb (λ byte, is_ascii_alphanumeric byte || (byte =? 45)%Z) part).

Definition validate_bundle_id (field value : string) : result unit :=
  validate_token field value 3 255 ;;
  let parts := split_on 46 (bytes_of value) in
  fail_if ((length parts <? 2)%nat || existsb bundle_part_invalid parts)
    (invalid field
      "must be a reverse-domain identifier using ASCII letters, digits, and hyphens").

Definition validate_lower_hex (field value : string) (bytes : nat) : result unit :=
  fail_if (negb (len value =? 2 + bytes * 2)%nat
           || negb (starts_with (bytes_of "0x") (bytes_of value))
           || negb (forallb is_lower_hex (drop 2 (bytes_of value))))
    (invalid field ("must be 0x followed by " +:+ pretty (bytes * 2)%nat
                    +:+ " lowercase hex digits")).

Arguments validate_token : simpl never.
Arguments validate_slug : simpl never.
Arguments validate_bundle_id : simpl never.
Arguments validate_lower_hex : simpl never.

(** ** What the validators accept *)

(** A trimmed text without control characters, of [minimum..=maximum] bytes. *)
Definition token (value : string) (minimum maximum : nat) : Prop :=
  minimum <= len value <= maximum /\
  trim (chars (bytes_of value)) = chars (bytes_of value) /\
  Forall (λ c, is_control c = false) (chars (bytes_of value)).

Lemma existsb_false {A} (p : A -> bool) l :
  existsb p l = false <-> Forall (λ x, p x = false) l.
Proof.
  induction l as [|x l IH]; simpl; [by split; constructor|].
  by rewrite Forall_cons, orb_false_iff, IH.
Qed.

Lemma forallb_Forall {A} (p : A -> bool) l :
  forallb p l = true <-> Forall (λ x, p x = true) l.
Proof.
  induction l as [|x l IH]; simpl; [by split; constructor|].
  by rewrite Forall_cons, andb_true_iff, IH.
Qed.

Lemma validate_token_Ok field value mn mx u :
  validate_token field value mn mx = Ok u <-> token value mn mx.
Proof.
  destruct u. unfold validate_token, token. rewrite bind_Ok. split.
  - intros ([]&[H1 H2]%fail_if_Ok%orb_false_iff&[H3 H4]%fail_if_Ok%orb_false_iff).
    apply Nat.ltb_ge in H1, H2. apply existsb_false in H4.
    apply negb_false_iff, bool_decide_eq_true in H3. by split_and!.
  - intros (Hl&Ht&Hc). exists tt. split.
    + apply fail_if_Ok, orb_false_iff. by rewrite !Nat.ltb_ge.
    + apply fail_if_Ok, orb_false_iff.
      rewrite negb_false_iff, bool_decide_eq_true, existsb_false. done.
Qed.

(** ASCII text without blanks and control characters is its own trimming. *)
Definition graphic (b : Z) : bool := ((33 <=? b) && (b <=? 126))%Z.

Lemma chars_ascii bs : Forall (λ b, graphic b = true) bs -> chars bs = bs.
Proof.
  induction 1 as [|b bs Hb _ IH]; simpl; [done|]. unfold graphic in Hb.
  res_inv. destruct (Z.ltb_spec b 128); [by rewrite IH|lia].
Qed.

Lemma graphic_not_white b : graphic b = true -> is_whitespace b = false /\ is_control b = false.
Proof.
  unfold graphic, is_whitespace, is_control. intros H. res_inv.
  split; repeat match goal with
    | |- (_ || _) = false => apply orb_false_iff; split
    | |- (_ && _) = false => apply andb_false_iff
    | |- (_ =? _)%Z = false => apply Z.eqb_neq; lia
    end; rewrite ?Z.leb_gt; lia.
Qed.

Lemma trim_graphic bs : Forall (λ b, graphic b = true) bs -> trim bs = bs.
Proof.
  assert (forall l, Forall (λ b, graphic b = true) l -> trim_start l = l) as Hs.
  { intros l [|b l' Hb _]; simpl; [done|]. by rewrite (proj1 (graphic_not_white b Hb)). }
  intros H. unfold trim. rewrite (Hs bs), (Hs (rev bs)), rev_involutive; auto.
  rewrite Forall_forall in *. intros x. rewrite list_elem_of_In, <- in_rev, <- list_elem_of_In. auto.
Qed.

Lemma graphic_token value mn mx :
  Forall (λ b, graphic b = true) (bytes_of value) -> mn <= len value <= mx -> token value mn mx.
Proof.
  intros H Hl. unfold token. rewrite (chars_ascii _ H), (trim_graphic _ H). do 2 (split; [done|]).
  eapply Forall_impl; [exact H|]. intros b Hb. by apply graphic_not_white.
Qed.

(** A slug: nonempty words of lowercase letters and digits joined by hyphens. *)
Definition word_byte (b : Z) : bool := is_ascii_lowercase b || is_ascii_digit b.
Definition slug_words (bs : list Z) : Prop :=
  exists words, words <> [] /\
    Forall (λ w, w <> [] /\ Forall (λ b, word_byte b = true) w) words /\
    bs = join_with 45 words.

Section slug.
Context (field : string).

(** The scan accepts exactly the texts whose remaining hyphens are single;
    [pre] says the scan is just after a word byte. *)
Lemma slug_loop_words index prev bs :
  (index = 0 -> prev = false) ->
  slug_loop field index prev bs = Ok false ->
  bs = [] /\ (prev = false) \/
  exists w ws, bs = join_with 45 (w :: ws) /\
    Forall (λ b, word_byte b = true) w /\
    ((index = 0 \/ prev = true) -> w <> []) /\
    Forall (λ w, w <> [] /\ Forall (λ b, word_byte b = true) w) ws.
Proof.
  revert index prev. induction bs as [|b bs IH]; intros index prev Hi; simpl.
  { intros [= ->]. by left. }
  rewrite bind_Ok. intros ([]&Hg%fail_if_Ok&Hl). right.
  apply orb_false_iff in Hg as [Hv Hd]. apply negb_false_iff in Hv.
  apply IH in Hl; [|lia].
  destruct (Z.eqb_spec b 45) as [->|Hb].
  - simpl in Hd. apply orb_false_iff in Hd as [Hi0 ->]. apply Nat.eqb_neq in Hi0.
    destruct Hl as [[-> ?]|(w&ws&->&Hw&Hne&Hws)]; [done|].
    exists [], (w :: ws). split_and!; [done|by constructor|naive_solver|].
    constructor; [|done]. split; [|done]. apply Hne. by right.
  - rewrite orb_false_r in Hv.
    destruct Hl as [[-> _]|(w&ws&->&Hw&_&Hws)].
    + exists [b], []. split_and!; [done|by repeat constructor|done|constructor].
    + exists (b :: w), ws. split_and!; [by destruct ws|by constructor|done|done].
Qed.

Lemma slug_loop_accepts index prev w ws :
  Forall (λ b, word_byte b = true) w ->
  ((index = 0 \/ prev = true) -> w <> []) -> (w = [] -> ws = [] -> prev = false) ->
  Forall (λ w, w <> [] /\ Forall (λ b, word_byte b = true) w) ws ->
  slug_loop field index prev (join_with 45 (w :: ws)) = Ok false.
Proof.
  revert index prev w. induction ws as [|w' ws IHs]; intros index prev w Hw.
  all: revert index prev; induction Hw as [|b w Hb Hw IHw]; intros index prev Hne Hp Hws.
  - simpl. by rewrite Hp.
  - assert (b <> 45%Z) by (intros ->; done). simpl.
    rewrite (proj2 (Z.eqb_neq b 45)), orb_false_r by done.
    unfold word_byte in Hb. rewrite Hb. simpl. apply IHw; [lia|done..|constructor].
  - change (join_with 45 ([] :: w' :: ws)) with (45%Z :: join_with 45 (w' :: ws)).
    assert ((index =? 0)%nat || prev = false) as Hg.
    { destruct (Nat.eqb_spec index 0), prev; simpl; try done; exfalso; naive_solver. }
    simpl slug_loop. rewrite Hg. simpl.
    apply Forall_cons in Hws as [[? ?] ?]. apply IHs; naive_solver.
  - assert (b <> 45%Z) by (intros ->; done).
    change (join_with 45 ((b :: w) :: w' :: ws)) with (b :: join_with 45 (w :: w' :: ws)).
    simpl slug_loop. rewrite (proj2 (Z.eqb_neq b 45)), orb_false_r by done.
    unfold word_byte in Hb. rewrite Hb. simpl. apply IHw; [lia|done..].
Qed.
End slug.

Lemma word_byte_graphic b : word_byte b = true -> graphic b = true.
Proof.
  unfold word_byte, is_ascii_lowercase, is_ascii_digit, graphic.
  intros [H|H]%orb_true_iff; res_inv; apply andb_true_iff; rewrite !Z.leb_le; lia.
Qed.

Lemma join_with_Forall (P : Z -> Prop) sep ws :
  P sep -> Forall (Forall P) ws -> Forall P (join_with sep ws).
Proof.
  intros Hs. induction 1 as [|w ws Hw Hws IH]; simpl; [constructor|].
  destruct ws; [done|]. apply Forall_app. split; [done|]. by constructor.
Qed.

(** [validate_slug] accepts exactly the texts of 1 to 63 bytes made of
    nonempty words of lowercase letters and digits joined by single hyphens. *)
Theorem validate_slug_spec field value u :
  validate_slug field value = Ok u <->
  slug_words (bytes_of value) /\ 1 <= len value <= 63.
Proof.
  destruct u. unfold validate_slug. rewrite bind_Ok. split.
  - intros ([]&[Hl _]%validate_token_Ok&H). split; [|done].
    apply bind_Ok in H as (p&Hp&->%fail_if_Ok).
    apply slug_loop_words in Hp as [[Hnil _]|(w&ws&Hj&Hw&Hne&Hws)]; [| |done].
    + rewrite <- bytes_of_length, Hnil in Hl. simpl in Hl. lia.
    + exists (w :: ws). split_and!; [done| |done]. constructor; [|done]. auto.
  - intros ((words&Hne&Hws&Hj)&Hl). exists tt. split.
    + apply validate_token_Ok, graphic_token; [|done]. rewrite Hj.
      apply join_with_Forall; [done|]. eapply Forall_impl; [exact Hws|].
      intros w [_ Hw]. eapply Forall_impl; [exact Hw|]. apply word_byte_graphic.
    + apply bind_Ok. exists false. split; [|done].
      destruct words as [|w ws]; [done|]. apply Forall_cons in Hws as [[? ?] ?].
      rewrite Hj. apply slug_loop_accepts; naive_solver.
Qed.
