(* ===== verification/Digest.v ===== *)
(** * Fixed-width byte values, identifiers and the external platform

    [protocol/src/digest.rs]: [Bytes32], [ShotId], [ExpressionId], [VersionId],
    [Address20], lowercase hexadecimal, content-bound derivations; the JSON
    values that [serde] hands to the canonicalizer; and [Platform], the code
    outside the repository that the protocol crate calls. *)
From S2P Require Import Prelude Text.

(** ** Arrays of [n] bytes *)

Definition bytes_ok (n : nat) (l : list Z) : bool :=
  (length l =? n)%nat && forallb (λ b, (0 <=? b) && (b <? 256))%Z l.

(** [[u8; n]] *)
Record ByteArray (n : nat) := MkBytes { as_bytes : list Z; as_bytes_ok : bytes_ok n as_bytes = true }.
Arguments MkBytes {_} _ _.
Arguments as_bytes {_} _.
Arguments as_bytes_ok {_} _.

Lemma bytes_eq {n} (a b : ByteArray n) : as_bytes a = as_bytes b -> a = b.
Proof.
  destruct a as [a Ha], b as [b Hb]. simpl. intros ->. f_equal.
  apply Eqdep_dec.UIP_dec. decide equality.
Qed.

#[export] Instance as_bytes_inj {n} : Inj (=) (=) (@as_bytes n).
Proof. intros a b. apply bytes_eq. Qed.

#[export] Instance ByteArray_eq_dec {n} : EqDecision (ByteArray n).
Proof.
  intros a b. destruct (decide (as_bytes a = as_bytes b)) as [E|E].
  - left. by apply bytes_eq.
  - right. congruence.
Defined.

(** Build an array from bytes, when they have the right shape. *)
Definition try_bytes (n : nat) (l : list Z) : option (ByteArray n) :=
  match bool_dec (bytes_ok n l) true with
  | left H => Some (MkBytes l H)
  | right _ => None
  end.

#[export] Instance ByteArray_countable {n} : Countable (ByteArray n).
Proof.
  refine (inj_countable as_bytes (try_bytes n) _).
  intros [l H]. unfold try_bytes. simpl. destruct (bool_dec _ _); [|done].
  f_equal. by apply bytes_eq.
Defined.

Lemma try_bytes_Some n l (a : ByteArray n) : try_bytes n l = Some a <-> as_bytes a = l.
Proof.
  unfold try_bytes. split.
  - destruct (bool_dec _ _); [by intros [= <-]|done].
  - intros <-. destruct (bool_dec _ _) as [H|H]; [f_equal; by apply bytes_eq|].
    by destruct (H (as_bytes_ok a)).
Qed.

Lemma as_bytes_length {n} (a : ByteArray n) : length (as_bytes a) = n.
Proof. pose proof (as_bytes_ok a) as H. unfold bytes_ok in H. res_inv. by apply Nat.eqb_eq. Qed.

Lemma as_bytes_bound {n} (a : ByteArray n) : Forall (λ b, 0 <= b < 256)%Z (as_bytes a).
Proof.
  pose proof (as_bytes_ok a) as H. unfold bytes_ok in H. res_inv.
  eapply Forall_impl; [by apply forallb_Forall|]. simpl. intros b Hb. res_inv. lia.
Qed.

(** [Ord] on arrays: lexicographic. *)
Definition array_leb {n} (a b : ByteArray n) : bool := bytes_leb (as_bytes a) (as_bytes b).

Lemma array_leb_total {n} (a b : ByteArray n) : array_leb a b = true \/ array_leb b a = true.
Proof. apply bytes_leb_total. Qed.
Lemma array_leb_trans {n} (a b c : ByteArray n) :
  array_leb a b = true -> array_leb b c = true -> array_leb a c = true.
Proof. apply bytes_leb_trans. Qed.
Lemma array_leb_antisym {n} (a b : ByteArray n) :
  array_leb a b = true -> array_leb b a = true -> a = b.
Proof. intros. apply bytes_eq. by apply bytes_leb_antisym. Qed.

Lemma zero_ok_true n : bytes_ok n (replicate n 0%Z) = true.
Proof.
  unfold bytes_ok. rewrite length_replicate, Nat.eqb_refl. simpl.
  apply forallb_Forall. by apply Forall_replicate.
Qed.

(** The same fact as a proof that evaluates to [eq_refl] at a concrete [n]. *)
Definition zero_ok (n : nat) : bytes_ok n (replicate n 0%Z) = true :=
  match bool_dec (bytes_ok n (replicate n 0%Z)) true with
  | left H => H
  | right F => match F (zero_ok_true n) with end
  end.

Definition zero_bytes (n : nat) : ByteArray n := MkBytes _ (zero_ok n).

Abbreviation Bytes32 := (ByteArray 32).
Definition ZERO : Bytes32 := zero_bytes 32.

(** [[byte; 32]], as the tests write them. *)
Definition filled (n : nat) (b : Z) : ByteArray n :=
  default (zero_bytes n) (try_bytes n (replicate n b)).

(** ** Lowercase hexadecimal *)

Definition hex_digit (n : Z) : Z := if (n <? 10)%Z then (48 + n)%Z else (87 + n)%Z.

Definition encode_prefixed (bytes : list Z) : string :=
  string_of (bytes_of "0x" ++ (bytes ≫= λ b, [hex_digit (b / 16); hex_digit (b mod 16)]%Z)).

Definition decode_nibble (value : Z) : option Z :=
  if is_ascii_digit value then Some (value - 48)%Z
  else if ((97 <=? value) && (value <=? 102))%Z then Some (value - 97 + 10)%Z
  else None.

(** The pairing loop of [decode_lower_hex]; the length test comes first. *)
Fixpoint decode_pairs (input : list Z) : option (list Z) :=
  match input with
  | [] => Some []
  | h :: l :: r =>
      high ← decode_nibble h; low ← decode_nibble l; rest ← decode_pairs r;
      Some (high * 16 + low :: rest)%Z
  | [_] => None
  end.

Definition decode_lower_hex (n : nat) (input : list Z) : option (list Z) :=
  if (length input =? n * 2)%nat then decode_pairs input else None.

Definition from_hex (n : nat) (field value : string) : result (ByteArray n) :=
  validate_lower_hex field value n ;;
  bytes ← ok_or (invalid field "contains invalid hexadecimal")
            (decode_lower_hex n (drop 2 (bytes_of value)));
  ok_or (invalid field "contains invalid hexadecimal") (try_bytes n bytes).

Definition to_hex {n} (b : ByteArray n) : string := encode_prefixed (as_bytes b).

Arguments from_hex : simpl never.
Arguments to_hex : simpl never.

Lemma hex_digit_spec n : (0 <= n < 16)%Z ->
  is_lower_hex (hex_digit n) = true /\ decode_nibble (hex_digit n) = Some n /\
  (0 <= hex_digit n < 256)%Z.
Proof.
  intros H. assert (forallb (λ n, is_lower_hex (hex_digit n)
      && bool_decide (decode_nibble (hex_digit n) = Some n)
      && (0 <=? hex_digit n)%Z && (hex_digit n <? 256)%Z) (seqZ 0 16) = true) as Hall by done.
  rewrite forallb_Forall, Forall_forall in Hall.
  assert (n ∈ seqZ 0 16) as Hn by (apply elem_of_seqZ; lia).
  specialize (Hall n Hn). simpl in Hall. res_inv. eauto.
Qed.

Lemma nibble_hex b n : decode_nibble b = Some n -> (0 <= n < 16)%Z /\ hex_digit n = b.
Proof.
  unfold decode_nibble, hex_digit, is_ascii_digit.
  repeat case_match; intros; simplify_eq; res_inv; lia.
Qed.

Definition hex_of (bytes : list Z) : list Z :=
  bytes ≫= λ b, [hex_digit (b / 16); hex_digit (b mod 16)]%Z.

Lemma hex_of_spec bs : Forall (λ b, 0 <= b < 256)%Z bs ->
  Forall (λ b, is_lower_hex b = true /\ 0 <= b < 256)%Z (hex_of bs) /\
  length (hex_of bs) = length bs * 2 /\ decode_pairs (hex_of bs) = Some bs.
Proof.
  induction 1 as [|b bs Hb _ (IH1&IH2&IH3)]; [done|].
  destruct (hex_digit_spec (b / 16)) as (?&Hh&?).
  { split; [apply Z.div_pos; lia|apply Z.div_lt_upper_bound; lia]. }
  destruct (hex_digit_spec (b mod 16)) as (?&Hl&?); [by apply Z.mod_pos_bound|].
  change (hex_of (b :: bs)) with (hex_digit (b / 16) :: hex_digit (b mod 16) :: hex_of bs)%Z.
  split; [constructor; [done|]; by constructor|]. simpl. split; [lia|].
  rewrite Hh, Hl, IH3. simpl. do 2 f_equal.
  pose proof (Z.div_mod b 16). lia.
Qed.

Lemma decode_pairs_hex l bs : decode_pairs l = Some bs ->
  hex_of bs = l /\ Forall (λ b, 0 <= b < 256)%Z bs.
Proof.
  revert bs. induction l as [|a|a b l IH] using list_pair_ind; simpl; intros bs; try done.
  { by intros [= <-]. }
  destruct (decode_nibble a) as [h|] eqn:Ha; simpl; [|done].
  destruct (decode_nibble b) as [lo|] eqn:Hb; simpl; [|done].
  destruct (decode_pairs l) as [rest|]; simpl; [|done]. intros [= <-].
  apply nibble_hex in Ha as [? <-]. apply nibble_hex in Hb as [? <-].
  destruct (IH rest eq_refl) as [<- ?]. split; [|constructor; [lia|done]].
  change (hex_of ((h * 16 + lo) :: rest)%Z)
    with (hex_digit ((h * 16 + lo) / 16) :: hex_digit ((h * 16 + lo) mod 16) :: hex_of rest)%Z.
  rewrite Z.div_add_l, Z.div_small, Z.add_0_r by lia.
  by rewrite Z.add_comm, Z.mod_add, Z.mod_small by lia.
Qed.

Lemma to_hex_bytes {n} (b : ByteArray n) :
  bytes_of (to_hex b) = 48%Z :: 120%Z :: hex_of (as_bytes b).
Proof.
  destruct (hex_of_spec (as_bytes b) (as_bytes_bound b)) as (H&_&_).
  unfold to_hex, encode_prefixed. fold (hex_of (as_bytes b)).
  rewrite bytes_of_string_of; [done|].
  simpl. repeat (constructor; [lia|]). eapply Forall_impl; [exact H|]. naive_solver.
Qed.

Lemma from_hex_to_hex_fact {n} (field : string) (b : ByteArray n) :
  from_hex n field (to_hex b) = Ok b.
Proof.
  destruct (hex_of_spec (as_bytes b) (as_bytes_bound b)) as (H&Hl&Hd).
  assert (len (to_hex b) = 2 + n * 2) as Hlen.
  { rewrite <- bytes_of_length, to_hex_bytes. simpl. by rewrite Hl, as_bytes_length. }
  unfold from_hex, validate_lower_hex. rewrite Hlen, Nat.eqb_refl, to_hex_bytes.
  change (starts_with (bytes_of "0x") (48%Z :: 120%Z :: hex_of (as_bytes b))) with true.
  change (drop 2 (48%Z :: 120%Z :: hex_of (as_bytes b))) with (hex_of (as_bytes b)).
  rewrite (proj2 (forallb_Forall _ _)) by (eapply Forall_impl; [exact H|]; naive_solver).
  simpl. unfold decode_lower_hex.
  rewrite Hl, as_bytes_length, Nat.eqb_refl, Hd. simpl.
  by rewrite (proj2 (try_bytes_Some _ _ b) eq_refl).
Qed.

(** Decoding the hexadecimal form of a 32-byte (or 20-byte) value gives
    the value back: [from_hex] after [to_hex] is the identity. *)
Theorem from_hex_to_hex {n} (field : string) (b : ByteArray n) :
  from_hex n field (to_hex b) = Ok b.
Proof. by eapply from_hex_to_hex_fact. Qed.

Lemma to_hex_from_hex_fact {n} (field s : string) (b : ByteArray n)
    (H : from_hex n field s = Ok b) : to_hex b = s.
Proof.
  unfold from_hex, validate_lower_hex in H. res_inv. apply try_bytes_Some in H as <-.
  match goal with H : decode_lower_hex _ _ = _ |- _ => rename H into Hd end.
  unfold decode_lower_hex in Hd. case_match; [|done].
  apply decode_pairs_hex in Hd as [Hd _]. apply (inj bytes_of).
  rewrite to_hex_bytes, Hd.
  match goal with H : starts_with _ _ = true |- _ => rename H into Hp end.
  change (bytes_of "0x") with [48; 120]%Z in Hp.
  destruct (bytes_of s) as [|x [|y l]]; cbn [starts_with drop] in *; res_inv; try done.
  repeat match goal with H : (_ =? _)%Z = true |- _ => apply Z.eqb_eq in H; subst end.
  done.
Qed.

(** Hexadecimal parsing is canonical: the only text [from_hex] accepts for
    a value is the one [to_hex] prints (lowercase, [0x]-prefixed, exact width). *)
Theorem to_hex_from_hex {n} (field s : string) (b : ByteArray n)
    (H : from_hex n field s = Ok b) : to_hex b = s.
Proof. by eapply to_hex_from_hex_fact. Qed.

Example hex_example : to_hex (filled 32 171) =
  "0xabababababababababababababababababababababababababababababababab".
Proof. vm_compute. reflexivity. Qed.

Lemma to_hex_from_hex_witness :
  from_hex 20 "address" "0x0000000000000000000000000000000000000000" = Ok (zero_bytes 20) /\
  to_hex (zero_bytes 20) = "0x0000000000000000000000000000000000000000".
Proof. split; [|apply (to_hex_from_hex "address")]; vm_compute; reflexivity. Defined.

Lemma to_hex_inj {n} : Inj (=) (=) (@to_hex n).
Proof.
  intros a b E. assert (Ok (E:=ProtocolError) a = Ok b) as [= ->]; [|done].
  by rewrite <- (from_hex_to_hex_fact "" a), E, from_hex_to_hex_fact.
Qed.

(** ** Identifiers *)

Record ShotId := MkShotId { shot_bytes : Bytes32 }.
Record ExpressionId := MkExpressionId { expression_bytes : Bytes32 }.
Record VersionId := MkVersionId { version_bytes : Bytes32 }.
Record Address20 := MkAddress20 { address_bytes : ByteArray 20 }.

#[export] Instance ShotId_eq_dec : EqDecision ShotId.
Proof. solve_decision. Defined.
#[export] Instance ExpressionId_eq_dec : EqDecision ExpressionId.
Proof. solve_decision. Defined.
#[export] Instance VersionId_eq_dec : EqDecision VersionId.
Proof. solve_decision. Defined.
#[export] Instance Address20_eq_dec : EqDecision Address20.
Proof. solve_decision. Defined.
#[export] Instance ShotId_countable : Countable ShotId.
Proof. refine (inj_countable' shot_bytes MkShotId _). by intros []. Defined.
#[export] Instance ExpressionId_countable : Countable ExpressionId.
Proof. refine (inj_countable' expression_bytes MkExpressionId _). by intros []. Defined.
#[export] Instance VersionId_countable : Countable VersionId.
Proof. refine (inj_countable' version_bytes MkVersionId _). by intros []. Defined.

Definition shot_is_zero (i : ShotId) : bool := shot_bytes i == ZERO.
Definition expression_is_zero (i : ExpressionId) : bool := expression_bytes i == ZERO.
Definition version_is_zero (i : VersionId) : bool := version_bytes i == ZERO.
(** [address.as_bytes().iter().all(|byte| *byte == 0)] *)
Definition address_is_zero (a : Address20) : bool :=
  forallb (λ byte, byte =? 0)%Z (as_bytes (address_bytes a)).

(** ** JSON values, as [serde] produces them *)

Inductive json : Type :=
  | JNull
  | JBool (b : bool)
  | JNum (n : Z)
  | JStr (s : string)
  | JArr (items : list json)
  | JObj (members : list (string * json)).

Definition json_eq : forall a b : json, Decision (a = b).
Proof.
  unshelve refine (fix go a b : Decision (a = b) :=
    let list_go := fix list_go (l1 l2 : list json) : Decision (l1 = l2) :=
      match l1, l2 with
      | [], [] => left _
      | x :: l1, y :: l2 => cast_if_and (go x y) (list_go l1 l2)
      | _, _ => right _
      end in
    let members_go := fix members_go (l1 l2 : list (string * json)) : Decision (l1 = l2) :=
      match l1, l2 with
      | [], [] => left _
      | (k1, x) :: l1, (k2, y) :: l2 =>
          cast_if_and3 (decide (k1 = k2)) (go x y) (members_go l1 l2)
      | _, _ => right _
      end in
    match a, b with
    | JNull, JNull => left _
    | JBool x, JBool y => cast_if (decide (x = y))
    | JNum x, JNum y => cast_if (decide (x = y))
    | JStr x, JStr y => cast_if (decide (x = y))
    | JArr x, JArr y => cast_if (list_go x y)
    | JObj x, JObj y => cast_if (members_go x y)
    | _, _ => right _
    end); congruence.
Defined.
#[export] Instance json_eq_dec : EqDecision json := json_eq.

(** [serde::Serialize] *)
Class ToJson (A : Type) := to_json : A -> json.
#[export] Hint Mode ToJson ! : typeclass_instances.

#[export] Instance string_to_json : ToJson string := JStr.
#[export] Instance bool_to_json : ToJson bool := JBool.
#[export] Instance Z_to_json : ToJson Z := JNum.
#[export] Instance option_to_json `{ToJson A} : ToJson (option A) :=
  λ o, match o with Some x => to_json x | None => JNull end.
#[export] Instance list_to_json `{ToJson A} : ToJson (list A) := λ l, JArr (to_json <$> l).
#[export] Instance bytes_to_json {n} : ToJson (ByteArray n) := λ b, JStr (to_hex b).
#[export] Instance ShotId_to_json : ToJson ShotId := λ i, to_json (shot_bytes i).
#[export] Instance ExpressionId_to_json : ToJson ExpressionId := λ i, to_json (expression_bytes i).
#[export] Instance VersionId_to_json : ToJson VersionId := λ i, to_json (version_bytes i).
#[export] Instance Address20_to_json : ToJson Address20 := λ a, to_json (address_bytes a).

(** [#[serde(skip_serializing_if = "Option::is_none")]] *)
Definition optional_member `{ToJson A} (name : string) (o : option A) : list (string * json) :=
  match o with Some x => [(name, to_json x)] | None => [] end.

(** ** The platform: third-party code the protocol crate calls

    [sha2], [serde_json_canonicalizer] (RFC 8785), [p256] and [time]. Nothing
    is assumed of these functions here; theorems that rely on a law of one of
    them state it as a hypothesis. *)
Record OffsetDateTime := {
  odt_utc : bool;           (** [offset() == UtcOffset::UTC] *)
  odt_nanosecond : Z;
  odt_unix_timestamp : Z }.

Class Platform := {
  sha256 : list Z -> Bytes32;
  jcs_to_vec : json -> Result string (list Z);
  affine_point_valid : Bytes32 -> Bytes32 -> bool;
  scalars_valid : Bytes32 -> Bytes32 -> bool;
  prehash_verifies : (Bytes32 * Bytes32) -> Bytes32 -> (Bytes32 * Bytes32) -> bool;
  parse_rfc3339 : string -> option OffsetDateTime }.

(** [canonical::to_vec] and [canonical::sha256_commitment] *)
Definition canonical_to_vec `{Platform} `{ToJson A} (value : A) : result (list Z) :=
  map_err CanonicalJson (jcs_to_vec (to_json value)).

Definition sha256_commitment `{Platform} `{ToJson A} (value : A) : result Bytes32 :=
  bytes ← canonical_to_vec value; Ok (sha256 bytes).

(** ** Content-bound derivations *)

Section derivations.
Context `{Platform}.

(** The byte-string domain separators end with a zero byte. *)
Definition domain (s : string) : list Z := bytes_of s ++ [0%Z].

Definition for_legacy_v1_expression (shot_id : ShotId) (bundle_id : string) : ExpressionId :=
  MkExpressionId (sha256 (domain "TOHSENO-LEGACY-V1-EXPRESSION"
    ++ as_bytes (shot_bytes shot_id) ++ bytes_of bundle_id)).

Definition version_preimage (shot_id : ShotId) (expression_id : ExpressionId) (ordinal : Z)
    (genome_digest source_digest : Bytes32) : list Z :=
  domain "TOHSENO-VERSION-ID-V2" ++ as_bytes (shot_bytes shot_id)
    ++ as_bytes (expression_bytes expression_id) ++ be_bytes 8 ordinal
    ++ as_bytes genome_digest ++ as_bytes source_digest.

Definition derive_version_id (shot_id : ShotId) (expression_id : ExpressionId) (ordinal : Z)
    (genome_digest source_digest : Bytes32) : VersionId :=
  MkVersionId (sha256 (version_preimage shot_id expression_id ordinal genome_digest source_digest)).

Definition for_legacy_v1_version (shot_id : ShotId) (expression_id : ExpressionId)
    (sequence : Z) (record_commitment : Bytes32) : VersionId :=
  MkVersionId (sha256 (domain "TOHSENO-LEGACY-V1-VERSION" ++ as_bytes (shot_bytes shot_id)
    ++ as_bytes (expression_bytes expression_id) ++ be_bytes 4 sequence
    ++ as_bytes record_commitment)).
End derivations.

Lemma app_same_length {A} (a b c d : list A) :
  length a = length b -> a ++ c = b ++ d -> a = b /\ c = d.
Proof. apply app_inj_1. Qed.

(** The [VersionId] preimage is an unambiguous encoding of its five facts. *)
Lemma version_preimage_inj s e o g c s' e' o' g' c' :
  (0 <= o <= U64_MAX)%Z -> (0 <= o' <= U64_MAX)%Z ->
  version_preimage s e o g c = version_preimage s' e' o' g' c' ->
  s = s' /\ e = e' /\ o = o' /\ g = g' /\ c = c'.
Proof.
  unfold version_preimage, U64_MAX. intros Ho Ho' E. apply app_inv_head in E.
  apply app_same_length in E as [Es E]; [|by rewrite !as_bytes_length].
  apply app_same_length in E as [Ee E]; [|by rewrite !as_bytes_length].
  apply app_same_length in E as [Eo E]; [|by rewrite !be_bytes_length].
  apply app_same_length in E as [Eg Ec]; [|by rewrite !as_bytes_length].
  apply be_bytes_inj in Eo; [|simpl; lia..].
  destruct s, s', e, e'; simpl in *.
  apply (inj as_bytes) in Es, Ee, Eg, Ec. by subst.
Qed.

(** A [VersionId] is content-bound: unless SHA-256 collides on the two
    preimages, equal identifiers have the same Shot, expression, ordinal,
    genome digest and source digest. *)
Theorem version_id_content_bound `{Platform} s e o g c s' e' o' g' c'
    (Ho : (0 <= o <= U64_MAX)%Z) (Ho' : (0 <= o' <= U64_MAX)%Z)
    (Hcollision : sha256 (version_preimage s e o g c) = sha256 (version_preimage s' e' o' g' c') ->
                  version_preimage s e o g c = version_preimage s' e' o' g' c')
    (Hid : derive_version_id s e o g c = derive_version_id s' e' o' g' c') :
  s = s' /\ e = e' /\ o = o' /\ g = g' /\ c = c'.
Proof.
  unfold derive_version_id in Hid. injection Hid as Hid.
  by apply version_preimage_inj; [| |apply Hcollision].
Qed.

(** ** A concrete platform, for witnesses

    A toy hash (a polynomial over the bytes, modulo [2^40]), a compact JSON
    printer (member values in order, long strings by their last 16 bytes), and
    signatures that accept when [r] is the digest; it makes every definition of
    the development executable. *)
Module Toy.
Definition of_Z (n : nat) (z : Z) : ByteArray n :=
  default (zero_bytes n) (try_bytes n (be_bytes n z)).

Definition hash (bs : list Z) : Bytes32 :=
  of_Z 32 (foldl (λ acc b, Z.land (acc * 33 + b + 1) 1099511627775)%Z 7%Z bs).

Fixpoint print (j : json) : list Z :=
  match j with
  | JNull => [110%Z]
  | JBool b => [if b then 116%Z else 102%Z]
  | JNum n => bytes_of (pretty n) ++ [59%Z]
  | JStr s => 34%Z :: bytes_of (String.substring (len s - 16) 16 s) ++ [34%Z]
  | JArr l => 91%Z :: concat (print <$> l) ++ [93%Z]
  | JObj ms => 123%Z :: concat ((λ m, 58%Z :: print (snd m)) <$> ms) ++ [125%Z]
  end.

(** Seconds since 2000-01-01 counting every month as 31 days: monotone in the
    text of a canonical timestamp, which is all the examples need. *)
Definition digits (bs : list Z) : Z := foldl (λ acc b, acc * 10 + (b - 48))%Z 0%Z bs.
Definition field (bs : list Z) (i n : nat) : Z := digits (take n (drop i bs)).
Definition rfc3339 (s : string) : option OffsetDateTime :=
  let bs := bytes_of s in
  if (length bs =? 20)%nat then
    Some {| odt_utc := true; odt_nanosecond := 0%Z;
            odt_unix_timestamp :=
              ((((((field bs 0 4 - 2000) * 12 + field bs 5 2) * 31 + field bs 8 2) * 24
                 + field bs 11 2) * 60 + field bs 14 2) * 60 + field bs 17 2)%Z |}
  else None.

#[export] Instance platform : Platform := {|
  sha256 := hash;
  jcs_to_vec j := Ok (print j);
  affine_point_valid x y := x != ZERO;
  scalars_valid r s := (r != ZERO) && (s != ZERO);
  prehash_verifies key digest sig := fst sig == digest;
  parse_rfc3339 := rfc3339 |}.
End Toy.

Lemma version_id_content_bound_witness :
  let s := MkShotId (filled 32 1) in let e := MkExpressionId (filled 32 2) in
  derive_version_id (H:=Toy.platform) s e 3 (filled 32 4) (filled 32 5)
    = derive_version_id (H:=Toy.platform) s e 3 (filled 32 4) (filled 32 5) /\
  (s = s /\ e = e /\ 3%Z = 3%Z /\ filled 32 4 = filled 32 4 /\ filled 32 5 = filled 32 5).
Proof.
  split; [reflexivity|].
  apply (version_id_content_bound (H:=Toy.platform)); unfold U64_MAX; [lia|lia|done|reflexivity].
Defined.
