(* ===== verification/Keys.v ===== *)
(** * Keys, signatures and builder identities

    [protocol/src/signature.rs] (P-256 public keys, low-s signatures, detached
    and sidecar signatures, the 129-byte compact form) and the [BuilderId] of
    [protocol/src/identity.rs]. *)
From S2P Require Import Prelude Text Digest.

Definition COMPACT_SIGNATURE_VERSION : Z := 1.
Definition COMPACT_SIGNATURE_LENGTH : nat := 129.

Definition P256_HALF_ORDER : list Z :=
  [0x7f; 0xff; 0xff; 0xff; 0x80; 0x00; 0x00; 0x00; 0x7f; 0xff; 0xff; 0xff; 0xff; 0xff; 0xff; 0xff;
   0xde; 0x73; 0x7d; 0x56; 0xd3; 0x8b; 0xcf; 0x42; 0x79; 0xdc; 0xe5; 0x61; 0x7e; 0x31; 0x92; 0xa8]%Z.

Record P256PublicKey := { key_x : Bytes32; key_y : Bytes32 }.
Record P256Signature := { sig_r : Bytes32; sig_s : Bytes32 }.
Inductive SignatureAlgorithm := P256.

#[export] Instance P256PublicKey_eq_dec : EqDecision P256PublicKey.
Proof. solve_decision. Defined.
#[export] Instance P256Signature_eq_dec : EqDecision P256Signature.
Proof. solve_decision. Defined.
#[export] Instance SignatureAlgorithm_eq_dec : EqDecision SignatureAlgorithm.
Proof. solve_decision. Defined.

#[export] Instance P256PublicKey_to_json : ToJson P256PublicKey := λ k,
  JObj [("x", to_json (key_x k)); ("y", to_json (key_y k))].
#[export] Instance P256Signature_to_json : ToJson P256Signature := λ s,
  JObj [("r", to_json (sig_r s)); ("s", to_json (sig_s s))].
#[export] Instance SignatureAlgorithm_to_json : ToJson SignatureAlgorithm := λ _, JStr "p256".

Record DetachedP256Signature := {
  detached_algorithm : SignatureAlgorithm;
  detached_digest : Bytes32;
  detached_signature : P256Signature;
  detached_low_s : bool }.

Record SignatureSidecar := {
  sidecar_schema : string;
  sidecar_algorithm : SignatureAlgorithm;
  sidecar_digest : Bytes32;
  public_key : P256PublicKey;
  sidecar_signature : P256Signature;
  low_s : bool }.

#[export] Instance SignatureSidecar_eq_dec : EqDecision SignatureSidecar.
Proof. solve_decision. Defined.
#[export] Instance SignatureSidecar_to_json : ToJson SignatureSidecar := λ s,
  JObj [("schema", to_json (sidecar_schema s));
        ("algorithm", to_json (sidecar_algorithm s));
        ("digest", to_json (sidecar_digest s));
        ("public_key", to_json (public_key s));
        ("signature", to_json (sidecar_signature s));
        ("low_s", to_json (low_s s))].

Definition SIDECAR_SCHEMA : string := "tohseno.signature/1".

Section signature.
Context `{Platform}.

Definition key_validate (k : P256PublicKey) : result unit :=
  fail_if (negb (affine_point_valid (key_x k) (key_y k))) InvalidPublicKey.

Definition validate_scalars (s : P256Signature) : result unit :=
  fail_if (negb (scalars_valid (sig_r s) (sig_s s))) InvalidSignature.

Definition is_low_s (s : P256Signature) : bool := bytes_leb (as_bytes (sig_s s)) P256_HALF_ORDER.

Definition validate_low_s (s : P256Signature) : result unit :=
  validate_scalars s ;;
  fail_if (negb (is_low_s s)) HighSignatureS.

Definition verify_digest (k : P256PublicKey) (digest : Bytes32) (s : P256Signature)
    : result unit :=
  key_validate k ;;
  validate_low_s s ;;
  fail_if (negb (prehash_verifies (key_x k, key_y k) digest (sig_r s, sig_s s)))
    InvalidSignature.

Definition detached_validate (d : DetachedP256Signature) : result unit :=
  fail_if (detached_algorithm d != P256) (invalid "signature.algorithm" "must be p256") ;;
  fail_if (negb (detached_low_s d)) (invalid "signature.low_s" "must be true") ;;
  validate_low_s (detached_signature d).

Definition detached_verify (d : DetachedP256Signature) (k : P256PublicKey) : result unit :=
  detached_validate d ;;
  verify_digest k (detached_digest d) (detached_signature d).

Definition sidecar_validate (s : SignatureSidecar) : result unit :=
  fail_if (sidecar_schema s != SIDECAR_SCHEMA)
    (invalid "signature.schema" ("must be " +:+ SIDECAR_SCHEMA)) ;;
  fail_if (sidecar_algorithm s != P256) (invalid "signature.algorithm" "must be p256") ;;
  fail_if (negb (low_s s)) (invalid "signature.low_s" "must be true") ;;
  key_validate (public_key s) ;;
  validate_low_s (sidecar_signature s).

Definition sidecar_verify `{ToJson T} (s : SignatureSidecar) (signed_object : T) : result unit :=
  sidecar_validate s ;;
  observed ← sha256_commitment signed_object;
  fail_if (sidecar_digest s != observed) DigestMismatch ;;
  verify_digest (public_key s) observed (sidecar_signature s).

Definition encode_compact (k : P256PublicKey) (s : P256Signature) : result (list Z) :=
  key_validate k ;;
  validate_low_s s ;;
  Ok (COMPACT_SIGNATURE_VERSION :: as_bytes (key_x k) ++ as_bytes (key_y k)
        ++ as_bytes (sig_r s) ++ as_bytes (sig_s s)).

(** [encoded[range]] copied into a 32-byte array. *)
Definition component (encoded : list Z) (start : nat) : Bytes32 :=
  default ZERO (try_bytes 32 (take 32 (drop start encoded))).

Definition decode_compact (encoded : list Z) : result (P256PublicKey * P256Signature) :=
  fail_if (negb (length encoded =? COMPACT_SIGNATURE_LENGTH)%nat
           || (default 0%Z (encoded !! 0) != COMPACT_SIGNATURE_VERSION))
    (invalid "compact_signature" "must be version 0x01 followed by x, y, r, and s") ;;
  let k := {| key_x := component encoded 1; key_y := component encoded 33 |} in
  let s := {| sig_r := component encoded 65; sig_s := component encoded 97 |} in
  key_validate k ;;
  validate_low_s s ;;
  Ok (k, s).

(** ** What a verified signature guarantees *)

Lemma verify_digest_Ok k d s u : verify_digest k d s = Ok u <->
  affine_point_valid (key_x k) (key_y k) = true /\
  scalars_valid (sig_r s) (sig_s s) = true /\ is_low_s s = true /\
  prehash_verifies (key_x k, key_y k) d (sig_r s, sig_s s) = true.
Proof.
  destruct u. unfold verify_digest, key_validate, validate_low_s, validate_scalars.
  destruct (affine_point_valid _ _), (scalars_valid _ _), (is_low_s s),
    (prehash_verifies _ _ _); simpl; naive_solver.
Qed.

(** The facts a verified sidecar establishes about the object it signs. *)
Definition signs `{ToJson T} (s : SignatureSidecar) (x : T) : Prop :=
  sidecar_schema s = SIDECAR_SCHEMA /\ low_s s = true /\
  affine_point_valid (key_x (public_key s)) (key_y (public_key s)) = true /\
  scalars_valid (sig_r (sidecar_signature s)) (sig_s (sidecar_signature s)) = true /\
  is_low_s (sidecar_signature s) = true /\
  sha256_commitment x = Ok (sidecar_digest s) /\
  prehash_verifies (key_x (public_key s), key_y (public_key s)) (sidecar_digest s)
    (sig_r (sidecar_signature s), sig_s (sidecar_signature s)) = true.

Lemma sidecar_verify_spec_fact `{ToJson T} (s : SignatureSidecar) (x : T) :
  sidecar_verify s x = Ok tt <-> signs s x.
Proof.
  unfold sidecar_verify, signs, sidecar_validate, key_validate, validate_low_s, validate_scalars.
  destruct (sidecar_algorithm s).
  split.
  - intros Hv. res_inv. subst.
    match goal with H : verify_digest _ _ _ = _ |- _ => apply verify_digest_Ok in H as (?&?&?&?) end.
    split_and!; congruence.
  - intros (->&->&Hk&Hs&Hl&Hc&Hp). rewrite Hk, Hs, Hl, Hc. simpl.
    rewrite bool_decide_eq_true_2 by done. simpl.
    by apply verify_digest_Ok.
Qed.

(** [SignatureSidecar::verify] accepts exactly when the sidecar has the
    right schema and a true low-s flag, its key is on the curve, its scalars
    are valid and low-s, its digest is the canonical commitment of the object
    and P-256 accepts the signature of that digest under that key. *)
Theorem sidecar_verify_spec `{ToJson T} (s : SignatureSidecar) (x : T) :
  sidecar_verify s x = Ok tt <-> signs s x.
Proof. by eapply sidecar_verify_spec_fact. Qed.

Lemma take_drop_app_exact {A} (l k : list A) n m :
  n = length l -> m = length k -> take m (drop n (l ++ k)) = k.
Proof. intros -> ->. by rewrite drop_app_length, take_ge. Qed.

Lemma component_at pre (b : Bytes32) post :
  component (pre ++ as_bytes b ++ post) (length pre) = b.
Proof.
  unfold component. rewrite drop_app_length.
  rewrite take_app_length' by (by rewrite as_bytes_length).
  by rewrite (proj2 (try_bytes_Some 32 _ b) eq_refl).
Qed.

(** Compact signatures round-trip: whatever [encode_compact] produces is
    129 bytes long and decodes to the same key and signature. *)
Theorem compact_roundtrip k s encoded (He : encode_compact k s = Ok encoded) :
  length encoded = COMPACT_SIGNATURE_LENGTH /\ decode_compact encoded = Ok (k, s).
Proof.
  unfold encode_compact in He.
  destruct (key_validate k) as [[]|] eqn:Hk; [|done].
  destruct (validate_low_s s) as [[]|] eqn:Hs; [|done]. simpl in He. injection He as <-.
  set (e := _ :: _). assert (length e = COMPACT_SIGNATURE_LENGTH) as Hl.
  { unfold e. simpl. by rewrite !length_app, !as_bytes_length. }
  split; [done|]. unfold decode_compact. rewrite Hl. simpl.
  destruct k as [x y], s as [r s']. simpl in *.
  replace (component e 1) with x; [replace (component e 33) with y;
    [replace (component e 65) with r; [replace (component e 97) with s'|]|]|].
  - by rewrite Hk, Hs.
  - symmetry. unfold e.
    pose proof (component_at (COMPACT_SIGNATURE_VERSION :: as_bytes x ++ as_bytes y ++ as_bytes r) s' []) as E.
    rewrite app_nil_r in E. simpl in E. rewrite !length_app, !as_bytes_length in E.
    by rewrite <- !app_assoc in E.
  - symmetry. pose proof (component_at (COMPACT_SIGNATURE_VERSION :: as_bytes x ++ as_bytes y) r (as_bytes s')) as E.
    simpl in E. rewrite !length_app, !as_bytes_length in E. by rewrite <- !app_assoc in E.
  - symmetry. pose proof (component_at (COMPACT_SIGNATURE_VERSION :: as_bytes x) y (as_bytes r ++ as_bytes s')) as E.
    simpl in E. by rewrite as_bytes_length in E.
  - symmetry. apply (component_at [COMPACT_SIGNATURE_VERSION] x).
Qed.
End signature.

(** ** Builder identities *)

Definition ROBINHOOD_CHAIN_ID : Z := 4663.

Record BuilderId := { account : Address20 }.
#[export] Instance BuilderId_eq_dec : EqDecision BuilderId.
Proof. solve_decision. Defined.

Definition builder_validate (b : BuilderId) : result unit :=
  fail_if (address_is_zero (account b)) (invalid "builder_id" "account must not be zero").

Definition display_builder (b : BuilderId) : string :=
  "eip155:" +:+ pretty ROBINHOOD_CHAIN_ID +:+ ":" +:+ to_hex (address_bytes (account b)).

#[export] Instance BuilderId_to_json : ToJson BuilderId := λ b, JStr (display_builder b).

Definition builder_prefix : string := "eip155:" +:+ pretty ROBINHOOD_CHAIN_ID +:+ ":".

(** [BuilderId::parse]; the address is read by [Address20]'s [Deserialize]. *)
Definition builder_parse (value : string) : result BuilderId :=
  fail_if (negb (starts_with (bytes_of builder_prefix) (bytes_of value)))
    (invalid "builder_id" ("must begin with " +:+ builder_prefix)) ;;
  let address := string_of (drop (len builder_prefix) (bytes_of value)) in
  account ← map_err (λ _, invalid "builder_id" "contains an invalid account address")
              (from_hex 20 "address" address);
  let builder := {| account := MkAddress20 account |} in
  builder_validate builder ;;
  Ok builder.

Lemma starts_with_app p s : starts_with p (p ++ s) = true.
Proof. induction p; simpl; [done|]. by rewrite Z.eqb_refl. Qed.

Lemma starts_with_drop p s : starts_with p s = true -> s = p ++ drop (length p) s.
Proof.
  revert s. induction p as [|a p IH]; intros [|b s]; simpl; try done.
  intros [->%Z.eqb_eq H]%andb_true_iff. f_equal. by apply IH.
Qed.

(** Builder identities round-trip through their textual form, and the text
    is unique: parsing accepts a text exactly when it is the [Display] of a
    nonzero account on the Robinhood chain. *)
Theorem builder_parse_display (value : string) (b : BuilderId) :
  builder_parse value = Ok b <->
  value = display_builder b /\ address_is_zero (account b) = false.
Proof.
  unfold builder_parse, builder_validate. split.
  - intros H. res_inv. split; [|done]. unfold display_builder. cbn [account address_bytes].
    match goal with H : from_hex _ _ _ = _ |- _ => apply to_hex_from_hex_fact in H; rewrite H end.
    match goal with H : starts_with _ _ = true |- _ => apply starts_with_drop in H as E end.
    apply (inj bytes_of). rewrite E at 1.
    rewrite bytes_of_length.
    change ("eip155:" +:+ pretty ROBINHOOD_CHAIN_ID +:+ ":" +:+ ?s) with (builder_prefix +:+ s).
    rewrite bytes_of_app, bytes_of_string_of; [done|].
    apply Forall_drop, bytes_of_bound.
  - intros [-> Hz]. destruct b as [[a]]. unfold display_builder.
    cbn [account address_bytes] in *.
    change ("eip155:" +:+ pretty ROBINHOOD_CHAIN_ID +:+ ":" +:+ to_hex a)
      with (builder_prefix +:+ to_hex a).
    rewrite bytes_of_app, starts_with_app. simpl negb.
    rewrite <- (bytes_of_length builder_prefix), drop_app_length, string_of_bytes_of.
    cbn [fail_if mbind Result_bind]. rewrite from_hex_to_hex_fact. simpl in *. by rewrite Hz.
Qed.

Lemma compact_roundtrip_witness :
  let k := {| key_x := filled 32 1; key_y := filled 32 2 |} in
  let s := {| sig_r := filled 32 3; sig_s := filled 32 4 |} in
  let e := 1%Z :: replicate 32 1%Z ++ replicate 32 2%Z ++ replicate 32 3%Z ++ replicate 32 4%Z in
  encode_compact (H:=Toy.platform) k s = Ok e /\
  length e = COMPACT_SIGNATURE_LENGTH /\ decode_compact (H:=Toy.platform) e = Ok (k, s).
Proof.
  split; [vm_compute; reflexivity|].
  apply (compact_roundtrip (H:=Toy.platform)). vm_compute. reflexivity.
Defined.
