(* ===== verification/Records.v ===== *)
(** * Shot records of protocol version 1

    [protocol/src/record.rs]: canonical timestamps, factory descriptors and the
    [tohseno.shot/1] record with its validation, commitment and signature. *)
From S2P Require Import Prelude Text Digest Keys.

(** ** Canonical timestamps *)

Record CanonicalTimestamp := { ts_str : string }.
#[export] Instance CanonicalTimestamp_eq_dec : EqDecision CanonicalTimestamp.
Proof. solve_decision. Defined.
#[export] Instance CanonicalTimestamp_to_json : ToJson CanonicalTimestamp := λ t, JStr (ts_str t).

(** [str::ends_with('Z')] *)
Definition ends_with_Z (s : string) : bool := starts_with [90%Z] (rev (bytes_of s)).

Section timestamp.
Context `{Platform}.

Definition timestamp_parse (value : string) : result CanonicalTimestamp :=
  parsed ← ok_or (invalid "created_at" "must be a valid RFC3339 timestamp") (parse_rfc3339 value);
  fail_if (negb (odt_utc parsed) || (odt_nanosecond parsed != 0%Z)
           || negb (len value =? 20)%nat || negb (ends_with_Z value))
    (invalid "created_at" "must use exact UTC second form YYYY-MM-DDTHH:MM:SSZ") ;;
  Ok {| ts_str := value |}.

(** [unix_timestamp] re-parses the text and panics if it is not RFC 3339, which
    [timestamp_parse], the only constructor, excludes ([timestamp_parse_unix]). *)
Definition unix_timestamp (t : CanonicalTimestamp) : Z :=
  match parse_rfc3339 (ts_str t) with
  | Some parsed => odt_unix_timestamp parsed
  | None => 0
  end.

Lemma timestamp_parse_unix value t : timestamp_parse value = Ok t ->
  exists parsed, parse_rfc3339 (ts_str t) = Some parsed /\
    unix_timestamp t = odt_unix_timestamp parsed /\ odt_utc parsed = true /\
    odt_nanosecond parsed = 0%Z.
Proof.
  unfold timestamp_parse, unix_timestamp. intros Ht. res_inv. simpl.
  match goal with H : parse_rfc3339 _ = Some ?p |- _ => exists p; rewrite H end. by split_and!.
Qed.
End timestamp.

(** ** Factory descriptors *)

Record FactoryDescriptor := {
  implementation : string;
  factory_version : string;
  source_commit : string }.

(** 40 bytes, digits or [a]..[f]: a lowercase Git object ID. *)
Definition git_object_id (s : string) : bool :=
  (len s =? 40)%nat && forallb is_lower_hex (bytes_of s).

Definition factory_validate (f : FactoryDescriptor) : result unit :=
  validate_token "factory.implementation" (implementation f) 1 200 ;;
  validate_token "factory.version" (factory_version f) 1 64 ;;
  fail_if (negb (len (source_commit f) =? 40)%nat
           || negb (forallb is_lower_hex (bytes_of (source_commit f))))
    (invalid "factory.source_commit" "must be a 40-character lowercase Git object ID").

#[export] Instance FactoryDescriptor_eq_dec : EqDecision FactoryDescriptor.
Proof. solve_decision. Defined.
#[export] Instance FactoryDescriptor_to_json : ToJson FactoryDescriptor := λ f,
  JObj [("implementation", to_json (implementation f));
        ("version", to_json (factory_version f));
        ("source_commit", to_json (source_commit f))].

(** ** Shot records *)

Inductive ShotOrigin : Type :=
  | LegacyAdoption (legacy_latest_shot : Z) (legacy_source_sha256 : Bytes32).
#[export] Instance ShotOrigin_eq_dec : EqDecision ShotOrigin.
Proof. solve_decision. Defined.
#[export] Instance ShotOrigin_to_json : ToJson ShotOrigin := λ o,
  match o with
  | LegacyAdoption n d =>
      JObj [("kind", JStr "legacy_adoption"); ("legacy_latest_shot", to_json n);
            ("legacy_source_sha256", to_json d)]
  end.

Definition PROTOCOL_NAME : string := "tohseno".
Definition SHOT_SCHEMA : string := "tohseno.shot/1".
Definition APPLE_FASCIA_ID : string := "tohseno.apple/1".

Record ShotRecord := {
  r_protocol : string;
  r_schema : string;
  r_shot_id : ShotId;
  r_slug : string;
  r_builder_id : BuilderId;
  r_sequence : Z;
  r_previous : option Bytes32;
  r_fascia : string;
  r_bundle_id : string;
  r_bundle_version : Z;
  r_genesis_input_sha256 : Bytes32;
  r_source_tree_sha256 : Bytes32;
  r_fascia_sha256 : Bytes32;
  r_factory : FactoryDescriptor;
  r_created_at : CanonicalTimestamp;
  r_origin : option ShotOrigin }.
#[export] Instance ShotRecord_eq_dec : EqDecision ShotRecord.
Proof. solve_decision. Defined.

#[export] Instance ShotRecord_to_json : ToJson ShotRecord := λ r,
  JObj ([("protocol", to_json (r_protocol r)); ("schema", to_json (r_schema r));
         ("shot_id", to_json (r_shot_id r)); ("slug", to_json (r_slug r));
         ("builder_id", to_json (r_builder_id r)); ("sequence", to_json (r_sequence r));
         ("previous", to_json (r_previous r)); ("fascia", to_json (r_fascia r));
         ("bundle_id", to_json (r_bundle_id r)); ("bundle_version", to_json (r_bundle_version r));
         ("genesis_input_sha256", to_json (r_genesis_input_sha256 r));
         ("source_tree_sha256", to_json (r_source_tree_sha256 r));
         ("fascia_sha256", to_json (r_fascia_sha256 r)); ("factory", to_json (r_factory r));
         ("created_at", to_json (r_created_at r))]
        ++ optional_member "origin" (r_origin r)).

(** The origin half of [ShotRecord::validate]. *)
Definition origin_validate (r : ShotRecord) : result unit :=
  match r_origin r with
  | Some (LegacyAdoption legacy_latest_shot legacy_source_sha256) =>
      fail_if (legacy_latest_shot == 0%Z)
        (invalid "origin.legacy_latest_shot" "must be at least 1") ;;
      expected ← ok_or (invalid "origin.legacy_latest_shot"
                          "must leave room for the adopted root Evolution")
                   (checked_add_u32 legacy_latest_shot 1);
      fail_if (r_sequence r != expected)
        (invalid "sequence" "an adopted root must equal legacy_latest_shot + 1") ;;
      fail_if (opt_is_some (r_previous r))
        (invalid "previous"
          "an adopted root has no protocol commitment to reference and must be null") ;;
      fail_if (legacy_source_sha256 == ZERO)
        (invalid "origin.legacy_source_sha256" "must commit the adopted legacy source")
  | None =>
      match r_sequence r, r_previous r with
      | 1%Z, None => Ok tt
      | 1%Z, Some _ => Err (invalid "previous" "must be null for sequence 1")
      | _, Some _ => Ok tt
      | _, None =>
          Err (invalid "previous" "must contain the preceding protocol Evolution commitment")
      end
  end.

Definition record_validate (r : ShotRecord) : result unit :=
  fail_if (r_protocol r != PROTOCOL_NAME) (invalid "protocol" ("must be " +:+ PROTOCOL_NAME)) ;;
  fail_if (r_schema r != SHOT_SCHEMA) (invalid "schema" ("must be " +:+ SHOT_SCHEMA)) ;;
  fail_if (r_fascia r != APPLE_FASCIA_ID) (invalid "fascia" ("must be " +:+ APPLE_FASCIA_ID)) ;;
  fail_if (shot_is_zero (r_shot_id r)) (invalid "shot_id" "must not be zero") ;;
  builder_validate (r_builder_id r) ;;
  validate_slug "slug" (r_slug r) ;;
  validate_bundle_id "bundle_id" (r_bundle_id r) ;;
  fail_if (r_sequence r == 0%Z) (invalid "sequence" "must be at least 1") ;;
  fail_if (r_bundle_version r != r_sequence r)
    (invalid "bundle_version" "must equal the Evolution sequence") ;;
  origin_validate r ;;
  factory_validate (r_factory r).

Definition legacy_latest_shot (r : ShotRecord) : option Z :=
  match r_origin r with Some (LegacyAdoption n _) => Some n | None => None end.

Section record.
Context `{Platform}.

Definition record_commitment (r : ShotRecord) : result Bytes32 :=
  record_validate r ;;
  sha256_commitment r.

Definition verify_signature (r : ShotRecord) (signature : SignatureSidecar) : result unit :=
  record_validate r ;;
  sidecar_verify signature r.
End record.

Arguments record_validate : simpl never.
Arguments record_commitment : simpl never.
Arguments verify_signature : simpl never.
Arguments origin_validate : simpl never.

(** Which records can start a lineage: a sequence-1 record with no predecessor,
    or an adopted root just above its legacy count, with no predecessor. *)
Lemma record_validate_shape r : record_validate r = Ok tt ->
  r_sequence r <> 0%Z /\ r_bundle_version r = r_sequence r /\
  match legacy_latest_shot r with
  | Some n => r_sequence r = (n + 1)%Z /\ (n <> 0)%Z /\ (n + 1 <= U32_MAX)%Z /\ r_previous r = None
  | None => r_sequence r = 1%Z <-> r_previous r = None
  end.
Proof.
  unfold record_validate, legacy_latest_shot. intros Hv. res_inv.
  split; [done|]. split; [done|].
  match goal with H : origin_validate _ = _ |- _ => unfold origin_validate in H; rename H into Ho end.
  destruct (r_origin r) as [[n d]|].
  - res_inv. match goal with H : checked_add_u32 _ _ = _ |- _ =>
      unfold checked_add_u32, checked_add in H; case_match; [|done]; simplify_eq end.
    res_inv. destruct (r_previous r); [done|]. split_and!; try done; congruence.
  - destruct (r_previous r), (r_sequence r) as [|[]|]; naive_solver.
Qed.
