(* ===== verification/Evolution.v ===== *)
(** * Version-1 lineages

    [protocol/src/evolution.rs]: [verify_lineage] over signed [tohseno.shot/1]
    records, from a sequence-1 root or a declared legacy-adoption root. *)
From S2P Require Import Prelude Text Digest Keys Records.

Record VerifiedEvolution := {
  ev_sequence : Z;
  ev_commitment : Bytes32;
  ev_signer : P256PublicKey }.

Record VerifiedLineage := {
  vl_shot_id : ShotId;
  vl_builder_id : BuilderId;
  vl_root_sequence : Z;
  vl_legacy_latest_shot : option Z;
  vl_evolutions : list VerifiedEvolution }.

Definition vl_head (v : VerifiedLineage) : option VerifiedEvolution := last (vl_evolutions v).

Abbreviation entry := (ShotRecord * SignatureSidecar)%type.

Section evolution.
Context `{Platform}.

(** The body of the loop for entry [index]: the checks, in order, against the
    root record, the previous commitment and the previous time. *)
Definition verify_entry (genesis : ShotRecord) (root_sequence : Z) (index : nat)
    (previous_commitment : option Bytes32) (previous_time : option Z) (e : entry)
    : result VerifiedEvolution :=
  let '(record, signature) := e in
  offset ← ok_or (Lineage U32_MAX "lineage is too long") (u32_try_from index);
  expected_sequence ← ok_or (Lineage U32_MAX "lineage sequence overflowed")
                        (checked_add_u32 root_sequence offset);
  let fail reason := Lineage (r_sequence record) reason in
  fail_if (r_sequence record != expected_sequence)
    (fail "sequence is not contiguous from the lineage root") ;;
  fail_if ((0 <? index)%nat && opt_is_some (r_origin record))
    (fail "legacy-adoption origin is permitted only on the lineage root") ;;
  fail_if (r_shot_id record != r_shot_id genesis) (fail "ShotID changed") ;;
  fail_if (r_builder_id record != r_builder_id genesis)
    (fail "BuilderID changed without an ownership-proof model") ;;
  fail_if (r_bundle_id record != r_bundle_id genesis) (fail "bundle identifier changed") ;;
  fail_if (r_fascia record != r_fascia genesis) (fail "Fascia identifier changed") ;;
  fail_if (r_previous record != previous_commitment) (fail "previous commitment does not match") ;;
  fail_if (is_some_and (λ time, unix_timestamp (r_created_at record) <? time)%Z previous_time)
    (fail "created_at moved backwards") ;;
  map_err (λ error, fail ("record signature failed: " +:+ display_error error))
    (verify_signature record signature) ;;
  commitment ← map_err (λ error, fail ("commitment failed: " +:+ display_error error))
                 (record_commitment record);
  Ok {| ev_sequence := r_sequence record; ev_commitment := commitment;
        ev_signer := public_key signature |}.

Fixpoint verify_entries (genesis : ShotRecord) (root_sequence : Z) (index : nat)
    (previous_commitment : option Bytes32) (previous_time : option Z) (entries : list entry)
    : result (list VerifiedEvolution) :=
  match entries with
  | [] => Ok []
  | e :: rest =>
      ev ← verify_entry genesis root_sequence index previous_commitment previous_time e;
      evs ← verify_entries genesis root_sequence (S index) (Some (ev_commitment ev))
              (Some (unix_timestamp (r_created_at (fst e)))) rest;
      Ok (ev :: evs)
  end.

(** The root sequence, decided from the first record. *)
Definition root_sequence_of (genesis : ShotRecord) : result Z :=
  match legacy_latest_shot genesis with
  | Some _ => Ok (r_sequence genesis)
  | None =>
      if (r_sequence genesis == 1%Z) && opt_is_none (r_previous genesis) then Ok 1%Z
      else Err (Lineage (r_sequence genesis)
             "lineage must begin at sequence 1 or at a declared legacy-adoption root")
  end.

Definition verify_lineage (entries : list entry) : result VerifiedLineage :=
  match entries with
  | [] => Err (Lineage 0 "lineage is empty")
  | (genesis, _) :: _ =>
      map_err (λ error, Lineage (r_sequence genesis)
                          ("lineage root is invalid: " +:+ display_error error))
        (record_validate genesis) ;;
      root_sequence ← root_sequence_of genesis;
      evolutions ← verify_entries genesis root_sequence 0 None None entries;
      Ok {| vl_shot_id := r_shot_id genesis; vl_builder_id := r_builder_id genesis;
            vl_root_sequence := root_sequence;
            vl_legacy_latest_shot := legacy_latest_shot genesis;
            vl_evolutions := evolutions |}
  end.

(** ** What a verified lineage is *)

(** Entry [index] stands on the root [genesis]. *)
Record stands_on (genesis : ShotRecord) (root_sequence : Z) (index : nat)
    (e : entry) (ev : VerifiedEvolution) : Prop := {
  so_sequence : r_sequence (fst e) = (root_sequence + Z.of_nat index)%Z;
  so_bound : (root_sequence + Z.of_nat index <= U32_MAX)%Z /\ (Z.of_nat index <= U32_MAX)%Z;
  so_origin : 0 < index -> r_origin (fst e) = None;
  so_shot : r_shot_id (fst e) = r_shot_id genesis;
  so_builder : r_builder_id (fst e) = r_builder_id genesis;
  so_bundle : r_bundle_id (fst e) = r_bundle_id genesis;
  so_fascia : r_fascia (fst e) = r_fascia genesis;
  so_signature : verify_signature (fst e) (snd e) = Ok tt;
  so_commitment : record_commitment (fst e) = Ok (ev_commitment ev);
  so_ev_sequence : ev_sequence ev = r_sequence (fst e);
  so_ev_signer : ev_signer ev = public_key (snd e) }.

(** Entry [i] continues what precedes it. *)
Definition continues (previous : option Bytes32) (time : option Z) (e : entry) : Prop :=
  r_previous (fst e) = previous /\
  forall t, time = Some t -> (t <= unix_timestamp (r_created_at (fst e)))%Z.

Lemma verify_entry_Ok g root i pc pt e ev :
  verify_entry g root i pc pt e = Ok ev <-> stands_on g root i e ev /\ continues pc pt e.
Proof.
  destruct e as [r s]. unfold verify_entry, continues. split.
  - intros Hv. res_inv.
    match goal with H : u32_try_from _ = _ |- _ => unfold u32_try_from in H; case_match; [|done] end.
    match goal with H : checked_add_u32 _ _ = _ |- _ =>
      unfold checked_add_u32, checked_add in H; case_match; [|done] end.
    simplify_eq. res_inv. split; [constructor; simpl; try done; try congruence|split; [done|]].
    + intros Hi. destruct i; [lia|]. destruct (r_origin r); done.
    + intros t ->. simpl in *. by res_inv.
  - intros [[? [Hb1 Hb2] Ho ? ? ? ? Hs Hc ? ?] [Hp Ht]]. simpl in *.
    unfold u32_try_from, checked_add_u32, checked_add.
    rewrite (proj2 (Z.leb_le _ _) Hb2). simpl. rewrite (proj2 (Z.leb_le _ _) Hb1). simpl.
    rewrite !bool_decide_eq_true_2 by congruence. simpl.
    replace ((0 <? i)%nat && opt_is_some (r_origin r)) with false.
    2: { destruct i; [done|]. by rewrite Ho by lia. }
    replace (is_some_and _ pt) with false.
    2: { destruct pt as [t|]; [|done]. simpl. symmetry. apply Z.ltb_ge. by apply Ht. }
    simpl. rewrite Hs, Hc. simpl. destruct ev; simpl in *; congruence.
Qed.

Lemma verify_entries_Ok g root i pc pt es evs :
  verify_entries g root i pc pt es = Ok evs <->
  length evs = length es /\
  (forall k e ev, es !! k = Some e -> evs !! k = Some ev -> stands_on g root (i + k) e ev) /\
  (forall e, es !! 0 = Some e -> continues pc pt e) /\
  (forall k e ev e', es !! k = Some e -> evs !! k = Some ev -> es !! S k = Some e' ->
     continues (Some (ev_commitment ev)) (Some (unix_timestamp (r_created_at (fst e)))) e').
Proof.
  revert i pc pt evs. induction es as [|e es IH]; intros i pc pt evs; simpl verify_entries.
  { split; [intros [= <-]; split_and!; try done; intros []; done|].
    intros [Hl _]. destruct evs; [done|]. simpl in Hl. lia. }
  split.
  - intros Hv. res_inv.
    match goal with H : verify_entry _ _ _ _ _ _ = _ |- _ => apply verify_entry_Ok in H as [Hst Hc] end.
    match goal with H : verify_entries _ _ _ _ _ _ = _ |- _ => apply IH in H as (Hl&Hs&H0&Hk) end.
    simpl. split_and!; [lia| | |].
    + intros [|k] e0 ev0 He Hev; simpl in *; simplify_eq.
      * by rewrite Nat.add_0_r.
      * rewrite Nat.add_succ_r. by apply (Hs k).
    + by intros e0 [= <-].
    + intros [|k] e0 ev0 e1 He Hev He1; simpl in *; simplify_eq; [by apply H0|by eapply Hk].
  - intros (Hl&Hs&H0&Hk). destruct evs as [|ev evs]; [done|]. simpl in Hl.
    apply bind_Ok. exists ev. split.
    + apply verify_entry_Ok. split; [|by apply H0].
      rewrite <- (Nat.add_0_r i). by apply (Hs 0).
    + apply bind_Ok. exists evs. split; [|done]. apply IH. split_and!; [lia| | |].
      * intros k e0 ev0 He Hev. rewrite Nat.add_succ_comm. by apply (Hs (S k)).
      * intros e0 He. by apply (Hk 0 e ev).
      * intros k e0 ev0 e1. apply (Hk (S k)).
Qed.
End evolution.
Arguments verify_entry : simpl never.

Section evolution_properties.
Context `{Platform}.

(** The declarative reading of the doc comment of [verify_lineage]. *)
Record is_lineage (entries : list entry) (v : VerifiedLineage) : Prop := {
  il_root : exists genesis,
    fst <$> head entries = Some genesis /\
    record_validate genesis = Ok tt /\
    root_sequence_of genesis = Ok (vl_root_sequence v) /\
    vl_shot_id v = r_shot_id genesis /\ vl_builder_id v = r_builder_id genesis /\
    vl_legacy_latest_shot v = legacy_latest_shot genesis /\
    forall k e ev, entries !! k = Some e -> vl_evolutions v !! k = Some ev ->
      stands_on genesis (vl_root_sequence v) k e ev;
  il_length : length (vl_evolutions v) = length entries;
  il_first : forall e, entries !! 0 = Some e -> r_previous (fst e) = None;
  il_next : forall k e ev e', entries !! k = Some e -> vl_evolutions v !! k = Some ev ->
    entries !! S k = Some e' ->
    r_previous (fst e') = Some (ev_commitment ev) /\
    (unix_timestamp (r_created_at (fst e)) <= unix_timestamp (r_created_at (fst e')))%Z }.

Lemma verify_lineage_spec_fact (entries : list entry) (v : VerifiedLineage) :
  verify_lineage entries = Ok v <-> is_lineage entries v.
Proof.
  unfold verify_lineage. split.
  - destruct entries as [|[g s] rest]; [done|]. intros Hv. res_inv.
    match goal with H : verify_entries _ _ _ _ _ _ = _ |- _ =>
      apply verify_entries_Ok in H as (Hl&Hs&Hfst&Hk) end.
    constructor; simpl; [exists g; split_and!; auto|done|..].
    + intros e He. by apply Hfst.
    + intros k e ev e' He Hev He'. destruct (Hk k e ev e' He Hev He') as [? Ht]. auto.
  - intros [(g&Hg&Hval&Hroot&Hsh&Hb&Hleg&Hs) Hl H0 Hk].
    destruct entries as [|[g' s] rest]; [done|]. injection Hg as ->.
    rewrite Hval, Hroot. cbn [map_err mbind Result_bind].
    assert (verify_entries g (vl_root_sequence v) 0 None None ((g, s) :: rest)
            = Ok (vl_evolutions v)) as ->.
    { apply verify_entries_Ok. split_and!; [done|done| |].
      - intros e He. split; [by apply H0|done].
      - intros k e ev e' He Hev He'. destruct (Hk k e ev e' He Hev He') as [? ?].
        split; [done|]. by intros t [= <-]. }
    simpl. rewrite <- Hsh, <- Hb, <- Hleg. by destruct v.
Qed.

(** [verify_lineage] accepts exactly the lineages its documentation
    describes: a valid sequence-1 or legacy-adoption root, then contiguous
    sequences, each record naming the commitment of its predecessor, with
    stable Shot, builder, bundle and Fascia identity, monotone timestamps,
    valid signatures and no adoption origin after the root; and what it
    returns is the sequence, commitment and signer of every record. *)
Theorem verify_lineage_spec (entries : list entry) (v : VerifiedLineage) :
  verify_lineage entries = Ok v <-> is_lineage entries v.
Proof. by eapply verify_lineage_spec_fact. Qed.

Lemma is_lineage_linked entries v :
  is_lineage entries v -> linked r_previous record_commitment (fst <$> entries).
Proof.
  intros [(g&_&_&_&_&_&_&Hs) Hl H0 Hk]. split.
  - intros r Hr. rewrite list_lookup_fmap in Hr. apply fmap_Some in Hr as (e&He&->). by apply H0.
  - intros k r r' Hr Hr'. rewrite list_lookup_fmap in Hr, Hr'.
    apply fmap_Some in Hr as (e&He&->), Hr' as (e'&He'&->).
    destruct (lookup_lt_is_Some_2 (vl_evolutions v) k) as [ev Hev].
    { rewrite Hl. by eapply lookup_lt_Some. }
    exists (ev_commitment ev). split; [by apply (so_commitment _ _ _ _ _ (Hs k e ev He Hev))|].
    by apply (Hk k e ev e').
Qed.

(** The head commitment of a version-1 lineage commits to its whole
    history: two verified lineages with the same head have the same records,
    unless the record commitment collides on two of them. *)
Theorem lineage_head_binds_history (es es' : list entry) (v v' : VerifiedLineage)
    (Hv : verify_lineage es = Ok v) (Hv' : verify_lineage es' = Ok v')
    (Hhead : ev_commitment <$> vl_head v = ev_commitment <$> vl_head v')
    (Hcf : collision_free record_commitment (fst <$> es) (fst <$> es')) :
  fst <$> es = fst <$> es'.
Proof.
  apply verify_lineage_spec_fact in Hv, Hv'.
  assert (forall es v, is_lineage es v -> exists r c, last (fst <$> es) = Some r /\
    ev_commitment <$> vl_head v = Some c /\ record_commitment r = Ok c) as Hlast.
  { intros l w [(g&Hg&_&_&_&_&_&Hs) Hl _ _].
    destruct l as [|e0 l0] eqn:El; [done|]. rewrite <- El in *.
    destruct (lookup_lt_is_Some_2 l (pred (length l))) as [e He]; [rewrite El; simpl; lia|].
    destruct (lookup_lt_is_Some_2 (vl_evolutions w) (pred (length l))) as [ev Hev].
    { rewrite Hl, El. simpl. lia. }
    exists (fst e), (ev_commitment ev). unfold vl_head.
    rewrite fmap_last, !last_lookup, He, Hl, Hev. split_and!; [done..|].
    by apply (so_commitment _ _ _ _ _ (Hs _ _ _ He Hev)). }
  destruct (Hlast _ _ Hv) as (r&c&Hr&Hc&Hrc), (Hlast _ _ Hv') as (r'&c'&Hr'&Hc'&Hrc').
  rewrite Hc, Hc' in Hhead. injection Hhead as <-.
  assert (r = r') as <-.
  { rewrite last_lookup in Hr, Hr'. apply Hcf; [by eapply list_elem_of_lookup_2..|congruence]. }
  by eapply (linked_last_eq r_previous record_commitment);
    [eapply is_lineage_linked|eapply is_lineage_linked|..].
Qed.

(** Verification is monotone: every nonempty prefix of a verified
    version-1 lineage verifies, with the corresponding prefix of the verified
    evolutions, so appending an Evolution never changes what was established. *)
Theorem verify_lineage_prefix (es es' : list entry) (v : VerifiedLineage)
    (Hne : es <> []) (Hv : verify_lineage (es ++ es') = Ok v) :
  verify_lineage es = Ok {| vl_shot_id := vl_shot_id v; vl_builder_id := vl_builder_id v;
    vl_root_sequence := vl_root_sequence v; vl_legacy_latest_shot := vl_legacy_latest_shot v;
    vl_evolutions := take (length es) (vl_evolutions v) |}.
Proof.
  apply verify_lineage_spec_fact. apply verify_lineage_spec_fact in Hv.
  destruct Hv as [(g&Hg&Hval&Hroot&Hsh&Hb&Hleg&Hs) Hl H0 Hk].
  rewrite length_app in Hl.
  assert (forall k e, es !! k = Some e -> (es ++ es') !! k = Some e) as Hin
    by (intros; by apply lookup_app_l_Some).
  assert (forall k ev, take (length es) (vl_evolutions v) !! k = Some ev ->
    vl_evolutions v !! k = Some ev) as Hte by (intros k ev Hev; by apply lookup_take_Some in Hev as []).
  constructor; simpl.
  - exists g. split_and!; try done; [by destruct es|]. eauto.
  - rewrite length_take. lia.
  - eauto.
  - intros. eapply Hk; eauto.
Qed.
End evolution_properties.
