(* ===== verification/Ontology.v ===== *)
(** * The ontology: versioned protocol objects of a Shot

    [protocol/src/ontology.rs]: the payload records of the neutral lineage, the
    JSON they serialize to, and the closed-shape validation of each. Record
    fields carry a two-letter prefix per record; the JSON member names are the
    source's field names. *)
From S2P Require Import Prelude Text Digest Keys Records.

Definition MAX_SAFE_JSON_INTEGER : Z := 9007199254740991.

Definition INTENTION_SCHEMA : string := "tohseno.intention/2".
Definition SHOT_COMMITMENT_SCHEMA : string := "tohseno.shot-commitment/2".
Definition GENOME_SCHEMA : string := "tohseno.genome/2".
Definition GENOME_PROPOSAL_SCHEMA : string := "tohseno.genome-proposal/2".
Definition GENOME_ACCEPTANCE_SCHEMA : string := "tohseno.genome-acceptance/2".
Definition EXPRESSION_SCHEMA : string := "tohseno.expression/2".
Definition ORGAN_SCHEMA : string := "tohseno.organ/2".
Definition VERSION_SCHEMA : string := "tohseno.version/2".
Definition FEEDBACK_SCHEMA : string := "tohseno.feedback/2".
Definition EVOLUTIONARY_INTENT_SCHEMA : string := "tohseno.evolutionary-intent/2".
Definition EVOLUTION_SCHEMA : string := "tohseno.evolution/2".
Definition OWNERSHIP_SCHEMA : string := "tohseno.ownership/2".
Definition TOKEN_ASSOCIATION_SCHEMA : string := "tohseno.token-association/2".
Definition VERIFICATION_RESULT_SCHEMA : string := "tohseno.verification-result/2".
Definition ARTIFACT_AVAILABILITY_SCHEMA : string := "tohseno.artifact-availability/2".
Definition PARENT_RELATION_SCHEMA : string := "tohseno.parent-relation/2".
Definition PARENT_AUTHORIZATION_SCHEMA : string := "tohseno.parent-authorization/2".

(** ** Shared checks *)

Definition require_schema (field observed expected : string) : result unit :=
  fail_if (observed != expected) (invalid field ("must be " +:+ expected)).

Definition require_nonzero (field : string) (digest : Bytes32) : result unit :=
  fail_if (digest == ZERO) (invalid field "must not be zero").

Definition validate_tokens (field : string) (values : list string)
    (minimum maximum item_maximum : nat) : result unit :=
  fail_if ((length values <? minimum)%nat || (maximum <? length values)%nat)
    (invalid field ("must contain " +:+ pretty minimum +:+ "..=" +:+ pretty maximum
                    +:+ " entries")) ;;
  for_unique (λ value, validate_token field value 1 item_maximum) id
    (λ _, invalid field "must not contain duplicates") ∅ values.

Definition validate_safe_positive (field : string) (value : Z) : result unit :=
  fail_if ((value == 0%Z) || (MAX_SAFE_JSON_INTEGER <? value)%Z)
    (invalid field ("must be in 1..=" +:+ pretty MAX_SAFE_JSON_INTEGER)).

(** [if let Some(x) = o { f(x)? }] *)
Definition when_some {A} (o : option A) (f : A -> result unit) : result unit :=
  match o with Some x => f x | None => Ok tt end.

(** ** Artifacts *)

Inductive AvailabilityStatus : Type :=
  | Absent | Unknown | IntentionallyPrivate | LocallyAvailable | PubliclyAvailable
  | Replicated | CryptographicallyVerified | OnChainAnchored.
#[export] Instance AvailabilityStatus_eq_dec : EqDecision AvailabilityStatus.
Proof. solve_decision. Defined.

Definition availability_name (s : AvailabilityStatus) : string :=
  match s with
  | Absent => "absent"
  | Unknown => "unknown"
  | IntentionallyPrivate => "intentionally_private"
  | LocallyAvailable => "locally_available"
  | PubliclyAvailable => "publicly_available"
  | Replicated => "replicated"
  | CryptographicallyVerified => "cryptographically_verified"
  | OnChainAnchored => "on_chain_anchored"
  end.
#[export] Instance AvailabilityStatus_to_json : ToJson AvailabilityStatus :=
  λ s, JStr (availability_name s).

Inductive ArtifactLocationKind : Type := LocalPath | Https | ContentAddress | Node | Chain.
#[export] Instance ArtifactLocationKind_eq_dec : EqDecision ArtifactLocationKind.
Proof. solve_decision. Defined.
#[export] Instance ArtifactLocationKind_countable : Countable ArtifactLocationKind.
Proof.
  refine (inj_countable'
    (λ k, match k with LocalPath => 0 | Https => 1 | ContentAddress => 2 | Node => 3 | Chain => 4 end)
    (λ n, match n with 0 => LocalPath | 1 => Https | 2 => ContentAddress | 3 => Node | _ => Chain end) _).
  by intros [].
Defined.
#[export] Instance ArtifactLocationKind_to_json : ToJson ArtifactLocationKind := λ k,
  JStr match k with
       | LocalPath => "local_path" | Https => "https" | ContentAddress => "content_address"
       | Node => "node" | Chain => "chain"
       end.

Record ArtifactLocation := { al_kind : ArtifactLocationKind; al_value : string }.
#[export] Instance ArtifactLocation_eq_dec : EqDecision ArtifactLocation.
Proof. solve_decision. Defined.
#[export] Instance ArtifactLocation_to_json : ToJson ArtifactLocation := λ l,
  JObj [("kind", to_json (al_kind l)); ("value", to_json (al_value l))].

Definition location_validate (l : ArtifactLocation) : result unit :=
  validate_token "artifact.location.value" (al_value l) 1 4096 ;;
  fail_if ((al_kind l == Https) && negb (starts_with (bytes_of "https://") (bytes_of (al_value l))))
    (invalid "artifact.location.value" "an https location must begin with https://").

Record ArtifactDescriptor := {
  ad_digest : Bytes32;
  ad_media_type : string;
  ad_byte_length : Z;
  ad_name : option string }.
#[export] Instance ArtifactDescriptor_eq_dec : EqDecision ArtifactDescriptor.
Proof. solve_decision. Defined.
#[export] Instance ArtifactDescriptor_to_json : ToJson ArtifactDescriptor := λ d,
  JObj ([("digest", to_json (ad_digest d)); ("media_type", to_json (ad_media_type d));
         ("byte_length", to_json (ad_byte_length d))] ++ optional_member "name" (ad_name d)).

Definition descriptor_validate (d : ArtifactDescriptor) : result unit :=
  require_nonzero "artifact.digest" (ad_digest d) ;;
  validate_token "artifact.media_type" (ad_media_type d) 1 255 ;;
  fail_if (MAX_SAFE_JSON_INTEGER <? ad_byte_length d)%Z
    (invalid "artifact.byte_length" "must be a JSON-safe unsigned integer") ;;
  when_some (ad_name d) (λ name, validate_token "artifact.name" name 1 255).

Record ArtifactAvailability := {
  aa_schema : string;
  aa_artifact : ArtifactDescriptor;
  aa_status : AvailabilityStatus;
  aa_locations : list ArtifactLocation }.
#[export] Instance ArtifactAvailability_eq_dec : EqDecision ArtifactAvailability.
Proof. solve_decision. Defined.
#[export] Instance ArtifactAvailability_to_json : ToJson ArtifactAvailability := λ a,
  JObj [("schema", to_json (aa_schema a)); ("artifact", to_json (aa_artifact a));
        ("status", to_json (aa_status a)); ("locations", to_json (aa_locations a))].

Definition availability_new (artifact : ArtifactDescriptor) (status : AvailabilityStatus)
    : ArtifactAvailability :=
  {| aa_schema := ARTIFACT_AVAILABILITY_SCHEMA; aa_artifact := artifact;
     aa_status := status; aa_locations := [] |}.

(** [matches!(status, Absent | Unknown)] *)
Definition absent_or_unknown (s : AvailabilityStatus) : bool :=
  match s with Absent | Unknown => true | _ => false end.

Definition availability_validate (a : ArtifactAvailability) : result unit :=
  require_schema "artifact_availability.schema" (aa_schema a) ARTIFACT_AVAILABILITY_SCHEMA ;;
  descriptor_validate (aa_artifact a) ;;
  fail_if (32 <? length (aa_locations a))%nat
    (invalid "artifact_availability.locations" "must contain at most 32 locations") ;;
  for_unique location_validate (λ l, (al_kind l, al_value l))
    (λ _, invalid "artifact_availability.locations" "must not contain duplicate locations")
    ∅ (aa_locations a) ;;
  fail_if (absent_or_unknown (aa_status a) && (aa_locations a != []))
    (invalid "artifact_availability.locations" "absent or unknown bytes cannot claim a location").

(** ** The preserved intention *)

Record OriginalMaterial := {
  om_artifact : ArtifactAvailability;
  om_inline_text : option string }.
#[export] Instance OriginalMaterial_eq_dec : EqDecision OriginalMaterial.
Proof. solve_decision. Defined.
#[export] Instance OriginalMaterial_to_json : ToJson OriginalMaterial := λ m,
  JObj ([("artifact", to_json (om_artifact m))]
        ++ optional_member "inline_text" (om_inline_text m)).

Record IntentionRecord := {
  in_schema : string;
  in_materials : list OriginalMaterial;
  in_owner_note : option string;
  in_captured_at : CanonicalTimestamp }.
#[export] Instance IntentionRecord_eq_dec : EqDecision IntentionRecord.
Proof. solve_decision. Defined.
#[export] Instance IntentionRecord_to_json : ToJson IntentionRecord := λ i,
  JObj ([("schema", to_json (in_schema i)); ("materials", to_json (in_materials i))]
        ++ optional_member "owner_note" (in_owner_note i)
        ++ [("captured_at", to_json (in_captured_at i))]).

Definition intention_new (materials : list OriginalMaterial) (captured_at : CanonicalTimestamp)
    : IntentionRecord :=
  {| in_schema := INTENTION_SCHEMA; in_materials := materials; in_owner_note := None;
     in_captured_at := captured_at |}.

Section intention.
Context `{Platform}.

Definition material_validate (m : OriginalMaterial) : result unit :=
  availability_validate (om_artifact m) ;;
  when_some (om_inline_text m) (λ text,
    let bytes := bytes_of text in
    fail_if ((sha256 bytes != ad_digest (aa_artifact (om_artifact m)))
             || (u64_try_from (length bytes) != Some (ad_byte_length (aa_artifact (om_artifact m)))))
      (invalid "intention.material.inline_text"
         "exact UTF-8 bytes must match the artifact digest and length") ;;
    fail_if (absent_or_unknown (aa_status (om_artifact m)))
      (invalid "intention.material.availability" "inline bytes cannot be absent or unknown")).

Definition intention_validate (i : IntentionRecord) : result unit :=
  require_schema "intention.schema" (in_schema i) INTENTION_SCHEMA ;;
  fail_if ((in_materials i == []) || (64 <? length (in_materials i))%nat)
    (invalid "intention.materials" "must contain 1..=64 original materials") ;;
  for_unique material_validate (λ m, ad_digest (aa_artifact (om_artifact m)))
    (λ _, invalid "intention.materials" "must not repeat an artifact digest")
    ∅ (in_materials i) ;;
  when_some (in_owner_note i) (λ note, validate_token "intention.owner_note" note 1 4000).

Definition intention_commitment (i : IntentionRecord) : result Bytes32 :=
  intention_validate i ;;
  sha256_commitment i.
End intention.

(** ** The commitment that begins a Shot *)

Inductive CommitmentOrigin : Type :=
  | Native
  | LegacyV1 (root_record_commitment head_record_commitment : Bytes32) (root_sequence : Z)
  | DescendantOf (parent_shot_id : ShotId) (parent_head : Bytes32).
#[export] Instance CommitmentOrigin_eq_dec : EqDecision CommitmentOrigin.
Proof. solve_decision. Defined.
#[export] Instance CommitmentOrigin_to_json : ToJson CommitmentOrigin := λ o,
  match o with
  | Native => JObj [("kind", JStr "native")]
  | LegacyV1 root head n =>
      JObj [("kind", JStr "legacy_v1"); ("root_record_commitment", to_json root);
            ("head_record_commitment", to_json head); ("root_sequence", to_json n)]
  | DescendantOf shot head =>
      JObj [("kind", JStr "descendant"); ("parent_shot_id", to_json shot);
            ("parent_head", to_json head)]
  end.

Record ShotCommitment := {
  sc_schema : string;
  sc_intention_commitment : Bytes32;
  sc_initial_controller : BuilderId;
  sc_initial_controller_key : P256PublicKey;
  sc_origin : CommitmentOrigin;
  sc_committed_at : CanonicalTimestamp }.
#[export] Instance ShotCommitment_eq_dec : EqDecision ShotCommitment.
Proof. solve_decision. Defined.
#[export] Instance ShotCommitment_to_json : ToJson ShotCommitment := λ c,
  JObj [("schema", to_json (sc_schema c));
        ("intention_commitment", to_json (sc_intention_commitment c));
        ("initial_controller", to_json (sc_initial_controller c));
        ("initial_controller_key", to_json (sc_initial_controller_key c));
        ("origin", to_json (sc_origin c)); ("committed_at", to_json (sc_committed_at c))].

Definition commitment_new (intention_commitment : Bytes32) (initial_controller : BuilderId)
    (initial_controller_key : P256PublicKey) (committed_at : CanonicalTimestamp)
    : ShotCommitment :=
  {| sc_schema := SHOT_COMMITMENT_SCHEMA; sc_intention_commitment := intention_commitment;
     sc_initial_controller := initial_controller;
     sc_initial_controller_key := initial_controller_key;
     sc_origin := Native; sc_committed_at := committed_at |}.

Definition commitment_validate `{Platform} (c : ShotCommitment) : result unit :=
  require_schema "shot_commitment.schema" (sc_schema c) SHOT_COMMITMENT_SCHEMA ;;
  require_nonzero "shot_commitment.intention_commitment" (sc_intention_commitment c) ;;
  builder_validate (sc_initial_controller c) ;;
  key_validate (sc_initial_controller_key c) ;;
  match sc_origin c with
  | Native => Ok tt
  | LegacyV1 root_record_commitment head_record_commitment root_sequence =>
      require_nonzero "shot_commitment.origin.root_record_commitment" root_record_commitment ;;
      require_nonzero "shot_commitment.origin.head_record_commitment" head_record_commitment ;;
      fail_if (root_sequence == 0%Z)
        (invalid "shot_commitment.origin.root_sequence" "must be positive")
  | DescendantOf parent_shot_id parent_head =>
      fail_if (shot_is_zero parent_shot_id)
        (invalid "shot_commitment.origin.parent_shot_id" "must not be zero") ;;
      require_nonzero "shot_commitment.origin.parent_head" parent_head
  end.

(** ** Genomes *)

Record Genome := {
  gn_schema : string;
  gn_revision : Z;
  gn_purpose : string;
  gn_intended_for : list string;
  gn_essential_experience : list string;
  gn_behavioral_invariants : list string;
  gn_interaction_laws : list string;
  gn_aesthetic_principles : list string;
  gn_privacy_principles : list string;
  gn_ownership_principles : list string;
  gn_platform_commitments : list string;
  gn_boundaries : list string;
  gn_non_goals : list string;
  gn_required_capabilities : list string;
  gn_forbidden_transformations : list string;
  gn_acceptance_principles : list string;
  gn_freely_changeable : list string }.
#[export] Instance Genome_eq_dec : EqDecision Genome.
Proof. solve_decision. Defined.
#[export] Instance Genome_to_json : ToJson Genome := λ g,
  JObj [("schema", to_json (gn_schema g)); ("revision", to_json (gn_revision g));
        ("purpose", to_json (gn_purpose g)); ("intended_for", to_json (gn_intended_for g));
        ("essential_experience", to_json (gn_essential_experience g));
        ("behavioral_invariants", to_json (gn_behavioral_invariants g));
        ("interaction_laws", to_json (gn_interaction_laws g));
        ("aesthetic_principles", to_json (gn_aesthetic_principles g));
        ("privacy_principles", to_json (gn_privacy_principles g));
        ("ownership_principles", to_json (gn_ownership_principles g));
        ("platform_commitments", to_json (gn_platform_commitments g));
        ("boundaries", to_json (gn_boundaries g)); ("non_goals", to_json (gn_non_goals g));
        ("required_capabilities", to_json (gn_required_capabilities g));
        ("forbidden_transformations", to_json (gn_forbidden_transformations g));
        ("acceptance_principles", to_json (gn_acceptance_principles g));
        ("freely_changeable", to_json (gn_freely_changeable g))].

Definition genome_validate (g : Genome) : result unit :=
  require_schema "genome.schema" (gn_schema g) GENOME_SCHEMA ;;
  validate_safe_positive "genome.revision" (gn_revision g) ;;
  validate_token "genome.purpose" (gn_purpose g) 1 4000 ;;
  validate_tokens "genome.intended_for" (gn_intended_for g) 1 64 1000 ;;
  validate_tokens "genome.essential_experience" (gn_essential_experience g) 1 64 2000 ;;
  validate_tokens "genome.behavioral_invariants" (gn_behavioral_invariants g) 1 128 2000 ;;
  validate_tokens "genome.interaction_laws" (gn_interaction_laws g) 0 128 2000 ;;
  validate_tokens "genome.aesthetic_principles" (gn_aesthetic_principles g) 0 128 2000 ;;
  validate_tokens "genome.privacy_principles" (gn_privacy_principles g) 1 128 2000 ;;
  validate_tokens "genome.ownership_principles" (gn_ownership_principles g) 1 128 2000 ;;
  validate_tokens "genome.platform_commitments" (gn_platform_commitments g) 0 64 1000 ;;
  validate_tokens "genome.boundaries" (gn_boundaries g) 0 128 2000 ;;
  validate_tokens "genome.non_goals" (gn_non_goals g) 0 128 2000 ;;
  validate_tokens "genome.required_capabilities" (gn_required_capabilities g) 0 128 500 ;;
  validate_tokens "genome.forbidden_transformations" (gn_forbidden_transformations g) 1 128 2000 ;;
  validate_tokens "genome.acceptance_principles" (gn_acceptance_principles g) 1 128 2000 ;;
  validate_tokens "genome.freely_changeable" (gn_freely_changeable g) 0 128 2000.

Definition genome_digest `{Platform} (g : Genome) : result Bytes32 :=
  genome_validate g ;;
  sha256_commitment g.

Record GenomeProposal := {
  gp_schema : string;
  gp_base_revision : option Z;
  gp_base_genome_digest : option Bytes32;
  gp_proposed : Genome;
  gp_rationale : string;
  gp_mutation_summary : list string }.
#[export] Instance GenomeProposal_eq_dec : EqDecision GenomeProposal.
Proof. solve_decision. Defined.
#[export] Instance GenomeProposal_to_json : ToJson GenomeProposal := λ p,
  JObj [("schema", to_json (gp_schema p)); ("base_revision", to_json (gp_base_revision p));
        ("base_genome_digest", to_json (gp_base_genome_digest p));
        ("proposed", to_json (gp_proposed p)); ("rationale", to_json (gp_rationale p));
        ("mutation_summary", to_json (gp_mutation_summary p))].

Definition proposal_initial (proposed : Genome) (rationale : string) : GenomeProposal :=
  {| gp_schema := GENOME_PROPOSAL_SCHEMA; gp_base_revision := None;
     gp_base_genome_digest := None; gp_proposed := proposed; gp_rationale := rationale;
     gp_mutation_summary := [] |}.

Definition base_revision_error : ProtocolError :=
  invalid "genome_proposal.base_revision"
    "initial revision 1 has no base or mutations; later revisions require the exact base and an explicit mutation summary".

Definition proposal_validate (p : GenomeProposal) : result unit :=
  require_schema "genome_proposal.schema" (gp_schema p) GENOME_PROPOSAL_SCHEMA ;;
  genome_validate (gp_proposed p) ;;
  validate_token "genome_proposal.rationale" (gp_rationale p) 1 4000 ;;
  match gp_base_revision p, gp_base_genome_digest p with
  | None, None =>
      fail_if (negb ((gn_revision (gp_proposed p) == 1%Z) && (gp_mutation_summary p == [])))
        base_revision_error
  | Some base, Some digest =>
      if (0 <? base)%Z
         && (gn_revision (gp_proposed p) == saturating_add_u64 base 1)
         && (digest != ZERO) && (gp_mutation_summary p != [])
      then validate_tokens "genome_proposal.mutation_summary" (gp_mutation_summary p) 1 128 2000
      else Err base_revision_error
  | _, _ => Err base_revision_error
  end.

Record GenomeAcceptance := {
  ga_schema : string;
  ga_proposal_action : Bytes32;
  ga_revision : Z;
  ga_genome_digest : Bytes32;
  ga_accepted_at : CanonicalTimestamp }.
#[export] Instance GenomeAcceptance_eq_dec : EqDecision GenomeAcceptance.
Proof. solve_decision. Defined.
#[export] Instance GenomeAcceptance_to_json : ToJson GenomeAcceptance := λ a,
  JObj [("schema", to_json (ga_schema a)); ("proposal_action", to_json (ga_proposal_action a));
        ("revision", to_json (ga_revision a)); ("genome_digest", to_json (ga_genome_digest a));
        ("accepted_at", to_json (ga_accepted_at a))].

Definition acceptance_validate (a : GenomeAcceptance) : result unit :=
  require_schema "genome_acceptance.schema" (ga_schema a) GENOME_ACCEPTANCE_SCHEMA ;;
  require_nonzero "genome_acceptance.proposal_action" (ga_proposal_action a) ;;
  validate_safe_positive "genome_acceptance.revision" (ga_revision a) ;;
  require_nonzero "genome_acceptance.genome_digest" (ga_genome_digest a).

(** ** Expressions and organs *)

Record Expression := {
  ex_schema : string;
  ex_expression_id : ExpressionId;
  ex_kind : string;
  ex_name : string;
  ex_platforms : list string;
  ex_genome_revision : Z;
  ex_genome_digest : Bytes32;
  ex_definition : ArtifactAvailability }.
#[export] Instance Expression_eq_dec : EqDecision Expression.
Proof. solve_decision. Defined.
#[export] Instance Expression_to_json : ToJson Expression := λ e,
  JObj [("schema", to_json (ex_schema e)); ("expression_id", to_json (ex_expression_id e));
        ("kind", to_json (ex_kind e)); ("name", to_json (ex_name e));
        ("platforms", to_json (ex_platforms e));
        ("genome_revision", to_json (ex_genome_revision e));
        ("genome_digest", to_json (ex_genome_digest e));
        ("definition", to_json (ex_definition e))].

Definition expression_validate (e : Expression) : result unit :=
  require_schema "expression.schema" (ex_schema e) EXPRESSION_SCHEMA ;;
  fail_if (expression_is_zero (ex_expression_id e))
    (invalid "expression.expression_id" "must not be zero") ;;
  validate_token "expression.kind" (ex_kind e) 1 100 ;;
  validate_token "expression.name" (ex_name e) 1 255 ;;
  validate_tokens "expression.platforms" (ex_platforms e) 1 32 100 ;;
  validate_safe_positive "expression.genome_revision" (ex_genome_revision e) ;;
  require_nonzero "expression.genome_digest" (ex_genome_digest e) ;;
  availability_validate (ex_definition e).

Record Organ := {
  og_schema : string;
  og_expression_id : ExpressionId;
  og_organ_id : string;
  og_provides : list string;
  og_owns_state : list string;
  og_permissions : list string;
  og_dependencies : list string;
  og_emits : list string;
  og_consumes : list string;
  og_satisfies_genome_constraints : list string;
  og_acceptance_tests : list string;
  og_platforms : list string }.
#[export] Instance Organ_eq_dec : EqDecision Organ.
Proof. solve_decision. Defined.
#[export] Instance Organ_to_json : ToJson Organ := λ o,
  JObj [("schema", to_json (og_schema o)); ("expression_id", to_json (og_expression_id o));
        ("organ_id", to_json (og_organ_id o)); ("provides", to_json (og_provides o));
        ("owns_state", to_json (og_owns_state o)); ("permissions", to_json (og_permissions o));
        ("dependencies", to_json (og_dependencies o)); ("emits", to_json (og_emits o));
        ("consumes", to_json (og_consumes o));
        ("satisfies_genome_constraints", to_json (og_satisfies_genome_constraints o));
        ("acceptance_tests", to_json (og_acceptance_tests o));
        ("platforms", to_json (og_platforms o))].

Definition organ_validate (o : Organ) : result unit :=
  require_schema "organ.schema" (og_schema o) ORGAN_SCHEMA ;;
  fail_if (expression_is_zero (og_expression_id o))
    (invalid "organ.expression_id" "must not be zero") ;;
  validate_token "organ.organ_id" (og_organ_id o) 1 128 ;;
  validate_tokens "organ.provides" (og_provides o) 1 128 500 ;;
  validate_tokens "organ.owns_state" (og_owns_state o) 0 128 500 ;;
  validate_tokens "organ.permissions" (og_permissions o) 0 128 500 ;;
  validate_tokens "organ.dependencies" (og_dependencies o) 0 128 128 ;;
  validate_tokens "organ.emits" (og_emits o) 0 128 500 ;;
  validate_tokens "organ.consumes" (og_consumes o) 0 128 500 ;;
  validate_tokens "organ.satisfies_genome_constraints"
    (og_satisfies_genome_constraints o) 1 128 2000 ;;
  validate_tokens "organ.acceptance_tests" (og_acceptance_tests o) 1 256 1000 ;;
  validate_tokens "organ.platforms" (og_platforms o) 1 32 100.

Section capability_graph.
Context `{Platform}.

(** [left.organ_id.as_bytes().cmp(right.organ_id.as_bytes())] *)
Definition organ_leb (a b : Organ) : bool :=
  bytes_leb (bytes_of (og_organ_id a)) (bytes_of (og_organ_id b)).

(** The checks on a nonempty sorted graph. *)
Definition graph_check (expression_id : ExpressionId) (graph : list Organ) : result unit :=
  for_unique
    (λ organ, fail_if (og_expression_id organ != expression_id)
       (invalid "capability_graph.expression_id" "all organs must belong to one expression"))
    og_organ_id
    (λ _, invalid "capability_graph.organ_id" "must not contain duplicate organ IDs")
    ∅ graph ;;
  let organ_ids : gset string := list_to_set (og_organ_id <$> graph) in
  for_each (λ organ,
    fail_if (existsb (λ dependency, bool_decide (dependency ∉ organ_ids)) (og_dependencies organ))
      (invalid "capability_graph.dependencies"
         "every dependency must name an organ in the same graph")) graph.

Definition canonical_capability_graph_bytes (organs : list Organ) : result (list Z) :=
  for_each organ_validate organs ;;
  let graph := stable_sort organ_leb organs in
  match graph with
  | first :: _ => graph_check (og_expression_id first) graph
  | [] => Ok tt
  end ;;
  canonical_to_vec graph.

Definition capability_graph_digest (organs : list Organ) : result Bytes32 :=
  bytes ← canonical_capability_graph_bytes organs; Ok (sha256 bytes).

Definition organ_acceptance_gate_name (organ : Organ) (index : nat) : result string :=
  organ_validate organ ;;
  test ← ok_or (invalid "organ.acceptance_tests"
                  "gate index must name a declared acceptance test")
           (og_acceptance_tests organ !! index);
  ordinal ← ok_or (invalid "organ.acceptance_tests"
                     "gate ordinal overflowed the implementation range")
              (checked_add_u64 (Z.of_nat index) 1);
  Ok ("organ." +:+ og_organ_id organ +:+ ".acceptance." +:+ pretty ordinal +:+ "."
      +:+ to_hex (sha256 (bytes_of test))).
End capability_graph.

(** ** Versions *)

Record MaterializationProvenance := {
  mp_factory : string;
  mp_factory_version : string;
  mp_factory_source_commit : option string;
  mp_template_digest : Bytes32;
  mp_input_action : Bytes32;
  mp_deterministic : bool }.
#[export] Instance MaterializationProvenance_eq_dec : EqDecision MaterializationProvenance.
Proof. solve_decision. Defined.
#[export] Instance MaterializationProvenance_to_json : ToJson MaterializationProvenance := λ p,
  JObj ([("factory", to_json (mp_factory p)); ("factory_version", to_json (mp_factory_version p))]
        ++ optional_member "factory_source_commit" (mp_factory_source_commit p)
        ++ [("template_digest", to_json (mp_template_digest p));
            ("input_action", to_json (mp_input_action p));
            ("deterministic", to_json (mp_deterministic p))]).

Definition provenance_validate (p : MaterializationProvenance) : result unit :=
  validate_token "version.provenance.factory" (mp_factory p) 1 255 ;;
  validate_token "version.provenance.factory_version" (mp_factory_version p) 1 64 ;;
  when_some (mp_factory_source_commit p) (λ commit,
    fail_if (negb (len commit =? 40)%nat || negb (forallb is_lower_hex (bytes_of commit)))
      (invalid "version.provenance.factory_source_commit"
         "must be a 40-character lowercase Git object ID")) ;;
  require_nonzero "version.provenance.template_digest" (mp_template_digest p) ;;
  require_nonzero "version.provenance.input_action" (mp_input_action p).

Record VersionRecord := {
  vr_schema : string;
  vr_version_id : VersionId;
  vr_expression_id : ExpressionId;
  vr_ordinal : Z;
  vr_genome_revision : Z;
  vr_genome_digest : Bytes32;
  vr_source_digest : Bytes32;
  vr_provenance : MaterializationProvenance;
  vr_capability_graph_digest : Bytes32;
  vr_verification_action : Bytes32;
  vr_known_incompleteness : list string;
  vr_build_identity : option string;
  vr_build_digest : option Bytes32;
  vr_accepted_at : CanonicalTimestamp }.
#[export] Instance VersionRecord_eq_dec : EqDecision VersionRecord.
Proof. solve_decision. Defined.
#[export] Instance VersionRecord_to_json : ToJson VersionRecord := λ v,
  JObj ([("schema", to_json (vr_schema v)); ("version_id", to_json (vr_version_id v));
         ("expression_id", to_json (vr_expression_id v)); ("ordinal", to_json (vr_ordinal v));
         ("genome_revision", to_json (vr_genome_revision v));
         ("genome_digest", to_json (vr_genome_digest v));
         ("source_digest", to_json (vr_source_digest v));
         ("provenance", to_json (vr_provenance v));
         ("capability_graph_digest", to_json (vr_capability_graph_digest v));
         ("verification_action", to_json (vr_verification_action v));
         ("known_incompleteness", to_json (vr_known_incompleteness v))]
        ++ optional_member "build_identity" (vr_build_identity v)
        ++ optional_member "build_digest" (vr_build_digest v)
        ++ [("accepted_at", to_json (vr_accepted_at v))]).

Definition expected_id `{Platform} (v : VersionRecord) (shot_id : ShotId) : VersionId :=
  derive_version_id shot_id (vr_expression_id v) (vr_ordinal v) (vr_genome_digest v)
    (vr_source_digest v).

Definition version_validate `{Platform} (v : VersionRecord) (shot_id : ShotId) : result unit :=
  require_schema "version.schema" (vr_schema v) VERSION_SCHEMA ;;
  fail_if (expression_is_zero (vr_expression_id v) || version_is_zero (vr_version_id v))
    (invalid "version.identity" "expression_id and version_id must not be zero") ;;
  validate_safe_positive "version.ordinal" (vr_ordinal v) ;;
  validate_safe_positive "version.genome_revision" (vr_genome_revision v) ;;
  require_nonzero "version.genome_digest" (vr_genome_digest v) ;;
  require_nonzero "version.source_digest" (vr_source_digest v) ;;
  require_nonzero "version.capability_graph_digest" (vr_capability_graph_digest v) ;;
  require_nonzero "version.verification_action" (vr_verification_action v) ;;
  provenance_validate (vr_provenance v) ;;
  validate_tokens "version.known_incompleteness" (vr_known_incompleteness v) 0 128 2000 ;;
  when_some (vr_build_identity v)
    (λ identity, validate_token "version.build_identity" identity 1 500) ;;
  fail_if (vr_build_digest v == Some ZERO) (invalid "version.build_digest" "must not be zero") ;;
  fail_if (vr_version_id v != expected_id v shot_id)
    (invalid "version.version_id" "must use the protocol content-bound derivation").

(** ** Feedback *)

Inductive Visibility : Type := Private | Public.
#[export] Instance Visibility_eq_dec : EqDecision Visibility.
Proof. solve_decision. Defined.
#[export] Instance Visibility_to_json : ToJson Visibility :=
  λ v, JStr match v with Private => "private" | Public => "public" end.

Record FeedbackAuthor := { fa_identity : string; fa_display_name : option string }.
#[export] Instance FeedbackAuthor_eq_dec : EqDecision FeedbackAuthor.
Proof. solve_decision. Defined.
#[export] Instance FeedbackAuthor_to_json : ToJson FeedbackAuthor := λ a,
  JObj ([("identity", to_json (fa_identity a))]
        ++ optional_member "display_name" (fa_display_name a)).

Definition author_validate (a : FeedbackAuthor) : result unit :=
  validate_token "feedback.author.identity" (fa_identity a) 1 500 ;;
  when_some (fa_display_name a) (λ name, validate_token "feedback.author.display_name" name 1 255).

Record StructuredObservation := { ob_kind : string; ob_subject : string; ob_value : string }.
#[export] Instance StructuredObservation_eq_dec : EqDecision StructuredObservation.
Proof. solve_decision. Defined.
#[export] Instance StructuredObservation_to_json : ToJson StructuredObservation := λ o,
  JObj [("kind", to_json (ob_kind o)); ("subject", to_json (ob_subject o));
        ("value", to_json (ob_value o))].

Definition observation_validate (o : StructuredObservation) : result unit :=
  validate_token "feedback.observation.kind" (ob_kind o) 1 100 ;;
  validate_token "feedback.observation.subject" (ob_subject o) 1 500 ;;
  validate_token "feedback.observation.value" (ob_value o) 1 4000.

Record Feedback := {
  fb_schema : string;
  fb_expression_id : ExpressionId;
  fb_version_id : VersionId;
  fb_build_identity : option string;
  fb_author : option FeedbackAuthor;
  fb_visibility : Visibility;
  fb_text : option string;
  fb_observations : list StructuredObservation;
  fb_attachments : list ArtifactAvailability;
  fb_observed_at : CanonicalTimestamp }.
#[export] Instance Feedback_eq_dec : EqDecision Feedback.
Proof. solve_decision. Defined.
#[export] Instance Feedback_to_json : ToJson Feedback := λ f,
  JObj ([("schema", to_json (fb_schema f)); ("expression_id", to_json (fb_expression_id f));
         ("version_id", to_json (fb_version_id f))]
        ++ optional_member "build_identity" (fb_build_identity f)
        ++ optional_member "author" (fb_author f)
        ++ [("visibility", to_json (fb_visibility f))]
        ++ optional_member "text" (fb_text f)
        ++ [("observations", to_json (fb_observations f));
            ("attachments", to_json (fb_attachments f));
            ("observed_at", to_json (fb_observed_at f))]).

Definition feedback_validate (f : Feedback) : result unit :=
  require_schema "feedback.schema" (fb_schema f) FEEDBACK_SCHEMA ;;
  fail_if (expression_is_zero (fb_expression_id f) || version_is_zero (fb_version_id f))
    (invalid "feedback.identity" "expression_id and version_id must not be zero") ;;
  when_some (fb_build_identity f)
    (λ build, validate_token "feedback.build_identity" build 1 500) ;;
  when_some (fb_author f) author_validate ;;
  when_some (fb_text f) (λ text, validate_token "feedback.text" text 1 (Z.to_nat 100000)) ;;
  fail_if ((256 <? length (fb_observations f))%nat || (64 <? length (fb_attachments f))%nat)
    (invalid "feedback" "must contain at most 256 observations and 64 attachments") ;;
  for_each observation_validate (fb_observations f) ;;
  for_each availability_validate (fb_attachments f) ;;
  fail_if (opt_is_none (fb_text f) && (fb_observations f == []) && (fb_attachments f == []))
    (invalid "feedback" "must contain text, a structured observation, or an attachment").

(** ** Evolutionary intents and evolutions *)

Inductive ChangeScope : Type :=
  | ScopeImplementation | ScopeExpression | ScopeOrgan | ScopeGenome.
#[export] Instance ChangeScope_eq_dec : EqDecision ChangeScope.
Proof. solve_decision. Defined.
#[export] Instance ChangeScope_to_json : ToJson ChangeScope := λ s,
  JStr match s with
       | ScopeImplementation => "implementation" | ScopeExpression => "expression"
       | ScopeOrgan => "organ" | ScopeGenome => "genome"
       end.

Record DesiredChange := { dc_scope : ChangeScope; dc_description : string }.
#[export] Instance DesiredChange_eq_dec : EqDecision DesiredChange.
Proof. solve_decision. Defined.
#[export] Instance DesiredChange_to_json : ToJson DesiredChange := λ c,
  JObj [("scope", to_json (dc_scope c)); ("description", to_json (dc_description c))].

Definition change_validate (c : DesiredChange) : result unit :=
  validate_token "evolutionary_intent.change.description" (dc_description c) 1 4000.

Record EvolutionaryIntent := {
  ei_schema : string;
  ei_expression_id : ExpressionId;
  ei_from_version_id : VersionId;
  ei_preserved_invariants : list string;
  ei_desired_changes : list DesiredChange;
  ei_feedback_actions : list Bytes32;
  ei_references : list ArtifactAvailability;
  ei_proposed_genome_action : option Bytes32 }.
#[export] Instance EvolutionaryIntent_eq_dec : EqDecision EvolutionaryIntent.
Proof. solve_decision. Defined.
#[export] Instance EvolutionaryIntent_to_json : ToJson EvolutionaryIntent := λ i,
  JObj ([("schema", to_json (ei_schema i)); ("expression_id", to_json (ei_expression_id i));
         ("from_version_id", to_json (ei_from_version_id i));
         ("preserved_invariants", to_json (ei_preserved_invariants i));
         ("desired_changes", to_json (ei_desired_changes i));
         ("feedback_actions", to_json (ei_feedback_actions i));
         ("references", to_json (ei_references i))]
        ++ optional_member "proposed_genome_action" (ei_proposed_genome_action i)).

(** [desired_changes.iter().any(|change| change.scope == scope)] *)
Definition proposes (scope : ChangeScope) (i : EvolutionaryIntent) : bool :=
  existsb (λ change, dc_scope change == scope) (ei_desired_changes i).

Definition intent_validate (i : EvolutionaryIntent) : result unit :=
  require_schema "evolutionary_intent.schema" (ei_schema i) EVOLUTIONARY_INTENT_SCHEMA ;;
  fail_if (expression_is_zero (ei_expression_id i) || version_is_zero (ei_from_version_id i))
    (invalid "evolutionary_intent.identity" "expression_id and from_version_id must not be zero") ;;
  validate_tokens "evolutionary_intent.preserved_invariants" (ei_preserved_invariants i) 1 128 2000 ;;
  fail_if ((ei_desired_changes i == []) || (128 <? length (ei_desired_changes i))%nat)
    (invalid "evolutionary_intent.desired_changes" "must contain 1..=128 changes") ;;
  for_each change_validate (ei_desired_changes i) ;;
  fail_if ((256 <? length (ei_feedback_actions i))%nat || (64 <? length (ei_references i))%nat)
    (invalid "evolutionary_intent" "contains too many feedback references or artifacts") ;;
  fail_if (existsb (λ a, a == ZERO) (ei_feedback_actions i)
           || (ei_proposed_genome_action i == Some ZERO))
    (invalid "evolutionary_intent.action_reference" "must not be zero") ;;
  for_unique availability_validate (λ reference, ad_digest (aa_artifact reference))
    (λ _, invalid "evolutionary_intent.references" "must not repeat artifact content")
    ∅ (ei_references i) ;;
  fail_if (proposes ScopeGenome i != opt_is_some (ei_proposed_genome_action i))
    (invalid "evolutionary_intent.proposed_genome_action"
       "must be present exactly when a genome-scoped change is proposed").

Record Evolution := {
  eo_schema : string;
  eo_evolutionary_intent_action : Bytes32;
  eo_expression_id : ExpressionId;
  eo_from_version_id : VersionId;
  eo_to_version_id : VersionId;
  eo_from_genome_digest : Bytes32;
  eo_to_genome_digest : Bytes32;
  eo_genome_acceptance_action : option Bytes32;
  eo_preserved_invariants : list string;
  eo_completed_at : CanonicalTimestamp }.
#[export] Instance Evolution_eq_dec : EqDecision Evolution.
Proof. solve_decision. Defined.
#[export] Instance Evolution_to_json : ToJson Evolution := λ e,
  JObj ([("schema", to_json (eo_schema e));
         ("evolutionary_intent_action", to_json (eo_evolutionary_intent_action e));
         ("expression_id", to_json (eo_expression_id e));
         ("from_version_id", to_json (eo_from_version_id e));
         ("to_version_id", to_json (eo_to_version_id e));
         ("from_genome_digest", to_json (eo_from_genome_digest e));
         ("to_genome_digest", to_json (eo_to_genome_digest e))]
        ++ optional_member "genome_acceptance_action" (eo_genome_acceptance_action e)
        ++ [("preserved_invariants", to_json (eo_preserved_invariants e));
            ("completed_at", to_json (eo_completed_at e))]).

Definition evolution_validate (e : Evolution) : result unit :=
  require_schema "evolution.schema" (eo_schema e) EVOLUTION_SCHEMA ;;
  require_nonzero "evolution.evolutionary_intent_action" (eo_evolutionary_intent_action e) ;;
  fail_if (expression_is_zero (eo_expression_id e) || version_is_zero (eo_from_version_id e)
           || version_is_zero (eo_to_version_id e)
           || (eo_from_version_id e == eo_to_version_id e))
    (invalid "evolution.identity" "must connect two distinct versions of a nonzero expression") ;;
  require_nonzero "evolution.from_genome_digest" (eo_from_genome_digest e) ;;
  require_nonzero "evolution.to_genome_digest" (eo_to_genome_digest e) ;;
  validate_tokens "evolution.preserved_invariants" (eo_preserved_invariants e) 1 128 2000 ;;
  let mutated := eo_from_genome_digest e != eo_to_genome_digest e in
  fail_if ((mutated != opt_is_some (eo_genome_acceptance_action e))
           || (eo_genome_acceptance_action e == Some ZERO))
    (invalid "evolution.genome_acceptance_action"
       "must be present and nonzero exactly when the accepted genome changes").

(** ** Ownership and tokens *)

Record Ownership := {
  ow_schema : string;
  ow_previous_controller : BuilderId;
  ow_new_controller : BuilderId;
  ow_new_controller_key : P256PublicKey;
  ow_reason : string;
  ow_effective_at : CanonicalTimestamp }.
#[export] Instance Ownership_eq_dec : EqDecision Ownership.
Proof. solve_decision. Defined.
#[export] Instance Ownership_to_json : ToJson Ownership := λ o,
  JObj [("schema", to_json (ow_schema o));
        ("previous_controller", to_json (ow_previous_controller o));
        ("new_controller", to_json (ow_new_controller o));
        ("new_controller_key", to_json (ow_new_controller_key o));
        ("reason", to_json (ow_reason o)); ("effective_at", to_json (ow_effective_at o))].

Definition ownership_validate `{Platform} (o : Ownership) : result unit :=
  require_schema "ownership.schema" (ow_schema o) OWNERSHIP_SCHEMA ;;
  builder_validate (ow_previous_controller o) ;;
  builder_validate (ow_new_controller o) ;;
  fail_if (ow_previous_controller o == ow_new_controller o)
    (invalid "ownership.new_controller" "must differ from the previous controller") ;;
  key_validate (ow_new_controller_key o) ;;
  validate_token "ownership.reason" (ow_reason o) 1 2000.

Inductive TokenAssociationOperation : Type := Associate | Remove.
#[export] Instance TokenAssociationOperation_eq_dec : EqDecision TokenAssociationOperation.
Proof. solve_decision. Defined.
#[export] Instance TokenAssociationOperation_to_json : ToJson TokenAssociationOperation :=
  λ o, JStr match o with Associate => "associate" | Remove => "remove" end.

Record ChainAnchor := { ca_chain_id : Z; ca_contract : Address20; ca_transaction : Bytes32 }.
#[export] Instance ChainAnchor_eq_dec : EqDecision ChainAnchor.
Proof. solve_decision. Defined.
#[export] Instance ChainAnchor_to_json : ToJson ChainAnchor := λ a,
  JObj [("chain_id", to_json (ca_chain_id a)); ("contract", to_json (ca_contract a));
        ("transaction", to_json (ca_transaction a))].

Definition anchor_validate (a : ChainAnchor) : result unit :=
  validate_safe_positive "chain_anchor.chain_id" (ca_chain_id a) ;;
  fail_if (address_is_zero (ca_contract a)) (invalid "chain_anchor.contract" "must not be zero") ;;
  require_nonzero "chain_anchor.transaction" (ca_transaction a).

Record TokenAssociation := {
  ta_schema : string;
  ta_operation : TokenAssociationOperation;
  ta_chain_id : Z;
  ta_token : Address20;
  ta_symbol : option string;
  ta_anchor : option ChainAnchor }.
#[export] Instance TokenAssociation_eq_dec : EqDecision TokenAssociation.
Proof. solve_decision. Defined.
#[export] Instance TokenAssociation_to_json : ToJson TokenAssociation := λ t,
  JObj ([("schema", to_json (ta_schema t)); ("operation", to_json (ta_operation t));
         ("chain_id", to_json (ta_chain_id t)); ("token", to_json (ta_token t))]
        ++ optional_member "symbol" (ta_symbol t) ++ optional_member "anchor" (ta_anchor t)).

Definition token_validate (t : TokenAssociation) : result unit :=
  require_schema "token_association.schema" (ta_schema t) TOKEN_ASSOCIATION_SCHEMA ;;
  validate_safe_positive "token_association.chain_id" (ta_chain_id t) ;;
  fail_if (address_is_zero (ta_token t)) (invalid "token_association.token" "must not be zero") ;;
  when_some (ta_symbol t) (λ symbol, validate_token "token_association.symbol" symbol 1 32) ;;
  when_some (ta_anchor t) anchor_validate.

(** ** Verification results *)

Record VerificationGate := {
  vg_name : string;
  vg_passed : bool;
  vg_deterministic : bool;
  vg_evidence : option ArtifactAvailability }.
#[export] Instance VerificationGate_eq_dec : EqDecision VerificationGate.
Proof. solve_decision. Defined.
#[export] Instance VerificationGate_to_json : ToJson VerificationGate := λ g,
  JObj ([("name", to_json (vg_name g)); ("passed", to_json (vg_passed g));
         ("deterministic", to_json (vg_deterministic g))]
        ++ optional_member "evidence" (vg_evidence g)).

Definition gate_validate (g : VerificationGate) : result unit :=
  validate_token "verification.gate.name" (vg_name g) 1 255 ;;
  when_some (vg_evidence g) availability_validate.

Record VerificationResult := {
  vs_schema : string;
  vs_expression_id : ExpressionId;
  vs_candidate_version_id : VersionId;
  vs_genome_revision : Z;
  vs_genome_digest : Bytes32;
  vs_source_digest : Bytes32;
  vs_capability_graph_digest : Bytes32;
  vs_gates : list VerificationGate;
  vs_passed : bool;
  vs_known_incompleteness : list string;
  vs_verified_at : CanonicalTimestamp }.
#[export] Instance VerificationResult_eq_dec : EqDecision VerificationResult.
Proof. solve_decision. Defined.
#[export] Instance VerificationResult_to_json : ToJson VerificationResult := λ v,
  JObj [("schema", to_json (vs_schema v)); ("expression_id", to_json (vs_expression_id v));
        ("candidate_version_id", to_json (vs_candidate_version_id v));
        ("genome_revision", to_json (vs_genome_revision v));
        ("genome_digest", to_json (vs_genome_digest v));
        ("source_digest", to_json (vs_source_digest v));
        ("capability_graph_digest", to_json (vs_capability_graph_digest v));
        ("gates", to_json (vs_gates v)); ("passed", to_json (vs_passed v));
        ("known_incompleteness", to_json (vs_known_incompleteness v));
        ("verified_at", to_json (vs_verified_at v))].

Definition verification_validate (v : VerificationResult) : result unit :=
  require_schema "verification_result.schema" (vs_schema v) VERIFICATION_RESULT_SCHEMA ;;
  fail_if (expression_is_zero (vs_expression_id v) || version_is_zero (vs_candidate_version_id v))
    (invalid "verification_result.identity"
       "expression and candidate version IDs must not be zero") ;;
  validate_safe_positive "verification_result.genome_revision" (vs_genome_revision v) ;;
  require_nonzero "verification_result.genome_digest" (vs_genome_digest v) ;;
  require_nonzero "verification_result.source_digest" (vs_source_digest v) ;;
  require_nonzero "verification_result.capability_graph_digest" (vs_capability_graph_digest v) ;;
  fail_if ((vs_gates v == []) || (256 <? length (vs_gates v))%nat)
    (invalid "verification_result.gates" "must contain 1..=256 gates") ;;
  for_unique gate_validate vg_name
    (λ _, invalid "verification_result.gates" "must not repeat a gate name") ∅ (vs_gates v) ;;
  let observed := forallb vg_passed (vs_gates v) in
  fail_if (vs_passed v != observed)
    (invalid "verification_result.passed" "must equal the conjunction of all gate results") ;;
  validate_tokens "verification_result.known_incompleteness" (vs_known_incompleteness v) 0 128 2000.

(** ** Parent relations *)

Inductive ParentRelationKind : Type := Fork | Descendant | InspiredBy.
#[export] Instance ParentRelationKind_eq_dec : EqDecision ParentRelationKind.
Proof. solve_decision. Defined.
#[export] Instance ParentRelationKind_to_json : ToJson ParentRelationKind := λ k,
  JStr match k with Fork => "fork" | Descendant => "descendant" | InspiredBy => "inspired_by" end.

Record ParentAuthorizationStatement := {
  pa_schema : string;
  pa_parent_shot_id : ShotId;
  pa_parent_head : Bytes32;
  pa_child_shot_id : ShotId;
  pa_relation : ParentRelationKind }.
#[export] Instance ParentAuthorizationStatement_to_json : ToJson ParentAuthorizationStatement :=
  λ s, JObj [("schema", to_json (pa_schema s)); ("parent_shot_id", to_json (pa_parent_shot_id s));
             ("parent_head", to_json (pa_parent_head s));
             ("child_shot_id", to_json (pa_child_shot_id s));
             ("relation", to_json (pa_relation s))].

Definition statement_validate (s : ParentAuthorizationStatement) : result unit :=
  require_schema "parent_authorization.schema" (pa_schema s) PARENT_AUTHORIZATION_SCHEMA ;;
  fail_if (shot_is_zero (pa_parent_shot_id s) || shot_is_zero (pa_child_shot_id s)
           || (pa_parent_shot_id s == pa_child_shot_id s))
    (invalid "parent_authorization.identity"
       "parent and child must be distinct nonzero Shot IDs") ;;
  require_nonzero "parent_authorization.parent_head" (pa_parent_head s).

Record ParentRelation := {
  pr_schema : string;
  pr_parent_shot_id : ShotId;
  pr_parent_head : Bytes32;
  pr_child_shot_id : ShotId;
  pr_relation : ParentRelationKind;
  pr_parent_authorization : option SignatureSidecar }.
#[export] Instance ParentRelation_eq_dec : EqDecision ParentRelation.
Proof. solve_decision. Defined.
#[export] Instance ParentRelation_to_json : ToJson ParentRelation := λ p,
  JObj ([("schema", to_json (pr_schema p)); ("parent_shot_id", to_json (pr_parent_shot_id p));
         ("parent_head", to_json (pr_parent_head p));
         ("child_shot_id", to_json (pr_child_shot_id p)); ("relation", to_json (pr_relation p))]
        ++ optional_member "parent_authorization" (pr_parent_authorization p)).

Definition statement (p : ParentRelation) : ParentAuthorizationStatement :=
  {| pa_schema := PARENT_AUTHORIZATION_SCHEMA; pa_parent_shot_id := pr_parent_shot_id p;
     pa_parent_head := pr_parent_head p; pa_child_shot_id := pr_child_shot_id p;
     pa_relation := pr_relation p |}.

Definition parent_validate `{Platform} (p : ParentRelation) : result unit :=
  require_schema "parent_relation.schema" (pr_schema p) PARENT_RELATION_SCHEMA ;;
  let s := statement p in
  statement_validate s ;;
  when_some (pr_parent_authorization p) (λ signature, sidecar_verify signature s).

(** ** Availability observations *)

Record ArtifactAvailabilityRecord := {
  ar_target_role : string;
  ar_availability : ArtifactAvailability;
  ar_observed_at : CanonicalTimestamp }.
#[export] Instance ArtifactAvailabilityRecord_eq_dec : EqDecision ArtifactAvailabilityRecord.
Proof. solve_decision. Defined.
#[export] Instance ArtifactAvailabilityRecord_to_json : ToJson ArtifactAvailabilityRecord := λ r,
  JObj [("target_role", to_json (ar_target_role r));
        ("availability", to_json (ar_availability r));
        ("observed_at", to_json (ar_observed_at r))].

Definition observed_validate (r : ArtifactAvailabilityRecord) : result unit :=
  validate_token "artifact_availability_record.target_role" (ar_target_role r) 1 255 ;;
  availability_validate (ar_availability r).

Arguments require_schema : simpl never.
Arguments require_nonzero : simpl never.
Arguments validate_tokens : simpl never.
Arguments validate_safe_positive : simpl never.
Arguments location_validate : simpl never.
Arguments descriptor_validate : simpl never.
Arguments availability_validate : simpl never.
Arguments material_validate : simpl never.
Arguments intention_validate : simpl never.
Arguments intention_commitment : simpl never.
Arguments commitment_validate : simpl never.
Arguments genome_validate : simpl never.
Arguments genome_digest : simpl never.
Arguments proposal_validate : simpl never.
Arguments acceptance_validate : simpl never.
Arguments expression_validate : simpl never.
Arguments organ_validate : simpl never.
Arguments capability_graph_digest : simpl never.
Arguments canonical_capability_graph_bytes : simpl never.
Arguments organ_acceptance_gate_name : simpl never.
Arguments provenance_validate : simpl never.
Arguments version_validate : simpl never.
Arguments expected_id : simpl never.
Arguments feedback_validate : simpl never.
Arguments intent_validate : simpl never.
Arguments evolution_validate : simpl never.
Arguments ownership_validate : simpl never.
Arguments token_validate : simpl never.
Arguments verification_validate : simpl never.
Arguments parent_validate : simpl never.
Arguments observed_validate : simpl never.

(** ** Properties *)

Section ontology_properties.
Context `{Platform}.

Lemma graph_check_unique eid graph : graph_check eid graph = Ok tt ->
  NoDup (og_organ_id <$> graph).
Proof.
  unfold graph_check. intros Hg. res_inv.
  match goal with H : for_unique _ _ _ _ _ = _ |- _ => by apply for_unique_Ok in H as (_&?&_) end.
Qed.

Lemma NoDup_fmap_eq {A B} (f : A -> B) l x y :
  NoDup (f <$> l) -> x ∈ l -> y ∈ l -> f x = f y -> x = y.
Proof.
  intros Hnd (i&Hx)%list_elem_of_lookup (j&Hy)%list_elem_of_lookup E.
  assert (i = j) as <-; [|congruence].
  eapply NoDup_lookup; [exact Hnd|by rewrite list_lookup_fmap, Hx|].
  by rewrite list_lookup_fmap, Hy, E.
Qed.

Lemma organ_sort_permutation organs organs' : organs ≡ₚ organs' ->
  NoDup (og_organ_id <$> organs) ->
  stable_sort organ_leb organs = stable_sort organ_leb organs'.
Proof.
  intros Hp Hnd. apply stable_sort_ext; [..|done].
  - intros a b. apply bytes_leb_total.
  - intros a b c. apply bytes_leb_trans.
  - intros a b Ha Hb H1 H2. apply (NoDup_fmap_eq og_organ_id organs); [done..|].
    apply (inj bytes_of). by apply bytes_leb_antisym.
Qed.

(** The capability-graph digest depends on the set of organs only: it does
    not matter in which order the organs of a valid graph are given. *)
Theorem capability_graph_order_independent (organs organs' : list Organ) (digest : Bytes32)
    (Hp : organs ≡ₚ organs') (Hd : capability_graph_digest organs = Ok digest) :
  capability_graph_digest organs' = Ok digest.
Proof.
  rewrite <- Hd. symmetry. unfold capability_graph_digest, canonical_capability_graph_bytes in *.
  apply bind_Ok in Hd as (bytes&Hd&_). apply bind_Ok in Hd as ([]&Hv&Hd).
  apply bind_Ok in Hd as ([]&Hg&_).
  assert (for_each organ_validate organs' = Ok tt) as ->.
  { apply for_each_Ok. apply for_each_Ok in Hv. by rewrite <- Hp. }
  rewrite Hv. cbn [mbind Result_bind].
  rewrite (organ_sort_permutation organs organs'); [done..|].
  rewrite <- (stable_sort_perm organ_leb organs).
  destruct (stable_sort organ_leb organs) as [|first graph]; [constructor|].
  by eapply graph_check_unique.
Qed.

(** What [GenomeProposal::validate] accepts: a revision-1 genome with no base
    and no mutations, or a genome whose revision is exactly one more than that
    of a named nonzero base, with a nonempty list of distinct mutation notes.
    The saturating addition of the code never saturates on an accepted value. *)
Theorem proposal_validate_spec (p : GenomeProposal) :
  proposal_validate p = Ok tt <->
  gp_schema p = GENOME_PROPOSAL_SCHEMA /\ genome_validate (gp_proposed p) = Ok tt /\
  validate_token "genome_proposal.rationale" (gp_rationale p) 1 4000 = Ok tt /\
  ((gp_base_revision p = None /\ gp_base_genome_digest p = None /\
    gn_revision (gp_proposed p) = 1%Z /\ gp_mutation_summary p = []) \/
   (exists base digest, gp_base_revision p = Some base /\ gp_base_genome_digest p = Some digest /\
    (0 < base)%Z /\ gn_revision (gp_proposed p) = (base + 1)%Z /\ digest <> ZERO /\
    validate_tokens "genome_proposal.mutation_summary" (gp_mutation_summary p) 1 128 2000
      = Ok tt)).
Proof.
  unfold proposal_validate, require_schema. split.
  - intros Hv. res_inv. split_and!; [done..|].
    assert (gn_revision (gp_proposed p) <= MAX_SAFE_JSON_INTEGER)%Z as Hb.
    { match goal with H : genome_validate _ = _ |- _ =>
        unfold genome_validate, validate_safe_positive in H end. by res_inv. }
    destruct (gp_base_revision p) as [base|], (gp_base_genome_digest p) as [digest|]; try done.
    + case_match eqn:E; [|done]. res_inv. right. exists base, digest.
      unfold saturating_add_u64, U64_MAX, MAX_SAFE_JSON_INTEGER in *. split_and!; try done. lia.
    + left. res_inv. by split_and!.
  - intros (->&Hg&Ht&[(->&->&->&->)|(base&digest&->&->&Hpos&Hrev&Hz&Htok)]); rewrite Ht, Hg; [done|].
    simpl. rewrite Hrev, (proj2 (Z.ltb_lt _ _) Hpos).
    assert (gn_revision (gp_proposed p) <= MAX_SAFE_JSON_INTEGER)%Z as Hb.
    { unfold genome_validate, validate_safe_positive in Hg. by res_inv. }
    rewrite (bool_decide_eq_true_2 (base + 1 = _)%Z).
    2: { unfold saturating_add_u64, U64_MAX, MAX_SAFE_JSON_INTEGER in *. lia. }
    rewrite (bool_decide_eq_false_2 _ Hz), (bool_decide_eq_false_2 (gp_mutation_summary p = []));
      [done|].
    intros E. by rewrite E in Htok.
Qed.

(** Preserved material is content-addressed: in a valid intention no two
    materials have the same digest, and any inline text is exactly the bytes of
    the artifact, of its SHA-256 digest and its length. *)
Theorem intention_material_bound (i : IntentionRecord) (Hv : intention_validate i = Ok tt) :
  NoDup ((λ m, ad_digest (aa_artifact (om_artifact m))) <$> in_materials i) /\
  Forall (λ m, forall text, om_inline_text m = Some text ->
    sha256 (bytes_of text) = ad_digest (aa_artifact (om_artifact m)) /\
    Z.of_nat (len text) = ad_byte_length (aa_artifact (om_artifact m)) /\
    absent_or_unknown (aa_status (om_artifact m)) = false) (in_materials i).
Proof.
  unfold intention_validate in Hv. res_inv.
  match goal with H : for_unique _ _ _ _ _ = _ |- _ => apply for_unique_Ok in H as (Hf&Hnd&_) end.
  split; [done|]. eapply Forall_impl; [exact Hf|]. intros m Hm text Ht.
  unfold material_validate in Hm. rewrite Ht in Hm. simpl in Hm. res_inv.
  match goal with H : u64_try_from _ = _ |- _ => unfold u64_try_from in H; case_match; [|done] end.
  rewrite bytes_of_length in *. split_and!; [done|congruence|done].
Qed.
End ontology_properties.
