(* ===== verification/Lineage.v ===== *)
(** * Neutral lineages: signed actions and contiguous segments

    The first half of [protocol/src/lineage.rs]: the closed payload set, the
    immutable [LineageAction], its signature, and [verify_lineage_segment],
    which checks canonical bytes, signatures and adjacency without claiming
    authority. *)
From S2P Require Import Prelude Text Digest Keys Records Ontology.

Definition LINEAGE_PROTOCOL : string := "tohseno".
Definition LINEAGE_PROTOCOL_VERSION : string := "2".
Definition LINEAGE_ACTION_SCHEMA : string := "tohseno.lineage-action/2".
Definition LINEAGE_SCHEMA_VERSION : Z := 2.

(** ** Payloads *)

Inductive LineagePayload : Type :=
  | PayloadCommitment (record : ShotCommitment)
  | PayloadIntention (record : IntentionRecord)
  | PayloadGenomeProposal (record : GenomeProposal)
  | PayloadGenomeAcceptance (record : GenomeAcceptance)
  | PayloadExpression (record : Expression)
  | PayloadOrgan (record : Organ)
  | PayloadVerificationResult (record : VerificationResult)
  | PayloadVersion (record : VersionRecord)
  | PayloadFeedback (record : Feedback)
  | PayloadEvolutionaryIntent (record : EvolutionaryIntent)
  | PayloadEvolution (record : Evolution)
  | PayloadOwnership (record : Ownership)
  | PayloadTokenAssociation (record : TokenAssociation)
  | PayloadArtifactAvailability (record : ArtifactAvailabilityRecord)
  | PayloadParentRelation (record : ParentRelation).
#[export] Instance LineagePayload_eq_dec : EqDecision LineagePayload.
Proof. solve_decision. Defined.

Definition payload_action_type (p : LineagePayload) : string :=
  match p with
  | PayloadCommitment _ => "commitment"
  | PayloadIntention _ => "intention"
  | PayloadGenomeProposal _ => "genome_proposal"
  | PayloadGenomeAcceptance _ => "genome_acceptance"
  | PayloadExpression _ => "expression"
  | PayloadOrgan _ => "organ"
  | PayloadVerificationResult _ => "verification_result"
  | PayloadVersion _ => "version"
  | PayloadFeedback _ => "feedback"
  | PayloadEvolutionaryIntent _ => "evolutionary_intent"
  | PayloadEvolution _ => "evolution"
  | PayloadOwnership _ => "ownership"
  | PayloadTokenAssociation _ => "token_association"
  | PayloadArtifactAvailability _ => "artifact_availability"
  | PayloadParentRelation _ => "parent_relation"
  end.

(** The record inside a payload, as [serde] serializes it. *)
Definition payload_record_json (p : LineagePayload) : json :=
  match p with
  | PayloadCommitment r => to_json r
  | PayloadIntention r => to_json r
  | PayloadGenomeProposal r => to_json r
  | PayloadGenomeAcceptance r => to_json r
  | PayloadExpression r => to_json r
  | PayloadOrgan r => to_json r
  | PayloadVerificationResult r => to_json r
  | PayloadVersion r => to_json r
  | PayloadFeedback r => to_json r
  | PayloadEvolutionaryIntent r => to_json r
  | PayloadEvolution r => to_json r
  | PayloadOwnership r => to_json r
  | PayloadTokenAssociation r => to_json r
  | PayloadArtifactAvailability r => to_json r
  | PayloadParentRelation r => to_json r
  end.

(** [#[serde(tag = "type", rename_all = "snake_case")]]: the discriminator is a
    member of the record's own object; the [snake_case] names are those of
    [action_type]. *)
#[export] Instance LineagePayload_to_json : ToJson LineagePayload := λ p,
  match payload_record_json p with
  | JObj members => JObj (("type", JStr (payload_action_type p)) :: members)
  | other => other
  end.

(** ** Actions *)

Record LineageAction := {
  la_protocol : string;
  la_protocol_version : string;
  la_schema : string;
  la_schema_version : Z;
  la_sequence : Z;
  la_previous : option Bytes32;
  la_shot_id : ShotId;
  la_actor : BuilderId;
  la_timestamp : CanonicalTimestamp;
  la_availability : AvailabilityStatus;
  la_payload : LineagePayload;
  la_payload_digest : Bytes32 }.
#[export] Instance LineageAction_eq_dec : EqDecision LineageAction.
Proof. solve_decision. Defined.
(** [previous] has no [skip_serializing_if]: a missing one is [null]. *)
#[export] Instance LineageAction_to_json : ToJson LineageAction := λ a,
  JObj [("protocol", to_json (la_protocol a));
        ("protocol_version", to_json (la_protocol_version a));
        ("schema", to_json (la_schema a)); ("schema_version", to_json (la_schema_version a));
        ("sequence", to_json (la_sequence a)); ("previous", to_json (la_previous a));
        ("shot_id", to_json (la_shot_id a)); ("actor", to_json (la_actor a));
        ("timestamp", to_json (la_timestamp a)); ("availability", to_json (la_availability a));
        ("payload", to_json (la_payload a)); ("payload_digest", to_json (la_payload_digest a))].

Record SignedLineageAction := { sl_action : LineageAction; sl_signature : SignatureSidecar }.
#[export] Instance SignedLineageAction_eq_dec : EqDecision SignedLineageAction.
Proof. solve_decision. Defined.
#[export] Instance SignedLineageAction_to_json : ToJson SignedLineageAction := λ s,
  JObj [("action", to_json (sl_action s)); ("signature", to_json (sl_signature s))].

Section action.
Context `{Platform}.

Definition payload_validate (p : LineagePayload) (shot_id : ShotId) : result unit :=
  match p with
  | PayloadCommitment record => commitment_validate record
  | PayloadIntention record => intention_validate record
  | PayloadGenomeProposal record => proposal_validate record
  | PayloadGenomeAcceptance record => acceptance_validate record
  | PayloadExpression record => expression_validate record
  | PayloadOrgan record => organ_validate record
  | PayloadVerificationResult record => verification_validate record
  | PayloadVersion record => version_validate record shot_id
  | PayloadFeedback record => feedback_validate record
  | PayloadEvolutionaryIntent record => intent_validate record
  | PayloadEvolution record => evolution_validate record
  | PayloadOwnership record => ownership_validate record
  | PayloadTokenAssociation record => token_validate record
  | PayloadArtifactAvailability record => observed_validate record
  | PayloadParentRelation record => parent_validate record
  end.

Definition payload_digest (p : LineagePayload) : result Bytes32 := sha256_commitment p.

(** The handling a signed action may declare at issuance. *)
Definition declared_handling (s : AvailabilityStatus) : bool :=
  match s with IntentionallyPrivate | PubliclyAvailable => true | _ => false end.

Definition visibility_handling (v : Visibility) : AvailabilityStatus :=
  match v with Private => IntentionallyPrivate | Public => PubliclyAvailable end.

Definition verify_payload_digest (a : LineageAction) : result unit :=
  digest ← payload_digest (la_payload a);
  fail_if (la_payload_digest a != digest) DigestMismatch.

Definition action_validate (a : LineageAction) : result unit :=
  fail_if (la_protocol a != LINEAGE_PROTOCOL)
    (invalid "lineage_action.protocol" ("must be " +:+ LINEAGE_PROTOCOL)) ;;
  fail_if (la_protocol_version a != LINEAGE_PROTOCOL_VERSION)
    (invalid "lineage_action.protocol_version" ("must be " +:+ LINEAGE_PROTOCOL_VERSION)) ;;
  fail_if (la_schema a != LINEAGE_ACTION_SCHEMA)
    (invalid "lineage_action.schema" ("must be " +:+ LINEAGE_ACTION_SCHEMA)) ;;
  fail_if (la_schema_version a != LINEAGE_SCHEMA_VERSION)
    (invalid "lineage_action.schema_version" ("must be " +:+ pretty LINEAGE_SCHEMA_VERSION)) ;;
  fail_if ((la_sequence a == 0%Z) || (MAX_SAFE_JSON_INTEGER <? la_sequence a)%Z)
    (invalid "lineage_action.sequence" "must be a positive JSON-safe integer") ;;
  fail_if (shot_is_zero (la_shot_id a)) (invalid "lineage_action.shot_id" "must not be zero") ;;
  builder_validate (la_actor a) ;;
  fail_if (negb (declared_handling (la_availability a)))
    (invalid "lineage_action.availability"
       "signed actions declare intentionally_private or publicly_available handling; mutable observations use artifact-availability actions") ;;
  payload_validate (la_payload a) (la_shot_id a) ;;
  match la_payload a with
  | PayloadFeedback feedback =>
      fail_if (la_availability a != visibility_handling (fb_visibility feedback))
        (invalid "lineage_action.availability"
           "must exactly match feedback visibility: private feedback is intentionally_private and public feedback is publicly_available")
  | _ => Ok tt
  end ;;
  verify_payload_digest a.

Definition action_new (sequence : Z) (previous : option Bytes32) (shot_id : ShotId)
    (actor : BuilderId) (timestamp : CanonicalTimestamp) (availability : AvailabilityStatus)
    (payload : LineagePayload) : result LineageAction :=
  digest ← payload_digest payload;
  let action := {|
    la_protocol := LINEAGE_PROTOCOL; la_protocol_version := LINEAGE_PROTOCOL_VERSION;
    la_schema := LINEAGE_ACTION_SCHEMA; la_schema_version := LINEAGE_SCHEMA_VERSION;
    la_sequence := sequence; la_previous := previous; la_shot_id := shot_id;
    la_actor := actor; la_timestamp := timestamp; la_availability := availability;
    la_payload := payload; la_payload_digest := digest |} in
  action_validate action ;;
  Ok action.

Definition action_commitment (a : LineageAction) : result Bytes32 :=
  action_validate a ;;
  sha256_commitment a.

Definition signing_digest (a : LineageAction) : result Bytes32 := action_commitment a.

Definition signed_verify (s : SignedLineageAction) : result unit :=
  action_validate (sl_action s) ;;
  sidecar_verify (sl_signature s) (sl_action s).

Definition signed_new (action : LineageAction) (signature : SignatureSidecar)
    : result SignedLineageAction :=
  let signed := {| sl_action := action; sl_signature := signature |} in
  signed_verify signed ;;
  Ok signed.

Definition signed_commitment (s : SignedLineageAction) : result Bytes32 :=
  signed_verify s ;;
  action_commitment (sl_action s).

Definition attach_signature (a : LineageAction) (key : P256PublicKey) (sig : P256Signature)
    : result SignedLineageAction :=
  key_validate key ;;
  validate_low_s sig ;;
  digest ← signing_digest a;
  let signed := {| sl_action := a;
    sl_signature := {| sidecar_schema := SIDECAR_SCHEMA; sidecar_algorithm := P256;
      sidecar_digest := digest; public_key := key; sidecar_signature := sig;
      low_s := true |} |} in
  signed_verify signed ;;
  Ok signed.
End action.

Arguments payload_validate : simpl never.
Arguments payload_digest : simpl never.
Arguments action_validate : simpl never.
Arguments action_commitment : simpl never.
Arguments signed_verify : simpl never.

(** ** Segments *)

(** Trusted boundary immediately before a partial contiguous segment. *)
Record LineageSegmentAnchor := {
  an_shot_id : ShotId;
  an_sequence : Z;
  an_head : Bytes32;
  an_timestamp : CanonicalTimestamp }.

Record VerifiedLineageSegment := {
  seg_shot_id : ShotId;
  seg_first_sequence : Z;
  seg_last_sequence : Z;
  seg_head : Bytes32;
  seg_complete_from_commitment : bool;
  seg_authority_context_available : bool }.

Definition action_error (sequence : Z) (reason : string) : ProtocolError :=
  LineageActionError sequence reason.

(** [matches!(payload, LineagePayload::Commitment(_))] *)
Definition is_commitment (p : LineagePayload) : bool :=
  match p with PayloadCommitment _ => true | _ => false end.

Section segment.
Context `{Platform}.

(** The three variables the loop of [verify_lineage_segment] carries. *)
Record Cursor := {
  cu_expected_sequence : Z;
  cu_previous : option Bytes32;
  cu_prior_time : option Z }.

Definition segment_step (shot_id : ShotId) (anchored : bool) (first_sequence : Z)
    (cursor : Cursor) (signed : SignedLineageAction) : result Cursor :=
  let action := sl_action signed in
  let fail reason := action_error (la_sequence action) reason in
  map_err (λ error, fail ("action verification failed: " +:+ display_error error))
    (signed_verify signed) ;;
  fail_if (la_shot_id action != shot_id) (fail "ShotID changed within the segment") ;;
  fail_if (la_sequence action != cu_expected_sequence cursor)
    (fail "sequence is not contiguous") ;;
  fail_if ((anchored || (first_sequence <? la_sequence action)%Z)
           && (la_previous action != cu_previous cursor))
    (fail "previous commitment does not match") ;;
  fail_if (is_some_and (λ value, unix_timestamp (la_timestamp action) <? value)%Z
             (cu_prior_time cursor))
    (fail "timestamp moved backwards") ;;
  commitment ← action_commitment action;
  expected ← ok_or (fail "sequence overflowed") (checked_add_u64 (cu_expected_sequence cursor) 1);
  Ok {| cu_expected_sequence := expected; cu_previous := Some commitment;
        cu_prior_time := Some (unix_timestamp (la_timestamp action)) |}.

(** The cursor before the loop. *)
Definition initial_cursor (first : LineageAction) (anchor : option LineageSegmentAnchor)
    : result Cursor :=
  expected_sequence ←
    match anchor with
    | Some value =>
        ok_or (action_error (an_sequence value) "anchor sequence overflowed")
          (checked_add_u64 (an_sequence value) 1)
    | None => Ok (la_sequence first)
    end;
  Ok {| cu_expected_sequence := expected_sequence; cu_previous := an_head <$> anchor;
        cu_prior_time := (λ a, unix_timestamp (an_timestamp a)) <$> anchor |}.

Definition complete_from_commitment (first : LineageAction)
    (anchor : option LineageSegmentAnchor) : bool :=
  opt_is_none anchor && (la_sequence first == 1%Z) && opt_is_none (la_previous first)
  && is_commitment (la_payload first).

Definition verify_lineage_segment (actions : list SignedLineageAction)
    (anchor : option LineageSegmentAnchor) : result VerifiedLineageSegment :=
  match actions with
  | [] => Err (LineageActionError 0 "segment is empty")
  | first_signed :: rest =>
      let first := sl_action first_signed in
      let shot_id := la_shot_id first in
      cursor ← initial_cursor first anchor;
      fail_if (is_some_and (λ value, an_shot_id value != shot_id) anchor)
        (action_error (la_sequence first) "segment ShotID does not match its anchor") ;;
      final ← try_fold (segment_step shot_id (opt_is_some anchor) (la_sequence first))
                cursor actions;
      let complete := complete_from_commitment first anchor in
      let last_signed := List.last rest first_signed in
      Ok {| seg_shot_id := shot_id;
            seg_first_sequence := la_sequence first;
            seg_last_sequence := la_sequence (sl_action last_signed);
            seg_head := default ZERO (cu_previous final);
            seg_complete_from_commitment := complete;
            seg_authority_context_available := opt_is_some anchor || complete |}
  end.

(** ** What a verified segment is *)

(** [signed] may follow a history of [shot_id] whose last action has sequence
    [sequence], commitment [head] and time [time]. *)
Record follows (shot_id : ShotId) (sequence : Z) (head : Bytes32) (time : Z)
    (signed : SignedLineageAction) : Prop := {
  fo_verified : signed_verify signed = Ok tt;
  fo_shot : la_shot_id (sl_action signed) = shot_id;
  fo_sequence : la_sequence (sl_action signed) = (sequence + 1)%Z;
  fo_previous : la_previous (sl_action signed) = Some head;
  fo_time : (time <= unix_timestamp (la_timestamp (sl_action signed)))%Z }.

(** [signed] may follow [prior]. *)
Definition follows_action (prior signed : SignedLineageAction) : Prop :=
  exists head, action_commitment (sl_action prior) = Ok head /\
    follows (la_shot_id (sl_action prior)) (la_sequence (sl_action prior)) head
      (unix_timestamp (la_timestamp (sl_action prior))) signed.

(** What the boundary requires of the first action. *)
Definition anchored_at (anchor : option LineageSegmentAnchor) (first : SignedLineageAction)
    : Prop :=
  match anchor with
  | Some a => follows (an_shot_id a) (an_sequence a) (an_head a)
                (unix_timestamp (an_timestamp a)) first
  | None => signed_verify first = Ok tt
  end.

(** Consecutive actions follow one another. *)
Definition adjacent (actions : list SignedLineageAction) : Prop :=
  forall k a b, actions !! k = Some a -> actions !! S k = Some b -> follows_action a b.

(** The boundary a verified history leaves behind its last action. *)
Definition anchor_after (last_signed : SignedLineageAction) (head : Bytes32)
    : LineageSegmentAnchor :=
  {| an_shot_id := la_shot_id (sl_action last_signed);
     an_sequence := la_sequence (sl_action last_signed); an_head := head;
     an_timestamp := la_timestamp (sl_action last_signed) |}.

Lemma adjacent_cons a l : adjacent (a :: l) <->
  (forall b, head l = Some b -> follows_action a b) /\ adjacent l.
Proof.
  split.
  - intros Hadj. split.
    + intros b Hb. apply (Hadj 0); [done|]. by destruct l.
    + intros k x y. apply (Hadj (S k)).
  - intros [Hb Hadj] [|k] x y; simpl.
    + intros [= <-] Hy. apply Hb. by destruct l.
    + apply Hadj.
Qed.

Lemma adjacent_app l l' : adjacent (l ++ l') <->
  adjacent l /\ adjacent l' /\
  (forall a b, last l = Some a -> head l' = Some b -> follows_action a b).
Proof.
  induction l as [|x l IH]; simpl.
  - split; [intros; split_and!; [intros ? ? ? ?; done|done|done]|naive_solver].
  - rewrite !adjacent_cons, IH. destruct l as [|y l]; simpl.
    + split; [intros (?&_&?&_)|intros ((_&_)&?&?)]; split_and!;
        try done; try naive_solver; intros k ? ? Hk; by destruct k.
    + naive_solver.
Qed.
End segment.
Arguments segment_step : simpl never.
Arguments verify_lineage_segment : simpl never.

Section segment_properties.
Context `{Platform}.

Lemma signed_verify_commitment s : signed_verify s = Ok tt ->
  action_commitment (sl_action s) = Ok (sidecar_digest (sl_signature s)) /\
  (la_sequence (sl_action s) <> 0)%Z /\ (la_sequence (sl_action s) <= MAX_SAFE_JSON_INTEGER)%Z.
Proof.
  unfold signed_verify, action_commitment. intros Hv. res_inv.
  match goal with H : sidecar_verify _ _ = _ |- _ =>
    apply sidecar_verify_spec_fact in H as (_&_&_&_&_&Hc&_) end.
  match goal with H : action_validate _ = _ |- _ => rewrite H; unfold action_validate in H end.
  simpl. rewrite Hc. res_inv. by split_and!.
Qed.

Definition cursor_after (s : SignedLineageAction) (c : Bytes32) : Cursor :=
  {| cu_expected_sequence := la_sequence (sl_action s) + 1; cu_previous := Some c;
     cu_prior_time := Some (unix_timestamp (la_timestamp (sl_action s))) |}.

Lemma segment_step_Ok shot anchored fs cu s cu' :
  segment_step shot anchored fs cu s = Ok cu' <->
  signed_verify s = Ok tt /\ la_shot_id (sl_action s) = shot /\
  la_sequence (sl_action s) = cu_expected_sequence cu /\
  (anchored || (fs <? la_sequence (sl_action s))%Z = true ->
     la_previous (sl_action s) = cu_previous cu) /\
  (forall t, cu_prior_time cu = Some t ->
     (t <= unix_timestamp (la_timestamp (sl_action s)))%Z) /\
  exists c, action_commitment (sl_action s) = Ok c /\ cu' = cursor_after s c.
Proof.
  unfold segment_step, cursor_after. split.
  - intros Hst. res_inv.
    match goal with H : checked_add_u64 _ _ = _ |- _ =>
      unfold checked_add_u64, checked_add in H; case_match; [|done] end.
    simplify_eq. split_and!; try done.
    + intros Ha. rewrite Ha in *. simpl in *. by res_inv.
    + intros t Ht. rewrite Ht in *. simpl in *. by res_inv.
    + eexists. split; [done|]. congruence.
  - intros (Hv&Hsh&Hseq&Hp&Ht&c&Hc&->). rewrite Hv, Hc. cbn [map_err mbind Result_bind].
    rewrite (bool_decide_eq_true_2 (la_shot_id _ = _)), (bool_decide_eq_true_2 (la_sequence _ = _)) by done. simpl.
    assert ((anchored || (fs <? la_sequence (sl_action s))%Z)
      && (la_previous (sl_action s) != cu_previous cu) = false) as ->.
    { destruct (anchored || _) eqn:E; [|done]. simpl.
      by rewrite bool_decide_eq_true_2 by auto. }
    assert (is_some_and (λ value, unix_timestamp (la_timestamp (sl_action s)) <? value)%Z
      (cu_prior_time cu) = false) as ->.
    { destruct (cu_prior_time cu); [|done]. simpl. apply Z.ltb_ge. auto. }
    simpl. destruct (signed_verify_commitment s Hv) as (_&_&Hb).
    unfold checked_add_u64, checked_add.
    rewrite <- Hseq. rewrite (proj2 (Z.leb_le _ _)); [done|]. unfold U64_MAX, MAX_SAFE_JSON_INTEGER in *. lia.
Qed.

Lemma list_last_irrel {A} (l : list A) a d d' : List.last (a :: l) d = List.last (a :: l) d'.
Proof. revert a. induction l as [|b l IH]; intros a; [done|exact (IH b)]. Qed.

Lemma last_cons_default {A} (x : A) l : last (x :: l) = Some (List.last l x).
Proof.
  revert x. induction l as [|y l IH]; intros x; [done|].
  rewrite last_cons_cons, IH. f_equal. destruct l as [|z l]; [done|].
  exact (list_last_irrel l z y x).
Qed.

Lemma list_last_cons {A} (x y : A) l : List.last (y :: l) x = List.last l y.
Proof. apply (inj Some). by rewrite <- !last_cons_default. Qed.

(** The loop, once it has passed the action [s0]. *)
Lemma segment_fold_after shot anchored fs l s0 c0 cu :
  action_commitment (sl_action s0) = Ok c0 -> la_shot_id (sl_action s0) = shot ->
  anchored = true \/ (fs <= la_sequence (sl_action s0))%Z ->
  try_fold (segment_step shot anchored fs) (cursor_after s0 c0) l = Ok cu <->
  adjacent (s0 :: l) /\ exists c, action_commitment (sl_action (List.last l s0)) = Ok c /\
    cu = cursor_after (List.last l s0) c.
Proof.
  revert s0 c0. induction l as [|s l IH]; intros s0 c0 Hc Hsh Ha.
  { simpl. split.
    - intros [= <-]. split; [|by eauto]. intros [|k] ? ? ?; done.
    - intros (_&c&Hc'&->). congruence. }
  rewrite list_last_cons. simpl try_fold. rewrite bind_Ok, adjacent_cons. split.
  - intros (cu1&(Hv&Hs&Hq&Hp&Ht&c&Hcs&->)%segment_step_Ok&Hf). simpl in *.
    assert (follows_action s0 s) as Hfs.
    { exists c0. split; [done|]. constructor; try done; [congruence| |by apply Ht].
      apply Hp. destruct Ha as [->|]; [done|]. apply orb_true_iff. right. apply Z.ltb_lt. lia. }
    apply IH in Hf as [Hadj Hex]; [|done|done|destruct Ha; [by left|right; lia]].
    split; [|done]. split; [by intros b [= <-]|done].
  - intros [[Hb Hadj] Hex]. destruct (Hb s eq_refl) as (h&Hh&[Hv Hs Hq Hp Ht]).
    rewrite Hc in Hh. injection Hh as <-.
    destruct (signed_verify_commitment s Hv) as (Hcs&_&_).
    exists (cursor_after s (sidecar_digest (sl_signature s))). split.
    + apply segment_step_Ok. split_and!; try done; [congruence|by intros t [= <-]|eauto].
    + apply IH; [done|congruence|destruct Ha; [by left|right; lia]|done].
Qed.

(** The declarative reading of [verify_lineage_segment]. *)
Record is_segment (actions : list SignedLineageAction) (anchor : option LineageSegmentAnchor)
    (v : VerifiedLineageSegment) : Prop := {
  is_first : exists first, head actions = Some first /\ anchored_at anchor first /\
    seg_shot_id v = la_shot_id (sl_action first) /\
    seg_first_sequence v = la_sequence (sl_action first) /\
    seg_complete_from_commitment v = complete_from_commitment (sl_action first) anchor /\
    seg_authority_context_available v
      = opt_is_some anchor || complete_from_commitment (sl_action first) anchor;
  is_adjacent : adjacent actions;
  is_last : exists last_signed, last actions = Some last_signed /\
    seg_last_sequence v = la_sequence (sl_action last_signed) /\
    action_commitment (sl_action last_signed) = Ok (seg_head v) }.

Lemma verify_lineage_segment_spec_fact actions anchor v :
  verify_lineage_segment actions anchor = Ok v <-> is_segment actions anchor v.
Proof.
  destruct actions as [|s l].
  { split; [done|]. by intros [(?&?&_) _ _]. }
  assert (forall cu, initial_cursor (sl_action s) anchor = Ok cu ->
    is_some_and (λ value, an_shot_id value != la_shot_id (sl_action s)) anchor = false ->
    forall cu', segment_step (la_shot_id (sl_action s)) (opt_is_some anchor)
        (la_sequence (sl_action s)) cu s = Ok cu' <->
      anchored_at anchor s /\ exists c, action_commitment (sl_action s) = Ok c /\
        cu' = cursor_after s c) as Hstep.
  { intros cu Hcu Hsh cu'. rewrite segment_step_Ok. unfold initial_cursor in Hcu.
    destruct anchor as [a|]; simpl in *; res_inv; simplify_eq; simpl.
    - match goal with H : checked_add_u64 _ _ = _ |- _ =>
        unfold checked_add_u64, checked_add in H; case_match; [|done]; simplify_eq end.
      split.
      + intros (?&?&?&Hp&Ht&?). split; [|done]. constructor; auto.
      + intros [[? ? ? ? ?] ?]. split_and!; try done. by intros t [= <-].
    - rewrite Z.ltb_irrefl. naive_solver. }
  unfold verify_lineage_segment. simpl try_fold. split.
  - intros Hv. apply bind_Ok in Hv as (cu&Hcu&Hv). res_inv.
    match goal with H : segment_step _ _ _ _ _ = _ |- _ =>
      apply (Hstep _ Hcu) in H as (Hanch&c&Hc&->); [|done] end.
    match goal with H : try_fold _ _ _ = _ |- _ =>
      apply segment_fold_after in H as (Hadj&c'&Hc'&->); [|done|done|right; lia] end.
    constructor; simpl; [exists s; by split_and!|done|].
    exists (List.last l s). by rewrite last_cons_default.
  - intros [(f&Hf&Hanch&H1&H2&H3&H4) Hadj (t&Ht&H5&H6)]. injection Hf as <-.
    rewrite last_cons_default in Ht. injection Ht as <-.
    assert (signed_verify s = Ok tt) as Hv by (destruct anchor; [by destruct Hanch|done]).
    destruct (signed_verify_commitment s Hv) as (Hc&_&Hb).
    assert (exists cu, initial_cursor (sl_action s) anchor = Ok cu) as [cu Hcu].
    { unfold initial_cursor. destruct anchor as [a|]; [|by eexists].
      destruct Hanch as [_ _ Hq _ _]. unfold checked_add_u64, checked_add.
      rewrite (proj2 (Z.leb_le _ _)); [by eexists|].
      unfold U64_MAX, MAX_SAFE_JSON_INTEGER in *. lia. }
    assert (is_some_and (λ value, an_shot_id value != la_shot_id (sl_action s)) anchor = false) as Hsh.
    { destruct anchor as [a|]; [|done]. simpl. destruct Hanch as [_ -> _ _ _].
      by rewrite bool_decide_eq_true_2. }
    rewrite Hcu, Hsh. cbn [fail_if mbind Result_bind].
    rewrite (proj2 (Hstep _ Hcu Hsh _) (conj Hanch (ex_intro _ _ (conj Hc eq_refl)))).
    cbn [mbind Result_bind].
    rewrite (proj2 (segment_fold_after _ _ _ l s _ _ Hc eq_refl (or_intror (Z.le_refl _)))
      (conj Hadj (ex_intro _ _ (conj H6 eq_refl)))).
    cbn [mbind Result_bind]. destruct v; simpl in *. by subst.
Qed.

(** [verify_lineage_segment] accepts exactly the nonempty contiguous
    segments: every action verifies (shape, payload digest, signature), names
    the same Shot, has the successor sequence of the one before it, names its
    commitment and is not older, and the first one continues the anchor when
    there is one; what it returns is the Shot, the bounds, the commitment of
    the last action, and whether authority can be judged. *)
Theorem verify_lineage_segment_spec actions anchor v :
  verify_lineage_segment actions anchor = Ok v <-> is_segment actions anchor v.
Proof. by eapply verify_lineage_segment_spec_fact. Qed.

(** A history may be verified in pieces: a segment is accepted exactly
    when its first part is, and the rest is accepted against the anchor that
    the first part leaves behind; the results agree. *)
Theorem verify_lineage_segment_split xs lx ys anchor v
    (Hlx : last xs = Some lx) (Hys : ys <> []) :
  verify_lineage_segment (xs ++ ys) anchor = Ok v <->
  exists v1 v2, verify_lineage_segment xs anchor = Ok v1 /\
    verify_lineage_segment ys (Some (anchor_after lx (seg_head v1))) = Ok v2 /\
    v = {| seg_shot_id := seg_shot_id v1; seg_first_sequence := seg_first_sequence v1;
           seg_last_sequence := seg_last_sequence v2; seg_head := seg_head v2;
           seg_complete_from_commitment := seg_complete_from_commitment v1;
           seg_authority_context_available := seg_authority_context_available v1 |}.
Proof.
  destruct xs as [|x xs]; [done|]. destruct ys as [|y ys]; [done|].
  rewrite verify_lineage_segment_spec_fact. split.
  - intros [(f&Hf&Hanch&H1&H2&H3&H4) Hadj (l&Hl&H5&H6)]. injection Hf as <-.
    apply adjacent_app in Hadj as (Hx&Hy&Hxy).
    destruct (Hxy lx y Hlx eq_refl) as (c&Hc&Hfo).
    pose proof (last_cons_default y ys) as Hly. rewrite last_app, Hly in Hl. rewrite Hl in Hly.
    exists {| seg_shot_id := seg_shot_id v; seg_first_sequence := seg_first_sequence v;
              seg_last_sequence := la_sequence (sl_action lx); seg_head := c;
              seg_complete_from_commitment := seg_complete_from_commitment v;
              seg_authority_context_available := seg_authority_context_available v |},
      {| seg_shot_id := la_shot_id (sl_action y);
         seg_first_sequence := la_sequence (sl_action y);
         seg_last_sequence := seg_last_sequence v; seg_head := seg_head v;
         seg_complete_from_commitment := false; seg_authority_context_available := true |}.
    simpl. split_and!; [| |by destruct v].
    + apply verify_lineage_segment_spec_fact. constructor; simpl; [exists x; by split_and!|done|].
      exists lx. by rewrite Hlx.
    + apply verify_lineage_segment_spec_fact. constructor; simpl; [exists y; by split_and!|done|].
      exists l. by rewrite Hly.
  - intros (v1&v2&Hv1&Hv2&->). apply verify_lineage_segment_spec_fact in Hv1, Hv2.
    destruct Hv1 as [(f&Hf&Hanch&H1&H2&H3&H4) Hx (l&Hl&H5&H6)].
    destruct Hv2 as [(f'&Hf'&Hanch'&_&_&_&_) Hy (l'&Hl'&H5'&H6')].
    injection Hf as <-. injection Hf' as <-. rewrite Hlx in Hl. injection Hl as <-.
    constructor; simpl; [exists x; by split_and!| |].
    + apply (adjacent_app (x :: xs)). split_and!; [done..|].
      intros a b Ha Hb. rewrite Hlx in Ha. injection Ha as <-. injection Hb as <-.
      exists (seg_head v1). by split.
    + exists l'. change (x :: xs ++ y :: ys) with ((x :: xs) ++ y :: ys).
      rewrite last_app, Hl'. by split_and!.
Qed.

Lemma adjacent_linked actions : adjacent actions ->
  (forall s, head actions = Some s -> la_previous (sl_action s) = None) ->
  linked la_previous action_commitment (sl_action <$> actions).
Proof.
  intros Hadj H0. split.
  - intros a Ha. rewrite list_lookup_fmap in Ha.
    destruct (actions !! 0) as [s|] eqn:Hs; [|done]. injection Ha as <-.
    apply H0. by destruct actions.
  - intros k a b Ha Hb. rewrite list_lookup_fmap in Ha, Hb.
    destruct (actions !! k) as [s|] eqn:Hs; [|done]. injection Ha as <-.
    destruct (actions !! S k) as [s'|] eqn:Hs'; [|done]. injection Hb as <-.
    destruct (Hadj _ _ _ Hs Hs') as (c&Hc&[]). eauto.
Qed.

(** Tamper evidence: the head of a complete segment commits to its whole
    history. Two complete segments with the same head contain the same actions,
    unless the action commitment collides on two of them. *)
Theorem segment_head_binds_history xs ys v w
    (Hx : verify_lineage_segment xs None = Ok v) (Hy : verify_lineage_segment ys None = Ok w)
    (Hcx : seg_complete_from_commitment v = true) (Hcy : seg_complete_from_commitment w = true)
    (Hhead : seg_head v = seg_head w)
    (Hcf : collision_free action_commitment (sl_action <$> xs) (sl_action <$> ys)) :
  sl_action <$> xs = sl_action <$> ys.
Proof.
  apply verify_lineage_segment_spec_fact in Hx, Hy.
  destruct Hx as [(f&Hf&_&_&_&Hc&_) Ha (l&Hl&_&Hh)].
  destruct Hy as [(f'&Hf'&_&_&_&Hc'&_) Ha' (l'&Hl'&_&Hh')].
  assert (forall f, complete_from_commitment f None = true -> la_previous f = None) as Hroot.
  { unfold complete_from_commitment. intros g Hg. res_inv. by destruct (la_previous g). }
  rewrite Hc in Hcx. rewrite Hc' in Hcy.
  assert (last (sl_action <$> xs) = Some (sl_action l)) as Lx by (by rewrite fmap_last, Hl).
  assert (last (sl_action <$> ys) = Some (sl_action l')) as Ly by (by rewrite fmap_last, Hl').
  assert (sl_action l = sl_action l') as E.
  { apply Hcf; [by apply last_Some_elem_of..|]. by rewrite Hh, Hh', Hhead. }
  rewrite <- E in Ly.
  apply (linked_last_eq la_previous action_commitment _ _ (sl_action l)); try done;
    apply adjacent_linked; try done; intros s Hs; apply Hroot; congruence.
Qed.
End segment_properties.
