(* ===== verification/Reduction.v ===== *)
(** * Authority: reducing a lineage to the state of a Shot

    The second half of [protocol/src/lineage.rs]: [ShotState], [reduce_lineage]
    and [apply_lineage_actions] with one definition per arm of [apply_one], and
    the projection of version-1 lineages. [BTreeMap]s are finite maps; where
    the source iterates one in key order, the order is written out. *)
From S2P Require Import Prelude Text Digest Keys Records Evolution Ontology Lineage.

Record AcceptedGenome := {
  ag_genome : Genome;
  ag_proposal_action : Bytes32;
  ag_acceptance_action : Bytes32 }.

Record ExpressionState := {
  es_expression : Expression;
  es_organs : gmap string Organ;
  es_versions : list VersionRecord;
  es_current_version : option VersionId }.

Record ActionRecord (T : Type) := { rec_action : Bytes32; rec_record : T }.
Arguments rec_action {_} _.
Arguments rec_record {_} _.
Arguments Build_ActionRecord {_} _ _.

Record ShotState := {
  st_shot_id : ShotId;
  st_commitment : ShotCommitment;
  st_intention : option IntentionRecord;
  st_controller : BuilderId;
  st_controller_key : P256PublicKey;
  st_accepted_genome : option AcceptedGenome;
  st_expressions : gmap ExpressionId ExpressionState;
  st_genome_proposals : gmap Bytes32 GenomeProposal;
  st_genome_acceptances : gmap Bytes32 GenomeAcceptance;
  st_verification_results : gmap Bytes32 VerificationResult;
  st_feedback : gmap Bytes32 Feedback;
  st_evolutionary_intents : gmap Bytes32 EvolutionaryIntent;
  st_evolutions : list (ActionRecord Evolution);
  st_ownership_history : list (ActionRecord Ownership);
  st_token_association : option TokenAssociation;
  st_token_history : list (ActionRecord TokenAssociation);
  st_availability : gmap Bytes32 ArtifactAvailabilityRecord;
  st_parent_relations : list (ActionRecord ParentRelation);
  st_sequence : Z;
  st_head : Bytes32;
  st_last_timestamp : CanonicalTimestamp }.

(** ** Field updates *)

Definition set_intention (x : option IntentionRecord) (s : ShotState) : ShotState :=
  {| st_shot_id := st_shot_id s; st_commitment := st_commitment s; st_intention := x;
     st_controller := st_controller s; st_controller_key := st_controller_key s;
     st_accepted_genome := st_accepted_genome s; st_expressions := st_expressions s;
     st_genome_proposals := st_genome_proposals s;
     st_genome_acceptances := st_genome_acceptances s;
     st_verification_results := st_verification_results s; st_feedback := st_feedback s;
     st_evolutionary_intents := st_evolutionary_intents s; st_evolutions := st_evolutions s;
     st_ownership_history := st_ownership_history s;
     st_token_association := st_token_association s; st_token_history := st_token_history s;
     st_availability := st_availability s; st_parent_relations := st_parent_relations s;
     st_sequence := st_sequence s; st_head := st_head s;
     st_last_timestamp := st_last_timestamp s |}.

Definition set_controller (x : BuilderId) (k : P256PublicKey) (s : ShotState) : ShotState :=
  {| st_shot_id := st_shot_id s; st_commitment := st_commitment s;
     st_intention := st_intention s; st_controller := x; st_controller_key := k;
     st_accepted_genome := st_accepted_genome s; st_expressions := st_expressions s;
     st_genome_proposals := st_genome_proposals s;
     st_genome_acceptances := st_genome_acceptances s;
     st_verification_results := st_verification_results s; st_feedback := st_feedback s;
     st_evolutionary_intents := st_evolutionary_intents s; st_evolutions := st_evolutions s;
     st_ownership_history := st_ownership_history s;
     st_token_association := st_token_association s; st_token_history := st_token_history s;
     st_availability := st_availability s; st_parent_relations := st_parent_relations s;
     st_sequence := st_sequence s; st_head := st_head s;
     st_last_timestamp := st_last_timestamp s |}.

Definition set_accepted_genome (x : option AcceptedGenome) (s : ShotState) : ShotState :=
  {| st_shot_id := st_shot_id s; st_commitment := st_commitment s;
     st_intention := st_intention s; st_controller := st_controller s;
     st_controller_key := st_controller_key s; st_accepted_genome := x;
     st_expressions := st_expressions s; st_genome_proposals := st_genome_proposals s;
     st_genome_acceptances := st_genome_acceptances s;
     st_verification_results := st_verification_results s; st_feedback := st_feedback s;
     st_evolutionary_intents := st_evolutionary_intents s; st_evolutions := st_evolutions s;
     st_ownership_history := st_ownership_history s;
     st_token_association := st_token_association s; st_token_history := st_token_history s;
     st_availability := st_availability s; st_parent_relations := st_parent_relations s;
     st_sequence := st_sequence s; st_head := st_head s;
     st_last_timestamp := st_last_timestamp s |}.

Definition set_expressions (x : gmap ExpressionId ExpressionState) (s : ShotState) : ShotState :=
  {| st_shot_id := st_shot_id s; st_commitment := st_commitment s;
     st_intention := st_intention s; st_controller := st_controller s;
     st_controller_key := st_controller_key s; st_accepted_genome := st_accepted_genome s;
     st_expressions := x; st_genome_proposals := st_genome_proposals s;
     st_genome_acceptances := st_genome_acceptances s;
     st_verification_results := st_verification_results s; st_feedback := st_feedback s;
     st_evolutionary_intents := st_evolutionary_intents s; st_evolutions := st_evolutions s;
     st_ownership_history := st_ownership_history s;
     st_token_association := st_token_association s; st_token_history := st_token_history s;
     st_availability := st_availability s; st_parent_relations := st_parent_relations s;
     st_sequence := st_sequence s; st_head := st_head s;
     st_last_timestamp := st_last_timestamp s |}.

Definition set_genome_proposals (x : gmap Bytes32 GenomeProposal) (s : ShotState) : ShotState :=
  {| st_shot_id := st_shot_id s; st_commitment := st_commitment s;
     st_intention := st_intention s; st_controller := st_controller s;
     st_controller_key := st_controller_key s; st_accepted_genome := st_accepted_genome s;
     st_expressions := st_expressions s; st_genome_proposals := x;
     st_genome_acceptances := st_genome_acceptances s;
     st_verification_results := st_verification_results s; st_feedback := st_feedback s;
     st_evolutionary_intents := st_evolutionary_intents s; st_evolutions := st_evolutions s;
     st_ownership_history := st_ownership_history s;
     st_token_association := st_token_association s; st_token_history := st_token_history s;
     st_availability := st_availability s; st_parent_relations := st_parent_relations s;
     st_sequence := st_sequence s; st_head := st_head s;
     st_last_timestamp := st_last_timestamp s |}.

Definition set_genome_acceptances (x : gmap Bytes32 GenomeAcceptance) (s : ShotState) : ShotState :=
  {| st_shot_id := st_shot_id s; st_commitment := st_commitment s;
     st_intention := st_intention s; st_controller := st_controller s;
     st_controller_key := st_controller_key s; st_accepted_genome := st_accepted_genome s;
     st_expressions := st_expressions s; st_genome_proposals := st_genome_proposals s;
     st_genome_acceptances := x; st_verification_results := st_verification_results s;
     st_feedback := st_feedback s; st_evolutionary_intents := st_evolutionary_intents s;
     st_evolutions := st_evolutions s; st_ownership_history := st_ownership_history s;
     st_token_association := st_token_association s; st_token_history := st_token_history s;
     st_availability := st_availability s; st_parent_relations := st_parent_relations s;
     st_sequence := st_sequence s; st_head := st_head s;
     st_last_timestamp := st_last_timestamp s |}.

Definition set_verification_results (x : gmap Bytes32 VerificationResult) (s : ShotState) : ShotState :=
  {| st_shot_id := st_shot_id s; st_commitment := st_commitment s;
     st_intention := st_intention s; st_controller := st_controller s;
     st_controller_key := st_controller_key s; st_accepted_genome := st_accepted_genome s;
     st_expressions := st_expressions s; st_genome_proposals := st_genome_proposals s;
     st_genome_acceptances := st_genome_acceptances s; st_verification_results := x;
     st_feedback := st_feedback s; st_evolutionary_intents := st_evolutionary_intents s;
     st_evolutions := st_evolutions s; st_ownership_history := st_ownership_history s;
     st_token_association := st_token_association s; st_token_history := st_token_history s;
     st_availability := st_availability s; st_parent_relations := st_parent_relations s;
     st_sequence := st_sequence s; st_head := st_head s;
     st_last_timestamp := st_last_timestamp s |}.

Definition set_feedback (x : gmap Bytes32 Feedback) (s : ShotState) : ShotState :=
  {| st_shot_id := st_shot_id s; st_commitment := st_commitment s;
     st_intention := st_intention s; st_controller := st_controller s;
     st_controller_key := st_controller_key s; st_accepted_genome := st_accepted_genome s;
     st_expressions := st_expressions s; st_genome_proposals := st_genome_proposals s;
     st_genome_acceptances := st_genome_acceptances s;
     st_verification_results := st_verification_results s; st_feedback := x;
     st_evolutionary_intents := st_evolutionary_intents s; st_evolutions := st_evolutions s;
     st_ownership_history := st_ownership_history s;
     st_token_association := st_token_association s; st_token_history := st_token_history s;
     st_availability := st_availability s; st_parent_relations := st_parent_relations s;
     st_sequence := st_sequence s; st_head := st_head s;
     st_last_timestamp := st_last_timestamp s |}.

Definition set_evolutionary_intents (x : gmap Bytes32 EvolutionaryIntent) (s : ShotState) : ShotState :=
  {| st_shot_id := st_shot_id s; st_commitment := st_commitment s;
     st_intention := st_intention s; st_controller := st_controller s;
     st_controller_key := st_controller_key s; st_accepted_genome := st_accepted_genome s;
     st_expressions := st_expressions s; st_genome_proposals := st_genome_proposals s;
     st_genome_acceptances := st_genome_acceptances s;
     st_verification_results := st_verification_results s; st_feedback := st_feedback s;
     st_evolutionary_intents := x; st_evolutions := st_evolutions s;
     st_ownership_history := st_ownership_history s;
     st_token_association := st_token_association s; st_token_history := st_token_history s;
     st_availability := st_availability s; st_parent_relations := st_parent_relations s;
     st_sequence := st_sequence s; st_head := st_head s;
     st_last_timestamp := st_last_timestamp s |}.

Definition set_evolutions (x : list (ActionRecord Evolution)) (s : ShotState) : ShotState :=
  {| st_shot_id := st_shot_id s; st_commitment := st_commitment s;
     st_intention := st_intention s; st_controller := st_controller s;
     st_controller_key := st_controller_key s; st_accepted_genome := st_accepted_genome s;
     st_expressions := st_expressions s; st_genome_proposals := st_genome_proposals s;
     st_genome_acceptances := st_genome_acceptances s;
     st_verification_results := st_verification_results s; st_feedback := st_feedback s;
     st_evolutionary_intents := st_evolutionary_intents s; st_evolutions := x;
     st_ownership_history := st_ownership_history s;
     st_token_association := st_token_association s; st_token_history := st_token_history s;
     st_availability := st_availability s; st_parent_relations := st_parent_relations s;
     st_sequence := st_sequence s; st_head := st_head s;
     st_last_timestamp := st_last_timestamp s |}.

Definition set_ownership_history (x : list (ActionRecord Ownership)) (s : ShotState) : ShotState :=
  {| st_shot_id := st_shot_id s; st_commitment := st_commitment s;
     st_intention := st_intention s; st_controller := st_controller s;
     st_controller_key := st_controller_key s; st_accepted_genome := st_accepted_genome s;
     st_expressions := st_expressions s; st_genome_proposals := st_genome_proposals s;
     st_genome_acceptances := st_genome_acceptances s;
     st_verification_results := st_verification_results s; st_feedback := st_feedback s;
     st_evolutionary_intents := st_evolutionary_intents s; st_evolutions := st_evolutions s;
     st_ownership_history := x; st_token_association := st_token_association s;
     st_token_history := st_token_history s; st_availability := st_availability s;
     st_parent_relations := st_parent_relations s; st_sequence := st_sequence s;
     st_head := st_head s; st_last_timestamp := st_last_timestamp s |}.

Definition set_token_association (x : option TokenAssociation) (s : ShotState) : ShotState :=
  {| st_shot_id := st_shot_id s; st_commitment := st_commitment s;
     st_intention := st_intention s; st_controller := st_controller s;
     st_controller_key := st_controller_key s; st_accepted_genome := st_accepted_genome s;
     st_expressions := st_expressions s; st_genome_proposals := st_genome_proposals s;
     st_genome_acceptances := st_genome_acceptances s;
     st_verification_results := st_verification_results s; st_feedback := st_feedback s;
     st_evolutionary_intents := st_evolutionary_intents s; st_evolutions := st_evolutions s;
     st_ownership_history := st_ownership_history s; st_token_association := x;
     st_token_history := st_token_history s; st_availability := st_availability s;
     st_parent_relations := st_parent_relations s; st_sequence := st_sequence s;
     st_head := st_head s; st_last_timestamp := st_last_timestamp s |}.

Definition set_token_history (x : list (ActionRecord TokenAssociation)) (s : ShotState) : ShotState :=
  {| st_shot_id := st_shot_id s; st_commitment := st_commitment s;
     st_intention := st_intention s; st_controller := st_controller s;
     st_controller_key := st_controller_key s; st_accepted_genome := st_accepted_genome s;
     st_expressions := st_expressions s; st_genome_proposals := st_genome_proposals s;
     st_genome_acceptances := st_genome_acceptances s;
     st_verification_results := st_verification_results s; st_feedback := st_feedback s;
     st_evolutionary_intents := st_evolutionary_intents s; st_evolutions := st_evolutions s;
     st_ownership_history := st_ownership_history s;
     st_token_association := st_token_association s; st_token_history := x;
     st_availability := st_availability s; st_parent_relations := st_parent_relations s;
     st_sequence := st_sequence s; st_head := st_head s;
     st_last_timestamp := st_last_timestamp s |}.

Definition set_availability (x : gmap Bytes32 ArtifactAvailabilityRecord) (s : ShotState) : ShotState :=
  {| st_shot_id := st_shot_id s; st_commitment := st_commitment s;
     st_intention := st_intention s; st_controller := st_controller s;
     st_controller_key := st_controller_key s; st_accepted_genome := st_accepted_genome s;
     st_expressions := st_expressions s; st_genome_proposals := st_genome_proposals s;
     st_genome_acceptances := st_genome_acceptances s;
     st_verification_results := st_verification_results s; st_feedback := st_feedback s;
     st_evolutionary_intents := st_evolutionary_intents s; st_evolutions := st_evolutions s;
     st_ownership_history := st_ownership_history s;
     st_token_association := st_token_association s; st_token_history := st_token_history s;
     st_availability := x; st_parent_relations := st_parent_relations s;
     st_sequence := st_sequence s; st_head := st_head s;
     st_last_timestamp := st_last_timestamp s |}.

Definition set_parent_relations (x : list (ActionRecord ParentRelation)) (s : ShotState) : ShotState :=
  {| st_shot_id := st_shot_id s; st_commitment := st_commitment s;
     st_intention := st_intention s; st_controller := st_controller s;
     st_controller_key := st_controller_key s; st_accepted_genome := st_accepted_genome s;
     st_expressions := st_expressions s; st_genome_proposals := st_genome_proposals s;
     st_genome_acceptances := st_genome_acceptances s;
     st_verification_results := st_verification_results s; st_feedback := st_feedback s;
     st_evolutionary_intents := st_evolutionary_intents s; st_evolutions := st_evolutions s;
     st_ownership_history := st_ownership_history s;
     st_token_association := st_token_association s; st_token_history := st_token_history s;
     st_availability := st_availability s; st_parent_relations := x;
     st_sequence := st_sequence s; st_head := st_head s;
     st_last_timestamp := st_last_timestamp s |}.

Definition set_position (sequence : Z) (head : Bytes32) (time : CanonicalTimestamp) (s : ShotState) : ShotState :=
  {| st_shot_id := st_shot_id s; st_commitment := st_commitment s;
     st_intention := st_intention s; st_controller := st_controller s;
     st_controller_key := st_controller_key s; st_accepted_genome := st_accepted_genome s;
     st_expressions := st_expressions s; st_genome_proposals := st_genome_proposals s;
     st_genome_acceptances := st_genome_acceptances s;
     st_verification_results := st_verification_results s; st_feedback := st_feedback s;
     st_evolutionary_intents := st_evolutionary_intents s; st_evolutions := st_evolutions s;
     st_ownership_history := st_ownership_history s;
     st_token_association := st_token_association s; st_token_history := st_token_history s;
     st_availability := st_availability s; st_parent_relations := st_parent_relations s;
     st_sequence := sequence; st_head := head; st_last_timestamp := time |}.

(** [organs.values()]: the organs in the order of their keys. *)
Definition organ_values (organs : gmap string Organ) : list Organ :=
  snd <$> stable_sort (λ a b, bytes_leb (bytes_of (fst a)) (bytes_of (fst b)))
            (map_to_list organs).

(** [expressions.values().flat_map(|value| &value.versions)], up to order. *)
Definition all_versions (expressions : gmap ExpressionId ExpressionState) : list VersionRecord :=
  map_to_list expressions ≫= λ e, es_versions (snd e).

(** [u64::try_from(versions.len()).ok().and_then(|n| n.checked_add(1))] *)
Definition next_ordinal (versions : list VersionRecord) : option Z :=
  n ← u64_try_from (length versions); checked_add_u64 n 1.

(** [versions.iter().position(|version| version.version_id == id)] *)
Definition version_position (id : VersionId) (versions : list VersionRecord) : option nat :=
  fst <$> list_find (λ v, vr_version_id v = id) versions.

Section reduction.
Context `{Platform}.

(** ** The arms of [apply_one]

    Each takes the state, the action, its commitment and the payload record. *)
Definition action_fail (action : LineageAction) (reason : string) : ProtocolError :=
  action_error (la_sequence action) reason.

Definition apply_intention (s : ShotState) (action : LineageAction) (record : IntentionRecord)
    : result ShotState :=
  fail_if (opt_is_some (st_intention s))
    (action_fail action "the original intention is immutable") ;;
  commitment ← intention_commitment record;
  fail_if (commitment != sc_intention_commitment (st_commitment s))
    (action_fail action "intention does not match the commitment made at Shot origin") ;;
  fail_if (unix_timestamp (la_timestamp action) <? unix_timestamp (in_captured_at record))%Z
    (action_fail action "intention capture cannot occur after its action") ;;
  Ok (set_intention (Some record) s).

Definition apply_genome_proposal (s : ShotState) (action : LineageAction)
    (commitment : Bytes32) (record : GenomeProposal) : result ShotState :=
  let mismatch := action_fail action
    "genome proposal base does not match the currently accepted genome" in
  match st_accepted_genome s, gp_base_revision record, gp_base_genome_digest record with
  | None, None, None => Ok tt
  | Some current, Some revision, Some digest =>
      if revision == gn_revision (ag_genome current) then
        current_digest ← genome_digest (ag_genome current);
        fail_if (digest != current_digest) mismatch
      else Err mismatch
  | _, _, _ => Err mismatch
  end ;;
  Ok (set_genome_proposals (<[commitment := record]> (st_genome_proposals s)) s).

Definition apply_genome_acceptance (s : ShotState) (action : LineageAction)
    (commitment : Bytes32) (record : GenomeAcceptance) : result ShotState :=
  fail_if (ga_accepted_at record != la_timestamp action)
    (action_fail action "genome acceptance timestamp must equal action timestamp") ;;
  proposal ← ok_or (action_fail action "genome proposal action is unavailable")
               (st_genome_proposals s !! ga_proposal_action record);
  let mismatch := action_fail action "accepted revision or digest does not match the proposal" in
  fail_if (gn_revision (gp_proposed proposal) != ga_revision record) mismatch ;;
  proposed_digest ← genome_digest (gp_proposed proposal);
  fail_if (proposed_digest != ga_genome_digest record) mismatch ;;
  let expected_revision :=
    match st_accepted_genome s with
    | Some current => saturating_add_u64 (gn_revision (ag_genome current)) 1
    | None => 1%Z
    end in
  fail_if (ga_revision record != expected_revision)
    (action_fail action "accepted genome revision is not contiguous") ;;
  Ok (set_genome_acceptances (<[commitment := record]> (st_genome_acceptances s))
        (set_accepted_genome (Some {| ag_genome := gp_proposed proposal;
             ag_proposal_action := ga_proposal_action record;
             ag_acceptance_action := commitment |}) s)).

(** [record.genome_revision != genome.revision || record.genome_digest !=
    genome.digest()?] *)
Definition require_genome (genome : AcceptedGenome) (revision : Z) (digest : Bytes32)
    (mismatch : ProtocolError) : result unit :=
  fail_if (revision != gn_revision (ag_genome genome)) mismatch ;;
  accepted_digest ← genome_digest (ag_genome genome);
  fail_if (digest != accepted_digest) mismatch.

Definition apply_expression (s : ShotState) (action : LineageAction) (record : Expression)
    : result ShotState :=
  genome ← ok_or (action_fail action "an expression requires an accepted genome")
             (st_accepted_genome s);
  require_genome genome (ex_genome_revision record) (ex_genome_digest record)
    (action_fail action "expression does not bind the accepted genome") ;;
  fail_if (opt_is_some (st_expressions s !! ex_expression_id record))
    (action_fail action "expression ID already exists") ;;
  Ok (set_expressions (<[ex_expression_id record :=
        {| es_expression := record; es_organs := ∅; es_versions := [];
           es_current_version := None |}]> (st_expressions s)) s).

Definition apply_organ (s : ShotState) (action : LineageAction) (record : Organ)
    : result ShotState :=
  expression ← ok_or (action_fail action "organ names an unknown expression")
                 (st_expressions s !! og_expression_id record);
  fail_if (opt_is_some (es_organs expression !! og_organ_id record))
    (action_fail action "organ ID is already declared for this expression") ;;
  for_each (λ dependency,
    fail_if (dependency == og_organ_id record)
      (action_fail action "organ cannot depend on itself") ;;
    fail_if (opt_is_none (es_organs expression !! dependency))
      (action_fail action "organ dependency has not been declared"))
    (og_dependencies record) ;;
  Ok (set_expressions (<[og_expression_id record :=
        {| es_expression := es_expression expression;
           es_organs := <[og_organ_id record := record]> (es_organs expression);
           es_versions := es_versions expression;
           es_current_version := es_current_version expression |}]> (st_expressions s)) s).

(** Every acceptance test of every organ is a gate of the verification. *)
Definition require_organ_gates (action : LineageAction) (gate_names : gset string)
    (graph : list Organ) : result unit :=
  for_each (λ organ, for_each (λ index,
    expected ← organ_acceptance_gate_name organ index;
    fail_if (bool_decide (expected ∉ gate_names))
      (action_fail action "verification omits a declared Organ acceptance test gate"))
    (seq 0 (length (og_acceptance_tests organ)))) graph.

Definition apply_verification (s : ShotState) (action : LineageAction)
    (commitment : Bytes32) (record : VerificationResult) : result ShotState :=
  genome ← ok_or (action_fail action "verification requires an accepted genome")
             (st_accepted_genome s);
  expression ← ok_or (action_fail action "verification names an unknown expression")
                 (st_expressions s !! vs_expression_id record);
  require_genome genome (vs_genome_revision record) (vs_genome_digest record)
    (action_fail action "verification does not bind the accepted genome") ;;
  let graph := organ_values (es_organs expression) in
  expected_graph_digest ← capability_graph_digest graph;
  fail_if (vs_capability_graph_digest record != expected_graph_digest)
    (action_fail action "verification does not bind the exact current Organ graph") ;;
  let gate_names : gset string := list_to_set (vg_name <$> vs_gates record) in
  require_organ_gates action gate_names graph ;;
  ordinal ← ok_or (action_fail action "expression version sequence overflowed")
              (next_ordinal (es_versions expression));
  let expected := derive_version_id (st_shot_id s) (vs_expression_id record) ordinal
                    (vs_genome_digest record) (vs_source_digest record) in
  fail_if (vs_candidate_version_id record != expected)
    (action_fail action
       "verification candidate does not use the next content-bound VersionID") ;;
  Ok (set_verification_results (<[commitment := record]> (st_verification_results s)) s).

(** The version repeats the facts of the verification it stands on. *)
Definition same_facts (verification : VerificationResult) (record : VersionRecord) : bool :=
  (vs_expression_id verification == vr_expression_id record)
  && (vs_candidate_version_id verification == vr_version_id record)
  && (vs_genome_revision verification == vr_genome_revision record)
  && (vs_genome_digest verification == vr_genome_digest record)
  && (vs_source_digest verification == vr_source_digest record)
  && (vs_capability_graph_digest verification == vr_capability_graph_digest record)
  && (vs_known_incompleteness verification == vr_known_incompleteness record).

Definition apply_version (s : ShotState) (action : LineageAction) (record : VersionRecord)
    : result ShotState :=
  verification ← ok_or (action_fail action "accepted version references an unknown verification")
                   (st_verification_results s !! vr_verification_action record);
  fail_if (negb (vs_passed verification))
    (action_fail action "failed verification cannot produce an accepted version") ;;
  fail_if (negb (same_facts verification record))
    (action_fail action "version facts do not exactly match the referenced verification") ;;
  genome ← ok_or (action_fail action "version requires an accepted genome")
             (st_accepted_genome s);
  require_genome genome (vr_genome_revision record) (vr_genome_digest record)
    (action_fail action "version does not bind the accepted genome") ;;
  fail_if (existsb (λ v, vr_version_id v == vr_version_id record)
             (all_versions (st_expressions s)))
    (action_fail action "VersionID already exists") ;;
  expression ← ok_or (action_fail action "version names an unknown expression")
                 (st_expressions s !! vr_expression_id record);
  graph_digest ← capability_graph_digest (organ_values (es_organs expression));
  fail_if (vr_capability_graph_digest record != graph_digest)
    (action_fail action "version does not bind the exact current Organ graph") ;;
  expected_ordinal ← ok_or (action_fail action "expression version sequence overflowed")
                       (next_ordinal (es_versions expression));
  fail_if (vr_ordinal record != expected_ordinal)
    (action_fail action "expression version ordinal is not contiguous") ;;
  Ok (set_expressions (<[vr_expression_id record :=
        {| es_expression := es_expression expression; es_organs := es_organs expression;
           es_versions := es_versions expression ++ [record];
           es_current_version := Some (vr_version_id record) |}]> (st_expressions s)) s).

Definition apply_feedback (s : ShotState) (action : LineageAction)
    (commitment : Bytes32) (record : Feedback) : result ShotState :=
  expression ← ok_or (action_fail action "feedback names an unknown expression")
                 (st_expressions s !! fb_expression_id record);
  version ← ok_or (action_fail action "feedback names an unknown exact version")
              (snd <$> list_find (λ v, vr_version_id v = fb_version_id record)
                         (es_versions expression));
  fail_if (is_some_and (λ value, vr_build_identity version != Some value)
             (fb_build_identity record))
    (action_fail action "feedback build identity does not match the exact version") ;;
  Ok (set_feedback (<[commitment := record]> (st_feedback s)) s).

Definition apply_evolutionary_intent (s : ShotState) (action : LineageAction)
    (commitment : Bytes32) (record : EvolutionaryIntent) : result ShotState :=
  expression ← ok_or (action_fail action "evolutionary intent names an unknown expression")
                 (st_expressions s !! ei_expression_id record);
  fail_if (es_current_version expression != Some (ei_from_version_id record))
    (action_fail action "evolutionary intent must begin from the current expression version") ;;
  for_each (λ reference,
    feedback ← ok_or (action_fail action "evolutionary intent references unknown feedback")
                 (st_feedback s !! reference);
    fail_if ((fb_expression_id feedback != ei_expression_id record)
             || (fb_version_id feedback != ei_from_version_id record))
      (action_fail action "selected feedback must bind the same exact expression version"))
    (ei_feedback_actions record) ;;
  when_some (ei_proposed_genome_action record) (λ proposal,
    fail_if (opt_is_none (st_genome_proposals s !! proposal))
      (action_fail action "proposed genome action is unavailable")) ;;
  Ok (set_evolutionary_intents (<[commitment := record]> (st_evolutionary_intents s)) s).

(** The genome half of an evolution: a mutation must be the acceptance of the
    proposal the intent named; without one nothing may mention a genome. *)
Definition evolution_genome_check (s : ShotState) (action : LineageAction)
    (record : Evolution) (intent : EvolutionaryIntent) (to : VersionRecord) : result unit :=
  if eo_from_genome_digest record != eo_to_genome_digest record then
    proposal_action ← ok_or (action_fail action
        "genome mutation was not proposed by its evolutionary intent")
      (ei_proposed_genome_action intent);
    acceptance_action ← ok_or (action_fail action
        "genome mutation lacks the exact accepted genome action")
      (eo_genome_acceptance_action record);
    acceptance ← ok_or (action_fail action "genome acceptance action is unavailable")
                   (st_genome_acceptances s !! acceptance_action);
    fail_if (ga_proposal_action acceptance != proposal_action)
      (action_fail action "genome acceptance does not accept the intent's exact proposal") ;;
    fail_if ((ga_genome_digest acceptance != eo_to_genome_digest record)
             || (ga_revision acceptance != vr_genome_revision to))
      (action_fail action "genome acceptance does not bind the evolution target version")
  else if opt_is_some (ei_proposed_genome_action intent) || proposes ScopeGenome intent then
    Err (action_fail action
      "genome-scoped evolutionary intent cannot complete without its genome mutation")
  else
    fail_if (opt_is_some (eo_genome_acceptance_action record))
      (action_fail action "unchanged genome must not name a genome acceptance action").

Definition apply_evolution (s : ShotState) (action : LineageAction)
    (commitment : Bytes32) (record : Evolution) : result ShotState :=
  fail_if (eo_completed_at record != la_timestamp action)
    (action_fail action "evolution completion timestamp must equal action timestamp") ;;
  intent ← ok_or (action_fail action "evolution references unknown evolutionary intent")
             (st_evolutionary_intents s !! eo_evolutionary_intent_action record);
  fail_if ((ei_expression_id intent != eo_expression_id record)
           || (ei_from_version_id intent != eo_from_version_id record))
    (action_fail action "evolution does not match its accepted intent") ;;
  expression ← ok_or (action_fail action "evolution names an unknown expression")
                 (st_expressions s !! eo_expression_id record);
  from_index ← ok_or (action_fail action "evolution source version is unknown")
                 (version_position (eo_from_version_id record) (es_versions expression));
  to_index ← ok_or (action_fail action "evolution target version is not accepted")
               (version_position (eo_to_version_id record) (es_versions expression));
  let adjacent_error := action_fail action
    "evolution must connect adjacent accepted versions and end at the current version" in
  fail_if (negb (to_index =? S from_index)%nat
           || (es_current_version expression != Some (eo_to_version_id record)))
    adjacent_error ;;
  (* [expression.versions[from_index]] and [[to_index]], in range by [position] *)
  from ← ok_or adjacent_error (es_versions expression !! from_index);
  to ← ok_or adjacent_error (es_versions expression !! to_index);
  fail_if ((vr_genome_digest from != eo_from_genome_digest record)
           || (vr_genome_digest to != eo_to_genome_digest record))
    (action_fail action "evolution genome facts do not match its versions") ;;
  let organ_graph_changed :=
    vr_capability_graph_digest from != vr_capability_graph_digest to in
  let organ_change_declared := proposes ScopeOrgan intent in
  fail_if (organ_graph_changed && negb organ_change_declared)
    (action_fail action
       "Organ graph transition was not declared by its evolutionary intent") ;;
  fail_if (negb organ_graph_changed && organ_change_declared)
    (action_fail action
       "Organ-scoped evolutionary intent cannot complete without an Organ graph transition") ;;
  evolution_genome_check s action record intent to ;;
  Ok (set_evolutions (st_evolutions s ++ [Build_ActionRecord commitment record]) s).

Definition apply_ownership (s : ShotState) (action : LineageAction)
    (commitment : Bytes32) (record : Ownership) : result ShotState :=
  fail_if (ow_effective_at record != la_timestamp action)
    (action_fail action "ownership timestamp must equal action timestamp") ;;
  fail_if (ow_previous_controller record != st_controller s)
    (action_fail action "ownership action names the wrong current controller") ;;
  Ok (set_controller (ow_new_controller record) (ow_new_controller_key record)
        (set_ownership_history
           (st_ownership_history s ++ [Build_ActionRecord commitment record]) s)).

(** The current association after one token action. *)
Definition token_step (current : option TokenAssociation) (action : LineageAction)
    (record : TokenAssociation) : result (option TokenAssociation) :=
  match ta_operation record with
  | Associate => Ok (Some record)
  | Remove =>
      match current with
      | None => Err (action_fail action "cannot remove a missing token association")
      | Some current =>
          fail_if ((ta_chain_id current != ta_chain_id record)
                   || (ta_token current != ta_token record))
            (action_fail action "token removal must exactly match the current association") ;;
          Ok None
      end
  end.

Definition apply_token (s : ShotState) (action : LineageAction)
    (commitment : Bytes32) (record : TokenAssociation) : result ShotState :=
  association ← token_step (st_token_association s) action record;
  Ok (set_token_history (st_token_history s ++ [Build_ActionRecord commitment record])
        (set_token_association association s)).

Definition apply_availability (s : ShotState) (record : ArtifactAvailabilityRecord)
    : result ShotState :=
  Ok (set_availability
        (<[ad_digest (aa_artifact (ar_availability record)) := record]> (st_availability s)) s).

Definition apply_parent (s : ShotState) (action : LineageAction)
    (commitment : Bytes32) (record : ParentRelation) : result ShotState :=
  fail_if (pr_child_shot_id record != st_shot_id s)
    (action_fail action "parent relation child is not this Shot") ;;
  fail_if (existsb (λ existing, pr_parent_shot_id (rec_record existing)
                                  == pr_parent_shot_id record) (st_parent_relations s))
    (action_fail action "parent relationship is already recorded") ;;
  Ok (set_parent_relations
        (st_parent_relations s ++ [Build_ActionRecord commitment record]) s).

(** The [match &action.payload] of [apply_one]. *)
Definition apply_payload (s : ShotState) (action : LineageAction) (commitment : Bytes32)
    : result ShotState :=
  match la_payload action with
  | PayloadCommitment _ =>
      Err (action_fail action "a Shot may contain only one commitment action")
  | PayloadIntention record => apply_intention s action record
  | PayloadGenomeProposal record => apply_genome_proposal s action commitment record
  | PayloadGenomeAcceptance record => apply_genome_acceptance s action commitment record
  | PayloadExpression record => apply_expression s action record
  | PayloadOrgan record => apply_organ s action record
  | PayloadVerificationResult record => apply_verification s action commitment record
  | PayloadVersion record => apply_version s action record
  | PayloadFeedback record => apply_feedback s action commitment record
  | PayloadEvolutionaryIntent record => apply_evolutionary_intent s action commitment record
  | PayloadEvolution record => apply_evolution s action commitment record
  | PayloadOwnership record => apply_ownership s action commitment record
  | PayloadTokenAssociation record => apply_token s action commitment record
  | PayloadArtifactAvailability record => apply_availability s record
  | PayloadParentRelation record => apply_parent s action commitment record
  end.

Definition apply_one (s : ShotState) (signed : SignedLineageAction) : result ShotState :=
  let action := sl_action signed in
  commitment ← action_commitment action;
  fail_if ((la_actor action != st_controller s)
           || (public_key (sl_signature signed) != st_controller_key s))
    (action_fail action "action is not signed by the current Shot controller key") ;;
  s' ← apply_payload s action commitment;
  Ok (set_position (la_sequence action) commitment (la_timestamp action) s').

(** ** Reduction *)

Definition state_anchor (s : ShotState) : LineageSegmentAnchor :=
  {| an_shot_id := st_shot_id s; an_sequence := st_sequence s; an_head := st_head s;
     an_timestamp := st_last_timestamp s |}.

(** The candidate of [apply_lineage_actions], before it replaces the state. *)
Definition candidate_state (s : ShotState) (actions : list SignedLineageAction)
    : result ShotState :=
  match actions with
  | [] => Ok s
  | _ =>
      verify_lineage_segment actions (Some (state_anchor s)) ;;
      try_fold apply_one s actions
  end.

(** [state: &mut ShotState]: the state afterwards, and the result. *)
Definition apply_lineage_actions (s : ShotState) (actions : list SignedLineageAction)
    : ShotState * result unit :=
  match candidate_state s actions with
  | Ok candidate => (candidate, Ok tt)
  | Err e => (s, Err e)
  end.

Definition initial_state (first : SignedLineageAction) (commitment : ShotCommitment)
    (head : Bytes32) : ShotState :=
  {| st_shot_id := la_shot_id (sl_action first); st_commitment := commitment;
     st_intention := None; st_controller := sc_initial_controller commitment;
     st_controller_key := sc_initial_controller_key commitment;
     st_accepted_genome := None; st_expressions := ∅; st_genome_proposals := ∅;
     st_genome_acceptances := ∅; st_verification_results := ∅; st_feedback := ∅;
     st_evolutionary_intents := ∅; st_evolutions := []; st_ownership_history := [];
     st_token_association := None; st_token_history := []; st_availability := ∅;
     st_parent_relations := []; st_sequence := 1; st_head := head;
     st_last_timestamp := la_timestamp (sl_action first) |}.

(** The root of [reduce_lineage]: what the first action must be, and the state
    it founds. *)
Definition found_shot (first : SignedLineageAction) : result ShotState :=
  let action := sl_action first in
  fail_if ((la_sequence action != 1%Z) || opt_is_some (la_previous action))
    (action_fail action "full lineage must begin at sequence 1 with no previous action") ;;
  commitment ← match la_payload action with
    | PayloadCommitment commitment => Ok commitment
    | _ => Err (action_fail action "the first action must be the Shot commitment")
    end;
  fail_if ((la_actor action != sc_initial_controller commitment)
           || (public_key (sl_signature first) != sc_initial_controller_key commitment)
           || (la_timestamp action != sc_committed_at commitment))
    (action_fail action "commitment actor, signer, controller, and timestamp must agree") ;;
  head ← action_commitment action;
  Ok (initial_state first commitment head).

Definition reduce_lineage (actions : list SignedLineageAction) : result ShotState :=
  verify_lineage_segment actions None ;;
  match actions with
  | [] => Err (action_error 0 "lineage is empty")
  | first :: rest =>
      state ← found_shot first;
      let '(state, applied) := apply_lineage_actions state rest in
      applied ;;
      Ok state
  end.

(** ** Version-1 projection *)

Record LegacyV1Entry := {
  le_record : ShotRecord;
  le_signature : SignatureSidecar;
  le_record_commitment : Bytes32;
  le_version_id : VersionId }.

Record AdaptedV1Lineage := {
  av_shot_id : ShotId;
  av_controller : BuilderId;
  av_expression_id : ExpressionId;
  av_intention_commitment : option Bytes32;
  av_intention_availability : AvailabilityStatus;
  av_genome_availability : AvailabilityStatus;
  av_entries : list LegacyV1Entry;
  av_head : Bytes32 }.

Definition adapt_entry (expression_id : ExpressionId) (e : entry) : result LegacyV1Entry :=
  let '(record, signature) := e in
  commitment ← record_commitment record;
  Ok {| le_record := record; le_signature := signature; le_record_commitment := commitment;
        le_version_id := for_legacy_v1_version (r_shot_id record) expression_id
                           (r_sequence record) commitment |}.

Fixpoint adapt_entries (expression_id : ExpressionId) (entries : list entry)
    : result (list LegacyV1Entry) :=
  match entries with
  | [] => Ok []
  | e :: rest =>
      projected ← adapt_entry expression_id e;
      others ← adapt_entries expression_id rest;
      Ok (projected :: others)
  end.

(** The one digest all records carry, if it is one. *)
Definition single_digest (digests : gset Bytes32) : option Bytes32 :=
  match elements digests with [digest] => Some digest | _ => None end.

Definition adapt_v1_lineage (entries : list entry) : result AdaptedV1Lineage :=
  verified ← verify_lineage entries;
  match entries with
  | [] => Err (Lineage 0 "lineage is empty")  (* rejected by [verify_lineage] *)
  | (first, _) :: _ =>
      let expression_id := for_legacy_v1_expression (r_shot_id first) (r_bundle_id first) in
      let intention_digests : gset Bytes32 :=
        list_to_set ((λ e, r_genesis_input_sha256 (fst e)) <$> entries) in
      projected ← adapt_entries expression_id entries;
      head ← ok_or (action_error 0 "verified v1 lineage has no head") (vl_head verified);
      Ok {| av_shot_id := vl_shot_id verified; av_controller := vl_builder_id verified;
            av_expression_id := expression_id;
            av_intention_commitment := single_digest intention_digests;
            av_intention_availability := Unknown; av_genome_availability := Unknown;
            av_entries := projected; av_head := ev_commitment head |}
  end.
End reduction.

Arguments apply_intention : simpl never.
Arguments apply_genome_proposal : simpl never.
Arguments apply_genome_acceptance : simpl never.
Arguments require_genome : simpl never.
Arguments apply_expression : simpl never.
Arguments apply_organ : simpl never.
Arguments require_organ_gates : simpl never.
Arguments apply_verification : simpl never.
Arguments apply_version : simpl never.
Arguments apply_feedback : simpl never.
Arguments apply_evolutionary_intent : simpl never.
Arguments apply_evolution : simpl never.
Arguments apply_ownership : simpl never.
Arguments apply_token : simpl never.
Arguments apply_availability : simpl never.
Arguments apply_parent : simpl never.
Arguments apply_payload : simpl never.
Arguments apply_one : simpl never.
Arguments found_shot : simpl never.
Arguments reduce_lineage : simpl never.
Arguments adapt_v1_lineage : simpl never.
