(* ===== verification/Authority.v ===== *)
(** * What a reduced lineage guarantees

    The reduction of [Reduction] as a step relation over histories,
    the equivalence of [reduce_lineage] and [apply_lineage_actions] with it, and
    the properties of every reachable state, by rule induction: authority,
    genome succession, organ graphs, versions, evolutions, tokens, parents. *)
From S2P Require Import Prelude Text Digest Keys Records Evolution Ontology Lineage Reduction.

Section authority.
Context `{Platform}.

(** ** The step relation *)

(** [reduces history s]: [s] is the state a signed [history] derives, one
    authorized action at a time. *)
Inductive reduces : list SignedLineageAction -> ShotState -> Prop :=
  | reduces_found first s :
      signed_verify first = Ok tt -> found_shot first = Ok s ->
      reduces [first] s
  | reduces_act history s prior signed s' :
      reduces history s -> last history = Some prior -> follows_action prior signed ->
      apply_one s signed = Ok s' ->
      reduces (history ++ [signed]) s'.

(** The state stands right after the action [signed]. *)
Definition stands_after (s : ShotState) (signed : SignedLineageAction) : Prop :=
  action_commitment (sl_action signed) = Ok (st_head s) /\
  state_anchor s = anchor_after signed (st_head s).

Lemma apply_one_Ok s signed s' : apply_one s signed = Ok s' <->
  exists c s1, action_commitment (sl_action signed) = Ok c /\
    la_actor (sl_action signed) = st_controller s /\
    public_key (sl_signature signed) = st_controller_key s /\
    apply_payload s (sl_action signed) c = Ok s1 /\
    s' = set_position (la_sequence (sl_action signed)) c (la_timestamp (sl_action signed)) s1.
Proof.
  unfold apply_one. split.
  - intros Ha. res_inv. naive_solver.
  - intros (c&s1&->&->&->&Hp&->). simpl. rewrite !bool_decide_eq_true_2 by done. simpl.
    by rewrite Hp.
Qed.

Lemma found_shot_Ok first s : found_shot first = Ok s <->
  exists commitment head,
    la_sequence (sl_action first) = 1%Z /\ la_previous (sl_action first) = None /\
    la_payload (sl_action first) = PayloadCommitment commitment /\
    la_actor (sl_action first) = sc_initial_controller commitment /\
    public_key (sl_signature first) = sc_initial_controller_key commitment /\
    la_timestamp (sl_action first) = sc_committed_at commitment /\
    action_commitment (sl_action first) = Ok head /\
    s = initial_state first commitment head.
Proof.
  unfold found_shot. split.
  - intros Hf. res_inv. destruct (la_payload (sl_action first)); try done.
    destruct (la_previous (sl_action first)); [done|]. res_inv. naive_solver.
  - intros (c&h&->&->&->&->&->&->&->&->). simpl.
    by rewrite !bool_decide_eq_true_2 by done.
Qed.

(** Inverts [apply_payload s action c = Ok s1] into one case per payload. *)
Ltac payload_inv Hp :=
  unfold apply_payload in Hp;
  match type of Hp with match ?p with _ => _ end = _ => destruct p as [?|?|?|?|?|?|?|?|?|?|?|?|?|?|?] eqn:Epayload end;
  [done|..];
  unfold apply_intention, apply_genome_proposal, apply_genome_acceptance, apply_expression,
    apply_organ, apply_verification, apply_version, apply_feedback,
    apply_evolutionary_intent, apply_evolution, apply_ownership, apply_token,
    apply_availability, apply_parent in Hp;
  res_inv.

Lemma apply_payload_frame s action c s1 : apply_payload s action c = Ok s1 ->
  st_shot_id s1 = st_shot_id s /\ st_commitment s1 = st_commitment s.
Proof. intros Hp. by payload_inv Hp. Qed.

Lemma found_stands_after first s : found_shot first = Ok s -> stands_after s first.
Proof.
  intros (c&h&Hs&_&_&_&_&_&Hh&->)%found_shot_Ok. split; [done|].
  unfold state_anchor, anchor_after, initial_state. simpl. by rewrite Hs.
Qed.

Lemma apply_stands_after s prior signed s' :
  stands_after s prior -> follows_action prior signed -> apply_one s signed = Ok s' ->
  stands_after s' signed.
Proof.
  intros [_ Ha] (h&Hh&Hf) (c&s1&Hc&_&_&Hp&->)%apply_one_Ok. split; [done|].
  unfold state_anchor, anchor_after in *. simpl.
  destruct (apply_payload_frame _ _ _ _ Hp) as [-> _].
  injection Ha as -> _ _. by rewrite (fo_shot _ _ _ _ _ Hf).
Qed.

Lemma reduces_stands_after history s : reduces history s ->
  exists signed, last history = Some signed /\ stands_after s signed.
Proof.
  induction 1 as [first s Hv Hf|history s prior signed s' Hr (x&Hx&IH) Hl Hfo Ha].
  - exists first. split; [done|]. by apply found_stands_after.
  - exists signed. rewrite last_snoc. split; [done|].
    assert (x = prior) as -> by congruence. by eapply apply_stands_after.
Qed.

Lemma reduces_adjacent history s : reduces history s -> adjacent history.
Proof.
  induction 1 as [first s Hv Hf|history s prior signed s' Hr IH Hl Hfo Ha].
  - intros [|k] ? ? ?; done.
  - apply adjacent_app. split_and!; [done| |].
    + intros [|k] ? ? ?; done.
    + intros a b Ha' [= <-]. congruence.
Qed.

Lemma last_snoc_inv {A} (l : list A) x : last l = Some x -> exists l', l = l' ++ [x].
Proof. destruct l using rev_ind; [done|]. rewrite last_snoc. intros [= ->]. eauto. Qed.

(** Folding [apply_one] over adjacent actions is a run of the step relation. *)
Lemma reduces_fold ys history s s' : reduces history s -> adjacent (history ++ ys) ->
  try_fold apply_one s ys = Ok s' -> reduces (history ++ ys) s'.
Proof.
  revert history s. induction ys as [|y ys IH]; intros history s Hr Hadj Hf.
  { injection Hf as <-. by rewrite app_nil_r. }
  simpl in Hf. apply bind_Ok in Hf as (s1&Hy&Hf).
  rewrite cons_middle, app_assoc in Hadj |- *.
  apply (IH _ s1); [|done|done].
  destruct (reduces_stands_after _ _ Hr) as (prior&Hl&_).
  apply adjacent_app in Hadj as ((_&_&Hadj)%adjacent_app&_&_).
  eapply reduces_act; try done. by apply Hadj.
Qed.

(** The relation is the run of [apply_one] from the founding action. *)
Lemma reduces_run xs s : reduces xs s <->
  exists first rest s0, xs = first :: rest /\ signed_verify first = Ok tt /\
    found_shot first = Ok s0 /\ adjacent xs /\ try_fold apply_one s0 rest = Ok s.
Proof.
  split.
  - intros Hr. pose proof (reduces_adjacent _ _ Hr) as Hadj. revert Hadj.
    induction Hr as [first s Hv Hf|history s prior signed s' Hr IH Hl Hfo Ha]; intros Hadj.
    + by exists first, [], s.
    + destruct IH as (f&rest&s0&->&Hv&Hf&_&Hs); [by eapply reduces_adjacent|].
      exists f, (rest ++ [signed]), s0. rewrite try_fold_app, Hs. simpl. by rewrite Ha.
  - intros (f&rest&s0&->&Hv&Hf&Hadj&Hs). apply (reduces_fold rest [f] s0); try done.
    by apply reduces_found.
Qed.

Lemma found_complete first s : found_shot first = Ok s ->
  complete_from_commitment (sl_action first) None = true.
Proof.
  intros (c&h&Hs&Hp&Hc&_)%found_shot_Ok. unfold complete_from_commitment.
  by rewrite Hs, Hp, Hc.
Qed.

(** Every action of a verified history has a commitment. *)
Lemma last_committed y ys : signed_verify y = Ok tt -> adjacent (y :: ys) ->
  exists l c, last (y :: ys) = Some l /\ action_commitment (sl_action l) = Ok c.
Proof.
  intros Hv Hadj. exists (List.last ys y).
  assert (signed_verify (List.last ys y) = Ok tt) as Hl.
  { revert y Hv Hadj. induction ys as [|z ys IH]; intros y Hv Hadj; [done|].
    apply adjacent_cons in Hadj as [Hz Hadj]. destruct (Hz z eq_refl) as (?&_&[]).
    rewrite list_last_cons. by apply IH. }
  destruct (signed_verify_commitment _ Hl) as (Hc&_). eexists.
  by rewrite last_cons_default.
Qed.

(** A segment that continues a state verifies exactly when it is adjacent. *)
Lemma continuing_segment s prior ys : stands_after s prior -> ys <> [] ->
  (exists v, verify_lineage_segment ys (Some (state_anchor s)) = Ok v) <->
  adjacent (prior :: ys).
Proof.
  intros [Hc ->] Hne. destruct ys as [|y ys]; [done|]. rewrite adjacent_cons. split.
  - intros [v Hv]. apply verify_lineage_segment_spec_fact in Hv as [(f&Hf&Ha&_) Hadj _].
    injection Hf as <-. split; [|done]. intros b [= <-]. by exists (st_head s).
  - intros [Hb Hadj]. destruct (Hb y eq_refl) as (h&Hh&Hf).
    assert (h = st_head s) as -> by congruence.
    destruct (last_committed y ys (fo_verified _ _ _ _ _ Hf) Hadj) as (l&c&Hl&Hlc).
    exists {| seg_shot_id := la_shot_id (sl_action y);
      seg_first_sequence := la_sequence (sl_action y);
      seg_last_sequence := la_sequence (sl_action l); seg_head := c;
      seg_complete_from_commitment := false; seg_authority_context_available := true |}.
    apply verify_lineage_segment_spec_fact.
    constructor; simpl; [exists y; by split_and!|done|by exists l].
Qed.

Lemma candidate_state_reduces history s ys s' : reduces history s ->
  candidate_state s ys = Ok s' <-> reduces (history ++ ys) s'.
Proof.
  intros Hr. destruct (reduces_stands_after _ _ Hr) as (prior&Hl&Hst).
  pose proof (reduces_adjacent _ _ Hr) as Hadj0.
  apply reduces_run in Hr as Hrun. destruct Hrun as (f&rest&s0&->&Hv&Hf&_&Hs).
  assert (candidate_state s ys = Ok s' <->
    adjacent ((f :: rest) ++ ys) /\ try_fold apply_one s ys = Ok s') as ->.
  { unfold candidate_state. destruct ys as [|y ys].
    { rewrite app_nil_r. simpl. naive_solver. }
    rewrite bind_Ok, adjacent_app.
    pose proof (continuing_segment s prior (y :: ys) Hst ltac:(done)) as Hc.
    rewrite adjacent_cons in Hc. split.
    - intros (v&Hv'&Hf'). split; [|done]. destruct Hc as [[Hb Ha] _]; [by eauto|].
      split_and!; [done..|]. intros a b Hla. assert (a = prior) as -> by congruence. apply Hb.
    - intros [(_&Hy&Hb) Hf']. destruct (proj2 Hc) as [v Hv']; [|by eauto].
      split; [|done]. intros b. by apply Hb. }
  rewrite reduces_run. split.
  - intros [Hadj Ha]. exists f, (rest ++ ys), s0. rewrite try_fold_app, Hs. by split_and!.
  - intros (f'&rest'&s0'&[= <- <-]&_&Hf'&Hadj&Hs'). split; [done|].
    rewrite try_fold_app in Hs'. rewrite Hf in Hf'. injection Hf' as <-.
    by rewrite Hs in Hs'.
Qed.

Lemma reduce_lineage_reduces_fact (actions : list SignedLineageAction) (s : ShotState) :
  reduce_lineage actions = Ok s <-> reduces actions s.
Proof.
  destruct actions as [|first rest].
  { split; [done|]. intros Hr%reduces_run. naive_solver. }
  assert (reduce_lineage (first :: rest) = Ok s <->
    (exists v, verify_lineage_segment (first :: rest) None = Ok v) /\
    exists s0, found_shot first = Ok s0 /\ candidate_state s0 rest = Ok s) as ->.
  { unfold reduce_lineage, apply_lineage_actions. split.
    - intros Hr. apply bind_Ok in Hr as (v&Hv&Hr). apply bind_Ok in Hr as (s0&Hs0&Hr).
      split; [by eauto|]. exists s0. split; [done|].
      destruct (candidate_state s0 rest); simpl in Hr; congruence.
    - intros [[v ->] (s0&->&Hc)]. simpl. by rewrite Hc. }
  split.
  - intros [[v Hv] (s0&Hs0&Hc)]. apply verify_lineage_segment_spec_fact in Hv as [(f&[= <-]&Hv&_) _ _].
    by apply (candidate_state_reduces [first] s0) in Hc; [|by apply reduces_found].
  - intros Hr. pose proof (reduces_adjacent _ _ Hr) as Hadj.
    apply reduces_run in Hr as Hrun. destruct Hrun as (f&l&s0&[= <- <-]&Hv&Hf&_&_). split.
    + destruct (last_committed _ _ Hv Hadj) as (l&c&Hl&Hc).
      exists {| seg_shot_id := la_shot_id (sl_action first);
        seg_first_sequence := la_sequence (sl_action first);
        seg_last_sequence := la_sequence (sl_action l); seg_head := c;
        seg_complete_from_commitment := complete_from_commitment (sl_action first) None;
        seg_authority_context_available := complete_from_commitment (sl_action first) None |}.
      apply verify_lineage_segment_spec_fact.
      constructor; simpl; [exists first; by split_and!|done|by exists l].
    + exists s0. split; [done|]. apply (candidate_state_reduces [first] s0); [by apply reduces_found|done].
Qed.

(** [C1] [reduce_lineage] implements the step relation exactly: the two passes
    of the code (verify the whole segment, then apply every action) accept a
    history and derive a state precisely when the history runs from its
    founding commitment, each action verified, adjacent to the one before and
    authorized in the state it meets. *)
Theorem reduce_lineage_reduces (actions : list SignedLineageAction) (s : ShotState) :
  reduce_lineage actions = Ok s <-> reduces actions s.
Proof. by eapply reduce_lineage_reduces_fact. Qed.

(** Every nonempty prefix of a reduced lineage reduces. *)
Lemma reduce_prefix xs ys s' : xs <> [] -> reduce_lineage (xs ++ ys) = Ok s' ->
  exists s, reduce_lineage xs = Ok s /\ try_fold apply_one s ys = Ok s'.
Proof.
  intros Hne (f&l&s0&E&Hv&Hf&Hadj&Hs)%reduce_lineage_reduces_fact%reduces_run.
  destruct xs as [|x xs]; [done|]. injection E as <- <-.
  rewrite try_fold_app in Hs. apply bind_Ok in Hs as (s&Hs&Hys). exists s. split; [|done].
  apply reduce_lineage_reduces_fact, reduces_run. exists x, xs, s0. split_and!; try done.
  by apply (adjacent_app (x :: xs)) in Hadj as [].
Qed.

(** A reduced lineage is a verified complete segment. *)
Lemma reduce_segment xs s : reduce_lineage xs = Ok s ->
  exists v, verify_lineage_segment xs None = Ok v /\ seg_complete_from_commitment v = true.
Proof.
  unfold reduce_lineage. intros Hr. apply bind_Ok in Hr as (v&Hv&Hr). exists v. split; [done|].
  destruct xs as [|first rest]; [done|]. apply bind_Ok in Hr as (s0&Hs0&_).
  apply verify_lineage_segment_spec_fact in Hv as [(f&[= <-]&_&_&_&->&_) _ _].
  by eapply found_complete.
Qed.

(** [C17] Continuing a reduction is the same as reducing from scratch: from the
    state of a history, [apply_lineage_actions] succeeds on a further segment
    exactly when reducing the whole history succeeds, with the same final
    state; and when it fails it leaves the state as it was. *)
Theorem apply_lineage_actions_continues history s ys s' r
    (Hr : reduce_lineage history = Ok s) (Ha : apply_lineage_actions s ys = (s', r)) :
  match r with
  | Ok _ => reduce_lineage (history ++ ys) = Ok s'
  | Err _ => s' = s /\ forall s'', reduce_lineage (history ++ ys) <> Ok s''
  end.
Proof.
  apply reduce_lineage_reduces_fact in Hr. unfold apply_lineage_actions in Ha.
  destruct (candidate_state s ys) as [c|e] eqn:E; injection Ha as <- <-.
  - apply reduce_lineage_reduces_fact. by apply (candidate_state_reduces _ s).
  - split; [done|]. intros s'' Hs''. apply reduce_lineage_reduces_fact in Hs''.
    apply (candidate_state_reduces _ s) in Hs''; [|done]. congruence.
Qed.

(** ** Rule induction *)

(** What [apply_one] establishes about a reachable state it steps from. *)
Record steps (s : ShotState) (signed : SignedLineageAction) (c : Bytes32) (s1 : ShotState)
    : Prop := {
  sp_valid : action_validate (sl_action signed) = Ok tt;
  sp_commitment : action_commitment (sl_action signed) = Ok c;
  sp_actor : la_actor (sl_action signed) = st_controller s;
  sp_key : public_key (sl_signature signed) = st_controller_key s;
  sp_shot : la_shot_id (sl_action signed) = st_shot_id s;
  sp_sequence : la_sequence (sl_action signed) = (st_sequence s + 1)%Z;
  sp_payload : apply_payload s (sl_action signed) c = Ok s1 }.

Definition positioned (signed : SignedLineageAction) (c : Bytes32) (s1 : ShotState)
    : ShotState :=
  set_position (la_sequence (sl_action signed)) c (la_timestamp (sl_action signed)) s1.

Lemma reduces_steps (P : list SignedLineageAction -> ShotState -> Prop) :
  (forall first commitment head,
     la_payload (sl_action first) = PayloadCommitment commitment ->
     la_sequence (sl_action first) = 1%Z ->
     la_actor (sl_action first) = sc_initial_controller commitment ->
     public_key (sl_signature first) = sc_initial_controller_key commitment ->
     action_commitment (sl_action first) = Ok head ->
     P [first] (initial_state first commitment head)) ->
  (forall history s signed c s1, reduces history s -> P history s -> steps s signed c s1 ->
     P (history ++ [signed]) (positioned signed c s1)) ->
  forall history s, reduces history s -> P history s.
Proof.
  intros Hfound Hstep.
  induction 1 as [first s Hv Hf|history s prior signed s' Hr IH Hl Hfo Ha].
  - apply found_shot_Ok in Hf as (c&h&?&?&?&?&?&?&?&->). by apply Hfound.
  - apply apply_one_Ok in Ha as (c&s1&Hc&Hactor&Hkey&Hp&->).
    apply (Hstep _ s); [done..|].
    destruct (reduces_stands_after _ _ Hr) as (p&Hl'&_&Hst).
    assert (p = prior) as -> by congruence.
    unfold state_anchor, anchor_after in Hst. injection Hst as Hs Hq _.
    destruct Hfo as (h&_&[]). constructor; try done; [|congruence|congruence].
    unfold action_commitment in Hc. by res_inv.
Qed.

(** Invariants of the state alone. *)
Lemma reduces_state_inv (P : ShotState -> Prop) :
  (forall first commitment head, P (initial_state first commitment head)) ->
  (forall history s signed c s1, reduces history s -> P s -> steps s signed c s1 ->
     P (positioned signed c s1)) ->
  forall history s, reduces history s -> P s.
Proof. intros ? ?. apply (reduces_steps (λ _ s, P s)); eauto. Qed.

(** ** Who may act *)

Definition controller_step (current : option (BuilderId * P256PublicKey))
    (signed : SignedLineageAction) : option (BuilderId * P256PublicKey) :=
  match la_payload (sl_action signed) with
  | PayloadCommitment c => Some (sc_initial_controller c, sc_initial_controller_key c)
  | PayloadOwnership o => Some (ow_new_controller o, ow_new_controller_key o)
  | _ => current
  end.

(** The controller a history leaves in charge: the one the commitment names,
    then the one each ownership action hands over to. *)
Definition controller_after (history : list SignedLineageAction)
    : option (BuilderId * P256PublicKey) :=
  foldl controller_step None history.

(** [signed] is an action of the controller [ctl]. *)
Definition acts_as (ctl : option (BuilderId * P256PublicKey)) (signed : SignedLineageAction)
    : Prop :=
  ctl = Some (la_actor (sl_action signed), public_key (sl_signature signed)) /\
  forall o, la_payload (sl_action signed) = PayloadOwnership o ->
    ow_previous_controller o = la_actor (sl_action signed).

(** [C2] Authority: in a reduced lineage every action after the founding one is
    by the controller that the preceding history leaves in charge, under that
    controller's key, and every handover names the controller it replaces; the
    founding action is by the controller it installs; and the state's
    controller is the one the whole history leaves in charge. *)
Theorem only_the_controller_acts (history : list SignedLineageAction) (s : ShotState)
    (Hr : reduce_lineage history = Ok s) :
  controller_after history = Some (st_controller s, st_controller_key s) /\
  forall k signed, history !! k = Some signed ->
    acts_as (controller_after (take (Nat.max 1 k) history)) signed.
Proof.
  apply reduce_lineage_reduces_fact in Hr. revert history s Hr.
  apply (reduces_steps (λ history s,
    controller_after history = Some (st_controller s, st_controller_key s) /\
    forall k signed, history !! k = Some signed ->
      acts_as (controller_after (take (Nat.max 1 k) history)) signed)).
  - intros f c h Hc _ Ha Hk _. unfold controller_after, controller_step. simpl. rewrite Hc.
    split; [done|]. intros [|k] signed; [|done]. intros [= <-]. simpl. unfold acts_as.
    rewrite Ha, Hk, Hc. by split.
  - intros l s signed c s1 Hr [IH1 IH2] [_ _ Hactor Hkey _ _ Hp]. split.
    + unfold controller_after in *. rewrite foldl_app, IH1. simpl. unfold controller_step.
      unfold positioned. simpl. clear Hactor Hkey IH1 IH2. by payload_inv Hp.
    + assert (0 < length l) by (apply reduces_run in Hr as (?&?&?&->&_); simpl; lia).
      intros k x Hx. apply lookup_app_Some in Hx as [Hx|[Hge Hx]].
      * pose proof (lookup_lt_Some _ _ _ Hx). rewrite take_app_le by lia. by apply IH2.
      * apply list_lookup_singleton_Some in Hx as [Hk <-].
        replace (Nat.max 1 k) with (length l) by lia.
        rewrite take_app_length, IH1. unfold acts_as. rewrite Hactor, Hkey. split; [done|].
        intros o Ho. unfold apply_payload, apply_ownership in Hp. rewrite Ho in Hp. by res_inv.
Qed.

(** ** History is append-only *)

Record expression_extends (e e' : ExpressionState) : Prop := {
  ee_expression : es_expression e' = es_expression e;
  ee_organs : es_organs e ⊆ es_organs e';
  ee_versions : es_versions e `prefix_of` es_versions e' }.

(** [s'] only adds to what [s] established. *)
Record extends (s s' : ShotState) : Prop := {
  ex_shot : st_shot_id s' = st_shot_id s;
  ex_commitment : st_commitment s' = st_commitment s;
  ex_intention : forall i, st_intention s = Some i -> st_intention s' = Some i;
  ex_genome : opt_is_some (st_accepted_genome s) = true ->
    opt_is_some (st_accepted_genome s') = true;
  ex_expressions : forall id e, st_expressions s !! id = Some e ->
    exists e', st_expressions s' !! id = Some e' /\ expression_extends e e';
  ex_evolutions : st_evolutions s `prefix_of` st_evolutions s';
  ex_ownership : st_ownership_history s `prefix_of` st_ownership_history s';
  ex_tokens : st_token_history s `prefix_of` st_token_history s';
  ex_parents : st_parent_relations s `prefix_of` st_parent_relations s' }.

#[export] Instance expression_extends_preorder : PreOrder expression_extends.
Proof.
  split; [by constructor|]. intros a b c [] []. constructor; [congruence| |]; by etrans.
Qed.

#[export] Instance extends_preorder : PreOrder extends.
Proof.
  split.
  - intros s. constructor; try done. intros id e He. by exists e.
  - intros a b c [? ? ? ? Hab ? ? ? ?] [? ? ? ? Hbc ? ? ? ?].
    constructor; try congruence; eauto; try by etrans.
    intros id e He. destruct (Hab _ _ He) as (e'&He'&?), (Hbc _ _ He') as (e''&?&?).
    exists e''. split; [done|]. by etrans.
Qed.

(** Replacing one expression by an extension of it. *)
Lemma expressions_insert_extends (m : gmap ExpressionId ExpressionState) id e0 e1 :
  m !! id = Some e0 -> expression_extends e0 e1 ->
  forall id' e, m !! id' = Some e ->
    exists e', <[id := e1]> m !! id' = Some e' /\ expression_extends e e'.
Proof.
  intros Hm He id' e Hid. destruct (decide (id = id')) as [<-|].
  - rewrite lookup_insert_eq. exists e1. split; [done|]. congruence.
  - rewrite lookup_insert_ne by done. by exists e.
Qed.

Lemma apply_payload_extends s action c s1 : apply_payload s action c = Ok s1 -> extends s s1.
Proof.
  intros Hp. payload_inv Hp; constructor; simpl; try done; eauto using prefix_app_r;
    try by (intros; match goal with |- exists e', ?m !! _ = Some e' /\ _ => eexists; by split end).
  - intros i Hi. by rewrite Hi in *.
  - intros id e He. destruct (decide (ex_expression_id record = id)) as [<-|].
    + by rewrite He in *.
    + rewrite lookup_insert_ne by done. by exists e.
  - eapply expressions_insert_extends; [done|]. constructor; simpl; [done| |done].
    apply insert_subseteq. by destruct (es_organs _ !! _).
  - eapply expressions_insert_extends; [done|]. constructor; simpl; [done|done|].
    by apply prefix_app_r.
Qed.

Lemma positioned_extends s signed c s1 : extends s s1 -> extends s (positioned signed c s1).
Proof. by intros []. Qed.

Lemma try_fold_extends s ys s' : try_fold apply_one s ys = Ok s' -> extends s s'.
Proof.
  apply (try_fold_inv (extends s)); [done|].
  intros s1 x s2 _ He (c&s3&_&_&_&Hp%apply_payload_extends&->)%apply_one_Ok.
  etrans; [done|]. by apply (positioned_extends s1 x c).
Qed.

Lemma reduces_sequence history s : reduces history s ->
  st_sequence s = Z.of_nat (length history).
Proof.
  revert history s. apply (reduces_steps (λ l s, st_sequence s = Z.of_nat (length l))).
  - done.
  - intros l s signed c s1 _ IH [_ _ _ _ _ Hq _]. rewrite length_app. simpl. lia.
Qed.

(** History is append-only: extending a reduced lineage keeps the Shot
    identity, the commitment, a captured intention, every expression with its
    organs and its versions in order, and every recorded evolution, handover,
    token action and parent relation; and the sequence counts the actions. *)
Theorem reduction_append_only (xs ys : list SignedLineageAction) (s s' : ShotState)
    (Hx : reduce_lineage xs = Ok s) (Hxy : reduce_lineage (xs ++ ys) = Ok s') :
  extends s s' /\ st_sequence s = Z.of_nat (length xs) /\
  st_sequence s' = Z.of_nat (length xs + length ys).
Proof.
  apply reduce_lineage_reduces_fact in Hx, Hxy. split_and!.
  - apply reduces_run in Hx as (f&l&s0&->&_&Hf&_&Hs), Hxy as (f'&l'&s0'&E&_&Hf'&_&Hs').
    injection E as <- <-. rewrite Hf in Hf'. injection Hf' as <-.
    rewrite try_fold_app, Hs in Hs'. by apply try_fold_extends in Hs'.
  - by apply reduces_sequence.
  - rewrite <- length_app. by apply reduces_sequence.
Qed.

(** ** Genome succession *)

Definition accepted_revision (s : ShotState) : Z :=
  match st_accepted_genome s with Some g => gn_revision (ag_genome g) | None => 0 end.

Definition is_acceptance (signed : SignedLineageAction) : bool :=
  match la_payload (sl_action signed) with PayloadGenomeAcceptance _ => true | _ => false end.

(** A recorded proposal against the genome it was based on: once the accepted
    genome has the base's revision, it is the base. *)
Definition proposal_based (accepted : option AcceptedGenome) (p : GenomeProposal) : Prop :=
  genome_validate (gp_proposed p) = Ok tt /\
  match gp_base_revision p, gp_base_genome_digest p with
  | None, None => gn_revision (gp_proposed p) = 1%Z
  | Some base, Some digest =>
      gn_revision (gp_proposed p) = (base + 1)%Z /\
      exists current, accepted = Some current /\
        (base <= gn_revision (ag_genome current))%Z /\
        (base = gn_revision (ag_genome current) -> genome_digest (ag_genome current) = Ok digest)
  | _, _ => False
  end.

Record genomes_ok (history : list SignedLineageAction) (s : ShotState) : Prop := {
  gk_count : accepted_revision s = Z.of_nat (length (List.filter is_acceptance history));
  gk_valid : forall g, st_accepted_genome s = Some g -> genome_validate (ag_genome g) = Ok tt;
  gk_based : forall h p, st_genome_proposals s !! h = Some p ->
    proposal_based (st_accepted_genome s) p }.

Lemma genome_validate_revision g : genome_validate g = Ok tt ->
  gn_revision g <> 0%Z /\ (gn_revision g <= MAX_SAFE_JSON_INTEGER)%Z.
Proof. unfold genome_validate, validate_safe_positive. intros Hg. res_inv. done. Qed.

Lemma saturating_add_safe r : (r <= MAX_SAFE_JSON_INTEGER)%Z ->
  saturating_add_u64 r 1 = (r + 1)%Z.
Proof. unfold saturating_add_u64, U64_MAX, MAX_SAFE_JSON_INTEGER. lia. Qed.

Lemma proposal_based_later old new p :
  (forall g, old = Some g ->
     (gn_revision (ag_genome g) < gn_revision (ag_genome new))%Z) ->
  proposal_based old p -> proposal_based (Some new) p.
Proof.
  intros Hlt [Hv Hb]. split; [done|].
  destruct (gp_base_revision p), (gp_base_genome_digest p); try done.
  destruct Hb as (?&cur&->&Hle&_). split; [done|]. exists new.
  specialize (Hlt cur eq_refl). split_and!; [done|lia|lia].
Qed.

(** The base check of [GenomeProposal::validate] and of the state. *)
Lemma apply_genome_proposal_based s action c p s1 :
  (forall g, st_accepted_genome s = Some g -> genome_validate (ag_genome g) = Ok tt) ->
  proposal_validate p = Ok tt -> apply_genome_proposal s action c p = Ok s1 ->
  proposal_based (st_accepted_genome s) p /\
  s1 = set_genome_proposals (<[c := p]> (st_genome_proposals s)) s.
Proof.
  intros Hg Hv Hp. unfold proposal_validate in Hv. res_inv.
  unfold apply_genome_proposal in Hp. apply bind_Ok in Hp as ([]&Hm&[= <-]). split; [|done].
  split; [done|].
  destruct (gp_base_revision p) as [base|], (gp_base_genome_digest p) as [digest|],
    (st_accepted_genome s) as [g|]; try done; res_inv; try done.
  - case_match; [|done]. case_match; [|done]. res_inv. subst.
    destruct (genome_validate_revision _ (Hg g eq_refl)) as [_ Hb].
    rewrite saturating_add_safe in * by done.
    split; [done|]. exists g. split_and!; [done|lia|congruence].
Qed.

Lemma apply_genome_acceptance_Ok s action c a s1 :
  apply_genome_acceptance s action c a = Ok s1 ->
  exists p, st_genome_proposals s !! ga_proposal_action a = Some p /\
    ga_accepted_at a = la_timestamp action /\
    gn_revision (gp_proposed p) = ga_revision a /\
    genome_digest (gp_proposed p) = Ok (ga_genome_digest a) /\
    ga_revision a = match st_accepted_genome s with
      | Some g => saturating_add_u64 (gn_revision (ag_genome g)) 1 | None => 1%Z end /\
    s1 = set_genome_acceptances (<[c := a]> (st_genome_acceptances s))
      (set_accepted_genome (Some {| ag_genome := gp_proposed p;
        ag_proposal_action := ga_proposal_action a; ag_acceptance_action := c |}) s).
Proof.
  unfold apply_genome_acceptance. intros Ha. res_inv.
  eexists. split_and!; try done; congruence.
Qed.

Lemma action_validate_payload a : action_validate a = Ok tt ->
  payload_validate (la_payload a) (la_shot_id a) = Ok tt.
Proof. unfold action_validate. intros Hv. by res_inv. Qed.

Lemma reduces_genomes_ok history s : reduces history s -> genomes_ok history s.
Proof.
  revert history s. apply reduces_steps.
  { intros f c h Hc _ _ _ _. constructor; simpl; try done.
    unfold is_acceptance. by rewrite Hc. }
  intros l s signed c s1 _ [Hn Hv Hb] [Hval%action_validate_payload _ _ _ _ _ Hp].
  assert (is_acceptance signed = false -> st_accepted_genome s1 = st_accepted_genome s ->
    (forall h p, st_genome_proposals s1 !! h = Some p ->
       proposal_based (st_accepted_genome s) p) ->
    genomes_ok (l ++ [signed]) (positioned signed c s1)) as Hframe.
  { intros Ha Hg Hps. constructor; unfold accepted_revision in *; simpl; rewrite ?Hg; [|done..].
    rewrite List.filter_app. simpl. by rewrite Ha, app_nil_r. }
  unfold is_acceptance in Hframe. unfold apply_payload in Hp.
  destruct (la_payload (sl_action signed)) eqn:E; try done.
  2: { apply apply_genome_proposal_based in Hp as [Hbased ->]; [|done..].
    apply Hframe; [done..|]. simpl. intros h p [[_ <-]|[_ Hh]]%lookup_insert_Some; eauto. }
  2: { apply apply_genome_acceptance_Ok in Hp as (p&Hprop&_&Hrev&Hd&Hexp&->).
    clear Hframe. destruct (Hb _ _ Hprop) as [Hpv _].
    assert (gn_revision (gp_proposed p) = accepted_revision s + 1)%Z as Hr.
    { rewrite Hrev, Hexp. unfold accepted_revision. destruct (st_accepted_genome s) as [g|]; [|done].
      apply saturating_add_safe, genome_validate_revision. by apply Hv. }
    constructor; simpl; [|by intros g [= <-]|].
    - unfold accepted_revision at 1. simpl. rewrite List.filter_app, length_app. simpl.
      unfold is_acceptance at 2. rewrite E. simpl. lia.
    - intros h q Hq. apply (proposal_based_later (st_accepted_genome s)); [|by eapply Hb].
      intros g Hg. simpl. unfold accepted_revision in Hr. rewrite Hg in Hr. lia. }
  all: apply Hframe; [done|..]; clear Hframe;
    unfold apply_intention, apply_expression, apply_organ, apply_verification, apply_version,
      apply_feedback, apply_evolutionary_intent, apply_evolution, apply_ownership, apply_token,
      apply_availability, apply_parent in Hp; res_inv; try done; exact Hb.
Qed.

(** [C16] Genome succession is compare-and-swap: in a reachable state a genome
    acceptance is applied only to a recorded proposal whose base is exactly the
    genome in force (none, for revision 1), however many other proposals were
    made or accepted in between; the accepted genome becomes that proposal's,
    at the next revision, which counts the acceptances of the history. *)
Theorem genome_acceptance_swaps_base history s signed s' a
    (Hr : reduce_lineage history = Ok s)
    (Hs : reduce_lineage (history ++ [signed]) = Ok s')
    (Hp : la_payload (sl_action signed) = PayloadGenomeAcceptance a) :
  exists p, st_genome_proposals s !! ga_proposal_action a = Some p /\
    ag_genome <$> st_accepted_genome s' = Some (gp_proposed p) /\
    gn_revision (gp_proposed p)
      = Z.of_nat (length (List.filter is_acceptance (history ++ [signed]))) /\
    match st_accepted_genome s with
    | Some base => gp_base_revision p = Some (gn_revision (ag_genome base)) /\
        exists digest, gp_base_genome_digest p = Some digest /\
          genome_digest (ag_genome base) = Ok digest
    | None => gp_base_revision p = None /\ gp_base_genome_digest p = None
    end.
Proof.
  apply reduce_lineage_reduces_fact in Hr, Hs.
  destruct (reduces_genomes_ok _ _ Hs) as [Hn' _ _].
  pose proof (reduces_genomes_ok _ _ Hr) as [Hn Hv Hb].
  apply (candidate_state_reduces _ s) in Hs; [|done]. simpl in Hs.
  apply bind_Ok in Hs as (_&_&Hs). apply bind_Ok in Hs as (s2&Hs&[= <-]).
  apply apply_one_Ok in Hs as (c&s1&_&_&_&Hs&->).
  unfold apply_payload in Hs. rewrite Hp in Hs.
  apply apply_genome_acceptance_Ok in Hs as (p&Hprop&_&Hrev&_&Hexp&->).
  exists p. split_and!; [done|done|exact Hn'|].
  destruct (Hb _ _ Hprop) as [_ Hbase].
  destruct (st_accepted_genome s) as [g|] eqn:Hg.
  - destruct (genome_validate_revision _ (Hv g eq_refl)) as [Hnz Hle].
    rewrite saturating_add_safe in Hexp by done.
    unfold accepted_revision in Hn. rewrite Hg in Hn.
    destruct (gp_base_revision p), (gp_base_genome_digest p) as [d|]; try done; [|lia].
    destruct Hbase as (Hr'&cur&[= <-]&_&Hd). assert (z = gn_revision (ag_genome g)) as -> by lia.
    split; [done|]. exists d. by split; [|apply Hd].
  - destruct (gp_base_revision p), (gp_base_genome_digest p); try done.
    by destruct Hbase as (_&?&?&_).
Qed.

(** ** Organ graphs *)

Definition depends_on (organs : gmap string Organ) (id dependency : string) : Prop :=
  exists o, organs !! id = Some o /\ dependency ∈ og_dependencies o.

(** Organs are stored under their own ID for their own expression, and every
    dependency is declared and of a smaller rank. *)
Record organs_ok (eid : ExpressionId) (organs : gmap string Organ) : Prop := {
  oo_organ : forall id o, organs !! id = Some o ->
    og_organ_id o = id /\ og_expression_id o = eid /\ organ_validate o = Ok tt;
  oo_rank : exists rank : string -> nat,
    (forall id, is_Some (organs !! id) -> rank id < size organs) /\
    forall id d, depends_on organs id d -> is_Some (organs !! d) /\ rank d < rank id }.

Lemma organs_ok_insert eid organs o :
  organs_ok eid organs -> organs !! og_organ_id o = None ->
  og_expression_id o = eid -> organ_validate o = Ok tt ->
  Forall (λ d, d <> og_organ_id o /\ is_Some (organs !! d)) (og_dependencies o) ->
  organs_ok eid (<[og_organ_id o := o]> organs).
Proof.
  intros [Ho (rank&Hb&Hr)] Hnew He Hv Hdeps. rewrite Forall_forall in Hdeps. split.
  { intros id o' [[<- <-]|[_ Hid]]%lookup_insert_Some; [done|by apply Ho]. }
  exists (λ id, if decide (id = og_organ_id o) then size organs else rank id).
  rewrite map_size_insert_None by done. split.
  - intros id Hid. case_decide; [lia|].
    rewrite lookup_insert_ne in Hid by done. apply Hb in Hid. lia.
  - intros id d (o'&Hid&Hd). apply lookup_insert_Some in Hid as [[<- <-]|[Hne Hid]].
    + destruct (Hdeps d Hd) as [Hdo Hds]. rewrite lookup_insert_ne by done.
      split; [done|]. rewrite decide_False, decide_True by done. by apply Hb.
    + destruct (Hr id d) as [Hds Hlt]; [by exists o'|].
      assert (d <> og_organ_id o) by (intros ->; by rewrite Hnew in Hds; destruct Hds).
      rewrite lookup_insert_ne by done. by rewrite !decide_False by done.
Qed.

Definition all_organs_ok (s : ShotState) : Prop :=
  forall eid e, st_expressions s !! eid = Some e -> organs_ok eid (es_organs e).

Lemma apply_organ_Ok s action o s1 : apply_organ s action o = Ok s1 ->
  exists e, st_expressions s !! og_expression_id o = Some e /\
    es_organs e !! og_organ_id o = None /\
    Forall (λ d, d <> og_organ_id o /\ is_Some (es_organs e !! d)) (og_dependencies o) /\
    s1 = set_expressions (<[og_expression_id o :=
        {| es_expression := es_expression e;
           es_organs := <[og_organ_id o := o]> (es_organs e);
           es_versions := es_versions e;
           es_current_version := es_current_version e |}]> (st_expressions s)) s.
Proof.
  unfold apply_organ. intros Ho. res_inv. eexists. split_and!; try done.
  - by destruct (es_organs _ !! _).
  - match goal with H : for_each _ _ = _ |- _ => apply for_each_Ok in H; rename H into Hd end.
    eapply Forall_impl; [exact Hd|]. simpl. intros d Hx. res_inv.
    split; [done|]. destruct (es_organs _ !! d); [by eexists|done].
Qed.

Lemma organs_empty eid : organs_ok eid ∅.
Proof.
  split; [by intros ? ? ?%lookup_empty_Some|]. exists (λ _, 0). split.
  - intros id [? ?%lookup_empty_Some]. done.
  - intros id d (o&?%lookup_empty_Some&_). done.
Qed.

Lemma reduces_organs_ok history s : reduces history s -> all_organs_ok s.
Proof.
  revert history s. apply reduces_state_inv.
  { intros f c h eid e. unfold initial_state. simpl. intros ?%lookup_empty_Some. done. }
  intros l s signed c s1 _ IH [Hval%action_validate_payload _ _ _ _ _ Hp] eid e.
  unfold positioned. simpl. unfold apply_payload in Hp.
  destruct (la_payload (sl_action signed)) as [| | | |r|o| |r| | | | | | |] eqn:E; try done.
  5: { apply apply_organ_Ok in Hp as (e0&He0&Hnew&Hdeps&->). simpl.
    intros [[<- <-]|[_ He]]%lookup_insert_Some; [|by apply IH]. simpl.
    apply organs_ok_insert; try done. by apply IH. }
  all: clear Hval;
    unfold apply_intention, apply_genome_proposal, apply_genome_acceptance, apply_expression,
      apply_verification, apply_version,
      apply_feedback, apply_evolutionary_intent, apply_evolution, apply_ownership, apply_token,
      apply_availability, apply_parent in Hp; res_inv; try (exact (IH eid e)); simpl.
  - intros [[<- <-]|[_ He]]%lookup_insert_Some; [apply organs_empty|by apply IH].
  - intros [[<- <-]|[_ He]]%lookup_insert_Some; [|by apply IH].
    simpl. by apply (IH (vr_expression_id r)).
Qed.

Definition key_leb (a b : string * Organ) : bool :=
  bytes_leb (bytes_of (fst a)) (bytes_of (fst b)).

Lemma organ_entries_spec eid organs : organs_ok eid organs ->
  let l := stable_sort key_leb (map_to_list organs) in
  Forall (λ e, organs !! fst e = Some (snd e) /\ og_organ_id (snd e) = fst e /\
    og_expression_id (snd e) = eid /\ organ_validate (snd e) = Ok tt) l /\
  NoDup (fst <$> l) /\ StronglySorted (λ a b, key_leb a b = true) l.
Proof.
  intros [Ho _] l. assert (l ≡ₚ map_to_list organs) as Hp by apply stable_sort_perm.
  split_and!.
  - rewrite Hp. apply Forall_forall. intros [id o] Hid%elem_of_map_to_list. simpl.
    by destruct (Ho _ _ Hid) as (?&?&?).
  - rewrite Hp. apply NoDup_fst_map_to_list.
  - apply stable_sort_sorted; intros; [apply bytes_leb_total|by eapply bytes_leb_trans].
Qed.

Lemma organ_values_sorted l :
  Forall (λ e : string * Organ, og_organ_id (snd e) = fst e) l ->
  StronglySorted (λ a b, key_leb a b = true) l ->
  StronglySorted (λ a b, organ_leb a b = true) (snd <$> l).
Proof.
  intros Hid Hs. induction Hs as [|[k o] l Hl IH Hx]; simpl; [constructor|].
  apply Forall_cons in Hid as [Hk Hid]. simpl in Hk. constructor; [by apply IH|].
  apply Forall_fmap, Forall_forall. intros [k' o'] Hin. simpl.
  rewrite Forall_forall in Hx, Hid. specialize (Hx _ Hin). specialize (Hid _ Hin).
  unfold key_leb, organ_leb in *. simpl in *. by rewrite Hk, Hid.
Qed.

Lemma organ_values_fmap_id eid organs : organs_ok eid organs ->
  og_organ_id <$> organ_values organs
    = fst <$> stable_sort key_leb (map_to_list organs).
Proof.
  intros Hok. destruct (organ_entries_spec _ _ Hok) as (Hf&_&_).
  unfold organ_values. fold key_leb. rewrite <- list_fmap_compose.
  apply Forall_fmap_ext. eapply Forall_impl; [exact Hf|]. simpl. naive_solver.
Qed.

(** On the organs of a reachable expression every check of
    [capability_graph_digest] passes and sorting is the identity. *)
Lemma capability_graph_reachable eid organs : organs_ok eid organs ->
  capability_graph_digest (organ_values organs) = sha256_commitment (organ_values organs).
Proof.
  intros Hok. pose proof (organ_values_fmap_id _ _ Hok) as Hids.
  destruct (organ_entries_spec _ _ Hok) as (Hf&Hnd&Hs).
  assert (Forall (λ o, og_expression_id o = eid /\ organ_validate o = Ok tt /\
      organs !! og_organ_id o = Some o) (organ_values organs)) as Hv.
  { unfold organ_values. fold key_leb. apply Forall_fmap. eapply Forall_impl; [exact Hf|].
    simpl. intros [k o]. simpl. naive_solver. }
  unfold capability_graph_digest, canonical_capability_graph_bytes.
  rewrite (proj2 (for_each_Ok _ _ tt)) by (eapply Forall_impl; [exact Hv|]; naive_solver).
  assert (stable_sort organ_leb (organ_values organs) = organ_values organs) as ->.
  { apply stable_sort_sorted_id. unfold organ_values. fold key_leb.
    apply organ_values_sorted; [|done]. eapply Forall_impl; [exact Hf|]. naive_solver. }
  cbn [mbind Result_bind].
  destruct (organ_values organs) as [|first graph] eqn:Eg; [done|]. rewrite <- Eg in *.
  assert (og_expression_id first = eid) as ->.
  { rewrite Eg in Hv. apply Forall_cons in Hv. naive_solver. }
  assert (graph_check eid (organ_values organs) = Ok tt) as ->; [|done].
  unfold graph_check. apply bind_Ok. exists tt. split.
  - apply for_unique_Ok. rewrite Hids. split_and!; [|done|].
    + eapply Forall_impl; [exact Hv|]. simpl. intros o (Ho&_&_).
      by rewrite bool_decide_eq_true_2.
    + apply Forall_forall. set_solver.
  - apply for_each_Ok. eapply Forall_impl; [exact Hv|]. simpl. intros o (_&_&Ho).
    apply fail_if_Ok, existsb_false. apply Forall_forall. intros d Hd.
    apply bool_decide_eq_false. intros Hn. apply Hn.
    destruct Hok as [_ (rank&_&Hr)]. destruct (Hr (og_organ_id o) d) as [[o' Ho'] _]; [by exists o|].
    apply elem_of_list_to_set. rewrite Hids. apply list_elem_of_fmap. exists (d, o').
    split; [done|]. by rewrite stable_sort_perm, elem_of_map_to_list.
Qed.

(** The organ graph of every expression of a reachable state is a closed
    acyclic graph: each organ is valid and stored under its own ID for its own
    expression, each dependency is a declared organ, no organ depends on itself
    through any chain; and the capability-graph digest of such an expression
    never fails a graph check: it is the canonical commitment of its organs in
    key order. *)
Theorem organ_graph_sound (history : list SignedLineageAction) (s : ShotState)
    (eid : ExpressionId) (e : ExpressionState)
    (Hr : reduce_lineage history = Ok s) (He : st_expressions s !! eid = Some e) :
  (forall id o, es_organs e !! id = Some o ->
     og_organ_id o = id /\ og_expression_id o = eid /\ organ_validate o = Ok tt) /\
  (forall id d, depends_on (es_organs e) id d -> is_Some (es_organs e !! d)) /\
  (forall id, ~ tc (depends_on (es_organs e)) id id) /\
  capability_graph_digest (organ_values (es_organs e))
    = sha256_commitment (organ_values (es_organs e)).
Proof.
  apply reduce_lineage_reduces_fact, reduces_organs_ok in Hr. specialize (Hr _ _ He).
  pose proof (capability_graph_reachable _ _ Hr). destruct Hr as [Ho (rank&_&Hrank)].
  split_and!; [done| |  |done].
  - intros id d Hd. by destruct (Hrank _ _ Hd).
  - assert (forall a b, tc (depends_on (es_organs e)) a b -> rank b < rank a) as Htc.
    { induction 1 as [a b Hab|a b c Hab _ IH]; apply Hrank in Hab as [_ ?]; lia. }
    intros id Hid%Htc. lia.
Qed.

(** ** Versions *)

Definition version_at (s : ShotState) (eid : ExpressionId) (k : nat) (v : VersionRecord) : Prop :=
  exists e, st_expressions s !! eid = Some e /\ es_versions e !! k = Some v.

(** [signed] is the action that recorded [r] under [h]. *)
Definition recorded_verification (signed : SignedLineageAction) (h : Bytes32)
    (r : VerificationResult) : Prop :=
  la_payload (sl_action signed) = PayloadVerificationResult r /\
  action_commitment (sl_action signed) = Ok h.

Definition verified_before (history : list SignedLineageAction) (v : VersionRecord) : Prop :=
  exists j k signed_v signed_r r, j < k /\
    history !! k = Some signed_v /\ la_payload (sl_action signed_v) = PayloadVersion v /\
    history !! j = Some signed_r /\
    recorded_verification signed_r (vr_verification_action v) r /\
    Forall (λ g, vg_passed g = true) (vs_gates r) /\ same_facts r v = true.

Record versions_ok (history : list SignedLineageAction) (s : ShotState) : Prop := {
  vo_version : forall eid k v, version_at s eid k v ->
    vr_expression_id v = eid /\ vr_ordinal v = Z.of_nat (S k) /\
    vr_version_id v = derive_version_id (st_shot_id s) eid (Z.of_nat (S k))
                        (vr_genome_digest v) (vr_source_digest v) /\
    verified_before history v;
  vo_current : forall eid e, st_expressions s !! eid = Some e ->
    es_current_version e = vr_version_id <$> last (es_versions e);
  vo_unique : forall eid eid' k k' v v', version_at s eid k v -> version_at s eid' k' v' ->
    vr_version_id v = vr_version_id v' -> eid = eid' /\ k = k';
  vo_verifications : forall h r, st_verification_results s !! h = Some r ->
    exists j signed, history !! j = Some signed /\ recorded_verification signed h r /\
      verification_validate r = Ok tt }.

Lemma next_ordinal_Ok vs n : next_ordinal vs = Some n -> n = Z.of_nat (S (length vs)).
Proof.
  unfold next_ordinal, u64_try_from, checked_add_u64, checked_add. intros Hn.
  case_match; simpl in Hn; [|done]. case_match; [|done]. injection Hn as <-. lia.
Qed.

Lemma apply_version_Ok s action v s1 : apply_version s action v = Ok s1 ->
  exists r e,
    st_verification_results s !! vr_verification_action v = Some r /\
    vs_passed r = true /\ same_facts r v = true /\
    st_expressions s !! vr_expression_id v = Some e /\
    (forall eid k v', version_at s eid k v' -> vr_version_id v' <> vr_version_id v) /\
    vr_ordinal v = Z.of_nat (S (length (es_versions e))) /\
    s1 = set_expressions (<[vr_expression_id v :=
        {| es_expression := es_expression e; es_organs := es_organs e;
           es_versions := es_versions e ++ [v];
           es_current_version := Some (vr_version_id v) |}]> (st_expressions s)) s.
Proof.
  unfold apply_version. intros Hv. res_inv.
  match goal with H : next_ordinal _ = _ |- _ => apply next_ordinal_Ok in H end.
  match goal with H : existsb _ _ = false |- _ => apply existsb_false in H; rename H into Hnew end.
  do 2 eexists. split_and!; try done; [|congruence].
  intros eid k v' (e&He&Hv') Heq. rewrite Forall_forall in Hnew.
  specialize (Hnew v'). simpl in Hnew. rewrite bool_decide_eq_false in Hnew.
  apply Hnew; [|done]. unfold all_versions. apply list_elem_of_bind. exists (eid, e). simpl.
  split; [by eapply list_elem_of_lookup_2|by apply elem_of_map_to_list].
Qed.

Lemma version_at_insert s v e eid k v' :
  st_expressions s !! vr_expression_id v = Some e ->
  version_at (set_expressions (<[vr_expression_id v :=
      {| es_expression := es_expression e; es_organs := es_organs e;
         es_versions := es_versions e ++ [v];
         es_current_version := Some (vr_version_id v) |}]> (st_expressions s)) s) eid k v' <->
  version_at s eid k v' \/
  (eid = vr_expression_id v /\ k = length (es_versions e) /\ v' = v).
Proof.
  intros He. unfold version_at. simpl. split.
  - intros (e'&[[<- <-]|[Hne He']]%lookup_insert_Some&Hk); [|left; by exists e'].
    simpl in Hk. apply lookup_app_Some in Hk as [Hk|[Hge Hk]]; [left; by exists e|right].
    apply list_lookup_singleton_Some in Hk as [? <-]. split_and!; [done|lia|done].
  - intros [(e'&He'&Hk)|(->&->&->)].
    + destruct (decide (eid = vr_expression_id v)) as [->|].
      * rewrite lookup_insert_eq. eexists. split; [done|]. simpl.
        apply lookup_app_l_Some. congruence.
      * rewrite lookup_insert_ne by done. by exists e'.
    + rewrite lookup_insert_eq. eexists. split; [done|]. simpl.
      by rewrite lookup_app_r, Nat.sub_diag by lia.
Qed.

Lemma verified_before_app history l v : verified_before history v ->
  verified_before (history ++ l) v.
Proof.
  intros (j&k&sv&sr&r&?&?&?&?&?). exists j, k, sv, sr, r.
  split; [done|]. split; [by apply lookup_app_l_Some|]. split; [done|].
  split; [by apply lookup_app_l_Some|done].
Qed.

Lemma versions_ok_other history s signed s1 :
  versions_ok history s -> st_shot_id s1 = st_shot_id s ->
  (forall eid k v, version_at s1 eid k v <-> version_at s eid k v) ->
  (forall eid e, st_expressions s1 !! eid = Some e ->
     es_current_version e = vr_version_id <$> last (es_versions e)) ->
  (forall h r, st_verification_results s1 !! h = Some r ->
     st_verification_results s !! h = Some r \/
     (recorded_verification signed h r /\ verification_validate r = Ok tt)) ->
  versions_ok (history ++ [signed]) s1.
Proof.
  intros [Hv Hc Hu Hr] Hs Hat Hcur Hres. constructor.
  - intros eid k v Hk%Hat. destruct (Hv _ _ _ Hk) as (?&?&?&?). rewrite Hs.
    split_and!; try done. by apply verified_before_app.
  - done.
  - intros eid eid' k k' v v' Hk%Hat Hk'%Hat. by eapply Hu.
  - intros h r [Hh|[? ?]]%Hres.
    + destruct (Hr _ _ Hh) as (j&x&Hj&?&?). exists j, x. split; [|done].
      by apply lookup_app_l_Some.
    + exists (length history), signed. split; [|done]. by rewrite lookup_app_r, Nat.sub_diag by lia.
Qed.

Lemma verification_passed_gates r : verification_validate r = Ok tt -> vs_passed r = true ->
  Forall (λ g, vg_passed g = true) (vs_gates r).
Proof.
  unfold verification_validate. intros Hv Hp. res_inv. apply forallb_Forall. congruence.
Qed.

Lemma version_validate_id v shot : version_validate v shot = Ok tt ->
  vr_version_id v = expected_id v shot.
Proof. unfold version_validate. intros Hv. by res_inv. Qed.

Lemma versions_ok_version history s signed c v s1 :
  versions_ok history s -> steps s signed c s1 ->
  la_payload (sl_action signed) = PayloadVersion v ->
  versions_ok (history ++ [signed]) (positioned signed c s1).
Proof.
  intros [Hv Hc Hu Hr] [Hval%action_validate_payload _ _ _ Hshot _ Hp] E.
  unfold apply_payload in Hp. rewrite E in Hp, Hval.
  apply apply_version_Ok in Hp as (r&e&Hver&Hpass&Hsame&He&Hnew&Hord&->).
  apply version_validate_id in Hval as Hid. rewrite Hshot in Hid.
  assert (Hat := version_at_insert s v e). unfold version_at in Hat. simpl in Hat.
  destruct (Hr _ _ Hver) as (j&x&Hj&Hrec&Hvv).
  constructor; unfold version_at; simpl.
  - intros eid k v' [Hk|(->&->&->)]%Hat; [| |done].
    + destruct (Hv _ _ _ Hk) as (?&?&?&?). split_and!; try done. by apply verified_before_app.
    + split; [done|]. split; [done|]. split.
      { rewrite Hid. unfold expected_id. by rewrite Hord. }
      exists j, (length history), signed, x, r. split; [by eapply lookup_lt_Some|].
      split; [by rewrite lookup_app_r, Nat.sub_diag by lia|]. split; [done|].
      split; [by apply lookup_app_l_Some|]. split; [done|].
      split; [by apply verification_passed_gates|done].
  - intros eid e' [[<- <-]|[_ He']]%lookup_insert_Some; [|by eapply Hc]. simpl.
    by rewrite last_snoc.
  - intros eid eid' k k' v1 v2 [Hk|(->&->&->)]%Hat [Hk'|(->&->&->)]%Hat Heq; try done.
    + by eapply Hu.
    + by destruct (Hnew _ _ _ Hk).
    + by destruct (Hnew _ _ _ Hk').
  - intros h r' Hh. destruct (Hr _ _ Hh) as (j'&x'&Hj'&?&?). exists j', x'. split; [|done].
    by apply lookup_app_l_Some.
Qed.

(** Replacing an expression by one with the same versions. *)
Lemma version_at_same s id e1 eid k v :
  (forall j, es_versions e1 !! j = st_expressions s !! id ≫= λ e, es_versions e !! j) ->
  version_at (set_expressions (<[id := e1]> (st_expressions s)) s) eid k v <->
  version_at s eid k v.
Proof.
  intros Hsame. unfold version_at. simpl. destruct (decide (id = eid)) as [<-|Hne].
  - rewrite lookup_insert_eq. split.
    + intros (e&[= <-]&Hk). rewrite Hsame in Hk. apply bind_Some in Hk. naive_solver.
    + intros (e&He&Hk). exists e1. split; [done|]. by rewrite Hsame, He.
  - by rewrite lookup_insert_ne.
Qed.

Lemma apply_payload_keeps_versions s action c s1 :
  (forall v, la_payload action <> PayloadVersion v) -> apply_payload s action c = Ok s1 ->
  (forall eid k v, version_at s1 eid k v <-> version_at s eid k v) /\
  (forall eid e1, st_expressions s1 !! eid = Some e1 ->
     (exists e, st_expressions s !! eid = Some e /\ es_versions e1 = es_versions e /\
        es_current_version e1 = es_current_version e) \/
     (es_versions e1 = [] /\ es_current_version e1 = None)) /\
  (forall h r, st_verification_results s1 !! h = Some r ->
     st_verification_results s !! h = Some r \/
     (h = c /\ la_payload action = PayloadVerificationResult r)).
Proof.
  intros Hnv Hp. payload_inv Hp; cbn [st_expressions set_expressions];
    try by (split_and!; [done|by left; exists e1|by left]).
  - split_and!; [|intros eid e1 [[<- <-]|[_ He]]%lookup_insert_Some; [by right|left; by exists e1]
      |by left].
    intros eid k v. apply version_at_same. intros j. simpl.
    by destruct (st_expressions s !! _).
  - split_and!; [| |by left].
    + intros eid k v. apply version_at_same. intros j. simpl.
      match goal with H : st_expressions s !! _ = Some _ |- _ => by rewrite H end.
    + intros eid e1 [[<- <-]|[_ He]]%lookup_insert_Some; left; [|by exists e1]. by eexists.
  - split_and!; [done|by left; exists e1|].
    intros h r'. simpl. intros [[<- <-]|[_ Hh]]%lookup_insert_Some; auto.
  - by destruct (Hnv record).
Qed.

Lemma reduces_versions_ok history s : reduces history s -> versions_ok history s.
Proof.
  revert history s. apply reduces_steps.
  { intros f c h _ _ _ _ _. constructor; unfold version_at; simpl.
    - intros eid k v (e&?%lookup_empty_Some&_). done.
    - intros eid e ?%lookup_empty_Some. done.
    - intros eid eid' k k' v v' (e&?%lookup_empty_Some&_). done.
    - intros h' r ?%lookup_empty_Some. done. }
  intros l s signed c s1 _ IH Hst.
  assert ((exists v, la_payload (sl_action signed) = PayloadVersion v) \/
    (forall v, la_payload (sl_action signed) <> PayloadVersion v)) as [[v E]|Hnv].
  { destruct (la_payload (sl_action signed)); eauto. }
  { by eapply versions_ok_version. }
  destruct Hst as [Hval%action_validate_payload Hc _ _ _ _ Hp].
  destruct (apply_payload_keeps_versions _ _ _ _ Hnv Hp) as (Hat&Hexp&Hres).
  apply (versions_ok_other l s); [done|by apply (apply_payload_frame _ _ _ _ Hp)|exact Hat| |].
  - intros eid e1 He1. destruct (Hexp _ _ He1) as [(e&He&->&->)|[-> ->]]; [|done].
    by apply (vo_current _ _ IH eid).
  - intros h r Hh. destruct (Hres _ _ Hh) as [?|[-> E]]; [by left|right].
    rewrite E in Hval. by repeat split.
Qed.

(** [C3] Versions of a reduced lineage: the k-th accepted version of an
    expression has ordinal k, names that expression and carries the VersionID
    derived from the Shot, the expression, its ordinal, genome and source; the
    current version is the last one; a VersionID identifies one version across
    all expressions; and every accepted version stands on an earlier recorded
    verification of exactly the same facts, all of whose gates passed. *)
Theorem accepted_versions_sound (history : list SignedLineageAction) (s : ShotState)
    (Hr : reduce_lineage history = Ok s) :
  (forall eid k v, version_at s eid k v ->
     vr_expression_id v = eid /\ vr_ordinal v = Z.of_nat (S k) /\
     vr_version_id v = derive_version_id (st_shot_id s) eid (Z.of_nat (S k))
                         (vr_genome_digest v) (vr_source_digest v) /\
     verified_before history v) /\
  (forall eid e, st_expressions s !! eid = Some e ->
     es_current_version e = vr_version_id <$> last (es_versions e)) /\
  (forall eid eid' k k' v v', version_at s eid k v -> version_at s eid' k' v' ->
     vr_version_id v = vr_version_id v' -> eid = eid' /\ k = k').
Proof.
  apply reduce_lineage_reduces_fact, reduces_versions_ok in Hr. by destruct Hr.
Qed.

(** A recorded verification covers every organ: if a verification is
    applied to a state, then each acceptance test of each organ
    currently declared for its expression has a gate of the name derived from
    that test, and if the verification is a pass, that gate passed. *)
Theorem verification_covers_organs s signed s' r e o i gate_name
    (Hs : apply_one s signed = Ok s')
    (Hp : la_payload (sl_action signed) = PayloadVerificationResult r)
    (He : st_expressions s !! vs_expression_id r = Some e)
    (Ho : exists id, es_organs e !! id = Some o)
    (Hi : i < length (og_acceptance_tests o))
    (Hg : organ_acceptance_gate_name o i = Ok gate_name) :
  exists gate, gate ∈ vs_gates r /\ vg_name gate = gate_name /\
    (vs_passed r = true -> vg_passed gate = true).
Proof.
  apply apply_one_Ok in Hs as (c&s1&Hc&_&_&Hs&_).
  assert (verification_validate r = Ok tt) as Hv.
  { unfold action_commitment in Hc. res_inv.
    match goal with H : action_validate _ = _ |- _ =>
      apply action_validate_payload in H; by rewrite Hp in H end. }
  unfold apply_payload in Hs. rewrite Hp in Hs. unfold apply_verification in Hs.
  rewrite He in Hs. res_inv.
  match goal with H : Some e = Some _ |- _ => injection H as <- end.
  match goal with H : require_organ_gates _ _ _ = _ |- _ =>
    unfold require_organ_gates in H; apply for_each_Ok in H; rename H into Hall end.
  rewrite Forall_forall in Hall. destruct Ho as [id Ho].
  assert (o ∈ organ_values (es_organs e)) as Hino.
  { unfold organ_values. apply list_elem_of_fmap. exists (id, o). split; [done|].
    rewrite stable_sort_perm. by apply elem_of_map_to_list. }
  pose proof (Hall o Hino) as Hall'. apply for_each_Ok in Hall'. rewrite Forall_forall in Hall'.
  assert (i ∈ seq 0 (length (og_acceptance_tests o))) as Hseq by (apply elem_of_seq; lia).
  specialize (Hall' i Hseq).
  rewrite Hg in Hall'. simpl in Hall'. res_inv.
  apply dec_stable in Hall' as Hin.
  apply elem_of_list_to_set, list_elem_of_fmap in Hin as (gate&->&Hin).
  exists gate. split_and!; [done|done|]. intros Hpass.
  pose proof (verification_passed_gates _ Hv Hpass) as Hf. rewrite Forall_forall in Hf. by apply Hf.
Qed.

(** ** Journals *)

(** [payload] was signed into [history] under the commitment [h]. *)
Definition recorded (history : list SignedLineageAction) (h : Bytes32)
    (payload : LineagePayload) : Prop :=
  exists signed, signed ∈ history /\ la_payload (sl_action signed) = payload /\
    action_commitment (sl_action signed) = Ok h.

(** The records of one kind in a history, in order, with their commitments. *)
Definition journal {T} (select : LineagePayload -> option T)
    (history : list SignedLineageAction) : list (ActionRecord T) :=
  history ≫= λ signed,
    match select (la_payload (sl_action signed)), action_commitment (sl_action signed) with
    | Some r, Ok c => [Build_ActionRecord c r]
    | _, _ => []
    end.

Definition as_evolution (p : LineagePayload) : option Evolution :=
  match p with PayloadEvolution r => Some r | _ => None end.
Definition as_ownership (p : LineagePayload) : option Ownership :=
  match p with PayloadOwnership r => Some r | _ => None end.
Definition as_token (p : LineagePayload) : option TokenAssociation :=
  match p with PayloadTokenAssociation r => Some r | _ => None end.
Definition as_parent (p : LineagePayload) : option ParentRelation :=
  match p with PayloadParentRelation r => Some r | _ => None end.

(** The association in force after replaying the token actions. *)
Definition token_replay (history : list TokenAssociation) : option TokenAssociation :=
  foldl (λ _ t, match ta_operation t with Associate => Some t | Remove => None end) None history.

Lemma journal_snoc {T} (select : LineagePayload -> option T) history signed c :
  action_commitment (sl_action signed) = Ok c ->
  journal select (history ++ [signed]) = journal select history
    ++ match select (la_payload (sl_action signed)) with
       | Some r => [Build_ActionRecord c r] | None => [] end.
Proof.
  intros Hc. unfold journal. rewrite bind_app. f_equal. simpl. rewrite app_nil_r, Hc.
  by destruct (select _).
Qed.

(** The journals of a reduced state are exactly its history: the recorded
    evolutions, handovers, token actions and parent relations are the actions
    of that kind, all of them, in order, each under its commitment; and the
    current token association is what replaying the token actions leaves. *)
Theorem journals_are_history (history : list SignedLineageAction) (s : ShotState)
    (Hr : reduce_lineage history = Ok s) :
  st_evolutions s = journal as_evolution history /\
  st_ownership_history s = journal as_ownership history /\
  st_token_history s = journal as_token history /\
  st_parent_relations s = journal as_parent history /\
  st_token_association s = token_replay (rec_record <$> st_token_history s).
Proof.
  apply reduce_lineage_reduces_fact in Hr. revert history s Hr. apply reduces_steps.
  { intros f c h Hc _ _ _ Hh. unfold journal. simpl. rewrite Hc. by split_and!. }
  intros l s signed c s1 _ (IH1&IH2&IH3&IH4&IH5) [_ Hc _ _ _ _ Hp].
  rewrite !(journal_snoc _ _ _ _ Hc). unfold positioned. simpl.
  payload_inv Hp; simpl; rewrite ?app_nil_r; try (by split_and!); split_and!; try congruence.
  rewrite fmap_app. unfold token_replay. rewrite foldl_app. simpl.
  match goal with H : token_step _ _ _ = _ |- _ => unfold token_step in H; rename H into Ht end.
  destruct (ta_operation _); [congruence|]. destruct (st_token_association s); [|done].
  by res_inv.
Qed.

(** Parent relations of a reduced Shot name it as the child, and no parent
    is recorded twice. *)
Theorem parents_unique (history : list SignedLineageAction) (s : ShotState)
    (Hr : reduce_lineage history = Ok s) :
  NoDup ((λ r, pr_parent_shot_id (rec_record r)) <$> st_parent_relations s) /\
  Forall (λ r, pr_child_shot_id (rec_record r) = st_shot_id s /\
               parent_validate (rec_record r) = Ok tt) (st_parent_relations s).
Proof.
  apply reduce_lineage_reduces_fact in Hr. revert history s Hr.
  apply (reduces_state_inv (λ s, NoDup _ /\ Forall _ _)).
  { intros f c h. simpl. split; constructor. }
  intros l s signed c s1 _ [IH1 IH2] [Hval%action_validate_payload _ _ _ _ _ Hp].
  unfold positioned. simpl.
  payload_inv Hp; simpl; try done. rewrite fmap_app, NoDup_app, Forall_app. simpl.
  rewrite Forall_singleton. split_and!; try done.
  - intros x Hx Hin. apply list_elem_of_singleton in Hin as ->.
    apply list_elem_of_fmap in Hx as (r&Heq&Hr).
    match goal with H : existsb _ _ = false |- _ => apply existsb_false in H; rename H into Hn end.
    rewrite Forall_forall in Hn. specialize (Hn r Hr). simpl in Hn.
    by apply bool_decide_eq_false in Hn.
  - apply NoDup_singleton.
Qed.

(** ** Provenance *)

Record provenance (history : list SignedLineageAction) (s : ShotState) : Prop := {
  pv_intention : forall i, st_intention s = Some i ->
    (exists h, recorded history h (PayloadIntention i)) /\
    intention_commitment i = Ok (sc_intention_commitment (st_commitment s));
  pv_genome : forall g, st_accepted_genome s = Some g ->
    (exists a p, recorded history (ag_acceptance_action g) (PayloadGenomeAcceptance a) /\
       recorded history (ag_proposal_action g) (PayloadGenomeProposal p) /\
       ga_proposal_action a = ag_proposal_action g /\ gp_proposed p = ag_genome g /\
       ga_revision a = gn_revision (ag_genome g) /\
       genome_digest (ag_genome g) = Ok (ga_genome_digest a));
  pv_proposals : forall h p, st_genome_proposals s !! h = Some p ->
    recorded history h (PayloadGenomeProposal p);
  pv_acceptances : forall h a, st_genome_acceptances s !! h = Some a ->
    recorded history h (PayloadGenomeAcceptance a);
  pv_verifications : forall h r, st_verification_results s !! h = Some r ->
    recorded history h (PayloadVerificationResult r);
  pv_feedback : forall h f, st_feedback s !! h = Some f ->
    recorded history h (PayloadFeedback f);
  pv_intents : forall h i, st_evolutionary_intents s !! h = Some i ->
    recorded history h (PayloadEvolutionaryIntent i);
  pv_availability : forall d a, st_availability s !! d = Some a ->
    d = ad_digest (aa_artifact (ar_availability a)) /\
    exists h, recorded history h (PayloadArtifactAvailability a) }.

Lemma recorded_app history l h p : recorded history h p -> recorded (history ++ l) h p.
Proof. intros (x&Hx&?). exists x. split; [|done]. apply elem_of_app. by left. Qed.

Lemma recorded_last history signed h p :
  la_payload (sl_action signed) = p -> action_commitment (sl_action signed) = Ok h ->
  recorded (history ++ [signed]) h p.
Proof. intros ? ?. exists signed. split; [|done]. apply elem_of_app. right. by left. Qed.

Lemma provenance_app history l s : provenance history s -> provenance (history ++ l) s.
Proof.
  intros [Hi Hg Hp Ha Hv Hf Hn Hav]. constructor; eauto using recorded_app.
  - intros i Hs. destruct (Hi i Hs) as [[h ?] ?]. eauto using recorded_app.
  - intros g Hs. destruct (Hg g Hs) as (a&p&?&?&?). exists a, p. auto using recorded_app.
  - intros d a Hs. destruct (Hav d a Hs) as [? [h ?]]. eauto using recorded_app.
Qed.
#[local] Hint Resolve recorded_app recorded_last : core.

Lemma state_has_provenance_fact (history : list SignedLineageAction) (s : ShotState)
    (Hr : reduce_lineage history = Ok s) : provenance history s.
Proof.
  apply reduce_lineage_reduces_fact in Hr. revert history s Hr. apply reduces_steps.
  { intros f c h _ _ _ _ _. by constructor; simpl; try (intros ? ? ?%lookup_empty_Some). }
  intros l s signed c s1 _ IH [_ Hc _ _ _ _ Hp]. unfold positioned.
  pose proof (provenance_app l [signed] s IH) as [Hi Hg Hps Ha Hv Hf Hn Hav].
  payload_inv Hp; constructor; simpl; try done;
    try (intros ? ? [[<- <-]|[_ ?]]%lookup_insert_Some; by eauto).
  - intros i [= <-]. split; [by eauto|]. congruence.
  - intros g [= <-]. simpl.
    match goal with H : st_genome_proposals s !! _ = Some _ |- _ => apply Hps in H end.
    do 2 eexists. split_and!; [by eapply recorded_last|done|done|done|congruence|congruence].
Qed.

(** Provenance: every fact of a reduced state was signed into its history.
    The intention is the one the founding commitment committed to; the accepted
    genome is the proposal that a recorded acceptance names, at its revision and
    digest; and every proposal, acceptance, verification, feedback, intent and
    availability observation is the payload of an action of the history whose
    commitment is its key. *)
Theorem state_has_provenance (history : list SignedLineageAction) (s : ShotState)
    (Hr : reduce_lineage history = Ok s) : provenance history s.
Proof. by eapply state_has_provenance_fact. Qed.

(** ** Evolutions *)

(** [ev] connects two adjacent versions of its expression. *)
Definition connects (s : ShotState) (ev : Evolution) : Prop :=
  exists k from to, version_at s (eo_expression_id ev) k from /\
    version_at s (eo_expression_id ev) (S k) to /\
    vr_version_id from = eo_from_version_id ev /\ vr_version_id to = eo_to_version_id ev /\
    vr_genome_digest from = eo_from_genome_digest ev /\
    vr_genome_digest to = eo_to_genome_digest ev.

(** [ev] completes an intent of the history: what the intent declared about the
    organ graph and the genome is what changed, and a genome change is the
    recorded acceptance of the very proposal the intent named. *)
Definition completes_intent (history : list SignedLineageAction) (s : ShotState)
    (ev : Evolution) : Prop :=
  exists i k from to,
    recorded history (eo_evolutionary_intent_action ev) (PayloadEvolutionaryIntent i) /\
    ei_expression_id i = eo_expression_id ev /\ ei_from_version_id i = eo_from_version_id ev /\
    version_at s (eo_expression_id ev) k from /\ version_at s (eo_expression_id ev) (S k) to /\
    (proposes ScopeOrgan i = true <->
       vr_capability_graph_digest from <> vr_capability_graph_digest to) /\
    (proposes ScopeGenome i = true -> vr_genome_digest from <> vr_genome_digest to) /\
    (vr_genome_digest from <> vr_genome_digest to ->
       exists proposal acceptance a, ei_proposed_genome_action i = Some proposal /\
         eo_genome_acceptance_action ev = Some acceptance /\
         recorded history acceptance (PayloadGenomeAcceptance a) /\
         ga_proposal_action a = proposal /\ ga_genome_digest a = vr_genome_digest to /\
         ga_revision a = vr_genome_revision to).

Lemma version_at_extends s s' eid k v : extends s s' ->
  version_at s eid k v -> version_at s' eid k v.
Proof.
  intros Hext (e&He&Hk). destruct (ex_expressions _ _ Hext _ _ He) as (e'&He'&[_ _ Hpre]).
  exists e'. split; [done|]. by eapply prefix_lookup_Some.
Qed.

Lemma version_position_Ok id vs k : version_position id vs = Some k ->
  exists v, vs !! k = Some v /\ vr_version_id v = id.
Proof.
  unfold version_position. intros Hk. apply fmap_Some in Hk as ([k' v]&Hf&->).
  apply list_find_Some in Hf as (?&?&_). by exists v.
Qed.

(** The guard of [apply_evolution] on the genome, read declaratively. *)
Lemma evolution_genome_check_Ok s action ev i to :
  evolution_genome_check s action ev i to = Ok tt ->
  (proposes ScopeGenome i = true -> eo_from_genome_digest ev <> eo_to_genome_digest ev) /\
  (eo_from_genome_digest ev <> eo_to_genome_digest ev ->
     exists proposal acceptance a, ei_proposed_genome_action i = Some proposal /\
       eo_genome_acceptance_action ev = Some acceptance /\
       st_genome_acceptances s !! acceptance = Some a /\
       ga_proposal_action a = proposal /\ ga_genome_digest a = eo_to_genome_digest ev /\
       ga_revision a = vr_genome_revision to).
Proof.
  unfold evolution_genome_check. intros Hc.
  destruct (decide (eo_from_genome_digest ev = eo_to_genome_digest ev)) as [Heq|Hne].
  - rewrite (bool_decide_eq_true_2 _ Heq) in Hc. simpl in Hc. split; [|done].
    intros Hg. rewrite Hg, orb_true_r in Hc. done.
  - rewrite (bool_decide_eq_false_2 _ Hne) in Hc. simpl in Hc. split; [done|].
    intros _. res_inv. by do 3 eexists.
Qed.

Lemma apply_evolution_sound history s action c ev s1 :
  provenance history s -> apply_evolution s action c ev = Ok s1 ->
  connects s ev /\ completes_intent history s ev.
Proof.
  intros Hprov Hp. unfold apply_evolution in Hp. res_inv. simplify_eq.
  repeat match goal with H : version_position _ _ = Some _ |- _ =>
    apply version_position_Ok in H as (?&?&?) end.
  match goal with H : (_ =? _)%nat = true |- _ => apply Nat.eqb_eq in H; subst end.
  match goal with H : evolution_genome_check _ _ _ _ _ = _ |- _ =>
    apply evolution_genome_check_Ok in H as [Hgenome Hmut] end.
  match goal with H : st_evolutionary_intents s !! _ = Some ?i |- _ =>
    apply (pv_intents _ _ Hprov) in H as Hrec; rename i into intent end.
  simplify_eq.
  match goal with
  | Hf : es_versions ?e !! ?k = Some ?v, Ht : es_versions ?e !! S ?k = Some ?w |- _ =>
      assert (version_at s (eo_expression_id ev) k v) as Hfrom by (by exists e);
      assert (version_at s (eo_expression_id ev) (S k) w) as Hto by (by exists e);
      destruct (decide (vr_capability_graph_digest v = vr_capability_graph_digest w)) as [Hg|Hg];
      [rewrite (bool_decide_eq_true_2 _ Hg) in *|rewrite (bool_decide_eq_false_2 _ Hg) in *];
      simpl in *; split;
      [exists k, v, w; by split_and!|exists intent, k, v, w|exists k, v, w; by split_and!
      |exists intent, k, v, w]
  end.
  all: split; [exact Hrec|]; do 4 (split; [congruence || done|]); split;
    [destruct (proposes ScopeOrgan intent); naive_solver|].
  all: split; [by intros Hs; specialize (Hgenome Hs); congruence|];
    intros Hne; destruct Hmut as (p&acc&a&?&?&Ha&?&?&?); [congruence|];
    apply (pv_acceptances _ _ Hprov) in Ha; exists p, acc, a; split_and!; try done; congruence.
Qed.

(** Evolutions of a reduced lineage: each recorded evolution connects two
    adjacent accepted versions of its expression with the genomes it names, and
    completes an intent of the history that began at its source version: the
    organ graph changed exactly if the intent declared an organ change, a
    declared genome change did happen, and any genome change is the recorded
    acceptance of the very proposal the intent named. *)
Theorem evolutions_sound (history : list SignedLineageAction) (s : ShotState)
    (Hr : reduce_lineage history = Ok s) :
  Forall (λ r, connects s (rec_record r) /\ completes_intent history s (rec_record r))
    (st_evolutions s).
Proof.
  apply reduce_lineage_reduces_fact in Hr. revert history s Hr. apply reduces_steps.
  { intros f c h _ _ _ _ _. constructor. }
  intros l s signed c s1 Hr IH [_ Hc _ _ _ _ Hp].
  pose proof (state_has_provenance_fact l s (proj2 (reduce_lineage_reduces_fact _ _) Hr)) as Hprov.
  assert (extends s (positioned signed c s1)) as Hext
    by (by eapply positioned_extends, apply_payload_extends).
  assert (forall ev, connects s ev /\ completes_intent l s ev ->
    connects (positioned signed c s1) ev /\
    completes_intent (l ++ [signed]) (positioned signed c s1) ev) as Hkeep.
  { intros ev [(k&v&w&?&?&?) (i&k'&v'&w'&?&?&?&?&?&?&?&Hm)]. split.
    - exists k, v, w. eauto using version_at_extends.
    - exists i, k', v', w'. split_and!; eauto using version_at_extends.
      intros Hne. destruct (Hm Hne) as (p&acc&a&?&?&?&?). exists p, acc, a. eauto. }
  assert (Forall (λ r, connects (positioned signed c s1) (rec_record r) /\
    completes_intent (l ++ [signed]) (positioned signed c s1) (rec_record r))
    (st_evolutions s)) as Hold by (eapply Forall_impl; [exact IH|auto]).
  assert (st_evolutions s1 = st_evolutions s \/ exists ev,
    la_payload (sl_action signed) = PayloadEvolution ev /\
    st_evolutions s1 = st_evolutions s ++ [Build_ActionRecord c ev]) as Hcase.
  { clear -Hp. payload_inv Hp; auto. right. by eexists. }
  change (st_evolutions (positioned signed c s1)) with (st_evolutions s1).
  destruct Hcase as [->|(ev&E&->)]; [done|].
  apply Forall_app. split; [done|]. apply Forall_singleton. simpl. apply Hkeep.
  unfold apply_payload in Hp. rewrite E in Hp. by eapply apply_evolution_sound.
Qed.

(** ** The projection of version-1 lineages *)

Lemma single_digest_Some (l : list Bytes32) d : l <> [] ->
  single_digest (list_to_set l) = Some d <-> Forall (eq d) l.
Proof.
  intros Hne. unfold single_digest. set (X := list_to_set l : gset Bytes32).
  assert (forall x, x ∈ elements X <-> x ∈ l) as Hel
    by (intros x; unfold X; by rewrite elem_of_elements, elem_of_list_to_set).
  pose proof (NoDup_elements X) as Hnd. rewrite Forall_forall. split.
  - destruct (elements X) as [|y [|z k]]; try done. intros [= ->] x Hx%Hel. set_solver.
  - intros Hall. destruct (elements X) as [|y [|z k]].
    + destruct l as [|x l]; [done|]. assert (x ∈ []) by (apply Hel; by left). set_solver.
    + f_equal. symmetry. apply Hall, Hel. by left.
    + assert (d = y) as <- by (apply Hall, Hel; by left).
      assert (d = z) as <- by (apply Hall, Hel; right; by left).
      apply NoDup_cons in Hnd as [Hn _]. set_solver.
Qed.

(** What [adapt_v1_lineage] makes of the verified lineage [v] of [entries]. *)
Record projects (entries : list entry) (v : VerifiedLineage) (a : AdaptedV1Lineage) : Prop := {
  pj_shot : av_shot_id a = vl_shot_id v;
  pj_controller : av_controller a = vl_builder_id v;
  pj_entries : (λ e, (le_record e, le_signature e)) <$> av_entries a = entries;
  pj_commitments : le_record_commitment <$> av_entries a = ev_commitment <$> vl_evolutions v;
  pj_versions : Forall (λ e, le_version_id e = for_legacy_v1_version (r_shot_id (le_record e))
    (av_expression_id a) (r_sequence (le_record e)) (le_record_commitment e)) (av_entries a);
  pj_intention : forall d, av_intention_commitment a = Some d <->
    Forall (λ e, r_genesis_input_sha256 (fst e) = d) entries;
  pj_unknown : av_intention_availability a = Unknown /\ av_genome_availability a = Unknown;
  pj_head : Some (av_head a) = last (le_record_commitment <$> av_entries a) }.

Lemma adapt_entries_Ok eid entries evs :
  length evs = length entries ->
  (forall k e ev, entries !! k = Some e -> evs !! k = Some ev ->
     record_commitment (fst e) = Ok (ev_commitment ev)) ->
  exists l, adapt_entries eid entries = Ok l /\
    (λ e, (le_record e, le_signature e)) <$> l = entries /\
    le_record_commitment <$> l = ev_commitment <$> evs /\
    Forall (λ e, le_version_id e = for_legacy_v1_version (r_shot_id (le_record e)) eid
      (r_sequence (le_record e)) (le_record_commitment e)) l.
Proof.
  revert evs. induction entries as [|[r sg] entries IH]; intros [|ev evs] Hl Hc; try done.
  { exists []. by split_and!. }
  destruct (IH evs) as (l&Ha&He&Hcs&Hv); [simpl in Hl; lia|intros k; apply (Hc (S k))|].
  pose proof (Hc 0 _ _ eq_refl eq_refl) as Hc0. simpl in Hc0.
  simpl adapt_entries. rewrite Hc0. cbn [mbind Result_bind]. rewrite Ha. eexists.
  split; [done|]. rewrite !fmap_cons, He, Hcs. split_and!; [done..|]. by constructor.
Qed.

(** The projection of a version-1 lineage is total on verified lineages and
    loses nothing: it keeps every record and sidecar unchanged and in order with
    the verified commitments, derives each VersionID from them, reports the
    intention commitment exactly when all records carry the same genesis
    digest, claims nothing about genomes, and ends at the verified head. *)
Theorem adapt_v1_lineage_faithful (entries : list entry) (v : VerifiedLineage)
    (Hv : verify_lineage entries = Ok v) :
  exists a, adapt_v1_lineage entries = Ok a /\ projects entries v a.
Proof.
  pose proof (proj1 (verify_lineage_spec_fact _ _) Hv) as [(g&Hg&_&_&_&_&_&Hs) Hl _ _].
  destruct entries as [|[r sg] rest]; [done|].
  destruct (adapt_entries_Ok (for_legacy_v1_expression (r_shot_id r) (r_bundle_id r))
    ((r, sg) :: rest) (vl_evolutions v) Hl) as (l&Ha&He&Hc&Hf).
  { intros k e ev Hk Hev. apply (so_commitment _ _ _ _ _ (Hs k e ev Hk Hev)). }
  assert (exists h, vl_head v = Some h) as [h Hh].
  { unfold vl_head. destruct (vl_evolutions v) as [|x l'] using rev_ind; [done|].
    rewrite last_snoc. by eexists. }
  unfold adapt_v1_lineage. rewrite Hv. cbn [mbind Result_bind]. rewrite Ha, Hh.
  cbn [mbind Result_bind ok_or]. eexists. split; [done|].
  constructor; cbn [av_shot_id av_controller av_entries av_expression_id
    av_intention_commitment av_head av_intention_availability av_genome_availability]; try done.
  - intros d. rewrite (single_digest_Some (_ <$> (r, sg) :: rest)) by done. rewrite Forall_fmap.
    apply Forall_iff. intros x. simpl. by split.
  - rewrite Hc, fmap_last. unfold vl_head in Hh. by rewrite Hh.
Qed.
End authority.
