(* ===== verification/Story.v ===== *)
(** * A concrete Shot

    One signed history on the toy platform that uses every payload: a founding
    commitment, an intention, two genomes, an expression with three organs, two
    verified versions, feedback, an evolution, a token, a parent and a change of
    controller. It shows that the hypotheses of the properties can hold. *)
From S2P Require Import Prelude Text Digest Keys Records Evolution Ontology Lineage Reduction Authority.

#[local] Existing Instance Toy.platform.

Definition unwrap {A} (d : A) (r : result A) : A := match r with Ok x => x | Err _ => d end.

Definition at_second (n : Z) : CanonicalTimestamp :=
  {| ts_str := "2026-01-01T00:00:" +:+ (if (n <? 10)%Z then "0" else "") +:+ pretty n +:+ "Z" |}.

Definition alice : BuilderId := {| account := MkAddress20 (filled 20 17) |}.
Definition bob : BuilderId := {| account := MkAddress20 (filled 20 34) |}.
Definition alice_key : P256PublicKey := {| key_x := filled 32 1; key_y := filled 32 2 |}.
Definition bob_key : P256PublicKey := {| key_x := filled 32 3; key_y := filled 32 4 |}.
Definition shot : ShotId := MkShotId (filled 32 90).
Definition expr : ExpressionId := MkExpressionId (filled 32 91).

(** The next signed action after [prior]. *)
Definition act (prior : list SignedLineageAction) (actor : BuilderId) (key : P256PublicKey)
    (payload : Bytes32 -> CanonicalTimestamp -> LineagePayload) : list SignedLineageAction :=
  let n := Z.of_nat (S (length prior)) in
  let previous := match last prior with
    | Some s => Some (unwrap ZERO (action_commitment (sl_action s))) | None => None end in
  let handling := match payload ZERO (at_second n) with
    | PayloadFeedback f => visibility_handling (fb_visibility f) | _ => PubliclyAvailable end in
  match action_new n previous shot actor (at_second n) handling
          (payload (default ZERO previous) (at_second n)) with
  | Ok action =>
      match attach_signature action key
              {| sig_r := unwrap ZERO (signing_digest action); sig_s := filled 32 1 |} with
      | Ok signed => prior ++ [signed]
      | Err _ => prior
      end
  | Err _ => prior
  end.

(** The commitment of the [n]-th action (from 1). *)
Definition nth_commitment (history : list SignedLineageAction) (n : nat) : Bytes32 :=
  match history !! pred n with
  | Some s => unwrap ZERO (action_commitment (sl_action s)) | None => ZERO end.

Definition some_bytes (d : Bytes32) : ArtifactAvailability :=
  availability_new {| ad_digest := d; ad_media_type := "application/json"; ad_byte_length := 10;
                      ad_name := None |} PubliclyAvailable.

Definition words : string := "keep it small".
Definition intention : IntentionRecord :=
  intention_new
    [{| om_artifact := availability_new
          {| ad_digest := sha256 (bytes_of words); ad_media_type := "text/plain";
             ad_byte_length := Z.of_nat (len words); ad_name := None |} LocallyAvailable;
        om_inline_text := Some words |}] (at_second 1).

Definition genome (n : Z) : Genome := {|
  gn_schema := GENOME_SCHEMA; gn_revision := n; gn_purpose := "a small tool";
  gn_intended_for := ["makers"]; gn_essential_experience := ["calm"];
  gn_behavioral_invariants := ["never loses data"]; gn_interaction_laws := [];
  gn_aesthetic_principles := []; gn_privacy_principles := ["local first"];
  gn_ownership_principles := ["owner decides"]; gn_platform_commitments := [];
  gn_boundaries := []; gn_non_goals := []; gn_required_capabilities := [];
  gn_forbidden_transformations := ["no tracking"]; gn_acceptance_principles := ["tests pass"];
  gn_freely_changeable := if (n =? 1)%Z then [] else ["colors"] |}.
Definition digest_of_genome (n : Z) : Bytes32 := unwrap ZERO (genome_digest (genome n)).

Definition organ (id : string) (dependencies : list string) : Organ := {|
  og_schema := ORGAN_SCHEMA; og_expression_id := expr; og_organ_id := id;
  og_provides := ["part " +:+ id]; og_owns_state := []; og_permissions := [];
  og_dependencies := dependencies; og_emits := []; og_consumes := [];
  og_satisfies_genome_constraints := ["never loses data"]; og_acceptance_tests := ["works"];
  og_platforms := ["ios"] |}.

Definition organs (n : Z) : list Organ :=
  [organ "core" []; organ "sync" ["core"]] ++ (if (n =? 1)%Z then [] else [organ "ui" ["core"]]).
Definition graph_digest (n : Z) : Bytes32 := unwrap ZERO (capability_graph_digest (organs n)).
Definition version_id (n : Z) : VersionId :=
  derive_version_id shot expr n (digest_of_genome n) (filled 32 (100 + n)).

Definition verification (n : Z) : VerificationResult := {|
  vs_schema := VERIFICATION_RESULT_SCHEMA; vs_expression_id := expr;
  vs_candidate_version_id := version_id n; vs_genome_revision := n;
  vs_genome_digest := digest_of_genome n; vs_source_digest := filled 32 (100 + n);
  vs_capability_graph_digest := graph_digest n;
  vs_gates := (λ o, {| vg_name := unwrap "" (organ_acceptance_gate_name o 0); vg_passed := true;
                       vg_deterministic := true; vg_evidence := None |}) <$> organs n;
  vs_passed := true; vs_known_incompleteness := []; vs_verified_at := at_second 8 |}.

Definition version (n : Z) (verified : Bytes32) : VersionRecord := {|
  vr_schema := VERSION_SCHEMA; vr_version_id := version_id n; vr_expression_id := expr;
  vr_ordinal := n; vr_genome_revision := n; vr_genome_digest := digest_of_genome n;
  vr_source_digest := filled 32 (100 + n);
  vr_provenance := {| mp_factory := "menlo"; mp_factory_version := "1";
    mp_factory_source_commit := None; mp_template_digest := filled 32 5;
    mp_input_action := filled 32 6; mp_deterministic := true |};
  vr_capability_graph_digest := graph_digest n; vr_verification_action := verified;
  vr_known_incompleteness := []; vr_build_identity := Some "build"; vr_build_digest := None;
  vr_accepted_at := at_second 9 |}.

Definition proposal (n : Z) : GenomeProposal :=
  if (n =? 1)%Z then proposal_initial (genome 1) "the first genome"
  else {| gp_schema := GENOME_PROPOSAL_SCHEMA; gp_base_revision := Some 1%Z;
          gp_base_genome_digest := Some (digest_of_genome 1); gp_proposed := genome 2;
          gp_rationale := "colors may change"; gp_mutation_summary := ["colors"] |}.
Definition acceptance (n : Z) (proposed : Bytes32) (t : CanonicalTimestamp) : GenomeAcceptance :=
  {| ga_schema := GENOME_ACCEPTANCE_SCHEMA; ga_proposal_action := proposed; ga_revision := n;
     ga_genome_digest := digest_of_genome n; ga_accepted_at := t |}.
Definition token (op : TokenAssociationOperation) : TokenAssociation :=
  {| ta_schema := TOKEN_ASSOCIATION_SCHEMA; ta_operation := op; ta_chain_id := 4663;
     ta_token := MkAddress20 (filled 20 51); ta_symbol := Some "SHOT"; ta_anchor := None |}.

Definition by_alice prior payload := act prior alice alice_key payload.
Definition by_bob prior payload := act prior bob bob_key payload.

(** From the commitment to the first version. *)
Definition first_version : list SignedLineageAction :=
  let h := by_alice [] (λ _ t, PayloadCommitment (commitment_new
             (unwrap ZERO (intention_commitment intention)) alice alice_key t)) in
  let h := by_alice h (λ _ _, PayloadIntention intention) in
  let h := by_alice h (λ _ _, PayloadGenomeProposal (proposal 1)) in
  let h := by_alice h (λ proposed t, PayloadGenomeAcceptance (acceptance 1 proposed t)) in
  let h := by_alice h (λ _ _, PayloadExpression {| ex_schema := EXPRESSION_SCHEMA;
             ex_expression_id := expr; ex_kind := "app"; ex_name := "Tool";
             ex_platforms := ["ios"]; ex_genome_revision := 1;
             ex_genome_digest := digest_of_genome 1; ex_definition := some_bytes (filled 32 7) |}) in
  let h := by_alice h (λ _ _, PayloadOrgan (organ "core" [])) in
  let h := by_alice h (λ _ _, PayloadOrgan (organ "sync" ["core"])) in
  let h := by_alice h (λ _ _, PayloadVerificationResult (verification 1)) in
  by_alice h (λ verified _, PayloadVersion (version 1 verified)).

(** From feedback to the evolution into the second version. *)
Definition second_version : list SignedLineageAction :=
  let h := by_alice first_version (λ _ t, PayloadFeedback {| fb_schema := FEEDBACK_SCHEMA;
             fb_expression_id := expr; fb_version_id := version_id 1;
             fb_build_identity := Some "build"; fb_author := None; fb_visibility := Private;
             fb_text := Some "needs a screen"; fb_observations := []; fb_attachments := [];
             fb_observed_at := t |}) in
  let feedback := nth_commitment h 10 in
  let h := by_alice h (λ _ _, PayloadGenomeProposal (proposal 2)) in
  let proposed := nth_commitment h 11 in
  let h := by_alice h (λ _ _, PayloadEvolutionaryIntent {| ei_schema := EVOLUTIONARY_INTENT_SCHEMA;
             ei_expression_id := expr; ei_from_version_id := version_id 1;
             ei_preserved_invariants := ["never loses data"];
             ei_desired_changes := [{| dc_scope := ScopeGenome; dc_description := "colors" |};
                                    {| dc_scope := ScopeOrgan; dc_description := "a screen" |}];
             ei_feedback_actions := [feedback]; ei_references := [];
             ei_proposed_genome_action := Some proposed |}) in
  let intent := nth_commitment h 12 in
  let h := by_alice h (λ _ t, PayloadGenomeAcceptance (acceptance 2 proposed t)) in
  let accepted := nth_commitment h 13 in
  let h := by_alice h (λ _ _, PayloadOrgan (organ "ui" ["core"])) in
  let h := by_alice h (λ _ _, PayloadVerificationResult (verification 2)) in
  let h := by_alice h (λ verified _, PayloadVersion (version 2 verified)) in
  by_alice h (λ _ t, PayloadEvolution {| eo_schema := EVOLUTION_SCHEMA;
             eo_evolutionary_intent_action := intent; eo_expression_id := expr;
             eo_from_version_id := version_id 1; eo_to_version_id := version_id 2;
             eo_from_genome_digest := digest_of_genome 1;
             eo_to_genome_digest := digest_of_genome 2;
             eo_genome_acceptance_action := Some accepted;
             eo_preserved_invariants := ["never loses data"]; eo_completed_at := t |}).

(** A token, an observation, a parent, and the handover to Bob. *)
Definition story : list SignedLineageAction :=
  let h := by_alice second_version (λ _ _, PayloadTokenAssociation (token Associate)) in
  let h := by_alice h (λ _ t, PayloadArtifactAvailability {| ar_target_role := "definition";
             ar_availability := some_bytes (filled 32 7); ar_observed_at := t |}) in
  let h := by_alice h (λ _ _, PayloadParentRelation {| pr_schema := PARENT_RELATION_SCHEMA;
             pr_parent_shot_id := MkShotId (filled 32 92); pr_parent_head := filled 32 93;
             pr_child_shot_id := shot; pr_relation := Fork; pr_parent_authorization := None |}) in
  let h := by_alice h (λ _ t, PayloadOwnership {| ow_schema := OWNERSHIP_SCHEMA;
             ow_previous_controller := alice; ow_new_controller := bob;
             ow_new_controller_key := bob_key; ow_reason := "sold"; ow_effective_at := t |}) in
  by_bob h (λ _ _, PayloadTokenAssociation (token Remove)).

(** ** What is evaluated *)

(** [history] reduces, it has 22 actions, its 13th accepts a genome, its eighth
    verifies an expression that declares an organ with a test, and in the end
    Bob controls the Shot and one evolution is recorded. *)
Definition checks_acceptance (signed : option SignedLineageAction) : bool :=
  is_some_and is_acceptance signed.

Definition checks_verification (s : ShotState) (signed : SignedLineageAction) : bool :=
  match la_payload (sl_action signed) with
  | PayloadVerificationResult r =>
      is_some_and (λ e, is_some_and (λ o, (0 <? length (og_acceptance_tests o))%nat
          && is_ok (organ_acceptance_gate_name o 0) && is_ok (apply_one s signed))
        (es_organs e !! "sync")) (st_expressions s !! vs_expression_id r)
  | _ => false
  end.

Definition checks_final (s : ShotState) : bool :=
  (st_controller s == bob) && (length (st_evolutions s) =? 1)%nat
  && opt_is_some (st_expressions s !! expr).

Definition checks (history : list SignedLineageAction) (at_seven final : result ShotState)
    : bool :=
  (length history =? 22)%nat && checks_acceptance (history !! 12)
  && match at_seven with
     | Ok s => is_some_and (checks_verification s) (history !! 7)
     | Err _ => false
     end
  && match final with Ok s => checks_final s | Err _ => false end.

Lemma story_evaluates :
  checks story (reduce_lineage (take 7 story)) (reduce_lineage story) = true.
Proof. vm_compute. reflexivity. Qed.


(** From here on the story is only known through [story_evaluates]. *)
#[local] Opaque story.

Lemma checks_inv history at_seven final : checks history at_seven final = true ->
  length history = 22 /\ checks_acceptance (history !! 12) = true /\
  (exists s signed, at_seven = Ok s /\ history !! 7 = Some signed /\
     checks_verification s signed = true) /\
  exists s, final = Ok s /\ checks_final s = true.
Proof.
  unfold checks. intros Hc. res_inv. split_and!; [by apply Nat.eqb_eq|done| |].
  - destruct at_seven as [s|]; [|done]. destruct (history !! 7) as [x|]; [|done]. by exists s, x.
  - destruct final as [s|]; [|done]. by exists s.
Qed.

Lemma story_reduces : exists s, reduce_lineage story = Ok s /\ checks_final s = true.
Proof. apply (checks_inv _ _ _ story_evaluates). Qed.

Lemma prefix_reduces (l : list SignedLineageAction) n s' :
  0 < n <= length l -> reduce_lineage l = Ok s' -> exists s, reduce_lineage (take n l) = Ok s.
Proof.
  intros Hn Hs'. rewrite <- (take_drop n l) in Hs'.
  destruct (reduce_prefix (take n l) (drop n l) s') as (s&Hs&_); [|done|by exists s].
  destruct l, n; simpl in *; first [lia|done].
Qed.

Lemma story_prefix n : 0 < n <= 22 -> exists s, reduce_lineage (take n story) = Ok s.
Proof.
  intros Hn. destruct story_reduces as (s'&Hs'&_).
  destruct (checks_inv _ _ _ story_evaluates) as [Hl _].
  apply (prefix_reduces _ _ s'); [by rewrite Hl|exact Hs'].
Qed.

Lemma split_at_9 : exists s s', reduce_lineage (take 9 story) = Ok s /\
  reduce_lineage (take 9 story ++ drop 9 story) = Ok s'.
Proof.
  destruct (story_prefix 9) as [s Hs]; [lia|]. destruct story_reduces as (s'&Hs'&_).
  exists s, s'. rewrite take_drop. split; [exact Hs|exact Hs'].
Qed.

Lemma reduction_append_only_witness : exists s s',
  reduce_lineage (take 9 story) = Ok s /\
  reduce_lineage (take 9 story ++ drop 9 story) = Ok s' /\
  (extends s s' /\ st_sequence s = Z.of_nat (length (take 9 story)) /\
   st_sequence s' = Z.of_nat (length (take 9 story) + length (drop 9 story))).
Proof.
  destruct split_at_9 as (s&s'&Hs&Hs'). exists s, s'.
  split; [exact Hs|]. split; [exact Hs'|]. exact (reduction_append_only _ _ _ _ Hs Hs').
Defined.

Lemma apply_lineage_actions_continues_witness : exists s s' r,
  reduce_lineage (take 9 story) = Ok s /\
  apply_lineage_actions s (drop 9 story) = (s', r) /\
  match r with
  | Ok _ => reduce_lineage (take 9 story ++ drop 9 story) = Ok s'
  | Err _ => s' = s /\ forall s'', reduce_lineage (take 9 story ++ drop 9 story) <> Ok s''
  end.
Proof.
  destruct (story_prefix 9) as [s Hs]; [lia|].
  destruct (apply_lineage_actions s (drop 9 story)) as [s' r] eqn:Ha. exists s, s', r.
  split; [exact Hs|]. split; [exact Ha|].
  exact (apply_lineage_actions_continues _ _ _ _ _ Hs Ha).
Defined.

Lemma only_the_controller_acts_witness : exists s, reduce_lineage story = Ok s /\
  (controller_after story = Some (st_controller s, st_controller_key s) /\
   forall k signed, story !! k = Some signed ->
     acts_as (controller_after (take (Nat.max 1 k) story)) signed).
Proof.
  destruct story_reduces as (s&Hs&_). exists s. split; [exact Hs|].
  exact (only_the_controller_acts _ _ Hs).
Defined.

Lemma acceptance_at (l : list SignedLineageAction) :
  checks_acceptance (l !! 12) = true ->
  (exists s, reduce_lineage (take 12 l) = Ok s) -> (exists s, reduce_lineage (take 13 l) = Ok s) ->
  exists signed a s s', la_payload (sl_action signed) = PayloadGenomeAcceptance a /\
    reduce_lineage (take 12 l) = Ok s /\ reduce_lineage (take 12 l ++ [signed]) = Ok s'.
Proof.
  intros Ha [s Hs] [s' Hs']. destruct (l !! 12) as [signed|] eqn:Hl; [|done].
  unfold checks_acceptance, is_acceptance in Ha. simpl in Ha.
  destruct (la_payload (sl_action signed)) as [| | |a| | | | | | | | | | |] eqn:Hp; try done.
  exists signed, a, s, s'. rewrite <- (take_S_r _ _ _ Hl). by split_and!.
Qed.

Lemma story_accepts : exists signed a s s',
  la_payload (sl_action signed) = PayloadGenomeAcceptance a /\
  reduce_lineage (take 12 story) = Ok s /\
  reduce_lineage (take 12 story ++ [signed]) = Ok s'.
Proof.
  apply acceptance_at; [apply (checks_inv _ _ _ story_evaluates)|apply story_prefix; lia..].
Qed.

Lemma genome_acceptance_swaps_base_witness : exists signed a s s',
  reduce_lineage (take 12 story) = Ok s /\
  reduce_lineage (take 12 story ++ [signed]) = Ok s' /\
  la_payload (sl_action signed) = PayloadGenomeAcceptance a /\
  exists p, st_genome_proposals s !! ga_proposal_action a = Some p /\
    ag_genome <$> st_accepted_genome s' = Some (gp_proposed p) /\
    gn_revision (gp_proposed p)
      = Z.of_nat (length (List.filter is_acceptance (take 12 story ++ [signed]))) /\
    match st_accepted_genome s with
    | Some base => gp_base_revision p = Some (gn_revision (ag_genome base)) /\
        exists digest, gp_base_genome_digest p = Some digest /\
          genome_digest (ag_genome base) = Ok digest
    | None => gp_base_revision p = None /\ gp_base_genome_digest p = None
    end.
Proof.
  destruct story_accepts as (signed&a&s&s'&Hp&Hs&Hs'). exists signed, a, s, s'.
  split; [exact Hs|]. split; [exact Hs'|]. split; [exact Hp|].
  exact (genome_acceptance_swaps_base _ _ _ _ _ Hs Hs' Hp).
Defined.

Lemma organ_graph_sound_witness : exists s e, reduce_lineage story = Ok s /\
  st_expressions s !! expr = Some e /\
  ((forall id o, es_organs e !! id = Some o ->
      og_organ_id o = id /\ og_expression_id o = expr /\ organ_validate o = Ok tt) /\
   (forall id d, depends_on (es_organs e) id d -> is_Some (es_organs e !! d)) /\
   (forall id, ~ tc (depends_on (es_organs e)) id id) /\
   capability_graph_digest (organ_values (es_organs e))
     = sha256_commitment (organ_values (es_organs e))).
Proof.
  destruct story_reduces as (s&Hs&Hf). unfold checks_final in Hf.
  apply andb_true_iff in Hf as [_ Hf].
  destruct (st_expressions s !! expr) as [e|] eqn:He; [|discriminate Hf].
  exists s, e. split; [exact Hs|]. split; [exact He|].
  exact (organ_graph_sound _ _ _ _ Hs He).
Defined.

Lemma accepted_versions_sound_witness : exists s, reduce_lineage story = Ok s /\
  ((forall eid k v, version_at s eid k v ->
      vr_expression_id v = eid /\ vr_ordinal v = Z.of_nat (S k) /\
      vr_version_id v = derive_version_id (st_shot_id s) eid (Z.of_nat (S k))
                          (vr_genome_digest v) (vr_source_digest v) /\
      verified_before story v) /\
   (forall eid e, st_expressions s !! eid = Some e ->
      es_current_version e = vr_version_id <$> last (es_versions e)) /\
   (forall eid eid' k k' v v', version_at s eid k v -> version_at s eid' k' v' ->
      vr_version_id v = vr_version_id v' -> eid = eid' /\ k = k')).
Proof.
  destruct story_reduces as (s&Hs&_). exists s. split; [exact Hs|].
  exact (accepted_versions_sound _ _ Hs).
Defined.

Lemma story_verifies : exists s signed s' r e o gate_name,
  apply_one s signed = Ok s' /\ la_payload (sl_action signed) = PayloadVerificationResult r /\
  st_expressions s !! vs_expression_id r = Some e /\ (exists id, es_organs e !! id = Some o) /\
  0 < length (og_acceptance_tests o) /\ organ_acceptance_gate_name o 0 = Ok gate_name.
Proof.
  destruct (checks_inv _ _ _ story_evaluates) as (_&_&(s&x&_&_&Hx)&_).
  unfold checks_verification in Hx.
  destruct (la_payload (sl_action x)) as [| | | | | |r| | | | | | | |] eqn:Hp; try done.
  destruct (st_expressions s !! vs_expression_id r) as [e|] eqn:He; [|done]. simpl in Hx.
  destruct (es_organs e !! "sync") as [o|] eqn:Ho; [|done]. unfold is_some_and in Hx.
  apply andb_true_iff in Hx as [[Hl Hg]%andb_true_iff Ha].
  destruct (organ_acceptance_gate_name o 0) as [n|] eqn:Hn; [|done].
  destruct (apply_one s x) as [s'|] eqn:Hs'; [|done].
  exists s, x, s', r, e, o, n. apply Nat.ltb_lt in Hl. split_and!; eauto.
Qed.

Lemma verification_covers_organs_witness : exists s signed s' r e o gate_name,
  apply_one s signed = Ok s' /\ la_payload (sl_action signed) = PayloadVerificationResult r /\
  st_expressions s !! vs_expression_id r = Some e /\ (exists id, es_organs e !! id = Some o) /\
  0 < length (og_acceptance_tests o) /\ organ_acceptance_gate_name o 0 = Ok gate_name /\
  exists gate, gate ∈ vs_gates r /\ vg_name gate = gate_name /\
    (vs_passed r = true -> vg_passed gate = true).
Proof.
  destruct story_verifies as (s&x&s'&r&e&o&n&Hs'&Hp&He&Ho&Hl&Hn).
  exists s, x, s', r, e, o, n. do 6 (split; [assumption|]).
  exact (verification_covers_organs _ _ _ _ _ _ _ _ Hs' Hp He Ho Hl Hn).
Defined.

Lemma journals_are_history_witness : exists s, reduce_lineage story = Ok s /\
  (st_evolutions s = journal as_evolution story /\
   st_ownership_history s = journal as_ownership story /\
   st_token_history s = journal as_token story /\
   st_parent_relations s = journal as_parent story /\
   st_token_association s = token_replay (rec_record <$> st_token_history s)).
Proof.
  destruct story_reduces as (s&Hs&_). exists s. split; [exact Hs|].
  exact (journals_are_history _ _ Hs).
Defined.

Lemma parents_unique_witness : exists s, reduce_lineage story = Ok s /\
  (NoDup ((λ r, pr_parent_shot_id (rec_record r)) <$> st_parent_relations s) /\
   Forall (λ r, pr_child_shot_id (rec_record r) = st_shot_id s /\
                parent_validate (rec_record r) = Ok tt) (st_parent_relations s)).
Proof.
  destruct story_reduces as (s&Hs&_). exists s. split; [exact Hs|].
  exact (parents_unique _ _ Hs).
Defined.

Lemma state_has_provenance_witness : exists s, reduce_lineage story = Ok s /\
  provenance story s.
Proof.
  destruct story_reduces as (s&Hs&_). exists s. split; [exact Hs|].
  exact (state_has_provenance _ _ Hs).
Defined.

Lemma evolutions_sound_witness : exists s, reduce_lineage story = Ok s /\
  st_evolutions s <> [] /\
  Forall (λ r, connects s (rec_record r) /\ completes_intent story s (rec_record r))
    (st_evolutions s).
Proof.
  destruct story_reduces as (s&Hs&Hf). exists s. split; [exact Hs|]. split.
  - unfold checks_final in Hf. intros Hn. rewrite Hn in Hf. simpl in Hf.
    by rewrite andb_false_r in Hf.
  - exact (evolutions_sound _ _ Hs).
Defined.

Lemma verify_lineage_segment_split_witness : exists lx,
  last (take 9 story) = Some lx /\ drop 9 story <> [] /\
  forall v, verify_lineage_segment (take 9 story ++ drop 9 story) None = Ok v <->
  exists v1 v2, verify_lineage_segment (take 9 story) None = Ok v1 /\
    verify_lineage_segment (drop 9 story) (Some (anchor_after lx (seg_head v1))) = Ok v2 /\
    v = {| seg_shot_id := seg_shot_id v1; seg_first_sequence := seg_first_sequence v1;
           seg_last_sequence := seg_last_sequence v2; seg_head := seg_head v2;
           seg_complete_from_commitment := seg_complete_from_commitment v1;
           seg_authority_context_available := seg_authority_context_available v1 |}.
Proof.
  destruct (story_prefix 9) as [s Hs]; [lia|].
  destruct (reduces_stands_after _ _ (proj1 (reduce_lineage_reduces_fact _ _) Hs)) as (lx&Hlx&_).
  assert (drop 9 story <> []) as Hne.
  { intros E. destruct (checks_inv _ _ _ story_evaluates) as [Hl _].
    apply (f_equal length) in E. rewrite length_drop, Hl in E. discriminate E. }
  exists lx. split; [exact Hlx|]. split; [exact Hne|]. intros v.
  exact (verify_lineage_segment_split _ _ _ None v Hlx Hne).
Defined.

Lemma collision_free_single (l : list SignedLineageAction) : length l <= 1 ->
  collision_free action_commitment (sl_action <$> l) (sl_action <$> l).
Proof.
  destruct l as [|x [|y l]]; simpl; intros Hl a b Ha Hb _; [|set_solver|lia].
  by apply elem_of_nil in Ha.
Qed.

Lemma segment_head_binds_history_witness : exists v,
  verify_lineage_segment (take 1 story) None = Ok v /\
  seg_complete_from_commitment v = true /\
  collision_free action_commitment (sl_action <$> take 1 story) (sl_action <$> take 1 story) /\
  sl_action <$> take 1 story = sl_action <$> take 1 story.
Proof.
  destruct (story_prefix 1) as [s Hs]; [lia|].
  destruct (reduce_segment _ _ Hs) as (v&Hv&Hc). exists v.
  assert (Hcf := collision_free_single (take 1 story) ltac:(rewrite length_take; lia)).
  split; [exact Hv|]. split; [exact Hc|]. split; [exact Hcf|].
  exact (segment_head_binds_history _ _ _ _ Hv Hv Hc Hc eq_refl Hcf).
Defined.

(** ** A version-1 lineage *)

Definition shot_record (n : Z) (previous : option Bytes32) : ShotRecord := {|
  r_protocol := PROTOCOL_NAME; r_schema := SHOT_SCHEMA; r_shot_id := shot; r_slug := "tool";
  r_builder_id := alice; r_sequence := n; r_previous := previous; r_fascia := APPLE_FASCIA_ID;
  r_bundle_id := "com.example.tool"; r_bundle_version := n;
  r_genesis_input_sha256 := filled 32 8; r_source_tree_sha256 := filled 32 (110 + n);
  r_fascia_sha256 := filled 32 9;
  r_factory := {| implementation := "menlo"; factory_version := "1";
    source_commit := "0123456789012345678901234567890123456789" |};
  r_created_at := at_second n; r_origin := None |}.

Definition with_sidecar (r : ShotRecord) : entry :=
  (r, let digest := unwrap ZERO (record_commitment r) in
      {| sidecar_schema := SIDECAR_SCHEMA; sidecar_algorithm := P256; sidecar_digest := digest;
         public_key := alice_key;
         sidecar_signature := {| sig_r := digest; sig_s := filled 32 1 |}; low_s := true |}).

Definition first_record : ShotRecord := shot_record 1 None.
Definition v1_lineage : list entry :=
  [with_sidecar first_record;
   with_sidecar (shot_record 2 (Some (unwrap ZERO (record_commitment first_record))))].

Lemma v1_evaluates : is_ok (verify_lineage v1_lineage) = true.
Proof. vm_compute. reflexivity. Qed.

Lemma v1_distinct : NoDup (record_commitment <$> (fst <$> v1_lineage)).
Proof. apply (bool_decide_unpack _). vm_compute. exact I. Qed.

Lemma v1_split : v1_lineage = take 1 v1_lineage ++ drop 1 v1_lineage /\ take 1 v1_lineage <> [].
Proof. split; [symmetry; apply take_drop|discriminate]. Qed.
#[local] Opaque v1_lineage.

Lemma v1_verified : exists v, verify_lineage v1_lineage = Ok v.
Proof.
  pose proof v1_evaluates as Hv. destruct (verify_lineage v1_lineage) as [v|e]; [by exists v|done].
Qed.

Lemma lineage_head_binds_history_witness : exists v,
  verify_lineage v1_lineage = Ok v /\
  ev_commitment <$> vl_head v = ev_commitment <$> vl_head v /\
  collision_free record_commitment (fst <$> v1_lineage) (fst <$> v1_lineage) /\
  fst <$> v1_lineage = fst <$> v1_lineage.
Proof.
  destruct v1_verified as [v Hv]. exists v.
  assert (Hcf := NoDup_collision_free record_commitment _ v1_distinct).
  split; [exact Hv|]. split; [exact eq_refl|]. split; [exact Hcf|].
  exact (lineage_head_binds_history _ _ _ _ Hv Hv eq_refl Hcf).
Defined.

Lemma verify_lineage_prefix_witness : exists v,
  take 1 v1_lineage <> [] /\
  verify_lineage (take 1 v1_lineage ++ drop 1 v1_lineage) = Ok v /\
  verify_lineage (take 1 v1_lineage) = Ok {| vl_shot_id := vl_shot_id v;
    vl_builder_id := vl_builder_id v; vl_root_sequence := vl_root_sequence v;
    vl_legacy_latest_shot := vl_legacy_latest_shot v;
    vl_evolutions := take (length (take 1 v1_lineage)) (vl_evolutions v) |}.
Proof.
  destruct v1_verified as [v Hv], v1_split as [Hs Hne]. rewrite Hs in Hv. exists v.
  split; [exact Hne|]. split; [exact Hv|]. exact (verify_lineage_prefix _ _ _ Hne Hv).
Defined.

Lemma adapt_v1_lineage_faithful_witness : exists v, verify_lineage v1_lineage = Ok v /\
  exists a, adapt_v1_lineage v1_lineage = Ok a /\ projects v1_lineage v a.
Proof.
  destruct v1_verified as [v Hv]. exists v. split; [exact Hv|].
  exact (adapt_v1_lineage_faithful _ _ Hv).
Defined.

(** ** Witnesses for the ontology *)

Lemma graph_evaluates : is_ok (capability_graph_digest (organs 2)) = true.
Proof. vm_compute. reflexivity. Qed.

Lemma capability_graph_order_independent_witness : exists digest,
  organs 2 ≡ₚ rev (organs 2) /\ capability_graph_digest (organs 2) = Ok digest /\
  capability_graph_digest (rev (organs 2)) = Ok digest.
Proof.
  pose proof graph_evaluates as Hd.
  destruct (capability_graph_digest (organs 2)) as [digest|e] eqn:E; [|discriminate Hd].
  assert (Hp : organs 2 ≡ₚ rev (organs 2)) by (apply Permutation_rev).
  exists digest. split; [exact Hp|]. split; [exact eq_refl|].
  exact (capability_graph_order_independent _ _ _ Hp E).
Defined.

Lemma intention_material_bound_witness : intention_validate intention = Ok tt /\
  (NoDup ((λ m, ad_digest (aa_artifact (om_artifact m))) <$> in_materials intention) /\
   Forall (λ m, forall text, om_inline_text m = Some text ->
     sha256 (bytes_of text) = ad_digest (aa_artifact (om_artifact m)) /\
     Z.of_nat (len text) = ad_byte_length (aa_artifact (om_artifact m)) /\
     absent_or_unknown (aa_status (om_artifact m)) = false) (in_materials intention)).
Proof.
  assert (Hv : intention_validate intention = Ok tt) by (vm_compute; reflexivity).
  split; [exact Hv|]. exact (intention_material_bound _ Hv).
Defined.
