(* ===== verification/NodeModel.v ===== *)
(** * The node: validated actions and their classification

    [node/src/error.rs], [node/src/model.rs], [node/src/protocol_adapter.rs] and
    the classification half of [node/src/store.rs]: what a node accepts as a
    public action, and what it says about an action given the actions it holds. *)
From S2P Require Import Prelude Text Digest Keys Records Ontology Lineage Reduction.

Definition MAX_ACTION_BYTES : nat := Z.to_nat 262144.
Definition MAX_ACTIONS_PER_NODE : nat := Z.to_nat 100000.
Definition MAX_ACTIONS_PER_SHOT : nat := Z.to_nat 10000.
Definition MAX_INTEGRITY_PARENT_FINDINGS : nat := 1024.

(** ** Errors *)

Inductive NodeError : Type :=
  | NodeIo (message : string)
  | NodeJson (message : string)
  | NodeProtocol (message : string)
  | UnsafeStorage (path : string)
  | ActionTooLarge (limit : nat)
  | ActionLimit (limit : nat)
  | NotPublic
  | ContentCollision
  | ActionMissing (digest : string)
  | ShotMissing (shot : string)
  | Causal (reason : string)
  | InvalidPeer (url : string)
  | PeerResponseTooLarge (limit : nat)
  | PeerResponse (reason : string)
  | PeerRequest (reason : string)
  | PeerLimit (limit : nat)
  | SyncInProgress
  | LockPoisoned.

Abbreviation node_result := (Result NodeError).

Definition display_node_error (e : NodeError) : string :=
  match e with
  | NodeIo m => "I/O error: " +:+ m
  | NodeJson m => "JSON error: " +:+ m
  | NodeProtocol m => "protocol error: " +:+ m
  | UnsafeStorage p => "unsafe storage path: " +:+ p
  | ActionTooLarge n => "action exceeds the " +:+ pretty n +:+ "-byte limit"
  | ActionLimit n => "node action limit of " +:+ pretty n +:+ " reached"
  | NotPublic => "private or local-only actions are not accepted for replication"
  | ContentCollision => "lineage action already exists with different bytes"
  | ActionMissing d => "lineage action " +:+ d +:+ " is not available"
  | ShotMissing s => "Shot " +:+ s +:+ " is not available"
  | Causal r => "invalid causal lineage: " +:+ r
  | InvalidPeer u => "invalid peer URL: " +:+ u
  | PeerResponseTooLarge n => "peer response exceeds the " +:+ pretty n +:+ "-byte limit"
  | PeerResponse r => "peer returned an invalid response: " +:+ r
  | PeerRequest r => "peer request failed: " +:+ r
  | PeerLimit n => "configured peer limit of " +:+ pretty n +:+ " exceeded"
  | SyncInProgress => "a sync is already in progress"
  | LockPoisoned => "internal state lock is poisoned"
  end.

(** [impl From<ProtocolError> for NodeError] *)
Definition from_protocol {T} (r : result T) : node_result T :=
  map_err (λ e, NodeProtocol (display_error e)) r.

(** ** The model of a validated action *)

Inductive SignedRecordStatus : Type := RecordVerified.
Inductive SegmentStatus : Type := SegmentVerified | SegmentRejected.
Inductive AuthorityStatus : Type := AuthorityVerified | AuthorityUnresolved | AuthorityRejected.
#[export] Instance SignedRecordStatus_eq_dec : EqDecision SignedRecordStatus.
Proof. solve_decision. Defined.
#[export] Instance SegmentStatus_eq_dec : EqDecision SegmentStatus.
Proof. solve_decision. Defined.
#[export] Instance AuthorityStatus_eq_dec : EqDecision AuthorityStatus.
Proof. solve_decision. Defined.

Record ActionValidation := {
  val_signed_record : SignedRecordStatus;
  val_segment : SegmentStatus;
  val_neutral_authority : AuthorityStatus;
  val_candidate_authority : AuthorityStatus;
  val_authority_context_available : bool;
  val_missing_parent : option Bytes32;
  val_detail : option string }.
#[export] Instance ActionValidation_eq_dec : EqDecision ActionValidation.
Proof. solve_decision. Defined.

Record MissingArtifact := {
  ma_digest : Bytes32;
  ma_declared_status : string;
  ma_reason : string;
  ma_observed_in_action : Bytes32;
  ma_candidate_authority : AuthorityStatus }.
#[export] Instance MissingArtifact_eq_dec : EqDecision MissingArtifact.
Proof. solve_decision. Defined.

Record ValidatedAction := {
  va_signed : SignedLineageAction;
  va_digest : Bytes32;
  va_shot_id : ShotId;
  va_sequence : Z;
  va_previous : option Bytes32;
  va_canonical_bytes : list Z;
  va_missing_artifacts : list MissingArtifact }.

(** ** The boundary to protocol law *)

Definition availability_reason (s : AvailabilityStatus) : string :=
  match s with
  | Absent => "publisher reports that the artifact is absent"
  | Unknown => "artifact availability is unknown"
  | IntentionallyPrivate => "artifact is intentionally private"
  | LocallyAvailable => "artifact is local to another holder and is not stored by this node"
  | PubliclyAvailable => "artifact is publicly advertised but is not stored by this node"
  | Replicated => "replication was observed elsewhere; this node stores only the action"
  | CryptographicallyVerified =>
      "artifact was verified elsewhere; this node stores only the action"
  | OnChainAnchored => "an anchor does not imply that artifact bytes are held by this node"
  end.

Definition availability_observations (signed : SignedLineageAction) (action_digest : Bytes32)
    : list MissingArtifact :=
  match la_payload (sl_action signed) with
  | PayloadArtifactAvailability record =>
      let status := aa_status (ar_availability record) in
      [{| ma_digest := ad_digest (aa_artifact (ar_availability record));
          ma_declared_status := availability_name status;
          ma_reason := ar_target_role record +:+ ": " +:+ availability_reason status;
          ma_observed_in_action := action_digest;
          ma_candidate_authority := AuthorityUnresolved |}]
  | _ => []
  end.

(** [canonical::from_slice::<SignedLineageAction>]: third-party JSON parsing. *)
Class Codec := { decode_action : list Z -> Result string SignedLineageAction }.

Section adapter.
Context `{Platform} `{Codec}.

Definition require_size (bytes : list Z) : node_result unit :=
  fail_if (MAX_ACTION_BYTES <? length bytes)%nat (ActionTooLarge MAX_ACTION_BYTES).

Definition parse_public (bytes : list Z) : node_result ValidatedAction :=
  require_size bytes ;;
  signed ← from_protocol (map_err Json (decode_action bytes));
  from_protocol (signed_verify signed) ;;
  fail_if (la_availability (sl_action signed) != PubliclyAvailable) NotPublic ;;
  digest ← from_protocol (signed_commitment signed);
  canonical_bytes ← from_protocol (canonical_to_vec signed);
  require_size canonical_bytes ;;
  Ok {| va_signed := signed; va_digest := digest;
        va_shot_id := la_shot_id (sl_action signed);
        va_sequence := la_sequence (sl_action signed);
        va_previous := la_previous (sl_action signed);
        va_canonical_bytes := canonical_bytes;
        va_missing_artifacts := availability_observations signed digest |}.
End adapter.

(** ** Classification *)

Definition unresolved_public_authority_validation (authority_context_available : bool)
    : ActionValidation :=
  {| val_signed_record := RecordVerified; val_segment := SegmentVerified;
     val_neutral_authority := AuthorityVerified;
     val_candidate_authority := AuthorityUnresolved;
     val_authority_context_available := authority_context_available;
     val_missing_parent := None;
     val_detail := Some "complete lineage is neutrally valid, but candidate authority is unresolved because this node does not resolve live generation 0.8.0 controller or registry evidence; retired v0.7 CREATE2 predictions are offline evidence only" |}.

Definition unresolved_validation (missing_parent : option Bytes32) (detail : string)
    : ActionValidation :=
  {| val_signed_record := RecordVerified; val_segment := SegmentVerified;
     val_neutral_authority := AuthorityUnresolved;
     val_candidate_authority := AuthorityUnresolved;
     val_authority_context_available := false;
     val_missing_parent := missing_parent; val_detail := Some detail |}.

Definition rejected_validation (authority_context_available : bool)
    (missing_parent : option Bytes32) (detail : string) : ActionValidation :=
  {| val_signed_record := RecordVerified; val_segment := SegmentRejected;
     val_neutral_authority := AuthorityRejected;
     val_candidate_authority := AuthorityRejected;
     val_authority_context_available := authority_context_available;
     val_missing_parent := missing_parent; val_detail := Some detail |}.

Definition complete_commitment_shape (signed : SignedLineageAction) : bool :=
  (la_sequence (sl_action signed) == 1%Z) && opt_is_none (la_previous (sl_action signed))
  && is_commitment (la_payload (sl_action signed)).

Definition reject_known_invalid (v : ActionValidation) : node_result unit :=
  fail_if ((val_segment v == SegmentRejected)
           || (val_candidate_authority v == AuthorityRejected))
    (Causal (default "lineage candidate was rejected" (val_detail v))).

(** How the walk along previous-action links ends. *)
Inductive Walk : Type :=
  | WalkCycle
  | WalkTooLong
  | Walked (branch : list SignedLineageAction) (missing_parent : option Bytes32).

(** What a holder knows of an action: its signed form and its link. *)
Abbreviation Links := (Bytes32 -> option (SignedLineageAction * option Bytes32)).

(** The [while let Some(digest) = cursor] loop of [classify]. [room] is
    [MAX_ACTIONS_PER_SHOT - branch.len()], so the length test is [room = 0].
    The source pushes parents and reverses the branch afterwards; here the
    branch is kept oldest first. *)
Fixpoint walk (links : Links) (room : nat) (seen : gset Bytes32)
    (branch : list SignedLineageAction) (cursor : option Bytes32) : Walk :=
  match cursor with
  | None => Walked branch None
  | Some digest =>
      if bool_decide (digest ∈ seen) then WalkCycle
      else match room with
      | O => WalkTooLong
      | S room =>
          match links digest with
          | None => Walked branch (Some digest)
          | Some (parent, previous) =>
              walk links room ({[digest]} ∪ seen) (parent :: branch) previous
          end
      end
  end.

Section classify.
Context `{Platform}.

(** The judgement on a walked branch, oldest action first. *)
Definition judge (branch : list SignedLineageAction) (missing_parent : option Bytes32)
    : ActionValidation :=
  match verify_lineage_segment branch None with
  | Err error =>
      rejected_validation
        (opt_is_none missing_parent && is_some_and complete_commitment_shape (head branch))
        missing_parent ("available segment is invalid: " +:+ display_error error)
  | Ok segment =>
      match missing_parent with
      | Some parent =>
          if is_some_and (λ first, la_sequence (sl_action first) == 1%Z) (head branch)
          then rejected_validation false (Some parent)
                 "sequence 1 cannot have an unavailable predecessor"
          else unresolved_validation (Some parent)
                 ("signed record and available segment verify, but authority is unresolved until parent "
                  +:+ to_hex parent +:+ " is available")
      | None =>
          match reduce_lineage branch with
          | Ok _ => unresolved_public_authority_validation (seg_authority_context_available segment)
          | Err error =>
              {| val_signed_record := RecordVerified; val_segment := SegmentVerified;
                 val_neutral_authority := AuthorityRejected;
                 val_candidate_authority := AuthorityRejected;
                 val_authority_context_available := seg_authority_context_available segment;
                 val_missing_parent := None;
                 val_detail := Some ("complete prefix fails neutral reduction: "
                                     +:+ display_error error) |}
          end
      end
  end.

Definition classify (links : Links) (digest : Bytes32) (signed : SignedLineageAction)
    (previous : option Bytes32) : ActionValidation :=
  match walk links (MAX_ACTIONS_PER_SHOT - 1) {[digest]} [signed] previous with
  | WalkCycle => rejected_validation false None "cycle in previous-action links"
  | WalkTooLong =>
      rejected_validation false None
        "available lineage segment exceeds the per-Shot action limit"
  | Walked branch missing_parent => judge branch missing_parent
  end.
End classify.

Arguments parse_public : simpl never.
Arguments judge : simpl never.
Arguments classify : simpl never.
#[global] Opaque MAX_ACTION_BYTES MAX_ACTIONS_PER_NODE MAX_ACTIONS_PER_SHOT.
