(* ===== verification/NodeStore.v ===== *)
(** * The node store

    [node/src/store.rs] and the part of [node/src/fs.rs] it uses: the append-only
    directory of action files, the derived index, ingestion, the rebuild from
    disk, and the read-only views. The directory is a two-level tree of named
    entries; an operation is a function of the directory and the index. Locks
    make the operations atomic, so they are sequential here. Failures of the
    operating system on an entry of the expected kind, and crashes, are not
    modelled. *)
From S2P Require Import Prelude Text Digest Keys Records Ontology Lineage Reduction NodeModel.

(** ** The directory of action files *)

(** An entry of a bucket: a regular file, or anything else. *)
Inductive BucketEntry : Type := RegularFile (bytes : list Z) | OtherEntry.
(** An entry of the actions directory: a bucket, or anything that is not a
    directory, symbolic links included. *)
Inductive RootEntry : Type := Bucket (entries : gmap string BucketEntry) | NotDirectory.
Abbreviation Disk := (gmap string RootEntry).
(** [actions_root.join(bucket).join(file)] *)
Abbreviation ActionPath := (string * string)%type.

(** [path.display()] of a file and of a bucket under the storage root. *)
Class PathDisplay := {
  display_file : ActionPath -> string;
  display_bucket : string -> string }.

Definition entry_at (disk : Disk) (path : ActionPath) : option BucketEntry :=
  match disk !! fst path with
  | Some (Bucket entries) => entries !! snd path
  | _ => None
  end.

Definition read_regular_limited `{PathDisplay} (disk : Disk) (path : ActionPath) (limit : nat)
    : node_result (list Z) :=
  match entry_at disk path with
  | Some (RegularFile bytes) =>
      fail_if (limit <? length bytes)%nat (ActionTooLarge limit) ;;
      Ok bytes
  | Some OtherEntry => Err (UnsafeStorage (display_file path))
  | None => Err (NodeIo "No such file or directory (os error 2)")
  end.

(** [create_new_atomic]: the directory afterwards, and whether [target] is new.
    The private temporary file is created, linked and removed within the call. *)
Definition create_new_atomic `{PathDisplay} (disk : Disk) (target : ActionPath)
    (bytes : list Z) : node_result (Disk * bool) :=
  match disk !! fst target with
  | Some NotDirectory => Err (UnsafeStorage (display_bucket (fst target)))
  | parent =>
      let entries := match parent with Some (Bucket entries) => entries | _ => ∅ end in
      match entries !! snd target with
      | Some OtherEntry => Err (UnsafeStorage (display_file target))
      | Some (RegularFile _) => Ok (<[fst target := Bucket entries]> disk, false)
      | None => Ok (<[fst target := Bucket (<[snd target := RegularFile bytes]> entries)]> disk, true)
      end
  end.

(** [hex[2..4]] and [hex[2..] + ".json"] *)
Definition action_path (digest : Bytes32) : ActionPath :=
  let hex := drop 2 (bytes_of (to_hex digest)) in
  (string_of (take 2 hex), string_of hex +:+ ".json").

(** ** The index *)

Record ActionReference := {
  ref_digest : Bytes32;
  ref_shot_id : ShotId;
  ref_sequence : Z;
  ref_previous : option Bytes32;
  ref_validation : ActionValidation }.

Record ActionMeta := {
  am_reference : ActionReference;
  am_path : ActionPath;
  am_signed : SignedLineageAction;
  am_missing_artifacts : list MissingArtifact }.

Record IntegrityIssue := { is_path : string; is_detail : string }.

Abbreviation ShotIndex := (gmap (Z * Bytes32) ActionMeta).

Record Index := {
  ix_actions : gmap Bytes32 ActionMeta;
  ix_shots : gmap ShotId ShotIndex;
  ix_children : gmap Bytes32 (gset Bytes32);
  ix_issues : list IntegrityIssue;
  ix_checked_files : nat }.

#[export] Instance ActionReference_eq_dec : EqDecision ActionReference.
Proof. solve_decision. Defined.
#[export] Instance ActionMeta_eq_dec : EqDecision ActionMeta.
Proof. solve_decision. Defined.
#[export] Instance IntegrityIssue_eq_dec : EqDecision IntegrityIssue.
Proof. solve_decision. Defined.

Definition empty_index : Index :=
  {| ix_actions := ∅; ix_shots := ∅; ix_children := ∅; ix_issues := []; ix_checked_files := 0 |}.

Definition add_issue (i : IntegrityIssue) (index : Index) : Index :=
  {| ix_actions := ix_actions index; ix_shots := ix_shots index;
     ix_children := ix_children index; ix_issues := ix_issues index ++ [i];
     ix_checked_files := ix_checked_files index |}.

(** [index.shots.get(&shot).map(|shot| shot.actions.len()).unwrap_or(0)] *)
Definition shot_count (index : Index) (shot_id : ShotId) : nat :=
  size (default ∅ (ix_shots index !! shot_id)).

Definition add_stored (index : Index) (action : ValidatedAction) (path : ActionPath)
    (validation : ActionValidation) : Index :=
  let reference := {| ref_digest := va_digest action; ref_shot_id := va_shot_id action;
    ref_sequence := va_sequence action; ref_previous := va_previous action;
    ref_validation := validation |} in
  let meta := {| am_reference := reference; am_path := path; am_signed := va_signed action;
    am_missing_artifacts := va_missing_artifacts action |} in
  {| ix_actions := <[va_digest action := meta]> (ix_actions index);
     ix_shots := <[va_shot_id action :=
       <[(va_sequence action, va_digest action) := meta]>
         (default ∅ (ix_shots index !! va_shot_id action))]> (ix_shots index);
     ix_children := match va_previous action with
       | Some previous =>
           <[previous := {[va_digest action]} ∪ default ∅ (ix_children index !! previous)]>
             (ix_children index)
       | None => ix_children index
       end;
     ix_issues := ix_issues index; ix_checked_files := ix_checked_files index |}.

Definition set_validation (validation : ActionValidation) (meta : ActionMeta) : ActionMeta :=
  {| am_reference := {| ref_digest := ref_digest (am_reference meta);
       ref_shot_id := ref_shot_id (am_reference meta);
       ref_sequence := ref_sequence (am_reference meta);
       ref_previous := ref_previous (am_reference meta);
       ref_validation := validation |};
     am_path := am_path meta; am_signed := am_signed meta;
     am_missing_artifacts := am_missing_artifacts meta |}.

Definition update_validation (index : Index) (shot_id : ShotId) (digest : Bytes32)
    (validation : ActionValidation) : Index :=
  match ix_actions index !! digest with
  | None => index
  | Some meta =>
      let key := (ref_sequence (am_reference meta), digest) in
      {| ix_actions := <[digest := set_validation validation meta]> (ix_actions index);
         ix_shots := alter (alter (set_validation validation) key) shot_id (ix_shots index);
         ix_children := ix_children index; ix_issues := ix_issues index;
         ix_checked_files := ix_checked_files index |}
  end.

(** What the index knows of an action, as the classifier reads it. *)
Definition index_links (index : Index) : Links := λ digest,
  (λ meta, (am_signed meta, ref_previous (am_reference meta))) <$> ix_actions index !! digest.

(** [BTreeSet::pop_first] *)
Definition pop_first (pending : gset Bytes32) : option (Bytes32 * gset Bytes32) :=
  match stable_sort array_leb (elements pending) with
  | first :: _ => Some (first, pending ∖ {[first]})
  | [] => None
  end.

Section store.
Context `{Platform} `{Codec} `{PathDisplay}.

Definition issue (path detail : string) : IntegrityIssue :=
  {| is_path := path; is_detail := detail |}.

Definition classify_candidate (index : Index) (candidate : ValidatedAction) : ActionValidation :=
  classify (index_links index) (va_digest candidate) (va_signed candidate)
    (va_previous candidate).

Definition classify_stored (index : Index) (digest : Bytes32) : ActionValidation :=
  match ix_actions index !! digest with
  | None =>
      rejected_validation false None "action disappeared while its derived index was rebuilt"
  | Some candidate =>
      classify (index_links index) digest (am_signed candidate)
        (ref_previous (am_reference candidate))
  end.

(** The worklist loop of [reclassify_descendants]; [None] when the fuel runs out
    before the worklist does. *)
Fixpoint reclassify_loop (fuel : nat) (index : Index) (pending : gset Bytes32) : option Index :=
  match fuel with
  | O => None
  | S fuel =>
      match pop_first pending with
      | None => Some index
      | Some (digest, rest) =>
          match ix_actions index !! digest with
          | None => reclassify_loop fuel index rest
          | Some meta =>
              let children := default ∅ (ix_children index !! digest) in
              let validation := classify_stored index digest in
              reclassify_loop fuel
                (update_validation index (ref_shot_id (am_reference meta)) digest validation)
                (children ∪ rest)
          end
      end
  end.

(** Every action is visited at most once, so this fuel suffices
    (see [NodeFacts]). *)
Definition reclassify_descendants (index : Index) (root : Bytes32) : option Index :=
  reclassify_loop (2 + size (ix_actions index)) index {[root]}.

(** ** Ingestion *)

Record IngestOutcome := {
  out_digest : Bytes32;
  out_stored : bool;
  out_shot_id : ShotId;
  out_sequence : Z;
  out_validation : ActionValidation }.

(** The state an ingestion works on: the directory and the index. *)
Record Store := { sto_disk : Disk; sto_index : Index }.

(** An action whose digest is already indexed. *)
Definition ingest_existing (store : Store) (validated : ValidatedAction) (existing : ActionMeta)
    : node_result IngestOutcome :=
  stored ← read_regular_limited (sto_disk store) (am_path existing) MAX_ACTION_BYTES;
  fail_if (stored != va_canonical_bytes validated) ContentCollision ;;
  Ok {| out_digest := va_digest validated; out_stored := false;
        out_shot_id := va_shot_id validated; out_sequence := va_sequence validated;
        out_validation := ref_validation (am_reference existing) |}.

Definition ingest_limits (index : Index) (validated : ValidatedAction) : node_result unit :=
  fail_if (MAX_ACTIONS_PER_NODE <=? size (ix_actions index))%nat
    (ActionLimit MAX_ACTIONS_PER_NODE) ;;
  fail_if (MAX_ACTIONS_PER_SHOT <=? shot_count index (va_shot_id validated))%nat
    (ActionLimit MAX_ACTIONS_PER_SHOT).

(** An action not yet indexed: classified, written, indexed, its descendants
    reclassified. *)
Definition ingest_new (store : Store) (validated : ValidatedAction)
    : node_result (Store * IngestOutcome) :=
  let index := sto_index store in
  let digest := va_digest validated in
  ingest_limits index validated ;;
  let validation := classify_candidate index validated in
  reject_known_invalid validation ;;
  let path := action_path digest in
  '(disk, created) ← create_new_atomic (sto_disk store) path (va_canonical_bytes validated);
  (if created then Ok tt
   else existing ← read_regular_limited disk path MAX_ACTION_BYTES;
        fail_if (existing != va_canonical_bytes validated) ContentCollision) ;;
  let added := add_stored index validated path validation in
  (* the loop always ends: [reclassify_terminates] *)
  let final := default added (reclassify_descendants added digest) in
  meta ← ok_or (NodeProtocol "newly added action is indexed") (ix_actions final !! digest);
  Ok ({| sto_disk := disk; sto_index := final |},
      {| out_digest := digest; out_stored := created; out_shot_id := va_shot_id validated;
         out_sequence := va_sequence validated;
         out_validation := ref_validation (am_reference meta) |}).

(** The store afterwards, and the result. *)
Definition ingest (store : Store) (bytes : list Z) : Store * node_result IngestOutcome :=
  match parse_public bytes with
  | Err e => (store, Err e)
  | Ok validated =>
      match ix_actions (sto_index store) !! va_digest validated with
      | Some existing => (store, ingest_existing store validated existing)
      | None =>
          match ingest_new store validated with
          | Ok (store', outcome) => (store', Ok outcome)
          | Err e => (store, Err e)
          end
      end
  end.

Definition contains (index : Index) (digest : Bytes32) : bool :=
  opt_is_some (ix_actions index !! digest).

(** Reading an action back: the bytes of the file, if they still are the
    canonical bytes of an action with this digest. *)
Definition action_bytes (store : Store) (digest : Bytes32) : node_result (list Z) :=
  meta ← ok_or (ActionMissing (to_hex digest)) (ix_actions (sto_index store) !! digest);
  bytes ← read_regular_limited (sto_disk store) (am_path meta) MAX_ACTION_BYTES;
  validated ← parse_public bytes;
  fail_if ((va_digest validated != digest) || (va_canonical_bytes validated != bytes))
    ContentCollision ;;
  Ok bytes.

(** [ingest_file], from the bytes of the file. *)
Definition ingest_file (store : Store) (bytes : list Z) : Store * node_result IngestOutcome :=
  match parse_public bytes with
  | Err e => (store, Err e)
  | Ok parsed =>
      if va_canonical_bytes parsed == bytes then ingest store bytes
      else (store, Err (NodeProtocol
              "signed action file must contain canonical JSON bytes exactly"))
  end.

(** ** Rebuilding the index from disk *)

Definition name_leb {A} (a b : string * A) : bool :=
  bytes_leb (bytes_of (fst a)) (bytes_of (fst b)).

(** [name.len() == 2] and every byte a lowercase hexadecimal digit. *)
Definition is_bucket_name (name : string) : bool :=
  (len name =? 2)%nat && forallb is_lower_hex (bytes_of name).

Definition collect_bucket (bucket : string) (entries : gmap string BucketEntry)
    : list ActionPath * list IntegrityIssue :=
  let sorted := stable_sort name_leb (map_to_list entries) in
  (omap (λ e, match snd e with RegularFile _ => Some (bucket, fst e) | OtherEntry => None end)
     sorted,
   omap (λ e, match snd e with
     | RegularFile _ => None
     | OtherEntry => Some (issue (display_file (bucket, fst e))
                             "action-store entries must be regular files")
     end) sorted).

Definition collect_entry (e : string * RootEntry) : list ActionPath * list IntegrityIssue :=
  match snd e with
  | Bucket entries =>
      if is_bucket_name (fst e) then collect_bucket (fst e) entries
      else ([], [issue (display_bucket (fst e)) "unexpected non-bucket entry in action store"])
  | NotDirectory =>
      ([], [issue (display_bucket (fst e)) "unexpected non-bucket entry in action store"])
  end.

Definition collect_action_paths (disk : Disk) : list ActionPath * list IntegrityIssue :=
  let buckets := collect_entry <$> stable_sort name_leb (map_to_list disk) in
  (buckets ≫= fst, buckets ≫= snd).

(** One file of the scan: a candidate, or an issue. *)
Definition examine (disk : Disk) (path : ActionPath) : ActionPath * ValidatedAction + IntegrityIssue :=
  match (bytes ← read_regular_limited disk path MAX_ACTION_BYTES;
         action ← parse_public bytes;
         Ok (E:=NodeError) (bytes, action)) with
  | Ok (bytes, action) =>
      if action_path (va_digest action) != path then
        inr (issue (display_file path) "content address does not match the action commitment")
      else if bytes != va_canonical_bytes action then
        inr (issue (display_file path) "stored action is not canonical JSON")
      else inl (path, action)
  | Err error => inr (issue (display_file path) (display_node_error error))
  end.

(** [(action.sequence, action.digest)] *)
Definition order_leb (a b : Z * Bytes32) : bool :=
  (fst a <? fst b)%Z || ((fst a == fst b) && array_leb (snd a) (snd b)).
Definition candidate_leb (a b : ActionPath * ValidatedAction) : bool :=
  order_leb (va_sequence (snd a), va_digest (snd a)) (va_sequence (snd b), va_digest (snd b)).

Definition admit_candidate (index : Index) (c : ActionPath * ValidatedAction) : Index :=
  let '(path, action) := c in
  if opt_is_some (ix_actions index !! va_digest action) then
    add_issue (issue (display_file path) "duplicate content-addressed action") index
  else if (MAX_ACTIONS_PER_SHOT <=? shot_count index (va_shot_id action))%nat then
    add_issue (issue (display_file path)
      ("Shot exceeds the " +:+ pretty MAX_ACTIONS_PER_SHOT +:+ "-action limit")) index
  else
    add_stored index action path
      (unresolved_validation (va_previous action)
         "authority context has not yet been derived from stored lineage").

(** [actions.values()]: in the order of their digests. *)
Definition action_values (actions : gmap Bytes32 ActionMeta) : list ActionMeta :=
  snd <$> stable_sort (λ a b, array_leb (fst a) (fst b)) (map_to_list actions).

(** The classification pass at the end of the scan. *)
Definition classify_all (index : Index) : Index :=
  foldl (λ index meta,
    let digest := ref_digest (am_reference meta) in
    update_validation index (ref_shot_id (am_reference meta)) digest
      (classify_stored index digest))
    index (action_values (ix_actions index)).

Definition scan_index (disk : Disk) : node_result Index :=
  let '(paths, issues) := collect_action_paths disk in
  fail_if (MAX_ACTIONS_PER_NODE <? length paths)%nat (ActionLimit MAX_ACTIONS_PER_NODE) ;;
  let examined := examine disk <$> paths in
  let candidates := omap (λ x, match x with inl c => Some c | inr _ => None end) examined in
  let findings := omap (λ x, match x with inl _ => None | inr i => Some i end) examined in
  let start := {| ix_actions := ∅; ix_shots := ∅; ix_children := ∅;
                  ix_issues := issues ++ findings; ix_checked_files := length paths |} in
  Ok (classify_all (foldl admit_candidate start (stable_sort candidate_leb candidates))).

(** [NodeStore::open], once the directories and the identity are in place. *)
Definition open_store (disk : Disk) : node_result Store :=
  scanned ← scan_index disk;
  Ok {| sto_disk := disk; sto_index := scanned |}.
End store.
Arguments classify_stored : simpl never.
