(* ===== verification/NodeViews.v ===== *)
(** * What a node reports

    The read-only half of [node/src/store.rs]: counts, heads, Shot summaries,
    health, the integrity report, and the validation of the node identity. *)
From S2P Require Import Prelude Text Digest Keys Records Ontology Lineage Reduction NodeModel NodeStore.

(** ** Counts *)

Record ValidationCounts := {
  vc_signed_records_verified : nat;
  vc_segments_verified : nat;
  vc_segments_rejected : nat;
  vc_neutral_authority_verified : nat;
  vc_neutral_authority_unresolved : nat;
  vc_neutral_authority_rejected : nat;
  vc_candidate_authority_verified : nat;
  vc_candidate_authority_unresolved : nat;
  vc_candidate_authority_rejected : nat }.
#[export] Instance ValidationCounts_eq_dec : EqDecision ValidationCounts.
Proof. solve_decision. Defined.

Definition one_if (b : bool) : nat := if b then 1 else 0.

(** One turn of the counting loop. *)
Definition count_reference (c : ValidationCounts) (r : ActionReference) : ValidationCounts :=
  let v := ref_validation r in
  {| vc_signed_records_verified :=
       vc_signed_records_verified c + one_if (val_signed_record v == RecordVerified);
     vc_segments_verified := vc_segments_verified c + one_if (val_segment v == SegmentVerified);
     vc_segments_rejected := vc_segments_rejected c + one_if (val_segment v == SegmentRejected);
     vc_neutral_authority_verified := vc_neutral_authority_verified c
       + one_if (val_neutral_authority v == AuthorityVerified);
     vc_neutral_authority_unresolved := vc_neutral_authority_unresolved c
       + one_if (val_neutral_authority v == AuthorityUnresolved);
     vc_neutral_authority_rejected := vc_neutral_authority_rejected c
       + one_if (val_neutral_authority v == AuthorityRejected);
     vc_candidate_authority_verified := vc_candidate_authority_verified c
       + one_if (val_candidate_authority v == AuthorityVerified);
     vc_candidate_authority_unresolved := vc_candidate_authority_unresolved c
       + one_if (val_candidate_authority v == AuthorityUnresolved);
     vc_candidate_authority_rejected := vc_candidate_authority_rejected c
       + one_if (val_candidate_authority v == AuthorityRejected) |}.

Definition no_counts : ValidationCounts := {|
  vc_signed_records_verified := 0; vc_segments_verified := 0; vc_segments_rejected := 0;
  vc_neutral_authority_verified := 0; vc_neutral_authority_unresolved := 0;
  vc_neutral_authority_rejected := 0; vc_candidate_authority_verified := 0;
  vc_candidate_authority_unresolved := 0; vc_candidate_authority_rejected := 0 |}.

Definition validation_counts (references : list ActionReference) : ValidationCounts :=
  foldl count_reference no_counts references.

(** ** Shots *)

(** A [BTreeSet<Bytes32>] as a list. *)
Definition sorted_digests (X : gset Bytes32) : list Bytes32 := stable_sort array_leb (elements X).

(** [shot.actions.values()]: by sequence, then digest. *)
Definition shot_values (shot : ShotIndex) : list ActionMeta :=
  snd <$> stable_sort (λ a b, order_leb (fst a) (fst b)) (map_to_list shot).

Definition included_references (shot : ShotIndex) (include : ActionReference -> bool)
    : list ActionReference :=
  List.filter include (am_reference <$> shot_values shot).

(** The digests that [heads_for] returns, as a set: included actions without an
    included child. *)
Definition head_set (shot : ShotIndex) (include : ActionReference -> bool) : gset Bytes32 :=
  let references := included_references shot include in
  let included : gset Bytes32 := list_to_set (ref_digest <$> references) in
  let parents : gset Bytes32 := list_to_set (omap ref_previous references) in
  included ∖ (filter (λ parent, parent ∈ included) parents).

Definition heads_for (shot : ShotIndex) (include : ActionReference -> bool) : list Bytes32 :=
  sorted_digests (head_set shot include).

Record ShotSummary := {
  sum_shot_id : ShotId;
  sum_action_count : nat;
  sum_roots : list Bytes32;
  sum_observed_heads : list Bytes32;
  sum_authority_verified_heads : list Bytes32;
  sum_authority_unresolved_heads : list Bytes32;
  sum_authority_rejected_heads : list Bytes32;
  sum_validation : ValidationCounts;
  sum_missing_parents : list Bytes32;
  sum_missing_artifacts : list MissingArtifact }.

(** [(digest, declared_status, reason, observed_in_action)], lexicographic. *)
Definition missing_leb (a b : MissingArtifact) : bool :=
  let key x := [as_bytes (ma_digest x); bytes_of (ma_declared_status x);
                bytes_of (ma_reason x); as_bytes (ma_observed_in_action x)] in
  (fix lex (l k : list (list Z)) : bool :=
     match l, k with
     | [], _ => true
     | _ :: _, [] => false
     | x :: l, y :: k => if x == y then lex l k else bytes_leb x y
     end) (key a) (key b).

(** [Vec::dedup]: consecutive repetitions. *)
Fixpoint dedup {A} `{EqDecision A} (l : list A) : list A :=
  match l with
  | [] => []
  | x :: l => match l with
              | y :: _ => if x == y then dedup l else x :: dedup l
              | [] => [x]
              end
  end.

(** The observations of an action, under the authority the node gives it. *)
Definition observed_missing (meta : ActionMeta) : list MissingArtifact :=
  (λ missing, {| ma_digest := ma_digest missing;
     ma_declared_status := ma_declared_status missing; ma_reason := ma_reason missing;
     ma_observed_in_action := ma_observed_in_action missing;
     ma_candidate_authority := val_candidate_authority (ref_validation (am_reference meta)) |})
    <$> am_missing_artifacts meta.

Definition has_candidate_authority (status : AuthorityStatus) (r : ActionReference) : bool :=
  val_candidate_authority (ref_validation r) == status.

Definition summarize (shot_id : ShotId) (shot : ShotIndex) : ShotSummary :=
  let values := shot_values shot in
  {| sum_shot_id := shot_id;
     sum_action_count := size shot;
     sum_roots := ref_digest <$> List.filter (λ r, (ref_sequence r == 1%Z)
                    && opt_is_none (ref_previous r)) (am_reference <$> values);
     sum_observed_heads := heads_for shot (λ _, true);
     sum_authority_verified_heads := heads_for shot (has_candidate_authority AuthorityVerified);
     sum_authority_unresolved_heads :=
       heads_for shot (has_candidate_authority AuthorityUnresolved);
     sum_authority_rejected_heads := heads_for shot (has_candidate_authority AuthorityRejected);
     sum_validation := validation_counts (am_reference <$> values);
     sum_missing_parents := sorted_digests (list_to_set
       (omap (λ meta, val_missing_parent (ref_validation (am_reference meta))) values));
     sum_missing_artifacts := dedup (stable_sort missing_leb (values ≫= observed_missing)) |}.

Record ShotView := { view_shot : ShotSummary; view_actions : list ActionReference }.

Definition shots (index : Index) : list ShotSummary :=
  (λ s, summarize (fst s) (snd s))
    <$> stable_sort (λ a b, array_leb (shot_bytes (fst a)) (shot_bytes (fst b)))
          (map_to_list (ix_shots index)).

Definition shot_view (index : Index) (shot_id : ShotId) : node_result ShotView :=
  shot ← ok_or (ShotMissing (to_hex (shot_bytes shot_id))) (ix_shots index !! shot_id);
  Ok {| view_shot := summarize shot_id shot; view_actions := am_reference <$> shot_values shot |}.

(** ** Integrity *)

Record MissingParentReference := {
  mpr_shot_id : ShotId;
  mpr_action_digest : Bytes32;
  mpr_missing_parent : Bytes32 }.

Record IntegrityReport := {
  rep_ok : bool;
  rep_checked_actions : nat;
  rep_valid_actions : nat;
  rep_indexed_actions : nat;
  rep_indexed_shots : nat;
  rep_validation : ValidationCounts;
  rep_missing_parent_count : nat;
  rep_missing_parents : list MissingParentReference;
  rep_findings_truncated : bool;
  rep_memory_matches_disk : bool;
  rep_issues : list IntegrityIssue }.

Definition missing_parent_leb (a b : MissingParentReference) : bool :=
  let key x := as_bytes (shot_bytes (mpr_shot_id x)) ++ as_bytes (mpr_action_digest x)
               ++ as_bytes (mpr_missing_parent x) in
  bytes_leb (key a) (key b).

Definition missing_parent_of (meta : ActionMeta) : option MissingParentReference :=
  (λ missing, {| mpr_shot_id := ref_shot_id (am_reference meta);
                 mpr_action_digest := ref_digest (am_reference meta);
                 mpr_missing_parent := missing |})
    <$> val_missing_parent (ref_validation (am_reference meta)).

Definition report_for (index : Index) (memory_matches_disk : bool) : IntegrityReport :=
  let values := action_values (ix_actions index) in
  let validation := validation_counts (am_reference <$> values) in
  let missing_parents := stable_sort missing_parent_leb (omap missing_parent_of values) in
  {| rep_ok := (ix_issues index == []) && memory_matches_disk;
     rep_checked_actions := ix_checked_files index;
     rep_valid_actions := vc_segments_verified validation;
     rep_indexed_actions := size (ix_actions index);
     rep_indexed_shots := size (ix_shots index);
     rep_validation := validation;
     rep_missing_parent_count := length missing_parents;
     rep_missing_parents := take MAX_INTEGRITY_PARENT_FINDINGS missing_parents;
     rep_findings_truncated := (MAX_INTEGRITY_PARENT_FINDINGS <? length missing_parents)%nat;
     rep_memory_matches_disk := memory_matches_disk;
     rep_issues := ix_issues index |}.

Section integrity.
Context `{Platform} `{Codec} `{PathDisplay}.

Definition matches (current scanned : Index) : bool :=
  (ix_actions current == ix_actions scanned) && (ix_shots current == ix_shots scanned)
  && (ix_children current == ix_children scanned).

Definition integrity (store : Store) : node_result IntegrityReport :=
  scanned ← scan_index (sto_disk store);
  Ok (report_for scanned (matches (sto_index store) scanned)).

Definition rebuild (store : Store) : Store * node_result IntegrityReport :=
  match scan_index (sto_disk store) with
  | Ok scanned =>
      ({| sto_disk := sto_disk store; sto_index := scanned |}, Ok (report_for scanned true))
  | Err e => (store, Err e)
  end.
End integrity.

(** ** Node identity *)

Definition IDENTITY_SCHEMA : string := "tohseno.node-identity/1".

Record NodeIdentity := {
  ni_schema : string;
  ni_node_id : Bytes32;
  ni_created_at_unix : Z }.

Definition validate_identity (i : NodeIdentity) : node_result unit :=
  fail_if ((ni_schema i != IDENTITY_SCHEMA) || (ni_node_id i == ZERO)
           || (ni_created_at_unix i == 0%Z))
    (NodeProtocol "invalid node identity").

(** ** Health and description *)

Definition NODE_PROTOCOL : string := "tohseno.node/2".
Definition ACTIVE_GENERATION : string := "0.8.0".
Definition GENERATION_POLICY : string := "generation 0.8.0 is release-authorized and active, but this node revision has no live controller/registry evidence resolver, so ordinary-lineage candidate authority remains unresolved".
Definition LEGACY_POLICY : string := "v0.7 CREATE2 prediction is a retired offline-verification helper only; generic signed lineage remains neutral legacy evidence and can never establish active public candidate authority".

Record Health := {
  he_status : string;
  he_node_id : Bytes32;
  he_stored_actions : nat;
  he_indexed_shots : nat;
  he_integrity_ok : bool }.

Definition health (identity : NodeIdentity) (index : Index) : Health :=
  {| he_status := if ix_issues index == [] then "ok" else "degraded";
     he_node_id := ni_node_id identity;
     he_stored_actions := size (ix_actions index);
     he_indexed_shots := size (ix_shots index);
     he_integrity_ok := ix_issues index == [] |}.

Record NodeInfo := {
  in_schema : string;
  in_node_id : Bytes32;
  in_created_at_unix : Z;
  in_lineage_protocol : string;
  in_lineage_protocol_version : string;
  in_supported_schema_versions : list Z;
  in_stored_actions : nat;
  in_indexed_shots : nat;
  in_active_generation : option string;
  in_generation_policy : string;
  in_legacy_policy : string;
  in_agreement : string;
  in_non_agreement : string }.

Definition info (identity : NodeIdentity) (index : Index) : NodeInfo :=
  {| in_schema := NODE_PROTOCOL;
     in_node_id := ni_node_id identity;
     in_created_at_unix := ni_created_at_unix identity;
     in_lineage_protocol := LINEAGE_PROTOCOL;
     in_lineage_protocol_version := LINEAGE_PROTOCOL_VERSION;
     in_supported_schema_versions := [LINEAGE_SCHEMA_VERSION];
     in_stored_actions := size (ix_actions index);
     in_indexed_shots := size (ix_shots index);
     in_active_generation := Some ACTIVE_GENERATION;
     in_generation_policy := GENERATION_POLICY;
     in_legacy_policy := LEGACY_POLICY;
     in_agreement := "deterministic signed-record, available-segment, and neutral reducer validity for locally possessed ordinary lineage";
     in_non_agreement := "no resolved public candidate authority, registry receipt or public-checkpoint inventory, universal head, artifact completeness, subjective coherence, or global consensus" |}.
