(* ===== verification/NodeFacts.v ===== *)
(** * The node store implements a set of actions

    The abstract state of a node is the set of actions it has stored, by digest.
    [represents] says that an index is the one this set determines: each action
    under its current classification, grouped by Shot, with its children.
    [ingest] adds to the set, [scan_index] reads it back from disk, and both
    give the index of the set they end with. *)
From S2P Require Import Prelude Text Digest Keys Records Ontology Lineage Reduction NodeModel NodeStore NodeViews.

(** The set of stored actions, by digest. *)
Abbreviation Stored := (gmap Bytes32 ValidatedAction).

Definition links_of (S : Stored) : Links := λ d,
  (λ v, (va_signed v, va_previous v)) <$> S !! d.

(** [chain S cursor d]: following stored links from [cursor] reaches [d]. *)
Inductive chain (S : Stored) : option Bytes32 -> Bytes32 -> Prop :=
  | chain_here d : chain S (Some d) d
  | chain_step d v r : S !! d = Some v -> chain S (va_previous v) r -> chain S (Some d) r.

(** No stored action is its own ancestor. *)
Definition acyclic (S : Stored) : Prop :=
  forall d v, S !! d = Some v -> ~ chain S (va_previous v) d.

Section walks.

Lemma walk_ext l1 l2 room seen branch cursor :
  (forall d, l1 d = l2 d) -> walk l1 room seen branch cursor = walk l2 room seen branch cursor.
Proof.
  intros Heq. revert seen branch cursor. induction room as [|room IH]; intros seen branch cursor;
    destruct cursor as [d|]; simpl; try done.
  case_bool_decide; [done|]. rewrite Heq. destruct (l2 d) as [[p q]|]; [apply IH|done].
Qed.

(** A walk that ends outside a cycle does not reach what it has seen. *)
Lemma walk_not_chain (S : Stored) room seen branch cursor b m d :
  walk (links_of S) room seen branch cursor = Walked b m -> d ∈ seen -> ~ chain S cursor d.
Proof.
  intros Hw Hd Hc. revert room seen branch Hw Hd.
  induction Hc as [d|x v r Hx Hc IH]; intros room seen branch Hw Hd.
  - destruct room; simpl in Hw; by rewrite bool_decide_eq_true_2 in Hw.
  - destruct room as [|room]; simpl in Hw; case_bool_decide; try done.
    unfold links_of at 1 in Hw. rewrite Hx in Hw. simpl in Hw.
    by eapply (IH room); [exact Hw|set_solver].
Qed.

(** Storing [d] changes only walks that reach [d]. *)
Lemma walk_insert (S : Stored) d v room seen branch cursor :
  ~ chain S cursor d ->
  walk (links_of (<[d := v]> S)) room seen branch cursor
    = walk (links_of S) room seen branch cursor.
Proof.
  revert seen branch cursor. induction room as [|room IH]; intros seen branch [x|] Hn; simpl; try done.
  case_bool_decide; [done|].
  assert (d <> x) by (intros ->; by destruct Hn; constructor).
  unfold links_of at 1 3. rewrite lookup_insert_ne by done.
  destruct (S !! x) as [w|] eqn:Hx; [|done]. simpl. apply IH.
  intros Hc. apply Hn. by eapply chain_step.
Qed.

Lemma chain_insert_stop (S : Stored) d v cursor :
  chain (<[d := v]> S) cursor d -> chain S cursor d.
Proof.
  assert (forall c r, chain (<[d := v]> S) c r -> r = d -> chain S c d) as Hgen.
  { induction 1 as [x|x w r Hx _ IH]; intros ->; [constructor|].
    destruct (decide (x = d)) as [->|]; [constructor|].
    rewrite lookup_insert_ne in Hx by done. eapply chain_step; eauto. }
  intros Hc. by eapply Hgen.
Qed.

Lemma chain_insert_split (S : Stored) d v cursor r : d <> r ->
  chain (<[d := v]> S) cursor r ->
  chain S cursor r \/ (chain S cursor d /\ chain (<[d := v]> S) (va_previous v) r).
Proof.
  intros Hne. induction 1 as [|x w r Hx Hc IH]; [left; constructor|].
  apply lookup_insert_Some in Hx as [[<- <-]|[? Hx]].
  - right. split; [constructor|done].
  - destruct (IH Hne) as [?|[? ?]]; [left|right; split; [|done]]; by eapply chain_step.
Qed.

Lemma chain_trans (S : Stored) cursor d v r :
  chain S cursor d -> S !! d = Some v -> chain S (va_previous v) r -> chain S cursor r.
Proof. induction 1; intros; eapply chain_step; eauto. Qed.

(** Storing a new [d] keeps the chains that were there. *)
Lemma chain_insert_mono (S : Stored) d v cursor r :
  S !! d = None -> chain S cursor r -> chain (<[d := v]> S) cursor r.
Proof.
  intros Hd. induction 1 as [|x w r Hx Hc IH]; [constructor|].
  apply (chain_step _ x w); [|exact IH]. rewrite lookup_insert_ne; [done|congruence].
Qed.

Lemma acyclic_insert (S : Stored) d v :
  acyclic S -> S !! d = None -> ~ chain S (va_previous v) d -> acyclic (<[d := v]> S).
Proof.
  intros Hac Hd Hn d' v' [[<- <-]|[Hne Hd']]%lookup_insert_Some Hc.
  - by apply chain_insert_stop in Hc.
  - apply chain_insert_split in Hc as Hc'; [|done]. destruct Hc' as [Hc'|[Hc1 Hc2]].
    + by apply (Hac _ _ Hd').
    + apply Hn, (chain_insert_stop _ _ v). eapply chain_trans; [exact Hc2| |].
      * by rewrite lookup_insert_ne.
      * by apply chain_insert_mono.
Qed.

Lemma acyclic_empty : acyclic ∅.
Proof. intros d v Hd. by apply lookup_empty_Some in Hd. Qed.
End walks.

(** ** The index of a set of actions *)

Definition meta_of (f : Bytes32 -> ActionValidation) (d : Bytes32) (v : ValidatedAction)
    : ActionMeta :=
  {| am_reference := {| ref_digest := d; ref_shot_id := va_shot_id v;
       ref_sequence := va_sequence v; ref_previous := va_previous v; ref_validation := f d |};
     am_path := action_path d; am_signed := va_signed v;
     am_missing_artifacts := va_missing_artifacts v |}.

(** The index holds exactly the actions of [S], under the validations [f]. *)
Record represents_with (f : Bytes32 -> ActionValidation) (index : Index) (S : Stored) : Prop := {
  rp_actions : forall d, ix_actions index !! d = meta_of f d <$> S !! d;
  rp_shots : forall sh q d,
    default ∅ (ix_shots index !! sh) !! (q, d)
      = (v ← S !! d; if (va_shot_id v == sh) && (va_sequence v == q)
                     then Some (meta_of f d v) else None);
  rp_shots_nonempty : forall sh m, ix_shots index !! sh = Some m -> m <> ∅;
  rp_children : forall p c, c ∈ default ∅ (ix_children index !! p) <->
    exists v, S !! c = Some v /\ va_previous v = Some p;
  rp_children_nonempty : forall p X, ix_children index !! p = Some X -> X <> ∅ }.

Section represents.
Context `{Platform}.

(** What the classifier says of a stored action. *)
Definition class_of (S : Stored) (d : Bytes32) : ActionValidation :=
  match S !! d with
  | Some v => classify (links_of S) d (va_signed v) (va_previous v)
  | None => rejected_validation false None ""
  end.

Definition represents (index : Index) (S : Stored) : Prop :=
  represents_with (class_of S) index S.

Lemma index_links_of f index S d : represents_with f index S ->
  index_links index d = links_of S d.
Proof.
  intros Hr. unfold index_links, links_of. rewrite (rp_actions _ _ _ Hr d).
  by destruct (S !! d).
Qed.

Lemma classify_stored_of f index S d v : represents_with f index S -> S !! d = Some v ->
  classify_stored index d = class_of S d.
Proof.
  intros Hr Hd. unfold classify_stored, class_of. rewrite (rp_actions _ _ _ Hr d), Hd. simpl.
  unfold classify. erewrite walk_ext; [done|]. intros x. by eapply index_links_of.
Qed.

Lemma represents_ext f g index S : (forall d, is_Some (S !! d) -> f d = g d) ->
  represents_with f index S -> represents_with g index S.
Proof.
  intros Hfg [Ha Hs Hsn Hc Hcn].
  assert (forall d v, S !! d = Some v -> meta_of f d v = meta_of g d v) as Hm.
  { intros d v Hd. unfold meta_of. by rewrite Hfg by (by eexists). }
  constructor; try done.
  - intros d. rewrite Ha. destruct (S !! d) as [v|] eqn:Hd; [|done]. simpl. by rewrite Hm.
  - intros sh q d. rewrite Hs. destruct (S !! d) as [v|] eqn:Hd; [|done]. simpl. by rewrite Hm.
Qed.

(** The set and the validations determine the index. *)
Lemma represents_unique f index index' S :
  represents_with f index S -> represents_with f index' S ->
  ix_actions index = ix_actions index' /\ ix_shots index = ix_shots index' /\
  ix_children index = ix_children index'.
Proof.
  intros [Ha Hs Hsn Hc Hcn] [Ha' Hs' Hsn' Hc' Hcn']. split_and!; apply map_eq.
  - intros d. by rewrite Ha, Ha'.
  - intros sh. assert (default ∅ (ix_shots index !! sh) = default ∅ (ix_shots index' !! sh)) as E.
    { apply map_eq. intros [q d]. by rewrite Hs, Hs'. }
    destruct (ix_shots index !! sh) as [m|] eqn:E1, (ix_shots index' !! sh) as [m'|] eqn:E2;
      simpl in E; subst; [done|by destruct (Hsn _ _ E1)|by destruct (Hsn' _ _ E2)|done].
  - intros p. assert (default ∅ (ix_children index !! p) = default ∅ (ix_children index' !! p)) as E.
    { apply set_eq. intros c. by rewrite Hc, Hc'. }
    destruct (ix_children index !! p) as [m|] eqn:E1, (ix_children index' !! p) as [m'|] eqn:E2;
      simpl in E; subst; [done|by destruct (Hcn _ _ E1)|by destruct (Hcn' _ _ E2)|done].
Qed.

Lemma represents_empty f index : ix_actions index = ∅ -> ix_shots index = ∅ ->
  ix_children index = ∅ -> represents_with f index ∅.
Proof.
  intros Ha Hs Hc. constructor; rewrite ?Ha, ?Hs, ?Hc.
  - intros d. by rewrite !lookup_empty.
  - intros sh q d. by rewrite !lookup_empty.
  - intros sh m. by rewrite lookup_empty.
  - intros p c. rewrite lookup_empty. simpl. split; [set_solver|]. intros (v&Hv&_).
    by apply lookup_empty_Some in Hv.
  - intros p X. by rewrite lookup_empty.
Qed.

Lemma add_stored_represents f index S v validation :
  represents_with f index S -> S !! va_digest v = None ->
  represents_with (λ d, if decide (d = va_digest v) then validation else f d)
    (add_stored index v (action_path (va_digest v)) validation) (<[va_digest v := v]> S).
Proof.
  intros [Ha Hs Hsn Hc Hcn] Hnew. set (d0 := va_digest v).
  set (g := λ d, if decide (d = d0) then validation else f d).
  assert (meta_of g d0 v = {| am_reference := {| ref_digest := d0; ref_shot_id := va_shot_id v;
      ref_sequence := va_sequence v; ref_previous := va_previous v; ref_validation := validation |};
      am_path := action_path d0; am_signed := va_signed v;
      am_missing_artifacts := va_missing_artifacts v |}) as Hm0.
  { unfold meta_of, g. by rewrite decide_True. }
  assert (forall d w, d <> d0 -> meta_of g d w = meta_of f d w) as Hm.
  { intros d w Hd. unfold meta_of, g. by rewrite decide_False. }
  constructor; unfold add_stored; fold d0; cbn [ix_actions ix_shots ix_children];
    rewrite <- ?Hm0.
  - intros d. destruct (decide (d = d0)) as [->|Hd].
    + by rewrite !lookup_insert_eq.
    + rewrite !lookup_insert_ne by done. rewrite Ha. destruct (S !! d); simpl; by rewrite ?Hm.
  - intros sh q d. destruct (decide (d = d0)) as [->|Hd].
    + rewrite (lookup_insert_eq S). simpl. destruct (decide (va_shot_id v = sh)) as [<-|Hsh].
      * rewrite lookup_insert_eq, bool_decide_eq_true_2 by done. simpl.
        destruct (decide (va_sequence v = q)) as [<-|Hq].
        -- by rewrite lookup_insert_eq, bool_decide_eq_true_2.
        -- rewrite lookup_insert_ne, bool_decide_eq_false_2 by congruence. rewrite Hs. fold d0 in Hnew.
           by rewrite Hnew.
      * rewrite lookup_insert_ne, bool_decide_eq_false_2 by done. rewrite Hs. fold d0 in Hnew.
        by rewrite Hnew.
    + rewrite (lookup_insert_ne S) by done.
      assert (default ∅ (ix_shots index !! sh) !! (q, d)
        = (w ← S !! d; if (va_shot_id w == sh) && (va_sequence w == q)
             then Some (meta_of g d w) else None)) as <-.
      { rewrite Hs. destruct (S !! d); simpl; by rewrite ?Hm. }
      destruct (decide (va_shot_id v = sh)) as [<-|Hsh].
      * rewrite lookup_insert_eq. simpl. by rewrite lookup_insert_ne by congruence.
      * by rewrite lookup_insert_ne.
  - intros sh m [[_ <-]|[_ Hsh]]%lookup_insert_Some; [|by eapply Hsn].
    apply insert_non_empty.
  - intros p c. assert ((exists w, <[d0:=v]> S !! c = Some w /\ va_previous w = Some p) <->
      (c = d0 /\ va_previous v = Some p) \/ exists w, S !! c = Some w /\ va_previous w = Some p) as ->.
    { split.
      - intros (w&[[<- <-]|[_ Hw]]%lookup_insert_Some&Hp); eauto.
      - intros [[-> Hp]|(w&Hw&Hp)]; [exists v; by rewrite lookup_insert_eq|].
        exists w. split; [|done]. rewrite lookup_insert_ne; [done|].
        intros <-. fold d0 in Hnew. congruence. }
    rewrite <- Hc. destruct (va_previous v) as [p0|]; [|naive_solver].
    destruct (decide (p0 = p)) as [->|Hp].
    + rewrite lookup_insert_eq. simpl. rewrite elem_of_union, elem_of_singleton. naive_solver.
    + rewrite lookup_insert_ne by done. naive_solver.
  - intros p X. destruct (va_previous v) as [p0|]; [|apply Hcn].
    intros [[_ <-]|[_ HX]]%lookup_insert_Some; [set_solver|by eapply Hcn].
Qed.

Lemma update_validation_represents f index S d v validation :
  represents_with f index S -> S !! d = Some v ->
  represents_with (λ x, if decide (x = d) then validation else f x)
    (update_validation index (va_shot_id v) d validation) S.
Proof.
  intros [Ha Hs Hsn Hc Hcn] Hd. set (g := λ x, if decide (x = d) then validation else f x).
  assert (set_validation validation (meta_of f d v) = meta_of g d v) as Hm0.
  { unfold meta_of, g, set_validation. simpl. by rewrite decide_True. }
  assert (forall x w, x <> d -> meta_of g x w = meta_of f x w) as Hm.
  { intros x w Hx. unfold meta_of, g. by rewrite decide_False. }
  assert (ix_actions index !! d = Some (meta_of f d v)) as Hid by (by rewrite Ha, Hd).
  unfold update_validation. rewrite Hid, Hm0.
  constructor; cbn [ix_actions ix_shots ix_children].
  - intros x. destruct (decide (x = d)) as [->|Hx].
    + by rewrite lookup_insert_eq, Hd.
    + rewrite lookup_insert_ne, Ha by done. destruct (S !! x); simpl; by rewrite ?Hm.
  - intros sh q x. change (ref_sequence (am_reference (meta_of f d v))) with (va_sequence v).
    specialize (Hs sh q x) as Hsx.
    destruct (decide (sh = va_shot_id v)) as [->|Hsh].
    + rewrite lookup_alter_eq. destruct (ix_shots index !! va_shot_id v) as [m|] eqn:Em; simpl in *.
      * destruct (decide ((q, x) = (va_sequence v, d))) as [[= -> ->]|Hk].
        -- rewrite lookup_alter_eq, Hsx, Hd. simpl. rewrite !bool_decide_eq_true_2 by done. simpl.
           by rewrite Hm0.
        -- rewrite lookup_alter_ne, Hsx by congruence.
           destruct (S !! x) as [w|] eqn:Hx; [|done]. simpl.
           destruct (decide (x = d)) as [->|]; [|by rewrite Hm].
           assert (w = v) as -> by congruence.
           rewrite (bool_decide_eq_false_2 (va_sequence v = q)) by congruence.
           by rewrite andb_false_r.
      * rewrite Hsx. destruct (S !! x) as [w|] eqn:Hx; [|done]. simpl in *.
        by destruct ((va_shot_id w == va_shot_id v) && (va_sequence w == q)).
    + rewrite lookup_alter_ne, Hsx by done.
      destruct (S !! x) as [w|] eqn:Hx; [|done]. simpl.
      destruct (decide (x = d)) as [->|]; [|by rewrite Hm].
      assert (w = v) as -> by congruence.
      by rewrite bool_decide_eq_false_2 by done.
  - intros sh m. rewrite lookup_alter_Some. intros [(<-&m'&Hm'&->)|[_ Hsh]]; [|by eapply Hsn].
    intros E. apply (Hsn _ _ Hm'). apply map_eq. intros k. rewrite lookup_empty.
    apply (f_equal (λ t : ShotIndex, t !! k)) in E. rewrite lookup_empty in E.
    by apply lookup_alter_None in E.
  - done.
  - done.
Qed.
End represents.

(** ** Reclassification *)

Section reclassify.
Context `{Platform}.

Lemma pop_first_Some pending d rest : pop_first pending = Some (d, rest) ->
  d ∈ pending /\ rest = pending ∖ {[d]}.
Proof.
  unfold pop_first. destruct (stable_sort _ _) as [|x l] eqn:E; [done|]. intros [= <- <-].
  split; [|done]. apply elem_of_elements.
  rewrite <- (stable_sort_perm array_leb (elements pending)), E. by left.
Qed.

Lemma pop_first_None pending : pop_first pending = None -> pending = ∅.
Proof.
  unfold pop_first. destruct (stable_sort _ _) as [|x l] eqn:E; [|done]. intros _.
  apply leibniz_equiv, elements_empty_iff, Permutation_nil_r.
  by rewrite <- (stable_sort_perm array_leb (elements pending)), E.
Qed.

(** What the worklist loop has done: [done] is classified and [pending] is the
    frontier of the descendants of [root]. *)
Record frontier (S : Stored) (root : Bytes32) (f f0 : Bytes32 -> ActionValidation)
    (done pending : gset Bytes32) : Prop := {
  fr_disjoint : done ## pending;
  fr_stored : forall d, d ∈ done ∪ pending -> is_Some (S !! d);
  fr_root : root ∈ done ∪ pending;
  fr_children : forall c v p, S !! c = Some v -> va_previous v = Some p -> p ∈ done ->
    c ∈ done ∪ pending;
  fr_descends : forall c v, c ∈ done ∪ pending -> S !! c = Some v -> c <> root ->
    exists p, va_previous v = Some p /\ p ∈ done /\ chain S (Some p) root;
  fr_done : forall d, d ∈ done -> f d = class_of S d;
  fr_other : forall d, d ∉ done -> f d = f0 d }.

Lemma frontier_step S root f f0 done pending d v children :
  acyclic S -> frontier S root f f0 done pending -> d ∈ pending -> S !! d = Some v ->
  (forall c, c ∈ children <-> exists w, S !! c = Some w /\ va_previous w = Some d) ->
  frontier S root (λ x, if decide (x = d) then class_of S d else f x) f0
    ({[d]} ∪ done) (children ∪ pending ∖ {[d]}).
Proof.
  intros Hac [Hdis Hst Hroot Hch Hdesc Hdone Hoth] Hd Hv Hchildren.
  assert (forall c w, S !! c = Some w -> va_previous w = Some d -> c ∉ {[d]} ∪ done) as Hfresh.
  { intros c w Hc Hw [->%elem_of_singleton|Hcd]%elem_of_union.
    - assert (w = v) as -> by congruence. apply (Hac d v Hv). rewrite Hw. constructor.
    - destruct (decide (c = root)) as [->|Hcr].
      + apply (Hac _ _ Hc). rewrite Hw.
        destruct (decide (d = root)) as [->|Hdr]; [constructor|].
        destruct (Hdesc d v) as (p&Hp&_&Hchain); [set_solver|done|done|].
        eapply chain_step; [exact Hv|]. by rewrite Hp.
      + destruct (Hdesc c w) as (p&Hp&Hpd&_); [set_solver|done|done|].
        assert (p = d) as -> by congruence. set_solver. }
  constructor.
  - intros x Hx [Hxc|Hxp]%elem_of_union; [|set_solver].
    apply Hchildren in Hxc as (w&Hw&Hp). by apply (Hfresh x w).
  - intros x Hx. assert (x ∈ done ∪ pending \/ x ∈ children) as [?|Hc] by set_solver; [by apply Hst|].
    apply Hchildren in Hc as (w&Hw&_). by eexists.
  - destruct (decide (root = d)); set_solver.
  - intros c w p Hc Hp [->%elem_of_singleton|Hpd]%elem_of_union.
    + apply elem_of_union. right. apply elem_of_union. left. apply Hchildren. by exists w.
    + pose proof (Hch c w p Hc Hp Hpd). destruct (decide (c = d)); set_solver.
  - intros c w Hc Hw Hcr.
    assert (c ∈ done ∪ pending \/ c ∈ children) as [Hin|Hcc] by set_solver.
    + destruct (Hdesc c w Hin Hw Hcr) as (p&?&?&?). exists p. split_and!; [done|set_solver|done].
    + apply Hchildren in Hcc as (w'&Hw'&Hp). assert (w' = w) as -> by congruence.
      exists d. split_and!; [done|set_solver|].
      destruct (decide (d = root)) as [->|Hdr]; [constructor|].
      destruct (Hdesc d v) as (p&Hp'&_&Hchain); [set_solver|done|done|].
      eapply chain_step; [exact Hv|]. by rewrite Hp'.
  - intros x Hx. case_decide; [by subst|]. apply Hdone. set_solver.
  - intros x Hx. rewrite decide_False by set_solver. apply Hoth. set_solver.
Qed.

(** The loop ends within its fuel, and leaves every descendant classified. *)
Lemma reclassify_loop_spec S root f0 fuel index f done pending :
  acyclic S -> represents_with f index S -> frontier S root f f0 done pending ->
  size (dom S ∖ done) < fuel ->
  exists index' f' done', reclassify_loop fuel index pending = Some index' /\
    represents_with f' index' S /\ frontier S root f' f0 done' ∅ /\
    ix_issues index' = ix_issues index /\ ix_checked_files index' = ix_checked_files index.
Proof.
  intros Hac. revert index f done pending.
  induction fuel as [|fuel IH]; intros index f done pending Hr Hfr Hfuel; [lia|]. simpl.
  destruct (pop_first pending) as [[d rest]|] eqn:Hpop.
  2: { apply pop_first_None in Hpop as ->. by exists index, f, done. }
  apply pop_first_Some in Hpop as [Hd ->].
  destruct (fr_stored _ _ _ _ _ _ Hfr d) as [v Hv]; [set_solver|].
  rewrite (rp_actions _ _ _ Hr d), Hv. simpl.
  rewrite (classify_stored_of f index S d v Hr Hv).
  assert (d ∉ done) as Hnd by (pose proof (fr_disjoint _ _ _ _ _ _ Hfr); set_solver).
  edestruct (IH (update_validation index (va_shot_id v) d (class_of S d))
    (λ x, if decide (x = d) then class_of S d else f x) ({[d]} ∪ done)
    (default ∅ (ix_children index !! d) ∪ pending ∖ {[d]}))
    as (index'&f'&done'&?&?&?&Hi&Hc).
  - by eapply update_validation_represents.
  - eapply frontier_step; [done|done|done|done|]. intros c. apply (rp_children _ _ _ Hr).
  - enough (size (dom S ∖ ({[d]} ∪ done)) < size (dom S ∖ done)) by lia.
    apply subset_size. apply elem_of_dom_2 in Hv. set_solver.
  - exists index', f', done'. split_and!; [done..| |].
    + rewrite Hi. unfold update_validation. by destruct (ix_actions index !! d).
    + rewrite Hc. unfold update_validation. by destruct (ix_actions index !! d).
Qed.

(** A frontier with nothing pending contains all descendants of the root. *)
Lemma frontier_closed S root f f0 done : frontier S root f f0 done ∅ ->
  forall cursor, chain S cursor root -> forall c v, S !! c = Some v ->
  va_previous v = cursor -> c ∈ done.
Proof.
  intros [_ _ Hroot Hch _ _ _] cursor Hc. remember root as r eqn:Er.
  induction Hc as [d|d w r Hd Hc IH]; intros c v Hcv Hp; subst.
  - assert (c ∈ done ∪ ∅) by (eapply Hch; [done|done|set_solver]). set_solver.
  - assert (d ∈ done) by (by eapply IH). 
    assert (c ∈ done ∪ ∅) by (eapply Hch; done). set_solver.
Qed.

Lemma reclassify_descendants_spec f index S root :
  acyclic S -> represents_with f index S -> is_Some (S !! root) ->
  exists index' f' done, reclassify_descendants index root = Some index' /\
    represents_with f' index' S /\ frontier S root f' f done ∅ /\
    ix_issues index' = ix_issues index /\ ix_checked_files index' = ix_checked_files index.
Proof.
  intros Hac Hr Hroot. unfold reclassify_descendants.
  apply (reclassify_loop_spec S root f _ index f ∅ {[root]}); [done|done| |].
  - constructor; set_solver.
  - assert (size (dom S ∖ ∅) = size (ix_actions index)) as ->; [|lia].
    rewrite difference_empty_L, size_dom, <- !size_dom. f_equal. apply set_eq. intros d.
    rewrite !elem_of_dom, (rp_actions _ _ _ Hr d). by rewrite fmap_is_Some.
Qed.

Lemma class_of_insert (S : Stored) d v x w :
  S !! d = None -> S !! x = Some w -> ~ chain (<[d := v]> S) (va_previous w) d ->
  class_of (<[d := v]> S) x = class_of S x.
Proof.
  intros Hd Hx Hn. unfold class_of. rewrite lookup_insert_ne by congruence. rewrite Hx.
  unfold classify. rewrite walk_insert; [done|]. intros Hc. apply Hn. by apply chain_insert_mono.
Qed.

(** Adding a new action and reclassifying its descendants gives the index of the
    extended set. *)
Lemma add_reclassify index S v validation :
  represents index S -> acyclic S -> S !! va_digest v = None ->
  ~ chain S (va_previous v) (va_digest v) ->
  exists index',
    reclassify_descendants (add_stored index v (action_path (va_digest v)) validation)
      (va_digest v) = Some index' /\
    represents index' (<[va_digest v := v]> S) /\
    ix_issues index' = ix_issues index /\ ix_checked_files index' = ix_checked_files index.
Proof.
  intros Hr Hac Hd Hn.
  pose proof (add_stored_represents _ index S v validation Hr Hd) as Hadd.
  destruct (reclassify_descendants_spec _ _ _ (va_digest v)
    (acyclic_insert S _ v Hac Hd Hn) Hadd) as (index'&f'&done&Hre&Hr'&Hfr&Hi&Hc).
  { rewrite lookup_insert_eq. by eexists. }
  exists index'. split_and!; [done| |done|done].
  eapply represents_ext; [|exact Hr']. intros x [w Hx].
  destruct (decide (x ∈ done)) as [Hin|Hout]; [by eapply fr_done|].
  rewrite (fr_other _ _ _ _ _ _ Hfr x Hout).
  assert (x <> va_digest v) as Hne.
  { intros ->. apply Hout. pose proof (fr_root _ _ _ _ _ _ Hfr). set_solver. }
  rewrite decide_False by done. symmetry.
  pose proof Hx as Hxi. rewrite lookup_insert_ne in Hx by done.
  eapply class_of_insert; [done|done|]. intros Hchain. apply Hout.
  by eapply frontier_closed.
Qed.
End reclassify.

(** ** Files *)

Lemma hex_of_inj a b : Forall (λ x, 0 <= x < 256)%Z a -> Forall (λ x, 0 <= x < 256)%Z b ->
  hex_of a = hex_of b -> a = b.
Proof.
  intros (_&_&Ha)%hex_of_spec (_&_&Hb)%hex_of_spec E. rewrite E in Ha. congruence.
Qed.

(** The digits of a digest, without their prefix. *)
Lemma digest_hex d : drop 2 (bytes_of (to_hex d)) = hex_of (as_bytes (n:=32) d).
Proof. by rewrite to_hex_bytes. Qed.

Lemma hex_bound (d : Bytes32) :
  Forall (λ b, is_lower_hex b = true /\ 0 <= b < 256)%Z (hex_of (as_bytes d)) /\
  length (hex_of (as_bytes d)) = 64.
Proof.
  destruct (hex_of_spec (as_bytes d) (as_bytes_bound d)) as (H&Hl&_).
  split; [exact H|]. by rewrite Hl, as_bytes_length.
Qed.

Lemma action_path_inj d d' : action_path d = action_path d' -> d = d'.
Proof.
  unfold action_path. rewrite !digest_hex. intros [= _ E].
  apply (f_equal bytes_of) in E. rewrite !bytes_of_app in E. apply app_inv_tail in E.
  destruct (hex_bound d) as [H _], (hex_bound d') as [H' _].
  rewrite !bytes_of_string_of in E by (eapply Forall_impl; [eassumption|]; naive_solver).
  apply bytes_eq. by apply hex_of_inj; [apply as_bytes_bound..|].
Qed.

Lemma action_path_bucket d : is_bucket_name (fst (action_path d)) = true.
Proof.
  unfold action_path, is_bucket_name. rewrite digest_hex. cbn [fst].
  destruct (hex_bound d) as [H Hl].
  apply (Forall_take (λ b, is_lower_hex b = true /\ 0 <= b < 256)%Z 2) in H.
  assert (bytes_of (string_of (take 2 (hex_of (as_bytes d)))) = take 2 (hex_of (as_bytes d))) as E.
  { apply bytes_of_string_of. eapply Forall_impl; [exact H|]. naive_solver. }
  rewrite <- bytes_of_length, E, length_take, Hl. simpl. apply forallb_Forall.
  eapply Forall_impl; [exact H|]. naive_solver.
Qed.

Section disk.
Context `{PathDisplay}.

(** The directory holds exactly the canonical bytes of the actions of [S], each
    under the path its digest names. *)
Record disk_holds (disk : Disk) (S : Stored) : Prop := {
  dh_files : forall path bytes, entry_at disk path = Some (RegularFile bytes) <->
    exists d v, S !! d = Some v /\ path = action_path d /\ bytes = va_canonical_bytes v;
  dh_regular : forall path e, entry_at disk path = Some e -> exists bytes, e = RegularFile bytes;
  dh_buckets : forall b e, disk !! b = Some e ->
    is_bucket_name b = true /\ exists entries, e = Bucket entries }.

Lemma disk_holds_empty : disk_holds ∅ ∅.
Proof.
  constructor.
  - intros path bytes. unfold entry_at. rewrite lookup_empty. split; [done|].
    intros (d&v&Hd&_). by apply lookup_empty_Some in Hd.
  - intros path e. unfold entry_at. by rewrite lookup_empty.
  - intros b e. by rewrite lookup_empty.
Qed.

Lemma disk_holds_same disk1 disk2 S path e : disk_holds disk1 S -> disk_holds disk2 S ->
  entry_at disk1 path = Some e <-> entry_at disk2 path = Some e.
Proof.
  assert (forall d1 d2, disk_holds d1 S -> disk_holds d2 S ->
    entry_at d1 path = Some e -> entry_at d2 path = Some e) as Hdir.
  { intros d1 d2 H1 H2 He. destruct (dh_regular _ _ H1 _ _ He) as [bytes ->].
    by apply (dh_files _ _ H2), (dh_files _ _ H1). }
  intros. split; by apply Hdir.
Qed.

Lemma read_stored disk S d v limit : disk_holds disk S -> S !! d = Some v ->
  length (va_canonical_bytes v) <= limit ->
  read_regular_limited disk (action_path d) limit = Ok (va_canonical_bytes v).
Proof.
  intros Hd Hv Hl. unfold read_regular_limited.
  rewrite (proj2 (dh_files _ _ Hd (action_path d) _) (ex_intro _ d (ex_intro _ v (conj Hv
    (conj eq_refl eq_refl))))).
  by rewrite (proj2 (Nat.ltb_ge _ _) Hl).
Qed.

(** The entries of a bucket; one that does not exist yet is empty. *)
Definition bucket_entries (disk : Disk) (b : string) (entries : gmap string BucketEntry) : Prop :=
  match disk !! b with
  | Some (Bucket es) => entries = es
  | Some NotDirectory => False
  | None => entries = ∅
  end.

Lemma entry_at_insert disk b f bytes entries path :
  bucket_entries disk b entries ->
  entry_at (<[b := Bucket (<[f := RegularFile bytes]> entries)]> disk) path
    = if decide (path = (b, f)) then Some (RegularFile bytes) else entry_at disk path.
Proof.
  intros He. unfold bucket_entries in He. destruct path as [b' f']. unfold entry_at. cbn [fst snd].
  destruct (decide (b' = b)) as [->|Hb].
  - rewrite lookup_insert_eq. destruct (decide (f' = f)) as [->|Hf].
    + by rewrite lookup_insert_eq, decide_True.
    + rewrite lookup_insert_ne, decide_False by congruence.
      destruct (disk !! b) as [[es|]|]; [by subst|done|]. subst. apply lookup_empty.
  - by rewrite lookup_insert_ne, decide_False by congruence.
Qed.

Lemma create_free disk b f bytes entries : bucket_entries disk b entries ->
  entries !! f = None ->
  create_new_atomic disk (b, f) bytes
    = Ok (<[b := Bucket (<[f := RegularFile bytes]> entries)]> disk, true).
Proof.
  unfold bucket_entries, create_new_atomic. cbn [fst snd].
  destruct (disk !! b) as [[es|]|]; intros He Hf; [|done|]; subst; by rewrite Hf.
Qed.

(** Writing a new action creates its file and nothing else. *)
Lemma create_stored disk S d v : disk_holds disk S -> S !! d = None ->
  exists disk', create_new_atomic disk (action_path d) (va_canonical_bytes v) = Ok (disk', true) /\
    disk_holds disk' (<[d := v]> S).
Proof.
  intros Hh Hd. destruct (action_path d) as [b f] eqn:Ep.
  assert (entry_at disk (b, f) = None) as Hnone.
  { destruct (entry_at disk (b, f)) as [e|] eqn:E; [|done].
    destruct (dh_regular _ _ Hh _ _ E) as [bytes ->].
    apply (dh_files _ _ Hh) in E as (d'&v'&Hd'&Hpath&_). rewrite <- Ep in Hpath.
    apply action_path_inj in Hpath as <-. congruence. }
  assert (exists entries, bucket_entries disk b entries /\ entries !! f = None) as (entries&Hent&Hf).
  { unfold entry_at in Hnone. cbn [fst snd] in Hnone. unfold bucket_entries.
    destruct (disk !! b) as [e|] eqn:Eb; [|by exists ∅; rewrite lookup_empty].
    destruct (dh_buckets _ _ Hh _ _ Eb) as [_ [es ->]]. by exists es. }
  rewrite (create_free _ _ _ _ entries) by done. eexists. split; [done|].
  pose proof (λ path, entry_at_insert disk b f (va_canonical_bytes v) entries path Hent) as Hat.
  constructor.
  - intros path bytes. rewrite Hat. case_decide as Hp.
    + subst path. rewrite <- Ep. split.
      * intros [= <-]. exists d, v. by rewrite lookup_insert_eq.
      * intros (d'&v'&Hd'&<-%action_path_inj&->). rewrite lookup_insert_eq in Hd'. congruence.
    + rewrite (dh_files _ _ Hh). split.
      * intros (d'&v'&Hd'&->&->). exists d', v'. split; [|done].
        rewrite lookup_insert_ne; [done|congruence].
      * intros (d'&v'&[[<- <-]|[_ Hd']]%lookup_insert_Some&->&->); [by rewrite Ep in Hp|eauto].
  - intros path e. rewrite Hat. case_decide; [|by apply (dh_regular _ _ Hh)]. intros [= <-]. eauto.
  - intros b' e [[<- <-]|[_ Hb']]%lookup_insert_Some; [|by apply (dh_buckets _ _ Hh)].
    split; [|by eexists]. change b with (fst (b, f)). rewrite <- Ep. apply action_path_bucket.
Qed.
End disk.
