(* ===== verification/NodeSpec.v ===== *)
(** * What the node store promises

    The abstract store is a set of actions. [spec_ingest] says what ingesting
    does to it; the store of [NodeStore] refines it ([node_ok] relates the two),
    rebuilding from disk gives the same store back, and the classification of
    every stored action is the judgement on its stored ancestry. *)
From S2P Require Import Prelude Text Digest Keys Records Ontology Lineage Reduction NodeModel NodeStore NodeViews NodeFacts.

(** ** The abstract store *)

(** The stored actions of one Shot. *)
Definition shot_members (S : Stored) (sh : ShotId) : Stored := filter (λ p, va_shot_id p.2 = sh) S.

Section spec.
Context `{Platform} `{Codec}.

(** Outcome of ingesting [v] into a set where it is classified [validation]. *)
Definition outcome_of (v : ValidatedAction) (stored : bool) (validation : ActionValidation)
    : IngestOutcome :=
  {| out_digest := va_digest v; out_stored := stored; out_shot_id := va_shot_id v;
     out_sequence := va_sequence v; out_validation := validation |}.

(** The limits on the node and on each Shot. *)
Definition spec_limits (S : Stored) (v : ValidatedAction) : node_result unit :=
  fail_if (MAX_ACTIONS_PER_NODE <=? size S)%nat (ActionLimit MAX_ACTIONS_PER_NODE) ;;
  fail_if (MAX_ACTIONS_PER_SHOT <=? size (shot_members S (va_shot_id v)))%nat
    (ActionLimit MAX_ACTIONS_PER_SHOT).

(** The contract of [ingest], on the set of stored actions. *)
Definition spec_ingest (S : Stored) (bytes : list Z) : Stored * node_result IngestOutcome :=
  match parse_public bytes with
  | Err e => (S, Err e)
  | Ok v =>
      let d := va_digest v in
      match S !! d with
      | Some w =>
          (S, if va_canonical_bytes w == va_canonical_bytes v
              then Ok (outcome_of v false (class_of S d)) else Err ContentCollision)
      | None =>
          let verdict := classify (links_of S) d (va_signed v) (va_previous v) in
          match (spec_limits S v ;; reject_known_invalid verdict) with
          | Ok _ => (<[d := v]> S, Ok (outcome_of v true verdict))
          | Err e => (S, Err e)
          end
      end
  end.

(** Every stored action is one that [parse_public] accepts, under its own
    digest; no action is its own ancestor; the limits are kept. *)
Record stored_ok (S : Stored) : Prop := {
  so_parsed : forall d v, S !! d = Some v ->
    va_digest v = d /\ exists bytes, parse_public bytes = Ok v;
  so_acyclic : acyclic S;
  so_node : size S <= MAX_ACTIONS_PER_NODE;
  so_shot : forall sh, size (shot_members S sh) <= MAX_ACTIONS_PER_SHOT }.

(** The store holds the set [S], on disk and in its index. *)
Record node_ok `{PathDisplay} (store : Store) (S : Stored) : Prop := {
  no_stored : stored_ok S;
  no_disk : disk_holds (sto_disk store) S;
  no_index : represents (sto_index store) S }.

(** Parsing is a function of the canonical form: what [parse_public] accepts, it
    accepts again from the bytes it would store. This is the law of the JSON
    reader ([canonical::from_slice] inverts [canonical::to_vec] on values it
    produced itself), a hypothesis of the theorems that read files back. *)
Definition reencodes : Prop := forall bytes v,
  parse_public bytes = Ok v -> decode_action (va_canonical_bytes v) = Ok (va_signed v).

End spec.

(** ** Counting the actions of a Shot *)

Section counts.
Context `{Platform}.

Lemma represented_size f index S : represents_with f index S ->
  size (ix_actions index) = size S.
Proof.
  intros Hr. rewrite <- !size_dom. f_equal. apply set_eq. intros d.
  rewrite !elem_of_dom, (rp_actions _ _ _ Hr d). by rewrite fmap_is_Some.
Qed.

Lemma shot_members_lookup S sh d v :
  shot_members S sh !! d = Some v <-> S !! d = Some v /\ va_shot_id v = sh.
Proof. unfold shot_members. rewrite map_lookup_filter_Some. done. Qed.

(** The index holds as many entries for a Shot as the set holds actions of it. *)
Lemma shot_count_of f index S sh : represents_with f index S ->
  shot_count index sh = size (shot_members S sh).
Proof.
  intros Hr. unfold shot_count. set (m := default ∅ (ix_shots index !! sh)).
  rewrite <- !length_map_to_list, <- (length_fmap fst (map_to_list m)),
    <- (length_fmap (λ p, (va_sequence p.2, p.1)) (map_to_list (shot_members S sh))).
  apply Permutation_length, NoDup_Permutation.
  - apply NoDup_fst_map_to_list.
  - apply (NoDup_fmap_1 snd). rewrite <- list_fmap_compose. apply NoDup_fst_map_to_list.
  - intros [q d]. rewrite !list_elem_of_fmap. split.
    + intros ([[q' d'] a]&[= <- <-]&Ha%elem_of_map_to_list). unfold m in Ha.
      rewrite (rp_shots _ _ _ Hr) in Ha. destruct (S !! d) as [v|] eqn:Hd; [|done]. simpl in Ha.
      destruct ((va_shot_id v == sh) && (va_sequence v == q)) eqn:E; [|done].
      apply andb_true_iff in E as [Hsh%bool_decide_eq_true <-%bool_decide_eq_true].
      exists (d, v). split; [done|]. by apply elem_of_map_to_list, shot_members_lookup.
    + intros ([d' v]&[= -> ->]&[Hd Hs]%elem_of_map_to_list%shot_members_lookup).
      exists ((va_sequence v, d'), meta_of f d' v). split; [done|]. apply elem_of_map_to_list.
      unfold m. rewrite (rp_shots _ _ _ Hr), Hd. simpl. by rewrite !bool_decide_eq_true_2.
Qed.

Lemma shot_members_insert S d v sh : S !! d = None ->
  size (shot_members (<[d := v]> S) sh)
    = (if decide (va_shot_id v = sh) then 1 else 0) + size (shot_members S sh).
Proof.
  intros Hd. unfold shot_members. case_decide as Hs.
  - rewrite map_filter_insert_True by done. rewrite map_size_insert_None; [done|].
    apply map_lookup_filter_None. by left.
  - rewrite map_filter_insert_False by done. by rewrite delete_id.
Qed.

Lemma shot_members_mono (S1 S2 : Stored) sh : S1 ⊆ S2 ->
  size (shot_members S1 sh) <= size (shot_members S2 sh).
Proof.
  intros Hs. apply map_subseteq_size, map_subseteq_spec. intros d v.
  rewrite !shot_members_lookup. intros [Hd ?]. split; [|done]. by eapply lookup_weaken.
Qed.
End counts.

(** ** Parsing *)

Section parsing.
Context `{Platform} `{Codec}.

(** What [parse_public] accepts: at most 262144 bytes that decode to a
    verified, publicly available action whose canonical form also fits the
    limit; the result is that action, its commitment, and its canonical bytes. *)
Lemma parse_public_accepts_fact bytes v :
  parse_public bytes = Ok v <->
  length bytes <= MAX_ACTION_BYTES /\ length (va_canonical_bytes v) <= MAX_ACTION_BYTES /\
  decode_action bytes = Ok (va_signed v) /\ signed_verify (va_signed v) = Ok tt /\
  la_availability (sl_action (va_signed v)) = PubliclyAvailable /\
  signed_commitment (va_signed v) = Ok (va_digest v) /\
  canonical_to_vec (va_signed v) = Ok (va_canonical_bytes v) /\
  va_shot_id v = la_shot_id (sl_action (va_signed v)) /\
  va_sequence v = la_sequence (sl_action (va_signed v)) /\
  va_previous v = la_previous (sl_action (va_signed v)) /\
  va_missing_artifacts v = availability_observations (va_signed v) (va_digest v).
Proof.
  unfold parse_public, require_size, from_protocol. split.
  - intros Hp. res_inv. subst. simpl in *.
    split_and!; try done; by apply Nat.ltb_ge.
  - intros (Hb&Hc&Hd&Hv&Ha&Hg&He&Hs&Hq&Hp&Hm).
    rewrite (proj2 (Nat.ltb_ge _ _) Hb). simpl. rewrite Hd. simpl. rewrite Hv. simpl.
    rewrite Ha. simpl. rewrite Hg. simpl. rewrite He. simpl.
    rewrite (proj2 (Nat.ltb_ge _ _) Hc). simpl. destruct v; simpl in *; congruence.
Qed.

(** What [parse_public] accepts: at most 262144 bytes that decode to a
    verified, publicly available action whose canonical form also fits the
    limit; the result is that action, its commitment, and its canonical bytes. *)
Theorem parse_public_accepts bytes v :
  parse_public bytes = Ok v <->
  length bytes <= MAX_ACTION_BYTES /\ length (va_canonical_bytes v) <= MAX_ACTION_BYTES /\
  decode_action bytes = Ok (va_signed v) /\ signed_verify (va_signed v) = Ok tt /\
  la_availability (sl_action (va_signed v)) = PubliclyAvailable /\
  signed_commitment (va_signed v) = Ok (va_digest v) /\
  canonical_to_vec (va_signed v) = Ok (va_canonical_bytes v) /\
  va_shot_id v = la_shot_id (sl_action (va_signed v)) /\
  va_sequence v = la_sequence (sl_action (va_signed v)) /\
  va_previous v = la_previous (sl_action (va_signed v)) /\
  va_missing_artifacts v = availability_observations (va_signed v) (va_digest v).
Proof. by apply parse_public_accepts_fact. Qed.

Lemma parsed_size bytes v : parse_public bytes = Ok v ->
  length (va_canonical_bytes v) <= MAX_ACTION_BYTES.
Proof. by intros (_&?&_)%parse_public_accepts_fact. Qed.

(** What is stored parses back to the action it was stored for. *)
Lemma reparse bytes v : reencodes -> parse_public bytes = Ok v ->
  parse_public (va_canonical_bytes v) = Ok v.
Proof.
  intros Hre Hp. pose proof (Hre _ _ Hp) as Hd. apply parse_public_accepts_fact in Hp.
  apply parse_public_accepts_fact. naive_solver.
Qed.
End parsing.

(** ** Ingestion *)

Section ingestion.
Context `{Platform} `{Codec} `{PathDisplay}.

Lemma classify_admissible (S : Stored) d signed previous :
  reject_known_invalid (classify (links_of S) d signed previous) = Ok tt ->
  ~ chain S previous d.
Proof.
  unfold classify. destruct (walk _ _ _ _ _) as [| |b m] eqn:Hw; try done. intros _.
  eapply walk_not_chain; [exact Hw|set_solver].
Qed.

(** The verdict on a candidate is its classification once stored. *)
Lemma class_of_new (S : Stored) v : ~ chain S (va_previous v) (va_digest v) ->
  class_of (<[va_digest v := v]> S) (va_digest v)
    = classify (links_of S) (va_digest v) (va_signed v) (va_previous v).
Proof.
  intros Hn. unfold class_of. rewrite lookup_insert_eq. unfold classify. by rewrite walk_insert.
Qed.

Lemma stored_ok_insert S v bytes : stored_ok S -> parse_public bytes = Ok v ->
  S !! va_digest v = None -> ~ chain S (va_previous v) (va_digest v) ->
  size S < MAX_ACTIONS_PER_NODE -> size (shot_members S (va_shot_id v)) < MAX_ACTIONS_PER_SHOT ->
  stored_ok (<[va_digest v := v]> S).
Proof.
  intros [Hp Hac Hn Hs] Hv Hd Hch Hn' Hs'. constructor.
  - intros d w [[<- <-]|[_ Hw]]%lookup_insert_Some; [eauto|by apply Hp].
  - by apply acyclic_insert.
  - rewrite map_size_insert_None by done. lia.
  - intros sh. rewrite shot_members_insert by done. case_decide; [subst; lia|apply Hs].
Qed.

Lemma ingest_limits_spec f index S v : represents_with f index S ->
  ingest_limits index v = spec_limits S v.
Proof.
  intros Hr. unfold ingest_limits, spec_limits.
  by rewrite (represented_size _ _ _ Hr), (shot_count_of _ _ _ _ Hr).
Qed.

Lemma classify_candidate_of f index S v : represents_with f index S ->
  classify_candidate index v = classify (links_of S) (va_digest v) (va_signed v) (va_previous v).
Proof.
  intros Hr. unfold classify_candidate, classify. erewrite walk_ext; [done|].
  intros d. by eapply index_links_of.
Qed.

(** An admitted new action. *)
Lemma ingest_new_admitted store S v bytes : node_ok store S -> parse_public bytes = Ok v ->
  S !! va_digest v = None ->
  ingest_limits (sto_index store) v = Ok tt ->
  reject_known_invalid (classify_candidate (sto_index store) v) = Ok tt ->
  exists store', ingest_new store v
      = Ok (store', outcome_of v true (classify_candidate (sto_index store) v)) /\
    node_ok store' (<[va_digest v := v]> S).
Proof.
  intros [Hok Hdisk Hr] Hv Hd Hlim Hrej. unfold ingest_new.
  rewrite Hlim. cbn [mbind Result_bind]. rewrite Hrej. cbn [mbind Result_bind].
  destruct (create_stored _ _ (va_digest v) v Hdisk Hd) as (disk'&->&Hdisk').
  cbn [mbind Result_bind].
  rewrite (classify_candidate_of _ _ _ _ Hr) in *.
  pose proof (classify_admissible _ _ _ _ Hrej) as Hn.
  edestruct (add_reclassify _ S v (classify (links_of S) (va_digest v) (va_signed v) (va_previous v))
    Hr (so_acyclic _ Hok) Hd Hn) as (final&->&Hr'&_&_).
  cbn [default from_option id mbind Result_bind].
  rewrite (rp_actions _ _ _ Hr'), lookup_insert_eq. cbn [fmap option_fmap option_map ok_or mbind Result_bind].
  eexists. split.
  - unfold outcome_of. do 3 f_equal. simpl. by apply class_of_new.
  - constructor; [|done|done].
    rewrite (ingest_limits_spec _ _ _ _ Hr) in Hlim. unfold spec_limits in Hlim. res_inv.
    eapply stored_ok_insert; try done; by apply Nat.leb_gt.
Qed.

(** Simulation: every result and every state agree with the specification. *)
Lemma store_refines store S bytes : node_ok store S ->
  (ingest store bytes).2 = (spec_ingest S bytes).2 /\
  node_ok (ingest store bytes).1 (spec_ingest S bytes).1.
Proof.
  intros Hok. pose proof Hok as [Hst Hdisk Hr]. unfold ingest, spec_ingest.
  destruct (parse_public bytes) as [v|e] eqn:Hp; [|done].
  rewrite (rp_actions _ _ _ Hr). destruct (S !! va_digest v) as [w|] eqn:Hd; simpl.
  - split; [|done]. unfold ingest_existing. simpl.
    destruct (so_parsed _ Hst _ _ Hd) as [Hw [bytes' Hp']].
    rewrite (read_stored _ _ _ _ _ Hdisk Hd (parsed_size _ _ Hp')). simpl.
    by case_bool_decide.
  - rewrite <- (classify_candidate_of _ _ _ _ Hr).
    rewrite <- (ingest_limits_spec _ _ _ _ Hr).
    destruct (ingest_limits (sto_index store) v) as [[]|e] eqn:Hlim; simpl.
    2: { unfold ingest_new. by rewrite Hlim. }
    destruct (reject_known_invalid (classify_candidate (sto_index store) v)) as [[]|e] eqn:Hrej.
    2: { unfold ingest_new. rewrite Hlim. simpl. by rewrite Hrej. }
    by destruct (ingest_new_admitted _ _ _ _ Hok Hp Hd Hlim Hrej) as (store'&->&Hok').
Qed.

(** [C4] The store refines its specification: on every input [ingest] gives the
    result [spec_ingest] gives, and the directory and the index it leaves hold
    the set of actions [spec_ingest] leaves. *)
Theorem ingest_refines store S bytes : node_ok store S ->
  (ingest store bytes).2 = (spec_ingest S bytes).2 /\
  node_ok (ingest store bytes).1 (spec_ingest S bytes).1.
Proof. by apply store_refines. Qed.
End ingestion.
