(* ===== verification/NodeScan.v ===== *)
(** * Rebuilding the index from disk

    [scan_index] reads the whole directory back. On a directory that holds a set
    of stored actions it reports no issue and yields the index of that set, so an
    audit finds memory and disk in agreement. *)
From S2P Require Import Prelude Text Digest Keys Records Ontology Lineage Reduction NodeModel NodeStore NodeViews NodeFacts NodeSpec.

(** ** Collecting the files *)

Section collect.
Context `{PathDisplay}.

Lemma omap_all {A B} (f : A -> option B) (g : A -> B) (l : list A) :
  (forall x, x ∈ l -> f x = Some (g x)) -> omap f l = g <$> l.
Proof.
  induction l as [|x l IH]; intros Hl; [done|]. simpl.
  rewrite (Hl x) by set_solver. f_equal. apply IH. set_solver.
Qed.

Lemma omap_none {A B} (f : A -> option B) (l : list A) : (forall x, x ∈ l -> f x = None) -> omap f l = [].
Proof.
  induction l as [|x l IH]; intros Hl; [done|]. simpl.
  rewrite (Hl x) by set_solver. apply IH. set_solver.
Qed.

Lemma elem_of_sorted_map {A} leb (m : gmap string A) k x :
  (k, x) ∈ stable_sort leb (map_to_list m) <-> m !! k = Some x.
Proof. by rewrite (stable_sort_perm leb), elem_of_map_to_list. Qed.

Lemma sorted_map_NoDup {A} leb (m : gmap string A) :
  NoDup (stable_sort leb (map_to_list m)).
Proof. rewrite (stable_sort_perm leb). apply NoDup_map_to_list. Qed.

Lemma elem_of_entry_paths disk S b e path : disk_holds disk S -> disk !! b = Some e ->
  path ∈ fst (collect_entry (b, e)) <-> fst path = b /\ is_Some (entry_at disk path).
Proof.
  intros Hh Hb. destruct (dh_buckets _ _ Hh _ _ Hb) as [Hname [entries ->]].
  unfold collect_entry, collect_bucket. cbn [fst snd]. rewrite Hname. cbn [fst].
  destruct path as [b' f]. unfold entry_at. cbn [fst snd]. rewrite list_elem_of_omap. split.
  - intros ([f' x]&Hin&Hx). apply elem_of_sorted_map in Hin. simpl in Hx.
    destruct x; [|done]. injection Hx as <- <-. rewrite Hb. by eexists.
  - intros [-> [x Hx]]. rewrite Hb in Hx. exists (f, x). split; [by apply elem_of_sorted_map|].
    destruct (dh_regular _ _ Hh (b, f) x) as [bytes ->]; [|done].
    unfold entry_at. simpl. by rewrite Hb.
Qed.

Lemma entry_paths_NoDup disk S b e : disk_holds disk S -> disk !! b = Some e ->
  NoDup (fst (collect_entry (b, e))).
Proof.
  intros Hh Hb. destruct (dh_buckets _ _ Hh _ _ Hb) as [Hname [entries ->]].
  unfold collect_entry, collect_bucket. cbn [fst snd]. rewrite Hname. cbn [fst].
  rewrite (omap_all _ (λ p, (b, fst p))).
  - rewrite (stable_sort_perm name_leb).
    change (NoDup (pair b ∘ fst <$> map_to_list entries)). rewrite list_fmap_compose.
    apply (NoDup_fmap_2 (pair b)), NoDup_fst_map_to_list.
  - intros [f x] Hin%elem_of_sorted_map.
    destruct (dh_regular _ _ Hh (b, f) x) as [bytes ->]; [|done].
    unfold entry_at. simpl. by rewrite Hb.
Qed.

Lemma entry_issues disk S b e : disk_holds disk S -> disk !! b = Some e ->
  snd (collect_entry (b, e)) = [].
Proof.
  intros Hh Hb. destruct (dh_buckets _ _ Hh _ _ Hb) as [Hname [entries ->]].
  unfold collect_entry, collect_bucket. cbn [fst snd]. rewrite Hname. cbn [snd].
  apply omap_none. intros [f x] Hin%elem_of_sorted_map.
  destruct (dh_regular _ _ Hh (b, f) x) as [bytes ->]; [|done].
  unfold entry_at. simpl. by rewrite Hb.
Qed.

(** The files found are the paths of the stored actions, each once. *)
Lemma collect_holds disk S : disk_holds disk S ->
  (collect_action_paths disk).2 = [] /\
  (collect_action_paths disk).1 ≡ₚ action_path <$> (map_to_list S).*1.
Proof.
  intros Hh. unfold collect_action_paths. cbn [fst snd].
  set (buckets := stable_sort name_leb (map_to_list disk)). split.
  - assert (forall p, p ∈ buckets -> (collect_entry p).2 = []) as Hnone.
    { intros [b e] Hb%elem_of_sorted_map. by eapply entry_issues. }
    clearbody buckets. induction buckets as [|p l IH]; [done|]. simpl.
    rewrite Hnone by set_solver. apply IH. set_solver.
  - rewrite list_fmap_bind. apply NoDup_Permutation.
    + apply NoDup_bind.
      * intros [b1 e1] [b2 e2] path Hb1%elem_of_sorted_map Hb2%elem_of_sorted_map H1 H2.
        unfold compose in *.
        apply (elem_of_entry_paths _ _ _ _ _ Hh Hb1) in H1 as [<- _].
        apply (elem_of_entry_paths _ _ _ _ _ Hh Hb2) in H2 as [<- _]. congruence.
      * intros [b e] Hb%elem_of_sorted_map. by eapply entry_paths_NoDup.
      * apply sorted_map_NoDup.
    + apply NoDup_fmap_2; [intros ??; apply action_path_inj|apply NoDup_fst_map_to_list].
    + intros path. rewrite list_elem_of_bind, list_elem_of_fmap. split.
      * intros ([b e]&Hp&Hb%elem_of_sorted_map). unfold compose in Hp.
        apply (elem_of_entry_paths _ _ _ _ _ Hh Hb) in Hp as [_ [x Hx]].
        destruct (dh_regular _ _ Hh _ _ Hx) as [bytes ->].
        apply (dh_files _ _ Hh) in Hx as (d&v&Hd&->&_). exists d. split; [done|].
        apply list_elem_of_fmap. exists (d, v). by rewrite elem_of_map_to_list.
      * intros (d&->&([d' v]&->&Hd%elem_of_map_to_list)%list_elem_of_fmap). simpl.
        assert (entry_at disk (action_path d') = Some (RegularFile (va_canonical_bytes v))) as Hx.
        { apply (dh_files _ _ Hh). eauto. }
        pose proof Hx as Hx'. unfold entry_at in Hx'.
        destruct (disk !! (action_path d').1) as [e|] eqn:Hb; [|done].
        exists ((action_path d').1, e). split; [|by apply elem_of_sorted_map].
        apply (elem_of_entry_paths _ _ _ _ _ Hh Hb). eauto.
Qed.
End collect.

(** ** Examining and admitting them *)

Section scan.
Context `{Platform} `{Codec} `{PathDisplay}.

(** The scan's candidate for a stored action. *)
Definition candidate_of (p : Bytes32 * ValidatedAction) : ActionPath * ValidatedAction :=
  (action_path (fst p), snd p).

Lemma examine_stored disk S d v : reencodes -> stored_ok S -> disk_holds disk S ->
  S !! d = Some v -> examine disk (action_path d) = inl (candidate_of (d, v)).
Proof.
  intros Hre Hok Hh Hd. destruct (so_parsed _ Hok _ _ Hd) as [Hv [bytes Hp]].
  unfold examine. rewrite (read_stored _ _ _ _ _ Hh Hd (parsed_size _ _ Hp)).
  cbn [mbind Result_bind]. rewrite (reparse _ _ Hre Hp). cbn [mbind Result_bind].
  rewrite Hv. by rewrite !bool_decide_eq_true_2.
Qed.

Lemma examined_candidates disk S : reencodes -> stored_ok S -> disk_holds disk S ->
  examine disk <$> (collect_action_paths disk).1 ≡ₚ inl ∘ candidate_of <$> map_to_list S.
Proof.
  intros Hre Hok Hh. rewrite (proj2 (collect_holds disk S Hh)), <- !list_fmap_compose.
  apply Permutation_refl', list_fmap_ext. intros i [d v] Hi%list_elem_of_lookup_2%elem_of_map_to_list.
  by eapply examine_stored.
Qed.

(** Admitting candidates one by one adds them to the index, as long as they are
    distinct members of a set within the limits. *)
Lemma admit_all S l : (forall sh, size (shot_members S sh) <= MAX_ACTIONS_PER_SHOT) ->
  forall index f S0, represents_with f index S0 -> S0 ⊆ S ->
  NoDup (va_digest <$> l.*2) ->
  (forall c, c ∈ l -> c.1 = action_path (va_digest c.2) /\
    S !! va_digest c.2 = Some c.2 /\ S0 !! va_digest c.2 = None) ->
  exists f' S1, represents_with f' (foldl admit_candidate index l) S1 /\ S0 ⊆ S1 /\ S1 ⊆ S /\
    (forall c, c ∈ l -> S1 !! va_digest c.2 = Some c.2) /\
    ix_issues (foldl admit_candidate index l) = ix_issues index /\
    ix_checked_files (foldl admit_candidate index l) = ix_checked_files index.
Proof.
  intros Hlim. induction l as [|[path v] l IH]; intros index f S0 Hr Hsub Hnd Hl.
  { exists f, S0. split_and!; try done. intros c Hc. by apply not_elem_of_nil in Hc. }
  destruct (Hl (path, v)) as (Hpath&Hv&Hnew); [by left|]. simpl in Hpath, Hv, Hnew.
  apply NoDup_cons in Hnd as [Hnotin Hnd].
  assert (<[va_digest v := v]> S0 ⊆ S) as Hsub' by (by apply insert_subseteq_l).
  assert (size (shot_members S0 (va_shot_id v)) < MAX_ACTIONS_PER_SHOT) as Hroom.
  { pose proof (shot_members_mono _ _ (va_shot_id v) Hsub') as Hm.
    rewrite shot_members_insert, decide_True in Hm by done. specialize (Hlim (va_shot_id v)). lia. }
  set (validation := unresolved_validation (va_previous v)
    "authority context has not yet been derived from stored lineage").
  assert (admit_candidate index (path, v)
    = add_stored index v (action_path (va_digest v)) validation) as Hadmit.
  { unfold admit_candidate. rewrite (rp_actions _ _ _ Hr), Hnew. simpl.
    rewrite (shot_count_of _ _ _ _ Hr), (proj2 (Nat.leb_gt _ _)) by done. by subst path. }
  pose proof (add_stored_represents f index S0 v validation Hr Hnew) as Hr'.
  change (foldl admit_candidate index ((path, v) :: l))
    with (foldl admit_candidate (admit_candidate index (path, v)) l). rewrite Hadmit.
  destruct (IH _ _ _ Hr' Hsub' Hnd) as (f'&S1&Hr1&Hs01&Hs1&Hin&Hi&Hc).
  - intros c Hc. destruct (Hl c) as (?&?&?); [by right|]. split_and!; [done|done|].
    rewrite lookup_insert_ne; [done|]. intros E. apply Hnotin. simpl. rewrite E.
    by do 2 apply list_elem_of_fmap_2.
  - exists f', S1. split_and!; try done.
    + etrans; [|exact Hs01]. by apply insert_subseteq.
    + intros c [->|Hcl]%elem_of_cons; [|by apply Hin]. simpl.
      eapply lookup_weaken; [|exact Hs01]. apply lookup_insert_eq.
Qed.

(** ** The classification pass *)

Lemma classify_pass S l : forall index f, represents_with f index S ->
  (forall meta, meta ∈ l -> exists v g, S !! ref_digest (am_reference meta) = Some v /\
    meta = meta_of g (ref_digest (am_reference meta)) v) ->
  let final := foldl (λ index meta,
    let digest := ref_digest (am_reference meta) in
    update_validation index (ref_shot_id (am_reference meta)) digest
      (classify_stored index digest)) index l in
  represents_with (λ d, if decide (d ∈ ref_digest ∘ am_reference <$> l) then class_of S d else f d)
    final S /\ ix_issues final = ix_issues index /\ ix_checked_files final = ix_checked_files index.
Proof.
  induction l as [|meta l IH]; intros index f Hr Hl; cbn [foldl]; cbv zeta.
  { split_and!; [|done|done]. eapply represents_ext; [|exact Hr]. intros d _.
    rewrite decide_False; [done|]. apply not_elem_of_nil. }
  destruct (Hl meta) as (v&g&Hv&Hm); [by left|]. set (d := ref_digest (am_reference meta)) in *.
  assert (ref_shot_id (am_reference meta) = va_shot_id v) as -> by (by rewrite Hm).
  rewrite (classify_stored_of f index S d v Hr Hv).
  destruct (IH _ _ (update_validation_represents f index S d v (class_of S d) Hr Hv))
    as (Hr'&Hi&Hc). { intros m Hin. apply Hl. by right. }
  split_and!.
  - eapply represents_ext; [|exact Hr']. intros x _. simpl.
    destruct (decide (x ∈ ref_digest ∘ am_reference <$> l)) as [Hin|Hin].
    + rewrite decide_True; [done|by right].
    + destruct (decide (x = d)) as [->|Hx].
      * rewrite decide_True; [done|by left].
      * rewrite decide_False; [done|]. by intros [?|?]%elem_of_cons.
  - etrans; [exact Hi|]. unfold update_validation. by destruct (ix_actions index !! d).
  - etrans; [exact Hc|]. unfold update_validation. by destruct (ix_actions index !! d).
Qed.

Lemma elem_of_action_values (m : gmap Bytes32 ActionMeta) meta :
  meta ∈ action_values m <-> exists d, m !! d = Some meta.
Proof.
  unfold action_values. rewrite (stable_sort_perm _), list_elem_of_fmap. split.
  - intros ([d x]&->&Hd%elem_of_map_to_list). by exists d.
  - intros [d Hd]. exists (d, meta). by rewrite elem_of_map_to_list.
Qed.

Lemma classify_all_spec f index S : represents_with f index S ->
  represents (classify_all index) S /\ ix_issues (classify_all index) = ix_issues index /\
  ix_checked_files (classify_all index) = ix_checked_files index.
Proof.
  intros Hr. unfold classify_all.
  destruct (classify_pass S (action_values (ix_actions index)) index f Hr) as (Hr'&Hi&Hc).
  { intros meta [d Hd]%elem_of_action_values. rewrite (rp_actions _ _ _ Hr) in Hd.
    destruct (S !! d) as [v|] eqn:Hv; [|done]. injection Hd as <-. by exists v, f. }
  split_and!; [|done|done]. eapply represents_ext; [|exact Hr'].
  intros d [v Hv]. simpl. rewrite decide_True; [done|]. apply list_elem_of_fmap.
  exists (meta_of f d v). split; [done|]. apply elem_of_action_values. exists d.
  by rewrite (rp_actions _ _ _ Hr), Hv.
Qed.

(** ** The scan *)

Lemma omap_inl (l : list (Bytes32 * ValidatedAction)) (examined : list
    (ActionPath * ValidatedAction + IntegrityIssue)) :
  examined ≡ₚ inl ∘ candidate_of <$> l ->
  omap (λ x, match x with inl c => Some c | inr _ => None end) examined ≡ₚ candidate_of <$> l /\
  omap (λ x, match x with inl _ => None | inr i => Some i end) examined = [].
Proof.
  intros E. split.
  - rewrite E. clear E. induction l as [|p l IH]; [done|]. simpl. by constructor.
  - apply Permutation_nil_r. rewrite E. clear E. by induction l.
Qed.

Lemma scan_holds disk S : reencodes -> stored_ok S -> disk_holds disk S ->
  exists scanned, scan_index disk = Ok scanned /\ represents scanned S /\
    ix_issues scanned = [] /\ ix_checked_files scanned = size S.
Proof.
  intros Hre Hok Hh. pose proof (collect_holds disk S Hh) as [Hiss Hpaths].
  pose proof (examined_candidates disk S Hre Hok Hh) as Hex.
  unfold scan_index. destruct (collect_action_paths disk) as [paths issues]. simpl in Hiss, Hpaths, Hex.
  subst issues. assert (length paths = size S) as Hlen.
  { rewrite Hpaths, !length_fmap. apply length_map_to_list. }
  rewrite Hlen, (proj2 (Nat.ltb_ge _ _) (so_node _ Hok)). cbn [fail_if mbind Result_bind].
  destruct (omap_inl _ _ Hex) as [Hcand ->].
  eexists. split; [done|]. rewrite app_nil_r.
  match goal with |- context [foldl admit_candidate ?s ?l] => set (start := s); set (cands := l) end.
  assert (cands ≡ₚ candidate_of <$> map_to_list S) as Hc.
  { unfold cands. by rewrite (stable_sort_perm candidate_leb). }
  assert (forall c, c ∈ cands <-> exists d, S !! d = Some c.2 /\ c.1 = action_path d) as Hin.
  { intros [path v]. rewrite Hc, list_elem_of_fmap. split.
    - intros ([d w]&[= -> ->]&Hd%elem_of_map_to_list). by exists d.
    - intros (d&Hd&Hp). exists (d, v). simpl in *. subst. by rewrite elem_of_map_to_list. }
  destruct (admit_all S cands (so_shot _ Hok) start (class_of S) ∅)
    as (f&S1&Hr&_&Hsub&Hall&Hi&Hck).
  - by apply represents_empty.
  - apply map_empty_subseteq.
  - assert (va_digest <$> cands.*2 ≡ₚ (map_to_list S).*1) as ->; [|apply NoDup_fst_map_to_list].
    rewrite Hc, <- !list_fmap_compose. apply Permutation_refl', list_fmap_ext.
    intros i [d v] Hd%list_elem_of_lookup_2%elem_of_map_to_list. simpl.
    by destruct (so_parsed _ Hok _ _ Hd).
  - intros c (d&Hd&Hp)%Hin. destruct (so_parsed _ Hok _ _ Hd) as [Hdg _].
    rewrite Hdg. split_and!; [done|done|apply lookup_empty].
  - assert (S1 = S) as ->.
    { apply (anti_symm (⊆)); [done|]. apply map_subseteq_spec. intros d v Hd.
      destruct (so_parsed _ Hok _ _ Hd) as [Hdg _]. rewrite <- Hdg. apply (Hall (action_path d, v)).
      apply Hin. by exists d. }
    destruct (classify_all_spec _ _ _ Hr) as (Hr'&Hi'&Hc').
    split_and!; [done|by rewrite Hi', Hi|by rewrite Hc', Hck].
Qed.

Lemma matches_same a b : ix_actions a = ix_actions b -> ix_shots a = ix_shots b ->
  ix_children a = ix_children b -> matches a b = true.
Proof. intros Ha Hb Hc. unfold matches. rewrite Ha, Hb, Hc. by rewrite !bool_decide_eq_true_2. Qed.

(** An audit of a sound store finds nothing: the directory is read back as
    the very index held in memory, every file is counted, and the report says
    that memory matches disk without issues. *)
Theorem integrity_is_clean store S : reencodes -> node_ok store S ->
  exists report, integrity store = Ok report /\ rep_ok report = true /\
    rep_memory_matches_disk report = true /\ rep_issues report = [] /\
    rep_checked_actions report = size S /\ rep_indexed_actions report = size S.
Proof.
  intros Hre [Hok Hd Hr]. unfold integrity.
  destruct (scan_holds _ _ Hre Hok Hd) as (scanned&->&Hr'&Hi&Hc). simpl.
  destruct (represents_unique _ _ _ _ Hr Hr') as (Ha&Hs&Hch).
  rewrite (matches_same _ _ Ha Hs Hch). eexists. split; [done|]. unfold report_for. simpl.
  rewrite Hi, Hc, bool_decide_eq_true_2 by done. split_and!; try done.
  by apply (represented_size _ _ _ Hr').
Qed.

(** [C6] Rebuilding after the in-memory index was lost or damaged in any way
    restores it: from the directory alone the store holds the same set again,
    and the rebuilt index is the one a sound store would have. Opening the
    directory anew gives that same store. *)
Theorem rebuild_restores store store0 S : reencodes -> node_ok store S ->
  sto_disk store0 = sto_disk store ->
  node_ok (rebuild store0).1 S /\ is_ok (rebuild store0).2 = true /\
  ix_actions (sto_index (rebuild store0).1) = ix_actions (sto_index store) /\
  ix_shots (sto_index (rebuild store0).1) = ix_shots (sto_index store) /\
  ix_children (sto_index (rebuild store0).1) = ix_children (sto_index store) /\
  open_store (sto_disk store) = Ok (rebuild store0).1.
Proof.
  intros Hre [Hok Hd Hr] E. unfold rebuild, open_store. rewrite E.
  destruct (scan_holds _ _ Hre Hok Hd) as (scanned&->&Hr'&Hi&Hc). simpl.
  split_and!; [|done|apply (represents_unique _ _ _ _ Hr' Hr)..|done].
  by constructor.
Qed.
End scan.
