(* ===== verification/NodeLaws.v ===== *)
(** * Laws of the node

    Consequences of the refinement: what a classification means, that stored
    actions are served unchanged for ever, that nodes holding the same actions
    agree whatever order they received them in, and which actions are heads. *)
From S2P Require Import Prelude Text Digest Keys Records Ontology Lineage Reduction NodeModel NodeStore NodeViews NodeFacts NodeSpec.

(** ** The meaning of a classification *)

(** [ancestry S cursor branch missing]: the stored actions reached from [cursor]
    along previous links, oldest first, and the first link that is not stored. *)
Inductive ancestry (S : Stored) :
    option Bytes32 -> list SignedLineageAction -> option Bytes32 -> Prop :=
  | ancestry_root : ancestry S None [] None
  | ancestry_missing d : S !! d = None -> ancestry S (Some d) [] (Some d)
  | ancestry_step d v branch missing : S !! d = Some v ->
      ancestry S (va_previous v) branch missing ->
      ancestry S (Some d) (branch ++ [va_signed v]) missing.

Section classification.
Context `{Platform}.

Lemma walk_ancestry (S : Stored) room seen branch cursor b m :
  walk (links_of S) room seen branch cursor = Walked b m ->
  exists anc, ancestry S cursor anc m /\ b = anc ++ branch /\ length anc <= room.
Proof.
  revert seen branch cursor. induction room as [|room IH]; intros seen branch cursor;
    destruct cursor as [d|]; simpl.
  - by case_bool_decide.
  - intros [= <- <-]. exists []. split_and!; [constructor|done|done].
  - case_bool_decide; [done|]. unfold links_of at 1. destruct (S !! d) as [v|] eqn:Hd; simpl.
    + intros (anc&Ha&->&Hl)%IH. exists (anc ++ [va_signed v]).
      split_and!; [by eapply ancestry_step|by rewrite <- app_assoc|rewrite length_app; simpl; lia].
    + intros [= <- <-]. exists []. split_and!; [by constructor|done|simpl; lia].
  - intros [= <- <-]. exists []. split_and!; [constructor|done|simpl; lia].
Qed.

Lemma ancestry_walk (S : Stored) cursor anc m : acyclic S -> ancestry S cursor anc m ->
  forall room seen branch, length anc <= room -> (m = None \/ length anc < room) ->
  (forall x, x ∈ seen -> ~ chain S cursor x) ->
  walk (links_of S) room seen branch cursor = Walked (anc ++ branch) m.
Proof.
  intros Hac. induction 1 as [|d Hd|d v anc m Hd _ IH]; intros room seen branch Hl Hm Hs.
  - by destruct room.
  - destruct Hm as [|Hm]; [done|]. destruct room; [simpl in Hm; lia|]. simpl.
    rewrite bool_decide_eq_false_2.
    + unfold links_of at 1. by rewrite Hd.
    + intros Hin. apply (Hs d Hin). constructor.
  - rewrite length_app in Hl, Hm. simpl in Hl, Hm. destruct room as [|room]; [lia|]. simpl.
    rewrite bool_decide_eq_false_2.
    2: { intros Hin. apply (Hs d Hin). constructor. }
    unfold links_of at 1. rewrite Hd. simpl. rewrite <- app_assoc. apply IH; [lia| |].
    + destruct Hm; [by left|right; lia].
    + intros x [->%elem_of_singleton|Hx]%elem_of_union Hc; [by apply (Hac _ _ Hd)|].
      apply (Hs x Hx). by eapply chain_step.
Qed.

Lemma ancestry_missing_chain (S : Stored) cursor anc p : ancestry S cursor anc (Some p) ->
  chain S cursor p /\ S !! p = None.
Proof.
  intros Ha. remember (Some p) as m eqn:Em. revert p Em.
  induction Ha as [|d Hd|d v anc m Hd _ IH]; intros p Em; [done| |].
  - injection Em as <-. split; [constructor|done].
  - destruct (IH p Em) as [Hc Hp]. split; [by eapply chain_step|done].
Qed.

#[local] Transparent MAX_ACTIONS_PER_SHOT.
Lemma max_per_shot_pos : 0 < MAX_ACTIONS_PER_SHOT.
Proof. unfold MAX_ACTIONS_PER_SHOT. lia. Qed.
#[local] Opaque MAX_ACTIONS_PER_SHOT.

(** The verdicts of the judgement on a branch. *)
Lemma judge_verified branch missing :
  val_neutral_authority (judge branch missing) = AuthorityVerified <->
  missing = None /\ is_ok (verify_lineage_segment branch None) = true /\
  is_ok (reduce_lineage branch) = true.
Proof.
  unfold judge. destruct (verify_lineage_segment branch None) as [seg|e]; simpl.
  2: { split; [done|]. by intros (_&?&_). }
  destruct missing as [p|].
  - split; [by destruct (is_some_and _ _)|by intros (?&_)].
  - destruct (reduce_lineage branch); simpl; [done|]. split; [done|]. by intros (_&_&?).
Qed.

Lemma judge_candidate branch missing :
  val_candidate_authority (judge branch missing) <> AuthorityVerified.
Proof.
  unfold judge. destruct (verify_lineage_segment _ _); [|done].
  destruct missing; [by destruct (is_some_and _ _)|]. by destruct (reduce_lineage _).
Qed.

Lemma judge_missing branch missing : val_missing_parent (judge branch missing) = missing.
Proof.
  unfold judge. destruct (verify_lineage_segment _ _); [|done].
  destruct missing; [by destruct (is_some_and _ _)|]. by destruct (reduce_lineage _).
Qed.

(** Neutral verification in terms of the stored ancestry. *)
Lemma verified_is_reduced (S : Stored) d v : acyclic S -> S !! d = Some v ->
  val_neutral_authority (class_of S d) = AuthorityVerified <->
  exists branch, ancestry S (Some d) branch None /\ length branch <= MAX_ACTIONS_PER_SHOT /\
    is_ok (verify_lineage_segment branch None) = true /\ is_ok (reduce_lineage branch) = true.
Proof.
  intros Hac Hd. pose proof max_per_shot_pos. unfold class_of, classify. rewrite Hd. split.
  - destruct (walk _ _ _ _ _) as [| |b m] eqn:Hw; [done..|].
    intros (->&Hs&Hr)%judge_verified. apply walk_ancestry in Hw as (anc&Ha&->&Hl).
    exists (anc ++ [va_signed v]). split_and!; [by eapply ancestry_step| |done|done].
    rewrite length_app. simpl. lia.
  - intros (branch&Ha&Hl&Hs&Hr). inversion Ha as [| |d' v' anc m Hd' Ha']; subst.
    assert (v' = v) as -> by congruence. rewrite length_app in Hl. simpl in Hl.
    rewrite (ancestry_walk S _ _ _ Hac Ha'); [by apply judge_verified|lia|by left|].
    intros x ->%elem_of_singleton. by apply Hac.
Qed.

(** [C7] A stored action is classified as neutrally verified exactly when its
    whole ancestry is stored down to a root, is within the per-Shot limit,
    verifies as a segment and reduces under the protocol's law. *)
Theorem neutral_verification_is_reduction (S : Stored) d v : acyclic S -> S !! d = Some v ->
  val_neutral_authority (class_of S d) = AuthorityVerified <->
  exists branch, ancestry S (Some d) branch None /\ length branch <= MAX_ACTIONS_PER_SHOT /\
    is_ok (verify_lineage_segment branch None) = true /\ is_ok (reduce_lineage branch) = true.
Proof. by apply verified_is_reduced. Qed.

(** A node never claims candidate authority for an action it stores, and a
    missing parent it reports is an ancestor of the action that is not stored. *)
Theorem classification_claims (S : Stored) d :
  val_candidate_authority (class_of S d) <> AuthorityVerified /\
  (forall p, val_missing_parent (class_of S d) = Some p -> chain S (Some d) p /\ S !! p = None).
Proof.
  unfold class_of, classify. destruct (S !! d) as [v|] eqn:Hd; [|done].
  destruct (walk _ _ _ _ _) as [| |b m] eqn:Hw; [done..|]. split; [apply judge_candidate|].
  intros p. rewrite judge_missing. intros ->.
  apply walk_ancestry in Hw as (anc&Ha&_&_). apply ancestry_missing_chain in Ha as [Hc Hp].
  split; [by eapply chain_step|done].
Qed.

(** Reclassifying the descendants of a new action ends and repairs the whole
    index: if every action that does not descend from it was classified
    correctly before, every stored action is afterwards. *)
Theorem reclassification_repairs f index (S : Stored) root :
  acyclic S -> represents_with f index S -> is_Some (S !! root) ->
  (forall d v, S !! d = Some v -> d <> root -> ~ chain S (va_previous v) root ->
    f d = class_of S d) ->
  exists index', reclassify_descendants index root = Some index' /\ represents index' S.
Proof.
  intros Hac Hr Hroot Hf.
  destruct (reclassify_descendants_spec f index S root Hac Hr Hroot)
    as (index'&f'&done&->&Hr'&Hfr&_&_).
  exists index'. split; [done|]. eapply represents_ext; [|exact Hr'].
  intros d [v Hd]. destruct (decide (d ∈ done)) as [Hin|Hout]; [by eapply fr_done|].
  rewrite (fr_other _ _ _ _ _ _ Hfr d Hout). apply (Hf d v Hd).
  - intros ->. apply Hout. pose proof (fr_root _ _ _ _ _ _ Hfr). set_solver.
  - intros Hc. apply Hout. by eapply frontier_closed.
Qed.
End classification.

(** ** Serving and keeping actions *)

Section keeping.
Context `{Platform} `{Codec} `{PathDisplay}.

(** What a sound store serves: the canonical bytes of exactly its actions. *)
Lemma action_bytes_of store S d : reencodes -> node_ok store S ->
  action_bytes store d
    = match S !! d with
      | Some v => Ok (va_canonical_bytes v)
      | None => Err (ActionMissing (to_hex d))
      end.
Proof.
  intros Hre [Hok Hh Hr]. unfold action_bytes. rewrite (rp_actions _ _ _ Hr).
  destruct (S !! d) as [v|] eqn:Hd; [|done]. simpl.
  destruct (so_parsed _ Hok _ _ Hd) as [Hv [bytes Hp]].
  rewrite (read_stored _ _ _ _ _ Hh Hd (parsed_size _ _ Hp)). simpl.
  rewrite (reparse _ _ Hre Hp). simpl. by rewrite Hv, !bool_decide_eq_true_2.
Qed.

(** Canonical bytes identify a stored action. *)
Lemma canonical_inj b1 b2 v w : reencodes -> parse_public b1 = Ok v -> parse_public b2 = Ok w ->
  va_canonical_bytes v = va_canonical_bytes w -> v = w.
Proof.
  intros Hre Hv Hw E. pose proof (reparse _ _ Hre Hv). pose proof (reparse _ _ Hre Hw). congruence.
Qed.

(** An accepted input adds its action to the set, or finds it there. *)
Lemma spec_ingest_accepts S bytes o : reencodes -> stored_ok S ->
  (spec_ingest S bytes).2 = Ok o ->
  exists v, parse_public bytes = Ok v /\ (spec_ingest S bytes).1 = <[va_digest v := v]> S /\
    (S !! va_digest v = Some v \/ S !! va_digest v = None) /\
    o = outcome_of v (opt_is_none (S !! va_digest v))
          (class_of (<[va_digest v := v]> S) (va_digest v)).
Proof.
  intros Hre Hok. unfold spec_ingest. destruct (parse_public bytes) as [v|] eqn:Hp; [|done].
  destruct (S !! va_digest v) as [w|] eqn:Hd; simpl.
  - case_bool_decide as E; [|done]. intros [= <-]. destruct (so_parsed _ Hok _ _ Hd) as [_ [b' Hp']].
    assert (w = v) as -> by (by eapply canonical_inj).
    exists v. rewrite insert_id by done. split_and!; [done|done|by left|by rewrite Hd].
  - destruct (spec_limits S v ;; _) as [[]|] eqn:Hg; [|done]. simpl. intros [= <-].
    exists v. split_and!; [done|done|by right|]. rewrite Hd, class_of_new; [done|].
    res_inv. by eapply classify_admissible.
Qed.

Lemma spec_ingest_grows S bytes : S ⊆ (spec_ingest S bytes).1.
Proof.
  unfold spec_ingest. destruct (parse_public bytes) as [v|]; [|done].
  destruct (S !! va_digest v) eqn:Hd; [done|].
  destruct (spec_limits S v ;; _); [|done]. by apply insert_subseteq.
Qed.

(** Stored actions are kept for ever: whatever is ingested afterwards,
    accepted or refused, an action served once is served again with the same
    bytes. *)
Theorem served_for_ever store S bytes d bs : reencodes -> node_ok store S ->
  action_bytes store d = Ok bs -> action_bytes (ingest store bytes).1 d = Ok bs.
Proof.
  intros Hre Hok Hs. destruct (store_refines store S bytes Hok) as [_ Hok'].
  rewrite (action_bytes_of _ _ _ Hre Hok) in Hs.
  rewrite (action_bytes_of _ _ _ Hre Hok').
  destruct (S !! d) as [v|] eqn:Hd; [|done].
  by rewrite (lookup_weaken _ _ _ _ Hd (spec_ingest_grows S bytes)).
Qed.

(** An accepted action is served from then on, under its own digest, and
    ingesting it again changes nothing and reports the same classification. *)
Theorem accepted_is_stored store S bytes o : reencodes -> node_ok store S ->
  (ingest store bytes).2 = Ok o ->
  let store' := (ingest store bytes).1 in
  (exists v, parse_public bytes = Ok v /\ out_digest o = va_digest v /\
     action_bytes store' (out_digest o) = Ok (va_canonical_bytes v)) /\
  ingest store' bytes = (store', Ok {| out_digest := out_digest o; out_stored := false;
    out_shot_id := out_shot_id o; out_sequence := out_sequence o;
    out_validation := out_validation o |}).
Proof.
  intros Hre Hok Ho. destruct (store_refines store S bytes Hok) as [E Hok'].
  rewrite E in Ho. destruct (spec_ingest_accepts _ _ _ Hre (no_stored _ _ Hok) Ho)
    as (v&Hp&HS&_&->). rewrite HS in Hok'. intros store'. split.
  - exists v. split_and!; [done..|]. unfold store'.
    by rewrite (action_bytes_of _ _ _ Hre Hok'), lookup_insert_eq.
  - destruct (store_refines store' _ bytes Hok') as [E' _].
    unfold spec_ingest in E'. rewrite Hp, lookup_insert_eq, bool_decide_eq_true_2 in E' by done.
    simpl in E'. unfold outcome_of in *. simpl.
    unfold ingest in E' |- *. rewrite Hp in E' |- *.
    rewrite (rp_actions _ _ _ (no_index _ _ Hok')), lookup_insert_eq in E' |- *.
    simpl in E' |- *. by f_equal.
Qed.
End keeping.

(** ** Convergence *)

Section convergence.
Context `{Platform} `{Codec} `{PathDisplay}.

(** Ingesting a sequence of inputs, all of which must be accepted. *)
Fixpoint ingest_all (store : Store) (inputs : list (list Z)) : option Store :=
  match inputs with
  | [] => Some store
  | bytes :: inputs =>
      let '(store, result) := ingest store bytes in
      if is_ok result then ingest_all store inputs else None
  end.

(** The set after a sequence of accepted inputs, whatever their order. *)
Definition extends_by (S S' : Stored) (inputs : list (list Z)) : Prop :=
  forall d v, S' !! d = Some v <->
    S !! d = Some v \/ exists bytes, bytes ∈ inputs /\ parse_public bytes = Ok v /\ va_digest v = d.

Lemma ingest_all_extends inputs : reencodes -> forall store S store', node_ok store S ->
  ingest_all store inputs = Some store' ->
  exists S', node_ok store' S' /\ extends_by S S' inputs.
Proof.
  intros Hre. induction inputs as [|bytes inputs IH]; intros store S store' Hok.
  { intros [= <-]. exists S. split; [done|]. intros d v. split; [by left|].
    intros [?|(b&[]%not_elem_of_nil&_)]. done. }
  simpl. destruct (ingest store bytes) as [s r] eqn:E. destruct r as [o|]; [|done]. simpl. intros Hrest.
  destruct (store_refines store S bytes Hok) as [Eo Hok1]. rewrite E in Eo, Hok1. simpl in Eo, Hok1.
  destruct (spec_ingest_accepts _ _ _ Hre (no_stored _ _ Hok) (eq_sym Eo)) as (v&Hp&HS&Hold&_).
  rewrite HS in Hok1. destruct (IH _ _ _ Hok1 Hrest) as (S'&Hok'&Hext).
  exists S'. split; [done|]. intros d w. rewrite (Hext d w), lookup_insert_Some. split.
  - intros [[[<- <-]|[_ Hw]]|(b&Hb&Hpb&Hdb)]; [|by left|].
    + right. exists bytes. split_and!; [by left|done|done].
    + right. exists b. split_and!; [by right|done|done].
  - intros [Hw|(b&[->|Hb]%elem_of_cons&Hpb&Hdb)].
    + left. destruct (decide (va_digest v = d)) as [<-|Hd]; [|by right].
      left. split; [done|]. destruct Hold; congruence.
    + left. left. split; congruence.
    + right. by exists b.
Qed.

(** [C5] Nodes converge: two nodes that started from the same set of actions and
    accepted the same inputs, in any order and with any repetitions, hold the
    same files, the same index with the same classifications, and list the same
    Shots. *)
Theorem nodes_converge store1 store2 S inputs1 inputs2 store1' store2' :
  reencodes -> node_ok store1 S -> node_ok store2 S ->
  ingest_all store1 inputs1 = Some store1' -> ingest_all store2 inputs2 = Some store2' ->
  (forall bytes, bytes ∈ inputs1 <-> bytes ∈ inputs2) ->
  (forall path, entry_at (sto_disk store1') path = entry_at (sto_disk store2') path) /\
  ix_actions (sto_index store1') = ix_actions (sto_index store2') /\
  ix_shots (sto_index store1') = ix_shots (sto_index store2') /\
  ix_children (sto_index store1') = ix_children (sto_index store2') /\
  shots (sto_index store1') = shots (sto_index store2').
Proof.
  intros Hre Hok1 Hok2 Hin1 Hin2 Hsame.
  destruct (ingest_all_extends _ Hre _ _ _ Hok1 Hin1) as (S1&Hok1'&Hext1).
  destruct (ingest_all_extends _ Hre _ _ _ Hok2 Hin2) as (S2&Hok2'&Hext2).
  assert (S1 = S2) as ->.
  { apply map_eq. intros d. apply option_eq. intros v. rewrite (Hext1 d v), (Hext2 d v).
    split; (intros [?|(b&Hb&?)]; [by left|right; exists b; split; [by apply Hsame|done]]). }
  destruct (represents_unique _ _ _ _ (no_index _ _ Hok1') (no_index _ _ Hok2')) as (Ha&Hs&Hc).
  split_and!; [|done|done|done|unfold shots; by rewrite Hs].
  intros path. apply option_eq. intros e. eapply disk_holds_same; eapply no_disk; done.
Qed.
End convergence.

(** ** Heads *)

Lemma elem_of_shot_values (m : ShotIndex) a : a ∈ shot_values m <-> exists k, m !! k = Some a.
Proof.
  unfold shot_values. rewrite (stable_sort_perm _), list_elem_of_fmap. split.
  - intros ([k x]&->&Hk%elem_of_map_to_list). by exists k.
  - intros [k Hk]. exists (k, a). by rewrite elem_of_map_to_list.
Qed.

Lemma elem_of_heads_for shot include d : d ∈ heads_for shot include <->
  (exists r, r ∈ included_references shot include /\ ref_digest r = d) /\
  ~ (exists r, r ∈ included_references shot include /\ ref_previous r = Some d).
Proof.
  unfold heads_for, sorted_digests. rewrite (stable_sort_perm _), elem_of_elements.
  unfold head_set. rewrite elem_of_difference, elem_of_filter, !elem_of_list_to_set,
    list_elem_of_fmap, list_elem_of_omap. naive_solver.
Qed.

Lemma elem_of_included f index S sh include r `{Platform} : represents_with f index S ->
  r ∈ included_references (default ∅ (ix_shots index !! sh)) include <->
  include r = true /\ exists d v, S !! d = Some v /\ va_shot_id v = sh /\
    r = am_reference (meta_of f d v).
Proof.
  intros Hr. unfold included_references. rewrite list_elem_of_In, filter_In, <- list_elem_of_In,
    list_elem_of_fmap. split.
  - intros [(a&->&[[q d] Ha]%elem_of_shot_values) Hi]. split; [done|].
    rewrite (rp_shots _ _ _ Hr) in Ha. destruct (S !! d) as [v|] eqn:Hd; [|done]. simpl in Ha.
    destruct ((va_shot_id v == sh) && (va_sequence v == q)) eqn:E; [|done].
    apply andb_true_iff in E as [Hsh%bool_decide_eq_true _]. injection Ha as <-.
    by exists d, v.
  - intros [Hi (d&v&Hd&Hsh&->)]. split; [|done]. exists (meta_of f d v). split; [done|].
    apply elem_of_shot_values. exists (va_sequence v, d).
    rewrite (rp_shots _ _ _ Hr), Hd. simpl. by rewrite !bool_decide_eq_true_2.
Qed.

(** The observed heads a sound store lists for a Shot are the stored actions
    of that Shot that no stored action of the Shot names as its predecessor. *)
Theorem observed_heads_are_leaves `{Platform} `{Codec} `{PathDisplay} store S sh view d :
  node_ok store S -> shot_view (sto_index store) sh = Ok view ->
  d ∈ sum_observed_heads (view_shot view) <->
  (exists v, S !! d = Some v /\ va_shot_id v = sh) /\
  ~ (exists c w, S !! c = Some w /\ va_shot_id w = sh /\ va_previous w = Some d).
Proof.
  intros Hok Hv. unfold shot_view in Hv. res_inv. simpl.
  destruct (ix_shots (sto_index store) !! sh) as [m|] eqn:Em; [|done].
  simplify_eq. rewrite elem_of_heads_for.
  pose proof (λ r, elem_of_included _ _ _ sh (λ _, true) r (no_index _ _ Hok)) as Hinc.
  rewrite Em in Hinc. simpl in Hinc. setoid_rewrite Hinc. split.
  - intros [(x&(_&d'&v&Hd&Hsh&->)&<-) Hno]. split; [by exists v|].
    intros (c&w&Hc&Hw&Hp). apply Hno. exists (am_reference (meta_of (class_of S) c w)).
    split; [|done]. split; [done|]. by exists c, w.
  - intros [(v&Hd&Hsh) Hno]. split.
    + exists (am_reference (meta_of (class_of S) d v)). split; [|done]. split; [done|]. by exists d, v.
    + intros (x&(_&c&w&Hc&Hw&->)&Hp). apply Hno. by exists c, w.
Qed.
