(* ===== verification/NodeSync.v ===== *)
(** * Synchronization with configured peers

    [node/src/sync.rs]: peers, bounded downloads, pulling the actions a peer
    advertises, and the report of a synchronization. Between two awaits of a
    synchronization the node answers other requests, so every request to a peer
    carries the bodies that are posted to this node while it is awaited. The
    network, the URL type and the reading of JSON are parameters. *)
From S2P Require Import Prelude Text Digest Keys Records Ontology Lineage Reduction NodeModel NodeStore NodeViews.

Definition MAX_PEERS : nat := 32.
Definition MAX_PEER_NODE_BYTES : nat := Z.to_nat 65536.
Definition MAX_PEER_INDEX_BYTES : nat := Z.to_nat 4194304.
Definition MAX_REMOTE_SHOTS : nat := Z.to_nat 10000.

(** ** Parameters *)

(** The [url] crate. *)
Class Urls := {
  Url : Type;
  url_parse : string -> option Url;
  url_scheme : Url -> string;
  url_username : Url -> string;
  url_password : Url -> option string;
  url_query : Url -> option string;
  url_fragment : Url -> option string;
  url_path : Url -> string;
  url_set_path : string -> Url -> Url;
  url_as_str : Url -> string;
  url_join : Url -> string -> option Url }.

(** What a request that was sent brings back: the status, the announced length,
    and the chunks of the body up to its end or to a transport error. *)
Record Reply := {
  rp_status : Z;
  rp_content_length : option Z;
  rp_chunks : list (list Z);
  rp_failure : option string }.

(** The [reqwest] client: sending a request changes the state of the network,
    and other requests to this node are answered meanwhile. *)
Class HttpClient `{Urls} := {
  Net : Type;
  send : Net -> Url -> Net * list (list Z) * Result string Reply;
  status_text : Z -> string }.

Record RemoteNodeInfo := {
  ri_schema : string;
  ri_node_id : Bytes32;
  ri_created_at_unix : Z;
  ri_lineage_protocol : string;
  ri_lineage_protocol_version : string;
  ri_supported_schema_versions : list Z;
  ri_stored_actions : nat;
  ri_indexed_shots : nat;
  ri_active_generation : option string;
  ri_generation_policy : option string;
  ri_legacy_policy : option string;
  ri_retired_contract_configuration : option json;
  ri_agreement : string;
  ri_non_agreement : string }.

(** [serde_json::from_slice] at the types a peer's documents have. *)
Class PeerReader := {
  read_node_info : list Z -> Result string RemoteNodeInfo;
  read_shots : list Z -> Result string (list ShotSummary);
  read_shot_view : list Z -> Result string ShotView }.

(** ** Reports *)

Inductive SyncState : Type := SyncNever | SyncRunning | SyncSucceeded | SyncFailed.

Record PeerSyncResult := {
  psr_peer : string;
  psr_fetched : nat;
  psr_already_present : nat;
  psr_rejected : nat;
  psr_error : option string }.

Record SyncReport := {
  sr_state : SyncState;
  sr_started_at_unix : option Z;
  sr_completed_at_unix : option Z;
  sr_peers : list PeerSyncResult }.

(** [SyncReport::default] *)
Definition default_report : SyncReport :=
  {| sr_state := SyncNever; sr_started_at_unix := None; sr_completed_at_unix := None;
     sr_peers := [] |}.

Definition more_fetched (r : PeerSyncResult) : PeerSyncResult :=
  {| psr_peer := psr_peer r; psr_fetched := psr_fetched r + 1;
     psr_already_present := psr_already_present r; psr_rejected := psr_rejected r;
     psr_error := psr_error r |}.
Definition more_present (r : PeerSyncResult) : PeerSyncResult :=
  {| psr_peer := psr_peer r; psr_fetched := psr_fetched r;
     psr_already_present := psr_already_present r + 1; psr_rejected := psr_rejected r;
     psr_error := psr_error r |}.
Definition more_rejected (r : PeerSyncResult) : PeerSyncResult :=
  {| psr_peer := psr_peer r; psr_fetched := psr_fetched r;
     psr_already_present := psr_already_present r; psr_rejected := psr_rejected r + 1;
     psr_error := psr_error r |}.
Definition with_error (error : string) (r : PeerSyncResult) : PeerSyncResult :=
  {| psr_peer := psr_peer r; psr_fetched := psr_fetched r;
     psr_already_present := psr_already_present r; psr_rejected := psr_rejected r;
     psr_error := Some error |}.

(** ** Peers *)

Record Peer `{Urls} := { peer_base : Url }.
Arguments peer_base {_} _.

Section peers.
Context `{Urls}.

(** [Peer::parse] *)
Definition peer_parse (value : string) : node_result Peer :=
  base ← ok_or (InvalidPeer value) (url_parse value);
  fail_if (negb ((url_scheme base == "http") || (url_scheme base == "https"))
           || (url_username base != "")
           || opt_is_some (url_password base)
           || opt_is_some (url_query base)
           || opt_is_some (url_fragment base)
           || negb ((url_path base == "") || (url_path base == "/")))
    (InvalidPeer value) ;;
  Ok {| peer_base := url_set_path "/" base |}.

Definition peer_as_str (p : Peer) : string := url_as_str (peer_base p).

Definition endpoint (p : Peer) (relative : string) : node_result Url :=
  ok_or (InvalidPeer (peer_as_str p)) (url_join (peer_base p) relative).

Definition peer_leb (a b : Peer) : bool :=
  bytes_leb (bytes_of (peer_as_str a)) (bytes_of (peer_as_str b)).

(** [normalized.dedup_by(|left, right| left.as_str() == right.as_str())]: of
    consecutive peers with one origin the first is kept. *)
Fixpoint dedup_peers (last : option string) (peers : list Peer) : list Peer :=
  match peers with
  | [] => []
  | p :: peers =>
      if last == Some (peer_as_str p) then dedup_peers last peers
      else p :: dedup_peers (Some (peer_as_str p)) peers
  end.
End peers.

(** ** The node *)

Record Node `{Urls} := {
  nd_identity : NodeIdentity;
  nd_store : Store;
  nd_peers : list Peer;
  nd_sync_status : SyncReport;
  nd_sync_locked : bool }.
Arguments nd_identity {_} _.
Arguments nd_store {_} _.
Arguments nd_peers {_} _.
Arguments nd_sync_status {_} _.
Arguments nd_sync_locked {_} _.

(** [Node::new]; building the HTTP client cannot fail here. *)
Definition node_new `{Urls} (identity : NodeIdentity) (store : Store) (peers : list Peer)
    : node_result Node :=
  fail_if (MAX_PEERS <? length peers)%nat (PeerLimit MAX_PEERS) ;;
  Ok {| nd_identity := identity; nd_store := store;
        nd_peers := dedup_peers None (stable_sort peer_leb peers);
        nd_sync_status := default_report; nd_sync_locked := false |}.

(** ** The computation of one synchronization

    It reads and writes the network, the store and the result of the peer at
    hand, and stops at the first error. *)

Record World `{HttpClient} := {
  w_net : Net;
  w_store : Store;
  w_result : PeerSyncResult }.
Arguments w_net {_ _} _.
Arguments w_store {_ _} _.
Arguments w_result {_ _} _.

Definition Sync `{HttpClient} (A : Type) : Type := World -> World * node_result A.

Section sync_monad.
Context `{HttpClient}.

#[export] Instance Sync_ret : MRet Sync := fun _ x w => (w, Ok x).
#[export] Instance Sync_bind : MBind Sync := fun _ _ f m w =>
  match m w with
  | (w, Ok x) => f x w
  | (w, Err e) => (w, Err e)
  end.

(** A computation that does not touch the state. *)
Definition pure {A} (r : node_result A) : Sync A := fun w => (w, r).

(** Reads of the store, and changes of the result. *)
Definition reads {A} (f : Store -> A) : Sync A := fun w => (w, Ok (f (w_store w))).
Definition counts (f : PeerSyncResult -> PeerSyncResult) : Sync unit := fun w =>
  ({| w_net := w_net w; w_store := w_store w; w_result := f (w_result w) |}, Ok tt).

(** [for x in xs { f(x)? }] *)
Fixpoint for_all {A} (f : A -> Sync unit) (xs : list A) : Sync unit :=
  match xs with
  | [] => mret tt
  | x :: xs => f x ;; for_all f xs
  end.
End sync_monad.

Section sync.
Context `{Platform} `{Codec} `{PathDisplay} `{Urls} `{!HttpClient} `{PeerReader}.

(** The requests this node answers while it waits. *)
Definition answer_posts (store : Store) (bodies : list (list Z)) : Store :=
  foldl (λ s body, (ingest s body).1) store bodies.

Definition request (url : Url) : Sync Reply := λ w,
  let '(net, bodies, reply) := send (w_net w) url in
  ({| w_net := net; w_store := answer_posts (w_store w) bodies; w_result := w_result w |},
   map_err PeerRequest reply).

(** [self.store.ingest(&bytes)] *)
Definition store_ingest (bytes : list Z) : Sync (node_result IngestOutcome) := λ w,
  let '(store, outcome) := ingest (w_store w) bytes in
  ({| w_net := w_net w; w_store := store; w_result := w_result w |}, Ok outcome).

(** [200..=299] *)
Definition is_success (status : Z) : bool := (200 <=? status)%Z && (status <? 300)%Z.

(** The loop over the chunks of a response. *)
Fixpoint read_chunks (limit : nat) (bytes : list Z) (chunks : list (list Z))
    (failure : option string) : node_result (list Z) :=
  match chunks with
  | [] => match failure with
          | None => Ok bytes
          | Some error => Err (PeerRequest error)
          end
  | chunk :: chunks =>
      fail_if (Z.of_nat limit <?
               saturating_add_u64 (Z.of_nat (length bytes)) (Z.of_nat (length chunk)))%Z
        (PeerResponseTooLarge limit) ;;
      read_chunks limit (bytes ++ chunk) chunks failure
  end.

(** The body of a response within a limit. *)
Definition reply_bytes (limit : nat) (reply : Reply) : node_result (list Z) :=
  fail_if (negb (is_success (rp_status reply)))
    (PeerResponse ("HTTP status " +:+ status_text (rp_status reply))) ;;
  fail_if (is_some_and (λ length, (Z.of_nat limit <? length)%Z) (rp_content_length reply))
    (PeerResponseTooLarge limit) ;;
  read_chunks limit [] (rp_chunks reply) (rp_failure reply).

Definition get_limited (url : Url) (limit : nat) : Sync (list Z) :=
  reply ← request url; pure (reply_bytes limit reply).

(** [policy.as_ref().is_some_and(|policy| !policy.is_empty())] *)
Definition nonempty_policy (policy : option string) : bool :=
  is_some_and (λ p, p != "") policy.

Definition current_generation_descriptor (i : RemoteNodeInfo) : bool :=
  nonempty_policy (ri_generation_policy i) && nonempty_policy (ri_legacy_policy i).

Definition is_object (value : json) : bool :=
  match value with JObj _ => true | _ => false end.

Definition retired_v07_descriptor (i : RemoteNodeInfo) : bool :=
  opt_is_none (ri_active_generation i) && opt_is_none (ri_generation_policy i)
  && opt_is_none (ri_legacy_policy i)
  && is_some_and is_object (ri_retired_contract_configuration i).

Definition check_remote_info (i : RemoteNodeInfo) : node_result unit :=
  fail_if ((ri_schema i != NODE_PROTOCOL)
           || (ri_node_id i == ZERO)
           || (ri_created_at_unix i == 0%Z)
           || (ri_lineage_protocol i != LINEAGE_PROTOCOL)
           || (ri_lineage_protocol_version i != LINEAGE_PROTOCOL_VERSION)
           || negb (bool_decide (LINEAGE_SCHEMA_VERSION ∈ ri_supported_schema_versions i))
           || (MAX_ACTIONS_PER_NODE <? ri_stored_actions i)%nat
           || (MAX_REMOTE_SHOTS <? ri_indexed_shots i)%nat
           || is_some_and (λ generation, generation == "") (ri_active_generation i)
           || negb (current_generation_descriptor i || retired_v07_descriptor i)
           || (ri_agreement i == "")
           || (ri_non_agreement i == ""))
    (PeerResponse "peer does not advertise the required lineage protocol").

(** The checks of a Shot's inventory. *)
Definition check_view (shot_id : ShotId) (view : ShotView) : node_result unit :=
  fail_if ((sum_shot_id (view_shot view) != shot_id)
           || (sum_action_count (view_shot view) != length (view_actions view))
           || (MAX_ACTIONS_PER_SHOT <? length (view_actions view))%nat)
    (PeerResponse "peer Shot inventory is internally inconsistent").

(** [view.actions.sort_by_key(|r| (r.sequence, r.digest))] *)
Definition reference_leb (a b : ActionReference) : bool :=
  order_leb (ref_sequence a, ref_digest a) (ref_sequence b, ref_digest b).

(** Whether downloaded bytes are the action that was advertised. *)
Definition matches_reference (v : ValidatedAction) (r : ActionReference) : bool :=
  (va_digest v == ref_digest r) && (va_shot_id v == ref_shot_id r)
  && (va_sequence v == ref_sequence r) && (va_previous v == ref_previous r).

(** What becomes of the action that was downloaded for a reference. *)
Definition take_outcome (r : ActionReference) (outcome : node_result IngestOutcome)
    : Sync unit :=
  match outcome with
  | Ok o =>
      if out_digest o == ref_digest r then
        counts (if out_stored o then more_fetched else more_present)
      else
        counts more_rejected ;;
        pure (Err (PeerResponse "stored action commitment changed unexpectedly"))
  | Err error => counts more_rejected ;; pure (Err error)
  end.

(** One turn of the loop over the references of a Shot. *)
Definition sync_reference (p : Peer) (shot_id : ShotId) (r : ActionReference) : Sync unit :=
  pure (fail_if (ref_shot_id r != shot_id)
          (PeerResponse "peer action reference changed ShotID")) ;;
  present ← reads (λ s, contains (sto_index s) (ref_digest r));
  if (present : bool) then counts more_present
  else
    url ← pure (endpoint p ("v1/actions/" +:+ to_hex (ref_digest r)));
    bytes ← get_limited url MAX_ACTION_BYTES;
    validated ← pure (parse_public bytes);
    if matches_reference validated r then
      outcome ← store_ingest bytes;
      take_outcome r outcome
    else
      counts more_rejected ;;
      pure (Err (PeerResponse "peer action bytes do not match the advertised reference")).

(** One turn of the loop over the Shots of a peer. *)
Definition sync_shot (p : Peer) (summary : ShotSummary) : Sync unit :=
  let shot_id := sum_shot_id summary in
  url ← pure (endpoint p ("v1/shots/" +:+ to_hex (shot_bytes shot_id)));
  view_bytes ← get_limited url MAX_PEER_INDEX_BYTES;
  view ← pure (map_err NodeJson (read_shot_view view_bytes));
  pure (check_view shot_id view) ;;
  for_all (sync_reference p shot_id) (stable_sort reference_leb (view_actions view)).

Definition sync_one_inner (p : Peer) : Sync unit :=
  info_url ← pure (endpoint p "v1/node");
  info_bytes ← get_limited info_url MAX_PEER_NODE_BYTES;
  info ← pure (map_err NodeJson (read_node_info info_bytes));
  pure (check_remote_info info) ;;
  shots_url ← pure (endpoint p "v1/shots");
  shots_bytes ← get_limited shots_url MAX_PEER_INDEX_BYTES;
  shots ← pure (map_err NodeJson (read_shots shots_bytes));
  pure (fail_if (MAX_REMOTE_SHOTS <? length shots)%nat
          (PeerResponse ("peer advertises more than " +:+ pretty MAX_REMOTE_SHOTS +:+ " Shots"))) ;;
  for_all (sync_shot p) shots.

(** The result a synchronization with a peer starts from. *)
Definition no_result (p : Peer) : PeerSyncResult :=
  {| psr_peer := peer_as_str p; psr_fetched := 0; psr_already_present := 0; psr_rejected := 0;
     psr_error := None |}.

Definition sync_one (p : Peer) (net : Net) (store : Store) : Net * Store * PeerSyncResult :=
  let '(w, outcome) :=
    sync_one_inner p {| w_net := net; w_store := store; w_result := no_result p |} in
  (w_net w, w_store w,
   match outcome with
   | Ok _ => w_result w
   | Err error => with_error (display_node_error error) (w_result w)
   end).

(** ** The node's synchronization, in the steps that other requests can observe *)

(** The lock is taken and the report says that it is running. *)
Definition sync_begin (started : Z) (n : Node) : node_result Node :=
  fail_if (nd_sync_locked n) SyncInProgress ;;
  Ok {| nd_identity := nd_identity n; nd_store := nd_store n; nd_peers := nd_peers n;
        nd_sync_status := {| sr_state := SyncRunning; sr_started_at_unix := Some started;
          sr_completed_at_unix := None; sr_peers := [] |};
        nd_sync_locked := true |}.

(** One peer after the other. *)
Fixpoint sync_peers (peers : list Peer) (net : Net) (store : Store)
    : Net * Store * list PeerSyncResult :=
  match peers with
  | [] => (net, store, [])
  | p :: peers =>
      let '(net, store, result) := sync_one p net store in
      let '(net, store, results) := sync_peers peers net store in
      (net, store, result :: results)
  end.

Definition final_report (started completed : Z) (results : list PeerSyncResult) : SyncReport :=
  {| sr_state := if existsb (λ r, opt_is_some (psr_error r)) results
                 then SyncFailed else SyncSucceeded;
     sr_started_at_unix := Some started; sr_completed_at_unix := Some completed;
     sr_peers := results |}.

(** [Node::sync], with the two readings of the clock. *)
Definition sync (started completed : Z) (net : Net) (n : Node)
    : Net * Node * node_result SyncReport :=
  match sync_begin started n with
  | Err e => (net, n, Err e)
  | Ok running =>
      let '(net, store, results) := sync_peers (nd_peers running) net (nd_store running) in
      let report := final_report started completed results in
      (net,
       {| nd_identity := nd_identity running; nd_store := store; nd_peers := nd_peers running;
          nd_sync_status := report; nd_sync_locked := false |},
       Ok report)
  end.
End sync.

Arguments check_remote_info : simpl never.
Arguments check_view : simpl never.
Arguments reply_bytes : simpl never.
#[global] Opaque MAX_PEER_NODE_BYTES MAX_PEER_INDEX_BYTES MAX_REMOTE_SHOTS.
