(* ===== verification/NodeHttp.v ===== *)
(** * The node's HTTP interface

    [node/src/http.rs]: the routes, what each handler answers, and the status
    of every error. A request is its method, the segments of its path and its
    body; that the framework decodes paths, refuses longer bodies than
    [MAX_ACTION_BYTES] and answers 404 or 405 outside these routes is not
    modelled. The JSON writer of the responses is a parameter. *)
From S2P Require Import Prelude Text Digest Keys Records Ontology Lineage Reduction NodeModel NodeStore NodeViews NodeSync.

(** ** Messages *)

Inductive Method : Type := GET | POST.

Record Request := {
  rq_method : Method;
  rq_path : list string;
  rq_body : list Z }.

(** The values the handlers respond with. *)
Inductive ApiBody : Type :=
  | BodyHealth (health : Health)
  | BodyInfo (info : NodeInfo)
  | BodyPeers (urls : list string)
  | BodyShots (shots : list ShotSummary)
  | BodyShot (view : ShotView)
  | BodyBytes (bytes : list Z)
  | BodyOutcome (outcome : IngestOutcome)
  | BodyIntegrity (report : IntegrityReport)
  | BodySync (report : SyncReport)
  | BodyError (code error : string).

Record Response := {
  rs_status : Z;
  rs_headers : list (string * string);
  rs_body : ApiBody }.

(** [serde_json]: reading a JSON string, and the message of an error raised by
    a [Deserialize] implementation. *)
Class JsonStrings := {
  read_string : string -> Result string string;
  custom_error : string -> string }.

(** ** Errors *)

(** The status and the code of an error. *)
Definition error_status (e : NodeError) : Z * string :=
  match e with
  | ActionTooLarge _ | PeerResponseTooLarge _ => (413%Z, "limit_exceeded")
  | ActionMissing _ | ShotMissing _ => (404%Z, "not_found")
  | SyncInProgress => (409%Z, "sync_in_progress")
  | NotPublic | NodeProtocol _ | Causal _ | ContentCollision => (422%Z, "invalid_action")
  | InvalidPeer _ | PeerLimit _ => (400%Z, "invalid_peer")
  | NodeJson _ => (400%Z, "invalid_json")
  | PeerRequest _ | PeerResponse _ => (502%Z, "peer_failure")
  | ActionLimit _ => (507%Z, "storage_limit")
  | NodeIo _ | UnsafeStorage _ | LockPoisoned => (500%Z, "internal")
  end.

(** [ApiError::into_response] *)
Definition into_response (e : NodeError) : Response :=
  {| rs_status := fst (error_status e); rs_headers := [];
     rs_body := BodyError (snd (error_status e)) (display_node_error e) |}.

(** The conversion of a handler's result. *)
Definition respond (r : node_result Response) : Response :=
  match r with Ok response => response | Err e => into_response e end.

Definition ok_json (body : ApiBody) : Response :=
  {| rs_status := 200; rs_headers := []; rs_body := body |}.

(** A text between double quotes. *)
Definition quoted (value : string) : string := string_of (34%Z :: bytes_of value ++ [34%Z]).

(** ** Handlers *)

Section http.
Context `{Platform} `{Codec} `{PathDisplay} `{Urls} `{!HttpClient} `{PeerReader} `{JsonStrings}.

Definition parse_shot_id (value : string) : node_result ShotId :=
  text ← map_err NodeJson (read_string (quoted value));
  bytes ← map_err (λ e, NodeJson (custom_error (display_error e))) (from_hex 32 "bytes32" text);
  Ok {| shot_bytes := bytes |}.

Definition get_shot (n : Node) (shot_id : string) : node_result Response :=
  shot_id ← parse_shot_id shot_id;
  view ← shot_view (sto_index (nd_store n)) shot_id;
  Ok (ok_json (BodyShot view)).

Definition get_action (n : Node) (digest : string) : node_result Response :=
  digest ← from_protocol (from_hex 32 "action_digest" digest);
  bytes ← action_bytes (nd_store n) digest;
  Ok {| rs_status := 200;
        rs_headers := [("content-type", "application/json");
                       ("cache-control", "public, immutable, max-age=31536000");
                       ("etag", quoted (to_hex digest))];
        rs_body := BodyBytes bytes |}.

Definition get_integrity (n : Node) : node_result Response :=
  report ← integrity (nd_store n);
  Ok (ok_json (BodyIntegrity report)).

Definition set_store (store : Store) (n : Node) : Node :=
  {| nd_identity := nd_identity n; nd_store := store; nd_peers := nd_peers n;
     nd_sync_status := nd_sync_status n; nd_sync_locked := nd_sync_locked n |}.

Definition post_action (n : Node) (body : list Z) : Node * node_result Response :=
  let '(store, outcome) := ingest (nd_store n) body in
  (set_store store n,
   (outcome ← outcome;
    Ok {| rs_status := if out_stored outcome then 201 else 200; rs_headers := [];
          rs_body := BodyOutcome outcome |})).

(** The routes that read the node. *)
Definition handle_get (n : Node) (path : list string) : option (node_result Response) :=
  match path with
  | ["v1"; "health"] =>
      Some (Ok (ok_json (BodyHealth (health (nd_identity n) (sto_index (nd_store n))))))
  | ["v1"; "node"] =>
      Some (Ok (ok_json (BodyInfo (info (nd_identity n) (sto_index (nd_store n))))))
  | ["v1"; "peers"] => Some (Ok (ok_json (BodyPeers (peer_as_str <$> nd_peers n))))
  | ["v1"; "shots"] => Some (Ok (ok_json (BodyShots (shots (sto_index (nd_store n))))))
  | ["v1"; "shots"; shot_id] => Some (get_shot n shot_id)
  | ["v1"; "actions"; digest] => Some (get_action n digest)
  | ["v1"; "integrity"] => Some (get_integrity n)
  | ["v1"; "sync"] => Some (Ok (ok_json (BodySync (nd_sync_status n))))
  | _ => None
  end.

(** [trigger_sync], with the two readings of the clock it makes. *)
Definition trigger_sync (started completed : Z) (net : Net) (n : Node)
    : Net * Node * node_result Response :=
  let '(net, n, report) := sync started completed net n in
  (net, n, (report ← report; Ok (ok_json (BodySync report)))).

(** [router]: the network and the node afterwards, and the response; [None]
    outside the routes. *)
Definition handle (started completed : Z) (net : Net) (n : Node) (rq : Request)
    : Net * Node * option Response :=
  match rq_method rq, rq_path rq with
  | GET, path => (net, n, respond <$> handle_get n path)
  | POST, ["v1"; "actions"] =>
      let '(n, r) := post_action n (rq_body rq) in (net, n, Some (respond r))
  | POST, ["v1"; "sync"] =>
      let '(net, n, r) := trigger_sync started completed net n in (net, n, Some (respond r))
  | POST, _ => (net, n, None)
  end.
End http.
