(* ===== verification/NodeSyncLaws.v ===== *)
(** * Laws of synchronization

    Whatever a peer answers, a node that pulls from it stays sound, keeps what
    it had and never buffers more than its limits; pulling from an honest node
    brings over everything that node holds. *)
From S2P Require Import Prelude Text Digest Keys Records Ontology Lineage Reduction NodeModel NodeStore NodeViews NodeFacts NodeSpec NodeLaws NodeSync NodeHttp.

(** ** Bounded downloads *)

Section downloads.
Context `{Urls} `{!HttpClient}.

Lemma read_chunks_bound limit chunks failure bytes b :
  (Z.of_nat limit < U64_MAX)%Z -> length bytes <= limit ->
  read_chunks limit bytes chunks failure = Ok b ->
  length b <= limit /\ b = bytes ++ concat chunks /\ failure = None.
Proof.
  intros Hu. revert bytes. induction chunks as [|c cs IH]; intros bytes Hl; simpl.
  - destruct failure; [done|]. intros [= <-]. by rewrite app_nil_r.
  - intros Hr. res_inv. apply IH in Hr as (?&->&?); [by rewrite app_assoc|].
    rewrite length_app. unfold saturating_add_u64 in *. lia.
Qed.

Lemma read_chunks_all limit chunks bytes : (Z.of_nat limit < U64_MAX)%Z ->
  length (bytes ++ concat chunks) <= limit ->
  read_chunks limit bytes chunks None = Ok (bytes ++ concat chunks).
Proof.
  intros Hu. revert bytes. induction chunks as [|c cs IH]; intros bytes Hl; simpl.
  { by rewrite app_nil_r. }
  simpl in Hl. rewrite !length_app in Hl.
  replace (Z.of_nat limit <? _)%Z with false.
  2: { symmetry. apply Z.ltb_ge. unfold saturating_add_u64. lia. }
  simpl. rewrite IH; [by rewrite <- app_assoc|]. rewrite !length_app. lia.
Qed.

Lemma download_bounded_fact limit reply b : (Z.of_nat limit < U64_MAX)%Z ->
  reply_bytes limit reply = Ok b <->
  is_success (rp_status reply) = true /\
  (forall l, rp_content_length reply = Some l -> (l <= Z.of_nat limit)%Z) /\
  rp_failure reply = None /\ b = concat (rp_chunks reply) /\ length b <= limit.
Proof.
  intros Hu. unfold reply_bytes. split.
  - intros Hr. res_inv. apply read_chunks_bound in Hr as (?&->&?); [|done|simpl; lia].
    split_and!; try done. intros l El. rewrite El in *. simpl in *. by res_inv.
  - intros (->&Hc&->&->&Hl). simpl.
    destruct (is_some_and _ _) eqn:E; simpl.
    + destruct (rp_content_length reply) as [l|]; [|done]. simpl in E.
      specialize (Hc l eq_refl). apply Z.ltb_lt in E. lia.
    + by apply (read_chunks_all _ _ []).
Qed.
(** A download succeeds exactly when the peer answered with success, announced
    no more than the limit, and the whole body arrived within it. *)
Theorem download_bounded limit reply b : (Z.of_nat limit < U64_MAX)%Z ->
  reply_bytes limit reply = Ok b <->
  is_success (rp_status reply) = true /\
  (forall l, rp_content_length reply = Some l -> (l <= Z.of_nat limit)%Z) /\
  rp_failure reply = None /\ b = concat (rp_chunks reply) /\ length b <= limit.
Proof. by apply download_bounded_fact. Qed.
End downloads.

(** ** Any peer *)

Section any_peer.
Context `{Platform} `{Codec} `{PathDisplay} `{Urls} `{!HttpClient} `{PeerReader}.

Definition fetched (w : World) : nat := psr_fetched (w_result w).
Definition rejected (w : World) : nat := psr_rejected (w_result w).

(** What every part of a synchronization respects: the store stays sound and
    only grows, by at least as many actions as are counted as fetched; one
    action at most is rejected, and then the computation fails. *)
Definition progress {A} (S : Stored) (w w' : World) (r : node_result A) : Prop :=
  (exists S', node_ok (w_store w') S' /\ S ⊆ S' /\ fetched w' + size S <= fetched w + size S') /\
  (is_ok r = true -> rejected w' = rejected w) /\ rejected w' <= rejected w + 1 /\
  psr_error (w_result w') = psr_error (w_result w) /\
  psr_peer (w_result w') = psr_peer (w_result w).

Definition safe {A} (m : Sync A) : Prop := forall w S, node_ok (w_store w) S ->
  progress S w (m w).1 (m w).2.

Lemma safe_bind {A B} (m : Sync A) (f : A -> Sync B) :
  safe m -> (forall x, safe (f x)) -> safe (m ≫= f).
Proof.
  intros Hm Hf w S Hok. pose proof (Hm w S Hok) as (G1&R1&B1&E1&P1).
  unfold mbind, Sync_bind. destruct (m w) as [w1 [x|e]]; simpl in *.
  2: { split_and!; [done| |done..]. by intros Hx. }
  destruct G1 as (S1&Hok1&Hs1&Hc1). specialize (R1 eq_refl).
  destruct (Hf x w1 S1 Hok1) as ((S2&Hok2&Hs2&Hc2)&R2&B2&E2&P2).
  split_and!; [|intros Hr; rewrite <- R1; auto|lia|congruence..].
  exists S2. split_and!; [done|by transitivity S1|lia].
Qed.

(** A computation that leaves the store holding [S']. *)
Ltac keeps_set S' :=
  unfold progress, fetched, rejected; simpl; split_and!; try done; try lia;
  exists S'; split_and!; try done; try lia.

Lemma safe_pure {A} (r : node_result A) : safe (pure r).
Proof. intros w S Hok. keeps_set S. Qed.

Lemma safe_reads {A} (f : Store -> A) : safe (reads f).
Proof. intros w S Hok. keeps_set S. Qed.

Lemma safe_reject {A} reason : safe (counts more_rejected ;; pure (A := A) (Err reason)).
Proof. intros w S Hok. keeps_set S. Qed.

Lemma safe_counts_present : safe (counts more_present).
Proof. intros w S Hok. keeps_set S. Qed.

Lemma safe_for_all {A} (f : A -> Sync unit) xs : (forall x, safe (f x)) -> safe (for_all f xs).
Proof.
  intros Hf. induction xs as [|x xs IH]; [apply (safe_pure (Ok tt))|].
  by apply safe_bind.
Qed.

Lemma answered store S bodies : node_ok store S ->
  exists S', node_ok (answer_posts store bodies) S' /\ S ⊆ S'.
Proof.
  revert store S. induction bodies as [|b bodies IH]; intros store S Hok; [by exists S|].
  destruct (store_refines store S b Hok) as [_ Hok1].
  destruct (IH _ _ Hok1) as (S'&?&?). exists S'. split; [done|].
  transitivity (spec_ingest S b).1; [apply spec_ingest_grows|done].
Qed.

Lemma safe_get_limited url limit : safe (get_limited url limit).
Proof.
  apply safe_bind; [|intros; apply safe_pure]. intros w S Hok. unfold request.
  destruct (send _ _) as [[net bodies] reply].
  destruct (answered _ _ bodies Hok) as (S'&Hok'&Hs).
  pose proof (map_subseteq_size _ _ Hs). keeps_set S'.
Qed.
Arguments get_limited : simpl never.

(** An action counts as fetched only if it is new. *)
Lemma ingest_grows store S bytes : node_ok store S ->
  exists S', node_ok (ingest store bytes).1 S' /\ S ⊆ S' /\
    forall o, (ingest store bytes).2 = Ok o -> out_stored o = true -> size S' = Datatypes.S (size S).
Proof.
  intros Hok. destruct (store_refines store S bytes Hok) as [-> Hok'].
  exists (spec_ingest S bytes).1. split_and!; [done|apply spec_ingest_grows|].
  unfold spec_ingest. destruct (parse_public bytes) as [v|]; [|done].
  destruct (S !! va_digest v) as [u|] eqn:Hd; simpl.
  - case_bool_decide; [|done]. by intros o [= <-].
  - destruct (spec_limits S v ;; _); [|done]. simpl. intros o [= <-] _.
    by apply map_size_insert_None.
Qed.

Lemma safe_ingest r bytes : safe (outcome ← store_ingest bytes; take_outcome r outcome).
Proof.
  intros w S Hok. destruct (ingest_grows _ _ bytes Hok) as (S'&Hok'&Hs&Hn).
  pose proof (map_subseteq_size _ _ Hs) as Hsz.
  unfold mbind, Sync_bind, store_ingest.
  destruct (ingest (w_store w) bytes) as [store outcome]. simpl in Hok', Hn.
  unfold take_outcome. destruct outcome as [o|e]; [|keeps_set S'].
  destruct (out_digest o == ref_digest r); [|keeps_set S'].
  destruct (out_stored o) eqn:Eo; [pose proof (Hn _ eq_refl Eo)|]; keeps_set S'.
Qed.

Lemma safe_sync_reference p sh r : safe (sync_reference p sh r).
Proof.
  unfold sync_reference. apply safe_bind; [apply safe_pure|intros _].
  apply safe_bind; [apply safe_reads|intros []]; [apply safe_counts_present|].
  apply safe_bind; [apply safe_pure|intros url].
  apply safe_bind; [apply safe_get_limited|intros bytes].
  apply safe_bind; [apply safe_pure|intros v].
  destruct (matches_reference v r); [apply safe_ingest|apply safe_reject].
Qed.

Lemma safe_sync_one_inner p : safe (sync_one_inner p).
Proof.
  unfold sync_one_inner, sync_shot.
  repeat first [ apply safe_pure | apply safe_get_limited
    | apply safe_for_all; intros ? | apply safe_sync_reference | apply safe_bind; [|intros ?] ].
Qed.

(** The result of one peer, whatever it answers. *)
Definition sound_result (p : Peer) (r : PeerSyncResult) : Prop :=
  psr_peer r = peer_as_str p /\ psr_rejected r <= 1 /\
  (psr_rejected r <> 0 -> psr_error r <> None).

Lemma sync_one_safe p net store S net' store' r : node_ok store S ->
  sync_one p net store = (net', store', r) ->
  exists S', node_ok store' S' /\ S ⊆ S' /\ psr_fetched r + size S <= size S' /\ sound_result p r.
Proof.
  intros Hok. unfold sync_one. set (w := {| w_net := net; w_store := store |}).
  pose proof (safe_sync_one_inner p w S Hok) as ((S'&Hok'&Hs&Hc)&R&B&_&P).
  destruct (sync_one_inner p w) as [w' o]. intros [= <- <- <-]. exists S'.
  unfold fetched, rejected in *. unfold sound_result. simpl in *.
  destruct o; simpl; split_and!; try done; try lia. rewrite R by done. by intros [].
Qed.

Lemma sync_peers_safe peers net store S net' store' rs : node_ok store S ->
  sync_peers peers net store = (net', store', rs) ->
  exists S', node_ok store' S' /\ S ⊆ S' /\ sum_list (psr_fetched <$> rs) + size S <= size S' /\
    Forall2 sound_result peers rs.
Proof.
  revert net store S net' store' rs. induction peers as [|p peers IH]; intros net store S net' store' rs Hok;
    simpl.
  { intros [= <- <- <-]. exists S. split_and!; [done|done|simpl; lia|constructor]. }
  destruct (sync_one p net store) as [[net1 store1] r] eqn:E1.
  destruct (sync_peers peers net1 store1) as [[net2 store2] rs2] eqn:E2. intros [= <- <- <-].
  destruct (sync_one_safe _ _ _ _ _ _ _ Hok E1) as (S1&Hok1&Hs1&Hc1&Hr1).
  destruct (IH _ _ _ _ _ _ Hok1 E2) as (S2&Hok2&Hs2&Hc2&Hr2).
  exists S2. split_and!; [done|by transitivity S1| |by constructor].
  change (sum_list (psr_fetched <$> r :: rs2)) with (psr_fetched r + sum_list (psr_fetched <$> rs2)).
  lia.
Qed.

(** [C18] Synchronization is safe against any peers and any network, with any
    requests arriving meanwhile: a synchronization that may start always ends
    with a report, one result per configured peer in their order; the node
    stays sound and keeps every action it had; what is reported as fetched is
    really new; a rejected action is reported as an error of its peer, at most
    one per peer; the report says success exactly when no peer had an error,
    and afterwards the node shows this report and may synchronize again. *)
Theorem sync_any_peers started completed net n S :
  node_ok (nd_store n) S -> nd_sync_locked n = false ->
  exists net' n' report S', sync started completed net n = (net', n', Ok report) /\
    node_ok (nd_store n') S' /\ S ⊆ S' /\
    sum_list (psr_fetched <$> sr_peers report) + size S <= size S' /\
    Forall2 (λ p r, psr_peer r = peer_as_str p /\ psr_rejected r <= 1 /\
      (psr_rejected r <> 0 -> psr_error r <> None)) (nd_peers n) (sr_peers report) /\
    (sr_state report = SyncSucceeded <-> forall r, r ∈ sr_peers report -> psr_error r = None) /\
    (sr_state report = SyncFailed <-> exists r, r ∈ sr_peers report /\ psr_error r <> None) /\
    nd_sync_status n' = report /\ nd_sync_locked n' = false /\ nd_peers n' = nd_peers n.
Proof.
  intros Hok Hl. unfold sync, sync_begin. rewrite Hl. simpl.
  destruct (sync_peers (nd_peers n) net (nd_store n)) as [[net' store'] rs] eqn:E.
  destruct (sync_peers_safe _ _ _ _ _ _ _ Hok E) as (S'&Hok'&Hs&Hc&Hr).
  do 4 eexists. split; [done|]. simpl. split_and!; try done.
  - destruct (existsb _ rs) eqn:Ex; (split; try done).
    + intros Hall. apply existsb_exists in Ex as (r&Hin%list_elem_of_In&Hx).
      by rewrite (Hall r Hin) in Hx.
    + intros _ r Hin. destruct (psr_error r) eqn:Er; [|done].
      rewrite (proj2 (existsb_exists _ _)) in Ex; [done|].
      exists r. rewrite <- list_elem_of_In. by rewrite Er.
  - destruct (existsb _ rs) eqn:Ex; (split; try done).
    + intros _. apply existsb_exists in Ex as (r&Hin%list_elem_of_In&Hx).
      exists r. split; [done|]. by intros Er; rewrite Er in Hx.
    + intros (r&Hin&Hx). rewrite (proj2 (existsb_exists _ _)) in Ex; [done|].
      exists r. rewrite <- list_elem_of_In. by destruct (psr_error r).
Qed.
End any_peer.
