(* ===== verification/NodePeer.v ===== *)
(** * Pulling from an honest node

    The peer of a synchronization is itself a node that answers through its
    HTTP interface. Two nodes composed this way exchange everything: after the
    pull the node holds its own actions and all those of its peer. *)
From S2P Require Import Prelude Text Digest Keys Records Ontology Lineage Reduction NodeModel NodeStore NodeViews NodeFacts NodeSpec NodeLaws NodeSync NodeHttp NodeSyncLaws.

(** ** The order of references *)

Lemma order_leb_total a b : order_leb a b = true \/ order_leb b a = true.
Proof.
  unfold order_leb. destruct (Z.lt_trichotomy (fst a) (fst b)) as [Hl|[E|Hl]].
  - left. apply orb_true_iff. left. by apply Z.ltb_lt.
  - rewrite !bool_decide_eq_true_2 by done. simpl.
    destruct (array_leb_total (snd a) (snd b)) as [->| ->]; [left|right]; by rewrite orb_true_r.
  - right. apply orb_true_iff. left. by apply Z.ltb_lt.
Qed.

Lemma order_leb_le a b : order_leb a b = true -> (fst a <= fst b)%Z.
Proof.
  unfold order_leb. intros [H%Z.ltb_lt|[H%bool_decide_eq_true _]%andb_true_iff]%orb_true_iff; lia.
Qed.

Lemma order_leb_trans a b c : order_leb a b = true -> order_leb b c = true -> order_leb a c = true.
Proof.
  intros Hab Hbc. pose proof (order_leb_le _ _ Hab). pose proof (order_leb_le _ _ Hbc).
  unfold order_leb in *. apply orb_true_iff.
  destruct (decide (fst a = fst c)) as [E|]; [right|left; apply Z.ltb_lt; lia].
  replace (fst a <? fst b)%Z with false in Hab by (symmetry; apply Z.ltb_ge; lia).
  replace (fst b <? fst c)%Z with false in Hbc by (symmetry; apply Z.ltb_ge; lia).
  simpl in Hab, Hbc. apply andb_true_iff in Hab as [_ Hab], Hbc as [_ Hbc].
  rewrite bool_decide_eq_true_2 by done. by eapply array_leb_trans.
Qed.

(** ** Walks in two sets that agree on an ancestry *)

Section walks.
Context `{Platform}.

Lemma walk_agree (S1 S2 : Stored) room seen branch cursor :
  (forall x, chain S1 cursor x -> S2 !! x = S1 !! x) ->
  walk (links_of S2) room seen branch cursor = walk (links_of S1) room seen branch cursor.
Proof.
  revert seen branch cursor. induction room as [|room IH]; intros seen branch [d|] Hx; simpl; try done.
  case_bool_decide; [done|]. unfold links_of at 1 3. rewrite (Hx d) by constructor.
  destruct (S1 !! d) as [v|] eqn:Hd; [|done]. simpl. apply IH.
  intros x Hc. apply Hx. by eapply chain_step.
Qed.

Lemma class_agree (S1 S2 : Stored) d v : S1 !! d = Some v ->
  (forall x, chain S1 (va_previous v) x -> S2 !! x = S1 !! x) ->
  classify (links_of S2) d (va_signed v) (va_previous v) = class_of S1 d.
Proof. intros Hd Hx. unfold class_of, classify. rewrite Hd. by erewrite walk_agree. Qed.

(** The actions of a verified ancestry precede its last action in its Shot. *)
Lemma ancestry_order (S : Stored) cursor branch :
  (forall d v, S !! d = Some v -> va_shot_id v = la_shot_id (sl_action (va_signed v)) /\
     va_sequence v = la_sequence (sl_action (va_signed v))) ->
  ancestry S cursor branch None -> adjacent branch ->
  forall x, chain S cursor x -> exists u l, S !! x = Some u /\ last branch = Some l /\
    va_shot_id u = la_shot_id (sl_action l) /\ (va_sequence u <= la_sequence (sl_action l))%Z.
Proof.
  intros Hp Ha. remember None as missing eqn:Em.
  induction Ha as [|d Hd|d v branch missing Hd Ha IH]; subst; intros Hadj x Hc.
  - inversion Hc.
  - done.
  - apply adjacent_app in Hadj as (Hadj&_&Hfo). destruct (Hp d v Hd) as [Hsh Hq].
    inversion Hc as [|d' v' r Hd' Hc']; subst.
    + exists v, (va_signed v). rewrite last_snoc. split_and!; [done..|lia].
    + assert (v' = v) as -> by congruence.
      destruct (IH eq_refl Hadj x Hc') as (u&l&Hu&Hl&Hus&Huq).
      destruct (Hfo l (va_signed v) Hl eq_refl) as (head&_&[_ Es Eq _ _]).
      exists u, (va_signed v). rewrite last_snoc. split_and!; [done|done|congruence|lia].
Qed.

Lemma parsed_fields `{Codec} (S : Stored) d v : stored_ok S -> S !! d = Some v ->
  va_shot_id v = la_shot_id (sl_action (va_signed v)) /\
  va_sequence v = la_sequence (sl_action (va_signed v)).
Proof.
  intros Hok Hd. destruct (so_parsed _ Hok _ _ Hd) as [_ [b Hp]].
  by apply parse_public_accepts_fact in Hp as (_&_&_&_&_&_&_&?&?&_).
Qed.

(** Every stored action is neutrally verified. *)
Definition all_verified (S : Stored) : Prop := forall d, is_Some (S !! d) ->
  val_neutral_authority (class_of S d) = AuthorityVerified.

Lemma verified_ancestors `{Codec} (S : Stored) d v x : stored_ok S -> all_verified S ->
  S !! d = Some v -> chain S (va_previous v) x ->
  exists u, S !! x = Some u /\ va_shot_id u = va_shot_id v /\ (va_sequence u < va_sequence v)%Z.
Proof.
  intros Hok Hver Hd Hc. destruct (parsed_fields _ _ _ Hok Hd) as [Hsh Hq].
  apply (verified_is_reduced S d v (so_acyclic _ Hok) Hd) in Hver as (branch&Ha&_&Hseg&_); [|by eexists].
  destruct (verify_lineage_segment branch None) as [seg|] eqn:Es; [|done].
  apply verify_lineage_segment_spec_fact in Es as [_ Hadj _].
  inversion Ha as [| |d' v' anc m Hd' Ha']; subst. assert (v' = v) as -> by congruence.
  apply adjacent_app in Hadj as (Hadj&_&Hfo).
  destruct (ancestry_order S _ _ (λ d v, parsed_fields S d v Hok) Ha' Hadj x Hc)
    as (u&l&Hu&Hl&Hus&Huq).
  destruct (Hfo l (va_signed v) Hl eq_refl) as (head&_&[_ E1 E2 _ _]).
  exists u. split_and!; [done|congruence|lia].
Qed.

(** A neutrally verified action is not a known-invalid one. *)
Lemma verified_admitted (v : ActionValidation) :
  val_neutral_authority v = AuthorityVerified ->
  (exists branch missing, v = judge branch missing) -> reject_known_invalid v = Ok tt.
Proof.
  intros Hv (branch&missing&->). pose proof Hv as (->&Hs&Hr)%judge_verified.
  unfold reject_known_invalid, judge in *.
  destruct (verify_lineage_segment branch None); [|done].
  by destruct (reduce_lineage branch).
Qed.

Lemma class_verified_admitted (S : Stored) d :
  val_neutral_authority (class_of S d) = AuthorityVerified ->
  reject_known_invalid (class_of S d) = Ok tt.
Proof.
  unfold class_of. destruct (S !! d); [|done]. unfold classify.
  destruct (walk _ _ _ _ _) as [| |b m]; [done..|]. intros Hv.
  apply verified_admitted; [done|by eexists _, _].
Qed.
End walks.

(** ** The limits fit the machine's integers *)

Section limits.
#[local] Transparent MAX_ACTION_BYTES MAX_PEER_NODE_BYTES MAX_PEER_INDEX_BYTES MAX_REMOTE_SHOTS.

Lemma limits_fit : (Z.of_nat MAX_ACTION_BYTES < U64_MAX)%Z /\
  (Z.of_nat MAX_PEER_NODE_BYTES < U64_MAX)%Z /\ (Z.of_nat MAX_PEER_INDEX_BYTES < U64_MAX)%Z.
Proof.
  unfold MAX_ACTION_BYTES, MAX_PEER_NODE_BYTES, MAX_PEER_INDEX_BYTES, U64_MAX.
  split_and!; rewrite Z2Nat.id; lia.
Qed.

Lemma remote_shots_pos : 1 <= MAX_REMOTE_SHOTS.
Proof. unfold MAX_REMOTE_SHOTS. lia. Qed.
End limits.

(** ** What an honest peer answers *)

(** The JSON writer of the HTTP responses; action bytes are sent as they are. *)
Class ApiWriter := { write_body : ApiBody -> list Z }.

(** The description a node gives of itself, as a peer reads it. *)
Definition remote_of (i : NodeInfo) : RemoteNodeInfo :=
  {| ri_schema := in_schema i; ri_node_id := in_node_id i;
     ri_created_at_unix := in_created_at_unix i;
     ri_lineage_protocol := in_lineage_protocol i;
     ri_lineage_protocol_version := in_lineage_protocol_version i;
     ri_supported_schema_versions := in_supported_schema_versions i;
     ri_stored_actions := in_stored_actions i; ri_indexed_shots := in_indexed_shots i;
     ri_active_generation := in_active_generation i;
     ri_generation_policy := Some (in_generation_policy i);
     ri_legacy_policy := Some (in_legacy_policy i);
     ri_retired_contract_configuration := None;
     ri_agreement := in_agreement i; ri_non_agreement := in_non_agreement i |}.

Section honest.
Context `{Platform} `{Codec} `{PathDisplay} `{Urls} `{!HttpClient} `{PeerReader} `{JsonStrings} `{ApiWriter}.

(** The paths a synchronization requests. *)
Inductive pulled : list string -> Prop :=
  | pulled_info : pulled ["v1"; "node"]
  | pulled_shots : pulled ["v1"; "shots"]
  | pulled_shot (d : Bytes32) : pulled ["v1"; "shots"; to_hex d]
  | pulled_action (d : Bytes32) : pulled ["v1"; "actions"; to_hex d].

(** The reply carries the response, in chunks of any sizes. *)
Definition delivers (reply : Reply) (r : Response) : Prop :=
  rp_status reply = rs_status r /\ rp_failure reply = None /\
  concat (rp_chunks reply) = write_body (rs_body r) /\
  (forall l, rp_content_length reply = Some l ->
     l = Z.of_nat (length (write_body (rs_body r)))).

(** Requests to [p] reach the node [n], which answers them by its routes; no
    other request is made to this node meanwhile. *)
Definition answers (p : Peer) (n : Node) : Prop := forall path r,
  pulled path -> handle_get n path = Some r ->
  exists url, url_join (peer_base p) (String.concat "/" path) = Some url /\
    forall net, exists net' reply, send net url = (net', [], Ok reply) /\
      delivers reply (respond r).

(** The documents of a node are within the limits of a synchronization and are
    read back as they were written. *)
Record readable_documents (n : Node) : Prop := {
  rd_identity : validate_identity (nd_identity n) = Ok tt;
  rd_info : let i := info (nd_identity n) (sto_index (nd_store n)) in
    read_node_info (write_body (BodyInfo i)) = Ok (remote_of i) /\
    length (write_body (BodyInfo i)) <= MAX_PEER_NODE_BYTES;
  rd_shots : let l := shots (sto_index (nd_store n)) in
    read_shots (write_body (BodyShots l)) = Ok l /\
    length (write_body (BodyShots l)) <= MAX_PEER_INDEX_BYTES;
  rd_shot : forall sh view, shot_view (sto_index (nd_store n)) sh = Ok view ->
    read_shot_view (write_body (BodyShot view)) = Ok view /\
    length (write_body (BodyShot view)) <= MAX_PEER_INDEX_BYTES;
  rd_bytes : forall bytes, write_body (BodyBytes bytes) = bytes;
  rd_text : forall d : Bytes32, read_string (quoted (to_hex d)) = Ok (to_hex d);
  rd_count : size (ix_shots (sto_index (nd_store n))) <= MAX_REMOTE_SHOTS }.

Lemma parse_shot_id_hex n (sh : ShotId) : readable_documents n ->
  parse_shot_id (to_hex (shot_bytes sh)) = Ok sh.
Proof.
  intros Hrd. unfold parse_shot_id. rewrite (rd_text _ Hrd). simpl.
  rewrite from_hex_to_hex_fact. simpl. by destruct sh.
Qed.

(** *** Downloads from an honest peer *)

Definition set_net (net : Net) (w : World) : World :=
  {| w_net := net; w_store := w_store w; w_result := w_result w |}.

Lemma honest_get p n path body headers limit : answers p n -> pulled path ->
  handle_get n path
    = Some (Ok {| rs_status := 200; rs_headers := headers; rs_body := body |}) ->
  (Z.of_nat limit < U64_MAX)%Z -> length (write_body body) <= limit ->
  exists url, endpoint p (String.concat "/" path) = Ok url /\
    forall w, exists net', get_limited url limit w = (set_net net' w, Ok (write_body body)).
Proof.
  intros Ha Hp Hh Hu Hl. destruct (Ha _ _ Hp Hh) as (url&Hj&Hs).
  exists url. unfold endpoint. rewrite Hj. split; [done|]. intros w.
  destruct (Hs (w_net w)) as (net'&reply&Hsend&Hst&Hf&Hb&Hlen). exists net'.
  unfold get_limited, mbind, Sync_bind, request. rewrite Hsend. unfold set_net, pure. simpl.
  f_equal. apply download_bounded_fact; [done|]. simpl in *. rewrite Hst. split_and!; try done.
  intros l El. rewrite (Hlen l El). lia.
Qed.

(** *** One reference *)

Context (p : Peer) (n : Node) (SP U : Stored).
Context (Hre : reencodes) (Hans : answers p n) (Hrd : readable_documents n)
  (Hpeer : node_ok (nd_store n) SP) (Hver : all_verified SP) (HSP : SP ⊆ U)
  (Hnode : size U <= MAX_ACTIONS_PER_NODE)
  (Hshot : forall sh, size (shot_members U sh) <= MAX_ACTIONS_PER_SHOT).

(** The reference a node lists for an action. *)
Definition refers (r : ActionReference) (v : ValidatedAction) : Prop :=
  SP !! ref_digest r = Some v /\ va_shot_id v = ref_shot_id r /\
  va_sequence v = ref_sequence r /\ va_previous v = ref_previous r.

Lemma spec_takes S v : stored_ok S -> S ⊆ U -> SP !! va_digest v = Some v ->
  S !! va_digest v = None ->
  (forall x, chain SP (va_previous v) x -> is_Some (S !! x)) ->
  spec_ingest S (va_canonical_bytes v)
    = (<[va_digest v := v]> S, Ok (outcome_of v true (class_of SP (va_digest v)))).
Proof.
  intros Hok HS Hd Hn Hanc. pose proof (no_stored _ _ Hpeer) as HokP.
  destruct (so_parsed _ HokP _ _ Hd) as [_ [b Hb]].
  unfold spec_ingest. rewrite (reparse _ _ Hre Hb), Hn.
  pose proof (lookup_weaken _ _ _ _ Hd HSP) as HU.
  assert (<[va_digest v := v]> S ⊆ U) as Hins by by apply insert_subseteq_l.
  rewrite (class_agree SP S _ v Hd).
  2: { intros x Hc. destruct (Hanc x Hc) as [u Hu]. rewrite Hu.
    destruct (verified_ancestors _ _ _ _ HokP Hver Hd Hc) as (u'&Hu'&_). rewrite Hu'.
    apply (lookup_weaken _ _ _ _ Hu) in HS. apply (lookup_weaken _ _ _ _ Hu') in HSP. congruence. }
  rewrite class_verified_admitted by (apply Hver; by eexists).
  replace (spec_limits S v) with (Ok (E := NodeError) tt); [done|]. symmetry. unfold spec_limits.
  pose proof (map_subseteq_size _ _ Hins) as Hsz. rewrite map_size_insert_None in Hsz by done.
  pose proof (shot_members_mono _ _ (va_shot_id v) Hins) as Hsh.
  rewrite shot_members_insert, decide_True in Hsh by done.
  specialize (Hshot (va_shot_id v)).
  rewrite (proj2 (Nat.leb_gt _ _)) by lia. simpl. by rewrite (proj2 (Nat.leb_gt _ _)) by lia.
Qed.

(** What the pull has achieved between two of its states. *)
Definition pulls (w : World) (S : Stored) (w' : World) (S' : Stored) : Prop :=
  node_ok (w_store w') S' /\ S ⊆ S' /\ S' ⊆ U /\
  fetched w' + size S = fetched w + size S' /\ rejected w' = rejected w /\
  psr_error (w_result w') = psr_error (w_result w).

Lemma sync_reference_pulls w S r v : node_ok (w_store w) S -> S ⊆ U -> refers r v ->
  (forall x, chain SP (va_previous v) x -> is_Some (S !! x)) ->
  exists w' S', sync_reference p (ref_shot_id r) r w = (w', Ok tt) /\
    pulls w S w' S' /\ is_Some (S' !! ref_digest r).
Proof.
  intros Hok HS (Hd&Hsh&Hq&Hp) Hanc.
  pose proof (no_stored _ _ Hpeer) as HokP. destruct (so_parsed _ HokP _ _ Hd) as [Hv [b Hb]].
  unfold sync_reference. rewrite bool_decide_eq_true_2 by done.
  unfold mbind at 1, Sync_bind at 1. simpl. unfold mbind at 1, Sync_bind at 1. simpl.
  unfold contains. rewrite (rp_actions _ _ _ (no_index _ _ Hok)).
  destruct (S !! ref_digest r) as [u|] eqn:Hu; simpl.
  - exists {| w_net := w_net w; w_store := w_store w; w_result := more_present (w_result w) |}, S.
    split; [done|]. split; [|by eexists]. unfold pulls, fetched, rejected. simpl. split_and!; try done; lia.
  - destruct (honest_get p n ["v1"; "actions"; to_hex (ref_digest r)]
      (BodyBytes (va_canonical_bytes v)) [("content-type", "application/json");
        ("cache-control", "public, immutable, max-age=31536000");
        ("etag", quoted (to_hex (ref_digest r)))] MAX_ACTION_BYTES Hans (pulled_action _))
      as (url&He&Hget).
    { simpl. unfold get_action. rewrite from_hex_to_hex_fact. simpl.
      rewrite (action_bytes_of _ _ _ Hre Hpeer), Hd. done. }
    { exact (proj1 limits_fit). }
    { rewrite (rd_bytes _ Hrd). by eapply parsed_size. }
    change (String.concat "/" ["v1"; "actions"; to_hex (ref_digest r)])
      with ("v1/actions/" +:+ to_hex (ref_digest r)) in He.
    rewrite He. unfold mbind at 1, Sync_bind at 1. simpl.
    destruct (Hget w) as [net' Hg]. unfold mbind at 1, Sync_bind at 1. rewrite Hg.
    rewrite (rd_bytes _ Hrd). unfold mbind at 1, Sync_bind at 1. unfold pure.
    rewrite (reparse _ _ Hre Hb).
    replace (matches_reference v r) with true.
    2: { unfold matches_reference. by rewrite Hv, Hsh, Hq, Hp, !bool_decide_eq_true_2. }
    unfold mbind, Sync_bind, store_ingest, set_net. simpl. subst.
    destruct (store_refines (w_store w) S (va_canonical_bytes v) Hok) as [Eo Hok'].
    rewrite <- Hv in Hd, Hu |- *.
    rewrite (spec_takes S v (no_stored _ _ Hok) HS Hd Hu Hanc) in Eo, Hok'.
    destruct (ingest (w_store w) (va_canonical_bytes v)) as [store' o]. simpl in Eo, Hok'. subst o.
    unfold take_outcome. simpl. rewrite bool_decide_eq_true_2 by done. simpl.
    eexists _, (<[va_digest v := v]> S). split; [done|]. split; [|by rewrite lookup_insert_eq].
    unfold pulls, fetched, rejected. simpl. split_and!; try done.
    + by apply insert_subseteq.
    + apply insert_subseteq_l; [by eapply lookup_weaken|done].
    + rewrite map_size_insert_None by done. lia.
Qed.

(** *** A Shot's references *)

Lemma pulls_trans w1 S1 w2 S2 w3 S3 : pulls w1 S1 w2 S2 -> pulls w2 S2 w3 S3 -> pulls w1 S1 w3 S3.
Proof.
  intros (_&Ha&_&F1&R1&E1) (?&Hb&?&F2&R2&E2). unfold pulls.
  split_and!; [done|by transitivity S2|done|lia|congruence|congruence].
Qed.

Lemma pulls_keep w1 S1 w2 S2 d : pulls w1 S1 w2 S2 -> is_Some (S1 !! d) -> is_Some (S2 !! d).
Proof. intros (_&Hs&_) [v Hv]. exists v. by eapply lookup_weaken. Qed.

Lemma references_pull sh l : forall w S, node_ok (w_store w) S -> S ⊆ U ->
  Forall (λ r, ref_shot_id r = sh /\ exists v, refers r v) l ->
  (forall l1 r l2 v x, l = l1 ++ r :: l2 -> refers r v -> chain SP (va_previous v) x ->
     is_Some (S !! x) \/ x ∈ ref_digest <$> l1) ->
  exists w' S', for_all (sync_reference p sh) l w = (w', Ok tt) /\ pulls w S w' S' /\
    forall d, d ∈ ref_digest <$> l -> is_Some (S' !! d).
Proof.
  induction l as [|r l IH]; intros w S Hok HS Hl Hanc.
  { exists w, S. split; [done|]. split; [unfold pulls; by split_and!|].
    by intros d Hd%elem_of_nil. }
  apply Forall_cons in Hl as [[<- [v Hv]] Hl].
  destruct (sync_reference_pulls w S r v Hok HS Hv) as (w1&S1&E1&P1&Hr1).
  { intros x Hc. by destruct (Hanc [] r l v x eq_refl Hv Hc) as [|Hx%elem_of_nil]. }
  pose proof P1 as (Hok1&Hs1&HS1&_).
  destruct (IH w1 S1 Hok1 HS1 Hl) as (w2&S2&E2&P2&Hr2).
  { intros l1 r' l2 v' x -> Hv' Hc.
    destruct (Hanc (r :: l1) r' l2 v' x eq_refl Hv' Hc) as [Hx|Hx].
    - left. by eapply pulls_keep.
    - rewrite fmap_cons in Hx. apply elem_of_cons in Hx as [->|Hx]; [by left|by right]. }
  exists w2, S2. split; [|split; [by eapply pulls_trans|]].
  - cbn [for_all]. unfold mbind, Sync_bind. rewrite E1. exact E2.
  - intros d Hd. rewrite fmap_cons in Hd.
    apply elem_of_cons in Hd as [->|Hd]; [by eapply pulls_keep|by apply Hr2].
Qed.

(** The inventory of a Shot, sorted, lists each of its actions after the
    actions it descends from. *)
Lemma inventory_ordered sh m : ix_shots (sto_index (nd_store n)) !! sh = Some m ->
  let l := stable_sort reference_leb (am_reference <$> shot_values m) in
  Forall (λ r, ref_shot_id r = sh /\ exists v, refers r v) l /\
  (forall d v, SP !! d = Some v -> va_shot_id v = sh -> d ∈ ref_digest <$> l) /\
  (forall l1 r l2 v x, l = l1 ++ r :: l2 -> refers r v -> chain SP (va_previous v) x ->
     x ∈ ref_digest <$> l1).
Proof.
  intros Hm l.
  assert (forall r, r ∈ l <-> exists d v, SP !! d = Some v /\ va_shot_id v = sh /\
    r = am_reference (meta_of (class_of SP) d v)) as Hl.
  { intros r. unfold l. rewrite (stable_sort_perm _).
    pose proof (elem_of_included _ _ _ sh (λ _, true) r (no_index _ _ Hpeer)) as Hi.
    rewrite Hm in Hi. simpl in Hi. unfold included_references in Hi.
    rewrite list_elem_of_In, filter_In, <- list_elem_of_In in Hi. naive_solver. }
  assert (forall d v, SP !! d = Some v -> va_shot_id v = sh -> d ∈ ref_digest <$> l) as Hall.
  { intros d v Hd Hs. apply list_elem_of_fmap.
    exists (am_reference (meta_of (class_of SP) d v)). split; [done|]. apply Hl. by exists d, v. }
  split; [|split; [done|]].
  - apply Forall_forall. intros r (d&v&Hd&Hs&->)%Hl. split; [done|]. by exists v.
  - intros l1 r l2 v x E (Hd&Hsh&Hq&_) Hc.
    destruct (verified_ancestors _ _ _ _ (no_stored _ _ Hpeer) Hver Hd Hc) as (u&Hu&Hus&Huq).
    assert (r ∈ l) as Hr by (rewrite E; set_solver).
    apply Hl in Hr as (d'&v'&Hd'&Hs'&->). simpl in *.
    assert (va_shot_id u = sh) as Hush by congruence.
    pose proof (Hall x u Hu Hush) as Hx. rewrite E, fmap_app in Hx.
    apply elem_of_app in Hx as [|Hx]; [done|exfalso].
    apply list_elem_of_fmap in Hx as (rx&->&Hrx).
    assert (rx ∈ l) as Hrl by (rewrite E; set_solver).
    apply Hl in Hrl as (dx&vx&Hdx&_&->). simpl in Hu. assert (vx = u) as -> by congruence.
    pose proof (stable_sort_sorted reference_leb) as Hsort.
    specialize (Hsort (λ a b, order_leb_total _ _) (λ a b c, order_leb_trans _ _ _)
      (am_reference <$> shot_values m)). fold l in Hsort. rewrite E in Hsort.
    apply StronglySorted_app in Hsort as (_&_&Hsort). apply StronglySorted_cons in Hsort as [Hf _].
    apply elem_of_cons in Hrx as [Hrx|Hrx].
    + apply (f_equal ref_sequence) in Hrx. simpl in Hrx. rewrite Hrx, Hq in Huq. by apply Z.lt_irrefl in Huq.
    + rewrite Forall_forall in Hf. apply Hf, order_leb_le in Hrx. simpl in Hrx. lia.
Qed.

(** *** The Shots of the peer *)

Lemma inventory_size sh m : ix_shots (sto_index (nd_store n)) !! sh = Some m ->
  length (am_reference <$> shot_values m) = size m /\ size m <= MAX_ACTIONS_PER_SHOT.
Proof.
  intros Hm. split.
  - unfold shot_values. by rewrite !length_fmap, (stable_sort_perm _), length_map_to_list.
  - pose proof (shot_count_of _ _ _ sh (no_index _ _ Hpeer)) as Hc. unfold shot_count in Hc.
    rewrite Hm in Hc. simpl in Hc. rewrite Hc. apply (so_shot _ (no_stored _ _ Hpeer)).
Qed.

Lemma sync_shot_pulls w S sh m : node_ok (w_store w) S -> S ⊆ U ->
  ix_shots (sto_index (nd_store n)) !! sh = Some m ->
  exists w' S', sync_shot p (summarize sh m) w = (w', Ok tt) /\ pulls w S w' S' /\
    forall d v, SP !! d = Some v -> va_shot_id v = sh -> is_Some (S' !! d).
Proof.
  intros Hok HS Hm. unfold sync_shot. simpl.
  set (view := {| view_shot := summarize sh m; view_actions := am_reference <$> shot_values m |}).
  assert (shot_view (sto_index (nd_store n)) sh = Ok view) as Hview
    by (unfold shot_view; by rewrite Hm).
  destruct (rd_shot _ Hrd _ _ Hview) as [Hread Hsize].
  destruct (honest_get p n ["v1"; "shots"; to_hex (shot_bytes sh)] (BodyShot view) []
    MAX_PEER_INDEX_BYTES Hans (pulled_shot _)) as (url&He&Hget).
  { simpl. unfold get_shot. rewrite (parse_shot_id_hex n) by done. simpl. by rewrite Hview. }
  { exact (proj2 (proj2 limits_fit)). }
  { done. }
  change (String.concat "/" ["v1"; "shots"; to_hex (shot_bytes sh)])
    with ("v1/shots/" +:+ to_hex (shot_bytes sh)) in He.
  rewrite He. unfold mbind at 1, Sync_bind at 1. simpl.
  destruct (Hget w) as [net' Hg]. unfold mbind at 1, Sync_bind at 1. rewrite Hg.
  unfold mbind at 1, Sync_bind at 1. unfold pure. rewrite Hread. simpl.
  unfold mbind, Sync_bind, check_view. simpl. destruct (inventory_size _ _ Hm) as [Hlen Hmax].
  rewrite Hlen, !bool_decide_eq_true_2, (proj2 (Nat.ltb_ge _ _) Hmax) by done. simpl.
  destruct (inventory_ordered _ _ Hm) as (Hrefs&Hall&Hord).
  destruct (references_pull sh _ (set_net net' w) S Hok HS Hrefs) as (w'&S'&E&P&Hd).
  { intros. right. by eapply Hord. }
  exists w', S'. split; [exact E|]. split; [exact P|]. intros d v Hv Hs. by eapply Hd, Hall.
Qed.

Lemma shots_pull L : forall w S, node_ok (w_store w) S -> S ⊆ U ->
  (forall sh m, (sh, m) ∈ L -> ix_shots (sto_index (nd_store n)) !! sh = Some m) ->
  exists w' S', for_all (sync_shot p) ((λ s, summarize s.1 s.2) <$> L) w = (w', Ok tt) /\
    pulls w S w' S' /\
    forall d v, SP !! d = Some v -> va_shot_id v ∈ L.*1 -> is_Some (S' !! d).
Proof.
  induction L as [|[sh m] L IH]; intros w S Hok HS HL.
  { exists w, S. split; [done|]. split; [unfold pulls; by split_and!|].
    by intros d v _ Hin%elem_of_nil. }
  destruct (sync_shot_pulls w S sh m Hok HS) as (w1&S1&E1&P1&Hd1); [apply HL; by left|].
  pose proof P1 as (Hok1&_&HS1&_).
  destruct (IH w1 S1 Hok1 HS1) as (w2&S2&E2&P2&Hd2); [intros; apply HL; by right|].
  exists w2, S2. split; [|split; [by eapply pulls_trans|]].
  - rewrite fmap_cons. cbn [for_all fst snd]. unfold mbind, Sync_bind. rewrite E1. exact E2.
  - intros d v Hv Hin. rewrite fmap_cons in Hin.
    apply elem_of_cons in Hin as [E|Hin]; [|by eapply Hd2].
    eapply pulls_keep; [exact P2|]. by eapply Hd1.
Qed.

Lemma shots_count index : length (shots index) = size (ix_shots index).
Proof. unfold shots. by rewrite length_fmap, (stable_sort_perm _), length_map_to_list. Qed.

Lemma honest_info : check_remote_info
  (remote_of (info (nd_identity n) (sto_index (nd_store n)))) = Ok tt.
Proof.
  pose proof (rd_identity _ Hrd) as Hid. unfold validate_identity in Hid. res_inv.
  unfold check_remote_info. simpl.
  rewrite (represented_size _ _ _ (no_index _ _ Hpeer)).
  rewrite (proj2 (Nat.ltb_ge _ _) (so_node _ (no_stored _ _ Hpeer))).
  rewrite (proj2 (Nat.ltb_ge _ _) (rd_count _ Hrd)).
  rewrite (bool_decide_eq_false_2 (ni_node_id (nd_identity n) = ZERO)) by done.
  rewrite (bool_decide_eq_false_2 (ni_created_at_unix (nd_identity n) = 0%Z)) by done.
  reflexivity.
Qed.

Lemma sync_inner_pulls w S : node_ok (w_store w) S -> S ⊆ U ->
  exists w' S', sync_one_inner p w = (w', Ok tt) /\ pulls w S w' S' /\ SP ⊆ S'.
Proof.
  intros Hok HS. unfold sync_one_inner.
  destruct (rd_info _ Hrd) as [Hri Hli]. destruct (rd_shots _ Hrd) as [Hrs Hls].
  destruct (honest_get p n ["v1"; "node"] _ [] MAX_PEER_NODE_BYTES Hans pulled_info eq_refl
    (proj1 (proj2 limits_fit)) Hli) as (url1&He1&Hget1).
  destruct (honest_get p n ["v1"; "shots"] _ [] MAX_PEER_INDEX_BYTES Hans pulled_shots eq_refl
    (proj2 (proj2 limits_fit)) Hls) as (url2&He2&Hget2).
  change (String.concat "/" ["v1"; "node"]) with "v1/node" in He1.
  change (String.concat "/" ["v1"; "shots"]) with "v1/shots" in He2.
  rewrite He1, He2. unfold mbind at 1, Sync_bind at 1. cbn [pure].
  destruct (Hget1 w) as [net1 Hg1]. unfold mbind at 1, Sync_bind at 1. rewrite Hg1.
  unfold mbind at 1, Sync_bind at 1. unfold pure. rewrite Hri. cbn [map_err].
  unfold mbind at 1, Sync_bind at 1. rewrite honest_info.
  unfold mbind at 1, Sync_bind at 1.
  destruct (Hget2 (set_net net1 w)) as [net2 Hg2]. unfold mbind at 1, Sync_bind at 1. rewrite Hg2.
  unfold mbind at 1, Sync_bind at 1. rewrite Hrs. cbn [map_err].
  unfold mbind, Sync_bind. rewrite shots_count, (proj2 (Nat.ltb_ge _ _) (rd_count _ Hrd)). cbn [fail_if].
  unfold shots. match goal with |- context [for_all _ (_ <$> ?L)] => set (L0 := L) end.
  assert (forall sh m, (sh, m) ∈ L0 <-> ix_shots (sto_index (nd_store n)) !! sh = Some m) as HL.
  { intros sh m. unfold L0. by rewrite (stable_sort_perm _), elem_of_map_to_list. }
  destruct (shots_pull L0 (set_net net2 (set_net net1 w)) S Hok HS) as (w'&S'&E&P&Hd).
  { intros sh m. apply HL. }
  exists w', S'. split; [exact E|]. split; [exact P|].
  apply map_subseteq_spec. intros d v Hv. destruct (Hd d v Hv) as [u Hu].
  - pose proof (rp_shots _ _ _ (no_index _ _ Hpeer) (va_shot_id v) (va_sequence v) d) as Hi.
    rewrite Hv in Hi. simpl in Hi. rewrite !bool_decide_eq_true_2 in Hi by done. simpl in Hi.
    destruct (ix_shots (sto_index (nd_store n)) !! va_shot_id v) as [m|] eqn:Em; [|done].
    apply list_elem_of_fmap. exists (va_shot_id v, m). split; [done|by apply HL].
  - destruct P as (_&_&HU&_). apply (lookup_weaken _ _ _ _ Hu) in HU.
    apply (lookup_weaken _ _ _ _ Hv) in HSP. congruence.
Qed.
End honest.

(** ** Pulling everything *)

Section theorems.
Context `{Platform} `{Codec} `{PathDisplay} `{Urls} `{!HttpClient} `{PeerReader} `{JsonStrings} `{ApiWriter}.

(** A set made of two sets that agree. *)
Lemma verified_in (S U : Stored) d : stored_ok S -> all_verified S -> S ⊆ U -> is_Some (S !! d) ->
  val_neutral_authority (class_of U d) = AuthorityVerified.
Proof.
  intros Hok Hver HS [v Hd]. rewrite <- (Hver d) by by eexists.
  rewrite <- (class_agree S U d v Hd).
  - unfold class_of. by rewrite (lookup_weaken _ _ _ _ Hd HS).
  - intros x Hc. destruct (verified_ancestors _ _ _ _ Hok Hver Hd Hc) as (u&Hu&_).
    by rewrite Hu, (lookup_weaken _ _ _ _ Hu HS).
Qed.

Lemma honest_pull p n (SP SA : Stored) net store :
  reencodes -> answers p n -> readable_documents n ->
  node_ok (nd_store n) SP -> all_verified SP -> node_ok store SA -> SP ⊆ SA ∪ SP ->
  size (SA ∪ SP) <= MAX_ACTIONS_PER_NODE ->
  (forall sh, size (shot_members (SA ∪ SP) sh) <= MAX_ACTIONS_PER_SHOT) ->
  exists net' store' result, sync_one p net store = (net', store', result) /\
    node_ok store' (SA ∪ SP) /\
    psr_error result = None /\ psr_rejected result = 0 /\
    psr_fetched result + size SA = size (SA ∪ SP) /\
    (all_verified SA -> all_verified (SA ∪ SP)).
Proof.
  intros Hre Hans Hrd Hpeer Hver Hok HSP Hn Hsh. unfold sync_one.
  set (w := {| w_net := net; w_store := store; w_result := no_result p |}).
  destruct (sync_inner_pulls p n SP (SA ∪ SP) Hre Hans Hrd Hpeer Hver HSP Hn Hsh w SA Hok)
    as (w'&S'&->&(Hok'&Hs&HU&Hf&Hr&He)&Hall).
  { apply map_union_subseteq_l. }
  assert (S' = SA ∪ SP) as ->.
  { apply (anti_symm (⊆)); [done|]. by apply map_union_least. }
  do 3 eexists. split; [done|]. unfold fetched, rejected in *. simpl in *. split_and!; try done.
  intros HverA d [v Hd]. apply lookup_union_Some_raw in Hd as [Hd|[_ Hd]].
  - eapply (verified_in SA); [apply (no_stored _ _ Hok)|done|apply map_union_subseteq_l|by eexists].
  - eapply (verified_in SP); [apply (no_stored _ _ Hpeer)|done|done|by eexists].
Qed.

(** [C19] Pulling from an honest peer ends without error and brings over everything:
    if requests to the peer reach a node all of whose actions are neutrally
    verified, whose documents are within the limits and are read back as
    written, then the pulling node ends with its own actions and all those of
    the peer, provided the two agree on the actions they share and the union is
    within the limits. Nothing is rejected, exactly the actions that were
    missing are fetched, and if its own actions were verified too, so are all
    of them afterwards. *)
Theorem honest_peer_pulled p n (SP SA : Stored) net store :
  reencodes -> answers p n -> readable_documents n ->
  node_ok (nd_store n) SP -> all_verified SP -> node_ok store SA -> SP ⊆ SA ∪ SP ->
  size (SA ∪ SP) <= MAX_ACTIONS_PER_NODE ->
  (forall sh, size (shot_members (SA ∪ SP) sh) <= MAX_ACTIONS_PER_SHOT) ->
  exists net' store' result, sync_one p net store = (net', store', result) /\
    node_ok store' (SA ∪ SP) /\
    psr_error result = None /\ psr_rejected result = 0 /\
    psr_fetched result + size SA = size (SA ∪ SP) /\
    (all_verified SA -> all_verified (SA ∪ SP)).
Proof. by apply honest_pull. Qed.

(** A node that holds nothing its honest peer lacks is a replica of the peer
    after one pull: the same files, the same index with the same
    classifications, and the same answers about its Shots. *)
Theorem pull_replicates p n (SP SA : Stored) net store :
  reencodes -> answers p n -> readable_documents n ->
  node_ok (nd_store n) SP -> all_verified SP -> node_ok store SA -> SA ⊆ SP ->
  exists net' store' result, sync_one p net store = (net', store', result) /\
    psr_error result = None /\
    (forall path, entry_at (sto_disk store') path = entry_at (sto_disk (nd_store n)) path) /\
    ix_actions (sto_index store') = ix_actions (sto_index (nd_store n)) /\
    ix_shots (sto_index store') = ix_shots (sto_index (nd_store n)) /\
    ix_children (sto_index store') = ix_children (sto_index (nd_store n)) /\
    shots (sto_index store') = shots (sto_index (nd_store n)).
Proof.
  intros Hre Hans Hrd Hpeer Hver Hok HSA. pose proof (no_stored _ _ Hpeer) as HokP.
  assert (SA ∪ SP = SP) as E.
  { apply (anti_symm (⊆)); [by apply map_union_least|].
    apply map_subseteq_spec. intros d v Hd. apply lookup_union_Some_raw.
    destruct (SA !! d) as [u|] eqn:Hu; [left|by right].
    apply (lookup_weaken _ _ _ _ Hu) in HSA. congruence. }
  destruct (honest_pull p n SP SA net store Hre Hans Hrd Hpeer Hver Hok)
    as (net'&store'&r&Es&Hok'&He&_); rewrite E in *; [done|apply HokP..|].
  exists net', store', r. split; [done|]. split; [done|].
  destruct (represents_unique _ _ _ _ (no_index _ _ Hok') (no_index _ _ Hpeer)) as (Ha&Hs&Hc).
  split_and!; [|done|done|done|unfold shots; by rewrite Hs].
  intros path. apply option_eq. intros e. eapply disk_holds_same; eapply no_disk; done.
Qed.

(** *** Posting and reading *)

(** What is posted with success is served from then on: after [POST
    /v1/actions] answers 200 or 201, [GET /v1/actions/<digest>] answers 200 with
    the canonical bytes of the action, whatever is posted in between; 201 is the
    answer exactly when the action was not held before, and a refused post
    leaves the node as it was and answers with the status of its error. *)
Theorem posted_is_served started completed net n S body bodies :
  reencodes -> node_ok (nd_store n) S ->
  exists n' response, handle started completed net n
    {| rq_method := POST; rq_path := ["v1"; "actions"]; rq_body := body |} = (net, n', response) /\
  ((exists v, parse_public body = Ok v /\
     (exists r, response = Some r /\
        rs_status r = (if contains (sto_index (nd_store n)) (va_digest v) then 200%Z else 201%Z)) /\
     exists headers, handle_get (set_store (answer_posts (nd_store n') bodies) n')
         ["v1"; "actions"; to_hex (va_digest v)]
       = Some (Ok {| rs_status := 200; rs_headers := headers;
                     rs_body := BodyBytes (va_canonical_bytes v) |})) \/
  (exists e, response = Some (into_response e) /\ nd_store n' = nd_store n)).
Proof.
  intros Hre Hok. unfold handle. simpl. unfold post_action.
  destruct (store_refines (nd_store n) S body Hok) as [Eo Hok'].
  destruct (ingest (nd_store n) body) as [store' [o|e]] eqn:Ei; simpl in *;
    do 2 eexists; (split; [done|]).
  - left. destruct (spec_ingest_accepts _ _ _ Hre (no_stored _ _ Hok) (eq_sym Eo)) as (v&Hp&HS&_&->).
    exists v. split; [done|]. split.
    + eexists. split; [done|]. simpl. unfold contains.
      rewrite (rp_actions _ _ _ (no_index _ _ Hok)). by destruct (S !! va_digest v).
    + destruct (answered store' _ bodies Hok') as (S'&Hok2&Hs). unfold get_action.
      rewrite from_hex_to_hex_fact. simpl. rewrite (action_bytes_of _ _ _ Hre Hok2).
      assert (S' !! va_digest v = Some v) as ->; [|by eexists].
      eapply lookup_weaken; [|exact Hs]. by rewrite HS, lookup_insert_eq.
  - right. exists e. split; [done|]. unfold ingest in Ei.
    destruct (parse_public body) as [v|]; [|by simplify_eq].
    destruct (ix_actions _ !! _); [by simplify_eq|].
    destruct (ingest_new _ _) as [[??]|]; by simplify_eq.
Qed.
End theorems.
