(* ===== verification/NodeStory.v ===== *)
(** Concrete nodes: the witnesses of the theorems about one node, and about
    nodes that talk to each other. *)
From S2P Require Import Prelude Text Digest Keys Records Evolution Ontology Lineage Reduction Story NodeModel NodeStore NodeViews NodeFacts NodeSpec NodeScan NodeLaws NodeSync NodeHttp NodeSyncLaws NodePeer.

(** * A concrete node

    Two actions of a Shot given to a node in either order, on the toy platform:
    the witnesses that the hypotheses of the node's theorems can hold. *)

#[local] Existing Instance Toy.platform.

(** A founding commitment and its intention. *)
Definition two_actions : list SignedLineageAction :=
  let h := by_alice [] (λ _ t, PayloadCommitment (commitment_new
             (unwrap ZERO (intention_commitment intention)) alice alice_key t)) in
  by_alice h (λ _ _, PayloadIntention intention).

(** The canonical bytes of the [n]-th action of a history. *)
Definition file_of (history : list SignedLineageAction) (n : nat) : list Z :=
  match history !! n with
  | Some s => unwrap [] (canonical_to_vec s)
  | None => []
  end.

(** A reader that knows only the files of a history. *)
Definition reader (history : list SignedLineageAction) : Codec := {|
  decode_action := λ bytes,
    match List.find (λ s, bool_decide (canonical_to_vec s = Ok bytes)) history with
    | Some s => Ok s
    | None => Err "unknown file"
    end |}.

#[local] Instance toy_reader : Codec := reader two_actions.
#[local] Instance toy_display : PathDisplay := {|
  display_file := λ p, fst p +:+ "/" +:+ snd p; display_bucket := λ b, b |}.

Definition empty_store : Store := {| sto_disk := ∅; sto_index := empty_index |}.

Definition first_file : list Z := file_of two_actions 0.
Definition second_file : list Z := file_of two_actions 1.

(** What an accepted sequence of inputs leaves behind. *)
Definition leaves (size_after : nat) (r : option Store) : bool :=
  match r with
  | Some s => (size (ix_actions (sto_index s)) =? size_after)%nat
      && (length (shots (sto_index s)) =? 1)%nat
  | None => false
  end.

Lemma node_evaluates :
  leaves 2 (ingest_all empty_store [first_file; second_file])
  && leaves 2 (ingest_all empty_store [second_file; first_file]) = true.
Proof. vm_compute. reflexivity. Qed.

(** From here on the two actions are only known through [node_evaluates]. *)
#[local] Opaque two_actions first_file second_file.

Lemma reader_reencodes history : reencodes (H0 := reader history).
Proof.
  intros bytes v Hp. apply parse_public_accepts_fact in Hp as (_&_&Hd&_&_&_&Hc&_).
  simpl in *. destruct (List.find _ history) as [s|] eqn:Hf; [|done]. simplify_eq.
  pose proof (List.find_some _ _ Hf) as [_ E%bool_decide_eq_true]. simplify_eq.
  rewrite E in Hc. injection Hc as <-. by rewrite Hf.
Qed.

Lemma toy_reencodes : reencodes.
Proof. apply reader_reencodes. Qed.

Lemma empty_ok : node_ok empty_store ∅.
Proof.
  constructor.
  - constructor.
    + intros d v Hd. by apply lookup_empty_Some in Hd.
    + apply acyclic_empty.
    + rewrite map_size_empty. lia.
    + intros sh. unfold shot_members. rewrite map_filter_empty, map_size_empty. lia.
  - apply disk_holds_empty.
  - by apply represents_empty.
Qed.

Lemma leaves_inv n r : leaves n r = true ->
  exists s, r = Some s /\ size (ix_actions (sto_index s)) = n /\ length (shots (sto_index s)) = 1.
Proof.
  destruct r as [s|]; simpl; [|done]. intros [Ha Hs]%andb_true_iff.
  exists s. split_and!; [done|by apply Nat.eqb_eq..].
Qed.

Lemma in_order : exists s, ingest_all empty_store [first_file; second_file] = Some s /\
  size (ix_actions (sto_index s)) = 2 /\ length (shots (sto_index s)) = 1.
Proof. exact (leaves_inv _ _ (proj1 (andb_prop _ _ node_evaluates))). Qed.

Lemma out_of_order : exists s, ingest_all empty_store [second_file; first_file] = Some s /\
  size (ix_actions (sto_index s)) = 2 /\ length (shots (sto_index s)) = 1.
Proof. exact (leaves_inv _ _ (proj2 (andb_prop _ _ node_evaluates))). Qed.

Lemma either_order {A} (a b : A) : forall x, x ∈ [a; b] <-> x ∈ [b; a].
Proof. intros x. rewrite !elem_of_cons. tauto. Qed.

Lemma first_accepted : exists o, (ingest empty_store first_file).2 = Ok o.
Proof.
  destruct in_order as (s&Hs&_). cbn [ingest_all] in Hs.
  destruct (ingest empty_store first_file) as [s1 [o|e]]; [by exists o|done].
Qed.

(** The node after both actions, and the set it holds. *)
Lemma loaded : exists s (St : Stored) d v, node_ok s St /\ St !! d = Some v /\
  length (shots (sto_index s)) = 1.
Proof.
  destruct in_order as (s&Hs&_&Hl).
  destruct (ingest_all_extends _ toy_reencodes _ _ _ empty_ok Hs) as (St&Hok&Hext).
  destruct first_accepted as [o Ho]. rewrite (proj1 (store_refines _ _ _ empty_ok)) in Ho.
  destruct (spec_ingest_accepts _ _ _ toy_reencodes (no_stored _ _ empty_ok) Ho) as (v&Hp&_).
  exists s, St, (va_digest v), v. split_and!; [done| |done]. apply Hext.
  right. exists first_file. split_and!; [by left|done|done].
Qed.

Lemma ingest_refines_witness : node_ok empty_store ∅ /\
  ((ingest empty_store first_file).2 = (spec_ingest ∅ first_file).2 /\
   node_ok (ingest empty_store first_file).1 (spec_ingest ∅ first_file).1).
Proof. split; [exact empty_ok|]. exact (ingest_refines _ _ first_file empty_ok). Defined.

Lemma integrity_is_clean_witness : exists s (St : Stored), node_ok s St /\ reencodes /\
  exists report, integrity s = Ok report /\ rep_ok report = true /\
    rep_memory_matches_disk report = true /\ rep_issues report = [] /\
    rep_checked_actions report = size St /\ rep_indexed_actions report = size St.
Proof.
  destruct loaded as (s&St&d&v&Hok&_). exists s, St. split; [exact Hok|].
  split; [exact toy_reencodes|]. exact (integrity_is_clean _ _ toy_reencodes Hok).
Defined.

(** The index is lost; the directory remains. *)
Lemma rebuild_restores_witness : exists s (St : Stored), node_ok s St /\
  let lost := {| sto_disk := sto_disk s; sto_index := empty_index |} in
  node_ok (rebuild lost).1 St /\ is_ok (rebuild lost).2 = true /\
  ix_actions (sto_index (rebuild lost).1) = ix_actions (sto_index s) /\
  ix_shots (sto_index (rebuild lost).1) = ix_shots (sto_index s) /\
  ix_children (sto_index (rebuild lost).1) = ix_children (sto_index s) /\
  open_store (sto_disk s) = Ok (rebuild lost).1.
Proof.
  destruct loaded as (s&St&d&v&Hok&_). exists s, St. split; [exact Hok|].
  exact (rebuild_restores s {| sto_disk := sto_disk s; sto_index := empty_index |} St
    toy_reencodes Hok eq_refl).
Defined.

Lemma neutral_verification_is_reduction_witness : exists (St : Stored) d v, St !! d = Some v /\
  (val_neutral_authority (class_of St d) = AuthorityVerified <->
   exists branch, ancestry St (Some d) branch None /\ length branch <= MAX_ACTIONS_PER_SHOT /\
     is_ok (verify_lineage_segment branch None) = true /\ is_ok (reduce_lineage branch) = true).
Proof.
  destruct loaded as (s&St&d&v&Hok&Hd&_). exists St, d, v. split; [exact Hd|].
  exact (neutral_verification_is_reduction _ _ _ (so_acyclic _ (no_stored _ _ Hok)) Hd).
Defined.

Lemma classification_claims_witness : exists (St : Stored) d v, St !! d = Some v /\
  (val_candidate_authority (class_of St d) <> AuthorityVerified /\
   (forall p, val_missing_parent (class_of St d) = Some p -> chain St (Some d) p /\ St !! p = None)).
Proof.
  destruct loaded as (s&St&d&v&Hok&Hd&_). exists St, d, v. split; [exact Hd|].
  exact (classification_claims St d).
Defined.

Lemma reclassification_repairs_witness : exists s (St : Stored) d, node_ok s St /\
  exists index', reclassify_descendants (sto_index s) d = Some index' /\ represents index' St.
Proof.
  destruct loaded as (s&St&d&v&Hok&Hd&_). exists s, St, d. split; [exact Hok|].
  exact (reclassification_repairs (class_of St) _ _ _ (so_acyclic _ (no_stored _ _ Hok))
    (no_index _ _ Hok) (ex_intro _ v Hd) (λ x _ _ _ _, eq_refl)).
Defined.

Lemma served_for_ever_witness : exists s (St : Stored) d bs, node_ok s St /\
  action_bytes s d = Ok bs /\ action_bytes (ingest s second_file).1 d = Ok bs.
Proof.
  destruct loaded as (s&St&d&v&Hok&Hd&_). exists s, St, d, (va_canonical_bytes v).
  assert (action_bytes s d = Ok (va_canonical_bytes v)) as Hb
    by (by rewrite (action_bytes_of _ _ _ toy_reencodes Hok), Hd).
  split; [exact Hok|]. split; [exact Hb|].
  exact (served_for_ever _ _ second_file _ _ toy_reencodes Hok Hb).
Defined.

Lemma accepted_is_stored_witness : exists o, (ingest empty_store first_file).2 = Ok o /\
  let store' := (ingest empty_store first_file).1 in
  (exists v, parse_public first_file = Ok v /\ out_digest o = va_digest v /\
     action_bytes store' (out_digest o) = Ok (va_canonical_bytes v)) /\
  ingest store' first_file = (store', Ok {| out_digest := out_digest o; out_stored := false;
    out_shot_id := out_shot_id o; out_sequence := out_sequence o;
    out_validation := out_validation o |}).
Proof.
  destruct first_accepted as [o Ho]. exists o. split; [exact Ho|].
  exact (accepted_is_stored _ _ _ _ toy_reencodes empty_ok Ho).
Defined.

Lemma nodes_converge_witness : exists s1 s2,
  ingest_all empty_store [first_file; second_file] = Some s1 /\
  ingest_all empty_store [second_file; first_file] = Some s2 /\
  ((forall path, entry_at (sto_disk s1) path = entry_at (sto_disk s2) path) /\
   ix_actions (sto_index s1) = ix_actions (sto_index s2) /\
   ix_shots (sto_index s1) = ix_shots (sto_index s2) /\
   ix_children (sto_index s1) = ix_children (sto_index s2) /\
   shots (sto_index s1) = shots (sto_index s2)).
Proof.
  destruct in_order as (s1&Hs1&_), out_of_order as (s2&Hs2&_). exists s1, s2.
  split; [exact Hs1|]. split; [exact Hs2|].
  exact (nodes_converge _ _ _ _ _ _ _ toy_reencodes empty_ok empty_ok Hs1 Hs2
    (either_order first_file second_file)).
Defined.

Lemma observed_heads_are_leaves_witness : exists s (St : Stored) sh view, node_ok s St /\
  shot_view (sto_index s) sh = Ok view /\
  forall d, d ∈ sum_observed_heads (view_shot view) <->
    (exists v, St !! d = Some v /\ va_shot_id v = sh) /\
    ~ (exists c w, St !! c = Some w /\ va_shot_id w = sh /\ va_previous w = Some d).
Proof.
  destruct loaded as (s&St&d&v&Hok&Hd&_).
  assert (exists view, shot_view (sto_index s) (va_shot_id v) = Ok view) as [view Hv].
  { pose proof (rp_shots _ _ _ (no_index _ _ Hok) (va_shot_id v) (va_sequence v) d) as Hs.
    rewrite Hd in Hs. simpl in Hs. rewrite !bool_decide_eq_true_2 in Hs by done. simpl in Hs.
    unfold shot_view. destruct (ix_shots (sto_index s) !! va_shot_id v); [by eexists|done]. }
  exists s, St, (va_shot_id v), view. split; [exact Hok|]. split; [exact Hv|]. intros x.
  exact (observed_heads_are_leaves _ _ _ _ x Hok Hv).
Defined.

(** * Two concrete nodes

    A node that holds two actions of a Shot serves them to an empty node, on
    the toy platform: the witnesses that the hypotheses of the theorems about
    synchronization can hold. *)

#[local] Existing Instance Toy.platform.
#[local] Existing Instance toy_reader.
#[local] Existing Instance toy_display.

(** ** The serving node *)

(** Every action that a sequence of inputs leaves is neutrally verified. *)
Definition leaves_verified (r : option Store) : bool :=
  match r with
  | Some s => (size (ix_shots (sto_index s)) =? 1)%nat && forallb (λ p,
      val_neutral_authority (ref_validation (am_reference p.2)) == AuthorityVerified)
      (map_to_list (ix_actions (sto_index s)))
  | None => false
  end.

Lemma served_evaluates :
  leaves_verified (ingest_all empty_store [first_file; second_file]) = true.
Proof. vm_compute. reflexivity. Qed.

#[local] Opaque two_actions first_file second_file.

Lemma serving : exists s (St : Stored), node_ok s St /\ all_verified St /\
  size (ix_shots (sto_index s)) = 1.
Proof.
  pose proof served_evaluates as He. destruct in_order as (s&Hs&_). rewrite Hs in He.
  destruct (ingest_all_extends _ toy_reencodes _ _ _ empty_ok Hs) as (St&Hok&_).
  exists s, St. apply andb_true_iff in He as [Hn%Nat.eqb_eq Hv].
  split; [done|]. split; [|done]. intros d [v Hd]. rewrite forallb_forall in Hv.
  pose proof (rp_actions _ _ _ (no_index _ _ Hok) d) as Ha. rewrite Hd in Ha.
  specialize (Hv (d, meta_of (class_of St) d v)). simpl in Hv.
  apply bool_decide_eq_true in Hv; [done|].
  by apply list_elem_of_In, elem_of_map_to_list.
Qed.

(** ** The wire *)

(** URLs are the segments of their path. *)
#[local] Instance toy_urls : Urls := {|
  Url := list string;
  url_parse := λ _, Some [];
  url_scheme := λ _, "http"; url_username := λ _, ""; url_password := λ _, None;
  url_query := λ _, None; url_fragment := λ _, None; url_path := λ _, "/";
  url_set_path := λ _ u, u; url_as_str := λ _, "http://peer/";
  url_join := λ _ s, Some (string_of <$> split_on 47 (bytes_of s)) |}.

Definition toy_peer : Peer := {| peer_base := ([] : list string) |}.

(** A JSON string without escapes: the text between the quotes. *)
#[local] Instance toy_strings : JsonStrings := {|
  read_string := λ s, Ok (string_of (removelast (drop 1 (bytes_of s))));
  custom_error := λ s, s |}.

Definition toy_identity : NodeIdentity :=
  {| ni_schema := IDENTITY_SCHEMA; ni_node_id := filled 32 1; ni_created_at_unix := 1 |}.

Definition node_of (s : Store) : Node :=
  {| nd_identity := toy_identity; nd_store := s; nd_peers := []; nd_sync_status := default_report;
     nd_sync_locked := false |}.

(** The only view of a node with one Shot. *)
Definition only_view (s : Store) : Result string ShotView :=
  match shots (sto_index s) with
  | summary :: _ => map_err display_node_error (shot_view (sto_index s) (sum_shot_id summary))
  | [] => Err "no Shot"
  end.

#[local] Instance toy_writer : ApiWriter := {|
  write_body := λ b, match b with BodyBytes bytes => bytes | _ => [] end |}.

(** A reader of the documents of one node. *)
Definition documents_of (s : Store) : PeerReader := {|
  read_node_info := λ _, Ok (remote_of (info toy_identity (sto_index s)));
  read_shots := λ _, Ok (shots (sto_index s));
  read_shot_view := λ _, only_view s |}.

(** The network that reaches the node with this store. *)
Definition network_of (s : Store) : HttpClient := {|
  Net := unit;
  send := λ _ url, ((), [], match handle_get (node_of s) url with
    | Some r => Ok {| rp_status := rs_status (respond r); rp_content_length := None;
                      rp_chunks := [write_body (rs_body (respond r))]; rp_failure := None |}
    | None => Err "unreachable"
    end);
  status_text := λ _, "status" |}.

Lemma split_on_none sep a : sep ∉ a -> split_on sep a = [a].
Proof.
  induction a as [|x a IH]; intros Hn; simpl; [done|].
  apply not_elem_of_cons in Hn as [Hx Hn]. rewrite IH by done.
  by destruct (Z.eqb_spec x sep) as [->|].
Qed.

Lemma hex_no_slash (d : Bytes32) : 47%Z ∉ bytes_of (to_hex d).
Proof.
  rewrite to_hex_bytes. rewrite !not_elem_of_cons. split_and!; [done..|].
  destruct (hex_of_spec (as_bytes d) (as_bytes_bound d)) as (Hx&_).
  intros Hin. rewrite Forall_forall in Hx. apply Hx in Hin as [Hin _]. by vm_compute in Hin.
Qed.

Lemma split_on_app sep a b : split_on sep (a ++ sep :: b) = split_on sep a ++ split_on sep b.
Proof.
  induction a as [|x a IH]; cbn [app split_on]; [by rewrite Z.eqb_refl|]. rewrite IH.
  destruct (x =? sep)%Z; [done|]. destruct (split_on sep a) as [|q qs] eqn:E; [|done].
  destruct a as [|y a]; [done|]. cbn [split_on] in E. by repeat case_match.
Qed.

(** The segments of the path of one item. *)
Lemma item_segments (kind : string) (d : Bytes32) : 47%Z ∉ bytes_of kind ->
  string_of <$> split_on 47 (bytes_of ("v1/" +:+ kind +:+ "/" +:+ to_hex d))
    = ["v1"; kind; to_hex d].
Proof.
  intros Hk. rewrite !bytes_of_app.
  change (bytes_of "v1/") with (bytes_of "v1" ++ [47%Z]). change (bytes_of "/") with [47%Z].
  rewrite <- !app_assoc. cbn [app]. rewrite !split_on_app, (split_on_none 47 (bytes_of kind)) by done.
  rewrite (split_on_none 47 (bytes_of (to_hex d)) (hex_no_slash d)).
  change (split_on 47 (bytes_of "v1")) with [bytes_of "v1"]. cbn [app].
  by rewrite !fmap_cons, fmap_nil, !string_of_bytes_of.
Qed.

Lemma toy_answers s : answers (H3 := network_of s) toy_peer (node_of s).
Proof.
  intros path r Hp Hr. exists path. split.
  - destruct Hp as [| |d|d]; [reflexivity|reflexivity| |]; cbn [url_join toy_urls];
      apply f_equal.
    + apply (item_segments "shots"). apply (bool_decide_unpack _); by vm_compute.
    + apply (item_segments "actions"). apply (bool_decide_unpack _); by vm_compute.
  - intros []. cbn [send network_of]. rewrite Hr. do 2 eexists. split; [reflexivity|].
    unfold delivers. cbn. by rewrite app_nil_r.
Qed.

Lemma toy_documents s : size (ix_shots (sto_index s)) = 1 ->
  readable_documents (H4 := documents_of s) (node_of s).
Proof.
  intros Hone. constructor.
  - by vm_compute.
  - split; [done|]. cbn. lia.
  - split; [done|]. cbn. lia.
  - intros sh view Hv. split; [|cbn; lia]. cbn [read_shot_view documents_of]. unfold only_view.
    cbn [nd_store node_of] in Hv. pose proof (shots_count (sto_index s)) as Hc. rewrite Hone in Hc.
    unfold shots in *. unfold shot_view in Hv.
    destruct (ix_shots (sto_index s) !! sh) as [m|] eqn:Hm; [|done]. simpl in Hv.
    set (L := stable_sort _ (map_to_list (ix_shots (sto_index s)))) in *.
    assert ((sh, m) ∈ L) as Hin by (unfold L; by rewrite (stable_sort_perm _), elem_of_map_to_list).
    destruct L as [|[sh' m'] [|? ?]]; [done| |done].
    apply list_elem_of_singleton in Hin as [= <- <-]. simpl. unfold shot_view. rewrite Hm. simpl.
    by injection Hv as <-.
  - done.
  - intros d. cbn [read_string toy_strings]. f_equal. unfold quoted.
    rewrite bytes_of_string_of.
    + change (drop 1 (34%Z :: bytes_of (to_hex d) ++ [34%Z])) with (bytes_of (to_hex d) ++ [34%Z]).
      by rewrite removelast_last, string_of_bytes_of.
    + constructor; [lia|]. apply Forall_app. split; [|by repeat constructor; lia].
      apply bytes_of_bound.
  - cbn [nd_store node_of]. rewrite Hone. apply remote_shots_pos.
Qed.

(** ** Witnesses *)

Lemma download_bounded_witness :
  let reply := {| rp_status := 200; rp_content_length := Some 2%Z; rp_chunks := [[1%Z]; [2%Z]];
                  rp_failure := None |} in
  (Z.of_nat 2 < U64_MAX)%Z /\
  forall b, reply_bytes (H3 := network_of empty_store) 2 reply = Ok b <->
    is_success (rp_status reply) = true /\
    (forall l, rp_content_length reply = Some l -> (l <= Z.of_nat 2)%Z) /\
    rp_failure reply = None /\ b = concat (rp_chunks reply) /\ length b <= 2.
Proof.
  intros reply. assert (Z.of_nat 2 < U64_MAX)%Z as Hu by (vm_compute; reflexivity).
  split; [exact Hu|]. intros b. exact (download_bounded 2 reply b Hu).
Defined.

(** An empty node and one that may not be reached. *)
Lemma sync_any_peers_witness :
  let n := {| nd_identity := toy_identity; nd_store := empty_store; nd_peers := [toy_peer];
              nd_sync_status := default_report; nd_sync_locked := false |} in
  let client := network_of empty_store in
  let reader := documents_of empty_store in
  node_ok (nd_store n) ∅ /\ nd_sync_locked n = false /\
  exists net' n' report S', sync 1 2 tt n = (net', n', Ok report) /\
    node_ok (nd_store n') S' /\ (∅ : Stored) ⊆ S' /\
    sum_list (psr_fetched <$> sr_peers report) + size (∅ : Stored) <= size S' /\
    Forall2 (λ p r, psr_peer r = peer_as_str p /\ psr_rejected r <= 1 /\
      (psr_rejected r <> 0 -> psr_error r <> None)) (nd_peers n) (sr_peers report) /\
    (sr_state report = SyncSucceeded <-> forall r, r ∈ sr_peers report -> psr_error r = None) /\
    (sr_state report = SyncFailed <-> exists r, r ∈ sr_peers report /\ psr_error r <> None) /\
    nd_sync_status n' = report /\ nd_sync_locked n' = false /\ nd_peers n' = nd_peers n.
Proof.
  intros n client reader. split; [exact empty_ok|]. split; [reflexivity|].
  exact (sync_any_peers (H3 := client) (H4 := reader) 1 2 tt n ∅ empty_ok eq_refl).
Defined.

Lemma honest_peer_pulled_witness : exists s (St : Stored),
  let client := network_of s in let reader := documents_of s in
  node_ok s St /\ all_verified St /\ size (ix_shots (sto_index s)) = 1 /\
  exists net' store' result, sync_one toy_peer tt empty_store = (net', store', result) /\
    node_ok store' (∅ ∪ St) /\
    psr_error result = None /\ psr_rejected result = 0 /\
    psr_fetched result + size (∅ : Stored) = size (∅ ∪ St) /\
    (all_verified ∅ -> all_verified (∅ ∪ St)).
Proof.
  destruct serving as (s&St&Hok&Hver&Hone). exists s, St. intros client reader.
  split; [exact Hok|]. split; [exact Hver|]. split; [exact Hone|].
  pose proof (left_id_L ∅ (∪) St) as E.
  apply (honest_peer_pulled (H3 := client) (H4 := reader) toy_peer (node_of s) St ∅ tt empty_store toy_reencodes
    (toy_answers s) (toy_documents s Hone) Hok Hver empty_ok); rewrite E.
  - reflexivity.
  - exact (so_node _ (no_stored _ _ Hok)).
  - exact (so_shot _ (no_stored _ _ Hok)).
Defined.

Lemma pull_replicates_witness : exists s (St : Stored),
  let client := network_of s in let reader := documents_of s in
  node_ok s St /\ all_verified St /\ size (ix_shots (sto_index s)) = 1 /\
  exists net' store' result, sync_one toy_peer tt empty_store = (net', store', result) /\
    psr_error result = None /\
    (forall path, entry_at (sto_disk store') path = entry_at (sto_disk s) path) /\
    ix_actions (sto_index store') = ix_actions (sto_index s) /\
    ix_shots (sto_index store') = ix_shots (sto_index s) /\
    ix_children (sto_index store') = ix_children (sto_index s) /\
    shots (sto_index store') = shots (sto_index s).
Proof.
  destruct serving as (s&St&Hok&Hver&Hone). exists s, St. intros client reader.
  split; [exact Hok|]. split; [exact Hver|]. split; [exact Hone|].
  exact (pull_replicates (H3 := client) (H4 := reader) toy_peer (node_of s) St ∅ tt empty_store toy_reencodes
    (toy_answers s) (toy_documents s Hone) Hok Hver empty_ok (map_empty_subseteq St)).
Defined.

Lemma posted_is_served_witness :
  let client := network_of empty_store in let reader := documents_of empty_store in
  let n := node_of empty_store in
  node_ok (nd_store n) ∅ /\
  forall bodies, exists n' response, handle 1 2 tt n
    {| rq_method := POST; rq_path := ["v1"; "actions"]; rq_body := first_file |}
      = (tt, n', response) /\
  ((exists v, parse_public first_file = Ok v /\
     (exists r, response = Some r /\
        rs_status r = (if contains (sto_index (nd_store n)) (va_digest v) then 200%Z else 201%Z)) /\
     exists headers, handle_get (set_store (answer_posts (nd_store n') bodies) n')
         ["v1"; "actions"; to_hex (va_digest v)]
       = Some (Ok {| rs_status := 200; rs_headers := headers;
                     rs_body := BodyBytes (va_canonical_bytes v) |})) \/
  (exists e, response = Some (into_response e) /\ nd_store n' = nd_store n)).
Proof.
  intros client reader n. split; [exact empty_ok|]. intros bodies.
  exact (posted_is_served (H3 := client) (H4 := reader) 1 2 tt n ∅ first_file bodies toy_reencodes empty_ok).
Defined.
