(* ===== verification/FileTree.v ===== *)
(** * Paths and directory trees

    What the source uses of the standard library to read a directory:
    [std::path::Path] on Unix, metadata, and a tree as a walk of it observes
    it. Unicode tables and the display of paths are parameters. *)
From S2P Require Import Prelude Digest.

(** ** Paths

    A path and a file name are their bytes. *)

Inductive Component := RootDir | CurDir | ParentDir | Normal (name : string).
#[export] Instance Component_eq_dec : EqDecision Component.
Proof. solve_decision. Defined.

(** The separator [/]. *)
Definition SLASH : Z := 47.

(** The component a segment stands for, inside a path. *)
Definition segment_component (segment : list Z) : option Component :=
  if segment == [] then None
  else if segment == bytes_of "." then None
  else if segment == bytes_of ".." then Some ParentDir
  else Some (Normal (string_of segment)).

(** [Path::components] on Unix: empty segments and inner [.] are skipped. *)
Definition components (path : string) : list Component :=
  let bytes := bytes_of path in
  let segments := split_on SLASH bytes in
  let prefix :=
    if starts_with [SLASH] bytes then [RootDir]
    else if head segments == Some (bytes_of ".") then [CurDir] else [] in
  prefix ++ omap segment_component segments.

(** [Path::is_absolute] on Unix. *)
Definition is_absolute (path : string) : bool := starts_with [SLASH] (bytes_of path).

(** Equality of paths. *)
Definition same_path (a b : string) : bool := bool_decide (components a = components b).

(** [slice.join] with the separator. *)
Definition join_path (names : list string) : string := string_of (join_with SLASH (bytes_of <$> names)).

(** [str::split] at the separator. *)
Definition split_path (path : string) : list string := string_of <$> split_on SLASH (bytes_of path).

(** [rsplit(c).next()]: what follows the last separator. *)
Definition last_name (path : string) : string := default "" (last (split_path path)).

(** [format!("{:04}")] *)
Definition padded4 (n : Z) : string :=
  let digits := bytes_of (pretty n) in string_of (replicate (4 - length digits) 48%Z ++ digits).

(** The bytes before and after the last [.]. *)
Fixpoint rsplit_dot (bytes : list Z) : option (list Z * list Z) :=
  match bytes with
  | [] => None
  | b :: bytes =>
      match rsplit_dot bytes with
      | Some (before, after) => Some (b :: before, after)
      | None => if (b =? 46)%Z then Some ([], bytes) else None
      end
  end.

(** [Path::new(name).extension()] of a file name other than [..]. *)
Definition extension (name : string) : option string :=
  match rsplit_dot (bytes_of name) with
  | Some (before, after) => if before == [] then None else Some (string_of after)
  | None => None
  end.

(** [str::to_ascii_lowercase] *)
Definition ascii_lowercase_byte (b : Z) : Z := if is_ascii_uppercase b then b + 32 else b.
Definition to_ascii_lowercase (s : string) : string := string_of (ascii_lowercase_byte <$> bytes_of s).

(** [str::contains] and [ends_with] *)
Fixpoint contains_bytes (needle bytes : list Z) : bool :=
  starts_with needle bytes
  || match bytes with [] => false | _ :: bytes => contains_bytes needle bytes end.
Definition ends_with (suffix bytes : list Z) : bool := starts_with (rev suffix) (rev bytes).

(** ** UTF-8 *)

Definition in_range (low high b : Z) : bool := (low <=? b) && (b <=? high).
Definition continuation : Z -> bool := in_range 128 191.

(** [str::from_utf8(bytes).is_ok()] *)
Fixpoint utf8_valid (bytes : list Z) : bool :=
  match bytes with
  | [] => true
  | b :: bytes =>
      if in_range 0 127 b then utf8_valid bytes
      else match bytes with
      | [] => false
      | c1 :: bytes =>
          if in_range 194 223 b then continuation c1 && utf8_valid bytes
          else match bytes with
          | [] => false
          | c2 :: bytes =>
              if in_range 224 239 b then
                in_range (if b =? 224 then 160 else 128) (if b =? 237 then 159 else 191) c1
                && continuation c2 && utf8_valid bytes
              else match bytes with
              | [] => false
              | c3 :: bytes =>
                  in_range 240 244 b
                  && in_range (if b =? 240 then 144 else 128) (if b =? 244 then 143 else 191) c1
                  && continuation c2 && continuation c3 && utf8_valid bytes
              end
          end
      end
  end%Z.

(** [OsStr::to_str] *)
Definition to_str (name : string) : option string :=
  if utf8_valid (bytes_of name) then Some name else None.

(** The Unicode tables: [UnicodeNormalization::nfc] and [str::to_lowercase]. *)
Class Unicode := {
  nfc : string -> string;
  to_lowercase : string -> string }.

(** ** Metadata *)

Inductive FileType := RegularType | DirectoryType | SymlinkType | OtherType.
#[export] Instance FileType_eq_dec : EqDecision FileType.
Proof. solve_decision. Defined.

Record Metadata := {
  md_type : FileType;
  md_dev : Z;
  md_ino : Z;
  md_len : Z;
  md_mtime : Z;
  md_mtime_nsec : Z;
  md_ctime : Z;
  md_ctime_nsec : Z;
  md_nlink : Z;
  md_mode : Z }.

Definition is_file (m : Metadata) : bool := md_type m == RegularType.
Definition is_dir (m : Metadata) : bool := md_type m == DirectoryType.
Definition is_symlink (m : Metadata) : bool := md_type m == SymlinkType.

(** ** Trees

    What the system calls of one walk answer at each entry, in the order in
    which the walk asks; an I/O error is its message. A file is opened, asked
    for its metadata, read to its end, and looked up again. *)

Record FileReads := {
  rd_open : Result string unit;
  rd_metadata : Result string Metadata;
  rd_bytes : Result string (list Z);
  rd_final : Result string Metadata }.

(** An entry: its metadata without following links, the reads of it as a file,
    and its listing as a directory, in the order of [read_dir]. *)
Inductive FsNode : Type :=
  MkFsNode (metadata : Result string Metadata) (reads : FileReads)
    (listing : Result string unit) (items : FsItems)
with FsItems : Type :=
  | NoMoreItems
  | ItemError (error : string) (items : FsItems)
  | Item (name : string) (node : FsNode) (items : FsItems).

Scheme FsNode_rect' := Induction for FsNode Sort Prop
with FsItems_rect' := Induction for FsItems Sort Prop.
Combined Scheme FsNode_FsItems_ind from FsNode_rect', FsItems_rect'.

Definition fs_metadata (n : FsNode) : Result string Metadata :=
  match n with MkFsNode metadata _ _ _ => metadata end.
Definition fs_reads (n : FsNode) : FileReads := match n with MkFsNode _ reads _ _ => reads end.
Definition fs_items (n : FsNode) : FsItems := match n with MkFsNode _ _ _ items => items end.
Definition fs_listing (n : FsNode) : Result string unit :=
  match n with MkFsNode _ _ listing _ => listing end.

(** [path.display()] of the entry reached from the root of the walk by a list
    of names, and of a relative path. *)
Class TreeDisplay := {
  display_under_root : list string -> string;
  display_relative : string -> string }.

(** ** Lemmas *)

Lemma bytes_of_join names : bytes_of (join_path names) = join_with SLASH (bytes_of <$> names).
Proof.
  apply bytes_of_string_of. induction names as [|n names IH]; [constructor|].
  destruct names as [|m names]; [apply bytes_of_bound|].
  cbn [fmap list_fmap join_with] in *. apply Forall_app. split; [apply bytes_of_bound|].
  constructor; [unfold SLASH; lia|exact IH].
Qed.

Lemma ascii_lowercase_bound bytes : Forall (λ b, 0 <= b < 256)%Z bytes ->
  Forall (λ b, 0 <= b < 256)%Z (ascii_lowercase_byte <$> bytes).
Proof.
  intros Hb. apply Forall_fmap. eapply Forall_impl; [exact Hb|].
  intros b Hr. cbn beta in Hr. unfold compose, ascii_lowercase_byte, is_ascii_uppercase.
  destruct (Z.leb_spec 65 b), (Z.leb_spec b 90); simpl; lia.
Qed.

(** ** Names *)

(** A file name as it can stand between separators. *)
Definition plain_name (name : string) : Prop :=
  name <> "" /\ name <> "." /\ name <> ".." /\ SLASH ∉ bytes_of name.

Lemma bytes_of_nil name : bytes_of name = [] <-> name = "".
Proof. split; [|by intros ->]. intros E. by apply (inj bytes_of). Qed.

Lemma split_on_Forall (P : Z -> Prop) sep bs : Forall P bs -> Forall (Forall P) (split_on sep bs).
Proof.
  induction 1 as [|b bs Hb _ IH]; simpl; [by repeat constructor|].
  destruct (b =? sep)%Z; [by repeat constructor|].
  destruct (split_on sep bs) as [|p ps]; [by repeat constructor|].
  apply Forall_cons in IH as [Hp Hps]. repeat constructor; done.
Qed.

Lemma split_on_app_sep sep p bs : sep ∉ p -> split_on sep (p ++ sep :: bs) = p :: split_on sep bs.
Proof.
  induction p as [|b p IH]; intros Hp; simpl; [by rewrite Z.eqb_refl|].
  apply not_elem_of_cons in Hp as [Hne Hp]. rewrite IH by done.
  by rewrite (proj2 (Z.eqb_neq b sep)) by congruence.
Qed.

Lemma split_on_single sep p : sep ∉ p -> split_on sep p = [p].
Proof.
  induction p as [|b p IH]; intros Hp; simpl; [done|].
  apply not_elem_of_cons in Hp as [Hne Hp]. rewrite IH by done.
  by rewrite (proj2 (Z.eqb_neq b sep)) by congruence.
Qed.

Lemma split_on_join sep ps : ps <> [] -> Forall (λ p, sep ∉ p) ps -> split_on sep (join_with sep ps) = ps.
Proof.
  intros Hne Hps. induction Hps as [|p ps Hp Hps IH]; [done|].
  destruct ps as [|q ps]; [by apply split_on_single|].
  change (join_with sep (p :: q :: ps)) with (p ++ sep :: join_with sep (q :: ps)).
  rewrite split_on_app_sep by done. by rewrite IH.
Qed.

(** Splitting at the separators undoes joining. *)
Lemma split_path_join names : names <> [] -> Forall plain_name names -> split_path (join_path names) = names.
Proof.
  intros Hne Hn. unfold split_path. rewrite bytes_of_join, split_on_join.
  - rewrite <- list_fmap_compose. rewrite <- (list_fmap_id names) at 2. apply list_fmap_ext.
    intros ? n _. apply string_of_bytes_of.
  - by destruct names.
  - apply Forall_fmap. eapply Forall_impl; [exact Hn|]. by intros n (_&_&_&?).
Qed.

Lemma join_path_inj a b : a <> [] -> b <> [] -> Forall plain_name a -> Forall plain_name b ->
  join_path a = join_path b -> a = b.
Proof. intros Ha Hb Hpa Hpb E. rewrite <- (split_path_join a), <- (split_path_join b), E by done. done. Qed.

(** What the components of a path can be. *)
Lemma components_plain path name : Normal name ∈ components path -> plain_name name.
Proof.
  unfold components. rewrite elem_of_app. intros [Hin|Hin].
  { repeat case_match; set_solver. }
  apply list_elem_of_omap in Hin as (segment&Hs&Hc). unfold segment_component in Hc.
  destruct (bool_decide_reflect (segment = [])); [done|].
  destruct (bool_decide_reflect (segment = bytes_of ".")); [done|].
  destruct (bool_decide_reflect (segment = bytes_of "..")); [done|]. injection Hc as <-.
  assert (bytes_of (string_of segment) = segment) as Hb.
  { apply bytes_of_string_of. pose proof (split_on_Forall _ SLASH _ (bytes_of_bound path)) as Hf.
    rewrite Forall_forall in Hf. by apply Hf. }
  pose proof (split_on_no_sep SLASH (bytes_of path)) as Hsep. rewrite Forall_forall in Hsep.
  split_and!; [intros E; rewrite E in Hb; by symmetry in Hb..|rewrite Hb; by apply Hsep].
Qed.

(** The components of joined names are those names. *)
Lemma components_join names : names <> [] -> Forall plain_name names ->
  components (join_path names) = Normal <$> names.
Proof.
  intros Hne Hn. unfold components.
  assert (split_on SLASH (bytes_of (join_path names)) = bytes_of <$> names) as Es.
  { rewrite bytes_of_join. apply split_on_join; [by destruct names|].
    apply Forall_fmap. eapply Forall_impl; [exact Hn|]. by intros n (_&_&_&?). }
  rewrite Es.
  assert (omap segment_component (bytes_of <$> names) = Normal <$> names) as ->.
  { clear Es Hne. induction Hn as [|n names (He&Hd&Hdd&_) _ IH]; [done|]. cbn. rewrite IH.
    unfold segment_component. rewrite !bool_decide_eq_false_2; [by rewrite string_of_bytes_of|..];
      intros E; [by apply Hdd, (inj bytes_of)|by apply Hd, (inj bytes_of)|by apply He, (inj bytes_of)]. }
  destruct names as [|n names]; [done|]. apply Forall_cons in Hn as [(He&Hd&_&Hs) _].
  assert (starts_with [SLASH] (bytes_of (join_path (n :: names))) = false) as ->.
  { rewrite bytes_of_join. destruct (bytes_of n) as [|b r] eqn:En; [by apply bytes_of_nil in En|].
    assert (exists rest, join_with SLASH (bytes_of <$> n :: names) = b :: rest) as [rest ->].
    { cbn. rewrite En. destruct names; cbn; eauto. }
    cbn [starts_with]. apply not_elem_of_cons in Hs as [Hs _].
    rewrite (proj2 (Z.eqb_neq SLASH b)); [done|congruence]. }
  cbn. rewrite bool_decide_eq_false_2; [done|]. intros [= E]. by apply Hd, (inj bytes_of).
Qed.
