(* ===== verification/TreeHash.v ===== *)
(** * Source-tree commitments

    [protocol/src/tree_hash.rs]: the walk of a source directory, the paths that
    may not be in it, and the hash of its entries; with what
    [protocol/src/fascia_tree.rs] repeats of it word for word. *)
From S2P Require Import Prelude Text Digest FileTree.

Definition SOURCE_TREE_DOMAIN : list Z := domain "TOHSENO-SOURCE-TREE-V1".

Definition SELF_REFERENTIAL_EXCLUSIONS : list string :=
  ["TOHSENO/shot.json"; "TOHSENO/signature.json"; "TOHSENO/conformance.json";
   "TOHSENO/embedded-provenance.json"].
Definition EXCLUDED_DIRECTORY_COMPONENTS : list string :=
  [".git"; ".tohseno"; ".build"; ".swiftpm"; "DerivedData"; "build"; "xcuserdata"].
Definition PRIVATE_FILE_NAMES : list string :=
  [".DS_Store"; ".env"; "build.log"; "harness.log"; "prompt.md"; "TASK.md"].
Definition PRIVATE_EXTENSIONS : list string :=
  ["log"; "mobileprovision"; "p8"; "p12"; "pem"; "pfx"; "xcuserstate"].

Record SourceTreeEntry := { te_path : string; te_content_sha256 : Bytes32 }.
#[export] Instance SourceTreeEntry_eq_dec : EqDecision SourceTreeEntry.
Proof. solve_decision. Defined.
Record SourceTreeCommitment := { tc_digest : Bytes32; tc_entries : list SourceTreeEntry }.

(** ** What both walks share

    The two files have the same private functions, up to the variant of the
    error. *)

Section shared.
Context `{Unicode} `{TreeDisplay}.

Definition path_component_bad (component : string) : bool :=
  (component == "") || (component == ".") || (component == "..") || (nfc component != component).

Definition validate_path_with (error : string -> ProtocolError) (path : string) : result unit :=
  fail_if ((path == "") || starts_with (bytes_of "/") (bytes_of path)
           || bool_decide (92%Z ∈ bytes_of path) || existsb is_control (chars (bytes_of path))
           || existsb path_component_bad (split_path path)) (error path).

(** One component of a relative path. *)
Definition normalize_component (error : ProtocolError) (c : Component) : result string :=
  match c with
  | Normal value =>
      value ← ok_or error (to_str value);
      let normalized := nfc value in
      fail_if ((normalized == "") || (normalized == ".") || (normalized == "..")) error ;;
      Ok normalized
  | _ => Err error
  end.
Fixpoint normalize_components (error : ProtocolError) (cs : list Component) : result (list string) :=
  match cs with
  | [] => Ok []
  | c :: cs =>
      name ← normalize_component error c;
      names ← normalize_components error cs;
      Ok (name :: names)
  end.

Definition normalize_path_with (error : string -> ProtocolError) (relative : string) : result string :=
  names ← normalize_components (error (display_relative relative)) (components relative);
  let path := join_path names in
  validate_path_with error path ;;
  Ok path.

Definition same_file (l r : Metadata) : bool :=
  (md_dev l == md_dev r) && (md_ino l == md_ino r) && (md_len l == md_len r)
  && (md_mtime l == md_mtime r) && (md_mtime_nsec l == md_mtime_nsec r)
  && (md_ctime l == md_ctime r) && (md_ctime_nsec l == md_ctime_nsec r).

(** The bytes of a regular file that did not change while it was read. *)
Definition read_unchanged (io : string -> string -> ProtocolError) (changed : string -> ProtocolError)
    (shown : string) (reads : FileReads) (initial : Metadata) : result (list Z) :=
  map_err (io shown) (rd_open reads) ;;
  opened ← map_err (io shown) (rd_metadata reads);
  fail_if (negb (is_file opened) || negb (same_file initial opened)) (changed shown) ;;
  bytes ← map_err (io shown) (rd_bytes reads);
  final_metadata ← map_err (io shown) (rd_final reads);
  fail_if (is_symlink final_metadata || negb (same_file initial final_metadata)
           || (md_len opened != md_len final_metadata)
           || (Z.of_nat (length bytes) != md_len opened)) (changed shown) ;;
  Ok bytes.
End shared.

Definition collision_message (previous path : string) : string :=
  previous +:+ " collides with " +:+ path +:+ " on an Apple filesystem".

(** ** The paths of a source tree *)

Definition exclusion_reason (normalized_path : string) : option string :=
  if bool_decide (normalized_path ∈ SELF_REFERENTIAL_EXCLUSIONS)
  then Some "protocol sidecar excluded to prevent self-reference" else None.

Definition forbidden_source_reason (normalized_path : string) : option string :=
  let parts := split_path normalized_path in
  if existsb (λ part, bool_decide (part ∈ EXCLUDED_DIRECTORY_COMPONENTS)) parts
  then Some "build, VCS, or user-local directory is forbidden inside source"
  else
    let file_name := default "" (last parts) in
    if bool_decide (file_name ∈ PRIVATE_FILE_NAMES)
       || (starts_with (bytes_of ".env.") (bytes_of file_name) && (5 <? len file_name)%nat)
    then Some "private, temporary, or log file is forbidden inside source"
    else if is_some_and (λ e, bool_decide (e ∈ PRIVATE_EXTENSIONS)) (extension file_name)
    then Some "signing, log, or user-local artifact is forbidden inside source"
    else None.

(** ** The hash of the entries *)

Definition entry_leb (l r : SourceTreeEntry) : bool := bytes_leb (bytes_of (te_path l)) (bytes_of (te_path r)).

(** The collisions of case on an Apple filesystem, over paths in order. *)
Fixpoint case_loop (error : string -> ProtocolError) (case_folded : gmap string string)
    (paths : list string) : result unit :=
  match paths with
  | [] => Ok tt
  | path :: paths =>
      let folded := to_ascii_lowercase path in
      fail_if (is_some_and (λ previous, previous != path) (case_folded !! folded))
        (error (collision_message (default "" (case_folded !! folded)) path)) ;;
      case_loop error (<[folded := path]> case_folded) paths
  end.

Section hash.
Context `{Platform} `{Unicode} `{TreeDisplay}.

Definition validate_normalized_path (path : string) : result unit :=
  validate_path_with InvalidTreePath path.
Definition normalize_relative_path (relative : string) : result string :=
  normalize_path_with InvalidTreePath relative.

(** The loop that writes the stream, with the path it wrote last. *)
Fixpoint stream_loop (previous : option string) (stream : list Z) (entries : list SourceTreeEntry)
    : result (list Z) :=
  match entries with
  | [] => Ok stream
  | entry :: entries =>
      let path := te_path entry in
      validate_normalized_path path ;;
      fail_if (previous == Some path) (DuplicateTreePath path) ;;
      length ← ok_or (InvalidTreePath path) (u32_try_from (len path));
      stream_loop (Some path)
        (stream ++ be_bytes 4 length ++ bytes_of path ++ as_bytes (te_content_sha256 entry)) entries
  end.

Definition hash_entries (entries : list SourceTreeEntry) : result Bytes32 :=
  let sorted := stable_sort entry_leb entries in
  case_loop DuplicateTreePath ∅ (te_path <$> sorted) ;;
  count ← ok_or (InvalidTreePath "too many files") (u64_try_from (length sorted));
  stream ← stream_loop None (SOURCE_TREE_DOMAIN ++ be_bytes 8 count) sorted;
  Ok (sha256 stream).

(** ** The walks *)

Definition hash_regular_file (at_ : list string) (node : FsNode) (initial : Metadata)
    : result Bytes32 :=
  bytes ← read_unchanged TreeIo TreeChanged (display_under_root at_) (fs_reads node) initial;
  Ok (sha256 bytes).

Definition metadata_of_node (at_ : list string) (node : FsNode) : result Metadata :=
  map_err (TreeIo (display_under_root at_)) (fs_metadata node).

Definition entry_of (path : string) (digest : Bytes32) : SourceTreeEntry :=
  {| te_path := path; te_content_sha256 := digest |}.

(** [walk]; stripping the root from the path of a listed entry cannot fail. *)
Fixpoint walk_source (at_ : list string) (node : FsNode) (entries : list SourceTreeEntry)
    : result (list SourceTreeEntry) :=
  match node with
  | MkFsNode _ _ listing items =>
      map_err (TreeIo (display_under_root at_)) listing ;;
      walk_source_items at_ items entries
  end
with walk_source_items (at_ : list string) (items : FsItems) (entries : list SourceTreeEntry)
    : result (list SourceTreeEntry) :=
  match items with
  | NoMoreItems => Ok entries
  | ItemError error _ => Err (TreeIo (display_under_root at_) error)
  | Item name node items =>
      let path := at_ ++ [name] in
      normalized ← normalize_relative_path (join_path path);
      metadata ← metadata_of_node path node;
      fail_if (is_symlink metadata) (TreeSymlink normalized) ;;
      if opt_is_some (exclusion_reason normalized) then walk_source_items at_ items entries
      else
        fail_if (opt_is_some (forbidden_source_reason normalized)) (TreeForbidden normalized) ;;
        entries ←
          (if is_dir metadata then walk_source path node entries
           else if is_file metadata then
             digest ← hash_regular_file path node metadata;
             Ok (entries ++ [entry_of normalized digest])
           else Err (TreeEntryType normalized));
        walk_source_items at_ items entries
  end.

(** The tests on the root of a walk. *)
Definition source_root_validate (root : FsNode) : result unit :=
  metadata ← metadata_of_node [] root;
  fail_if (is_symlink metadata) (TreeSymlink (display_under_root [])) ;;
  fail_if (negb (is_dir metadata)) (TreeEntryType (display_under_root [])).

(** The loop of [hash_source_tree] over the sorted entries. *)
Fixpoint unique_loop (normalized : gset string) (case_folded : gmap string string)
    (paths : list string) : result unit :=
  match paths with
  | [] => Ok tt
  | path :: paths =>
      fail_if (bool_decide (path ∈ normalized)) (DuplicateTreePath path) ;;
      let folded := to_ascii_lowercase path in
      fail_if (is_some_and (λ previous, previous != path) (case_folded !! folded))
        (DuplicateTreePath (collision_message (default "" (case_folded !! folded)) path)) ;;
      unique_loop ({[path]} ∪ normalized) (<[folded := path]> case_folded) paths
  end.

Definition hash_source_tree (root : FsNode) : result SourceTreeCommitment :=
  source_root_validate root ;;
  walked ← walk_source [] root [];
  let entries := stable_sort entry_leb walked in
  unique_loop ∅ ∅ (te_path <$> entries) ;;
  digest ← hash_entries entries;
  Ok {| tc_digest := digest; tc_entries := entries |}.

(** Whether [walk_lenient] passes over an entry without looking at it. *)
Definition skipped (normalized : string) : bool :=
  opt_is_some (exclusion_reason normalized) || opt_is_some (forbidden_source_reason normalized).

Fixpoint walk_lenient (at_ : list string) (node : FsNode) (entries : list SourceTreeEntry)
    : result (list SourceTreeEntry) :=
  match node with
  | MkFsNode _ _ listing items =>
      map_err (TreeIo (display_under_root at_)) listing ;;
      walk_lenient_items at_ items entries
  end
with walk_lenient_items (at_ : list string) (items : FsItems) (entries : list SourceTreeEntry)
    : result (list SourceTreeEntry) :=
  match items with
  | NoMoreItems => Ok entries
  | ItemError error _ => Err (TreeIo (display_under_root at_) error)
  | Item name node items =>
      let path := at_ ++ [name] in
      match normalize_relative_path (join_path path) with
      | Err _ => walk_lenient_items at_ items entries
      | Ok normalized =>
          if skipped normalized then walk_lenient_items at_ items entries
          else
            metadata ← metadata_of_node path node;
            fail_if (is_symlink metadata) (TreeSymlink normalized) ;;
            entries ←
              (if is_dir metadata then walk_lenient path node entries
               else if is_file metadata then
                 digest ← hash_regular_file path node metadata;
                 Ok (entries ++ [entry_of normalized digest])
               else Ok entries);
            walk_lenient_items at_ items entries
      end
  end.

Definition hash_working_tree (root : FsNode) : result SourceTreeCommitment :=
  source_root_validate root ;;
  walked ← walk_lenient [] root [];
  let entries := stable_sort entry_leb walked in
  digest ← hash_entries entries;
  Ok {| tc_digest := digest; tc_entries := entries |}.
End hash.
