(* ===== verification/FasciaTree.v ===== *)
(** * Fascia-tree commitments and Genesis inputs

    [protocol/src/fascia_tree.rs]: the reusable Fascia reference tree, with
    anchored exclusions; [protocol/src/genesis.rs]: the prompt and the images a
    Shot begins with. *)
From S2P Require Import Prelude Text Digest FileTree TreeHash.

Definition DEFAULT_FASCIA_EXCLUSIONS : list string := [".build"; ".swiftpm"; "Package.resolved"].

Record FasciaInputEntry := { fi_path : string; fi_content : list Z }.
#[export] Instance FasciaInputEntry_eq_dec : EqDecision FasciaInputEntry.
Proof. solve_decision. Defined.
Record FasciaTreeEntry := {
  fe_path : string;
  fe_content_length : Z;
  fe_content_sha256 : Bytes32 }.
Record FasciaTreeCommitment := { fc_digest : Bytes32; fc_entries : list FasciaTreeEntry }.

Definition fascia_leb (l r : FasciaInputEntry) : bool :=
  bytes_leb (bytes_of (fi_path l)) (bytes_of (fi_path r)).

Definition is_excluded (path : string) (exclusions : list string) : bool :=
  existsb (λ excluded, (path == excluded)
    || starts_with (bytes_of excluded ++ bytes_of "/") (bytes_of path)) exclusions.

Section fascia.
Context `{Platform} `{Unicode} `{TreeDisplay}.

Definition fascia_validate_path (path : string) : result unit :=
  validate_path_with InvalidFasciaTreePath path.
Definition fascia_normalize_path (relative : string) : result string :=
  normalize_path_with InvalidFasciaTreePath relative.

Definition validate_exclusions (exclusions : list string) : result unit :=
  for_unique fascia_validate_path id
    (λ exclusion, InvalidFasciaTreePath ("duplicate exclusion " +:+ exclusion)) ∅ exclusions.

Fixpoint fascia_unique_loop (exact_paths : gset string) (case_folded : gmap string string)
    (paths : list string) : result unit :=
  match paths with
  | [] => Ok tt
  | path :: paths =>
      fascia_validate_path path ;;
      fail_if (bool_decide (path ∈ exact_paths)) (DuplicateFasciaTreePath path) ;;
      let folded := to_ascii_lowercase path in
      fail_if (is_some_and (λ previous, previous != path) (case_folded !! folded))
        (DuplicateFasciaTreePath (collision_message (default "" (case_folded !! folded)) path)) ;;
      fascia_unique_loop ({[path]} ∪ exact_paths) (<[folded := path]> case_folded) paths
  end.

Definition validate_unique_paths (entries : list FasciaInputEntry) : result unit :=
  fascia_unique_loop ∅ ∅ (fi_path <$> entries).

Fixpoint fascia_stream_loop (stream : list Z) (entries : list FasciaInputEntry) : result (list Z) :=
  match entries with
  | [] => Ok stream
  | entry :: entries =>
      fascia_validate_path (fi_path entry) ;;
      path_len ← ok_or (InvalidFasciaTreePath (fi_path entry)) (u64_try_from (len (fi_path entry)));
      content_len ← ok_or (InvalidFasciaTreePath (fi_path entry))
                      (u64_try_from (length (fi_content entry)));
      fascia_stream_loop
        (stream ++ be_bytes 8 path_len ++ bytes_of (fi_path entry)
           ++ be_bytes 8 content_len ++ fi_content entry) entries
  end.

Definition hash_fascia_entries (entries : list FasciaInputEntry) : result Bytes32 :=
  let sorted := stable_sort fascia_leb entries in
  validate_unique_paths sorted ;;
  stream ← fascia_stream_loop [] sorted;
  Ok (sha256 stream).

Definition read_regular_file (at_ : list string) (node : FsNode) (initial : Metadata)
    : result (list Z) :=
  read_unchanged FasciaTreeIo FasciaTreeChanged (display_under_root at_) (fs_reads node) initial.

Definition fascia_metadata (at_ : list string) (node : FsNode) : result Metadata :=
  map_err (FasciaTreeIo (display_under_root at_)) (fs_metadata node).

Fixpoint walk_fascia (exclusions : list string) (at_ : list string) (node : FsNode)
    (entries : list FasciaInputEntry) : result (list FasciaInputEntry) :=
  match node with
  | MkFsNode _ _ listing items =>
      map_err (FasciaTreeIo (display_under_root at_)) listing ;;
      walk_fascia_items exclusions at_ items entries
  end
with walk_fascia_items (exclusions : list string) (at_ : list string) (items : FsItems)
    (entries : list FasciaInputEntry) : result (list FasciaInputEntry) :=
  match items with
  | NoMoreItems => Ok entries
  | ItemError error _ => Err (FasciaTreeIo (display_under_root at_) error)
  | Item name node items =>
      let path := at_ ++ [name] in
      normalized ← fascia_normalize_path (join_path path);
      metadata ← fascia_metadata path node;
      fail_if (is_symlink metadata) (FasciaTreeSymlink normalized) ;;
      if is_excluded normalized exclusions then walk_fascia_items exclusions at_ items entries
      else
        entries ←
          (if is_dir metadata then walk_fascia exclusions path node entries
           else if is_file metadata then
             content ← read_regular_file path node metadata;
             Ok (entries ++ [{| fi_path := normalized; fi_content := content |}])
           else Err (FasciaTreeEntryType normalized));
        walk_fascia_items exclusions at_ items entries
  end.

Definition fascia_root_validate (root : FsNode) : result unit :=
  metadata ← fascia_metadata [] root;
  fail_if (is_symlink metadata) (FasciaTreeSymlink (display_under_root [])) ;;
  fail_if (negb (is_dir metadata)) (FasciaTreeEntryType (display_under_root [])).

Definition fascia_tree_entry (entry : FasciaInputEntry) : FasciaTreeEntry :=
  {| fe_path := fi_path entry; fe_content_length := Z.of_nat (length (fi_content entry));
     fe_content_sha256 := sha256 (fi_content entry) |}.

Definition hash_fascia_tree_with_exclusions (root : FsNode) (exclusions : list string)
    : result FasciaTreeCommitment :=
  validate_exclusions exclusions ;;
  fascia_root_validate root ;;
  loaded ← walk_fascia exclusions [] root [];
  digest ← hash_fascia_entries loaded;
  Ok {| fc_digest := digest; fc_entries := fascia_tree_entry <$> stable_sort fascia_leb loaded |}.

Definition hash_fascia_tree (root : FsNode) : result FasciaTreeCommitment :=
  hash_fascia_tree_with_exclusions root DEFAULT_FASCIA_EXCLUSIONS.
End fascia.

(** ** Genesis inputs *)

Definition GENESIS_INPUT_DOMAIN : list Z := domain "TOHSENO-GENESIS-INPUT-V1".
Definition MAX_GENESIS_IMAGES : nat := 8.

Record GenesisImage := { gi_filename : string; gi_content_sha256 : Bytes32 }.
#[export] Instance GenesisImage_eq_dec : EqDecision GenesisImage.
Proof. solve_decision. Defined.

Definition image_leb (l r : GenesisImage) : bool :=
  bytes_leb (bytes_of (gi_filename l)) (bytes_of (gi_filename r)).

Section genesis.
Context `{Platform} `{Unicode}.

Definition validate_filename (filename : string) : result unit :=
  fail_if ((filename == "") || (filename == ".") || (filename == "..")
           || bool_decide (47%Z ∈ bytes_of filename) || bool_decide (92%Z ∈ bytes_of filename)
           || existsb is_control (chars (bytes_of filename)) || (nfc filename != filename))
    (invalid "genesis.image.filename"
       "must be a nonempty NFC-normalized filename without paths or control characters").

Definition genesis_image (filename : string) (raw_bytes : list Z) : result GenesisImage :=
  validate_filename filename ;;
  Ok {| gi_filename := filename; gi_content_sha256 := sha256 raw_bytes |}.

Fixpoint images_loop (seen : gset string) (stream : list Z) (images : list GenesisImage)
    : result (list Z) :=
  match images with
  | [] => Ok stream
  | image :: images =>
      validate_filename (gi_filename image) ;;
      fail_if (bool_decide (gi_filename image ∈ seen))
        (invalid "genesis.images" "contains a duplicate normalized filename") ;;
      filename_len ← ok_or (invalid "genesis.image.filename" "is too large to encode")
                       (u32_try_from (len (gi_filename image)));
      images_loop ({[gi_filename image]} ∪ seen)
        (stream ++ be_bytes 4 filename_len ++ bytes_of (gi_filename image)
           ++ as_bytes (gi_content_sha256 image)) images
  end.

Definition genesis_input_sha256 (prompt : list Z) (images : list GenesisImage) : result Bytes32 :=
  prompt_len ← ok_or (invalid "genesis.prompt" "is too large to encode")
                 (u64_try_from (length prompt));
  fail_if (MAX_GENESIS_IMAGES <? length images)%nat
    (invalid "genesis.images" ("must contain at most " +:+ pretty MAX_GENESIS_IMAGES +:+ " images")) ;;
  image_count ← ok_or (invalid "genesis.images" "contains too many entries")
                  (u64_try_from (length images));
  stream ← images_loop ∅
    (GENESIS_INPUT_DOMAIN ++ be_bytes 8 prompt_len ++ prompt ++ be_bytes 8 image_count)
    (stable_sort image_leb images);
  Ok (sha256 stream).

Fixpoint genesis_images (images : list (string * list Z)) : result (list GenesisImage) :=
  match images with
  | [] => Ok []
  | (filename, bytes) :: images =>
      image ← genesis_image filename bytes;
      rest ← genesis_images images;
      Ok (image :: rest)
  end.

Definition genesis_input_sha256_from_bytes (prompt : list Z) (images : list (string * list Z))
    : result Bytes32 :=
  images ← genesis_images images;
  genesis_input_sha256 prompt images.
End genesis.
