(* ===== verification/TreeHashLaws.v ===== *)
(** * Laws of the tree commitments

    The streams that are hashed are uniquely decodable, so a digest determines
    the entries; what the entries of a walk are; and the agreement of the hash
    of a working tree with the hash of the sealed snapshot of it. *)
From S2P Require Import Prelude Text Digest FileTree TreeHash FasciaTree.

(** ** Framing *)

(** A length prefix determines what it frames. *)
Lemma frame_inj n (a b ra rb : list Z) :
  (Z.of_nat (length a) < 256 ^ Z.of_nat n)%Z -> (Z.of_nat (length b) < 256 ^ Z.of_nat n)%Z ->
  be_bytes n (Z.of_nat (length a)) ++ a ++ ra = be_bytes n (Z.of_nat (length b)) ++ b ++ rb ->
  a = b /\ ra = rb.
Proof.
  intros Ha Hb E. apply app_inj_1 in E as [Hl E]; [|by rewrite !be_bytes_length].
  apply be_bytes_inj in Hl; [|lia..]. by apply app_inj_1 in E; [|lia].
Qed.

Section frames.
Context {A : Type} (encode : A -> list Z) (fits : A -> Prop).
Context (encode_inj : forall a b r r', fits a -> fits b ->
  encode a ++ r = encode b ++ r' -> a = b /\ r = r').
Context (encode_nonempty : forall a, encode a <> []).

Lemma frames_inj l l' : Forall fits l -> Forall fits l' -> l ≫= encode = l' ≫= encode -> l = l'.
Proof.
  intros Hl. revert l'. induction Hl as [|a l Ha Hl IH]; intros l' Hl'; destruct Hl' as [|b l' Hb Hl'].
  - done.
  - cbn. intros E. symmetry in E. apply app_nil in E as [E _]. by apply encode_nonempty in E.
  - cbn. intros [E _]%app_nil. by apply encode_nonempty in E.
  - cbn. intros E. apply encode_inj in E as [-> E]; [|done..]. f_equal. by apply IH.
Qed.
End frames.

Lemma u32_fits n z : u32_try_from n = Some z -> z = Z.of_nat n /\ (Z.of_nat n < 256 ^ Z.of_nat 4)%Z.
Proof. unfold u32_try_from, U32_MAX. case_match; intros [= <-]. split; [done|]. simpl. lia. Qed.
Lemma u64_fits n z : u64_try_from n = Some z -> z = Z.of_nat n /\ (Z.of_nat n < 256 ^ Z.of_nat 8)%Z.
Proof. unfold u64_try_from, U64_MAX. case_match; intros [= <-]. split; [done|]. simpl. lia. Qed.

(** Sorting by a text. *)
Section sort_by_text.
Context {A : Type} (text : A -> string).
Definition text_leb (l r : A) : bool := bytes_leb (bytes_of (text l)) (bytes_of (text r)).

Lemma text_leb_total x y : text_leb x y = true \/ text_leb y x = true.
Proof. apply bytes_leb_total. Qed.
Lemma text_leb_trans x y z : text_leb x y = true -> text_leb y z = true -> text_leb x z = true.
Proof. apply bytes_leb_trans. Qed.
Lemma text_leb_antisym x y : text_leb x y = true -> text_leb y x = true -> text x = text y.
Proof. intros H1 H2. apply (inj bytes_of). by apply bytes_leb_antisym. Qed.

Lemma text_sort_sorted l : StronglySorted (λ a b, text_leb a b = true) (stable_sort text_leb l).
Proof. apply stable_sort_sorted; [apply text_leb_total|apply text_leb_trans]. Qed.

Lemma text_sort_idem l : stable_sort text_leb (stable_sort text_leb l) = stable_sort text_leb l.
Proof. apply stable_sort_sorted_id, text_sort_sorted. Qed.

Lemma text_unique l a b : NoDup (text <$> l) -> a ∈ l -> b ∈ l -> text a = text b -> a = b.
Proof.
  intros Hnd (i&Ha)%list_elem_of_lookup (j&Hb)%list_elem_of_lookup E.
  assert (i = j) as <-; [|congruence].
  eapply NoDup_lookup; [exact Hnd|by rewrite list_lookup_fmap, Ha|].
  by rewrite list_lookup_fmap, Hb, E.
Qed.

(** Distinct texts sort in one way only. *)
Lemma text_sort_perm l l' : NoDup (text <$> l) -> l ≡ₚ l' -> stable_sort text_leb l = stable_sort text_leb l'.
Proof.
  intros Hnd Hp. apply stable_sort_ext; [apply text_leb_total|apply text_leb_trans| |done].
  intros a b Ha Hb H1 H2. eapply text_unique; [done..|]. by apply text_leb_antisym.
Qed.

(** Sorted and without equal neighbours is without repetitions. *)
Lemma sorted_distinct l : StronglySorted (λ a b, text_leb a b = true) l ->
  (forall k a b, l !! k = Some a -> l !! S k = Some b -> text a <> text b) -> NoDup (text <$> l).
Proof.
  induction 1 as [|a l Hl IH Ha]; intros Hd; [constructor|]. cbn. constructor.
  - intros (b&E&Hb)%list_elem_of_fmap. destruct l as [|c l]; [by apply not_elem_of_nil in Hb|].
    apply (Hd 0 a c eq_refl eq_refl). rewrite Forall_forall in Ha. apply text_leb_antisym.
    + apply Ha. by left.
    + apply elem_of_cons in Hb as [->|Hb].
      { unfold text_leb. rewrite E. by destruct (bytes_leb_total (bytes_of (text c)) (bytes_of (text c))). }
      apply StronglySorted_inv in Hl as [_ Hc]. rewrite Forall_forall in Hc.
      unfold text_leb. rewrite E. by apply Hc.
  - apply IH. intros k. apply (Hd (S k)).
Qed.
End sort_by_text.

(** ** The source stream *)

Definition entry_frame (e : SourceTreeEntry) : list Z :=
  be_bytes 4 (Z.of_nat (len (te_path e))) ++ bytes_of (te_path e) ++ as_bytes (te_content_sha256 e).
Definition entry_fits (e : SourceTreeEntry) : Prop :=
  (Z.of_nat (len (te_path e)) < 256 ^ Z.of_nat 4)%Z.

Lemma entry_frame_inj a b r r' : entry_fits a -> entry_fits b ->
  entry_frame a ++ r = entry_frame b ++ r' -> a = b /\ r = r'.
Proof.
  unfold entry_fits, entry_frame. rewrite <- !bytes_of_length, <- !app_assoc. intros Ha Hb E.
  apply frame_inj in E as [Hp E]; [|done..]. apply app_inj_1 in E as [Hd ->]; [|by rewrite !as_bytes_length].
  apply (inj bytes_of) in Hp. apply bytes_eq in Hd. by destruct a, b; simpl in *; subst.
Qed.

Lemma entry_frame_nonempty e : entry_frame e <> [].
Proof. unfold entry_frame. intros [E _]%app_nil. by apply (f_equal length) in E. Qed.

(** What is hashed for the entries [l]. *)
Definition source_preimage (l : list SourceTreeEntry) : list Z :=
  let sorted := stable_sort entry_leb l in
  SOURCE_TREE_DOMAIN ++ be_bytes 8 (Z.of_nat (length sorted)) ++ (sorted ≫= entry_frame).

(** That a hash tells two lists of inputs apart, decided. *)
Definition distinct_hashes {n} (hash : list Z -> ByteArray n) (P Q : list (list Z)) : bool :=
  let digests := (λ q, (as_bytes (hash q), q)) <$> Q in
  forallb (λ p, let h := as_bytes (hash p) in
    forallb (λ hq, negb (hq.1 == h) || (hq.2 == p)) digests) P.

Lemma distinct_hashes_sound {n} (hash : list Z -> ByteArray n) P Q :
  distinct_hashes hash P Q = true -> forall a b, a ∈ P -> b ∈ Q -> hash a = hash b -> a = b.
Proof.
  unfold distinct_hashes. rewrite forallb_forall. intros Hb p q Hp Hq E.
  specialize (Hb p (proj1 (list_elem_of_In _ _) Hp)). rewrite forallb_forall in Hb.
  specialize (Hb (as_bytes (hash q), q)
    (in_map (λ q, (as_bytes (hash q), q)) _ _ (proj1 (list_elem_of_In _ _) Hq))).
  apply orb_true_iff in Hb as [Hb|Hb]; [|by apply bool_decide_eq_true in Hb].
  apply negb_true_iff, bool_decide_eq_false in Hb. destruct Hb. cbn [fst]. by rewrite E.
Qed.

Section laws.
Context `{Platform} `{Unicode} `{TreeDisplay}.

Lemma stream_loop_Ok entries : forall previous stream out,
  stream_loop previous stream entries = Ok out ->
  out = stream ++ (entries ≫= entry_frame) /\ Forall entry_fits entries /\
  Forall (λ e, validate_normalized_path (te_path e) = Ok tt) entries /\
  (forall k a b, entries !! k = Some a -> entries !! S k = Some b -> te_path a <> te_path b) /\
  (forall a, entries !! 0 = Some a -> previous <> Some (te_path a)).
Proof.
  induction entries as [|e entries IH]; intros previous stream out; cbn [stream_loop].
  { intros [= <-]. rewrite app_nil_r. split_and!; [done|constructor|constructor|done|done]. }
  intros Hs. res_inv. match goal with H : u32_try_from _ = _ |- _ => apply u32_fits in H as [-> Hf] end.
  match goal with H : stream_loop _ _ _ = _ |- _ => apply IH in H as (->&Hfs&Hvs&Hd&Hp) end.
  split_and!.
  - rewrite bind_cons. unfold entry_frame. by rewrite <- !app_assoc.
  - by constructor.
  - by constructor.
  - intros [|k] a b Ha Hb; [|by apply (Hd k)]. injection Ha as <-.
    intros E. apply (Hp b Hb). by rewrite E.
  - by intros a [= <-].
Qed.

(** What an accepted list of entries is. *)
Lemma hash_entries_Ok l d : hash_entries l = Ok d ->
  d = sha256 (source_preimage l) /\ Forall entry_fits l /\ NoDup (te_path <$> l) /\
  Forall (λ e, validate_normalized_path (te_path e) = Ok tt) l /\
  case_loop DuplicateTreePath ∅ (te_path <$> stable_sort entry_leb l) = Ok tt.
Proof.
  unfold hash_entries. set (sorted := stable_sort entry_leb l). intros Hh. res_inv.
  match goal with H : u64_try_from _ = _ |- _ => apply u64_fits in H as [-> _] end.
  match goal with H : stream_loop _ _ _ = _ |- _ => apply stream_loop_Ok in H as (->&Hf&Hv&Hd&_) end.
  assert (sorted ≡ₚ l) as Hp by apply stable_sort_perm.
  rewrite !Hp in Hf, Hv. split_and!; try done.
  rewrite <- Hp. apply sorted_distinct; [apply (text_sort_sorted te_path)|done].
Qed.

(** Whether the entries of [l] can be hashed does not depend on their order. *)
Lemma hash_entries_perm_fact l l' d : hash_entries l = Ok d -> l ≡ₚ l' -> hash_entries l' = Ok d.
Proof.
  intros Hh Hp. destruct (hash_entries_Ok _ _ Hh) as (_&_&Hnd&_).
  rewrite <- Hh. unfold hash_entries.
  by rewrite (text_sort_perm te_path l l' Hnd Hp : stable_sort entry_leb l = stable_sort entry_leb l').
Qed.

(** Equal digests have equal entries. *)
Lemma entries_bound l l' d : hash_entries l = Ok d -> hash_entries l' = Ok d ->
  (sha256 (source_preimage l) = sha256 (source_preimage l') ->
     source_preimage l = source_preimage l') ->
  stable_sort entry_leb l = stable_sort entry_leb l'.
Proof.
  intros (->&Hf&_)%hash_entries_Ok (E&Hf'&_)%hash_entries_Ok Hn. apply Hn in E.
  unfold source_preimage in E. apply app_inv_head in E.
  apply app_inj_1 in E as [_ E]; [|by rewrite !be_bytes_length].
  eapply (frames_inj entry_frame entry_fits); [apply entry_frame_inj|apply entry_frame_nonempty| | |done];
    by rewrite stable_sort_perm.
Qed.

(** ** The files of a source tree *)

(** The regular files that a walk commits to, with their normalized paths and
    their contents, in the order of the walk. *)
Definition node_bytes (n : FsNode) : list Z :=
  match rd_bytes (fs_reads n) with Ok bytes => bytes | Err _ => [] end.

Fixpoint source_files (at_ : list string) (n : FsNode) : list (string * list Z) :=
  match n with MkFsNode _ _ _ items => source_files_items at_ items end
with source_files_items (at_ : list string) (items : FsItems) : list (string * list Z) :=
  match items with
  | NoMoreItems => []
  | ItemError _ items => source_files_items at_ items
  | Item name n items =>
      let path := at_ ++ [name] in
      match normalize_relative_path (join_path path), fs_metadata n with
      | Ok normalized, Ok metadata =>
          if opt_is_some (exclusion_reason normalized) then []
          else if is_dir metadata then source_files path n
          else if is_file metadata then [(normalized, node_bytes n)] else []
      | _, _ => []
      end ++ source_files_items at_ items
  end.

Definition file_entry (f : string * list Z) : SourceTreeEntry := entry_of f.1 (sha256 f.2).

Lemma hash_regular_file_Ok at_ n m d : hash_regular_file at_ n m = Ok d -> d = sha256 (node_bytes n).
Proof.
  unfold hash_regular_file, read_unchanged, node_bytes. intros Hh. res_inv.
  match goal with H : rd_bytes _ = Ok _ |- _ => by rewrite H end.
Qed.

(** A path that the strict walk commits to. *)
Definition source_path (path : string) : Prop :=
  (exists relative, normalize_relative_path relative = Ok path) /\
  exclusion_reason path = None /\ forbidden_source_reason path = None.

Lemma opt_is_some_false {A} (o : option A) : opt_is_some o = false -> o = None.
Proof. by destruct o. Qed.

Lemma walk_source_Ok :
  (forall n at_ es out, walk_source at_ n es = Ok out ->
     out = es ++ (file_entry <$> source_files at_ n) /\
     Forall source_path (source_files at_ n).*1) /\
  (forall items at_ es out, walk_source_items at_ items es = Ok out ->
     out = es ++ (file_entry <$> source_files_items at_ items) /\
     Forall source_path (source_files_items at_ items).*1).
Proof.
  apply FsNode_FsItems_ind.
  - intros m r l items IH at_ es out. cbn [walk_source source_files]. intros Hw. res_inv. by apply IH.
  - intros at_ es out [= <-]. cbn. by rewrite app_nil_r.
  - done.
  - intros name n IHn items IHi at_ es out. cbn [walk_source_items source_files_items]. intros Hw.
    apply bind_Ok in Hw as (normalized&Hn&Hw). apply bind_Ok in Hw as (m&Hm&Hw).
    rewrite Hn. unfold metadata_of_node in Hm. apply map_err_Ok in Hm. rewrite Hm.
    apply bind_Ok in Hw as (?&_&Hw).
    destruct (opt_is_some (exclusion_reason normalized)) eqn:Ex; [by apply IHi|].
    apply bind_Ok in Hw as (?&Hf%fail_if_Ok&Hw). apply bind_Ok in Hw as (es'&He&Hw).
    apply IHi in Hw as [-> Hps]. rewrite fmap_app, app_assoc, !Forall_fmap in *.
    assert (es' = es ++ (file_entry <$> (if is_dir m then source_files (at_ ++ [name]) n
        else if is_file m then [(normalized, node_bytes n)] else [])) /\
      Forall source_path (if is_dir m then source_files (at_ ++ [name]) n
        else if is_file m then [(normalized, node_bytes n)] else []).*1) as [-> Hq].
    { destruct (is_dir m); [by apply IHn|]. destruct (is_file m); [|done]. res_inv.
      match goal with H : hash_regular_file _ _ _ = _ |- _ => apply hash_regular_file_Ok in H as -> end.
      split; [done|]. repeat constructor; [by eexists|by apply opt_is_some_false..]. }
    split; [done|]. rewrite Forall_app. by rewrite Forall_fmap in Hq.
Qed.
(** The loop of [hash_source_tree] finds nothing that [hash_entries] would not. *)
Lemma unique_loop_Ok paths : forall seen folded,
  unique_loop seen folded paths = Ok tt <->
  NoDup paths /\ Forall (λ p, p ∉ seen) paths /\ case_loop DuplicateTreePath folded paths = Ok tt.
Proof.
  induction paths as [|p paths IH]; intros seen folded; cbn [unique_loop case_loop].
  { split; [intros _; split_and!; [constructor|constructor|done]|done]. }
  rewrite bind_Ok. split.
  - intros ([]&Hp%fail_if_Ok%bool_decide_eq_false&Hu). apply bind_Ok in Hu as ([]&Hc&Hu).
    apply IH in Hu as (Hnd&Hs&Hr). split_and!.
    + apply NoDup_cons. split; [|done]. intros Hin. rewrite Forall_forall in Hs. specialize (Hs p Hin). set_solver.
    + constructor; [done|]. eapply Forall_impl; [exact Hs|]. set_solver.
    + apply bind_Ok. by exists tt.
  - intros (Hnd&[Hs Hss]%Forall_cons&Hr). apply bind_Ok in Hr as ([]&Hc&Hr). apply NoDup_cons in Hnd as [Hp Hnd]. exists tt.
    split; [by apply fail_if_Ok, bool_decide_eq_false|]. apply bind_Ok. exists tt. split; [done|].
    apply IH. split_and!; [done| |done]. rewrite Forall_forall in Hss |- *.
    intros q Hq [->%elem_of_singleton|Hin]%elem_of_union; [done|]. by apply (Hss q).
Qed.

Lemma entry_sort_idem l : stable_sort entry_leb (stable_sort entry_leb l) = stable_sort entry_leb l.
Proof. exact (text_sort_idem te_path l). Qed.

Lemma hash_entries_sorted l : hash_entries (stable_sort entry_leb l) = hash_entries l.
Proof. unfold hash_entries. by rewrite entry_sort_idem. Qed.

(** Every list of entries that can be hashed passes that loop. *)
Lemma hashed_unique l d : hash_entries l = Ok d ->
  unique_loop ∅ ∅ (te_path <$> stable_sort entry_leb l) = Ok tt.
Proof.
  intros (_&_&Hnd&_&Hc)%hash_entries_Ok. apply unique_loop_Ok. split_and!; [|apply Forall_forall; set_solver|done].
  by rewrite (stable_sort_perm entry_leb l : stable_sort entry_leb l ≡ₚ l).
Qed.

Lemma case_loop_Ok error paths : forall folded, NoDup paths ->
  (forall f p, folded !! f = Some p -> p ∉ paths) -> case_loop error folded paths = Ok tt ->
  NoDup (to_ascii_lowercase <$> paths) /\
  Forall (λ p, folded !! to_ascii_lowercase p = None) paths.
Proof.
  induction paths as [|p paths IH]; intros folded Hnd Hinv; [by split; constructor|].
  apply NoDup_cons in Hnd as [Hp Hnd].
  cbn [case_loop]. intros Hc. apply bind_Ok in Hc as ([]&He%fail_if_Ok&Hc).
  assert (folded !! to_ascii_lowercase p = None) as Hn.
  { destruct (folded !! to_ascii_lowercase p) as [q|] eqn:E; [|done]. simpl in He. res_inv.
    subst. destruct (Hinv _ _ E). by left. }
  apply IH in Hc as [Hl Hf]; [|done|].
  - cbn. rewrite Forall_forall in Hf. split.
    + constructor; [|done]. intros (q&E&Hq)%list_elem_of_fmap. specialize (Hf q Hq).
      rewrite <- E, lookup_insert_eq in Hf. done.
    + constructor; [done|]. apply Forall_forall. intros q Hq. specialize (Hf q Hq).
      by apply lookup_insert_None in Hf as [? _].
  - intros f q [[_ <-]|[_ Hq]]%lookup_insert_Some; [done|]. intros Hin. apply (Hinv _ _ Hq). by right.
Qed.

(** What a source commitment is. *)
Lemma hash_source_tree_Ok root c : hash_source_tree root = Ok c ->
  source_root_validate root = Ok tt /\
  tc_entries c = stable_sort entry_leb (file_entry <$> source_files [] root) /\
  hash_entries (file_entry <$> source_files [] root) = Ok (tc_digest c) /\
  Forall source_path (source_files [] root).*1.
Proof.
  unfold hash_source_tree. intros Hh. res_inv. simpl.
  match goal with H : walk_source _ _ _ = _ |- _ => apply walk_source_Ok in H as [-> Hp] end.
  rewrite app_nil_l in *.
  match goal with H : hash_entries _ = _ |- _ => rewrite hash_entries_sorted in H end. done.
Qed.

Lemma file_entry_path l : te_path <$> (file_entry <$> l) = l.*1.
Proof. rewrite <- list_fmap_compose. by apply list_fmap_ext. Qed.

Lemma source_files_unique root c : hash_source_tree root = Ok c -> NoDup (source_files [] root).*1.
Proof. intros (_&_&(_&_&Hnd&_)%hash_entries_Ok&_)%hash_source_tree_Ok. by rewrite file_entry_path in Hnd. Qed.

(** The entries of a commitment are the files of the tree: in the order of
    their paths, every regular file except those at and below the protocol
    sidecars, under its normalized path with the hash of its contents; the
    paths are distinct, valid, distinct even up to case, and none of them is a
    forbidden, private or sidecar path. *)
Theorem source_commitment_complete root c : hash_source_tree root = Ok c ->
  tc_entries c ≡ₚ (file_entry <$> source_files [] root) /\
  StronglySorted (λ a b, entry_leb a b = true) (tc_entries c) /\
  NoDup (te_path <$> tc_entries c) /\
  NoDup (to_ascii_lowercase ∘ te_path <$> tc_entries c) /\
  Forall (λ e, source_path (te_path e)) (tc_entries c).
Proof.
  intros Hc. destruct (hash_source_tree_Ok _ _ Hc) as (_&->&He&Hs).
  set (l := file_entry <$> source_files [] root) in *.
  assert (stable_sort entry_leb l ≡ₚ l) as Hp by apply stable_sort_perm.
  destruct (hash_entries_Ok _ _ He) as (_&_&Hnd&_&Hcase). split_and!.
  - done.
  - apply (text_sort_sorted te_path).
  - by rewrite Hp.
  - rewrite list_fmap_compose. eapply case_loop_Ok; [by rewrite Hp| |exact Hcase].
    intros ? ?. by rewrite lookup_empty.
  - rewrite Hp, Forall_forall. rewrite Forall_forall in Hs.
    intros e (p&->&Hin)%list_elem_of_fmap. apply (Hs p.1). by apply list_elem_of_fmap_2.
Qed.

Lemma visited_digest r1 r2 c1 c2 :
  hash_source_tree r1 = Ok c1 -> hash_source_tree r2 = Ok c2 ->
  (forall a b, a ∈ source_preimage (tc_entries c1) :: (source_files [] r1).*2 ->
     b ∈ source_preimage (tc_entries c2) :: (source_files [] r2).*2 ->
     sha256 a = sha256 b -> a = b) ->
  tc_digest c1 = tc_digest c2 <-> source_files [] r1 ≡ₚ source_files [] r2.
Proof.
  intros Hc1 Hc2 Hn. pose proof (source_files_unique _ _ Hc1) as Hu1.
  pose proof (source_files_unique _ _ Hc2) as Hu2.
  apply hash_source_tree_Ok in Hc1 as (_&He1&Hh1&_), Hc2 as (_&He2&Hh2&_).
  rewrite He1, He2 in Hn. rewrite <- hash_entries_sorted in Hh1, Hh2. split.
  - intros E. rewrite E in Hh1. pose proof (entries_bound _ _ _ Hh1 Hh2) as Heq.
    rewrite !entry_sort_idem in Heq.
    specialize (Heq (Hn _ _ ltac:(by left) ltac:(by left))).
    assert (forall f, f ∈ source_files [] r1 <-> f ∈ source_files [] r2) as Hel.
    { assert ((file_entry <$> source_files [] r1) ≡ₚ (file_entry <$> source_files [] r2)) as Hp.
      { rewrite <- (stable_sort_perm entry_leb (file_entry <$> source_files [] r1)), Heq.
        apply stable_sort_perm. }
      assert (forall (x : string * list Z) l, x ∈ l -> x.2 ∈ l.*2) as H2
        by (intros; by apply list_elem_of_fmap_2).
      intros [p b]. split; intros Hin.
      - assert (file_entry (p, b) ∈ file_entry <$> source_files [] r2) as Hf
          by (rewrite <- Hp; by apply list_elem_of_fmap_2).
        apply list_elem_of_fmap in Hf as ([q b']&[= -> Hsha]&Hin').
        rewrite (Hn b b'); [done|right; by apply (H2 _ _ Hin)|right; by apply (H2 _ _ Hin')|done].
      - assert (file_entry (p, b) ∈ file_entry <$> source_files [] r1) as Hf
          by (rewrite Hp; by apply list_elem_of_fmap_2).
        apply list_elem_of_fmap in Hf as ([q b']&[= -> Hsha]&Hin').
        rewrite <- (Hn b' b); [done|right; by apply (H2 _ _ Hin')|right; by apply (H2 _ _ Hin)|done]. }
    apply NoDup_Permutation; [by eapply NoDup_fmap_1|by eapply NoDup_fmap_1|done].
  - intros Hp. rewrite !hash_entries_sorted in *.
    eapply hash_entries_perm_fact in Hh1; [|by apply fmap_Permutation, Hp]. congruence.
Qed.

(** ** The files of a tree

    Whatever a walk does: every regular file, by the names on the way to it, with
    its contents; every directory below the root. *)
Fixpoint tree_files (n : FsNode) : list (list string * list Z) :=
  match n with MkFsNode _ _ _ items => tree_files_items items end
with tree_files_items (items : FsItems) : list (list string * list Z) :=
  match items with
  | NoMoreItems => []
  | ItemError _ items => tree_files_items items
  | Item name n items =>
      match fs_metadata n with
      | Ok metadata =>
          if is_dir metadata then prod_map (cons name) id <$> tree_files n
          else if is_file metadata then [([name], node_bytes n)] else []
      | Err _ => []
      end ++ tree_files_items items
  end.
Fixpoint tree_directories (n : FsNode) : list (list string) :=
  match n with MkFsNode _ _ _ items => tree_directories_items items end
with tree_directories_items (items : FsItems) : list (list string) :=
  match items with
  | NoMoreItems => []
  | ItemError _ items => tree_directories_items items
  | Item name n items =>
      match fs_metadata n with
      | Ok metadata => if is_dir metadata then [name] :: (cons name <$> tree_directories n) else []
      | Err _ => []
      end ++ tree_directories_items items
  end.

Definition normalized_path (names : list string) : string :=
  match normalize_relative_path (join_path names) with Ok path => path | Err _ => "" end.
(** The path of a protocol sidecar; and a path at or below one. *)
Definition at_sidecar (names : list string) : bool := bool_decide (normalized_path names ∈ SELF_REFERENTIAL_EXCLUSIONS).
Fixpoint below_sidecar (at_ names : list string) : bool :=
  match names with
  | [] => false
  | name :: names => at_sidecar (at_ ++ [name]) || below_sidecar (at_ ++ [name]) names
  end.
(** What a tree commits to: its files, but not those at or below the path of a
    sidecar. Where only files have these paths, its files but the sidecars. *)
Definition committed_file (at_ : list string) (f : list string * list Z) : option (string * list Z) :=
  if below_sidecar at_ f.1 then None else Some (normalized_path (at_ ++ f.1), f.2).
Definition committed_files (root : FsNode) : list (string * list Z) := omap (committed_file []) (tree_files root).
Definition files_but_sidecars (root : FsNode) : list (string * list Z) :=
  omap (λ f : list string * list Z, if at_sidecar f.1 then None else Some (normalized_path f.1, f.2)) (tree_files root).
Definition sidecars_are_files (root : FsNode) : Prop := Forall (λ d, at_sidecar d = false) (tree_directories root).

Lemma omap_of_fmap {A B C} (f : A -> B) (g : B -> option C) (l : list A) : omap g (f <$> l) = omap (g ∘ f) l.
Proof. induction l as [|x l IH]; [done|]. cbn. by rewrite <- IH. Qed.
Lemma omap_same {A B} (f g : A -> option B) l : Forall (λ x, f x = g x) l -> omap f l = omap g l.
Proof. induction 1 as [|x l E _ IH]; [done|]. cbn. by rewrite E, IH. Qed.
Lemma exclusion_sidecar names path : normalize_relative_path (join_path names) = Ok path ->
  opt_is_some (exclusion_reason path) = at_sidecar names.
Proof. unfold exclusion_reason, at_sidecar, normalized_path. intros ->. by case_bool_decide. Qed.
Lemma committed_below at_ name f : committed_file at_ (prod_map (cons name) id f) =
  if at_sidecar (at_ ++ [name]) then None else committed_file (at_ ++ [name]) f.
Proof.
  unfold committed_file. destruct f as [names bytes]. cbn [fst snd prod_map below_sidecar].
  destruct (at_sidecar _); [done|]. cbn. by rewrite <- app_assoc.
Qed.

(** A walk that succeeds visits exactly these files. *)
Lemma walk_commits :
  (forall n at_ es out, walk_source at_ n es = Ok out -> source_files at_ n = omap (committed_file at_) (tree_files n)) /\
  (forall items at_ es out, walk_source_items at_ items es = Ok out ->
     source_files_items at_ items = omap (committed_file at_) (tree_files_items items)).
Proof.
  apply FsNode_FsItems_ind.
  - intros m r l items IH at_ es out. cbn [walk_source source_files tree_files]. intros Hw. res_inv. by eapply IH.
  - done.
  - done.
  - intros name n IHn items IHi at_ es out. cbn [walk_source_items source_files_items tree_files_items]. intros Hw.
    apply bind_Ok in Hw as (normalized&Hn&Hw). apply bind_Ok in Hw as (m&Hm&Hw).
    rewrite Hn. unfold metadata_of_node in Hm. apply map_err_Ok in Hm. rewrite Hm.
    apply bind_Ok in Hw as (?&_&Hw). rewrite omap_app, (exclusion_sidecar _ _ Hn) in *.
    assert (forall l, omap (committed_file at_) (prod_map (cons name) id <$> l) =
      if at_sidecar (at_ ++ [name]) then [] else omap (committed_file (at_ ++ [name])) l) as Hdir.
    { intros l. rewrite omap_of_fmap. destruct (at_sidecar (at_ ++ [name])) eqn:E.
      - induction l as [|f l IH]; [done|]. cbn. by rewrite committed_below, E.
      - apply omap_same, Forall_forall. intros f _. unfold compose. by rewrite committed_below, E. }
    assert (committed_file at_ ([name], node_bytes n) =
      if at_sidecar (at_ ++ [name]) then None else Some (normalized, node_bytes n)) as Hfile.
    { unfold committed_file. cbn. rewrite orb_false_r. destruct (at_sidecar _); [done|].
      unfold normalized_path. by rewrite Hn. }
    destruct (at_sidecar (at_ ++ [name])).
    + rewrite (IHi _ _ _ Hw). destruct (is_dir m); [by rewrite Hdir|]. destruct (is_file m); [|done]. cbn. by rewrite Hfile.
    + apply bind_Ok in Hw as (?&_&Hw). apply bind_Ok in Hw as (es'&He&Hw). rewrite (IHi _ _ _ Hw). f_equal.
      destruct (is_dir m); [rewrite Hdir; by eapply IHn|]. destruct (is_file m); [|done]. cbn. by rewrite Hfile.
Qed.
Lemma source_files_committed root c : hash_source_tree root = Ok c -> source_files [] root = committed_files root.
Proof. unfold hash_source_tree. intros Hh. res_inv. by eapply walk_commits. Qed.

Lemma below_is_at :
  (forall n at_, Forall (λ d, at_sidecar (at_ ++ d) = false) (tree_directories n) ->
     Forall (λ f, below_sidecar at_ f.1 = at_sidecar (at_ ++ f.1)) (tree_files n)) /\
  (forall items at_, Forall (λ d, at_sidecar (at_ ++ d) = false) (tree_directories_items items) ->
     Forall (λ f, below_sidecar at_ f.1 = at_sidecar (at_ ++ f.1)) (tree_files_items items)).
Proof.
  apply FsNode_FsItems_ind.
  - intros m r l items IH at_. apply IH.
  - constructor.
  - done.
  - intros name n IHn items IHi at_. cbn [tree_directories_items tree_files_items].
    rewrite !Forall_app. intros [Hd Hi]. split; [|by apply IHi]. destruct (fs_metadata n) as [m|]; [|done].
    destruct (is_dir m).
    + apply Forall_cons in Hd as [Hd Hds%Forall_fmap]. apply Forall_fmap. eapply Forall_impl; [apply (IHn (at_ ++ [name]))|].
      * eapply Forall_impl; [exact Hds|]. intros d E. unfold compose in E. by rewrite <- app_assoc.
      * intros [names b] E. cbn in E |- *. rewrite Hd, E, <- app_assoc. done.
    + destruct (is_file m); [|done]. repeat constructor. cbn. by rewrite orb_false_r.
Qed.
Lemma plain_sidecars root : sidecars_are_files root -> committed_files root = files_but_sidecars root.
Proof.
  intros Hs. apply omap_same. eapply Forall_impl; [by apply (proj1 below_is_at root [])|].
  intros f E. unfold committed_file. by rewrite E.
Qed.

(** [C30] A source digest identifies what a tree commits to: two source trees that
    can be hashed have the same digest exactly when they have the same regular
    files, under the same normalized paths and with the same contents, whatever
    the order in which they are listed, where files at or below the path of a
    protocol sidecar do not count; where no directory has such a path, exactly when
    they have the same files apart from the sidecars. Unless the hash collides on
    the two streams or on the contents of two of the files. *)
Theorem source_digest_identifies r1 r2 c1 c2 :
  hash_source_tree r1 = Ok c1 -> hash_source_tree r2 = Ok c2 ->
  (forall a b, a ∈ source_preimage (tc_entries c1) :: (committed_files r1).*2 ->
     b ∈ source_preimage (tc_entries c2) :: (committed_files r2).*2 ->
     sha256 a = sha256 b -> a = b) ->
  (tc_digest c1 = tc_digest c2 <-> committed_files r1 ≡ₚ committed_files r2) /\
  (sidecars_are_files r1 -> sidecars_are_files r2 ->
     tc_digest c1 = tc_digest c2 <-> files_but_sidecars r1 ≡ₚ files_but_sidecars r2).
Proof.
  intros Hc1 Hc2 Hn.
  rewrite <- (source_files_committed _ _ Hc1), <- (source_files_committed _ _ Hc2) in Hn |- *.
  pose proof (visited_digest r1 r2 c1 c2 Hc1 Hc2 Hn) as Hd. split; [done|]. intros Hs1 Hs2.
  rewrite <- (plain_sidecars _ Hs1), <- (plain_sidecars _ Hs2).
  by rewrite <- (source_files_committed _ _ Hc1), <- (source_files_committed _ _ Hc2).
Qed.

(** ** The sealed snapshot of a working tree *)

(** A working tree without what [walk_lenient] passes over: names it cannot
    express, sidecars, forbidden entries, and special files. *)
Definition special (n : FsNode) : bool :=
  match fs_metadata n with
  | Ok m => negb (is_symlink m || is_dir m || is_file m)
  | Err _ => false
  end.

Fixpoint seal (at_ : list string) (n : FsNode) : FsNode :=
  match n with MkFsNode m reads listing items => MkFsNode m reads listing (seal_items at_ items) end
with seal_items (at_ : list string) (items : FsItems) : FsItems :=
  match items with
  | NoMoreItems => NoMoreItems
  | ItemError error items => ItemError error (seal_items at_ items)
  | Item name n items =>
      match normalize_relative_path (join_path (at_ ++ [name])) with
      | Err _ => seal_items at_ items
      | Ok normalized =>
          if skipped normalized || special n then seal_items at_ items
          else Item name (seal (at_ ++ [name]) n) (seal_items at_ items)
      end
  end.

Lemma seal_metadata at_ n : fs_metadata (seal at_ n) = fs_metadata n.
Proof. by destruct n. Qed.
Lemma seal_reads at_ n : fs_reads (seal at_ n) = fs_reads n.
Proof. by destruct n. Qed.

(** One step of each walk. *)
Lemma walk_source_item at_ name n items es normalized :
  normalize_relative_path (join_path (at_ ++ [name])) = Ok normalized ->
  walk_source_items at_ (Item name n items) es =
    (metadata ← metadata_of_node (at_ ++ [name]) n;
     fail_if (is_symlink metadata) (TreeSymlink normalized) ;;
     if opt_is_some (exclusion_reason normalized) then walk_source_items at_ items es
     else
       fail_if (opt_is_some (forbidden_source_reason normalized)) (TreeForbidden normalized) ;;
       es' ←
         (if is_dir metadata then walk_source (at_ ++ [name]) n es
          else if is_file metadata then
            digest ← hash_regular_file (at_ ++ [name]) n metadata;
            Ok (es ++ [entry_of normalized digest])
          else Err (TreeEntryType normalized));
       walk_source_items at_ items es').
Proof. intros E. cbn [walk_source_items]. by rewrite E. Qed.

Lemma walk_lenient_item at_ name n items es normalized :
  normalize_relative_path (join_path (at_ ++ [name])) = Ok normalized -> skipped normalized = false ->
  walk_lenient_items at_ (Item name n items) es =
    (metadata ← metadata_of_node (at_ ++ [name]) n;
     fail_if (is_symlink metadata) (TreeSymlink normalized) ;;
     es' ←
       (if is_dir metadata then walk_lenient (at_ ++ [name]) n es
        else if is_file metadata then
          digest ← hash_regular_file (at_ ++ [name]) n metadata;
          Ok (es ++ [entry_of normalized digest])
        else Ok es);
     walk_lenient_items at_ items es').
Proof. intros E Es. cbn [walk_lenient_items]. by rewrite E, Es. Qed.

Lemma walk_sealed :
  (forall n at_ es, walk_source at_ (seal at_ n) es = walk_lenient at_ n es) /\
  (forall items at_ es, walk_source_items at_ (seal_items at_ items) es = walk_lenient_items at_ items es).
Proof.
  apply FsNode_FsItems_ind.
  - intros m r l items IH at_ es. cbn [seal walk_source walk_lenient]. by rewrite IH.
  - done.
  - done.
  - intros name n IHn items IHi at_ es. cbn [seal_items].
    destruct (normalize_relative_path (join_path (at_ ++ [name]))) as [normalized|] eqn:En;
      [|by cbn [walk_lenient_items]; rewrite En].
    destruct (skipped normalized) eqn:Es; [by cbn [walk_lenient_items]; rewrite En, Es|].
    rewrite (walk_lenient_item _ _ _ _ _ _ En Es). cbn [orb].
    unfold skipped in Es. apply orb_false_iff in Es as [Hx Hf].
    unfold special, metadata_of_node. destruct (fs_metadata n) as [m|e] eqn:Em.
    2: { rewrite (walk_source_item _ _ _ _ _ _ En). unfold metadata_of_node. by rewrite seal_metadata, Em. }
    destruct (is_symlink m || is_dir m || is_file m) eqn:Ht; cbn [negb].
    + rewrite (walk_source_item _ _ _ _ _ _ En). unfold metadata_of_node, hash_regular_file.
      rewrite seal_metadata, seal_reads, Em, Hx, Hf. cbn [mbind Result_bind map_err fail_if].
      destruct (is_symlink m); [done|]. cbn [fail_if mbind Result_bind orb] in *.
      rewrite IHn. destruct (is_dir m); [by destruct (walk_lenient _ n es); [apply IHi|]|].
      cbn [orb] in Ht. rewrite Ht.
      by destruct (read_unchanged _ _ _ _ _); [apply IHi|].
    + apply orb_false_iff in Ht as [[Hs Hd]%orb_false_iff Hr].
      cbn [mbind Result_bind map_err]. rewrite Hs, Hd, Hr. cbn [mbind Result_bind fail_if]. apply IHi.
Qed.

(** The digest of a living working tree is the digest of the sealed snapshot
    of it: leaving out what the lenient walk passes over and hashing strictly
    gives the same commitment, and the lenient hash is defined exactly when
    the strict one of the snapshot is. *)
Theorem working_tree_is_sealed root c :
  hash_working_tree root = Ok c <-> hash_source_tree (seal [] root) = Ok c.
Proof.
  unfold hash_working_tree, hash_source_tree.
  assert (source_root_validate (seal [] root) = source_root_validate root) as ->
    by (unfold source_root_validate, metadata_of_node; by rewrite seal_metadata).
  rewrite (proj1 walk_sealed). destruct (source_root_validate root); [|reflexivity]. cbn [mbind Result_bind].
  destruct (walk_lenient [] root []) as [es|]; [|reflexivity]. cbn [mbind Result_bind].
  destruct (hash_entries (stable_sort entry_leb es)) as [d|] eqn:Hd; cbn [mbind Result_bind].
  - rewrite hash_entries_sorted in Hd. by rewrite (hashed_unique _ _ Hd).
  - split; [done|]. intros Hu. by apply bind_Ok in Hu as (?&_&?).
Qed.
End laws.

(** ** Fascia trees and Genesis inputs

    Both digests identify what they are the digest of, whatever the order in
    which a directory is listed or images are given. *)

(** ** Fascia entries *)

Definition fascia_frame (e : FasciaInputEntry) : list Z :=
  be_bytes 8 (Z.of_nat (len (fi_path e))) ++ bytes_of (fi_path e)
    ++ be_bytes 8 (Z.of_nat (length (fi_content e))) ++ fi_content e.
Definition fascia_fits (e : FasciaInputEntry) : Prop :=
  (Z.of_nat (len (fi_path e)) < 256 ^ Z.of_nat 8)%Z /\
  (Z.of_nat (length (fi_content e)) < 256 ^ Z.of_nat 8)%Z.

Lemma fascia_frame_inj a b r r' : fascia_fits a -> fascia_fits b ->
  fascia_frame a ++ r = fascia_frame b ++ r' -> a = b /\ r = r'.
Proof.
  unfold fascia_fits, fascia_frame. rewrite <- !bytes_of_length, <- !app_assoc. intros [Ha Hc] [Hb Hd] E.
  apply frame_inj in E as [Hp E]; [|done..]. apply frame_inj in E as [Hx ->]; [|done..].
  apply (inj bytes_of) in Hp. by destruct a, b; simpl in *; subst.
Qed.

Lemma fascia_frame_nonempty e : fascia_frame e <> [].
Proof. unfold fascia_frame. intros [E _]%app_nil. by apply (f_equal length) in E. Qed.

(** What is hashed for the entries [l]: no domain and no count. *)
Definition fascia_preimage (l : list FasciaInputEntry) : list Z :=
  stable_sort fascia_leb l ≫= fascia_frame.

Definition file_input (f : string * list Z) : FasciaInputEntry :=
  {| fi_path := f.1; fi_content := f.2 |}.
#[export] Instance file_input_inj : Inj (=) (=) file_input.
Proof. by intros [p b] [q c] [= -> ->]. Qed.

Section fascia.
Context `{Platform} `{Unicode} `{TreeDisplay}.

Lemma fascia_stream_Ok entries : forall stream out, fascia_stream_loop stream entries = Ok out ->
  out = stream ++ (entries ≫= fascia_frame) /\ Forall fascia_fits entries.
Proof.
  induction entries as [|e entries IH]; intros stream out; cbn [fascia_stream_loop].
  { intros [= <-]. rewrite app_nil_r. split; [done|constructor]. }
  intros Hs. res_inv.
  repeat match goal with H : u64_try_from _ = _ |- _ => apply u64_fits in H as [-> ?] end.
  match goal with H : fascia_stream_loop _ _ = _ |- _ => apply IH in H as [-> Hf] end. split.
  - rewrite bind_cons. unfold fascia_frame. by rewrite <- !app_assoc.
  - by constructor.
Qed.

Lemma fascia_unique_Ok paths : forall seen folded, fascia_unique_loop seen folded paths = Ok tt ->
  NoDup paths /\ Forall (λ p, p ∉ seen) paths /\ Forall (λ p, fascia_validate_path p = Ok tt) paths.
Proof.
  induction paths as [|p paths IH]; intros seen folded; cbn [fascia_unique_loop].
  { intros _. split_and!; constructor. }
  intros Hu. apply bind_Ok in Hu as ([]&Hv&Hu).
  apply bind_Ok in Hu as ([]&Hp%fail_if_Ok%bool_decide_eq_false&Hu). apply bind_Ok in Hu as ([]&_&Hu).
  apply IH in Hu as (Hnd&Hs&Hvs). split_and!.
  - apply NoDup_cons. split; [|done]. intros Hin. rewrite Forall_forall in Hs. specialize (Hs p Hin).
    set_solver.
  - constructor; [done|]. eapply Forall_impl; [exact Hs|]. set_solver.
  - by constructor.
Qed.

Lemma hash_fascia_Ok l d : hash_fascia_entries l = Ok d ->
  d = sha256 (fascia_preimage l) /\ Forall fascia_fits l /\ NoDup (fi_path <$> l) /\
  Forall (λ e, fascia_validate_path (fi_path e) = Ok tt) l.
Proof.
  unfold hash_fascia_entries, validate_unique_paths. set (sorted := stable_sort fascia_leb l).
  intros Hh. res_inv. assert (sorted ≡ₚ l) as Hp by apply stable_sort_perm.
  match goal with H : fascia_stream_loop _ _ = _ |- _ => apply fascia_stream_Ok in H as [-> Hf] end.
  match goal with H : fascia_unique_loop _ _ _ = _ |- _ => apply fascia_unique_Ok in H as (Hnd&_&Hv) end.
  rewrite Hp in Hf. rewrite Hp in Hnd. rewrite Forall_fmap, Hp in Hv. done.
Qed.

Lemma hash_fascia_perm l l' d : hash_fascia_entries l = Ok d -> l ≡ₚ l' -> hash_fascia_entries l' = Ok d.
Proof.
  intros Hh Hp. destruct (hash_fascia_Ok _ _ Hh) as (_&_&Hnd&_). rewrite <- Hh.
  unfold hash_fascia_entries.
  by rewrite (text_sort_perm fi_path l l' Hnd Hp : stable_sort fascia_leb l = stable_sort fascia_leb l').
Qed.

Lemma fascia_entries_bound l l' d : hash_fascia_entries l = Ok d -> hash_fascia_entries l' = Ok d ->
  (sha256 (fascia_preimage l) = sha256 (fascia_preimage l') -> fascia_preimage l = fascia_preimage l') ->
  l ≡ₚ l'.
Proof.
  intros (->&Hf&_)%hash_fascia_Ok (E&Hf'&_)%hash_fascia_Ok Hn. apply Hn in E.
  assert (stable_sort fascia_leb l = stable_sort fascia_leb l') as Es.
  { eapply (frames_inj fascia_frame fascia_fits);
      [apply fascia_frame_inj|apply fascia_frame_nonempty| | |exact E]; by rewrite stable_sort_perm. }
  by rewrite <- (stable_sort_perm fascia_leb l), Es, (stable_sort_perm fascia_leb l').
Qed.

(** ** The files of a Fascia tree *)

(** The regular files with their normalized paths and contents, except the
    excluded subtrees. *)
Fixpoint fascia_files (exclusions : list string) (at_ : list string) (n : FsNode)
    : list (string * list Z) :=
  match n with MkFsNode _ _ _ items => fascia_files_items exclusions at_ items end
with fascia_files_items (exclusions : list string) (at_ : list string) (items : FsItems)
    : list (string * list Z) :=
  match items with
  | NoMoreItems => []
  | ItemError _ items => fascia_files_items exclusions at_ items
  | Item name n items =>
      let path := at_ ++ [name] in
      match fascia_normalize_path (join_path path), fs_metadata n with
      | Ok normalized, Ok metadata =>
          if is_excluded normalized exclusions then []
          else if is_dir metadata then fascia_files exclusions path n
          else if is_file metadata then [(normalized, node_bytes n)] else []
      | _, _ => []
      end ++ fascia_files_items exclusions at_ items
  end.

Lemma read_regular_file_Ok at_ n m bytes : read_regular_file at_ n m = Ok bytes -> bytes = node_bytes n.
Proof.
  unfold read_regular_file, read_unchanged, node_bytes. intros Hh. res_inv.
  match goal with H : rd_bytes _ = Ok _ |- _ => by rewrite H end.
Qed.

Lemma walk_fascia_Ok ex :
  (forall n at_ es out, walk_fascia ex at_ n es = Ok out ->
     out = es ++ (file_input <$> fascia_files ex at_ n)) /\
  (forall items at_ es out, walk_fascia_items ex at_ items es = Ok out ->
     out = es ++ (file_input <$> fascia_files_items ex at_ items)).
Proof.
  apply FsNode_FsItems_ind.
  - intros m r l items IH at_ es out. cbn [walk_fascia fascia_files]. intros Hw. res_inv. by apply IH.
  - intros at_ es out [= <-]. cbn. by rewrite app_nil_r.
  - done.
  - intros name n IHn items IHi at_ es out. cbn [walk_fascia_items fascia_files_items]. intros Hw.
    apply bind_Ok in Hw as (normalized&Hn&Hw). apply bind_Ok in Hw as (m&Hm&Hw).
    rewrite Hn. unfold fascia_metadata in Hm. apply map_err_Ok in Hm. rewrite Hm.
    apply bind_Ok in Hw as (?&_&Hw).
    destruct (is_excluded normalized ex); [by apply IHi|].
    apply bind_Ok in Hw as (es'&He&Hw). apply IHi in Hw as ->. rewrite fmap_app, app_assoc. f_equal.
    destruct (is_dir m); [by apply IHn|]. destruct (is_file m); [|done]. res_inv.
    match goal with H : read_regular_file _ _ _ = _ |- _ => by apply read_regular_file_Ok in H as -> end.
Qed.

Lemma hash_fascia_tree_Ok root ex c : hash_fascia_tree_with_exclusions root ex = Ok c ->
  let loaded := file_input <$> fascia_files ex [] root in
  hash_fascia_entries loaded = Ok (fc_digest c) /\
  fc_entries c = fascia_tree_entry <$> stable_sort fascia_leb loaded.
Proof.
  unfold hash_fascia_tree_with_exclusions. intros Hh. res_inv.
  match goal with H : walk_fascia _ _ _ _ = _ |- _ => apply walk_fascia_Ok in H as -> end. done.
Qed.

(** A Fascia digest identifies the tree: with the same exclusions, two trees
    that can be hashed have the same digest exactly when they have the same
    files outside the excluded subtrees, under the same normalized paths and
    with the same contents, unless the hash collides on the two streams. The
    stream has no domain and no count, and is uniquely decodable all the same. *)
Theorem fascia_digest_identifies r1 r2 ex c1 c2 :
  hash_fascia_tree_with_exclusions r1 ex = Ok c1 -> hash_fascia_tree_with_exclusions r2 ex = Ok c2 ->
  let s1 := fascia_preimage (file_input <$> fascia_files ex [] r1) in
  let s2 := fascia_preimage (file_input <$> fascia_files ex [] r2) in
  (sha256 s1 = sha256 s2 -> s1 = s2) ->
  fc_digest c1 = fc_digest c2 <-> fascia_files ex [] r1 ≡ₚ fascia_files ex [] r2.
Proof.
  intros (H1'&_)%hash_fascia_tree_Ok (H2'&_)%hash_fascia_tree_Ok s1 s2 Hn. split.
  - intros E. rewrite E in H1'. pose proof (fascia_entries_bound _ _ _ H1' H2' Hn) as Hp.
    assert (forall l : list (string * list Z), (λ e, (fi_path e, fi_content e)) <$> (file_input <$> l) = l)
      as Hback.
    { intros l. rewrite <- list_fmap_compose. rewrite <- (list_fmap_id l) at 2.
      apply list_fmap_ext. by intros ? [p b] _. }
    rewrite <- (Hback (fascia_files ex [] r1)), Hp. by rewrite Hback.
  - intros Hp. eapply hash_fascia_perm in H1'; [|by apply fmap_Permutation, Hp]. congruence.
Qed.
End fascia.

(** ** Genesis inputs *)

Definition image_frame (i : GenesisImage) : list Z :=
  be_bytes 4 (Z.of_nat (len (gi_filename i))) ++ bytes_of (gi_filename i)
    ++ as_bytes (gi_content_sha256 i).
Definition image_fits (i : GenesisImage) : Prop :=
  (Z.of_nat (len (gi_filename i)) < 256 ^ Z.of_nat 4)%Z.

Lemma image_frame_inj a b r r' : image_fits a -> image_fits b ->
  image_frame a ++ r = image_frame b ++ r' -> a = b /\ r = r'.
Proof.
  unfold image_fits, image_frame. rewrite <- !bytes_of_length, <- !app_assoc. intros Ha Hb E.
  apply frame_inj in E as [Hp E]; [|done..].
  apply app_inj_1 in E as [Hd ->]; [|by rewrite !as_bytes_length].
  apply (inj bytes_of) in Hp. apply bytes_eq in Hd. by destruct a, b; simpl in *; subst.
Qed.

Lemma image_frame_nonempty i : image_frame i <> [].
Proof. unfold image_frame. intros [E _]%app_nil. by apply (f_equal length) in E. Qed.

(** What is hashed for a prompt and its images. *)
Definition genesis_preimage (prompt : list Z) (images : list GenesisImage) : list Z :=
  GENESIS_INPUT_DOMAIN ++ be_bytes 8 (Z.of_nat (length prompt)) ++ prompt
    ++ be_bytes 8 (Z.of_nat (length images)) ++ (stable_sort image_leb images ≫= image_frame).

Section genesis.
Context `{Platform} `{Unicode}.

Lemma images_loop_Ok images : forall seen stream out, images_loop seen stream images = Ok out ->
  out = stream ++ (images ≫= image_frame) /\ Forall image_fits images /\
  NoDup (gi_filename <$> images) /\ Forall (λ i, gi_filename i ∉ seen) images /\
  Forall (λ i, validate_filename (gi_filename i) = Ok tt) images.
Proof.
  induction images as [|i images IH]; intros seen stream out; cbn [images_loop].
  { intros [= <-]. rewrite app_nil_r. split_and!; [done|constructor..]. }
  intros Hs. res_inv. match goal with H : u32_try_from _ = _ |- _ => apply u32_fits in H as [-> Hf] end.
  match goal with H : images_loop _ _ _ = _ |- _ => apply IH in H as (->&Hfs&Hnd&Hns&Hvs) end.
  split_and!.
  - rewrite bind_cons. unfold image_frame. by rewrite <- !app_assoc.
  - by constructor.
  - cbn. apply NoDup_cons. split; [|done]. intros (j&E&Hj)%list_elem_of_fmap.
    rewrite Forall_forall in Hns. specialize (Hns j Hj). set_solver.
  - constructor; [done|]. eapply Forall_impl; [exact Hns|]. set_solver.
  - by constructor.
Qed.

Lemma genesis_input_Ok prompt images d : genesis_input_sha256 prompt images = Ok d ->
  d = sha256 (genesis_preimage prompt images) /\
  (Z.of_nat (length prompt) < 256 ^ Z.of_nat 8)%Z /\ length images <= MAX_GENESIS_IMAGES /\
  Forall image_fits images /\ NoDup (gi_filename <$> images) /\
  Forall (λ i, validate_filename (gi_filename i) = Ok tt) images.
Proof.
  unfold genesis_input_sha256. intros Hh. apply bind_Ok in Hh as (n&Hpl&Hh).
  apply ok_or_Ok, u64_fits in Hpl as [-> Hpl]. apply bind_Ok in Hh as ([]&Hm%fail_if_Ok&Hh).
  apply Nat.ltb_ge in Hm. apply bind_Ok in Hh as (c&Hc&Hh). apply ok_or_Ok, u64_fits in Hc as [-> _].
  apply bind_Ok in Hh as (stream&Hs&[= <-]). apply images_loop_Ok in Hs as (->&Hf&Hnd&_&Hv).
  assert (stable_sort image_leb images ≡ₚ images) as Hp by apply stable_sort_perm.
  rewrite Hp in Hf. rewrite Hp in Hnd. rewrite Hp in Hv. split_and!; try done.
  f_equal. unfold genesis_preimage. by rewrite <- !app_assoc.
Qed.

(** A Genesis commitment identifies the prompt and the images: two inputs have
    the same digest exactly when the prompts are the same bytes and the images
    are the same up to order, unless the hash collides on the two streams; and
    there are at most eight images, with distinct names. *)
Theorem genesis_input_identifies p1 i1 p2 i2 d1 d2 :
  genesis_input_sha256 p1 i1 = Ok d1 -> genesis_input_sha256 p2 i2 = Ok d2 ->
  (sha256 (genesis_preimage p1 i1) = sha256 (genesis_preimage p2 i2) ->
     genesis_preimage p1 i1 = genesis_preimage p2 i2) ->
  (d1 = d2 <-> p1 = p2 /\ i1 ≡ₚ i2) /\ length i1 <= 8 /\ NoDup (gi_filename <$> i1).
Proof.
  intros (->&Hp1&Hm&Hf1&Hnd&_)%genesis_input_Ok (->&Hp2&_&Hf2&_&_)%genesis_input_Ok Hn.
  split; [|by split]. split.
  - intros E%Hn. unfold genesis_preimage in E. apply app_inv_head in E.
    apply frame_inj in E as [-> E]; [|done..].
    apply app_inj_1 in E as [_ E]; [|by rewrite !be_bytes_length]. split; [done|].
    assert (stable_sort image_leb i1 = stable_sort image_leb i2) as Es.
    { eapply (frames_inj image_frame image_fits);
        [apply image_frame_inj|apply image_frame_nonempty| | |exact E]; by rewrite stable_sort_perm. }
    by rewrite <- (stable_sort_perm image_leb i1), Es, (stable_sort_perm image_leb i2).
  - intros [-> Hp]. unfold genesis_preimage. rewrite (Permutation_length Hp).
    by rewrite (text_sort_perm gi_filename i1 i2 Hnd Hp : stable_sort image_leb i1 = _).
Qed.
End genesis.
