(* ===== verification/Eip712.v ===== *)
(** * Device keys and typed structured data

    The rest of [protocol/src/identity.rs] (device keys, installation
    identities, the predicted address of a builder account) and the encoding of
    [protocol/src/actions.rs] that its signed actions share: words, type
    hashes, domains and the final digest. Keccak-256 is a parameter. *)
From S2P Require Import Prelude Text Digest Keys Records.

(** [Keccak256::digest] of the [sha3] crate. *)
Class Keccak := { keccak256 : list Z -> Bytes32 }.

(** A 32-byte array filled from a slice of that length. *)
Definition word_of (bytes : list Z) : Bytes32 := default ZERO (try_bytes 32 bytes).

Lemma as_bytes_word bytes : bytes_ok 32 bytes = true -> as_bytes (word_of bytes) = bytes.
Proof.
  intros Hok. unfold word_of. destruct (try_bytes 32 bytes) as [w|] eqn:E; [by apply try_bytes_Some in E|].
  assert (try_bytes 32 bytes = Some (MkBytes bytes Hok)) as E' by by apply try_bytes_Some.
  congruence.
Qed.

(** ** Words *)

(** A value of [n] bytes, padded to the left. *)
Definition padded (bytes : list Z) : Bytes32 :=
  word_of (replicate (32 - length bytes) 0%Z ++ bytes).

Definition address_word (address : Address20) : Bytes32 := padded (as_bytes (address_bytes address)).
Definition u64_word (value : Z) : Bytes32 := padded (be_bytes 8 value).
Definition u32_word (value : Z) : Bytes32 := padded (be_bytes 4 value).
Definition u8_word (value : Z) : Bytes32 := padded [value].

Lemma as_bytes_padded bytes : length bytes <= 32 -> Forall (λ b, 0 <= b < 256)%Z bytes ->
  as_bytes (padded bytes) = replicate (32 - length bytes) 0%Z ++ bytes.
Proof.
  intros Hl Hb. apply as_bytes_word. unfold bytes_ok. apply andb_true_iff. split.
  - apply Nat.eqb_eq. rewrite length_app, length_replicate. lia.
  - apply forallb_forall. intros b [Hin|Hin]%list_elem_of_In%elem_of_app.
    + apply elem_of_replicate in Hin as [-> _]. done.
    + rewrite Forall_forall in Hb. specialize (Hb b Hin). simpl. lia.
Qed.

Lemma padded_inj a b : length a = length b -> length a <= 32 ->
  Forall (λ b, 0 <= b < 256)%Z a -> Forall (λ b, 0 <= b < 256)%Z b ->
  padded a = padded b -> a = b.
Proof.
  intros Hl Hn Ha Hb E%(f_equal as_bytes). rewrite !as_bytes_padded in E by (done || lia).
  rewrite Hl in E. by apply app_inv_head in E.
Qed.

Lemma address_word_inj a b : address_word a = address_word b -> a = b.
Proof.
  destruct a as [a], b as [b]. unfold address_word. simpl.
  intros E%padded_inj; [by f_equal; apply bytes_eq|by rewrite !as_bytes_length
    |rewrite as_bytes_length; lia|apply as_bytes_bound..].
Qed.

Definition is_u64 (z : Z) : Prop := (0 <= z <= U64_MAX)%Z.
Definition is_u32 (z : Z) : Prop := (0 <= z <= U32_MAX)%Z.

Lemma u64_word_inj a b : is_u64 a -> is_u64 b -> u64_word a = u64_word b -> a = b.
Proof.
  intros Ha Hb E%padded_inj; try apply be_bytes_bound; rewrite ?be_bytes_length; try done; [|lia].
  unfold is_u64, U64_MAX in *. apply be_bytes_inj in E; [done|simpl; lia..].
Qed.

Lemma u32_word_inj a b : is_u32 a -> is_u32 b -> u32_word a = u32_word b -> a = b.
Proof.
  intros Ha Hb E%padded_inj; try apply be_bytes_bound; rewrite ?be_bytes_length; try done; [|lia].
  unfold is_u32, U32_MAX in *. apply be_bytes_inj in E; [done|simpl; lia..].
Qed.

(** A sequence of words is determined by its bytes. *)
Lemma words_inj (a b : list Bytes32) : a ≫= as_bytes = b ≫= as_bytes -> a = b.
Proof.
  revert b. induction a as [|x a IH]; intros [|y b]; cbn; intros E.
  - done.
  - apply (f_equal length) in E. rewrite length_app, as_bytes_length in E. simpl in E. lia.
  - apply (f_equal length) in E. rewrite length_app, as_bytes_length in E. simpl in E. lia.
  - apply app_inj_1 in E as [Hx E]; [|by rewrite !as_bytes_length].
    f_equal; [by apply bytes_eq|by apply IH].
Qed.

(** ** Identities *)

Definition RECOVERY_DERIVATION_PATH : string := "m/44'/60'/0'/0/0".

Record BuilderDeviceKey := { dk_key_id : Bytes32; dk_public_key : P256PublicKey }.
#[export] Instance BuilderDeviceKey_eq_dec : EqDecision BuilderDeviceKey.
Proof. solve_decision. Defined.

Inductive RecoveryScheme := Bip39Bip44Secp256k1.
Record RecoveryAuthority := {
  ra_scheme : RecoveryScheme;
  ra_derivation_path : string;
  ra_address : Address20 }.

Record InstallationIdentity := { ii_installation_id : Bytes32; ii_public_key : P256PublicKey }.
#[export] Instance InstallationIdentity_eq_dec : EqDecision InstallationIdentity.
Proof. solve_decision. Defined.
#[export] Instance InstallationIdentity_to_json : ToJson InstallationIdentity := λ i, JObj
  [("installation_id", to_json (ii_installation_id i)); ("public_key", to_json (ii_public_key i))].

(** The coordinates of a key, one after the other. *)
Definition key_xy (k : P256PublicKey) : list Z := as_bytes (key_x k) ++ as_bytes (key_y k).

Section identities.
Context `{Platform} `{Keccak}.

Definition device_key_id (k : P256PublicKey) : Bytes32 := keccak256 (key_xy k).

Definition key_digest (prefix : string) (k : P256PublicKey) : Bytes32 :=
  sha256 (domain prefix ++ key_xy k).

Definition installation_id (k : P256PublicKey) : Bytes32 :=
  key_digest "TOHSENO-INSTALLATION-ID-V1" k.

Definition device_key_from_public_key (k : P256PublicKey) : result BuilderDeviceKey :=
  key_validate k ;;
  Ok {| dk_key_id := device_key_id k; dk_public_key := k |}.

Definition device_key_validate (d : BuilderDeviceKey) : result unit :=
  key_validate (dk_public_key d) ;;
  fail_if (dk_key_id d != device_key_id (dk_public_key d))
    (invalid "key_id" "must be the protocol device-key digest of x and y").

Definition recovery_validate (r : RecoveryAuthority) : result unit :=
  fail_if (ra_derivation_path r != RECOVERY_DERIVATION_PATH)
    (invalid "recovery.derivation_path" ("must be " +:+ RECOVERY_DERIVATION_PATH)) ;;
  fail_if (address_is_zero (ra_address r)) (invalid "recovery.address" "must not be zero").

Definition installation_from_public_key (k : P256PublicKey) : result InstallationIdentity :=
  key_validate k ;;
  Ok {| ii_installation_id := installation_id k; ii_public_key := k |}.

Definition installation_validate (i : InstallationIdentity) : result unit :=
  key_validate (ii_public_key i) ;;
  fail_if (ii_installation_id i != installation_id (ii_public_key i))
    (invalid "installation_id" "must be the protocol installation digest of x and y").

Definition initial_builder_account_salt (k : P256PublicKey) : result Bytes32 :=
  key_validate k ;;
  Ok (sha256 (domain "TOHSENO-BUILDER-SALT-V1" ++ as_bytes (device_key_id k))).

(** The last 20 bytes of a digest. *)
Definition address_of (digest : Bytes32) : Address20 :=
  {| address_bytes := default (zero_bytes 20) (try_bytes 20 (drop 12 (as_bytes digest))) |}.

Definition predict_builder_account (factory : Address20) (salt : Bytes32) (k : P256PublicKey)
    (creation_bytecode : list Z) : result BuilderId :=
  key_validate k ;;
  fail_if (address_is_zero factory) (invalid "factory" "must not be the zero address") ;;
  fail_if (length creation_bytecode =? 0)%nat (invalid "creation_bytecode" "must not be empty") ;;
  let init_code_hash := keccak256 (creation_bytecode ++ key_xy k) in
  let preimage := 255%Z :: as_bytes (address_bytes factory) ++ as_bytes salt
                    ++ as_bytes init_code_hash in
  Ok {| account := address_of (keccak256 preimage) |}.
End identities.

(** ** Domains and digests *)

Definition EIP712_DOMAIN_TYPE : string :=
  "EIP712Domain(string name,string version,uint256 chainId,address verifyingContract)".
Definition EIP712_VERSION : string := "1".

Record Eip712Domain := {
  do_name : string;
  do_version : string;
  do_chain_id : Z;
  do_verifying_contract : Address20 }.
#[export] Instance Eip712Domain_eq_dec : EqDecision Eip712Domain.
Proof. solve_decision. Defined.

Definition validate_for_version (expected_name expected_version : string) (d : Eip712Domain)
    : result unit :=
  fail_if (do_name d != expected_name) (invalid "domain.name" ("must be " +:+ expected_name)) ;;
  fail_if (do_version d != expected_version)
    (invalid "domain.version" ("must be " +:+ expected_version)) ;;
  fail_if (do_chain_id d != ROBINHOOD_CHAIN_ID)
    (invalid "domain.chain_id" ("must be " +:+ pretty ROBINHOOD_CHAIN_ID)) ;;
  fail_if (address_is_zero (do_verifying_contract d))
    (invalid "domain.verifying_contract" "must not be the zero address").

Definition validate_for (expected_name : string) (d : Eip712Domain) : result unit :=
  validate_for_version expected_name EIP712_VERSION d.

Definition nonzero_address (field : string) (value : Address20) : result unit :=
  fail_if (address_is_zero value) (invalid field "must not be the zero address").
Definition nonzero_bytes32 (field : string) (value : Bytes32) : result unit :=
  fail_if (value == ZERO) (invalid field "must not be zero").

Section typed_data.
Context `{Keccak}.

Definition type_hash (type_string : string) : Bytes32 := keccak256 (bytes_of type_string).

Definition hash_words (words : list Bytes32) : Bytes32 := keccak256 (words ≫= as_bytes).

Definition domain_words (d : Eip712Domain) : list Bytes32 :=
  [type_hash EIP712_DOMAIN_TYPE; keccak256 (bytes_of (do_name d));
   keccak256 (bytes_of (do_version d)); u64_word (do_chain_id d);
   address_word (do_verifying_contract d)].

Definition separator (d : Eip712Domain) : Bytes32 := hash_words (domain_words d).

(** The 66 bytes that are hashed last. *)
Definition digest_preimage (domain_separator struct_hash : Bytes32) : list Z :=
  [25%Z; 1%Z] ++ as_bytes domain_separator ++ as_bytes struct_hash.

Definition eip712_digest (domain_separator struct_hash : Bytes32) : Bytes32 :=
  keccak256 (digest_preimage domain_separator struct_hash).

(** ** What a digest determines *)

(** Everything that is hashed for a struct of type [type_string] with the
    fields [fields] under the domain [d]. *)
Definition preimages (d : Eip712Domain) (type_string : string) (fields : list Bytes32)
    : list (list Z) :=
  [bytes_of (do_name d); bytes_of (do_version d); domain_words d ≫= as_bytes;
   bytes_of type_string; (type_hash type_string :: fields) ≫= as_bytes;
   digest_preimage (separator d) (hash_words (type_hash type_string :: fields))].

(** The hash does not collide between two sets of preimages. *)
Definition no_collision (P Q : list (list Z)) : Prop :=
  forall p q, p ∈ P -> q ∈ Q -> keccak256 p = keccak256 q -> p = q.

Lemma typed_digest_inj d1 t1 f1 d2 t2 f2 :
  is_u64 (do_chain_id d1) -> is_u64 (do_chain_id d2) ->
  no_collision (preimages d1 t1 f1) (preimages d2 t2 f2) ->
  eip712_digest (separator d1) (hash_words (type_hash t1 :: f1))
    = eip712_digest (separator d2) (hash_words (type_hash t2 :: f2)) ->
  d1 = d2 /\ t1 = t2 /\ f1 = f2.
Proof.
  intros Hc1 Hc2 Hn E. unfold preimages in Hn.
  assert (digest_preimage (separator d1) (hash_words (type_hash t1 :: f1))
    = digest_preimage (separator d2) (hash_words (type_hash t2 :: f2))) as Ep.
  { apply Hn; [set_solver..|exact E]. }
  unfold digest_preimage in Ep. apply app_inv_head in Ep.
  apply app_inj_1 in Ep as [Es Ew]; [|by rewrite !as_bytes_length].
  apply bytes_eq in Es, Ew. unfold separator, hash_words in Es, Ew.
  apply Hn in Es; [|set_solver..]. apply Hn in Ew; [|set_solver..].
  apply words_inj in Es, Ew. injection Ew as Et ->.
  unfold domain_words in Es. injection Es as En Ev Ei Ea.
  apply Hn in En; [|set_solver..]. apply Hn in Ev; [|set_solver..].
  apply Hn in Et; [|set_solver..]. apply (inj bytes_of) in En, Ev, Et.
  apply u64_word_inj in Ei; [|done..]. apply address_word_inj in Ea.
  split_and!; [|done|done]. destruct d1, d2; simpl in *; congruence.
Qed.
End typed_data.
