(* ===== verification/RegistryActions.v ===== *)
(** * Signed public actions

    [protocol/src/actions.rs]: the actions of both contract generations, their
    validation, the words they are hashed as, and the detached signatures over
    them. [RegistryActionV2] and [BuilderAccountActionV2] are the active
    generation; [PublicAction] and [DeviceAction] the retired one. *)
From S2P Require Import Prelude Text Digest Keys Records Ontology Eip712.

Definition BUILDER_ACCOUNT_DOMAIN : string := "TOHSENO BuilderAccount".
Definition SHOT_REGISTRY_DOMAIN : string := "TOHSENO ShotRegistry".
Definition SHOT_RELATIONS_DOMAIN : string := "TOHSENO ShotRelations".
Definition PUBLIC_ACTION_SCHEMA : string := "tohseno.public-action/1".
Definition SHOT_REGISTRY_V2_EIP712_VERSION : string := "2".
Definition REGISTRY_ACTION_V2_SCHEMA : string := "tohseno.registry-action/2".

Definition CREATE_SHOT_TYPE : string := "CreateShot(bytes32 shotId,address controller,bytes32 head,uint64 sequence,uint8 publicState,bytes32 contentCommitment,uint64 nonce,uint64 deadline)".
Definition APPEND_EVOLUTION_TYPE : string := "AppendEvolution(bytes32 shotId,bytes32 previousHead,bytes32 newHead,uint64 sequence,bytes32 contentCommitment,uint64 nonce,uint64 deadline)".
Definition TRANSFER_SHOT_TYPE : string := "TransferShot(bytes32 shotId,address currentController,address newController,bytes32 currentHead,uint64 sequence,uint64 nonce,uint64 deadline)".
Definition SET_PUBLIC_STATE_TYPE : string := "SetPublicState(bytes32 shotId,bytes32 currentHead,uint64 sequence,uint8 publicState,bytes32 contentCommitment,uint64 nonce,uint64 deadline)".
Definition AUTHORIZE_DEVICE_TYPE : string := "AuthorizeDevice(address account,bytes32 keyId,uint256 x,uint256 y,uint32 permissions,uint64 nonce,uint64 deadline)".
Definition REVOKE_DEVICE_TYPE : string :=
  "RevokeDevice(address account,bytes32 keyId,uint64 nonce,uint64 deadline)".
Definition SET_RECOVERY_TYPE : string :=
  "SetRecovery(address account,address recovery,uint64 nonce,uint64 deadline)".
Definition RECOVER_ACCOUNT_TYPE : string := "RecoverAccount(address account,address currentRecovery,address newRecovery,bytes32 newKeyId,uint256 newX,uint256 newY,uint64 nonce,uint64 deadline)".
Definition CHANGE_RECOVERY_TYPE : string := "ChangeRecovery(address account,address currentRecovery,address newRecovery,uint64 nonce,uint64 deadline)".
Definition INITIATE_RECOVERY_TYPE : string := "InitiateRecovery(address account,address currentRecovery,address newRecovery,bytes32 newKeyId,uint256 newX,uint256 newY,uint64 nonce,uint64 deadline)".
Definition CANCEL_RECOVERY_TYPE : string :=
  "CancelRecovery(address account,bytes32 recoveryId,uint64 nonce,uint64 deadline)".
Definition CLAIM_HANDLE_TYPE : string :=
  "ClaimHandle(bytes32 shotId,bytes32 handleHash,uint64 nonce,uint64 deadline)".
Definition RELEASE_HANDLE_TYPE : string :=
  "ReleaseHandle(bytes32 shotId,bytes32 handleHash,uint64 nonce,uint64 deadline)".
Definition ASSOCIATE_APPCOIN_TYPE : string :=
  "AssociateAppcoin(bytes32 shotId,uint256 chainId,address token,uint64 nonce,uint64 deadline)".
Definition REMOVE_APPCOIN_TYPE : string :=
  "RemoveAppcoin(bytes32 shotId,uint256 chainId,address token,uint64 nonce,uint64 deadline)".
Definition ATTEST_APP_STORE_TYPE : string := "AttestAppStore(bytes32 shotId,bytes32 bundleIdHash,uint64 storeId,bytes32 evolutionHead,uint64 nonce,uint64 deadline)".
Definition SHOT_REGISTRATION_COMMITMENT_V2_TYPE : string := "ShotRegistrationCommitment(address controller,bytes32 shotId,bytes32 salt,address registry,uint256 chainId,uint64 deadline)".
Definition REGISTER_SHOT_V2_TYPE : string := "RegisterShot(bytes32 shotId,address controller,bytes32 head,bytes32 salt,uint64 nonce,uint64 deadline)".
Definition APPEND_CHECKPOINT_V2_TYPE : string := "AppendCheckpoint(bytes32 shotId,bytes32 previousHead,bytes32 newHead,uint64 checkpointSequence,uint64 nonce,uint64 deadline)".
Definition TRANSFER_SHOT_V2_TYPE : string := "TransferShot(bytes32 shotId,address currentController,address newController,bytes32 currentHead,uint64 checkpointSequence,uint64 nonce,uint64 deadline)".

Definition PERMISSION_PROTOCOL : Z := 1.
Definition PERMISSION_DEVICE_ADMIN : Z := 2.
Definition PERMISSION_ALL : Z := Z.lor PERMISSION_PROTOCOL PERMISSION_DEVICE_ADMIN.

(** [value == 0 || value > MAX_SAFE_JSON_INTEGER] *)
Definition not_positive_safe (value : Z) : bool :=
  (value == 0%Z) || (MAX_SAFE_JSON_INTEGER <? value).

(** ** The registration commitment *)

Record ShotRegistrationCommitmentV2 := {
  sr_controller : Address20;
  sr_shot_id : ShotId;
  sr_salt : Bytes32;
  sr_registry : Address20;
  sr_chain_id : Z;
  sr_deadline : Z }.

Definition registration_commitment_validate (c : ShotRegistrationCommitmentV2) : result unit :=
  nonzero_address "commitment.controller" (sr_controller c) ;;
  nonzero_bytes32 "commitment.shot_id" (shot_bytes (sr_shot_id c)) ;;
  nonzero_address "commitment.registry" (sr_registry c) ;;
  fail_if (sr_chain_id c != ROBINHOOD_CHAIN_ID)
    (invalid "commitment.chain_id" ("must be " +:+ pretty ROBINHOOD_CHAIN_ID)) ;;
  fail_if (not_positive_safe (sr_deadline c))
    (invalid "commitment.deadline" "must be a positive JavaScript-safe integer").

Definition registration_digest `{Keccak} (c : ShotRegistrationCommitmentV2) : result Bytes32 :=
  registration_commitment_validate c ;;
  Ok (hash_words [type_hash SHOT_REGISTRATION_COMMITMENT_V2_TYPE;
        address_word (sr_controller c); shot_bytes (sr_shot_id c); sr_salt c;
        address_word (sr_registry c); u64_word (sr_chain_id c); u64_word (sr_deadline c)]).

(** ** Registry actions of generation 0.8 *)

Inductive RegistryActionV2 : Type :=
  | RegisterShot (shot_id : ShotId) (controller : Address20) (head salt : Bytes32)
      (nonce deadline : Z)
  | AppendCheckpoint (shot_id : ShotId) (previous_head new_head : Bytes32)
      (checkpoint_sequence nonce deadline : Z)
  | TransferShot (shot_id : ShotId) (current_controller new_controller : Address20)
      (current_head : Bytes32) (checkpoint_sequence nonce deadline : Z).
#[export] Instance RegistryActionV2_eq_dec : EqDecision RegistryActionV2.
Proof. solve_decision. Defined.

Definition registry_type_string (a : RegistryActionV2) : string :=
  match a with
  | RegisterShot _ _ _ _ _ _ => REGISTER_SHOT_V2_TYPE
  | AppendCheckpoint _ _ _ _ _ _ => APPEND_CHECKPOINT_V2_TYPE
  | TransferShot _ _ _ _ _ _ _ => TRANSFER_SHOT_V2_TYPE
  end.

(** The nonce and the deadline, once the fields of the variant are checked. *)
Definition registry_fields_validate (a : RegistryActionV2) : result (Z * Z) :=
  match a with
  | RegisterShot shot_id controller head _ nonce deadline =>
      nonzero_bytes32 "action.shot_id" (shot_bytes shot_id) ;;
      nonzero_address "action.controller" controller ;;
      nonzero_bytes32 "action.head" head ;;
      Ok (nonce, deadline)
  | AppendCheckpoint shot_id previous_head new_head checkpoint_sequence nonce deadline =>
      nonzero_bytes32 "action.shot_id" (shot_bytes shot_id) ;;
      nonzero_bytes32 "action.previous_head" previous_head ;;
      nonzero_bytes32 "action.new_head" new_head ;;
      fail_if (new_head == previous_head)
        (invalid "action.new_head" "must differ from previous_head") ;;
      fail_if (checkpoint_sequence <? 2)
        (invalid "action.checkpoint_sequence" "an append must be at least checkpoint 2") ;;
      Ok (nonce, deadline)
  | TransferShot shot_id current_controller new_controller current_head checkpoint_sequence nonce deadline =>
      nonzero_bytes32 "action.shot_id" (shot_bytes shot_id) ;;
      nonzero_address "action.current_controller" current_controller ;;
      nonzero_address "action.new_controller" new_controller ;;
      fail_if (current_controller == new_controller)
        (invalid "action.new_controller" "must differ from current_controller") ;;
      nonzero_bytes32 "action.current_head" current_head ;;
      fail_if (checkpoint_sequence == 0%Z)
        (invalid "action.checkpoint_sequence" "must be at least checkpoint 1") ;;
      Ok (nonce, deadline)
  end.

Definition registry_checkpoint_sequence (a : RegistryActionV2) : option Z :=
  match a with
  | AppendCheckpoint _ _ _ checkpoint_sequence _ _
  | TransferShot _ _ _ _ checkpoint_sequence _ _ => Some checkpoint_sequence
  | RegisterShot _ _ _ _ _ _ => None
  end.

Definition registry_validate (a : RegistryActionV2) : result unit :=
  '(nonce, deadline) ← registry_fields_validate a;
  fail_if ((MAX_SAFE_JSON_INTEGER <? nonce) || not_positive_safe deadline)
    (invalid "action" "nonce and deadline must be JavaScript-safe, and deadline must be positive") ;;
  fail_if (is_some_and (λ value, MAX_SAFE_JSON_INTEGER <? value) (registry_checkpoint_sequence a))
    (invalid "action.checkpoint_sequence" "must be a JavaScript-safe integer").

(** The words of the fields, without the type hash. *)
Definition registry_words (a : RegistryActionV2) : list Bytes32 :=
  match a with
  | RegisterShot shot_id controller head salt nonce deadline =>
      [shot_bytes shot_id; address_word controller; head; salt; u64_word nonce; u64_word deadline]
  | AppendCheckpoint shot_id previous_head new_head checkpoint_sequence nonce deadline =>
      [shot_bytes shot_id; previous_head; new_head; u64_word checkpoint_sequence; u64_word nonce;
       u64_word deadline]
  | TransferShot shot_id current_controller new_controller current_head checkpoint_sequence nonce deadline =>
      [shot_bytes shot_id; address_word current_controller; address_word new_controller;
       current_head; u64_word checkpoint_sequence; u64_word nonce; u64_word deadline]
  end.

Section registry.
Context `{Keccak}.

Definition registry_struct_hash (a : RegistryActionV2) : result Bytes32 :=
  registry_validate a ;;
  Ok (hash_words (type_hash (registry_type_string a) :: registry_words a)).

Definition registry_digest (d : Eip712Domain) (a : RegistryActionV2) : result Bytes32 :=
  validate_for_version SHOT_REGISTRY_DOMAIN SHOT_REGISTRY_V2_EIP712_VERSION d ;;
  struct_hash ← registry_struct_hash a;
  Ok (eip712_digest (separator d) struct_hash).

Definition registration_commitment (d : Eip712Domain) (a : RegistryActionV2)
    : result ShotRegistrationCommitmentV2 :=
  validate_for_version SHOT_REGISTRY_DOMAIN SHOT_REGISTRY_V2_EIP712_VERSION d ;;
  match a with
  | RegisterShot shot_id controller _ salt _ deadline =>
      let commitment := {| sr_controller := controller; sr_shot_id := shot_id; sr_salt := salt;
        sr_registry := do_verifying_contract d; sr_chain_id := do_chain_id d;
        sr_deadline := deadline |} in
      registration_commitment_validate commitment ;;
      Ok commitment
  | _ => Err (invalid "action.type" "only REGISTER_SHOT has a registration commitment")
  end.
End registry.

Record SignedRegistryActionV2 := {
  sra_schema : string;
  sra_domain : Eip712Domain;
  sra_action : RegistryActionV2;
  sra_signer : P256PublicKey;
  sra_authorization : DetachedP256Signature }.

Definition signed_registry_verify `{Platform} `{Keccak} (s : SignedRegistryActionV2) : result unit :=
  fail_if (sra_schema s != REGISTRY_ACTION_V2_SCHEMA)
    (invalid "registry_action.schema" ("must be " +:+ REGISTRY_ACTION_V2_SCHEMA)) ;;
  key_validate (sra_signer s) ;;
  detached_validate (sra_authorization s) ;;
  digest ← registry_digest (sra_domain s) (sra_action s);
  fail_if (digest != detached_digest (sra_authorization s)) DigestMismatch ;;
  verify_digest (sra_signer s) digest (detached_signature (sra_authorization s)).

(** ** Public actions of the retired generation *)

Inductive PublicState : Type := Published | AppStore.
#[export] Instance PublicState_eq_dec : EqDecision PublicState.
Proof. solve_decision. Defined.
(** [public_state as u8] *)
Definition public_state_code (s : PublicState) : Z :=
  match s with Published => 1 | AppStore => 2 end.

Inductive PublicAction : Type :=
  | CreateShot (shot_id : ShotId) (controller : Address20) (head : Bytes32) (sequence : Z)
      (public_state : PublicState) (content_commitment : Bytes32) (nonce deadline : Z)
  | AppendEvolution (shot_id : ShotId) (previous_head new_head : Bytes32) (sequence : Z)
      (content_commitment : Bytes32) (nonce deadline : Z)
  | TransferShotV1 (shot_id : ShotId) (current_controller new_controller : Address20)
      (current_head : Bytes32) (sequence nonce deadline : Z)
  | SetPublicState (shot_id : ShotId) (current_head : Bytes32) (sequence : Z)
      (public_state : PublicState) (content_commitment : Bytes32) (nonce deadline : Z)
  | ClaimHandle (shot_id : ShotId) (handle_hash : Bytes32) (nonce deadline : Z)
  | ReleaseHandle (shot_id : ShotId) (handle_hash : Bytes32) (nonce deadline : Z)
  | AssociateAppcoin (shot_id : ShotId) (chain_id : Z) (token : Address20) (nonce deadline : Z)
  | RemoveAppcoin (shot_id : ShotId) (chain_id : Z) (token : Address20) (nonce deadline : Z)
  | AttestAppStore (shot_id : ShotId) (bundle_id_hash : Bytes32) (store_id : Z)
      (evolution_head : Bytes32) (nonce deadline : Z).

Definition expected_domain_name (a : PublicAction) : string :=
  match a with
  | CreateShot _ _ _ _ _ _ _ _ | AppendEvolution _ _ _ _ _ _ _ | TransferShotV1 _ _ _ _ _ _ _
  | SetPublicState _ _ _ _ _ _ _ => SHOT_REGISTRY_DOMAIN
  | ClaimHandle _ _ _ _ | ReleaseHandle _ _ _ _ | AssociateAppcoin _ _ _ _ _
  | RemoveAppcoin _ _ _ _ _ | AttestAppStore _ _ _ _ _ _ => SHOT_RELATIONS_DOMAIN
  end.

Definition public_type_string (a : PublicAction) : string :=
  match a with
  | CreateShot _ _ _ _ _ _ _ _ => CREATE_SHOT_TYPE
  | AppendEvolution _ _ _ _ _ _ _ => APPEND_EVOLUTION_TYPE
  | TransferShotV1 _ _ _ _ _ _ _ => TRANSFER_SHOT_TYPE
  | SetPublicState _ _ _ _ _ _ _ => SET_PUBLIC_STATE_TYPE
  | ClaimHandle _ _ _ _ => CLAIM_HANDLE_TYPE
  | ReleaseHandle _ _ _ _ => RELEASE_HANDLE_TYPE
  | AssociateAppcoin _ _ _ _ _ => ASSOCIATE_APPCOIN_TYPE
  | RemoveAppcoin _ _ _ _ _ => REMOVE_APPCOIN_TYPE
  | AttestAppStore _ _ _ _ _ _ => ATTEST_APP_STORE_TYPE
  end.

(** The sequence, if the variant has one, and the deadline. *)
Definition public_fields_validate (a : PublicAction) : result (option Z * Z) :=
  match a with
  | CreateShot shot_id controller head sequence public_state _ _ deadline =>
      nonzero_bytes32 "action.shot_id" (shot_bytes shot_id) ;;
      nonzero_bytes32 "action.head" head ;;
      nonzero_address "action.controller" controller ;;
      fail_if (public_state != Published)
        (invalid "action.public_state" "CREATE_SHOT must begin PUBLISHED") ;;
      Ok (Some sequence, deadline)
  | AppendEvolution shot_id previous_head new_head sequence _ _ deadline =>
      nonzero_bytes32 "action.shot_id" (shot_bytes shot_id) ;;
      nonzero_bytes32 "action.previous_head" previous_head ;;
      nonzero_bytes32 "action.new_head" new_head ;;
      fail_if (new_head == previous_head)
        (invalid "action.new_head" "must differ from previous_head") ;;
      Ok (Some sequence, deadline)
  | SetPublicState shot_id current_head sequence _ _ _ deadline =>
      nonzero_bytes32 "action.shot_id" (shot_bytes shot_id) ;;
      nonzero_bytes32 "action.current_head" current_head ;;
      Ok (Some sequence, deadline)
  | TransferShotV1 shot_id current_controller new_controller current_head sequence _ deadline =>
      nonzero_bytes32 "action.shot_id" (shot_bytes shot_id) ;;
      nonzero_bytes32 "action.current_head" current_head ;;
      nonzero_address "action.current_controller" current_controller ;;
      nonzero_address "action.new_controller" new_controller ;;
      fail_if (current_controller == new_controller)
        (invalid "action.new_controller" "must differ from current_controller") ;;
      Ok (Some sequence, deadline)
  | ClaimHandle shot_id handle_hash _ deadline | ReleaseHandle shot_id handle_hash _ deadline =>
      nonzero_bytes32 "action.shot_id" (shot_bytes shot_id) ;;
      nonzero_bytes32 "action.handle_hash" handle_hash ;;
      Ok (None, deadline)
  | AssociateAppcoin shot_id chain_id token _ deadline
  | RemoveAppcoin shot_id chain_id token _ deadline =>
      nonzero_bytes32 "action.shot_id" (shot_bytes shot_id) ;;
      fail_if (chain_id == 0%Z) (invalid "action.chain_id" "must not be zero") ;;
      nonzero_address "action.token" token ;;
      Ok (None, deadline)
  | AttestAppStore shot_id bundle_id_hash store_id evolution_head _ deadline =>
      nonzero_bytes32 "action.shot_id" (shot_bytes shot_id) ;;
      nonzero_bytes32 "action.bundle_id_hash" bundle_id_hash ;;
      fail_if (store_id == 0%Z) (invalid "action.store_id" "must not be zero") ;;
      nonzero_bytes32 "action.evolution_head" evolution_head ;;
      Ok (None, deadline)
  end.

Definition public_nonce (a : PublicAction) : Z :=
  match a with
  | CreateShot _ _ _ _ _ _ nonce _ | AppendEvolution _ _ _ _ _ nonce _
  | TransferShotV1 _ _ _ _ _ nonce _ | SetPublicState _ _ _ _ _ nonce _ | ClaimHandle _ _ nonce _
  | ReleaseHandle _ _ nonce _ | AssociateAppcoin _ _ _ nonce _ | RemoveAppcoin _ _ _ nonce _
  | AttestAppStore _ _ _ _ nonce _ => nonce
  end.

(** The last match of [PublicAction::validate]. *)
Definition public_numbers_validate (a : PublicAction) : result unit :=
  match a with
  | AssociateAppcoin _ chain_id _ _ _ | RemoveAppcoin _ chain_id _ _ _ =>
      fail_if (MAX_SAFE_JSON_INTEGER <? chain_id)
        (invalid "action.chain_id" "must be a JavaScript-safe integer")
  | AttestAppStore _ _ store_id _ _ _ =>
      fail_if (MAX_SAFE_JSON_INTEGER <? store_id)
        (invalid "action.store_id" "must be a JavaScript-safe integer")
  | _ => Ok tt
  end.

Definition public_validate (a : PublicAction) : result unit :=
  '(sequence, deadline) ← public_fields_validate a;
  fail_if (sequence == Some 0%Z) (invalid "action.sequence" "must be at least 1") ;;
  fail_if (is_some_and (λ value, MAX_SAFE_JSON_INTEGER <? value) sequence)
    (invalid "action.sequence" "must be a JavaScript-safe integer") ;;
  fail_if (deadline == 0%Z) (invalid "action.deadline" "must not be zero") ;;
  fail_if ((MAX_SAFE_JSON_INTEGER <? public_nonce a) || (MAX_SAFE_JSON_INTEGER <? deadline))
    (invalid "action" "nonce and deadline must be JavaScript-safe integers") ;;
  public_numbers_validate a.

Definition public_words (a : PublicAction) : list Bytes32 :=
  match a with
  | CreateShot shot_id controller head sequence public_state content_commitment nonce deadline =>
      [shot_bytes shot_id; address_word controller; head; u64_word sequence;
       u8_word (public_state_code public_state); content_commitment; u64_word nonce;
       u64_word deadline]
  | AppendEvolution shot_id previous_head new_head sequence content_commitment nonce deadline =>
      [shot_bytes shot_id; previous_head; new_head; u64_word sequence; content_commitment;
       u64_word nonce; u64_word deadline]
  | TransferShotV1 shot_id current_controller new_controller current_head sequence nonce deadline =>
      [shot_bytes shot_id; address_word current_controller; address_word new_controller;
       current_head; u64_word sequence; u64_word nonce; u64_word deadline]
  | SetPublicState shot_id current_head sequence public_state content_commitment nonce deadline =>
      [shot_bytes shot_id; current_head; u64_word sequence;
       u8_word (public_state_code public_state); content_commitment; u64_word nonce;
       u64_word deadline]
  | ClaimHandle shot_id handle_hash nonce deadline
  | ReleaseHandle shot_id handle_hash nonce deadline =>
      [shot_bytes shot_id; handle_hash; u64_word nonce; u64_word deadline]
  | AssociateAppcoin shot_id chain_id token nonce deadline
  | RemoveAppcoin shot_id chain_id token nonce deadline =>
      [shot_bytes shot_id; u64_word chain_id; address_word token; u64_word nonce;
       u64_word deadline]
  | AttestAppStore shot_id bundle_id_hash store_id evolution_head nonce deadline =>
      [shot_bytes shot_id; bundle_id_hash; u64_word store_id; evolution_head; u64_word nonce;
       u64_word deadline]
  end.

Section public.
Context `{Keccak}.

Definition public_struct_hash (a : PublicAction) : result Bytes32 :=
  public_validate a ;;
  Ok (hash_words (type_hash (public_type_string a) :: public_words a)).

Definition public_digest (d : Eip712Domain) (a : PublicAction) : result Bytes32 :=
  validate_for (expected_domain_name a) d ;;
  struct_hash ← public_struct_hash a;
  Ok (eip712_digest (separator d) struct_hash).
End public.

Record SignedPublicAction := {
  spa_schema : string;
  spa_domain : Eip712Domain;
  spa_action : PublicAction;
  spa_signer : P256PublicKey;
  spa_authorization : DetachedP256Signature }.

Definition signed_public_verify `{Platform} `{Keccak} (s : SignedPublicAction) : result unit :=
  fail_if (spa_schema s != PUBLIC_ACTION_SCHEMA)
    (invalid "public_action.schema" ("must be " +:+ PUBLIC_ACTION_SCHEMA)) ;;
  key_validate (spa_signer s) ;;
  detached_validate (spa_authorization s) ;;
  digest ← public_digest (spa_domain s) (spa_action s);
  fail_if (digest != detached_digest (spa_authorization s)) DigestMismatch ;;
  verify_digest (spa_signer s) digest (detached_signature (spa_authorization s)).
