(* ===== verification/AccountActions.v ===== *)
(** * Signed actions of builder accounts

    The rest of [protocol/src/actions.rs]: the actions on the devices and the
    recovery authority of a builder account, in the retired generation
    ([DeviceAction]) and in the active one ([BuilderAccountActionV2]). *)
From S2P Require Import Prelude Text Digest Keys Records Ontology Eip712 RegistryActions.

(** ** The checks both generations share *)

Section shared.
Context `{Platform} `{Keccak}.

(** A proposed key and its identifier. *)
Definition proposed_key_validate (field reason : string) (key_id x y : Bytes32) : result unit :=
  let key := {| key_x := x; key_y := y |} in
  key_validate key ;;
  fail_if (key_id != device_key_id key) (invalid field reason).

(** [*permissions == 0 || *permissions & !PERMISSION_ALL != 0] *)
Definition permissions_validate (permissions : Z) : result unit :=
  fail_if ((permissions == 0%Z)
           || (Z.land permissions (Z.lxor U32_MAX PERMISSION_ALL) != 0%Z))
    (invalid "action.permissions" "must contain only PROTOCOL=1 and DEVICE_ADMIN=2").

(** The checks after the match of each [validate]. *)
Definition account_times_validate (account : Address20) (nonce deadline : Z) : result unit :=
  nonzero_address "action.account" account ;;
  fail_if (deadline == 0%Z) (invalid "action.deadline" "must not be zero") ;;
  fail_if ((MAX_SAFE_JSON_INTEGER <? nonce) || (MAX_SAFE_JSON_INTEGER <? deadline))
    (invalid "action" "nonce and deadline must be JavaScript-safe integers").
End shared.

(** ** The retired generation *)

Inductive DeviceAction : Type :=
  | AuthorizeDevice (account : Address20) (key_id x y : Bytes32) (permissions nonce deadline : Z)
  | RevokeDevice (account : Address20) (key_id : Bytes32) (nonce deadline : Z)
  | SetRecovery (account recovery : Address20) (nonce deadline : Z)
  | RecoverAccount (account current_recovery new_recovery : Address20)
      (new_key_id new_x new_y : Bytes32) (nonce deadline : Z).

Definition device_type_string (a : DeviceAction) : string :=
  match a with
  | AuthorizeDevice _ _ _ _ _ _ _ => AUTHORIZE_DEVICE_TYPE
  | RevokeDevice _ _ _ _ => REVOKE_DEVICE_TYPE
  | SetRecovery _ _ _ _ => SET_RECOVERY_TYPE
  | RecoverAccount _ _ _ _ _ _ _ _ => RECOVER_ACCOUNT_TYPE
  end.

Definition device_words (a : DeviceAction) : list Bytes32 :=
  match a with
  | AuthorizeDevice account key_id x y permissions nonce deadline =>
      [address_word account; key_id; x; y; u32_word permissions; u64_word nonce; u64_word deadline]
  | RevokeDevice account key_id nonce deadline =>
      [address_word account; key_id; u64_word nonce; u64_word deadline]
  | SetRecovery account recovery nonce deadline =>
      [address_word account; address_word recovery; u64_word nonce; u64_word deadline]
  | RecoverAccount account current_recovery new_recovery new_key_id new_x new_y nonce deadline =>
      [address_word account; address_word current_recovery; address_word new_recovery; new_key_id;
       new_x; new_y; u64_word nonce; u64_word deadline]
  end.

Section device.
Context `{Platform} `{Keccak}.

Definition device_fields_validate (a : DeviceAction) : result (Address20 * Z * Z) :=
  match a with
  | AuthorizeDevice account key_id x y permissions nonce deadline =>
      proposed_key_validate "action.key_id" "does not match the proposed public key" key_id x y ;;
      permissions_validate permissions ;;
      Ok (account, nonce, deadline)
  | RevokeDevice account key_id nonce deadline =>
      nonzero_bytes32 "action.key_id" key_id ;;
      Ok (account, nonce, deadline)
  | SetRecovery account recovery nonce deadline =>
      nonzero_address "action.recovery" recovery ;;
      Ok (account, nonce, deadline)
  | RecoverAccount account current_recovery new_recovery new_key_id new_x new_y nonce deadline =>
      nonzero_address "action.current_recovery" current_recovery ;;
      nonzero_address "action.new_recovery" new_recovery ;;
      proposed_key_validate "action.new_key_id" "does not match the replacement public key"
        new_key_id new_x new_y ;;
      Ok (account, nonce, deadline)
  end.

Definition device_validate (a : DeviceAction) : result unit :=
  '(account, nonce, deadline) ← device_fields_validate a;
  account_times_validate account nonce deadline.

Definition device_struct_hash (a : DeviceAction) : result Bytes32 :=
  device_validate a ;;
  Ok (hash_words (type_hash (device_type_string a) :: device_words a)).

Definition device_digest (d : Eip712Domain) (a : DeviceAction) : result Bytes32 :=
  validate_for BUILDER_ACCOUNT_DOMAIN d ;;
  struct_hash ← device_struct_hash a;
  Ok (eip712_digest (separator d) struct_hash).
End device.

(** ** The active generation *)

Inductive BuilderAccountActionV2 : Type :=
  | AuthorizeDeviceV2 (account : Address20) (key_id x y : Bytes32)
      (permissions nonce deadline : Z)
  | RevokeDeviceV2 (account : Address20) (key_id : Bytes32) (nonce deadline : Z)
  | SetRecoveryV2 (account recovery : Address20) (nonce deadline : Z)
  | ChangeRecovery (account current_recovery new_recovery : Address20) (nonce deadline : Z)
  | InitiateRecovery (account current_recovery new_recovery : Address20)
      (new_key_id new_x new_y : Bytes32) (nonce deadline : Z)
  | CancelRecovery (account : Address20) (recovery_id : Bytes32) (nonce deadline : Z).

Inductive BuilderAccountActionAuthority : Type := DeviceAdmin | RecoveryAuthorityOnly.

Definition account_type_string (a : BuilderAccountActionV2) : string :=
  match a with
  | AuthorizeDeviceV2 _ _ _ _ _ _ _ => AUTHORIZE_DEVICE_TYPE
  | RevokeDeviceV2 _ _ _ _ => REVOKE_DEVICE_TYPE
  | SetRecoveryV2 _ _ _ _ => SET_RECOVERY_TYPE
  | ChangeRecovery _ _ _ _ _ => CHANGE_RECOVERY_TYPE
  | InitiateRecovery _ _ _ _ _ _ _ _ => INITIATE_RECOVERY_TYPE
  | CancelRecovery _ _ _ _ => CANCEL_RECOVERY_TYPE
  end.

Definition account_action_authority (a : BuilderAccountActionV2) : BuilderAccountActionAuthority :=
  match a with
  | InitiateRecovery _ _ _ _ _ _ _ _ => RecoveryAuthorityOnly
  | AuthorizeDeviceV2 _ _ _ _ _ _ _ | RevokeDeviceV2 _ _ _ _ | SetRecoveryV2 _ _ _ _
  | ChangeRecovery _ _ _ _ _ | CancelRecovery _ _ _ _ => DeviceAdmin
  end.

Definition account_words (a : BuilderAccountActionV2) : list Bytes32 :=
  match a with
  | AuthorizeDeviceV2 account key_id x y permissions nonce deadline =>
      [address_word account; key_id; x; y; u32_word permissions; u64_word nonce; u64_word deadline]
  | RevokeDeviceV2 account key_id nonce deadline =>
      [address_word account; key_id; u64_word nonce; u64_word deadline]
  | SetRecoveryV2 account recovery nonce deadline =>
      [address_word account; address_word recovery; u64_word nonce; u64_word deadline]
  | ChangeRecovery account current_recovery new_recovery nonce deadline =>
      [address_word account; address_word current_recovery; address_word new_recovery;
       u64_word nonce; u64_word deadline]
  | InitiateRecovery account current_recovery new_recovery new_key_id new_x new_y nonce deadline =>
      [address_word account; address_word current_recovery; address_word new_recovery; new_key_id;
       new_x; new_y; u64_word nonce; u64_word deadline]
  | CancelRecovery account recovery_id nonce deadline =>
      [address_word account; recovery_id; u64_word nonce; u64_word deadline]
  end.

(** The account an action is about. *)
Definition action_account (a : BuilderAccountActionV2) : Address20 :=
  match a with
  | AuthorizeDeviceV2 account _ _ _ _ _ _ | RevokeDeviceV2 account _ _ _
  | SetRecoveryV2 account _ _ _ | ChangeRecovery account _ _ _ _
  | InitiateRecovery account _ _ _ _ _ _ _ | CancelRecovery account _ _ _ => account
  end.

Section account.
Context `{Platform} `{Keccak}.

Definition account_fields_validate (a : BuilderAccountActionV2) : result (Address20 * Z * Z) :=
  match a with
  | AuthorizeDeviceV2 account key_id x y permissions nonce deadline =>
      proposed_key_validate "action.key_id" "does not match the proposed public key" key_id x y ;;
      permissions_validate permissions ;;
      Ok (account, nonce, deadline)
  | RevokeDeviceV2 account key_id nonce deadline =>
      nonzero_bytes32 "action.key_id" key_id ;;
      Ok (account, nonce, deadline)
  | SetRecoveryV2 account recovery nonce deadline =>
      nonzero_address "action.recovery" recovery ;;
      fail_if (recovery == account) (invalid "action.recovery" "must differ from action.account") ;;
      Ok (account, nonce, deadline)
  | ChangeRecovery account current_recovery new_recovery nonce deadline =>
      nonzero_address "action.current_recovery" current_recovery ;;
      nonzero_address "action.new_recovery" new_recovery ;;
      fail_if (current_recovery == account)
        (invalid "action.current_recovery" "must differ from action.account") ;;
      fail_if (new_recovery == account)
        (invalid "action.new_recovery" "must differ from action.account") ;;
      Ok (account, nonce, deadline)
  | InitiateRecovery account current_recovery new_recovery new_key_id new_x new_y nonce deadline =>
      nonzero_address "action.current_recovery" current_recovery ;;
      nonzero_address "action.new_recovery" new_recovery ;;
      fail_if (current_recovery == account)
        (invalid "action.current_recovery" "must differ from action.account") ;;
      fail_if (new_recovery == account)
        (invalid "action.new_recovery" "must differ from action.account") ;;
      proposed_key_validate "action.new_key_id" "does not match the replacement public key"
        new_key_id new_x new_y ;;
      Ok (account, nonce, deadline)
  | CancelRecovery account recovery_id nonce deadline =>
      nonzero_bytes32 "action.recovery_id" recovery_id ;;
      Ok (account, nonce, deadline)
  end.

Definition account_validate (a : BuilderAccountActionV2) : result unit :=
  '(account, nonce, deadline) ← account_fields_validate a;
  account_times_validate account nonce deadline.

Definition account_struct_hash (a : BuilderAccountActionV2) : result Bytes32 :=
  account_validate a ;;
  Ok (hash_words (type_hash (account_type_string a) :: account_words a)).

Definition account_digest (d : Eip712Domain) (a : BuilderAccountActionV2) : result Bytes32 :=
  validate_for BUILDER_ACCOUNT_DOMAIN d ;;
  fail_if (action_account a != do_verifying_contract d)
    (invalid "action.account" "must equal domain.verifying_contract") ;;
  struct_hash ← account_struct_hash a;
  Ok (eip712_digest (separator d) struct_hash).
End account.
