(* ===== verification/RegistryLaws.v ===== *)
(** * What a signed action binds

    The digest of an action determines the action and the domain it was signed
    for, unless the hash collides on what was hashed; so a signature cannot be
    moved to another action, another contract, another chain or another
    generation. *)
From S2P Require Import Prelude Text Digest Keys Records Ontology Eip712 RegistryActions AccountActions.

(** ** The families of actions *)

(** What the digest of a family of signed actions is made of: a type string and
    the words of the fields, which determine an action whose integers have
    their machine widths; and the domain that validation lets through. *)
Class SignedAction (A : Type) `{Platform} `{Keccak} := {
  act_type : A -> string;
  act_words : A -> list Bytes32;
  act_digest : Eip712Domain -> A -> result Bytes32;
  act_widths : A -> Prop;
  act_words_inj : forall a b, act_widths a -> act_widths b ->
    act_type a = act_type b -> act_words a = act_words b -> a = b;
  act_digest_Ok : forall d a h, act_digest d a = Ok h ->
    do_chain_id d = ROBINHOOD_CHAIN_ID /\
    h = eip712_digest (separator d) (hash_words (type_hash (act_type a) :: act_words a)) }.

(** What is hashed on the way to a digest. *)
Definition hashed `{SignedAction A} (d : Eip712Domain) (a : A) : list (list Z) :=
  preimages d (act_type a) (act_words a).

Lemma digest_binds_fact `{SignedAction A} `{!SignedAction B} d1 (a : A) d2 (b : B) h :
  act_digest d1 a = Ok h -> act_digest d2 b = Ok h ->
  no_collision (hashed d1 a) (hashed d2 b) ->
  d1 = d2 /\ act_type a = act_type b /\ act_words a = act_words b.
Proof.
  intros (Hc1&Ha)%act_digest_Ok (Hc2&Hb)%act_digest_Ok Hn.
  eapply typed_digest_inj; [| |exact Hn|congruence]; rewrite ?Hc1, ?Hc2; done.
Qed.

Lemma digest_binds `{SignedAction A} d1 (a : A) d2 b h : act_widths a -> act_widths b ->
  act_digest d1 a = Ok h -> act_digest d2 b = Ok h ->
  no_collision (hashed d1 a) (hashed d2 b) -> d1 = d2 /\ a = b.
Proof.
  intros Hwa Hwb Ha Hb Hn. destruct (digest_binds_fact _ _ _ _ _ Ha Hb Hn) as (->&Et&Ew).
  split; [done|]. by apply act_words_inj.
Qed.

(** ** Widths *)

Definition registry_widths (a : RegistryActionV2) : Prop :=
  match a with
  | RegisterShot _ _ _ _ nonce deadline => is_u64 nonce /\ is_u64 deadline
  | AppendCheckpoint _ _ _ checkpoint_sequence nonce deadline
  | TransferShot _ _ _ _ checkpoint_sequence nonce deadline =>
      is_u64 checkpoint_sequence /\ is_u64 nonce /\ is_u64 deadline
  end.

Definition public_widths (a : PublicAction) : Prop :=
  match a with
  | CreateShot _ _ _ sequence _ _ nonce deadline | AppendEvolution _ _ _ sequence _ nonce deadline
  | TransferShotV1 _ _ _ _ sequence nonce deadline | SetPublicState _ _ sequence _ _ nonce deadline
  | AssociateAppcoin _ sequence _ nonce deadline | RemoveAppcoin _ sequence _ nonce deadline
  | AttestAppStore _ _ sequence _ nonce deadline =>
      is_u64 sequence /\ is_u64 nonce /\ is_u64 deadline
  | ClaimHandle _ _ nonce deadline | ReleaseHandle _ _ nonce deadline =>
      is_u64 nonce /\ is_u64 deadline
  end.

Definition device_widths (a : DeviceAction) : Prop :=
  match a with
  | AuthorizeDevice _ _ _ _ permissions nonce deadline =>
      is_u32 permissions /\ is_u64 nonce /\ is_u64 deadline
  | RevokeDevice _ _ nonce deadline | SetRecovery _ _ nonce deadline
  | RecoverAccount _ _ _ _ _ _ nonce deadline => is_u64 nonce /\ is_u64 deadline
  end.

Definition account_widths (a : BuilderAccountActionV2) : Prop :=
  match a with
  | AuthorizeDeviceV2 _ _ _ _ permissions nonce deadline =>
      is_u32 permissions /\ is_u64 nonce /\ is_u64 deadline
  | RevokeDeviceV2 _ _ nonce deadline | SetRecoveryV2 _ _ nonce deadline
  | ChangeRecovery _ _ _ nonce deadline | InitiateRecovery _ _ _ _ _ _ nonce deadline
  | CancelRecovery _ _ nonce deadline => is_u64 nonce /\ is_u64 deadline
  end.

(** Equal words make equal fields. *)
Ltac fields_inj :=
  repeat match goal with
  | H : _ /\ _ |- _ => destruct H
  | H : u64_word _ = u64_word _ |- _ => apply u64_word_inj in H; [subst|assumption..]
  | H : u32_word _ = u32_word _ |- _ => apply u32_word_inj in H; [subst|assumption..]
  | H : address_word _ = address_word _ |- _ => apply address_word_inj in H; subst
  | x : ShotId |- _ => destruct x
  end.

(** Constructors with the same type string coincide. *)
Ltac same_type E := first [discriminate E | clear E].

Lemma u8_state_inj a b : u8_word (public_state_code a) = u8_word (public_state_code b) -> a = b.
Proof. destruct a, b; try done; intros E%(f_equal as_bytes); by vm_compute in E. Qed.

Section families.
Context `{Platform} `{Keccak}.

Lemma registry_words_inj a b : registry_widths a -> registry_widths b ->
  registry_type_string a = registry_type_string b -> registry_words a = registry_words b -> a = b.
Proof.
  destruct a, b; intros Ha Hb E; same_type E; intros [=]; simpl in *; fields_inj; simpl in *; congruence.
Qed.

Lemma public_words_inj a b : public_widths a -> public_widths b ->
  public_type_string a = public_type_string b -> public_words a = public_words b -> a = b.
Proof.
  destruct a, b; intros Ha Hb E; same_type E; intros [=]; simpl in *; fields_inj;
    repeat match goal with H : u8_word _ = _ |- _ => apply u8_state_inj in H end;
    simpl in *; congruence.
Qed.

Lemma device_words_inj a b : device_widths a -> device_widths b ->
  device_type_string a = device_type_string b -> device_words a = device_words b -> a = b.
Proof.
  destruct a, b; intros Ha Hb E; same_type E; intros [=]; simpl in *; fields_inj; simpl in *; congruence.
Qed.

Lemma account_words_inj a b : account_widths a -> account_widths b ->
  account_type_string a = account_type_string b -> account_words a = account_words b -> a = b.
Proof.
  destruct a, b; intros Ha Hb E; same_type E; intros [=]; simpl in *; fields_inj; simpl in *; congruence.
Qed.

Lemma validate_for_version_Ok name version d u : validate_for_version name version d = Ok u ->
  do_name d = name /\ do_version d = version /\ do_chain_id d = ROBINHOOD_CHAIN_ID /\
  address_is_zero (do_verifying_contract d) = false.
Proof. unfold validate_for_version. intros Hv. res_inv. done. Qed.

Lemma registry_digest_Ok d a h : registry_digest d a = Ok h ->
  do_chain_id d = ROBINHOOD_CHAIN_ID /\
  h = eip712_digest (separator d) (hash_words (type_hash (registry_type_string a) :: registry_words a)).
Proof.
  unfold registry_digest, registry_struct_hash. intros Hd.
  apply bind_Ok in Hd as (?&(_&_&?&_)%validate_for_version_Ok&Hd). split; [done|].
  apply bind_Ok in Hd as (?&Hs&[= <-]). by apply bind_Ok in Hs as (?&_&[= <-]).
Qed.

Lemma public_digest_Ok d a h : public_digest d a = Ok h ->
  do_chain_id d = ROBINHOOD_CHAIN_ID /\
  h = eip712_digest (separator d) (hash_words (type_hash (public_type_string a) :: public_words a)).
Proof.
  unfold public_digest, public_struct_hash. intros Hd.
  apply bind_Ok in Hd as (?&(_&_&?&_)%validate_for_version_Ok&Hd). split; [done|].
  apply bind_Ok in Hd as (?&Hs&[= <-]). by apply bind_Ok in Hs as (?&_&[= <-]).
Qed.

Lemma device_digest_Ok d a h : device_digest d a = Ok h ->
  do_chain_id d = ROBINHOOD_CHAIN_ID /\
  h = eip712_digest (separator d) (hash_words (type_hash (device_type_string a) :: device_words a)).
Proof.
  unfold device_digest, device_struct_hash. intros Hd.
  apply bind_Ok in Hd as (?&(_&_&?&_)%validate_for_version_Ok&Hd). split; [done|].
  apply bind_Ok in Hd as (?&Hs&[= <-]). by apply bind_Ok in Hs as (?&_&[= <-]).
Qed.

Lemma account_digest_Ok d a h : account_digest d a = Ok h ->
  do_chain_id d = ROBINHOOD_CHAIN_ID /\
  h = eip712_digest (separator d) (hash_words (type_hash (account_type_string a) :: account_words a)).
Proof.
  unfold account_digest, account_struct_hash. intros Hd.
  apply bind_Ok in Hd as (?&(_&_&?&_)%validate_for_version_Ok&Hd). split; [done|].
  apply bind_Ok in Hd as (?&_&Hd).
  apply bind_Ok in Hd as (?&Hs&[= <-]). by apply bind_Ok in Hs as (?&_&[= <-]).
Qed.

#[export] Instance registry_action : SignedAction RegistryActionV2 := {|
  act_type := registry_type_string; act_words := registry_words; act_digest := registry_digest;
  act_widths := registry_widths; act_words_inj := registry_words_inj;
  act_digest_Ok := registry_digest_Ok |}.
#[export] Instance public_action : SignedAction PublicAction := {|
  act_type := public_type_string; act_words := public_words; act_digest := public_digest;
  act_widths := public_widths; act_words_inj := public_words_inj;
  act_digest_Ok := public_digest_Ok |}.
#[export] Instance device_action : SignedAction DeviceAction := {|
  act_type := device_type_string; act_words := device_words; act_digest := device_digest;
  act_widths := device_widths; act_words_inj := device_words_inj;
  act_digest_Ok := device_digest_Ok |}.
#[export] Instance account_action : SignedAction BuilderAccountActionV2 := {|
  act_type := account_type_string; act_words := account_words; act_digest := account_digest;
  act_widths := account_widths; act_words_inj := account_words_inj;
  act_digest_Ok := account_digest_Ok |}.

(** [C24] The digest of a registry action determines the action and the domain: two
    digests are equal only for the same action on the same contract, chain and
    version, if the hash does not collide on what is hashed for them. *)
Theorem registry_digest_binds d1 a1 d2 a2 h : registry_widths a1 -> registry_widths a2 ->
  registry_digest d1 a1 = Ok h -> registry_digest d2 a2 = Ok h ->
  no_collision (hashed d1 a1) (hashed d2 a2) -> d1 = d2 /\ a1 = a2.
Proof. exact (digest_binds (A := RegistryActionV2) d1 a1 d2 a2 h). Qed.

(** No signature crosses generations: a digest of an action of the active
    registry is never the digest of an action of the retired contracts, nor is
    the digest of a registry action ever that of an action on an account. *)
Theorem generations_are_separate d1 (a : RegistryActionV2) d2 h : registry_digest d1 a = Ok h ->
  (forall b : PublicAction, no_collision (hashed d1 a) (hashed d2 b) -> public_digest d2 b <> Ok h) /\
  (forall b : DeviceAction, no_collision (hashed d1 a) (hashed d2 b) -> device_digest d2 b <> Ok h) /\
  (forall b : BuilderAccountActionV2,
     no_collision (hashed d1 a) (hashed d2 b) -> account_digest d2 b <> Ok h).
Proof.
  intros Ha. change (act_digest d1 a = Ok h) in Ha. split_and!; intros b Hn Hb.
  - change (act_digest d2 b = Ok h) in Hb.
    destruct (digest_binds_fact d1 a d2 b h Ha Hb Hn) as (_&E&_).
    destruct a, b; discriminate E.
  - change (act_digest d2 b = Ok h) in Hb.
    destruct (digest_binds_fact d1 a d2 b h Ha Hb Hn) as (_&E&_).
    destruct a, b; discriminate E.
  - change (act_digest d2 b = Ok h) in Hb.
    destruct (digest_binds_fact d1 a d2 b h Ha Hb Hn)
      as (_&E&_). destruct a, b; discriminate E.
Qed.

(** An account action is bound to its account: its digest exists only under a
    domain whose contract is the account, and determines both. *)
Theorem account_digest_binds d1 a1 d2 a2 h : account_widths a1 -> account_widths a2 ->
  account_digest d1 a1 = Ok h -> account_digest d2 a2 = Ok h ->
  no_collision (hashed d1 a1) (hashed d2 a2) ->
  d1 = d2 /\ a1 = a2 /\ do_verifying_contract d1 = action_account a1.
Proof.
  intros Hw1 Hw2 Hd1 Hd2 Hn.
  assert (d1 = d2 /\ a1 = a2) as [-> ->]
    by exact (digest_binds (A := BuilderAccountActionV2) d1 a1 d2 a2 h Hw1 Hw2 Hd1 Hd2 Hn).
  split_and!; [done..|]. unfold account_digest in Hd1. apply bind_Ok in Hd1 as (?&_&Hd1).
  apply bind_Ok in Hd1 as (?&Hf&_). by res_inv.
Qed.
End families.
