(* ===== verification/PublicCheckpoint.v ===== *)
(** * Public checkpoints

    [protocol/src/public_checkpoint.rs]: the ancestry-free records whose
    commitments are the heads of the registry, the registry actions that bind
    them, and verified segments. *)
From S2P Require Import Prelude Text Digest Keys Records Ontology Lineage Eip712 RegistryActions RegistryLaws.

Definition PUBLIC_CHECKPOINT_PROTOCOL : string := "tohseno".
Definition PUBLIC_CHECKPOINT_PROTOCOL_VERSION : string := "2".
Definition PUBLIC_CHECKPOINT_SCHEMA : string := "tohseno.public-checkpoint/1".
Definition PUBLIC_CHECKPOINT_CONTRACT_GENERATION : string := "0.8.0".

Inductive PublicCheckpointScope := ShotIdentityContinuity.
#[export] Instance PublicCheckpointScope_eq_dec : EqDecision PublicCheckpointScope.
Proof. solve_decision. Defined.
#[export] Instance PublicCheckpointScope_to_json : ToJson PublicCheckpointScope :=
  λ _, JStr "shot_identity_continuity".

Record PublicCheckpointWitness := {
  wi_contract_generation : string;
  wi_chain_id : Z;
  wi_registry : Address20 }.
#[export] Instance PublicCheckpointWitness_eq_dec : EqDecision PublicCheckpointWitness.
Proof. solve_decision. Defined.
#[export] Instance PublicCheckpointWitness_to_json : ToJson PublicCheckpointWitness := λ w, JObj
  [("contract_generation", to_json (wi_contract_generation w));
   ("chain_id", to_json (wi_chain_id w)); ("registry", to_json (wi_registry w))].

Definition witness_validate (w : PublicCheckpointWitness) : result unit :=
  fail_if (wi_contract_generation w != PUBLIC_CHECKPOINT_CONTRACT_GENERATION)
    (invalid "public_checkpoint.witness.contract_generation"
       ("must be " +:+ PUBLIC_CHECKPOINT_CONTRACT_GENERATION)) ;;
  fail_if (wi_chain_id w != ROBINHOOD_CHAIN_ID)
    (invalid "public_checkpoint.witness.chain_id" ("must be " +:+ pretty ROBINHOOD_CHAIN_ID)) ;;
  fail_if (address_is_zero (wi_registry w))
    (invalid "public_checkpoint.witness.registry" "must not be the zero address").

Record PublicCheckpoint := {
  pc_protocol : string;
  pc_protocol_version : string;
  pc_schema : string;
  pc_scope : PublicCheckpointScope;
  pc_witness : PublicCheckpointWitness;
  pc_shot_id : ShotId;
  pc_checkpoint_sequence : Z;
  pc_previous_checkpoint : option Bytes32;
  pc_issued_at : CanonicalTimestamp }.
#[export] Instance PublicCheckpoint_eq_dec : EqDecision PublicCheckpoint.
Proof. solve_decision. Defined.
#[export] Instance PublicCheckpoint_to_json : ToJson PublicCheckpoint := λ c, JObj
  [("protocol", to_json (pc_protocol c)); ("protocol_version", to_json (pc_protocol_version c));
   ("schema", to_json (pc_schema c)); ("scope", to_json (pc_scope c));
   ("witness", to_json (pc_witness c)); ("shot_id", to_json (pc_shot_id c));
   ("checkpoint_sequence", to_json (pc_checkpoint_sequence c));
   ("previous_checkpoint", to_json (pc_previous_checkpoint c));
   ("issued_at", to_json (pc_issued_at c))].

(** Whether the predecessor fits the sequence. *)
Definition predecessor_validate (sequence : Z) (previous : option Bytes32) : result unit :=
  match previous with
  | None =>
      fail_if (sequence != 1%Z) (invalid "public_checkpoint.previous_checkpoint"
        "a continuation must name the prior public checkpoint")
  | Some value =>
      fail_if (sequence == 1%Z) (invalid "public_checkpoint.previous_checkpoint"
        "checkpoint 1 must not claim a predecessor") ;;
      fail_if (value == ZERO)
        (invalid "public_checkpoint.previous_checkpoint" "must not be zero")
  end.

Definition checkpoint_validate (c : PublicCheckpoint) : result unit :=
  fail_if (pc_protocol c != PUBLIC_CHECKPOINT_PROTOCOL)
    (invalid "public_checkpoint.protocol" ("must be " +:+ PUBLIC_CHECKPOINT_PROTOCOL)) ;;
  fail_if (pc_protocol_version c != PUBLIC_CHECKPOINT_PROTOCOL_VERSION)
    (invalid "public_checkpoint.protocol_version"
       ("must be " +:+ PUBLIC_CHECKPOINT_PROTOCOL_VERSION)) ;;
  fail_if (pc_schema c != PUBLIC_CHECKPOINT_SCHEMA)
    (invalid "public_checkpoint.schema" ("must be " +:+ PUBLIC_CHECKPOINT_SCHEMA)) ;;
  witness_validate (pc_witness c) ;;
  fail_if (shot_is_zero (pc_shot_id c)) (invalid "public_checkpoint.shot_id" "must not be zero") ;;
  fail_if (not_positive_safe (pc_checkpoint_sequence c))
    (invalid "public_checkpoint.checkpoint_sequence" "must be a positive JavaScript-safe integer") ;;
  predecessor_validate (pc_checkpoint_sequence c) (pc_previous_checkpoint c).

Definition checkpoint_new (witness : PublicCheckpointWitness) (shot_id : ShotId) (sequence : Z)
    (previous : option Bytes32) (issued_at : CanonicalTimestamp) : result PublicCheckpoint :=
  let checkpoint := {| pc_protocol := PUBLIC_CHECKPOINT_PROTOCOL;
    pc_protocol_version := PUBLIC_CHECKPOINT_PROTOCOL_VERSION;
    pc_schema := PUBLIC_CHECKPOINT_SCHEMA; pc_scope := ShotIdentityContinuity;
    pc_witness := witness; pc_shot_id := shot_id; pc_checkpoint_sequence := sequence;
    pc_previous_checkpoint := previous; pc_issued_at := issued_at |} in
  checkpoint_validate checkpoint ;;
  Ok checkpoint.

Record PublicCheckpointAnchor := {
  ca_witness : PublicCheckpointWitness;
  ca_shot_id : ShotId;
  ca_checkpoint_sequence : Z;
  ca_head : Bytes32;
  ca_issued_at : CanonicalTimestamp }.

Record VerifiedPublicCheckpointSegment := {
  vs_witness : PublicCheckpointWitness;
  vs_shot_id : ShotId;
  vs_first_checkpoint_sequence : Z;
  vs_last_checkpoint_sequence : Z;
  vs_head : Bytes32;
  vs_complete_from_registration : bool }.

Section checkpoint.
Context `{Platform}.

Definition checkpoint_commitment (c : PublicCheckpoint) : result Bytes32 :=
  checkpoint_validate c ;;
  sha256_commitment c.

Definition validate_registry_action (c : PublicCheckpoint) (a : RegistryActionV2)
    (d : Eip712Domain) : result unit :=
  checkpoint_validate c ;;
  registry_validate a ;;
  validate_for_version SHOT_REGISTRY_DOMAIN SHOT_REGISTRY_V2_EIP712_VERSION d ;;
  fail_if ((do_chain_id d != wi_chain_id (pc_witness c))
           || (do_verifying_contract d != wi_registry (pc_witness c)))
    (invalid "public_checkpoint.witness" "must equal the registry action domain") ;;
  head ← checkpoint_commitment c;
  let unbound := invalid "public_checkpoint.registry_action" "does not bind this checkpoint exactly" in
  match a with
  | RegisterShot shot_id _ action_head _ _ _ =>
      fail_if (negb ((shot_id == pc_shot_id c) && (action_head == head)
                     && (pc_checkpoint_sequence c == 1%Z)
                     && opt_is_none (pc_previous_checkpoint c))) unbound
  | AppendCheckpoint shot_id previous_head new_head checkpoint_sequence _ _ =>
      fail_if (negb ((shot_id == pc_shot_id c)
                     && (pc_previous_checkpoint c == Some previous_head)
                     && (new_head == head)
                     && (checkpoint_sequence == pc_checkpoint_sequence c))) unbound
  | TransferShot _ _ _ _ _ _ _ =>
      Err (invalid "public_checkpoint.registry_action"
             "a transfer preserves the current public checkpoint")
  end.

(** The variables of the loop of [verify_public_checkpoint_segment]. *)
Record CheckpointCursor := {
  cc_expected_sequence : Z;
  cc_expected_previous : option Bytes32;
  cc_prior_time : option Z }.

Definition segment_error (reason : string) : ProtocolError :=
  invalid "public_checkpoint.segment" reason.

Definition checkpoint_step (witness : PublicCheckpointWitness) (shot_id : ShotId)
    (cursor : CheckpointCursor) (c : PublicCheckpoint) : result CheckpointCursor :=
  checkpoint_validate c ;;
  fail_if (pc_witness c != witness) (segment_error "witness coordinates changed") ;;
  fail_if (pc_shot_id c != shot_id) (segment_error "ShotID changed") ;;
  fail_if (pc_checkpoint_sequence c != cc_expected_sequence cursor)
    (segment_error "sequence is not contiguous") ;;
  fail_if (pc_previous_checkpoint c != cc_expected_previous cursor)
    (segment_error "predecessor does not match") ;;
  fail_if (is_some_and (λ value, unix_timestamp (pc_issued_at c) <? value) (cc_prior_time cursor))
    (segment_error "timestamp moved backwards") ;;
  commitment ← checkpoint_commitment c;
  expected ← ok_or (segment_error "sequence overflowed")
    (checked_add_u64 (cc_expected_sequence cursor) 1);
  Ok {| cc_expected_sequence := expected; cc_expected_previous := Some commitment;
        cc_prior_time := Some (unix_timestamp (pc_issued_at c)) |}.

(** The cursor before the loop. *)
Definition checkpoint_cursor (first : PublicCheckpoint) (anchor : option PublicCheckpointAnchor)
    : result CheckpointCursor :=
  expected_sequence ←
    match anchor with
    | Some value => ok_or (segment_error "anchor sequence overflowed")
                      (checked_add_u64 (ca_checkpoint_sequence value) 1)
    | None => Ok (pc_checkpoint_sequence first)
    end;
  Ok {| cc_expected_sequence := expected_sequence;
        cc_expected_previous :=
          match anchor with Some value => Some (ca_head value) | None => pc_previous_checkpoint first end;
        cc_prior_time := (λ value, unix_timestamp (ca_issued_at value)) <$> anchor |}.

Definition complete_from_registration (first : PublicCheckpoint)
    (anchor : option PublicCheckpointAnchor) : bool :=
  opt_is_none anchor && (pc_checkpoint_sequence first == 1%Z)
  && opt_is_none (pc_previous_checkpoint first).

Definition verify_public_checkpoint_segment (checkpoints : list PublicCheckpoint)
    (anchor : option PublicCheckpointAnchor) : result VerifiedPublicCheckpointSegment :=
  match checkpoints with
  | [] => Err (segment_error "must not be empty")
  | first :: rest =>
      let witness := pc_witness first in
      let shot_id := pc_shot_id first in
      cursor ← checkpoint_cursor first anchor;
      fail_if (is_some_and (λ value, ca_shot_id value != shot_id) anchor)
        (segment_error "anchor ShotID differs") ;;
      fail_if (is_some_and (λ value, ca_witness value != witness) anchor)
        (segment_error "anchor witness differs") ;;
      final ← try_fold (checkpoint_step witness shot_id) cursor checkpoints;
      Ok {| vs_witness := witness; vs_shot_id := shot_id;
            vs_first_checkpoint_sequence := pc_checkpoint_sequence first;
            vs_last_checkpoint_sequence := pc_checkpoint_sequence (List.last rest first);
            vs_head := default ZERO (cc_expected_previous final);
            vs_complete_from_registration := complete_from_registration first anchor |}
  end.
End checkpoint.
Arguments checkpoint_validate : simpl never.
Arguments checkpoint_commitment : simpl never.
Arguments checkpoint_step : simpl never.
