(* ===== verification/PublicCheckpointLaws.v ===== *)
(** * Laws of public checkpoints

    What a verified segment of checkpoints is, that its head commits to the
    whole public history of a Shot, and that the registry actions bound to the
    checkpoints of a history are exactly the registration and the appends that
    lead the registry through its commitments. *)
From S2P Require Import Prelude Text Digest Keys Records Ontology Lineage Eip712 RegistryActions RegistryLaws PublicCheckpoint.

(** ** Segments *)

Section laws.
Context `{Platform}.

(** [c] may follow [prior], whose commitment is [head]. *)
Record continues (witness : PublicCheckpointWitness) (shot_id : ShotId) (sequence : Z)
    (head : Bytes32) (time : Z) (c : PublicCheckpoint) : Prop := {
  co_valid : checkpoint_validate c = Ok tt;
  co_witness : pc_witness c = witness;
  co_shot : pc_shot_id c = shot_id;
  co_sequence : pc_checkpoint_sequence c = (sequence + 1)%Z;
  co_previous : pc_previous_checkpoint c = Some head;
  co_time : (time <= unix_timestamp (pc_issued_at c))%Z }.

Definition succeeds (prior c : PublicCheckpoint) : Prop :=
  exists head, checkpoint_commitment prior = Ok head /\
    continues (pc_witness prior) (pc_shot_id prior) (pc_checkpoint_sequence prior) head
      (unix_timestamp (pc_issued_at prior)) c.

(** What the boundary requires of the first checkpoint. *)
Definition starts_at (anchor : option PublicCheckpointAnchor) (first : PublicCheckpoint) : Prop :=
  match anchor with
  | Some a => continues (ca_witness a) (ca_shot_id a) (ca_checkpoint_sequence a) (ca_head a)
                (unix_timestamp (ca_issued_at a)) first
  | None => checkpoint_validate first = Ok tt
  end.

(** Each checkpoint succeeds the one before it. *)
Fixpoint succession (first : PublicCheckpoint) (rest : list PublicCheckpoint) : Prop :=
  match rest with
  | [] => True
  | c :: rest => succeeds first c /\ succession c rest
  end.

Definition cursor_at (c : PublicCheckpoint) (head : Bytes32) : CheckpointCursor :=
  {| cc_expected_sequence := pc_checkpoint_sequence c + 1; cc_expected_previous := Some head;
     cc_prior_time := Some (unix_timestamp (pc_issued_at c)) |}.

Lemma checkpoint_sequence_bound c : checkpoint_validate c = Ok tt ->
  (pc_checkpoint_sequence c <> 0)%Z /\ (pc_checkpoint_sequence c <= MAX_SAFE_JSON_INTEGER)%Z.
Proof. unfold checkpoint_validate, not_positive_safe. intros Hv. res_inv. done. Qed.

Lemma commitment_valid c head : checkpoint_commitment c = Ok head -> checkpoint_validate c = Ok tt.
Proof. unfold checkpoint_commitment. intros Hc. by apply bind_Ok in Hc as ([]&?&_). Qed.

Lemma checkpoint_step_Ok witness shot cu c cu' :
  checkpoint_step witness shot cu c = Ok cu' <->
  pc_witness c = witness /\ pc_shot_id c = shot /\
  pc_checkpoint_sequence c = cc_expected_sequence cu /\
  pc_previous_checkpoint c = cc_expected_previous cu /\
  (forall t, cc_prior_time cu = Some t -> (t <= unix_timestamp (pc_issued_at c))%Z) /\
  exists head, checkpoint_commitment c = Ok head /\ cu' = cursor_at c head.
Proof.
  unfold checkpoint_step. split.
  - intros Hs. res_inv.
    match goal with H : checked_add_u64 _ _ = _ |- _ =>
      unfold checked_add_u64, checked_add in H; case_match; [|done] end.
    simplify_eq. split_and!; try done.
    + intros t Ht. rewrite Ht in *. simpl in *. by res_inv.
    + eexists. split; [done|]. unfold cursor_at. congruence.
  - intros (<-&<-&Hq&Hp&Ht&head&Hc&->). pose proof (commitment_valid _ _ Hc) as Hv. rewrite Hv, Hc.
    cbn [mbind Result_bind]. rewrite !bool_decide_eq_true_2 by done. simpl.
    assert (is_some_and (λ value, unix_timestamp (pc_issued_at c) <? value) (cc_prior_time cu) = false)
      as ->. { destruct (cc_prior_time cu); [|done]. simpl. apply Z.ltb_ge. auto. }
    simpl. rewrite <- Hq. unfold checked_add_u64, checked_add.
    destruct (checkpoint_sequence_bound _ Hv) as [_ Hb].
    rewrite (proj2 (Z.leb_le _ _)); [done|]. unfold U64_MAX, MAX_SAFE_JSON_INTEGER in *. lia.
Qed.

(** The loop, once it has passed the checkpoint [c0]. *)
Lemma checkpoint_fold rest : forall c0 head0 cu, checkpoint_commitment c0 = Ok head0 ->
  try_fold (checkpoint_step (pc_witness c0) (pc_shot_id c0)) (cursor_at c0 head0) rest = Ok cu <->
  succession c0 rest /\ exists head, checkpoint_commitment (List.last rest c0) = Ok head /\
    cu = cursor_at (List.last rest c0) head.
Proof.
  induction rest as [|c rest IH]; intros c0 head0 cu Hc0.
  { simpl. split; [intros [= <-]; eauto|]. intros (_&head&Hh&->). congruence. }
  rewrite list_last_cons. cbn [try_fold succession]. rewrite bind_Ok. split.
  - intros (cu1&(Hw&Hs&Hq&Hp&Ht&head&Hc&->)%checkpoint_step_Ok&Hf). simpl in *.
    rewrite <- Hw, <- Hs in Hf. apply (IH _ _ _ Hc) in Hf as [Hsuc Hex]. split; [|done].
    split; [|done]. exists head0. split; [done|].
    constructor; try done; [by eapply commitment_valid|by apply Ht].
  - intros [[(h&Hh&[Hv Hw Hs Hq Hp Ht]) Hsuc] Hex]. rewrite Hc0 in Hh. injection Hh as <-.
    assert (exists head, checkpoint_commitment c = Ok head) as [head Hc].
    { destruct rest as [|c' rest]; simpl in Hex; [by destruct Hex as (head&?&_); exists head|].
      destruct Hsuc as [(head&?&_) _]. by exists head. }
    exists (cursor_at c head). split.
    + apply checkpoint_step_Ok. split_and!; try done; [by intros t [= <-]|by exists head].
    + rewrite <- Hw, <- Hs. by apply (IH _ _ _ Hc).
Qed.

(** The declarative reading of [verify_public_checkpoint_segment]. *)
Record is_checkpoint_segment (checkpoints : list PublicCheckpoint)
    (anchor : option PublicCheckpointAnchor) (v : VerifiedPublicCheckpointSegment) : Prop := {
  cs_shape : exists first rest, checkpoints = first :: rest /\
    starts_at anchor first /\ succession first rest /\
    vs_witness v = pc_witness first /\ vs_shot_id v = pc_shot_id first /\
    vs_first_checkpoint_sequence v = pc_checkpoint_sequence first /\
    vs_last_checkpoint_sequence v = pc_checkpoint_sequence (List.last rest first) /\
    checkpoint_commitment (List.last rest first) = Ok (vs_head v) /\
    vs_complete_from_registration v = complete_from_registration first anchor }.

Lemma first_step anchor c cu head : checkpoint_cursor c anchor = Ok cu ->
  checkpoint_commitment c = Ok head ->
  is_some_and (λ value, ca_shot_id value != pc_shot_id c) anchor = false ->
  is_some_and (λ value, ca_witness value != pc_witness c) anchor = false ->
  starts_at anchor c <->
  checkpoint_step (pc_witness c) (pc_shot_id c) cu c = Ok (cursor_at c head).
Proof.
  intros Hcu Hc Hs Hw. pose proof (commitment_valid _ _ Hc). rewrite checkpoint_step_Ok.
  unfold checkpoint_cursor in Hcu. destruct anchor as [a|]; simpl in *; res_inv; simplify_eq; simpl.
  - match goal with H : checked_add_u64 _ _ = _ |- _ =>
      unfold checked_add_u64, checked_add in H; case_match; [|done]; simplify_eq end.
    split.
    + intros [? ? ? ? ? ?]. split_and!; try done; [by intros t [= <-]|eauto].
    + intros (?&?&?&?&Ht&_). constructor; auto.
  - split; [|done]. intros _. split_and!; try done. eauto.
Qed.

Lemma segment_commitments first rest : succession first rest ->
  (exists head, checkpoint_commitment (List.last rest first) = Ok head) ->
  exists head, checkpoint_commitment first = Ok head.
Proof. destruct rest as [|c rest]; simpl; [done|]. intros [(head&?&_) _] _. by exists head. Qed.

Lemma checkpoint_segment_spec_fact checkpoints anchor v :
  verify_public_checkpoint_segment checkpoints anchor = Ok v <->
  is_checkpoint_segment checkpoints anchor v.
Proof.
  destruct checkpoints as [|c l]; [split; [done|by intros [(?&?&?&_)]]|].
  unfold verify_public_checkpoint_segment. cbn [try_fold]. split.
  - intros Hv. res_inv. constructor. exists c, l.
    match goal with H : checkpoint_step _ _ _ _ = Ok ?cu |- _ =>
      pose proof H as Hst; apply checkpoint_step_Ok in H as (_&_&_&_&_&head&Hc&->) end.
    match goal with H : try_fold _ _ _ = _ |- _ =>
      apply (checkpoint_fold l c head _ Hc) in H as (Hsuc&head'&Hh&->) end.
    simpl. split_and!; try done.
    match goal with H : checkpoint_cursor _ _ = Ok ?cu |- _ =>
      eapply (first_step _ _ _ _ H Hc) end; try done.
  - intros [(f&r&[= <- <-]&Hst&Hsuc&H1&H2&H3&H4&Hh&H5)].
    destruct (segment_commitments _ _ Hsuc (ex_intro _ _ Hh)) as [head Hc].
    pose proof (commitment_valid _ _ Hc) as Hv. destruct (checkpoint_sequence_bound _ Hv) as [_ Hb].
    assert (exists cu, checkpoint_cursor c anchor = Ok cu) as [cu Hcu].
    { unfold checkpoint_cursor. destruct anchor as [a|]; [|by eexists].
      destruct Hst as [_ _ _ Hq _ _]. unfold checked_add_u64, checked_add.
      rewrite (proj2 (Z.leb_le _ _)); [by eexists|].
      unfold U64_MAX, MAX_SAFE_JSON_INTEGER in *. lia. }
    assert (is_some_and (λ value, ca_shot_id value != pc_shot_id c) anchor = false) as Hsh.
    { destruct anchor as [a|]; [|done]. simpl. destruct Hst as [_ _ -> _ _ _].
      by rewrite bool_decide_eq_true_2. }
    assert (is_some_and (λ value, ca_witness value != pc_witness c) anchor = false) as Hwi.
    { destruct anchor as [a|]; [|done]. simpl. destruct Hst as [_ -> _ _ _ _].
      by rewrite bool_decide_eq_true_2. }
    rewrite Hcu, Hsh, Hwi. cbn [fail_if mbind Result_bind].
    rewrite (proj1 (first_step _ _ _ _ Hcu Hc Hsh Hwi) Hst). cbn [mbind Result_bind].
    rewrite (proj2 (checkpoint_fold l c head _ Hc) (conj Hsuc (ex_intro _ _ (conj Hh eq_refl)))).
    cbn [mbind Result_bind]. destruct v; simpl in *. by subst.
Qed.

(** [verify_public_checkpoint_segment] accepts exactly the nonempty segments
    whose first checkpoint is valid and continues the anchor when there is one,
    and in which every further checkpoint is valid, keeps the witness and the
    Shot, has the next sequence, names the commitment of the one before it and
    is not older; it returns the bounds, the commitment of the last checkpoint
    and whether the segment starts at the registration. *)
Theorem checkpoint_segment_spec checkpoints anchor v :
  verify_public_checkpoint_segment checkpoints anchor = Ok v <->
  is_checkpoint_segment checkpoints anchor v.
Proof. by apply checkpoint_segment_spec_fact. Qed.

(** ** The head commits to the history *)

Lemma succession_linked first rest : succession first rest ->
  pc_previous_checkpoint first = None ->
  linked pc_previous_checkpoint checkpoint_commitment (first :: rest).
Proof.
  intros Hs Hf. split; [by intros a [= <-]|]. clear Hf. revert first Hs.
  induction rest as [|c rest IH]; intros first Hs [|k] a b Ha Hb; simpl in *; try done.
  - injection Ha as <-. injection Hb as <-. destruct Hs as [(head&?&[_ _ _ _ ? _]) _]. by exists head.
  - destruct Hs as [_ Hs]. by eapply (IH c Hs k).
Qed.

(** The head of a segment that starts at the registration commits to the whole
    public history: two such segments with the same head are the same, unless
    commitments collide on their checkpoints. *)
Theorem checkpoint_head_binds xs ys v w :
  verify_public_checkpoint_segment xs None = Ok v ->
  verify_public_checkpoint_segment ys None = Ok w ->
  vs_complete_from_registration v = true -> vs_complete_from_registration w = true ->
  vs_head v = vs_head w -> collision_free checkpoint_commitment xs ys -> xs = ys.
Proof.
  intros Hx Hy. apply checkpoint_segment_spec_fact in Hx, Hy.
  destruct Hx as [(f&r&->&_&Hs&_&_&_&_&Hh&->)], Hy as [(f'&r'&->&_&Hs'&_&_&_&_&Hh'&->)].
  unfold complete_from_registration. simpl. intros Hc Hc' E Hcf. res_inv.
  assert (List.last r f = List.last r' f') as El.
  { apply Hcf; [apply last_Some_elem_of, last_cons_default..|]. congruence. }
  eapply (linked_last_eq pc_previous_checkpoint checkpoint_commitment); try done.
  - apply succession_linked; [done|]. by destruct (pc_previous_checkpoint f).
  - apply succession_linked; [done|]. by destruct (pc_previous_checkpoint f').
  - apply last_cons_default.
  - rewrite El. apply last_cons_default.
Qed.

(** ** Registry actions *)

(** The heads an action leads the registry from and to. *)
Definition heads_of (a : RegistryActionV2) : option Bytes32 * Bytes32 :=
  match a with
  | RegisterShot _ _ head _ _ _ => (None, head)
  | AppendCheckpoint _ previous_head new_head _ _ _ => (Some previous_head, new_head)
  | TransferShot _ _ _ current_head _ _ _ => (Some current_head, current_head)
  end.

Definition action_shot (a : RegistryActionV2) : ShotId :=
  match a with
  | RegisterShot shot_id _ _ _ _ _ | AppendCheckpoint shot_id _ _ _ _ _
  | TransferShot shot_id _ _ _ _ _ _ => shot_id
  end.

(** What [validate_registry_action] accepts. *)
Lemma registry_action_binds c a d :
  validate_registry_action c a d = Ok tt <->
  checkpoint_validate c = Ok tt /\ registry_validate a = Ok tt /\
  validate_for_version SHOT_REGISTRY_DOMAIN SHOT_REGISTRY_V2_EIP712_VERSION d = Ok tt /\
  do_chain_id d = wi_chain_id (pc_witness c) /\
  do_verifying_contract d = wi_registry (pc_witness c) /\
  action_shot a = pc_shot_id c /\
  exists head, checkpoint_commitment c = Ok head /\ heads_of a = (pc_previous_checkpoint c, head) /\
    match a with
    | RegisterShot _ _ _ _ _ _ => pc_checkpoint_sequence c = 1%Z
    | AppendCheckpoint _ _ _ sequence _ _ => sequence = pc_checkpoint_sequence c
    | TransferShot _ _ _ _ _ _ _ => False
    end.
Proof.
  unfold validate_registry_action. split.
  - intros Hv. destruct a; simpl in Hv |- *; res_inv; try done; simplify_eq; split_and!; try done;
      eexists; (split; [done|]); (split; [|done]).
    + by destruct (pc_previous_checkpoint c).
    + congruence.
  - intros (->&->&->&Hc&Hr&Hs&head&->&Hh&Hm). cbn [mbind Result_bind].
    rewrite Hc, Hr, (bool_decide_eq_true_2 (wi_chain_id _ = _)),
      (bool_decide_eq_true_2 (wi_registry _ = _)) by done. simpl.
    destruct a; simpl in *; [| |done]; simplify_eq; rewrite ?bool_decide_eq_true_2 by done; simpl.
    + destruct (pc_previous_checkpoint c); done.
    + done.
Qed.

(** The registry follows a sequence of actions: each starts at the head the
    previous one left. *)
Fixpoint registry_run (head : option Bytes32) (actions : list RegistryActionV2) : option Bytes32 :=
  match actions with
  | [] => head
  | a :: actions =>
      if bool_decide ((heads_of a).1 = head) then registry_run (Some (heads_of a).2) actions
      else None
  end.

Lemma registry_run_follows rest : forall first actions d head,
  succession first rest -> checkpoint_commitment first = Ok head ->
  Forall2 (λ c a, validate_registry_action c a d = Ok tt) rest actions ->
  exists last_head, checkpoint_commitment (List.last rest first) = Ok last_head /\
    registry_run (Some head) actions = Some last_head.
Proof.
  induction rest as [|c rest IH]; intros first actions d head Hs Hc Hf.
  { inversion Hf; subst. by exists head. }
  inversion Hf as [|? a ? actions' Ha Hf']; subst. destruct Hs as [(h&Hh&[_ _ _ _ Hp _]) Hs].
  rewrite Hc in Hh. injection Hh as <-.
  apply registry_action_binds in Ha as (_&_&_&_&_&_&head'&Hc'&Hha&_).
  rewrite list_last_cons. cbn [registry_run]. rewrite Hha. simpl. rewrite Hp, bool_decide_eq_true_2 by done.
  by apply (IH c actions' d head').
Qed.

(** [C23] The actions bound to a public history are its registration and its
    appends: for a verified history from the registration, with one registry
    action bound to each checkpoint, the first action registers the Shot, every
    other one appends to it with the next checkpoint sequence, all are about
    its Shot, and running them leads the registry through the history, from no
    head to the head of the segment. *)
Theorem public_history_on_registry xs v actions d :
  verify_public_checkpoint_segment xs None = Ok v -> vs_complete_from_registration v = true ->
  Forall2 (λ c a, validate_registry_action c a d = Ok tt) xs actions ->
  registry_run None actions = Some (vs_head v) /\
  Forall (λ a, action_shot a = vs_shot_id v) actions /\
  (forall k a, actions !! k = Some a ->
     match a with
     | RegisterShot _ _ _ _ _ _ => k = 0
     | AppendCheckpoint _ _ _ sequence _ _ => (1 <= k) /\ sequence = (1 + Z.of_nat k)%Z
     | TransferShot _ _ _ _ _ _ _ => False
     end).
Proof.
  intros Hx%checkpoint_segment_spec_fact Hcomp Hf.
  destruct Hx as [(f&r&->&_&Hs&_&Hsh&_&_&Hh&Hv)]. rewrite Hv in Hcomp. clear Hv.
  unfold complete_from_registration in Hcomp. simpl in Hcomp. res_inv.
  assert (forall k c, (f :: r) !! k = Some c -> pc_shot_id c = pc_shot_id f /\
    pc_checkpoint_sequence c = (1 + Z.of_nat k)%Z) as Hpos.
  { match goal with H : pc_checkpoint_sequence f = _ |- _ => revert H end.
    clear -Hs. assert (forall rest c0 n, succession c0 rest -> pc_checkpoint_sequence c0 = n ->
      forall k c, (c0 :: rest) !! k = Some c -> pc_shot_id c = pc_shot_id c0 /\
        pc_checkpoint_sequence c = (n + Z.of_nat k)%Z) as Hgen.
    { induction rest as [|c1 rest IH]; intros c0 n Hsuc Hn [|k] c Hk; simpl in *; try done;
        try (injection Hk as <-; split; [done|lia]).
      destruct Hsuc as [(h&_&[_ _ Hsh Hq _ _]) Hsuc]. destruct (IH _ _ Hsuc eq_refl _ _ Hk) as [? ->].
      split; [congruence|]. rewrite Hq. lia. }
    intros Hf0. by apply Hgen. }
  split; [|split].
  - inversion Hf as [|? a ? actions' Ha Hf']; subst.
    apply registry_action_binds in Ha as (_&_&_&_&_&_&head&Hc&Hha&_).
    cbn [registry_run]. rewrite Hha. simpl.
    destruct (pc_previous_checkpoint f); [done|]. rewrite bool_decide_eq_true_2 by done.
    destruct (registry_run_follows r f actions' d head Hs Hc Hf') as (l&Hl&->). congruence.
  - apply Forall_lookup. intros k a Ha.
    destruct (Forall2_lookup_r _ _ _ _ _ Hf Ha) as (c&Hc&Hb).
    apply registry_action_binds in Hb as (_&_&_&_&_&->&_). rewrite Hsh. by apply (Hpos k c).
  - intros k a Ha. destruct (Forall2_lookup_r _ _ _ _ _ Hf Ha) as (c&Hc&Hb).
    destruct (Hpos k c Hc) as [_ Hq].
    apply registry_action_binds in Hb as (_&_&_&_&_&_&head&_&Hha&Hm). destruct a; simpl in *; [lia| |done].
    split; [|congruence]. destruct k as [|k]; [|lia]. injection Hc as <-. injection Hha as Hp _.
    by destruct (pc_previous_checkpoint f).
Qed.
End laws.
