(* ===== verification/Continuity.v ===== *)
(** * Continuity proofs

    [protocol/src/continuity.rs]: expiring, scoped statements that one
    installation signs for another. *)
From S2P Require Import Prelude Text Digest Keys Records Ontology Eip712.

Definition CONTINUITY_SCHEMA : string := "tohseno.continuity/1".
Definition CONTINUITY_STATEMENT_SCHEMA : string := "tohseno.continuity-statement/1".

Record ContinuityAudience := { au_shot_id : ShotId; au_installation_id : option Bytes32 }.
#[export] Instance ContinuityAudience_to_json : ToJson ContinuityAudience := λ a, JObj
  [("shot_id", to_json (au_shot_id a)); ("installation_id", to_json (au_installation_id a))].

Record ContinuityStatement := {
  ct_schema : string;
  ct_issuer : InstallationIdentity;
  ct_audience : ContinuityAudience;
  ct_originating_shot_id : ShotId;
  ct_claims : list string;
  ct_nonce : Bytes32;
  ct_issued_at : Z;
  ct_expires_at : Z }.
#[export] Instance ContinuityStatement_to_json : ToJson ContinuityStatement := λ s, JObj
  [("schema", to_json (ct_schema s)); ("issuer", to_json (ct_issuer s));
   ("audience", to_json (ct_audience s));
   ("originating_shot_id", to_json (ct_originating_shot_id s));
   ("claims", to_json (ct_claims s)); ("nonce", to_json (ct_nonce s));
   ("issued_at", to_json (ct_issued_at s)); ("expires_at", to_json (ct_expires_at s))].

Record ContinuityEnvelope := {
  ce_schema : string;
  ce_statement : ContinuityStatement;
  ce_signature : DetachedP256Signature }.

(** [b'.' | b'_' | b'-'] *)
Definition is_separator (b : Z) : bool := (b =? 46)%Z || (b =? 95)%Z || (b =? 45)%Z.
(** The loop of [validate_claim]; returns the final [previous_separator]. *)
Fixpoint claim_loop (first previous_separator : bool) (bytes : list Z) : result bool :=
  match bytes with
  | [] => Ok previous_separator
  | byte :: bytes =>
      let separator := is_separator byte in
      fail_if (negb (is_ascii_lowercase byte || is_ascii_digit byte || separator)
               || (separator && (first || previous_separator)))
        (invalid "continuity.claim" "must be a lowercase scoped token") ;;
      claim_loop false separator bytes
  end.

Definition validate_claim (value : string) : result unit :=
  validate_token "continuity.claim" value 1 64 ;;
  previous_separator ← claim_loop true false (bytes_of value);
  fail_if previous_separator (invalid "continuity.claim" "must not end with punctuation").

(** The loop over the claims: each against the one before it. *)
Fixpoint claims_loop (prior : option string) (claims : list string) : result unit :=
  match claims with
  | [] => Ok tt
  | claim :: claims =>
      validate_claim claim ;;
      fail_if (is_some_and (λ p, bytes_leb (bytes_of claim) (bytes_of p)) prior)
        (invalid "continuity.claims"
           "must be unique and strictly sorted in ASCII lexicographic order") ;;
      claims_loop (Some claim) claims
  end.

Section continuity.
Context `{Platform} `{Keccak}.

Definition continuity_statement_validate (s : ContinuityStatement) : result unit :=
  fail_if (ct_schema s != CONTINUITY_STATEMENT_SCHEMA)
    (invalid "continuity.statement.schema" ("must be " +:+ CONTINUITY_STATEMENT_SCHEMA)) ;;
  installation_validate (ct_issuer s) ;;
  fail_if (shot_is_zero (au_shot_id (ct_audience s)) || shot_is_zero (ct_originating_shot_id s))
    (invalid "continuity.shot_id" "audience and originating ShotIDs must not be zero") ;;
  fail_if ((length (ct_claims s) =? 0)%nat || (16 <? length (ct_claims s))%nat)
    (invalid "continuity.claims" "must contain 1..=16 scoped claim tokens") ;;
  claims_loop None (ct_claims s) ;;
  fail_if (ct_nonce s == ZERO) (invalid "continuity.nonce" "must be a random nonzero value") ;;
  fail_if ((ct_issued_at s == 0%Z) || (ct_expires_at s <=? ct_issued_at s)
           || (MAX_SAFE_JSON_INTEGER <? ct_expires_at s))
    (invalid "continuity.expires_at" "must be a JavaScript-safe Unix timestamp after issued_at").

Definition statement_digest (s : ContinuityStatement) : result Bytes32 :=
  continuity_statement_validate s ;;
  sha256_commitment s.

Definition continuity_verify_at (e : ContinuityEnvelope) (unix_time : Z) : result unit :=
  fail_if (ce_schema e != CONTINUITY_SCHEMA)
    (invalid "continuity.schema" ("must be " +:+ CONTINUITY_SCHEMA)) ;;
  digest ← statement_digest (ce_statement e);
  fail_if (detached_digest (ce_signature e) != digest) DigestMismatch ;;
  detached_verify (ce_signature e) (ii_public_key (ct_issuer (ce_statement e))) ;;
  fail_if ((unix_time <? ct_issued_at (ce_statement e))
           || (ct_expires_at (ce_statement e) <=? unix_time))
    (invalid "continuity.expiration" "proof is not active at the supplied time").

(** What a verified proof establishes: the statement is valid and active, its
    issuer is the installation its key identifies, and that key signed exactly
    this statement. *)
Theorem continuity_proof_genuine e now : continuity_verify_at e now = Ok tt ->
  let s := ce_statement e in let key := ii_public_key (ct_issuer s) in
  (ct_issued_at s <= now < ct_expires_at s)%Z /\
  ii_installation_id (ct_issuer s) = installation_id key /\
  (1 <= length (ct_claims s) <= 16)%nat /\
  exists digest, sha256_commitment s = Ok digest /\
    prehash_verifies (key_x key, key_y key) digest
      (sig_r (detached_signature (ce_signature e)), sig_s (detached_signature (ce_signature e)))
      = true /\
    is_low_s (detached_signature (ce_signature e)) = true.
Proof.
  unfold continuity_verify_at, statement_digest, continuity_statement_validate, installation_validate,
    detached_verify. intros Hv. res_inv.
  match goal with H : verify_digest _ _ _ = _ |- _ => apply verify_digest_Ok in H as (_&_&Hl&Hp) end.
  subst. simpl. split_and!; try done; try lia.
  - match goal with H : (length _ =? 0)%nat = false |- _ => apply Nat.eqb_neq in H; lia end.
  - match goal with H : (16 <? _)%nat = false |- _ => apply Nat.ltb_ge in H; lia end.
  - eexists. split_and!; [done| |done]. congruence.
Qed.
End continuity.
