(* ===== verification/RegistryStory.v ===== *)
(** Concrete trees and a concrete public history: the witnesses of the theorems
    about tree commitments, signed actions, checkpoints and continuity. *)
From S2P Require Import Prelude Text Digest Keys Records Ontology Lineage Story FileTree TreeHash FasciaTree TreeHashLaws Eip712 RegistryActions AccountActions RegistryLaws PublicCheckpoint PublicCheckpointLaws Continuity.

(** * Concrete trees

    A working tree with what a living folder accumulates, the same sources
    listed in another order, a prompt with two images: the witnesses that the
    hypotheses of the theorems about tree commitments can hold. *)

#[local] Existing Instance Toy.platform.

(** Texts that are their own normal form. *)
#[export] Instance ascii_unicode : Unicode := {| nfc := id; to_lowercase := to_ascii_lowercase |}.
#[export] Instance plain_display : TreeDisplay :=
  {| display_under_root := join_path; display_relative := id |}.

(** ** Trees *)

Definition metadata_with (type : FileType) (length : Z) : Metadata :=
  {| md_type := type; md_dev := 1; md_ino := 2; md_len := length; md_mtime := 3; md_mtime_nsec := 4;
     md_ctime := 5; md_ctime_nsec := 6; md_nlink := 1; md_mode := 420 |}.
Definition no_reads : FileReads :=
  {| rd_open := Err "is a directory"; rd_metadata := Err ""; rd_bytes := Err ""; rd_final := Err "" |}.

Definition file_node (text : string) : FsNode :=
  let bytes := bytes_of text in
  let m := metadata_with RegularType (Z.of_nat (length bytes)) in
  MkFsNode (Ok m)
    {| rd_open := Ok tt; rd_metadata := Ok m; rd_bytes := Ok bytes; rd_final := Ok m |}
    (Err "not a directory") NoMoreItems.
Definition dir_node (items : list (string * FsNode)) : FsNode :=
  MkFsNode (Ok (metadata_with DirectoryType 0)) no_reads (Ok tt)
    (foldr (λ i rest, Item i.1 i.2 rest) NoMoreItems items).
Definition special_node (type : FileType) : FsNode :=
  MkFsNode (Ok (metadata_with type 0)) no_reads (Err "not a directory") NoMoreItems.

Definition assets : FsNode := dir_node [("a.json", file_node "{}"); ("b.json", file_node "[]")].
Definition sidecars : FsNode :=
  dir_node [("shot.json", file_node "one"); ("fascia.json", file_node "{}")].
Definition clean_tree : FsNode :=
  dir_node [("App.swift", file_node "struct App {}"); ("Assets", assets); ("TOHSENO", sidecars)].
(** The same sources, listed in another order and with another sidecar. *)
Definition listed_otherwise : FsNode :=
  dir_node
    [("TOHSENO", dir_node [("fascia.json", file_node "{}"); ("shot.json", file_node "two")]);
     ("Assets", dir_node [("b.json", file_node "[]"); ("a.json", file_node "{}")]);
     ("App.swift", file_node "struct App {}")].
(** The sources in a living folder. *)
Definition living_tree : FsNode :=
  dir_node
    [(".DS_Store", file_node "finder"); (".git", special_node SymlinkType);
     ("App.swift", file_node "struct App {}"); ("Assets", assets);
     ("build.log", file_node "log"); ("pipe", special_node OtherType); ("TOHSENO", sidecars)].

Definition digest_of (r : result SourceTreeCommitment) : Bytes32 :=
  match r with Ok c => tc_digest c | Err _ => ZERO end.
Definition fascia_digest_of (r : result FasciaTreeCommitment) : Bytes32 :=
  match r with Ok c => fc_digest c | Err _ => ZERO end.

Example strict_refuses_living : hash_source_tree living_tree = Err (TreeForbidden ".DS_Store").
Proof. vm_compute. reflexivity. Qed.
Example living_is_clean : digest_of (hash_working_tree living_tree) = digest_of (hash_source_tree clean_tree).
Proof. vm_compute. reflexivity. Qed.

(** A directory under the name of a sidecar is passed over with all it holds:
    sources can hide there from the commitment. *)
Definition hiding_tree : FsNode :=
  dir_node [("App.swift", file_node "struct App {}");
            ("TOHSENO", dir_node [("shot.json", dir_node [("Evil.swift", file_node "evil")])])].
Definition hiding_nothing : FsNode :=
  dir_node [("App.swift", file_node "struct App {}");
            ("TOHSENO", dir_node [("shot.json", dir_node [])])].
Example sidecar_directory_hides :
  is_ok (hash_source_tree hiding_tree) = true /\
  digest_of (hash_source_tree hiding_tree) = digest_of (hash_source_tree hiding_nothing).
Proof. vm_compute. done. Qed.

(** ** Witnesses *)

Lemma commitment_exists (r : result SourceTreeCommitment) : is_ok r = true -> exists c, r = Ok c.
Proof. destruct r as [c|]; [by exists c|done]. Qed.

Definition entries_of (r : result SourceTreeCommitment) : list SourceTreeEntry :=
  match r with Ok c => tc_entries c | Err _ => [] end.

Lemma source_commitment_complete_witness : exists c, hash_source_tree clean_tree = Ok c /\
  tc_entries c ≡ₚ (file_entry <$> source_files [] clean_tree).
Proof.
  destruct (commitment_exists (hash_source_tree clean_tree)) as [c Hc]; [vm_compute; reflexivity|].
  exists c. split; [exact Hc|]. exact (proj1 (source_commitment_complete clean_tree c Hc)).
Defined.

Lemma source_digest_identifies_witness : exists c1 c2,
  hash_source_tree clean_tree = Ok c1 /\ hash_source_tree listed_otherwise = Ok c2 /\
  (tc_digest c1 = tc_digest c2 <-> files_but_sidecars clean_tree ≡ₚ files_but_sidecars listed_otherwise).
Proof.
  assert (distinct_hashes sha256
    (source_preimage (entries_of (hash_source_tree clean_tree)) :: (committed_files clean_tree).*2)
    (source_preimage (entries_of (hash_source_tree listed_otherwise))
       :: (committed_files listed_otherwise).*2) = true) as Hd by (vm_compute; reflexivity).
  destruct (commitment_exists (hash_source_tree clean_tree)) as [c1 Hc1]; [vm_compute; reflexivity|].
  destruct (commitment_exists (hash_source_tree listed_otherwise)) as [c2 Hc2];
    [vm_compute; reflexivity|].
  rewrite Hc1, Hc2 in Hd. exists c1, c2. split; [exact Hc1|]. split; [exact Hc2|].
  apply (source_digest_identifies clean_tree listed_otherwise c1 c2 Hc1 Hc2 (distinct_hashes_sound sha256 _ _ Hd)).
  - unfold sidecars_are_files. repeat constructor; vm_compute; reflexivity.
  - unfold sidecars_are_files. repeat constructor; vm_compute; reflexivity.
Defined.

Lemma fascia_digest_identifies_witness : exists c1 c2,
  hash_fascia_tree_with_exclusions clean_tree ["TOHSENO"] = Ok c1 /\
  hash_fascia_tree_with_exclusions listed_otherwise ["TOHSENO"] = Ok c2 /\
  (fc_digest c1 = fc_digest c2 <->
   fascia_files ["TOHSENO"] [] clean_tree ≡ₚ fascia_files ["TOHSENO"] [] listed_otherwise).
Proof.
  assert (distinct_hashes sha256
    [fascia_preimage (file_input <$> fascia_files ["TOHSENO"] [] clean_tree)]
    [fascia_preimage (file_input <$> fascia_files ["TOHSENO"] [] listed_otherwise)] = true)
    as Hd by (vm_compute; reflexivity).
  assert (is_ok (hash_fascia_tree_with_exclusions clean_tree ["TOHSENO"]) = true) as H1
    by (vm_compute; reflexivity).
  assert (is_ok (hash_fascia_tree_with_exclusions listed_otherwise ["TOHSENO"]) = true) as H2
    by (vm_compute; reflexivity).
  destruct (hash_fascia_tree_with_exclusions clean_tree ["TOHSENO"]) as [c1|] eqn:Hc1; [|discriminate H1].
  destruct (hash_fascia_tree_with_exclusions listed_otherwise ["TOHSENO"]) as [c2|] eqn:Hc2;
    [|discriminate H2].
  exists c1, c2. split; [reflexivity|]. split; [reflexivity|].
  apply (fascia_digest_identifies clean_tree listed_otherwise ["TOHSENO"] c1 c2 Hc1 Hc2).
  apply (distinct_hashes_sound sha256 _ _ Hd); left.
Defined.

Definition prompt : list Z := bytes_of "a small tool".
Definition image_a : GenesisImage := {| gi_filename := "a.png"; gi_content_sha256 := filled 32 1 |}.
Definition image_b : GenesisImage := {| gi_filename := "b.png"; gi_content_sha256 := filled 32 2 |}.

Lemma genesis_input_identifies_witness : exists d1 d2,
  genesis_input_sha256 prompt [image_a; image_b] = Ok d1 /\
  genesis_input_sha256 prompt [image_b; image_a] = Ok d2 /\
  (d1 = d2 <-> prompt = prompt /\ [image_a; image_b] ≡ₚ [image_b; image_a]).
Proof.
  assert (distinct_hashes sha256 [genesis_preimage prompt [image_a; image_b]]
    [genesis_preimage prompt [image_b; image_a]] = true) as Hd by (vm_compute; reflexivity).
  assert (is_ok (genesis_input_sha256 prompt [image_a; image_b]) = true) as H1
    by (vm_compute; reflexivity).
  assert (is_ok (genesis_input_sha256 prompt [image_b; image_a]) = true) as H2
    by (vm_compute; reflexivity).
  destruct (genesis_input_sha256 prompt [image_a; image_b]) as [d1|] eqn:Hd1; [|discriminate H1].
  destruct (genesis_input_sha256 prompt [image_b; image_a]) as [d2|] eqn:Hd2; [|discriminate H2].
  exists d1, d2. split; [reflexivity|]. split; [reflexivity|].
  apply (genesis_input_identifies prompt [image_a; image_b] prompt [image_b; image_a] d1 d2 Hd1 Hd2).
  apply (distinct_hashes_sound sha256 _ _ Hd); left.
Defined.

(** * A concrete public history

    Three checkpoints of a Shot with the registry actions bound to them, an
    account action and a continuity proof, on the toy platform with a toy
    Keccak: the witnesses that the hypotheses of the theorems about signed
    actions, checkpoints and continuity can hold. *)

#[local] Existing Instance Toy.platform.

(** Another hash than the one that stands for SHA-256. *)
Definition toy_keccak_hash (bs : list Z) : Bytes32 := Toy.hash (75%Z :: bs).
#[local] Instance toy_keccak : Keccak := {| keccak256 := toy_keccak_hash |}.

(** ** Domains and actions *)

Definition registry_domain : Eip712Domain :=
  {| do_name := SHOT_REGISTRY_DOMAIN; do_version := SHOT_REGISTRY_V2_EIP712_VERSION;
     do_chain_id := ROBINHOOD_CHAIN_ID; do_verifying_contract := MkAddress20 (filled 20 5) |}.
Definition account_domain : Eip712Domain :=
  {| do_name := BUILDER_ACCOUNT_DOMAIN; do_version := EIP712_VERSION;
     do_chain_id := ROBINHOOD_CHAIN_ID; do_verifying_contract := account alice |}.

Definition witness : PublicCheckpointWitness :=
  {| wi_contract_generation := PUBLIC_CHECKPOINT_CONTRACT_GENERATION;
     wi_chain_id := ROBINHOOD_CHAIN_ID; wi_registry := MkAddress20 (filled 20 5) |}.

(** The next checkpoint, and the commitment of the last one. *)
Definition head_of (c : PublicCheckpoint) : Bytes32 := unwrap ZERO (checkpoint_commitment c).
Definition first_checkpoint : PublicCheckpoint :=
  {| pc_protocol := PUBLIC_CHECKPOINT_PROTOCOL;
     pc_protocol_version := PUBLIC_CHECKPOINT_PROTOCOL_VERSION;
     pc_schema := PUBLIC_CHECKPOINT_SCHEMA; pc_scope := ShotIdentityContinuity;
     pc_witness := witness; pc_shot_id := shot; pc_checkpoint_sequence := 1;
     pc_previous_checkpoint := None; pc_issued_at := at_second 1 |}.
Definition next_checkpoint (c : PublicCheckpoint) (sequence : Z) : PublicCheckpoint :=
  unwrap c (checkpoint_new witness shot sequence (Some (head_of c)) (at_second sequence)).
Definition second_checkpoint : PublicCheckpoint := next_checkpoint first_checkpoint 2.
Definition third_checkpoint : PublicCheckpoint := next_checkpoint second_checkpoint 3.
Definition public_history : list PublicCheckpoint :=
  [first_checkpoint; second_checkpoint; third_checkpoint].

Definition registration : RegistryActionV2 :=
  RegisterShot shot (account alice) (head_of first_checkpoint) (filled 32 8) 0 1000.
Definition append (prior c : PublicCheckpoint) : RegistryActionV2 :=
  AppendCheckpoint shot (head_of prior) (head_of c) (pc_checkpoint_sequence c)
    (pc_checkpoint_sequence c) 1000.
Definition registry_actions : list RegistryActionV2 :=
  [registration; append first_checkpoint second_checkpoint;
   append second_checkpoint third_checkpoint].

Definition set_recovery : BuilderAccountActionV2 :=
  SetRecoveryV2 (account alice) (account bob) 3 1000.

Definition is_complete (r : result VerifiedPublicCheckpointSegment) : bool :=
  match r with Ok v => vs_complete_from_registration v | Err _ => false end.

Lemma public_history_evaluates :
  is_complete (verify_public_checkpoint_segment public_history None) = true.
Proof. vm_compute. reflexivity. Qed.

Lemma public_history_segment : exists v,
  verify_public_checkpoint_segment public_history None = Ok v /\
  vs_complete_from_registration v = true.
Proof.
  pose proof public_history_evaluates as He. unfold is_complete in He.
  destruct (verify_public_checkpoint_segment public_history None) as [v|] eqn:E; [|discriminate He].
  exists v. split; [reflexivity|exact He].
Qed.

Lemma history_is_bound :
  Forall2 (λ c a, validate_registry_action c a registry_domain = Ok tt) public_history registry_actions.
Proof.
  do 3 (apply Forall2_cons_2; [vm_compute; reflexivity|]). apply Forall2_nil_2.
Qed.

(** ** Witnesses *)

Lemma registration_widths : registry_widths registration.
Proof. unfold registration, registry_widths, is_u64, U64_MAX. lia. Qed.
Lemma set_recovery_widths : account_widths set_recovery.
Proof. unfold set_recovery, account_widths, is_u64, U64_MAX. lia. Qed.

Lemma registry_digest_binds_witness : exists h,
  registry_digest registry_domain registration = Ok h /\
  (registry_domain = registry_domain /\ registration = registration).
Proof.
  assert (is_ok (registry_digest registry_domain registration) = true) as Hok
    by (vm_compute; reflexivity).
  destruct (registry_digest registry_domain registration) as [h|] eqn:E; [|discriminate Hok].
  exists h. split; [reflexivity|].
  apply (registry_digest_binds registry_domain registration registry_domain registration h);
    [exact registration_widths|exact registration_widths|exact E|exact E|].
  refine (distinct_hashes_sound keccak256 _ _ _). vm_compute. reflexivity.
Defined.

Lemma account_digest_binds_witness : exists h,
  account_digest account_domain set_recovery = Ok h /\
  (account_domain = account_domain /\ set_recovery = set_recovery /\
   do_verifying_contract account_domain = action_account set_recovery).
Proof.
  assert (is_ok (account_digest account_domain set_recovery) = true) as Hok
    by (vm_compute; reflexivity).
  destruct (account_digest account_domain set_recovery) as [h|] eqn:E; [|discriminate Hok].
  exists h. split; [reflexivity|].
  apply (account_digest_binds account_domain set_recovery account_domain set_recovery h);
    [exact set_recovery_widths|exact set_recovery_widths|exact E|exact E|].
  refine (distinct_hashes_sound keccak256 _ _ _). vm_compute. reflexivity.
Defined.

Lemma generations_are_separate_witness : exists h,
  registry_digest registry_domain registration = Ok h /\
  account_digest account_domain set_recovery <> Ok h.
Proof.
  assert (is_ok (registry_digest registry_domain registration) = true) as Hok
    by (vm_compute; reflexivity).
  destruct (registry_digest registry_domain registration) as [h|] eqn:E; [|discriminate Hok].
  exists h. split; [reflexivity|].
  apply (generations_are_separate registry_domain registration account_domain h E).
  refine (distinct_hashes_sound keccak256 _ _ _). vm_compute. reflexivity.
Defined.

Lemma checkpoint_head_binds_witness : exists v,
  verify_public_checkpoint_segment public_history None = Ok v /\ public_history = public_history.
Proof.
  destruct public_history_segment as (v&Hv&Hc). exists v. split; [exact Hv|].
  apply (checkpoint_head_binds public_history public_history v v Hv Hv Hc Hc); [reflexivity|].
  apply NoDup_collision_free. apply (bool_decide_unpack _). vm_compute. exact I.
Defined.

Lemma public_history_on_registry_witness : exists v,
  verify_public_checkpoint_segment public_history None = Ok v /\
  registry_run None registry_actions = Some (vs_head v).
Proof.
  destruct public_history_segment as (v&Hv&Hc). exists v. split; [exact Hv|].
  apply (public_history_on_registry public_history v registry_actions registry_domain Hv Hc
           history_is_bound).
Defined.

(** ** A continuity proof *)

Definition continuity_example : ContinuityStatement := {|
  ct_schema := CONTINUITY_STATEMENT_SCHEMA;
  ct_issuer := {| ii_installation_id := installation_id alice_key; ii_public_key := alice_key |};
  ct_audience := {| au_shot_id := shot; au_installation_id := None |};
  ct_originating_shot_id := shot; ct_claims := ["entitlement.read"; "same-builder"];
  ct_nonce := filled 32 12; ct_issued_at := 100; ct_expires_at := 200 |}.
Definition envelope : ContinuityEnvelope := {|
  ce_schema := CONTINUITY_SCHEMA; ce_statement := continuity_example;
  ce_signature := {| detached_algorithm := P256;
    detached_digest := unwrap ZERO (statement_digest continuity_example);
    detached_signature := {| sig_r := unwrap ZERO (statement_digest continuity_example);
                             sig_s := filled 32 1 |};
    detached_low_s := true |} |}.

Lemma continuity_proof_genuine_witness :
  continuity_verify_at envelope 150 = Ok tt /\
  (1 <= length (ct_claims continuity_example) <= 16)%nat.
Proof.
  assert (continuity_verify_at envelope 150 = Ok tt) as Hv by (vm_compute; reflexivity).
  split; [exact Hv|]. exact (proj1 (proj2 (proj2 (continuity_proof_genuine envelope 150 Hv)))).
Defined.
