(* ===== verification/Clock.v ===== *)
(** * Clocks, durations and calendar dates

    What the application and companion crates use of the [time] crate: instants
    and durations as nanoseconds, calendar dates as day numbers. Parsing and
    formatting are third-party code and stay parameters. *)
From S2P Require Import Prelude Text Digest.

(** An instant in nanoseconds of the Unix epoch; instants are ordered by it. *)
Definition instant (t : OffsetDateTime) : Z :=
  (odt_unix_timestamp t * 1000000000 + odt_nanosecond t)%Z.
(** [Duration::whole_seconds], towards zero. *)
Definition whole_seconds (nanoseconds : Z) : Z := Z.quot nanoseconds 1000000000.
(** [Duration::seconds] *)
Definition seconds (n : Z) : Z := (n * 1000000000)%Z.

(** A calendar date is its day number; [date + Duration::days(n)] adds [n] (and
    panics past the last date the crate represents, which is not modelled). *)
Abbreviation Date := Z (only parsing).

(** [OffsetDateTime::format(&Rfc3339)], [Date::parse] with the description
    [[year]-[month]-[day]], and [Date]'s [Display]. *)
Class TimeFormat := {
  format_rfc3339 : OffsetDateTime -> option string;
  parse_iso_date : string -> option Date;
  display_date : Date -> string }.
