(* ===== verification/NetworkCatalog.v ===== *)
(** * The public catalog

    [network/src/error.rs], [network/src/catalog.rs] and
    [network/src/evidence.rs]: catalog releases with their validation, signed
    releases, and the evidence returned beside one. *)
From S2P Require Import Prelude Text Digest Keys Records Ontology FileTree Eip712.

Inductive NetworkError : Type :=
  | NetworkInvalid (message : string)
  | SecretPath (path : string)
  | SecretContent (path : string)
  | UnsafePath (path : string)
  | Oversized
  | ConcurrentMutation (path : string)
  | NetworkIo (message : string)
  | NetworkJson (message : string)
  | NetworkProtocol (error : ProtocolError).
#[export] Instance NetworkError_eq_dec : EqDecision NetworkError.
Proof. solve_decision. Defined.

Abbreviation network_result := (Result NetworkError).

(** The display of each variant. *)
Definition display_network_error (e : NetworkError) : string :=
  match e with
  | NetworkInvalid m => "invalid network object: " +:+ m
  | SecretPath p => "publication snapshot contains a secret-bearing path: " +:+ p
  | SecretContent p => "publication snapshot contains likely secret material: " +:+ p
  | UnsafePath p => "publication snapshot contains an unsafe path: " +:+ p
  | Oversized => "publication artifact exceeds the supported bound"
  | ConcurrentMutation p => "publication artifact changed while it was being read: " +:+ p
  | NetworkIo m => "I/O error: " +:+ m
  | NetworkJson m => "JSON error: " +:+ m
  | NetworkProtocol e => "protocol error: " +:+ display_error e
  end.

(** [?] on a result of the protocol crate. *)
Definition protocol {T} (r : result T) : network_result T := map_err NetworkProtocol r.

(** [if cond { return invalid(message) }] *)
Definition refuse_if (c : bool) (message : string) : network_result unit :=
  fail_if c (NetworkInvalid message).

(** ** Constants *)

Definition CATALOG_RELEASE_SCHEMA_V1 : string := "tohseno.catalog-release/1".
Definition CATALOG_RELEASE_SCHEMA : string := "tohseno.catalog-release/2".
Definition SIGNED_CATALOG_RELEASE_SCHEMA : string := "tohseno.signed-catalog-release/1".
Definition CONTRACT_GENERATION : string := "0.8.0".
Definition MAX_SAFE_INTEGER : Z := 9007199254740991.

(** ** Validators *)

Definition network_nonzero (name : string) (value : Bytes32) : network_result unit :=
  refuse_if (value == ZERO) (name +:+ " must not be zero").

Definition network_bounded_text (name value : string) (minimum maximum : nat) : network_result unit :=
  refuse_if (negb ((minimum <=? len value)%nat && (len value <=? maximum)%nat)
             || existsb is_control (chars (bytes_of value)))
    (name +:+ " is outside its text bound").

Definition is_identifier_char (b : Z) : bool := is_ascii_lowercase b || is_ascii_digit b || (b =? 45)%Z.
Definition catalog_identifier (name value : string) (minimum maximum : nat) : network_result unit :=
  let bytes := bytes_of value in
  refuse_if (negb ((minimum <=? len value)%nat && (len value <=? maximum)%nat)
             || negb (forallb is_identifier_char bytes)
             || starts_with (bytes_of "-") bytes || ends_with (bytes_of "-") bytes
             || contains_bytes (bytes_of "--") bytes)
    (name +:+ " is invalid").

Definition is_normal (c : Component) : bool := match c with Normal _ => true | _ => false end.
Definition relative_path (name value : string) : network_result unit :=
  refuse_if ((value == "") || bool_decide (92%Z ∈ bytes_of value) || is_absolute value
             || existsb (λ part, negb (is_normal part)) (components value))
    (name +:+ " must be a safe relative path").

Definition bundle_part_ok (part : list Z) : bool :=
  negb (part == []) && forallb (λ b, is_ascii_alphanumeric b || (b =? 45)%Z) part.
Definition bundle_id (value : string) : network_result unit :=
  let parts := split_on 46 (bytes_of value) in
  refuse_if ((255 <? len value)%nat || (length parts <? 2)%nat
             || existsb (λ part, negb (bundle_part_ok part)) parts)
    "original bundle identifier is invalid".

(** The loops over values that must be sorted and unique: each is validated and
    compared with the one before it. *)
Fixpoint sorted_unique_loop {A} (validate : A -> network_result unit) (key : A -> string)
    (message : string) (prior : option string) (values : list A) : network_result unit :=
  match values with
  | [] => Ok tt
  | value :: values =>
      validate value ;;
      refuse_if (is_some_and (λ item, bytes_leb (bytes_of (key value)) (bytes_of item)) prior) message ;;
      sorted_unique_loop validate key message (Some (key value)) values
  end.

(** ** The parts of a release *)

Record CatalogGeneration := {
  cg_contract_generation : string;
  cg_chain_id : Z;
  cg_builder_account_factory : Address20;
  cg_shot_registry : Address20;
  cg_activation_signing_digest : Bytes32 }.

Inductive PublicImageMediaType := Png | Jpeg.
#[export] Instance PublicImageMediaType_eq_dec : EqDecision PublicImageMediaType.
Proof. solve_decision. Defined.
Definition media_type_str (m : PublicImageMediaType) : string :=
  match m with Png => "image/png" | Jpeg => "image/jpeg" end.

Record CatalogScreenshot := {
  cs_sha256 : Bytes32;
  cs_byte_length : Z;
  cs_media_type : PublicImageMediaType }.

Record CatalogDisplay := {
  cd_name : string;
  cd_description : string;
  cd_icon_sha256 : option Bytes32;
  cd_icon_byte_length : option Z;
  cd_icon_media_type : option PublicImageMediaType;
  cd_screenshots : list CatalogScreenshot;
  cd_builder_handle : option string;
  cd_app_slug : option string }.

Inductive SourceArtifactFormat := DeterministicTar.
#[export] Instance SourceArtifactFormat_eq_dec : EqDecision SourceArtifactFormat.
Proof. solve_decision. Defined.

Record SourceArtifact := {
  sa_format : SourceArtifactFormat;
  sa_sha256 : Bytes32;
  sa_byte_length : Z;
  sa_source_tree_sha256 : Bytes32;
  sa_file_count : Z;
  sa_uncompressed_byte_length : Z }.

Inductive XcodeContainerKind := ContainerProject | ContainerWorkspace.
Record DependencyLock := { dl_path : string; dl_sha256 : Bytes32 }.
Inductive BuildSafetyClassification := Green | RequiresMacReview | Unsupported.
#[export] Instance BuildSafetyClassification_eq_dec : EqDecision BuildSafetyClassification.
Proof. solve_decision. Defined.
Record BuildSafety := { bs_classification : BuildSafetyClassification; bs_reasons : list string }.

Record XcodeBuildRecipe := {
  xb_container_kind : XcodeContainerKind;
  xb_container_path : string;
  xb_scheme : string;
  xb_original_bundle_identifier : string;
  xb_minimum_ios : string;
  xb_device_families : list string;
  xb_dependency_locks : list DependencyLock;
  xb_safety : BuildSafety }.

Record ReleasePermissions := {
  rp_install_allowed : bool;
  rp_fork_allowed : bool;
  rp_distributor_rights_declared : bool;
  rp_spdx_license : option string }.

Record CatalogParentRelease := { cp_parent_shot_id : ShotId; cp_parent_release_digest : Bytes32 }.

Record CatalogRelease := {
  cr_schema : string;
  cr_generation : CatalogGeneration;
  cr_shot_id : ShotId;
  cr_builder_id : BuilderId;
  cr_release_id : Bytes32;
  cr_published_at : CanonicalTimestamp;
  cr_display : CatalogDisplay;
  cr_source : SourceArtifact;
  cr_build : XcodeBuildRecipe;
  cr_permissions : ReleasePermissions;
  cr_parent : option CatalogParentRelease;
  cr_checkpoint_sequence : Z;
  cr_public_checkpoint_digest : Bytes32 }.

#[export] Instance CatalogGeneration_eq_dec : EqDecision CatalogGeneration.
Proof. solve_decision. Defined.
#[export] Instance CatalogScreenshot_eq_dec : EqDecision CatalogScreenshot.
Proof. solve_decision. Defined.
#[export] Instance CatalogDisplay_eq_dec : EqDecision CatalogDisplay.
Proof. solve_decision. Defined.
#[export] Instance SourceArtifact_eq_dec : EqDecision SourceArtifact.
Proof. solve_decision. Defined.
#[export] Instance XcodeContainerKind_eq_dec : EqDecision XcodeContainerKind.
Proof. solve_decision. Defined.
#[export] Instance DependencyLock_eq_dec : EqDecision DependencyLock.
Proof. solve_decision. Defined.
#[export] Instance BuildSafety_eq_dec : EqDecision BuildSafety.
Proof. solve_decision. Defined.
#[export] Instance XcodeBuildRecipe_eq_dec : EqDecision XcodeBuildRecipe.
Proof. solve_decision. Defined.
#[export] Instance ReleasePermissions_eq_dec : EqDecision ReleasePermissions.
Proof. solve_decision. Defined.
#[export] Instance CatalogParentRelease_eq_dec : EqDecision CatalogParentRelease.
Proof. solve_decision. Defined.
#[export] Instance CatalogRelease_eq_dec : EqDecision CatalogRelease.
Proof. solve_decision. Defined.

(** ** JSON

    [skip_serializing_if] leaves out an absent icon length and type and an
    empty list of screenshots. *)

#[export] Instance CatalogGeneration_to_json : ToJson CatalogGeneration := λ g, JObj
  [("contract_generation", to_json (cg_contract_generation g)); ("chain_id", to_json (cg_chain_id g));
   ("builder_account_factory", to_json (cg_builder_account_factory g));
   ("shot_registry", to_json (cg_shot_registry g));
   ("activation_signing_digest", to_json (cg_activation_signing_digest g))].
#[export] Instance PublicImageMediaType_to_json : ToJson PublicImageMediaType :=
  λ m, JStr (media_type_str m).
#[export] Instance CatalogScreenshot_to_json : ToJson CatalogScreenshot := λ s, JObj
  [("sha256", to_json (cs_sha256 s)); ("byte_length", to_json (cs_byte_length s));
   ("media_type", to_json (cs_media_type s))].
#[export] Instance CatalogDisplay_to_json : ToJson CatalogDisplay := λ d, JObj
  ([("name", to_json (cd_name d)); ("description", to_json (cd_description d));
    ("icon_sha256", to_json (cd_icon_sha256 d))]
   ++ match cd_icon_byte_length d with Some n => [("icon_byte_length", to_json n)] | None => [] end
   ++ match cd_icon_media_type d with Some m => [("icon_media_type", to_json m)] | None => [] end
   ++ match cd_screenshots d with [] => [] | s => [("screenshots", to_json s)] end
   ++ [("builder_handle", to_json (cd_builder_handle d)); ("app_slug", to_json (cd_app_slug d))]).
#[export] Instance SourceArtifact_to_json : ToJson SourceArtifact := λ s, JObj
  [("format", JStr "deterministic_tar"); ("sha256", to_json (sa_sha256 s));
   ("byte_length", to_json (sa_byte_length s));
   ("source_tree_sha256", to_json (sa_source_tree_sha256 s));
   ("file_count", to_json (sa_file_count s));
   ("uncompressed_byte_length", to_json (sa_uncompressed_byte_length s))].
#[export] Instance XcodeContainerKind_to_json : ToJson XcodeContainerKind := λ k,
  JStr (match k with ContainerProject => "project" | ContainerWorkspace => "workspace" end).
#[export] Instance DependencyLock_to_json : ToJson DependencyLock := λ l, JObj
  [("path", to_json (dl_path l)); ("sha256", to_json (dl_sha256 l))].
#[export] Instance BuildSafetyClassification_to_json : ToJson BuildSafetyClassification := λ c,
  JStr (match c with Green => "green" | RequiresMacReview => "requires_mac_review"
        | Unsupported => "unsupported" end).
#[export] Instance BuildSafety_to_json : ToJson BuildSafety := λ s, JObj
  [("classification", to_json (bs_classification s)); ("reasons", to_json (bs_reasons s))].
#[export] Instance XcodeBuildRecipe_to_json : ToJson XcodeBuildRecipe := λ b, JObj
  [("container_kind", to_json (xb_container_kind b)); ("container_path", to_json (xb_container_path b));
   ("scheme", to_json (xb_scheme b));
   ("original_bundle_identifier", to_json (xb_original_bundle_identifier b));
   ("minimum_ios", to_json (xb_minimum_ios b)); ("device_families", to_json (xb_device_families b));
   ("dependency_locks", to_json (xb_dependency_locks b)); ("safety", to_json (xb_safety b))].
#[export] Instance ReleasePermissions_to_json : ToJson ReleasePermissions := λ p, JObj
  [("install_allowed", to_json (rp_install_allowed p)); ("fork_allowed", to_json (rp_fork_allowed p));
   ("distributor_rights_declared", to_json (rp_distributor_rights_declared p));
   ("spdx_license", to_json (rp_spdx_license p))].
#[export] Instance CatalogParentRelease_to_json : ToJson CatalogParentRelease := λ p, JObj
  [("parent_shot_id", to_json (cp_parent_shot_id p));
   ("parent_release_digest", to_json (cp_parent_release_digest p))].
#[export] Instance CatalogRelease_to_json : ToJson CatalogRelease := λ r, JObj
  [("schema", to_json (cr_schema r)); ("generation", to_json (cr_generation r));
   ("shot_id", to_json (cr_shot_id r)); ("builder_id", to_json (cr_builder_id r));
   ("release_id", to_json (cr_release_id r)); ("published_at", to_json (cr_published_at r));
   ("display", to_json (cr_display r)); ("source", to_json (cr_source r));
   ("build", to_json (cr_build r)); ("permissions", to_json (cr_permissions r));
   ("parent", to_json (cr_parent r)); ("checkpoint_sequence", to_json (cr_checkpoint_sequence r));
   ("public_checkpoint_digest", to_json (cr_public_checkpoint_digest r))].

(** ** Validation *)

Definition generation_validate (g : CatalogGeneration) : network_result unit :=
  refuse_if (cg_contract_generation g != CONTRACT_GENERATION)
    ("contract_generation must be " +:+ CONTRACT_GENERATION) ;;
  refuse_if (cg_chain_id g != ROBINHOOD_CHAIN_ID) ("chain_id must be " +:+ pretty ROBINHOOD_CHAIN_ID) ;;
  refuse_if (address_is_zero (cg_builder_account_factory g)) "builder_account_factory must not be zero" ;;
  refuse_if (address_is_zero (cg_shot_registry g)) "shot_registry must not be zero" ;;
  refuse_if (cg_builder_account_factory g == cg_shot_registry g) "factory and registry must differ" ;;
  network_nonzero "activation_signing_digest" (cg_activation_signing_digest g).

Definition optional {A} (validate : A -> network_result unit) (value : option A) : network_result unit :=
  match value with Some value => validate value | None => Ok tt end.

(** [matches!(length, Some(1..=5_242_880))] *)
Definition icon_length_ok (length : option Z) : bool :=
  is_some_and (λ n, (1 <=? n) && (n <=? 5242880)) length.

Definition screenshot_validate (s : CatalogScreenshot) : network_result unit :=
  network_nonzero "display.screenshot.sha256" (cs_sha256 s) ;;
  refuse_if ((cs_byte_length s == 0%Z) || (10 * 1024 * 1024 <? cs_byte_length s))
    "display screenshot is outside its byte bound".

Definition media_validate (release_schema : string) (d : CatalogDisplay) : network_result unit :=
  if release_schema == CATALOG_RELEASE_SCHEMA_V1 then
    refuse_if (opt_is_some (cd_icon_byte_length d) || opt_is_some (cd_icon_media_type d)
               || negb (length (cd_screenshots d) =? 0)%nat)
      "catalog release v1 cannot carry public presentation media"
  else
    refuse_if (opt_is_none (cd_icon_sha256 d) || opt_is_none (cd_icon_media_type d)
               || negb (icon_length_ok (cd_icon_byte_length d)))
      "catalog release v2 requires one bounded app icon" ;;
    refuse_if (8 <? length (cd_screenshots d))%nat "display.screenshots exceeds the eight-image bound" ;;
    for_unique screenshot_validate cs_sha256
      (λ _, NetworkInvalid "display screenshots must have unique content digests") ∅ (cd_screenshots d).

Definition display_validate (release_schema : string) (d : CatalogDisplay) : network_result unit :=
  network_bounded_text "display.name" (cd_name d) 1 160 ;;
  network_bounded_text "display.description" (cd_description d) 1 2000 ;;
  optional (network_nonzero "display.icon_sha256") (cd_icon_sha256 d) ;;
  media_validate release_schema d ;;
  optional (λ value, catalog_identifier "display.builder_handle" value 2 32) (cd_builder_handle d) ;;
  optional (λ value, catalog_identifier "display.app_slug" value 2 64) (cd_app_slug d).

Definition source_validate (s : SourceArtifact) : network_result unit :=
  refuse_if (sa_format s != DeterministicTar) "unsupported source artifact format" ;;
  network_nonzero "source.sha256" (sa_sha256 s) ;;
  network_nonzero "source.source_tree_sha256" (sa_source_tree_sha256 s) ;;
  refuse_if ((sa_byte_length s == 0%Z) || (512 * 1024 * 1024 <? sa_byte_length s)
             || (sa_uncompressed_byte_length s == 0%Z)
             || (2 * 1024 * 1024 * 1024 <? sa_uncompressed_byte_length s)
             || (sa_file_count s == 0%Z) || (100000 <? sa_file_count s))
    "source artifact bounds are invalid".

Definition safety_validate (s : BuildSafety) : network_result unit :=
  refuse_if (64 <? length (bs_reasons s))%nat "too many build-safety reasons" ;;
  sorted_unique_loop (λ reason, network_bounded_text "build.safety.reason" reason 1 512) id
    "build-safety reasons must be sorted and unique" None (bs_reasons s) ;;
  refuse_if ((bs_classification s == Green) && negb (length (bs_reasons s) =? 0)%nat)
    "a green build profile cannot have review reasons" ;;
  refuse_if ((bs_classification s != Green) && (length (bs_reasons s) =? 0)%nat)
    "a non-green build profile must explain why".

Definition lock_validate (l : DependencyLock) : network_result unit :=
  relative_path "build.dependency_lock.path" (dl_path l) ;;
  network_nonzero "build.dependency_lock.sha256" (dl_sha256 l).

Definition recipe_validate (b : XcodeBuildRecipe) : network_result unit :=
  relative_path "build.container_path" (xb_container_path b) ;;
  network_bounded_text "build.scheme" (xb_scheme b) 1 256 ;;
  bundle_id (xb_original_bundle_identifier b) ;;
  refuse_if ((xb_minimum_ios b == "") || (32 <? len (xb_minimum_ios b))%nat
             || negb (forallb (λ byte, is_ascii_digit byte || (byte =? 46)%Z) (bytes_of (xb_minimum_ios b))))
    "build.minimum_ios is invalid" ;;
  refuse_if ((length (xb_device_families b) =? 0)%nat || (8 <? length (xb_device_families b))%nat)
    "build.device_families must contain 1..=8 values" ;;
  sorted_unique_loop (λ value, network_bounded_text "build.device_family" value 1 64) id
    "build.device_families must be sorted and unique" None (xb_device_families b) ;;
  refuse_if (128 <? length (xb_dependency_locks b))%nat "too many dependency locks" ;;
  sorted_unique_loop lock_validate dl_path "dependency locks must be sorted and unique" None
    (xb_dependency_locks b) ;;
  safety_validate (xb_safety b).

Definition is_license_byte (b : Z) : bool :=
  is_ascii_alphanumeric b || (b =? 46)%Z || (b =? 45)%Z || (b =? 43)%Z || (b =? 40)%Z
  || (b =? 41)%Z || (b =? 32)%Z.

Definition permissions_of_release_validate (p : ReleasePermissions) : network_result unit :=
  refuse_if (negb (rp_install_allowed p)) "catalog release must be installable" ;;
  refuse_if (negb (rp_distributor_rights_declared p)) "Builder must affirm distribution rights" ;;
  optional (λ value, refuse_if ((value == "") || (96 <? len value)%nat
                                || negb (forallb is_license_byte (bytes_of value)))
              "SPDX license expression is invalid") (rp_spdx_license p).

Definition parent_release_validate (shot_id : ShotId) (p : CatalogParentRelease) : network_result unit :=
  refuse_if (shot_is_zero (cp_parent_shot_id p)) "parent_shot_id must not be zero" ;;
  refuse_if (cp_parent_shot_id p == shot_id) "a fork cannot name itself as parent" ;;
  network_nonzero "parent_release_digest" (cp_parent_release_digest p).

Section release.
Context `{Platform}.

Definition release_validate (r : CatalogRelease) : network_result unit :=
  refuse_if ((cr_schema r != CATALOG_RELEASE_SCHEMA) && (cr_schema r != CATALOG_RELEASE_SCHEMA_V1))
    ("schema must be " +:+ CATALOG_RELEASE_SCHEMA_V1 +:+ " or " +:+ CATALOG_RELEASE_SCHEMA) ;;
  generation_validate (cr_generation r) ;;
  refuse_if (shot_is_zero (cr_shot_id r)) "shot_id must not be zero" ;;
  protocol (builder_validate (cr_builder_id r)) ;;
  network_nonzero "release_id" (cr_release_id r) ;;
  refuse_if (unix_timestamp (cr_published_at r) <=? 0) "published_at must be after the Unix epoch" ;;
  display_validate (cr_schema r) (cr_display r) ;;
  source_validate (cr_source r) ;;
  recipe_validate (cr_build r) ;;
  permissions_of_release_validate (cr_permissions r) ;;
  optional (parent_release_validate (cr_shot_id r)) (cr_parent r) ;;
  refuse_if ((cr_checkpoint_sequence r == 0%Z) || (MAX_SAFE_INTEGER <? cr_checkpoint_sequence r))
    "checkpoint_sequence must be a positive JavaScript-safe integer" ;;
  network_nonzero "public_checkpoint_digest" (cr_public_checkpoint_digest r).

Definition release_canonical_bytes (r : CatalogRelease) : network_result (list Z) :=
  release_validate r ;;
  protocol (canonical_to_vec r).

Definition release_digest (r : CatalogRelease) : network_result Bytes32 :=
  release_validate r ;;
  protocol (sha256_commitment r).
End release.

(** ** Signed releases *)

Record SignedCatalogRelease := {
  sc_schema : string;
  sc_release : CatalogRelease;
  sc_signer : P256PublicKey;
  sc_authorization : DetachedP256Signature }.

Definition signed_release_verify `{Platform} (s : SignedCatalogRelease) : network_result unit :=
  refuse_if (sc_schema s != SIGNED_CATALOG_RELEASE_SCHEMA)
    ("schema must be " +:+ SIGNED_CATALOG_RELEASE_SCHEMA) ;;
  release_validate (sc_release s) ;;
  protocol (key_validate (sc_signer s)) ;;
  protocol (detached_validate (sc_authorization s)) ;;
  digest ← release_digest (sc_release s);
  refuse_if (digest != detached_digest (sc_authorization s))
    "catalog signature digest differs from the canonical release" ;;
  protocol (detached_verify (sc_authorization s) (sc_signer s)).

(** ** Evidence *)

Definition PUBLIC_RELEASE_EVIDENCE_SCHEMA : string := "tohseno.public-release-evidence/1".

Record CatalogChainEvidence := {
  ev_transaction_hash : Bytes32;
  ev_block_number : string;
  ev_block_hash : Bytes32;
  ev_controller : Address20;
  ev_head : Bytes32;
  ev_checkpoint_sequence : Z;
  ev_signer_key_id : Bytes32 }.

Record PublicReleaseEvidence := {
  pe_schema : string;
  pe_release_digest : Bytes32;
  pe_signed_manifest : SignedCatalogRelease;
  pe_chain : CatalogChainEvidence;
  pe_source_url : string;
  pe_icon_url : option string }.

(** [format!("/api/registry/v1/blobs/{digest}")] *)
Definition blob_url (digest : Bytes32) : string := "/api/registry/v1/blobs/" +:+ to_hex digest.

Definition icon_url_validate (icon_url : option string) (icon : option Bytes32) : network_result unit :=
  match icon_url with
  | Some icon_url =>
      match icon with
      | None => Err (NetworkInvalid "an icon URL exists without a signed icon digest")
      | Some digest =>
          refuse_if (icon_url != blob_url digest) "icon URL is not the manifest's content address"
      end
  | None => refuse_if (opt_is_some icon) "the signed icon artifact is unavailable"
  end.

Definition verify_static `{Platform} `{Keccak} (e : PublicReleaseEvidence) : network_result unit :=
  refuse_if (pe_schema e != PUBLIC_RELEASE_EVIDENCE_SCHEMA)
    ("schema must be " +:+ PUBLIC_RELEASE_EVIDENCE_SCHEMA) ;;
  signed_release_verify (pe_signed_manifest e) ;;
  let release := sc_release (pe_signed_manifest e) in
  let chain := pe_chain e in
  digest ← release_digest release;
  refuse_if (digest != pe_release_digest e) "release digest differs from the signed manifest" ;;
  refuse_if ((ev_transaction_hash chain == ZERO) || (ev_block_hash chain == ZERO)
             || (ev_controller chain != account (cr_builder_id release))
             || (ev_head chain != cr_public_checkpoint_digest release)
             || (ev_checkpoint_sequence chain != cr_checkpoint_sequence release)
             || (ev_signer_key_id chain != device_key_id (sc_signer (pe_signed_manifest e))))
    "chain receipt evidence differs from the signed manifest" ;;
  refuse_if ((ev_block_number chain == "") || (32 <? len (ev_block_number chain))%nat
             || negb (forallb is_ascii_digit (bytes_of (ev_block_number chain))))
    "chain receipt block number is invalid" ;;
  refuse_if (pe_source_url e != blob_url (sa_sha256 (cr_source release)))
    "source URL is not the manifest's content address" ;;
  icon_url_validate (pe_icon_url e) (cd_icon_sha256 (cr_display release)).
