(* ===== verification/NetworkPublication.v ===== *)
(** * Publication approvals

    [network/src/publication.rs]: what the Mac asks a phone to approve and what
    the phone returns; and [network/src/claims.rs]: the actions on the Claims
    contract. *)
From S2P Require Import Prelude Text Digest Keys Records Ontology FileTree Clock Eip712 RegistryActions RegistryLaws NetworkCatalog.

Definition NETWORK_DEVICE_ANNOUNCEMENT_SCHEMA : string := "tohseno.builder-device-announcement/1".
Definition NETWORK_APPROVAL_REQUEST_SCHEMA : string := "tohseno.publication-approval-request/1".
Definition PUBLICATION_APPROVAL_SCHEMA : string := "tohseno.publication-approval/1".

Record NetworkDeviceAnnouncement := {
  nd_schema : string;
  nd_key_id : Bytes32;
  nd_public_key : P256PublicKey;
  nd_security_level : string;
  nd_test_only : bool }.

Record NetworkApprovalRequest := {
  ar_schema : string;
  ar_job_id : string;
  ar_catalog_release : CatalogRelease;
  ar_registry_domain : Eip712Domain;
  ar_registry_action : RegistryActionV2;
  ar_builder_device : NetworkDeviceAnnouncement;
  ar_requested_route : string;
  ar_issued_at : string;
  ar_expires_at : string }.

Record PublicationApproval := {
  pa_schema : string;
  pa_job_id : string;
  pa_catalog : SignedCatalogRelease;
  pa_registry : SignedRegistryActionV2;
  pa_approved_at : string }.

Section publication.
Context `{Platform} `{Keccak}.

Definition network_announcement_validate (allow_test : bool) (d : NetworkDeviceAnnouncement)
    : network_result unit :=
  refuse_if (nd_schema d != NETWORK_DEVICE_ANNOUNCEMENT_SCHEMA)
    "unsupported Builder DeviceKey announcement schema" ;;
  protocol (key_validate (nd_public_key d)) ;;
  refuse_if (nd_key_id d != device_key_id (nd_public_key d))
    "Builder DeviceKey ID does not match its public coordinates" ;;
  refuse_if (negb ((nd_security_level d == "secure_enclave") || (nd_security_level d == "software_test")))
    "Builder DeviceKey security level is invalid" ;;
  refuse_if (nd_test_only d != (nd_security_level d == "software_test"))
    "Builder DeviceKey test marker disagrees with its security level" ;;
  refuse_if (nd_test_only d && negb allow_test)
    "a test-only Builder DeviceKey cannot authorize production".

(** [device_key] of a release build. *)
Definition announced_device_key (d : NetworkDeviceAnnouncement) : network_result BuilderDeviceKey :=
  network_announcement_validate false d ;;
  Ok {| dk_key_id := nd_key_id d; dk_public_key := nd_public_key d |}.

Definition is_job_byte (b : Z) : bool :=
  is_ascii_alphanumeric b || (b =? 45)%Z || (b =? 95)%Z || (b =? 46)%Z.
Definition job_identifier (name value : string) (minimum maximum : nat) : network_result unit :=
  refuse_if (negb ((minimum <=? len value)%nat && (len value <=? maximum)%nat)
             || negb (forallb is_job_byte (bytes_of value)))
    (name +:+ " is not a bounded identifier").

Definition parse_time (name value : string) : network_result OffsetDateTime :=
  ok_or (NetworkInvalid (name +:+ " is invalid")) (parse_rfc3339 value).

(** [as u64] of a signed number of seconds. *)
Definition as_u64 (z : Z) : Z := z mod (U64_MAX + 1).

Definition validate_deadline (deadline : Z) (issued_at expires_at : string) : network_result unit :=
  issued ← parse_time "publication issued_at" issued_at;
  expires ← parse_time "publication expires_at" expires_at;
  refuse_if ((deadline != as_u64 (odt_unix_timestamp expires))
             || (deadline <=? as_u64 (odt_unix_timestamp issued)))
    "Registry action deadline differs from the approval window".

(** The match on the registry action. *)
Definition requested_action_validate (r : NetworkApprovalRequest) : network_result unit :=
  let release := ar_catalog_release r in
  let release_sequence := cr_checkpoint_sequence release in
  match ar_registry_action r with
  | RegisterShot shot_id controller head _ nonce deadline =>
      refuse_if ((release_sequence != 1%Z) || (nonce != 0%Z))
        "first publication must register checkpoint 1 at nonce 0" ;;
      refuse_if ((shot_id != cr_shot_id release) || (controller != account (cr_builder_id release))
                 || (head != cr_public_checkpoint_digest release))
        "RegisterShot action differs from the catalog release" ;;
      validate_deadline deadline (ar_issued_at r) (ar_expires_at r)
  | AppendCheckpoint shot_id _ new_head checkpoint_sequence nonce deadline =>
      refuse_if ((shot_id != cr_shot_id release) || (new_head != cr_public_checkpoint_digest release)
                 || (checkpoint_sequence != release_sequence)
                 || (checked_add_u64 nonce 1 != Some release_sequence))
        "AppendCheckpoint action differs from the catalog release" ;;
      validate_deadline deadline (ar_issued_at r) (ar_expires_at r)
  | TransferShot _ _ _ _ _ _ _ =>
      Err (NetworkInvalid "publication approval cannot authorize Shot transfer")
  end.

Definition route_ok (route : string) : bool :=
  negb (route == "") && (len route <=? 160)%nat && starts_with (bytes_of "/") (bytes_of route)
  && negb (contains_bytes (bytes_of "..") (bytes_of route))
  && negb (existsb is_control (chars (bytes_of route))).

Definition network_request_validate (allow_test_key : bool) (r : NetworkApprovalRequest)
    : network_result unit :=
  refuse_if (ar_schema r != NETWORK_APPROVAL_REQUEST_SCHEMA)
    "unsupported publication approval request schema" ;;
  job_identifier "job_id" (ar_job_id r) 1 128 ;;
  release_validate (ar_catalog_release r) ;;
  network_announcement_validate allow_test_key (ar_builder_device r) ;;
  protocol (validate_for_version SHOT_REGISTRY_DOMAIN SHOT_REGISTRY_V2_EIP712_VERSION
              (ar_registry_domain r)) ;;
  protocol (registry_validate (ar_registry_action r)) ;;
  refuse_if ((do_chain_id (ar_registry_domain r) != cg_chain_id (cr_generation (ar_catalog_release r)))
             || (do_verifying_contract (ar_registry_domain r)
                 != cg_shot_registry (cr_generation (ar_catalog_release r))))
    "Registry action domain differs from catalog generation" ;;
  requested_action_validate r ;;
  refuse_if (negb (route_ok (ar_requested_route r))) "requested publication route is invalid" ;;
  issued ← parse_time "publication issued_at" (ar_issued_at r);
  expires ← parse_time "publication expires_at" (ar_expires_at r);
  refuse_if ((instant expires <=? instant issued)
             || (seconds (24 * 3600) <? instant expires - instant issued))%Z
    "publication approval window must be positive and at most 24 hours".

Definition request_catalog_digest (r : NetworkApprovalRequest) : network_result Bytes32 :=
  release_digest (ar_catalog_release r).
Definition request_registry_digest (r : NetworkApprovalRequest) : network_result Bytes32 :=
  protocol (registry_digest (ar_registry_domain r) (ar_registry_action r)).

(** [verify_for] of a release build. *)
Definition approval_verify_for (a : PublicationApproval) (r : NetworkApprovalRequest)
    : network_result unit :=
  refuse_if ((pa_schema a != PUBLICATION_APPROVAL_SCHEMA) || (pa_job_id a != ar_job_id r))
    "publication approval does not identify the exact request" ;;
  network_request_validate false r ;;
  signed_release_verify (pa_catalog a) ;;
  protocol (signed_registry_verify (pa_registry a)) ;;
  refuse_if ((sc_release (pa_catalog a) != ar_catalog_release r)
             || (sra_domain (pa_registry a) != ar_registry_domain r)
             || (sra_action (pa_registry a) != ar_registry_action r)
             || (sc_signer (pa_catalog a) != nd_public_key (ar_builder_device r))
             || (sra_signer (pa_registry a) != nd_public_key (ar_builder_device r)))
    "publication approval signs a different structured request" ;;
  approved ← parse_time "publication approved_at" (pa_approved_at a);
  Ok tt.
End publication.

(** ** Claims *)

Definition CLAIMS_DOMAIN : string := "TOHSENO Claims".
Definition CLAIMS_EIP712_VERSION : string := "1".
Definition OPEN_CLAIM_EDITION_TYPE : string := "OpenClaimEdition(address shotRegistry,bytes32 shotId,uint64 maxClaims,uint64 closesAt,address controller,uint64 nonce,uint64 deadline)".
Definition CLAIM_SOFTWARE_TYPE : string := "ClaimSoftware(address shotRegistry,bytes32 shotId,address claimant,bytes32 releaseDigest,bytes32 checkpointDigest,bytes32 gestureCommitment,uint64 nonce,uint64 deadline)".

(** [ClaimsEncodingError::Invalid] with the field it names. *)
Inductive ClaimsEncodingError := ClaimsInvalid (field : string).
Abbreviation claims_result := (Result ClaimsEncodingError).

Definition display_claims_error (e : ClaimsEncodingError) : string :=
  match e with ClaimsInvalid field => field +:+ " is invalid for Tohseno Claims v1" end.

Definition claims_safe_u64 (field : string) (value : Z) : claims_result unit :=
  fail_if (MAX_SAFE_JSON_INTEGER <? value) (ClaimsInvalid field).
Definition claims_positive_safe_u64 (field : string) (value : Z) : claims_result unit :=
  fail_if (value == 0%Z) (ClaimsInvalid field) ;;
  claims_safe_u64 field value.
Definition claims_nonzero_address (field : string) (address : Address20) : claims_result unit :=
  fail_if (address_is_zero address) (ClaimsInvalid field).
Definition claims_nonzero_bytes32 (field : string) (value : Bytes32) : claims_result unit :=
  fail_if (value == ZERO) (ClaimsInvalid field).

Definition claims_validate_domain (d : Eip712Domain) : claims_result unit :=
  fail_if (do_name d != CLAIMS_DOMAIN) (ClaimsInvalid "domain.name") ;;
  fail_if (do_version d != CLAIMS_EIP712_VERSION) (ClaimsInvalid "domain.version") ;;
  fail_if (do_chain_id d != ROBINHOOD_CHAIN_ID) (ClaimsInvalid "domain.chain_id") ;;
  claims_nonzero_address "domain.verifying_contract" (do_verifying_contract d).

Record ClaimEditionPolicy := { ep_max_claims : Z; ep_closes_at : Z }.
Definition OPEN_POLICY : ClaimEditionPolicy := {| ep_max_claims := 0; ep_closes_at := 0 |}.
Definition edition_policy_validate (p : ClaimEditionPolicy) : claims_result unit :=
  claims_safe_u64 "max_claims" (ep_max_claims p) ;;
  claims_safe_u64 "closes_at" (ep_closes_at p).

Record OpenClaimEditionAction := {
  oc_shot_registry : Address20;
  oc_shot_id : ShotId;
  oc_max_claims : Z;
  oc_closes_at : Z;
  oc_controller : Address20;
  oc_nonce : Z;
  oc_deadline : Z }.

Record ClaimSoftwareAction := {
  cl_shot_registry : Address20;
  cl_shot_id : ShotId;
  cl_claimant : Address20;
  cl_release_digest : Bytes32;
  cl_checkpoint_digest : Bytes32;
  cl_gesture_commitment : Bytes32;
  cl_nonce : Z;
  cl_deadline : Z }.

(** What both actions check of the Shot. *)
Definition claims_shot_validate (shot_registry : Address20) (shot_id : ShotId)
    (active_registry : Address20) : claims_result unit :=
  claims_nonzero_address "shot_registry" shot_registry ;;
  fail_if (shot_registry != active_registry) (ClaimsInvalid "shot_registry") ;;
  fail_if (shot_is_zero shot_id) (ClaimsInvalid "shot_id").

Definition open_edition_validate (active_registry : Address20) (a : OpenClaimEditionAction)
    : claims_result unit :=
  claims_shot_validate (oc_shot_registry a) (oc_shot_id a) active_registry ;;
  claims_nonzero_address "controller" (oc_controller a) ;;
  edition_policy_validate {| ep_max_claims := oc_max_claims a; ep_closes_at := oc_closes_at a |} ;;
  claims_safe_u64 "nonce" (oc_nonce a) ;;
  claims_positive_safe_u64 "deadline" (oc_deadline a).

Definition claim_software_validate (active_registry : Address20) (a : ClaimSoftwareAction)
    : claims_result unit :=
  claims_shot_validate (cl_shot_registry a) (cl_shot_id a) active_registry ;;
  claims_nonzero_address "claimant" (cl_claimant a) ;;
  claims_nonzero_bytes32 "release_digest" (cl_release_digest a) ;;
  claims_nonzero_bytes32 "checkpoint_digest" (cl_checkpoint_digest a) ;;
  claims_nonzero_bytes32 "gesture_commitment" (cl_gesture_commitment a) ;;
  claims_safe_u64 "nonce" (cl_nonce a) ;;
  claims_positive_safe_u64 "deadline" (cl_deadline a).

Definition open_edition_words (a : OpenClaimEditionAction) : list Bytes32 :=
  [address_word (oc_shot_registry a); shot_bytes (oc_shot_id a); u64_word (oc_max_claims a);
   u64_word (oc_closes_at a); address_word (oc_controller a); u64_word (oc_nonce a);
   u64_word (oc_deadline a)].
Definition claim_software_words (a : ClaimSoftwareAction) : list Bytes32 :=
  [address_word (cl_shot_registry a); shot_bytes (cl_shot_id a); address_word (cl_claimant a);
   cl_release_digest a; cl_checkpoint_digest a; cl_gesture_commitment a; u64_word (cl_nonce a);
   u64_word (cl_deadline a)].

Section claims.
Context `{Keccak}.

Definition open_edition_struct_hash (active_registry : Address20) (a : OpenClaimEditionAction)
    : claims_result Bytes32 :=
  open_edition_validate active_registry a ;;
  Ok (hash_words (type_hash OPEN_CLAIM_EDITION_TYPE :: open_edition_words a)).
Definition open_edition_digest (d : Eip712Domain) (active_registry : Address20)
    (a : OpenClaimEditionAction) : claims_result Bytes32 :=
  claims_validate_domain d ;;
  struct_hash ← open_edition_struct_hash active_registry a;
  Ok (eip712_digest (separator d) struct_hash).

Definition claim_software_struct_hash (active_registry : Address20) (a : ClaimSoftwareAction)
    : claims_result Bytes32 :=
  claim_software_validate active_registry a ;;
  Ok (hash_words (type_hash CLAIM_SOFTWARE_TYPE :: claim_software_words a)).
Definition claim_software_digest (d : Eip712Domain) (active_registry : Address20)
    (a : ClaimSoftwareAction) : claims_result Bytes32 :=
  claims_validate_domain d ;;
  struct_hash ← claim_software_struct_hash active_registry a;
  Ok (eip712_digest (separator d) struct_hash).
End claims.

(** ** What an approval covers

    A verified approval is two signatures of the announced key, one over the
    exact release and one over the exact registry action, and the two are about
    the same Shot, checkpoint and deadline; evidence beside a release agrees
    with it; and the digests on the Claims contract bind what they are made of. *)

Lemma refuse_if_Ok c message u : refuse_if c message = Ok u <-> c = false.
Proof. apply fail_if_Ok. Qed.
Lemma protocol_Ok {T} (r : result T) t : protocol r = Ok t <-> r = Ok t.
Proof. apply map_err_Ok. Qed.

(** [res_inv] for the network crate. *)
Ltac net_step :=
  match goal with
  | H : refuse_if _ _ = Ok _ |- _ => apply refuse_if_Ok in H
  | H : protocol _ = Ok _ |- _ => apply protocol_Ok in H
  end.
Ltac net_inv := repeat (res_step || net_step || guard_step).

Section laws.
Context `{Platform} `{Keccak}.

(** [key] signed [digest]. *)
Definition signed_by (key : P256PublicKey) (digest : Bytes32) (s : DetachedP256Signature) : Prop :=
  detached_digest s = digest /\ is_low_s (detached_signature s) = true /\
  prehash_verifies (key_x key, key_y key) digest
    (sig_r (detached_signature s), sig_s (detached_signature s)) = true.

Lemma detached_verify_signed s key u : detached_verify s key = Ok u ->
  signed_by key (detached_digest s) s.
Proof.
  unfold detached_verify. intros Hv. apply bind_Ok in Hv as (?&_&Hv). destruct u.
  by apply verify_digest_Ok in Hv as (_&_&Hl&Hp).
Qed.

Lemma signed_release_genuine s u : signed_release_verify s = Ok u ->
  release_validate (sc_release s) = Ok tt /\
  exists digest, sha256_commitment (sc_release s) = Ok digest /\
    signed_by (sc_signer s) digest (sc_authorization s).
Proof.
  unfold signed_release_verify, release_digest. intros Hv. net_inv. split; [done|].
  match goal with H : detached_verify _ _ = _ |- _ => apply detached_verify_signed in H end.
  eexists. split; [done|]. by subst.
Qed.

Lemma signed_registry_genuine s u : signed_registry_verify s = Ok u ->
  exists digest, registry_digest (sra_domain s) (sra_action s) = Ok digest /\
    signed_by (sra_signer s) digest (sra_authorization s).
Proof.
  unfold signed_registry_verify. intros Hv. net_inv.
  match goal with H : verify_digest _ _ _ = _ |- _ => apply verify_digest_Ok in H as (_&_&Hl&Hp) end.
  eexists. split; [done|]. by subst.
Qed.

(** What the request asks the registry to do is what the release says. *)
Definition action_is_of_release (r : NetworkApprovalRequest) : Prop :=
  let release := ar_catalog_release r in
  match ar_registry_action r with
  | RegisterShot shot_id controller head _ nonce deadline =>
      shot_id = cr_shot_id release /\ controller = account (cr_builder_id release) /\
      head = cr_public_checkpoint_digest release /\ cr_checkpoint_sequence release = 1%Z /\ nonce = 0%Z
  | AppendCheckpoint shot_id _ new_head checkpoint_sequence nonce deadline =>
      shot_id = cr_shot_id release /\ new_head = cr_public_checkpoint_digest release /\
      checkpoint_sequence = cr_checkpoint_sequence release /\
      (nonce + 1 = cr_checkpoint_sequence release)%Z
  | TransferShot _ _ _ _ _ _ _ => False
  end.

Definition action_deadline (a : RegistryActionV2) : Z :=
  match a with
  | RegisterShot _ _ _ _ _ deadline | AppendCheckpoint _ _ _ _ _ deadline
  | TransferShot _ _ _ _ _ _ deadline => deadline
  end.

Lemma validate_deadline_Ok deadline issued expires u : validate_deadline deadline issued expires = Ok u ->
  exists i e, parse_rfc3339 issued = Some i /\ parse_rfc3339 expires = Some e /\
    deadline = as_u64 (odt_unix_timestamp e) /\ (as_u64 (odt_unix_timestamp i) < deadline)%Z.
Proof. unfold validate_deadline, parse_time. intros Hv. net_inv. by eexists _, _. Qed.

Lemma requested_action_Ok r u : requested_action_validate r = Ok u ->
  action_is_of_release r /\
  validate_deadline (action_deadline (ar_registry_action r)) (ar_issued_at r) (ar_expires_at r) = Ok tt.
Proof.
  unfold requested_action_validate, action_is_of_release.
  destruct (ar_registry_action r) as [| |]; cbn [action_deadline]; intros Hv; [| |done]; net_inv; simplify_eq.
  - by split_and!.
  - match goal with H : checked_add_u64 _ _ = _ |- _ =>
      unfold checked_add_u64, checked_add in H; case_match; [|done]; simplify_eq end.
    by split_and!.
Qed.

(** What a valid request of a release build is. *)
Lemma network_request_Ok r u : network_request_validate false r = Ok u ->
  release_validate (ar_catalog_release r) = Ok tt /\
  nd_test_only (ar_builder_device r) = false /\
  nd_security_level (ar_builder_device r) = "secure_enclave" /\
  nd_key_id (ar_builder_device r) = device_key_id (nd_public_key (ar_builder_device r)) /\
  do_verifying_contract (ar_registry_domain r)
    = cg_shot_registry (cr_generation (ar_catalog_release r)) /\
  action_is_of_release r /\
  exists i e, parse_rfc3339 (ar_issued_at r) = Some i /\ parse_rfc3339 (ar_expires_at r) = Some e /\
    action_deadline (ar_registry_action r) = as_u64 (odt_unix_timestamp e) /\
    (instant i < instant e <= instant i + seconds (24 * 3600))%Z.
Proof.
  unfold network_request_validate, network_announcement_validate. intros Hv.
  destruct u. net_inv.
  match goal with H : requested_action_validate _ = _ |- _ =>
    apply requested_action_Ok in H as [Ha (i&e&Hi&He&Hd&_)%validate_deadline_Ok] end.
  unfold parse_time in *. net_inv. simplify_eq.
  match goal with H : nd_test_only _ && _ = false |- _ => rewrite andb_true_r in H; rename H into Ht end.
  match goal with H : nd_test_only _ = bool_decide _ |- _ =>
    rewrite Ht in H; symmetry in H; apply bool_decide_eq_false in H end.
  split_and!; try done.
  - match goal with H : (_ || _) = true |- _ =>
      apply orb_true_iff in H as [E|E]; apply bool_decide_eq_true in E; done end.
  - exists i, e. split_and!; try done; lia.
Qed.

(** [C25] A verified approval covers exactly its request: it names the request's job;
    the announced key of the request, a production key with the identifier of its
    coordinates, signed the commitment of exactly the requested release and the
    digest of exactly the requested registry action under the requested domain,
    both with low-s signatures; the action is about the release's own Shot,
    checkpoint and sequence on the release's own registry, never a transfer; and
    the deadline that was signed is the end of the request's window, which is
    positive and at most a day. When the approval was given is text that must parse;
    the code compares it with nothing. *)
Theorem approval_covers_request a r : approval_verify_for a r = Ok tt ->
  let release := ar_catalog_release r in
  let key := nd_public_key (ar_builder_device r) in
  pa_job_id a = ar_job_id r /\
  (exists digest, sha256_commitment release = Ok digest /\
     signed_by key digest (sc_authorization (pa_catalog a))) /\
  (exists digest, registry_digest (ar_registry_domain r) (ar_registry_action r) = Ok digest /\
     signed_by key digest (sra_authorization (pa_registry a))) /\
  action_is_of_release r /\
  do_verifying_contract (ar_registry_domain r) = cg_shot_registry (cr_generation release) /\
  nd_test_only (ar_builder_device r) = false /\
  nd_key_id (ar_builder_device r) = device_key_id key /\
  exists i e, parse_rfc3339 (ar_issued_at r) = Some i /\ parse_rfc3339 (ar_expires_at r) = Some e /\
    action_deadline (ar_registry_action r) = as_u64 (odt_unix_timestamp e) /\
    (instant i < instant e <= instant i + seconds (24 * 3600))%Z /\
    is_Some (parse_rfc3339 (pa_approved_at a)).
Proof.
  unfold approval_verify_for. intros Hv. net_inv.
  match goal with H : network_request_validate _ _ = _ |- _ =>
    apply network_request_Ok in H as (_&Ht&_&Hk&Hr&Ha&Hw) end.
  match goal with H : signed_release_verify _ = _ |- _ =>
    apply signed_release_genuine in H as (_&d1&Hd1&Hs1) end.
  match goal with H : signed_registry_verify _ = _ |- _ =>
    apply signed_registry_genuine in H as (d2&Hd2&Hs2) end.
  repeat match goal with H : _ = ar_catalog_release r |- _ => rewrite H in *; clear H
    | H : _ = ar_registry_domain r |- _ => rewrite H in *; clear H
    | H : _ = ar_registry_action r |- _ => rewrite H in *; clear H
    | H : _ = nd_public_key (ar_builder_device r) |- _ => rewrite H in *; clear H end.
  cbv zeta. destruct Hw as (i&e&Hi&He&Hd&Hw). unfold parse_time in *. res_inv.
  split_and!; try done; try by eexists. exists i, e. split_and!; first [done|apply Hw|by eexists].
Qed.

(** Evidence that verifies agrees with the release it stands beside: the
    release is valid and signed over its commitment, which is the digest the
    evidence names; the receipt is of the Builder of the release, of its
    checkpoint and sequence, by the key that signed the release; and the URLs
    are the content addresses of the signed source and icon, an icon URL
    present exactly when an icon is signed. *)
Theorem evidence_agrees_with_release e : verify_static e = Ok tt ->
  let manifest := pe_signed_manifest e in
  let release := sc_release manifest in
  release_validate release = Ok tt /\
  sha256_commitment release = Ok (pe_release_digest e) /\
  signed_by (sc_signer manifest) (pe_release_digest e) (sc_authorization manifest) /\
  ev_controller (pe_chain e) = account (cr_builder_id release) /\
  ev_head (pe_chain e) = cr_public_checkpoint_digest release /\
  ev_checkpoint_sequence (pe_chain e) = cr_checkpoint_sequence release /\
  ev_signer_key_id (pe_chain e) = device_key_id (sc_signer manifest) /\
  pe_source_url e = blob_url (sa_sha256 (cr_source release)) /\
  pe_icon_url e = blob_url <$> cd_icon_sha256 (cr_display release).
Proof.
  unfold verify_static, release_digest. intros Hv. net_inv.
  match goal with H : signed_release_verify _ = _ |- _ =>
    apply signed_release_genuine in H as (Hr&d&Hd&Hs) end.
  match goal with H : icon_url_validate _ _ = _ |- _ => rename H into Hi end.
  unfold icon_url_validate in Hi.
  assert (pe_icon_url e = blob_url <$> cd_icon_sha256 (cr_display (sc_release (pe_signed_manifest e)))) as Hicon.
  { destruct (pe_icon_url e), (cd_icon_sha256 _); try done; net_inv; simpl in *; by subst. }
  cbv zeta. rewrite Hd in *. simplify_eq. subst. split_and!; try done; congruence.
Qed.

(** ** Claims *)

Definition claim_widths (a : ClaimSoftwareAction) : Prop := is_u64 (cl_nonce a) /\ is_u64 (cl_deadline a).

Lemma claim_software_digest_Ok d registry a h : claim_software_digest d registry a = Ok h ->
  do_chain_id d = ROBINHOOD_CHAIN_ID /\ cl_shot_registry a = registry /\
  h = eip712_digest (separator d) (hash_words (type_hash CLAIM_SOFTWARE_TYPE :: claim_software_words a)).
Proof.
  unfold claim_software_digest, claim_software_struct_hash, claim_software_validate,
    claims_shot_validate, claims_validate_domain. intros Hd. res_inv. done.
Qed.

Lemma open_edition_digest_Ok d registry a h : open_edition_digest d registry a = Ok h ->
  do_chain_id d = ROBINHOOD_CHAIN_ID /\ oc_shot_registry a = registry /\
  h = eip712_digest (separator d) (hash_words (type_hash OPEN_CLAIM_EDITION_TYPE :: open_edition_words a)).
Proof.
  unfold open_edition_digest, open_edition_struct_hash, open_edition_validate,
    claims_shot_validate, claims_validate_domain. intros Hd. res_inv. done.
Qed.

(** A claim is bound to everything it names: its digest determines the
    contract, the chain, the registry of the Shot, the Shot, the claimant, the
    release, the checkpoint, the gesture, the nonce and the deadline, and is
    never the digest of the opening of an edition, unless the hash collides on
    what is hashed. *)
Theorem claim_digest_binds d1 g1 a1 h : claim_widths a1 -> claim_software_digest d1 g1 a1 = Ok h ->
  (forall d2 g2 a2, claim_widths a2 -> claim_software_digest d2 g2 a2 = Ok h ->
     no_collision (preimages d1 CLAIM_SOFTWARE_TYPE (claim_software_words a1))
       (preimages d2 CLAIM_SOFTWARE_TYPE (claim_software_words a2)) ->
     d1 = d2 /\ g1 = g2 /\ a1 = a2) /\
  (forall d2 g2 a2,
     no_collision (preimages d1 CLAIM_SOFTWARE_TYPE (claim_software_words a1))
       (preimages d2 OPEN_CLAIM_EDITION_TYPE (open_edition_words a2)) ->
     open_edition_digest d2 g2 a2 <> Ok h).
Proof.
  intros Hw1 (Hc1&Hg1&Ha)%claim_software_digest_Ok. split.
  - intros d2 g2 a2 Hw2 (Hc2&Hg2&Hb)%claim_software_digest_Ok Hn.
    destruct (typed_digest_inj _ _ _ _ _ _ ltac:(by rewrite Hc1) ltac:(by rewrite Hc2) Hn
      ltac:(congruence)) as (->&_&E).
    destruct Hw1, Hw2, a1, a2; simpl in *. unfold claim_software_words in E. simpl in E.
    injection E; clear E; intros. fields_inj. simpl in *. simplify_eq. done.
  - intros d2 g2 a2 Hn (Hc2&_&Hb)%open_edition_digest_Ok.
    by destruct (typed_digest_inj _ _ _ _ _ _ ltac:(by rewrite Hc1) ltac:(by rewrite Hc2) Hn
      ltac:(congruence)) as (_&E&_).
Qed.
End laws.
