(* ===== verification/NetworkSnapshotLaws.v ===== *)
(** * Laws of extraction

    Whatever an archive holds, extraction writes only inside its destination
    and never replaces a file; when it succeeds the destination holds exactly
    the entries of the archive, within the bounds. *)
From S2P Require Import Prelude Text Digest FileTree NetworkCatalog NetworkSnapshot.

(** ** Safe paths *)

(** A name that may be created: plain, without control characters, and its own
    normal form. *)
Definition safe_name `{Unicode} (name : string) : Prop :=
  plain_name name /\ utf8_valid (bytes_of name) = true /\
  Forall (λ c, c <> 0%Z /\ is_control c = false) (chars (bytes_of name)) /\ nfc name = name.

Section paths.
Context `{Unicode}.

Lemma safe_name_plain names : Forall safe_name names -> Forall plain_name names.
Proof. intros Hs. eapply Forall_impl; [exact Hs|]. by intros ? [? _]. Qed.

Lemma safe_component_Ok error c part : safe_component error c = Ok part ->
  c = Normal part /\ utf8_valid (bytes_of part) = true /\ part <> "" /\
  Forall (λ c, c <> 0%Z /\ is_control c = false) (chars (bytes_of part)) /\ nfc part = part.
Proof.
  destruct c as [| | |value]; try done. cbn [safe_component]. intros Hc. res_inv.
  unfold to_str in *. case_match; [|done]. simplify_eq.
  match goal with H : nfc _ = _ |- _ => rewrite H in * end. split_and!; try done.
  apply Forall_forall. intros x Hx.
  match goal with H : existsb _ _ = false |- _ => rename H into He end.
  apply not_true_iff_false in He.
  assert (~ ((x =? 0)%Z || is_control x = true)) as Hn.
  { intros Ht. apply He, existsb_exists. exists x. split; [by apply list_elem_of_In|done]. }
  apply not_true_iff_false, orb_false_iff in Hn as [Hz%Z.eqb_neq Hcx]. done.
Qed.

Lemma safe_components_Ok error cs parts : safe_components error cs = Ok parts ->
  cs = Normal <$> parts /\
  Forall (λ part, utf8_valid (bytes_of part) = true /\ part <> "" /\
    Forall (λ c, c <> 0%Z /\ is_control c = false) (chars (bytes_of part)) /\ nfc part = part) parts.
Proof.
  revert parts. induction cs as [|c cs IH]; intros parts; cbn [safe_components].
  { intros [= <-]. split; [done|constructor]. }
  intros Hs. res_inv. match goal with H : safe_component _ _ = _ |- _ => apply safe_component_Ok in H as [-> ?] end.
  match goal with H : safe_components _ _ = _ |- _ => apply IH in H as [-> ?] end. split; [done|by constructor].
Qed.

(** A safe relative path names a place strictly below where it starts. *)
Lemma safe_relative_path_Ok path s : safe_relative_path path = Ok s ->
  exists names, names <> [] /\ Forall safe_name names /\ s = join_path names /\ split_path s = names /\
    components path = Normal <$> names.
Proof.
  unfold safe_relative_path. intros Hs. res_inv.
  match goal with H : safe_components _ _ = _ |- _ => apply safe_components_Ok in H as [Hc Hp] end.
  match goal with H : (length ?r =? 0)%nat = false |- _ => rename r into names; apply Nat.eqb_neq in H end.
  assert (Forall safe_name names) as Hsafe.
  { rewrite Forall_forall in Hp |- *. intros n Hn. destruct (Hp n Hn) as (?&_&?&?). split_and!; try done.
    apply (components_plain path). rewrite Hc. by apply list_elem_of_fmap_2. }
  exists names. assert (names <> []) by (by destruct names). split_and!; try done.
  apply split_path_join; [done|by apply safe_name_plain].
Qed.

Lemma safe_components_safe error names : Forall safe_name names ->
  safe_components error (Normal <$> names) = Ok names.
Proof.
  induction 1 as [|n names (Hp&Hu&Hc&Hn) _ IH]; [done|]. cbn [fmap list_fmap safe_components safe_component].
  unfold to_str. rewrite Hu. cbn [ok_or mbind Result_bind].
  rewrite (bool_decide_eq_false_2 (n = "")) by apply Hp. cbn [orb].
  assert (existsb (λ c, (c =? 0)%Z || is_control c) (chars (bytes_of n)) = false) as ->.
  { apply not_true_iff_false. intros (x&Hx&Hb)%existsb_exists.
    rewrite Forall_forall in Hc. destruct (Hc x) as [H0 H1]; [by apply list_elem_of_In|].
    rewrite H1, orb_false_r in Hb. by apply Z.eqb_eq in Hb. }
  cbn [fail_if mbind Result_bind]. rewrite Hn, bool_decide_eq_true_2 by done.
  cbn [negb fail_if mbind Result_bind]. by rewrite IH.
Qed.

(** Safe paths are left as they are. *)
Lemma safe_relative_path_join names : names <> [] -> Forall safe_name names ->
  safe_relative_path (join_path names) = Ok (join_path names).
Proof.
  intros Hne Hs. unfold safe_relative_path.
  rewrite components_join, safe_components_safe by (done || by apply safe_name_plain).
  by destruct names.
Qed.
End paths.

(** ** What is under the destination *)

(** Every place is below the destination, in a directory that is there. *)
Definition contained `{Unicode} (tree : Extracted) : Prop :=
  (forall names node, tree !! names = Some node -> names <> [] /\ Forall safe_name names) /\
  (forall names name node, tree !! (names ++ [name]) = Some node ->
     names = [] \/ tree !! names = Some ExtractedDirectory).

Section extraction.
Context `{Unicode}.

Lemma contained_insert tree names name node : contained tree -> Forall safe_name (names ++ [name]) ->
  names = [] \/ tree !! names = Some ExtractedDirectory ->
  tree !! (names ++ [name]) = None -> contained (<[names ++ [name] := node]> tree).
Proof.
  intros [Hs Hp] Hn Hd Hfree. split.
  - intros k n [[<- <-]|[_ Hk]]%lookup_insert_Some; [|by eapply Hs].
    split; [by destruct names|done].
  - intros k x n [[E <-]|[_ Hk]]%lookup_insert_Some.
    + apply app_inj_tail in E as [-> ->]. destruct Hd as [->|Hd]; [by left|right].
      rewrite lookup_insert_ne; [done|]. intros E. by rewrite E, Hd in Hfree.
    + destruct (Hp _ _ _ Hk) as [->|Hd']; [by left|right].
      rewrite lookup_insert_ne; [done|]. intros E. by rewrite E, Hd' in Hfree.
Qed.

(** Creating directories changes no file, and adds directories on the way. *)
Lemma create_directories_spec names : forall tree current tree' r,
  create_safe_directories tree current names = (tree', r) ->
  contained tree -> Forall safe_name (current ++ names) ->
  current = [] \/ tree !! current = Some ExtractedDirectory ->
  contained tree' /\
  (forall k b x, tree' !! k = Some (ExtractedFile b x) <-> tree !! k = Some (ExtractedFile b x)) /\
  (forall k, tree' !! k = Some ExtractedDirectory -> tree !! k = Some ExtractedDirectory \/
     exists m, 1 <= m <= length names /\ k = current ++ take m names) /\
  (r = Ok tt -> current ++ names = [] \/ tree' !! (current ++ names) = Some ExtractedDirectory).
Proof.
  induction names as [|name names IH]; intros tree current tree' r; cbn [create_safe_directories].
  { intros [= <- <-] Hc _ Hd. rewrite app_nil_r. split_and!; try done. by left. }
  set (here := current ++ [name]). intros E Hc Hs Hd.
  assert (here ++ names = current ++ name :: names) as Eh by (unfold here; by rewrite <- app_assoc).
  assert (forall m, here ++ take m names = current ++ take (S m) (name :: names)) as Et
    by (intros m; unfold here; by rewrite <- app_assoc).
  destruct (tree !! here) as [[|b x]|] eqn:Eq.
  - apply IH in E as (Hc'&Hf&Hdir&Hr); [|done|by rewrite Eh|by right].
    rewrite Eh in Hr. split_and!; try done.
    intros k [Hk|(m&Hm&->)]%Hdir; [by left|right]. exists (S m). split; [simpl; lia|apply Et].
  - injection E as <- <-. split_and!; try done. by left.
  - assert (Forall safe_name here) as Hsh.
    { rewrite <- Eh in Hs. by apply Forall_app in Hs as [? _]. }
    apply IH in E as (Hc'&Hf&Hdir&Hr).
    + rewrite Eh in Hr. split_and!; try done.
      * intros k b x. rewrite Hf, lookup_insert_Some. split; [by intros [[_ ?]|[_ ?]]|].
        intros Hk. right. split; [|done]. intros <-. congruence.
      * intros k [[[<- _]|[_ Hk]]%lookup_insert_Some|(m&Hm&->)]%Hdir.
        -- right. exists 1. split; [simpl; lia|]. by rewrite <- Et, take_0, app_nil_r.
        -- by left.
        -- right. exists (S m). split; [simpl; lia|apply Et].
    + by apply contained_insert.
    + by rewrite Eh.
    + right. by rewrite lookup_insert_eq.
Qed.

(** What an item leaves behind. *)
Definition item_file (item : TarItem) (node : ExtractedNode) : Prop :=
  exists data mode, ti_data item = Ok data /\ ti_mode item = Ok mode /\
    node = ExtractedFile data (Z.land mode 73 != 0%Z).

Lemma removelast_app_last (names : list string) : names <> [] ->
  exists init name, names = init ++ [name] /\ removelast names = init.
Proof.
  intros Hne. destruct (exists_last Hne) as (init&name&->). exists init, name.
  split; [done|]. apply removelast_last.
Qed.

(** Writing one item: contained whatever happens; if it succeeds, one new file
    at a place that was free, and directories on the way to it. *)
Lemma write_item_spec tree normalized item tree' r names :
  write_item tree normalized item = (tree', r) -> contained tree ->
  split_path normalized = names -> names <> [] -> Forall safe_name names ->
  contained tree' /\
  (r = Ok tt -> (forall b x, tree !! names <> Some (ExtractedFile b x)) /\
   (exists node, item_file item node /\ tree' !! names = Some node) /\
   (forall k b x, k <> names -> tree' !! k = Some (ExtractedFile b x) <-> tree !! k = Some (ExtractedFile b x)) /\
   (forall k, tree' !! k = Some ExtractedDirectory -> tree !! k = Some ExtractedDirectory \/
      exists m, 1 <= m < length names /\ k = take m names)).
Proof.
  intros E Hc En Hne Hs. unfold write_item in E. rewrite En in E.
  destruct (removelast_app_last names Hne) as (init&name&Ei&Er). rewrite Er in E.
  destruct (create_safe_directories tree [] init) as [tree1 r1] eqn:Ed.
  assert (Forall safe_name init) as Hsi by (rewrite Ei in Hs; by apply Forall_app in Hs as [? _]).
  apply create_directories_spec in Ed as (Hc1&Hf&Hdir&Hok); [|done|done|by left].
  destruct r1 as [[]|e]; [|by injection E as <- <-]. specialize (Hok eq_refl). cbn in Hok.
  destruct (tree1 !! names) as [n|] eqn:Eq; [by injection E as <- <-|].
  assert (forall node, contained (<[names := node]> tree1)) as Hci.
  { intros node. rewrite Ei. rewrite Ei in Eq, Hs. by apply contained_insert. }
  destruct (ti_mode item) as [mode|] eqn:Em; [|injection E as <- <-; split; [apply Hci|done]].
  destruct (ti_data item) as [data|] eqn:Eda; injection E as <- <-; (split; [apply Hci|]); [|done].
  intros _. split_and!.
  - intros b x Hk. apply Hf in Hk. congruence.
  - eexists. split; [by exists data, mode|]. by rewrite lookup_insert_eq.
  - intros k b x Hk. by rewrite lookup_insert_ne by done.
  - intros k [[_ ?]|[_ Hk]]%lookup_insert_Some; [done|].
    destruct (Hdir _ Hk) as [?|(m&Hm&->)]; [by left|right]. exists m.
    rewrite Ei, length_app. simpl. split; [lia|]. by rewrite take_app_le by lia.
Qed.

(** An item as it was admitted, under its path. *)
Definition item_size (item : TarItem) : Z := match ti_size item with Ok size => size | Err _ => 0 end.
Definition admitted (i : string * TarItem) : Prop :=
  ti_regular i.2 = true /\
  (exists raw, ti_path i.2 = Ok raw /\ safe_relative_path raw = Ok i.1) /\
  (exists size, ti_size i.2 = Ok size) /\ (item_size i.2 <= MAX_FILE_BYTES)%Z.
Definition total_size (items : list (string * TarItem)) : Z :=
  foldr (λ i total, (item_size i.2 + total)%Z) 0%Z items.

Lemma total_size_app l l' : total_size (l ++ l') = (total_size l + total_size l')%Z.
Proof. induction l as [|i l IH]; simpl; [done|]. rewrite IH. lia. Qed.

(** The tree holds exactly the files of [items], and directories on the way. *)
Record extracts (items : list (string * TarItem)) (tree : Extracted) : Prop := {
  ex_contained : contained tree;
  ex_files : forall k b x, tree !! k = Some (ExtractedFile b x) <->
    exists i, i ∈ items /\ k = split_path i.1 /\ item_file i.2 (ExtractedFile b x);
  ex_directories : forall k, tree !! k = Some ExtractedDirectory ->
    exists i m, i ∈ items /\ 1 <= m < length (split_path i.1) /\ k = take m (split_path i.1) }.

(** The variables of the loop describe [items]. *)
Record counts (items : list (string * TarItem)) (s : ExtractionState) : Prop := {
  co_seen : xs_seen s = list_to_set items.*1;
  co_folded : xs_casefolded s = list_to_set (to_lowercase <$> items.*1);
  co_unique : NoDup items.*1;
  co_unique_folded : NoDup (to_lowercase <$> items.*1);
  co_count : xs_count s = Z.of_nat (length items);
  co_bytes : xs_bytes s = total_size items;
  co_bounds : (xs_count s <= MAX_FILE_COUNT)%Z /\ (xs_bytes s <= MAX_TREE_BYTES)%Z }.

Lemma extracts_start : extracts [] ∅.
Proof.
  split.
  - split; intros *; by rewrite lookup_empty.
  - intros k b x. rewrite lookup_empty. split; [done|]. by intros (i&Hi%not_elem_of_nil&_).
  - intros k. by rewrite lookup_empty.
Qed.
Lemma counts_start : counts [] extraction_start.
Proof. split; try done; constructor. Qed.

Lemma NoDup_snoc {A} (l : list A) x : NoDup l -> x ∉ l -> NoDup (l ++ [x]).
Proof.
  intros Hl Hx. apply NoDup_app. split_and!; [done| |apply NoDup_singleton].
  intros y Hy ->%list_elem_of_singleton. done.
Qed.

Lemma admit_item_spec items s item s' p : admit_item s item = Ok (s', p) -> counts items s ->
  admitted (p, item) /\ counts (items ++ [(p, item)]) s'.
Proof.
  unfold admit_item, net_io. intros Ha [Hseen Hfold Hnd Hndf Hcount Hbytes _]. res_inv. simplify_eq.
  unfold checked_add_u64, checked_add in *. repeat case_match; simplify_eq. split.
  - unfold admitted, item_size. simpl.
    match goal with H : ti_size _ = Ok _ |- _ => rewrite H end. eauto 10.
  - rewrite Hseen in *. rewrite Hfold in *. split; simpl; rewrite ?fmap_app, ?list_to_set_app_L; cbn.
    + set_solver.
    + set_solver.
    + apply NoDup_snoc; [done|]. set_solver.
    + apply NoDup_snoc; [done|]. set_solver.
    + rewrite length_app. simpl. lia.
    + rewrite total_size_app. unfold item_size. simpl. unfold item_size.
      match goal with H : ti_size _ = Ok _ |- _ => rewrite H end. lia.
    + lia.
Qed.

Lemma write_item_extracts items tree p item tree' r :
  write_item tree p item = (tree', r) -> extracts items tree -> admitted (p, item) ->
  contained tree' /\ (r = Ok tt -> extracts (items ++ [(p, item)]) tree').
Proof.
  intros Hw [Hc Hf Hd] (_&(raw&_&Hp)&_). simpl in Hp.
  destruct (safe_relative_path_Ok _ _ Hp) as (names&Hne&Hs&_&Hn&_).
  destruct (write_item_spec _ _ _ _ _ _ Hw Hc Hn Hne Hs) as [Hc' Hr]. split; [done|]. intros ->.
  destruct (Hr eq_refl) as (Hfree&(node&Hnode&Hat)&Hother&Hdirs). split; [done| |].
  - intros k b x. destruct (decide (k = names)) as [->|Hk].
    + rewrite Hat. split.
      * intros [= ->]. exists (p, item). simpl. rewrite Hn. split; [set_solver|done].
      * intros (i&[Hi| ->%list_elem_of_singleton]%elem_of_app&Ek&Hi').
        -- destruct (Hfree b x). apply Hf. by exists i.
        -- destruct Hnode as (d&m&Hd1&Hm1&->), Hi' as (d'&m'&Hd2&Hm2&E).
           cbn [snd] in Hd2, Hm2. rewrite Hd1 in Hd2. rewrite Hm1 in Hm2. injection Hd2 as ->.
           injection Hm2 as ->. by rewrite E.
    + rewrite (Hother k b x Hk), Hf. split.
      * intros (i&Hi&?). exists i. split; [set_solver|done].
      * intros (i&[Hi| ->%list_elem_of_singleton]%elem_of_app&Ek&Hi'); [by exists i|].
        simpl in Ek. congruence.
  - intros k [(i&m&Hi&Hm&->)%Hd|(m&Hm&->)]%Hdirs.
    + exists i, m. split; [set_solver|done].
    + exists (p, item), m. simpl. rewrite Hn. split; [set_solver|done].
Qed.

Lemma extract_loop_spec items : forall s tree past tree' r,
  extract_loop s tree items = (tree', r) -> extracts past tree -> counts past s ->
  contained tree' /\
  (forall s', r = Ok s' -> exists added, items = (λ i, Ok i.2) <$> added /\ Forall admitted added /\
     extracts (past ++ added) tree' /\ counts (past ++ added) s').
Proof.
  induction items as [|[item|e] items IH]; intros s tree past tree' r E He Hc; cbn [extract_loop] in E.
  - injection E as <- <-. split; [by destruct He|]. intros s' [= <-]. exists []. rewrite app_nil_r.
    split_and!; try done.
  - destruct (admit_item s item) as [[s1 p]|] eqn:Ea; [|injection E as <- <-; split; [by destruct He|done]].
    destruct (admit_item_spec _ _ _ _ _ Ea Hc) as [Hadm Hc1].
    destruct (write_item tree p item) as [tree1 r1] eqn:Ew.
    destruct (write_item_extracts _ _ _ _ _ _ Ew He Hadm) as [Hct Hr].
    destruct r1 as [[]|e]; [|injection E as <- <-; by split].
    destruct (IH _ _ _ _ _ E (Hr eq_refl) Hc1) as [Hct' Hex]. split; [done|].
    intros s' (added&->&Hadd&Hext&Hcnt)%Hex. exists ((p, item) :: added).
    rewrite <- (app_assoc past [(p, item)] added) in Hext, Hcnt. split_and!; try done. by constructor.
  - injection E as <- <-. split; [by destruct He|done].
Qed.
End extraction.

Section theorems.
Context `{Unicode} `{Platform} `{Tar}.

(** [C22] Extraction never leaves its destination: whatever the archive holds and
    however extraction ends, everything that was created is named by plain
    names below the destination (no parent directories, no absolute paths, no
    separators, no control characters), inside directories that extraction
    created too. *)
Theorem extraction_contained artifact destination expected tree r :
  extract_verified_snapshot artifact destination expected = (tree, r) -> contained tree.
Proof.
  unfold extract_verified_snapshot. intros E.
  destruct (_ ≫= _) as [items|]; [|injection E as <- <-; apply extracts_start].
  destruct (extract_loop extraction_start ∅ items) as [tree' r'] eqn:El.
  apply (extract_loop_spec _ _ _ []) in El as [Hc _]; [|apply extracts_start|apply counts_start].
  by destruct r'; injection E as <- <-.
Qed.

Lemma extraction_Ok artifact destination expected tree report :
  extract_verified_snapshot artifact destination expected = (tree, Ok report) ->
  exists bytes items s, extraction_input artifact destination expected = Ok bytes /\
    tar_entries bytes = Ok ((λ i, Ok i.2) <$> items) /\ Forall admitted items /\
    extracts items tree /\ counts items s /\ report = report_of s.
Proof.
  unfold extract_verified_snapshot. intros E.
  destruct (_ ≫= _) as [entries|] eqn:Ei; [|done].
  apply bind_Ok in Ei as (bytes&Hi&He%map_err_Ok).
  destruct (extract_loop extraction_start ∅ entries) as [tree' r'] eqn:El.
  apply (extract_loop_spec _ _ _ []) in El as [_ Hex]; [|apply extracts_start|apply counts_start].
  destruct r' as [s|]; [|done]. injection E as <- <-.
  destruct (Hex s eq_refl) as (added&->&?&?&?). by exists bytes, added, s.
Qed.

(** A successful extraction is exact: the bytes had the expected digest when
    they were hashed; every entry of the archive is a regular file under a safe
    path; the paths are distinct, even up to case; the destination holds
    exactly the entries' files, with their contents and executable bits; and
    the report counts them within the bounds. *)
Theorem extraction_exact artifact destination expected tree report :
  extract_verified_snapshot artifact destination expected = (tree, Ok report) ->
  exists bytes items, af_bytes artifact = Ok bytes /\
    (forall digest, expected = Some digest ->
       exists hashed, af_hashed artifact = Ok hashed /\ sha256 hashed = digest) /\
    tar_entries bytes = Ok ((λ i, Ok i.2) <$> items) /\ Forall admitted items /\
    NoDup items.*1 /\ NoDup (to_lowercase <$> items.*1) /\
    (forall names data x, tree !! names = Some (ExtractedFile data x) <->
       exists i, i ∈ items /\ names = split_path i.1 /\ item_file i.2 (ExtractedFile data x)) /\
    er_paths report ≡ₚ items.*1 /\
    er_file_count report = Z.of_nat (length items) /\ (er_file_count report <= 100000)%Z /\
    er_source_byte_length report = total_size items /\
    (er_source_byte_length report <= 2147483648)%Z.
Proof.
  intros (bytes&items&s&Hi&He&Ha&[_ Hf _]&[Hseen _ Hnd Hndf Hc Hb [Hbc Hbb]]&->)%extraction_Ok.
  exists bytes, items. unfold extraction_input in Hi.
  apply bind_Ok in Hi as (m&_&Hi). apply bind_Ok in Hi as (?&_&Hi). apply bind_Ok in Hi as (?&_&Hi).
  apply bind_Ok in Hi as (?&_&Hi). apply bind_Ok in Hi as (?&_&Hi). apply bind_Ok in Hi as (?&_&Hi).
  apply bind_Ok in Hi as (?&Hx&Hi%map_err_Ok). cbn [report_of er_paths er_file_count er_source_byte_length].
  split_and!; try done.
  - intros digest ->. apply bind_Ok in Hx as (hashed&Hh%map_err_Ok&Hx). exists hashed. by res_inv.
  - by rewrite (stable_sort_perm _), Hseen, elements_list_to_set.
Qed.
End theorems.
