(* ===== verification/NetworkCollection.v ===== *)
(** * Laws of snapshots

    Which files of a source directory a snapshot holds, that none of them is a
    secret, and that the archive of a snapshot extracts to exactly its files. *)
From S2P Require Import Prelude Text Digest FileTree NetworkCatalog NetworkSnapshot NetworkSnapshotLaws.

(** ** Directories *)

(** Induction over the items of one listing. *)
Lemma fs_items_ind (P : FsItems -> Prop) :
  P NoMoreItems -> (forall error items, P items -> P (ItemError error items)) ->
  (forall name node items, P items -> P (Item name node items)) -> forall items, P items.
Proof.
  intros H0 H1 H2. fix IH 1. intros [|error items|name node items]; [done|apply H1, IH|apply H2, IH].
Qed.

(** The metadata of an entry say that it is a directory. *)
Definition directory (n : FsNode) : bool :=
  match fs_metadata n with Ok m => is_dir m | Err _ => false end.

Fixpoint find_item (name : string) (items : FsItems) : option FsNode :=
  match items with
  | NoMoreItems => None
  | ItemError _ items => find_item name items
  | Item other node items => if decide (other = name) then Some node else find_item name items
  end.

(** What a list of names leads to. *)
Fixpoint node_at (names : list string) (n : FsNode) : option FsNode :=
  match names with
  | [] => Some n
  | name :: names =>
      if directory n then child ← find_item name (fs_items n); node_at names child else None
  end.

Fixpoint item_names (items : FsItems) : list string :=
  match items with
  | NoMoreItems => []
  | ItemError _ items => item_names items
  | Item name _ items => name :: item_names items
  end.

(** A directory as a file system lists it: plain names, each once. *)
Fixpoint well_listed (n : FsNode) : Prop :=
  match n with MkFsNode _ _ _ items => NoDup (item_names items) /\ well_listed_items items end
with well_listed_items (items : FsItems) : Prop :=
  match items with
  | NoMoreItems => True
  | ItemError _ items => well_listed_items items
  | Item name node items => plain_name name /\ well_listed node /\ well_listed_items items
  end.

Lemma well_listed_dir n : well_listed n -> NoDup (item_names (fs_items n)) /\ well_listed_items (fs_items n).
Proof. by destruct n. Qed.

Lemma collect_items_spec items l : collect_items items = Ok l ->
  l.*1 = item_names items /\
  (NoDup (item_names items) -> forall name node, (name, node) ∈ l <-> find_item name items = Some node).
Proof.
  revert l. induction items as [|error items IH|name node items IH] using fs_items_ind; try done.
  - intros l [= <-]. split; [done|]. intros _ name node. split; [by intros ?%not_elem_of_nil|done].
  - intros l. cbn [collect_items item_names find_item]. intros Hl. apply bind_Ok in Hl as (rest&Hr&[= <-]).
    destruct (IH _ Hr) as [Hn Hin]. split; [cbn; by rewrite Hn|].
    intros Hnd. apply NoDup_cons in Hnd as [Hnot Hnd]. specialize (Hin Hnd). intros name' node'.
    rewrite elem_of_cons, Hin. case_decide as E.
    + subst. split; [|intros [= ->]; by left]. intros [[= ->]|Hf]; [done|].
      destruct Hnot. rewrite <- Hn. apply Hin in Hf. by apply (list_elem_of_fmap_2 fst) in Hf.
    + split; [|by right]. intros [[= -> ->]|Hf]; done.
Qed.

Lemma well_listed_item items name node : well_listed_items items -> find_item name items = Some node ->
  plain_name name /\ well_listed node.
Proof.
  induction items as [|error items IH|other n items IH] using fs_items_ind; try done.
  cbn [well_listed_items find_item]. intros (Hp&Hw&Hws) Hf. case_decide; [by simplify_eq|by apply IH].
Qed.

Lemma node_at_app names1 : forall names2 n,
  node_at (names1 ++ names2) n = (child ← node_at names1 n; node_at names2 child).
Proof.
  induction names1 as [|name names1 IH]; intros names2 n; [done|]. cbn [app node_at].
  destruct (directory n); [|done]. destruct (find_item name (fs_items n)); [apply IH|done].
Qed.

(** ** Collection *)

Section collection.
Context `{Unicode}.

Definition entry_for (names : list string) (m : Metadata) : FileEntry :=
  {| fl_absolute := names; fl_relative := join_path names; fl_byte_length := md_len m;
     fl_executable := executable m |}.

(** The file at [names] below the directory [n], itself at [at_], goes into the
    snapshot: no directory on the way is excluded, nor is its own name. *)
Definition selected (at_ : list string) (n : FsNode) (names : list string) (node : FsNode)
    (m : Metadata) : Prop :=
  names <> [] /\ node_at names n = Some node /\ fs_metadata node = Ok m /\
  is_dir m = false /\
  (forall k, 1 <= k < length names -> excluded_directory (join_path (at_ ++ take k names)) = false) /\
  excluded_file (join_path (at_ ++ names)) = false.

(** A file that may be made public. *)
Definition publishable (names : list string) (node : FsNode) (m : Metadata) : Prop :=
  is_file m = true /\ md_nlink m = 1%Z /\ (md_len m <= MAX_FILE_BYTES)%Z /\
  Forall safe_name names /\ secret_path (join_path names) = false /\
  (md_len m <= 8 * 1024 * 1024 ->
     exists bytes, rd_bytes (fs_reads node) = Ok bytes /\ secret_bytes bytes = false)%Z.

(** What the walk of [n] at [at_] adds. *)
Definition adds (at_ : list string) (n : FsNode) (new : list FileEntry) : Prop :=
  forall f, f ∈ new <->
    exists names node m, selected at_ n names node m /\ f = entry_for (at_ ++ names) m.
Definition all_publishable (at_ : list string) (n : FsNode) : Prop :=
  forall names node m, selected at_ n names node m -> publishable (at_ ++ names) node m.

Lemma relative_of_plain path relative : path <> [] -> Forall plain_name path ->
  safe_relative_path (join_path path) = Ok relative ->
  relative = join_path path /\ Forall safe_name path.
Proof.
  intros Hne Hp (names&Hn&Hs&->&_&Hc)%safe_relative_path_Ok.
  rewrite components_join in Hc by done.
  assert (path = names) as ->; [|done].
  clear -Hc. revert names Hc. induction path as [|p path IH]; intros [|n names] Hc; try done.
  injection Hc as -> Hc. f_equal. by apply IH.
Qed.

(** What one child adds: a selected file below it, or itself. *)
Definition child_adds (at_ : list string) (child : string * FsNode) (f : FileEntry) : Prop :=
  exists m, fs_metadata child.2 = Ok m /\
    (if is_dir m then excluded_directory (join_path (at_ ++ [child.1])) = false /\
       exists names node m', selected (at_ ++ [child.1]) child.2 names node m' /\
         f = entry_for (at_ ++ [child.1] ++ names) m'
     else excluded_file (join_path (at_ ++ [child.1])) = false /\ f = entry_for (at_ ++ [child.1]) m).
Definition child_publishable (at_ : list string) (child : string * FsNode) : Prop :=
  exists m, fs_metadata child.2 = Ok m /\
    (if is_dir m then excluded_directory (join_path (at_ ++ [child.1])) = false ->
       all_publishable (at_ ++ [child.1]) child.2
     else excluded_file (join_path (at_ ++ [child.1])) = false ->
       publishable (at_ ++ [child.1]) child.2 m).

Section child.
Context (recurse : list string -> FsNode -> list FileEntry -> network_result (list FileEntry)).
Context (recurse_Ok : forall at_ n files out, Forall plain_name at_ -> well_listed n -> directory n = true ->
  recurse at_ n files = Ok out ->
  exists new, out = files ++ new /\ adds at_ n new /\ all_publishable at_ n).

Lemma collect_child_Ok at_ files child out : Forall plain_name at_ -> plain_name child.1 ->
  well_listed child.2 -> collect_child recurse at_ files child = Ok out ->
  exists new, out = files ++ new /\ (forall f, f ∈ new <-> child_adds at_ child f) /\
    child_publishable at_ child.
Proof.
  intros Hat Hn Hw Hc. unfold collect_child, net_io in Hc.
  apply bind_Ok in Hc as (m&Hm%map_err_Ok&Hc). apply bind_Ok in Hc as (relative&Hr&Hc).
  assert (Forall plain_name (at_ ++ [child.1])) as Hpl by (apply Forall_app_2; [done|by apply Forall_singleton]).
  apply relative_of_plain in Hr as [-> Hsafe]; [|by destruct at_|done].
  apply bind_Ok in Hc as (?&Hu%fail_if_Ok&Hc). unfold child_adds, child_publishable.
  destruct (is_dir m) eqn:Hd.
  - destruct (excluded_directory (join_path (at_ ++ [child.1]))) eqn:Hx.
    { injection Hc as <-. exists []. rewrite app_nil_r. split; [done|]. split; [|exists m; by rewrite Hd].
      intros f. split; [by intros ?%not_elem_of_nil|]. intros (m'&Hm'&Hf).
      rewrite Hm in Hm'. injection Hm' as <-. rewrite Hd in Hf. destruct Hf as [? _]. congruence. }
    apply recurse_Ok in Hc as (new&->&Ha&Hpub); [|done|done|by unfold directory; rewrite Hm].
    exists new. split; [done|]. split; [|exists m; by rewrite Hd].
    intros f. rewrite (Ha f). split.
    + intros (names&node&m'&Hs&->). exists m. split; [done|]. rewrite Hd. split; [done|].
      exists names, node, m'. split; [done|]. by rewrite app_assoc.
    + intros (m'&Hm'&Hf). rewrite Hm in Hm'. injection Hm' as <-. rewrite Hd in Hf.
      destruct Hf as (_&names&node&m'&Hs&->). exists names, node, m'. split; [done|]. by rewrite <- app_assoc.
  - apply bind_Ok in Hc as (?&Hsec%fail_if_Ok&Hc).
    destruct (excluded_file (join_path (at_ ++ [child.1]))) eqn:Hx.
    { injection Hc as <-. exists []. rewrite app_nil_r. split; [done|]. split; [|exists m; by rewrite Hd].
      intros f. split; [by intros ?%not_elem_of_nil|]. intros (m'&Hm'&Hf).
      rewrite Hm in Hm'. injection Hm' as <-. rewrite Hd in Hf. destruct Hf as [? _]. congruence. }
    apply bind_Ok in Hc as (?&Hlen%fail_if_Ok%Z.ltb_ge&Hc). apply bind_Ok in Hc as (secret&Hs&Hc).
    apply bind_Ok in Hc as (?&Hns%fail_if_Ok&[= <-]). subst secret. eexists. split; [done|]. split.
    + intros f. rewrite list_elem_of_singleton. split.
      * intros ->. exists m. by rewrite Hd.
      * intros (m'&Hm'&Hf). rewrite Hm in Hm'. injection Hm' as <-. rewrite Hd in Hf. by destruct Hf as [_ ->].
    + exists m. split; [done|]. rewrite Hd. intros _.
      apply orb_false_iff in Hu as [[_ Hty]%orb_false_iff Hln].
      cbn [negb andb] in Hty. apply negb_false_iff in Hty. rewrite Hty in Hln. cbn [andb] in Hln.
      unfold has_multiple_links in Hln. apply negb_false_iff, bool_decide_eq_true in Hln.
      unfold publishable. split_and!; try done.
      intros Hsmall. unfold likely_secret_content, net_io in Hs.
      rewrite (proj2 (Z.ltb_ge _ _) Hsmall) in Hs. apply bind_Ok in Hs as (?&_&Hs).
      apply bind_Ok in Hs as (bytes&Hb%map_err_Ok&[= Hs]). by exists bytes.
Qed.

Lemma collect_children_Ok at_ children : forall files out, Forall plain_name at_ ->
  Forall (λ c, plain_name c.1 /\ well_listed c.2) children ->
  try_fold (collect_child recurse at_) files children = Ok out ->
  exists new, out = files ++ new /\ (forall f, f ∈ new <-> exists c, c ∈ children /\ child_adds at_ c f) /\
    Forall (child_publishable at_) children.
Proof.
  induction children as [|c children IH]; intros files out Hat Hcs Hf; cbn [try_fold] in Hf.
  { injection Hf as <-. exists []. rewrite app_nil_r. split_and!; [done| |constructor].
    intros f. split; [by intros ?%not_elem_of_nil|]. by intros (?&?%not_elem_of_nil&_). }
  apply Forall_cons in Hcs as [[Hn Hw] Hcs]. apply bind_Ok in Hf as (files1&Hc&Hf).
  apply collect_child_Ok in Hc as (new1&->&Ha1&Hp1); [|done..].
  apply IH in Hf as (new2&->&Ha2&Hp2); [|done..]. exists (new1 ++ new2). rewrite app_assoc.
  split_and!; [done| |by constructor]. intros f. rewrite elem_of_app, Ha1, Ha2. set_solver.
Qed.
End child.

Lemma selected_cons at_ n name names node m : names <> [] ->
  selected at_ n (name :: names) node m <->
  directory n = true /\ exists child, find_item name (fs_items n) = Some child /\
    directory child = true /\ excluded_directory (join_path (at_ ++ [name])) = false /\
    selected (at_ ++ [name]) child names node m.
Proof.
  intros Hne. unfold selected. cbn [node_at]. split.
  - intros (_&Hn&Hm&Hd&Hx&Hf). destruct (directory n); [|done]. split; [done|].
    apply bind_Some in Hn as (child&Hc&Hn). exists child. split; [done|].
    assert (directory child = true) as Hdc by (destruct names; [done|]; cbn in Hn; by destruct (directory child)).
    rewrite <- !app_assoc. split_and!; try done.
    + apply (Hx 1). destruct names; [done|]. simpl. lia.
    + intros k Hk. rewrite <- app_assoc. apply (Hx (S k)). simpl. lia.
  - intros (->&child&Hc&_&Hx1&_&Hn&Hm&Hd&Hx&Hf). rewrite Hc. cbn.
    rewrite <- app_assoc in Hf. split_and!; try done.
    intros [|[|k]] Hk; [lia|done|]. specialize (Hx (S k)). rewrite <- app_assoc in Hx. apply Hx.
    simpl in Hk. lia.
Qed.

Lemma selected_single at_ n name node m :
  selected at_ n [name] node m <->
  directory n = true /\ find_item name (fs_items n) = Some node /\ fs_metadata node = Ok m /\
  is_dir m = false /\ excluded_file (join_path (at_ ++ [name])) = false.
Proof.
  unfold selected. cbn [node_at length]. split.
  - intros (_&Hn&Hm&Hd&_&Hf). destruct (directory n); [|done]. by apply bind_Some in Hn as (?&?&[= ->]).
  - intros (->&Hc&Hm&Hd&Hf). rewrite Hc. split_and!; try done. lia.
Qed.

Lemma collect_directory_Ok fuel : forall at_ n files out, Forall plain_name at_ -> well_listed n ->
  directory n = true -> collect_directory fuel at_ n files = Ok out ->
  exists new, out = files ++ new /\ adds at_ n new /\ all_publishable at_ n.
Proof.
  induction fuel as [|fuel IH]; intros at_ n files out Hat Hw Hdn Hc; [done|].
  cbn [collect_directory] in Hc. apply bind_Ok in Hc as (?&_&Hc).
  apply bind_Ok in Hc as (children&Hch%map_err_Ok&Hc).
  apply well_listed_dir in Hw as [Hnd Hwi]. destruct (collect_items_spec _ _ Hch) as [_ Hin].
  specialize (Hin Hnd).
  assert (stable_sort child_name_leb children ≡ₚ children) as Hp by apply stable_sort_perm.
  apply (collect_children_Ok _ IH) in Hc as (new&->&Ha&Hpub); [|done|].
  2: { rewrite Hp, Forall_forall. intros [name node] Hi%Hin. by eapply well_listed_item. }
  rewrite Hp in Hpub. rewrite Forall_forall in Hpub. exists new. split; [done|]. split.
  - intros f. rewrite (Ha f). setoid_rewrite Hp. split.
    + intros ([name node]&Hi%Hin&m&Hm&Hf). simpl in *. destruct (is_dir m) eqn:Hd.
      * destruct Hf as (Hx&names&nd&m'&Hs&->). exists (name :: names), nd, m'. split; [|done].
        apply selected_cons; [by destruct Hs|]. split; [done|]. exists node.
        split_and!; try done. unfold directory. by rewrite Hm.
      * destruct Hf as [Hx ->]. exists [name], node, m. split; [|done]. by apply selected_single.
    + intros ([|name [|name' names]]&nd&m&Hs&->); [by destruct Hs|..].
      * apply selected_single in Hs as (_&Hi&Hm&Hd&Hx). exists (name, nd). split; [by apply Hin|].
        exists m. simpl. by rewrite Hd.
      * apply selected_cons in Hs as (_&child&Hi&Hd&Hx&Hs); [|done]. exists (name, child).
        split; [by apply Hin|]. unfold directory in Hd. destruct (fs_metadata child) as [mc|] eqn:Hm; [|done].
        exists mc. simpl. rewrite Hd. split_and!; try done. by eexists _, _, _.
  - intros [|name [|name' names]] nd m Hs; [by destruct Hs|..].
    + apply selected_single in Hs as (_&Hi&Hm&Hd&Hx). apply Hin, Hpub in Hi as (m'&Hm'&Hq). simpl in *.
      rewrite Hm in Hm'. injection Hm' as <-. rewrite Hd in Hq. by apply Hq.
    + apply selected_cons in Hs as (_&child&Hi&Hd&Hx&Hs); [|done].
      apply Hin, Hpub in Hi as (m'&Hm'&Hq). unfold directory in Hd. simpl in *. rewrite Hm' in Hd.
      rewrite Hd in Hq. specialize (Hq Hx _ _ _ Hs). by rewrite <- app_assoc in Hq.
Qed.

Definition total_length (files : list FileEntry) : Z :=
  foldr (λ f total, (fl_byte_length f + total)%Z) 0%Z files.

Lemma collision_loop_Ok files : forall seen folded total out,
  collision_loop seen folded total files = Ok out ->
  out = (total + total_length files)%Z /\ NoDup (fl_relative <$> files) /\
  NoDup (to_lowercase <$> (fl_relative <$> files)) /\
  Forall (λ p, p ∉ seen) (fl_relative <$> files) /\
  Forall (λ p, p ∉ folded) (to_lowercase <$> (fl_relative <$> files)).
Proof.
  induction files as [|f files IH]; intros seen folded total out; cbn [collision_loop].
  { intros [= <-]. cbn. split_and!; try constructor. lia. }
  intros Hc. apply bind_Ok in Hc as (?&Hf%fail_if_Ok&Hc). apply orb_false_iff in Hf as [Hs Hl].
  apply bool_decide_eq_false in Hs, Hl. apply bind_Ok in Hc as (t&Ht%ok_or_Ok&Hc).
  unfold checked_add_u64, checked_add in Ht. case_match; [|done]. injection Ht as <-.
  apply IH in Hc as (->&Hnd&Hndf&Hns&Hnf). cbn [fmap list_fmap]. rewrite Forall_forall in Hns, Hnf. split_and!.
  - simpl. lia.
  - constructor; [|done]. intros Hin. specialize (Hns _ Hin). set_solver.
  - constructor; [|done]. intros Hin. specialize (Hnf _ Hin). set_solver.
  - constructor; [done|]. apply Forall_forall. intros p Hp. specialize (Hns p Hp). set_solver.
  - constructor; [done|]. apply Forall_forall. intros p Hp. specialize (Hnf p Hp). set_solver.
Qed.

(** What a collection is. *)
Lemma collect_files_Ok root files : well_listed root -> directory root = true ->
  collect_files root = Ok files ->
  (forall f, f ∈ files <-> exists names node m, selected [] root names node m /\ f = entry_for names m) /\
  all_publishable [] root /\ StronglySorted (λ a b, relative_leb a b = true) files /\
  NoDup (fl_relative <$> files) /\ NoDup (to_lowercase <$> (fl_relative <$> files)) /\
  (Z.of_nat (length files) <= MAX_FILE_COUNT)%Z /\ (total_length files <= MAX_TREE_BYTES)%Z.
Proof.
  intros Hw Hd Hc. unfold collect_files in Hc. apply bind_Ok in Hc as (walked&Hwalk&Hc).
  apply collect_directory_Ok in Hwalk as (new&->&Ha&Hp); [|constructor|done|done].
  rewrite app_nil_l in Hc. apply bind_Ok in Hc as (total&Hl&Hc).
  apply collision_loop_Ok in Hl as (->&Hnd&Hndf&_&_). apply bind_Ok in Hc as (?&Hb%fail_if_Ok&[= <-]).
  apply orb_false_iff in Hb as [Hb1%Z.ltb_ge Hb2%Z.ltb_ge].
  split_and!; try done.
  - intros f. rewrite (stable_sort_perm relative_leb new : stable_sort relative_leb new ≡ₚ new). apply Ha.
  - apply stable_sort_sorted; [intros a b; apply bytes_leb_total|intros a b c; apply bytes_leb_trans].
Qed.

(** [C21] A snapshot holds exactly the files it should and no secret: every regular
    file of the source directory outside the excluded directories, except
    editor and log files, each once, in the order of their paths; and none of
    them has the name of a secret, more than one link or an unsafe name, nor,
    up to eight mebibytes, contents in which secret material is found; the
    number of files and their total length are bounded, and no two paths
    differ only in case. *)
Theorem snapshot_is_publishable root files : well_listed root -> directory root = true ->
  collect_files root = Ok files ->
  (forall f, f ∈ files <-> exists names node m, selected [] root names node m /\ f = entry_for names m) /\
  (forall names node m, selected [] root names node m -> publishable names node m) /\
  NoDup (to_lowercase <$> (fl_relative <$> files)) /\
  (Z.of_nat (length files) <= 100000)%Z /\ (total_length files <= 2147483648)%Z.
Proof. intros Hw Hd Hc. by destruct (collect_files_Ok _ _ Hw Hd Hc) as (?&?&?&?&?&?&?). Qed.
End collection.

(** ** Archives that can be extracted *)

(** What the entry written for a file answers. *)
Definition item_of (f : TarFile) : TarItem :=
  {| ti_regular := true; ti_path := Ok (tf_path f); ti_size := Ok (tf_size f);
     ti_mode := Ok (tf_mode f); ti_data := Ok (tf_data f) |}.

(** The tar format carries regular files: reading what was appended for files
    whose size is the length of their data, then finished, gives their entries. *)
Class TarLaws `{Tar} := {
  tar_round_trip : forall files blocks,
    Forall2 (λ f b, tar_append f = Ok b) files blocks ->
    Forall (λ f, tf_size f = Z.of_nat (length (tf_data f))) files ->
    tar_entries (concat blocks ++ tar_finish) = Ok ((λ f, Ok (item_of f)) <$> files) }.

Section extraction.
Context `{Unicode}.

(** Files that can stand together below one directory, within the bounds. *)
Record extractable (files : list TarFile) : Prop := {
  xt_safe : Forall (λ f, exists names, names <> [] /\ Forall safe_name names /\ tf_path f = join_path names) files;
  xt_unique : NoDup (tf_path <$> files);
  xt_unique_folded : NoDup (to_lowercase <$> (tf_path <$> files));
  xt_files : forall f g m, f ∈ files -> g ∈ files -> m < length (split_path (tf_path g)) ->
    split_path (tf_path f) <> take m (split_path (tf_path g));
  xt_sizes : Forall (λ f, 0 <= tf_size f <= MAX_FILE_BYTES)%Z files;
  xt_total : (foldr (λ f total, tf_size f + total) 0 files <= MAX_TREE_BYTES)%Z;
  xt_count : (Z.of_nat (length files) <= MAX_FILE_COUNT)%Z }.

Definition past_of (files : list TarFile) : list (string * TarItem) := (λ f, (tf_path f, item_of f)) <$> files.

Lemma past_paths files : (past_of files).*1 = tf_path <$> files.
Proof. unfold past_of. rewrite <- list_fmap_compose. by apply list_fmap_ext. Qed.
Lemma past_total files : total_size (past_of files) = foldr (λ f total, tf_size f + total)%Z 0%Z files.
Proof. induction files as [|f files IH]; [done|]. simpl. by rewrite IH. Qed.

(** Directories can be created where no file is in the way. *)
Lemma create_directories_succeeds names : forall tree current,
  (forall m b x, 1 <= m <= length names -> tree !! (current ++ take m names) <> Some (ExtractedFile b x)) ->
  exists tree', create_safe_directories tree current names = (tree', Ok tt).
Proof.
  induction names as [|name names IH]; intros tree current Hfree; cbn [create_safe_directories]; [by eexists|].
  assert (forall m b x, 1 <= m <= length names ->
    tree !! ((current ++ [name]) ++ take m names) <> Some (ExtractedFile b x)) as Hf.
  { intros m b x Hm. rewrite <- app_assoc. apply (Hfree (S m)). simpl. lia. }
  destruct (tree !! (current ++ [name])) as [[|b x]|] eqn:E.
  - by apply IH.
  - by destruct (Hfree 1 b x ltac:(simpl; lia)).
  - apply IH. intros m b x Hm [[_ ?]|[_ Hk]]%lookup_insert_Some; [done|]. by apply (Hf m b x).
Qed.

Lemma write_item_succeeds past tree f files : extractable files -> f ∈ files -> (forall g, g ∈ past -> g ∈ files) ->
  tf_path f ∉ tf_path <$> past -> extracts (past_of past) tree ->
  exists tree', write_item tree (tf_path f) (item_of f) = (tree', Ok tt).
Proof.
  intros [Hsafe _ _ Hfree _ _ _] Hf Hpast Hnew He. rewrite Forall_forall in Hsafe.
  destruct (Hsafe f Hf) as (names&Hne&Hs&Hpath).
  assert (split_path (tf_path f) = names) as En by (rewrite Hpath; apply split_path_join; [done|by apply safe_name_plain]).
  assert (forall b x k, tree !! k = Some (ExtractedFile b x) -> exists g, g ∈ past /\ k = split_path (tf_path g)) as Hfile.
  { intros b x k (i&Hi&->&_)%(ex_files _ _ He). apply list_elem_of_fmap in Hi as (g&->&Hg). by exists g. }
  unfold write_item. rewrite En. destruct (removelast_app_last names Hne) as (init&name&Ei&Er). rewrite Er.
  destruct (create_directories_succeeds init tree []) as [tree1 Ed].
  { intros m b x Hm (g&Hg&Eg)%Hfile. cbn in Eg. symmetry in Eg.
    apply (Hfree g f m); [by apply Hpast|done|rewrite En, Ei, length_app; simpl; lia|].
    rewrite Eg, En, Ei. by rewrite take_app_le by lia. }
  rewrite Ed.
  apply create_directories_spec in Ed as (_&Hf1&Hd1&_);
    [|by destruct He|rewrite Ei in Hs; by apply Forall_app in Hs as [? _]|by left].
  destruct (tree1 !! names) as [[|b x]|] eqn:E; [exfalso..|by eexists].
  - apply Hd1 in E as [E|(m&Hm&E)].
    + apply (ex_directories _ _ He) in E as (i&m&Hi&Hm&E). apply list_elem_of_fmap in Hi as (g&->&Hg).
      simpl in *. apply (Hfree f g m); [done|by apply Hpast|lia|congruence].
    + apply (f_equal length) in E. rewrite Ei, length_app, app_nil_l, length_take in E. simpl in E. lia.
  - apply Hf1, Hfile in E as (g&Hg&Eg). apply Hnew.
    destruct (Hsafe g (Hpast g Hg)) as (names'&Hne'&Hs'&Hpath').
    assert (split_path (tf_path g) = names') as En' by (rewrite Hpath'; apply split_path_join; [done|by apply safe_name_plain]).
    assert (tf_path f = tf_path g) as -> by (rewrite Hpath, Hpath'; congruence).
    by apply list_elem_of_fmap_2.
Qed.

Lemma total_suffix past rest files : files = past ++ rest ->
  Forall (λ f, 0 <= tf_size f <= MAX_FILE_BYTES)%Z files ->
  (foldr (λ f total, tf_size f + total) 0 past <= foldr (λ f total, tf_size f + total) 0 files)%Z /\
  (0 <= foldr (λ f total, tf_size f + total) 0 past)%Z.
Proof.
  intros -> Hs. induction past as [|f past IH]; simpl in *.
  - split; [|done]. induction Hs; simpl; lia.
  - apply Forall_cons in Hs as [Hf Hs]. specialize (IH Hs). lia.
Qed.

Lemma admit_item_succeeds past f rest s : extractable (past ++ f :: rest) -> counts (past_of past) s ->
  exists s', admit_item s (item_of f) = Ok (s', tf_path f).
Proof.
  intros [Hsafe Hnd Hndf _ Hsz Htot Hcnt] [Hseen Hfold _ _ Hc Hb _].
  rewrite Forall_forall in Hsafe. destruct (Hsafe f ltac:(set_solver)) as (names&Hne&Hs&Hp).
  rewrite past_paths in *. rewrite past_total in Hb. unfold past_of in Hc. rewrite length_fmap in Hc.
  destruct (total_suffix (past ++ [f]) rest _ ltac:(by rewrite <- app_assoc) Hsz) as [Ht _].
  assert (foldr (λ f total, tf_size f + total) 0 (past ++ [f])
    = foldr (λ f total, tf_size f + total) 0 past + tf_size f)%Z as Ea.
  { clear. induction past as [|g past IH]; simpl; [lia|]. rewrite IH. lia. }
  rewrite Forall_forall in Hsz. specialize (Hsz f ltac:(set_solver)) as Hf.
  destruct (total_suffix past (f :: rest) _ eq_refl ltac:(by apply Forall_forall)) as [_ Hpos].
  rewrite length_app in Hcnt. simpl in Hcnt.
  unfold admit_item, item_of, net_io. cbn [ti_regular ti_path ti_size negb fail_if map_err mbind Result_bind].
  rewrite Hp, safe_relative_path_join by done. rewrite <- Hp. cbn [mbind Result_bind].
  rewrite Hseen, Hfold, !fmap_app in *. cbn in Hnd, Hndf.
  apply NoDup_app in Hnd as (_&Hnd&_), Hndf as (_&Hndf&_).
  rewrite !bool_decide_eq_false_2 by (rewrite elem_of_list_to_set; intros Hin; (by apply (Hnd _ Hin); left) || (by apply (Hndf _ Hin); left)).
  cbn [orb fail_if mbind Result_bind]. rewrite (proj2 (Z.ltb_ge _ _)) by lia. cbn [fail_if mbind Result_bind].
  unfold checked_add_u64, checked_add. rewrite Hc, Hb.
  change ([f] ++ rest) with (f :: rest) in Ht. unfold MAX_TREE_BYTES, MAX_FILE_COUNT, U64_MAX in *.
  rewrite !(proj2 (Z.leb_le _ _)) by lia. cbn [ok_or mbind Result_bind].
  rewrite !(proj2 (Z.ltb_ge _ _)) by lia. cbn. by eexists.
Qed.

(** Extraction goes through every entry of such an archive. *)
Lemma extract_loop_succeeds rest : forall past s tree, extractable (past ++ rest) ->
  extracts (past_of past) tree -> counts (past_of past) s ->
  exists tree' s', extract_loop s tree ((λ f, Ok (item_of f)) <$> rest) = (tree', Ok s').
Proof.
  induction rest as [|f rest IH]; intros past s tree Hx He Hc; cbn [fmap list_fmap extract_loop]; [by eexists _, _|].
  destruct (admit_item_succeeds _ _ _ _ Hx Hc) as [s1 Ha]. rewrite Ha.
  destruct (write_item_succeeds past tree f _ Hx) as [tree1 Hw]; [set_solver|set_solver| |done|].
  { destruct Hx as [_ Hnd _ _ _ _ _]. rewrite fmap_app in Hnd. apply NoDup_app in Hnd as (_&Hnd&_).
    intros Hin. apply (Hnd _ Hin). by left. }
  rewrite Hw. destruct (admit_item_spec _ _ _ _ _ Ha Hc) as [Hadm Hc1].
  destruct (write_item_extracts _ _ _ _ _ _ Hw He Hadm) as [_ He1]. specialize (He1 eq_refl).
  apply (IH (past ++ [f])); [by rewrite <- app_assoc|..]; unfold past_of; by rewrite fmap_app.
Qed.

Lemma extraction_complete `{Platform} `{!Tar} artifact destination expected bytes files :
  extraction_input artifact destination expected = Ok bytes ->
  tar_entries bytes = Ok ((λ f, Ok (item_of f)) <$> files) -> extractable files ->
  exists tree report, extract_verified_snapshot artifact destination expected = (tree, Ok report) /\
    er_file_count report = Z.of_nat (length files) /\
    (forall names data x, tree !! names = Some (ExtractedFile data x) <->
       exists f, f ∈ files /\ names = split_path (tf_path f) /\ data = tf_data f /\
         x = (Z.land (tf_mode f) 73 != 0%Z)).
Proof.
  intros Hi He Hx. unfold extract_verified_snapshot. rewrite Hi. cbn [mbind Result_bind]. rewrite He.
  cbn [net_io map_err].
  destruct (extract_loop_succeeds files [] extraction_start ∅ Hx extracts_start counts_start)
    as (tree&s&El).
  rewrite El. exists tree, (report_of s). split; [done|].
  apply (extract_loop_spec _ _ _ []) in El as [_ Hex]; [|apply extracts_start|apply counts_start].
  destruct (Hex s eq_refl) as (added&Eadd&Hadm&[_ Hf _]&[_ _ _ _ Hc _ _]).
  assert (added = past_of files) as ->.
  { destruct Hx as [Hsafe _ _ _ _ _ _]. clear -Eadd Hadm Hsafe. revert added Eadd Hadm.
    induction Hsafe as [|f files (names&Hne&Hs&Hp) _ IH]; intros [|[p i] added] E Ha; try done. injection E as Ei E.
    apply Forall_cons in Ha as [(_&(raw&Hraw&Hsafe)&_) Ha]. simpl in *. subst i. injection Hraw as <-.
    rewrite Hp, safe_relative_path_join in Hsafe by done. injection Hsafe as <-.
    unfold past_of. cbn [fmap list_fmap]. rewrite Hp. f_equal. by apply IH. }
  simpl in *. unfold past_of in Hc. rewrite length_fmap in Hc. split; [done|].
  intros names data x. rewrite Hf. split.
  - intros (i&(f&->&Hfi)%list_elem_of_fmap&->&d&m&[= <-]&[= <-]&[= -> ->]). by exists f.
  - intros (f&Hfi&->&->&->). exists (tf_path f, item_of f). split_and!; [apply list_elem_of_fmap; by exists f|done|].
    by exists (tf_data f), (tf_mode f).
Qed.
End extraction.

(** ** From a directory through an archive to a directory *)

Section round_trip.
Context `{Unicode} `{Platform} `{Tar}.

(** The file written into the archive for an entry. *)
Definition written_file (observe : list string -> ArchiveReads) (e : FileEntry) : TarFile :=
  tar_file e (ar_bytes (observe (fl_absolute e))).

Lemma archive_entry_Ok reads e block : archive_entry reads e = Ok block ->
  tar_append (tar_file e (ar_bytes reads)) = Ok block.
Proof. unfold archive_entry, net_io. intros Ha. by res_inv. Qed.

Lemma write_archive_Ok observe files archive : write_archive observe files = Ok archive ->
  exists blocks, Forall2 (λ f b, tar_append f = Ok b) (written_file observe <$> files) blocks /\
    archive = concat blocks ++ tar_finish.
Proof.
  unfold write_archive. intros Hw. apply bind_Ok in Hw as (written&Hf&[= <-]).
  cut (exists blocks, Forall2 (λ f b, tar_append f = Ok b) (written_file observe <$> files) blocks /\
    written = [] ++ concat blocks).
  { intros (blocks&Hb&->). by exists blocks. }
  revert Hf. generalize (@nil Z). induction files as [|f files IH]; intros start Hf; cbn [try_fold] in Hf.
  { injection Hf as <-. exists []. rewrite app_nil_r. split; [constructor|done]. }
  apply bind_Ok in Hf as (next&Hf&Hrest). apply bind_Ok in Hf as (block&Hblock%archive_entry_Ok&[= <-]).
  apply IH in Hrest as (blocks&Hb&->). exists (block :: blocks). cbn [concat].
  split; [by constructor|by rewrite <- app_assoc].
Qed.

(** A selected file has no selected file below it. *)
Lemma selected_not_below root names node m names' node' m' k :
  selected [] root names node m -> selected [] root names' node' m' ->
  k < length names' -> names <> take k names'.
Proof.
  intros (_&Hn&Hm&Hd&_) (_&Hn'&_) Hk ->. rewrite <- (take_drop k names'), node_at_app, Hn in Hn'.
  destruct (drop k names') as [|name rest] eqn:E.
  - apply (f_equal length) in E. rewrite length_drop in E. simpl in E. lia.
  - cbn in Hn'. unfold directory in Hn'. by rewrite Hm, Hd in Hn'.
Qed.

(** The bytes read in the second pass are as many as the first pass counted. *)
Definition lengths_agree (observe : list string -> ArchiveReads) (files : list FileEntry) : Prop :=
  Forall (λ e, Z.of_nat (length (ar_bytes (observe (fl_absolute e)))) = fl_byte_length e) files.

Lemma written_total observe files :
  foldr (λ f total, (tf_size f + total)%Z) 0%Z (written_file observe <$> files) = total_length files.
Proof. induction files as [|f files IH]; [done|]. cbn [fmap list_fmap foldr]. by rewrite IH. Qed.
Lemma written_paths observe (files : list FileEntry) : tf_path <$> (written_file observe <$> files) = fl_relative <$> files.
Proof. rewrite <- list_fmap_compose. by apply list_fmap_ext. Qed.

(** What a snapshot holds can be extracted. *)
Lemma collected_extractable root files observe : well_listed root -> directory root = true ->
  collect_files root = Ok files -> lengths_agree observe files ->
  extractable (written_file observe <$> files).
Proof.
  intros Hw Hd Hc Hl. destruct (collect_files_Ok _ _ Hw Hd Hc) as (Hin&Hpub&_&Hnd&Hndf&Hcnt&Htot).
  assert (forall f, f ∈ written_file observe <$> files ->
    exists names node m, selected [] root names node m /\ f = written_file observe (entry_for names m) /\
      publishable names node m) as Hall.
  { intros f (e&->&He)%list_elem_of_fmap. apply Hin in He as (names&node&m&Hs&->).
    exists names, node, m. split_and!; [done..|]. by apply Hpub. }
  assert (forall names node m, selected [] root names node m -> publishable names node m ->
    split_path (join_path names) = names) as Hsplit.
  { intros names node m [Hne _] (_&_&_&Hsafe&_). apply split_path_join; [done|by apply safe_name_plain]. }
  split; rewrite ?written_paths, ?written_total, ?length_fmap; try done.
  - apply Forall_forall. intros f (names&node&m&Hs&->&(_&_&_&Hsafe&_))%Hall.
    exists names. by destruct Hs.
  - intros f g k (names&node&m&Hs&->&Hp)%Hall (names'&node'&m'&Hs'&->&Hp')%Hall. cbn [written_file tar_file entry_for tf_path tf_data tf_mode fl_relative fl_absolute fl_executable].
    rewrite (Hsplit _ _ _ Hs Hp), (Hsplit _ _ _ Hs' Hp'). by eapply selected_not_below.
  - rewrite Forall_fmap. unfold lengths_agree in Hl. rewrite Forall_forall in Hl |- *. intros e He. cbn.
    specialize (Hl e He). apply Hin in He as (names&node&m&Hs&->).
    destruct (Hpub _ _ _ Hs) as (_&_&Hlen&_). cbn in *. lia.
Qed.

(** Where an archive is extracted: an empty directory. *)
Definition empty_directory (n : FsNode) : Prop :=
  directory n = true /\ fs_listing n = Ok tt /\ fs_items n = NoMoreItems.
(** An artifact that is a regular file of at most 512 mebibytes with the bytes [archive]. *)
Definition artifact_holds (archive : list Z) (artifact : ArtifactReads) : Prop :=
  (exists m, af_metadata artifact = Ok m /\ is_file m = true /\ (md_len m <= MAX_ARCHIVE_BYTES)%Z) /\
  af_hashed artifact = Ok archive /\ af_bytes artifact = Ok archive.

Lemma extraction_input_Ok archive artifact destination : artifact_holds archive artifact ->
  empty_directory destination ->
  extraction_input artifact destination (Some (sha256 archive)) = Ok archive.
Proof.
  intros ((m&Hm&Hf&Hlen)&Hh&Hb) (Hd&Hl&Hi). unfold directory in Hd. unfold extraction_input.
  destruct (fs_metadata destination) as [dm|]; [|done]. rewrite Hl, Hi, Hm, Hh, Hb.
  assert (is_symlink dm = false) as Hns by (unfold is_dir, is_symlink in *; by destruct (md_type dm)).
  cbn [net_io map_err mbind Result_bind]. rewrite Hd, Hns, Hf, (proj2 (Z.ltb_ge _ _) Hlen).
  cbn [negb orb fail_if mbind Result_bind map_err]. by rewrite bool_decide_eq_true_2 by done.
Qed.

(** [C20] The archive of a snapshot extracts, into an empty directory and against its
    digest, to exactly the files of the snapshot: each at the names that lead
    to it in the source directory, with the bytes that were read and its
    executable bit, and nothing else. *)
Theorem snapshot_round_trip `{!TarLaws} root files observe archive artifact destination :
  well_listed root -> directory root = true -> collect_files root = Ok files ->
  write_archive observe files = Ok archive -> lengths_agree observe files ->
  artifact_holds archive artifact -> empty_directory destination ->
  exists tree report,
    extract_verified_snapshot artifact destination (Some (sha256 archive)) = (tree, Ok report) /\
    er_file_count report = Z.of_nat (length files) /\
    forall names data x, tree !! names = Some (ExtractedFile data x) <->
      exists node m, selected [] root names node m /\ data = ar_bytes (observe names) /\ x = executable m.
Proof.
  intros Hw Hd Hc (blocks&Hblocks&->)%write_archive_Ok Hl Ha He.
  pose proof (collected_extractable _ _ _ Hw Hd Hc Hl) as Hx.
  destruct (collect_files_Ok _ _ Hw Hd Hc) as (Hin&Hpub&_).
  destruct (extraction_complete _ _ _ _ (written_file observe <$> files)
    (extraction_input_Ok _ _ _ Ha He)) as (tree&report&Er&Hn&Ht); [|done|].
  { apply tar_round_trip; [done|]. rewrite Forall_fmap. eapply Forall_impl; [exact Hl|]. intros e Hlen. by symmetry. }
  exists tree, report. rewrite length_fmap in Hn. split_and!; [done..|].
  assert (forall names node m, selected [] root names node m -> split_path (join_path names) = names) as Hsplit.
  { intros names node m Hs. destruct (Hpub _ _ _ Hs) as (_&_&_&Hsafe&_).
    apply split_path_join; [by destruct Hs|by apply safe_name_plain]. }
  intros names data x. rewrite Ht. split.
  - intros (f&(e&->&(names'&node&m&Hs&->)%Hin)%list_elem_of_fmap&->&->&->). cbn [written_file tar_file entry_for tf_path tf_data tf_mode fl_relative fl_absolute fl_executable]. rewrite (Hsplit _ _ _ Hs).
    exists node, m. split_and!; try done. by destruct (executable m).
  - intros (node&m&Hs&->&->). exists (written_file observe (entry_for names m)). split_and!.
    + apply list_elem_of_fmap_2, Hin. by exists names, node, m.
    + cbn [written_file tar_file entry_for tf_path tf_data tf_mode fl_relative fl_absolute fl_executable]. by rewrite (Hsplit _ _ _ Hs).
    + done.
    + cbn. by destruct (executable m).
Qed.
End round_trip.
