(* ===== verification/NetworkStory.v ===== *)
(** A concrete release and its archive: the witnesses of the theorems about the
    network crate. *)
From S2P Require Import Prelude Text Digest Keys Records Ontology Story FileTree TreeHash TreeHashLaws Eip712 RegistryActions RegistryLaws RegistryStory Clock NetworkCatalog NetworkPublication NetworkSnapshot NetworkSnapshotLaws NetworkCollection.

(** * A concrete publication

    A release, the request to approve it, its approval, the evidence beside it
    and a claim, on the toy platform: the witnesses that the hypotheses of the
    theorems about publications can hold. *)

#[local] Existing Instance Toy.platform.
#[local] Instance release_keccak : Keccak := {| keccak256 := λ bs, Toy.hash (75%Z :: bs) |}.

Definition net_unwrap {A} (d : A) (r : network_result A) : A := match r with Ok x => x | Err _ => d end.

Definition release : CatalogRelease := {|
  cr_schema := CATALOG_RELEASE_SCHEMA;
  cr_generation := {| cg_contract_generation := CONTRACT_GENERATION; cg_chain_id := ROBINHOOD_CHAIN_ID;
    cg_builder_account_factory := MkAddress20 (filled 20 4);
    cg_shot_registry := MkAddress20 (filled 20 5); cg_activation_signing_digest := filled 32 6 |};
  cr_shot_id := shot; cr_builder_id := alice; cr_release_id := filled 32 7;
  cr_published_at := at_second 5;
  cr_display := {| cd_name := "Tool"; cd_description := "A small tool";
    cd_icon_sha256 := Some (filled 32 8); cd_icon_byte_length := Some 2048%Z;
    cd_icon_media_type := Some Png;
    cd_screenshots := [{| cs_sha256 := filled 32 9; cs_byte_length := 4096; cs_media_type := Jpeg |}];
    cd_builder_handle := Some "alice"; cd_app_slug := Some "small-tool" |};
  cr_source := {| sa_format := DeterministicTar; sa_sha256 := filled 32 10; sa_byte_length := 10240;
    sa_source_tree_sha256 := filled 32 11; sa_file_count := 3; sa_uncompressed_byte_length := 900 |};
  cr_build := {| xb_container_kind := ContainerProject; xb_container_path := "Tool.xcodeproj";
    xb_scheme := "Tool"; xb_original_bundle_identifier := "com.example.tool"; xb_minimum_ios := "17.0";
    xb_device_families := ["ipad"; "iphone"];
    xb_dependency_locks := [{| dl_path := "Tool/Package.resolved"; dl_sha256 := filled 32 12 |}];
    xb_safety := {| bs_classification := RequiresMacReview; bs_reasons := ["explicit entitlement file"] |} |};
  cr_permissions := {| rp_install_allowed := true; rp_fork_allowed := true;
    rp_distributor_rights_declared := true; rp_spdx_license := Some "MIT" |};
  cr_parent := None; cr_checkpoint_sequence := 1; cr_public_checkpoint_digest := filled 32 13 |}.

Definition release_domain : Eip712Domain :=
  {| do_name := SHOT_REGISTRY_DOMAIN; do_version := SHOT_REGISTRY_V2_EIP712_VERSION;
     do_chain_id := ROBINHOOD_CHAIN_ID; do_verifying_contract := MkAddress20 (filled 20 5) |}.

Definition publication_request : NetworkApprovalRequest :=
  let expires := "2026-01-01T01:00:00Z" in
  {| ar_schema := NETWORK_APPROVAL_REQUEST_SCHEMA; ar_job_id := "job-1";
     ar_catalog_release := release; ar_registry_domain := release_domain;
     ar_registry_action := RegisterShot shot (account alice) (filled 32 13) (filled 32 14) 0
       (match parse_rfc3339 expires with Some e => odt_unix_timestamp e | None => 0 end);
     ar_builder_device := {| nd_schema := NETWORK_DEVICE_ANNOUNCEMENT_SCHEMA;
       nd_key_id := device_key_id alice_key; nd_public_key := alice_key;
       nd_security_level := "secure_enclave"; nd_test_only := false |};
     ar_requested_route := "/alice/small-tool"; ar_issued_at := "2026-01-01T00:00:00Z";
     ar_expires_at := expires |}.

(** A signature that the toy platform takes for one of [digest]. *)
Definition toy_signature (digest : Bytes32) : DetachedP256Signature :=
  {| detached_algorithm := P256; detached_digest := digest;
     detached_signature := {| sig_r := digest; sig_s := filled 32 1 |}; detached_low_s := true |}.

Definition signed_release : SignedCatalogRelease :=
  {| sc_schema := SIGNED_CATALOG_RELEASE_SCHEMA; sc_release := release; sc_signer := alice_key;
     sc_authorization := toy_signature (net_unwrap ZERO (request_catalog_digest publication_request)) |}.
Definition approval : PublicationApproval :=
  {| pa_schema := PUBLICATION_APPROVAL_SCHEMA; pa_job_id := "job-1"; pa_catalog := signed_release;
     pa_registry := {| sra_schema := REGISTRY_ACTION_V2_SCHEMA; sra_domain := release_domain;
       sra_action := ar_registry_action publication_request; sra_signer := alice_key;
       sra_authorization := toy_signature (net_unwrap ZERO (request_registry_digest publication_request)) |};
     pa_approved_at := "2026-01-01T00:10:00Z" |}.

Definition evidence : PublicReleaseEvidence :=
  {| pe_schema := PUBLIC_RELEASE_EVIDENCE_SCHEMA;
     pe_release_digest := net_unwrap ZERO (request_catalog_digest publication_request);
     pe_signed_manifest := signed_release;
     pe_chain := {| ev_transaction_hash := filled 32 15; ev_block_number := "12345";
       ev_block_hash := filled 32 16; ev_controller := account alice; ev_head := filled 32 13;
       ev_checkpoint_sequence := 1; ev_signer_key_id := device_key_id alice_key |};
     pe_source_url := blob_url (filled 32 10); pe_icon_url := Some (blob_url (filled 32 8)) |}.

Lemma approval_covers_request_witness :
  approval_verify_for approval publication_request = Ok tt /\ action_is_of_release publication_request.
Proof.
  assert (approval_verify_for approval publication_request = Ok tt) as Hv by (vm_compute; reflexivity).
  split; [exact Hv|]. exact (proj1 (proj2 (proj2 (proj2 (approval_covers_request approval publication_request Hv))))).
Defined.

Lemma evidence_agrees_with_release_witness :
  verify_static evidence = Ok tt /\
  sha256_commitment (sc_release (pe_signed_manifest evidence)) = Ok (pe_release_digest evidence).
Proof.
  assert (verify_static evidence = Ok tt) as Hv by (vm_compute; reflexivity).
  split; [exact Hv|]. exact (proj1 (proj2 (evidence_agrees_with_release evidence Hv))).
Defined.

Definition claims_domain : Eip712Domain :=
  {| do_name := CLAIMS_DOMAIN; do_version := CLAIMS_EIP712_VERSION;
     do_chain_id := ROBINHOOD_CHAIN_ID; do_verifying_contract := MkAddress20 (filled 20 17) |}.
Definition claim : ClaimSoftwareAction :=
  {| cl_shot_registry := MkAddress20 (filled 20 5); cl_shot_id := shot; cl_claimant := account bob;
     cl_release_digest := filled 32 18; cl_checkpoint_digest := filled 32 13;
     cl_gesture_commitment := filled 32 19; cl_nonce := 0; cl_deadline := 1000 |}.
Definition edition : OpenClaimEditionAction :=
  {| oc_shot_registry := MkAddress20 (filled 20 5); oc_shot_id := shot; oc_max_claims := 0;
     oc_closes_at := 0; oc_controller := account alice; oc_nonce := 0; oc_deadline := 1000 |}.

Lemma claim_digest_binds_witness : exists h,
  claim_software_digest claims_domain (MkAddress20 (filled 20 5)) claim = Ok h /\
  open_edition_digest claims_domain (MkAddress20 (filled 20 5)) edition <> Ok h.
Proof.
  assert (is_ok (claim_software_digest claims_domain (MkAddress20 (filled 20 5)) claim) = true) as Hok
    by (vm_compute; reflexivity).
  assert (claim_widths claim) as Hw by (unfold claim, claim_widths, is_u64, U64_MAX; cbn; lia).
  destruct (claim_software_digest claims_domain (MkAddress20 (filled 20 5)) claim) as [h|] eqn:E;
    [|discriminate Hok].
  exists h. split; [reflexivity|].
  apply (claim_digest_binds claims_domain (MkAddress20 (filled 20 5)) claim h Hw E).
  refine (distinct_hashes_sound keccak256 _ _ _). vm_compute. reflexivity.
Defined.

(** * A concrete snapshot

    An archive format that satisfies the laws asked of tar, a source directory
    with what a snapshot leaves out, its archive and the extraction of it: the
    witnesses that the hypotheses of the theorems about snapshots can hold. *)

#[local] Existing Instance Toy.platform.

(** ** A format: the lengths of path and data, size and mode, then both. *)

Definition block_of (f : TarFile) : list Z :=
  [1%Z; Z.of_nat (length (bytes_of (tf_path f))); Z.of_nat (length (tf_data f)); tf_size f; tf_mode f]
  ++ bytes_of (tf_path f) ++ tf_data f.
Definition item_from (path data : list Z) (size mode : Z) : TarItem :=
  {| ti_regular := true; ti_path := Ok (string_of path); ti_size := Ok size; ti_mode := Ok mode;
     ti_data := Ok data |}.
Fixpoint parse_blocks (fuel : nat) (bytes : list Z) : Result string (list (Result string TarItem)) :=
  match fuel, bytes with
  | S fuel, 1%Z :: np :: nd :: size :: mode :: rest =>
      items ← parse_blocks fuel (drop (Z.to_nat np + Z.to_nat nd) rest);
      Ok (Ok (item_from (take (Z.to_nat np) rest) (take (Z.to_nat nd) (drop (Z.to_nat np) rest)) size mode)
            :: items)
  | S _, [0%Z] => Ok []
  | _, _ => Err "invalid archive"
  end.
#[local] Instance toy_tar : Tar := {|
  tar_append f := Ok (block_of f);
  tar_finish := [0%Z];
  tar_entries bytes := parse_blocks (length bytes) bytes |}.

Lemma parse_blocks_of files : forall fuel, length files < fuel ->
  parse_blocks fuel (concat (block_of <$> files) ++ [0%Z]) = Ok ((λ f, Ok (item_of f)) <$> files).
Proof.
  induction files as [|f files IH]; intros [|fuel] Hf; try (simpl in Hf; lia); [done|].
  cbn [fmap list_fmap concat]. unfold block_of at 1. rewrite <- !app_assoc.
  cbn [app parse_blocks]. rewrite !Nat2Z.id, <- drop_drop, !drop_app_length, take_app_length.
  rewrite take_app_length, IH by (simpl in Hf; lia). cbn [mbind Result_bind]. unfold item_from.
  by rewrite string_of_bytes_of.
Qed.

#[local] Instance toy_tar_laws : TarLaws.
Proof.
  split. intros files blocks Hb _.
  assert (blocks = block_of <$> files) as ->.
  { induction Hb as [|f b files blocks [= <-] _ IH]; [done|]. cbn. by rewrite IH. }
  apply parse_blocks_of. rewrite length_app.
  enough (length files <= length (concat (block_of <$> files))) by (simpl; lia).
  clear Hb. induction files as [|f files IH]; [done|].
  cbn [fmap list_fmap concat]. rewrite length_app. simpl length at 1 2. lia.
Qed.

(** ** A directory and its snapshot *)

Definition program_metadata : Metadata :=
  {| md_type := RegularType; md_dev := 1; md_ino := 2; md_len := 9; md_mtime := 3; md_mtime_nsec := 4;
     md_ctime := 5; md_ctime_nsec := 6; md_nlink := 1; md_mode := 493 |}.
Definition program_node (text : string) : FsNode :=
  let bytes := bytes_of text in
  let m := program_metadata in
  MkFsNode (Ok m)
    {| rd_open := Ok tt; rd_metadata := Ok m; rd_bytes := Ok bytes; rd_final := Ok m |}
    (Err "not a directory") NoMoreItems.

(** What the author wrote, and what the tools left there. *)
Definition project : FsNode :=
  dir_node
    [("run.sh", program_node "swift run"); ("App.swift", file_node "struct App {}");
     (".git", dir_node [("HEAD", file_node "ref")]); ("Assets", assets); ("build.log", file_node "log")].

Definition files_of (r : network_result (list FileEntry)) : list FileEntry :=
  match r with Ok files => files | Err _ => [] end.
Definition node_reads (n : FsNode) : ArchiveReads :=
  {| ar_before := fs_metadata n; ar_open := Ok tt; ar_opened := fs_metadata n;
     ar_bytes := match rd_bytes (fs_reads n) with Ok bytes => bytes | Err _ => [] end;
     ar_after := fs_metadata n |}.
Definition observe_project (names : list string) : ArchiveReads :=
  node_reads (default project (node_at names project)).
Definition project_archive : list Z :=
  match write_archive observe_project (files_of (collect_files project)) with Ok a => a | Err _ => [] end.
Definition project_artifact : ArtifactReads :=
  {| af_metadata := Ok (metadata_with RegularType (Z.of_nat (length project_archive)));
     af_hashed := Ok project_archive; af_bytes := Ok project_archive |}.
Definition destination : FsNode := dir_node [].

Example project_files : fl_relative <$> files_of (collect_files project)
  = ["App.swift"; "Assets/a.json"; "Assets/b.json"; "run.sh"].
Proof. vm_compute. reflexivity. Qed.
Example an_env_file_refused : collect_files (dir_node [(".env.local", file_node "KEY=1")])
  = Err (SecretPath ".env.local").
Proof. vm_compute. reflexivity. Qed.
Example a_key_refused : collect_files (dir_node [("notes.txt", file_node "AKIA0123456789ABCDEF")])
  = Err (SecretContent "notes.txt").
Proof. vm_compute. reflexivity. Qed.
(** An archive whose second entry climbs out, and one that would write below a file. *)
Definition climbing (path : string) : list Z :=
  concat (block_of <$> [{| tf_path := "a"; tf_size := 1; tf_mode := 420; tf_data := [1%Z] |};
                        {| tf_path := path; tf_size := 1; tf_mode := 420; tf_data := [2%Z] |}]) ++ [0%Z].
Definition artifact_of (archive : list Z) : ArtifactReads :=
  {| af_metadata := Ok (metadata_with RegularType (Z.of_nat (length archive)));
     af_hashed := Ok archive; af_bytes := Ok archive |}.
Example climbing_out_refused : (extract_verified_snapshot (artifact_of (climbing "../b")) destination None).2
  = Err (UnsafePath "../b").
Proof. vm_compute. reflexivity. Qed.
Example below_a_file_refused : (extract_verified_snapshot (artifact_of (climbing "a/b")) destination None).2
  = Err (UnsafePath "a").
Proof. vm_compute. reflexivity. Qed.

(** ** Witnesses *)

(** Whether a concrete directory is well listed, name by name. *)
Definition plain_nameb (name : string) : bool :=
  negb (bool_decide (name ∈ [""; "."; ".."])) && negb (bool_decide (SLASH ∈ bytes_of name)).
Lemma plain_nameb_spec name : plain_nameb name = true -> plain_name name.
Proof.
  unfold plain_nameb. intros [Hn%negb_true_iff%bool_decide_eq_false Hs%negb_true_iff%bool_decide_eq_false]%andb_true_iff.
  unfold plain_name. set_solver.
Qed.
Fixpoint well_listedb (n : FsNode) : bool :=
  match n with MkFsNode _ _ _ items => bool_decide (NoDup (item_names items)) && well_listed_itemsb items end
with well_listed_itemsb (items : FsItems) : bool :=
  match items with
  | NoMoreItems => true
  | ItemError _ items => well_listed_itemsb items
  | Item name node items => plain_nameb name && well_listedb node && well_listed_itemsb items
  end.
Fixpoint well_listedb_spec (n : FsNode) : well_listedb n = true -> well_listed n
with well_listed_itemsb_spec (items : FsItems) : well_listed_itemsb items = true -> well_listed_items items.
Proof.
  - destruct n as [m r l items]. intros [Hd%bool_decide_eq_true Hi]%andb_true_iff.
    split; [exact Hd|exact (well_listed_itemsb_spec items Hi)].
  - destruct items as [|error items|name node items]; intros Hi; [exact I|exact (well_listed_itemsb_spec items Hi)|].
    apply andb_true_iff in Hi as [[Hn Hw]%andb_true_iff Hi].
    exact (conj (plain_nameb_spec name Hn) (conj (well_listedb_spec node Hw) (well_listed_itemsb_spec items Hi))).
Qed.

(** ** Witnesses *)

Lemma extraction_contained_witness : exists tree r,
  extract_verified_snapshot (artifact_of (climbing "../b")) destination None = (tree, r) /\
  tree !! ["a"] = Some (ExtractedFile [1%Z] false) /\ contained tree.
Proof.
  assert ((extract_verified_snapshot (artifact_of (climbing "../b")) destination None).1 !! ["a"]
    = Some (ExtractedFile [1%Z] false)) as Ha by (vm_compute; reflexivity).
  destruct (extract_verified_snapshot (artifact_of (climbing "../b")) destination None) as [tree r] eqn:E.
  exists tree, r. split; [reflexivity|]. split; [exact Ha|].
  exact (extraction_contained (artifact_of (climbing "../b")) destination None tree r E).
Defined.

Definition expected : option Bytes32 := Some (sha256 project_archive).

Lemma extraction_exact_witness : exists tree report,
  extract_verified_snapshot project_artifact destination expected = (tree, Ok report) /\
  (er_file_count report <= 100000)%Z.
Proof.
  assert (is_ok (extract_verified_snapshot project_artifact destination expected).2 = true) as Hok
    by (vm_compute; reflexivity).
  destruct (extract_verified_snapshot project_artifact destination expected) as [tree [report|e]] eqn:E;
    [|discriminate Hok].
  exists tree, report. split; [reflexivity|].
  destruct (extraction_exact project_artifact destination expected tree report E)
    as (bytes&items&_&_&_&_&_&_&_&_&_&Hb&_). exact Hb.
Defined.

Lemma project_listed : well_listed project.
Proof. apply well_listedb_spec. vm_compute. reflexivity. Qed.

Lemma snapshot_is_publishable_witness : exists files,
  collect_files project = Ok files /\ (total_length files <= 2147483648)%Z.
Proof.
  assert (is_ok (collect_files project) = true) as Hok by (vm_compute; reflexivity).
  destruct (collect_files project) as [files|e] eqn:E; [|discriminate Hok].
  exists files. split; [reflexivity|].
  exact (proj2 (proj2 (proj2 (proj2
    (snapshot_is_publishable project files project_listed eq_refl E))))).
Defined.

Lemma snapshot_round_trip_witness : exists tree report,
  extract_verified_snapshot project_artifact destination expected = (tree, Ok report) /\
  exists data x, tree !! ["run.sh"] = Some (ExtractedFile data x).
Proof.
  assert (collect_files project = Ok (files_of (collect_files project))) as Hc by (vm_compute; reflexivity).
  assert (write_archive observe_project (files_of (collect_files project)) = Ok project_archive) as Hw
    by (vm_compute; reflexivity).
  assert (lengths_agree observe_project (files_of (collect_files project))) as Hl.
  { apply (bool_decide_unpack _). vm_compute. exact I. }
  assert (artifact_holds project_archive project_artifact) as Ha.
  { split; [|split; reflexivity]. exists (metadata_with RegularType (Z.of_nat (length project_archive))).
    split; [reflexivity|]. split; [reflexivity|]. apply (bool_decide_unpack _). vm_compute. exact I. }
  destruct (snapshot_round_trip project _ observe_project project_archive project_artifact destination
    project_listed eq_refl Hc Hw Hl Ha (conj eq_refl (conj eq_refl eq_refl))) as (tree&report&E&_&Ht).
  exists tree, report. split; [exact E|].
  exists (bytes_of "swift run"), true. apply Ht.
  exists (program_node "swift run"), program_metadata. split; [|split; vm_compute; reflexivity].
  split; [discriminate|]. split; [reflexivity|]. split; [reflexivity|]. split; [reflexivity|].
  split; [intros k Hk; simpl in Hk; lia|vm_compute; reflexivity].
Defined.
