(* ===== verification/Entitlement.v ===== *)
(** * Product entitlement

    [application/src/entitlement.rs]: the private trial and subscription state of
    one installation, kept in a single JSON file. Every operation reads the
    file, computes on the state, and writes the file at most once, last; so an
    operation is a function of the file that leaves it alone when it fails. The
    mutex serializes the operations. Reading the clock is the caller's: [now] and
    [local_date] are arguments. *)
From S2P Require Import Prelude Text Digest Clock.

Definition ENTITLEMENT_STATE_SCHEMA : string := "tohseno.private-entitlement-state/1".
Definition MAXIMUM_STATE_BYTES : Z := 262144.
Definition REQUIRED_SUCCESSFUL_DAYS : nat := 5.
Definition TRIAL_CALENDAR_DAYS : Z := 7.

Inductive EntitlementPhase : Type :=
  | GenesisIncomplete | TrialActive | TrialQualified | TrialExpired
  | ProMonthly | ProYearly | ProLapsed.
#[export] Instance EntitlementPhase_eq_dec : EqDecision EntitlementPhase.
Proof. solve_decision. Defined.

Definition phase_name (p : EntitlementPhase) : string :=
  match p with
  | GenesisIncomplete => "genesis_incomplete" | TrialActive => "trial_active"
  | TrialQualified => "trial_qualified" | TrialExpired => "trial_expired"
  | ProMonthly => "pro_monthly" | ProYearly => "pro_yearly" | ProLapsed => "pro_lapsed"
  end.
#[export] Instance EntitlementPhase_to_json : ToJson EntitlementPhase := λ p, JStr (phase_name p).

Definition factory_mutations_allowed (p : EntitlementPhase) : bool :=
  match p with TrialActive | ProMonthly | ProYearly => true | _ => false end.
Definition purchase_allowed (p : EntitlementPhase) : bool :=
  match p with TrialQualified | ProLapsed => true | _ => false end.

Inductive SubscriptionPlan : Type := Monthly | Yearly.
#[export] Instance SubscriptionPlan_eq_dec : EqDecision SubscriptionPlan.
Proof. solve_decision. Defined.
#[export] Instance SubscriptionPlan_to_json : ToJson SubscriptionPlan :=
  λ p, JStr (match p with Monthly => "monthly" | Yearly => "yearly" end).

Record SuccessfulDayEvidence := {
  sd_local_date : string;
  sd_command_id : string;
  sd_execution_id : string;
  sd_accepted_version_id : string;
  sd_accepted_at : string }.
#[export] Instance SuccessfulDayEvidence_eq_dec : EqDecision SuccessfulDayEvidence.
Proof. solve_decision. Defined.
#[export] Instance SuccessfulDayEvidence_to_json : ToJson SuccessfulDayEvidence := λ e, JObj
  [("local_date", to_json (sd_local_date e)); ("command_id", to_json (sd_command_id e));
   ("execution_id", to_json (sd_execution_id e));
   ("accepted_version_id", to_json (sd_accepted_version_id e));
   ("accepted_at", to_json (sd_accepted_at e))].

Record VerifiedSubscription := {
  vsu_entitlement_id : string;
  vsu_plan : SubscriptionPlan;
  vsu_issued_at : string;
  vsu_paid_through : string;
  vsu_cancellation_at_period_end : bool;
  vsu_provider_revision : Z;
  vsu_receipt_digest : string }.
#[export] Instance VerifiedSubscription_eq_dec : EqDecision VerifiedSubscription.
Proof. solve_decision. Defined.
#[export] Instance VerifiedSubscription_to_json : ToJson VerifiedSubscription := λ v, JObj
  [("entitlement_id", to_json (vsu_entitlement_id v)); ("plan", to_json (vsu_plan v));
   ("issued_at", to_json (vsu_issued_at v)); ("paid_through", to_json (vsu_paid_through v));
   ("cancellation_at_period_end", to_json (vsu_cancellation_at_period_end v));
   ("provider_revision", to_json (vsu_provider_revision v));
   ("receipt_digest", to_json (vsu_receipt_digest v))].

Record EntitlementState := {
  en_schema : string;
  en_revision : Z;
  en_phase : EntitlementPhase;
  en_genesis_completed_at : option string;
  en_genesis_local_date : option string;
  en_successful_days : list SuccessfulDayEvidence;
  en_subscription : option VerifiedSubscription;
  en_migration : option string }.
#[export] Instance EntitlementState_eq_dec : EqDecision EntitlementState.
Proof. solve_decision. Defined.
#[export] Instance EntitlementState_to_json : ToJson EntitlementState := λ s, JObj
  ([("schema", to_json (en_schema s)); ("revision", to_json (en_revision s));
    ("phase", to_json (en_phase s))]
   ++ optional_member "genesis_completed_at" (en_genesis_completed_at s)
   ++ optional_member "genesis_local_date" (en_genesis_local_date s)
   ++ [("successful_days", to_json (en_successful_days s))]
   ++ optional_member "subscription" (en_subscription s)
   ++ optional_member "migration" (en_migration s)).

Definition default_state : EntitlementState :=
  {| en_schema := ENTITLEMENT_STATE_SCHEMA; en_revision := 1; en_phase := GenesisIncomplete;
     en_genesis_completed_at := None; en_genesis_local_date := None; en_successful_days := [];
     en_subscription := None; en_migration := None |}.

Record EntitlementStatus := {
  es_schema : string;
  es_phase : EntitlementPhase;
  es_genesis_complete : bool;
  es_successful_days : nat;
  es_required_successful_days : nat;
  es_factory_mutations_allowed : bool;
  es_purchase_allowed : bool;
  es_plan : option SubscriptionPlan;
  es_paid_through : option string;
  es_cancellation_at_period_end : bool }.

Inductive EntitlementError : Type :=
  | EntitlementIo (message : string)
  | EntitlementJson (message : string)
  | EntitlementInvalid (message : string)
  | EntitlementLocked (message : string).
#[export] Instance EntitlementError_eq_dec : EqDecision EntitlementError.
Proof. solve_decision. Defined.

Definition display_entitlement_error (e : EntitlementError) : string :=
  match e with
  | EntitlementIo m | EntitlementJson m | EntitlementInvalid m | EntitlementLocked m => m
  end.

Abbreviation entitlement_result := (Result EntitlementError).

Definition status_from (s : EntitlementState) : EntitlementStatus :=
  {| es_schema := "tohseno.private-entitlement-status/1";
     es_phase := en_phase s;
     es_genesis_complete := opt_is_some (en_genesis_completed_at s);
     es_successful_days := length (en_successful_days s);
     es_required_successful_days := REQUIRED_SUCCESSFUL_DAYS;
     es_factory_mutations_allowed := factory_mutations_allowed (en_phase s);
     es_purchase_allowed := purchase_allowed (en_phase s);
     es_plan := vsu_plan <$> en_subscription s;
     es_paid_through := vsu_paid_through <$> en_subscription s;
     es_cancellation_at_period_end :=
       is_some_and vsu_cancellation_at_period_end (en_subscription s) |}.

(** *** Updates of one field *)

Definition set_phase (p : EntitlementPhase) (s : EntitlementState) : EntitlementState :=
  {| en_schema := en_schema s; en_revision := en_revision s; en_phase := p;
     en_genesis_completed_at := en_genesis_completed_at s;
     en_genesis_local_date := en_genesis_local_date s;
     en_successful_days := en_successful_days s; en_subscription := en_subscription s;
     en_migration := en_migration s |}.
Definition set_genesis (completed_at local_date : string) (migration : option string)
    (s : EntitlementState) : EntitlementState :=
  {| en_schema := en_schema s; en_revision := en_revision s; en_phase := en_phase s;
     en_genesis_completed_at := Some completed_at; en_genesis_local_date := Some local_date;
     en_successful_days := en_successful_days s; en_subscription := en_subscription s;
     en_migration := match migration with Some m => Some m | None => en_migration s end |}.
Definition set_days (days : list SuccessfulDayEvidence) (s : EntitlementState) : EntitlementState :=
  {| en_schema := en_schema s; en_revision := en_revision s; en_phase := en_phase s;
     en_genesis_completed_at := en_genesis_completed_at s;
     en_genesis_local_date := en_genesis_local_date s;
     en_successful_days := days; en_subscription := en_subscription s;
     en_migration := en_migration s |}.
Definition set_subscription (v : VerifiedSubscription) (s : EntitlementState) : EntitlementState :=
  {| en_schema := en_schema s; en_revision := en_revision s; en_phase := en_phase s;
     en_genesis_completed_at := en_genesis_completed_at s;
     en_genesis_local_date := en_genesis_local_date s;
     en_successful_days := en_successful_days s; en_subscription := Some v;
     en_migration := en_migration s |}.
(** [state.revision.saturating_add(1)] *)
Definition bump (s : EntitlementState) : EntitlementState :=
  {| en_schema := en_schema s; en_revision := saturating_add_u64 (en_revision s) 1;
     en_phase := en_phase s; en_genesis_completed_at := en_genesis_completed_at s;
     en_genesis_local_date := en_genesis_local_date s;
     en_successful_days := en_successful_days s; en_subscription := en_subscription s;
     en_migration := en_migration s |}.

(** The state file: absent, a regular file, or anything else. *)
Inductive StateFile : Type := NoFile | StateBytes (bytes : list Z) | UnsafeFile.

(** [serde_json::from_slice::<EntitlementState>]: third-party JSON parsing. *)
Class StateReader := { decode_state : list Z -> Result string EntitlementState }.

(** ** Validation *)

Section validation.
Context `{Platform} `{TimeFormat}.

Definition entitlement_timestamp (value : string) : entitlement_result OffsetDateTime :=
  ok_or (EntitlementInvalid "entitlement timestamp is invalid") (parse_rfc3339 value).
Definition entitlement_format_timestamp (value : OffsetDateTime) : entitlement_result string :=
  ok_or (EntitlementInvalid "entitlement timestamp is invalid") (format_rfc3339 value).
Definition entitlement_date (value : string) : entitlement_result Date :=
  ok_or (EntitlementInvalid "entitlement local date is invalid") (parse_iso_date value).

(** Alphanumeric, [_], [-] or [.]; the last only in evidence identifiers. *)
Definition is_entitlement_byte (b : Z) : bool :=
  is_ascii_alphanumeric b || (b =? 95)%Z || (b =? 45)%Z.
Definition is_evidence_byte (b : Z) : bool := is_entitlement_byte b || (b =? 46)%Z.

Definition validate_evidence (e : SuccessfulDayEvidence) : entitlement_result unit :=
  entitlement_date (sd_local_date e) ;;
  entitlement_timestamp (sd_accepted_at e) ;;
  for_each (λ p : string * string,
    fail_if ((len (snd p) =? 0)%nat || (160 <? len (snd p))%nat
             || negb (forallb is_evidence_byte (bytes_of (snd p))))
      (EntitlementInvalid ("successful-day " +:+ fst p +:+ " is invalid")))
    [("command ID", sd_command_id e); ("execution ID", sd_execution_id e);
     ("accepted Version ID", sd_accepted_version_id e)].

Definition validate_subscription_shape (v : VerifiedSubscription) : entitlement_result unit :=
  fail_if ((vsu_provider_revision v == 0%Z) || (len (vsu_entitlement_id v) =? 0)%nat
           || (160 <? len (vsu_entitlement_id v))%nat
           || negb (forallb is_entitlement_byte (bytes_of (vsu_entitlement_id v)))
           || negb (len (vsu_receipt_digest v) =? 64)%nat
           || negb (forallb is_lower_hex (bytes_of (vsu_receipt_digest v))))
    (EntitlementInvalid "verified entitlement receipt metadata is invalid") ;;
  issued ← entitlement_timestamp (vsu_issued_at v);
  paid_through ← entitlement_timestamp (vsu_paid_through v);
  fail_if (instant paid_through <=? instant issued)%Z
    (EntitlementInvalid "verified entitlement paid-through date is not after issue").

Definition validate_subscription (v : VerifiedSubscription) (now : OffsetDateTime)
    : entitlement_result unit :=
  validate_subscription_shape v ;;
  paid_through ← entitlement_timestamp (vsu_paid_through v);
  fail_if (instant paid_through <=? instant now)%Z
    (EntitlementInvalid "verified entitlement receipt is already expired").

(** The loop over the evidence, with the four sets it collects. *)
Fixpoint validate_days (dates commands executions versions : gset string)
    (days : list SuccessfulDayEvidence) : entitlement_result unit :=
  match days with
  | [] => Ok tt
  | e :: days =>
      validate_evidence e ;;
      fail_if (bool_decide (sd_local_date e ∈ dates) || bool_decide (sd_command_id e ∈ commands)
               || bool_decide (sd_execution_id e ∈ executions)
               || bool_decide (sd_accepted_version_id e ∈ versions))
        (EntitlementInvalid "successful-day evidence is not unique") ;;
      validate_days ({[sd_local_date e]} ∪ dates) ({[sd_command_id e]} ∪ commands)
        ({[sd_execution_id e]} ∪ executions) ({[sd_accepted_version_id e]} ∪ versions) days
  end.

(** The genesis anchor: both parts or none, and none only before genesis. *)
Definition validate_anchor (s : EntitlementState) : entitlement_result unit :=
  match en_genesis_completed_at s, en_genesis_local_date s with
  | Some timestamp, Some date => entitlement_timestamp timestamp ;; entitlement_date date ;; Ok tt
  | None, None =>
      fail_if (en_phase s != GenesisIncomplete)
        (EntitlementInvalid "private entitlement genesis anchor is inconsistent")
  | _, _ => Err (EntitlementInvalid "private entitlement genesis anchor is inconsistent")
  end.

Definition is_pro (p : EntitlementPhase) : bool :=
  match p with ProMonthly | ProYearly | ProLapsed => true | _ => false end.

Definition validate_state (s : EntitlementState) : entitlement_result unit :=
  fail_if ((en_schema s != ENTITLEMENT_STATE_SCHEMA) || (en_revision s == 0%Z))
    (EntitlementInvalid "private entitlement state has an unsupported schema") ;;
  validate_anchor s ;;
  fail_if (REQUIRED_SUCCESSFUL_DAYS <? length (en_successful_days s))%nat
    (EntitlementInvalid "private entitlement state has too many successful days") ;;
  validate_days ∅ ∅ ∅ ∅ (en_successful_days s) ;;
  fail_if ((en_phase s == TrialQualified)
           && negb (length (en_successful_days s) =? REQUIRED_SUCCESSFUL_DAYS)%nat)
    (EntitlementInvalid "qualified trial lacks five successful days") ;;
  if is_pro (en_phase s) then
    subscription ← ok_or (EntitlementInvalid "Pro state lacks a verified subscription")
                     (en_subscription s);
    validate_subscription_shape subscription
  else Ok tt.

(** ** The phase as time passes *)

(** The state afterwards, and whether its phase changed. *)
Definition refresh_phase (s : EntitlementState) (now : OffsetDateTime) (local_date : Date)
    : entitlement_result (EntitlementState * bool) :=
  match en_phase s with
  | TrialActive =>
      text ← ok_or (EntitlementInvalid "trial has no local anchor") (en_genesis_local_date s);
      genesis ← entitlement_date text;
      Ok (if (genesis + TRIAL_CALENDAR_DAYS <=? local_date)%Z
          then (set_phase TrialExpired s, true) else (s, false))
  | ProMonthly | ProYearly =>
      subscription ← ok_or (EntitlementInvalid "active Pro state has no verified subscription")
                       (en_subscription s);
      paid_through ← entitlement_timestamp (vsu_paid_through subscription);
      Ok (if (instant paid_through <=? instant now)%Z
          then (set_phase ProLapsed s, true) else (s, false))
  | _ => Ok (s, false)
  end.

(** ** The operations, on the state

    Each returns the state to write, if it writes, and the state it reports. *)

Abbreviation Outcome := (option EntitlementState * EntitlementState)%type.

Definition written (s : EntitlementState) : Outcome := (Some s, s).
Definition unwritten (s : EntitlementState) : Outcome := (None, s).

Definition status_step (now : OffsetDateTime) (local_date : Date) (s : EntitlementState)
    : entitlement_result Outcome :=
  '(s, changed) ← refresh_phase s now local_date;
  Ok (if changed : bool then written (bump s) else unwritten s).

(** [complete_genesis_at], and with a [migration] [migrate_existing_pairing_at]. *)
Definition genesis_step (migration : option string) (at_ : OffsetDateTime) (local_date : Date)
    (s : EntitlementState) : entitlement_result Outcome :=
  if en_phase s == GenesisIncomplete then
    timestamp ← entitlement_format_timestamp at_;
    let s := bump (set_genesis timestamp (display_date local_date) migration
                     (set_phase TrialActive s)) in
    validate_state s ;;
    Ok (written s)
  else Ok (unwritten s).

Definition date_leb (a b : SuccessfulDayEvidence) : bool :=
  bytes_leb (bytes_of (sd_local_date a)) (bytes_of (sd_local_date b)).

(** The evidence repeats a date, a command, an execution or a Version. *)
Definition repeats (evidence existing : SuccessfulDayEvidence) : bool :=
  (sd_local_date existing == sd_local_date evidence)
  || (sd_command_id existing == sd_command_id evidence)
  || (sd_execution_id existing == sd_execution_id evidence)
  || (sd_accepted_version_id existing == sd_accepted_version_id evidence).

Definition record_day_step (evidence : SuccessfulDayEvidence) (now : OffsetDateTime)
    (local_date : Date) (s : EntitlementState) : entitlement_result Outcome :=
  '(s, changed) ← refresh_phase s now local_date;
  if en_phase s != TrialActive then
    Ok (if changed : bool then written (bump s) else unwritten s)
  else
    validate_evidence evidence ;;
    fail_if (sd_local_date evidence != display_date local_date)
      (EntitlementInvalid "successful-day evidence local date differs from the injected clock") ;;
    if existsb (repeats evidence) (en_successful_days s) then
      Ok (if changed then written (bump s) else unwritten s)
    else
      let days := stable_sort date_leb (en_successful_days s ++ [evidence]) in
      let s := set_days days s in
      let s := if (REQUIRED_SUCCESSFUL_DAYS <=? length days)%nat
               then set_phase TrialQualified s else s in
      let s := bump s in
      validate_state s ;;
      Ok (written s).

Definition install_step (subscription : VerifiedSubscription) (now : OffsetDateTime)
    (local_date : Date) (s : EntitlementState) : entitlement_result Outcome :=
  '(s, _) ← refresh_phase s now local_date;
  fail_if (negb ((en_phase s == TrialQualified) || is_pro (en_phase s)))
    (EntitlementLocked "TOHSENO Pro is available only after five successful days") ;;
  let install :=
    let s := set_phase (match vsu_plan subscription with
                        | Monthly => ProMonthly | Yearly => ProYearly end) s in
    let s := bump (set_subscription subscription s) in
    validate_state s ;;
    Ok (written s) in
  match en_subscription s with
  | Some existing =>
      fail_if (vsu_provider_revision subscription <? vsu_provider_revision existing)%Z
        (EntitlementInvalid "verified entitlement receipt revision moved backwards") ;;
      if vsu_provider_revision subscription == vsu_provider_revision existing then
        fail_if (vsu_receipt_digest subscription != vsu_receipt_digest existing)
          (EntitlementInvalid "verified entitlement receipt revision conflicts with durable state") ;;
        Ok (unwritten s)
      else install
  | None => install
  end.

(** ** The store *)

Context `{StateReader}.

Definition read_locked (file : StateFile) : entitlement_result EntitlementState :=
  match file with
  | NoFile => Err (EntitlementIo "No such file or directory (os error 2)")
  | UnsafeFile => Err (EntitlementInvalid "private entitlement state is unsafe or oversized")
  | StateBytes bytes =>
      fail_if (MAXIMUM_STATE_BYTES <? Z.of_nat (length bytes))%Z
        (EntitlementInvalid "private entitlement state is unsafe or oversized") ;;
      state ← map_err EntitlementJson (decode_state bytes);
      validate_state state ;;
      Ok state
  end.

(** The file afterwards: written aside, then renamed over the old one. *)
Definition write_locked (state : EntitlementState) : entitlement_result StateFile :=
  validate_state state ;;
  bytes ← map_err (λ e, EntitlementInvalid (display_error e)) (canonical_to_vec state);
  fail_if (MAXIMUM_STATE_BYTES <? Z.of_nat (length bytes))%Z
    (EntitlementInvalid "private entitlement state is oversized") ;;
  Ok (StateBytes bytes).

(** Read, compute, write at most once, report. *)
Definition transact (step : EntitlementState -> entitlement_result Outcome) (file : StateFile)
    : StateFile * entitlement_result EntitlementStatus :=
  match (state ← read_locked file;
         '(to_write, reported) ← step state;
         file' ← match to_write with Some s => write_locked s | None => Ok file end;
         Ok (E:=EntitlementError) (file', status_from reported)) with
  | Ok (file', status) => (file', Ok status)
  | Err e => (file, Err e)
  end.

(** [EntitlementStore::open], once the directory exists. [Path::exists] follows
    links, so [UnsafeFile] stands for an entry that exists. *)
Definition open_entitlement (file : StateFile) : StateFile * entitlement_result unit :=
  match file with
  | NoFile =>
      match write_locked default_state with
      | Ok file' => (file', Ok tt)
      | Err e => (file, Err e)
      end
  | _ => (file, read_locked file ;; Ok tt)
  end.

Definition status_at (now : OffsetDateTime) (local_date : Date) :=
  transact (status_step now local_date).
Definition complete_genesis_at (completed_at : OffsetDateTime) (local_date : Date) :=
  transact (genesis_step None completed_at local_date).
Definition migrate_existing_pairing_at (migrated_at : OffsetDateTime) (local_date : Date) :=
  transact (genesis_step (Some "existing_paired_installation_v1") migrated_at local_date).
Definition record_successful_day_at (evidence : SuccessfulDayEvidence) (now : OffsetDateTime)
    (local_date : Date) :=
  transact (record_day_step evidence now local_date).
(** [record_successful_day_now]: the caller's evidence with the date and the time
    that the clock gives. *)
Definition record_successful_day_now (evidence : SuccessfulDayEvidence) (now : OffsetDateTime)
    (local_date : Date) (file : StateFile) : StateFile * entitlement_result EntitlementStatus :=
  match entitlement_format_timestamp now with
  | Err e => (file, Err e)
  | Ok accepted_at =>
      record_successful_day_at
        {| sd_local_date := display_date local_date; sd_command_id := sd_command_id evidence;
           sd_execution_id := sd_execution_id evidence;
           sd_accepted_version_id := sd_accepted_version_id evidence;
           sd_accepted_at := accepted_at |} now local_date file
  end.
Definition install_verified_subscription (subscription : VerifiedSubscription)
    (now : OffsetDateTime) (local_date : Date) (file : StateFile)
    : StateFile * entitlement_result EntitlementStatus :=
  match validate_subscription subscription now with
  | Err e => (file, Err e)
  | Ok _ => transact (install_step subscription now local_date) file
  end.

Definition locked_message (p : EntitlementPhase) : string :=
  match p with
  | GenesisIncomplete =>
      "Finish setting up TOHSENO on your iPhone before creating or evolving an app."
  | TrialQualified | ProLapsed =>
      "Continue with TOHSENO Pro on this Mac before creating or evolving an app."
  | TrialExpired => "Your TOHSENO trial has ended. Everything you made is still here."
  | _ => ""
  end.

(** [require_new_factory_mutation], at the time its [status_now] reads. *)
Definition require_new_factory_mutation (now : OffsetDateTime) (local_date : Date)
    (file : StateFile) : StateFile * entitlement_result unit :=
  match status_at now local_date file with
  | (file', Ok status) =>
      (file', if es_factory_mutations_allowed status then Ok tt
              else Err (EntitlementLocked (locked_message (es_phase status))))
  | (file', Err e) => (file', Err e)
  end.
End validation.
