(* ===== verification/CompanionModel.v ===== *)
(** * The companion crate: shared law

    [companion/src/lib.rs]: errors, bounded identifiers and texts, timestamps and
    validity windows of the private transport records. *)
From S2P Require Import Prelude Text Digest Clock.

Definition MAX_CLOCK_SKEW_SECONDS : Z := 30.
Definition MAX_IDENTIFIER_BYTES : nat := 128.
Definition MAX_TEXT_BYTES : Z := 1048576.

Inductive CompanionError : Type :=
  | CCanonical (error : string)
  | CCrypto (reason : string)
  | CInvalid (reason : string)
  | CReplay (reason : string).
#[export] Instance CompanionError_eq_dec : EqDecision CompanionError.
Proof. solve_decision. Defined.

Abbreviation companion_result := (Result CompanionError).

Definition display_companion_error (e : CompanionError) : string :=
  match e with
  | CCanonical error => "canonical JSON failed: " +:+ error
  | CCrypto reason => "companion cryptography failed: " +:+ reason
  | CInvalid reason => reason
  | CReplay reason => "companion replay rejected: " +:+ reason
  end.

Definition require (condition : bool) (message : string) : companion_result unit :=
  if condition then Ok tt else Err (CInvalid message).

Lemma require_Ok c m u : require c m = Ok u <-> c = true.
Proof. destruct c, u; done. Qed.

Lemma require_bind {B} condition message (k : companion_result B) :
  condition = true -> (require condition message ;; k) = k.
Proof. by intros ->. Qed.
Lemma bind_tt {B} (k : companion_result B) : (Ok tt ;; k) = k.
Proof. done. Qed.

(** A byte of an opaque identifier: alphanumeric or one of [-], [_], [.], [:]. *)
Definition is_identifier_byte (b : Z) : bool :=
  is_ascii_alphanumeric b || (b =? 45)%Z || (b =? 95)%Z || (b =? 46)%Z || (b =? 58)%Z.

Definition companion_identifier (label value : string) : companion_result unit :=
  require (negb (len value =? 0)%nat && (len value <=? MAX_IDENTIFIER_BYTES)%nat
           && forallb is_identifier_byte (bytes_of value))
    (label +:+ " must be a bounded opaque identifier").

Definition companion_text (label value : string) (maximum : Z) : companion_result unit :=
  require (negb (trim (chars (bytes_of value)) == []) && (Z.of_nat (len value) <=? maximum)%Z)
    (label +:+ " must be nonempty and no larger than " +:+ pretty maximum +:+ " UTF-8 bytes").

(** Identifiers that [companion_identifier] accepts under any label. *)
Definition identifier_ok (value : string) : Prop := companion_identifier "" value = Ok tt.

Lemma identifier_ok_iff label value : companion_identifier label value = Ok tt <-> identifier_ok value.
Proof. unfold identifier_ok, companion_identifier. by rewrite !require_Ok. Qed.

(** ** Time *)

Section time.
Context `{Platform} `{TimeFormat}.

Definition companion_timestamp (value : string) : companion_result OffsetDateTime :=
  let at_ i b := bool_decide (bytes_of value !! i = Some b) in
  require ((len value =? 20)%nat && at_ 4 45%Z && at_ 7 45%Z && at_ 10 84%Z && at_ 13 58%Z
           && at_ 16 58%Z && starts_with [90%Z] (rev (bytes_of value)))
    "timestamps must use exact-second UTC RFC 3339" ;;
  parsed ← ok_or (CInvalid "timestamp is not RFC 3339") (parse_rfc3339 value);
  canonical ← ok_or (CInvalid "timestamp cannot be formatted") (format_rfc3339 parsed);
  require (canonical == value) "timestamp is not canonical RFC 3339" ;;
  Ok parsed.

Definition validate_window (issued_at expires_at : string) (now : OffsetDateTime)
    (maximum_lifetime_seconds clock_skew_seconds : Z) : companion_result unit :=
  issued ← companion_timestamp issued_at;
  expires ← companion_timestamp expires_at;
  let lifetime := whole_seconds (instant expires - instant issued) in
  require ((0 <? lifetime) && (lifetime <=? maximum_lifetime_seconds))
    "object lifetime is invalid" ;;
  require ((instant issued - seconds clock_skew_seconds <=? instant now)
           && (instant now <=? instant expires + seconds clock_skew_seconds))%Z
    "object is not valid at this time".

Lemma window_holds created expires now maximum skew c e :
  companion_timestamp created = Ok c -> companion_timestamp expires = Ok e ->
  (0 < whole_seconds (instant e - instant c) <= maximum)%Z ->
  (instant c - seconds skew <= instant now <= instant e + seconds skew)%Z ->
  validate_window created expires now maximum skew = Ok tt.
Proof.
  intros Hc He Hl Hn. unfold validate_window. rewrite Hc. simpl. rewrite He. simpl.
  set (life := whole_seconds _) in *. rewrite (proj2 (Z.ltb_lt 0 life)) by lia.
  rewrite (proj2 (Z.leb_le life maximum)) by lia. simpl.
  by rewrite (proj2 (Z.leb_le (instant c - _) _)), (proj2 (Z.leb_le (instant now) _)) by lia.
Qed.
End time.
