(* ===== verification/CompanionJournal.v ===== *)
(** * Replay windows, idempotency journals and cursor journals

    [companion/src/journal.rs]: the bounded in-memory structures with which a
    paired Mac and phone exchange envelopes, commands and events. Operations on
    [&mut self] return the structure afterwards with their result. A [u64] is a
    [Z] within [U64_MAX]; a [BTreeMap] is a [gmap], its first key the least. *)
From S2P Require Import Prelude Text Digest CompanionModel.

(** ** The replay window *)

Inductive ReplayDecision : Type := New | Duplicate.
#[export] Instance ReplayDecision_eq_dec : EqDecision ReplayDecision.
Proof. solve_decision. Defined.

Record SenderWindow := {
  sw_floor : Z;
  sw_sequences : gmap Z string;
  sw_envelope_ids : gmap string Z }.

Record ReplayWindow := {
  rw_maximum_per_sender : nat;
  rw_senders : gmap string SenderWindow }.

Definition replay_window_new (maximum_per_sender : nat) : companion_result ReplayWindow :=
  require ((1 <=? maximum_per_sender)%nat && (Z.of_nat maximum_per_sender <=? 65536)%Z)
    "replay window capacity must be 1..=65536" ;;
  Ok {| rw_maximum_per_sender := maximum_per_sender; rw_senders := ∅ |}.

Definition empty_sender : SenderWindow :=
  {| sw_floor := 0; sw_sequences := ∅; sw_envelope_ids := ∅ |}.

(** [BTreeMap::first_key_value] *)
Definition first_key_value {A} (m : gmap Z A) : option (Z * A) :=
  head (stable_sort (λ a b, fst a <=? fst b)%Z (map_to_list m)).

(** One turn of the eviction loop. *)
Definition evict_oldest (w : SenderWindow) : SenderWindow :=
  match first_key_value (sw_sequences w) with
  | Some (oldest, old_id) =>
      {| sw_floor := Z.max (sw_floor w) oldest;
         sw_sequences := delete oldest (sw_sequences w);
         sw_envelope_ids := delete old_id (sw_envelope_ids w) |}
  | None => w
  end.

(** [while sender.sequences.len() > maximum]; each turn removes one sequence, so
    the size of the map is enough fuel ([evict_bounded]). *)
Fixpoint evict_loop (fuel maximum : nat) (w : SenderWindow) : SenderWindow :=
  match fuel with
  | O => w
  | S fuel =>
      if (maximum <? size (sw_sequences w))%nat
      then evict_loop fuel maximum (evict_oldest w) else w
  end.

(** What one observation does to the window of its sender. *)
Definition observe_sender (maximum : nat) (w : SenderWindow) (sequence : Z) (envelope_id : string)
    : SenderWindow * companion_result ReplayDecision :=
  if (sequence <=? sw_floor w)%Z then
    (w, Err (CReplay "sender sequence is older than the retained replay window"))
  else match sw_sequences w !! sequence with
  | Some existing_id =>
      (w, if existing_id == envelope_id then Ok Duplicate
          else Err (CReplay "sender sequence was reused by a different envelope"))
  | None =>
      match sw_envelope_ids w !! envelope_id with
      | Some existing_sequence =>
          (w, if existing_sequence == sequence then Ok Duplicate
              else Err (CReplay "envelope ID was reused at a different sequence"))
      | None =>
          let added := {| sw_floor := sw_floor w;
            sw_sequences := <[sequence := envelope_id]> (sw_sequences w);
            sw_envelope_ids := <[envelope_id := sequence]> (sw_envelope_ids w) |} in
          (evict_loop (size (sw_sequences added)) maximum added, Ok New)
      end
  end.

Definition observe (rw : ReplayWindow) (sender_device_id : string) (sender_sequence : Z)
    (envelope_id : string) : ReplayWindow * companion_result ReplayDecision :=
  match (companion_identifier "sender device ID" sender_device_id ;;
         companion_identifier "envelope ID" envelope_id ;;
         require (0 <? sender_sequence) "sender sequence must be positive") with
  | Err e => (rw, Err e)
  | Ok _ =>
      let sender := default empty_sender (rw_senders rw !! sender_device_id) in
      let '(sender, result) :=
        observe_sender (rw_maximum_per_sender rw) sender sender_sequence envelope_id in
      ({| rw_maximum_per_sender := rw_maximum_per_sender rw;
          rw_senders := <[sender_device_id := sender]> (rw_senders rw) |}, result)
  end.

(** ** The idempotency journal *)

Inductive PhoneCommandState : Type :=
  | PhoneReceived | PhoneValidated | PhoneAccepted | PhoneRunning | PhoneWaitingForDevice
  | PhoneCompleted | PhoneRejected | PhoneFailed | PhoneCancelled.
#[export] Instance PhoneCommandState_eq_dec : EqDecision PhoneCommandState.
Proof. solve_decision. Defined.

(** The [Debug] name of a state. *)
Definition debug_state (s : PhoneCommandState) : string :=
  match s with
  | PhoneReceived => "Received" | PhoneValidated => "Validated" | PhoneAccepted => "Accepted"
  | PhoneRunning => "Running" | PhoneWaitingForDevice => "WaitingForDevice"
  | PhoneCompleted => "Completed" | PhoneRejected => "Rejected" | PhoneFailed => "Failed"
  | PhoneCancelled => "Cancelled"
  end.

Definition valid_transition (from to : PhoneCommandState) : bool :=
  (from == to) ||
  match from, to with
  | PhoneReceived, (PhoneValidated | PhoneRejected | PhoneFailed | PhoneCancelled) => true
  | PhoneValidated, (PhoneAccepted | PhoneRejected | PhoneFailed | PhoneCancelled) => true
  | PhoneAccepted,
    (PhoneRunning | PhoneWaitingForDevice | PhoneCompleted | PhoneFailed | PhoneCancelled) => true
  | PhoneRunning, (PhoneWaitingForDevice | PhoneCompleted | PhoneFailed | PhoneCancelled) => true
  | PhoneWaitingForDevice, (PhoneRunning | PhoneCompleted | PhoneFailed | PhoneCancelled) => true
  | _, _ => false
  end.

(** The states [finish] accepts. *)
Definition is_final (s : PhoneCommandState) : bool :=
  match s with
  | PhoneCompleted | PhoneRejected | PhoneFailed | PhoneCancelled => true
  | _ => false
  end.

Section idempotency.
Context {R : Type}.

Inductive CommandAdmission : Type :=
  | NewCommand
  | ExistingCommand (state : PhoneCommandState) (result : option R).

Record CommandEntry := {
  ce_payload_digest : Bytes32;
  ce_state : PhoneCommandState;
  ce_result : option R }.

Record IdempotencyJournal := { ij_commands : gmap string CommandEntry }.

Definition admit_command (j : IdempotencyJournal) (command_id : string) (digest : Bytes32)
    : IdempotencyJournal * companion_result CommandAdmission :=
  match companion_identifier "command ID" command_id with
  | Err e => (j, Err e)
  | Ok _ =>
      match ij_commands j !! command_id with
      | Some existing =>
          (j, require (ce_payload_digest existing == digest)
                "command ID was reused with a different payload" ;;
              Ok (ExistingCommand (ce_state existing) (ce_result existing)))
      | None =>
          ({| ij_commands := <[command_id := {| ce_payload_digest := digest;
                ce_state := PhoneReceived; ce_result := None |}]> (ij_commands j) |},
           Ok NewCommand)
      end
  end.

Definition transition_command (j : IdempotencyJournal) (command_id : string)
    (state : PhoneCommandState) : IdempotencyJournal * companion_result unit :=
  match ij_commands j !! command_id with
  | None => (j, Err (CInvalid "command was not admitted"))
  | Some entry =>
      match require (valid_transition (ce_state entry) state)
              ("invalid command transition from " +:+ debug_state (ce_state entry)
               +:+ " to " +:+ debug_state state) with
      | Err e => (j, Err e)
      | Ok _ =>
          ({| ij_commands := <[command_id := {| ce_payload_digest := ce_payload_digest entry;
                ce_state := state; ce_result := ce_result entry |}]> (ij_commands j) |}, Ok tt)
      end
  end.

Definition finish_command (j : IdempotencyJournal) (command_id : string)
    (state : PhoneCommandState) (result : R) : IdempotencyJournal * companion_result unit :=
  match require (is_final state) "command result requires a final state" with
  | Err e => (j, Err e)
  | Ok _ =>
      match transition_command j command_id state with
      | (j, Err e) => (j, Err e)
      | (j, Ok _) =>
          ({| ij_commands := alter (λ entry, {| ce_payload_digest := ce_payload_digest entry;
                ce_state := ce_state entry; ce_result := Some result |}) command_id
                (ij_commands j) |}, Ok tt)
      end
  end.

Definition command_state (j : IdempotencyJournal) (command_id : string)
    : option PhoneCommandState := ce_state <$> ij_commands j !! command_id.
End idempotency.
Arguments CommandAdmission : clear implicits.
Arguments CommandEntry : clear implicits.
Arguments IdempotencyJournal : clear implicits.

(** ** The cursor journal *)

Section cursors.
Context {T : Type}.

Inductive CatchUp : Type :=
  | Events (events : list (Z * string * T)) (next_cursor : Z)
  | SnapshotRequired (oldest_available_cursor next_cursor : Z).

Record CursorEntry := { cu_cursor : Z; cu_event_id : string; cu_event : T }.

Record CursorJournal := {
  cj_maximum_events : nat;
  cj_next_cursor : Z;
  cj_entries : list CursorEntry;
  cj_event_index : gmap string (Z * Bytes32);
  cj_acknowledgements : gmap string Z }.

Definition cursor_journal_new (maximum_events : nat) : companion_result CursorJournal :=
  require ((1 <=? maximum_events)%nat && (Z.of_nat maximum_events <=? 1000000)%Z)
    "cursor journal capacity must be 1..=1000000" ;;
  Ok {| cj_maximum_events := maximum_events; cj_next_cursor := 1; cj_entries := [];
        cj_event_index := ∅; cj_acknowledgements := ∅ |}.

(** [while self.entries.len() > self.maximum_events]: the entries are popped from
    the front, so the loop is by recursion on them. *)
Fixpoint pop_excess (maximum : nat) (entries : list CursorEntry)
    (index : gmap string (Z * Bytes32)) : list CursorEntry * gmap string (Z * Bytes32) :=
  match entries with
  | removed :: rest =>
      if (maximum <? length entries)%nat
      then pop_excess maximum rest (delete (cu_event_id removed) index)
      else (entries, index)
  | [] => ([], index)
  end.

Definition append_event (j : CursorJournal) (event_id : string) (digest : Bytes32) (event : T)
    : CursorJournal * companion_result Z :=
  match companion_identifier "event ID" event_id with
  | Err e => (j, Err e)
  | Ok _ =>
      match cj_event_index j !! event_id with
      | Some (cursor, existing_digest) =>
          (j, require (existing_digest == digest) "event ID was reused with different content" ;;
              Ok cursor)
      | None =>
          let cursor := cj_next_cursor j in
          match checked_add_u64 cursor 1 with
          | None => (j, Err (CInvalid "cursor overflowed"))
          | Some next =>
              let '(entries, index) := pop_excess (cj_maximum_events j)
                (cj_entries j ++ [{| cu_cursor := cursor; cu_event_id := event_id;
                                     cu_event := event |}])
                (<[event_id := (cursor, digest)]> (cj_event_index j)) in
              ({| cj_maximum_events := cj_maximum_events j; cj_next_cursor := next;
                  cj_entries := entries; cj_event_index := index;
                  cj_acknowledgements := cj_acknowledgements j |}, Ok cursor)
          end
      end
  end.

Definition oldest_cursor (j : CursorJournal) : Z :=
  match cj_entries j with entry :: _ => cu_cursor entry | [] => cj_next_cursor j end.

Definition catch_up (j : CursorJournal) (after_cursor : Z) (maximum : nat)
    : companion_result CatchUp :=
  require ((1 <=? maximum)%nat && (Z.of_nat maximum <=? 10000)%Z) "catch-up limit is invalid" ;;
  let oldest := oldest_cursor j in
  if (after_cursor != 0%Z) && (saturating_add_u64 after_cursor 1 <? oldest)%Z
  then Ok (SnapshotRequired oldest (cj_next_cursor j))
  else Ok (Events
    ((λ entry, (cu_cursor entry, cu_event_id entry, cu_event entry)) <$>
      take maximum (List.filter (λ entry, after_cursor <? cu_cursor entry) (cj_entries j)))
    (cj_next_cursor j)).

Definition acknowledged_cursor (j : CursorJournal) (recipient_id : string) : Z :=
  default 0%Z (cj_acknowledgements j !! recipient_id).

Definition acknowledge (j : CursorJournal) (recipient_id : string) (cursor : Z)
    : CursorJournal * companion_result unit :=
  match (companion_identifier "recipient ID" recipient_id ;;
         require (cursor <? cj_next_cursor j) "acknowledgement cursor is unknown" ;;
         require (acknowledged_cursor j recipient_id <=? cursor)
           "acknowledgement cursor moved backwards") with
  | Err e => (j, Err e)
  | Ok _ =>
      ({| cj_maximum_events := cj_maximum_events j; cj_next_cursor := cj_next_cursor j;
          cj_entries := cj_entries j; cj_event_index := cj_event_index j;
          cj_acknowledgements := <[recipient_id := cursor]> (cj_acknowledgements j) |}, Ok tt)
  end.
End cursors.
Arguments CatchUp : clear implicits.
Arguments CursorEntry : clear implicits.
Arguments CursorJournal : clear implicits.
