(* ===== verification/CompanionJournalLaws.v ===== *)
(** * Laws of the companion journals

    A sequence number is accepted as new at most once however the window is
    evicted; a command identifier is bound to one payload and its final state is
    final; the cursor journal never delivers a stream with a hole in it. *)
From S2P Require Import Prelude Text Digest CompanionModel CompanionJournal.

(** ** The replay window *)

Lemma first_key_value_spec {A} (m : gmap Z A) :
  match first_key_value m with
  | Some (k, x) => m !! k = Some x /\ forall k', is_Some (m !! k') -> (k <= k')%Z
  | None => m = ∅
  end.
Proof.
  unfold first_key_value. set (leb := λ a b : Z * A, (fst a <=? fst b)%Z).
  assert (StronglySorted (λ a b, leb a b = true) (stable_sort leb (map_to_list m))) as Hs.
  { apply stable_sort_sorted; unfold leb; intros; rewrite ?Z.leb_le in *; lia. }
  pose proof (stable_sort_perm leb (map_to_list m)) as Hp.
  destruct (stable_sort leb (map_to_list m)) as [|[k x] l]; simpl.
  - apply Permutation_nil_l in Hp. by apply map_to_list_empty_iff.
  - split; [apply elem_of_map_to_list; rewrite <- Hp; by left|].
    intros k' [x' Hk']. apply elem_of_map_to_list in Hk'. rewrite <- Hp in Hk'.
    apply elem_of_cons in Hk' as [[= -> ->]|Hk']; [done|].
    apply StronglySorted_inv in Hs as [_ Hall]. rewrite Forall_forall in Hall.
    specialize (Hall _ Hk'). unfold leb in Hall. simpl in Hall. lia.
Qed.

(** A sequence number the window will not accept as new again. *)
Definition spent (w : SenderWindow) (q : Z) : Prop :=
  (q <= sw_floor w)%Z \/ is_Some (sw_sequences w !! q).

Lemma evict_oldest_spent w q : spent w q -> spent (evict_oldest w) q.
Proof.
  unfold evict_oldest. pose proof (first_key_value_spec (sw_sequences w)) as Hf.
  destruct (first_key_value _) as [[o id]|]; [|done]. unfold spent. simpl.
  intros [Hq|[e Hq]]; [left; lia|].
  destruct (decide (q = o)) as [->|Hne]; [left; lia|right]. rewrite lookup_delete_ne; [by eexists|done].
Qed.

Lemma evict_loop_spent fuel maximum w q : spent w q -> spent (evict_loop fuel maximum w) q.
Proof.
  revert w. induction fuel as [|fuel IH]; intros w Hw; simpl; [done|].
  case_match; [|done]. by apply IH, evict_oldest_spent.
Qed.

Lemma observe_sender_spent maximum w q e q0 :
  spent w q0 -> spent (observe_sender maximum w q e).1 q0.
Proof.
  intros Hw. unfold observe_sender. repeat case_match; simpl; try done.
  apply evict_loop_spent. destruct Hw as [?|[x Hx]]; [by left|right]. simpl.
  destruct (decide (q0 = q)) as [->|]; [rewrite lookup_insert_eq|rewrite lookup_insert_ne]; eauto.
Qed.

Lemma observe_sender_new maximum w q e : (observe_sender maximum w q e).2 = Ok New ->
  ~ spent w q /\ spent (observe_sender maximum w q e).1 q.
Proof.
  unfold observe_sender. destruct (q <=? sw_floor w)%Z eqn:Hq; [done|].
  destruct (sw_sequences w !! q) as [x|] eqn:Hs; simpl; [by case_bool_decide|].
  destruct (sw_envelope_ids w !! e) as [x|]; simpl; [by case_bool_decide|].
  intros _. split; [intros [?|[? ?]]; [lia|congruence]|].
  apply evict_loop_spent. right. simpl. rewrite lookup_insert_eq. eauto.
Qed.

(** The numbers spent by a sender. *)
Definition spent_by (rw : ReplayWindow) (sender : string) (q : Z) : Prop :=
  spent (default empty_sender (rw_senders rw !! sender)) q.

Lemma observe_spent rw s q e s0 q0 : spent_by rw s0 q0 -> spent_by (observe rw s q e).1 s0 q0.
Proof.
  intros Hs. unfold observe. case_match; [|done].
  destruct (observe_sender _ _ _ _) as [w r] eqn:E. unfold spent_by. simpl.
  destruct (decide (s0 = s)) as [->|]; [|by rewrite lookup_insert_ne].
  rewrite lookup_insert_eq. simpl.
  change w with (w, r).1. rewrite <- E. by apply observe_sender_spent.
Qed.

Lemma observe_new rw s q e : (observe rw s q e).2 = Ok New ->
  ~ spent_by rw s q /\ spent_by (observe rw s q e).1 s q.
Proof.
  unfold observe. case_match; [|done].
  destruct (observe_sender _ _ _ _) as [w r] eqn:E. simpl. intros ->.
  pose proof (observe_sender_new (rw_maximum_per_sender rw)
    (default empty_sender (rw_senders rw !! s)) q e) as Hn. rewrite E in Hn.
  destruct (Hn eq_refl) as [Hb Ha]. split; [exact Hb|]. unfold spent_by. simpl.
  by rewrite lookup_insert_eq.
Qed.

(** One observation: sender, sequence, envelope. *)
Abbreviation Observation := (string * Z * string)%type.

Fixpoint observe_all (rw : ReplayWindow) (observations : list Observation)
    : list (companion_result ReplayDecision) :=
  match observations with
  | [] => []
  | (s, q, e) :: rest =>
      let '(rw, r) := observe rw s q e in r :: observe_all rw rest
  end.

Lemma observe_all_spent rw obs s q e j : spent_by rw s q -> obs !! j = Some (s, q, e) ->
  observe_all rw obs !! j <> Some (Ok New).
Proof.
  revert rw j. induction obs as [|[[s' q'] e'] obs IH]; intros rw j Hs Hj; [done|].
  simpl. destruct (observe rw s' q' e') as [rw' r] eqn:E. destruct j as [|j]; simpl in *.
  - injection Hj as -> -> ->. intros [= ->].
    assert ((observe rw s q e).2 = Ok New) as Hn by (by rewrite E).
    by apply observe_new in Hn as [? _].
  - apply IH; [|done]. change rw' with (rw', r).1. rewrite <- E. by apply observe_spent.
Qed.

(** Replay protection: in any sequence of observations, with any
    interleaving of senders, duplicates, reordering and evictions, a sender's
    sequence number is accepted as new at most once. *)
Theorem accepted_at_most_once rw obs i j s q e1 e2 : i < j ->
  obs !! i = Some (s, q, e1) -> obs !! j = Some (s, q, e2) ->
  observe_all rw obs !! i = Some (Ok New) -> observe_all rw obs !! j <> Some (Ok New).
Proof.
  revert rw i j. induction obs as [|[[s' q'] e'] obs IH]; intros rw i j Hij Hi Hj Hn; [done|].
  destruct j as [|j]; [lia|]. simpl in *.
  destruct (observe rw s' q' e') as [rw' r] eqn:E. destruct i as [|i]; simpl in *.
  - injection Hi as -> -> ->. injection Hn as ->.
    assert ((observe rw s q e1).2 = Ok New) as Hn by (by rewrite E).
    apply observe_new in Hn as [_ Hs]. rewrite E in Hs. by eapply observe_all_spent.
  - by eapply (IH rw' i j); [lia|..].
Qed.

(** The retained part of a window: above the floor, one envelope per sequence
    and one sequence per envelope. *)
Record window_ok (w : SenderWindow) : Prop := {
  wo_floor : forall q e, sw_sequences w !! q = Some e -> (sw_floor w < q)%Z;
  wo_inverse : forall q e, sw_sequences w !! q = Some e <-> sw_envelope_ids w !! e = Some q }.

Lemma evict_oldest_ok w : window_ok w -> window_ok (evict_oldest w).
Proof.
  intros [Hf Hi]. unfold evict_oldest.
  pose proof (first_key_value_spec (sw_sequences w)) as Hk.
  destruct (first_key_value _) as [[o id]|]; [|done]. destruct Hk as [Ho Hmin].
  constructor; simpl.
  - intros q e [Hne Hq]%lookup_delete_Some. pose proof (Hf _ _ Hq).
    pose proof (Hmin q (ex_intro _ e Hq)). lia.
  - intros q e. rewrite !lookup_delete_Some, Hi. pose proof (proj1 (Hi o id) Ho).
    split; intros [Hne Hx]; (split; [|done]); intros ->; [congruence|].
    apply Hi in Hx. congruence.
Qed.

Lemma evict_oldest_size w : size (sw_sequences w) <> 0 ->
  size (sw_sequences (evict_oldest w)) = pred (size (sw_sequences w)).
Proof.
  intros Hs. unfold evict_oldest. pose proof (first_key_value_spec (sw_sequences w)) as Hk.
  destruct (first_key_value _) as [[o id]|]; simpl.
  - apply map_size_delete_Some. by destruct Hk as [-> _].
  - rewrite Hk in Hs. by rewrite map_size_empty in Hs.
Qed.

Lemma evict_loop_ok fuel maximum w : window_ok w -> window_ok (evict_loop fuel maximum w).
Proof.
  revert w. induction fuel as [|fuel IH]; intros w Hw; simpl; [done|].
  case_match; [|done]. by apply IH, evict_oldest_ok.
Qed.

Lemma evict_bounded fuel maximum w : size (sw_sequences w) <= fuel + maximum ->
  size (sw_sequences (evict_loop fuel maximum w)) <= maximum.
Proof.
  revert w. induction fuel as [|fuel IH]; intros w Hw; simpl; [lia|].
  destruct (maximum <? _)%nat eqn:E; [|apply Nat.ltb_ge in E; lia].
  apply Nat.ltb_lt in E. apply IH. rewrite evict_oldest_size; lia.
Qed.

Lemma observe_sender_ok maximum w q e : window_ok w ->
  window_ok (observe_sender maximum w q e).1.
Proof.
  intros Hw. unfold observe_sender. destruct (q <=? sw_floor w)%Z eqn:Hq; [done|].
  destruct (sw_sequences w !! q) eqn:Hs; [done|].
  destruct (sw_envelope_ids w !! e) eqn:He; [done|]. simpl.
  apply evict_loop_ok. destruct Hw as [Hf Hi]. constructor; simpl.
  - intros q' e' [[<- <-]|[_ Hq']]%lookup_insert_Some; [lia|by eapply Hf].
  - intros q' e'. rewrite !lookup_insert_Some, Hi.
    assert (sw_envelope_ids w !! e' = Some q' -> q <> q' /\ e <> e') as Hne.
    { intros Hx. split; intros ->; [|congruence]. apply Hi in Hx. congruence. }
    naive_solver.
Qed.

(** Every sender's window is sound and within the capacity. *)
Definition replay_ok (rw : ReplayWindow) : Prop :=
  forall s w, rw_senders rw !! s = Some w ->
    window_ok w /\ size (sw_sequences w) <= rw_maximum_per_sender rw.

Lemma empty_sender_ok : window_ok empty_sender.
Proof. constructor; simpl; [done|]. intros q e. by rewrite !lookup_empty. Qed.

Lemma sender_ok rw s : replay_ok rw ->
  window_ok (default empty_sender (rw_senders rw !! s)) /\
  size (sw_sequences (default empty_sender (rw_senders rw !! s))) <= rw_maximum_per_sender rw.
Proof.
  intros Hok. destruct (rw_senders rw !! s) as [w|] eqn:Hw; simpl; [by eapply Hok|].
  split; [apply empty_sender_ok|]. rewrite map_size_empty. lia.
Qed.

(** One observation decides exactly: a message is a duplicate when this very
    pair of sequence and envelope is retained, and new when the sequence is above
    the floor and neither the sequence nor the envelope is retained; everything
    else is refused. The window stays sound and within its capacity. *)
Theorem observe_decides rw s q e : replay_ok rw ->
  identifier_ok s -> identifier_ok e -> (0 < q)%Z ->
  let w := default empty_sender (rw_senders rw !! s) in
  ((observe rw s q e).2 = Ok Duplicate <-> sw_sequences w !! q = Some e) /\
  ((observe rw s q e).2 = Ok New <->
     (sw_floor w < q)%Z /\ sw_sequences w !! q = None /\ sw_envelope_ids w !! e = None) /\
  replay_ok (observe rw s q e).1.
Proof.
  intros Hok Hs He Hq w. destruct (sender_ok rw s Hok) as [Hw Hsize]. fold w in Hw, Hsize.
  unfold observe. rewrite (proj2 (identifier_ok_iff _ _) Hs), (proj2 (identifier_ok_iff _ _) He).
  simpl. rewrite (proj2 (Z.ltb_lt _ _) Hq). simpl. fold w.
  pose proof (observe_sender_ok (rw_maximum_per_sender rw) w q e Hw) as Hok'.
  assert (size (sw_sequences (observe_sender (rw_maximum_per_sender rw) w q e).1)
    <= rw_maximum_per_sender rw) as Hsize'.
  { unfold observe_sender. repeat case_match; simpl; try done. apply evict_bounded.
    simpl. rewrite map_size_insert_None by done. lia. }
  destruct (observe_sender _ w q e) as [w' r] eqn:E. simpl in *.
  assert (r = (observe_sender (rw_maximum_per_sender rw) w q e).2) as -> by (by rewrite E).
  split_and!.
  - unfold observe_sender. destruct (q <=? sw_floor w)%Z eqn:Hfl.
    + split; [done|]. intros Hx. apply (wo_floor _ Hw) in Hx. lia.
    + destruct (sw_sequences w !! q) as [x|] eqn:Hx; simpl.
      * case_bool_decide; split; congruence.
      * split; [|done]. destruct (sw_envelope_ids w !! e) as [x|] eqn:Hxe; simpl; [|done].
        case_bool_decide; [subst|done]. apply (wo_inverse _ Hw) in Hxe. congruence.
  - unfold observe_sender. destruct (q <=? sw_floor w)%Z eqn:Hfl; simpl; [split; [done|lia]|].
    destruct (sw_sequences w !! q) as [x|] eqn:Hx; simpl.
    + case_bool_decide; (split; [done|naive_solver]).
    + destruct (sw_envelope_ids w !! e) as [x|] eqn:Hxe; simpl.
      * case_bool_decide; (split; [done|naive_solver]).
      * split; [|done]. intros _. split_and!; [lia|done|done].
  - intros s' w0. simpl. intros [[<- <-]|[_ Hw0]]%lookup_insert_Some; [done|by eapply Hok].
Qed.

(** ** The idempotency journal *)

Section idempotency.
Context {R : Type}.

(** One operation on the journal. *)
Inductive journal_step (j : IdempotencyJournal R) : IdempotencyJournal R -> Prop :=
  | step_admit id d : journal_step j (admit_command j id d).1
  | step_transition id st : journal_step j (transition_command j id st).1
  | step_finish id st r : journal_step j (finish_command j id st r).1.

(** What no operation changes: the payload a command is bound to, and a final
    state. *)
Definition entry_kept (e e' : CommandEntry R) : Prop :=
  ce_payload_digest e' = ce_payload_digest e /\
  rtc (λ a b, valid_transition a b = true) (ce_state e) (ce_state e').

Lemma entry_kept_refl e : entry_kept e e.
Proof. by split. Qed.

Lemma entry_kept_trans e1 e2 e3 : entry_kept e1 e2 -> entry_kept e2 e3 -> entry_kept e1 e3.
Proof. intros [? ?] [? ?]. split; [congruence|by etrans]. Qed.

Definition journal_kept (j j' : IdempotencyJournal R) : Prop :=
  forall id e, ij_commands j !! id = Some e ->
    exists e', ij_commands j' !! id = Some e' /\ entry_kept e e'.

Lemma journal_kept_refl j : journal_kept j j.
Proof. intros id e He. exists e. split; [done|apply entry_kept_refl]. Qed.

Lemma journal_kept_update (j : IdempotencyJournal R) id e e' :
  ij_commands j !! id = Some e -> entry_kept e e' ->
  journal_kept j {| ij_commands := <[id := e']> (ij_commands j) |}.
Proof.
  intros He Hk id0 e0 He0. simpl. destruct (decide (id0 = id)) as [->|Hne].
  - rewrite lookup_insert_eq. exists e'. split; [done|]. by simplify_eq.
  - rewrite lookup_insert_ne by done. exists e0. split; [done|apply entry_kept_refl].
Qed.

Lemma transition_kept (j : IdempotencyJournal R) id st :
  journal_kept j (transition_command j id st).1.
Proof.
  unfold transition_command. destruct (ij_commands j !! id) as [e|] eqn:He; [|apply journal_kept_refl].
  destruct (require _ _) as [u|] eqn:Hv; [|apply journal_kept_refl]. apply require_Ok in Hv. simpl.
  eapply journal_kept_update; [done|]. split; [done|]. simpl. by apply rtc_once.
Qed.

Lemma finish_kept (j : IdempotencyJournal R) id st r :
  journal_kept j (finish_command j id st r).1.
Proof.
  unfold finish_command. destruct (require _ _); [|apply journal_kept_refl].
  pose proof (transition_kept j id st) as Hk.
  destruct (transition_command j id st) as [j' [u|e]]; simpl in *; [|done].
  intros id0 e0 He0. destruct (Hk _ _ He0) as (e1&He1&Hk1). simpl.
  destruct (decide (id = id0)) as [->|Hne].
  - rewrite lookup_alter_eq, He1. simpl. eexists. split; [done|exact Hk1].
  - rewrite lookup_alter_ne by done. by exists e1.
Qed.

Lemma step_kept j j' : journal_step j j' -> journal_kept j j'.
Proof.
  intros [id d|id st|id st r]; [|apply transition_kept|apply finish_kept].
  unfold admit_command. destruct (companion_identifier _ _); [|apply journal_kept_refl].
  destruct (ij_commands j !! id) eqn:Hid; simpl; [apply journal_kept_refl|].
  intros id0 e0 He0. exists e0. split; [|apply entry_kept_refl]. simpl.
  rewrite lookup_insert_ne; [done|congruence].
Qed.

Lemma steps_kept j j' : rtc journal_step j j' -> journal_kept j j'.
Proof.
  induction 1 as [j|j1 j2 j3 Hs _ IH]; [apply journal_kept_refl|].
  intros id e He. destruct (step_kept _ _ Hs _ _ He) as (e2&He2&Hk2).
  destruct (IH _ _ He2) as (e3&He3&Hk3). exists e3. split; [done|by eapply entry_kept_trans].
Qed.

Lemma final_stuck a b : rtc (λ a b, valid_transition a b = true) a b -> is_final a = true -> b = a.
Proof.
  induction 1 as [|x y z Hxy _ IH]; intros Hf; [done|].
  assert (y = x) as -> by (unfold valid_transition in Hxy; destruct x, y; simpl in *; done).
  by apply IH.
Qed.

(** A command identifier names one command for ever: once admitted, no
    operation makes it new again or binds it to another payload. Admitting it
    again with its payload reports its present state, with another payload fails,
    and its state only moves along valid transitions and stays once final. *)
Theorem command_admitted_once (j j' : IdempotencyJournal R) id e digest :
  ij_commands j !! id = Some e -> rtc journal_step j j' -> identifier_ok id ->
  exists e', ij_commands j' !! id = Some e' /\
    rtc (λ a b, valid_transition a b = true) (ce_state e) (ce_state e') /\
    (is_final (ce_state e) = true -> ce_state e' = ce_state e) /\
    admit_command j' id digest
      = (j', if ce_payload_digest e == digest
             then Ok (ExistingCommand (ce_state e') (ce_result e'))
             else Err (CInvalid "command ID was reused with a different payload")).
Proof.
  intros He Hs Hid. destruct (steps_kept _ _ Hs _ _ He) as (e'&He'&Hd&Ht).
  exists e'. split_and!; [done|done|by apply final_stuck|].
  unfold admit_command. rewrite (proj2 (identifier_ok_iff _ _) Hid), He'. simpl. rewrite Hd.
  f_equal. unfold require. by case_bool_decide.
Qed.

Lemma finish_spec (j : IdempotencyJournal R) id e st r :
  ij_commands j !! id = Some e -> is_final st = true -> valid_transition (ce_state e) st = true ->
  (finish_command j id st r).2 = Ok tt /\
  ij_commands (finish_command j id st r).1 !! id
    = Some {| ce_payload_digest := ce_payload_digest e; ce_state := st; ce_result := Some r |}.
Proof.
  intros He Hf Hv. unfold finish_command, transition_command, require. rewrite Hf, He, Hv. simpl.
  by rewrite lookup_alter_eq, lookup_insert_eq.
Qed.

(** A final result is not protected: finishing twice with the same final state
    replaces what was published. *)
Theorem finish_replaces_result (j : IdempotencyJournal R) id e st r1 r2 :
  ij_commands j !! id = Some e -> is_final st = true -> valid_transition (ce_state e) st = true ->
  let j1 := (finish_command j id st r1).1 in
  (finish_command j1 id st r2).2 = Ok tt /\
  (exists e1, ij_commands j1 !! id = Some e1 /\ ce_result e1 = Some r1) /\
  (exists e2, ij_commands (finish_command j1 id st r2).1 !! id = Some e2 /\ ce_result e2 = Some r2).
Proof.
  intros He Hf Hv. destruct (finish_spec j id e st r1 He Hf Hv) as [_ Hj1].
  intros j1. fold j1 in Hj1. assert (valid_transition st st = true) as Hvv.
  { unfold valid_transition. by rewrite bool_decide_eq_true_2. }
  destruct (finish_spec j1 id _ st r2 Hj1 Hf Hvv) as [Hr Hj2]. split_and!; eauto.
Qed.
End idempotency.

(** ** The cursor journal *)

Section cursors.
Context {T : Type}.
Implicit Types j : CursorJournal T.

(** Entries carry the last consecutive cursors, the index is the inverse of
    their event identifiers, and acknowledgements are of assigned cursors. *)
Record journal_ok j : Prop := {
  jo_capacity : 1 <= cj_maximum_events j;
  jo_bound : length (cj_entries j) <= cj_maximum_events j;
  jo_cursors : forall i e, cj_entries j !! i = Some e ->
    (cu_cursor e = cj_next_cursor j - Z.of_nat (length (cj_entries j)) + Z.of_nat i)%Z;
  jo_next : (1 + Z.of_nat (length (cj_entries j)) <= cj_next_cursor j <= U64_MAX)%Z;
  jo_index : forall id c, (exists d, cj_event_index j !! id = Some (c, d)) <->
    exists e, e ∈ cj_entries j /\ cu_event_id e = id /\ cu_cursor e = c;
  jo_acks : forall r c, cj_acknowledgements j !! r = Some c -> (c < cj_next_cursor j)%Z }.

Lemma cursor_journal_new_ok maximum j : cursor_journal_new maximum = Ok j -> journal_ok j.
Proof.
  unfold cursor_journal_new. intros Hj. res_inv. apply require_Ok in H. 
  apply andb_true_iff in H as [H _]. apply Nat.leb_le in H.
  constructor; simpl; [done|lia|done|unfold U64_MAX; lia| |].
  - intros id c. split; [intros [d Hd]; by rewrite lookup_empty in Hd|].
    intros (e&He&_). by apply not_elem_of_nil in He.
  - intros r c. by rewrite lookup_empty.
Qed.

(** Popping the excess of at most one entry too many. *)
Lemma pop_excess_one maximum (entries : list (CursorEntry T)) index :
  length entries <= S maximum ->
  pop_excess maximum entries index
    = if (length entries <=? maximum)%nat then (entries, index)
      else (tail entries, match entries with
                          | e :: _ => delete (cu_event_id e) index | [] => index end).
Proof.
  destruct entries as [|e rest]; intros Hl; [done|].
  cbn [pop_excess]. destruct (maximum <? length (e :: rest))%nat eqn:E.
  - apply Nat.ltb_lt in E. rewrite (proj2 (Nat.leb_gt _ _)) by lia. simpl in *.
    destruct rest as [|e' rest]; [done|]. cbn [pop_excess].
    rewrite (proj2 (Nat.ltb_ge _ _)) by (simpl in *; lia). done.
  - apply Nat.ltb_ge in E. by rewrite (proj2 (Nat.leb_le _ _)).
Qed.

Lemma cursors_distinct j i1 i2 e1 e2 : journal_ok j ->
  cj_entries j !! i1 = Some e1 -> cj_entries j !! i2 = Some e2 ->
  cu_cursor e1 = cu_cursor e2 -> i1 = i2.
Proof. intros Hok H1 H2. rewrite (jo_cursors _ Hok _ _ H1), (jo_cursors _ Hok _ _ H2). lia. Qed.

(** The journal before its oldest entries are dropped. *)
Definition pushed j (event_id : string) (digest : Bytes32) (event : T) : CursorJournal T :=
  {| cj_maximum_events := S (cj_maximum_events j); cj_next_cursor := cj_next_cursor j + 1;
     cj_entries := cj_entries j ++ [{| cu_cursor := cj_next_cursor j; cu_event_id := event_id;
                                       cu_event := event |}];
     cj_event_index := <[event_id := (cj_next_cursor j, digest)]> (cj_event_index j);
     cj_acknowledgements := cj_acknowledgements j |}.

Lemma pushed_ok j id d ev : journal_ok j -> cj_event_index j !! id = None ->
  (cj_next_cursor j + 1 <= U64_MAX)%Z -> journal_ok (pushed j id d ev).
Proof.
  intros [Hcap Hb Hcu Hn Hix Hack] Hid Hmax. constructor; simpl.
  - lia.
  - rewrite length_app. simpl. lia.
  - intros i e Hi. rewrite length_app. simpl. apply lookup_app_Some in Hi as [Hi|[Hl Hi]].
    + rewrite (Hcu _ _ Hi). lia.
    + apply list_lookup_singleton_Some in Hi as [Hi <-]. simpl. lia.
  - rewrite length_app. simpl. lia.
  - intros id0 c. setoid_rewrite elem_of_app. setoid_rewrite list_elem_of_singleton.
    destruct (decide (id0 = id)) as [->|Hne].
    + rewrite lookup_insert_eq. split.
      * intros [d0 [= <- <-]]. eexists. split; [by right|done].
      * intros (e&[He| ->]&Hide&Hc); [|simpl in Hc; subst; by eexists].
        destruct (proj2 (Hix id c)) as [d0 Hd0]; [by exists e|congruence].
    + rewrite lookup_insert_ne by done. rewrite Hix. split.
      * intros (e&He&?&?). exists e. split; [by left|done].
      * intros (e&[He| ->]&Hide&Hc); [by exists e|]. simpl in Hide. congruence.
  - intros r c Hr. specialize (Hack _ _ Hr). lia.
Qed.

(** Dropping the oldest entry. *)
Lemma drop_oldest_ok j e rest : journal_ok j -> cj_entries j = e :: rest ->
  forall maximum, 1 <= maximum -> length rest <= maximum ->
  journal_ok {| cj_maximum_events := maximum; cj_next_cursor := cj_next_cursor j;
    cj_entries := rest; cj_event_index := delete (cu_event_id e) (cj_event_index j);
    cj_acknowledgements := cj_acknowledgements j |}.
Proof.
  intros Hok He maximum Hm Hl. pose proof Hok as [Hcap Hb Hcu Hn Hix Hack]. rewrite He in *. 
  constructor; simpl in *; try done; try lia.
  - intros i x Hi. rewrite (Hcu (S i) x Hi). lia.
  - intros id c.
    assert (forall x, x ∈ rest -> cu_event_id x <> cu_event_id e) as Hfresh.
    { intros x Hx Hid. destruct (proj2 (Hix (cu_event_id x) (cu_cursor x))) as [d1 H1].
      { exists x. split; [by right|done]. }
      destruct (proj2 (Hix (cu_event_id x) (cu_cursor e))) as [d2 H2].
      { exists e. split; [by left|by rewrite Hid]. }
      apply list_elem_of_lookup_1 in Hx as [i Hi].
      rewrite (Hcu (S i) x Hi), (Hcu 0 e eq_refl) in *. simplify_eq. lia. }
    setoid_rewrite lookup_delete_Some. split.
    + intros (d&Hne&Hd). destruct (proj1 (Hix id c)) as (x&Hx&Hidx&Hcx); [by exists d|].
      apply elem_of_cons in Hx as [->|Hx]; [congruence|by exists x].
    + intros (x&Hx&Hid&Hc). destruct (proj2 (Hix id c)) as [d Hd].
      { exists x. split; [by right|done]. }
      exists d. split; [|done]. intros E. apply (Hfresh x Hx). congruence.
Qed.

Lemma append_event_ok j id d ev : journal_ok j -> journal_ok (append_event j id d ev).1.
Proof.
  intros Hok. unfold append_event. destruct (companion_identifier _ _); [|done].
  destruct (cj_event_index j !! id) as [[c dc]|] eqn:Hid; [done|].
  unfold checked_add_u64, checked_add. destruct (_ <=? _)%Z eqn:Hmax; [|done]. apply Z.leb_le in Hmax.
  pose proof (pushed_ok j id d ev Hok Hid Hmax) as Hp.
  rewrite pop_excess_one.
  2: { rewrite length_app. simpl. pose proof (jo_bound _ Hok). lia. }
  destruct (_ <=? cj_maximum_events j)%nat eqn:Hl; simpl.
  - apply Nat.leb_le in Hl. destruct Hp as [? ? ? ? ? ?]. constructor; try done.
    apply (jo_capacity _ Hok).
  - destruct (cj_entries j ++ _) as [|e rest] eqn:He; [by destruct (cj_entries j)|].
    pose proof (jo_bound _ Hok) as Hb.
    apply (drop_oldest_ok (pushed j id d ev) e rest Hp He (cj_maximum_events j)
      (jo_capacity _ Hok)).
    apply (f_equal length) in He. rewrite length_app in He. simpl in He. lia.
Qed.

Lemma acknowledge_ok j r c : journal_ok j -> journal_ok (acknowledge j r c).1.
Proof.
  intros Hok. unfold acknowledge. destruct (companion_identifier _ _ ;; _) as [u|e] eqn:Hg; [|done].
  res_inv. repeat match goal with H : require _ _ = Ok _ |- _ => apply require_Ok in H end.
  destruct Hok as [Hcap Hb Hcu Hn Hix Hack]. constructor; simpl; try done.
  intros r' c' [[<- <-]|[_ Hr]]%lookup_insert_Some; [res_inv; lia|by eapply Hack].
Qed.

Inductive cursor_step j : CursorJournal T -> Prop :=
  | step_append id d ev : cursor_step j (append_event j id d ev).1
  | step_acknowledge r c : cursor_step j (acknowledge j r c).1.

(** Journals that operations can produce. *)
Definition cursor_reachable j : Prop :=
  exists maximum j0, cursor_journal_new maximum = Ok j0 /\ rtc cursor_step j0 j.

Lemma step_ok j j' : cursor_step j j' -> journal_ok j -> journal_ok j'.
Proof. intros [id d ev|r c]; [apply append_event_ok|apply acknowledge_ok]. Qed.

Lemma cursor_reachable_ok j : cursor_reachable j -> journal_ok j.
Proof.
  intros (maximum&j0&Hj0%cursor_journal_new_ok&Hs).
  induction Hs as [|j1 j2 j3 H12 _ IH]; [done|]. by apply IH, (step_ok j1).
Qed.

(** *** Catching up *)

Definition delivered (e : CursorEntry T) : Z * string * T :=
  (cu_cursor e, cu_event_id e, cu_event e).

(** What a recipient that has seen everything up to [after] has not seen. *)
Definition outstanding j (after : Z) : list (Z * string * T) :=
  delivered <$> List.filter (λ e, after <? cu_cursor e)%Z (cj_entries j).

Lemma filter_consecutive (entries : list (CursorEntry T)) first after :
  (forall i e, entries !! i = Some e -> cu_cursor e = first + Z.of_nat i)%Z ->
  List.filter (λ e, after <? cu_cursor e)%Z entries = drop (Z.to_nat (after + 1 - first)) entries.
Proof.
  revert first. induction entries as [|e entries IH]; intros first Hc; simpl; [by rewrite drop_nil|].
  assert (cu_cursor e = first) as He by (rewrite (Hc 0 e eq_refl); lia).
  specialize (IH (first + 1)%Z). rewrite IH.
  2: { intros i x Hi. rewrite (Hc (S i) x Hi). lia. }
  destruct (after <? cu_cursor e)%Z eqn:E.
  - apply Z.ltb_lt in E. replace (Z.to_nat (after + 1 - first)) with 0 by lia.
    replace (Z.to_nat (after + 1 - (first + 1))) with 0 by lia. done.
  - apply Z.ltb_ge in E.
    replace (Z.to_nat (after + 1 - first)) with (S (Z.to_nat (after + 1 - (first + 1)))) by lia. done.
Qed.

Lemma oldest_cursor_eq j : journal_ok j ->
  oldest_cursor j = (cj_next_cursor j - Z.of_nat (length (cj_entries j)))%Z.
Proof.
  intros Hok. unfold oldest_cursor. pose proof (jo_cursors _ Hok 0) as Hc.
  destruct (cj_entries j) as [|e rest]; simpl in *; [lia|]. rewrite (Hc e eq_refl). lia.
Qed.

Lemma outstanding_drop j after : journal_ok j ->
  outstanding j after
    = delivered <$> drop (Z.to_nat (after + 1 - oldest_cursor j)) (cj_entries j).
Proof.
  intros Hok. unfold outstanding. rewrite (filter_consecutive _ (oldest_cursor j)); [done|].
  intros i e Hi. rewrite (oldest_cursor_eq _ Hok). by apply (jo_cursors _ Hok).
Qed.

Lemma outstanding_lookup j after i c id ev : journal_ok j ->
  outstanding j after !! i = Some (c, id, ev) ->
  (c = Z.max (after + 1) (oldest_cursor j) + Z.of_nat i)%Z.
Proof.
  intros Hok. rewrite (outstanding_drop _ _ Hok), list_lookup_fmap, lookup_drop.
  intros (e&He&[= -> -> ->])%fmap_Some.
  rewrite (jo_cursors _ Hok _ _ He), (oldest_cursor_eq _ Hok). lia.
Qed.

Lemma outstanding_length j after : journal_ok j ->
  length (outstanding j after)
    = Z.to_nat (cj_next_cursor j - Z.max (after + 1) (oldest_cursor j)).
Proof.
  intros Hok. rewrite (outstanding_drop _ _ Hok), length_fmap, length_drop.
  pose proof (oldest_cursor_eq _ Hok). lia.
Qed.

Lemma catch_up_result j after maximum : journal_ok j ->
  1 <= maximum -> (Z.of_nat maximum <= 10000)%Z ->
  catch_up j after maximum
    = if (after != 0%Z) && (after + 1 <? oldest_cursor j)%Z
      then Ok (SnapshotRequired (oldest_cursor j) (cj_next_cursor j))
      else Ok (Events (take maximum (outstanding j after)) (cj_next_cursor j)).
Proof.
  intros Hok Hm Hm'. unfold catch_up, require.
  rewrite (proj2 (Nat.leb_le _ _) Hm), (proj2 (Z.leb_le _ _) Hm'). simpl.
  assert ((saturating_add_u64 after 1 <? oldest_cursor j) = (after + 1 <? oldest_cursor j))%Z as ->.
  { pose proof (oldest_cursor_eq _ Hok). pose proof (jo_next _ Hok).
    unfold saturating_add_u64. apply eq_true_iff_eq. rewrite !Z.ltb_lt. lia. }
  case_match; [done|]. unfold outstanding. by rewrite firstn_map.
Qed.

(** Catching up never leaves a hole: a recipient is either told that it
    needs a snapshot, exactly when events it has not seen were dropped, or given
    the events after its cursor with consecutive cursors, as many as there are
    up to the limit. A recipient with cursor 0 starts at the oldest event kept. *)
Theorem catch_up_has_no_hole j after maximum : cursor_reachable j ->
  1 <= maximum -> (Z.of_nat maximum <= 10000)%Z -> (0 <= after)%Z ->
  let first := Z.max (after + 1) (oldest_cursor j) in
  match catch_up j after maximum with
  | Ok (SnapshotRequired oldest next) =>
      (after <> 0 /\ after + 1 < oldest)%Z /\ oldest = oldest_cursor j /\ next = cj_next_cursor j
  | Ok (Events events next) =>
      (after <> 0 -> first = after + 1)%Z /\ next = cj_next_cursor j /\
      length events = Nat.min maximum (Z.to_nat (next - first)) /\
      forall i c id ev, events !! i = Some (c, id, ev) -> (c = first + Z.of_nat i)%Z /\
        exists e, e ∈ cj_entries j /\ (c, id, ev) = delivered e
  | Err _ => False
  end.
Proof.
  intros Hr Hm Hm' Ha first. pose proof (cursor_reachable_ok _ Hr) as Hok.
  rewrite (catch_up_result _ _ _ Hok Hm Hm').
  destruct ((after != 0%Z) && (after + 1 <? oldest_cursor j)%Z) eqn:E.
  - apply andb_true_iff in E as [E1 E2]. guard_step. guard_step. guard_step. done.
  - split_and!; [|done| |].
    + intros Hne. rewrite bool_decide_eq_false_2 in E by done. apply Z.ltb_ge in E.
      unfold first. lia.
    + rewrite length_take, (outstanding_length _ _ Hok). done.
    + intros i c id ev Hi. apply lookup_take_Some in Hi as [Hi _]. split.
      * by eapply outstanding_lookup.
      * unfold outstanding in Hi. apply list_lookup_fmap_Some_1 in Hi as (e&Heq&He).
        exists e. split; [|congruence]. apply list_elem_of_lookup_2, list_elem_of_In, filter_In in He as [He _].
        by apply list_elem_of_In.
Qed.

(** A recipient that asks again from the last cursor it was given. *)
Fixpoint drain j (rounds : nat) (after : Z) (maximum : nat) : list (Z * string * T) :=
  match rounds with
  | O => []
  | S rounds =>
      match catch_up j after maximum with
      | Ok (Events events _) =>
          match last events with
          | Some (cursor, _, _) => events ++ drain j rounds cursor maximum
          | None => []
          end
      | _ => []
      end
  end.

Lemma outstanding_skip j after n c id ev : journal_ok j -> 1 <= n ->
  take n (outstanding j after) !! pred (length (take n (outstanding j after))) = Some (c, id, ev) ->
  drop n (outstanding j after) = outstanding j c.
Proof.
  intros Hok Hn Hl. apply lookup_take_Some in Hl as [Hl _].
  pose proof (outstanding_lookup _ _ _ _ _ _ Hok Hl) as Hc. revert Hc Hl.
  rewrite length_take, (outstanding_length _ _ Hok). intros Hc Hl%lookup_lt_Some.
  rewrite (outstanding_length _ _ Hok) in Hl.
  rewrite !(outstanding_drop _ _ Hok), <- fmap_drop, drop_drop.
  pose proof (oldest_cursor_eq _ Hok) as Ho.
  destruct (decide (n <= Z.to_nat (cj_next_cursor j - Z.max (after + 1) (oldest_cursor j)))).
  - do 2 f_equal. lia.
  - rewrite !drop_ge by lia. done.
Qed.

Lemma drain_outstanding j rounds maximum : journal_ok j ->
  1 <= maximum -> (Z.of_nat maximum <= 10000)%Z -> forall after, (0 <= after)%Z ->
  (after <> 0 -> oldest_cursor j <= after + 1)%Z -> length (outstanding j after) <= rounds ->
  drain j rounds after maximum = outstanding j after.
Proof.
  intros Hok Hm Hm'. induction rounds as [|rounds IH]; intros after Ha Hkept Hl; simpl.
  { symmetry. apply nil_length_inv. lia. }
  rewrite (catch_up_result _ _ _ Hok Hm Hm').
  replace ((after != 0%Z) && (after + 1 <? oldest_cursor j)%Z) with false.
  2: { symmetry. destruct (after != 0%Z) eqn:E; [|done]. guard_step. guard_step. simpl.
       apply Z.ltb_ge. by apply Hkept. }
  destruct (last (take maximum (outstanding j after))) as [[[c id] ev]|] eqn:Hlast.
  - rewrite last_lookup in Hlast.
    assert (exists i, outstanding j after !! i = Some (c, id, ev)) as [i Hi].
    { apply lookup_take_Some in Hlast as [Hi _]. eauto. }
    pose proof (outstanding_lookup _ _ _ _ _ _ Hok Hi) as Hc.
    rewrite IH.
    + rewrite <- (outstanding_skip j after maximum c id ev Hok Hm Hlast). apply take_drop.
    + lia.
    + lia.
    + rewrite <- (outstanding_skip j after maximum c id ev Hok Hm Hlast), length_drop.
      apply lookup_lt_Some in Hi. lia.
  - apply last_None in Hlast. destruct (outstanding j after); [done|].
    by destruct maximum; [lia|].
Qed.

(** Every event reaches a recipient that keeps up: starting from a cursor
    whose successors are all kept, asking again from the last cursor received
    delivers every outstanding event, in order and once, whatever the limit of one
    answer; each round delivers at least one, so as many rounds as there are
    events are enough. *)
Theorem catch_up_delivers j after maximum : cursor_reachable j ->
  1 <= maximum -> (Z.of_nat maximum <= 10000)%Z -> (0 <= after)%Z ->
  (after <> 0 -> oldest_cursor j <= after + 1)%Z ->
  drain j (length (outstanding j after)) after maximum = outstanding j after.
Proof. intros Hr%cursor_reachable_ok Hm Hm' Ha Hk. by apply drain_outstanding. Qed.

(** Appending is idempotent on what is kept: an appended event gets the next
    cursor, and appending it again with the same content returns that cursor and
    changes nothing, with other content fails. *)
Theorem append_event_idempotent j id digest event c digest' event' : cursor_reachable j ->
  (append_event j id digest event).2 = Ok c ->
  let j' := (append_event j id digest event).1 in
  journal_ok j' /\
  append_event j' id digest' event'
    = (j', if digest == digest' then Ok c
           else Err (CInvalid "event ID was reused with different content")).
Proof.
  intros Hr Hc j'. pose proof (cursor_reachable_ok _ Hr) as Hok. split; [by apply append_event_ok|].
  assert (identifier_ok id) as Hid.
  { unfold append_event in Hc. destruct (companion_identifier _ id) as [[]|] eqn:E; [|done].
    by apply identifier_ok_iff in E. }
  assert (cj_event_index j' !! id = Some (c, digest)) as Hix.
  { unfold j'. unfold append_event in Hc |- *. rewrite (proj2 (identifier_ok_iff _ _) Hid) in Hc |- *.
    destruct (cj_event_index j !! id) as [[c0 d0]|] eqn:Hi; simpl in Hc |- *.
    - unfold require in Hc. case_bool_decide; [|done]. simpl in Hc. congruence.
    - destruct (checked_add_u64 _ _) eqn:Hadd; [|done].
      rewrite pop_excess_one in Hc |- *
        by (rewrite length_app; simpl; pose proof (jo_bound _ Hok); lia).
      destruct (_ <=? cj_maximum_events j)%nat eqn:Hl; simpl in Hc |- *; injection Hc as <-.
      + by rewrite lookup_insert_eq.
      + pose proof (jo_capacity _ Hok). apply Nat.leb_gt in Hl. rewrite length_app in Hl. simpl in Hl.
        destruct (cj_entries j) as [|e rest] eqn:He; [simpl in Hl; lia|]. simpl.
        rewrite lookup_delete_ne, lookup_insert_eq; [done|].
        intros E. destruct (proj2 (jo_index _ Hok (cu_event_id e) (cu_cursor e))) as [d Hd].
        { exists e. rewrite He. split; [by left|done]. }
        congruence. }
  unfold append_event. rewrite (proj2 (identifier_ok_iff _ _) Hid), Hix. simpl.
  f_equal. unfold require. by case_bool_decide.
Qed.

(** Acknowledgements only move forward, and only to cursors that were
    assigned: a later acknowledgement is never behind an earlier one, whatever
    happens in between. *)
Theorem acknowledgements_advance j j' r : cursor_reachable j -> rtc cursor_step j j' ->
  (acknowledged_cursor j r <= acknowledged_cursor j' r)%Z /\
  (forall c, cj_acknowledgements j' !! r = Some c -> (c < cj_next_cursor j')%Z).
Proof.
  intros Hr Hs. assert (cursor_reachable j') as Hr'.
  { destruct Hr as (m&j0&?&?). exists m, j0. split; [done|by etrans]. }
  split; [|intros c Hc; by eapply jo_acks; [apply cursor_reachable_ok|]].
  clear Hr Hr'. induction Hs as [|j1 j2 j3 H12 _ IH]; [lia|]. etrans; [|exact IH].
  destruct H12 as [id d ev|r' c]; unfold acknowledged_cursor.
  - unfold append_event. repeat case_match; simpl; lia.
  - unfold acknowledge. destruct (companion_identifier _ _ ;; _) as [u|e] eqn:Hg; [|done].
    res_inv. repeat match goal with H : require _ _ = Ok _ |- _ => apply require_Ok in H end.
    simpl. destruct (decide (r' = r)) as [->|]; [|by rewrite lookup_insert_ne].
    rewrite lookup_insert_eq. simpl. unfold acknowledged_cursor in *. res_inv. lia.
Qed.
End cursors.
