(* ===== verification/CompanionCrypto.v ===== *)
(** * Companion cryptography and identities

    [companion/src/crypto.rs], [companion/src/canonical.rs] and
    [companion/src/identity.rs]: the wrappers around third-party cryptography,
    canonical JSON with safe integers, and the transport identities. The
    primitives themselves are the parameter [CompanionCrypto]; their documented
    laws, which some theorems use, are [CompanionCryptoLaws]. Recovery phrases
    (BIP-39) and random generation are not modelled. *)
From S2P Require Import Prelude Text Digest Clock CompanionModel.

Definition bounded_bytes (bs : list Z) : Prop := Forall (λ b, 0 <= b < 256)%Z bs.

(** base64 (URL-safe, no padding), Ed25519, X25519, HKDF-SHA-256 with a 32-byte
    output, HMAC-SHA-256, ChaCha20-Poly1305. *)
Class CompanionCrypto := {
  base64_encode : list Z -> string;
  base64_decode : string -> option (list Z);
  ed25519_public : Bytes32 -> Bytes32;
  ed25519_sign : Bytes32 -> list Z -> ByteArray 64;
  ed25519_key_valid : Bytes32 -> bool;
  ed25519_verify : Bytes32 -> list Z -> ByteArray 64 -> bool;
  x25519_public : Bytes32 -> Bytes32;
  x25519_shared : Bytes32 -> Bytes32 -> Bytes32;
  hkdf_sha256 : list Z -> list Z -> list Z -> Bytes32;
  hmac : list Z -> list Z -> Bytes32;
  chacha_encrypt : Bytes32 -> ByteArray 12 -> list Z -> list Z -> option (list Z);
  chacha_decrypt : Bytes32 -> ByteArray 12 -> list Z -> list Z -> option (list Z) }.

(** What the documentation of the primitives promises. *)
Class CompanionCryptoLaws `{CompanionCrypto} := {
  base64_roundtrip : forall bs, bounded_bytes bs -> base64_decode (base64_encode bs) = Some bs;
  base64_bounded : forall s bs, base64_decode s = Some bs -> bounded_bytes bs;
  base64_length : forall bs, len (base64_encode bs) <= 2 * length bs + 8;
  base64_nonempty : forall bs, bs <> [] -> base64_encode bs <> "";
  ed25519_public_valid : forall secret, ed25519_key_valid (ed25519_public secret) = true;
  ed25519_correct : forall secret message,
    ed25519_verify (ed25519_public secret) message (ed25519_sign secret message) = true;
  x25519_agrees : forall a b, x25519_shared a (x25519_public b) = x25519_shared b (x25519_public a);
  chacha_correct : forall key nonce plaintext aad ciphertext, bounded_bytes plaintext ->
    chacha_encrypt key nonce plaintext aad = Some ciphertext ->
    chacha_decrypt key nonce ciphertext aad = Some plaintext /\
    length ciphertext = length plaintext + 16 /\ bounded_bytes ciphertext }.

(** Canonical JSON text is a nonempty sequence of bytes. *)
Class JcsLaws `{Platform} := {
  jcs_text : forall value bytes, jcs_to_vec value = Ok bytes -> bounded_bytes bytes /\ bytes <> [] }.

(** ** Canonical JSON *)

Definition COMPANION_MAX_SAFE_INTEGER : Z := 9007199254740991.

Fixpoint validate_safe_numbers (value : json) : companion_result unit :=
  match value with
  | JNum n =>
      if ((- COMPANION_MAX_SAFE_INTEGER <=? n) && (n <=? COMPANION_MAX_SAFE_INTEGER))%Z then Ok tt
      else Err (CInvalid "JSON number is not a cross-language safe integer")
  | JArr values => for_each validate_safe_numbers values
  | JObj members => for_each (λ m : string * json, validate_safe_numbers (snd m)) members
  | JNull | JBool _ | JStr _ => Ok tt
  end.

Section crypto.
Context `{Platform} `{CompanionCrypto}.

Definition companion_to_vec `{ToJson A} (value : A) : companion_result (list Z) :=
  validate_safe_numbers (to_json value) ;;
  map_err CCanonical (jcs_to_vec (to_json value)).

(** [canonical::from_slice]: what [serde] reads must be canonical as it stands. *)
Definition companion_from_slice `{ToJson A} (decode : list Z -> Result string A) (bytes : list Z)
    : companion_result A :=
  value ← map_err CCanonical (decode bytes);
  encoded ← companion_to_vec value;
  fail_if (encoded != bytes)
    (CInvalid "JSON bytes are not their RFC 8785 canonical representation") ;;
  Ok value.

(** ** Wrappers *)

Definition decode_base64url (label value : string) (maximum : Z) : companion_result (list Z) :=
  require (negb (len value =? 0)%nat && (Z.of_nat (len value) <=? maximum * 2 + 8)%Z)
    (label +:+ " is empty or too large") ;;
  decoded ← ok_or (CInvalid (label +:+ " is not canonical base64url")) (base64_decode value);
  require (Z.of_nat (length decoded) <=? maximum)%Z (label +:+ " is too large") ;;
  require (base64_encode decoded == value) (label +:+ " is not canonical base64url") ;;
  Ok decoded.

Definition decode_array (n : nat) (label value : string) : companion_result (ByteArray n) :=
  decoded ← decode_base64url label value (Z.of_nat n);
  ok_or (CInvalid (label +:+ " has the wrong byte length")) (try_bytes n decoded).

Definition x25519 (secret public_key : Bytes32) : companion_result Bytes32 :=
  let shared := x25519_shared secret public_key in
  require (shared != ZERO) "X25519 shared secret is all zero" ;;
  Ok shared.

Definition derive_key (shared_secret : Bytes32) (salt domain : list Z) : companion_result Bytes32 :=
  Ok (hkdf_sha256 salt (as_bytes shared_secret) domain).

Definition encrypt (key : Bytes32) (nonce : ByteArray 12) (plaintext associated_data : list Z)
    : companion_result (list Z) :=
  ok_or (CCrypto "ChaCha20-Poly1305 encryption") (chacha_encrypt key nonce plaintext associated_data).
Definition decrypt (key : Bytes32) (nonce : ByteArray 12) (ciphertext associated_data : list Z)
    : companion_result (list Z) :=
  ok_or (CCrypto "ChaCha20-Poly1305 authentication") (chacha_decrypt key nonce ciphertext associated_data).

Definition hmac_sha256 (key : Bytes32) (domain : string) (message : list Z) : companion_result Bytes32 :=
  Ok (hmac (as_bytes key) (bytes_of domain ++ 0%Z :: message)).
Definition verify_hmac_sha256 (key : Bytes32) (domain : string) (message : list Z) (expected : Bytes32)
    : companion_result unit :=
  fail_if (hmac (as_bytes key) (bytes_of domain ++ 0%Z :: message) != expected)
    (CCrypto "HMAC-SHA-256 verification").

(** ** Identities *)

Definition signing_bytes (domain : string) (message : list Z) : list Z :=
  bytes_of domain ++ 0%Z :: message.

Definition COMPANION_SIGNING_DOMAIN : string := "tohseno.companion.signing.v1".
Definition COMPANION_AGREEMENT_DOMAIN : string := "tohseno.companion.agreement.v1".
Definition COMPANION_STORAGE_DOMAIN : string := "tohseno.companion.storage.v1".
Definition HKDF_SALT : string := "tohseno.companion.hkdf-sha256.v1".
Definition DEVICE_ID_DOMAIN : string := "tohseno.companion.device-id.v1".

Definition device_id_from_public_keys (signing_public_key agreement_public_key : Bytes32) : string :=
  let digest := sha256 (domain DEVICE_ID_DOMAIN ++ as_bytes signing_public_key
                        ++ as_bytes agreement_public_key) in
  "device_" +:+ base64_encode (take 18 (as_bytes digest)).

(** [WorkspaceServiceIdentity], and what [CompanionIdentity] adds to it, its
    storage key, when there is one. *)
Record Identity := {
  id_signing_secret : Bytes32;
  id_agreement_secret : Bytes32;
  id_storage_key : option Bytes32;
  id_signing_public_key : Bytes32;
  id_agreement_public_key : Bytes32;
  id_device_id : string }.

Definition identity_of_secrets (signing_secret agreement_secret : Bytes32) (storage_key : option Bytes32)
    : Identity :=
  let signing_public_key := ed25519_public signing_secret in
  let agreement_public_key := x25519_public agreement_secret in
  {| id_signing_secret := signing_secret; id_agreement_secret := agreement_secret;
     id_storage_key := storage_key; id_signing_public_key := signing_public_key;
     id_agreement_public_key := agreement_public_key;
     id_device_id := device_id_from_public_keys signing_public_key agreement_public_key |}.

(** [WorkspaceServiceIdentity::from_secret_keys] *)
Definition from_secret_keys (signing_secret agreement_secret : Bytes32) : companion_result Identity :=
  require ((signing_secret != ZERO) && (agreement_secret != ZERO))
    "workspace transport secrets must not be all zero" ;;
  Ok (identity_of_secrets signing_secret agreement_secret None).

(** [derive_key_material] and [CompanionIdentity::from_seed]. *)
Definition derive_key_material (seed : list Z) : companion_result (Bytes32 * Bytes32 * Bytes32) :=
  require (length seed =? 64)%nat "BIP-39 seed must contain 64 bytes" ;;
  let expand d := hkdf_sha256 (bytes_of HKDF_SALT) seed (bytes_of d) in
  Ok (expand COMPANION_SIGNING_DOMAIN, expand COMPANION_AGREEMENT_DOMAIN,
      expand COMPANION_STORAGE_DOMAIN).

Definition from_seed (seed : list Z) : companion_result Identity :=
  '(signing_secret, agreement_secret, storage_key) ← derive_key_material seed;
  Ok (identity_of_secrets signing_secret agreement_secret (Some storage_key)).

(** The operations of [TransportIdentity]. *)
Definition identity_sign (i : Identity) (domain : string) (message : list Z) : ByteArray 64 :=
  ed25519_sign (id_signing_secret i) (signing_bytes domain message).
Definition agree (i : Identity) (remote_public_key : Bytes32) : companion_result Bytes32 :=
  x25519 (id_agreement_secret i) remote_public_key.
Definition signing_public_key_base64url (i : Identity) : string :=
  base64_encode (as_bytes (id_signing_public_key i)).
Definition agreement_public_key_base64url (i : Identity) : string :=
  base64_encode (as_bytes (id_agreement_public_key i)).

(** [CompanionIdentity::verify] *)
Definition identity_verify (public_key : Bytes32) (domain : string) (message : list Z)
    (signature : ByteArray 64) : companion_result unit :=
  fail_if (negb (ed25519_key_valid public_key)) (CCrypto "invalid Ed25519 public key") ;;
  fail_if (negb (ed25519_verify public_key (signing_bytes domain message) signature))
    (CCrypto "Ed25519 signature verification").

(** An identity as the constructors build it. *)
Definition identity_ok (i : Identity) : Prop :=
  i = identity_of_secrets (id_signing_secret i) (id_agreement_secret i) (id_storage_key i).

Lemma from_secret_keys_ok a b i : from_secret_keys a b = Ok i -> identity_ok i.
Proof. unfold from_secret_keys. intros Hi. apply bind_Ok in Hi as (?&_&[= <-]). done. Qed.

Lemma from_seed_ok seed i : from_seed seed = Ok i -> identity_ok i.
Proof.
  unfold from_seed. intros Hi. apply bind_Ok in Hi as ([[a b] c]&_&[= <-]). done.
Qed.

Section laws.
Context `{!CompanionCryptoLaws}.

Lemma decode_encoded label bs maximum : bounded_bytes bs -> bs <> [] -> (Z.of_nat (length bs) <= maximum)%Z ->
  decode_base64url label (base64_encode bs) maximum = Ok bs.
Proof.
  intros Hb Hne Hl. unfold decode_base64url. pose proof (base64_length bs) as Hlen.
  assert ((len (base64_encode bs) =? 0)%nat = false) as ->.
  { apply Nat.eqb_neq. intros E. apply (base64_nonempty bs Hne). by destruct (base64_encode bs). }
  rewrite (proj2 (Z.leb_le _ _)) by lia. simpl. rewrite base64_roundtrip by done. simpl.
  rewrite (proj2 (Z.leb_le _ _)) by lia. simpl. by rewrite bool_decide_eq_true_2.
Qed.

Lemma decode_array_encoded n label (a : ByteArray n) : n <> 0 ->
  decode_array n label (base64_encode (as_bytes a)) = Ok a.
Proof.
  intros Hn. unfold decode_array. rewrite decode_encoded.
  - simpl. apply ok_or_Ok. by apply try_bytes_Some.
  - apply as_bytes_bound.
  - intros E. pose proof (as_bytes_length a) as Hl. rewrite E in Hl. simpl in Hl. lia.
  - by rewrite as_bytes_length.
Qed.

Lemma sign_verifies i domain message : identity_ok i ->
  identity_verify (id_signing_public_key i) domain message (identity_sign i domain message) = Ok tt.
Proof.
  intros ->. unfold identity_verify, identity_sign. simpl.
  rewrite ed25519_public_valid. simpl. by rewrite ed25519_correct.
Qed.

Lemma agree_commutes i secret : identity_ok i ->
  agree i (x25519_public secret) = x25519 secret (id_agreement_public_key i).
Proof. intros ->. unfold agree, x25519. simpl. by rewrite x25519_agrees. Qed.
End laws.

Lemma companion_to_vec_text `{!JcsLaws} `{ToJson A} (value : A) bytes :
  companion_to_vec value = Ok bytes -> bounded_bytes bytes /\ bytes <> [].
Proof.
  unfold companion_to_vec. intros Hv. apply bind_Ok in Hv as ([]&_&Hv%map_err_Ok). by eapply jcs_text.
Qed.

Lemma decode_base64url_Ok label value maximum bs : decode_base64url label value maximum = Ok bs ->
  base64_decode value = Some bs /\ base64_encode bs = value /\ (Z.of_nat (length bs) <= maximum)%Z.
Proof.
  unfold decode_base64url. intros Hd. res_inv.
  repeat match goal with H : require _ _ = Ok _ |- _ => apply require_Ok in H end. res_inv.
  by split_and!.
Qed.

Lemma decode_array_Ok n label value a : decode_array n label value = Ok a ->
  base64_encode (as_bytes a) = value.
Proof.
  unfold decode_array. intros Hd. apply bind_Ok in Hd as (bs&Hb&Hd).
  apply ok_or_Ok, try_bytes_Some in Hd as ->. by apply decode_base64url_Ok in Hb as (_&?&_).
Qed.
End crypto.
