(* ===== verification/CompanionToy.v ===== *)
(** * A concrete platform for the companion, for witnesses

    Hexadecimal for base64url, a keyed toy hash for signatures, key derivation
    and authentication tags, a symmetric sum for key agreement, and a clock that
    formats the instants of one hour. It satisfies [CompanionCryptoLaws] and makes
    every definition of the companion executable. *)
From S2P Require Import Prelude Text Digest Clock CompanionModel CompanionCrypto.

Definition tag (key : list Z) (nonce aad plaintext : list Z) : list Z :=
  drop 16 (as_bytes (Toy.hash (key ++ nonce ++ aad ++ plaintext))).
Definition sign_with (secret : Bytes32) (message : list Z) : ByteArray 64 :=
  Toy.of_Z 64 (foldl (λ acc b, acc * 256 + b)%Z 0%Z
    (as_bytes (Toy.hash (as_bytes secret ++ message)))).
Definition sum_bytes (b : Bytes32) : Z := foldl (λ acc x, acc * 3 + x)%Z 1%Z (as_bytes b).
Definition unhex (s : string) : option (list Z) := decode_pairs (bytes_of s).

#[export] Instance toy_crypto : CompanionCrypto := {|
  base64_encode bs := string_of (hex_of bs);
  base64_decode := unhex;
  ed25519_public secret := secret;
  ed25519_sign := sign_with;
  ed25519_key_valid _ := true;
  ed25519_verify key message signature := signature == sign_with key message;
  x25519_public secret := secret;
  x25519_shared a b := Toy.of_Z 32 (sum_bytes a + sum_bytes b);
  hkdf_sha256 salt ikm info := Toy.hash (salt ++ ikm ++ info);
  hmac key message := Toy.hash (key ++ message);
  chacha_encrypt key nonce plaintext aad :=
    Some (plaintext ++ tag (as_bytes key) (as_bytes nonce) aad plaintext);
  chacha_decrypt key nonce ciphertext aad :=
    let plaintext := take (length ciphertext - 16) ciphertext in
    if drop (length ciphertext - 16) ciphertext == tag (as_bytes key) (as_bytes nonce) aad plaintext
    then Some plaintext else None |}.

Lemma hex_string_bytes bs : bounded_bytes bs -> bytes_of (string_of (hex_of bs)) = hex_of bs.
Proof.
  intros Hb. destruct (hex_of_spec bs Hb) as (Hx&_). apply bytes_of_string_of.
  eapply Forall_impl; [exact Hx|]. naive_solver.
Qed.

Lemma hex_of_length bs : length (hex_of bs) = 2 * length bs.
Proof. induction bs as [|b bs IH]; [done|]. change (S (S (length (hex_of bs))) = 2 * S (length bs)). lia. Qed.

Lemma string_of_length bs : len (string_of bs) = length bs.
Proof. unfold string_of. induction bs as [|b bs IH]; [done|]. simpl. by f_equal. Qed.

Lemma tag_length k n a p : length (tag k n a p) = 16.
Proof. unfold tag. by rewrite length_drop, as_bytes_length. Qed.

#[export] Instance toy_crypto_laws : CompanionCryptoLaws.
Proof.
  constructor; cbn [base64_encode base64_decode ed25519_public ed25519_sign ed25519_key_valid
    ed25519_verify x25519_public x25519_shared chacha_encrypt chacha_decrypt toy_crypto].
  - intros bs Hb. unfold unhex. rewrite hex_string_bytes by done. by apply hex_of_spec.
  - intros s bs Hd. by apply decode_pairs_hex in Hd as [_ ?].
  - intros bs. rewrite string_of_length, hex_of_length. lia.
  - intros [|b bs] Hne E; [done|]. apply (f_equal len) in E.
    rewrite string_of_length, hex_of_length in E. simpl in E. lia.
  - reflexivity.
  - intros secret message. by apply bool_decide_eq_true.
  - intros a b. f_equal. lia.
  - intros key nonce plaintext aad ciphertext Hp [= <-]. rewrite length_app, tag_length.
    replace (length plaintext + 16 - 16) with (length plaintext) by lia.
    rewrite take_app_length, drop_app_length, bool_decide_eq_true_2 by done. split_and!; [done..|].
    apply Forall_app. split; [done|]. apply Forall_drop, as_bytes_bound.
Qed.

(** The instants of 2026-01-01 from 00:00:00 to 00:59:59. *)
Definition two_digits (n : Z) : string := string_of [(48 + n / 10)%Z; (48 + n mod 10)%Z].
Definition at_second (n : Z) : string :=
  "2026-01-01T00:" +:+ two_digits (n / 60) +:+ ":" +:+ two_digits (n mod 60) +:+ "Z".
Definition moment (n : Z) : OffsetDateTime :=
  default {| odt_utc := true; odt_nanosecond := 0; odt_unix_timestamp := 0 |} (Toy.rfc3339 (at_second n)).

#[export] Instance toy_time : TimeFormat := {|
  format_rfc3339 t := Some (at_second (odt_unix_timestamp t mod 3600));
  parse_iso_date _ := None;
  display_date _ := "" |}.

#[export] Existing Instance Toy.platform.

Example toy_clock : companion_timestamp (at_second 125) = Ok (moment 125).
Proof. vm_compute. reflexivity. Qed.

Lemma print_bytes : forall value, bounded_bytes (Toy.print value).
Proof.
  assert (forall l, Forall bounded_bytes l -> bounded_bytes (concat l)) as Hconcat.
  { induction 1; [constructor|]. by apply Forall_app. }
  assert (forall c, (0 <= c < 256)%Z -> bounded_bytes [c]) as Hone.
  { intros c Hc. constructor; [exact Hc|constructor]. }
  fix IH 1. intros [|b|n|s|items|members]; simpl.
  - by apply Hone.
  - apply Hone. by destruct b.
  - apply Forall_app. split; [apply bytes_of_bound|by apply Hone].
  - constructor; [done|]. apply Forall_app. split; [apply bytes_of_bound|by apply Hone].
  - constructor; [done|]. apply Forall_app. split; [|by apply Hone]. apply Hconcat.
    induction items as [|x items IHl]; constructor; [apply IH|apply IHl].
  - constructor; [done|]. apply Forall_app. split; [|by apply Hone]. apply Hconcat.
    induction members as [|[k x] members IHl]; constructor; [constructor; [done|apply IH]|apply IHl].
Qed.

#[export] Instance toy_jcs_laws : JcsLaws.
Proof.
  constructor. intros value bytes [= <-]. split; [apply print_bytes|].
  destruct value as [|[]|n| | |]; try done. simpl. by destruct (bytes_of (pretty n)).
Qed.

(** A reader that knows some values by their bytes. *)
Definition known {A} `{ToJson A} (values : list A) (bytes : list Z) : Result string A :=
  ok_or "unknown" (find (λ v, match companion_to_vec v with
    | Ok b => bool_decide (b = bytes) | Err _ => false end) values).

Lemma known_reads {A} `{ToJson A} (value : A) bytes :
  companion_to_vec value = Ok bytes -> known [value] bytes = Ok value.
Proof. intros Hv. unfold known. simpl. rewrite Hv. by rewrite bool_decide_eq_true_2. Qed.
