(* ===== verification/CompanionEnvelope.v ===== *)
(** Opaque envelopes between a paired Mac and phone, and their laws. *)
From S2P Require Import Prelude Text Digest Clock CompanionModel CompanionJournal CompanionJournalLaws CompanionCrypto.

(** * Opaque envelopes

    [companion/src/envelope.rs]: end-to-end encrypted, signed envelopes between a
    paired Mac and phone, sealed with given random material and opened against the
    replay window of [CompanionJournal]. Opening returns the window afterwards. *)

Definition COMPANION_ENVELOPE_SCHEMA : string := "tohseno.companion-envelope/1".
Definition ENVELOPE_SIGNATURE_DOMAIN : string := "tohseno.companion.envelope-signature.v1".
Definition ENVELOPE_KEY_DOMAIN : string := "tohseno.companion.envelope-key.v1".
Definition MAX_ENVELOPE_PLAINTEXT_BYTES : Z := 16777216.
Definition MAX_ENVELOPE_LIFETIME_SECONDS : Z := 604800.
Definition MAX_SAFE_SENDER_SEQUENCE : Z := 9007199254740991.

Record EnvelopeHeader := {
  eh_schema : string;
  eh_envelope_id : string;
  eh_mailbox_id : string;
  eh_sender_device_id : string;
  eh_recipient_device_id : string;
  eh_sender_sequence : Z;
  eh_created_at : string;
  eh_expires_at : string;
  eh_ephemeral_public_key : string;
  eh_nonce : string }.
Definition header_members (h : EnvelopeHeader) : list (string * json) :=
  [("schema", to_json (eh_schema h)); ("envelope_id", to_json (eh_envelope_id h));
   ("mailbox_id", to_json (eh_mailbox_id h));
   ("sender_device_id", to_json (eh_sender_device_id h));
   ("recipient_device_id", to_json (eh_recipient_device_id h));
   ("sender_sequence", to_json (eh_sender_sequence h)); ("created_at", to_json (eh_created_at h));
   ("expires_at", to_json (eh_expires_at h));
   ("ephemeral_public_key", to_json (eh_ephemeral_public_key h)); ("nonce", to_json (eh_nonce h))].
#[export] Instance EnvelopeHeader_to_json : ToJson EnvelopeHeader := λ h, JObj (header_members h).

Record OpaqueEnvelope := {
  oe_header : EnvelopeHeader;
  oe_ciphertext : string;
  oe_signature : string }.

Record EnvelopeMetadata := {
  em_envelope_id : string;
  em_mailbox_id : string;
  em_recipient_device_id : string;
  em_sender_sequence : Z;
  em_created_at : string;
  em_expires_at : string }.

Record UnsignedEnvelope := { ue_header : EnvelopeHeader; ue_ciphertext : string }.
#[export] Instance UnsignedEnvelope_to_json : ToJson UnsignedEnvelope := λ u,
  JObj (header_members (ue_header u) ++ [("ciphertext", to_json (ue_ciphertext u))]).

(** The hyphens of a UUID. *)
Definition uuid_hyphens : list nat := [8; 13; 18; 23].

Definition validate_uuid_v4 (value : string) : companion_result unit :=
  let bytes := bytes_of value in
  let at_ i p := is_some_and p (bytes !! i) in
  require ((length bytes =? 36)%nat
           && forallb (λ position, at_ position (λ b, b =? 45)%Z) uuid_hyphens
           && forallb (λ p : nat * Z, bool_decide (fst p ∈ uuid_hyphens) || is_lower_hex (snd p))
                (zip (seq 0 (length bytes)) bytes)
           && at_ 14 (λ b, b =? 52)%Z
           && at_ 19 (λ b, (b =? 56) || (b =? 57) || (b =? 97) || (b =? 98))%Z)
    "envelope ID must be a canonical lowercase UUIDv4".

Section envelope.
Context `{Platform} `{TimeFormat} `{CompanionCrypto}.

Definition header_validate_shape (h : EnvelopeHeader) : companion_result unit :=
  require (eh_schema h == COMPANION_ENVELOPE_SCHEMA) "unsupported companion envelope schema" ;;
  validate_uuid_v4 (eh_envelope_id h) ;;
  companion_identifier "mailbox ID" (eh_mailbox_id h) ;;
  companion_identifier "sender device ID" (eh_sender_device_id h) ;;
  companion_identifier "recipient device ID" (eh_recipient_device_id h) ;;
  require ((1 <=? eh_sender_sequence h) && (eh_sender_sequence h <=? MAX_SAFE_SENDER_SEQUENCE))
    "sender sequence must be a positive cross-language safe integer" ;;
  created_at ← companion_timestamp (eh_created_at h);
  expires_at ← companion_timestamp (eh_expires_at h);
  let lifetime := whole_seconds (instant expires_at - instant created_at) in
  require ((0 <? lifetime) && (lifetime <=? MAX_ENVELOPE_LIFETIME_SECONDS))
    "envelope lifetime is invalid" ;;
  decode_array 32 "envelope ephemeral public key" (eh_ephemeral_public_key h) ;;
  decode_array 12 "envelope nonce" (eh_nonce h) ;;
  Ok tt.

Definition validate_relay_shape (e : OpaqueEnvelope) : companion_result unit :=
  header_validate_shape (oe_header e) ;;
  ciphertext ← decode_base64url "envelope ciphertext" (oe_ciphertext e)
                 (MAX_ENVELOPE_PLAINTEXT_BYTES + 16);
  require (16 <=? length ciphertext)%nat "envelope ciphertext is too short" ;;
  decode_array 64 "envelope signature" (oe_signature e) ;;
  Ok tt.

Definition seal_with_material (sender : Identity) (recipient_agreement_public_key : Bytes32)
    (metadata : EnvelopeMetadata) (plaintext : list Z) (ephemeral_secret : Bytes32)
    (nonce : ByteArray 12) : companion_result OpaqueEnvelope :=
  require (negb (plaintext == []) && (Z.of_nat (length plaintext) <=? MAX_ENVELOPE_PLAINTEXT_BYTES)%Z)
    "envelope plaintext is empty or too large" ;;
  let header := {| eh_schema := COMPANION_ENVELOPE_SCHEMA;
    eh_envelope_id := em_envelope_id metadata; eh_mailbox_id := em_mailbox_id metadata;
    eh_sender_device_id := id_device_id sender;
    eh_recipient_device_id := em_recipient_device_id metadata;
    eh_sender_sequence := em_sender_sequence metadata;
    eh_created_at := em_created_at metadata; eh_expires_at := em_expires_at metadata;
    eh_ephemeral_public_key := base64_encode (as_bytes (x25519_public ephemeral_secret));
    eh_nonce := base64_encode (as_bytes nonce) |} in
  header_validate_shape header ;;
  aad ← companion_to_vec header;
  shared ← x25519 ephemeral_secret recipient_agreement_public_key;
  let salt := sha256 aad in
  key ← derive_key shared (as_bytes salt) (bytes_of ENVELOPE_KEY_DOMAIN);
  ciphertext_bytes ← encrypt key nonce plaintext aad;
  let ciphertext := base64_encode ciphertext_bytes in
  unsigned ← companion_to_vec {| ue_header := header; ue_ciphertext := ciphertext |};
  let signature := identity_sign sender ENVELOPE_SIGNATURE_DOMAIN unsigned in
  Ok {| oe_header := header; oe_ciphertext := ciphertext;
        oe_signature := base64_encode (as_bytes signature) |}.

(** [open_envelope] up to the replay window: everything that authenticates the
    envelope, and its plaintext. *)
Definition authenticate_envelope (e : OpaqueEnvelope) (expected_sender_signing_public_key : Bytes32)
    (expected_sender_device_id : string) (recipient : Identity) (now : OffsetDateTime)
    : companion_result (list Z) :=
  let header := oe_header e in
  validate_relay_shape e ;;
  require (eh_sender_device_id header == expected_sender_device_id)
    "envelope sender device is not the expected paired device" ;;
  require (eh_recipient_device_id header == id_device_id recipient)
    "envelope is addressed to a different recipient" ;;
  validate_window (eh_created_at header) (eh_expires_at header) now
    MAX_ENVELOPE_LIFETIME_SECONDS MAX_CLOCK_SKEW_SECONDS ;;
  ciphertext ← decode_base64url "envelope ciphertext" (oe_ciphertext e)
                 (MAX_ENVELOPE_PLAINTEXT_BYTES + 16);
  signature ← decode_array 64 "envelope signature" (oe_signature e);
  unsigned ← companion_to_vec {| ue_header := header; ue_ciphertext := oe_ciphertext e |};
  identity_verify expected_sender_signing_public_key ENVELOPE_SIGNATURE_DOMAIN unsigned signature ;;
  ephemeral ← decode_array 32 "envelope ephemeral public key" (eh_ephemeral_public_key header);
  nonce ← decode_array 12 "envelope nonce" (eh_nonce header);
  aad ← companion_to_vec header;
  shared ← agree recipient ephemeral;
  let salt := sha256 aad in
  key ← derive_key shared (as_bytes salt) (bytes_of ENVELOPE_KEY_DOMAIN);
  decrypt key nonce ciphertext aad.

Definition open_envelope (e : OpaqueEnvelope) (expected_sender_signing_public_key : Bytes32)
    (expected_sender_device_id : string) (recipient : Identity) (now : OffsetDateTime)
    (replay : ReplayWindow) : ReplayWindow * companion_result (list Z) :=
  match authenticate_envelope e expected_sender_signing_public_key expected_sender_device_id
          recipient now with
  | Err error => (replay, Err error)
  | Ok plaintext =>
      let '(replay, decision) := observe replay (eh_sender_device_id (oe_header e))
        (eh_sender_sequence (oe_header e)) (eh_envelope_id (oe_header e)) in
      (replay,
       decision ← decision;
       match decision with
       | New => Ok plaintext
       | Duplicate => Err (CReplay "duplicate envelope delivery")
       end)
  end.
End envelope.

(** * Laws of the envelopes

    What is sealed opens, only authenticated envelopes reach the replay window,
    and one window delivers an envelope at most once. *)

#[local] Arguments Nat.leb : simpl never.
#[local] Arguments identity_verify : simpl never.
#[local] Arguments agree : simpl never.
#[local] Arguments companion_to_vec : simpl never.

(** One opening: the envelope, the expected key and device, and the time. *)
Abbreviation Opening := (OpaqueEnvelope * Bytes32 * string * OffsetDateTime)%type.

Section laws.
Context `{Platform} `{TimeFormat} `{CompanionCrypto}.

(** What opening checks before it looks at the replay window. *)
Record authentic (e : OpaqueEnvelope) (key : Bytes32) (device : string) (recipient : Identity)
    (now : OffsetDateTime) : Prop := {
  au_sender : eh_sender_device_id (oe_header e) = device;
  au_recipient : eh_recipient_device_id (oe_header e) = id_device_id recipient;
  au_shape : header_validate_shape (oe_header e) = Ok tt;
  au_window : validate_window (eh_created_at (oe_header e)) (eh_expires_at (oe_header e)) now
    MAX_ENVELOPE_LIFETIME_SECONDS MAX_CLOCK_SKEW_SECONDS = Ok tt;
  au_signed : exists unsigned signature,
    companion_to_vec {| ue_header := oe_header e; ue_ciphertext := oe_ciphertext e |} = Ok unsigned /\
    base64_encode (as_bytes signature) = oe_signature e /\
    ed25519_verify key (signing_bytes ENVELOPE_SIGNATURE_DOMAIN unsigned) signature = true }.

Lemma authenticate_Ok e key device recipient now plaintext :
  authenticate_envelope e key device recipient now = Ok plaintext ->
  authentic e key device recipient now.
Proof.
  unfold authenticate_envelope, validate_relay_shape. intros Ha.
  apply bind_Ok in Ha as ([]&Hshape&Ha). apply bind_Ok in Hshape as ([]&Hshape&_).
  apply bind_Ok in Ha as ([]&Hs%require_Ok%bool_decide_eq_true&Ha).
  apply bind_Ok in Ha as ([]&Hr%require_Ok%bool_decide_eq_true&Ha).
  apply bind_Ok in Ha as ([]&Hw&Ha). apply bind_Ok in Ha as (c&_&Ha).
  apply bind_Ok in Ha as (sig&Hsig&Ha). apply bind_Ok in Ha as (unsigned&Hu&Ha).
  apply bind_Ok in Ha as ([]&Hv&_). constructor; try done.
  exists unsigned, sig. split_and!; [done|by eapply decode_array_Ok|].
  unfold identity_verify in Hv. res_inv. done.
Qed.

(** An envelope that is opened is authentic: it is delivered, and even the
    replay window changes, only for an envelope within its validity, addressed to
    this recipient and signed over header and ciphertext by the expected sender;
    and it is delivered exactly when it decrypts and the window takes it as new. *)
Theorem opened_is_authentic e key device recipient now replay replay' result :
  open_envelope e key device recipient now replay = (replay', result) ->
  (replay' <> replay \/ is_ok result = true -> authentic e key device recipient now) /\
  (forall plaintext, result = Ok plaintext <->
     authenticate_envelope e key device recipient now = Ok plaintext /\
     (observe replay (eh_sender_device_id (oe_header e)) (eh_sender_sequence (oe_header e))
        (eh_envelope_id (oe_header e))).2 = Ok New).
Proof.
  unfold open_envelope. destruct (authenticate_envelope _ _ _ _ _) as [text|error] eqn:Ha.
  2: { intros [= <- <-]. split; [by intros [?|?]|]. intros p. split; [done|by intros [? _]]. }
  destruct (observe replay _ _ _) as [replay1 [decision|error]] eqn:Ho; simpl; intros [= <- <-];
    (split; [intros _; by eapply authenticate_Ok|]); intros p.
  - destruct decision; (split; [intros Hp; try done; simplify_eq; done|intros [? ?]; by simplify_eq]).
  - split; [done|by intros [_ ?]].
Qed.

Section roundtrip.
Context `{!CompanionCryptoLaws}.

(** [C39] What is sealed opens: an envelope sealed for a recipient, opened by it
    within the envelope's validity with the sender's key and device, decrypts to
    the plaintext, and is delivered exactly when the replay window takes it as
    new. *)
Theorem sealed_envelope_opens sender recipient metadata plaintext secret nonce e now c x replay :
  identity_ok sender -> identity_ok recipient -> bounded_bytes plaintext ->
  seal_with_material sender (id_agreement_public_key recipient) metadata plaintext secret nonce = Ok e ->
  em_recipient_device_id metadata = id_device_id recipient ->
  companion_timestamp (em_created_at metadata) = Ok c ->
  companion_timestamp (em_expires_at metadata) = Ok x ->
  (instant c - seconds MAX_CLOCK_SKEW_SECONDS <= instant now
     <= instant x + seconds MAX_CLOCK_SKEW_SECONDS)%Z ->
  open_envelope e (id_signing_public_key sender) (id_device_id sender) recipient now replay
    = (let '(replay', decision) := observe replay (id_device_id sender)
         (em_sender_sequence metadata) (em_envelope_id metadata) in
       (replay', decision ← decision;
          match decision with New => Ok plaintext
          | Duplicate => Err (CReplay "duplicate envelope delivery") end)).
Proof.
  intros Hs Hr Hb Hseal Hrec Hc Hx Hn.
  unfold seal_with_material in Hseal. apply bind_Ok in Hseal as ([]&Hlen%require_Ok&Hseal).
  set (header := {| eh_schema := _ |}) in Hseal.
  apply bind_Ok in Hseal as ([]&Hshape&Hseal). apply bind_Ok in Hseal as (aad&Haad&Hseal).
  apply bind_Ok in Hseal as (shared&Hshared&Hseal). apply bind_Ok in Hseal as (key&Hkey&Hseal).
  apply bind_Ok in Hseal as (ciphertext&Henc&Hseal). apply bind_Ok in Hseal as (unsigned&Hu&Hseal).
  injection Hseal as <-. apply andb_true_iff in Hlen as [Hne Hlen%Z.leb_le].
  apply negb_true_iff, bool_decide_eq_false in Hne.
  unfold encrypt in Henc. apply ok_or_Ok in Henc.
  destruct (chacha_correct _ _ _ _ _ Hb Henc) as (Hdec&Hcl&Hcb).
  assert (decode_base64url "envelope ciphertext" (base64_encode ciphertext)
    (MAX_ENVELOPE_PLAINTEXT_BYTES + 16) = Ok ciphertext) as Hd.
  { apply decode_encoded; [done| |unfold MAX_ENVELOPE_PLAINTEXT_BYTES in *; lia].
    intros E. rewrite E in Hcl. simpl in Hcl. lia. }
  assert (validate_window (eh_created_at header) (eh_expires_at header) now
    MAX_ENVELOPE_LIFETIME_SECONDS MAX_CLOCK_SKEW_SECONDS = Ok tt) as Hw.
  { eapply window_holds; [exact Hc|exact Hx| |exact Hn]. pose proof Hshape as Hsh.
    unfold header_validate_shape in Hsh. simpl in Hsh. rewrite Hc, Hx in Hsh. res_inv.
    repeat match goal with H : require _ _ = Ok _ |- _ => apply require_Ok in H end. res_inv. lia. }
  unfold open_envelope, authenticate_envelope, validate_relay_shape. simpl oe_header.
  simpl oe_ciphertext. simpl oe_signature. rewrite Hshape. simpl mbind. rewrite Hd. simpl.
  assert ((16 <=? length ciphertext)%nat = true) as -> by (apply Nat.leb_le; lia).
  rewrite !decode_array_encoded by done. simpl.
  rewrite (bool_decide_eq_true_2 (id_device_id sender = _)) by done.
  rewrite (bool_decide_eq_true_2 (em_recipient_device_id metadata = _)) by done. simpl.
  unfold header in Hw. simpl in Hw. rewrite Hw. simpl. rewrite Hu. simpl.
  rewrite sign_verifies by done. simpl.
  rewrite Haad. simpl. rewrite agree_commutes by done. rewrite Hshared. simpl.
  unfold derive_key in *. injection Hkey as <-. simpl. unfold decrypt. by rewrite Hdec.
Qed.
End roundtrip.

Fixpoint open_all (recipient : Identity) (replay : ReplayWindow) (openings : list Opening)
    : list (companion_result (list Z)) :=
  match openings with
  | [] => []
  | (e, key, device, now) :: rest =>
      let '(replay, r) := open_envelope e key device recipient now replay in
      r :: open_all recipient replay rest
  end.

Lemma open_spent e key device recipient now replay s q : spent_by replay s q ->
  spent_by (open_envelope e key device recipient now replay).1 s q.
Proof.
  intros Hs. unfold open_envelope. destruct (authenticate_envelope _ _ _ _ _); [|done].
  pose proof (observe_spent replay (eh_sender_device_id (oe_header e))
    (eh_sender_sequence (oe_header e)) (eh_envelope_id (oe_header e)) s q Hs) as Ho.
  by destruct (observe replay _ _ _).
Qed.

Lemma open_delivers e key device recipient now replay : 
  is_ok (open_envelope e key device recipient now replay).2 = true ->
  let s := eh_sender_device_id (oe_header e) in let q := eh_sender_sequence (oe_header e) in
  ~ spent_by replay s q /\ spent_by (open_envelope e key device recipient now replay).1 s q.
Proof.
  unfold open_envelope. destruct (authenticate_envelope _ _ _ _ _); [|done].
  pose proof (observe_new replay (eh_sender_device_id (oe_header e))
    (eh_sender_sequence (oe_header e)) (eh_envelope_id (oe_header e))) as Hn.
  destruct (observe replay _ _ _) as [replay1 [[]|]]; simpl in *; try done. by intros _; apply Hn.
Qed.

Lemma open_all_spent recipient replay openings s q i e key device now :
  spent_by replay s q -> openings !! i = Some (e, key, device, now) ->
  eh_sender_device_id (oe_header e) = s -> eh_sender_sequence (oe_header e) = q ->
  is_ok <$> open_all recipient replay openings !! i = Some false.
Proof.
  revert replay i. induction openings as [|[[[e0 key0] device0] now0] rest IH]; intros replay i Hs Hi Hes Heq;
    [done|]. simpl. pose proof (open_spent e0 key0 device0 recipient now0 replay s q Hs) as Hs'.
  pose proof (open_delivers e0 key0 device0 recipient now0 replay) as Hd.
  destruct (open_envelope e0 key0 device0 recipient now0 replay) as [replay1 r].
  destruct i as [|i]; simpl in *; [|by eapply IH]. injection Hi as -> -> -> ->. f_equal.
  destruct r; [|done]. exfalso. destruct (Hd eq_refl) as [Hn _]. rewrite Hes, Heq in Hn. by apply Hn.
Qed.

(** [C38] An envelope is delivered at most once: whatever is opened against one
    replay window, in any order, with forged, repeated and reordered envelopes, no
    two delivered envelopes have the same sender and sequence number. *)
Theorem delivered_at_most_once recipient replay openings i j ei ki di ti ej kj dj tj pi pj :
  i < j -> openings !! i = Some (ei, ki, di, ti) -> openings !! j = Some (ej, kj, dj, tj) ->
  open_all recipient replay openings !! i = Some (Ok pi) ->
  open_all recipient replay openings !! j = Some (Ok pj) ->
  (eh_sender_device_id (oe_header ei), eh_sender_sequence (oe_header ei))
    <> (eh_sender_device_id (oe_header ej), eh_sender_sequence (oe_header ej)).
Proof.
  intros Hij Hi Hj Hpi Hpj [= Hs Hq]. revert replay i j Hij Hi Hj Hpi Hpj.
  induction openings as [|[[[e0 key0] device0] now0] rest IH]; intros replay i j Hij Hi Hj Hpi Hpj; [done|].
  destruct j as [|j]; [lia|]. simpl in *.
  pose proof (open_delivers e0 key0 device0 recipient now0 replay) as Hd.
  destruct (open_envelope e0 key0 device0 recipient now0 replay) as [replay1 r].
  destruct i as [|i]; simpl in *; [|by eapply (IH replay1 i j); [lia|..]].
  injection Hi as -> -> -> ->. injection Hpi as ->. destruct (Hd eq_refl) as [_ Hsp].
  pose proof (open_all_spent recipient replay1 rest _ _ j ej kj dj tj Hsp Hj) as Hf.
  rewrite Hpj in Hf. simpl in Hf. by specialize (Hf (eq_sym Hs) (eq_sym Hq)).
Qed.
End laws.
