(* ===== verification/CompanionReference.v ===== *)
(** * Reference blobs and their chunks

    [companion/src/reference.rs]: exact image bytes sent in bounded chunks and
    reassembled on the Mac. Lengths are [Z]; a byte position in a scan is the
    suffix that starts there. *)
From S2P Require Import Prelude Text Digest CompanionModel CompanionCrypto.

Definition REFERENCE_BLOB_SCHEMA : string := "tohseno.companion-reference-blob/1".
Definition REFERENCE_BLOB_CHUNK_SCHEMA : string := "tohseno.companion-reference-blob-chunk/1".
Definition MAX_REFERENCE_BLOB_BYTES : Z := 67108864.
Definition MAX_REFERENCE_CHUNK_BYTES : Z := 8388608.

Definition div_ceil (a b : Z) : Z := ((a + b - 1) / b)%Z.
Definition MAX_BLOB_CHUNKS : Z := div_ceil MAX_REFERENCE_BLOB_BYTES MAX_REFERENCE_CHUNK_BYTES.

Record ReferenceDescriptor := {
  rd_blob_id : string;
  rd_origin_name : string;
  rd_media_type : string;
  rd_byte_length : Z;
  rd_sha256 : string }.
#[export] Instance ReferenceDescriptor_eq_dec : EqDecision ReferenceDescriptor.
Proof. solve_decision. Defined.
#[export] Instance ReferenceDescriptor_to_json : ToJson ReferenceDescriptor := λ d, JObj
  [("blob_id", to_json (rd_blob_id d)); ("origin_name", to_json (rd_origin_name d));
   ("media_type", to_json (rd_media_type d)); ("byte_length", to_json (rd_byte_length d));
   ("sha256", to_json (rd_sha256 d))].

Record ReferenceBlob := {
  rb_schema : string;
  rb_blob_id : string;
  rb_origin_name : string;
  rb_media_type : string;
  rb_byte_length : Z;
  rb_sha256 : string;
  rb_bytes : string }.
#[export] Instance ReferenceBlob_eq_dec : EqDecision ReferenceBlob.
Proof. solve_decision. Defined.

Record ReferenceBlobChunk := {
  ch_schema : string;
  ch_blob_id : string;
  ch_origin_name : string;
  ch_media_type : string;
  ch_byte_length : Z;
  ch_sha256 : string;
  ch_chunk_index : Z;
  ch_chunk_count : Z;
  ch_chunk_byte_length : Z;
  ch_chunk_sha256 : string;
  ch_bytes : string }.
#[export] Instance ReferenceBlobChunk_eq_dec : EqDecision ReferenceBlobChunk.
Proof. solve_decision. Defined.

(** The chunks of [ReferenceBlobAssembler], by position. *)
Abbreviation Assembler := (gmap Z ReferenceBlobChunk).

(** ** Images *)

Definition u16_be (high low : Z) : Z := (high * 256 + low)%Z.

Definition PNG_SIGNATURE : list Z := [137; 80; 78; 71; 13; 10; 26; 10]%Z.

Definition valid_png_header (bytes : list Z) : bool :=
  (24 <=? length bytes)%nat && (slice bytes 0 8 == PNG_SIGNATURE)
  && (be_value (slice bytes 8 12) =? 13)%Z && (slice bytes 12 16 == bytes_of "IHDR")
  && (0 <? be_value (slice bytes 16 20)) && (0 <? be_value (slice bytes 20 24)).

(** [while offset < bytes.len() && bytes[offset] == 0xff { offset += 1 }] *)
Fixpoint skip_fill (bytes : list Z) : list Z :=
  match bytes with
  | b :: rest => if (b =? 255)%Z then skip_fill rest else bytes
  | [] => []
  end.

Definition is_frame_marker (marker : Z) : bool :=
  ((192 <=? marker) && (marker <=? 207))%Z
  && negb ((marker =? 196)%Z || (marker =? 200)%Z || (marker =? 204)%Z).

(** The scan over the segments, from a segment's first byte. Every turn consumes
    a byte, so the length is enough fuel ([jpeg_scan_fuel]). *)
Fixpoint jpeg_scan (fuel : nat) (bytes : list Z) : bool :=
  match fuel, bytes with
  | S fuel, b :: _ =>
      if negb (b =? 255)%Z then false
      else match skip_fill bytes with
      | [] => false
      | marker :: rest =>
          if (marker =? 0)%Z || (marker =? 217)%Z || (marker =? 218)%Z then false
          else if (marker =? 1)%Z || ((208 <=? marker) && (marker <=? 216))%Z then jpeg_scan fuel rest
          else match rest with
          | high :: low :: body =>
              let length' := u16_be high low in
              if (length' <? 2) || (Z.of_nat (length rest) <? length') then false
              else if is_frame_marker marker then
                if length' <? 7 then false
                else match body with
                | _ :: h1 :: h2 :: w1 :: w2 :: _ => (0 <? u16_be w1 w2) && (0 <? u16_be h1 h2)
                | _ => false
                end
              else jpeg_scan fuel (drop (Z.to_nat length') rest)
          | _ => false
          end
      end
  | _, _ => false
  end.

Definition valid_jpeg_header (bytes : list Z) : bool :=
  negb (length bytes <? 4)%nat && (slice bytes 0 2 == [255; 216]%Z)
  && jpeg_scan (length bytes) (drop 2 bytes).

Definition validate_image (media_type : string) (bytes : list Z) : companion_result unit :=
  require (if media_type == "image/png" then valid_png_header bytes
           else if media_type == "image/jpeg" then valid_jpeg_header bytes else false)
    "reference bytes are not the declared image type".

(** ** [slice::chunks] *)

Fixpoint split_at (n : Z) (bytes : list Z) : list Z * list Z :=
  match bytes with
  | [] => ([], [])
  | b :: rest =>
      if (n <=? 0)%Z then ([], bytes)
      else let '(first, others) := split_at (n - 1) rest in (b :: first, others)
  end.

(** A chunk has at least one byte, so the length is enough fuel. *)
Fixpoint chunks_of (fuel : nat) (size : Z) (bytes : list Z) : list (list Z) :=
  match fuel, bytes with
  | S fuel, _ :: _ => let '(first, others) := split_at size bytes in first :: chunks_of fuel size others
  | _, _ => []
  end.

Section reference.
Context `{Platform} `{CompanionCrypto}.

(** [origin_name.contains(['/', '\\', '\0'])] and the two dot names. *)
Definition plain_filename (origin_name : string) : bool :=
  negb (existsb (λ b, (b =? 47) || (b =? 92) || (b =? 0))%Z (bytes_of origin_name))
  && (origin_name != ".") && (origin_name != "..").

Definition validate_reference_metadata (blob_id origin_name media_type : string) (byte_length : Z)
    (digest : string) : companion_result unit :=
  companion_identifier "reference blob ID" blob_id ;;
  companion_text "reference origin name" origin_name 512 ;;
  require (plain_filename origin_name) "reference origin name must be a plain filename" ;;
  require ((media_type == "image/png") || (media_type == "image/jpeg"))
    "reference media type must be image/png or image/jpeg" ;;
  require ((1 <=? byte_length) && (byte_length <=? MAX_REFERENCE_BLOB_BYTES))
    "reference blob byte length is invalid" ;;
  decode_array 32 "reference SHA-256" digest ;;
  Ok tt.

Definition digest_text (bytes : list Z) : string := base64_encode (as_bytes (sha256 bytes)).

(** ** Blobs *)

Definition blob_decoded_bytes (b : ReferenceBlob) : companion_result (list Z) :=
  decode_base64url "reference blob bytes" (rb_bytes b) MAX_REFERENCE_BLOB_BYTES.

Definition blob_validate (b : ReferenceBlob) : companion_result unit :=
  require (rb_schema b == REFERENCE_BLOB_SCHEMA) "unsupported companion reference blob schema" ;;
  validate_reference_metadata (rb_blob_id b) (rb_origin_name b) (rb_media_type b)
    (rb_byte_length b) (rb_sha256 b) ;;
  bytes ← blob_decoded_bytes b;
  require (Z.of_nat (length bytes) =? rb_byte_length b)%Z
    "reference blob byte length does not match its bytes" ;;
  require (rb_sha256 b == digest_text bytes) "reference blob SHA-256 does not match its bytes" ;;
  validate_image (rb_media_type b) bytes.

Definition blob_new (blob_id origin_name media_type : string) (bytes : list Z)
    : companion_result ReferenceBlob :=
  let value := {| rb_schema := REFERENCE_BLOB_SCHEMA; rb_blob_id := blob_id;
    rb_origin_name := origin_name; rb_media_type := media_type;
    rb_byte_length := Z.of_nat (length bytes); rb_sha256 := digest_text bytes;
    rb_bytes := base64_encode bytes |} in
  blob_validate value ;;
  Ok value.

Definition blob_descriptor (b : ReferenceBlob) : companion_result ReferenceDescriptor :=
  blob_validate b ;;
  Ok {| rd_blob_id := rb_blob_id b; rd_origin_name := rb_origin_name b;
        rd_media_type := rb_media_type b; rd_byte_length := rb_byte_length b;
        rd_sha256 := rb_sha256 b |}.

Definition matches_descriptor (b : ReferenceBlob) (descriptor : ReferenceDescriptor)
    : companion_result unit :=
  blob_validate b ;;
  own ← blob_descriptor b;
  require (own == descriptor) "reference blob does not match its command descriptor".

(** ** Chunks *)

Definition chunk_decoded_bytes (c : ReferenceBlobChunk) : companion_result (list Z) :=
  decode_base64url "reference chunk bytes" (ch_bytes c) MAX_REFERENCE_CHUNK_BYTES.

(** The length of the chunk at a position. *)
Definition expected_length (c : ReferenceBlobChunk) : Z :=
  if (ch_chunk_index c + 1 =? ch_chunk_count c)%Z then
    let remainder := (ch_byte_length c mod MAX_REFERENCE_CHUNK_BYTES)%Z in
    if (remainder =? 0)%Z then MAX_REFERENCE_CHUNK_BYTES else remainder
  else MAX_REFERENCE_CHUNK_BYTES.

Definition chunk_validate (c : ReferenceBlobChunk) : companion_result unit :=
  require (ch_schema c == REFERENCE_BLOB_CHUNK_SCHEMA)
    "unsupported companion reference blob chunk schema" ;;
  validate_reference_metadata (ch_blob_id c) (ch_origin_name c) (ch_media_type c)
    (ch_byte_length c) (ch_sha256 c) ;;
  require ((ch_chunk_count c =? div_ceil (ch_byte_length c) MAX_REFERENCE_CHUNK_BYTES)%Z
           && ((1 <=? ch_chunk_count c) && (ch_chunk_count c <=? MAX_BLOB_CHUNKS))%Z
           && (ch_chunk_index c <? ch_chunk_count c))
    "reference chunk position is invalid" ;;
  require (ch_chunk_byte_length c =? expected_length c)%Z "reference chunk length is not canonical" ;;
  bytes ← chunk_decoded_bytes c;
  require (Z.of_nat (length bytes) =? expected_length c)%Z
    "reference chunk byte length does not match its bytes" ;;
  require (ch_chunk_sha256 c == digest_text bytes) "reference chunk SHA-256 does not match its bytes".

Definition chunk_of (b : ReferenceBlob) (chunk_index chunk_count : Z) (bytes : list Z)
    : ReferenceBlobChunk :=
  {| ch_schema := REFERENCE_BLOB_CHUNK_SCHEMA; ch_blob_id := rb_blob_id b;
     ch_origin_name := rb_origin_name b; ch_media_type := rb_media_type b;
     ch_byte_length := rb_byte_length b; ch_sha256 := rb_sha256 b;
     ch_chunk_index := chunk_index; ch_chunk_count := chunk_count;
     ch_chunk_byte_length := Z.of_nat (length bytes); ch_chunk_sha256 := digest_text bytes;
     ch_bytes := base64_encode bytes |}.

Definition chunk_new (b : ReferenceBlob) (chunk_index chunk_count : Z) (bytes : list Z)
    : companion_result ReferenceBlobChunk :=
  let value := chunk_of b chunk_index chunk_count bytes in
  chunk_validate value ;;
  Ok value.

Definition chunk_descriptor (c : ReferenceBlobChunk) : companion_result ReferenceDescriptor :=
  chunk_validate c ;;
  Ok {| rd_blob_id := ch_blob_id c; rd_origin_name := ch_origin_name c;
        rd_media_type := ch_media_type c; rd_byte_length := ch_byte_length c;
        rd_sha256 := ch_sha256 c |}.

(** [.enumerate().map(...).collect()], which stops at the first error. *)
Fixpoint chunks_from (b : ReferenceBlob) (index count : Z) (pieces : list (list Z))
    : companion_result (list ReferenceBlobChunk) :=
  match pieces with
  | [] => Ok []
  | piece :: pieces =>
      c ← chunk_new b index count piece;
      rest ← chunks_from b (index + 1) count pieces;
      Ok (c :: rest)
  end.

Definition blob_chunks (b : ReferenceBlob) : companion_result (list ReferenceBlobChunk) :=
  blob_validate b ;;
  bytes ← blob_decoded_bytes b;
  let chunk_count := div_ceil (Z.of_nat (length bytes)) MAX_REFERENCE_CHUNK_BYTES in
  require ((1 <=? chunk_count) && (chunk_count <=? MAX_BLOB_CHUNKS))%Z
    "reference blob chunk count is invalid" ;;
  chunks_from b 0 chunk_count (chunks_of (length bytes) MAX_REFERENCE_CHUNK_BYTES bytes).

(** ** The assembler *)

Inductive ChunkAdmission : Type :=
  | ChunkStored
  | ChunkDuplicate
  | BlobComplete (b : ReferenceBlob).

(** [self.chunks.values().next()] *)
Definition first_chunk (chunks : Assembler) : option ReferenceBlobChunk :=
  snd <$> head (stable_sort (λ a b : Z * ReferenceBlobChunk, fst a <=? fst b)%Z (map_to_list chunks)).

Definition same_blob (a b : ReferenceBlobChunk) : bool :=
  (ch_blob_id a == ch_blob_id b) && (ch_origin_name a == ch_origin_name b)
  && (ch_media_type a == ch_media_type b) && (ch_byte_length a == ch_byte_length b)
  && (ch_sha256 a == ch_sha256 b) && (ch_chunk_count a == ch_chunk_count b).

(** [for index in 0..chunk_count]: the bytes from [index] on, [n] chunks. *)
Fixpoint gather (chunks : Assembler) (n : nat) (index : Z) : companion_result (list Z) :=
  match n with
  | O => Ok []
  | S n =>
      c ← ok_or (CInvalid "reference assembler has a missing chunk") (chunks !! index);
      bytes ← chunk_decoded_bytes c;
      rest ← gather chunks n (index + 1);
      Ok (bytes ++ rest)
  end.

Definition reassemble (chunks : Assembler) (chunk_count : Z) : companion_result ChunkAdmission :=
  first ← ok_or (CInvalid "reference assembler is empty") (first_chunk chunks);
  bytes ← gather chunks (Z.to_nat chunk_count) 0;
  blob ← blob_new (ch_blob_id first) (ch_origin_name first) (ch_media_type first) bytes;
  require ((rb_sha256 blob == ch_sha256 first) && (rb_byte_length blob == ch_byte_length first))
    "reassembled reference does not match its whole-object commitment" ;;
  Ok (BlobComplete blob).

(** [ReferenceBlobAssembler::admit] *)
Definition admit_chunk (chunks : Assembler) (c : ReferenceBlobChunk)
    : Assembler * companion_result ChunkAdmission :=
  match (chunk_validate c ;;
         match first_chunk chunks with
         | Some first => require (same_blob c first) "reference chunks do not describe one exact blob"
         | None => Ok tt
         end) with
  | Err e => (chunks, Err e)
  | Ok _ =>
      match chunks !! ch_chunk_index c with
      | Some existing =>
          (chunks, if existing == c then Ok ChunkDuplicate
                   else Err (CInvalid "reference chunk position was reused with different bytes"))
      | None =>
          let chunks := <[ch_chunk_index c := c]> chunks in
          if negb (Z.of_nat (size chunks) =? ch_chunk_count c)%Z then (chunks, Ok ChunkStored)
          else (chunks, reassemble chunks (ch_chunk_count c))
      end
  end.
End reference.
