(* ===== verification/CompanionReferenceLaws.v ===== *)
(** * Laws of reference blobs

    Chunks in any order and with repetitions reassemble to exactly the blob, and
    a blob that completes is the one every chunk committed to. *)
From S2P Require Import Prelude Text Digest CompanionModel CompanionCrypto CompanionReference.

#[local] Arguments Nat.leb : simpl never.

(** ** The scans terminate within their fuel *)

Lemma skip_fill_length bytes : length (skip_fill bytes) <= length bytes.
Proof. induction bytes as [|b bytes IH]; simpl; [lia|]. destruct (b =? 255)%Z; simpl; lia. Qed.

Lemma jpeg_scan_fuel fuel bytes : length bytes <= fuel ->
  jpeg_scan fuel bytes = jpeg_scan (length bytes) bytes.
Proof.
  assert (forall n m bs, length bs <= n -> length bs <= m -> jpeg_scan n bs = jpeg_scan m bs) as Hgen.
  2: { intros Hf. by apply Hgen. }
  induction n as [|n IH]; intros [|m] [|b bs] Hn Hm; simpl in *; try done; try lia.
  destruct (negb (b =? 255)%Z) eqn:Hb; [done|].
  destruct (b =? 255)%Z; [|done]. pose proof (skip_fill_length bs) as Hs.
  destruct (skip_fill bs) as [|marker rest]; [done|]. simpl in Hs.
  destruct (_ || _); [done|]. destruct (_ || _); [apply IH; lia|].
  destruct rest as [|high [|low body]]; [done|done|]. destruct (_ || _); [done|].
  destruct (is_frame_marker marker); [done|].
  apply IH; rewrite length_drop; simpl in *; lia.
Qed.

(** ** Chunking *)

Lemma split_at_spec n bytes : split_at n bytes = (take (Z.to_nat n) bytes, drop (Z.to_nat n) bytes).
Proof.
  revert n. induction bytes as [|b bytes IH]; intros n; simpl; [by rewrite take_nil, drop_nil|].
  destruct (n <=? 0)%Z eqn:E; [apply Z.leb_le in E; by replace (Z.to_nat n) with 0 by lia|].
  apply Z.leb_gt in E. rewrite IH. by replace (Z.to_nat n) with (S (Z.to_nat (n - 1))) by lia.
Qed.

Lemma div_ceil_bound a b : (0 < b)%Z -> (0 <= a)%Z ->
  (b * (div_ceil a b - 1) < a <= b * div_ceil a b \/ a = 0 /\ div_ceil a b = 0)%Z.
Proof.
  intros Hb Ha. unfold div_ceil. pose proof (Z.div_mod (a + b - 1) b ltac:(lia)) as Hd.
  pose proof (Z.mod_pos_bound (a + b - 1) b Hb). destruct (decide (a = 0%Z)) as [->|].
  - right. split; [done|]. apply Z.div_small. lia.
  - left. nia.
Qed.

Section chunking.
Context (size : Z) (Hsize : (0 < size)%Z).

Lemma chunks_of_nil fuel : chunks_of fuel size [] = [].
Proof. by destruct fuel. Qed.

Lemma chunks_of_lookup fuel bytes i : length bytes <= fuel ->
  chunks_of fuel size bytes !! i =
    if (Z.of_nat i * size <? Z.of_nat (length bytes))%Z
    then Some (take (Z.to_nat size) (drop (i * Z.to_nat size) bytes)) else None.
Proof.
  revert fuel bytes. induction i as [|i IH]; intros fuel bytes Hf;
    (destruct bytes as [|b bytes];
      [by rewrite chunks_of_nil, lookup_nil, (proj2 (Z.ltb_ge _ _)) by (simpl length; nia)|]);
    (destruct fuel as [|fuel]; [simpl in Hf; lia|]); cbn [chunks_of]; rewrite split_at_spec.
  - by rewrite (proj2 (Z.ltb_lt _ _)) by (simpl length; lia).
  - simpl lookup. rewrite IH.
    2: { rewrite length_drop. simpl in *. lia. }
    rewrite length_drop, drop_drop. replace (Z.to_nat size + i * Z.to_nat size) with (S i * Z.to_nat size) by lia.
    set (n := length (b :: bytes)) in *. destruct (_ <? Z.of_nat (n - _))%Z eqn:E;
      [apply Z.ltb_lt in E; by rewrite (proj2 (Z.ltb_lt _ _)) by lia|].
    apply Z.ltb_ge in E. by rewrite (proj2 (Z.ltb_ge _ _)) by lia.
Qed.

Lemma chunks_of_concat fuel bytes : length bytes <= fuel -> concat (chunks_of fuel size bytes) = bytes.
Proof.
  revert bytes. induction fuel as [|fuel IH]; intros bytes Hf.
  { destruct bytes; [done|simpl in Hf; lia]. }
  destruct bytes as [|b bytes]; [done|]. cbn [chunks_of]. rewrite split_at_spec. simpl concat.
  rewrite IH; [apply take_drop|]. rewrite length_drop. simpl in *. lia.
Qed.

Lemma chunks_of_length bytes :
  Z.of_nat (length (chunks_of (length bytes) size bytes)) = div_ceil (Z.of_nat (length bytes)) size.
Proof.
  set (cs := chunks_of _ _ _). set (n := Z.of_nat (length bytes)).
  assert (forall i, i < length cs <-> (Z.of_nat i * size < n)%Z) as Hi.
  { intros i. rewrite <- lookup_lt_is_Some. unfold cs. rewrite chunks_of_lookup by done. fold n.
    destruct (_ <? _)%Z eqn:E; [apply Z.ltb_lt in E|apply Z.ltb_ge in E].
    - split; [done|]. intros _. by eexists.
    - split; [by intros [? ?]|lia]. }
  pose proof (div_ceil_bound n size Hsize ltac:(lia)) as Hd.
  set (k := div_ceil n size) in *.
  pose proof (proj1 (Hi (pred (length cs)))) as Hl. pose proof (proj2 (Hi (length cs))) as Hg.
  assert (0 <= k)%Z by nia.
  assert (~ (Z.of_nat (length cs) * size < n)%Z) as Hg' by (intros Hc; specialize (Hg Hc); lia).
  assert ((0 < Z.of_nat (length cs))%Z -> ((Z.of_nat (length cs) - 1) * size < n)%Z) as Hl'.
  { intros Hpos. specialize (Hl ltac:(lia)). rewrite Nat2Z.inj_pred in Hl by lia. lia. }
  clearbody cs k n. destruct (length cs); nia.
Qed.
End chunking.

(** ** Genuine chunks *)

Section reference.
Context `{Platform} `{CompanionCrypto} `{!CompanionCryptoLaws}.

#[local] Arguments decode_base64url : simpl never.
#[local] Arguments validate_reference_metadata : simpl never.

Lemma blob_validate_Ok b : blob_validate b = Ok tt <->
  rb_schema b = REFERENCE_BLOB_SCHEMA /\
  validate_reference_metadata (rb_blob_id b) (rb_origin_name b) (rb_media_type b)
    (rb_byte_length b) (rb_sha256 b) = Ok tt /\
  exists bytes, blob_decoded_bytes b = Ok bytes /\ Z.of_nat (length bytes) = rb_byte_length b /\
    rb_sha256 b = digest_text bytes /\ validate_image (rb_media_type b) bytes = Ok tt.
Proof.
  unfold blob_validate. split.
  - intros Hv. apply bind_Ok in Hv as ([]&Hs%require_Ok%bool_decide_eq_true&Hv).
    apply bind_Ok in Hv as ([]&Hm&Hv). apply bind_Ok in Hv as (bytes&Hb&Hv).
    apply bind_Ok in Hv as ([]&Hl%require_Ok%Z.eqb_eq&Hv).
    apply bind_Ok in Hv as ([]&Hd%require_Ok%bool_decide_eq_true&Hv). eauto 10.
  - intros (Hs&Hm&bytes&Hb&Hl&Hd&Hi). rewrite (bool_decide_eq_true_2 (rb_schema b = _)) by done.
    simpl. rewrite Hm. simpl. rewrite Hb. simpl. rewrite (proj2 (Z.eqb_eq _ _) Hl). simpl.
    by rewrite (bool_decide_eq_true_2 (rb_sha256 b = _)).
Qed.

Lemma metadata_length id name media n digest :
  validate_reference_metadata id name media n digest = Ok tt ->
  (1 <= n <= MAX_REFERENCE_BLOB_BYTES)%Z.
Proof.
  unfold validate_reference_metadata. intros Hm. apply bind_Ok in Hm as (?&_&Hm).
  apply bind_Ok in Hm as (?&_&Hm). apply bind_Ok in Hm as (?&_&Hm). apply bind_Ok in Hm as (?&_&Hm).
  apply bind_Ok in Hm as ([]&Hn%require_Ok&_). res_inv. lia.
Qed.

(** The bytes of a valid blob, their pieces and the number of chunks. *)
Record blob_parts (b : ReferenceBlob) (bytes : list Z) (pieces : list (list Z)) (count : Z) : Prop := {
  bp_bytes : blob_decoded_bytes b = Ok bytes;
  bp_bounded : bounded_bytes bytes;
  bp_encoded : base64_encode bytes = rb_bytes b;
  bp_length : Z.of_nat (length bytes) = rb_byte_length b;
  bp_range : (1 <= rb_byte_length b <= MAX_REFERENCE_BLOB_BYTES)%Z;
  bp_pieces : pieces = chunks_of (length bytes) MAX_REFERENCE_CHUNK_BYTES bytes;
  bp_count : count = div_ceil (rb_byte_length b) MAX_REFERENCE_CHUNK_BYTES;
  bp_number : Z.of_nat (length pieces) = count }.

Lemma blob_valid_parts b : blob_validate b = Ok tt -> exists bytes pieces count, blob_parts b bytes pieces count.
Proof.
  intros (_&Hm&bytes&Hb&Hl&_)%blob_validate_Ok. apply metadata_length in Hm.
  pose proof Hb as Hb0. unfold blob_decoded_bytes in Hb0. apply decode_base64url_Ok in Hb0 as (Hd&He&_).
  eexists bytes, _, _. constructor; try done; [by eapply base64_bounded|].
  rewrite <- Hl. apply chunks_of_length. unfold MAX_REFERENCE_CHUNK_BYTES. lia.
Qed.

Lemma count_range b bytes pieces count : blob_parts b bytes pieces count ->
  (1 <= count <= MAX_BLOB_CHUNKS)%Z /\
  (MAX_REFERENCE_CHUNK_BYTES * (count - 1) < rb_byte_length b <= MAX_REFERENCE_CHUNK_BYTES * count)%Z.
Proof.
  intros [_ _ _ _ Hr _ Hc _].
  pose proof (div_ceil_bound (rb_byte_length b) MAX_REFERENCE_CHUNK_BYTES
    ltac:(unfold MAX_REFERENCE_CHUNK_BYTES; lia) ltac:(lia)) as Hd. rewrite <- Hc in Hd.
  assert (MAX_BLOB_CHUNKS = 8%Z) as -> by done.
  unfold MAX_REFERENCE_CHUNK_BYTES, MAX_REFERENCE_BLOB_BYTES in *. lia.
Qed.

(** The piece at a position is bounded, nonempty and of the expected length. *)
Lemma piece_shape b bytes pieces count i piece : blob_parts b bytes pieces count ->
  pieces !! i = Some piece ->
  bounded_bytes piece /\ piece <> [] /\ (Z.of_nat i < count)%Z /\
  Z.of_nat (length piece) = expected_length (chunk_of b (Z.of_nat i) count piece).
Proof.
  intros Hp Hi. pose proof (count_range _ _ _ _ Hp) as [Hc Hn]. destruct Hp as [_ Hb _ Hl Hr Hps Hct Hnum].
  pose proof (lookup_lt_Some _ _ _ Hi) as Hlt. rewrite Hps, chunks_of_lookup in Hi;
    [|unfold MAX_REFERENCE_CHUNK_BYTES; lia|done].
  destruct (_ <? _)%Z eqn:E in Hi; [|done]. apply Z.ltb_lt in E.
  set (k := Z.to_nat MAX_REFERENCE_CHUNK_BYTES) in *.
  assert (Z.of_nat k = MAX_REFERENCE_CHUNK_BYTES) as Hk by (unfold k, MAX_REFERENCE_CHUNK_BYTES; lia).
  clearbody k. injection Hi as <-. split_and!.
  - apply Forall_take, Forall_drop, Hb.
  - intros E'. apply (f_equal length) in E'. rewrite length_take, length_drop in E'. simpl in E'.
    unfold MAX_REFERENCE_CHUNK_BYTES in *. lia.
  - lia.
  - unfold expected_length. simpl. rewrite length_take, length_drop.
    destruct (Z.eqb_spec (Z.of_nat i + 1) count) as [El|El].
    + assert (count = Z.of_nat i + 1)%Z as -> by lia.
      pose proof (Z.div_mod (rb_byte_length b) MAX_REFERENCE_CHUNK_BYTES
        ltac:(unfold MAX_REFERENCE_CHUNK_BYTES; lia)) as Hdm.
      pose proof (Z.mod_pos_bound (rb_byte_length b) MAX_REFERENCE_CHUNK_BYTES
        ltac:(unfold MAX_REFERENCE_CHUNK_BYTES; lia)) as Hmod.
      destruct (Z.eqb_spec (rb_byte_length b mod MAX_REFERENCE_CHUNK_BYTES) 0) as [Em|Em];
        unfold MAX_REFERENCE_CHUNK_BYTES in *; lia.
    + unfold MAX_REFERENCE_CHUNK_BYTES in *. lia.
Qed.

(** Every piece makes a valid chunk. *)
Lemma genuine_chunk_valid b bytes pieces count i piece : blob_validate b = Ok tt ->
  blob_parts b bytes pieces count -> pieces !! i = Some piece ->
  chunk_validate (chunk_of b (Z.of_nat i) count piece) = Ok tt /\
  chunk_decoded_bytes (chunk_of b (Z.of_nat i) count piece) = Ok piece.
Proof.
  intros (_&Hm&_)%blob_validate_Ok Hp Hi.
  destruct (piece_shape _ _ _ _ _ _ Hp Hi) as (Hb&Hne&Hlt&Hl).
  pose proof (count_range _ _ _ _ Hp) as [Hc Hn]. pose proof (bp_count _ _ _ _ Hp) as Hct.
  set (c := chunk_of b (Z.of_nat i) count piece) in *.
  assert (Z.of_nat (length piece) <= MAX_REFERENCE_CHUNK_BYTES)%Z as Hle.
  { rewrite Hl. unfold expected_length. repeat case_match; try lia.
    pose proof (Z.mod_pos_bound (ch_byte_length c) MAX_REFERENCE_CHUNK_BYTES
      ltac:(unfold MAX_REFERENCE_CHUNK_BYTES; lia)). lia. }
  assert (chunk_decoded_bytes c = Ok piece) as Hd by (by apply decode_encoded).
  split; [|done]. unfold chunk_validate.
  rewrite require_bind by (apply (bool_decide_eq_true_2 (ch_schema c = REFERENCE_BLOB_CHUNK_SCHEMA)); reflexivity).
  change (validate_reference_metadata (ch_blob_id c) _ _ _ _) with
    (validate_reference_metadata (rb_blob_id b) (rb_origin_name b) (rb_media_type b)
      (rb_byte_length b) (rb_sha256 b)). rewrite Hm, bind_tt.
  rewrite require_bind.
  2: { rewrite !andb_true_iff, Z.eqb_eq, !Z.leb_le, Z.ltb_lt. unfold c. simpl. repeat split; try done; lia. }
  rewrite require_bind by (apply Z.eqb_eq; done). rewrite Hd. simpl mbind.
  rewrite require_bind by (apply Z.eqb_eq; done). apply require_Ok. by apply bool_decide_eq_true_2.
Qed.

Lemma chunks_from_genuine b idx count pieces :
  (forall i piece, pieces !! i = Some piece ->
     chunk_validate (chunk_of b (idx + Z.of_nat i) count piece) = Ok tt) ->
  chunks_from b idx count pieces = Ok (imap (λ i piece, chunk_of b (idx + Z.of_nat i) count piece) pieces).
Proof.
  revert idx. induction pieces as [|piece pieces IH]; intros idx Hv; [done|].
  cbn [chunks_from]. unfold chunk_new. pose proof (Hv 0 piece eq_refl) as H0v.
  replace (idx + Z.of_nat 0)%Z with idx in H0v by lia. rewrite H0v. simpl mbind.
  rewrite IH.
  - simpl. rewrite Z.add_0_r. do 2 f_equal. apply imap_ext. intros i p _. simpl.
    by replace (idx + 1 + Z.of_nat i)%Z with (idx + Z.of_nat (S i))%Z by lia.
  - intros i p Hi. specialize (Hv (S i) p Hi). by replace (idx + 1 + Z.of_nat i)%Z with (idx + Z.of_nat (S i))%Z by lia.
Qed.

Lemma blob_chunks_genuine b : blob_validate b = Ok tt ->
  exists bytes pieces count, blob_parts b bytes pieces count /\
    blob_chunks b = Ok (imap (λ i piece, chunk_of b (Z.of_nat i) count piece) pieces).
Proof.
  intros Hv. destruct (blob_valid_parts b Hv) as (bytes&pieces&count&Hp). exists bytes, pieces, count.
  split; [done|]. unfold blob_chunks. rewrite Hv. simpl mbind. rewrite (bp_bytes _ _ _ _ Hp). simpl mbind.
  rewrite (bp_length _ _ _ _ Hp), <- (bp_count _ _ _ _ Hp). pose proof (count_range _ _ _ _ Hp) as [Hc _].
  rewrite (proj2 (Z.leb_le 1 count)), (proj2 (Z.leb_le count _)) by lia. simpl mbind.
  rewrite <- (bp_pieces _ _ _ _ Hp).
  rewrite chunks_from_genuine; [done|]. intros i piece Hi. simpl.
  by eapply genuine_chunk_valid.
Qed.

(** ** The assembler *)

Lemma first_chunk_spec (asm : Assembler) :
  match first_chunk asm with
  | Some f => exists i, asm !! i = Some f
  | None => asm = ∅
  end.
Proof.
  unfold first_chunk. pose proof (stable_sort_perm (λ a b : Z * ReferenceBlobChunk, fst a <=? fst b)%Z (map_to_list asm)) as Hp.
  destruct (stable_sort _ _) as [|[i f] l]; simpl.
  - apply map_to_list_empty_iff. by apply Permutation_nil.
  - exists i. apply elem_of_map_to_list. rewrite <- Hp. set_solver.
Qed.

Definition admit_all (arrived : list ReferenceBlobChunk) : Assembler :=
  foldl (λ asm c, fst (admit_chunk asm c)) ∅ arrived.

Section genuine.
Context (b : ReferenceBlob) (Hv : blob_validate b = Ok tt).
Context (bytes : list Z) (pieces : list (list Z)) (count : Z) (Hp : blob_parts b bytes pieces count).

Definition genuine (i : nat) (piece : list Z) : ReferenceBlobChunk := chunk_of b (Z.of_nat i) count piece.
Let chunks : list ReferenceBlobChunk := imap genuine pieces.

Lemma elem_of_chunks c : c ∈ chunks <->
  exists i piece, pieces !! i = Some piece /\ c = genuine i piece.
Proof.
  unfold chunks. rewrite list_elem_of_lookup. split.
  - intros (i&Hi). rewrite list_lookup_imap in Hi. destruct (pieces !! i) as [piece|] eqn:E; [|done].
    injection Hi as <-. eauto.
  - intros (i&piece&Hi&->). exists i. by rewrite list_lookup_imap, Hi.
Qed.

Lemma same_index c d : c ∈ chunks -> d ∈ chunks -> ch_chunk_index c = ch_chunk_index d -> c = d.
Proof.
  rewrite !elem_of_chunks. intros (i&p&Hi&->) (j&q&Hj&->) E. simpl in E.
  apply Nat2Z.inj in E as ->. by simplify_eq.
Qed.

(** The assembler holds exactly the chunks seen. *)
Definition holds (asm : Assembler) (seen : list ReferenceBlobChunk) : Prop :=
  forall i c, asm !! i = Some c <-> c ∈ seen /\ ch_chunk_index c = i.

Lemma holds_complete asm seen : seen ⊆ chunks -> holds asm seen ->
  Z.of_nat (size asm) = count <-> chunks ⊆ seen.
Proof.
  intros Hs Hh. set (full := list_to_map ((λ c, (ch_chunk_index c, c)) <$> chunks) : Assembler).
  assert (NoDup ((λ c, (ch_chunk_index c, c)) <$> chunks).*1) as Hnd.
  { rewrite <- list_fmap_compose. apply NoDup_fmap_2_strong.
    - intros c d Hc Hd. by apply same_index.
    - apply NoDup_alt. intros i j c. unfold chunks. rewrite !list_lookup_imap.
      destruct (pieces !! i) eqn:Ei, (pieces !! j) eqn:Ej; try done. simpl. intros [= <-] [= E _]. lia. }
  assert (forall i c, full !! i = Some c <-> c ∈ chunks /\ ch_chunk_index c = i) as Hfull.
  { intros i c. unfold full. rewrite <- elem_of_list_to_map by done. rewrite list_elem_of_fmap. split.
    - intros (d&[= -> ->]&Hd). done.
    - intros [Hc <-]. eauto. }
  assert (Z.of_nat (size full) = count) as Hsize.
  { unfold full. rewrite map_size_list_to_map by done. rewrite length_fmap. unfold chunks.
    rewrite length_imap. apply (bp_number _ _ _ _ Hp). }
  assert (asm ⊆ full) as Hsub.
  { apply map_subseteq_spec. intros i c. rewrite (Hh i c), Hfull. intros [? ?]. auto. }
  split.
  - intros Hn. assert (asm = full) as -> by (apply map_subseteq_size_eq; [done|lia]).
    intros c Hc. by apply (Hh (ch_chunk_index c)), Hfull.
  - intros Hc. rewrite <- Hsize. do 2 f_equal. apply map_eq. intros i. apply option_eq. intros c.
    rewrite (Hh i c), Hfull. split; intros [? ?]; auto.
Qed.

Lemma gather_pieces asm ps idx :
  (forall i piece, ps !! i = Some piece -> exists c,
     asm !! (idx + Z.of_nat i)%Z = Some c /\ chunk_decoded_bytes c = Ok piece) ->
  gather asm (length ps) idx = Ok (concat ps).
Proof.
  revert idx. induction ps as [|p ps IH]; intros idx Hps; [done|]. simpl.
  destruct (Hps 0 p eq_refl) as (c&Hc&Hd). rewrite Z.add_0_r in Hc. rewrite Hc. simpl. rewrite Hd. simpl.
  rewrite IH; [done|]. intros i q Hi. destruct (Hps (S i) q Hi) as (d&Hd'&Hq). exists d.
  by replace (idx + 1 + Z.of_nat i)%Z with (idx + Z.of_nat (S i))%Z by lia.
Qed.

Lemma blob_new_exact : blob_new (rb_blob_id b) (rb_origin_name b) (rb_media_type b) bytes = Ok b.
Proof.
  pose proof Hv as Hv'. apply blob_validate_Ok in Hv' as (Hs&_&bytes'&Hb&_&Hd&_).
  rewrite (bp_bytes _ _ _ _ Hp) in Hb. injection Hb as <-. unfold blob_new.
  assert ({| rb_schema := REFERENCE_BLOB_SCHEMA; rb_blob_id := rb_blob_id b;
    rb_origin_name := rb_origin_name b; rb_media_type := rb_media_type b;
    rb_byte_length := Z.of_nat (length bytes); rb_sha256 := digest_text bytes;
    rb_bytes := base64_encode bytes |} = b) as ->; [|by rewrite Hv].
  rewrite <- Hs, (bp_length _ _ _ _ Hp), <- Hd, (bp_encoded _ _ _ _ Hp). by destruct b.
Qed.

Lemma chunk_same_blob c d : c ∈ chunks -> d ∈ chunks -> same_blob c d = true.
Proof.
  rewrite !elem_of_chunks. intros (i&p&Hi&->) (j&q&Hj&->). unfold same_blob. simpl.
  by rewrite !bool_decide_eq_true_2.
Qed.

Lemma reassemble_exact asm seen : seen ⊆ chunks -> holds asm seen -> chunks ⊆ seen ->
  reassemble asm count = Ok (BlobComplete b).
Proof.
  intros Hs Hh Hc. unfold reassemble. pose proof (first_chunk_spec asm) as Hf.
  pose proof (count_range _ _ _ _ Hp) as [Hr _].
  assert (forall i piece, pieces !! i = Some piece -> asm !! Z.of_nat i = Some (genuine i piece)) as Hat.
  { intros i piece Hi. apply Hh. split; [|done]. apply Hc, elem_of_chunks. eauto. }
  assert (gather asm (Z.to_nat count) 0 = Ok bytes) as Hg.
  { replace (Z.to_nat count) with (length pieces) by (rewrite <- (bp_number _ _ _ _ Hp); lia).
    rewrite gather_pieces.
    - f_equal. rewrite (bp_pieces _ _ _ _ Hp). apply chunks_of_concat; [done|]. done.
    - intros i piece Hi. exists (genuine i piece). split; [by apply Hat|]. by eapply genuine_chunk_valid. }
  destruct (first_chunk asm) as [f|].
  - destruct Hf as (i&(Hf%Hs&_)%Hh). apply elem_of_chunks in Hf as (j&p&_&->). simpl mbind. rewrite Hg. simpl mbind.
    rewrite blob_new_exact. simpl mbind.
    rewrite require_bind; [done|]. by rewrite andb_true_iff, !bool_decide_eq_true.
  - subst asm. pose proof (bp_number _ _ _ _ Hp) as Hn. destruct pieces as [|p ps] eqn:E; [simpl in Hn; lia|].
    by specialize (Hat 0 p eq_refl).
Qed.

Definition all_seen (seen : list ReferenceBlobChunk) : bool := bool_decide (Forall (λ c, c ∈ seen) chunks).

Lemma all_seen_spec seen : all_seen seen = true <-> chunks ⊆ seen.
Proof. unfold all_seen. rewrite bool_decide_eq_true, Forall_forall. done. Qed.

Definition expected_admission (seen : list ReferenceBlobChunk) (c : ReferenceBlobChunk) : ChunkAdmission :=
  if bool_decide (c ∈ seen) then ChunkDuplicate
  else if all_seen (c :: seen) then BlobComplete b else ChunkStored.

Lemma admit_genuine asm seen c : seen ⊆ chunks -> holds asm seen -> c ∈ chunks ->
  snd (admit_chunk asm c) = Ok (expected_admission seen c) /\
  holds (fst (admit_chunk asm c)) (c :: seen).
Proof.
  intros Hs Hh Hc. unfold admit_chunk, expected_admission.
  assert (chunk_validate c = Ok tt) as Hval.
  { apply elem_of_chunks in Hc as (i&p&Hi&->). by eapply genuine_chunk_valid. }
  rewrite Hval, bind_tt. pose proof (first_chunk_spec asm) as Hf.
  assert (match first_chunk asm with
          | Some first => require (same_blob c first) "reference chunks do not describe one exact blob"
          | None => Ok tt end = Ok tt) as ->.
  { destruct (first_chunk asm) as [f|]; [|done]. destruct Hf as (i&(Hf%Hs&_)%Hh).
    apply require_Ok. by apply chunk_same_blob. }
  assert (forall d, asm !! ch_chunk_index c = Some d <-> d = c /\ c ∈ seen) as Hlook.
  { intros d. rewrite (Hh (ch_chunk_index c) d). split.
    - intros [Hd Ei]. assert (d = c) as ->; [|done]. apply same_index; [by apply Hs|done..].
    - by intros [-> ?]. }
  destruct (asm !! ch_chunk_index c) as [d|] eqn:El.
  - destruct (proj1 (Hlook d) eq_refl) as [-> Hin]. rewrite (bool_decide_eq_true_2 (c = c)) by done.
    rewrite bool_decide_eq_true_2 by done. simpl. split; [done|]. intros i e. rewrite (Hh i e). set_solver.
  - assert (c ∉ seen) as Hnin.
    { intros Hin. by specialize (proj2 (Hlook c) ltac:(done)) as ?. }
    rewrite bool_decide_eq_false_2 by done.
    assert (holds (<[ch_chunk_index c:=c]> asm) (c :: seen)) as Hh'.
    { intros i e. rewrite lookup_insert_Some, (Hh i e), elem_of_cons. split.
      - intros [[<- <-]|[Hne [He <-]]]; auto.
      - intros [[->|He] <-]; [auto|]. right. split; [|done]. intros E. apply Hnin.
        assert (c = e) as ->; [|done]. apply same_index; [done|by apply Hs|done]. }
    assert (c :: seen ⊆ chunks) as Hs' by (intros e [->|He]%elem_of_cons; auto).
    assert (ch_chunk_count c = count) as ->.
    { by apply elem_of_chunks in Hc as (i&p&Hi&->). }
    pose proof (holds_complete _ _ Hs' Hh') as Hcomp. pose proof (all_seen_spec (c :: seen)) as Ha.
    destruct (Z.eqb_spec (Z.of_nat (size (<[ch_chunk_index c:=c]> asm))) count) as [E|E]; simpl.
    + rewrite (proj2 Ha) by (by apply Hcomp). split; [|done].
      apply reassemble_exact with (c :: seen); [done..|]. by apply Hcomp.
    + split; [|done]. destruct (all_seen (c :: seen)); [|done]. exfalso. by apply E, Hcomp, Ha.
Qed.

Lemma admit_all_holds seen : seen ⊆ chunks -> holds (admit_all seen) (reverse seen).
Proof.
  induction seen as [|c seen IH] using rev_ind; intros Hs.
  - intros i c. unfold admit_all. simpl. rewrite lookup_empty. set_solver.
  - unfold admit_all. rewrite foldl_app, reverse_app. simpl. apply admit_genuine.
    + intros x. rewrite elem_of_reverse. set_solver.
    + apply IH. set_solver.
    + set_solver.
Qed.
End genuine.

(** ** Arbitrary chunks *)

(** The assembler holds valid chunks of one blob, each at its position. *)
Record assembled (asm : Assembler) (arrived : list ReferenceBlobChunk) : Prop := {
  as_valid : forall i c, asm !! i = Some c ->
    chunk_validate c = Ok tt /\ ch_chunk_index c = i /\ c ∈ arrived;
  as_same : forall i j c d, asm !! i = Some c -> asm !! j = Some d -> same_blob c d = true }.

Lemma same_blob_fields c d : same_blob c d = true <->
  ch_blob_id c = ch_blob_id d /\ ch_origin_name c = ch_origin_name d /\
  ch_media_type c = ch_media_type d /\ ch_byte_length c = ch_byte_length d /\
  ch_sha256 c = ch_sha256 d /\ ch_chunk_count c = ch_chunk_count d.
Proof. unfold same_blob. rewrite !andb_true_iff, !bool_decide_eq_true. tauto. Qed.

Lemma admit_assembled asm arrived c : assembled asm arrived ->
  assembled (fst (admit_chunk asm c)) (c :: arrived).
Proof.
  intros [Hv Hs]. assert (assembled asm (c :: arrived)) as Hmono.
  { split; [|done]. intros i d Hd. destruct (Hv i d Hd) as (?&?&?). split_and!; set_solver. }
  unfold admit_chunk. destruct (_ ;; _) as [[]|e] eqn:Hok; [|done].
  apply bind_Ok in Hok as ([]&Hval&Hfirst).
  destruct (asm !! ch_chunk_index c) as [d|] eqn:El; [by destruct (_ == _)|].
  assert (forall i d, asm !! i = Some d -> same_blob c d = true) as Hcd.
  { intros i d Hd. pose proof (first_chunk_spec asm) as Hf. destruct (first_chunk asm) as [f|].
    - apply require_Ok in Hfirst. destruct Hf as (j&Hf). specialize (Hs _ _ _ _ Hf Hd).
      rewrite same_blob_fields in *. intuition congruence.
    - by rewrite Hf, lookup_empty in Hd. }
  assert (assembled (<[ch_chunk_index c:=c]> asm) (c :: arrived)) as Hins; [|by destruct (negb _)].
  split.
  - intros i d [[<- <-]|[_ Hd]]%lookup_insert_Some; [split_and!; set_solver|].
    destruct (Hv i d Hd) as (?&?&?). split_and!; set_solver.
  - intros i j d e [[<- <-]|[_ Hd]]%lookup_insert_Some [[<- <-]|[_ He]]%lookup_insert_Some.
    + by rewrite same_blob_fields.
    + by eapply Hcd.
    + specialize (Hcd _ _ Hd). rewrite same_blob_fields in *. intuition congruence.
    + by eapply Hs.
Qed.

Lemma admit_all_assembled arrived : assembled (admit_all arrived) (reverse arrived).
Proof.
  induction arrived as [|c arrived IH] using rev_ind.
  - split; intros *; unfold admit_all; simpl; by rewrite lookup_empty.
  - unfold admit_all. rewrite foldl_app, reverse_app. simpl. by apply admit_assembled.
Qed.

Lemma chunk_valid_length c : chunk_validate c = Ok tt -> exists bytes,
  chunk_decoded_bytes c = Ok bytes /\ Z.of_nat (length bytes) = expected_length c /\
  validate_reference_metadata (ch_blob_id c) (ch_origin_name c) (ch_media_type c)
    (ch_byte_length c) (ch_sha256 c) = Ok tt.
Proof.
  unfold chunk_validate. intros Hv. apply bind_Ok in Hv as ([]&_&Hv). apply bind_Ok in Hv as ([]&Hm&Hv).
  apply bind_Ok in Hv as ([]&_&Hv). apply bind_Ok in Hv as ([]&_&Hv). apply bind_Ok in Hv as (bs&Hb&Hv).
  apply bind_Ok in Hv as ([]&Hl%require_Ok%Z.eqb_eq&_). eauto.
Qed.

Lemma chunk_bytes_bounded c bytes : chunk_decoded_bytes c = Ok bytes -> bounded_bytes bytes.
Proof. intros (Hd&_&_)%decode_base64url_Ok. by eapply base64_bounded. Qed.

(** The bytes gathered have the chunks' bytes at their positions. *)
Definition position_piece (i : Z) (bytes : list Z) : list Z :=
  let k := Z.to_nat MAX_REFERENCE_CHUNK_BYTES in take k (drop (Z.to_nat i * k) bytes).

Lemma gather_positions asm n idx bytes :
  (forall i c, (idx <= i < idx + Z.of_nat n)%Z -> asm !! i = Some c -> exists piece,
     chunk_decoded_bytes c = Ok piece /\
     (Z.of_nat (length piece) <= MAX_REFERENCE_CHUNK_BYTES)%Z /\
     ((i + 1 < idx + Z.of_nat n)%Z -> Z.of_nat (length piece) = MAX_REFERENCE_CHUNK_BYTES)) ->
  gather asm n idx = Ok bytes ->
  bounded_bytes bytes /\
  forall i, (0 <= i < Z.of_nat n)%Z -> exists c,
    asm !! (idx + i)%Z = Some c /\ chunk_decoded_bytes c = Ok (position_piece i bytes).
Proof.
  revert idx bytes. induction n as [|n IH]; intros idx bytes Hc Hg.
  { injection Hg as <-. split; [constructor|]. lia. }
  simpl in Hg. apply bind_Ok in Hg as (c&Hl%ok_or_Ok&Hg). apply bind_Ok in Hg as (p&Hp&Hg).
  apply bind_Ok in Hg as (rest&Hr&[= <-]).
  destruct (Hc idx c ltac:(lia) Hl) as (p'&Hp'&Hle&Hfull). rewrite Hp in Hp'. injection Hp' as <-.
  destruct (IH (idx + 1)%Z rest) as [Hb Hi]; [|done|].
  { intros i d Hi Hd. destruct (Hc i d ltac:(lia) Hd) as (q&?&?&?). exists q. split_and!; try done. lia. }
  split; [apply Forall_app; split; [by eapply chunk_bytes_bounded|done]|].
  intros i Hlt. set (k := Z.to_nat MAX_REFERENCE_CHUNK_BYTES).
  assert (Z.of_nat k = MAX_REFERENCE_CHUNK_BYTES) as Hk by (unfold k, MAX_REFERENCE_CHUNK_BYTES; lia).
  assert (position_piece i (p ++ rest) = take k (drop (Z.to_nat i * k) (p ++ rest))) as -> by done.
  assert (position_piece (i - 1) rest = take k (drop (Z.to_nat (i - 1) * k) rest)) as Hpp by done.
  destruct (decide (i = 0%Z)) as [->|].
  - exists c. rewrite Z.add_0_r. split; [done|]. rewrite Hp. f_equal. simpl. rewrite drop_0.
    clearbody k. destruct n as [|n].
    + injection Hr as <-. rewrite app_nil_r, take_ge by lia. done.
    + rewrite take_app_le by lia. rewrite take_ge; [done|]. lia.
  - destruct (Hi (i - 1)%Z ltac:(lia)) as (d&Hd&Hq). exists d.
    replace (idx + 1 + (i - 1))%Z with (idx + i)%Z in Hd by lia. split; [done|]. rewrite Hq, Hpp.
    clearbody k. f_equal. f_equal. replace (Z.to_nat i) with (S (Z.to_nat (i - 1))) by lia.
    assert (length p = k) as <- by (specialize (Hfull ltac:(lia)); lia).
    simpl. by rewrite <- drop_drop, drop_app_length.
Qed.

Lemma expected_length_bound c : (0 <= ch_byte_length c)%Z -> (expected_length c <= MAX_REFERENCE_CHUNK_BYTES)%Z /\
  ((ch_chunk_index c + 1 < ch_chunk_count c)%Z -> expected_length c = MAX_REFERENCE_CHUNK_BYTES).
Proof.
  intros Hn. unfold expected_length.
  pose proof (Z.mod_pos_bound (ch_byte_length c) MAX_REFERENCE_CHUNK_BYTES
    ltac:(unfold MAX_REFERENCE_CHUNK_BYTES; lia)).
  destruct (Z.eqb_spec (ch_chunk_index c + 1) (ch_chunk_count c)); [|lia].
  destruct (Z.eqb_spec (ch_byte_length c mod MAX_REFERENCE_CHUNK_BYTES) 0); lia.
Qed.

(** The chunks of a valid reference blob reassemble it exactly, in whatever
    order and however often they arrive: a chunk seen before is a duplicate, the
    chunk that completes the set yields the original blob, and any other is
    stored. *)
Theorem chunks_reassemble b : blob_validate b = Ok tt ->
  exists chunks, blob_chunks b = Ok chunks /\
  forall arrived c, arrived ⊆ chunks -> c ∈ chunks ->
    snd (admit_chunk (admit_all arrived) c) =
      Ok (if bool_decide (c ∈ arrived) then ChunkDuplicate
          else if bool_decide (Forall (λ d, d ∈ c :: arrived) chunks) then BlobComplete b
          else ChunkStored).
Proof.
  intros Hv. destruct (blob_chunks_genuine b Hv) as (bytes&pieces&count&Hp&Hc).
  eexists. split; [exact Hc|]. intros arrived c Ha Hin.
  destruct (admit_genuine b Hv bytes pieces count Hp (admit_all arrived) (reverse arrived) c) as [-> _].
  - intros d. rewrite elem_of_reverse. apply Ha.
  - by eapply admit_all_holds.
  - done.
  - f_equal. unfold expected_admission, all_seen.
    rewrite (bool_decide_ext (c ∈ reverse arrived) (c ∈ arrived)) by apply elem_of_reverse.
    destruct (bool_decide (c ∈ arrived)); [done|].
    erewrite (bool_decide_ext (Forall _ _)); [done|].
    rewrite !Forall_forall. by setoid_rewrite elem_of_cons; setoid_rewrite elem_of_reverse.
Qed.

(** Whatever chunks arrive, a blob that completes is valid and is the one
    every position committed to: its descriptor is the descriptor of an arrived
    chunk at each position, and that chunk's bytes are its bytes there. *)
Theorem completed_blob_committed arrived c blob :
  snd (admit_chunk (admit_all arrived) c) = Ok (BlobComplete blob) ->
  blob_validate blob = Ok tt /\
  exists bytes, blob_decoded_bytes blob = Ok bytes /\
  forall i, (0 <= i < ch_chunk_count c)%Z -> exists d, d ∈ c :: arrived /\ ch_chunk_index d = i /\
    chunk_descriptor d = blob_descriptor blob /\ chunk_decoded_bytes d = Ok (position_piece i bytes).
Proof.
  intros Hc. pose proof (admit_assembled _ _ c (admit_all_assembled arrived)) as Hasm.
  revert Hc Hasm. unfold admit_chunk. destruct (_ ;; _) as [[]|e]; [|done].
  destruct (admit_all arrived !! ch_chunk_index c); [by destruct (_ == _)|].
  destruct (negb _); [done|]. simpl. set (asm := <[_:=c]> _). intros Hr Hasm.
  assert (asm !! ch_chunk_index c = Some c) as Hself by apply lookup_insert_eq.
  unfold reassemble in Hr. pose proof (first_chunk_spec asm) as Hf.
  destruct (first_chunk asm) as [f|]; [|done]. destruct Hf as (j&Hf). simpl mbind in Hr.
  apply bind_Ok in Hr as (bytes&Hg&Hr). apply bind_Ok in Hr as (blob'&Hnew&Hr).
  apply bind_Ok in Hr as ([]&Hcommit%require_Ok&Hr). injection Hr as ->.
  rewrite andb_true_iff, !bool_decide_eq_true in Hcommit. destruct Hcommit as [Hsha Hlen].
  unfold blob_new in Hnew. apply bind_Ok in Hnew as ([]&Hval&[= <-]).
  destruct (gather_positions asm (Z.to_nat (ch_chunk_count c)) 0 bytes) as [Hb Hpos]; [|done|].
  { intros i d Hi Hd. destruct (as_valid _ _ Hasm i d Hd) as (Hdv&<-&_).
    destruct (chunk_valid_length d Hdv) as (p&Hp&Hpl&Hm%metadata_length). exists p.
    destruct (expected_length_bound d) as [Hle Hfull]; [lia|].
    assert (ch_chunk_count d = ch_chunk_count c) as Hcc.
    { pose proof (as_same _ _ Hasm _ _ _ _ Hd Hself) as Hsb. apply same_blob_fields in Hsb. tauto. }
    rewrite Hpl. split_and!; [done|done|]. intros. apply Hfull. lia. }
  split; [done|]. exists bytes. split.
  { pose proof Hval as Hd. apply blob_validate_Ok in Hd as (_&_&bytes'&Hd&_).
    rewrite Hd. unfold blob_decoded_bytes in Hd. apply decode_base64url_Ok in Hd as (Hd&_). simpl in Hd.
    rewrite base64_roundtrip in Hd by done. by injection Hd as ->. }
  intros i Hi. destruct (Hpos i ltac:(lia)) as (d&Hd&Hp). exists d.
  destruct (as_valid _ _ Hasm _ _ Hd) as (Hdv&Hdi&Hda).
  split_and!; [set_solver|lia| |done].
  unfold chunk_descriptor, blob_descriptor. rewrite Hdv, Hval. simpl.
  pose proof (as_same _ _ Hasm _ _ _ _ Hd Hf) as Hsb. apply same_blob_fields in Hsb.
  simpl in Hsha, Hlen. destruct Hsb as (->&->&->&->&->&_). by rewrite Hsha, Hlen.
Qed.
End reference.
