(* ===== verification/CompanionPublication.v ===== *)
(** * Publication review messages

    [companion/src/publication.rs]: what the Mac asks a human to approve and what
    the Builder DeviceKey signs. Reading JSON text is third-party code, the
    parameter [JsonReader]. *)
From S2P Require Import Prelude Text Digest Clock CompanionModel CompanionCrypto.

Definition BUILDER_DEVICE_ANNOUNCEMENT_SCHEMA : string := "tohseno.builder-device-announcement/1".
Definition PUBLICATION_APPROVAL_REQUEST_SCHEMA : string := "tohseno.publication-approval-request/2".
Definition LEGACY_PUBLICATION_APPROVAL_REQUEST_SCHEMA : string :=
  "tohseno.publication-approval-request/1".
Definition PUBLICATION_SIGNATURE_SCHEMA : string := "tohseno.builder-device-signature/1".
Definition ACTIVE_CHAIN_ID : Z := 4663.
Definition ACTIVE_FACTORY : string := "0xb1bd208cd2af98e701f43d06aaa889d3a594df65".
Definition ACTIVE_REGISTRY : string := "0x3fe6508ba2660bc575080024f402c192a2e035a0".
Definition HALF_ORDER_TEXT : string :=
  "0x7fffffff800000007fffffffffffffffde737d56d38bcf4279dce5617e3192a8".

(** [serde_json::from_str::<Value>] *)
Class JsonReader := { parse_json : string -> Result string json }.

Definition strip_prefix (p s : list Z) : option (list Z) :=
  if starts_with p s then Some (drop (length p) s) else None.
(** [str::contains] *)
Fixpoint str_contains (p s : list Z) : bool :=
  starts_with p s || match s with [] => false | _ :: s => str_contains p s end.

Definition is_hex (value : string) : bool :=
  is_some_and (forallb is_lower_hex) (strip_prefix (bytes_of "0x") (bytes_of value)).
Definition hex32 (label value : string) : companion_result unit :=
  require ((len value =? 66)%nat && is_hex value) (label +:+ " must be lowercase 0x-prefixed bytes32").

(** ** Builder DeviceKeys *)

Record BuilderDeviceAnnouncement := {
  bd_schema : string;
  bd_key_id : string;
  bd_x : string;
  bd_y : string;
  bd_security_level : string;
  bd_test_only : bool }.
#[export] Instance BuilderDeviceAnnouncement_eq_dec : EqDecision BuilderDeviceAnnouncement.
Proof. solve_decision. Defined.
#[export] Instance BuilderDeviceAnnouncement_to_json : ToJson BuilderDeviceAnnouncement := λ d, JObj
  [("schema", to_json (bd_schema d)); ("key_id", to_json (bd_key_id d)); ("x", to_json (bd_x d));
   ("y", to_json (bd_y d)); ("security_level", to_json (bd_security_level d));
   ("test_only", to_json (bd_test_only d))].

Definition announcement_validate (d : BuilderDeviceAnnouncement) : companion_result unit :=
  require (bd_schema d == BUILDER_DEVICE_ANNOUNCEMENT_SCHEMA)
    "unsupported Builder DeviceKey announcement schema" ;;
  hex32 "Builder DeviceKey ID" (bd_key_id d) ;;
  hex32 "Builder DeviceKey x" (bd_x d) ;;
  hex32 "Builder DeviceKey y" (bd_y d) ;;
  require ((bd_security_level d == "secure_enclave") || (bd_security_level d == "software_test"))
    "Builder DeviceKey security level is invalid" ;;
  require (eqb (bd_test_only d) (bd_security_level d == "software_test"))
    "Builder DeviceKey test marker disagrees with its security level".

Record BuilderDeviceSignature := {
  bs_schema : string;
  bs_signer : BuilderDeviceAnnouncement;
  bs_algorithm : string;
  bs_digest : string;
  bs_r : string;
  bs_s : string;
  bs_low_s : bool }.
#[export] Instance BuilderDeviceSignature_eq_dec : EqDecision BuilderDeviceSignature.
Proof. solve_decision. Defined.
#[export] Instance BuilderDeviceSignature_to_json : ToJson BuilderDeviceSignature := λ s, JObj
  [("schema", to_json (bs_schema s)); ("signer", to_json (bs_signer s));
   ("algorithm", to_json (bs_algorithm s)); ("digest", to_json (bs_digest s));
   ("r", to_json (bs_r s)); ("s", to_json (bs_s s)); ("low_s", to_json (bs_low_s s))].

Definition device_signature_validate (s : BuilderDeviceSignature) : companion_result unit :=
  require (bs_schema s == PUBLICATION_SIGNATURE_SCHEMA)
    "unsupported Builder DeviceKey signature schema" ;;
  announcement_validate (bs_signer s) ;;
  require (bs_algorithm s == "p256") "publication signature must use P-256" ;;
  hex32 "publication signature digest" (bs_digest s) ;;
  hex32 "publication signature r" (bs_r s) ;;
  hex32 "publication signature s" (bs_s s) ;;
  require (bs_low_s s) "publication signature must be low-s" ;;
  require (bytes_leb (bytes_of (bs_s s)) (bytes_of HALF_ORDER_TEXT))
    "publication signature s is not low-s".

(** ** Claim Editions *)

Record ClaimEditionPolicySummary := {
  cp_kind : string;
  cp_max_claims : Z;
  cp_closes_at : Z }.
#[export] Instance ClaimEditionPolicySummary_eq_dec : EqDecision ClaimEditionPolicySummary.
Proof. solve_decision. Defined.
#[export] Instance ClaimEditionPolicySummary_to_json : ToJson ClaimEditionPolicySummary := λ p, JObj
  [("kind", to_json (cp_kind p)); ("max_claims", to_json (cp_max_claims p));
   ("closes_at", to_json (cp_closes_at p))].

Definition policy_validate (p : ClaimEditionPolicySummary) : companion_result unit :=
  require ((cp_max_claims p <=? COMPANION_MAX_SAFE_INTEGER)
           && (cp_closes_at p <=? COMPANION_MAX_SAFE_INTEGER))
    "Claim Edition bounds exceed the exact integer limit" ;;
  require ((cp_kind p == "open") && (cp_max_claims p =? 0)%Z && (cp_closes_at p =? 0)%Z
           || (cp_kind p == "limited") && (1 <=? cp_max_claims p) && (cp_closes_at p =? 0)%Z
           || (cp_kind p == "timed") && (cp_max_claims p =? 0)%Z && (1 <=? cp_closes_at p)
           || (cp_kind p == "limited_timed") && (1 <=? cp_max_claims p) && (1 <=? cp_closes_at p))
    "Claim Edition policy shape is invalid".

Record ClaimEditionApprovalContext := {
  cx_claims_contract : string;
  cx_claims_activation_signing_digest : string;
  cx_controller : string;
  cx_edition_nonce : Z;
  cx_action_deadline : Z;
  cx_requested_policy : option ClaimEditionPolicySummary }.

Record OpenClaimEditionApprovalAction := {
  oc_shot_registry : string;
  oc_shot_id : string;
  oc_max_claims : Z;
  oc_closes_at : Z;
  oc_controller : string;
  oc_nonce : Z;
  oc_deadline : Z }.
#[export] Instance OpenClaimEditionApprovalAction_eq_dec : EqDecision OpenClaimEditionApprovalAction.
Proof. solve_decision. Defined.
#[export] Instance OpenClaimEditionApprovalAction_to_json : ToJson OpenClaimEditionApprovalAction := λ a, JObj
  [("shot_registry", to_json (oc_shot_registry a)); ("shot_id", to_json (oc_shot_id a));
   ("max_claims", to_json (oc_max_claims a)); ("closes_at", to_json (oc_closes_at a));
   ("controller", to_json (oc_controller a)); ("nonce", to_json (oc_nonce a));
   ("deadline", to_json (oc_deadline a))].

Record ApprovedClaimEdition := {
  ac_policy : ClaimEditionPolicySummary;
  ac_action : OpenClaimEditionApprovalAction;
  ac_digest : string;
  ac_signature : BuilderDeviceSignature }.
#[export] Instance ApprovedClaimEdition_eq_dec : EqDecision ApprovedClaimEdition.
Proof. solve_decision. Defined.
#[export] Instance ApprovedClaimEdition_to_json : ToJson ApprovedClaimEdition := λ c, JObj
  [("policy", to_json (ac_policy c)); ("action", to_json (ac_action c));
   ("digest", to_json (ac_digest c)); ("signature", to_json (ac_signature c))].

Definition claim_validate (c : ApprovedClaimEdition) : companion_result unit :=
  policy_validate (ac_policy c) ;;
  hex32 "Claim Edition digest" (ac_digest c) ;;
  device_signature_validate (ac_signature c) ;;
  require ((bs_digest (ac_signature c) == ac_digest c)
           && (oc_shot_registry (ac_action c) == ACTIVE_REGISTRY)
           && (len (oc_shot_id (ac_action c)) =? 66)%nat
           && (len (oc_controller (ac_action c)) =? 42)%nat
           && (oc_max_claims (ac_action c) == cp_max_claims (ac_policy c))
           && (oc_closes_at (ac_action c) == cp_closes_at (ac_policy c))
           && (oc_nonce (ac_action c) <=? COMPANION_MAX_SAFE_INTEGER)
           && (0 <? oc_deadline (ac_action c))
           && (oc_deadline (ac_action c) <=? COMPANION_MAX_SAFE_INTEGER))
    "approved Claim Edition is invalid" ;;
  hex32 "Claim Edition ShotID" (oc_shot_id (ac_action c)).

(** ** Approval requests *)

Record PublicationApprovalRequest := {
  pr_schema : string;
  pr_job_id : string;
  pr_app_name : string;
  pr_source_file_count : Z;
  pr_source_byte_length : Z;
  pr_install_allowed : bool;
  pr_fork_allowed : bool;
  pr_requested_route : string;
  pr_chain_id : Z;
  pr_builder_account_factory : string;
  pr_shot_registry : string;
  pr_builder_id : string;
  pr_builder_device : BuilderDeviceAnnouncement;
  pr_shot_id : string;
  pr_checkpoint_sequence : Z;
  pr_action_nonce : Z;
  pr_action_deadline : Z;
  pr_catalog_release_json : string;
  pr_catalog_digest : string;
  pr_registry_action_json : string;
  pr_registry_digest : string;
  pr_issued_at : string;
  pr_expires_at : string;
  pr_publication_kind : option string;
  pr_claim_edition : option ClaimEditionApprovalContext }.

(** [self.builder_id.rsplit(':').next().unwrap_or_default()] *)
Definition last_segment (value : string) : list Z :=
  default [] (last (split_on 58%Z (bytes_of value))).

Definition context_validate (c : ClaimEditionApprovalContext) (request : PublicationApprovalRequest)
    : companion_result unit :=
  require ((len (cx_claims_contract c) =? 42)%nat
           && starts_with (bytes_of "0x") (bytes_of (cx_claims_contract c))
           && is_hex (cx_claims_contract c))
    "Claims contract address is invalid" ;;
  hex32 "Claims activation signing digest" (cx_claims_activation_signing_digest c) ;;
  require (bytes_of (cx_controller c) == last_segment (pr_builder_id request))
    "Claim Edition controller differs from the exact BuilderAccount" ;;
  require ((cx_edition_nonce c <=? COMPANION_MAX_SAFE_INTEGER)
           && (cx_action_deadline c == pr_action_deadline request))
    "Claim Edition nonce or deadline is invalid" ;;
  match cx_requested_policy c with Some policy => policy_validate policy | None => Ok tt end.

Section publication.
Context `{Platform} `{TimeFormat} `{JsonReader}.

Definition is_json_object (value : json) : bool := match value with JObj _ => true | _ => false end.

Definition canonical_json (label value : string) (maximum : Z) : companion_result unit :=
  require (negb (len value =? 0)%nat && (Z.of_nat (len value) <=? maximum)%Z)
    (label +:+ " exceeds its bound") ;;
  parsed ← map_err CCanonical (parse_json value);
  require (is_json_object parsed) (label +:+ " must be a JSON object") ;;
  encoded ← (validate_safe_numbers parsed ;; map_err CCanonical (jcs_to_vec parsed));
  require (encoded == bytes_of value) (label +:+ " is not canonical JSON").

(** [Duration::whole_hours] *)
Definition whole_hours (nanoseconds : Z) : Z := Z.quot (whole_seconds nanoseconds) 3600.

(** The last tests of [PublicationApprovalRequest::validate], after the lifetime. *)
Definition publication_kind_agrees (r : PublicationApprovalRequest) (legacy : bool)
    : companion_result unit :=
  if legacy then
    require (opt_is_none (pr_publication_kind r) && opt_is_none (pr_claim_edition r))
      "legacy publication approval cannot carry Claims fields"
  else
    let invalid_kind := Err (CInvalid
      "publication kind and immutable Claim Edition context disagree") in
    match pr_publication_kind r, pr_claim_edition r with
    | Some kind, Some context =>
        if (kind == "ship") && (pr_checkpoint_sequence r =? 1)%Z then context_validate context r
        else invalid_kind
    | Some kind, None =>
        if (kind == "update") && (2 <=? pr_checkpoint_sequence r) then Ok tt else invalid_kind
    | None, _ => invalid_kind
    end.

Definition approval_request_validate (r : PublicationApprovalRequest) : companion_result unit :=
  let legacy := pr_schema r == LEGACY_PUBLICATION_APPROVAL_REQUEST_SCHEMA in
  require (legacy || (pr_schema r == PUBLICATION_APPROVAL_REQUEST_SCHEMA))
    "unsupported publication approval request schema" ;;
  companion_identifier "publication job ID" (pr_job_id r) ;;
  companion_text "publication app name" (pr_app_name r) 160 ;;
  require ((0 <? pr_source_file_count r) && (pr_source_file_count r <=? 100000))
    "publication source file count is invalid" ;;
  require ((0 <? pr_source_byte_length r) && (pr_source_byte_length r <=? 2147483648))
    "publication source size is invalid" ;;
  require (pr_install_allowed r) "publication must permit installation" ;;
  require (negb (len (pr_requested_route r) =? 0)%nat && (len (pr_requested_route r) <=? 160)%nat
           && starts_with (bytes_of "/") (bytes_of (pr_requested_route r))
           && negb (str_contains (bytes_of "..") (bytes_of (pr_requested_route r)))
           && negb (existsb is_control (chars (bytes_of (pr_requested_route r)))))
    "requested publication route is invalid" ;;
  require ((pr_chain_id r == ACTIVE_CHAIN_ID) && (pr_builder_account_factory r == ACTIVE_FACTORY)
           && (pr_shot_registry r == ACTIVE_REGISTRY))
    "publication request does not use the active contract generation" ;;
  require (is_some_and (λ address, (length address =? 42)%nat && is_hex (string_of address))
             (strip_prefix (bytes_of "eip155:4663:") (bytes_of (pr_builder_id r))))
    "publication BuilderID is invalid" ;;
  announcement_validate (pr_builder_device r) ;;
  hex32 "publication ShotID" (pr_shot_id r) ;;
  require ((0 <? pr_checkpoint_sequence r) && (pr_checkpoint_sequence r <=? COMPANION_MAX_SAFE_INTEGER))
    "publication checkpoint sequence is invalid" ;;
  require (pr_action_nonce r <=? COMPANION_MAX_SAFE_INTEGER) "publication action nonce is invalid" ;;
  hex32 "catalog digest" (pr_catalog_digest r) ;;
  hex32 "Registry digest" (pr_registry_digest r) ;;
  canonical_json "catalog release" (pr_catalog_release_json r) 524288 ;;
  canonical_json "Registry action" (pr_registry_action_json r) 65536 ;;
  issued ← companion_timestamp (pr_issued_at r);
  expires ← companion_timestamp (pr_expires_at r);
  require ((instant issued <? instant expires)
           && (whole_hours (instant expires - instant issued) <=? 24))
    "publication approval lifetime is invalid" ;;
  require (pr_action_deadline r == odt_unix_timestamp expires mod (U64_MAX + 1))%Z
    "Registry action deadline differs from approval expiry" ;;
  publication_kind_agrees r legacy.
End publication.
