(* ===== verification/CompanionUpdates.v ===== *)
(** * Private projections

    The private parts of [companion/src/event.rs] that commands and events share:
    Updates with identities derived from their evidence, Builder follows and the
    product entitlement as the phone sees it. *)
From S2P Require Import Prelude Text Digest Clock CompanionModel CompanionCrypto CompanionPublication Entitlement.

Definition PRODUCT_ENTITLEMENT_SCHEMA : string := "tohseno.private-product-entitlement/1".
Definition BUILDER_FOLLOWS_SCHEMA : string := "tohseno.private-builder-follows/1".
Definition PRIVATE_UPDATE_ITEM_SCHEMA : string := "tohseno.private-update/1".
Definition PRIVATE_UPDATES_SCHEMA : string := "tohseno.private-updates/1".

Inductive PrivateUpdateKind : Type :=
  | Claimed
  | ClaimedAppUpdated
  | PreparationReady
  | ForkShipped
  | EditionClosed
  | AliasApproved
  | PublicationApproval
  | EvolutionFinished
  | GithubAppUpdated
  | GithubPreparation.
#[export] Instance PrivateUpdateKind_eq_dec : EqDecision PrivateUpdateKind.
Proof. solve_decision. Defined.

Definition update_wire_name (k : PrivateUpdateKind) : string :=
  match k with
  | Claimed => "claimed"
  | ClaimedAppUpdated => "claimed_app_updated"
  | PreparationReady => "preparation_ready"
  | ForkShipped => "fork_shipped"
  | EditionClosed => "edition_closed"
  | AliasApproved => "alias_approved"
  | PublicationApproval => "publication_approval"
  | EvolutionFinished => "evolution_finished"
  | GithubAppUpdated => "github_app_updated"
  | GithubPreparation => "github_preparation"
  end.
#[export] Instance PrivateUpdateKind_to_json : ToJson PrivateUpdateKind := λ k, JStr (update_wire_name k).

Record PrivateUpdateItem := {
  pu_schema : string;
  pu_update_id : string;
  pu_kind : PrivateUpdateKind;
  pu_subject_id : string;
  pu_evidence_id : string;
  pu_title : string;
  pu_detail : string;
  pu_occurred_at : string;
  pu_read_at : option string }.
#[export] Instance PrivateUpdateItem_eq_dec : EqDecision PrivateUpdateItem.
Proof. solve_decision. Defined.
#[export] Instance PrivateUpdateItem_to_json : ToJson PrivateUpdateItem := λ u, JObj
  ([("schema", to_json (pu_schema u)); ("update_id", to_json (pu_update_id u));
    ("kind", to_json (pu_kind u)); ("subject_id", to_json (pu_subject_id u));
    ("evidence_id", to_json (pu_evidence_id u)); ("title", to_json (pu_title u));
    ("detail", to_json (pu_detail u)); ("occurred_at", to_json (pu_occurred_at u))]
   ++ optional_member "read_at" (pu_read_at u)).

Record PrivateUpdateProjection := {
  pp_schema : string;
  pp_items : list PrivateUpdateItem;
  pp_updated_at : string }.

Record BuilderFollowProjection := {
  bf_schema : string;
  bf_builder_ids : list string;
  bf_updated_at : string }.

Record ProductEntitlementProjection := {
  pe_schema : string;
  pe_phase : string;
  pe_successful_days : Z;
  pe_required_successful_days : Z;
  pe_factory_mutations_allowed : bool;
  pe_purchase_allowed : bool }.

(** [slice.windows(2).all(...)] *)
Fixpoint windows_all {A} (r : A -> A -> bool) (l : list A) : bool :=
  match l with
  | a :: rest => match rest with b :: _ => r a b && windows_all r rest | [] => true end
  | [] => true
  end.

(** [<] on strings *)
Definition str_ltb (a b : string) : bool := negb (bytes_leb (bytes_of b) (bytes_of a)).

Definition optional (validate : string -> companion_result unit) (value : option string)
    : companion_result unit :=
  match value with Some value => validate value | None => Ok tt end.

(** [valid_builder_id] of command.rs, which the follow projection repeats. *)
Definition valid_builder_id (value : string) : bool :=
  (len value =? 54)%nat && starts_with (bytes_of "eip155:4663:0x") (bytes_of value)
  && forallb is_lower_hex (drop 14 (bytes_of value))
  && existsb (λ b, negb (b =? 48)%Z) (drop 14 (bytes_of value)).

Definition one_of (values : list string) (value : string) : bool := existsb (λ v, v == value) values.

Section updates.
Context `{Platform} `{TimeFormat} `{CompanionCrypto}.

(** [parse_timestamp(value).map(|_| ())] *)
Definition timestamp_ok (value : string) : companion_result unit := companion_timestamp value ;; Ok tt.

Definition update_material (kind : PrivateUpdateKind) (subject_id evidence_id : string) : list Z :=
  bytes_of "TOHSENO-PRIVATE-UPDATE-V1" ++ 0%Z :: bytes_of (update_wire_name kind)
    ++ 0%Z :: bytes_of subject_id ++ 0%Z :: bytes_of evidence_id.
Definition stable_id (kind : PrivateUpdateKind) (subject_id evidence_id : string) : string :=
  "update_" +:+ base64_encode (as_bytes (sha256 (update_material kind subject_id evidence_id))).

Definition update_validate (u : PrivateUpdateItem) : companion_result unit :=
  require (pu_schema u == PRIVATE_UPDATE_ITEM_SCHEMA) "unsupported private Update schema" ;;
  companion_identifier "private Update ID" (pu_update_id u) ;;
  companion_text "private Update subject" (pu_subject_id u) 256 ;;
  companion_text "private Update evidence" (pu_evidence_id u) 256 ;;
  companion_text "private Update title" (pu_title u) 160 ;;
  companion_text "private Update detail" (pu_detail u) 512 ;;
  timestamp_ok (pu_occurred_at u) ;;
  optional timestamp_ok (pu_read_at u) ;;
  require (pu_update_id u == stable_id (pu_kind u) (pu_subject_id u) (pu_evidence_id u))
    "private Update ID does not match its stable evidence".

(** Latest first, then by identity. *)
Definition update_before (a b : PrivateUpdateItem) : bool :=
  str_ltb (pu_occurred_at b) (pu_occurred_at a)
  || (pu_occurred_at a == pu_occurred_at b) && str_ltb (pu_update_id a) (pu_update_id b).

Definition updates_validate (p : PrivateUpdateProjection) : companion_result unit :=
  require (pp_schema p == PRIVATE_UPDATES_SCHEMA) "unsupported private Updates schema" ;;
  require (Z.of_nat (length (pp_items p)) <=? 1000) "private Updates exceed their bound" ;;
  for_each update_validate (pp_items p) ;;
  require (windows_all update_before (pp_items p)) "private Updates must be unique and ordered" ;;
  timestamp_ok (pp_updated_at p).

Definition follows_validate (p : BuilderFollowProjection) : companion_result unit :=
  require (bf_schema p == BUILDER_FOLLOWS_SCHEMA) "unsupported private Builder follow schema" ;;
  require ((Z.of_nat (length (bf_builder_ids p)) <=? 10000) && windows_all str_ltb (bf_builder_ids p))
    "private Builder follows must be bounded, unique, and sorted" ;;
  for_each (λ builder_id, require (valid_builder_id builder_id)
    "private Builder follow contains an invalid BuilderID") (bf_builder_ids p) ;;
  timestamp_ok (bf_updated_at p).

Definition entitlement_projection_validate (p : ProductEntitlementProjection) : companion_result unit :=
  require (pe_schema p == PRODUCT_ENTITLEMENT_SCHEMA) "unsupported private product entitlement schema" ;;
  require (one_of ["genesis_incomplete"; "trial_active"; "trial_qualified"; "trial_expired";
                   "pro_monthly"; "pro_yearly"; "pro_lapsed"] (pe_phase p))
    "private product entitlement phase is invalid" ;;
  require ((pe_successful_days p <=? pe_required_successful_days p)
           && (pe_required_successful_days p =? 5)%Z)
    "private product successful-day count is invalid" ;;
  require (eqb (pe_factory_mutations_allowed p)
             (one_of ["trial_active"; "pro_monthly"; "pro_yearly"] (pe_phase p)))
    "private product mutation projection differs from phase" ;;
  require (eqb (pe_purchase_allowed p) (one_of ["trial_qualified"; "pro_lapsed"] (pe_phase p)))
    "private product purchase projection differs from phase".
End updates.

(** [u8::try_from(usize)] *)
Definition u8_try_from (n : nat) : option Z :=
  if (Z.of_nat n <=? 255)%Z then Some (Z.of_nat n) else None.

(** The projection [publish_product_entitlement] of cli/src/companion_service.rs
    sends of the application's entitlement status. *)
Definition product_entitlement (status : EntitlementStatus) : option ProductEntitlementProjection :=
  days ← u8_try_from (es_successful_days status);
  required ← u8_try_from (es_required_successful_days status);
  Some {| pe_schema := PRODUCT_ENTITLEMENT_SCHEMA; pe_phase := phase_name (es_phase status);
          pe_successful_days := days; pe_required_successful_days := required;
          pe_factory_mutations_allowed := es_factory_mutations_allowed status;
          pe_purchase_allowed := es_purchase_allowed status |}.
