(* ===== verification/CompanionCommand.v ===== *)
(** * Signed commands

    [companion/src/command.rs]: the phone's commands with their bounds, their
    signature, marketing notes and receipts. *)
From S2P Require Import Prelude Text Digest Clock CompanionModel CompanionCrypto CompanionReference CompanionPublication CompanionUpdates.

Definition COMPANION_COMMAND_SCHEMA : string := "tohseno.companion-command/1".
Definition COMMAND_SIGNATURE_DOMAIN : string := "tohseno.companion.command-signature.v1".
Definition MAX_COMMAND_AGE_SECONDS : Z := 2592000.
Definition MAX_REFERENCES : nat := 8.
Definition MARKETING_NOTE_SCHEMA : string := "tohseno.marketing-note/1".
Definition COMMAND_RECEIPT_SCHEMA : string := "tohseno.companion-command-receipt/1".

(** In the order [derive(Ord)] gives them. *)
Inductive CapabilityAction : Type :=
  | WorkspaceRead
  | ExecutionRead
  | FeedbackWrite
  | MarketingWrite
  | ShotCreateAction
  | ShotEvolve
  | PublicationAuthorize
  | NetworkReceive
  | PreferenceWrite.
#[export] Instance CapabilityAction_eq_dec : EqDecision CapabilityAction.
Proof. solve_decision. Defined.
Definition capability_action_name (a : CapabilityAction) : string :=
  match a with
  | WorkspaceRead => "workspace.read" | ExecutionRead => "execution.read"
  | FeedbackWrite => "feedback.write" | MarketingWrite => "marketing.write"
  | ShotCreateAction => "shot.create" | ShotEvolve => "shot.evolve"
  | PublicationAuthorize => "publication.authorize" | NetworkReceive => "network.receive"
  | PreferenceWrite => "preference.write"
  end.
#[export] Instance CapabilityAction_to_json : ToJson CapabilityAction :=
  λ a, JStr (capability_action_name a).
Definition capability_action_rank (a : CapabilityAction) : Z :=
  match a with
  | WorkspaceRead => 0 | ExecutionRead => 1 | FeedbackWrite => 2 | MarketingWrite => 3
  | ShotCreateAction => 4 | ShotEvolve => 5 | PublicationAuthorize => 6 | NetworkReceive => 7
  | PreferenceWrite => 8
  end.

Inductive NetworkReleaseAction : Type := Install | Fork.
#[export] Instance NetworkReleaseAction_eq_dec : EqDecision NetworkReleaseAction.
Proof. solve_decision. Defined.
#[export] Instance NetworkReleaseAction_to_json : ToJson NetworkReleaseAction :=
  λ a, JStr (match a with Install => "install" | Fork => "fork" end).

Inductive CommandPayload : Type :=
  | WorkspaceSnapshotRequest
  | FeedbackSubmit (shot_id expression_id version_id : string) (version_ordinal : Z) (body : string)
  | MarketingSubmit (note_id shot_id body : string)
  | ShotEvolveRequest (shot_id base_expression_id base_version_id : string)
      (base_version_ordinal : Z) (intention : string)
      (selected_feedback_action_commitments : list string) (references : list ReferenceDescriptor)
  | ProjectEvolveRequest (project_id base_source_state intention : string)
      (references : list ReferenceDescriptor) (follow_up_to : option string)
  | ShotCreateRequest (suggested_name : option string) (intention : string)
      (references : list ReferenceDescriptor)
  | BuilderIdentityAnnounce (builder_device : BuilderDeviceAnnouncement)
  | PublicationApprove (job_id : string) (catalog registry : BuilderDeviceSignature)
      (claim_edition : option ApprovedClaimEdition) (approved_at : string)
  | NetworkReleaseRequest (action : NetworkReleaseAction) (shot_id release_digest : string)
  | GitHubAppInstall (slug : string) (repository_id : Z) (commit : string)
  | BuilderFollowSet (builder_id : string) (followed : bool)
  | PrivateUpdateUpsert (update : PrivateUpdateItem)
  | PrivateUpdateReadSet (update_id : string) (read : bool).
#[export] Instance CommandPayload_eq_dec : EqDecision CommandPayload.
Proof. solve_decision. Defined.

(** [#[serde(tag = "command_kind")]]: the kind is the first member. *)
Definition tagged (kind : string) (members : list (string * json)) : json :=
  JObj (("command_kind", JStr kind) :: members).
#[export] Instance CommandPayload_to_json : ToJson CommandPayload := λ p,
  match p with
  | WorkspaceSnapshotRequest => tagged "workspace.snapshot.request" []
  | FeedbackSubmit shot expression version ordinal body => tagged "feedback.submit"
      [("shot_id", to_json shot); ("expression_id", to_json expression);
       ("version_id", to_json version); ("version_ordinal", to_json ordinal);
       ("body", to_json body)]
  | MarketingSubmit note shot body => tagged "marketing.submit"
      [("note_id", to_json note); ("shot_id", to_json shot); ("body", to_json body)]
  | ShotEvolveRequest shot expression version ordinal intention commitments references =>
      tagged "shot.evolve.request"
      [("shot_id", to_json shot); ("base_expression_id", to_json expression);
       ("base_version_id", to_json version); ("base_version_ordinal", to_json ordinal);
       ("intention", to_json intention);
       ("selected_feedback_action_commitments", to_json commitments);
       ("references", to_json references)]
  | ProjectEvolveRequest project state intention references follow_up =>
      tagged "project.evolve.request"
      ([("project_id", to_json project); ("base_source_state", to_json state);
        ("intention", to_json intention); ("references", to_json references)]
       ++ optional_member "follow_up_to" follow_up)
  | ShotCreateRequest name intention references => tagged "shot.create.request"
      (optional_member "suggested_name" name
       ++ [("intention", to_json intention); ("references", to_json references)])
  | BuilderIdentityAnnounce device => tagged "builder.identity.announce"
      [("builder_device", to_json device)]
  | PublicationApprove job catalog registry claim approved_at => tagged "publication.approve"
      ([("job_id", to_json job); ("catalog", to_json catalog); ("registry", to_json registry)]
       ++ optional_member "claim_edition" claim ++ [("approved_at", to_json approved_at)])
  | NetworkReleaseRequest action shot digest => tagged "network.release.request"
      [("action", to_json action); ("shot_id", to_json shot); ("release_digest", to_json digest)]
  | GitHubAppInstall slug repository commit => tagged "github.app.install"
      [("slug", to_json slug); ("repository_id", to_json repository); ("commit", to_json commit)]
  | BuilderFollowSet builder followed => tagged "builder.follow.set"
      [("builder_id", to_json builder); ("followed", to_json followed)]
  | PrivateUpdateUpsert update => tagged "private.update.upsert" [("update", to_json update)]
  | PrivateUpdateReadSet update read => tagged "private.update.read.set"
      [("update_id", to_json update); ("read", to_json read)]
  end.

Definition required_capability (p : CommandPayload) : CapabilityAction :=
  match p with
  | WorkspaceSnapshotRequest => WorkspaceRead
  | FeedbackSubmit _ _ _ _ _ => FeedbackWrite
  | MarketingSubmit _ _ _ => MarketingWrite
  | ShotEvolveRequest _ _ _ _ _ _ _ => ShotEvolve
  | ProjectEvolveRequest _ _ _ _ _ => ShotEvolve
  | ShotCreateRequest _ _ _ => ShotCreateAction
  | BuilderIdentityAnnounce _ | PublicationApprove _ _ _ _ _ => PublicationAuthorize
  | NetworkReleaseRequest _ _ _ | GitHubAppInstall _ _ _ => NetworkReceive
  | BuilderFollowSet _ _ => PreferenceWrite
  | PrivateUpdateUpsert _ | PrivateUpdateReadSet _ _ => PreferenceWrite
  end.

Record CommandBody := {
  cb_schema : string;
  cb_command_id : string;
  cb_workspace_id : string;
  cb_capability_id : string;
  cb_author_device_id : string;
  cb_created_at : string;
  cb_payload : CommandPayload }.
#[export] Instance CommandBody_to_json : ToJson CommandBody := λ b, JObj
  [("schema", to_json (cb_schema b)); ("command_id", to_json (cb_command_id b));
   ("workspace_id", to_json (cb_workspace_id b)); ("capability_id", to_json (cb_capability_id b));
   ("author_device_id", to_json (cb_author_device_id b)); ("created_at", to_json (cb_created_at b));
   ("payload", to_json (cb_payload b))].

Record CompanionCommand := { cc_body : CommandBody; cc_signature : string }.

Record MarketingNoteRecord := {
  mn_schema : string;
  mn_note_id : string;
  mn_command_id : string;
  mn_shot_id : string;
  mn_body : string;
  mn_created_at : string;
  mn_author_device_id : string;
  mn_companion_command_digest : string;
  mn_companion_signature : string }.

Inductive ReceiptState : Type :=
  | ReceiptReceived | ReceiptAccepted | ReceiptCompleted | ReceiptRejected | ReceiptFailed.
#[export] Instance ReceiptState_eq_dec : EqDecision ReceiptState.
Proof. solve_decision. Defined.

Record CommandReceipt := {
  rc_schema : string;
  rc_command_id : string;
  rc_state : ReceiptState;
  rc_shot_id : option string;
  rc_execution_id : option string;
  rc_result_id : option string;
  rc_rejection_code : option string }.

(** [validate_protocol_hex32]: lowercase, prefixed, not zero. *)
Definition validate_protocol_hex32 (label value : string) : companion_result unit :=
  require ((len value =? 66)%nat && starts_with (bytes_of "0x") (bytes_of value)
           && forallb is_lower_hex (drop 2 (bytes_of value))
           && existsb (λ b, negb (b =? 48)%Z) (drop 2 (bytes_of value)))
    (label +:+ " must be 32 lowercase nonzero hex bytes").

(** The test of [GitHubAppInstall]. *)
Definition github_install_ok (slug : string) (repository_id : Z) (commit : string) : bool :=
  ((2 <=? len slug)%nat && (len slug <=? 64)%nat)
  && negb (starts_with (bytes_of "-") (bytes_of slug))
  && negb (starts_with (bytes_of "-") (rev (bytes_of slug)))
  && negb (str_contains (bytes_of "--") (bytes_of slug))
  && forallb (λ b, is_ascii_lowercase b || is_ascii_digit b || (b =? 45)%Z) (bytes_of slug)
  && (0 <? repository_id) && (repository_id <=? COMPANION_MAX_SAFE_INTEGER)
  && (len commit =? 40)%nat && forallb is_lower_hex (bytes_of commit).

Section command.
Context `{Platform} `{TimeFormat} `{CompanionCrypto}.

(** [ReferenceDescriptor::validate] *)
Definition reference_descriptor_validate (d : ReferenceDescriptor) : companion_result unit :=
  companion_identifier "reference blob ID" (rd_blob_id d) ;;
  companion_text "reference origin name" (rd_origin_name d) 512 ;;
  require (negb (existsb (λ b, b =? 47)%Z (bytes_of (rd_origin_name d)))
           && negb (existsb (λ b, b =? 92)%Z (bytes_of (rd_origin_name d))))
    "reference origin name must not contain a path" ;;
  require ((rd_media_type d == "image/png") || (rd_media_type d == "image/jpeg"))
    "reference media type must be image/png or image/jpeg" ;;
  require ((1 <=? rd_byte_length d) && (rd_byte_length d <=? MAX_REFERENCE_BLOB_BYTES))
    "reference byte length is invalid" ;;
  decode_array 32 "reference SHA-256" (rd_sha256 d) ;;
  Ok tt.

(** Sorting and deduplicating the blob IDs keeps their number exactly when no two are
    equal. *)
Definition validate_references (references : list ReferenceDescriptor) : companion_result unit :=
  require (length references <=? MAX_REFERENCES)%nat
    "a companion command may contain at most eight references" ;;
  for_each reference_descriptor_validate references ;;
  require (bool_decide (NoDup (rd_blob_id <$> references))) "reference blob IDs must be unique".

(** [PublicationApprove]'s validation. *)
Definition publication_approve_validate (job_id : string) (catalog registry : BuilderDeviceSignature)
    (claim_edition : option ApprovedClaimEdition) (approved_at : string) : companion_result unit :=
  companion_identifier "publication job ID" job_id ;;
  device_signature_validate catalog ;;
  device_signature_validate registry ;;
  require (bs_signer catalog == bs_signer registry)
    "publication signatures must use one Builder DeviceKey" ;;
  match claim_edition with
  | Some claim =>
      claim_validate claim ;;
      require (bs_signer (ac_signature claim) == bs_signer catalog)
        "Claim Edition and publication signatures must use one Builder DeviceKey"
  | None => Ok tt
  end ;;
  timestamp_ok approved_at.

Definition command_payload_validate (p : CommandPayload) : companion_result unit :=
  match p with
  | WorkspaceSnapshotRequest => Ok tt
  | FeedbackSubmit shot_id expression_id version_id version_ordinal body =>
      companion_identifier "feedback Shot ID" shot_id ;;
      companion_identifier "feedback Expression ID" expression_id ;;
      companion_identifier "feedback Version ID" version_id ;;
      require (0 <? version_ordinal) "feedback Version ordinal must be positive" ;;
      companion_text "feedback body" body 262144
  | MarketingSubmit note_id shot_id body =>
      companion_identifier "marketing note ID" note_id ;;
      companion_identifier "marketing Shot ID" shot_id ;;
      companion_text "marketing-note body" body 262144
  | ShotEvolveRequest shot_id base_expression_id base_version_id base_version_ordinal intention
      commitments references =>
      companion_identifier "evolution Shot ID" shot_id ;;
      companion_identifier "base Expression ID" base_expression_id ;;
      companion_identifier "base Version ID" base_version_id ;;
      require (0 <? base_version_ordinal) "base Version ordinal must be positive" ;;
      companion_text "evolution intention" intention MAX_TEXT_BYTES ;;
      require (length commitments <=? 256)%nat "too many selected feedback actions" ;;
      for_each (λ commitment, decode_array 32 "feedback action commitment" commitment ;; Ok tt)
        commitments ;;
      validate_references references
  | ProjectEvolveRequest project_id base_source_state intention references follow_up_to =>
      companion_identifier "project ID" project_id ;;
      companion_identifier "project source state" base_source_state ;;
      companion_text "project evolution intention" intention MAX_TEXT_BYTES ;;
      optional (companion_identifier "follow-up evolution ID") follow_up_to ;;
      validate_references references
  | ShotCreateRequest suggested_name intention references =>
      optional (λ name, companion_text "suggested Shot name" name 256) suggested_name ;;
      companion_text "creation intention" intention MAX_TEXT_BYTES ;;
      validate_references references
  | BuilderIdentityAnnounce builder_device => announcement_validate builder_device
  | PublicationApprove job_id catalog registry claim_edition approved_at =>
      publication_approve_validate job_id catalog registry claim_edition approved_at
  | NetworkReleaseRequest _ shot_id release_digest =>
      validate_protocol_hex32 "network ShotID" shot_id ;;
      validate_protocol_hex32 "network release digest" release_digest
  | BuilderFollowSet builder_id _ =>
      require (valid_builder_id builder_id) "Builder follow requires one exact BuilderID"
  | GitHubAppInstall slug repository_id commit =>
      require (github_install_ok slug repository_id commit)
        "GitHub installation requires an exact repository and commit"
  | PrivateUpdateUpsert update => update_validate update
  | PrivateUpdateReadSet update_id _ => companion_identifier "private Update ID" update_id
  end.

Definition body_validate (b : CommandBody) : companion_result unit :=
  require (cb_schema b == COMPANION_COMMAND_SCHEMA) "unsupported companion command schema" ;;
  companion_identifier "command ID" (cb_command_id b) ;;
  companion_identifier "workspace ID" (cb_workspace_id b) ;;
  companion_identifier "capability ID" (cb_capability_id b) ;;
  companion_identifier "author device ID" (cb_author_device_id b) ;;
  companion_timestamp (cb_created_at b) ;;
  command_payload_validate (cb_payload b).

(** [CompanionCommand::sign], which fills in the schema and the author. *)
Definition sign_command (i : Identity) (b : CommandBody) : companion_result CompanionCommand :=
  let body := {| cb_schema := COMPANION_COMMAND_SCHEMA; cb_command_id := cb_command_id b;
    cb_workspace_id := cb_workspace_id b; cb_capability_id := cb_capability_id b;
    cb_author_device_id := id_device_id i; cb_created_at := cb_created_at b;
    cb_payload := cb_payload b |} in
  body_validate body ;;
  bytes ← companion_to_vec body;
  Ok {| cc_body := body;
        cc_signature := base64_encode (as_bytes (identity_sign i COMMAND_SIGNATURE_DOMAIN bytes)) |}.

(** [CompanionCommand::verify] *)
Definition command_verify (c : CompanionCommand) (expected_signing_public_key : Bytes32)
    (expected_device_id : string) (now : OffsetDateTime) : companion_result unit :=
  body_validate (cc_body c) ;;
  require (cb_author_device_id (cc_body c) == expected_device_id)
    "command author is not the expected paired device" ;;
  created_at ← companion_timestamp (cb_created_at (cc_body c));
  require (instant created_at - seconds MAX_CLOCK_SKEW_SECONDS <=? instant now)%Z
    "command was created too far in the future" ;;
  require (instant now <=? instant created_at + seconds MAX_COMMAND_AGE_SECONDS)%Z
    "command is older than the offline-admission limit" ;;
  signature ← decode_array 64 "companion command signature" (cc_signature c);
  bytes ← companion_to_vec (cc_body c);
  identity_verify expected_signing_public_key COMMAND_SIGNATURE_DOMAIN bytes signature.

Definition command_payload_digest (c : CompanionCommand) : companion_result Bytes32 :=
  bytes ← companion_to_vec (cc_body c);
  Ok (sha256 bytes).

(** ** Marketing notes and receipts *)

Definition marketing_note_validate (n : MarketingNoteRecord) : companion_result unit :=
  require (mn_schema n == MARKETING_NOTE_SCHEMA) "unsupported private marketing-note schema" ;;
  companion_identifier "marketing note ID" (mn_note_id n) ;;
  companion_identifier "marketing command ID" (mn_command_id n) ;;
  companion_identifier "marketing Shot ID" (mn_shot_id n) ;;
  companion_text "marketing-note body" (mn_body n) 262144 ;;
  companion_timestamp (mn_created_at n) ;;
  companion_identifier "marketing author device ID" (mn_author_device_id n) ;;
  decode_array 32 "marketing companion command digest" (mn_companion_command_digest n) ;;
  decode_array 64 "marketing companion signature" (mn_companion_signature n) ;;
  Ok tt.

(** [MarketingNoteRecord::from_verified_command] *)
Definition from_verified_command (c : CompanionCommand) (expected_signing_public_key : Bytes32)
    (expected_device_id : string) (now : OffsetDateTime) : companion_result MarketingNoteRecord :=
  command_verify c expected_signing_public_key expected_device_id now ;;
  match cb_payload (cc_body c) with
  | MarketingSubmit note_id shot_id body =>
      digest ← command_payload_digest c;
      let record := {| mn_schema := MARKETING_NOTE_SCHEMA; mn_note_id := note_id;
        mn_command_id := cb_command_id (cc_body c); mn_shot_id := shot_id; mn_body := body;
        mn_created_at := cb_created_at (cc_body c);
        mn_author_device_id := cb_author_device_id (cc_body c);
        mn_companion_command_digest := base64_encode (as_bytes digest);
        mn_companion_signature := cc_signature c |} in
      marketing_note_validate record ;;
      Ok record
  | _ => Err (CInvalid "only marketing.submit can become a marketing note")
  end.

Definition receipt_validate (r : CommandReceipt) : companion_result unit :=
  require (rc_schema r == COMMAND_RECEIPT_SCHEMA) "unsupported command receipt schema" ;;
  companion_identifier "command ID" (rc_command_id r) ;;
  for_each (λ p : string * option string, optional (companion_identifier (fst p)) (snd p))
    [("receipt Shot ID", rc_shot_id r); ("receipt execution ID", rc_execution_id r);
     ("receipt result ID", rc_result_id r); ("receipt rejection code", rc_rejection_code r)] ;;
  require ((rc_state r == ReceiptRejected) || opt_is_none (rc_rejection_code r))
    "only a rejected receipt may contain a rejection code".

(** ** What the phone's mailbox carries *)

#[export] Instance CompanionCommand_to_json : ToJson CompanionCommand := λ c, JObj
  ([("schema", to_json (cb_schema (cc_body c))); ("command_id", to_json (cb_command_id (cc_body c)));
    ("workspace_id", to_json (cb_workspace_id (cc_body c)));
    ("capability_id", to_json (cb_capability_id (cc_body c)));
    ("author_device_id", to_json (cb_author_device_id (cc_body c)));
    ("created_at", to_json (cb_created_at (cc_body c))); ("payload", to_json (cb_payload (cc_body c)))]
   ++ [("signature", to_json (cc_signature c))]).
#[export] Instance ReferenceBlobChunk_to_json : ToJson ReferenceBlobChunk := λ c, JObj
  [("schema", to_json (ch_schema c)); ("blob_id", to_json (ch_blob_id c));
   ("origin_name", to_json (ch_origin_name c)); ("media_type", to_json (ch_media_type c));
   ("byte_length", to_json (ch_byte_length c)); ("sha256", to_json (ch_sha256 c));
   ("chunk_index", to_json (ch_chunk_index c)); ("chunk_count", to_json (ch_chunk_count c));
   ("chunk_byte_length", to_json (ch_chunk_byte_length c));
   ("chunk_sha256", to_json (ch_chunk_sha256 c)); ("bytes", to_json (ch_bytes c))].

Inductive PhoneToMacPayload : Type :=
  | PayloadCommand (c : CompanionCommand)
  | PayloadChunk (c : ReferenceBlobChunk).
#[export] Instance PhoneToMacPayload_to_json : ToJson PhoneToMacPayload := λ p,
  match p with PayloadCommand c => to_json c | PayloadChunk c => to_json c end.

(** [PhoneToMacPayload::from_canonical_slice], reading JSON with [decode]. *)
Definition payload_from_canonical_slice (decode : list Z -> Result string PhoneToMacPayload)
    (bytes : list Z) : companion_result PhoneToMacPayload :=
  value ← companion_from_slice decode bytes;
  match value with
  | PayloadCommand c =>
      require (cb_schema (cc_body c) == COMPANION_COMMAND_SCHEMA) "unsupported phone-to-Mac command schema"
  | PayloadChunk c => chunk_validate c
  end ;;
  Ok value.
Definition payload_canonical_bytes (p : PhoneToMacPayload) : companion_result (list Z) :=
  companion_to_vec p.
End command.
