(* ===== verification/CompanionCapability.v ===== *)
(** * Capabilities

    [companion/src/capability.rs]: the Mac's signed grants to one device, and the
    registry that authorizes actions and commands and revokes devices and grants. *)
From S2P Require Import Prelude Text Digest Clock CompanionModel CompanionCrypto CompanionReference CompanionPublication CompanionUpdates CompanionCommand.

Definition CAPABILITY_GRANT_SCHEMA : string := "tohseno.companion-capability-grant/1".
Definition CAPABILITY_SIGNATURE_DOMAIN : string := "tohseno.companion.capability-grant.v1".
Definition MAX_CAPABILITY_LIFETIME_SECONDS : Z := 31622400.

Record CapabilityGrantBody := {
  cg_schema : string;
  cg_capability_id : string;
  cg_workspace_id : string;
  cg_device_id : string;
  cg_allowed_actions : list CapabilityAction;
  cg_issued_at : string;
  cg_expires_at : option string;
  cg_revocation_epoch : Z;
  cg_studio_signing_public_key : string }.
#[export] Instance CapabilityGrantBody_to_json : ToJson CapabilityGrantBody := λ g, JObj
  ([("schema", to_json (cg_schema g)); ("capability_id", to_json (cg_capability_id g));
    ("workspace_id", to_json (cg_workspace_id g)); ("device_id", to_json (cg_device_id g));
    ("allowed_actions", to_json (cg_allowed_actions g)); ("issued_at", to_json (cg_issued_at g))]
   ++ optional_member "expires_at" (cg_expires_at g)
   ++ [("revocation_epoch", to_json (cg_revocation_epoch g));
       ("studio_signing_public_key", to_json (cg_studio_signing_public_key g))]).

Record CapabilityGrant := { gr_body : CapabilityGrantBody; gr_signature : string }.

Record CapabilityRegistry := {
  reg_workspace_id : string;
  reg_device_epochs : gmap string Z;
  reg_revoked_capabilities : gset string }.

Definition action_ltb (a b : CapabilityAction) : bool :=
  capability_action_rank a <? capability_action_rank b.

(** [slice::binary_search(&action).is_ok()] on the positions [low..high]. The slice
    is strictly sorted where it is called, so any search that halves the range has
    the documented result, membership, and the length is enough fuel
    ([binary_search_member]). *)
Fixpoint binary_search (fuel : nat) (actions : list CapabilityAction) (a : CapabilityAction)
    (low high : nat) : bool :=
  match fuel with
  | O => false
  | S fuel =>
      if (high <=? low)%nat then false
      else
        let middle := low + Nat.div2 (high - low) in
        match actions !! middle with
        | None => false
        | Some b =>
            if b == a then true
            else if action_ltb b a then binary_search fuel actions a (S middle) high
            else binary_search fuel actions a low middle
        end
  end.

Section capability.
Context `{Platform} `{TimeFormat} `{CompanionCrypto}.

Definition grant_body_validate (g : CapabilityGrantBody) : companion_result unit :=
  require (cg_schema g == CAPABILITY_GRANT_SCHEMA) "unsupported capability grant schema" ;;
  companion_identifier "capability ID" (cg_capability_id g) ;;
  companion_identifier "workspace ID" (cg_workspace_id g) ;;
  companion_identifier "device ID" (cg_device_id g) ;;
  require (negb (cg_allowed_actions g == []) && (length (cg_allowed_actions g) <=? 9)%nat)
    "capability grant must contain one to nine actions" ;;
  require (windows_all action_ltb (cg_allowed_actions g))
    "capability actions must be unique and sorted" ;;
  companion_timestamp (cg_issued_at g) ;;
  optional timestamp_ok (cg_expires_at g) ;;
  decode_array 32 "capability Studio signing key" (cg_studio_signing_public_key g) ;;
  Ok tt.

(** [CapabilityGrant::sign] *)
Definition sign_grant (body : CapabilityGrantBody) (studio : Identity) : companion_result CapabilityGrant :=
  grant_body_validate body ;;
  require (cg_studio_signing_public_key body == signing_public_key_base64url studio)
    "capability grant signing key does not match Studio" ;;
  bytes ← companion_to_vec body;
  Ok {| gr_body := body;
        gr_signature := base64_encode (as_bytes (identity_sign studio CAPABILITY_SIGNATURE_DOMAIN bytes)) |}.

(** [CapabilityGrant::verify] *)
Definition grant_verify (g : CapabilityGrant) (trusted_studio_signing_key : Bytes32)
    (now : OffsetDateTime) : companion_result unit :=
  let body := gr_body g in
  grant_body_validate body ;;
  embedded ← decode_array 32 "capability Studio signing key" (cg_studio_signing_public_key body);
  require (embedded == trusted_studio_signing_key)
    "capability grant is not signed by the trusted Studio" ;;
  issued ← companion_timestamp (cg_issued_at body);
  match cg_expires_at body with
  | Some expires_at =>
      validate_window (cg_issued_at body) expires_at now MAX_CAPABILITY_LIFETIME_SECONDS
        MAX_CLOCK_SKEW_SECONDS
  | None =>
      require (instant issued - seconds MAX_CLOCK_SKEW_SECONDS <=? instant now)%Z
        "capability grant is not valid yet"
  end ;;
  signature ← decode_array 64 "capability grant signature" (gr_signature g);
  bytes ← companion_to_vec body;
  identity_verify trusted_studio_signing_key CAPABILITY_SIGNATURE_DOMAIN bytes signature.

(** ** The registry *)

Definition registry_new (workspace_id : string) : companion_result CapabilityRegistry :=
  companion_identifier "workspace ID" workspace_id ;;
  Ok {| reg_workspace_id := workspace_id; reg_device_epochs := ∅; reg_revoked_capabilities := ∅ |}.

Definition current_epoch (r : CapabilityRegistry) (device_id : string) : Z :=
  default 0%Z (reg_device_epochs r !! device_id).

Definition set_epoch (r : CapabilityRegistry) (device_id : string) (epoch : Z) : CapabilityRegistry :=
  {| reg_workspace_id := reg_workspace_id r;
     reg_device_epochs := <[device_id := epoch]> (reg_device_epochs r);
     reg_revoked_capabilities := reg_revoked_capabilities r |}.

Definition restore_device_epoch (r : CapabilityRegistry) (device_id : string) (epoch : Z)
    : companion_result CapabilityRegistry :=
  companion_identifier "device ID" device_id ;;
  require (current_epoch r device_id <=? epoch) "revocation epoch cannot move backwards" ;;
  Ok (set_epoch r device_id epoch).

Definition authorize (r : CapabilityRegistry) (g : CapabilityGrant) (action : CapabilityAction)
    (trusted_studio_signing_key : Bytes32) (now : OffsetDateTime) : companion_result unit :=
  grant_verify g trusted_studio_signing_key now ;;
  require (cg_workspace_id (gr_body g) == reg_workspace_id r)
    "capability grant belongs to a different workspace" ;;
  require (negb (bool_decide (cg_capability_id (gr_body g) ∈ reg_revoked_capabilities r)))
    "capability grant was revoked" ;;
  require (cg_revocation_epoch (gr_body g) == current_epoch r (cg_device_id (gr_body g)))
    "capability grant has a stale revocation epoch" ;;
  let allowed := cg_allowed_actions (gr_body g) in
  require (binary_search (length allowed) allowed action 0 (length allowed))
    "capability grant does not authorize this action".

Definition authorize_command (r : CapabilityRegistry) (g : CapabilityGrant) (c : CompanionCommand)
    (companion_signing_public_key trusted_studio_signing_key : Bytes32) (now : OffsetDateTime)
    : companion_result unit :=
  command_verify c companion_signing_public_key (cg_device_id (gr_body g)) now ;;
  require ((cb_workspace_id (cc_body c) == reg_workspace_id r)
           && (cb_workspace_id (cc_body c) == cg_workspace_id (gr_body g)))
    "companion command belongs to a different workspace" ;;
  require (cb_capability_id (cc_body c) == cg_capability_id (gr_body g))
    "companion command names a different capability grant" ;;
  authorize r g (required_capability (cb_payload (cc_body c))) trusted_studio_signing_key now.

Definition revoke_device (r : CapabilityRegistry) (device_id : string)
    : companion_result (CapabilityRegistry * Z) :=
  companion_identifier "device ID" device_id ;;
  next ← ok_or (CInvalid "revocation epoch overflowed") (checked_add_u64 (current_epoch r device_id) 1);
  Ok (set_epoch r device_id next, next).

Definition revoke_capability (r : CapabilityRegistry) (capability_id : string)
    : companion_result CapabilityRegistry :=
  companion_identifier "capability ID" capability_id ;;
  Ok {| reg_workspace_id := reg_workspace_id r; reg_device_epochs := reg_device_epochs r;
        reg_revoked_capabilities := {[capability_id]} ∪ reg_revoked_capabilities r |}.
End capability.

(** ** Authorized commands and revocation

    What an authorized command has proved about itself, that properly signed
    commands are authorized, and that revocation is final. *)

#[local] Arguments Nat.leb : simpl never.
#[local] Arguments identity_verify : simpl never.
#[local] Arguments companion_to_vec : simpl never.
#[local] Arguments companion_timestamp : simpl never.
#[local] Arguments decode_array : simpl never.
#[local] Arguments body_validate : simpl never.
#[local] Arguments grant_body_validate : simpl never.

(** ** Sorted actions *)

Lemma windows_sorted {A} (r : A -> A -> bool) (Htrans : forall a b c, r a b = true -> r b c = true -> r a c = true)
    l : windows_all r l = true -> StronglySorted (λ a b, r a b = true) l.
Proof.
  induction l as [|a l IH]; [constructor|]. simpl. destruct l as [|b l]; [by repeat constructor|].
  rewrite andb_true_iff. intros [Hab Hl]. specialize (IH Hl). constructor; [done|].
  inversion IH as [|? ? Hs Hf]; subst. constructor; [done|].
  eapply Forall_impl; [exact Hf|]. intros c Hc. by eapply Htrans.
Qed.

Lemma action_rank_inj a b : capability_action_rank a = capability_action_rank b -> a = b.
Proof. by destruct a, b. Qed.

Lemma allowed_sorted actions i j a b : windows_all action_ltb actions = true ->
  actions !! i = Some a -> actions !! j = Some b -> i < j ->
  (capability_action_rank a < capability_action_rank b)%Z.
Proof.
  intros Hw Hi Hj Hij. apply windows_sorted in Hw.
  2: { unfold action_ltb. intros x y z. rewrite !Z.ltb_lt. lia. }
  revert i j Hi Hj Hij. induction Hw as [|x l Hs IH Hf]; intros [|i] [|j] Hi Hj Hij; simplify_eq/=; try lia.
  - rewrite Forall_forall in Hf. apply Z.ltb_lt, Hf. by eapply list_elem_of_lookup_2.
  - by eapply (IH i j); [..|lia].
Qed.

Lemma binary_search_range fuel actions a low high : windows_all action_ltb actions = true ->
  high - low <= fuel -> high <= length actions ->
  binary_search fuel actions a low high = true <->
    exists i, low <= i < high /\ actions !! i = Some a.
Proof.
  intros Hw. revert low high. induction fuel as [|fuel IH]; intros low high Hf Hh; simpl.
  { split; [done|]. intros (i&Hi&_). lia. }
  destruct (Nat.leb_spec high low) as [Hle|Hlt].
  { split; [done|]. intros (i&Hi&_). lia. }
  assert (Nat.div2 (high - low) < high - low) as Hhalf by (apply Nat.lt_div2; lia).
  set (half := Nat.div2 (high - low)) in *. clearbody half.
  assert (low <= low + half < high) as Hm by lia. set (middle := low + half) in *. clearbody middle.
  destruct (lookup_lt_is_Some_2 actions middle ltac:(lia)) as [b Hb]. rewrite Hb.
  destruct (decide (b = a)) as [->|Hne].
  { rewrite bool_decide_eq_true_2 by done. split; [|done]. eauto. }
  rewrite bool_decide_eq_false_2 by done.
  assert (forall i, actions !! i = Some a -> (i < middle \/ middle < i)) as Hside.
  { intros i Hi. destruct (Nat.lt_trichotomy i middle) as [?|[->|?]]; auto. by simplify_eq. }
  destruct (action_ltb b a) eqn:Hba; rewrite IH by lia; split; intros (i&Hi&Ha); exists i; (split; [|done]);
    try lia; destruct (Hside i Ha) as [Hs|Hs]; try lia; exfalso;
    pose proof (λ i j a b, allowed_sorted actions i j a b Hw) as Hr.
  - specialize (Hr i middle a b Ha Hb Hs). unfold action_ltb in Hba. lia.
  - specialize (Hr middle i b a Hb Ha Hs). unfold action_ltb in Hba. lia.
Qed.

Lemma binary_search_member actions a : windows_all action_ltb actions = true ->
  binary_search (length actions) actions a 0 (length actions) = true <-> a ∈ actions.
Proof.
  intros Hw. rewrite binary_search_range by (done || lia). rewrite list_elem_of_lookup.
  split; intros [i Hi]; exists i; [tauto|]. split; [|done].
  apply lookup_lt_Some in Hi. lia.
Qed.

Section laws.
Context `{Platform} `{TimeFormat} `{CompanionCrypto}.

(** ** What verification established *)

(** A signature in base64url over the canonical bytes of a value. *)
Definition signed_by `{ToJson A} (key : Bytes32) (domain : string) (value : A) (signature : string) : Prop :=
  exists bytes sig, companion_to_vec value = Ok bytes /\ base64_encode (as_bytes sig) = signature /\
    ed25519_key_valid key = true /\ ed25519_verify key (signing_bytes domain bytes) sig = true.

Lemma verified_signed `{ToJson A} label key domain (value : A) signature :
  (sig ← decode_array 64 label signature; bytes ← companion_to_vec value;
   identity_verify key domain bytes sig) = Ok tt -> signed_by key domain value signature.
Proof.
  intros Hv. apply bind_Ok in Hv as (sig&Hs%decode_array_Ok&Hv). apply bind_Ok in Hv as (bytes&Hb&Hv).
  unfold identity_verify in Hv. apply bind_Ok in Hv as ([]&Hk%fail_if_Ok&Hv%fail_if_Ok).
  apply negb_false_iff in Hk, Hv. by exists bytes, sig.
Qed.

(** The command's author, age and signature. *)
Record command_genuine (c : CompanionCommand) (key : Bytes32) (device : string) (now : OffsetDateTime) : Prop := {
  cgn_body : body_validate (cc_body c) = Ok tt;
  cgn_author : cb_author_device_id (cc_body c) = device;
  cgn_age : exists created, companion_timestamp (cb_created_at (cc_body c)) = Ok created /\
    (instant created - seconds MAX_CLOCK_SKEW_SECONDS <= instant now
       <= instant created + seconds MAX_COMMAND_AGE_SECONDS)%Z;
  cgn_signed : signed_by key COMMAND_SIGNATURE_DOMAIN (cc_body c) (cc_signature c) }.

Lemma command_verify_Ok c key device now : command_verify c key device now = Ok tt ->
  command_genuine c key device now.
Proof.
  unfold command_verify. intros Hv. apply bind_Ok in Hv as ([]&Hb&Hv).
  apply bind_Ok in Hv as ([]&Ha%require_Ok%bool_decide_eq_true&Hv).
  apply bind_Ok in Hv as (created&Hc&Hv).
  apply bind_Ok in Hv as ([]&Hlo%require_Ok%Z.leb_le&Hv).
  apply bind_Ok in Hv as ([]&Hhi%require_Ok%Z.leb_le&Hv).
  constructor; [done|done|by exists created|by eapply verified_signed].
Qed.

(** The grant's issuer, validity and signature. *)
Record grant_genuine (g : CapabilityGrant) (studio : Bytes32) (now : OffsetDateTime) : Prop := {
  ggn_body : grant_body_validate (gr_body g) = Ok tt;
  ggn_studio : cg_studio_signing_public_key (gr_body g) = base64_encode (as_bytes studio);
  ggn_issued : exists issued, companion_timestamp (cg_issued_at (gr_body g)) = Ok issued /\
    (instant issued - seconds MAX_CLOCK_SKEW_SECONDS <= instant now)%Z;
  ggn_unexpired : forall expires_at, cg_expires_at (gr_body g) = Some expires_at ->
    exists expires, companion_timestamp expires_at = Ok expires /\
      (instant now <= instant expires + seconds MAX_CLOCK_SKEW_SECONDS)%Z;
  ggn_signed : signed_by studio CAPABILITY_SIGNATURE_DOMAIN (gr_body g) (gr_signature g) }.

Lemma window_Ok issued_at expires_at now maximum skew :
  validate_window issued_at expires_at now maximum skew = Ok tt ->
  exists issued expires, companion_timestamp issued_at = Ok issued /\
    companion_timestamp expires_at = Ok expires /\
    (instant issued - seconds skew <= instant now <= instant expires + seconds skew)%Z.
Proof.
  unfold validate_window. intros Hv. apply bind_Ok in Hv as (issued&Hi&Hv).
  apply bind_Ok in Hv as (expires&He&Hv). apply bind_Ok in Hv as ([]&_&Hv%require_Ok).
  apply andb_true_iff in Hv as [Hlo%Z.leb_le Hhi%Z.leb_le]. by exists issued, expires.
Qed.

Lemma grant_verify_Ok g studio now : grant_verify g studio now = Ok tt -> grant_genuine g studio now.
Proof.
  unfold grant_verify. intros Hv. apply bind_Ok in Hv as ([]&Hb&Hv).
  apply bind_Ok in Hv as (embedded&He%decode_array_Ok&Hv).
  apply bind_Ok in Hv as ([]&->%require_Ok%bool_decide_eq_true&Hv).
  apply bind_Ok in Hv as (issued&Hi&Hv). apply bind_Ok in Hv as ([]&Hw&Hv%verified_signed).
  constructor; [done|done| | |done].
  - destruct (cg_expires_at (gr_body g)) as [x|].
    + apply window_Ok in Hw as (i&x'&Hi'&_&?). rewrite Hi in Hi'. injection Hi' as <-.
      exists issued. split; [done|lia].
    + apply require_Ok, Z.leb_le in Hw. by exists issued.
  - intros x Hx. rewrite Hx in Hw. apply window_Ok in Hw as (i&x'&_&?&?). exists x'. split; [done|lia].
Qed.

Lemma grant_body_sorted g : grant_body_validate g = Ok tt -> windows_all action_ltb (cg_allowed_actions g) = true.
Proof.
  unfold grant_body_validate. intros Hv. do 5 (apply bind_Ok in Hv as (?&_&Hv)).
  by apply bind_Ok in Hv as (?&Hw%require_Ok&_).
Qed.

(** What an authorization says of the registry. *)
Record registry_allows (r : CapabilityRegistry) (g : CapabilityGrant) (action : CapabilityAction) : Prop := {
  ra_workspace : cg_workspace_id (gr_body g) = reg_workspace_id r;
  ra_not_revoked : cg_capability_id (gr_body g) ∉ reg_revoked_capabilities r;
  ra_epoch : cg_revocation_epoch (gr_body g) = current_epoch r (cg_device_id (gr_body g));
  ra_allowed : action ∈ cg_allowed_actions (gr_body g) }.

Lemma authorize_iff r g action studio now :
  authorize r g action studio now = Ok tt <->
  grant_verify g studio now = Ok tt /\ registry_allows r g action.
Proof.
  unfold authorize. split.
  - intros Hv. apply bind_Ok in Hv as ([]&Hg&Hv). split; [done|].
    apply bind_Ok in Hv as ([]&Hw%require_Ok%bool_decide_eq_true&Hv).
    apply bind_Ok in Hv as ([]&Hn%require_Ok%negb_true_iff%bool_decide_eq_false&Hv).
    apply bind_Ok in Hv as ([]&He%require_Ok%bool_decide_eq_true&Hv%require_Ok).
    constructor; try done. apply binary_search_member; [|done].
    by apply grant_body_sorted, (ggn_body _ _ _ (grant_verify_Ok _ _ _ Hg)).
  - intros [Hg [Hw Hn He Ha]]. rewrite Hg. simpl.
    rewrite (bool_decide_eq_true_2 (cg_workspace_id _ = _)) by done. simpl.
    rewrite (bool_decide_eq_false_2 (_ ∈ _)) by done. simpl.
    rewrite (bool_decide_eq_true_2 (cg_revocation_epoch _ = _)) by done. simpl.
    apply require_Ok. apply binary_search_member; [|done].
    by apply grant_body_sorted, (ggn_body _ _ _ (grant_verify_Ok _ _ _ Hg)).
Qed.

(** [C33] A command that is authorized is genuine: it is signed by the paired phone
    over its whole body, not from the future and not older than thirty days; the
    grant it names is the Studio's, signed over its whole body and valid now; both
    belong to the registry's workspace; and the grant allows the action the payload
    needs, has not been revoked and has its device's current epoch. *)
Theorem authorized_command_is_genuine r g c phone studio now :
  authorize_command r g c phone studio now = Ok tt ->
  command_genuine c phone (cg_device_id (gr_body g)) now /\ grant_genuine g studio now /\
  cb_workspace_id (cc_body c) = reg_workspace_id r /\
  cb_capability_id (cc_body c) = cg_capability_id (gr_body g) /\
  registry_allows r g (required_capability (cb_payload (cc_body c))).
Proof.
  unfold authorize_command. intros Hv. apply bind_Ok in Hv as ([]&Hc%command_verify_Ok&Hv).
  apply bind_Ok in Hv as ([]&Hw%require_Ok&Hv).
  apply bind_Ok in Hv as ([]&Hi%require_Ok%bool_decide_eq_true&Hv).
  apply authorize_iff in Hv as [Hg%grant_verify_Ok Ha].
  rewrite andb_true_iff, !bool_decide_eq_true in Hw. by destruct Hw.
Qed.

(** ** Signed objects verify *)

Section signing.
Context `{!CompanionCryptoLaws}.

Lemma signed_verifies `{ToJson A} label i domain (value : A) bytes : identity_ok i ->
  companion_to_vec value = Ok bytes ->
  (sig ← decode_array 64 label (base64_encode (as_bytes (identity_sign i domain bytes)));
   bytes ← companion_to_vec value;
   identity_verify (id_signing_public_key i) domain bytes sig) = Ok tt.
Proof.
  intros Hi Hb. rewrite decode_array_encoded by done. simpl. rewrite Hb. simpl. by apply sign_verifies.
Qed.

Lemma sign_command_verifies i b c created now : identity_ok i -> sign_command i b = Ok c ->
  companion_timestamp (cb_created_at b) = Ok created ->
  (instant created - seconds MAX_CLOCK_SKEW_SECONDS <= instant now
     <= instant created + seconds MAX_COMMAND_AGE_SECONDS)%Z ->
  command_verify c (id_signing_public_key i) (id_device_id i) now = Ok tt.
Proof.
  intros Hi Hs Hc Hn. unfold sign_command in Hs. apply bind_Ok in Hs as ([]&Hb&Hs).
  apply bind_Ok in Hs as (bytes&Hbytes&[= <-]). unfold command_verify. cbn [cc_body cc_signature].
  rewrite Hb. simpl. rewrite (bool_decide_eq_true_2 (id_device_id i = _)) by done. simpl.
  rewrite Hc. simpl mbind. rewrite require_bind by (apply Z.leb_le; lia).
  rewrite require_bind by (apply Z.leb_le; lia). by apply signed_verifies.
Qed.

(** The time is within a grant's validity. *)
Definition grant_current (body : CapabilityGrantBody) (now : OffsetDateTime) : Prop :=
  exists issued, companion_timestamp (cg_issued_at body) = Ok issued /\
  (instant issued - seconds MAX_CLOCK_SKEW_SECONDS <= instant now)%Z /\
  forall expires_at, cg_expires_at body = Some expires_at ->
    validate_window (cg_issued_at body) expires_at now MAX_CAPABILITY_LIFETIME_SECONDS
      MAX_CLOCK_SKEW_SECONDS = Ok tt.

Lemma sign_grant_verifies body studio g now : identity_ok studio -> sign_grant body studio = Ok g ->
  grant_current body now -> gr_body g = body /\ grant_verify g (id_signing_public_key studio) now = Ok tt.
Proof.
  intros Hi Hs (issued&Hissued&Hlo&Hw). unfold sign_grant in Hs. apply bind_Ok in Hs as ([]&Hb&Hs).
  apply bind_Ok in Hs as ([]&Hk%require_Ok%bool_decide_eq_true&Hs).
  apply bind_Ok in Hs as (bytes&Hbytes&[= <-]). split; [done|].
  unfold grant_verify. cbn [gr_body gr_signature]. rewrite Hb. simpl.
  rewrite Hk. unfold signing_public_key_base64url. rewrite (decode_array_encoded 32) by done. simpl mbind.
  rewrite require_bind by by apply bool_decide_eq_true.
  rewrite Hissued. simpl mbind. destruct (cg_expires_at body) as [x|]; [rewrite (Hw x eq_refl), bind_tt|].
  - by apply signed_verifies.
  - rewrite require_bind by (apply Z.leb_le; lia). by apply signed_verifies.
Qed.

(** Signed commands are authorized: a command the paired phone signs, under
    a grant the Studio signed for that phone's device, in the workspace and under
    the capability of the grant, within thirty days of its creation and within the
    grant's validity, is authorized whenever the registry allows the action. *)
Theorem signed_commands_authorized r studio phone body b g c created now :
  identity_ok studio -> identity_ok phone ->
  sign_grant body studio = Ok g -> sign_command phone b = Ok c ->
  cg_device_id body = id_device_id phone -> cb_workspace_id b = cg_workspace_id body ->
  cb_capability_id b = cg_capability_id body ->
  companion_timestamp (cb_created_at b) = Ok created ->
  (instant created - seconds MAX_CLOCK_SKEW_SECONDS <= instant now
     <= instant created + seconds MAX_COMMAND_AGE_SECONDS)%Z ->
  grant_current body now -> registry_allows r g (required_capability (cb_payload b)) ->
  authorize_command r g c (id_signing_public_key phone) (id_signing_public_key studio) now = Ok tt.
Proof.
  intros Hs Hp Hg Hc Hd Hw Hi Hcr Hn Hcur Ha.
  destruct (sign_grant_verifies _ _ _ _ Hs Hg Hcur) as [Hb Hgv]. unfold authorize_command.
  rewrite Hb, Hd, (sign_command_verifies _ _ _ _ _ Hp Hc Hcr Hn). simpl.
  unfold sign_command in Hc. apply bind_Ok in Hc as ([]&_&Hc). apply bind_Ok in Hc as (bytes&_&[= <-]).
  cbn [cc_body cb_workspace_id cb_capability_id cb_payload].
  pose proof (ra_workspace _ _ _ Ha) as Hrw. rewrite Hb in Hrw.
  rewrite (bool_decide_eq_true_2 (cb_workspace_id b = reg_workspace_id r)) by congruence.
  rewrite (bool_decide_eq_true_2 (cb_workspace_id b = cg_workspace_id body)) by done. simpl.
  rewrite (bool_decide_eq_true_2 (cb_capability_id b = _)) by done. simpl.
  by apply authorize_iff.
Qed.
End signing.

(** ** Revocation *)

Inductive registry_step (r : CapabilityRegistry) : CapabilityRegistry -> Prop :=
  | step_restore d epoch r' : restore_device_epoch r d epoch = Ok r' -> registry_step r r'
  | step_revoke_device d next r' : revoke_device r d = Ok (r', next) -> registry_step r r'
  | step_revoke_capability id r' : revoke_capability r id = Ok r' -> registry_step r r'.

(** A later registry: epochs have not moved back and no revocation is forgotten. *)
Record registry_later (r r' : CapabilityRegistry) : Prop := {
  rl_workspace : reg_workspace_id r' = reg_workspace_id r;
  rl_epochs : forall d, (current_epoch r d <= current_epoch r' d)%Z;
  rl_revoked : reg_revoked_capabilities r ⊆ reg_revoked_capabilities r' }.
#[export] Instance registry_later_preorder : PreOrder registry_later.
Proof.
  split.
  - intros r. split; [done|lia|done].
  - intros a b c [? Hab ?] [? Hbc ?]. split; [congruence| |set_solver].
    intros d. specialize (Hab d). specialize (Hbc d). lia.
Qed.

Lemma current_epoch_set r d epoch d' :
  current_epoch (set_epoch r d epoch) d' = if decide (d = d') then epoch else current_epoch r d'.
Proof. unfold current_epoch, set_epoch. simpl. rewrite lookup_insert. by case_decide. Qed.

Lemma set_epoch_later r d epoch : (current_epoch r d <= epoch)%Z -> registry_later r (set_epoch r d epoch).
Proof.
  intros He. split; [done| |done]. intros d'. rewrite current_epoch_set. case_decide; subst; lia.
Qed.

Lemma revoke_device_Ok r d r' next : revoke_device r d = Ok (r', next) ->
  r' = set_epoch r d next /\ next = (current_epoch r d + 1)%Z /\ (next <= U64_MAX)%Z.
Proof.
  unfold revoke_device. intros Hr. apply bind_Ok in Hr as ([]&_&Hr).
  apply bind_Ok in Hr as (n&Hn%ok_or_Ok&[= <- <-]). unfold checked_add_u64, checked_add in Hn.
  destruct (_ <=? _) eqn:E in Hn; [|done]. injection Hn as <-. apply Z.leb_le in E. done.
Qed.

Lemma registry_step_later r r' : registry_step r r' -> registry_later r r'.
Proof.
  intros [d e r1 Hs|d n r1 Hs|id r1 Hs].
  - unfold restore_device_epoch in Hs. apply bind_Ok in Hs as ([]&_&Hs).
    apply bind_Ok in Hs as ([]&He%require_Ok%Z.leb_le&[= <-]). by apply set_epoch_later.
  - apply revoke_device_Ok in Hs as (->&->&_). apply set_epoch_later. lia.
  - unfold revoke_capability in Hs. apply bind_Ok in Hs as ([]&_&[= <-]).
    split; [done|by intros|set_solver].
Qed.

Lemma registry_steps_later r r' : rtc registry_step r r' -> registry_later r r'.
Proof.
  induction 1 as [|a b c Hs%registry_step_later _ IH]; [done|]. by etransitivity.
Qed.

(** A grant that can never be used again. *)
Definition grant_dead (r : CapabilityRegistry) (g : CapabilityGrant) : Prop :=
  (cg_revocation_epoch (gr_body g) < current_epoch r (cg_device_id (gr_body g)))%Z \/
  cg_capability_id (gr_body g) ∈ reg_revoked_capabilities r.

Lemma dead_not_allowed r g action : grant_dead r g -> ~ registry_allows r g action.
Proof. intros [Hd|Hd] [_ Hn He _]; [lia|done]. Qed.

Lemma grant_dead_later r r' g : registry_later r r' -> grant_dead r g -> grant_dead r' g.
Proof.
  intros [_ He Hr] [Hd|Hd]; [left; specialize (He (cg_device_id (gr_body g))); lia|right; by apply Hr].
Qed.

(** [C34] Revocation is final: once a grant's device or the grant itself has been
    revoked, no restored epoch and no further revocation lets a grant issued no
    later authorize an action or a command again, whatever the key, the time and
    the command. *)
Theorem revocation_is_final r r' r'' g :
  ((exists next, revoke_device r (cg_device_id (gr_body g)) = Ok (r', next)) /\
     (cg_revocation_epoch (gr_body g) <= current_epoch r (cg_device_id (gr_body g)))%Z \/
   revoke_capability r (cg_capability_id (gr_body g)) = Ok r') ->
  rtc registry_step r' r'' ->
  (forall action studio now, is_ok (authorize r'' g action studio now) = false) /\
  (forall c phone studio now, is_ok (authorize_command r'' g c phone studio now) = false).
Proof.
  intros Hrev Hsteps%registry_steps_later.
  assert (grant_dead r'' g) as Hdead.
  { apply (grant_dead_later r' r'' g Hsteps). destruct Hrev as [[[n Hr] He]|Hr].
    - left. apply revoke_device_Ok in Hr as (->&->&_). rewrite current_epoch_set, decide_True by done. lia.
    - right. unfold revoke_capability in Hr. apply bind_Ok in Hr as ([]&_&[= <-]). set_solver. }
  assert (forall action studio now, is_ok (authorize r'' g action studio now) = false) as Ha.
  { intros action studio now. destruct (authorize _ _ _ _ _) as [[]|] eqn:E; [|done].
    apply authorize_iff in E as [_ E]. by destruct (dead_not_allowed _ _ _ Hdead E). }
  split; [done|]. intros c phone studio now.
  destruct (authorize_command _ _ _ _ _ _) as [[]|] eqn:E; [|done].
  unfold authorize_command in E. apply bind_Ok in E as ([]&_&E). apply bind_Ok in E as ([]&_&E).
  apply bind_Ok in E as ([]&_&E). specialize (Ha (required_capability (cb_payload (cc_body c))) studio now).
  by rewrite E in Ha.
Qed.
End laws.
