(* ===== verification/CompanionRecordLaws.v ===== *)
(** * Laws of the private records

    Bounds of the validated command payloads, the identities of private Updates,
    and contracts between components: a reference blob's descriptor is one that
    commands may carry, and the application's entitlement always has a valid
    projection. *)
From S2P Require Import Prelude Text Digest Clock CompanionModel CompanionCrypto CompanionReference CompanionReferenceLaws CompanionPublication CompanionUpdates CompanionCommand CompanionCapability Entitlement.

#[local] Arguments Nat.leb : simpl never.
#[local] Arguments companion_identifier : simpl never.
#[local] Arguments companion_text : simpl never.
#[local] Arguments decode_array : simpl never.
#[local] Arguments companion_timestamp : simpl never.

Section laws.
Context `{Platform} `{TimeFormat} `{CompanionCrypto}.

(** ** Payload bounds *)

Definition payload_references (p : CommandPayload) : list ReferenceDescriptor :=
  match p with
  | ShotEvolveRequest _ _ _ _ _ _ references | ProjectEvolveRequest _ _ _ references _
  | ShotCreateRequest _ _ references => references
  | _ => []
  end.
(** The free text of a payload. *)
Definition payload_text (p : CommandPayload) : option string :=
  match p with
  | FeedbackSubmit _ _ _ _ body | MarketingSubmit _ _ body => Some body
  | ShotEvolveRequest _ _ _ _ intention _ _ | ProjectEvolveRequest _ _ intention _ _
  | ShotCreateRequest _ intention _ => Some intention
  | _ => None
  end.
Definition referenced_bytes (p : CommandPayload) : Z :=
  foldr (λ d total, rd_byte_length d + total)%Z 0%Z (payload_references p).

Lemma descriptor_length d : reference_descriptor_validate d = Ok tt ->
  (1 <= rd_byte_length d <= MAX_REFERENCE_BLOB_BYTES)%Z.
Proof.
  unfold reference_descriptor_validate. intros Hv. do 4 (apply bind_Ok in Hv as (?&_&Hv)).
  apply bind_Ok in Hv as (?&Hl%require_Ok&_). apply andb_true_iff in Hl as [?%Z.leb_le ?%Z.leb_le]. lia.
Qed.

Record references_bounded (references : list ReferenceDescriptor) : Prop := {
  rb_few : length references <= MAX_REFERENCES;
  rb_valid : Forall (λ d, reference_descriptor_validate d = Ok tt) references;
  rb_distinct : NoDup (rd_blob_id <$> references) }.

Lemma validate_references_Ok references : validate_references references = Ok tt <->
  references_bounded references.
Proof.
  unfold validate_references. split.
  - intros Hv. apply bind_Ok in Hv as ([]&Hl%require_Ok%Nat.leb_le&Hv).
    apply bind_Ok in Hv as ([]&Hf%for_each_Ok&Hn%require_Ok%bool_decide_eq_true). done.
  - intros [Hl Hf Hn]. rewrite require_bind by by apply Nat.leb_le.
    rewrite (proj2 (for_each_Ok _ _ tt) Hf), bind_tt. by apply require_Ok, bool_decide_eq_true.
Qed.

Lemma companion_text_Ok label value maximum : companion_text label value maximum = Ok tt ->
  value <> "" /\ (Z.of_nat (len value) <= maximum)%Z.
Proof.
  unfold companion_text. intros Hv%require_Ok. apply andb_true_iff in Hv as [Hn Hl%Z.leb_le].
  split; [|done]. by intros ->.
Qed.

Lemma payload_references_Ok p : command_payload_validate p = Ok tt -> references_bounded (payload_references p).
Proof.
  intros Hv. destruct p; try (split; [simpl; unfold MAX_REFERENCES; lia|constructor..]);
    apply validate_references_Ok; simpl in *.
  - do 7 (apply bind_Ok in Hv as ([]&_&Hv)). done.
  - do 4 (apply bind_Ok in Hv as ([]&_&Hv)). done.
  - do 2 (apply bind_Ok in Hv as ([]&_&Hv)). done.
Qed.

(** A validated payload is bounded: its free text is nonempty and at most
    one mebibyte, and it refers to at most eight distinct blobs, each a nonempty
    image of at most 64 mebibytes, so at most 512 mebibytes in all. *)
Theorem validated_payload_bounded p : command_payload_validate p = Ok tt ->
  (forall text, payload_text p = Some text ->
     text <> "" /\ (Z.of_nat (len text) <= MAX_TEXT_BYTES)%Z) /\
  length (payload_references p) <= 8 /\ NoDup (rd_blob_id <$> payload_references p) /\
  (forall d, d ∈ payload_references p -> (1 <= rd_byte_length d <= MAX_REFERENCE_BLOB_BYTES)%Z) /\
  (referenced_bytes p <= 536870912)%Z.
Proof.
  intros Hv. pose proof (payload_references_Ok p Hv) as [Hl Hf Hn].
  assert (forall d, d ∈ payload_references p -> (1 <= rd_byte_length d <= MAX_REFERENCE_BLOB_BYTES)%Z) as Hd.
  { intros d Hd. apply descriptor_length. by eapply Forall_forall in Hf. }
  split_and!; [|done|done|done|].
  - assert (262144 <= MAX_TEXT_BYTES)%Z as Hm by (unfold MAX_TEXT_BYTES; lia).
    intros text Ht. destruct p; simplify_eq/=.
    + do 4 (apply bind_Ok in Hv as ([]&_&Hv)). apply companion_text_Ok in Hv as [? ?]. split; [done|lia].
    + do 2 (apply bind_Ok in Hv as ([]&_&Hv)). apply companion_text_Ok in Hv as [? ?]. split; [done|lia].
    + do 4 (apply bind_Ok in Hv as ([]&_&Hv)). by apply bind_Ok in Hv as ([]&?%companion_text_Ok&_).
    + do 2 (apply bind_Ok in Hv as ([]&_&Hv)). by apply bind_Ok in Hv as ([]&?%companion_text_Ok&_).
    + do 1 (apply bind_Ok in Hv as ([]&_&Hv)). by apply bind_Ok in Hv as ([]&?%companion_text_Ok&_).
  - unfold referenced_bytes. unfold MAX_REFERENCES in Hl.
    assert (forall l, (forall d, d ∈ l -> (rd_byte_length d <= MAX_REFERENCE_BLOB_BYTES)%Z) ->
      (foldr (λ d total, rd_byte_length d + total)%Z 0%Z l
         <= Z.of_nat (length l) * MAX_REFERENCE_BLOB_BYTES)%Z) as Hsum.
    { induction l as [|d l IH]; intros Hall; simpl; [lia|].
      pose proof (Hall d ltac:(set_solver)). specialize (IH ltac:(set_solver)). lia. }
    specialize (Hsum (payload_references p) (λ d Hin, proj2 (Hd d Hin))).
    unfold MAX_REFERENCE_BLOB_BYTES in *. lia.
Qed.

(** The descriptor of a reference blob is one a command may carry: whatever
    [ReferenceBlob::descriptor] returns passes the command's validation. *)
Theorem blob_descriptor_admitted b d : blob_descriptor b = Ok d -> reference_descriptor_validate d = Ok tt.
Proof.
  unfold blob_descriptor. intros Hd. apply bind_Ok in Hd as ([]&Hv&[= <-]).
  apply blob_validate_Ok in Hv as (_&Hm&_). unfold validate_reference_metadata in Hm.
  apply bind_Ok in Hm as ([]&Hid&Hm). apply bind_Ok in Hm as ([]&Htext&Hm).
  apply bind_Ok in Hm as ([]&Hplain%require_Ok&Hm). apply bind_Ok in Hm as ([]&Hmedia&Hm).
  apply bind_Ok in Hm as ([]&Hl&Hm). unfold reference_descriptor_validate. simpl.
  rewrite Hid, bind_tt, Htext, bind_tt. rewrite require_bind.
  - apply require_Ok in Hmedia, Hl. by rewrite !require_bind.
  - unfold plain_filename in Hplain. apply andb_true_iff in Hplain as [Hplain _].
    apply andb_true_iff in Hplain as [Hplain _]. apply negb_true_iff in Hplain.
    apply andb_true_iff. split; apply negb_true_iff, not_true_is_false; intros E%existsb_exists;
      destruct E as (x&Hx&E); apply (proj2 (not_true_iff_false _) Hplain), existsb_exists; exists x;
      (split; [done|]); rewrite !orb_true_iff; auto.
Qed.

(** ** Private Updates *)

Lemma update_validate_Ok u : update_validate u = Ok tt ->
  pu_update_id u = stable_id (pu_kind u) (pu_subject_id u) (pu_evidence_id u).
Proof.
  unfold update_validate. intros Hv. do 8 (apply bind_Ok in Hv as (?&_&Hv)).
  by apply require_Ok, bool_decide_eq_true in Hv.
Qed.

Lemma app_separator_inj (sep : Z) (a b c d : list Z) : sep ∉ a -> sep ∉ c ->
  a ++ sep :: b = c ++ sep :: d -> a = c /\ b = d.
Proof.
  revert c. induction a as [|x a IH]; intros [|y c] Ha Hc E; simplify_eq/=; try done; try set_solver.
  destruct (IH c) as [-> ->]; [set_solver|set_solver|done|done].
Qed.

Lemma wire_name_inj a b : update_wire_name a = update_wire_name b -> a = b.
Proof. by destruct a, b. Qed.
Lemma wire_name_no_nul a : 0%Z ∉ bytes_of (update_wire_name a).
Proof. apply (bool_decide_eq_true_1 (0%Z ∉ bytes_of (update_wire_name a))). by destruct a. Qed.

Lemma update_material_inj k s e k' s' e' : 0%Z ∉ bytes_of s -> 0%Z ∉ bytes_of s' ->
  update_material k s e = update_material k' s' e' -> k = k' /\ s = s' /\ e = e'.
Proof.
  unfold update_material. intros Hs Hs' E. apply app_inv_head in E. injection E as E.
  apply app_separator_inj in E as [Ek E]; [|apply wire_name_no_nul..].
  apply app_separator_inj in E as [Es Ee]; [|done..].
  apply (inj bytes_of) in Ek, Es, Ee. apply wire_name_inj in Ek. done.
Qed.

(** A private Update's identity is its evidence: unless SHA-256 collides on
    the two materials, two validated Updates whose subjects hold no NUL have the
    same identity exactly when they report the same kind of fact about the same
    subject on the same evidence. *)
Theorem update_identity_is_evidence `{!CompanionCryptoLaws} u v :
  update_validate u = Ok tt -> update_validate v = Ok tt ->
  0%Z ∉ bytes_of (pu_subject_id u) -> 0%Z ∉ bytes_of (pu_subject_id v) ->
  (let material w := update_material (pu_kind w) (pu_subject_id w) (pu_evidence_id w) in
   sha256 (material u) = sha256 (material v) -> material u = material v) ->
  pu_update_id u = pu_update_id v <->
    (pu_kind u, pu_subject_id u, pu_evidence_id u) = (pu_kind v, pu_subject_id v, pu_evidence_id v).
Proof.
  intros Hu%update_validate_Ok Hv%update_validate_Ok Hnu Hnv Hsha. rewrite Hu, Hv. unfold stable_id. split.
  - intros E. apply (f_equal bytes_of) in E. rewrite !bytes_of_app in E. apply app_inv_head in E.
    apply (inj bytes_of) in E. apply (f_equal base64_decode) in E.
    rewrite !base64_roundtrip in E by apply as_bytes_bound. injection E as E%(inj as_bytes).
    apply Hsha, update_material_inj in E as (->&->&->); done.
  - by intros [= -> -> ->].
Qed.

(** The NUL is needed: these two Updates report different evidence under one
    identity. *)
Lemma update_material_ambiguous k : exists s e s' e', (s, e) <> (s', e') /\
  stable_id k s e = stable_id k s' e'.
Proof.
  set (nul := string_of [0%Z]). exists ("a" +:+ nul +:+ "b"), "c", "a", ("b" +:+ nul +:+ "c").
  split; [done|]. done.
Qed.

(** The order does not make a projection's Updates unique: one Update, repeated
    with a later time, passes. *)
Lemma repeated_update_validates u later now : update_validate u = Ok tt -> timestamp_ok later = Ok tt ->
  timestamp_ok now = Ok tt -> str_ltb (pu_occurred_at u) later = true ->
  let u' := {| pu_schema := pu_schema u; pu_update_id := pu_update_id u; pu_kind := pu_kind u;
    pu_subject_id := pu_subject_id u; pu_evidence_id := pu_evidence_id u; pu_title := pu_title u;
    pu_detail := pu_detail u; pu_occurred_at := later; pu_read_at := pu_read_at u |} in
  updates_validate {| pp_schema := PRIVATE_UPDATES_SCHEMA; pp_items := [u'; u]; pp_updated_at := now |} = Ok tt.
Proof.
  intros Hu Hlater Hnow Hlt u'.
  assert (update_validate u' = Ok tt) as Hu'.
  { unfold update_validate in *. simpl. rewrite Hlater. do 6 (apply bind_Ok in Hu as ([]&->&Hu); rewrite bind_tt).
    by apply bind_Ok in Hu as ([]&_&Hu). }
  unfold updates_validate. cbn [pp_schema pp_items pp_updated_at for_each].
  rewrite Hu, Hu', require_bind by done. rewrite require_bind by done. rewrite !bind_tt.
  rewrite require_bind; [done|]. cbn. unfold update_before. cbn. by rewrite Hlt.
Qed.

(** ** The entitlement the phone sees *)

Lemma validate_state_days s : validate_state s = Ok tt -> length (en_successful_days s) <= 5.
Proof.
  unfold validate_state. intros Hv. do 2 (apply bind_Ok in Hv as ([]&_&Hv)).
  apply bind_Ok in Hv as ([]&Hl%fail_if_Ok&_). apply Nat.ltb_ge in Hl. unfold REQUIRED_SUCCESSFUL_DAYS in Hl. lia.
Qed.

(** [C40] The application's entitlement always has a projection the companion
    accepts: every valid entitlement state's status converts without overflow, and
    the phone's validation, which repeats the phase tables, agrees with it. *)
Theorem entitlement_projection_valid s : validate_state s = Ok tt ->
  exists p, product_entitlement (status_from s) = Some p /\
    entitlement_projection_validate p = Ok tt /\
    pe_phase p = phase_name (en_phase s) /\
    pe_successful_days p = Z.of_nat (length (en_successful_days s)).
Proof.
  intros Hl%validate_state_days. unfold product_entitlement, u8_try_from. cbn [status_from es_successful_days
    es_required_successful_days]. rewrite (proj2 (Z.leb_le (Z.of_nat (length _)) 255)) by lia. simpl.
  eexists. split; [done|]. split; [|done]. unfold entitlement_projection_validate. simpl.
  rewrite (proj2 (Z.leb_le _ 5)) by lia. simpl. by destruct (en_phase s).
Qed.
End laws.
