(* ===== verification/CompanionPairing.v ===== *)
(** * Pairing

    [companion/src/pairing.rs]: signed, short-lived, one-use invitations, the
    phone's proof that it holds its keys, the sealed response that carries it, the
    Mac's acceptance, and the store of pairing sessions. Random material is an
    argument; reading JSON is third-party code, the parameter [PairingReader]. *)
From S2P Require Import Prelude Text Digest Clock CompanionModel CompanionCrypto CompanionCommand CompanionCapability CompanionPublication.

Definition PAIRING_INVITATION_SCHEMA : string := "tohseno.companion-pairing-invitation/1".
Definition PAIRING_PROOF_SCHEMA : string := "tohseno.companion-pairing-proof/1".
Definition PAIRING_RESPONSE_BODY_SCHEMA : string := "tohseno.companion-pairing-response-body/1".
Definition PAIRING_ACCEPTANCE_SCHEMA : string := "tohseno.companion-pairing-grant-package/1".
Definition ENCRYPTED_PAIRING_RESPONSE_SCHEMA : string :=
  "tohseno.companion-encrypted-pairing-response/1".
Definition PAIRING_URI_PREFIX : string := "tohseno://pair/v1/".
Definition PAIRING_INVITATION_LIFETIME_SECONDS : Z := 120.
Definition PAIRING_INVITATION_SIGNATURE_DOMAIN : string := "tohseno.companion.pairing-invitation.v1".
Definition PAIRING_PROOF_SIGNATURE_DOMAIN : string := "tohseno.companion.pairing-proof.v1".
Definition PAIRING_CONFIRMATION_DOMAIN : string := "tohseno.companion.pairing-confirmation.v1".
Definition PAIRING_RESPONSE_KEY_DOMAIN : string := "tohseno.companion.pairing-response-key.v1".
Definition MAX_PAIRING_URI_BYTES : Z := 16384.
Definition MAX_PAIRING_RESPONSE_BYTES : Z := 65536.

(** [RelayAllowlist] *)
Definition allowlist_new (ids : list string) : companion_result (gset string) :=
  require (negb (ids == [])) "relay allowlist must not be empty" ;;
  for_each (companion_identifier "relay ID") ids ;;
  Ok (list_to_set ids).
Definition official : gset string := {["official-v1"]}.

Record PairingInvitationBody := {
  ib_schema : string;
  ib_session_id : string;
  ib_workspace_id : string;
  ib_studio_device_id : string;
  ib_studio_signing_public_key : string;
  ib_studio_ephemeral_agreement_public_key : string;
  ib_relay_id : string;
  ib_issued_at : string;
  ib_expires_at : string }.
#[export] Instance PairingInvitationBody_eq_dec : EqDecision PairingInvitationBody.
Proof. solve_decision. Defined.
Definition invitation_members (b : PairingInvitationBody) : list (string * json) :=
  [("schema", to_json (ib_schema b)); ("session_id", to_json (ib_session_id b));
   ("workspace_id", to_json (ib_workspace_id b));
   ("studio_device_id", to_json (ib_studio_device_id b));
   ("studio_signing_public_key", to_json (ib_studio_signing_public_key b));
   ("studio_ephemeral_agreement_public_key", to_json (ib_studio_ephemeral_agreement_public_key b));
   ("relay_id", to_json (ib_relay_id b)); ("issued_at", to_json (ib_issued_at b));
   ("expires_at", to_json (ib_expires_at b))].
#[export] Instance PairingInvitationBody_to_json : ToJson PairingInvitationBody :=
  λ b, JObj (invitation_members b).

Record PairingInvitation := { in_body : PairingInvitationBody; in_signature : string }.
#[export] Instance PairingInvitation_eq_dec : EqDecision PairingInvitation.
Proof. solve_decision. Defined.
#[export] Instance PairingInvitation_to_json : ToJson PairingInvitation := λ i,
  JObj (invitation_members (in_body i) ++ [("signature", to_json (in_signature i))]).

Record PairingProofBody := {
  po_schema : string;
  po_session_id : string;
  po_workspace_id : string;
  po_invitation_digest : string;
  po_companion_device_id : string;
  po_companion_display_name : string;
  po_companion_signing_public_key : string;
  po_companion_agreement_public_key : string;
  po_created_at : string }.
#[export] Instance PairingProofBody_eq_dec : EqDecision PairingProofBody.
Proof. solve_decision. Defined.
Definition proof_members (b : PairingProofBody) : list (string * json) :=
  [("schema", to_json (po_schema b)); ("session_id", to_json (po_session_id b));
   ("workspace_id", to_json (po_workspace_id b));
   ("invitation_digest", to_json (po_invitation_digest b));
   ("companion_device_id", to_json (po_companion_device_id b));
   ("companion_display_name", to_json (po_companion_display_name b));
   ("companion_signing_public_key", to_json (po_companion_signing_public_key b));
   ("companion_agreement_public_key", to_json (po_companion_agreement_public_key b));
   ("created_at", to_json (po_created_at b))].
#[export] Instance PairingProofBody_to_json : ToJson PairingProofBody := λ b, JObj (proof_members b).

Record PairingProof := {
  pf_body : PairingProofBody;
  pf_key_confirmation : string;
  pf_signature : string }.
#[export] Instance PairingProof_eq_dec : EqDecision PairingProof.
Proof. solve_decision. Defined.
#[export] Instance PairingProof_to_json : ToJson PairingProof := λ p,
  JObj (proof_members (pf_body p) ++ [("key_confirmation", to_json (pf_key_confirmation p));
                                      ("signature", to_json (pf_signature p))]).

Record EncryptedPairingResponseHeader := {
  rh_schema : string;
  rh_session_id : string;
  rh_ephemeral_public_key : string;
  rh_nonce : string }.
#[export] Instance EncryptedPairingResponseHeader_to_json : ToJson EncryptedPairingResponseHeader := λ h, JObj
  [("schema", to_json (rh_schema h)); ("session_id", to_json (rh_session_id h));
   ("ephemeral_public_key", to_json (rh_ephemeral_public_key h)); ("nonce", to_json (rh_nonce h))].

Record EncryptedPairingResponse := {
  er_header : EncryptedPairingResponseHeader;
  er_ciphertext : string }.

Record PairingResponseBody := {
  rp_schema : string;
  rp_proof : PairingProof;
  rp_response_mailbox_id : string;
  rp_response_mailbox_write_capability : string;
  rp_response_mailbox_revoke_capability : string }.
#[export] Instance PairingResponseBody_eq_dec : EqDecision PairingResponseBody.
Proof. solve_decision. Defined.
#[export] Instance PairingResponseBody_to_json : ToJson PairingResponseBody := λ b, JObj
  [("schema", to_json (rp_schema b)); ("proof", to_json (rp_proof b));
   ("response_mailbox_id", to_json (rp_response_mailbox_id b));
   ("response_mailbox_write_capability", to_json (rp_response_mailbox_write_capability b));
   ("response_mailbox_revoke_capability", to_json (rp_response_mailbox_revoke_capability b))].

Record PairingAcceptance := {
  pa_schema : string;
  pa_capability_grant : CapabilityGrant;
  pa_studio_agreement_public_key : string;
  pa_command_mailbox_id : string;
  pa_command_mailbox_write_capability : string }.

Inductive PairingSessionState : Type := PairingActive | PairingConsumed | PairingCancelled.
#[export] Instance PairingSessionState_eq_dec : EqDecision PairingSessionState.
Proof. solve_decision. Defined.

Record PairingSession := {
  ps_invitation : PairingInvitation;
  ps_ephemeral_secret : Bytes32;
  ps_state : PairingSessionState }.

(** [PairingSessionStore] *)
Abbreviation PairingStore := (gmap string PairingSession).

Definition set_state (s : PairingSession) (state : PairingSessionState) : PairingSession :=
  {| ps_invitation := ps_invitation s; ps_ephemeral_secret := ps_ephemeral_secret s; ps_state := state |}.

(** [serde_json::from_slice] at the two types pairing reads. *)
Class PairingReader := {
  decode_invitation : list Z -> Result string PairingInvitation;
  decode_response_body : list Z -> Result string PairingResponseBody }.

Section pairing.
Context `{Platform} `{TimeFormat} `{CompanionCrypto} `{PairingReader}.

(** ** Invitations *)

Definition invitation_body_validate (b : PairingInvitationBody) : companion_result unit :=
  require (ib_schema b == PAIRING_INVITATION_SCHEMA) "unsupported pairing invitation schema" ;;
  companion_identifier "pairing session ID" (ib_session_id b) ;;
  companion_identifier "workspace ID" (ib_workspace_id b) ;;
  companion_identifier "Studio device ID" (ib_studio_device_id b) ;;
  companion_identifier "relay ID" (ib_relay_id b) ;;
  decode_array 32 "Studio signing public key" (ib_studio_signing_public_key b) ;;
  decode_array 32 "Studio ephemeral agreement public key"
    (ib_studio_ephemeral_agreement_public_key b) ;;
  issued ← companion_timestamp (ib_issued_at b);
  expires ← companion_timestamp (ib_expires_at b);
  require ((0 <? whole_seconds (instant expires - instant issued))
           && (whole_seconds (instant expires - instant issued) <=? PAIRING_INVITATION_LIFETIME_SECONDS))
    "pairing invitation lifetime must be no more than two minutes".

Definition sign_invitation (body : PairingInvitationBody) (studio : Identity)
    : companion_result PairingInvitation :=
  invitation_body_validate body ;;
  require (ib_studio_signing_public_key body == signing_public_key_base64url studio)
    "pairing invitation signing key does not match the Studio identity" ;;
  bytes ← companion_to_vec body;
  Ok {| in_body := body; in_signature := base64_encode (as_bytes
          (identity_sign studio PAIRING_INVITATION_SIGNATURE_DOMAIN bytes)) |}.

Definition invitation_verify (i : PairingInvitation) (trusted_studio_signing_key : Bytes32)
    (allowlist : gset string) (now : OffsetDateTime) : companion_result unit :=
  let body := in_body i in
  invitation_body_validate body ;;
  require (bool_decide (ib_relay_id body ∈ allowlist))
    "pairing invitation names a relay ID outside the allowlist" ;;
  validate_window (ib_issued_at body) (ib_expires_at body) now PAIRING_INVITATION_LIFETIME_SECONDS
    MAX_CLOCK_SKEW_SECONDS ;;
  encoded_key ← decode_array 32 "Studio signing public key" (ib_studio_signing_public_key body);
  require (encoded_key == trusted_studio_signing_key) "pairing invitation Studio key is not trusted" ;;
  signature ← decode_array 64 "pairing invitation signature" (in_signature i);
  bytes ← companion_to_vec body;
  identity_verify trusted_studio_signing_key PAIRING_INVITATION_SIGNATURE_DOMAIN bytes signature.

Definition to_uri (i : PairingInvitation) : companion_result string :=
  payload ← companion_to_vec i;
  require (Z.of_nat (length payload) <=? MAX_PAIRING_URI_BYTES)%Z "pairing invitation is too large" ;;
  Ok (PAIRING_URI_PREFIX +:+ base64_encode payload).

Definition from_uri (uri : string) : companion_result PairingInvitation :=
  require (Z.of_nat (len uri) <=? MAX_PAIRING_URI_BYTES * 2)%Z "pairing URI is too large" ;;
  payload ← ok_or (CInvalid "unsupported pairing URI")
              (strip_prefix (bytes_of PAIRING_URI_PREFIX) (bytes_of uri));
  bytes ← decode_base64url "pairing URI payload" (string_of payload) MAX_PAIRING_URI_BYTES;
  companion_from_slice decode_invitation bytes.

Definition invitation_digest (i : PairingInvitation) : companion_result Bytes32 :=
  bytes ← companion_to_vec i;
  Ok (sha256 bytes).

(** ** Proofs *)

Definition proof_body_validate (b : PairingProofBody) : companion_result unit :=
  require (po_schema b == PAIRING_PROOF_SCHEMA) "unsupported pairing proof schema" ;;
  companion_identifier "pairing session ID" (po_session_id b) ;;
  companion_identifier "workspace ID" (po_workspace_id b) ;;
  companion_identifier "companion device ID" (po_companion_device_id b) ;;
  companion_text "companion display name" (po_companion_display_name b) 256 ;;
  decode_array 32 "invitation digest" (po_invitation_digest b) ;;
  decode_array 32 "companion signing public key" (po_companion_signing_public_key b) ;;
  decode_array 32 "companion agreement public key" (po_companion_agreement_public_key b) ;;
  companion_timestamp (po_created_at b) ;;
  Ok tt.

(** The key both sides confirm, from their shared secret. *)
Definition confirmation_key (shared digest : Bytes32) : companion_result Bytes32 :=
  derive_key shared (as_bytes digest) (bytes_of PAIRING_CONFIRMATION_DOMAIN).

(** [PairingProof::create] *)
Definition proof_create (i : PairingInvitation) (companion : Identity) (display_name created_at : string)
    : companion_result PairingProof :=
  digest ← invitation_digest i;
  let body := {| po_schema := PAIRING_PROOF_SCHEMA; po_session_id := ib_session_id (in_body i);
    po_workspace_id := ib_workspace_id (in_body i);
    po_invitation_digest := base64_encode (as_bytes digest);
    po_companion_device_id := id_device_id companion; po_companion_display_name := display_name;
    po_companion_signing_public_key := signing_public_key_base64url companion;
    po_companion_agreement_public_key := agreement_public_key_base64url companion;
    po_created_at := created_at |} in
  proof_body_validate body ;;
  body_bytes ← companion_to_vec body;
  studio_ephemeral ← decode_array 32 "Studio ephemeral agreement public key"
                       (ib_studio_ephemeral_agreement_public_key (in_body i));
  shared ← agree companion studio_ephemeral;
  key ← confirmation_key shared digest;
  confirmation ← hmac_sha256 key PAIRING_CONFIRMATION_DOMAIN body_bytes;
  Ok {| pf_body := body; pf_key_confirmation := base64_encode (as_bytes confirmation);
        pf_signature := base64_encode (as_bytes
          (identity_sign companion PAIRING_PROOF_SIGNATURE_DOMAIN body_bytes)) |}.

(** [PairingProof::verify] *)
Definition proof_verify (p : PairingProof) (i : PairingInvitation) (studio_ephemeral_secret : Bytes32)
    (now : OffsetDateTime) : companion_result unit :=
  let body := pf_body p in
  proof_body_validate body ;;
  require ((po_session_id body == ib_session_id (in_body i))
           && (po_workspace_id body == ib_workspace_id (in_body i)))
    "pairing proof names a different invitation" ;;
  digest ← invitation_digest i;
  require (po_invitation_digest body == base64_encode (as_bytes digest))
    "pairing proof invitation digest differs" ;;
  created ← companion_timestamp (po_created_at body);
  issued ← companion_timestamp (ib_issued_at (in_body i));
  expires ← companion_timestamp (ib_expires_at (in_body i));
  require ((instant issued - seconds MAX_CLOCK_SKEW_SECONDS <=? instant created)
           && (instant created <=? instant expires + seconds MAX_CLOCK_SKEW_SECONDS)
           && (instant now <=? instant expires + seconds MAX_CLOCK_SKEW_SECONDS))%Z
    "pairing proof is outside the invitation window" ;;
  signing_key ← decode_array 32 "companion signing public key" (po_companion_signing_public_key body);
  agreement_key ← decode_array 32 "companion agreement public key"
                    (po_companion_agreement_public_key body);
  require (po_companion_device_id body == device_id_from_public_keys signing_key agreement_key)
    "pairing proof device ID does not bind its public keys" ;;
  body_bytes ← companion_to_vec body;
  signature ← decode_array 64 "pairing proof signature" (pf_signature p);
  identity_verify signing_key PAIRING_PROOF_SIGNATURE_DOMAIN body_bytes signature ;;
  shared ← x25519 studio_ephemeral_secret agreement_key;
  digest ← invitation_digest i;
  key ← confirmation_key shared digest;
  confirmation ← decode_array 32 "pairing key confirmation" (pf_key_confirmation p);
  verify_hmac_sha256 key PAIRING_CONFIRMATION_DOMAIN body_bytes confirmation.

(** ** Sealed responses *)

(** [relay_client::validate_bearer_capability] *)
Definition validate_bearer_capability (capability : string) : companion_result Bytes32 :=
  decode_array 32 "relay bearer capability" capability.

Definition response_body_validate (b : PairingResponseBody) : companion_result unit :=
  require (rp_schema b == PAIRING_RESPONSE_BODY_SCHEMA) "unsupported pairing response body schema" ;;
  companion_identifier "response mailbox ID" (rp_response_mailbox_id b) ;;
  validate_bearer_capability (rp_response_mailbox_write_capability b) ;;
  validate_bearer_capability (rp_response_mailbox_revoke_capability b) ;;
  require (rp_response_mailbox_write_capability b != rp_response_mailbox_revoke_capability b)
    "response mailbox capabilities must be distinct".

Definition response_header_validate (h : EncryptedPairingResponseHeader) : companion_result unit :=
  require (rh_schema h == ENCRYPTED_PAIRING_RESPONSE_SCHEMA)
    "unsupported encrypted pairing response schema" ;;
  companion_identifier "pairing session ID" (rh_session_id h) ;;
  decode_array 32 "pairing response ephemeral public key" (rh_ephemeral_public_key h) ;;
  decode_array 12 "pairing response nonce" (rh_nonce h) ;;
  Ok tt.

Definition response_key (shared digest : Bytes32) : companion_result Bytes32 :=
  derive_key shared (as_bytes digest) (bytes_of PAIRING_RESPONSE_KEY_DOMAIN).

Definition response_seal_with_material (i : PairingInvitation) (body : PairingResponseBody)
    (ephemeral_secret : Bytes32) (nonce : ByteArray 12) : companion_result EncryptedPairingResponse :=
  require ((po_session_id (pf_body (rp_proof body)) == ib_session_id (in_body i))
           && (po_workspace_id (pf_body (rp_proof body)) == ib_workspace_id (in_body i)))
    "pairing proof does not match the invitation" ;;
  response_body_validate body ;;
  let header := {| rh_schema := ENCRYPTED_PAIRING_RESPONSE_SCHEMA;
    rh_session_id := ib_session_id (in_body i);
    rh_ephemeral_public_key := base64_encode (as_bytes (x25519_public ephemeral_secret));
    rh_nonce := base64_encode (as_bytes nonce) |} in
  response_header_validate header ;;
  aad ← companion_to_vec header;
  studio_ephemeral ← decode_array 32 "Studio ephemeral agreement public key"
                       (ib_studio_ephemeral_agreement_public_key (in_body i));
  shared ← x25519 ephemeral_secret studio_ephemeral;
  digest ← invitation_digest i;
  key ← response_key shared digest;
  plaintext ← companion_to_vec body;
  ciphertext ← encrypt key nonce plaintext aad;
  require (Z.of_nat (length ciphertext) <=? MAX_PAIRING_RESPONSE_BYTES)%Z
    "encrypted pairing response is too large" ;;
  Ok {| er_header := header; er_ciphertext := base64_encode ciphertext |}.

Definition response_relay_shape (r : EncryptedPairingResponse) : companion_result unit :=
  response_header_validate (er_header r) ;;
  ciphertext ← decode_base64url "pairing response ciphertext" (er_ciphertext r)
                 MAX_PAIRING_RESPONSE_BYTES;
  require (16 <=? length ciphertext)%nat "pairing response ciphertext is too short".

Definition response_open (r : EncryptedPairingResponse) (i : PairingInvitation)
    (studio_ephemeral_secret : Bytes32) : companion_result PairingResponseBody :=
  response_relay_shape r ;;
  require (rh_session_id (er_header r) == ib_session_id (in_body i))
    "encrypted pairing response names a different session" ;;
  ephemeral ← decode_array 32 "pairing response ephemeral public key"
                (rh_ephemeral_public_key (er_header r));
  nonce ← decode_array 12 "pairing response nonce" (rh_nonce (er_header r));
  ciphertext ← decode_base64url "pairing response ciphertext" (er_ciphertext r)
                 MAX_PAIRING_RESPONSE_BYTES;
  shared ← x25519 studio_ephemeral_secret ephemeral;
  digest ← invitation_digest i;
  key ← response_key shared digest;
  aad ← companion_to_vec (er_header r);
  plaintext ← decrypt key nonce ciphertext aad;
  body ← companion_from_slice decode_response_body plaintext;
  response_body_validate body ;;
  Ok body.

(** ** Acceptance *)

Definition pairing_acceptance_validate (a : PairingAcceptance) (trusted_studio_signing_key : Bytes32)
    (expected_studio_device_id expected_companion_device_id expected_workspace_id : string)
    (now : OffsetDateTime) : companion_result unit :=
  require (pa_schema a == PAIRING_ACCEPTANCE_SCHEMA) "unsupported pairing acceptance schema" ;;
  studio_agreement_public_key ← decode_array 32 "Studio agreement public key"
                                  (pa_studio_agreement_public_key a);
  require (device_id_from_public_keys trusted_studio_signing_key studio_agreement_public_key
           == expected_studio_device_id)
    "pairing acceptance Studio identity differs from the invitation" ;;
  companion_identifier "command mailbox ID" (pa_command_mailbox_id a) ;;
  validate_bearer_capability (pa_command_mailbox_write_capability a) ;;
  grant_verify (pa_capability_grant a) trusted_studio_signing_key now ;;
  require ((cg_workspace_id (gr_body (pa_capability_grant a)) == expected_workspace_id)
           && (cg_device_id (gr_body (pa_capability_grant a)) == expected_companion_device_id))
    "pairing capability grant does not match the paired workspace and device".

(** ** The session store *)

Definition insert_with_secret (store : PairingStore)
    (session_id workspace_id studio_device_id relay_id issued_at expires_at : string)
    (studio : Identity) (ephemeral_secret : Bytes32) : PairingStore * companion_result PairingInvitation :=
  if opt_is_some (store !! session_id)
  then (store, Err (CInvalid "pairing session ID already exists"))
  else
    match sign_invitation {| ib_schema := PAIRING_INVITATION_SCHEMA; ib_session_id := session_id;
            ib_workspace_id := workspace_id; ib_studio_device_id := studio_device_id;
            ib_studio_signing_public_key := signing_public_key_base64url studio;
            ib_studio_ephemeral_agreement_public_key :=
              base64_encode (as_bytes (x25519_public ephemeral_secret));
            ib_relay_id := relay_id; ib_issued_at := issued_at; ib_expires_at := expires_at |} studio with
    | Err e => (store, Err e)
    | Ok invitation =>
        (<[session_id := {| ps_invitation := invitation; ps_ephemeral_secret := ephemeral_secret;
                            ps_state := PairingActive |}]> store, Ok invitation)
    end.

(** [PairingSessionStore::create], with its random material. *)
Definition create_session (store : PairingStore) (workspace_id studio_device_id relay_id issued_at
    expires_at : string) (studio : Identity) (allowlist : gset string) (session_random : list Z)
    (secret : Bytes32) : PairingStore * companion_result PairingInvitation :=
  if negb (bool_decide (relay_id ∈ allowlist))
  then (store, Err (CInvalid "pairing session relay ID is not allowlisted"))
  else insert_with_secret store ("pair_" +:+ base64_encode session_random) workspace_id
         studio_device_id relay_id issued_at expires_at studio secret.

Definition register_relay_session (store : PairingStore) (session_id workspace_id studio_device_id
    relay_id issued_at expires_at : string) (studio : Identity) (allowlist : gset string)
    (secret : Bytes32) : PairingStore * companion_result PairingInvitation :=
  if negb (bool_decide (relay_id ∈ allowlist))
  then (store, Err (CInvalid "pairing session relay ID is not allowlisted"))
  else if negb ((len session_id =? 32)%nat
                && forallb (λ b, is_ascii_alphanumeric b || (b =? 45)%Z || (b =? 95)%Z)
                     (bytes_of session_id))
  then (store, Err (CInvalid "relay pairing session ID must be a 32-character opaque identifier"))
  else insert_with_secret store session_id workspace_id studio_device_id relay_id issued_at
         expires_at studio secret.

Definition session_state (store : PairingStore) (session_id : string) : option PairingSessionState :=
  ps_state <$> store !! session_id.

Definition cancel_session (store : PairingStore) (session_id : string)
    : PairingStore * companion_result unit :=
  match store !! session_id with
  | None => (store, Err (CInvalid "pairing session does not exist"))
  | Some session =>
      if negb (ps_state session == PairingActive)
      then (store, Err (CInvalid "pairing session is not active"))
      else (<[session_id := set_state session PairingCancelled]> store, Ok tt)
  end.

(** What [consume] and [consume_encrypted] share: the session must be active and
    its invitation still verify; a checked value consumes it. *)
Definition consume_with {A} (store : PairingStore) (session_id : string)
    (trusted_studio_signing_key : Bytes32) (allowlist : gset string) (now : OffsetDateTime)
    (check : PairingSession -> companion_result A) : PairingStore * companion_result A :=
  match store !! session_id with
  | None => (store, Err (CInvalid "pairing session does not exist"))
  | Some session =>
      match (require (ps_state session == PairingActive)
               "pairing session was already used or cancelled" ;;
             invitation_verify (ps_invitation session) trusted_studio_signing_key allowlist now ;;
             check session) with
      | Err e => (store, Err e)
      | Ok a => (<[session_id := set_state session PairingConsumed]> store, Ok a)
      end
  end.

Definition consume (store : PairingStore) (session_id : string) (proof : PairingProof)
    (trusted_studio_signing_key : Bytes32) (allowlist : gset string) (now : OffsetDateTime)
    : PairingStore * companion_result PairingProofBody :=
  consume_with store session_id trusted_studio_signing_key allowlist now (λ session,
    proof_verify proof (ps_invitation session) (ps_ephemeral_secret session) now ;;
    Ok (pf_body proof)).

Definition consume_encrypted (store : PairingStore) (session_id : string)
    (response : EncryptedPairingResponse) (trusted_studio_signing_key : Bytes32)
    (allowlist : gset string) (now : OffsetDateTime)
    : PairingStore * companion_result PairingResponseBody :=
  consume_with store session_id trusted_studio_signing_key allowlist now (λ session,
    body ← response_open response (ps_invitation session) (ps_ephemeral_secret session);
    proof_verify (rp_proof body) (ps_invitation session) (ps_ephemeral_secret session) now ;;
    Ok body).
End pairing.
