(* ===== verification/CompanionPairingLaws.v ===== *)
(** * Laws of pairing

    A session is used at most once, only by a genuine proof, and an honest phone
    that answers in time is paired. *)
From S2P Require Import Prelude Text Digest Clock CompanionModel CompanionCrypto CompanionCommand CompanionCapability CompanionPublication CompanionPairing.

#[local] Arguments Nat.leb : simpl never.
#[local] Arguments identity_verify : simpl never.
#[local] Arguments companion_to_vec : simpl never.
#[local] Arguments companion_timestamp : simpl never.
#[local] Arguments decode_array : simpl never.
#[local] Arguments decode_base64url : simpl never.
#[local] Arguments invitation_verify : simpl never.
#[local] Arguments proof_verify : simpl never.

Section laws.
Context `{Platform} `{TimeFormat} `{CompanionCrypto} `{PairingReader}.

(** ** One use *)

Lemma consume_with_spec {A} store id key allowlist now (check : PairingSession -> companion_result A) :
  match snd (consume_with store id key allowlist now check) with
  | Err _ => fst (consume_with store id key allowlist now check) = store
  | Ok a => exists session, store !! id = Some session /\ ps_state session = PairingActive /\
      invitation_verify (ps_invitation session) key allowlist now = Ok tt /\ check session = Ok a /\
      fst (consume_with store id key allowlist now check)
        = <[id := set_state session PairingConsumed]> store
  end.
Proof.
  unfold consume_with. destruct (store !! id) as [session|] eqn:E; [|done].
  destruct (_ ;; _) as [a|e] eqn:Hc; simpl; [|done].
  apply bind_Ok in Hc as ([]&Ha%require_Ok%bool_decide_eq_true&Hc).
  apply bind_Ok in Hc as ([]&Hi&Hc). by exists session.
Qed.

Lemma insert_spec store id ws device relay issued expires studio secret :
  let r := insert_with_secret store id ws device relay issued expires studio secret in
  match snd r with
  | Err _ => fst r = store
  | Ok i => store !! id = None /\ fst r = <[id := {| ps_invitation := i; ps_ephemeral_secret := secret;
      ps_state := PairingActive |}]> store
  end.
Proof.
  intros r. unfold r, insert_with_secret. destruct (store !! id); [done|]. simpl.
  by destruct (sign_invitation _ _).
Qed.

(** The operations on the store. *)
Inductive pairing_op : Type :=
  | DoCreate (workspace_id studio_device_id relay_id issued_at expires_at : string) (studio : Identity)
      (allowlist : gset string) (session_random : list Z) (secret : Bytes32)
  | DoRegister (session_id workspace_id studio_device_id relay_id issued_at expires_at : string)
      (studio : Identity) (allowlist : gset string) (secret : Bytes32)
  | DoCancel (session_id : string)
  | DoConsume (session_id : string) (proof : PairingProof) (key : Bytes32) (allowlist : gset string)
      (now : OffsetDateTime)
  | DoConsumeEncrypted (session_id : string) (response : EncryptedPairingResponse) (key : Bytes32)
      (allowlist : gset string) (now : OffsetDateTime).

(** The store afterwards, and whether the operation succeeded. *)
Definition pairing_run (op : pairing_op) (store : PairingStore) : PairingStore * bool :=
  match op with
  | DoCreate ws device relay issued expires studio allowlist random secret =>
      let r := create_session store ws device relay issued expires studio allowlist random secret in
      (fst r, is_ok (snd r))
  | DoRegister id ws device relay issued expires studio allowlist secret =>
      let r := register_relay_session store id ws device relay issued expires studio allowlist secret in
      (fst r, is_ok (snd r))
  | DoCancel id => let r := cancel_session store id in (fst r, is_ok (snd r))
  | DoConsume id proof key allowlist now =>
      let r := consume store id proof key allowlist now in (fst r, is_ok (snd r))
  | DoConsumeEncrypted id response key allowlist now =>
      let r := consume_encrypted store id response key allowlist now in (fst r, is_ok (snd r))
  end.

(** The session an operation names, if it uses one up. *)
Definition uses_session (op : pairing_op) : option string :=
  match op with
  | DoCancel id | DoConsume id _ _ _ _ | DoConsumeEncrypted id _ _ _ _ => Some id
  | _ => None
  end.

Definition finished (state : PairingSessionState) : Prop := state <> PairingActive.

(** What an operation can do to the store: nothing, start a session that was not
    there, or finish an active one. *)
Inductive pairing_effect (op : pairing_op) (store : PairingStore) : PairingStore -> bool -> Prop :=
  | effect_none : pairing_effect op store store false
  | effect_start id session : store !! id = None -> ps_state session = PairingActive ->
      uses_session op = None -> pairing_effect op store (<[id := session]> store) true
  | effect_finish id session state : store !! id = Some session -> ps_state session = PairingActive ->
      finished state -> uses_session op = Some id ->
      pairing_effect op store (<[id := set_state session state]> store) true.

Lemma insert_effect op store id ws device relay issued expires studio secret : uses_session op = None ->
  let r := insert_with_secret store id ws device relay issued expires studio secret in
  pairing_effect op store (fst r) (is_ok (snd r)).
Proof.
  intros Hop r. pose proof (insert_spec store id ws device relay issued expires studio secret) as Hs.
  fold r in Hs. destruct r as [store' [i|e]]; simpl in *; [|subst; constructor].
  destruct Hs as [Hn ->]. by apply effect_start.
Qed.

Lemma consume_effect {A} op store id key allowlist now (check : PairingSession -> companion_result A) :
  uses_session op = Some id ->
  let r := consume_with store id key allowlist now check in
  pairing_effect op store (fst r) (is_ok (snd r)).
Proof.
  intros Hop r. pose proof (consume_with_spec store id key allowlist now check) as Hs. fold r in Hs.
  destruct r as [store' [a|e]]; simpl in *; [|subst; constructor].
  destruct Hs as (session&Hl&Ha&_&_&->). by apply effect_finish.
Qed.

Lemma pairing_run_effect op store :
  pairing_effect op store (fst (pairing_run op store)) (snd (pairing_run op store)).
Proof.
  destruct op as [ws device relay issued expires studio allowlist random secret
                 |id ws device relay issued expires studio allowlist secret|id| |]; simpl.
  - unfold create_session. destruct (negb _); [constructor|]. by apply insert_effect.
  - unfold register_relay_session. do 2 (destruct (negb _); [constructor|]). by apply insert_effect.
  - unfold cancel_session. destruct (store !! id) as [session|] eqn:E; [|constructor].
    destruct (negb _) eqn:Ha; [constructor|]. simpl. apply negb_false_iff, bool_decide_eq_true in Ha.
    by apply effect_finish.
  - by apply consume_effect.
  - by apply consume_effect.
Qed.

Definition pairing_step (store store' : PairingStore) : Prop :=
  exists op, fst (pairing_run op store) = store'.

Lemma finished_kept store store' id : rtc pairing_step store store' ->
  forall state, finished state -> session_state store id = Some state -> session_state store' id = Some state.
Proof.
  induction 1 as [|a b c [op Hop] _ IH]; [done|]. intros state Hf Ha. apply IH; [done|].
  pose proof (pairing_run_effect op a) as He. rewrite Hop in He. revert Ha. unfold session_state.
  inversion He as [|id' s Hl Hs _|id' s st Hl Hs _ _]; subst; [done| |];
    rewrite lookup_insert; case_decide as E; try done; subst; rewrite Hl; simpl; [done|].
  intros [= <-]. by destruct Hf.
Qed.

(** [C35] A pairing session is used at most once: once it is consumed or
    cancelled, then whatever the store does in between, it stays in that state and
    no proof, response or cancellation succeeds on it, nor a new session under its
    identifier. *)
Theorem pairing_used_once op store store' id :
  uses_session op = Some id -> snd (pairing_run op store) = true ->
  rtc pairing_step (fst (pairing_run op store)) store' ->
  (exists state, finished state /\ session_state store' id = Some state) /\
  (forall op', uses_session op' = Some id -> snd (pairing_run op' store') = false) /\
  (forall ws device relay issued expires studio secret,
     snd (insert_with_secret store' id ws device relay issued expires studio secret)
       = Err (CInvalid "pairing session ID already exists")).
Proof.
  intros Hu Hok Hsteps. pose proof (pairing_run_effect op store) as He. rewrite Hok in He.
  assert (exists state, finished state /\ session_state (fst (pairing_run op store)) id = Some state)
    as (state&Hf&Hs).
  { inversion He as [|id' s Hl Ha Hn|id' s st Hl Ha Hf Hid]; subst; [congruence|].
    rewrite Hid in Hu. injection Hu as ->. exists st. split; [done|].
    unfold session_state. by rewrite lookup_insert_eq. }
  pose proof (finished_kept _ _ id Hsteps state Hf Hs) as Hs'. split_and!.
  - by exists state.
  - intros op' Hu'. pose proof (pairing_run_effect op' store') as He'. unfold session_state in Hs'.
    destruct (snd (pairing_run op' store')); [|done].
    inversion He' as [|id' s Hl Ha Hn|id' s st Hl Ha Hf' Hid]; subst; [congruence|].
    rewrite Hid in Hu'. injection Hu' as ->. rewrite Hl in Hs'. injection Hs' as <-. by destruct Hf.
  - intros. unfold insert_with_secret. unfold session_state in Hs'.
    by destruct (store' !! id).
Qed.

(** A failed attempt changes nothing: when an operation on the store fails,
    the store is as before, so a forged or late proof does not use the session up. *)
Theorem failed_pairing_changes_nothing op store :
  snd (pairing_run op store) = false -> fst (pairing_run op store) = store.
Proof.
  intros Hf. pose proof (pairing_run_effect op store) as He. rewrite Hf in He.
  inversion He; congruence.
Qed.

(** ** Genuine proofs *)

(** The proof is for this invitation, in its window, and whoever made it holds the
    signing key and shares a secret with the session's ephemeral key; the device
    identifier is the digest of its two public keys. *)
Record proof_genuine (p : PairingProof) (i : PairingInvitation) (secret : Bytes32) (now : OffsetDateTime) : Prop := {
  pg_session : po_session_id (pf_body p) = ib_session_id (in_body i);
  pg_workspace : po_workspace_id (pf_body p) = ib_workspace_id (in_body i);
  pg_window : exists created issued expires,
    companion_timestamp (po_created_at (pf_body p)) = Ok created /\
    companion_timestamp (ib_issued_at (in_body i)) = Ok issued /\
    companion_timestamp (ib_expires_at (in_body i)) = Ok expires /\
    (instant issued - seconds MAX_CLOCK_SKEW_SECONDS <= instant created
       <= instant expires + seconds MAX_CLOCK_SKEW_SECONDS)%Z /\
    (instant now <= instant expires + seconds MAX_CLOCK_SKEW_SECONDS)%Z;
  pg_keys : exists signing_key agreement_key digest shared bytes confirmation,
    po_companion_signing_public_key (pf_body p) = base64_encode (as_bytes signing_key) /\
    po_companion_agreement_public_key (pf_body p) = base64_encode (as_bytes agreement_key) /\
    po_companion_device_id (pf_body p) = device_id_from_public_keys signing_key agreement_key /\
    signed_by signing_key PAIRING_PROOF_SIGNATURE_DOMAIN (pf_body p) (pf_signature p) /\
    invitation_digest i = Ok digest /\
    po_invitation_digest (pf_body p) = base64_encode (as_bytes digest) /\
    x25519 secret agreement_key = Ok shared /\
    companion_to_vec (pf_body p) = Ok bytes /\
    pf_key_confirmation p = base64_encode (as_bytes confirmation) /\
    hmac (as_bytes (hkdf_sha256 (as_bytes digest) (as_bytes shared)
                      (bytes_of PAIRING_CONFIRMATION_DOMAIN)))
      (bytes_of PAIRING_CONFIRMATION_DOMAIN ++ 0%Z :: bytes) = confirmation }.

Lemma proof_verify_Ok p i secret now : proof_verify p i secret now = Ok tt -> proof_genuine p i secret now.
Proof.
  unfold proof_verify, confirmation_key, derive_key, verify_hmac_sha256. intros Hv.
  apply bind_Ok in Hv as ([]&_&Hv). apply bind_Ok in Hv as ([]&Hid%require_Ok&Hv).
  apply bind_Ok in Hv as (digest&Hd&Hv).
  apply bind_Ok in Hv as ([]&Hpd%require_Ok%bool_decide_eq_true&Hv).
  apply bind_Ok in Hv as (created&Hc&Hv). apply bind_Ok in Hv as (issued&Hi&Hv).
  apply bind_Ok in Hv as (expires&He&Hv). apply bind_Ok in Hv as ([]&Hw%require_Ok&Hv).
  apply bind_Ok in Hv as (sk&Hsk%decode_array_Ok&Hv). apply bind_Ok in Hv as (ak&Hak%decode_array_Ok&Hv).
  apply bind_Ok in Hv as ([]&Hdev%require_Ok%bool_decide_eq_true&Hv).
  apply bind_Ok in Hv as (bytes&Hb&Hv). apply bind_Ok in Hv as (sig&Hsig%decode_array_Ok&Hv).
  apply bind_Ok in Hv as ([]&Hsigned&Hv). apply bind_Ok in Hv as (shared&Hsh&Hv).
  apply bind_Ok in Hv as (digest'&Hd'&Hv). rewrite Hd in Hd'. injection Hd' as <-.
  simpl mbind in Hv. apply bind_Ok in Hv as (conf&Hconf%decode_array_Ok&Hv%fail_if_Ok).
  apply negb_false_iff, bool_decide_eq_true in Hv.
  rewrite andb_true_iff, !bool_decide_eq_true in Hid. destruct Hid as [Hid Hws].
  rewrite !andb_true_iff, !Z.leb_le in Hw. constructor; try done.
  - exists created, issued, expires. split_and!; try done; tauto.
  - exists sk, ak, digest, shared, bytes, conf. split_and!; try done.
    unfold identity_verify in Hsigned. apply bind_Ok in Hsigned as ([]&Hk%fail_if_Ok&Hs%fail_if_Ok).
    apply negb_false_iff in Hk, Hs. by exists bytes, sig.
Qed.

(** The proof that consumed a session, in the clear or sealed. *)
Definition consumed_by (store store' : PairingStore) (id : string) (key : Bytes32) (allowlist : gset string)
    (now : OffsetDateTime) (p : PairingProof) : Prop :=
  (exists b, consume store id p key allowlist now = (store', Ok b)) \/
  (exists r b, consume_encrypted store id r key allowlist now = (store', Ok b) /\ rp_proof b = p).

(** [C36] Only a genuine proof pairs a device: a session is consumed only while it
    is active, under a trusted, allowlisted and unexpired invitation, and by a proof
    for that very invitation whose maker holds both keys that its device identifier
    binds. *)
Theorem paired_device_is_genuine store store' id key allowlist now p :
  consumed_by store store' id key allowlist now p ->
  exists session, store !! id = Some session /\ ps_state session = PairingActive /\
    store' = <[id := set_state session PairingConsumed]> store /\
    invitation_verify (ps_invitation session) key allowlist now = Ok tt /\
    proof_genuine p (ps_invitation session) (ps_ephemeral_secret session) now.
Proof.
  intros [[b Hc]|(r&b&Hc&<-)]; unfold consume, consume_encrypted in Hc;
    (match type of Hc with consume_with ?s ?i ?k ?a ?n ?f = _ =>
       pose proof (consume_with_spec s i k a n f) as Hs end); rewrite Hc in Hs; simpl in Hs;
    destruct Hs as (session&Hl&Ha&Hi&Hcheck&->); exists session; (split_and!; [done..|]).
  - by apply bind_Ok in Hcheck as ([]&Hp%proof_verify_Ok&_).
  - apply bind_Ok in Hcheck as (b'&_&Hcheck). by apply bind_Ok in Hcheck as ([]&Hp%proof_verify_Ok&[= <-]).
Qed.

(** ** Honest pairing *)

Section honest.
Context `{!CompanionCryptoLaws} `{!JcsLaws}.

Lemma sign_invitation_verifies body studio i allowlist now ti te : identity_ok studio ->
  sign_invitation body studio = Ok i -> ib_relay_id body ∈ allowlist ->
  companion_timestamp (ib_issued_at body) = Ok ti -> companion_timestamp (ib_expires_at body) = Ok te ->
  (instant ti - seconds MAX_CLOCK_SKEW_SECONDS <= instant now
     <= instant te + seconds MAX_CLOCK_SKEW_SECONDS)%Z ->
  in_body i = body /\ invitation_verify i (id_signing_public_key studio) allowlist now = Ok tt.
Proof.
  intros Hi Hs Hrelay Hti Hte Hn. unfold sign_invitation in Hs. apply bind_Ok in Hs as ([]&Hv&Hs).
  apply bind_Ok in Hs as ([]&Hk%require_Ok%bool_decide_eq_true&Hs).
  apply bind_Ok in Hs as (bytes&Hb&[= <-]). split; [done|]. unfold invitation_verify. cbn [in_body in_signature].
  pose proof Hv as Hlife. unfold invitation_body_validate in Hlife.
  do 7 (apply bind_Ok in Hlife as (?&_&Hlife)). rewrite Hti in Hlife. simpl mbind in Hlife.
  rewrite Hte in Hlife. simpl mbind in Hlife. apply require_Ok, andb_true_iff in Hlife as [Hlo%Z.ltb_lt Hhi%Z.leb_le].
  rewrite Hv, bind_tt, require_bind by by apply bool_decide_eq_true.
  rewrite (window_holds _ _ _ _ _ ti te), bind_tt by done.
  rewrite Hk. unfold signing_public_key_base64url. rewrite (decode_array_encoded 32) by done. simpl mbind.
  rewrite require_bind by by apply bool_decide_eq_true. by apply signed_verifies.
Qed.

Lemma proof_create_verifies i phone name created p secret now tc ti te : identity_ok phone ->
  proof_create i phone name created = Ok p ->
  ib_studio_ephemeral_agreement_public_key (in_body i) = base64_encode (as_bytes (x25519_public secret)) ->
  companion_timestamp created = Ok tc -> companion_timestamp (ib_issued_at (in_body i)) = Ok ti ->
  companion_timestamp (ib_expires_at (in_body i)) = Ok te ->
  (instant ti - seconds MAX_CLOCK_SKEW_SECONDS <= instant tc
     <= instant te + seconds MAX_CLOCK_SKEW_SECONDS)%Z ->
  (instant now <= instant te + seconds MAX_CLOCK_SKEW_SECONDS)%Z ->
  proof_verify p i secret now = Ok tt.
Proof.
  intros Hi Hp Hsec Htc Hti Hte Hw Hn. unfold proof_create, hmac_sha256 in Hp.
  apply bind_Ok in Hp as (digest&Hd&Hp). apply bind_Ok in Hp as ([]&Hbody&Hp).
  apply bind_Ok in Hp as (bytes&Hb&Hp). apply bind_Ok in Hp as (eph&He&Hp).
  rewrite Hsec, (decode_array_encoded 32) in He by done. injection He as <-.
  rewrite agree_commutes in Hp by done. apply bind_Ok in Hp as (shared&Hsh&Hp).
  unfold confirmation_key, derive_key in Hp. simpl mbind in Hp. injection Hp as <-.
  unfold proof_verify, confirmation_key, derive_key, verify_hmac_sha256. cbn [pf_body pf_signature pf_key_confirmation].
  rewrite Hbody, bind_tt, require_bind.
  2: { by rewrite andb_true_iff, !bool_decide_eq_true. }
  rewrite Hd. simpl mbind. rewrite require_bind by by apply bool_decide_eq_true.
  cbn [po_created_at]. rewrite Htc. simpl mbind. rewrite Hti. simpl mbind. rewrite Hte. simpl mbind.
  rewrite require_bind.
  2: { rewrite !andb_true_iff, !Z.leb_le. tauto. }
  cbn [po_companion_signing_public_key po_companion_agreement_public_key po_companion_device_id].
  unfold signing_public_key_base64url, agreement_public_key_base64url.
  rewrite (decode_array_encoded 32 "companion signing public key") by done. simpl mbind.
  rewrite (decode_array_encoded 32 "companion agreement public key") by done. simpl mbind. rewrite require_bind.
  2: { apply bool_decide_eq_true. rewrite Hi. done. }
  unfold signing_public_key_base64url, agreement_public_key_base64url in Hb. rewrite Hb. simpl mbind.
  rewrite (decode_array_encoded 64) by done. simpl mbind. rewrite sign_verifies, bind_tt by done.
  rewrite Hsh. simpl mbind. rewrite (decode_array_encoded 32) by done. simpl mbind.
  apply fail_if_Ok, negb_false_iff, bool_decide_eq_true. done.
Qed.

Lemma sealed_response_opens i body secret2 nonce r secret :
  response_seal_with_material i body secret2 nonce = Ok r ->
  ib_studio_ephemeral_agreement_public_key (in_body i) = base64_encode (as_bytes (x25519_public secret)) ->
  (forall bytes, companion_to_vec body = Ok bytes -> decode_response_body bytes = Ok body) ->
  response_open r i secret = Ok body.
Proof.
  intros Hr Hsec Hread. unfold response_seal_with_material in Hr.
  apply bind_Ok in Hr as ([]&_&Hr). apply bind_Ok in Hr as ([]&Hbody&Hr).
  apply bind_Ok in Hr as ([]&Hheader&Hr). apply bind_Ok in Hr as (aad&Haad&Hr).
  apply bind_Ok in Hr as (eph&He&Hr). rewrite Hsec, (decode_array_encoded 32) in He by done.
  injection He as <-. apply bind_Ok in Hr as (shared&Hsh&Hr). apply bind_Ok in Hr as (digest&Hd&Hr).
  apply bind_Ok in Hr as (key&Hk&Hr). apply bind_Ok in Hr as (plain&Hpl&Hr).
  apply bind_Ok in Hr as (cipher&Hc%ok_or_Ok&Hr). apply bind_Ok in Hr as ([]&Hlen%require_Ok%Z.leb_le&[= <-]).
  destruct (companion_to_vec_text _ _ Hpl) as [Hpb _].
  destruct (chacha_correct _ _ _ _ _ Hpb Hc) as (Hdec&Hcl&Hcb).
  assert (decode_base64url "pairing response ciphertext" (base64_encode cipher) MAX_PAIRING_RESPONSE_BYTES
    = Ok cipher) as Hdc.
  { apply decode_encoded; [done| |done]. intros ->. simpl in Hcl. lia. }
  unfold response_open, response_relay_shape. cbn [er_header er_ciphertext]. rewrite Hheader, bind_tt, Hdc.
  simpl mbind. rewrite require_bind by (apply Nat.leb_le; lia).
  rewrite require_bind by by apply bool_decide_eq_true. cbn [rh_ephemeral_public_key rh_nonce].
  rewrite (decode_array_encoded 32) by done. simpl mbind.
  rewrite (decode_array_encoded 12) by done. simpl mbind.
  assert (x25519 secret (x25519_public secret2) = Ok shared) as ->.
  { revert Hsh. unfold x25519. by rewrite x25519_agrees. }
  simpl mbind. rewrite Hd. simpl mbind. unfold response_key, derive_key in *. injection Hk as <-. simpl mbind.
  rewrite Haad. simpl mbind. unfold decrypt. rewrite Hdec. simpl mbind.
  unfold companion_from_slice. rewrite (Hread _ Hpl). simpl mbind. rewrite Hpl. simpl mbind.
  rewrite bool_decide_eq_true_2 by done. simpl mbind. by rewrite Hbody.
Qed.

(** [C37] An honest pairing completes: when the Mac opens a session and a phone
    answers its invitation in time, with a proof and a sealed response, the Mac
    accepts the response, learns exactly what the phone sent and consumes the
    session; it accepts the bare proof as well. *)
Theorem honest_pairing_completes store store1 store' id ws device relay issued expires studio secret i
    phone name created p body secret2 nonce r allowlist now ti te tc :
  identity_ok studio -> identity_ok phone ->
  insert_with_secret store id ws device relay issued expires studio secret = (store1, Ok i) ->
  store' !! id = store1 !! id ->
  proof_create i phone name created = Ok p -> rp_proof body = p ->
  response_seal_with_material i body secret2 nonce = Ok r ->
  (forall bytes, companion_to_vec body = Ok bytes -> decode_response_body bytes = Ok body) ->
  relay ∈ allowlist ->
  companion_timestamp issued = Ok ti -> companion_timestamp expires = Ok te ->
  companion_timestamp created = Ok tc ->
  (instant ti - seconds MAX_CLOCK_SKEW_SECONDS <= instant tc
     <= instant te + seconds MAX_CLOCK_SKEW_SECONDS)%Z ->
  (instant ti - seconds MAX_CLOCK_SKEW_SECONDS <= instant now
     <= instant te + seconds MAX_CLOCK_SKEW_SECONDS)%Z ->
  exists session, ps_state session = PairingConsumed /\
    consume_encrypted store' id r (id_signing_public_key studio) allowlist now
      = (<[id := session]> store', Ok body) /\
    consume store' id p (id_signing_public_key studio) allowlist now
      = (<[id := session]> store', Ok (pf_body p)).
Proof.
  intros Hst Hph Hins Hl Hp Hbp Hr Hread Hrelay Hti Hte Htc Hc Hn.
  pose proof (insert_spec store id ws device relay issued expires studio secret) as Hs.
  unfold insert_with_secret in Hins, Hs. destruct (store !! id); [done|]. simpl in Hins, Hs.
  destruct (sign_invitation _ studio) as [i'|] eqn:Hsign; [|done]. injection Hins as <- <-.
  rewrite lookup_insert_eq in Hl. destruct (sign_invitation_verifies _ _ _ allowlist now ti te Hst Hsign)
    as [Hb Hiv]; [done..|].
  assert (proof_verify p i' secret now = Ok tt) as Hpv.
  { eapply proof_create_verifies; [exact Hph|exact Hp|by rewrite Hb|exact Htc|by rewrite Hb|by rewrite Hb|done|lia]. }
  eexists. split; [|split].
  3: { unfold consume, consume_with. rewrite Hl. cbn [ps_state ps_invitation ps_ephemeral_secret].
       rewrite require_bind by done. rewrite Hiv, bind_tt, Hpv, bind_tt. reflexivity. }
  - done.
  - unfold consume_encrypted, consume_with. rewrite Hl. cbn [ps_state ps_invitation ps_ephemeral_secret].
    rewrite require_bind by done. rewrite Hiv, bind_tt.
    rewrite (sealed_response_opens _ _ _ _ _ _ Hr) by (done || by rewrite Hb). simpl mbind.
    by rewrite Hbp, Hpv.
Qed.

(** A scanned invitation is the one that was shown: unless it exceeds the
    URI's bound, an invitation written as a URI reads back exactly. *)
Theorem invitation_uri_roundtrip i uri :
  (forall bytes, companion_to_vec i = Ok bytes -> decode_invitation bytes = Ok i) ->
  to_uri i = Ok uri -> (Z.of_nat (len uri) <= MAX_PAIRING_URI_BYTES * 2)%Z -> from_uri uri = Ok i.
Proof.
  intros Hread Hu Hlen. unfold to_uri in Hu. apply bind_Ok in Hu as (payload&Hp&Hu).
  apply bind_Ok in Hu as ([]&Hl%require_Ok%Z.leb_le&[= <-]). unfold from_uri.
  rewrite require_bind by by apply Z.leb_le. rewrite bytes_of_app. unfold strip_prefix.
  assert (starts_with (bytes_of PAIRING_URI_PREFIX) (bytes_of PAIRING_URI_PREFIX
    ++ bytes_of (base64_encode payload)) = true) as -> by done.
  rewrite drop_app_length. simpl mbind. rewrite string_of_bytes_of.
  destruct (companion_to_vec_text _ _ Hp) as [Hb Hne]. rewrite decode_encoded by done. simpl mbind.
  unfold companion_from_slice. rewrite (Hread _ Hp). simpl mbind. rewrite Hp. simpl mbind.
  by rewrite bool_decide_eq_true_2.
Qed.
End honest.
End laws.
