(* ===== verification/CompanionStory.v ===== *)
(** Concrete journals, envelopes, grants and pairings: the witnesses of the
    theorems about the companion crate. *)
From S2P Require Import Prelude Text Digest Clock Entitlement CompanionModel CompanionJournal CompanionJournalLaws CompanionCrypto CompanionToy CompanionEnvelope CompanionReference CompanionReferenceLaws CompanionPublication CompanionUpdates CompanionCommand CompanionCapability CompanionRecordLaws CompanionPairing CompanionPairingLaws.

(** * Concrete companion structures

    A replay window under duplicates, reordering and eviction, a command from its
    admission to its result, and an event journal that overflows its capacity:
    they show that the hypotheses of the companion properties can hold. *)

(** ** A replay window of two *)

Definition window2 : ReplayWindow := {| rw_maximum_per_sender := 2; rw_senders := ∅ |}.

Definition traffic : list (string * Z * string) :=
  [("phone", 2%Z, "b"); ("phone", 1%Z, "a"); ("mac", 2%Z, "x"); ("phone", 2%Z, "b");
   ("phone", 3%Z, "c"); ("phone", 1%Z, "a")].

(** After sequence 3 the window has forgotten 1, and still refuses it. *)
Example traffic_decisions : observe_all window2 traffic =
  [Ok New; Ok New; Ok New; Ok Duplicate; Ok New;
   Err (CReplay "sender sequence is older than the retained replay window")].
Proof. vm_compute. reflexivity. Qed.

Lemma accepted_at_most_once_witness :
  observe_all window2 traffic !! 1 = Some (Ok New) /\
  observe_all window2 traffic !! 5 <> Some (Ok New).
Proof.
  split; [reflexivity|].
  apply (accepted_at_most_once window2 traffic 1 5 "phone" 1%Z "a" "a"); [lia|reflexivity..].
Defined.

Lemma observe_decides_witness :
  let rw := (observe window2 "phone" 2 "b").1 in
  let w := default empty_sender (rw_senders rw !! "phone") in
  (observe rw "phone" 2 "b").2 = Ok Duplicate /\ replay_ok (observe rw "phone" 2 "b").1 /\
  ((observe rw "phone" 3 "c").2 = Ok New <->
     (sw_floor w < 3)%Z /\ sw_sequences w !! 3%Z = None /\ sw_envelope_ids w !! "c" = None).
Proof.
  intros rw w.
  assert (replay_ok window2) as H0 by (intros s w0 Hw; discriminate Hw).
  assert (replay_ok rw) as H1.
  { apply (observe_decides window2 "phone" 2 "b"); [exact H0|reflexivity|reflexivity|lia]. }
  split; [reflexivity|split].
  - apply (observe_decides rw "phone" 2 "b"); [exact H1|reflexivity|reflexivity|lia].
  - apply (observe_decides rw "phone" 3 "c"); [exact H1|reflexivity|reflexivity|lia].
Defined.

(** ** A command *)

Definition commands0 : IdempotencyJournal string := {| ij_commands := ∅ |}.
Definition commands1 : IdempotencyJournal string := (admit_command commands0 "cmd" (filled 32 1)).1.
Definition commands2 : IdempotencyJournal string := (transition_command commands1 "cmd" PhoneValidated).1.
Definition commands3 : IdempotencyJournal string := (finish_command commands2 "cmd" PhoneFailed "no disk").1.

Lemma command_admitted_once_witness :
  admit_command commands3 "cmd" (filled 32 1)
    = (commands3, Ok (ExistingCommand PhoneFailed (Some "no disk"))) /\
  exists e', ij_commands commands3 !! "cmd" = Some e' /\
    rtc (λ a b, valid_transition a b = true) PhoneReceived (ce_state e') /\
    (is_final PhoneReceived = true -> ce_state e' = PhoneReceived) /\
    admit_command commands3 "cmd" (filled 32 2)
      = (commands3, Err (CInvalid "command ID was reused with a different payload")).
Proof.
  split; [reflexivity|].
  apply (command_admitted_once commands1 commands3 "cmd"
    {| ce_payload_digest := filled 32 1; ce_state := PhoneReceived; ce_result := None |} (filled 32 2)).
  - reflexivity.
  - eapply rtc_l; [apply (step_transition _ "cmd" PhoneValidated)|].
    eapply rtc_l; [apply (step_finish _ "cmd" PhoneFailed "no disk")|]. apply rtc_refl.
  - reflexivity.
Defined.

Lemma finish_replaces_result_witness :
  let j1 := (finish_command commands2 "cmd" PhoneFailed "no disk").1 in
  (finish_command j1 "cmd" PhoneFailed "gone").2 = Ok tt /\
  (exists e1, ij_commands j1 !! "cmd" = Some e1 /\ ce_result e1 = Some "no disk") /\
  (exists e2, ij_commands (finish_command j1 "cmd" PhoneFailed "gone").1 !! "cmd" = Some e2 /\
     ce_result e2 = Some "gone").
Proof.
  apply (finish_replaces_result commands2 "cmd"
    {| ce_payload_digest := filled 32 1; ce_state := PhoneValidated; ce_result := None |});
    reflexivity.
Defined.

(** ** Three events in a journal of two *)

Definition events0 : CursorJournal string :=
  {| cj_maximum_events := 2; cj_next_cursor := 1; cj_entries := []; cj_event_index := ∅;
     cj_acknowledgements := ∅ |}.
Definition events1 : CursorJournal string := (append_event events0 "e1" (filled 32 1) "one").1.
Definition events2 : CursorJournal string := (append_event events1 "e2" (filled 32 2) "two").1.
Definition events3 : CursorJournal string := (append_event events2 "e3" (filled 32 3) "three").1.
Definition events4 : CursorJournal string := (acknowledge events3 "phone" 3).1.

Lemma events3_reachable : cursor_reachable events3.
Proof.
  exists 2, events0. split; [reflexivity|].
  eapply rtc_l; [apply (step_append _ "e1" (filled 32 1) "one")|].
  eapply rtc_l; [apply (step_append _ "e2" (filled 32 2) "two")|].
  eapply rtc_l; [apply (step_append _ "e3" (filled 32 3) "three")|]. apply rtc_refl.
Defined.

(** A recipient at 0 gets the two events that are kept. *)
Lemma catch_up_has_no_hole_witness :
  catch_up events3 0 10 = Ok (Events [(2%Z, "e2", "two"); (3%Z, "e3", "three")] 4) /\
  match catch_up events3 1 1 with
  | Ok (Events events next) => length events = Nat.min 1 (Z.to_nat (next - 2))
  | _ => False
  end.
Proof.
  split; [reflexivity|].
  assert (cursor_reachable events3) as Hr by exact events3_reachable.
  pose proof (catch_up_has_no_hole events3 1 1 Hr (le_n 1)) as Hc.
  exact (proj1 (proj2 (proj2 (Hc ltac:(lia) ltac:(lia))))).
Defined.

Lemma catch_up_delivers_witness :
  outstanding events3 1 <> [] /\
  drain events3 (length (outstanding events3 1)) 1 1 = outstanding events3 1.
Proof.
  split; [done|].
  apply (catch_up_delivers events3 1 1 events3_reachable); [lia|lia|lia|].
  intros _. vm_compute. discriminate.
Defined.

Lemma append_event_idempotent_witness :
  append_event events3 "e3" (filled 32 3) "again" = (events3, Ok 3%Z) /\
  append_event events3 "e3" (filled 32 4) "other"
    = (events3, Err (CInvalid "event ID was reused with different content")).
Proof.
  assert (cursor_reachable events2) as Hr.
  { exists 2, events0. split; [reflexivity|].
    eapply rtc_l; [apply (step_append _ "e1" (filled 32 1) "one")|].
    eapply rtc_l; [apply (step_append _ "e2" (filled 32 2) "two")|]. apply rtc_refl. }
  split.
  - apply (append_event_idempotent events2 "e3" (filled 32 3) "three" 3 (filled 32 3) "again" Hr).
    reflexivity.
  - apply (append_event_idempotent events2 "e3" (filled 32 3) "three" 3 (filled 32 4) "other" Hr).
    reflexivity.
Defined.

Lemma acknowledgements_advance_witness :
  acknowledged_cursor events4 "phone" = 3%Z /\
  (acknowledged_cursor events3 "phone" <= acknowledged_cursor events4 "phone")%Z.
Proof.
  split; [reflexivity|].
  apply (acknowledgements_advance events3 events4 "phone" events3_reachable).
  apply rtc_once, (step_acknowledge _ "phone" 3).
Defined.

(** * A concrete channel

    A phone seals a message for its Mac, which opens it once and refuses it
    again, and sends an image in chunks, out of order and with repetitions. They
    show that the hypotheses of the channel's properties can hold. *)

Definition phone : Identity := identity_of_secrets (filled 32 1) (filled 32 2) (Some (filled 32 3)).
Definition mac : Identity := identity_of_secrets (filled 32 4) (filled 32 5) None.

Definition metadata_of (sequence : Z) (envelope_id : string) : EnvelopeMetadata :=
  {| em_envelope_id := envelope_id; em_mailbox_id := "mailbox-1";
     em_recipient_device_id := id_device_id mac; em_sender_sequence := sequence;
     em_created_at := at_second 10; em_expires_at := at_second 600 |}.
Definition uuid1 : string := "123e4567-e89b-42d3-a456-426614174000".
Definition uuid2 : string := "123e4567-e89b-42d3-a456-426614174001".

Definition no_envelope : OpaqueEnvelope :=
  {| oe_header := {| eh_schema := ""; eh_envelope_id := ""; eh_mailbox_id := "";
       eh_sender_device_id := ""; eh_recipient_device_id := ""; eh_sender_sequence := 0;
       eh_created_at := ""; eh_expires_at := ""; eh_ephemeral_public_key := ""; eh_nonce := "" |};
     oe_ciphertext := ""; oe_signature := "" |}.
Definition sealed (sequence : Z) (envelope_id text : string) : OpaqueEnvelope :=
  match seal_with_material phone (id_agreement_public_key mac) (metadata_of sequence envelope_id)
          (bytes_of text) (filled 32 9) (filled 12 7) with
  | Ok e => e | Err _ => no_envelope end.
Definition first_envelope : OpaqueEnvelope := sealed 1 uuid1 "make it blue".
Definition second_envelope : OpaqueEnvelope := sealed 2 uuid2 "now ship it".

Definition mac_window : ReplayWindow := {| rw_maximum_per_sender := 4; rw_senders := ∅ |}.
Definition opening (e : OpaqueEnvelope) (now : Z) : Opening :=
  (e, id_signing_public_key phone, id_device_id phone, moment now).

(** The second envelope overtakes the first, which is repeated; a forgery under
    another key and an envelope after its expiry are refused. *)
Definition openings : list Opening :=
  [opening second_envelope 20; opening first_envelope 21; opening first_envelope 22;
   (first_envelope, id_signing_public_key mac, id_device_id phone, moment 23);
   opening (sealed 3 uuid1 "late") 700].

Example openings_run : open_all mac mac_window openings =
  [Ok (bytes_of "now ship it"); Ok (bytes_of "make it blue");
   Err (CReplay "duplicate envelope delivery");
   Err (CCrypto "Ed25519 signature verification");
   Err (CInvalid "object is not valid at this time")].
Proof. vm_compute. reflexivity. Qed.

Lemma opened_is_authentic_witness :
  let o := open_envelope first_envelope (id_signing_public_key phone) (id_device_id phone) mac
    (moment 20) mac_window in
  o.2 = Ok (bytes_of "make it blue") /\
  authentic first_envelope (id_signing_public_key phone) (id_device_id phone) mac (moment 20).
Proof.
  intros o. split; [vm_compute; reflexivity|].
  apply (opened_is_authentic first_envelope (id_signing_public_key phone) (id_device_id phone) mac
    (moment 20) mac_window o.1 o.2); [unfold o; by destruct (open_envelope _ _ _ _ _ _)|].
  right. vm_compute. reflexivity.
Defined.

Lemma sealed_envelope_opens_witness :
  open_envelope first_envelope (id_signing_public_key phone) (id_device_id phone) mac (moment 20) mac_window
    = (let '(replay', decision) := observe mac_window (id_device_id phone) 1 uuid1 in
       (replay', decision ← decision;
          match decision with New => Ok (bytes_of "make it blue")
          | Duplicate => Err (CReplay "duplicate envelope delivery") end)).
Proof.
  apply (sealed_envelope_opens phone mac (metadata_of 1 uuid1) (bytes_of "make it blue")
    (filled 32 9) (filled 12 7) first_envelope (moment 20) (moment 10) (moment 600) mac_window).
  - reflexivity.
  - reflexivity.
  - apply bytes_of_bound.
  - vm_compute. reflexivity.
  - reflexivity.
  - vm_compute. reflexivity.
  - vm_compute. reflexivity.
  - vm_compute. split; discriminate.
Defined.

Lemma delivered_at_most_once_witness :
  (id_device_id phone, 2%Z) <> (id_device_id phone, 1%Z).
Proof.
  apply (delivered_at_most_once mac mac_window openings 0 1
    second_envelope (id_signing_public_key phone) (id_device_id phone) (moment 20)
    first_envelope (id_signing_public_key phone) (id_device_id phone) (moment 21)
    (bytes_of "now ship it") (bytes_of "make it blue")); [lia|reflexivity|reflexivity| |];
    vm_compute; reflexivity.
Defined.

(** ** An image *)

Definition png : list Z := PNG_SIGNATURE ++ be_bytes 4 13 ++ bytes_of "IHDR" ++ be_bytes 4 2 ++ be_bytes 4 3 ++ [8; 6]%Z.
Definition image : ReferenceBlob :=
  {| rb_schema := REFERENCE_BLOB_SCHEMA; rb_blob_id := "blob-1"; rb_origin_name := "one.png";
     rb_media_type := "image/png"; rb_byte_length := 26; rb_sha256 := digest_text png;
     rb_bytes := base64_encode png |}.
Definition image_chunk : ReferenceBlobChunk := chunk_of image 0 1 png.

Example image_chunks : blob_chunks image = Ok [image_chunk].
Proof. vm_compute. reflexivity. Qed.

Example other_image_refused :
  snd (admit_chunk (admit_all [image_chunk]) (chunk_of image 0 1 (png ++ [0%Z])))
    = Err (CInvalid "reference chunk length is not canonical").
Proof. vm_compute. reflexivity. Qed.

Lemma chunks_reassemble_witness :
  blob_validate image = Ok tt /\
  exists chunks, blob_chunks image = Ok chunks /\
  forall arrived c, arrived ⊆ chunks -> c ∈ chunks ->
    snd (admit_chunk (admit_all arrived) c) =
      Ok (if bool_decide (c ∈ arrived) then ChunkDuplicate
          else if bool_decide (Forall (λ d, d ∈ c :: arrived) chunks) then BlobComplete image
          else ChunkStored).
Proof.
  assert (blob_validate image = Ok tt) as Hv by (vm_compute; reflexivity).
  split; [exact Hv|]. exact (chunks_reassemble image Hv).
Defined.

Lemma completed_blob_committed_witness :
  snd (admit_chunk (admit_all []) image_chunk) = Ok (BlobComplete image) /\
  blob_validate image = Ok tt.
Proof.
  assert (snd (admit_chunk (admit_all []) image_chunk) = Ok (BlobComplete image)) as Hc
    by (vm_compute; reflexivity).
  split; [exact Hc|]. exact (proj1 (completed_blob_committed [] image_chunk image Hc)).
Defined.

(** * A concrete authority

    The Mac grants the phone two actions; the phone sends feedback with an image,
    is revoked and paired again. They show that the hypotheses of the authority's
    and the records' properties can hold. *)

Definition grant_body (epoch : Z) : CapabilityGrantBody :=
  {| cg_schema := CAPABILITY_GRANT_SCHEMA; cg_capability_id := "cap-1"; cg_workspace_id := "ws";
     cg_device_id := id_device_id phone; cg_allowed_actions := [WorkspaceRead; FeedbackWrite; ShotEvolve];
     cg_issued_at := at_second 10; cg_expires_at := Some (at_second 900);
     cg_revocation_epoch := epoch; cg_studio_signing_public_key := signing_public_key_base64url mac |}.
Definition no_grant : CapabilityGrant := {| gr_body := grant_body 0; gr_signature := "" |}.
Definition grant (epoch : Z) : CapabilityGrant :=
  match sign_grant (grant_body epoch) mac with Ok g => g | Err _ => no_grant end.

Definition feedback : CommandPayload := FeedbackSubmit "shot-1" "expression-1" "version-1" 3 "too dark".
Definition evolve : CommandPayload := ShotEvolveRequest "shot-1" "expression-1" "version-1" 3
  "make it lighter" [] [{| rd_blob_id := "blob-1"; rd_origin_name := "one.png";
    rd_media_type := "image/png"; rd_byte_length := 26; rd_sha256 := digest_text png |}].
Definition install : CommandPayload := GitHubAppInstall "small-tool" 7 "0123456789012345678901234567890123456789".
Definition body_of (p : CommandPayload) : CommandBody :=
  {| cb_schema := ""; cb_command_id := "cmd-1"; cb_workspace_id := "ws"; cb_capability_id := "cap-1";
     cb_author_device_id := ""; cb_created_at := at_second 60; cb_payload := p |}.
Definition command_of (p : CommandPayload) : CompanionCommand :=
  match sign_command phone (body_of p) with
  | Ok c => c | Err _ => {| cc_body := body_of p; cc_signature := "" |} end.

Definition registry0 : CapabilityRegistry :=
  {| reg_workspace_id := "ws"; reg_device_epochs := ∅; reg_revoked_capabilities := ∅ |}.
Definition registry1 : CapabilityRegistry :=
  match revoke_device registry0 (id_device_id phone) with Ok (r, _) => r | Err _ => registry0 end.
Definition registry2 : CapabilityRegistry :=
  match restore_device_epoch registry1 (id_device_id phone) 4 with Ok r => r | Err _ => registry1 end.

Definition try_command (r : CapabilityRegistry) (g : CapabilityGrant) (p : CommandPayload) (now : Z)
    : companion_result unit :=
  authorize_command r g (command_of p) (id_signing_public_key phone) (id_signing_public_key mac) (moment now).

Example authority_run :
  [try_command registry0 (grant 0) feedback 70; try_command registry0 (grant 0) install 70;
   try_command registry0 (grant 0) feedback 940; try_command registry1 (grant 0) feedback 70;
   try_command registry1 (grant 1) evolve 70] =
  [Ok tt; Err (CInvalid "capability grant does not authorize this action");
   Err (CInvalid "object is not valid at this time");
   Err (CInvalid "capability grant has a stale revocation epoch"); Ok tt].
Proof. vm_compute. reflexivity. Qed.

Lemma authorized_command_is_genuine_witness :
  authorize_command registry0 (grant 0) (command_of feedback) (id_signing_public_key phone)
    (id_signing_public_key mac) (moment 70) = Ok tt /\
  registry_allows registry0 (grant 0) (required_capability (cb_payload (cc_body (command_of feedback)))).
Proof.
  assert (authorize_command registry0 (grant 0) (command_of feedback) (id_signing_public_key phone)
    (id_signing_public_key mac) (moment 70) = Ok tt) as Ha by (vm_compute; reflexivity).
  split; [exact Ha|].
  apply (authorized_command_is_genuine registry0 (grant 0) (command_of feedback)
    (id_signing_public_key phone) (id_signing_public_key mac) (moment 70) Ha).
Defined.

Lemma signed_commands_authorized_witness :
  authorize_command registry1 (grant 1) (command_of evolve) (id_signing_public_key phone)
    (id_signing_public_key mac) (moment 70) = Ok tt.
Proof.
  apply (signed_commands_authorized registry1 mac phone (grant_body 1) (body_of evolve) (grant 1)
    (command_of evolve) (moment 60) (moment 70)).
  - reflexivity.
  - reflexivity.
  - vm_compute. reflexivity.
  - vm_compute. reflexivity.
  - reflexivity.
  - reflexivity.
  - reflexivity.
  - vm_compute. reflexivity.
  - vm_compute. split; discriminate.
  - exists (moment 10). split; [vm_compute; reflexivity|]. split; [vm_compute; discriminate|].
    intros x [= <-]. vm_compute. reflexivity.
  - constructor.
    + vm_compute. reflexivity.
    + vm_compute. discriminate.
    + vm_compute. reflexivity.
    + apply (bool_decide_eq_true_1 (ShotEvolve ∈ cg_allowed_actions (gr_body (grant 1)))).
      vm_compute. reflexivity.
Defined.

Lemma revocation_is_final_witness :
  try_command registry0 (grant 0) feedback 70 = Ok tt /\
  is_ok (try_command registry2 (grant 0) feedback 70) = false.
Proof.
  split; [vm_compute; reflexivity|].
  apply (revocation_is_final registry0 registry1 registry2 (grant 0)).
  - left. split; [exists 1%Z; vm_compute; reflexivity|vm_compute; discriminate].
  - apply rtc_once. apply (step_restore _ (id_device_id phone) 4). vm_compute. reflexivity.
Defined.

Lemma validated_payload_bounded_witness :
  command_payload_validate evolve = Ok tt /\ (referenced_bytes evolve <= 536870912)%Z.
Proof.
  assert (command_payload_validate evolve = Ok tt) as Hv by (vm_compute; reflexivity).
  split; [exact Hv|]. exact (proj2 (proj2 (proj2 (proj2 (validated_payload_bounded evolve Hv))))).
Defined.

Definition image_descriptor : ReferenceDescriptor :=
  {| rd_blob_id := "blob-1"; rd_origin_name := "one.png"; rd_media_type := "image/png";
     rd_byte_length := 26; rd_sha256 := digest_text png |}.

Lemma blob_descriptor_admitted_witness :
  blob_descriptor image = Ok image_descriptor /\ reference_descriptor_validate image_descriptor = Ok tt.
Proof.
  assert (blob_descriptor image = Ok image_descriptor) as Hd by (vm_compute; reflexivity).
  split; [exact Hd|]. exact (blob_descriptor_admitted image image_descriptor Hd).
Defined.

(** The converse fails: a command may name a blob that no blob can match. *)
Example dot_dot_descriptor :
  let d := {| rd_blob_id := "blob-1"; rd_origin_name := ".."; rd_media_type := "image/png";
              rd_byte_length := 26; rd_sha256 := digest_text png |} in
  reference_descriptor_validate d = Ok tt /\
  blob_new "blob-1" ".." "image/png" png = Err (CInvalid "reference origin name must be a plain filename").
Proof. vm_compute. done. Qed.

(** ** Updates *)

Definition update_at (subject evidence : string) (n : Z) : PrivateUpdateItem :=
  {| pu_schema := PRIVATE_UPDATE_ITEM_SCHEMA; pu_update_id := stable_id ClaimedAppUpdated subject evidence;
     pu_kind := ClaimedAppUpdated; pu_subject_id := subject; pu_evidence_id := evidence;
     pu_title := "Claimed app updated"; pu_detail := "One release moved.";
     pu_occurred_at := at_second n; pu_read_at := None |}.

Lemma update_identity_is_evidence_witness :
  let u := update_at "s1" "e1" 10 in let v := update_at "s1" "e1" 20 in
  pu_update_id u = pu_update_id v <->
    (pu_kind u, pu_subject_id u, pu_evidence_id u) = (pu_kind v, pu_subject_id v, pu_evidence_id v).
Proof.
  intros u v. apply (update_identity_is_evidence u v).
  - vm_compute. reflexivity.
  - vm_compute. reflexivity.
  - apply (bool_decide_eq_true_1 (0%Z ∉ bytes_of "s1")). reflexivity.
  - apply (bool_decide_eq_true_1 (0%Z ∉ bytes_of "s1")). reflexivity.
  - reflexivity.
Defined.

Example repeated_update :
  updates_validate {| pp_schema := PRIVATE_UPDATES_SCHEMA; pp_updated_at := at_second 30;
    pp_items := [update_at "s1" "e1" 20; update_at "s1" "e1" 10] |} = Ok tt.
Proof. vm_compute. reflexivity. Qed.

Lemma entitlement_projection_valid_witness :
  validate_state default_state = Ok tt /\
  exists p, product_entitlement (status_from default_state) = Some p /\
    entitlement_projection_validate p = Ok tt /\ pe_phase p = "genesis_incomplete".
Proof.
  assert (validate_state default_state = Ok tt) as Hv by (vm_compute; reflexivity).
  split; [exact Hv|]. destruct (entitlement_projection_valid default_state Hv) as (p&Hp&Hok&Hphase&_).
  exists p. split; [exact Hp|]. split; [exact Hok|exact Hphase].
Defined.

(** * A concrete pairing

    The Mac opens a session and cancels another; the phone scans the invitation
    and answers, a forger and a replay fail. They show that the hypotheses of
    pairing's properties can hold. *)

Definition ephemeral : Bytes32 := filled 32 11.
Definition opened : PairingStore * companion_result PairingInvitation :=
  insert_with_secret ∅ "session-1" "ws" (id_device_id mac) "official-v1" (at_second 0) (at_second 120)
    mac ephemeral.
Definition blank_invitation : PairingInvitation :=
  {| in_body := {| ib_schema := ""; ib_session_id := ""; ib_workspace_id := "";
       ib_studio_device_id := ""; ib_studio_signing_public_key := "";
       ib_studio_ephemeral_agreement_public_key := ""; ib_relay_id := ""; ib_issued_at := "";
       ib_expires_at := "" |}; in_signature := "" |}.
Definition invitation : PairingInvitation :=
  match snd opened with Ok i => i | Err _ => blank_invitation end.

Definition blank_proof : PairingProof :=
  {| pf_body := {| po_schema := ""; po_session_id := ""; po_workspace_id := "";
       po_invitation_digest := ""; po_companion_device_id := ""; po_companion_display_name := "";
       po_companion_signing_public_key := ""; po_companion_agreement_public_key := "";
       po_created_at := "" |}; pf_key_confirmation := ""; pf_signature := "" |}.
Definition proof_of (i : Identity) : PairingProof :=
  match proof_create invitation i "A phone" (at_second 30) with Ok p => p | Err _ => blank_proof end.

Definition response_body (p : PairingProof) : PairingResponseBody :=
  {| rp_schema := PAIRING_RESPONSE_BODY_SCHEMA; rp_proof := p; rp_response_mailbox_id := "mailbox-2";
     rp_response_mailbox_write_capability := base64_encode (as_bytes (filled 32 21));
     rp_response_mailbox_revoke_capability := base64_encode (as_bytes (filled 32 22)) |}.
Definition blank_response : EncryptedPairingResponse :=
  {| er_header := {| rh_schema := ""; rh_session_id := ""; rh_ephemeral_public_key := ""; rh_nonce := "" |};
     er_ciphertext := "" |}.
Definition response : EncryptedPairingResponse :=
  match response_seal_with_material invitation (response_body (proof_of phone)) (filled 32 12) (filled 12 5) with
  | Ok r => r | Err _ => blank_response end.

#[local] Instance story_reader : PairingReader := {|
  decode_invitation := known [invitation];
  decode_response_body := known [response_body (proof_of phone)] |}.

(** The phone's proof, relabelled as another device's. *)
Definition forged : PairingProof :=
  {| pf_body := pf_body (proof_of mac); pf_key_confirmation := pf_key_confirmation (proof_of phone);
     pf_signature := pf_signature (proof_of mac) |}.
Definition mac_key : Bytes32 := id_signing_public_key mac.
Definition paired : PairingStore :=
  fst (consume_encrypted (fst opened) "session-1" response mac_key official (moment 40)).

Example pairing_story :
  snd (consume (fst opened) "session-1" forged mac_key official (moment 40))
    = Err (CCrypto "HMAC-SHA-256 verification") /\
  snd (consume (fst opened) "session-1" (proof_of phone) mac_key official (moment 151))
    = Err (CInvalid "object is not valid at this time") /\
  snd (consume_encrypted (fst opened) "session-1" response mac_key official (moment 40))
    = Ok (response_body (proof_of phone)) /\
  snd (consume paired "session-1" (proof_of phone) mac_key official (moment 41))
    = Err (CInvalid "pairing session was already used or cancelled").
Proof. vm_compute. done. Qed.

Lemma pairing_used_once_witness :
  session_state paired "session-1" = Some PairingConsumed /\
  snd (pairing_run (DoConsume "session-1" (proof_of phone) mac_key official (moment 41)) paired) = false.
Proof.
  split; [vm_compute; reflexivity|].
  apply (pairing_used_once (DoConsumeEncrypted "session-1" response mac_key official (moment 40))
    (fst opened) paired "session-1"); [reflexivity|vm_compute; reflexivity|apply rtc_refl|reflexivity].
Defined.

Lemma failed_pairing_changes_nothing_witness :
  fst (pairing_run (DoConsume "session-1" forged mac_key official (moment 40)) (fst opened)) = fst opened.
Proof.
  apply (failed_pairing_changes_nothing (DoConsume "session-1" forged mac_key official (moment 40)) (fst opened)).
  vm_compute. reflexivity.
Defined.

Lemma paired_device_is_genuine_witness :
  exists session, fst opened !! "session-1" = Some session /\ ps_state session = PairingActive.
Proof.
  assert (snd (consume (fst opened) "session-1" (proof_of phone) mac_key official (moment 40))
    = Ok (pf_body (proof_of phone))) as Hc by (vm_compute; reflexivity).
  destruct (paired_device_is_genuine (fst opened)
    (fst (consume (fst opened) "session-1" (proof_of phone) mac_key official (moment 40)))
    "session-1" mac_key official (moment 40) (proof_of phone)) as (session&Hl&Ha&_).
  - left. exists (pf_body (proof_of phone)). rewrite <- Hc.
    by destruct (consume (fst opened) "session-1" (proof_of phone) mac_key official (moment 40)).
  - exists session. split; [exact Hl|exact Ha].
Defined.

Lemma honest_pairing_completes_witness :
  exists session, ps_state session = PairingConsumed /\
    consume_encrypted (fst opened) "session-1" response (id_signing_public_key mac) official (moment 40)
      = (<["session-1" := session]> (fst opened), Ok (response_body (proof_of phone))).
Proof.
  assert (opened = (fst opened, Ok invitation)) as Ho by (vm_compute; reflexivity).
  destruct (honest_pairing_completes ∅ (fst opened) (fst opened) "session-1" "ws" (id_device_id mac)
    "official-v1" (at_second 0) (at_second 120) mac ephemeral invitation phone "A phone" (at_second 30)
    (proof_of phone) (response_body (proof_of phone)) (filled 32 12) (filled 12 5) response official
    (moment 40) (moment 0) (moment 120) (moment 30)) as (session&Hs&Hc&_).
  - reflexivity.
  - reflexivity.
  - exact Ho.
  - reflexivity.
  - vm_compute. reflexivity.
  - reflexivity.
  - vm_compute. reflexivity.
  - intros bytes Hb. exact (known_reads _ bytes Hb).
  - apply (bool_decide_eq_true_1 ("official-v1" ∈ official)). reflexivity.
  - vm_compute. reflexivity.
  - vm_compute. reflexivity.
  - vm_compute. reflexivity.
  - vm_compute. split; discriminate.
  - vm_compute. split; discriminate.
  - exists session. split; [exact Hs|exact Hc].
Defined.

Lemma invitation_uri_roundtrip_witness :
  exists uri, to_uri invitation = Ok uri /\ from_uri uri = Ok invitation.
Proof.
  assert (exists uri, to_uri invitation = Ok uri /\ (Z.of_nat (len uri) <= 32768)%Z) as (uri&Hu&Hl).
  { eexists. split; [vm_compute; reflexivity|]. vm_compute. discriminate. }
  exists uri. split; [exact Hu|]. apply (invitation_uri_roundtrip invitation uri); [|exact Hu|exact Hl].
  intros bytes Hb. exact (known_reads _ bytes Hb).
Defined.
