(* ===== verification/EntitlementLaws.v ===== *)
(** * Laws of the entitlement state

    What the private trial and subscription state can become: states reachable
    from a new installation by the operations of a release build; and the contract
    of the store, an account of facts from which the phase follows, which the
    operations on the file keep. *)
From S2P Require Import Prelude Text Digest Clock Entitlement.

(** ** Validation, as propositions *)

Section validation.
Context `{Platform} `{TimeFormat}.

(** The identifying parts of evidence. *)
Definition day_keys : list (SuccessfulDayEvidence -> string) :=
  [sd_local_date; sd_command_id; sd_execution_id; sd_accepted_version_id].

Definition days_ok (days : list SuccessfulDayEvidence) : Prop :=
  Forall (λ e, validate_evidence e = Ok tt) days /\
  Forall (λ key : SuccessfulDayEvidence -> string, NoDup (key <$> days)) day_keys.

(** Fresh for the seen keys and for the days that follow. *)
Lemma fresh_days (key : SuccessfulDayEvidence -> string) (D : gset string) e (days : list SuccessfulDayEvidence) :
  (forall x, x ∈ days -> key x ∉ ({[key e]} ∪ D)) <->
  (key e ∉ key <$> days) /\ (forall x, x ∈ days -> key x ∉ D).
Proof.
  rewrite list_elem_of_fmap. split.
  - intros Hx. split; [intros (x&E&Hin); specialize (Hx x Hin); set_solver|].
    intros x Hin. specialize (Hx x Hin). set_solver.
  - intros [Hn Hx] x Hin [E%elem_of_singleton|Hd]%elem_of_union; [|by apply (Hx x)].
    apply Hn. by exists x.
Qed.

Lemma validate_days_Ok D C E V days : validate_days D C E V days = Ok tt <->
  days_ok days /\
  (forall x, x ∈ days -> sd_local_date x ∉ D) /\ (forall x, x ∈ days -> sd_command_id x ∉ C) /\
  (forall x, x ∈ days -> sd_execution_id x ∉ E) /\
  (forall x, x ∈ days -> sd_accepted_version_id x ∉ V).
Proof.
  unfold days_ok, day_keys. rewrite !Forall_cons, Forall_nil.
  revert D C E V. induction days as [|e days IH]; intros D C E V.
  { split; [intros _|done]. split_and!; try constructor; intros x Hx; by apply not_elem_of_nil in Hx. }
  assert (validate_days D C E V (e :: days) = Ok tt <->
    validate_evidence e = Ok tt /\ ((sd_local_date e ∉ D) /\ (sd_command_id e ∉ C) /\
    (sd_execution_id e ∉ E) /\ (sd_accepted_version_id e ∉ V)) /\
    validate_days ({[sd_local_date e]} ∪ D) ({[sd_command_id e]} ∪ C)
      ({[sd_execution_id e]} ∪ E) ({[sd_accepted_version_id e]} ∪ V) days = Ok tt) as ->.
  { simpl. split; [intros Hx; by res_inv|]. intros (->&(?&?&?&?)&Hd). simpl.
    by rewrite !bool_decide_eq_false_2. }
  rewrite IH, !fresh_days, !fmap_cons, !NoDup_cons, Forall_cons. setoid_rewrite elem_of_cons.
  naive_solver.
Qed.

Lemma days_ok_perm l1 l2 : l1 ≡ₚ l2 -> days_ok l1 -> days_ok l2.
Proof.
  intros Hp [Hv Hn]. split; [by rewrite <- Hp|].
  eapply Forall_impl; [exact Hn|]. intros key Hk. simpl in *. by rewrite <- Hp.
Qed.

Lemma validate_state_Ok s : validate_state s = Ok tt <->
  en_schema s = ENTITLEMENT_STATE_SCHEMA /\ en_revision s <> 0%Z /\
  validate_anchor s = Ok tt /\ length (en_successful_days s) <= REQUIRED_SUCCESSFUL_DAYS /\
  days_ok (en_successful_days s) /\
  (en_phase s = TrialQualified -> length (en_successful_days s) = REQUIRED_SUCCESSFUL_DAYS) /\
  (is_pro (en_phase s) = true -> exists v, en_subscription s = Some v /\
     validate_subscription_shape v = Ok tt).
Proof.
  unfold validate_state. split.
  - intros Hv. res_inv. match goal with H : validate_days _ _ _ _ _ = _ |- _ => apply validate_days_Ok in H as [Hd _] end.
    match goal with H : (_ <? _)%nat = false |- _ => apply Nat.ltb_ge in H end.
    split_and!; try done.
    + intros Hq. rewrite bool_decide_eq_true_2 in * by done. simpl in *. guard_step.
      by apply Nat.eqb_eq.
    + intros Hp. rewrite Hp in *. res_inv. eauto.
  - intros (Hs&Hr&Ha&Hl&Hd&Hq&Hp). rewrite (bool_decide_eq_true_2 (en_schema s = _)),
      (bool_decide_eq_false_2 (en_revision s = _)) by done.
    simpl. rewrite Ha. simpl. rewrite (proj2 (Nat.ltb_ge _ _) Hl). simpl.
    rewrite (proj2 (validate_days_Ok ∅ ∅ ∅ ∅ _)).
    2: { split; [done|]. split_and!; intros e _; set_solver. }
    simpl. replace (_ && _) with false.
    2: { symmetry. case_bool_decide; [|done]. rewrite Hq by done. done. }
    simpl. destruct (is_pro (en_phase s)); [|done].
    destruct Hp as (v&->&Hv); [done|]. done.
Qed.
End validation.

(** ** Reachable states *)

(** The operations of a release build, with the clocks they read. *)
Inductive Operation : Type :=
  | OpStatus (now : OffsetDateTime) (local_date : Z)
  | OpGenesis (migration : option string) (at_ : OffsetDateTime) (local_date : Z)
  | OpRecordDay (evidence : SuccessfulDayEvidence) (now : OffsetDateTime) (local_date : Z)
  | OpInstall (subscription : VerifiedSubscription) (now : OffsetDateTime) (local_date : Z).

#[local] Arguments Nat.leb : simpl never.

Section laws.
Context `{Platform} `{TimeFormat}.

Definition op_step (op : Operation) (s : EntitlementState)
    : entitlement_result (option EntitlementState * EntitlementState) :=
  match op with
  | OpStatus now local_date => status_step now local_date s
  | OpGenesis migration at_ local_date => genesis_step migration at_ local_date s
  | OpRecordDay evidence now local_date => record_day_step evidence now local_date s
  | OpInstall subscription now local_date =>
      validate_subscription subscription now ;; install_step subscription now local_date s
  end.

(** [writes s s']: some operation on [s] writes [s']. *)
Definition writes (s s' : EntitlementState) : Prop :=
  exists op, op_step op s = Ok (written s').

(** States that a new installation can come to hold. *)
Definition entitled (s : EntitlementState) : Prop := rtc writes default_state s.

(** What refreshing does: nothing, or the end of a trial or of a paid period. *)
Lemma refresh_phase_Ok s now d s' changed : refresh_phase s now d = Ok (s', changed) ->
  (changed = false /\ s' = s /\
     match en_phase s with
     | TrialActive => exists text g, en_genesis_local_date s = Some text /\
         parse_iso_date text = Some g /\ (d < g + TRIAL_CALENDAR_DAYS)%Z
     | ProMonthly | ProYearly => exists v p, en_subscription s = Some v /\
         parse_rfc3339 (vsu_paid_through v) = Some p /\ (instant now < instant p)%Z
     | _ => True
     end) \/
  (changed = true /\
     ((en_phase s = TrialActive /\ s' = set_phase TrialExpired s /\
         exists text g, en_genesis_local_date s = Some text /\
         parse_iso_date text = Some g /\ (g + TRIAL_CALENDAR_DAYS <= d)%Z) \/
      ((en_phase s = ProMonthly \/ en_phase s = ProYearly) /\ s' = set_phase ProLapsed s /\
         exists v p, en_subscription s = Some v /\
         parse_rfc3339 (vsu_paid_through v) = Some p /\ (instant p <= instant now)%Z))).
Proof.
  unfold refresh_phase, entitlement_date, entitlement_timestamp. intros Hr.
  destruct (en_phase s) eqn:Hph; res_inv; try (left; done).
  - destruct (_ <=? d)%Z eqn:E; simplify_eq; res_inv; [right; split; [done|]; left|left]; naive_solver.
  - destruct (_ <=? instant now)%Z eqn:E; simplify_eq; res_inv;
      [right; split; [done|]; right|left]; naive_solver.
  - destruct (_ <=? instant now)%Z eqn:E; simplify_eq; res_inv;
      [right; split; [done|]; right|left]; naive_solver.
Qed.

(** The ways a state is written. *)
Inductive write_case (s : EntitlementState) : EntitlementState -> Prop :=
  | write_refresh now d s' : refresh_phase s now d = Ok (s', true) -> write_case s (bump s')
  | write_genesis migration timestamp d : en_phase s = GenesisIncomplete ->
      let s' := bump (set_genesis timestamp (display_date d) migration (set_phase TrialActive s)) in
      validate_state s' = Ok tt -> write_case s s'
  | write_day evidence now d :
      en_phase s = TrialActive -> refresh_phase s now d = Ok (s, false) ->
      validate_evidence evidence = Ok tt -> sd_local_date evidence = display_date d ->
      existsb (repeats evidence) (en_successful_days s) = false ->
      let days := stable_sort date_leb (en_successful_days s ++ [evidence]) in
      let s1 := set_days days s in
      let s' := bump (if (REQUIRED_SUCCESSFUL_DAYS <=? length days)%nat
                      then set_phase TrialQualified s1 else s1) in
      validate_state s' = Ok tt -> write_case s s'
  | write_install v now d s0 changed :
      validate_subscription v now = Ok tt -> refresh_phase s now d = Ok (s0, changed) ->
      en_phase s0 = TrialQualified \/ is_pro (en_phase s0) = true ->
      match en_subscription s with
      | Some existing => (vsu_provider_revision existing < vsu_provider_revision v)%Z
      | None => True
      end ->
      let s' := bump (set_subscription v (set_phase (match vsu_plan v with
                        | Monthly => ProMonthly | Yearly => ProYearly end) s0)) in
      validate_state s' = Ok tt -> write_case s s'.

Lemma refresh_subscription s now d s' changed : refresh_phase s now d = Ok (s', changed) ->
  en_subscription s' = en_subscription s.
Proof. intros [(_&->&_)|(_&[(_&->&_)|(_&->&_)])]%refresh_phase_Ok; done. Qed.

Lemma refresh_unchanged s now d s' : refresh_phase s now d = Ok (s', false) -> s' = s.
Proof. by intros [(_&->&_)|(?&_)]%refresh_phase_Ok. Qed.

Lemma writes_case s s' : writes s s' -> write_case s s'.
Proof.
  intros [op Hop]. destruct op as [now d|mig at_ d|ev now d|v now d]; simpl in Hop.
  - unfold status_step in Hop. apply bind_Ok in Hop as ([s0 ch]&Hr&Hop). destruct ch; [|done].
    injection Hop as <-. by eapply write_refresh.
  - unfold genesis_step in Hop. case_bool_decide as Hp; [|done].
    unfold entitlement_format_timestamp in Hop. res_inv. by apply write_genesis.
  - unfold record_day_step in Hop. apply bind_Ok in Hop as ([s0 ch]&Hr&Hop).
    case_bool_decide as Hp; simpl in Hop.
    + assert (ch = false /\ s0 = s) as [-> ->].
      { apply refresh_phase_Ok in Hr as [(?&?&_)|(_&[(_&->&_)|(_&->&_)])]; done. }
      apply bind_Ok in Hop as ([]&Hev&Hop). apply bind_Ok in Hop as ([]&Hd&Hop).
      destruct (existsb _ _) eqn:Hrep; [done|]. res_inv. by eapply write_day.
    + destruct ch; [|done]. injection Hop as <-. by eapply write_refresh.
  - apply bind_Ok in Hop as ([]&Hv&Hop). unfold install_step in Hop.
    apply bind_Ok in Hop as ([s0 ch]&Hr&Hop). apply bind_Ok in Hop as ([]&Hp&Hop).
    rewrite (refresh_subscription _ _ _ _ _ Hr) in Hop.
    assert (en_phase s0 = TrialQualified \/ is_pro (en_phase s0) = true) as Hph.
    { res_inv. apply orb_true_iff in Hp as [?|?]; [left; by guard_step|by right]. }
    destruct (en_subscription s) as [ex|] eqn:Hs.
    + apply bind_Ok in Hop as ([]&Hrev&Hop). apply fail_if_Ok, Z.ltb_ge in Hrev.
      case_bool_decide as Heq.
      * apply bind_Ok in Hop as ([]&_&Hop). by injection Hop.
      * res_inv. eapply write_install; try done. rewrite Hs. lia.
    + res_inv. eapply write_install; try done. by rewrite Hs.
Qed.

Lemma validate_subscription_shape_of v now : validate_subscription v now = Ok tt ->
  validate_subscription_shape v = Ok tt.
Proof. unfold validate_subscription. intros Hv. by res_inv. Qed.

(** The evidence was recorded while the trial ran. *)
Definition in_trial (s : EntitlementState) (e : SuccessfulDayEvidence) : Prop :=
  exists text g d, en_genesis_local_date s = Some text /\ parse_iso_date text = Some g /\
    sd_local_date e = display_date d /\ (d < g + TRIAL_CALENDAR_DAYS)%Z.

Record sound (s : EntitlementState) : Prop := {
  sn_valid : validate_state s = Ok tt;
  sn_revision : (1 <= en_revision s <= U64_MAX)%Z;
  sn_qualified : en_phase s = TrialQualified \/ is_pro (en_phase s) = true ->
    length (en_successful_days s) = REQUIRED_SUCCESSFUL_DAYS;
  sn_in_trial : forall e, e ∈ en_successful_days s -> in_trial s e;
  sn_fresh : en_phase s = GenesisIncomplete -> en_successful_days s = [];
  sn_active : en_phase s = TrialActive -> length (en_successful_days s) < REQUIRED_SUCCESSFUL_DAYS }.

Lemma sound_default : sound default_state.
Proof.
  constructor; simpl.
  - apply validate_state_Ok. simpl. unfold days_ok.
    split_and!; try done; try (unfold REQUIRED_SUCCESSFUL_DAYS; lia).
    apply Forall_forall. intros key _. constructor.
  - unfold U64_MAX. lia.
  - intros [Hq|Hq]; discriminate Hq.
  - intros e He. by apply not_elem_of_nil in He.
  - done.
  - done.
Qed.

Lemma bump_bounds s : (1 <= en_revision s <= U64_MAX)%Z -> (1 <= en_revision (bump s) <= U64_MAX)%Z.
Proof. simpl. unfold saturating_add_u64. lia. Qed.

(** A later phase and a new revision keep a valid state valid. *)
Lemma refresh_valid s now d s' : sound s -> refresh_phase s now d = Ok (s', true) ->
  validate_state (bump s') = Ok tt.
Proof.
  intros Hs Hr. destruct Hs as [Hv Hrev _ _ _ _]. apply validate_state_Ok in Hv as (Hsc&Hr0&Ha&Hl&Hd&Hq&Hp).
  pose proof (bump_bounds _ Hrev) as Hb.
  apply refresh_phase_Ok in Hr as [(?&_)|(_&[(Hph&->&_)|(Hph&->&_)])]; [done|..];
    apply validate_state_Ok; (split_and!; [done|simpl in *; lia| |done|done|done|]).
  - unfold validate_anchor in *. simpl. rewrite Hph in Ha. simpl in Ha.
    destruct (en_genesis_completed_at s), (en_genesis_local_date s); done.
  - done.
  - unfold validate_anchor in *. simpl.
    destruct (en_genesis_completed_at s), (en_genesis_local_date s); try done.
    destruct Hph as [Hph|Hph]; rewrite Hph in Ha; done.
  - intros _. simpl. apply Hp. by destruct Hph as [-> | ->].
Qed.

Lemma write_case_sound s s' : sound s -> write_case s s' -> sound s'.
Proof.
  intros Hs Hw. pose proof Hs as [Hv Hrev Hq Ht Hf Hact].
  destruct Hw as [now d s' Hr|mig ts d Hp s' Hv'|ev now d Hp Hr Hev Hdate Hrep days s1 s' Hv'
    |v now d s0 ch Hsub Hr Hp Hex s' Hv'].
  - pose proof (refresh_valid _ _ _ _ Hs Hr) as Hv'.
    apply refresh_phase_Ok in Hr as [(?&_)|(_&[(Hph&->&_)|(Hph&->&_)])]; [done|..];
      (constructor; [done|by apply bump_bounds| | |done|done]); simpl.
    + by intros [?|?].
    + exact Ht.
    + intros _. apply Hq. right. by destruct Hph as [-> | ->].
    + exact Ht.
  - constructor; [done|by apply bump_bounds|by intros [?|?]| |done|]; simpl; rewrite (Hf Hp).
    + intros e He. by apply not_elem_of_nil in He.
    + unfold REQUIRED_SUCCESSFUL_DAYS. simpl. lia.
  - assert (Permutation days (en_successful_days s ++ [ev])) as Hperm by apply stable_sort_perm.
    assert (en_successful_days s' = days /\ en_genesis_local_date s' = en_genesis_local_date s /\
      en_revision s' = en_revision (bump s) /\
      en_phase s' = if (REQUIRED_SUCCESSFUL_DAYS <=? length days)%nat then TrialQualified else TrialActive)
      as (Hdays&Hg&Hrv&Hph).
    { unfold s', s1. by destruct (_ <=? _)%nat. }
    constructor; [done|rewrite Hrv; by apply bump_bounds| | | |].
    + rewrite Hph, Hdays. destruct (_ <=? _)%nat eqn:E; [|by intros [?|?]]. intros _.
      apply Nat.leb_le in E. apply validate_state_Ok in Hv' as (_&_&_&Hl&_). rewrite Hdays in Hl. lia.
    + intros e. rewrite Hdays, Hperm, elem_of_app, list_elem_of_singleton. unfold in_trial. rewrite Hg.
      intros [He| ->]; [by apply Ht|].
      apply refresh_phase_Ok in Hr as [(_&_&Hc)|(?&_)]; [|done]. rewrite Hp in Hc.
      destruct Hc as (text&g&?&?&?). by exists text, g, d.
    + rewrite Hph. by destruct (_ <=? _)%nat.
    + rewrite Hph, Hdays. destruct (_ <=? _)%nat eqn:E; [done|]. intros _. by apply Nat.leb_gt.
  - assert (en_successful_days s0 = en_successful_days s /\
      en_genesis_local_date s0 = en_genesis_local_date s /\ en_revision s0 = en_revision s /\
      (en_phase s = TrialQualified \/ is_pro (en_phase s) = true)) as (Hdays&Hg&Hrv&Hph).
    { apply refresh_phase_Ok in Hr as [(_&->&_)|(_&[(?&->&_)|(Hph&->&_)])]; [done|..].
      - by destruct Hp.
      - split_and!; [done..|right]. by destruct Hph as [-> | ->]. }
    constructor; [done|apply bump_bounds; simpl; by rewrite Hrv| | | |].
    + intros _. simpl. rewrite Hdays. by apply Hq.
    + simpl. rewrite Hdays. unfold in_trial. simpl. rewrite Hg. exact Ht.
    + simpl. by destruct (vsu_plan v).
    + simpl. by destruct (vsu_plan v).
Qed.

Lemma entitled_sound s : entitled s -> sound s.
Proof.
  intros Hs. unfold entitled in Hs.
  assert (forall a b, rtc writes a b -> sound a -> sound b) as Hgen.
  { induction 1 as [|a b c Hab _ IH]; [done|]. intros Ha. apply IH.
    eapply write_case_sound; [exact Ha|by apply writes_case]. }
  eapply Hgen; [exact Hs|apply sound_default].
Qed.

(** TOHSENO Pro comes only after five successful days: in every state an
    installation can reach, a qualified trial or a subscription, active or lapsed,
    stands on exactly five pieces of valid evidence with distinct dates, commands,
    executions and Versions, each recorded within seven days of genesis. *)
Theorem pro_requires_five_days s : entitled s ->
  en_phase s = TrialQualified \/ is_pro (en_phase s) = true ->
  length (en_successful_days s) = 5 /\
  Forall (λ e, validate_evidence e = Ok tt /\ in_trial s e) (en_successful_days s) /\
  Forall (λ key : SuccessfulDayEvidence -> string, NoDup (key <$> en_successful_days s)) day_keys.
Proof.
  intros [Hv _ Hq Ht _ _]%entitled_sound Hp. apply validate_state_Ok in Hv as (_&_&_&_&[He Hn]&_).
  split_and!; [by apply Hq| |done].
  rewrite Forall_forall in He |- *. intros e Hin. split; [by apply He|by apply Ht].
Qed.

(** Factory mutations are allowed only to the entitled: whatever the file
    holds, when the status says so at some time then the trial is active and
    within its seven days, or a subscription is paid through a later time. *)
Theorem mutations_need_entitlement `{StateReader} now d file file' :
  require_new_factory_mutation now d file = (file', Ok tt) ->
  exists s, read_locked file = Ok s /\ file' = file /\
    ((en_phase s = TrialActive /\ exists text g, en_genesis_local_date s = Some text /\
        parse_iso_date text = Some g /\ (d < g + TRIAL_CALENDAR_DAYS)%Z) \/
     ((en_phase s = ProMonthly \/ en_phase s = ProYearly) /\ exists v p,
        en_subscription s = Some v /\ parse_rfc3339 (vsu_paid_through v) = Some p /\
        (instant now < instant p)%Z)).
Proof.
  unfold require_new_factory_mutation, status_at, transact. intros Hm.
  destruct (read_locked file) as [s|]; [|done]. simpl in Hm. exists s. split; [done|].
  unfold status_step in Hm. destruct (refresh_phase s now d) as [[s' ch]|] eqn:Hr; [|done].
  apply refresh_phase_Ok in Hr as [(->&->&Hc)|(->&[(_&->&_)|(_&->&_)])]; simpl in Hm.
  - unfold status_from in Hm. simpl in Hm.
    destruct (factory_mutations_allowed (en_phase s)) eqn:Ha; [|done]. injection Hm as <-.
    split; [done|]. destruct (en_phase s) eqn:Hp; try done; [left|right|right]; (split; [by auto|exact Hc]).
  - by destruct (write_locked _).
  - by destruct (write_locked _).
Qed.

(** Subscriptions only move forward: over any operations a recorded
    subscription is either kept or replaced by one with a larger provider
    revision. *)
Theorem subscription_revision_advances s s' v : rtc writes s s' -> en_subscription s = Some v ->
  exists v', en_subscription s' = Some v' /\
    (v' = v \/ (vsu_provider_revision v < vsu_provider_revision v')%Z).
Proof.
  intros Hs. revert v. induction Hs as [s|a b c Hab _ IH]; intros v Hv; [exists v; auto|].
  assert (exists v1, en_subscription b = Some v1 /\
    (v1 = v \/ (vsu_provider_revision v < vsu_provider_revision v1)%Z)) as (v1&Hv1&Hle).
  { apply writes_case in Hab.
    destruct Hab as [now d s' Hr|mig ts d Hp s' _|ev now d Hp Hr _ _ _ days s1 s' _
      |v2 now d s0 ch _ Hr _ Hex s' _].
    - exists v. simpl. rewrite (refresh_subscription _ _ _ _ _ Hr). auto.
    - exists v. auto.
    - exists v. unfold s', s1. destruct (_ <=? _)%nat; auto.
    - exists v2. rewrite Hv in Hex. split; [done|by right]. }
  destruct (IH _ Hv1) as (v2&Hv2&Hle2). exists v2. split; [done|].
  destruct Hle as [->|], Hle2 as [->|]; auto; right; lia.
Qed.

(** The phase graph: operations move an installation from set-up to its
    trial, from the trial to qualification or expiry, from qualification to Pro,
    and between Pro and lapse; an expired trial stays expired. *)
Theorem phases_progress s s' : entitled s -> writes s s' ->
  match en_phase s, en_phase s' with
  | GenesisIncomplete, TrialActive => True
  | TrialActive, (TrialActive | TrialQualified | TrialExpired) => True
  | TrialQualified, (ProMonthly | ProYearly) => True
  | (ProMonthly | ProYearly | ProLapsed), (ProMonthly | ProYearly | ProLapsed) => True
  | _, _ => False
  end.
Proof.
  intros _ Hw%writes_case.
  destruct Hw as [now d s' Hr|mig ts d Hp s' _|ev now d Hp Hr _ _ _ days s1 s' _
    |v now d s0 ch _ Hr Hp _ s' _].
  - apply refresh_phase_Ok in Hr as [(?&_)|(_&[(Hph&->&_)|([Hph|Hph]&->&_)])]; [done|..]; simpl;
      by rewrite Hph.
  - simpl. by rewrite Hp.
  - rewrite Hp. unfold s'. destruct (_ <=? _)%nat; [done|].
    assert (en_phase (bump s1) = TrialActive) as -> by exact Hp. done.
  - simpl. apply refresh_phase_Ok in Hr as [(_&->&_)|(_&[(Hph&->&_)|([Hph|Hph]&->&_)])]; simpl in *.
    + destruct Hp as [->|Hp]; [by destruct (vsu_plan v)|].
      destruct (en_phase s), (vsu_plan v); done.
    + by destruct Hp.
    + rewrite Hph. by destruct (vsu_plan v).
    + rewrite Hph. by destruct (vsu_plan v).
Qed.

Lemma repeats_none ev (days : list SuccessfulDayEvidence) : existsb (repeats ev) days = false <->
  Forall (λ key : SuccessfulDayEvidence -> string, key ev ∉ key <$> days) day_keys.
Proof.
  unfold day_keys. rewrite !Forall_cons, Forall_nil. induction days as [|e days IH]; simpl.
  { split; [|done]. intros _. split_and!; try done; apply not_elem_of_nil. }
  rewrite !not_elem_of_cons. unfold repeats at 1. rewrite !orb_false_iff, IH, !bool_decide_eq_false.
  intuition congruence.
Qed.

Lemma days_ok_add ev days : days_ok days -> validate_evidence ev = Ok tt ->
  existsb (repeats ev) days = false -> days_ok (stable_sort date_leb (days ++ [ev])).
Proof.
  intros [Hv Hn] Hev Hrep%repeats_none.
  apply (days_ok_perm (ev :: days)).
  { rewrite stable_sort_perm. by rewrite Permutation_app_comm. }
  split; [by constructor|]. rewrite Forall_forall in Hrep, Hn |- *. intros key Hk.
  rewrite fmap_cons. constructor; [by apply Hrep|by apply Hn].
Qed.

(** Progress of the trial: while it runs, valid evidence of the day that
    repeats nothing is always recorded, and the recording that makes five
    qualifies the trial; so five distinct successful days are enough. *)
Theorem successful_day_recorded s ev now d text g : entitled s -> en_phase s = TrialActive ->
  en_genesis_local_date s = Some text -> parse_iso_date text = Some g ->
  (d < g + TRIAL_CALENDAR_DAYS)%Z ->
  validate_evidence ev = Ok tt -> sd_local_date ev = display_date d ->
  existsb (repeats ev) (en_successful_days s) = false ->
  exists s', record_day_step ev now d s = Ok (written s') /\
    Permutation (en_successful_days s') (ev :: en_successful_days s) /\
    (en_phase s' = TrialQualified <-> length (en_successful_days s) = 4) /\
    (en_phase s' = TrialActive <-> length (en_successful_days s) < 4).
Proof.
  intros Hs%entitled_sound Hp Hg Hpar Hd Hev Hdate Hrep. destruct Hs as [Hv Hrev _ _ _ Hact].
  specialize (Hact Hp). unfold record_day_step.
  assert (refresh_phase s now d = Ok (s, false)) as ->.
  { unfold refresh_phase, entitlement_date. rewrite Hp, Hg. simpl. rewrite Hpar. simpl.
    by rewrite (proj2 (Z.leb_gt _ _) Hd). }
  simpl. rewrite (bool_decide_eq_true_2 (en_phase s = TrialActive)) by done. simpl. rewrite Hev. simpl.
  rewrite (bool_decide_eq_true_2 (sd_local_date ev = _)) by done. simpl. rewrite Hrep.
  set (days := stable_sort date_leb (en_successful_days s ++ [ev])).
  set (s' := bump _).
  assert (days ≡ₚ ev :: en_successful_days s) as Hperm.
  { unfold days. rewrite stable_sort_perm. by rewrite Permutation_app_comm. }
  assert (length days = S (length (en_successful_days s))) as Hlen by (by rewrite Hperm).
  assert (en_successful_days s' = days /\ en_schema s' = en_schema s /\
    en_revision s' = en_revision (bump s) /\ en_genesis_completed_at s' = en_genesis_completed_at s /\
    en_genesis_local_date s' = en_genesis_local_date s /\
    en_phase s' = if (REQUIRED_SUCCESSFUL_DAYS <=? length days)%nat then TrialQualified else TrialActive)
    as (Hdays&Hsc&Hrv&Hgc&Hgl&Hph).
  { unfold s'. destruct (_ <=? _)%nat; split_and!; first [done|exact Hp]. }
  rewrite Hlen in Hph. clearbody s'.
  apply validate_state_Ok in Hv as (Hsc0&_&Ha&Hl&Hok&_&_).
  assert (validate_state s' = Ok tt) as Hv'.
  { apply validate_state_Ok. rewrite Hsc, Hrv, Hdays, Hph, Hlen. pose proof (bump_bounds _ Hrev).
    split_and!; [done|lia| |lia|by apply days_ok_add| |by destruct (_ <=? S _)%nat].
    - unfold validate_anchor in *. rewrite Hgc, Hgl, Hph. rewrite Hp in Ha.
      destruct (en_genesis_completed_at s), (en_genesis_local_date s); try done.
    - destruct (_ <=? S _)%nat eqn:E; [|done]. apply Nat.leb_le in E. lia. }
  exists s'. rewrite Hv', Hph, Hdays. unfold REQUIRED_SUCCESSFUL_DAYS in *.
  destruct (5 <=? _)%nat eqn:E; [apply Nat.leb_le in E|apply Nat.leb_gt in E];
    (split_and!; [done|done|..]); split; intros ?; first [done|lia|discriminate].
Qed.

(** What an operation leaves of the state, and the states of a run. *)
Definition next_state (op : Operation) (s : EntitlementState) : EntitlementState :=
  match op_step op s with Ok (Some s', _) => s' | _ => s end.
Fixpoint run_states (ops : list Operation) (s : EntitlementState) : list EntitlementState :=
  match ops with [] => [] | op :: ops => next_state op s :: run_states ops (next_state op s) end.

Lemma op_step_written op s s' r : op_step op s = Ok (Some s', r) -> r = s'.
Proof.
  destruct op as [now d|mig at_ d|ev now d|v now d]; simpl; intros Hop.
  - unfold status_step, written, unwritten in Hop. apply bind_Ok in Hop as ([s0 ch]&_&Hop).
    destruct ch; by simplify_eq.
  - unfold genesis_step, written, unwritten in Hop. case_bool_decide; [|done].
    apply bind_Ok in Hop as (?&_&Hop). apply bind_Ok in Hop as (?&_&Hop). by simplify_eq.
  - unfold record_day_step, written, unwritten in Hop. apply bind_Ok in Hop as ([s0 ch]&Hr&Hop).
    case_bool_decide; simpl in Hop; [|by destruct ch; simplify_eq].
    apply bind_Ok in Hop as (?&_&Hop). apply bind_Ok in Hop as (?&_&Hop).
    destruct (existsb _ _); [by destruct ch; simplify_eq|].
    apply bind_Ok in Hop as (?&_&Hop). by simplify_eq.
  - unfold install_step, written, unwritten in Hop. apply bind_Ok in Hop as (?&_&Hop).
    apply bind_Ok in Hop as ([s0 ch]&Hr&Hop). apply bind_Ok in Hop as (?&_&Hop).
    destruct (en_subscription s0); [|apply bind_Ok in Hop as (?&_&Hop); by simplify_eq].
    apply bind_Ok in Hop as (?&_&Hop).
    case_bool_decide; apply bind_Ok in Hop as (?&_&Hop); by simplify_eq.
Qed.
Lemma run_states_entitled ops : forall s, entitled s -> Forall entitled (run_states ops s).
Proof.
  induction ops as [|op ops IH]; intros s Hs; cbn; [constructor|].
  assert (entitled (next_state op s)) as Hn; [|by constructor; [|apply IH]].
  unfold next_state. destruct (op_step op s) as [[[s'|] r]|] eqn:E; try done.
  eapply rtc_r; [exact Hs|]. exists op. by rewrite E, (op_step_written _ _ _ _ E).
Qed.

(** ** The contract

    What the product promises about trial and subscription, in facts and not in
    phases: when and on which day it was set up, which days succeeded, which
    subscription it holds, and whether the end of the trial or of the paid period
    has been seen. The phase follows from them. *)

Record Account := {
  ac_revision : Z;
  ac_genesis : option (string * string);  (** the time and the local day *)
  ac_migration : option string;
  ac_days : gmap string SuccessfulDayEvidence;  (** by their local day *)
  ac_subscription : option VerifiedSubscription;
  ac_ended : bool }.
#[export] Instance Account_eq_dec : EqDecision Account.
Proof. solve_decision. Defined.
Definition new_account : Account :=
  {| ac_revision := 1; ac_genesis := None; ac_migration := None; ac_days := ∅; ac_subscription := None; ac_ended := false |}.

Definition standing (a : Account) : EntitlementPhase :=
  match ac_genesis a, ac_subscription a with
  | None, _ => GenesisIncomplete
  | Some _, Some v =>
      if ac_ended a then ProLapsed else match vsu_plan v with Monthly => ProMonthly | Yearly => ProYearly end
  | Some _, None =>
      if decide (5 <= size (ac_days a)) then TrialQualified else if ac_ended a then TrialExpired else TrialActive
  end.
Definition report (a : Account) : EntitlementStatus := {|
  es_schema := "tohseno.private-entitlement-status/1"; es_phase := standing a;
  es_genesis_complete := bool_decide (is_Some (ac_genesis a));
  es_successful_days := size (ac_days a); es_required_successful_days := 5;
  es_factory_mutations_allowed := bool_decide (standing a ∈ [TrialActive; ProMonthly; ProYearly]);
  es_purchase_allowed := bool_decide (standing a ∈ [TrialQualified; ProLapsed]);
  es_plan := vsu_plan <$> ac_subscription a; es_paid_through := vsu_paid_through <$> ac_subscription a;
  es_cancellation_at_period_end := default false (vsu_cancellation_at_period_end <$> ac_subscription a) |}.

(** *** What may be recorded *)

Definition letter_or_digit (b : Z) : Prop := (48 <= b <= 57 \/ 65 <= b <= 90 \/ 97 <= b <= 122)%Z.
Definition identifier (extra : list Z) (s : string) : Prop :=
  (1 <= len s /\ len s <= 160) /\ Forall (λ b, letter_or_digit b \/ b ∈ extra) (bytes_of s).
Definition good_evidence (e : SuccessfulDayEvidence) : Prop :=
  is_Some (parse_iso_date (sd_local_date e)) /\ is_Some (parse_rfc3339 (sd_accepted_at e)) /\
  Forall (identifier [95; 45; 46]%Z) [sd_command_id e; sd_execution_id e; sd_accepted_version_id e].
Definition lowercase_hex (b : Z) : Prop := (48 <= b <= 57 \/ 97 <= b <= 102)%Z.
(** The first time is before the second one. *)
Definition earlier (a b : option OffsetDateTime) : Prop :=
  match a, b with Some a, Some b => (instant a < instant b)%Z | _, _ => False end.
Definition good_subscription (v : VerifiedSubscription) : Prop :=
  vsu_provider_revision v <> 0%Z /\ identifier [95; 45]%Z (vsu_entitlement_id v) /\
  (len (vsu_receipt_digest v) = 64 /\ Forall lowercase_hex (bytes_of (vsu_receipt_digest v))) /\
  earlier (parse_rfc3339 (vsu_issued_at v)) (parse_rfc3339 (vsu_paid_through v)).
Definition paid_at (now : OffsetDateTime) (v : VerifiedSubscription) : Prop :=
  earlier (Some now) (parse_rfc3339 (vsu_paid_through v)).
#[local] Instance letter_or_digit_dec b : Decision (letter_or_digit b).
Proof. unfold letter_or_digit. apply _. Defined.
#[local] Instance lowercase_hex_dec b : Decision (lowercase_hex b).
Proof. unfold lowercase_hex. apply _. Defined.
#[local] Instance identifier_dec extra s : Decision (identifier extra s).
Proof. unfold identifier. apply _. Defined.
#[local] Instance good_evidence_dec e : Decision (good_evidence e).
Proof. unfold good_evidence. apply _. Defined.
#[local] Instance earlier_dec a b : Decision (earlier a b).
Proof. unfold earlier. destruct a, b; apply _. Defined.
#[local] Instance good_subscription_dec v : Decision (good_subscription v).
Proof. unfold good_subscription. apply _. Defined.
#[local] Instance paid_at_dec now v : Decision (paid_at now v).
Proof. unfold paid_at. apply _. Defined.

(** *** What an operation makes of an account *)

Inductive Refusal := RefusedLocked | RefusedInvalid | RefusedUnreadable.
Definition with_ended (ended : bool) (a : Account) : Account := {|
  ac_revision := ac_revision a; ac_genesis := ac_genesis a; ac_migration := ac_migration a; ac_days := ac_days a;
  ac_subscription := ac_subscription a; ac_ended := ended |}.
Definition with_genesis (at_ day : string) (migration : option string) (a : Account) : Account := {|
  ac_revision := ac_revision a; ac_genesis := Some (at_, day);
  ac_migration := match migration with Some m => Some m | None => ac_migration a end;
  ac_days := ac_days a; ac_subscription := ac_subscription a; ac_ended := ac_ended a |}.
Definition with_day (e : SuccessfulDayEvidence) (a : Account) : Account := {|
  ac_revision := ac_revision a; ac_genesis := ac_genesis a; ac_migration := ac_migration a;
  ac_days := <[sd_local_date e := e]> (ac_days a); ac_subscription := ac_subscription a; ac_ended := ac_ended a |}.
Definition with_subscription (v : VerifiedSubscription) (a : Account) : Account := {|
  ac_revision := ac_revision a; ac_genesis := ac_genesis a; ac_migration := ac_migration a; ac_days := ac_days a;
  ac_subscription := Some v; ac_ended := false |}.
Definition advance (a : Account) : Account := {|
  ac_revision := Z.min U64_MAX (ac_revision a + 1); ac_genesis := ac_genesis a; ac_migration := ac_migration a;
  ac_days := ac_days a; ac_subscription := ac_subscription a; ac_ended := ac_ended a |}.

(** A trial ends on the seventh day after set-up, unless five days succeeded
    before; a subscription when what is paid is over. *)
Definition over (now : OffsetDateTime) (today : Z) (a : Account) : Prop :=
  match ac_subscription a, ac_genesis a with
  | Some v, _ => ~ paid_at now v
  | None, Some (_, day) =>
      size (ac_days a) < 5 /\ match parse_iso_date day with Some day => (day + 7 <= today)%Z | None => False end
  | None, None => False
  end.
#[local] Instance over_dec now today a : Decision (over now today a).
Proof. unfold over. destruct (ac_subscription a), (ac_genesis a) as [[? day]|]; try apply _. destruct (parse_iso_date day); apply _. Defined.
Definition observed (now : OffsetDateTime) (today : Z) (a : Account) : Account :=
  if decide (over now today a) then with_ended true a else a.
Definition same_work (e e' : SuccessfulDayEvidence) : Prop :=
  sd_command_id e' = sd_command_id e \/ sd_execution_id e' = sd_execution_id e \/
  sd_accepted_version_id e' = sd_accepted_version_id e.
#[local] Instance same_work_dec e e' : Decision (same_work e e').
Proof. unfold same_work. apply _. Defined.
Definition recorded_before (e : SuccessfulDayEvidence) (a : Account) : Prop :=
  is_Some (ac_days a !! sd_local_date e) \/ map_Exists (λ _, same_work e) (ac_days a).
#[local] Instance recorded_before_dec e a : Decision (recorded_before e a).
Proof. unfold recorded_before. apply _. Defined.

(** The account that an operation asks for, and the one that it reports. *)
Definition intent (op : Operation) (a : Account) : Result Refusal (Account * Account) :=
  match op with
  | OpStatus now today => let a' := observed now today a in Ok (a', a')
  | OpGenesis migration at_ today =>
      match ac_genesis a, format_rfc3339 at_ with
      | Some _, _ => Ok (a, a)
      | None, Some text =>
          if decide (is_Some (parse_rfc3339 text) /\ is_Some (parse_iso_date (display_date today)))
          then let a' := with_genesis text (display_date today) migration a in Ok (a', a')
          else Err RefusedInvalid
      | None, None => Err RefusedInvalid
      end
  | OpRecordDay e now today =>
      let a' := observed now today a in
      if decide (standing a' = TrialActive) then
        if decide (good_evidence e /\ sd_local_date e = display_date today) then
          let a' := if decide (recorded_before e a') then a' else with_day e a' in Ok (a', a')
        else Err RefusedInvalid
      else Ok (a', a')
  | OpInstall v now today =>
      let a' := observed now today a in
      if decide (good_subscription v /\ paid_at now v) then
        if decide (size (ac_days a) = 5) then
          match ac_subscription a with
          | Some held =>
              if decide (vsu_provider_revision held < vsu_provider_revision v)%Z
              then Ok (with_subscription v a', with_subscription v a')
              else if decide (vsu_provider_revision held = vsu_provider_revision v /\ vsu_receipt_digest held = vsu_receipt_digest v)
              then Ok (a, a')
              else Err RefusedInvalid
          | None => Ok (with_subscription v a', with_subscription v a')
          end
        else Err RefusedLocked
      else Err RefusedInvalid
  end.

(** *** The state of an account *)

Definition sorted_days (m : gmap string SuccessfulDayEvidence) : list SuccessfulDayEvidence :=
  stable_sort date_leb (snd <$> map_to_list m).
Definition state_of (a : Account) : EntitlementState := {|
  en_schema := "tohseno.private-entitlement-state/1"; en_revision := ac_revision a; en_phase := standing a;
  en_genesis_completed_at := fst <$> ac_genesis a; en_genesis_local_date := snd <$> ac_genesis a;
  en_successful_days := sorted_days (ac_days a); en_subscription := ac_subscription a; en_migration := ac_migration a |}.
(** It can be stored: 256 KiB of canonical JSON. *)
Definition fits (a : Account) : bool :=
  match canonical_to_vec (state_of a) with Ok bytes => (Z.of_nat (length bytes) <=? 262144)%Z | Err _ => false end.

Inductive Answer := Granted (status : EntitlementStatus) | Refused (refusal : Refusal).
(** An operation that changes the account counts one revision; it takes effect
    entirely, or, refused or not to be stored, not at all. *)
Definition contract (op : Operation) (a : Account) : Account * Answer :=
  match intent op a with
  | Err refusal => (a, Refused refusal)
  | Ok (a', shown) =>
      if decide (a' = a) then (a, Granted (report shown))
      else if fits (advance a') then (advance a', Granted (report shown))
      else (a, Refused RefusedInvalid)
  end.
Fixpoint contract_run (ops : list Operation) (a : Account) : list (Account * Answer) :=
  match ops with [] => [] | op :: ops => contract op a :: contract_run ops (contract op a).1 end.

(** *** Validation is what the contract asks *)

Lemma entitlement_byte b : is_entitlement_byte b = true <-> letter_or_digit b \/ b ∈ [95; 45]%Z.
Proof.
  unfold is_entitlement_byte, is_ascii_alphanumeric, is_ascii_lowercase, is_ascii_uppercase, is_ascii_digit, letter_or_digit.
  rewrite !orb_true_iff, !andb_true_iff, !Z.leb_le, !Z.eqb_eq, !elem_of_cons, elem_of_nil. lia.
Qed.
Lemma evidence_byte b : is_evidence_byte b = true <-> letter_or_digit b \/ b ∈ [95; 45; 46]%Z.
Proof.
  unfold is_evidence_byte. rewrite orb_true_iff, entitlement_byte, Z.eqb_eq, !elem_of_cons, elem_of_nil. tauto.
Qed.
Lemma hex_byte b : is_lower_hex b = true <-> lowercase_hex b.
Proof. unfold is_lower_hex, is_ascii_digit, lowercase_hex. rewrite orb_true_iff, !andb_true_iff, !Z.leb_le. lia. Qed.
Lemma all_bytes (p : Z -> bool) (P : Z -> Prop) l : (forall b, p b = true <-> P b) -> forallb p l = true <-> Forall P l.
Proof. intros Hp. rewrite forallb_Forall. apply Forall_iff. intros b. rewrite <- Hp. by destruct (p b). Qed.
Lemma bounded_text (p : Z -> bool) extra s : (forall b, p b = true <-> letter_or_digit b \/ b ∈ extra) ->
  ((len s =? 0)%nat || (160 <? len s)%nat || negb (forallb p (bytes_of s)) = false <-> identifier extra s).
Proof.
  intros Hp. unfold identifier. rewrite <- (all_bytes p _ _ Hp), !orb_false_iff, negb_false_iff, Nat.eqb_neq, Nat.ltb_ge.
  intuition lia.
Qed.
Lemma parsed_then {A B} (o : option A) e (k : entitlement_result B) b : (ok_or e o ;; k) = Ok b <-> is_Some o /\ k = Ok b.
Proof. destruct o; cbn; [split; [intros ->; by eauto|by intros [_ ->]]|split; [done|by intros [[] _]]]. Qed.
Lemma evidence_good e : validate_evidence e = Ok tt <-> good_evidence e.
Proof.
  unfold validate_evidence, good_evidence, entitlement_date, entitlement_timestamp. rewrite !parsed_then, for_each_Ok.
  rewrite !Forall_cons, !fail_if_Ok. cbn [snd fst]. rewrite !(bounded_text is_evidence_byte _ _ evidence_byte).
  rewrite !Forall_nil. tauto.
Qed.
Lemma shape_good v : validate_subscription_shape v = Ok tt <-> good_subscription v.
Proof.
  unfold validate_subscription_shape, good_subscription, entitlement_timestamp.
  rewrite <- (bounded_text is_entitlement_byte [95; 45]%Z _ entitlement_byte), <- (all_bytes is_lower_hex _ _ hex_byte).
  rewrite then_Ok, fail_if_Ok, !orb_false_iff, !negb_false_iff, bool_decide_eq_false, (Nat.eqb_eq _ 64). unfold earlier.
  destruct (parse_rfc3339 (vsu_issued_at v)) as [i|]; [|by cbn; split; [intros [_ ?]|intros (_&_&_&[])]].
  destruct (parse_rfc3339 (vsu_paid_through v)) as [p|]; [|by cbn; split; [intros [_ ?]|intros (_&_&_&[])]].
  cbn. rewrite fail_if_Ok, Z.leb_gt. tauto.
Qed.
Lemma subscription_good v now : validate_subscription v now = Ok tt <-> good_subscription v /\ paid_at now v.
Proof.
  unfold validate_subscription, paid_at, entitlement_timestamp, earlier. rewrite then_Ok, shape_good.
  destruct (parse_rfc3339 (vsu_paid_through v)) as [p|]; cbn; [by rewrite fail_if_Ok, Z.leb_gt|].
  split; [by intros [_ ?]|by intros [_ []]].
Qed.

(** A state that a file may hold. *)
Record well_formed (s : EntitlementState) : Prop := {
  wf_schema : en_schema s = "tohseno.private-entitlement-state/1";
  wf_revision : en_revision s <> 0%Z;
  wf_anchor : match en_genesis_completed_at s, en_genesis_local_date s with
    | Some at_, Some day => is_Some (parse_rfc3339 at_) /\ is_Some (parse_iso_date day)
    | None, None => en_phase s = GenesisIncomplete
    | _, _ => False
    end;
  wf_days : length (en_successful_days s) <= 5 /\ Forall good_evidence (en_successful_days s);
  wf_distinct : NoDup (sd_local_date <$> en_successful_days s) /\ NoDup (sd_command_id <$> en_successful_days s) /\
    NoDup (sd_execution_id <$> en_successful_days s) /\ NoDup (sd_accepted_version_id <$> en_successful_days s);
  wf_qualified : en_phase s = TrialQualified -> length (en_successful_days s) = 5;
  wf_pro : en_phase s ∈ [ProMonthly; ProYearly; ProLapsed] -> exists v, en_subscription s = Some v /\ good_subscription v }.
Lemma anchor_good s : validate_anchor s = Ok tt <-> match en_genesis_completed_at s, en_genesis_local_date s with
    | Some at_, Some day => is_Some (parse_rfc3339 at_) /\ is_Some (parse_iso_date day)
    | None, None => en_phase s = GenesisIncomplete
    | _, _ => False
    end.
Proof.
  unfold validate_anchor, entitlement_timestamp, entitlement_date.
  destruct (en_genesis_completed_at s), (en_genesis_local_date s); [|done..|].
  - rewrite !parsed_then. naive_solver.
  - rewrite fail_if_Ok. by rewrite negb_false_iff, bool_decide_eq_true.
Qed.
Lemma pro_phase p : is_pro p = true <-> p ∈ [ProMonthly; ProYearly; ProLapsed].
Proof. rewrite !elem_of_cons, elem_of_nil. destruct p; cbn; intuition congruence. Qed.
Lemma state_good s : validate_state s = Ok tt <-> well_formed s.
Proof.
  rewrite validate_state_Ok, anchor_good, pro_phase. unfold days_ok, day_keys. rewrite !Forall_cons, Forall_nil.
  setoid_rewrite shape_good. assert (Forall (λ e, validate_evidence e = Ok tt) (en_successful_days s) <->
    Forall good_evidence (en_successful_days s)) as -> by (apply Forall_iff, evidence_good).
  split; [intros (?&?&?&?&?&?&?)|intros []]; [constructor|split_and!]; tauto.
Qed.

(** *** The accounts that an installation can come to *)

Record proper (a : Account) : Prop := {
  pr_revision : (1 <= ac_revision a <= U64_MAX)%Z;
  pr_fresh : ac_genesis a = None -> ac_days a = ∅ /\ ac_subscription a = None /\ ac_ended a = false;
  pr_anchor : forall at_ day, ac_genesis a = Some (at_, day) -> is_Some (parse_rfc3339 at_) /\ is_Some (parse_iso_date day);
  pr_days : forall k e, ac_days a !! k = Some e -> sd_local_date e = k /\ good_evidence e;
  pr_distinct : forall j k e f, ac_days a !! j = Some e -> ac_days a !! k = Some f -> same_work e f -> j = k;
  pr_size : size (ac_days a) <= 5;
  pr_subscription : forall v, ac_subscription a = Some v -> good_subscription v /\ size (ac_days a) = 5 }.
Lemma proper_new : proper new_account.
Proof.
  constructor; cbn; try done. rewrite map_size_empty. lia.
Qed.
Lemma proper_advance a : proper a -> proper (advance a).
Proof. intros []. constructor; cbn; try done. unfold U64_MAX in *. lia. Qed.
Lemma proper_observed now today a : proper a -> proper (observed now today a).
Proof.
  intros Hp. unfold observed. destruct (decide _) as [Ho|]; [|done]. pose proof Hp as [H1 H2 H3 H4 H5 H6 H7].
  constructor; try done. cbn. intros Hn. destruct (H2 Hn) as (_&Hs&_). unfold over in Ho. by rewrite Hs, Hn in Ho.
Qed.

Definition keyed (m : gmap string SuccessfulDayEvidence) : Prop := forall k e, m !! k = Some e -> sd_local_date e = k.
Lemma sorted_days_perm m : sorted_days m ≡ₚ snd <$> map_to_list m.
Proof. apply stable_sort_perm. Qed.
Lemma elem_of_days m e : e ∈ sorted_days m <-> exists k, m !! k = Some e.
Proof.
  rewrite sorted_days_perm, list_elem_of_fmap. split.
  - intros ([k e']&->&Hk%elem_of_map_to_list). by exists k.
  - intros [k Hk]. exists (k, e). split; [done|]. by apply elem_of_map_to_list.
Qed.
Lemma days_length m : length (sorted_days m) = size m.
Proof. by rewrite sorted_days_perm, length_fmap, length_map_to_list. Qed.
Lemma days_distinct {K} (key : SuccessfulDayEvidence -> K) (m : gmap string SuccessfulDayEvidence) :
  (forall j k e f, m !! j = Some e -> m !! k = Some f -> key e = key f -> j = k) -> NoDup (key <$> sorted_days m).
Proof.
  intros Hinj. rewrite sorted_days_perm, <- list_fmap_compose.
  apply NoDup_fmap_2_strong; [|apply NoDup_map_to_list].
  intros [j e] [k f] Hj%elem_of_map_to_list Hk%elem_of_map_to_list E. cbn in E.
  assert (j = k) as -> by eauto. congruence.
Qed.
Lemma date_leb_total a b : date_leb a b = true \/ date_leb b a = true.
Proof. apply bytes_leb_total. Qed.
Lemma date_leb_trans a b c : date_leb a b = true -> date_leb b c = true -> date_leb a c = true.
Proof. apply bytes_leb_trans. Qed.
Lemma days_insert m e : keyed m -> m !! sd_local_date e = None ->
  stable_sort date_leb (sorted_days m ++ [e]) = sorted_days (<[sd_local_date e := e]> m).
Proof.
  intros Hk Hn. eapply sorted_perm_eq with (leb := date_leb); [apply date_leb_total|apply date_leb_trans|..].
  - apply stable_sort_sorted; [apply date_leb_total|apply date_leb_trans].
  - apply stable_sort_sorted; [apply date_leb_total|apply date_leb_trans].
  - intros x y. rewrite !stable_sort_perm, !elem_of_app, !list_elem_of_singleton, !elem_of_days. intros Hx Hy Hxy Hyx.
    assert (sd_local_date x = sd_local_date y) as E by (apply (inj bytes_of), bytes_leb_antisym; done).
    destruct Hx as [[j Hx]| ->], Hy as [[k Hy]| ->]; [|exfalso..|done].
    + rewrite (Hk _ _ Hx), (Hk _ _ Hy) in E. congruence.
    + rewrite (Hk _ _ Hx) in E. congruence.
    + rewrite (Hk _ _ Hy) in E. congruence.
  - rewrite stable_sort_perm, !sorted_days_perm, map_to_list_insert by done. cbn. by rewrite Permutation_app_comm.
Qed.

Lemma state_proper a : proper a -> well_formed (state_of a).
Proof.
  intros [Hr Hf Ha Hd Hw Hsz Hs]. assert (forall e, e ∈ sorted_days (ac_days a) -> good_evidence e) as Hgood.
  { intros e [k Hk]%elem_of_days. by destruct (Hd _ _ Hk). }
  constructor; cbn.
  - done.
  - lia.
  - unfold standing. destruct (ac_genesis a) as [[at_ day]|]; cbn; [by apply Ha|done].
  - rewrite days_length. split; [done|]. by apply Forall_forall.
  - split_and!; apply days_distinct; intros j k e f He Hf' E.
    + destruct (Hd _ _ He) as [<- _], (Hd _ _ Hf') as [<- _]. done.
    + eapply Hw; [exact He|exact Hf'|by left].
    + eapply Hw; [exact He|exact Hf'|by right; left].
    + eapply Hw; [exact He|exact Hf'|by right; right].
  - rewrite days_length. unfold standing. destruct (ac_genesis a), (ac_subscription a) as [v|]; try done.
    + by destruct (ac_ended a), (vsu_plan v).
    + destruct (decide _); [lia|by destruct (ac_ended a)].
  - unfold standing. rewrite !elem_of_cons, elem_of_nil.
    destruct (ac_genesis a), (ac_subscription a) as [v|] eqn:E; try by intros [?|[?|[?|?]]].
    + intros _. exists v. by split; [|apply Hs].
    + destruct (decide _), (ac_ended a); by intros [?|[?|[?|?]]].
Qed.

(** *** Every operation computes what the contract asks *)

Definition refusal_of (e : EntitlementError) : Refusal :=
  match e with
  | EntitlementLocked _ => RefusedLocked
  | EntitlementInvalid _ => RefusedInvalid
  | EntitlementIo _ | EntitlementJson _ => RefusedUnreadable
  end.
Lemma status_report a : status_from (state_of a) = report a.
Proof.
  unfold status_from, report, state_of. cbn. rewrite days_length. f_equal.
  - by destruct (ac_genesis a) as [[]|].
  - by destruct (standing a).
  - by destruct (standing a).
  - by destruct (ac_subscription a).
Qed.
Lemma ended_same a : ac_ended a = true -> with_ended true a = a.
Proof. destruct a. cbn. by intros ->. Qed.
Lemma ended_other a : ac_ended a = false -> with_ended true a <> a.
Proof. intros Hf E. apply (f_equal ac_ended) in E. cbn in E. congruence. Qed.
Lemma observed_days now today a : ac_days (observed now today a) = ac_days a.
Proof. unfold observed. by destruct (decide _). Qed.
Lemma observed_subscription now today a : ac_subscription (observed now today a) = ac_subscription a.
Proof. unfold observed. by destruct (decide _). Qed.
Lemma observed_active now today a : standing (observed now today a) = TrialActive -> observed now today a = a.
Proof.
  unfold observed. destruct (decide _); [|done]. unfold standing. cbn.
  destruct (ac_genesis a), (ac_subscription a); try done. by destruct (decide _).
Qed.

Lemma refresh_observed now today a : proper a ->
  refresh_phase (state_of a) now today = Ok (state_of (observed now today a), bool_decide (observed now today a <> a)).
Proof.
  intros Hp. destruct (decide (over now today a)) as [Ho|Ho].
  - assert (observed now today a = with_ended true a) as -> by (unfold observed; by rewrite decide_True).
    unfold over in Ho. unfold refresh_phase, state_of, standing, entitlement_timestamp, entitlement_date. cbn.
    destruct (ac_subscription a) as [v|] eqn:Es; [destruct (ac_genesis a) as [[at_ day]|] eqn:Eg|destruct (ac_genesis a) as [[at_ day]|] eqn:Eg].
    + destruct (pr_subscription _ Hp v Es) as [(_&_&_&He) _]. unfold paid_at, earlier in *.
      destruct (ac_ended a) eqn:Ee; cbn.
      { rewrite bool_decide_eq_false_2 by (rewrite (ended_same _ Ee); tauto). done. }
      rewrite bool_decide_eq_true_2 by (by apply ended_other).
      destruct (parse_rfc3339 (vsu_paid_through v)) as [p|]; [|by destruct (parse_rfc3339 _) in He].
      destruct (vsu_plan v); cbn; rewrite (proj2 (Z.leb_le _ _)) by lia; done.
    + destruct (pr_fresh _ Hp Eg) as (_&?&_). congruence.
    + destruct Ho as [Hlt Hday]. rewrite !decide_False by lia. destruct (pr_anchor _ Hp _ _ Eg) as [_ [g Hg]]. rewrite Hg in Hday.
      destruct (ac_ended a) eqn:Ee; cbn.
      { rewrite bool_decide_eq_false_2 by (rewrite (ended_same _ Ee); tauto). done. }
      rewrite bool_decide_eq_true_2 by (by apply ended_other). rewrite Hg. cbn.
      unfold TRIAL_CALENDAR_DAYS. by rewrite (proj2 (Z.leb_le _ _) Hday).
    + done.
  - assert (observed now today a = a) as -> by (unfold observed; by rewrite decide_False).
    rewrite bool_decide_eq_false_2 by tauto. unfold over in Ho.
    unfold refresh_phase, entitlement_timestamp, entitlement_date. cbn. unfold standing.
    destruct (ac_subscription a) as [v|] eqn:Es; [destruct (ac_genesis a) as [[at_ day]|] eqn:Eg|destruct (ac_genesis a) as [[at_ day]|] eqn:Eg]; try done.
    + destruct (ac_ended a); [done|]. apply dec_stable in Ho. unfold paid_at, earlier in Ho.
      destruct (parse_rfc3339 (vsu_paid_through v)) as [p|] eqn:Ep; [|done].
      destruct (vsu_plan v); cbn; rewrite Ep; cbn; rewrite (proj2 (Z.leb_gt _ _)) by exact Ho; done.
    + destruct (decide (5 <= _)) as [|Hlt]; [done|]. destruct (ac_ended a); [done|]. cbn.
      destruct (pr_anchor _ Hp _ _ Eg) as [_ [g Hg]]. rewrite Hg in Ho |- *. cbn.
      rewrite (proj2 (Z.leb_gt _ _)); [done|]. unfold TRIAL_CALENDAR_DAYS. lia.
Qed.

(** What an intent is, against the result of the implementation's step. *)
Definition changed_state (a a' : Account) : option EntitlementState :=
  if decide (a' = a) then None else Some (state_of (advance a')).
Definition implements (a : Account) (i : Result Refusal (Account * Account))
    (r : entitlement_result (option EntitlementState * EntitlementState)) : Prop :=
  match i, r with
  | Ok (a', shown), Ok (w, reported) => w = changed_state a a' /\ status_from reported = report shown /\ proper a'
  | Err refusal, Err e => refusal_of e = refusal
  | _, _ => False
  end.
Lemma implements_written a a' : proper a' -> a' <> a ->
  implements a (Ok (a', a')) (validate_state (state_of (advance a')) ;; Ok (written (state_of (advance a')))).
Proof.
  intros Hp Hne. rewrite (proj2 (state_good _)) by (apply state_proper, proper_advance, Hp). cbn. unfold changed_state.
  rewrite decide_False by done. split_and!; [done| |done]. apply (status_report (advance a')).
Qed.
Lemma implements_refreshed a now today : proper a ->
  implements a (Ok (observed now today a, observed now today a))
    (Ok (if bool_decide (observed now today a <> a) then written (bump (state_of (observed now today a)))
         else unwritten (state_of (observed now today a)))).
Proof.
  intros Hp. unfold implements, changed_state. case_bool_decide as Hne; cbn.
  - rewrite decide_False by done. split_and!; [done|apply (status_report (advance _))|by apply proper_observed].
  - destruct (decide (observed now today a = a)); [|tauto]. split_and!; [done|apply status_report|by apply proper_observed].
Qed.

Lemma status_implements now today a : proper a ->
  implements a (intent (OpStatus now today) a) (op_step (OpStatus now today) (state_of a)).
Proof. intros Hp. cbn. unfold status_step. rewrite refresh_observed by done. by apply implements_refreshed. Qed.

(** Validation only ever says that something is invalid. *)
Definition invalid_only {A} (r : entitlement_result A) : Prop :=
  match r with Ok _ => True | Err e => refusal_of e = RefusedInvalid end.
Lemma invalid_bind {A B} (m : entitlement_result A) (k : A -> entitlement_result B) :
  invalid_only m -> (forall a, invalid_only (k a)) -> invalid_only (m ≫= k).
Proof. intros Hm Hk. destruct m; [apply Hk|exact Hm]. Qed.
Lemma invalid_guard b message : invalid_only (fail_if b (EntitlementInvalid message)).
Proof. by destruct b. Qed.
Lemma invalid_parse {A} (o : option A) message : invalid_only (ok_or (EntitlementInvalid message) o).
Proof. by destruct o. Qed.
Lemma invalid_each {A} (f : A -> entitlement_result unit) l : (forall x, invalid_only (f x)) -> invalid_only (for_each f l).
Proof. intros Hf. induction l as [|x l IH]; [done|]. apply invalid_bind; [apply Hf|done]. Qed.
Ltac invalid_tac := repeat first
  [ apply invalid_guard | apply invalid_parse | apply invalid_each; intros | apply invalid_bind; [|intros]
  | progress unfold entitlement_date, entitlement_timestamp | done ].
Lemma invalid_evidence e : invalid_only (validate_evidence e).
Proof. unfold validate_evidence. invalid_tac. Qed.
Lemma invalid_shape v : invalid_only (validate_subscription_shape v).
Proof. unfold validate_subscription_shape. invalid_tac. Qed.
Lemma invalid_subscription v now : invalid_only (validate_subscription v now).
Proof. unfold validate_subscription. apply invalid_bind; [apply invalid_shape|]. intros. invalid_tac. Qed.
Lemma invalid_days days : forall D C E V, invalid_only (validate_days D C E V days).
Proof.
  induction days as [|e days IH]; intros D C E V; [done|]. cbn [validate_days].
  apply invalid_bind; [apply invalid_evidence|]. intros. apply invalid_bind; [apply invalid_guard|]. intros. apply IH.
Qed.
Lemma invalid_state s : invalid_only (validate_state s).
Proof.
  unfold validate_state. apply invalid_bind; [apply invalid_guard|]. intros.
  apply invalid_bind; [unfold validate_anchor; destruct (en_genesis_completed_at s), (en_genesis_local_date s); invalid_tac|]. intros.
  apply invalid_bind; [apply invalid_guard|]. intros. apply invalid_bind; [apply invalid_days|]. intros.
  apply invalid_bind; [apply invalid_guard|]. intros. destruct (is_pro _); [|done].
  apply invalid_bind; [apply invalid_parse|]. intros. apply invalid_shape.
Qed.
Lemma genesis_implements migration at_ today a : proper a ->
  implements a (intent (OpGenesis migration at_ today) a) (op_step (OpGenesis migration at_ today) (state_of a)).
Proof.
  intros Hp. cbn. unfold genesis_step, entitlement_format_timestamp. change (en_phase (state_of a)) with (standing a).
  destruct (ac_genesis a) as [[g d]|] eqn:Eg.
  - rewrite bool_decide_eq_false_2.
    + cbn. unfold changed_state. rewrite decide_True by done. split_and!; [done|apply status_report|done].
    + unfold standing. rewrite Eg. destruct (ac_subscription a) as [v|]; [by destruct (ac_ended a), (vsu_plan v)|].
      by destruct (decide _), (ac_ended a).
  - assert (standing a = GenesisIncomplete) as Hst by (unfold standing; by rewrite Eg).
    rewrite bool_decide_eq_true_2 by exact Hst. destruct (format_rfc3339 at_) as [text|]; [|done]. cbn [ok_or mbind Result_bind].
    destruct (pr_fresh _ Hp Eg) as (Hd&Hs&He). set (s := bump _).
    assert (s = state_of (advance (with_genesis text (display_date today) migration a))) as Es.
    { unfold s, state_of, bump, set_genesis, set_phase, standing. cbn. rewrite Hd, Hs, He, map_size_empty. cbn.
      rewrite decide_False by lia. by destruct migration. }
    destruct (decide _) as [[Ht Hday]|Hbad].
    + rewrite Es. apply implements_written.
      * pose proof Hp as [H1 H2 H3 H4 H5 H6 H7]. constructor; try done. by intros t d' [= <- <-].
      * intros E. apply (f_equal ac_genesis) in E. cbn in E. congruence.
    + pose proof (invalid_state s) as Hi. destruct (validate_state s) as [[]|e] eqn:Ev; [|exact Hi].
      apply state_good in Ev. destruct Hbad. rewrite Es in Ev. apply (wf_anchor _ Ev).
Qed.

Lemma active_facts a : standing a = TrialActive -> exists g, ac_genesis a = Some g /\ ac_subscription a = None /\
  size (ac_days a) < 5 /\ ac_ended a = false.
Proof.
  unfold standing. destruct (ac_genesis a) as [g|], (ac_subscription a) as [v|]; try done.
  - by destruct (ac_ended a), (vsu_plan v).
  - destruct (decide _); [done|]. destruct (ac_ended a); [done|]. intros _. exists g. split_and!; [done..|lia|done].
Qed.
Lemma repeats_spec e a : proper a -> existsb (repeats e) (sorted_days (ac_days a)) = true <-> recorded_before e a.
Proof.
  intros Hp. rewrite existsb_exists. unfold recorded_before, repeats. split.
  - intros (x&[k Hk]%list_elem_of_In%elem_of_days&Hx). rewrite !orb_true_iff, !bool_decide_eq_true in Hx.
    destruct Hx as [[[Hx|Hx]|Hx]|Hx]; [left|right; exists k, x; (split; [done|]); unfold same_work; tauto..].
    rewrite <- Hx. destruct (pr_days _ Hp _ _ Hk) as [-> _]. by exists x.
  - intros [[x Hx]|(k&x&Hk&Hx)].
    + exists x. split; [apply list_elem_of_In, elem_of_days; by eexists|].
      rewrite !orb_true_iff, !bool_decide_eq_true. destruct (pr_days _ Hp _ _ Hx) as [-> _]. tauto.
    + exists x. split; [apply list_elem_of_In, elem_of_days; by eexists|].
      rewrite !orb_true_iff, !bool_decide_eq_true. unfold same_work in Hx. tauto.
Qed.
Lemma proper_day e a : proper a -> standing a = TrialActive -> good_evidence e -> ~ recorded_before e a -> proper (with_day e a).
Proof.
  intros Hp Ha He Hr. destruct (active_facts a Ha) as (g&Hg&Hs&Hsz&_). pose proof Hp as [H1 H2 H3 H4 H5 H6 H7].
  assert (ac_days a !! sd_local_date e = None) as Hn.
  { apply eq_None_not_Some. intros Hx. apply Hr. by left. }
  assert (forall k f, ac_days a !! k = Some f -> ~ same_work e f) as Hfresh.
  { intros k f Hk Hw. apply Hr. right. by exists k, f. }
  constructor; cbn; try done; try congruence.
  - intros k f [[<- <-]|[_ Hk]]%lookup_insert_Some; [done|by apply H4].
  - intros j k f1 f2 [[<- <-]|[_ Hj]]%lookup_insert_Some [[<- <-]|[_ Hk]]%lookup_insert_Some Hw; [done|..].
    + by destruct (Hfresh _ _ Hk).
    + destruct (Hfresh _ _ Hj). unfold same_work in *. intuition congruence.
    + by eapply H5.
  - rewrite map_size_insert_None by done. lia.
Qed.
Lemma record_implements e now today a : proper a ->
  implements a (intent (OpRecordDay e now today) a) (op_step (OpRecordDay e now today) (state_of a)).
Proof.
  intros Hp. cbn [intent op_step]. unfold record_day_step. rewrite refresh_observed by done. cbn [mbind Result_bind].
  change (en_phase (state_of (observed now today a))) with (standing (observed now today a)).
  destruct (decide (standing (observed now today a) = TrialActive)) as [Ha|Ha].
  2:{ rewrite bool_decide_eq_false_2 by done. by apply implements_refreshed. }
  rewrite (bool_decide_eq_true_2 (standing _ = _)) by done. cbn [negb]. rewrite (observed_active _ _ _ Ha) in Ha |- *.
  rewrite (bool_decide_eq_false_2 (a <> a)) by tauto.
  pose proof (invalid_evidence e) as Hi. pose proof (evidence_good e) as Hg.
  destruct (validate_evidence e) as [[]|er]; [|rewrite decide_False by (intros [Hx _]; by apply Hg in Hx); exact Hi].
  cbn [mbind Result_bind]. destruct (decide (sd_local_date e = display_date today)) as [Hd|Hd].
  2:{ rewrite bool_decide_eq_false_2 by done. rewrite decide_False by tauto. done. }
  rewrite bool_decide_eq_true_2 by done. rewrite decide_True by (split; [by apply Hg|done]). cbn [negb fail_if mbind Result_bind].
  pose proof (repeats_spec e a Hp) as Hrep. change (en_successful_days (state_of a)) with (sorted_days (ac_days a)).
  destruct (decide (recorded_before e a)) as [Hr|Hr].
  { rewrite (proj2 Hrep Hr). cbn. unfold changed_state. rewrite decide_True by done. split_and!; [done|apply status_report|done]. }
  destruct (existsb _ _) eqn:Ex; [by destruct Hr; apply Hrep|].
  destruct (active_facts a Ha) as (g&Hgen&Hs&Hsz&Hend).
  assert (ac_days a !! sd_local_date e = None) as Hn.
  { apply eq_None_not_Some. intros Hx. apply Hr. by left. }
  rewrite days_insert by (done || by intros k f Hk; apply (pr_days _ Hp)). cbv zeta. set (s := bump _).
  assert (s = state_of (advance (with_day e a))) as ->.
  { unfold s. rewrite days_length. unfold state_of, standing. cbn. rewrite Hgen, Hs, Hend.
    destruct (decide (5 <= size (<[sd_local_date e := e]> (ac_days a)))) as [Hle|Hle].
    - rewrite (proj2 (Nat.leb_le _ _)) by exact Hle. done.
    - rewrite (proj2 (Nat.leb_gt _ _)) by (unfold REQUIRED_SUCCESSFUL_DAYS; lia).
      unfold bump, set_days. cbn. rewrite decide_False by lia. done. }
  apply implements_written; [apply proper_day; [done..|by apply Hg|done]|].
  intros E. apply (f_equal ac_days) in E. cbn in E. assert (<[sd_local_date e:=e]> (ac_days a) !! sd_local_date e = Some e) as Hx
    by apply lookup_insert_eq. rewrite E in Hx. congruence.
Qed.

Lemma qualified_phase a : proper a ->
  (standing a == TrialQualified) || is_pro (standing a) = true <-> size (ac_days a) = 5.
Proof.
  intros Hp. rewrite orb_true_iff, bool_decide_eq_true. pose proof (pr_size _ Hp). unfold standing.
  destruct (ac_genesis a) as [g|] eqn:Eg.
  - destruct (ac_subscription a) as [v|] eqn:Es.
    + destruct (pr_subscription _ Hp v Es) as [_ Hsz]. split; [done|]. intros _. right. by destruct (ac_ended a), (vsu_plan v).
    + destruct (decide _) as [Hle|Hle]; [split; [lia|by left]|].
      split; [|lia]. destruct (ac_ended a); by intros [?|?].
  - destruct (pr_fresh _ Hp Eg) as (->&_). rewrite map_size_empty. split; [by intros [?|?]|done].
Qed.
Lemma proper_subscribed v a : proper a -> good_subscription v -> size (ac_days a) = 5 -> proper (with_subscription v a).
Proof.
  intros Hp Hv Hsz. pose proof Hp as [H1 H2 H3 H4 H5 H6 H7]. constructor; cbn; try done.
  - intros Hn. destruct (H2 Hn) as (Hd&_). rewrite Hd, map_size_empty in Hsz. done.
  - by intros w [= <-].
Qed.
Lemma install_implements v now today a : proper a ->
  implements a (intent (OpInstall v now today) a) (op_step (OpInstall v now today) (state_of a)).
Proof.
  intros Hp. cbn [intent op_step]. pose proof (invalid_subscription v now) as Hi. pose proof (subscription_good v now) as Hg.
  destruct (validate_subscription v now) as [[]|er]; [|rewrite decide_False by (intros Hx; by apply Hg in Hx); exact Hi].
  rewrite decide_True by (by apply Hg). cbn [mbind Result_bind]. unfold install_step. rewrite refresh_observed by done.
  cbn [mbind Result_bind]. change (en_phase (state_of (observed now today a))) with (standing (observed now today a)).
  pose proof (qualified_phase _ (proper_observed now today a Hp)) as Hq. rewrite observed_days in Hq.
  destruct (decide (size (ac_days a) = 5)) as [Hsz|Hsz].
  2:{ destruct ((_ == _) || _); [by destruct Hsz; apply Hq|done]. }
  rewrite (proj2 Hq Hsz). cbn [negb fail_if mbind Result_bind].
  change (en_subscription (state_of (observed now today a))) with (ac_subscription (observed now today a)).
  rewrite observed_subscription. set (s := bump _).
  assert (is_Some (ac_genesis a)) as [g Hgen].
  { destruct (ac_genesis a) eqn:Eg; [done|]. destruct (pr_fresh _ Hp Eg) as (Hd&_). by rewrite Hd, map_size_empty in Hsz. }
  assert (s = state_of (advance (with_subscription v (observed now today a)))) as ->.
  { unfold s, state_of, bump, set_subscription, set_phase, standing. cbn.
    assert (ac_genesis (observed now today a) = Some g) as -> by (unfold observed; by destruct (decide _)). done. }
  assert (proper (with_subscription v (observed now today a))) as Hpv.
  { apply proper_subscribed; [by apply proper_observed|by apply Hg|by rewrite observed_days]. }
  destruct (ac_subscription a) as [held|] eqn:Es.
  - rewrite (Z.ltb_antisym (vsu_provider_revision held)).
    destruct (decide (vsu_provider_revision held < vsu_provider_revision v)%Z) as [Hlt|Hlt].
    + rewrite (proj2 (Z.leb_le _ _)) by lia. cbn [negb fail_if mbind Result_bind].
      rewrite bool_decide_eq_false_2 by lia. apply implements_written; [done|].
      intros E. apply (f_equal ac_subscription) in E. cbn in E. rewrite Es in E. injection E as ->. lia.
    + destruct (Z.leb_spec (vsu_provider_revision held) (vsu_provider_revision v)).
      2:{ rewrite decide_False by lia. done. }
      cbn [negb fail_if mbind Result_bind]. rewrite bool_decide_eq_true_2 by lia.
      destruct (decide (vsu_receipt_digest v = vsu_receipt_digest held)) as [Hd|Hd].
      * rewrite bool_decide_eq_true_2, decide_True by (done || by split; [lia|]). cbn. unfold changed_state.
        rewrite decide_True by done. split_and!; [done|apply status_report|done].
      * rewrite bool_decide_eq_false_2, decide_False by (done || by intros [_ ?]). done.
  - apply implements_written; [done|]. intros E. apply (f_equal ac_subscription) in E. cbn in E. congruence.
Qed.
Lemma op_implements op a : proper a -> implements a (intent op a) (op_step op (state_of a)).
Proof.
  destruct op; [apply status_implements|apply genesis_implements|apply record_implements|apply install_implements].
Qed.

(** ** The file against the contract *)

Context `{StateReader}.

(** The operations of the store, on its file. *)
Definition op_file (op : Operation) : StateFile -> StateFile * entitlement_result EntitlementStatus :=
  match op with
  | OpStatus now local_date => status_at now local_date
  | OpGenesis None at_ local_date => complete_genesis_at at_ local_date
  | OpGenesis migration at_ local_date => transact (genesis_step migration at_ local_date)
  | OpRecordDay evidence now local_date => record_successful_day_at evidence now local_date
  | OpInstall subscription now local_date => install_verified_subscription subscription now local_date
  end.
Fixpoint file_run (ops : list Operation) (f : StateFile)
    : list (StateFile * entitlement_result EntitlementStatus) :=
  match ops with [] => [] | op :: ops => op_file op f :: file_run ops (op_file op f).1 end.
Definition answer_of (r : entitlement_result EntitlementStatus) : Answer :=
  match r with Ok status => Granted status | Err e => Refused (refusal_of e) end.

(** What a file holds, and that what is written for an account reads as its state. *)
Definition holds (f : StateFile) (s : EntitlementState) : Prop := exists bytes,
  f = StateBytes bytes /\ (Z.of_nat (length bytes) <= 262144)%Z /\ decode_state bytes = Ok s /\ well_formed s.
Definition reads_back (a : Account) : Prop :=
  match canonical_to_vec (state_of a) with Ok bytes => decode_state bytes = Ok (state_of a) | Err _ => True end.

Lemma read_holds f s : read_locked f = Ok s <-> holds f s.
Proof.
  unfold read_locked, holds. destruct f as [|bytes|]; [by split; [|intros (?&?&_)]| |by split; [|intros (?&?&_)]].
  rewrite then_Ok, fail_if_Ok, Z.ltb_ge. split.
  - intros [Hl (s'&Hd%map_err_Ok&Hv)%bind_Ok]. apply then_Ok in Hv as [Hv%state_good [= <-]]. by exists bytes.
  - intros (b&[= <-]&Hl&->&Hw). split; [done|]. cbn. by rewrite (proj2 (state_good s) Hw).
Qed.
Lemma write_fits a : proper a -> match write_locked (state_of a) with
  | Ok f => fits a = true /\ (reads_back a -> read_locked f = Ok (state_of a))
  | Err e => fits a = false /\ refusal_of e = RefusedInvalid
  end.
Proof.
  intros Hp. pose proof (state_proper a Hp) as Hw. unfold write_locked, fits, reads_back.
  rewrite (proj2 (state_good _) Hw). cbn [mbind Result_bind].
  destruct (canonical_to_vec (state_of a)) as [bytes|]; [|done]. cbn [map_err mbind Result_bind].
  change MAXIMUM_STATE_BYTES with 262144%Z. rewrite (Z.ltb_antisym (Z.of_nat (length bytes))).
  destruct (Z.leb_spec (Z.of_nat (length bytes)) 262144); cbn [negb fail_if mbind Result_bind]; [|done].
  split; [done|]. intros Hd. apply read_holds. by exists bytes.
Qed.

Lemma op_file_transact op f s : read_locked f = Ok s -> op_file op f = transact (op_step op) f.
Proof.
  intros Hr. destruct op as [|[]| |v now d]; try done. simpl.
  change (op_step (OpInstall v now d)) with (λ s0, validate_subscription v now ;; install_step v now d s0).
  unfold install_verified_subscription, transact. destruct (validate_subscription v now) as [[]|e]; [done|]. simpl. by rewrite Hr.
Qed.
Lemma op_file_unreadable op f : (forall s, read_locked f <> Ok s) -> exists e, op_file op f = (f, Err e).
Proof.
  intros Hr. assert (forall step, exists e, transact step f = (f, Err e)) as Ht.
  { intros step. unfold transact. destruct (read_locked f) as [s|e]; [by destruct (Hr s)|]. by exists e. }
  destruct op as [|[]| |v now d]; cbn; try apply Ht. unfold install_verified_subscription.
  destruct (validate_subscription v now) as [|e]; [apply Ht|by exists e].
Qed.

(** One operation on the file does what the contract says. *)
Lemma op_file_refines op f a : read_locked f = Ok (state_of a) -> proper a -> reads_back (contract op a).1 ->
  answer_of (op_file op f).2 = (contract op a).2 /\ read_locked (op_file op f).1 = Ok (state_of (contract op a).1) /\
  proper (contract op a).1.
Proof.
  intros Hr Hp. rewrite (op_file_transact _ _ _ Hr). unfold transact, contract. rewrite Hr. cbn [mbind Result_bind].
  pose proof (op_implements op a Hp) as Hi. unfold implements in Hi.
  destruct (intent op a) as [[a' shown]|refusal], (op_step op (state_of a)) as [[w r]|e]; try done.
  2:{ intros _. by rewrite <- Hi. }
  destruct Hi as (->&Hst&Hp'). unfold changed_state. cbn [mbind Result_bind]. destruct (decide (a' = a)) as [->|Hne].
  { intros _. cbn. by rewrite Hst. }
  pose proof (write_fits _ (proper_advance _ Hp')) as Hw. destruct (write_locked _) as [f'|e]; destruct Hw as [-> Hw]; cbn.
  - intros Hb. rewrite Hst. split_and!; [done|by apply Hw|by apply proper_advance].
  - intros _. by rewrite Hw.
Qed.

(** [C32] The store keeps the contract. A file holds a state exactly when it is a
    regular file of at most 256 KiB that parses as a well-formed state; an
    operation on any other file fails and leaves it. From the file a new
    installation writes, over every sequence of operations, granted or refused,
    the answers are those that the contract gives from the facts recorded so far
    (set-up, successful days, subscription, observed end), refusals included, and
    after each operation the file reads as the state of exactly those facts. The
    contract: the seven days of a trial, five distinct successful days before Pro,
    receipts whose revision only grows, a trial or a paid period that ended stays
    ended until a newer receipt, and nothing half done. What is written is
    assumed to parse as what was written. *)
Theorem entitlement_store_refines :
  (forall f s, read_locked f = Ok s <-> holds f s) /\
  (forall op f, (forall s, ~ holds f s) -> exists e, op_file op f = (f, Err e)) /\
  forall f ops, open_entitlement NoFile = (f, Ok tt) ->
    reads_back new_account -> Forall reads_back (contract_run ops new_account).*1 ->
    answer_of <$> (file_run ops f).*2 = (contract_run ops new_account).*2 /\
    read_locked <$> (file_run ops f).*1 = (λ a, Ok (state_of a)) <$> (contract_run ops new_account).*1.
Proof.
  split; [apply read_holds|split].
  { intros op f Hf. apply op_file_unreadable. intros s Hs%read_holds. by destruct (Hf s). }
  intros f ops Ho Hb. assert (read_locked f = Ok (state_of new_account)) as Hr.
  { unfold open_entitlement in Ho. change default_state with (state_of new_account) in Ho.
    pose proof (write_fits _ proper_new) as Hw. destruct (write_locked _) as [f0|]; [|done].
    injection Ho as <-. by apply Hw. }
  clear Ho Hb. revert f Hr. generalize proper_new. generalize new_account as a.
  induction ops as [|op ops IH]; intros a Hp f Hr Hbs; [done|]. cbn [contract_run fmap list_fmap] in Hbs |- *.
  apply Forall_cons in Hbs as [Hb Hbs]. destruct (op_file_refines op f a Hr Hp Hb) as (Ha&Hr'&Hp').
  destruct (IH _ Hp' _ Hr' Hbs) as [Ha' Hs']. cbn. split; f_equal; done.
Qed.

End laws.
