(* ===== verification/LocalCommand.v ===== *)
(** * Local commands

    [application/src/command.rs]: the command records and statuses that the
    private journal of the application service keeps, and the state machine of a
    command. *)
From S2P Require Import Prelude Text Digest.

Definition COMMAND_SCHEMA : string := "tohseno.local-command/1".
Definition COMMAND_STATUS_SCHEMA : string := "tohseno.local-command-status/1".

Inductive CommandKind : Type := ShotCreate | ShotEvolve | FeedbackSubmit | MarketingSubmit.
#[export] Instance CommandKind_eq_dec : EqDecision CommandKind.
Proof. solve_decision. Defined.
Definition command_kind_name (k : CommandKind) : string :=
  match k with
  | ShotCreate => "shot_create" | ShotEvolve => "shot_evolve"
  | FeedbackSubmit => "feedback_submit" | MarketingSubmit => "marketing_submit"
  end.
#[export] Instance CommandKind_to_json : ToJson CommandKind := λ k, JStr (command_kind_name k).

Inductive CommandOrigin : Type := FromCli | FromStudio | FromNative | FromCompanion | FromConformance.
#[export] Instance CommandOrigin_eq_dec : EqDecision CommandOrigin.
Proof. solve_decision. Defined.
Definition command_origin_name (o : CommandOrigin) : string :=
  match o with
  | FromCli => "cli" | FromStudio => "studio" | FromNative => "native"
  | FromCompanion => "companion" | FromConformance => "conformance"
  end.
#[export] Instance CommandOrigin_to_json : ToJson CommandOrigin := λ o, JStr (command_origin_name o).

Inductive CommandState : Type :=
  | Received | Validated | Accepted | Running | WaitingForDevice
  | Completed | Rejected | Failed | Cancelled.
#[export] Instance CommandState_eq_dec : EqDecision CommandState.
Proof. solve_decision. Defined.
Definition command_state_name (s : CommandState) : string :=
  match s with
  | Received => "received" | Validated => "validated" | Accepted => "accepted"
  | Running => "running" | WaitingForDevice => "waiting_for_device"
  | Completed => "completed" | Rejected => "rejected" | Failed => "failed"
  | Cancelled => "cancelled"
  end.
#[export] Instance CommandState_to_json : ToJson CommandState := λ s, JStr (command_state_name s).
(** The [Debug] name. *)
Definition debug_command_state (s : CommandState) : string :=
  match s with
  | Received => "Received" | Validated => "Validated" | Accepted => "Accepted"
  | Running => "Running" | WaitingForDevice => "WaitingForDevice"
  | Completed => "Completed" | Rejected => "Rejected" | Failed => "Failed"
  | Cancelled => "Cancelled"
  end.

Definition terminal (s : CommandState) : bool :=
  match s with Completed | Rejected | Failed | Cancelled => true | _ => false end.

Definition may_transition_to (s next : CommandState) : bool :=
  (s == next) ||
  match s, next with
  | Received, (Validated | Rejected | Failed) => true
  | Validated, (Accepted | Rejected | Failed) => true
  | Accepted, (Running | Completed | Rejected | Failed | Cancelled) => true
  | Running, (WaitingForDevice | Completed | Failed | Cancelled) => true
  | WaitingForDevice, (Running | Completed | Failed | Cancelled) => true
  | _, _ => false
  end.

Record CommandRecord := {
  cr_schema : string;
  cr_command_id : string;
  cr_command_kind : CommandKind;
  cr_origin : CommandOrigin;
  cr_origin_device_id : option string;
  cr_workspace_id : string;
  cr_shot_id : option ShotId;
  cr_base_expression_id : option ExpressionId;
  cr_base_version_id : option VersionId;
  cr_submitted_at : string;
  cr_payload_digest : Bytes32 }.
#[export] Instance CommandRecord_eq_dec : EqDecision CommandRecord.
Proof. solve_decision. Defined.
#[export] Instance CommandRecord_to_json : ToJson CommandRecord := λ r, JObj
  ([("schema", to_json (cr_schema r)); ("command_id", to_json (cr_command_id r));
    ("command_kind", to_json (cr_command_kind r)); ("origin", to_json (cr_origin r))]
   ++ optional_member "origin_device_id" (cr_origin_device_id r)
   ++ [("workspace_id", to_json (cr_workspace_id r))]
   ++ optional_member "shot_id" (cr_shot_id r)
   ++ optional_member "base_expression_id" (cr_base_expression_id r)
   ++ optional_member "base_version_id" (cr_base_version_id r)
   ++ [("submitted_at", to_json (cr_submitted_at r));
       ("payload_digest", to_json (cr_payload_digest r))]).

(** A receipt is any JSON value, its members in the order of its keys. *)
#[export] Instance json_to_json : ToJson json := id.

Record CommandResult := { receipt : json }.
#[export] Instance CommandResult_eq_dec : EqDecision CommandResult.
Proof. solve_decision. Defined.
#[export] Instance CommandResult_to_json : ToJson CommandResult := λ r,
  JObj [("receipt", to_json (receipt r))].

Record CommandStatus := {
  cs_schema : string;
  cs_command_id : string;
  cs_state : CommandState;
  cs_updated_at : string;
  cs_result : option CommandResult;
  cs_rejection : option string }.
#[export] Instance CommandStatus_eq_dec : EqDecision CommandStatus.
Proof. solve_decision. Defined.
#[export] Instance CommandStatus_to_json : ToJson CommandStatus := λ s, JObj
  ([("schema", to_json (cs_schema s)); ("command_id", to_json (cs_command_id s));
    ("state", to_json (cs_state s)); ("updated_at", to_json (cs_updated_at s))]
   ++ optional_member "result" (cs_result s)
   ++ optional_member "rejection" (cs_rejection s)).

(** ** The state machine *)

Lemma terminal_stuck s next : terminal s = true -> may_transition_to s next = true -> next = s.
Proof. unfold may_transition_to. by destruct s, next. Qed.

Lemma may_transition_refl s : may_transition_to s s = true.
Proof. unfold may_transition_to. by rewrite bool_decide_eq_true_2. Qed.
