(* ===== verification/CommandJournal.v ===== *)
(** * The private command journal

    [application/src/journal.rs]: every command is a directory that appears whole,
    by one rename of a private staging directory, and whose status file is
    replaced by another rename. An operation is a function of the directory; the
    lock on the status makes transitions of one command atomic, and admission is
    split at its rename, so that any interleaving of admissions is a sequence of
    the steps [admit_prepare] and [admit_publish]. What the clock and the random
    staging names yield are arguments. Failures of the operating system on an
    entry of the expected kind are not modelled; a crash is a staged admission
    that is never published. *)
From S2P Require Import Prelude Text Digest Records LocalCommand.

Definition MAXIMUM_JSON_BYTES : Z := 8388608.
Definition MAXIMUM_ATTACHMENT_BYTES : Z := 67108864.
Definition MAXIMUM_TOTAL_ATTACHMENT_BYTES : Z := 167772160.
Definition MAXIMUM_COMMANDS : Z := 100000.

(** [io::Error], as far as the journal distinguishes kinds. *)
Inductive IoError : Type := IoNotFound | IoAlreadyExists.

Inductive JournalError : Type :=
  | JournalIo (error : IoError)
  | JournalProtocol (error : ProtocolError)
  | JournalInvalid (message : string)
  | JournalConflict (message : string).

Abbreviation journal_result := (Result JournalError).

(** A name in a directory: nothing, a regular file, or something else. *)
Inductive FileNode : Type := NoNode | FileBytes (bytes : list Z) | SpecialNode.
Inductive SubDirectory : Type :=
  | NoDirectory
  | RealDirectory (files : gmap string FileNode)
  | UnsafeDirectory.

(** A command's directory: [request.json], [payload.json], [status.json],
    [inputs/] and [operations/]. *)
Record CommandDirectory := {
  cd_request : FileNode;
  cd_payload : FileNode;
  cd_status : FileNode;
  cd_inputs : SubDirectory;
  cd_operations : SubDirectory }.

Definition empty_directory : CommandDirectory :=
  {| cd_request := NoNode; cd_payload := NoNode; cd_status := NoNode;
     cd_inputs := NoDirectory; cd_operations := NoDirectory |}.
#[export] Instance FileNode_eq_dec : EqDecision FileNode.
Proof. solve_decision. Defined.
#[export] Instance SubDirectory_eq_dec : EqDecision SubDirectory.
Proof. solve_decision. Defined.
#[export] Instance CommandDirectory_eq_dec : EqDecision CommandDirectory.
Proof. solve_decision. Defined.

Definition set_request (n : FileNode) (d : CommandDirectory) : CommandDirectory :=
  {| cd_request := n; cd_payload := cd_payload d; cd_status := cd_status d;
     cd_inputs := cd_inputs d; cd_operations := cd_operations d |}.
Definition set_payload (n : FileNode) (d : CommandDirectory) : CommandDirectory :=
  {| cd_request := cd_request d; cd_payload := n; cd_status := cd_status d;
     cd_inputs := cd_inputs d; cd_operations := cd_operations d |}.
Definition set_status (n : FileNode) (d : CommandDirectory) : CommandDirectory :=
  {| cd_request := cd_request d; cd_payload := cd_payload d; cd_status := n;
     cd_inputs := cd_inputs d; cd_operations := cd_operations d |}.
Definition set_inputs (s : SubDirectory) (d : CommandDirectory) : CommandDirectory :=
  {| cd_request := cd_request d; cd_payload := cd_payload d; cd_status := cd_status d;
     cd_inputs := s; cd_operations := cd_operations d |}.
Definition set_operations (s : SubDirectory) (d : CommandDirectory) : CommandDirectory :=
  {| cd_request := cd_request d; cd_payload := cd_payload d; cd_status := cd_status d;
     cd_inputs := cd_inputs d; cd_operations := s |}.

(** An entry of the journal's root. *)
Inductive JournalEntry : Type := CommandEntryDir (d : CommandDirectory) | UnsafeEntry.
Abbreviation Journal := (gmap string JournalEntry).

Record Admission := {
  ad_record : CommandRecord;
  ad_status : CommandStatus;
  ad_existing : bool }.

Record AdmissionMetadata := {
  md_command_id : string;
  md_command_kind : CommandKind;
  md_origin : CommandOrigin;
  md_origin_device_id : option string;
  md_workspace_id : string;
  md_shot_id : option ShotId;
  md_base_expression_id : option ExpressionId;
  md_base_version_id : option VersionId;
  md_submitted_at : option string }.

(** [canonical::from_slice] of the two records: third-party JSON parsing; and
    [path.display()] of a path below the journal's root. *)
Class JournalReader := {
  decode_record : list Z -> result CommandRecord;
  decode_status : list Z -> result CommandStatus;
  display_path : string -> string }.

(** ** Validation *)

Definition is_command_byte (b : Z) : bool :=
  is_ascii_alphanumeric b || (b =? 45)%Z || (b =? 95)%Z.

Definition validate_identifier (label value : string) : journal_result unit :=
  fail_if ((len value =? 0)%nat || (128 <? len value)%nat
           || negb (forallb is_command_byte (bytes_of value))
           || (value == ".") || (value == ".."))
    (JournalInvalid ("invalid " +:+ label)).

Definition validate_file_name (value : string) : journal_result unit :=
  fail_if ((len value =? 0)%nat || (128 <? len value)%nat || (value == ".") || (value == "..")
           || existsb (λ c, is_control c || (c =? 47)%Z || (c =? 92)%Z) (chars (bytes_of value)))
    (JournalInvalid "invalid private input filename").

Abbreviation InputFile := (string * list Z)%type.

Fixpoint validate_file_loop (names : gset string) (total : Z) (files : list InputFile)
    : journal_result Z :=
  match files with
  | [] => Ok total
  | (name, bytes) :: files =>
      validate_file_name name ;;
      fail_if (bool_decide (name ∈ names)) (JournalInvalid "private input filenames must be unique") ;;
      length ← ok_or (JournalInvalid "private input is too large") (u64_try_from (length bytes));
      fail_if (MAXIMUM_ATTACHMENT_BYTES <? length)%Z
        (JournalInvalid "private input exceeds the per-file limit") ;;
      total ← ok_or (JournalInvalid "private input total overflowed") (checked_add_u64 total length);
      validate_file_loop ({[name]} ∪ names) total files
  end.

Definition validate_private_files (files : list InputFile) : journal_result unit :=
  fail_if (8 <? length files)%nat
    (JournalInvalid "a command accepts at most eight private reference files") ;;
  total ← validate_file_loop ∅ 0 files;
  fail_if (MAXIMUM_TOTAL_ATTACHMENT_BYTES <? total)%Z
    (JournalInvalid "private inputs exceed the command total limit").

Definition validate_loaded (record : CommandRecord) (status : CommandStatus) (expected_id : string)
    : journal_result unit :=
  fail_if ((cr_schema record != COMMAND_SCHEMA) || (cs_schema status != COMMAND_STATUS_SCHEMA)
           || (cr_command_id record != expected_id) || (cs_command_id status != expected_id))
    (JournalInvalid "command journal identity or schema mismatch").

(** ** Reading *)

Section journal.
Context `{Platform} `{JournalReader}.

Definition not_bounded (path : string) : JournalError :=
  JournalInvalid (display_path path +:+ " is not a bounded regular file").
Definition not_a_directory (path : string) : JournalError :=
  JournalInvalid (display_path path +:+ " is not a real directory").

Definition read_bounded (path : string) (node : FileNode) (maximum : Z) : journal_result (list Z) :=
  match node with
  | NoNode => Err (JournalIo IoNotFound)
  | SpecialNode => Err (not_bounded path)
  | FileBytes bytes =>
      fail_if (maximum <? Z.of_nat (length bytes))%Z (not_bounded path) ;;
      Ok bytes
  end.

Definition read_json {A} (decode : list Z -> result A) (path : string) (node : FileNode)
    : journal_result A :=
  bytes ← read_bounded path node MAXIMUM_JSON_BYTES;
  map_err JournalProtocol (decode bytes).

(** [self.command_directory(id)?] with [require_real_directory]. *)
Definition real_directory (journal : Journal) (command_id : string)
    : journal_result CommandDirectory :=
  validate_identifier "command ID" command_id ;;
  match journal !! command_id with
  | None => Err (JournalIo IoNotFound)
  | Some UnsafeEntry => Err (not_a_directory command_id)
  | Some (CommandEntryDir d) => Ok d
  end.

Definition contains_command (journal : Journal) (command_id : string) : journal_result bool :=
  validate_identifier "command ID" command_id ;;
  match journal !! command_id with
  | Some UnsafeEntry => Err (JournalInvalid "command journal entry is not a real directory")
  | Some (CommandEntryDir _) => Ok true
  | None => Ok false
  end.

Definition load_directory (command_id : string) (d : CommandDirectory)
    : journal_result (CommandRecord * CommandStatus) :=
  record ← read_json decode_record (command_id +:+ "/request.json") (cd_request d);
  status ← read_json decode_status (command_id +:+ "/status.json") (cd_status d);
  validate_loaded record status command_id ;;
  Ok (record, status).

Definition load (journal : Journal) (command_id : string)
    : journal_result (CommandRecord * CommandStatus) :=
  d ← real_directory journal command_id;
  load_directory command_id d.

Definition payload {T} (decode : list Z -> result T) (journal : Journal) (command_id : string)
    : journal_result T :=
  d ← real_directory journal command_id;
  bytes ← read_bounded (command_id +:+ "/payload.json") (cd_payload d) MAXIMUM_JSON_BYTES;
  value ← map_err JournalProtocol (decode bytes);
  '(record, _) ← load journal command_id;
  fail_if (sha256 bytes != cr_payload_digest record)
    (JournalInvalid "command payload no longer matches its admitted digest") ;;
  Ok value.

Definition input_at (s : SubDirectory) (name : string) : FileNode :=
  match s with RealDirectory files => default NoNode (files !! name) | _ => NoNode end.

Definition input (journal : Journal) (command_id name : string) : journal_result (list Z) :=
  validate_file_name name ;;
  d ← real_directory journal command_id;
  read_bounded (command_id +:+ "/inputs/" +:+ name) (input_at (cd_inputs d) name)
    MAXIMUM_ATTACHMENT_BYTES.

Definition is_staging (name : string) : bool :=
  starts_with (bytes_of ".staging-") (bytes_of name).

Definition submitted_leb (a b : CommandRecord) : bool :=
  bytes_leb (bytes_of (cr_submitted_at a)) (bytes_of (cr_submitted_at b)).

(** One entry of [recoverable]: the command it adds, if any. *)
Definition recoverable_entry (journal : Journal) (entry : string * JournalEntry)
    : journal_result (list CommandRecord) :=
  let '(name, node) := entry in
  if is_staging name then Ok []
  else match node with
  | UnsafeEntry => Err (JournalInvalid "command journal contains an unsafe entry")
  | CommandEntryDir _ =>
      '(record, status) ← load journal name;
      Ok (if terminal (cs_state status) then [] else [record])
  end.

(** The entries in the order the operating system lists them; the sort is stable. *)
Definition recoverable (journal : Journal) : journal_result (list CommandRecord) :=
  records ← try_fold (λ records entry, more ← recoverable_entry journal entry; Ok (records ++ more))
              [] (map_to_list journal);
  Ok (stable_sort submitted_leb records).

(** ** Admission *)

(** What of a command its identifier is bound to. *)
Definition identity_of (r : CommandRecord) :=
  (cr_command_kind r, cr_origin r, cr_origin_device_id r, cr_workspace_id r, cr_shot_id r,
   cr_base_expression_id r, cr_base_version_id r, cr_payload_digest r).

(** The names in [inputs/], checked entry by entry. *)
Definition observed_names (s : SubDirectory) : journal_result (gset string) :=
  match s with
  | UnsafeDirectory => Err (JournalInvalid "command input collection is not a real directory")
  | NoDirectory => Ok ∅
  | RealDirectory files =>
      for_each (λ entry : string * FileNode,
        validate_file_name (fst entry) ;;
        match snd entry with
        | FileBytes _ => Ok tt
        | _ => Err (JournalInvalid "command input collection contains an unsafe entry")
        end) (map_to_list files) ;;
      Ok (dom files)
  end.

Definition read_existing (journal : Journal) (expected : CommandRecord) (payload_bytes : list Z)
    (files : list InputFile) : journal_result Admission :=
  let id := cr_command_id expected in
  '(record, status) ← load journal id;
  fail_if (identity_of record != identity_of expected)
    (JournalConflict ("command ID " +:+ id +:+ " is already bound to a different command")) ;;
  d ← real_directory journal id;
  stored ← read_bounded (id +:+ "/payload.json") (cd_payload d) MAXIMUM_JSON_BYTES;
  fail_if (stored != payload_bytes)
    (JournalConflict ("command ID " +:+ id +:+ " payload bytes do not match its first admission")) ;;
  names ← observed_names (cd_inputs d);
  fail_if (names != list_to_set files.*1)
    (JournalConflict ("command ID " +:+ id
       +:+ " private input set does not match its first admission")) ;;
  for_each (λ file : InputFile,
    observed ← read_bounded (id +:+ "/inputs/" +:+ fst file) (input_at (cd_inputs d) (fst file))
                 MAXIMUM_ATTACHMENT_BYTES;
    fail_if (observed != snd file)
      (JournalConflict ("command ID " +:+ id +:+ " input " +:+ fst file
         +:+ " does not match its first admission"))) files ;;
  Ok {| ad_record := record; ad_status := status; ad_existing := true |}.

(** The record of a command and the bytes of its payload. *)
Definition admission_record `{ToJson T} (metadata : AdmissionMetadata) (payload : T)
    (files : list InputFile) (now : string) : journal_result (CommandRecord * list Z) :=
  validate_identifier "command ID" (md_command_id metadata) ;;
  validate_identifier "workspace ID" (md_workspace_id metadata) ;;
  match md_origin_device_id metadata with
  | Some device_id => validate_identifier "origin device ID" device_id
  | None => Ok tt
  end ;;
  validate_private_files files ;;
  payload_bytes ← map_err JournalProtocol (canonical_to_vec payload);
  fail_if (MAXIMUM_JSON_BYTES <? Z.of_nat (length payload_bytes))%Z
    (JournalInvalid "command payload exceeds the private journal limit") ;;
  submitted_at ← match md_submitted_at metadata with
                 | Some value => map_err JournalProtocol (timestamp_parse value) ;; Ok value
                 | None => Ok now
                 end;
  Ok ({| cr_schema := COMMAND_SCHEMA; cr_command_id := md_command_id metadata;
         cr_command_kind := md_command_kind metadata; cr_origin := md_origin metadata;
         cr_origin_device_id := md_origin_device_id metadata;
         cr_workspace_id := md_workspace_id metadata; cr_shot_id := md_shot_id metadata;
         cr_base_expression_id := md_base_expression_id metadata;
         cr_base_version_id := md_base_version_id metadata; cr_submitted_at := submitted_at;
         cr_payload_digest := sha256 payload_bytes |}, payload_bytes).

Definition initial_status (command_id now : string) : CommandStatus :=
  {| cs_schema := COMMAND_STATUS_SCHEMA; cs_command_id := command_id; cs_state := Received;
     cs_updated_at := now; cs_result := None; cs_rejection := None |}.

(** [write_new_bytes] of a name that is free or not. *)
Definition write_new (node : FileNode) (bytes : list Z) : journal_result FileNode :=
  match node with NoNode => Ok (FileBytes bytes) | _ => Err (JournalIo IoAlreadyExists) end.

(** The input files one after the other; what was written stays. *)
Fixpoint stage_inputs (written : gmap string FileNode) (files : list InputFile)
    : gmap string FileNode * journal_result unit :=
  match files with
  | [] => (written, Ok tt)
  | (name, bytes) :: files =>
      match write_new (default NoNode (written !! name)) bytes with
      | Ok node => stage_inputs (<[name := node]> written) files
      | Err e => (written, Err e)
      end
  end.

(** The staging directory, as far as it was written. *)
Definition stage (record : CommandRecord) (payload_bytes : list Z) (files : list InputFile)
    (initial : CommandStatus) : CommandDirectory * journal_result unit :=
  match canonical_to_vec record with
  | Err e => (empty_directory, Err (JournalProtocol e))
  | Ok request =>
      let d := set_payload (FileBytes payload_bytes) (set_request (FileBytes request) empty_directory) in
      let '(d, r) := match files with
        | [] => (d, Ok tt)
        | _ => let '(inputs, r) := stage_inputs ∅ files in (set_inputs (RealDirectory inputs) d, r)
        end in
      match r with
      | Err e => (d, Err e)
      | Ok _ =>
          match canonical_to_vec initial with
          | Err e => (d, Err (JournalProtocol e))
          | Ok status => (set_status (FileBytes status) d, Ok tt)
          end
      end
  end.

(** An admission between its staging and its rename. *)
Record StagedAdmission := {
  sa_staging : string;
  sa_record : CommandRecord;
  sa_payload_bytes : list Z;
  sa_files : list InputFile;
  sa_initial : CommandStatus }.

Inductive Prepared : Type := AlreadyAdmitted (a : Admission) | Staged (s : StagedAdmission).

(** [admit_with_files] up to its rename: the journal afterwards and either the
    admission that was found or the staged one. *)
Definition admit_prepare `{ToJson T} (metadata : AdmissionMetadata) (payload : T)
    (files : list InputFile) (now updated_now uuid : string) (journal : Journal)
    : Journal * journal_result Prepared :=
  match admission_record metadata payload files now with
  | Err e => (journal, Err e)
  | Ok (record, payload_bytes) =>
      let id := cr_command_id record in
      match journal !! id with
      | Some UnsafeEntry =>
          (journal, Err (JournalInvalid "command journal entry is not a real directory"))
      | Some (CommandEntryDir _) =>
          (journal, existing ← read_existing journal record payload_bytes files;
                    Ok (AlreadyAdmitted existing))
      | None =>
          if (MAXIMUM_COMMANDS <=? Z.of_nat (size journal))%Z
          then (journal, Err (JournalInvalid "command journal is at capacity"))
          else
            let staging := ".staging-" +:+ id +:+ "-" +:+ uuid in
            match journal !! staging with
            | Some _ => (journal, Err (JournalIo IoAlreadyExists))
            | None =>
                let initial := initial_status id updated_now in
                let '(d, r) := stage record payload_bytes files initial in
                (<[staging := CommandEntryDir d]> journal,
                 r ;; Ok (Staged {| sa_staging := staging; sa_record := record;
                            sa_payload_bytes := payload_bytes; sa_files := files;
                            sa_initial := initial |}))
            end
      end
  end.

(** [fs::rename] of the staging directory and what follows. Renaming a directory
    over an existing name fails, unless that is an empty directory. *)
Definition admit_publish (s : StagedAdmission) (journal : Journal)
    : Journal * journal_result Admission :=
  let id := cr_command_id (sa_record s) in
  let free := match journal !! id with
              | None => true
              | Some (CommandEntryDir d) => d == empty_directory
              | Some UnsafeEntry => false
              end in
  match journal !! sa_staging s with
  | Some (CommandEntryDir d) =>
      if free then
        (<[id := CommandEntryDir d]> (delete (sa_staging s) journal),
         Ok {| ad_record := sa_record s; ad_status := sa_initial s; ad_existing := false |})
      else
        let journal := delete (sa_staging s) journal in
        (journal, read_existing journal (sa_record s) (sa_payload_bytes s) (sa_files s))
  | _ => (journal, Err (JournalIo IoNotFound))
  end.

Definition admit_with_files `{ToJson T} (metadata : AdmissionMetadata) (payload : T)
    (files : list InputFile) (now updated_now uuid : string) (journal : Journal)
    : Journal * journal_result Admission :=
  match admit_prepare metadata payload files now updated_now uuid journal with
  | (journal, Err e) => (journal, Err e)
  | (journal, Ok (AlreadyAdmitted existing)) => (journal, Ok existing)
  | (journal, Ok (Staged s)) => admit_publish s journal
  end.

Definition admit_without_files `{ToJson T} (metadata : AdmissionMetadata) (payload : T)
    (now updated_now uuid : string) (journal : Journal) : Journal * journal_result Admission :=
  admit_with_files metadata payload [] now updated_now uuid journal.

(** ** Transitions *)

(** The result and the rejection after a transition, or why it is refused. *)
Definition next_result (command_id : string) (current : CommandStatus) (candidate : option json)
    : journal_result (option CommandResult) :=
  match cs_result current, candidate with
  | Some existing, Some c =>
      if receipt existing != c
      then Err (JournalConflict ("command " +:+ command_id
                 +:+ " already has a different stable receipt"))
      else Ok (Some existing)
  | Some existing, None => Ok (Some existing)
  | None, Some c => Ok (Some {| receipt := c |})
  | None, None => Ok None
  end.

(** The status to publish: [None] when the call repeats what is published. *)
Definition next_status (command_id : string) (current : CommandStatus) (next : CommandState)
    (candidate : option json) (rejection : option string) (now : string)
    : journal_result (option CommandStatus) :=
  fail_if (negb (may_transition_to (cs_state current) next))
    (JournalConflict ("command " +:+ command_id +:+ " cannot transition from "
       +:+ debug_command_state (cs_state current) +:+ " to " +:+ debug_command_state next)) ;;
  result ← next_result command_id current candidate;
  let rejection := match rejection with Some r => Some r | None => cs_rejection current end in
  fail_if ((next == Completed) && opt_is_none result)
    (JournalInvalid "a completed command requires a stable receipt") ;;
  fail_if ((next == Rejected) && negb (is_some_and (λ r, negb (len r =? 0)%nat) rejection))
    (JournalInvalid "a rejected command requires an actionable reason") ;;
  if cs_state current == next then
    fail_if (negb ((cs_result current == result) && (cs_rejection current == rejection)))
      (JournalConflict ("command " +:+ command_id
         +:+ " cannot replace data already published for state " +:+ debug_command_state next)) ;;
    Ok None
  else
    Ok (Some {| cs_schema := COMMAND_STATUS_SCHEMA; cs_command_id := command_id; cs_state := next;
                cs_updated_at := now; cs_result := result; cs_rejection := rejection |}).

(** [write_replace_json] of the status file. *)
Definition replace_status (d : CommandDirectory) (status : CommandStatus)
    : journal_result CommandDirectory :=
  match cd_status d with
  | SpecialNode => Err (JournalInvalid "journal status target is unsafe")
  | _ => bytes ← map_err JournalProtocol (canonical_to_vec status);
         Ok (set_status (FileBytes bytes) d)
  end.

Definition transition (command_id : string) (next : CommandState) (candidate : option json)
    (rejection : option string) (now : string) (journal : Journal)
    : Journal * journal_result CommandStatus :=
  match (d ← real_directory journal command_id;
         '(_, current) ← load_directory command_id d;
         published ← next_status command_id current next candidate rejection now;
         match published with
         | None => Ok (journal, current)
         | Some status =>
             d ← replace_status d status;
             Ok (E:=JournalError) (<[command_id := CommandEntryDir d]> journal, status)
         end) with
  | Ok (journal', status) => (journal', Ok status)
  | Err e => (journal, Err e)
  end.

(** ** Operations recorded once *)

Definition write_operation_once {T} `{ToJson T} `{EqDecision T} (decode : list Z -> result T)
    (command_id operation : string) (value : T) (journal : Journal) : Journal * journal_result T :=
  match (validate_identifier "operation" operation ;; real_directory journal command_id) with
  | Err e => (journal, Err e)
  | Ok d =>
      let put files := <[command_id := CommandEntryDir (set_operations (RealDirectory files) d)]> journal in
      match cd_operations d with
      | UnsafeDirectory => (journal, Err (not_a_directory (command_id +:+ "/operations")))
      | operations =>
          let files := match operations with RealDirectory files => files | _ => ∅ end in
          let name := operation +:+ ".json" in
          let path := command_id +:+ "/operations/" +:+ name in
          match canonical_to_vec value with
          | Err e => (put files, Err (JournalProtocol e))
          | Ok bytes =>
              match write_new (default NoNode (files !! name)) bytes with
              | Ok node => (put (<[name := node]> files), read_json decode path node)
              | Err _ =>
                  (put files,
                   existing ← read_json decode path (default NoNode (files !! name));
                   if existing != value
                   then Err (JournalConflict ("operation " +:+ operation +:+ " for command "
                          +:+ command_id +:+ " already has a different result"))
                   else Ok existing)
              end
          end
      end
  end.
End journal.
