(* ===== verification/CommandJournalLaws.v ===== *)
(** * Laws of the command journal

    Commands under any interleaving of admissions, transitions, recorded
    operations and crashes: one admission per identifier, what the identifier is
    bound to, the discipline of statuses, recovery and recorded operations. *)
From S2P Require Import Prelude Text Digest Records LocalCommand CommandJournal.

#[local] Arguments read_bounded : simpl never.

(** ** Validated inputs *)

Record files_ok (files : list (string * list Z)) : Prop := {
  fo_names : Forall (λ name, validate_file_name name = Ok tt) files.*1;
  fo_unique : NoDup files.*1;
  fo_bounded : Forall (λ f, Z.of_nat (length (snd f)) <= MAXIMUM_ATTACHMENT_BYTES)%Z files }.

Lemma validate_file_loop_Ok names total files total' :
  validate_file_loop names total files = Ok total' ->
  files_ok files /\ Forall (λ name, name ∉ names) files.*1.
Proof.
  revert names total. induction files as [|[name bytes] files IH]; intros names total; simpl.
  { intros _. split; [constructor|]; constructor. }
  intros Hv. res_inv. unfold u64_try_from in *. destruct (Z.of_nat _ <=? U64_MAX)%Z; simplify_eq.
  match goal with H : validate_file_loop _ _ _ = Ok _ |- _ => apply IH in H as [[Hn Hu Hb] Hf] end.
  split; [constructor|]; simpl; try constructor; try done; try (simpl; lia).
  - rewrite Forall_forall in Hf. intros Hin. apply (Hf name Hin). set_solver.
  - eapply Forall_impl; [exact Hf|]. simpl. set_solver.
Qed.

Lemma validate_private_files_Ok files : validate_private_files files = Ok tt -> files_ok files.
Proof. unfold validate_private_files. intros Hv. res_inv. by eapply validate_file_loop_Ok. Qed.

(** The directory of inputs that an admission writes. *)
Definition inputs_of (files : list (string * list Z)) : SubDirectory :=
  match files with
  | [] => NoDirectory
  | _ => RealDirectory (FileBytes <$> (list_to_map files : gmap string (list Z)))
  end.

Lemma stage_inputs_app (written : gmap string FileNode) files :
  NoDup files.*1 -> Forall (λ name, written !! name = None) files.*1 ->
  stage_inputs written files
    = ((FileBytes <$> (list_to_map files : gmap string (list Z))) ∪ written, Ok tt).
Proof.
  revert written. induction files as [|[name bytes] files IH]; intros written Hu Hw; simpl.
  { by rewrite fmap_empty, (left_id_L ∅ _). }
  apply NoDup_cons in Hu as [Hn Hu]. apply Forall_cons in Hw as [Hw1 Hw]. simpl in Hw1.
  rewrite Hw1. simpl. rewrite IH; [|done|].
  - f_equal. rewrite fmap_insert. rewrite <- insert_union_r; [by rewrite insert_union_l|].
    rewrite lookup_fmap. by rewrite not_elem_of_list_to_map_1.
  - rewrite Forall_forall in Hw |- *. intros x Hx. rewrite lookup_insert_ne; [by apply Hw|].
    intros <-. done.
Qed.

Lemma input_at_inputs_of files name :
  input_at (inputs_of files) name
    = match (list_to_map files : gmap string (list Z)) !! name with
      | Some bytes => FileBytes bytes | None => NoNode end.
Proof.
  unfold inputs_of, input_at. destruct files as [|f files]; [done|].
  rewrite lookup_fmap. by destruct (list_to_map _ !! name).
Qed.

Lemma observed_names_inputs_of files : files_ok files ->
  observed_names (inputs_of files) = Ok (list_to_set files.*1).
Proof.
  intros [Hn Hu Hb]. unfold inputs_of. destruct files as [|f fs]; [done|].
  set (files := f :: fs) in *. clearbody files. clear f fs. unfold observed_names.
  assert (for_each (λ entry : string * FileNode, validate_file_name (fst entry) ;;
    match snd entry with FileBytes _ => Ok tt
    | _ => Err (JournalInvalid "command input collection contains an unsafe entry") end)
    (map_to_list (FileBytes <$> (list_to_map files : gmap string (list Z)))) = Ok tt) as ->.
  { apply for_each_Ok, Forall_forall. intros [name node] Hin. apply elem_of_map_to_list in Hin.
    rewrite lookup_fmap in Hin. apply fmap_Some in Hin as (bytes&Hl&->).
    apply elem_of_list_to_map_2 in Hl. simpl. rewrite Forall_forall in Hn.
    rewrite Hn; [done|]. apply list_elem_of_fmap. by exists (name, bytes). }
  simpl. f_equal. apply set_eq. intros name. rewrite elem_of_dom, lookup_fmap, elem_of_list_to_set.
  rewrite fmap_is_Some, <- elem_of_dom, dom_list_to_map. by rewrite elem_of_list_to_set.
Qed.

Definition files_map (files : list (string * list Z)) : gmap string (list Z) := list_to_map files.

Lemma files_map_names files : dom (files_map files) = list_to_set files.*1.
Proof. unfold files_map. by rewrite dom_list_to_map_L. Qed.

(** ** One command *)

Lemma identifier_not_staging label id : validate_identifier label id = Ok tt -> is_staging id = false.
Proof.
  unfold validate_identifier. intros Hv. res_inv.
  match goal with H : forallb _ _ = true |- _ => rename H into Hb end.
  unfold is_staging. change (bytes_of ".staging-") with (46%Z :: bytes_of "staging-").
  destruct (bytes_of id) as [|b bs]; [done|]. simpl forallb in Hb. apply andb_true_iff in Hb as [Hb _].
  cbn [starts_with]. destruct (Z.eqb_spec 46 b) as [<-|]; [by vm_compute in Hb|done].
Qed.

Lemma staging_is_staging s : is_staging (".staging-" +:+ s) = true.
Proof. reflexivity. Qed.

(** Statuses the journal publishes. *)
Definition status_ok (st : CommandStatus) : Prop :=
  (cs_state st = Completed -> is_Some (cs_result st)) /\
  (cs_state st = Rejected -> exists reason, cs_rejection st = Some reason /\ reason <> "").

(** What may become of a status: it moves along the state machine, its receipt
    stays once it has one, and nothing of it changes once it is terminal. *)
Record status_after (st st' : CommandStatus) : Prop := {
  sa_moves : rtc (λ a b, may_transition_to a b = true) (cs_state st) (cs_state st');
  sa_receipt : forall c, cs_result st = Some c -> cs_result st' = Some c;
  sa_terminal : terminal (cs_state st) = true -> st' = st }.

Lemma status_after_refl st : status_after st st.
Proof. by constructor. Qed.

Lemma status_after_trans a b c : status_after a b -> status_after b c -> status_after a c.
Proof.
  intros [Hm1 Hr1 Ht1] [Hm2 Hr2 Ht2]. constructor; [by etrans|auto|].
  intros Ht. pose proof (Ht1 Ht) as ->. by apply Ht2.
Qed.

(** What no operation changes in a command's directory. *)
Record directory_kept (d d' : CommandDirectory) : Prop := {
  dk_request : cd_request d' = cd_request d;
  dk_payload : cd_payload d' = cd_payload d;
  dk_inputs : cd_inputs d' = cd_inputs d;
  dk_operations : forall name bytes, input_at (cd_operations d) name = FileBytes bytes ->
    input_at (cd_operations d') name = FileBytes bytes }.

Lemma directory_kept_refl d : directory_kept d d.
Proof. by constructor. Qed.

Lemma directory_kept_trans a b c : directory_kept a b -> directory_kept b c -> directory_kept a c.
Proof. intros [] []. constructor; try congruence. auto. Qed.

Section laws.
Context `{Platform} `{JournalReader}.

(** The bytes written for a value are within the bound of the reader, which
    reads the value back. *)
Definition readable {A} `{ToJson A} (decode : list Z -> result A) (v : A) : Prop :=
  exists bytes, canonical_to_vec v = Ok bytes /\
    (Z.of_nat (length bytes) <= MAXIMUM_JSON_BYTES)%Z /\ decode bytes = Ok v.

Lemma read_bounded_Ok path bytes maximum : (Z.of_nat (length bytes) <= maximum)%Z ->
  read_bounded path (FileBytes bytes) maximum = Ok bytes.
Proof. intros Hl. unfold read_bounded. by rewrite (proj2 (Z.ltb_ge _ _) Hl). Qed.

Lemma read_written {A} `{ToJson A} (decode : list Z -> result A) v bytes path :
  readable decode v -> canonical_to_vec v = Ok bytes -> read_json decode path (FileBytes bytes) = Ok v.
Proof.
  intros (b&Hb&Hl&Hd) Hc. rewrite Hb in Hc. injection Hc as ->.
  unfold read_json. rewrite read_bounded_Ok by done. simpl. by rewrite Hd.
Qed.

(** A command as an admission leaves it and the other operations keep it. *)
Record admitted (id : string) (d : CommandDirectory) (r : CommandRecord) (st : CommandStatus) : Prop := {
  am_id : validate_identifier "command ID" id = Ok tt;
  am_load : load_directory id d = Ok (r, st);
  am_status : status_ok st;
  am_payload : exists bytes, cd_payload d = FileBytes bytes /\
    (Z.of_nat (length bytes) <= MAXIMUM_JSON_BYTES)%Z /\ cr_payload_digest r = sha256 bytes;
  am_inputs : exists files, files_ok files /\ cd_inputs d = inputs_of files;
  am_operations : cd_operations d <> UnsafeDirectory }.

Lemma load_directory_Ok id d r st : load_directory id d = Ok (r, st) <->
  read_json decode_record (id +:+ "/request.json") (cd_request d) = Ok r /\
  read_json decode_status (id +:+ "/status.json") (cd_status d) = Ok st /\
  validate_loaded r st id = Ok tt.
Proof.
  unfold load_directory. split; [intros Hl|by intros (->&->&Hv); simpl; rewrite Hv].
  apply bind_Ok in Hl as (r0&?&Hl). apply bind_Ok in Hl as (st0&?&Hl).
  apply bind_Ok in Hl as ([]&?&Hl). by simplify_eq.
Qed.

Lemma validate_loaded_Ok r st id : validate_loaded r st id = Ok tt <->
  cr_schema r = COMMAND_SCHEMA /\ cs_schema st = COMMAND_STATUS_SCHEMA /\
  cr_command_id r = id /\ cs_command_id st = id.
Proof.
  unfold validate_loaded. rewrite fail_if_Ok, !orb_false_iff, !negb_false_iff, !bool_decide_eq_true.
  tauto.
Qed.

(** ** Transitions *)

Lemma next_result_kept id current candidate result : next_result id current candidate = Ok result ->
  forall c, cs_result current = Some c -> result = Some c.
Proof.
  unfold next_result. intros Hn c Hc. rewrite Hc in Hn. destruct candidate; [|by simplify_eq].
  case_bool_decide; simpl in Hn; by simplify_eq.
Qed.

Lemma next_status_Some id current next candidate rejection now st :
  next_status id current next candidate rejection now = Ok (Some st) ->
  may_transition_to (cs_state current) next = true /\ cs_state st = next /\ cs_state current <> next /\
  status_ok st /\ status_after current st /\ cs_schema st = COMMAND_STATUS_SCHEMA /\
  cs_command_id st = id.
Proof.
  unfold next_status. intros Hn. apply bind_Ok in Hn as ([]&Hm&Hn).
  apply fail_if_Ok, negb_false_iff in Hm. apply bind_Ok in Hn as (result&Hres&Hn).
  apply bind_Ok in Hn as ([]&Hc&Hn). apply bind_Ok in Hn as ([]&Hj&Hn).
  apply fail_if_Ok in Hc, Hj. case_bool_decide as Heq.
  { apply bind_Ok in Hn as (?&_&?). done. }
  injection Hn as <-. simpl. split_and!; try done.
  - split; simpl; intros ->; [by destruct result|].
    rewrite bool_decide_eq_true_2 in Hj by done. simpl in Hj. apply negb_false_iff in Hj.
    destruct (match rejection with Some r => Some r | None => cs_rejection current end) as [reason|];
      [|done]. exists reason. split; [done|]. by intros ->.
  - constructor; simpl.
    + by apply rtc_once.
    + by eapply next_result_kept.
    + intros Ht. pose proof (terminal_stuck _ _ Ht Hm). congruence.
Qed.

Lemma next_status_None id current next candidate rejection now :
  next_status id current next candidate rejection now = Ok None ->
  cs_state current = next /\ forall c, candidate = Some c -> cs_result current = Some {| receipt := c |}.
Proof.
  unfold next_status. intros Hn. apply bind_Ok in Hn as ([]&_&Hn).
  apply bind_Ok in Hn as (result&Hres&Hn).
  apply bind_Ok in Hn as ([]&_&Hn). apply bind_Ok in Hn as ([]&_&Hn).
  case_bool_decide as Heq; [|done]. split; [done|]. intros c ->.
  apply bind_Ok in Hn as ([]&Hs&_). apply fail_if_Ok, negb_false_iff, andb_true_iff in Hs as [Hs _].
  apply bool_decide_eq_true in Hs. rewrite Hs. unfold next_result in Hres.
  destruct (cs_result current) as [[e]|]; [|by simplify_eq]. simpl in Hres.
  case_bool_decide; simpl in Hres; by simplify_eq.
Qed.

(** What a successful transition does. *)
Lemma transition_Ok id next candidate rejection now j j' st :
  transition id next candidate rejection now j = (j', Ok st) ->
  exists d r current, real_directory j id = Ok d /\ load_directory id d = Ok (r, current) /\
    ((j' = j /\ st = current /\ next_status id current next candidate rejection now = Ok None) \/
     (next_status id current next candidate rejection now = Ok (Some st) /\
      exists bytes, canonical_to_vec st = Ok bytes /\
        j' = <[id := CommandEntryDir (set_status (FileBytes bytes) d)]> j)).
Proof.
  unfold transition. intros Ht. destruct (real_directory j id) as [d|] eqn:Hd; [|done]. simpl in Ht.
  destruct (load_directory id d) as [[r current]|] eqn:Hl; [|done]. simpl in Ht.
  exists d, r, current. do 2 (split; [done|]).
  destruct (next_status _ _ _ _ _ _) as [[st0|]|] eqn:Hn; [|injection Ht as <- <-; auto|done].
  simpl in Ht. destruct (replace_status d st0) as [d'|] eqn:Hr; [|done]. injection Ht as <- <-.
  right. split; [done|]. unfold replace_status in Hr.
  destruct (cd_status d); try done;
    (destruct (canonical_to_vec st0) as [bs|]; [|done]; injection Hr as <-; by exists bs).
Qed.

Lemma transition_Err id next candidate rejection now j j' e :
  transition id next candidate rejection now j = (j', Err e) -> j' = j.
Proof.
  unfold transition. destruct (_ ≫= _) as [[? ?]|]; [done|]. intros [= <- _]. done.
Qed.

(** Publishing a readable status keeps the command. *)
Lemma admitted_set_status id d r current st bytes :
  admitted id d r current -> status_ok st -> cs_schema st = COMMAND_STATUS_SCHEMA ->
  cs_command_id st = id -> readable decode_status st -> canonical_to_vec st = Ok bytes ->
  admitted id (set_status (FileBytes bytes) d) r st.
Proof.
  intros [Hid Hl _ Hp Hi Ho] Hok Hs Hc Hr Hb.
  apply load_directory_Ok in Hl as (Hreq&_&Hv). apply validate_loaded_Ok in Hv as (Hv1&_&Hv3&_).
  constructor; try done. apply load_directory_Ok. simpl. split_and!; [done| |].
  - by apply read_written.
  - by apply validate_loaded_Ok.
Qed.

(** ** Admissions *)

Lemma admission_record_Ok {T} `{ToJson T} metadata (p : T) files now r bytes :
  admission_record metadata p files now = Ok (r, bytes) ->
  validate_identifier "command ID" (cr_command_id r) = Ok tt /\ cr_schema r = COMMAND_SCHEMA /\
  cr_command_id r = md_command_id metadata /\ files_ok files /\ canonical_to_vec p = Ok bytes /\
  (Z.of_nat (length bytes) <= MAXIMUM_JSON_BYTES)%Z /\ cr_payload_digest r = sha256 bytes /\
  forall now', exists r', admission_record metadata p files now' = Ok (r', bytes) /\
    identity_of r' = identity_of r /\ cr_command_id r' = cr_command_id r.
Proof.
  unfold admission_record. intros Ha. apply bind_Ok in Ha as ([]&Hid&Ha).
  apply bind_Ok in Ha as ([]&Hw&Ha). apply bind_Ok in Ha as ([]&Hd&Ha).
  apply bind_Ok in Ha as ([]&Hf&Ha). apply bind_Ok in Ha as (b&Hb&Ha).
  apply bind_Ok in Ha as ([]&Hl&Ha). apply bind_Ok in Ha as (sub&Hs&Ha). injection Ha as <- <-.
  pose proof Hl as Hl0. apply fail_if_Ok, Z.ltb_ge in Hl0. apply map_err_Ok in Hb as Hb0. simpl.
  split_and!; try done; [by apply validate_private_files_Ok|]. intros now'.
  rewrite Hid, Hw, Hd, Hf, Hb. simpl. rewrite Hl. simpl. destruct (md_submitted_at metadata) as [v|].
  - rewrite Hs. simpl. eauto.
  - simpl. eauto.
Qed.

(** The directory an admission stages. *)
Definition staged_directory (request status : list Z) (s : StagedAdmission) : CommandDirectory :=
  {| cd_request := FileBytes request; cd_payload := FileBytes (sa_payload_bytes s);
     cd_status := FileBytes status; cd_inputs := inputs_of (sa_files s);
     cd_operations := NoDirectory |}.

Lemma stage_Ok r bytes files initial d : files_ok files ->
  stage r bytes files initial = (d, Ok tt) ->
  exists request status, canonical_to_vec r = Ok request /\ canonical_to_vec initial = Ok status /\
    d = {| cd_request := FileBytes request; cd_payload := FileBytes bytes;
           cd_status := FileBytes status; cd_inputs := inputs_of files; cd_operations := NoDirectory |}.
Proof.
  intros [Hn Hu Hb]. unfold stage. destruct (canonical_to_vec r) as [request|]; [|done].
  destruct files as [|f fs].
  - destruct (canonical_to_vec initial) as [status|]; [|done]. intros [= <-]. by exists request, status.
  - rewrite stage_inputs_app; [|done|apply Forall_forall; intros; apply lookup_empty].
    destruct (canonical_to_vec initial) as [status|]; [|done]. intros [= <-].
    exists request, status. split_and!; [done..|]. by rewrite (right_id_L ∅ _).
Qed.

(** An admission in flight. *)
Record in_flight (j : Journal) (s : StagedAdmission) : Prop := {
  if_staging : is_staging (sa_staging s) = true;
  if_id : validate_identifier "command ID" (cr_command_id (sa_record s)) = Ok tt;
  if_schema : cr_schema (sa_record s) = COMMAND_SCHEMA;
  if_files : files_ok (sa_files s);
  if_bounded : (Z.of_nat (length (sa_payload_bytes s)) <= MAXIMUM_JSON_BYTES)%Z;
  if_digest : cr_payload_digest (sa_record s) = sha256 (sa_payload_bytes s);
  if_initial : exists now, sa_initial s = initial_status (cr_command_id (sa_record s)) now;
  if_directory : exists request status, canonical_to_vec (sa_record s) = Ok request /\
    canonical_to_vec (sa_initial s) = Ok status /\
    j !! sa_staging s = Some (CommandEntryDir (staged_directory request status s)) }.

Lemma in_flight_same j j' s : j' !! sa_staging s = j !! sa_staging s -> in_flight j s -> in_flight j' s.
Proof. intros Hj []. constructor; try done. by rewrite Hj. Qed.

(** What preparing does: it may add one staging entry, of a name that was free. *)
Lemma admit_prepare_cases {T} `{ToJson T} metadata (p : T) files now updated_now uuid j j' res :
  admit_prepare metadata p files now updated_now uuid j = (j', res) ->
  (j' = j /\ forall s, res <> Ok (Staged s)) \/
  exists name e, is_staging name = true /\ j !! name = None /\ j' = <[name := e]> j /\
    forall s, res = Ok (Staged s) -> sa_staging s = name /\ in_flight j' s /\
      j !! cr_command_id (sa_record s) = None /\ sa_files s = files /\
      sa_initial s = initial_status (cr_command_id (sa_record s)) updated_now /\
      admission_record metadata p files now = Ok (sa_record s, sa_payload_bytes s).
Proof.
  unfold admit_prepare. destruct (admission_record _ _ _ _) as [[r bytes]|] eqn:Ha.
  2: { intros [= <- <-]. by left. }
  destruct (j !! cr_command_id r) as [[d|]|] eqn:Hj.
  { intros [= <- <-]. left. split; [done|]. intros s. by destruct (read_existing _ _ _ _). }
  { intros [= <- <-]. by left. }
  destruct (_ <=? _)%Z. { intros [= <- <-]. by left. }
  set (name := ".staging-" +:+ _). destruct (j !! name) eqn:Hn. { intros [= <- <-]. by left. }
  destruct (stage _ _ _ _) as [d res0] eqn:Hs. intros [= <- <-]. right.
  exists name, (CommandEntryDir d). split_and!; [apply staging_is_staging|done|done|].
  intros s Hres. destruct res0 as [[]|]; [|done]. injection Hres as <-. simpl.
  apply admission_record_Ok in Ha as Hr. destruct Hr as (Hid&Hsc&_&Hf&_&Hl&Hd&_).
  apply stage_Ok in Hs as (request&status&Hreq&Hst&->); [|done].
  split_and!; [done| |done..]. constructor; simpl; try done.
  - by exists updated_now.
  - exists request, status. split_and!; [done..|]. by rewrite lookup_insert_eq.
Qed.

(** A published admission is a good command. *)
Lemma in_flight_admitted j s : in_flight j s ->
  readable decode_record (sa_record s) -> readable decode_status (sa_initial s) ->
  exists d, j !! sa_staging s = Some (CommandEntryDir d) /\ d <> empty_directory /\
    cd_payload d = FileBytes (sa_payload_bytes s) /\ cd_inputs d = inputs_of (sa_files s) /\
    admitted (cr_command_id (sa_record s)) d (sa_record s) (sa_initial s).
Proof.
  intros [Hst Hid Hsc Hf Hl Hdg [now Hi] (request&status&Hreq&Hs&Hj)] Hrr Hrs.
  eexists. split_and!; [exact Hj|done|done|done|].
  constructor; try done.
  - apply load_directory_Ok. simpl. split_and!; [by apply read_written|by apply read_written|].
    apply validate_loaded_Ok. by rewrite Hi.
  - by rewrite Hi.
  - by exists (sa_payload_bytes s).
  - by exists (sa_files s).
Qed.

(** Publishing: the only admission of the identifier, or a lookup. *)
Lemma admit_publish_cases j s : in_flight j s ->
  readable decode_record (sa_record s) -> readable decode_status (sa_initial s) ->
  let id := cr_command_id (sa_record s) in
  (forall d, j !! id = Some (CommandEntryDir d) -> d <> empty_directory) ->
  (j !! id = None /\ exists d,
     admitted id d (sa_record s) (sa_initial s) /\ cd_payload d = FileBytes (sa_payload_bytes s) /\
     cd_inputs d = inputs_of (sa_files s) /\
     admit_publish s j = (<[id := CommandEntryDir d]> (delete (sa_staging s) j),
       Ok {| ad_record := sa_record s; ad_status := sa_initial s; ad_existing := false |})) \/
  (j !! id <> None /\ admit_publish s j = (delete (sa_staging s) j,
     read_existing (delete (sa_staging s) j) (sa_record s) (sa_payload_bytes s) (sa_files s))).
Proof.
  intros Hf Hr Hi id Hne. pose proof (in_flight_admitted _ _ Hf Hr Hi) as (d&Hd&_&Hp&Hin&Ha).
  unfold admit_publish. fold id. rewrite Hd. destruct (j !! id) as [[d0|]|] eqn:Hj.
  - right. split; [done|]. by rewrite bool_decide_eq_false_2 by by apply Hne.
  - by right.
  - left. split; [done|]. by exists d.
Qed.

(** ** Repeated admissions *)

Lemma real_directory_Ok j id d : validate_identifier "command ID" id = Ok tt ->
  j !! id = Some (CommandEntryDir d) -> real_directory j id = Ok d.
Proof. intros Hid Hj. unfold real_directory. rewrite Hid. simpl. by rewrite Hj. Qed.

Lemma load_Ok j id d r st : admitted id d r st -> j !! id = Some (CommandEntryDir d) ->
  load j id = Ok (r, st).
Proof. intros [Hid Hl _ _ _ _] Hj. unfold load. by rewrite (real_directory_Ok _ _ _ Hid Hj). Qed.

(** Comparing the input files one by one is comparing the sets of files. *)
Lemma compare_inputs id files files' : files_ok files -> files_ok files' ->
  dom (files_map files) = dom (files_map files') ->
  for_each (λ file : string * list Z,
    observed ← read_bounded (id +:+ "/inputs/" +:+ fst file) (input_at (inputs_of files) (fst file))
                 MAXIMUM_ATTACHMENT_BYTES;
    fail_if (observed != snd file)
      (JournalConflict ("command ID " +:+ id +:+ " input " +:+ fst file
         +:+ " does not match its first admission"))) files' = Ok tt \/
  files_map files <> files_map files' /\ exists m,
  for_each (λ file : string * list Z,
    observed ← read_bounded (id +:+ "/inputs/" +:+ fst file) (input_at (inputs_of files) (fst file))
                 MAXIMUM_ATTACHMENT_BYTES;
    fail_if (observed != snd file)
      (JournalConflict ("command ID " +:+ id +:+ " input " +:+ fst file
         +:+ " does not match its first admission"))) files' = Err (JournalConflict m).
Proof.
  intros [_ _ Hb] [_ Hu' _] Hdom.
  assert (forall f, f ∈ files' -> files_map files' !! f.1 = Some f.2) as Hin.
  { intros [n b] Hf. by apply elem_of_list_to_map_1. }
  assert (forall f, f ∈ files' -> f.1 ∈ dom (files_map files)) as Hd.
  { intros f Hf. rewrite Hdom. apply elem_of_dom. exists f.2. by apply Hin. }
  clear Hdom Hu'. revert Hin Hd. generalize (files_map files') as m'.
  induction files' as [|[n b] fs IH]; intros m' Hin Hd; [by left|].
  assert (exists o, files_map files !! n = Some o) as [o Ho].
  { apply elem_of_dom. apply (Hd (n, b)). apply elem_of_cons. by left. }
  simpl. rewrite input_at_inputs_of. fold (files_map files). rewrite Ho. rewrite read_bounded_Ok.
  2: { rewrite Forall_forall in Hb. apply (Hb (n, o)). by apply elem_of_list_to_map_2. }
  simpl. case_bool_decide as E; simpl.
  - apply IH; intros f Hf; [apply Hin|apply Hd]; apply elem_of_cons; by right.
  - right. split; [|by eexists]. intros Em. specialize (Hin (n, b)). simpl in Hin.
    rewrite Em, Hin in Ho; [by simplify_eq|apply elem_of_cons; by left].
Qed.

(** Admitting again: the same command is found with its present status, anything
    else under its identifier is a conflict. *)
Lemma read_existing_spec j id d r st r' bytes bytes' files files' :
  admitted id d r st -> j !! id = Some (CommandEntryDir d) ->
  cd_payload d = FileBytes bytes -> cd_inputs d = inputs_of files -> files_ok files ->
  cr_command_id r' = id -> files_ok files' ->
  (identity_of r = identity_of r' /\ bytes = bytes' /\ files_map files = files_map files' /\
     read_existing j r' bytes' files'
       = Ok {| ad_record := r; ad_status := st; ad_existing := true |}) \/
  ((identity_of r <> identity_of r' \/ bytes <> bytes' \/ files_map files <> files_map files') /\
     exists m, read_existing j r' bytes' files' = Err (JournalConflict m)).
Proof.
  intros Ha Hj Hp Hi Hf Hid Hf'. unfold read_existing. rewrite Hid.
  rewrite (load_Ok _ _ _ _ _ Ha Hj), (real_directory_Ok j id d) by (by destruct Ha). simpl.
  rewrite Hp, Hi. destruct (am_payload _ _ _ _ Ha) as (b&Hpb&Hl&_).
  rewrite Hp in Hpb. injection Hpb as <-.
  destruct (bool_decide_reflect (identity_of r = identity_of r')) as [Er|Er]; simpl.
  2: { right. split; [by left|]. by eexists. }
  rewrite read_bounded_Ok by done. simpl.
  destruct (bool_decide_reflect (bytes = bytes')) as [Eb|Eb]; simpl.
  2: { right. split; [by right; left|]. by eexists. }
  rewrite (observed_names_inputs_of files Hf). simpl. rewrite <- !files_map_names.
  destruct (bool_decide_reflect (dom (files_map files) = dom (files_map files'))) as [Ed|Ed]; simpl.
  2: { right. split; [|by eexists]. right; right. congruence. }
  destruct (decide (files_map files = files_map files')) as [Em|Em].
  - left. split_and!; try done.
    destruct (compare_inputs id files files' Hf Hf' Ed) as [->|[Hne _]]; [done|congruence].
  - right. split; [by right; right|].
    destruct (compare_inputs id files files' Hf Hf' Ed) as [Hc|[_ [m ->]]]; [|by exists m].
    destruct Em. apply map_eq. intros n. revert Hc. rewrite for_each_Ok, Forall_forall. intros Hc.
    destruct (files_map files' !! n) as [b|] eqn:E'.
    + apply elem_of_list_to_map_2 in E' as Hin. specialize (Hc _ Hin). simpl in Hc.
      rewrite input_at_inputs_of in Hc. fold (files_map files) in Hc.
      destruct (files_map files !! n) as [o|] eqn:Eo; [|done].
      unfold read_bounded in Hc. destruct (_ <? _)%Z; [done|]. simpl in Hc.
      case_bool_decide; [by subst|done].
    + apply not_elem_of_dom. rewrite Ed. by apply not_elem_of_dom.
Qed.

(** ** Operations recorded once *)

(** What recording an operation does to the journal. *)
Lemma write_operation_cases {T} `{ToJson T} `{EqDecision T} (decode : list Z -> result T)
    id operation v j j' res :
  write_operation_once decode id operation v j = (j', res) ->
  j' = j \/ exists d d', real_directory j id = Ok d /\ directory_kept d d' /\
    cd_status d' = cd_status d /\ cd_operations d' <> UnsafeDirectory /\
    j' = <[id := CommandEntryDir d']> j.
Proof.
  unfold write_operation_once. intros Hw.
  destruct (validate_identifier "operation" operation) as [u|]; simpl in Hw; [|injection Hw; auto].
  destruct (real_directory j id) as [d|] eqn:Hd; simpl in Hw; [|injection Hw; auto].
  assert (forall files, (forall name bytes, input_at (cd_operations d) name = FileBytes bytes ->
      files !! name = Some (FileBytes bytes)) ->
    exists d0 d', Ok (E:=JournalError) d = Ok d0 /\ directory_kept d0 d' /\ cd_status d' = cd_status d0 /\
      cd_operations d' <> UnsafeDirectory /\
      <[id := CommandEntryDir (set_operations (RealDirectory files) d)]> j
        = <[id := CommandEntryDir d']> j) as Hput.
  { intros files Hf. exists d, (set_operations (RealDirectory files) d). split_and!; try done.
    constructor; try done. simpl. intros name bytes Hn. by rewrite (Hf _ _ Hn). }
  destruct (cd_operations d) as [|files|] eqn:Ho; [right|right|injection Hw; auto].
  - destruct (canonical_to_vec v) as [bytes|]; [|injection Hw as <- <-; by apply Hput].
    rewrite lookup_empty in Hw. simpl in Hw. injection Hw as <- <-. by apply Hput.
  - assert (forall name bytes, default NoNode (files !! name) = FileBytes bytes ->
      files !! name = Some (FileBytes bytes)) as Hdef.
    { intros name bytes Hn. destruct (files !! name); simpl in Hn; congruence. }
    destruct (canonical_to_vec v) as [bytes|]; [|injection Hw as <- <-; by apply Hput].
    destruct (write_new (default NoNode (files !! (operation +:+ ".json"))) bytes) as [node|] eqn:Hn;
      injection Hw as <- <-; apply Hput; [|done]. intros name b Hb. simpl in Hb.
    apply Hdef in Hb. rewrite lookup_insert_ne; [done|]. intros <-. by rewrite Hb in Hn.
Qed.

(** The result on record for an operation. *)
Definition recorded {T} (decode : list Z -> result T) (operation : string) (v : T)
    (d : CommandDirectory) : Prop :=
  exists bytes, input_at (cd_operations d) (operation +:+ ".json") = FileBytes bytes /\
    (Z.of_nat (length bytes) <= MAXIMUM_JSON_BYTES)%Z /\ decode bytes = Ok v.

Lemma recorded_kept {T} (decode : list Z -> result T) operation v d d' :
  directory_kept d d' -> recorded decode operation v d -> recorded decode operation v d'.
Proof. intros [_ _ _ Hk] (b&Hb&Hl&Hd). exists b. split_and!; auto. Qed.

(** A recorded result is reported, and nothing else can be recorded. *)
Lemma write_operation_again {T} `{ToJson T} `{EqDecision T} (decode : list Z -> result T)
    id operation v w d j :
  validate_identifier "operation" operation = Ok tt -> real_directory j id = Ok d ->
  recorded decode operation v d -> is_ok (canonical_to_vec w) = true ->
  write_operation_once decode id operation w j
    = (j, if v == w then Ok v
          else Err (JournalConflict ("operation " +:+ operation +:+ " for command "
                      +:+ id +:+ " already has a different result"))).
Proof.
  intros Ho Hd (bytes&Hf&Hl&Hv) Hw. unfold write_operation_once. rewrite Ho. simpl. rewrite Hd.
  destruct (cd_operations d) as [|files|] eqn:Hop; [done| |done]. simpl in Hf.
  destruct (canonical_to_vec w) as [b|]; [|done]. rewrite Hf. simpl.
  unfold read_json. rewrite read_bounded_Ok by done. simpl. rewrite Hv. simpl.
  assert (<[id := CommandEntryDir (set_operations (RealDirectory files) d)]> j = j) as ->.
  { apply insert_id. unfold real_directory in Hd. apply bind_Ok in Hd as ([]&_&Hd).
    destruct (j !! id) as [[d0|]|]; simplify_eq. f_equal. f_equal. destruct d. simpl in *. by subst. }
  f_equal. by destruct (bool_decide_reflect (v = w)).
Qed.

Lemma write_operation_records {T} `{ToJson T} `{EqDecision T} (decode : list Z -> result T)
    id operation v j j' :
  write_operation_once decode id operation v j = (j', Ok v) -> readable decode v ->
  validate_identifier "operation" operation = Ok tt /\
  exists d, real_directory j' id = Ok d /\ recorded decode operation v d.
Proof.
  unfold write_operation_once. intros Hw (bytes&Hb&Hl&Hd).
  destruct (validate_identifier "operation" operation) as [[]|]; simpl in Hw; [|done].
  destruct (real_directory j id) as [d|] eqn:Hr; simpl in Hw; [|done]. split; [done|].
  assert (forall d', real_directory (<[id := CommandEntryDir d']> j) id = Ok d') as Hins.
  { intros d'. unfold real_directory in Hr |- *. apply bind_Ok in Hr as ([]&->&_). simpl.
    by rewrite lookup_insert_eq. }
  rewrite Hb in Hw.
  assert (forall files node, write_new (default NoNode (files !! (operation +:+ ".json"))) bytes = Ok node ->
    recorded decode operation v
      (set_operations (RealDirectory (<[operation +:+ ".json" := node]> files)) d)) as Hnew.
  { intros files node Hn. exists bytes. split_and!; [|done..]. simpl. rewrite lookup_insert_eq. simpl.
    destruct (files !! _) as [[]|]; simpl in Hn; congruence. }
  destruct (cd_operations d) as [|files|] eqn:Ho; [|destruct (write_new _ _) as [node|] eqn:Hn|done].
  - rewrite lookup_empty in Hw. simpl in Hw. injection Hw as <- _. eexists. split; [apply Hins|].
    by apply (Hnew ∅).
  - injection Hw as <- _. eexists. split; [apply Hins|]. by apply Hnew.
  - injection Hw as <- Hw. eexists. split; [apply Hins|].
    apply bind_Ok in Hw as (found&He&Hw). case_bool_decide; simpl in Hw; [|done]. injection Hw as ->.
    unfold read_json in He. apply bind_Ok in He as (b&Hb'&He). apply map_err_Ok in He.
    destruct (default NoNode (files !! (operation +:+ ".json"))) as [|b'|] eqn:Hf; try done.
    unfold read_bounded in Hb'. apply bind_Ok in Hb' as ([]&Hl'&Hb'). injection Hb' as ->.
    apply fail_if_Ok, Z.ltb_ge in Hl'. by exists b.
Qed.

(** ** The journal as a system

    Any number of processes admit, transition and record; admissions are split at
    their rename, and one that crashes is dropped from the flights. *)
Record JournalSystem := {
  js_journal : Journal;
  js_flights : gmap string StagedAdmission }.

Definition new_system : JournalSystem := {| js_journal := ∅; js_flights := ∅ |}.

(** The record that a result admits as new. *)
Definition newly_admitted (res : journal_result Admission) : option CommandRecord :=
  match res with Ok a => if ad_existing a then None else Some (ad_record a) | Err _ => None end.

(** One step, with the record it admits as new. What a step publishes is
    readable, as the journal's readers require. *)
Inductive system_step (sys : JournalSystem) : option CommandRecord -> JournalSystem -> Prop :=
  | do_prepare {T} `{ToJson T} metadata (p : T) files now updated_now uuid j' res :
      admit_prepare metadata p files now updated_now uuid (js_journal sys) = (j', res) ->
      system_step sys None {| js_journal := j';
        js_flights := match res with
                      | Ok (Staged s) => <[sa_staging s := s]> (js_flights sys)
                      | _ => js_flights sys
                      end |}
  | do_publish s j' res :
      js_flights sys !! sa_staging s = Some s ->
      readable decode_record (sa_record s) -> readable decode_status (sa_initial s) ->
      admit_publish s (js_journal sys) = (j', res) ->
      system_step sys (newly_admitted res)
        {| js_journal := j'; js_flights := delete (sa_staging s) (js_flights sys) |}
  | do_crash name :
      system_step sys None
        {| js_journal := js_journal sys; js_flights := delete name (js_flights sys) |}
  | do_transition id next candidate rejection now j' res :
      transition id next candidate rejection now (js_journal sys) = (j', res) ->
      (forall st, res = Ok st -> readable decode_status st) ->
      system_step sys None {| js_journal := j'; js_flights := js_flights sys |}
  | do_operation {T} `{ToJson T} `{EqDecision T} (decode : list Z -> result T) id operation v j' res :
      write_operation_once decode id operation v (js_journal sys) = (j', res) ->
      system_step sys None {| js_journal := j'; js_flights := js_flights sys |}.

(** A run, with the records its steps admit as new. *)
Inductive system_run (sys : JournalSystem) : list CommandRecord -> JournalSystem -> Prop :=
  | run_nil : system_run sys [] sys
  | run_step ev sys1 evs sys2 : system_step sys ev sys1 -> system_run sys1 evs sys2 ->
      system_run sys (option_list ev ++ evs) sys2.

(** Systems a new journal can come to be. *)
Definition journal_reachable (sys : JournalSystem) : Prop := exists evs, system_run new_system evs sys.

Record system_ok (sys : JournalSystem) : Prop := {
  so_commands : forall id e, is_staging id = false -> js_journal sys !! id = Some e ->
    exists d r st, e = CommandEntryDir d /\ admitted id d r st;
  so_flights : forall name s, js_flights sys !! name = Some s ->
    sa_staging s = name /\ in_flight (js_journal sys) s }.

(** Every command stays, with its record, its payload, its inputs and its
    recorded operations, and its status moves as it may. *)
Definition commands_kept (j j' : Journal) : Prop := forall id d r st,
  j !! id = Some (CommandEntryDir d) -> admitted id d r st ->
  exists d' st', j' !! id = Some (CommandEntryDir d') /\ admitted id d' r st' /\
    directory_kept d d' /\ status_after st st'.

Lemma commands_kept_refl j : commands_kept j j.
Proof.
  intros id d r st Hj Ha. exists d, st. split_and!; auto using directory_kept_refl, status_after_refl.
Qed.

Lemma commands_kept_trans j1 j2 j3 : commands_kept j1 j2 -> commands_kept j2 j3 -> commands_kept j1 j3.
Proof.
  intros H12 H23 id d r st Hj Ha. destruct (H12 _ _ _ _ Hj Ha) as (d2&st2&Hj2&Ha2&Hk2&Hs2).
  destruct (H23 _ _ _ _ Hj2 Ha2) as (d3&st3&Hj3&Ha3&Hk3&Hs3). exists d3, st3.
  split_and!; eauto using directory_kept_trans, status_after_trans.
Qed.

(** The journals differ at most in staging entries that were free. *)
Lemma commands_kept_same j j' :
  (forall id, is_staging id = false -> j' !! id = j !! id) -> commands_kept j j'.
Proof.
  intros Hsame id d r st Hj Ha. exists d, st. rewrite Hsame.
  - split_and!; auto using directory_kept_refl, status_after_refl.
  - by eapply identifier_not_staging, am_id.
Qed.

Lemma admitted_nonempty id d r st : admitted id d r st -> d <> empty_directory.
Proof. intros [_ _ _ (b&Hb&_) _ _] ->. done. Qed.

Lemma admitted_functional id d r st r' st' : admitted id d r st -> admitted id d r' st' ->
  r' = r /\ st' = st.
Proof. intros [_ H1l _ _ _ _] [_ H2l _ _ _ _]. rewrite H1l in H2l. by simplify_eq. Qed.

(** Updating one command. *)
Lemma system_update sys id d d' r st st' :
  system_ok sys -> js_journal sys !! id = Some (CommandEntryDir d) -> admitted id d r st ->
  admitted id d' r st' -> directory_kept d d' -> status_after st st' ->
  let j' := <[id := CommandEntryDir d']> (js_journal sys) in
  system_ok {| js_journal := j'; js_flights := js_flights sys |} /\ commands_kept (js_journal sys) j'.
Proof.
  intros [Hc Hf] Hj Ha Ha' Hk Hs j'.
  pose proof (identifier_not_staging _ _ (am_id _ _ _ _ Ha)) as Hns. split; [constructor|]; simpl.
  - intros id0 e Hns0 [[<- <-]|[Hne He]]%lookup_insert_Some; [by exists d', r, st'|by eapply Hc].
  - intros name s Hn. destruct (Hf _ _ Hn) as [<- Hfl]. split; [done|].
    eapply in_flight_same; [|exact Hfl]. apply lookup_insert_ne. intros ->.
    by rewrite (if_staging _ _ Hfl) in Hns.
  - intros id0 d0 r0 st0 Hj0 Ha0. destruct (decide (id = id0)) as [<-|Hne].
    + rewrite Hj in Hj0. injection Hj0 as <-.
      destruct (admitted_functional _ _ _ _ _ _ Ha Ha0) as [-> ->].
      exists d', st'. unfold j'. by rewrite lookup_insert_eq.
    + exists d0, st0. unfold j'. rewrite lookup_insert_ne by done.
      split_and!; auto using directory_kept_refl, status_after_refl.
Qed.

Lemma real_directory_inv j id d : real_directory j id = Ok d ->
  j !! id = Some (CommandEntryDir d) /\ validate_identifier "command ID" id = Ok tt.
Proof.
  unfold real_directory. intros Hr. apply bind_Ok in Hr as ([]&Hid&Hr).
  destruct (j !! id) as [[d0|]|]; by simplify_eq.
Qed.

Lemma system_command sys id d : system_ok sys -> real_directory (js_journal sys) id = Ok d ->
  js_journal sys !! id = Some (CommandEntryDir d) /\ exists r st, admitted id d r st.
Proof.
  intros Hok [Hj Hid]%real_directory_inv. split; [done|].
  destruct (so_commands _ Hok id _ (identifier_not_staging _ _ Hid) Hj) as (d0&r&st&[= <-]&Ha). eauto.
Qed.

(** Preparing keeps the commands and the flights. *)
Lemma prepare_step {T} `{ToJson T} sys metadata (p : T) files now updated_now uuid j' res :
  system_ok sys ->
  admit_prepare metadata p files now updated_now uuid (js_journal sys) = (j', res) ->
  (forall id, is_staging id = false -> j' !! id = js_journal sys !! id) /\
  system_ok {| js_journal := j';
    js_flights := match res with
                  | Ok (Staged s) => <[sa_staging s := s]> (js_flights sys)
                  | _ => js_flights sys
                  end |}.
Proof.
  intros [Hc Hf] [[-> Hns]|(name&e&Hst&Hn&->&Hs)]%admit_prepare_cases.
  { split; [done|]. destruct res as [[a|s]|]; [by constructor| |by constructor]. by destruct (Hns s). }
  assert (forall id, is_staging id = false ->
    <[name := e]> (js_journal sys) !! id = js_journal sys !! id) as Hsame.
  { intros id Hid. apply lookup_insert_ne. intros ->. by rewrite Hid in Hst. }
  assert (forall s, in_flight (js_journal sys) s -> in_flight (<[name := e]> (js_journal sys)) s) as Hfl.
  { intros s Hi. eapply in_flight_same; [|exact Hi]. apply lookup_insert_ne. intros ->.
    destruct (if_directory _ _ Hi) as (?&?&_&_&?). congruence. }
  split; [done|]. constructor; simpl.
  - intros id e0 Hid. rewrite Hsame by done. by apply Hc.
  - intros n s. assert (js_flights sys !! n = Some s -> sa_staging s = n /\
      in_flight (<[name := e]> (js_journal sys)) s) as Hold.
    { intros [<- Hi]%Hf. split; [done|by apply Hfl]. }
    destruct res as [[a|s']|]; [done| |done].
    intros [[<- <-]|[_ Hold']]%lookup_insert_Some; [|by apply Hold].
    by destruct (Hs s' eq_refl) as (_&Hi&_).
Qed.

(** Publishing admits a free identifier or looks the command up. *)
Lemma publish_step sys s j' res : system_ok sys -> js_flights sys !! sa_staging s = Some s ->
  readable decode_record (sa_record s) -> readable decode_status (sa_initial s) ->
  admit_publish s (js_journal sys) = (j', res) ->
  let id := cr_command_id (sa_record s) in
  system_ok {| js_journal := j'; js_flights := delete (sa_staging s) (js_flights sys) |} /\
  ((js_journal sys !! id = None /\
    res = Ok {| ad_record := sa_record s; ad_status := sa_initial s; ad_existing := false |} /\
    (exists d, admitted id d (sa_record s) (sa_initial s) /\ j' !! id = Some (CommandEntryDir d) /\
       cd_payload d = FileBytes (sa_payload_bytes s) /\ cd_inputs d = inputs_of (sa_files s)) /\
    forall id', is_staging id' = false -> id' <> id -> j' !! id' = js_journal sys !! id') \/
   (newly_admitted res = None /\
    (exists a, res = read_existing j' (sa_record s) (sa_payload_bytes s) (sa_files s) /\
       js_journal sys !! id = Some a) /\
    forall id', is_staging id' = false -> j' !! id' = js_journal sys !! id')).
Proof.
  intros [Hc Hf] Hs Hr Hi Hp id. destruct (Hf _ _ Hs) as [_ Hfl].
  pose proof (identifier_not_staging _ _ (if_id _ _ Hfl)) as Hns. fold id in Hns.
  assert (forall id', is_staging id' = false ->
    delete (sa_staging s) (js_journal sys) !! id' = js_journal sys !! id') as Hdel.
  { intros id' Hid. apply lookup_delete_ne. intros <-. by rewrite (if_staging _ _ Hfl) in Hid. }
  assert (forall n s', delete (sa_staging s) (js_flights sys) !! n = Some s' ->
    forall j2, (forall n', n' <> id -> n' <> sa_staging s -> j2 !! n' = js_journal sys !! n') ->
    sa_staging s' = n /\ in_flight j2 s') as Hflights.
  { intros n s' [Hne Hs']%lookup_delete_Some j2 Hj2. destruct (Hf _ _ Hs') as [<- Hfl'].
    split; [done|]. eapply in_flight_same; [|exact Hfl']. apply Hj2; [|done].
    intros E. rewrite <- E, (if_staging _ _ Hfl') in Hns. done. }
  destruct (admit_publish_cases _ _ Hfl Hr Hi) as [(Hnone&d&Ha&Hpay&Hin&Heq)|(Hsome&Heq)].
  { intros d Hd. fold id in Hd. destruct (Hc id _ Hns Hd) as (d0&r0&st0&[= <-]&Ha).
    by eapply admitted_nonempty. }
  - rewrite Heq in Hp. injection Hp as <- <-. fold id in Hnone, Ha |- *. split; [constructor|left]; simpl.
    + intros id' e Hid' [[<- <-]|[Hne He]]%lookup_insert_Some; [by exists d, (sa_record s), (sa_initial s)|].
      rewrite Hdel in He by done. by apply Hc.
    + intros n s' Hs'. eapply Hflights; [exact Hs'|]. intros n' Hn1 Hn2.
      by rewrite lookup_insert_ne, lookup_delete_ne by congruence.
    + split_and!; [done|done| |].
      * exists d. by rewrite lookup_insert_eq.
      * intros id' Hid' Hne. by rewrite lookup_insert_ne, Hdel by congruence.
  - rewrite Heq in Hp. injection Hp as <- Hres. fold id in Hsome. split; [constructor|right]; simpl.
    + intros id' e Hid'. rewrite Hdel by done. by apply Hc.
    + intros n s' Hs'. eapply Hflights; [exact Hs'|]. intros n' _ Hn2. by rewrite lookup_delete_ne by congruence.
    + destruct (js_journal sys !! id) as [e|] eqn:He; [|done]. split_and!; [|eauto|done].
      rewrite <- Hres. unfold newly_admitted, read_existing.
      destruct (load _ _) as [[r st]|]; simpl; [|done]. destruct (negb _); simpl; [done|].
      destruct (real_directory _ _); simpl; [|done]. destruct (read_bounded _ _ _); simpl; [|done].
      destruct (negb _); simpl; [done|]. destruct (observed_names _); simpl; [|done].
      destruct (negb _); simpl; [done|]. by destruct (for_each _ _).
Qed.

Lemma transition_step sys id next candidate rejection now j' res : system_ok sys ->
  transition id next candidate rejection now (js_journal sys) = (j', res) ->
  (forall st, res = Ok st -> readable decode_status st) ->
  system_ok {| js_journal := j'; js_flights := js_flights sys |} /\ commands_kept (js_journal sys) j'.
Proof.
  intros Hok Ht Hr. destruct res as [st|e].
  2: { apply transition_Err in Ht as ->. split; [|apply commands_kept_refl]. by destruct sys. }
  apply transition_Ok in Ht as (d&r&current&Hd&Hl&[(->&->&_)|(Hn&bytes&Hb&->)]).
  { split; [|apply commands_kept_refl]. by destruct sys. }
  destruct (system_command _ _ _ Hok Hd) as (Hj&r0&st0&Ha).
  pose proof (am_load _ _ _ _ Ha) as Hl'. rewrite Hl in Hl'. injection Hl' as <- <-.
  apply next_status_Some in Hn as (_&_&_&Hst&Hafter&Hsc&Hid).
  eapply system_update; [done|exact Hj|exact Ha| |by constructor|exact Hafter].
  eapply admitted_set_status; [exact Ha|exact Hst|exact Hsc|exact Hid|by apply Hr|exact Hb].
Qed.

Lemma operation_step {T} `{ToJson T} `{EqDecision T} sys (decode : list Z -> result T)
    id operation v j' res : system_ok sys ->
  write_operation_once decode id operation v (js_journal sys) = (j', res) ->
  system_ok {| js_journal := j'; js_flights := js_flights sys |} /\ commands_kept (js_journal sys) j'.
Proof.
  intros Hok [->|(d&d'&Hd&Hk&Hs&Ho&->)]%write_operation_cases.
  { split; [|apply commands_kept_refl]. by destruct sys. }
  destruct (system_command _ _ _ Hok Hd) as (Hj&r&st&Ha).
  eapply system_update; [done|exact Hj|exact Ha| |exact Hk|apply status_after_refl].
  destruct Ha as [Hid Hl Hst Hp Hi _], Hk as [Hk1 Hk2 Hk3 _]. constructor; try done.
  - apply load_directory_Ok. rewrite Hk1, Hs. by apply load_directory_Ok.
  - by rewrite Hk2.
  - by rewrite Hk3.
Qed.

(** What one step does: it keeps everything, and admits as new only a free
    identifier, which then holds the command. *)
Lemma system_step_ok sys ev sys' : system_ok sys -> system_step sys ev sys' ->
  system_ok sys' /\ commands_kept (js_journal sys) (js_journal sys') /\
  forall r, ev = Some r -> js_journal sys !! cr_command_id r = None /\
    exists d st, js_journal sys' !! cr_command_id r = Some (CommandEntryDir d) /\
      admitted (cr_command_id r) d r st.
Proof.
  intros Hok Hs.
  destruct Hs as [T J metadata p files now updated_now uuid j' res Hp|s j' res Hf Hr Hi Hp|name
    |id next candidate rejection now j' res Ht Hr|T J E decode id operation v j' res Hw]; simpl.
  - destruct (prepare_step _ _ _ _ _ _ _ _ _ Hok Hp) as [Hsame Hok'].
    split_and!; [done|by apply commands_kept_same|done].
  - destruct (publish_step _ _ _ _ Hok Hf Hr Hi Hp) as [Hok' [(Hnone&->&(d&Ha&Hj&_)&Hsame)|(Hn&_&Hsame)]].
    + split_and!; [done| |].
      * intros id d0 r0 st0 Hj0 Ha0. exists d0, st0.
        rewrite Hsame; [|by eapply identifier_not_staging, am_id|congruence].
        split_and!; auto using directory_kept_refl, status_after_refl.
      * intros r [= <-]. eauto.
    + split_and!; [done|by apply commands_kept_same|]. by rewrite Hn.
  - split_and!; [|apply commands_kept_refl|done]. destruct Hok as [Hc Hf]. constructor; simpl; [done|].
    intros n s [_ Hs]%lookup_delete_Some. by apply Hf.
  - destruct (transition_step _ _ _ _ _ _ _ _ Hok Ht Hr). by split_and!.
  - destruct (operation_step _ _ _ _ _ _ _ Hok Hw). by split_and!.
Qed.

Lemma new_system_ok : system_ok new_system.
Proof. constructor; intros ??; simpl; [intros _|]; by rewrite lookup_empty. Qed.

Lemma system_run_ok sys evs sys' : system_ok sys -> system_run sys evs sys' ->
  system_ok sys' /\ commands_kept (js_journal sys) (js_journal sys').
Proof.
  intros Hok Hr. induction Hr as [sys|sys ev sys1 evs sys2 Hs _ IH]; [by split; [|apply commands_kept_refl]|].
  destruct (system_step_ok _ _ _ Hok Hs) as (Hok1&Hk1&_). destruct (IH Hok1) as [Hok2 Hk2].
  split; [done|]. by eapply commands_kept_trans.
Qed.

Lemma journal_reachable_ok sys : journal_reachable sys -> system_ok sys.
Proof. intros [evs Hr]. by eapply system_run_ok in Hr as [? _]; [|apply new_system_ok]. Qed.

(** ** The properties *)

(** [C31] A command is admitted once: over any interleaving of admissions,
    transitions, recorded operations and crashes, no two admissions of an
    identifier are both new, and every command admitted as new is still there with
    the record it was admitted with. *)
Theorem admitted_exactly_once evs sys : system_run new_system evs sys ->
  NoDup (cr_command_id <$> evs) /\
  Forall (λ r, exists st, load (js_journal sys) (cr_command_id r) = Ok (r, st)) evs.
Proof.
  assert (forall sys0, system_ok sys0 -> system_run sys0 evs sys ->
    NoDup (cr_command_id <$> evs) /\
    Forall (λ r, js_journal sys0 !! cr_command_id r = None /\
      exists st, load (js_journal sys) (cr_command_id r) = Ok (r, st)) evs) as Hgen.
  2: { intros Hr. destruct (Hgen _ new_system_ok Hr) as [Hn Hf]. split; [done|].
       eapply Forall_impl; [exact Hf|]. by intros r [_ ?]. }
  intros sys0 Hok Hr. induction Hr as [sys0|sys0 ev sys1 evs sys2 Hs Hr IH]; [by split; constructor|].
  destruct (system_step_ok _ _ _ Hok Hs) as (Hok1&Hk1&Hnew). destruct (IH Hok1) as [Hn Hf].
  assert (Forall (λ r, js_journal sys0 !! cr_command_id r = None /\
    exists st, load (js_journal sys2) (cr_command_id r) = Ok (r, st)) evs) as Hf0.
  { eapply Forall_impl; [exact Hf|]. intros r [Hnone Hl]. split; [|done].
    destruct (js_journal sys0 !! cr_command_id r) as [e|] eqn:He; [|done].
    destruct (is_staging (cr_command_id r)) eqn:Hst.
    - destruct Hl as [st Hl]. unfold load in Hl. apply bind_Ok in Hl as (d&Hd&_).
      apply real_directory_inv in Hd as [_ Hid]. apply identifier_not_staging in Hid. congruence.
    - destruct (so_commands _ Hok _ _ Hst He) as (d&r0&st0&->&Ha).
      destruct (Hk1 _ _ _ _ He Ha) as (?&?&?&_). congruence. }
  destruct ev as [r|]; simpl; [|done].
  destruct (Hnew r eq_refl) as (Hnone&d&st&Hj&Ha). split; constructor; try done.
  - intros (r'&Hid&Hin)%list_elem_of_fmap. rewrite Forall_forall in Hf.
    destruct (Hf _ Hin) as [Hnone' _]. rewrite <- Hid in Hnone'. congruence.
  - split; [done|]. destruct (system_run_ok _ _ _ Hok1 Hr) as [_ Hk].
    destruct (Hk _ _ _ _ Hj Ha) as (d'&st'&Hj'&Ha'&_&_). exists st'. by eapply load_Ok.
Qed.

(** An identifier is bound to the command it first admitted: whatever
    happens afterwards, its record and payload stay as admitted; admitting the same
    command again, at any time, finds it with its present status and changes
    nothing, and admitting anything else under the identifier is a conflict. *)
Theorem admission_binds {T} `{ToJson T} sys s j1 a evs sys2 metadata (p : T) files now updated_now uuid r bytes :
  journal_reachable sys -> js_flights sys !! sa_staging s = Some s ->
  readable decode_record (sa_record s) -> readable decode_status (sa_initial s) ->
  admit_publish s (js_journal sys) = (j1, Ok a) -> ad_existing a = false ->
  system_run {| js_journal := j1; js_flights := delete (sa_staging s) (js_flights sys) |} evs sys2 ->
  admission_record metadata p files now = Ok (r, bytes) ->
  cr_command_id r = cr_command_id (sa_record s) ->
  let j := js_journal sys2 in
  let same := identity_of r = identity_of (sa_record s) /\ bytes = sa_payload_bytes s /\
              files_map files = files_map (sa_files s) in
  exists st, load j (cr_command_id r) = Ok (sa_record s, st) /\ status_after (sa_initial s) st /\
    payload (λ b, Ok b) j (cr_command_id r) = Ok (sa_payload_bytes s) /\
    (same -> admit_with_files metadata p files now updated_now uuid j
               = (j, Ok {| ad_record := sa_record s; ad_status := st; ad_existing := true |})) /\
    (~ same -> exists m, admit_with_files metadata p files now updated_now uuid j
               = (j, Err (JournalConflict m))).
Proof.
  intros Hok%journal_reachable_ok Hs Hr Hi Hp Hnew Hrun Hrec Hid j same.
  destruct (publish_step _ _ _ _ Hok Hs Hr Hi Hp)
    as [Hok1 [(_&_&(d&Ha&Hj&Hpay&Hin)&_)|(Hn&_&_)]].
  2: { simpl in Hn. by rewrite Hnew in Hn. }
  destruct (system_run_ok _ _ _ Hok1 Hrun) as [_ Hk].
  destruct (Hk _ _ _ _ Hj Ha) as (d2&st&Hj2&Ha2&[_ Hk2 Hk3 _]&Hst). rewrite <- Hid in Hj2, Ha2. fold j in Hj2.
  destruct (so_flights _ Hok _ _ Hs) as [_ Hfl].
  apply admission_record_Ok in Hrec as Hrec'. destruct Hrec' as (_&_&_&Hf&_).
  exists st. split; [by eapply load_Ok|]. split; [done|]. split.
  { unfold payload. rewrite (real_directory_Ok _ _ _ (am_id _ _ _ _ Ha2) Hj2). simpl.
    rewrite Hk2, Hpay. rewrite read_bounded_Ok by apply (if_bounded _ _ Hfl). simpl.
    rewrite (load_Ok _ _ _ _ _ Ha2 Hj2). simpl.
    by rewrite bool_decide_eq_true_2 by (symmetry; apply (if_digest _ _ Hfl)). }
  unfold admit_with_files, admit_prepare. rewrite Hrec, Hj2.
  destruct (read_existing_spec j (cr_command_id r) d2 (sa_record s) st r (sa_payload_bytes s) bytes
    (sa_files s) files) as [(E1&E2&E3&->)|(Hne&m&->)]; try done.
  - congruence.
  - congruence.
  - apply (if_files _ _ Hfl).
  - split; [done|]. intros Hns. destruct Hns. by split_and!.
  - split; [|by eexists]. intros (E1&E2&E3). destruct Hne as [Hne|[Hne|Hne]]; by destruct Hne.
Qed.

(** Statuses are disciplined: whatever happens, a command keeps its record,
    its status only moves along the state machine and not at all once terminal, a
    receipt once published never changes, a completed command has a receipt and a
    rejected one a reason. *)
Theorem statuses_disciplined sys evs sys' id r st : journal_reachable sys ->
  system_run sys evs sys' -> load (js_journal sys) id = Ok (r, st) ->
  exists st', load (js_journal sys') id = Ok (r, st') /\ status_after st st' /\ status_ok st'.
Proof.
  intros Hok%journal_reachable_ok Hrun Hl. pose proof Hl as Hl0. unfold load in Hl0.
  apply bind_Ok in Hl0 as (d&Hd&Hld). destruct (system_command _ _ _ Hok Hd) as (Hj&r0&st0&Ha).
  pose proof (am_load _ _ _ _ Ha) as Hl'. rewrite Hld in Hl'. injection Hl' as <- <-.
  destruct (system_run_ok _ _ _ Hok Hrun) as [_ Hk].
  destruct (Hk _ _ _ _ Hj Ha) as (d'&st'&Hj'&Ha'&_&Hs). exists st'.
  split_and!; [by eapply load_Ok|done|apply (am_status _ _ _ _ Ha')].
Qed.

(** The first result of an operation is its result: once recorded, recording
    it again reports it and changes nothing, and recording another is a conflict,
    whatever happens in between. *)
Theorem operation_result_stable {T} `{ToJson T} `{EqDecision T} (decode : list Z -> result T)
    sys id operation v j1 evs sys2 w :
  journal_reachable sys ->
  write_operation_once decode id operation v (js_journal sys) = (j1, Ok v) -> readable decode v ->
  system_run {| js_journal := j1; js_flights := js_flights sys |} evs sys2 ->
  is_ok (canonical_to_vec w) = true ->
  write_operation_once decode id operation w (js_journal sys2)
    = (js_journal sys2,
       if v == w then Ok v
       else Err (JournalConflict ("operation " +:+ operation +:+ " for command "
                   +:+ id +:+ " already has a different result"))).
Proof.
  intros Hok%journal_reachable_ok Hw Hr Hrun Hc.
  destruct (operation_step _ _ _ _ _ _ _ Hok Hw) as [Hok1 _].
  destruct (write_operation_records _ _ _ _ _ _ Hw Hr) as (Ho&d&Hd&Hrec).
  destruct (system_command _ _ _ Hok1 Hd) as (Hj&r&st&Ha).
  destruct (system_run_ok _ _ _ Hok1 Hrun) as [_ Hk].
  destruct (Hk _ _ _ _ Hj Ha) as (d2&st2&Hj2&Ha2&Hk2&_).
  apply (write_operation_again decode id operation v w d2); try done.
  - eapply real_directory_Ok; [apply (am_id _ _ _ _ Ha2)|done].
  - by eapply recorded_kept.
Qed.

(** ** Recovery *)

Lemma try_fold_append {E A B} (f : A -> Result E (list B)) (g : A -> list B) acc xs :
  (forall x, x ∈ xs -> f x = Ok (g x)) ->
  try_fold (λ acc x, more ← f x; Ok (acc ++ more)) acc xs = Ok (acc ++ concat (g <$> xs)).
Proof.
  revert acc. induction xs as [|x xs IH]; intros acc Hf; simpl; [by rewrite app_nil_r|].
  rewrite Hf by (apply elem_of_cons; by left). simpl. rewrite IH, app_assoc; [done|].
  intros y Hy. apply Hf, elem_of_cons. by right.
Qed.

Lemma NoDup_concat_keys {K B C} (key : C -> K) (f : K * B -> list C) (entries : list (K * B)) :
  NoDup entries.*1 ->
  (forall entry, entry ∈ entries ->
     (forall c, c ∈ f entry -> key c = entry.1) /\ NoDup (key <$> f entry)) ->
  NoDup (key <$> concat (f <$> entries)).
Proof.
  induction entries as [|entry entries IH]; simpl; [constructor|].
  intros [Hn Hnd]%NoDup_cons He. rewrite fmap_app. apply NoDup_app. split_and!.
  - apply He, elem_of_cons. by left.
  - intros x (c&->&Hc)%list_elem_of_fmap (c'&Hk&Hc')%list_elem_of_fmap. apply Hn.
    apply list_elem_of_In, in_concat in Hc' as (cs&Hcs&Hc'%list_elem_of_In).
    apply list_elem_of_In, list_elem_of_fmap in Hcs as (entry'&->&He').
    assert (key c = entry.1) as E1 by (eapply He; [apply elem_of_cons; by left|done]).
    assert (key c' = entry'.1) as E2 by (eapply He; [apply elem_of_cons; by right|done]).
    apply list_elem_of_fmap. exists entry'. split; [congruence|done].
  - apply IH; [done|]. intros e Hin. apply He, elem_of_cons. by right.
Qed.

(** The commands an entry contributes. *)
Definition unfinished (j : Journal) (entry : string * JournalEntry) : list CommandRecord :=
  match recoverable_entry j entry with Ok rs => rs | Err _ => [] end.

Lemma recoverable_entry_ok sys name e : system_ok sys -> js_journal sys !! name = Some e ->
  recoverable_entry (js_journal sys) (name, e) = Ok (unfinished (js_journal sys) (name, e)) /\
  forall r, r ∈ unfinished (js_journal sys) (name, e) <->
    is_staging name = false /\ exists st, load (js_journal sys) name = Ok (r, st) /\
      terminal (cs_state st) = false.
Proof.
  intros Hok He. unfold unfinished, recoverable_entry. destruct (is_staging name) eqn:Hns.
  { split; [done|]. intros r. split; [by intros ?%not_elem_of_nil|by intros [? _]]. }
  destruct (so_commands _ Hok _ _ Hns He) as (d&r0&st0&->&Ha).
  rewrite (load_Ok _ _ _ _ _ Ha He). simpl. split; [done|]. intros r.
  destruct (terminal (cs_state st0)) eqn:Ht.
  - split; [by intros ?%not_elem_of_nil|]. intros (_&st&[= <- <-]&Ht'). congruence.
  - rewrite list_elem_of_singleton. split; [intros ->; eauto|]. by intros (_&st&[= <- <-]&_).
Qed.

Lemma submitted_leb_total a b : submitted_leb a b = true \/ submitted_leb b a = true.
Proof. apply bytes_leb_total. Qed.

Lemma submitted_leb_trans a b c :
  submitted_leb a b = true -> submitted_leb b c = true -> submitted_leb a c = true.
Proof. apply bytes_leb_trans. Qed.

(** Recovery finds the unfinished commands: it always succeeds, ignores
    admissions that crashed before their rename, and returns exactly the commands
    whose status is not terminal, each once, in the order of their submission. *)
Theorem recoverable_spec sys : journal_reachable sys ->
  exists records, recoverable (js_journal sys) = Ok records /\
    StronglySorted (λ a b, submitted_leb a b = true) records /\
    NoDup (cr_command_id <$> records) /\
    forall r, r ∈ records <-> exists st, load (js_journal sys) (cr_command_id r) = Ok (r, st) /\
      terminal (cs_state st) = false.
Proof.
  intros Hok%journal_reachable_ok. set (j := js_journal sys).
  assert (forall entry, entry ∈ map_to_list j -> recoverable_entry j entry = Ok (unfinished j entry) /\
    forall r, r ∈ unfinished j entry <-> is_staging entry.1 = false /\ exists st,
      load j entry.1 = Ok (r, st) /\ terminal (cs_state st) = false) as Hentries.
  { intros [name e] He%elem_of_map_to_list. by apply recoverable_entry_ok. }
  set (all := concat (unfinished j <$> map_to_list j)).
  assert (forall name r st, load j name = Ok (r, st) -> cr_command_id r = name /\
    is_staging name = false /\ exists e, (name, e) ∈ map_to_list j) as Hload.
  { intros name r st Hl. unfold load in Hl. apply bind_Ok in Hl as (d&Hd&Hl).
    apply real_directory_inv in Hd as [Hj Hid].
    apply load_directory_Ok in Hl as (_&_&Hv). apply validate_loaded_Ok in Hv as (_&_&Hv&_).
    split_and!; [done|by eapply identifier_not_staging|]. eexists. by apply elem_of_map_to_list. }
  assert (forall r, r ∈ all <-> exists st, load j (cr_command_id r) = Ok (r, st) /\
    terminal (cs_state st) = false) as Hall.
  { intros r. unfold all. rewrite list_elem_of_In, in_concat. setoid_rewrite <- list_elem_of_In. split.
    - intros (rs&(entry&->&He)%list_elem_of_fmap&Hr). destruct (Hentries _ He) as [_ Hu].
      apply Hu in Hr as (_&st&Hl&Ht). destruct (Hload _ _ _ Hl) as (->&_). eauto.
    - intros (st&Hl&Ht). destruct (Hload _ _ _ Hl) as (_&Hns&e&He).
      exists (unfinished j (cr_command_id r, e)). split.
      + apply list_elem_of_fmap. by exists (cr_command_id r, e).
      + apply (Hentries _ He). eauto. }
  exists (stable_sort submitted_leb all). split_and!.
  - unfold recoverable. rewrite (try_fold_append _ (unfinished j)); [done|].
    intros entry He. by apply Hentries.
  - apply stable_sort_sorted; [apply submitted_leb_total|apply submitted_leb_trans].
  - rewrite stable_sort_perm. unfold all.
    assert (NoDup (map_to_list j).*1) as Hnd by apply NoDup_fst_map_to_list.
    apply NoDup_concat_keys; [done|]. intros entry He. destruct (Hentries _ He) as [Heq Hu]. split.
    + intros r Hr. apply Hu in Hr as (_&st&Hl&_). by apply Hload in Hl as (->&_).
    + destruct entry as [name e]. unfold unfinished, recoverable_entry in *.
      destruct (is_staging name); [constructor|]. destruct e; [|constructor].
      destruct (load j name) as [[r st]|]; simpl; [|constructor].
      destruct (terminal _); [constructor|apply NoDup_singleton].
  - intros r. rewrite stable_sort_perm. apply Hall.
Qed.
End laws.
