(* ===== verification/ApplicationStory.v ===== *)
(** A concrete entitlement and a concrete journal of commands: the witnesses of
    the theorems about the application crate. *)
From S2P Require Import Prelude Text Digest Records Clock Entitlement EntitlementLaws LocalCommand CommandJournal CommandJournalLaws.

(** * A concrete entitlement

    One installation from set-up over five successful days to TOHSENO Pro and its
    lapse, on the toy platform with a toy calendar and a reader of the states it
    writes. It shows that the hypotheses of the properties can hold. *)

#[local] Existing Instance Toy.platform.

(** Dates of one January: day [n] is 2026-01-0[n]. *)
Definition january (n : Z) : string := "2026-01-0" +:+ pretty n.
Definition midnight (n : Z) : string := january n +:+ "T00:00:00Z".
Definition moment (n : Z) : OffsetDateTime :=
  default {| odt_utc := true; odt_nanosecond := 0; odt_unix_timestamp := 0 |} (Toy.rfc3339 (midnight n)).

#[local] Instance calendar : TimeFormat := {|
  format_rfc3339 t := Some (midnight (odt_unix_timestamp t / 86400 mod 31));
  parse_iso_date s := let bs := bytes_of s in
    if (length bs =? 10)%nat && bool_decide (take 8 bs = bytes_of "2026-01-")
    then Some (Toy.field bs 8 2) else None;
  display_date := january |}.

Definition evidence (n : Z) : SuccessfulDayEvidence :=
  {| sd_local_date := january n; sd_command_id := "c" +:+ pretty n; sd_execution_id := "x" +:+ pretty n;
     sd_accepted_version_id := "v" +:+ pretty n; sd_accepted_at := midnight n |}.

Definition receipt (plan : SubscriptionPlan) (revision paid : Z) (digest : string)
    : VerifiedSubscription :=
  {| vsu_entitlement_id := "ent-1"; vsu_plan := plan; vsu_issued_at := midnight 5;
     vsu_paid_through := midnight paid; vsu_cancellation_at_period_end := false;
     vsu_provider_revision := revision; vsu_receipt_digest := digest |}.
Definition digest_a : string := "aaaaaaaaaaaaaaaaaaaaaaaaaaaaaaaaaaaaaaaaaaaaaaaaaaaaaaaaaaaaaaaa".
Definition digest_b : string := "bbbbbbbbbbbbbbbbbbbbbbbbbbbbbbbbbbbbbbbbbbbbbbbbbbbbbbbbbbbbbbbb".

Definition record_day (n : Z) : Operation := OpRecordDay (evidence n) (moment n) n.

(** Set-up, five days (one repeated), a month, its lapse and a year. *)
Definition story : list Operation :=
  [OpGenesis None (moment 1) 1; record_day 1; record_day 2; record_day 2; record_day 3;
   record_day 4; record_day 5; OpInstall (receipt Monthly 1 7 digest_a) (moment 5) 5;
   OpStatus (moment 7) 7; OpInstall (receipt Yearly 2 9 digest_b) (moment 7) 7].

Definition states : list EntitlementState := run_states story default_state.
Definition story_state (n : nat) : EntitlementState := default default_state (states !! n).

Example story_phases : en_phase <$> states =
  [TrialActive; TrialActive; TrialActive; TrialActive; TrialActive; TrialActive; TrialQualified;
   ProMonthly; ProLapsed; ProYearly].
Proof. vm_compute. reflexivity. Qed.

(** A reader that knows the states of the story by their bytes. *)
#[local] Instance reader : StateReader := {|
  decode_state bytes :=
    ok_or "unknown" (find (λ s, match canonical_to_vec s with
                                | Ok b => bool_decide (b = bytes) | Err _ => false end)
                          (default_state :: states)) |}.

Definition file_of (n : nat) : StateFile :=
  match write_locked (story_state n) with Ok f => f | Err _ => NoFile end.

Lemma story_entitled n : n < 10 -> entitled (story_state n).
Proof.
  intros Hn. pose proof (run_states_entitled story default_state (rtc_refl _ _)) as Hf.
  destruct (lookup_lt_is_Some_2 states n) as [s Hs]; [by vm_compute (length states)|].
  unfold story_state. rewrite Hs. exact (proj1 (Forall_lookup _ _) Hf n s Hs).
Defined.

(** The steps of the story between two of its states. *)
Lemma story_writes n op :
  op_step op (story_state n) = Ok (written (story_state (S n))) ->
  writes (story_state n) (story_state (S n)).
Proof. intros Hop. by exists op. Defined.

Lemma pro_requires_five_days_witness :
  en_phase (story_state 8) = ProLapsed /\ length (en_successful_days (story_state 8)) = 5.
Proof.
  split; [vm_compute; reflexivity|].
  apply (pro_requires_five_days (story_state 8)).
  - apply story_entitled. lia.
  - right. vm_compute. reflexivity.
Defined.

Lemma subscription_revision_advances_witness :
  exists v', en_subscription (story_state 9) = Some v' /\
    (v' = receipt Monthly 1 7 digest_a \/ (1 < vsu_provider_revision v')%Z).
Proof.
  apply (subscription_revision_advances (story_state 7) (story_state 9) (receipt Monthly 1 7 digest_a)).
  - eapply rtc_l; [apply (story_writes 7 (OpStatus (moment 7) 7)); vm_compute; reflexivity|].
    eapply rtc_l; [|apply rtc_refl].
    apply (story_writes 8 (OpInstall (receipt Yearly 2 9 digest_b) (moment 7) 7)). vm_compute. reflexivity.
  - vm_compute. reflexivity.
Defined.

Lemma phases_progress_witness :
  match en_phase (story_state 5), en_phase (story_state 6) with
  | TrialActive, (TrialActive | TrialQualified | TrialExpired) => True
  | _, _ => False
  end.
Proof.
  pose proof (phases_progress (story_state 5) (story_state 6)) as Hp.
  assert (en_phase (story_state 5) = TrialActive) as E5 by (vm_compute; reflexivity).
  rewrite E5 in Hp |- *. apply Hp.
  - apply story_entitled. lia.
  - apply (story_writes 5 (record_day 5)). vm_compute. reflexivity.
Defined.

Lemma successful_day_recorded_witness :
  exists s', record_day_step (evidence 5) (moment 5) 5 (story_state 5) = Ok (written s') /\
    Permutation (en_successful_days s') (evidence 5 :: en_successful_days (story_state 5)) /\
    (en_phase s' = TrialQualified <-> length (en_successful_days (story_state 5)) = 4) /\
    (en_phase s' = TrialActive <-> length (en_successful_days (story_state 5)) < 4).
Proof.
  apply (successful_day_recorded (story_state 5) (evidence 5) (moment 5) 5 (january 1) 1).
  - apply story_entitled. lia.
  - vm_compute. reflexivity.
  - vm_compute. reflexivity.
  - vm_compute. reflexivity.
  - unfold TRIAL_CALENDAR_DAYS. lia.
  - vm_compute. reflexivity.
  - vm_compute. reflexivity.
  - vm_compute. reflexivity.
Defined.

Lemma mutations_need_entitlement_witness :
  file_of 3 <> NoFile /\ exists s, read_locked (file_of 3) = Ok s /\ file_of 3 = file_of 3 /\
    ((en_phase s = TrialActive /\ exists text g, en_genesis_local_date s = Some text /\
        parse_iso_date text = Some g /\ (4 < g + TRIAL_CALENDAR_DAYS)%Z) \/
     ((en_phase s = ProMonthly \/ en_phase s = ProYearly) /\ exists v p,
        en_subscription s = Some v /\ parse_rfc3339 (vsu_paid_through v) = Some p /\
        (instant (moment 4) < instant p)%Z)).
Proof.
  split; [intros E; by vm_compute in E|].
  apply (mutations_need_entitlement (moment 4) 4 (file_of 3) (file_of 3)). vm_compute. reflexivity.
Defined.

(** The contract's own account of the story. *)
Example story_contract :
  (λ x : Account * Answer, (standing x.1, size (ac_days x.1), Z.to_nat (ac_revision x.1))) <$> contract_run story new_account =
  [(TrialActive, 0, 2); (TrialActive, 1, 3); (TrialActive, 2, 4); (TrialActive, 2, 4); (TrialActive, 3, 5);
   (TrialActive, 4, 6); (TrialQualified, 5, 7); (ProMonthly, 5, 8); (ProLapsed, 5, 9); (ProYearly, 5, 10)].
Proof. vm_compute. reflexivity. Qed.
Lemma entitlement_store_refines_witness :
  let f := match write_locked default_state with Ok f => f | Err _ => NoFile end in
  answer_of <$> (file_run story f).*2 = (contract_run story new_account).*2.
Proof.
  intros f.
  assert (forallb (λ a, match canonical_to_vec (state_of a) with
    | Ok b => bool_decide (decode_state b = Ok (state_of a)) | Err _ => true end)
    (new_account :: (contract_run story new_account).*1) = true) as Hb by (vm_compute; reflexivity).
  rewrite forallb_forall in Hb.
  assert (forall a, a ∈ new_account :: (contract_run story new_account).*1 -> reads_back a) as Hr.
  { intros a Ha. specialize (Hb a (proj1 (list_elem_of_In _ _) Ha)). unfold reads_back.
    destruct (canonical_to_vec (state_of a)); [|exact I]. apply bool_decide_eq_true in Hb. exact Hb. }
  assert (open_entitlement NoFile = (f, Ok tt)) as Ho by (vm_compute; reflexivity).
  exact (proj1 (proj2 (proj2 entitlement_store_refines) f story Ho (Hr new_account ltac:(left))
    (proj2 (Forall_forall _ _) (λ a Ha, Hr a (list_elem_of_further _ _ _ Ha))))).
Defined.

(** * A concrete command journal

    Two processes admit one command at once and one more is left staged by a
    crash; the command then moves to its rejection. On the toy platform, with a
    reader of the records the story writes: the hypotheses of the journal's
    properties can hold. *)

#[local] Existing Instance Toy.platform.

Definition command_meta (id : string) : AdmissionMetadata :=
  {| md_command_id := id; md_command_kind := ShotCreate; md_origin := FromCli;
     md_origin_device_id := None; md_workspace_id := "ws"; md_shot_id := None;
     md_base_expression_id := None; md_base_version_id := None;
     md_submitted_at := Some "2026-01-01T00:00:01Z" |}.
Definition intent : string := "small tool".
Definition picture : list (string * list Z) := [("one.png", [1; 2; 3]%Z)].

Definition the_record (id : string) : CommandRecord :=
  {| cr_schema := COMMAND_SCHEMA; cr_command_id := id; cr_command_kind := ShotCreate;
     cr_origin := FromCli; cr_origin_device_id := None; cr_workspace_id := "ws";
     cr_shot_id := None; cr_base_expression_id := None; cr_base_version_id := None;
     cr_submitted_at := "2026-01-01T00:00:01Z";
     cr_payload_digest := sha256 (Toy.print (JStr intent)) |}.
Definition status_at_state (s : CommandState) (now : string) (reason : option string) : CommandStatus :=
  {| cs_schema := COMMAND_STATUS_SCHEMA; cs_command_id := "cmd"; cs_state := s;
     cs_updated_at := now; cs_result := None; cs_rejection := reason |}.
Definition rejected : CommandStatus := status_at_state Rejected "t3" (Some "too big").

(** A reader that knows the records of the story by their bytes. *)
Definition known {A} `{ToJson A} (values : list A) (bytes : list Z) : result A :=
  ok_or (CanonicalJson "unknown") (List.find (λ v, match canonical_to_vec v with
    | Ok b => bool_decide (b = bytes) | Err _ => false end) values).
#[local] Instance story_reader : JournalReader := {|
  decode_record := known [the_record "cmd"; the_record "lost"];
  decode_status := known [initial_status "cmd" "t1"; initial_status "cmd" "t2";
                          initial_status "lost" "t1"; rejected];
  display_path p := p |}.
Definition decode_note : list Z -> result string := known ["done"; "redone"].

(** The staged admissions of the three processes. *)
Definition flight (id now uuid : string) (j : Journal) : Journal * option StagedAdmission :=
  match admit_prepare (command_meta id) intent picture "t0" now uuid j with
  | (j, Ok (Staged s)) => (j, Some s)
  | (j, _) => (j, None)
  end.
Definition no_flight : StagedAdmission :=
  {| sa_staging := ""; sa_record := the_record ""; sa_payload_bytes := []; sa_files := [];
     sa_initial := initial_status "" "" |}.
Definition f1 := flight "cmd" "t1" "u1" ∅.
Definition f2 := flight "cmd" "t2" "u2" (fst f1).
Definition f3 := flight "lost" "t1" "u3" (fst f2).
Definition s1 : StagedAdmission := default no_flight (snd f1).
Definition s2 : StagedAdmission := default no_flight (snd f2).
Definition s3 : StagedAdmission := default no_flight (snd f3).

Definition sys3 : JournalSystem := {| js_journal := fst f3;
  js_flights := <[sa_staging s3 := s3]> (<[sa_staging s2 := s2]> (<[sa_staging s1 := s1]> ∅)) |}.
Definition sys4 : JournalSystem := {| js_journal := (admit_publish s1 (js_journal sys3)).1;
  js_flights := delete (sa_staging s1) (js_flights sys3) |}.
Definition sys5 : JournalSystem := {| js_journal := (admit_publish s2 (js_journal sys4)).1;
  js_flights := delete (sa_staging s2) (js_flights sys4) |}.
Definition sys6 : JournalSystem := {| js_journal := js_journal sys5;
  js_flights := delete (sa_staging s3) (js_flights sys5) |}.
Definition reject (j : Journal) := transition "cmd" Rejected None (Some "too big") "t3" j.
Definition sys7 : JournalSystem := {| js_journal := (reject (js_journal sys6)).1;
  js_flights := js_flights sys6 |}.
Definition note (v : string) (j : Journal) := write_operation_once decode_note "cmd" "build" v j.
Definition sys8 : JournalSystem := {| js_journal := (note "done" (js_journal sys7)).1;
  js_flights := js_flights sys7 |}.

(** What the story computes to. *)
Example both_admissions :
  (admit_publish s1 (js_journal sys3)).2
    = Ok {| ad_record := the_record "cmd"; ad_status := initial_status "cmd" "t1"; ad_existing := false |} /\
  (admit_publish s2 (js_journal sys4)).2
    = Ok {| ad_record := the_record "cmd"; ad_status := initial_status "cmd" "t1"; ad_existing := true |}.
Proof. by vm_compute. Qed.
Example recovery : recoverable (js_journal sys6) = Ok [the_record "cmd"] /\
  recoverable (js_journal sys7) = Ok [].
Proof. by vm_compute. Qed.

(** [readable] by computation. *)
Definition readableb {A} `{ToJson A} `{EqDecision A} (decode : list Z -> result A) (v : A) : bool :=
  match canonical_to_vec v with
  | Ok b => (Z.of_nat (length b) <=? MAXIMUM_JSON_BYTES)%Z && bool_decide (decode b = Ok v)
  | Err _ => false
  end.
Lemma readableb_true {A} `{ToJson A} `{EqDecision A} (decode : list Z -> result A) v :
  readableb decode v = true -> readable decode v.
Proof.
  unfold readableb, readable. destruct (canonical_to_vec v) as [b|]; [|done].
  intros Hb. exists b. by res_inv.
Qed.

(** ** The run *)

Definition after_prepare (id now uuid : string) (sys : JournalSystem) : JournalSystem :=
  let r := admit_prepare (command_meta id) intent picture "t0" now uuid (js_journal sys) in
  {| js_journal := r.1;
     js_flights := match r.2 with
                   | Ok (Staged s) => <[sa_staging s := s]> (js_flights sys)
                   | _ => js_flights sys
                   end |}.

Lemma prepare_runs id now uuid sys evs sys' :
  system_run (after_prepare id now uuid sys) evs sys' -> system_run sys evs sys'.
Proof.
  intros Hr. eapply (run_step _ None); [|exact Hr]. unfold after_prepare.
  destruct (admit_prepare (command_meta id) intent picture "t0" now uuid (js_journal sys)) as [j' res] eqn:E.
  eapply do_prepare. exact E.
Defined.

Lemma publish_runs s sys evs sys' :
  js_flights sys !! sa_staging s = Some s ->
  readableb decode_record (sa_record s) && readableb decode_status (sa_initial s) = true ->
  system_run {| js_journal := (admit_publish s (js_journal sys)).1;
                js_flights := delete (sa_staging s) (js_flights sys) |} evs sys' ->
  system_run sys (option_list (newly_admitted (admit_publish s (js_journal sys)).2) ++ evs) sys'.
Proof.
  intros Hs [Hr Hi]%andb_true_iff Hrun. eapply run_step; [|exact Hrun].
  destruct (admit_publish s (js_journal sys)) as [j' res] eqn:E.
  eapply do_publish; [exact Hs|by apply readableb_true|by apply readableb_true|exact E].
Defined.

Lemma run_to_3 : system_run new_system [] sys3.
Proof.
  apply (prepare_runs "cmd" "t1" "u1"), (prepare_runs "cmd" "t2" "u2"), (prepare_runs "lost" "t1" "u3").
  assert (after_prepare "lost" "t1" "u3" (after_prepare "cmd" "t2" "u2"
    (after_prepare "cmd" "t1" "u1" new_system)) = sys3) as -> by (vm_compute; reflexivity).
  apply run_nil.
Defined.

Lemma run_3_to_6 : system_run sys3 [the_record "cmd"] sys6.
Proof.
  assert (option_list (newly_admitted (admit_publish s1 (js_journal sys3)).2) ++
          option_list (newly_admitted (admit_publish s2 (js_journal sys4)).2) ++ []
          = [the_record "cmd"]) as <- by (vm_compute; reflexivity).
  apply publish_runs; [vm_compute; reflexivity..|].
  apply (publish_runs s2 sys4); [vm_compute; reflexivity..|].
  apply (run_step _ None sys6 []); [apply (do_crash sys5 (sa_staging s3))|apply run_nil].
Defined.

Lemma run_6_to_8 : system_run sys6 [] sys8.
Proof.
  apply (run_step _ None sys7 []).
  { apply (do_transition sys6 "cmd" Rejected None (Some "too big") "t3" _ (Ok rejected)).
    - vm_compute. reflexivity.
    - intros st [= <-]. apply readableb_true. vm_compute. reflexivity. }
  apply (run_step _ None sys8 []); [|apply run_nil].
  apply (do_operation sys7 decode_note "cmd" "build" "done" _ (Ok "done")). vm_compute. reflexivity.
Defined.

Lemma run_app_nil sys evs sys1 evs' sys2 :
  system_run sys evs sys1 -> system_run sys1 evs' sys2 -> system_run sys (evs ++ evs') sys2.
Proof.
  induction 1 as [|sys ev sysa evs sysb Hs _ IH]; [done|]. intros Hr. rewrite <- app_assoc.
  eapply run_step; [exact Hs|by apply IH].
Qed.

Lemma run_to_6 : system_run new_system [the_record "cmd"] sys6.
Proof. exact (run_app_nil _ _ _ _ _ run_to_3 run_3_to_6). Qed.
Lemma run_to_8 : system_run new_system [the_record "cmd"] sys8.
Proof. exact (run_app_nil _ _ _ _ _ run_to_6 run_6_to_8). Qed.

(** ** The witnesses *)

Lemma admitted_exactly_once_witness :
  NoDup (cr_command_id <$> [the_record "cmd"]) /\
  Forall (λ r, exists st, load (js_journal sys8) (cr_command_id r) = Ok (r, st)) [the_record "cmd"].
Proof. apply (admitted_exactly_once [the_record "cmd"] sys8). apply run_to_8. Defined.

Lemma admission_binds_witness :
  exists st, load (js_journal sys8) "cmd" = Ok (the_record "cmd", st) /\
    admit_with_files (command_meta "cmd") intent picture "t9" "t9" "u9" (js_journal sys8)
      = (js_journal sys8, Ok {| ad_record := the_record "cmd"; ad_status := st; ad_existing := true |}).
Proof.
  assert (sa_record s1 = the_record "cmd") as Hrec by (vm_compute; reflexivity).
  destruct (admission_binds sys3 s1 (js_journal sys4)
    {| ad_record := the_record "cmd"; ad_status := initial_status "cmd" "t1"; ad_existing := false |}
    [] sys8 (command_meta "cmd") intent picture "t9" "t9" "u9" (the_record "cmd") (Toy.print (JStr intent)))
    as (st&Hl&_&_&Hsame&_).
  - exists []. exact run_to_3.
  - vm_compute. reflexivity.
  - apply readableb_true. vm_compute. reflexivity.
  - apply readableb_true. vm_compute. reflexivity.
  - vm_compute. reflexivity.
  - reflexivity.
  - assert ([] = option_list (newly_admitted (admit_publish s2 (js_journal sys4)).2) ++ [])
      as Hev by (vm_compute; reflexivity).
    change (system_run sys4 [] sys8). rewrite Hev.
    apply (publish_runs s2 sys4); [vm_compute; reflexivity..|].
    apply (run_step _ None sys6 []); [apply (do_crash sys5 (sa_staging s3))|exact run_6_to_8].
  - vm_compute. reflexivity.
  - vm_compute. reflexivity.
  - rewrite Hrec in Hl, Hsame. exists st. split; [exact Hl|]. apply Hsame.
    split; [reflexivity|split; vm_compute; reflexivity].
Defined.

Lemma statuses_disciplined_witness :
  exists st', load (js_journal sys8) "cmd" = Ok (the_record "cmd", st') /\
    status_after (initial_status "cmd" "t1") st' /\ status_ok st'.
Proof.
  apply (statuses_disciplined sys6 [] sys8 "cmd" (the_record "cmd") (initial_status "cmd" "t1")).
  - exists [the_record "cmd"]. exact run_to_6.
  - exact run_6_to_8.
  - vm_compute. reflexivity.
Defined.

Lemma operation_result_stable_witness :
  write_operation_once decode_note "cmd" "build" "redone" (js_journal sys8)
    = (js_journal sys8, if "done" == "redone" then Ok "done"
         else Err (JournalConflict ("operation " +:+ "build" +:+ " for command "
                     +:+ "cmd" +:+ " already has a different result"))) /\
  ("done" == "redone") = false.
Proof.
  split; [|reflexivity].
  apply (operation_result_stable decode_note sys7 "cmd" "build" "done" (js_journal sys8) [] sys8 "redone").
  - exists [the_record "cmd"]. apply (run_app_nil _ [the_record "cmd"] sys6 [] sys7 run_to_6).
    apply (run_step _ None sys7 []); [|apply run_nil].
    apply (do_transition sys6 "cmd" Rejected None (Some "too big") "t3" _ (Ok rejected)).
    + vm_compute. reflexivity.
    + intros st [= <-]. apply readableb_true. vm_compute. reflexivity.
  - vm_compute. reflexivity.
  - apply readableb_true. vm_compute. reflexivity.
  - apply run_nil.
  - vm_compute. reflexivity.
Defined.

Lemma recoverable_spec_witness :
  exists records, recoverable (js_journal sys6) = Ok records /\
    forall r, r ∈ records <-> exists st, load (js_journal sys6) (cr_command_id r) = Ok (r, st) /\
      terminal (cs_state st) = false.
Proof.
  destruct (recoverable_spec sys6) as (records&Hr&_&_&Hin).
  - exists [the_record "cmd"]. exact run_to_6.
  - exists records. split; [exact Hr|exact Hin].
Defined.
