(* ===== verification/CrashIo.v ===== *)
(** * Operations on a store that may crash

    An operation is a sequence of changes of a store, each one a system call; it
    is given how many it may make before it crashes, and is otherwise alone in
    the store. [Crashing S E] is the monad. [triple ok P m n Q I] says that from
    [P] the operation returns in [Q], and that [I] holds of whatever a crash or an
    error leaves; and, when [ok] holds, that it does not fail and that [n] changes
    are enough for it. [spec] asks nothing of errors and changes, [tspec]
    everything. *)
From S2P Require Import Prelude.

(** A name in a private store: a regular file, or something else. *)
Inductive PrivateFile := PrivateBytes (bytes : list Z) | SpecialFile.
#[export] Instance PrivateFile_eq_dec : EqDecision PrivateFile.
Proof. solve_decision. Defined.
(** The name of a directory: nothing, a directory, or something else. *)
Inductive DirKind := NoDir | RealDir | UnsafeDir.
#[export] Instance DirKind_eq_dec : EqDecision DirKind.
Proof. solve_decision. Defined.

(** What is left when an operation is over: it crashed, or it returned. *)
Inductive Outcome (E A : Type) := Crashed | Returned (r : Result E A).
Arguments Crashed {_ _}.
Arguments Returned {_ _} _.

(** A computation that may make so many changes before it crashes. *)
Definition Crashing (S E A : Type) : Type := nat -> S -> S * nat * Outcome E A.

Section operations.
Context {S E : Type}.
Abbreviation Io := (Crashing S E).

#[export] Instance Io_ret : MRet Io := λ A a t s, (s, t, Returned (Ok a)).
#[export] Instance Io_bind : MBind Io := λ A B f m t s,
  match m t s with
  | (s, t, Returned (Ok a)) => f a t s
  | (s, t, Returned (Err e)) => (s, t, Returned (Err e))
  | (s, t, Crashed) => (s, t, Crashed)
  end.
Definition lift {A} (r : Result E A) : Io A := λ t s, (s, t, Returned r).
Definition gets {A} (f : S -> Result E A) : Io A := λ t s, (s, t, Returned (f s)).
Definition change (f : S -> S) : Io unit := λ t s,
  match t with O => (s, O, Crashed) | Datatypes.S t => (f s, t, Returned (Ok tt)) end.
Definition io_when (b : bool) (m : Io unit) : Io unit := if b then m else lift (Ok tt).
(** A change that a crash may leave half done. *)
Definition change_partly (partly f : S -> S) : Io unit := λ t s,
  match t with O => (partly s, O, Crashed) | Datatypes.S t => (f s, t, Returned (Ok tt)) end.
(** [let result = body; cleanup; result]: a crash of the body is the end. *)
Definition and_then_always {A} (body : Io A) (cleanup : Io unit) : Io A := λ t s,
  match body t s with
  | (s, t, Crashed) => (s, t, Crashed)
  | (s, t, Returned r) =>
      match cleanup t s with
      | (s, t, Crashed) => (s, t, Crashed)
      | (s, t, Returned _) => (s, t, Returned r)
      end
  end.
(** The result of the body as a value: nothing is propagated but a crash. *)
Definition io_try {A} (body : Io A) : Io (Result E A) := λ t s,
  match body t s with
  | (s, t, Crashed) => (s, t, Crashed)
  | (s, t, Returned r) => (s, t, Returned (Ok r))
  end.
End operations.

(** [result.map_err(f)] *)
Definition io_map_err {S E F A} (f : E -> F) (m : Crashing S E A) : Crashing S F A := λ t s,
  match m t s with
  | (s, t, Crashed) => (s, t, Crashed)
  | (s, t, Returned r) => (s, t, Returned (map_err f r))
  end.

(** ** Specifications with a crash condition *)

Definition triple {S E A} (ok : Prop) (P : S -> Prop) (m : Crashing S E A) (n : nat) (Q : A -> S -> Prop)
    (I : S -> Prop) : Prop := forall t s, P s ->
  match m t s with
  | (s', t', Returned (Ok a)) => Q a s' /\ (ok -> t <= t' + n)
  | (s', _, Crashed) => I s' /\ (ok -> t < n)
  | (s', _, Returned (Err _)) => I s' /\ ~ ok
  end.

Section triples.
Context {S E : Type} {A B : Type} {ok : Prop}.
Abbreviation Io := (Crashing S E).
Abbreviation Pred := (S -> Prop).

Lemma triple_bind (P : Pred) (m : Io A) n (R : A -> Pred) (f : A -> Io B) k (Q : B -> Pred) (I : Pred) :
  triple ok P m n R I -> (forall a, triple ok (R a) (f a) k Q I) -> triple ok P (m ≫= f) (n + k) Q I.
Proof.
  intros Hm Hf t s HP. specialize (Hm t s HP). unfold mbind, Io_bind.
  destruct (m t s) as [[s' t'] [|[a|e]]]; destruct Hm as [Hr Ht]; [split; [done|]; intros Hok; specialize (Ht Hok); lia| |done].
  specialize (Hf a t' s' Hr). destruct (f a t' s') as [[s'' t''] [|[b|e]]]; destruct Hf as [Hq Hn];
    (split; [done|]); [intros Hok; specialize (Ht Hok); specialize (Hn Hok); lia..|done].
Qed.
Lemma triple_lift (P : Pred) (r : Result E A) (Q : A -> Pred) (I : Pred) :
  (forall s, P s -> match r with Ok a => Q a s | Err _ => I s /\ ~ ok end) -> triple ok P (lift r) 0 Q I.
Proof. intros Hr t s HP. specialize (Hr s HP). unfold lift. destruct r; [split; [done|lia]|done]. Qed.
Lemma triple_gets (P : Pred) (f : S -> Result E A) (Q : A -> Pred) (I : Pred) :
  (forall s, P s -> match f s with Ok a => Q a s | Err _ => I s /\ ~ ok end) -> triple ok P (gets f) 0 Q I.
Proof. intros Hr t s HP. specialize (Hr s HP). unfold gets. destruct (f s); [split; [done|lia]|done]. Qed.
Lemma triple_ret (P : Pred) (a : A) (Q : A -> Pred) (I : Pred) :
  (forall s, P s -> Q a s) -> triple (E := E) ok P (mret a) 0 Q I.
Proof. intros Hr t s HP. split; [auto|lia]. Qed.
Lemma triple_change_partly (P : Pred) partly f (Q : unit -> Pred) (I : Pred) :
  (forall s, P s -> I (partly s)) -> (forall s, P s -> Q tt (f s)) -> triple (E := E) ok P (change_partly partly f) 1 Q I.
Proof. intros HI HQ [|t] s HP; (split; [auto|lia]). Qed.
Lemma triple_change (P : Pred) f (Q : unit -> Pred) (I : Pred) :
  (forall s, P s -> I s) -> (forall s, P s -> Q tt (f s)) -> triple (E := E) ok P (change f) 1 Q I.
Proof. intros HI HQ [|t] s HP; (split; [auto|lia]). Qed.
Lemma triple_weaken (P P' : Pred) (m : Io A) n n' (Q Q' : A -> Pred) (I I' : Pred) :
  triple ok P' m n' Q' I' -> (ok -> n' <= n) -> (forall s, P s -> P' s) -> (forall a s, Q' a s -> Q a s) ->
  (forall s, I' s -> I s) -> triple ok P m n Q I.
Proof.
  intros Hm Hn HP HQ HI t s Hs. specialize (Hm t s (HP s Hs)).
  destruct (m t s) as [[s' t'] [|[a|e]]]; destruct Hm as [H1 H2]; (split; [auto|]); [intros Hok; specialize (Hn Hok); specialize (H2 Hok); lia..|done].
Qed.
End triples.

Section more_triples.
Context {S E F : Type} {ok : Prop}.
Abbreviation Pred := (S -> Prop).

Lemma triple_when (P : Pred) b (m : Crashing S E unit) n (Q : unit -> Pred) (I : Pred) :
  (b = true -> triple ok P m n Q I) -> (b = false -> forall s, P s -> Q tt s) -> triple ok P (io_when b m) n Q I.
Proof. destruct b; intros Ht Hf; [by apply Ht|]. intros t s HP. split; [by apply Hf|lia]. Qed.
Lemma triple_map_err {A} (P : Pred) (f : E -> F) (m : Crashing S E A) n (Q : A -> Pred) (I : Pred) :
  triple ok P m n Q I -> triple ok P (io_map_err f m) n Q I.
Proof.
  intros Hm t s HP. specialize (Hm t s HP). unfold io_map_err. destruct (m t s) as [[s' t'] [|[a|e]]]; done.
Qed.
(** What is known of the state before, out of it. *)
Lemma triple_exists {A B} (P : B -> Pred) (m : Crashing S E A) n (Q : A -> Pred) (I : Pred) :
  (forall b, triple ok (P b) m n Q I) -> triple ok (λ s, exists b, P b s) m n Q I.
Proof. intros Hm t s [b HP]. by apply (Hm b). Qed.
Lemma triple_pure {A} (φ : Prop) (P : Pred) (m : Crashing S E A) n (Q : A -> Pred) (I : Pred) :
  (φ -> triple ok P m n Q I) -> triple ok (λ s, φ /\ P s) m n Q I.
Proof. intros Hm t s [Hφ HP]. by apply (Hm Hφ). Qed.
(** An operation whose error is a value: what an error leaves is a result. *)
Lemma triple_try {A} (P : Pred) (m : Crashing S E A) n (Q : A -> Pred) (R : Result E A -> Pred) (I : Pred) :
  triple ok P m n Q I -> (forall a s, Q a s -> R (Ok a) s) -> (forall e s, I s -> ~ ok -> R (Err e) s) ->
  triple ok P (io_try m) n R I.
Proof.
  intros Hm HQ HI t s HP. specialize (Hm t s HP). unfold io_try.
  destruct (m t s) as [[s' t'] [|[a|e]]]; destruct Hm as [H1 H2]; split; try done; [by apply HQ|by apply HI].
Qed.
End more_triples.

(** ** Without and with everything asked *)

Definition spec {S E A} (P : S -> Prop) (m : Crashing S E A) (Q : A -> S -> Prop) (I : S -> Prop) : Prop :=
  triple False P m 0 Q I.
Definition tspec {S E A} (P : S -> Prop) (m : Crashing S E A) (n : nat) (Q : A -> S -> Prop) (I : S -> Prop) : Prop :=
  triple True P m n Q I.

Lemma triple_spec {S E A} (P : S -> Prop) (m : Crashing S E A) n (Q : A -> S -> Prop) (I : S -> Prop) :
  triple False P m n Q I -> spec P m Q I.
Proof. intros Hm. by eapply triple_weaken. Qed.

Section runs.
Context {S E : Type}.
Abbreviation Io := (Crashing S E).
Abbreviation Pred := (S -> Prop).

Lemma spec_run {A} (P : Pred) (m : Io A) (Q : A -> Pred) (I : Pred) t s : spec P m Q I -> P s ->
  match m t s with (s', _, Returned (Ok a)) => Q a s' | (s', _, _) => I s' end.
Proof. intros Hm HP. specialize (Hm t s HP). by destruct (m t s) as [[s' t'] [|[a|e]]]; destruct Hm. Qed.
Lemma tspec_run {A} (P : Pred) (m : Io A) n (Q : A -> Pred) (I : Pred) t s : tspec P m n Q I -> P s ->
  match m t s with
  | (s', t', Returned (Ok a)) => Q a s' /\ t <= t' + n
  | (s', _, Crashed) => I s' /\ t < n
  | (_, _, Returned (Err _)) => False
  end.
Proof. intros Hm HP. specialize (Hm t s HP). destruct (m t s) as [[s' t'] [|[a|e]]]; naive_solver. Qed.
Lemma spec_end {A} (P : Pred) (m : Io A) (Q : A -> Pred) (I J : Pred) t s s' t' o :
  spec P m Q I -> P s -> m t s = (s', t', o) -> (forall a s, Q a s -> J s) -> (forall s, I s -> J s) -> J s'.
Proof.
  intros Hm HP Hrun HQ HI. pose proof (spec_run _ _ _ _ t s Hm HP) as Hs. rewrite Hrun in Hs.
  destruct o as [|[a|e]]; eauto.
Qed.
End runs.

Section logic.
Context {S E : Type} {A B : Type}.
Abbreviation Io := (Crashing S E).
Abbreviation Pred := (S -> Prop).

Lemma spec_bind (P : Pred) (m : Io A) (R : A -> Pred) (f : A -> Io B) (Q : B -> Pred) (I : Pred) :
  spec P m R I -> (forall a, spec (R a) (f a) Q I) -> spec P (m ≫= f) Q I.
Proof. apply (triple_bind _ _ 0 _ _ 0). Qed.
Lemma spec_lift (P : Pred) (r : Result E A) (Q : A -> Pred) (I : Pred) :
  (forall s, P s -> match r with Ok a => Q a s | Err _ => I s end) -> spec P (lift r) Q I.
Proof. intros Hr. apply triple_lift. intros s HP. specialize (Hr s HP). destruct r; naive_solver. Qed.
Lemma spec_ret (P : Pred) (a : A) (Q : A -> Pred) (I : Pred) :
  (forall s, P s -> Q a s) -> spec (E := E) P (mret a) Q I.
Proof. apply triple_ret. Qed.
Lemma spec_gets (P : Pred) (f : S -> Result E A) (Q : A -> Pred) (I : Pred) :
  (forall s, P s -> match f s with Ok a => Q a s | Err _ => I s end) -> spec P (gets f) Q I.
Proof. intros Hr. apply triple_gets. intros s HP. specialize (Hr s HP). destruct (f s); naive_solver. Qed.
Lemma spec_change_partly (P : Pred) partly f (Q : unit -> Pred) (I : Pred) :
  (forall s, P s -> I (partly s)) -> (forall s, P s -> Q tt (f s)) -> spec (E := E) P (change_partly partly f) Q I.
Proof. intros HI HQ. by eapply triple_spec, triple_change_partly. Qed.
Lemma spec_change (P : Pred) f (Q : unit -> Pred) (I : Pred) :
  (forall s, P s -> I s) -> (forall s, P s -> Q tt (f s)) -> spec (E := E) P (change f) Q I.
Proof. intros HI HQ. by eapply triple_spec, triple_change. Qed.
Lemma spec_when (P : Pred) b (m : Crashing S E unit) (Q : unit -> Pred) (I : Pred) :
  (b = true -> spec P m Q I) -> (b = false -> forall s, P s -> Q tt s) -> spec P (io_when b m) Q I.
Proof. apply triple_when. Qed.
Lemma spec_weaken (P P' : Pred) (m : Io A) (Q Q' : A -> Pred) (I I' : Pred) :
  spec P' m Q' I' -> (forall s, P s -> P' s) -> (forall a s, Q' a s -> Q a s) -> (forall s, I' s -> I s) ->
  spec P m Q I.
Proof. intros Hm HP HQ HI. by eapply triple_weaken. Qed.
Lemma spec_try (P : Pred) (m : Io A) (J I : Pred) :
  spec P m (λ _, J) J -> (forall s, J s -> I s) -> spec P (io_try m) (λ _, J) I.
Proof.
  intros Hm HI t s HP. specialize (Hm t s HP). unfold io_try.
  destruct (m t s) as [[s' t'] [|[a|e]]]; destruct Hm as [H1 H2]; split; auto; by intros [].
Qed.
Lemma spec_always (P : Pred) (body : Io A) cleanup (Q : A -> Pred) (I : Pred) :
  spec P body Q I -> (forall a, spec (Q a) cleanup (λ _, Q a) (Q a)) -> spec I cleanup (λ _, I) I ->
  (forall a s, Q a s -> I s) -> spec P (and_then_always body cleanup) Q I.
Proof.
  intros Hb Hq Hi Hqi t s HP. pose proof (spec_run _ _ _ _ t s Hb HP) as Hr. unfold and_then_always.
  destruct (body t s) as [[s' t'] [|[a|e]]]; [done|..].
  - pose proof (spec_run _ _ _ _ t' s' (Hq a) Hr) as Hc. destruct (cleanup t' s') as [[s'' t''] [|[]]]; split; by eauto.
  - pose proof (spec_run _ _ _ _ t' s' Hi Hr) as Hc. destruct (cleanup t' s') as [[s'' t''] [|[]]]; split; by eauto.
Qed.

Lemma tspec_bind (P : Pred) (m : Io A) n (R : A -> Pred) (f : A -> Io B) k (Q : B -> Pred) (I : Pred) :
  tspec P m n R I -> (forall a, tspec (R a) (f a) k Q I) -> tspec P (m ≫= f) (n + k) Q I.
Proof. apply triple_bind. Qed.
Lemma tspec_lift (P : Pred) (r : Result E A) (Q : A -> Pred) (I : Pred) :
  (forall s, P s -> exists a, r = Ok a /\ Q a s) -> tspec P (lift r) 0 Q I.
Proof. intros Hr. apply triple_lift. intros s HP. by destruct (Hr s HP) as (a&->&Ha). Qed.
Lemma tspec_gets (P : Pred) (f : S -> Result E A) (Q : A -> Pred) (I : Pred) :
  (forall s, P s -> exists a, f s = Ok a /\ Q a s) -> tspec P (gets f) 0 Q I.
Proof. intros Hr. apply triple_gets. intros s HP. by destruct (Hr s HP) as (a&->&Ha). Qed.
Lemma tspec_ret (P : Pred) (a : A) (Q : A -> Pred) (I : Pred) :
  (forall s, P s -> Q a s) -> tspec (E := E) P (mret a) 0 Q I.
Proof. apply triple_ret. Qed.
Lemma tspec_change (P : Pred) f (Q : unit -> Pred) (I : Pred) :
  (forall s, P s -> I s) -> (forall s, P s -> Q tt (f s)) -> tspec (E := E) P (change f) 1 Q I.
Proof. apply triple_change. Qed.
Lemma tspec_weaken (P P' : Pred) (m : Io A) n n' (Q Q' : A -> Pred) (I I' : Pred) :
  tspec P' m n' Q' I' -> n' <= n -> (forall s, P s -> P' s) -> (forall a s, Q' a s -> Q a s) ->
  (forall s, I' s -> I s) -> tspec P m n Q I.
Proof. intros Hm Hn HP HQ HI. by eapply triple_weaken. Qed.
Lemma tspec_always (P : Pred) (body : Io A) n cleanup k (Q : A -> Pred) (I : Pred) :
  tspec P body n Q I -> (forall a, tspec (Q a) cleanup k (λ _, Q a) I) ->
  tspec P (and_then_always body cleanup) (n + k) Q I.
Proof.
  intros Hb Hq t s HP. pose proof (tspec_run _ _ _ _ _ t s Hb HP) as Hr. unfold and_then_always.
  destruct (body t s) as [[s' t'] [|[a|e]]]; [destruct Hr; split; [done|lia]| |done]. destruct Hr as [Ha Ht].
  pose proof (tspec_run _ _ _ _ _ t' s' (Hq a) Ha) as Hc.
  destruct (cleanup t' s') as [[s'' t''] [|[]]]; [|by destruct Hc; split; try lia|done].
  destruct Hc. split; [done|lia].
Qed.
End logic.
