(* ===== verification/IntentPackage.v ===== *)
(** * Private intention packages

    [engine/src/intent_package.rs] and the private-reference checks of
    [engine/src/shot_layout.rs] it ends in: the framing in which a browser hands
    a prompt and its images to the Mac. Writing and reading the manifest's JSON
    is third-party code, the parameter [ManifestCodec]. A [usize] has 64 bits. *)
From S2P Require Import Prelude Text Digest FileTree.

(** ** References, as the engine checks them *)

(** An I/O error and a path are given by what [Display] shows of them. *)
Inductive ShotLayoutError : Type :=
  | LayoutIo (error : string)
  | LayoutEncoding (reason : string)
  | LayoutInvalid (reason : string)
  | LayoutLimit (reason : string)
  | LayoutUnsafePath (path : string)
  | LayoutImmutableConflict (path : string)
  | LayoutGenomeDrift.
Definition display_layout_error (e : ShotLayoutError) : string :=
  match e with
  | LayoutIo error => error
  | LayoutEncoding reason => "Shot metadata encoding failed: " +:+ reason
  | LayoutInvalid reason => "Shot layout is invalid: " +:+ reason
  | LayoutLimit reason => "Shot layout limit exceeded: " +:+ reason
  | LayoutUnsafePath path => "Shot layout path is unsafe: " +:+ path
  | LayoutImmutableConflict path => "immutable Shot material already differs: " +:+ path
  | LayoutGenomeDrift => "GENOME.md differs from its accepted machine-readable revision"
  end.

Definition MAX_PRIVATE_ATTACHMENT_BYTES : Z := 64 * 1024 * 1024.
Definition IMAGE_REFERENCE_EXTENSIONS : list string := ["png"; "jpg"; "jpeg"; "heic"; "webp"].

Definition unsafe_name_byte (b : Z) : bool :=
  (b <? 32) || (b =? 127)%Z || (b =? 47)%Z || (b =? 92)%Z || (b =? 58)%Z.
Definition validate_reference_name (name : string) : Result ShotLayoutError unit :=
  let bytes := bytes_of name in
  fail_if ((name == "") || (255 <? len name)%nat || negb (forallb (λ b, b <? 128) bytes)
           || starts_with (bytes_of ".") bytes || ends_with (bytes_of ".") bytes
           || ends_with (bytes_of " ") bytes || existsb unsafe_name_byte bytes
           || negb (match components name with [Normal _] => true | _ => false end))
    (LayoutInvalid "private reference name is not one safe portable component").

Definition HEIC_BRANDS : list (list Z) :=
  bytes_of <$> ["heic"; "heix"; "hevc"; "hevx"; "mif1"; "msf1"].
Definition valid_image_bytes (extension : string) (bytes : list Z) : bool :=
  if extension == "png" then starts_with [137; 80; 78; 71; 13; 10; 26; 10]%Z bytes
  else if (extension == "jpg") || (extension == "jpeg") then starts_with [255; 216; 255]%Z bytes
  else if extension == "webp" then
    (12 <=? length bytes)%nat && (take 4 bytes == bytes_of "RIFF") && (slice bytes 8 12 == bytes_of "WEBP")
  else if extension == "heic" then
    (12 <=? length bytes)%nat && (slice bytes 4 8 == bytes_of "ftyp")
    && bool_decide (slice bytes 8 12 ∈ HEIC_BRANDS)
  else false.
Definition validate_image_bytes (extension : string) (bytes : list Z) : Result string unit :=
  fail_if (negb (valid_image_bytes extension bytes))
    "file bytes do not match the declared supported image format".

Definition media_type_for_extension (extension : option string) : string :=
  match extension with
  | Some extension =>
      if extension == "png" then "image/png"
      else if (extension == "jpg") || (extension == "jpeg") then "image/jpeg"
      else if extension == "heic" then "image/heic"
      else if extension == "gif" then "image/gif"
      else if extension == "webp" then "image/webp"
      else if extension == "pdf" then "application/pdf"
      else if extension == "json" then "application/json"
      else if bool_decide (extension ∈ ["txt"; "md"; "markdown"]) then "text/plain; charset=utf-8"
      else "application/octet-stream"
  | None => "application/octet-stream"
  end.

(** The extension of a name when it is one of an image, in lower case. *)
Definition image_extension (name : string) : option string :=
  extension ← to_ascii_lowercase <$> extension name;
  if bool_decide (extension ∈ IMAGE_REFERENCE_EXTENSIONS) then Some extension else None.

Definition validate_private_reference_bytes (name media_type : string) (bytes : list Z)
    : Result ShotLayoutError unit :=
  validate_reference_name name ;;
  fail_if (MAX_PRIVATE_ATTACHMENT_BYTES <? Z.of_nat (length bytes))
    (LayoutLimit "private reference exceeds 64 MiB") ;;
  extension ← ok_or (LayoutInvalid (name +:+ " is not a supported PNG, JPEG, HEIC, or WebP image"))
                (image_extension name);
  fail_if (media_type_for_extension (Some extension) != media_type)
    (LayoutInvalid "private reference media type disagrees with its safe original name") ;;
  map_err (λ reason, LayoutInvalid (name +:+ ": " +:+ reason)) (validate_image_bytes extension bytes).

(** ** Packages *)

Definition INTENT_PACKAGE_SCHEMA : string := "tohseno.intent-package/1".
Definition INTENT_PACKAGE_MAGIC : list Z := bytes_of "TOHSINT1".
Definition MAX_WEB_PROMPT_BYTES : Z := 1024 * 1024.
Definition MAX_WEB_REFERENCE_BYTES : Z := 16 * 1024 * 1024.
Definition MAX_WEB_REFERENCE_TOTAL_BYTES : Z := 48 * 1024 * 1024.
Definition MAX_INTENT_PACKAGE_BYTES : Z := 64 * 1024 * 1024.
Definition MAX_INTENT_REFERENCES : nat := 8.
Definition HEADER_BYTES : nat := 12.
Definition MAX_MANIFEST_BYTES : Z := 2 * 1024 * 1024.

Record IntentPackageReference := {
  ir_ordinal : nat;
  ir_display_filename : string;
  ir_media_type : string;
  ir_sha256 : string;
  ir_bytes : list Z }.
Record IntentPackage := {
  ip_created_at : string;
  ip_prompt : string;
  ip_references : list IntentPackageReference;
  ip_package_sha256 : string }.

Record PromptManifest := {
  pm_encoding : string;
  pm_byte_length : Z;
  pm_sha256 : string;
  pm_text : string }.
Record ReferenceManifest := {
  rm_ordinal : Z;
  rm_display_filename : string;
  rm_media_type : string;
  rm_byte_length : Z;
  rm_sha256 : string;
  rm_payload_offset : Z }.
Record LimitsManifest := {
  lm_version : Z;
  lm_max_prompt_bytes : Z;
  lm_max_references : Z;
  lm_max_reference_bytes : Z;
  lm_max_total_reference_bytes : Z;
  lm_max_package_bytes : Z }.
#[export] Instance LimitsManifest_eq_dec : EqDecision LimitsManifest.
Proof. solve_decision. Defined.
Record Manifest := {
  mf_schema : string;
  mf_created_at : string;
  mf_prompt : PromptManifest;
  mf_references : list ReferenceManifest;
  mf_limits : LimitsManifest }.

Inductive IntentPackageError : Type :=
  | PackageInvalid (reason : string)
  | PackageJson (error : string).
Definition display_package_error (e : IntentPackageError) : string :=
  match e with
  | PackageInvalid reason => reason
  | PackageJson error => "intent package manifest is invalid: " +:+ error
  end.
Abbreviation package_result := (Result IntentPackageError).

(** [serde_json::to_vec] and [serde_json::from_slice] of the manifest. *)
Class ManifestCodec := {
  manifest_to_vec : Manifest -> Result string (list Z);
  manifest_from_slice : list Z -> Result string Manifest }.

Definition expected_limits : LimitsManifest := {|
  lm_version := 1;
  lm_max_prompt_bytes := MAX_WEB_PROMPT_BYTES;
  lm_max_references := Z.of_nat MAX_INTENT_REFERENCES;
  lm_max_reference_bytes := MAX_WEB_REFERENCE_BYTES;
  lm_max_total_reference_bytes := MAX_WEB_REFERENCE_TOTAL_BYTES;
  lm_max_package_bytes := MAX_INTENT_PACKAGE_BYTES |}.

Definition validate_package_digest (value : string) : package_result unit :=
  fail_if (negb (len value =? 64)%nat || existsb (λ b, negb (is_lower_hex b)) (bytes_of value))
    (PackageInvalid "intent package contains a malformed SHA-256 digest").

Definition prompt_is_empty (prompt : string) : bool := trim (chars (bytes_of prompt)) == [].
Definition byte_size (bytes : list Z) : Z := Z.of_nat (length bytes).

(** [usize::checked_add] *)
Definition package_add (a b : Z) (message : string) : package_result Z :=
  ok_or (PackageInvalid message) (checked_add_u64 a b).

Section package.
Context `{Platform}.

(** [sha256(bytes).to_hex().trim_start_matches(p)] where [p] is the [0x] the
    hexadecimal text starts with; no digit of it is an [x]. *)
Definition sha256_hex (bytes : list Z) : string := string_of (drop 2 (bytes_of (to_hex (sha256 bytes)))).

Definition check_reference_bytes (name media_type : string) (bytes : list Z) : package_result unit :=
  map_err (λ error, PackageInvalid (display_layout_error error))
    (validate_private_reference_bytes name media_type bytes).

(** The loop of [validate_input]. *)
Fixpoint input_loop (total : Z) (digests names : gset string) (references : list (string * string * list Z))
    : package_result unit :=
  match references with
  | [] => Ok tt
  | (name, media_type, bytes) :: references =>
      fail_if (MAX_WEB_REFERENCE_BYTES <? byte_size bytes)
        (PackageInvalid "intent package reference exceeds 16 MiB") ;;
      total ← package_add total (byte_size bytes) "intent package reference total overflowed";
      fail_if (MAX_WEB_REFERENCE_TOTAL_BYTES <? total)
        (PackageInvalid "intent package references exceed 48 MiB") ;;
      check_reference_bytes name media_type bytes ;;
      let digest := sha256_hex bytes in
      fail_if (bool_decide (digest ∈ digests))
        (PackageInvalid "intent package references must not repeat content") ;;
      fail_if (bool_decide (to_ascii_lowercase name ∈ names))
        (PackageInvalid "intent package reference names collide on Apple filesystems") ;;
      input_loop total ({[digest]} ∪ digests) ({[to_ascii_lowercase name]} ∪ names) references
  end.

Definition validate_input (prompt : string) (references : list (string * string * list Z))
    : package_result unit :=
  fail_if (prompt_is_empty prompt || (MAX_WEB_PROMPT_BYTES <? Z.of_nat (len prompt)))
    (PackageInvalid "intent package prompt must be nonempty and no larger than 1 MiB") ;;
  fail_if (MAX_INTENT_REFERENCES <? length references)%nat
    (PackageInvalid "intent package contains more than eight references") ;;
  input_loop 0 ∅ ∅ references.

Definition manifest_reference (ordinal : nat) (payload_offset : Z) (r : string * string * list Z)
    : ReferenceManifest :=
  let '(name, media_type, bytes) := r in
  {| rm_ordinal := Z.of_nat ordinal; rm_display_filename := name; rm_media_type := media_type;
     rm_byte_length := byte_size bytes; rm_sha256 := sha256_hex bytes; rm_payload_offset := payload_offset |}.

(** The loop of [build_intent_package]: the manifest's references and the
    length of the payload. *)
Fixpoint build_loop (ordinal : nat) (payload_offset : Z) (references : list (string * string * list Z))
    : package_result (list ReferenceManifest * Z) :=
  match references with
  | [] => Ok ([], payload_offset)
  | r :: references =>
      next ← package_add payload_offset (byte_size r.2) "intent package payload length overflowed";
      rest ← build_loop (S ordinal) next references;
      Ok (manifest_reference ordinal payload_offset r :: rest.1, rest.2)
  end.

Definition prompt_manifest (prompt : string) : PromptManifest :=
  {| pm_encoding := "utf-8"; pm_byte_length := Z.of_nat (len prompt);
     pm_sha256 := sha256_hex (bytes_of prompt); pm_text := prompt |}.

Definition build_intent_package `{ManifestCodec} (created_at prompt : string)
    (references : list (string * string * list Z)) : package_result (list Z) :=
  validate_input prompt references ;;
  built ← build_loop 0 0 references;
  let manifest := {| mf_schema := INTENT_PACKAGE_SCHEMA; mf_created_at := created_at;
    mf_prompt := prompt_manifest prompt; mf_references := built.1; mf_limits := expected_limits |} in
  manifest_bytes ← map_err PackageJson (manifest_to_vec manifest);
  fail_if ((MAX_MANIFEST_BYTES <? byte_size manifest_bytes) || (U32_MAX <? byte_size manifest_bytes))
    (PackageInvalid "intent package manifest is too large") ;;
  total ← ok_or (PackageInvalid "intent package length overflowed")
    (value ← checked_add_u64 (Z.of_nat HEADER_BYTES) (byte_size manifest_bytes); checked_add_u64 value built.2);
  fail_if (MAX_INTENT_PACKAGE_BYTES <? total) (PackageInvalid "intent package exceeds 64 MiB") ;;
  Ok (INTENT_PACKAGE_MAGIC ++ be_bytes 4 (byte_size manifest_bytes) ++ manifest_bytes ++ concat references.*2).

(** The variables of the loop of [parse_intent_package]. *)
Record ParseState := {
  pr_expected_offset : Z;
  pr_total : Z;
  pr_digests : gset string;
  pr_names : gset string;
  pr_references : list IntentPackageReference }.
Definition parse_start : ParseState :=
  {| pr_expected_offset := 0; pr_total := 0; pr_digests := ∅; pr_names := ∅; pr_references := [] |}.

Definition parse_reference (payload : list Z) (s : ParseState) (index : nat) (reference : ReferenceManifest)
    : package_result ParseState :=
  let offset := pr_expected_offset s in
  fail_if ((rm_ordinal reference != Z.of_nat index) || (rm_payload_offset reference != offset))
    (PackageInvalid "intent package reference offsets contain a gap, overlap, or invalid order") ;;
  let length := rm_byte_length reference in
  fail_if (MAX_WEB_REFERENCE_BYTES <? length) (PackageInvalid "intent package reference exceeds 16 MiB") ;;
  end_ ← package_add offset length "intent package reference length overflowed";
  fail_if (byte_size payload <? end_) (PackageInvalid "intent package reference payload is truncated") ;;
  total ← package_add (pr_total s) length "intent package reference total overflowed";
  fail_if (MAX_WEB_REFERENCE_TOTAL_BYTES <? total) (PackageInvalid "intent package references exceed 48 MiB") ;;
  let reference_bytes := slice payload (Z.to_nat offset) (Z.to_nat end_) in
  validate_package_digest (rm_sha256 reference) ;;
  fail_if (sha256_hex reference_bytes != rm_sha256 reference)
    (PackageInvalid "intent package reference digest does not match") ;;
  fail_if (bool_decide (rm_sha256 reference ∈ pr_digests s))
    (PackageInvalid "intent package references must not repeat content") ;;
  fail_if (bool_decide (to_ascii_lowercase (rm_display_filename reference) ∈ pr_names s))
    (PackageInvalid "intent package reference names collide on Apple filesystems") ;;
  check_reference_bytes (rm_display_filename reference) (rm_media_type reference) reference_bytes ;;
  Ok {| pr_expected_offset := end_; pr_total := total;
        pr_digests := {[rm_sha256 reference]} ∪ pr_digests s;
        pr_names := {[to_ascii_lowercase (rm_display_filename reference)]} ∪ pr_names s;
        pr_references := pr_references s ++
          [{| ir_ordinal := index; ir_display_filename := rm_display_filename reference;
              ir_media_type := rm_media_type reference; ir_sha256 := rm_sha256 reference;
              ir_bytes := reference_bytes |}] |}.

Fixpoint parse_loop (payload : list Z) (s : ParseState) (index : nat) (references : list ReferenceManifest)
    : package_result ParseState :=
  match references with
  | [] => Ok s
  | reference :: references =>
      s ← parse_reference payload s index reference;
      parse_loop payload s (S index) references
  end.

Definition check_prompt (p : PromptManifest) : package_result unit :=
  let prompt_bytes := bytes_of (pm_text p) in
  fail_if ((pm_encoding p != "utf-8") || (byte_size prompt_bytes != pm_byte_length p)
           || (MAX_WEB_PROMPT_BYTES <? pm_byte_length p) || prompt_is_empty (pm_text p))
    (PackageInvalid "intent package prompt is empty or malformed") ;;
  validate_package_digest (pm_sha256 p) ;;
  fail_if (sha256_hex prompt_bytes != pm_sha256 p)
    (PackageInvalid "intent package prompt digest does not match").

Definition parse_intent_package `{ManifestCodec} (bytes : list Z) : package_result IntentPackage :=
  fail_if (MAX_INTENT_PACKAGE_BYTES <? byte_size bytes) (PackageInvalid "intent package exceeds 64 MiB") ;;
  fail_if ((length bytes <? HEADER_BYTES)%nat || (take 8 bytes != INTENT_PACKAGE_MAGIC))
    (PackageInvalid "intent package magic or version is unsupported") ;;
  let manifest_length := be_value (slice bytes 8 12) in
  fail_if ((manifest_length == 0%Z) || (MAX_MANIFEST_BYTES <? manifest_length))
    (PackageInvalid "intent package manifest length is invalid") ;;
  payload_start ← package_add (Z.of_nat HEADER_BYTES) manifest_length "intent package manifest length overflowed";
  fail_if (byte_size bytes <? payload_start) (PackageInvalid "intent package is truncated before its payload") ;;
  manifest ← map_err PackageJson
    (manifest_from_slice (slice bytes HEADER_BYTES (Z.to_nat payload_start)));
  fail_if ((mf_schema manifest != INTENT_PACKAGE_SCHEMA) || (mf_limits manifest != expected_limits))
    (PackageInvalid "intent package schema, version, or limits are unsupported") ;;
  check_prompt (mf_prompt manifest) ;;
  fail_if (MAX_INTENT_REFERENCES <? length (mf_references manifest))%nat
    (PackageInvalid "intent package contains more than eight references") ;;
  let payload := drop (Z.to_nat payload_start) bytes in
  s ← parse_loop payload parse_start 0 (mf_references manifest);
  fail_if (pr_expected_offset s != byte_size payload)
    (PackageInvalid "intent package contains trailing unaccounted bytes") ;;
  Ok {| ip_created_at := mf_created_at manifest; ip_prompt := pm_text (mf_prompt manifest);
        ip_references := pr_references s; ip_package_sha256 := sha256_hex bytes |}.
End package.
