(* ===== verification/IntentPackageLaws.v ===== *)
(** * Laws of intention packages

    A package that is built is read back as what was put into it, and a package
    that is read accounts for every byte after its manifest. *)
From S2P Require Import Prelude Text Digest FileTree IntentPackage.

(** What the writer and the reader of the manifest promise together: a
    manifest that is written is read back, its text is not empty, and what is
    read for a [u64] is not negative. *)
Class ManifestCodecLaws `{ManifestCodec} := {
  manifest_round_trip : forall m bytes, manifest_to_vec m = Ok bytes -> manifest_from_slice bytes = Ok m;
  manifest_nonempty : forall m bytes, manifest_to_vec m = Ok bytes -> bytes <> [];
  manifest_lengths : forall bytes m, manifest_from_slice bytes = Ok m ->
    Forall (λ r, 0 <= rm_byte_length r)%Z (mf_references m) }.

Section laws.
Context `{Platform}.

Lemma sha256_hex_valid bytes : validate_package_digest (sha256_hex bytes) = Ok tt.
Proof.
  unfold validate_package_digest, sha256_hex. rewrite to_hex_bytes. cbn [drop]. rewrite drop_0.
  destruct (hex_of_spec (as_bytes (sha256 bytes)) (as_bytes_bound _)) as (Hx&Hl&_).
  assert (bytes_of (string_of (hex_of (as_bytes (sha256 bytes)))) = hex_of (as_bytes (sha256 bytes))) as Hb.
  { apply bytes_of_string_of. eapply Forall_impl; [exact Hx|]. naive_solver. }
  apply fail_if_Ok, orb_false_iff. split.
  - apply negb_false_iff, Nat.eqb_eq. rewrite <- bytes_of_length, Hb, Hl, as_bytes_length. done.
  - rewrite Hb. apply not_true_iff_false. intros (b&Hin&Hn%negb_true_iff)%existsb_exists.
    rewrite Forall_forall in Hx. destruct (Hx b) as [Hh _]; [by apply list_elem_of_In|]. congruence.
Qed.

Lemma package_add_Ok a b message c : package_add a b message = Ok c -> c = (a + b)%Z.
Proof. unfold package_add, checked_add_u64, checked_add. intros Ha%ok_or_Ok. by case_match; simplify_eq. Qed.
Lemma package_add_small a b message : (a + b <= U64_MAX)%Z -> package_add a b message = Ok (a + b)%Z.
Proof. unfold package_add, checked_add_u64, checked_add. intros Ha. by rewrite (proj2 (Z.leb_le _ _) Ha). Qed.

(** What reading gives for a reference that was put in at the position [i]. *)
Definition packed (i : nat) (r : string * string * list Z) : IntentPackageReference :=
  {| ir_ordinal := i; ir_display_filename := r.1.1; ir_media_type := r.1.2;
     ir_sha256 := sha256_hex r.2; ir_bytes := r.2 |}.
Fixpoint packed_from (i : nat) (rs : list (string * string * list Z)) : list IntentPackageReference :=
  match rs with [] => [] | r :: rs => packed i r :: packed_from (S i) rs end.

Definition payload_size (rs : list (string * string * list Z)) : Z := byte_size (concat rs.*2).
Lemma payload_size_cons r rs : payload_size (r :: rs) = (byte_size r.2 + payload_size rs)%Z.
Proof. unfold payload_size, byte_size. cbn [fmap list_fmap concat]. rewrite length_app. lia. Qed.

Lemma build_total rs : forall index offset ms total, build_loop index offset rs = Ok (ms, total) ->
  total = (offset + payload_size rs)%Z /\ length ms = length rs.
Proof.
  induction rs as [|r rs IH]; intros index offset ms total; cbn [build_loop].
  - intros [= <- <-]. change (payload_size []) with 0%Z. split; [lia|done].
  - intros Hb. apply bind_Ok in Hb as (next&Hn&Hb). apply package_add_Ok in Hn as ->.
    apply bind_Ok in Hb as ([ms' total']&Hb&[= <- <-]). apply IH in Hb as [-> Hl].
    rewrite payload_size_cons. simpl. split; [lia|by rewrite Hl].
Qed.

(** Reading the references of a manifest that was built for [rs], the part of
    the payload before them being [before]. *)
Lemma parse_built rs : forall index before digests names acc ms total,
  input_loop (byte_size before) digests names rs = Ok tt ->
  build_loop index (byte_size before) rs = Ok (ms, total) ->
  (payload_size rs + byte_size before <= MAX_INTENT_PACKAGE_BYTES)%Z ->
  exists s, parse_loop (before ++ concat rs.*2)
      {| pr_expected_offset := byte_size before; pr_total := byte_size before; pr_digests := digests;
         pr_names := names; pr_references := acc |} index ms = Ok s /\
    pr_expected_offset s = byte_size (before ++ concat rs.*2) /\
    pr_references s = acc ++ packed_from index rs.
Proof.
  induction rs as [|[[name media] bytes] rs IH]; intros index before digests names acc ms total Hi Hb Hs.
  { injection Hb as <- <-. eexists. cbn. rewrite !app_nil_r. by split_and!. }
  rewrite payload_size_cons in Hs. cbn [snd] in Hs.
  assert (0 <= payload_size rs)%Z as Hp by (unfold payload_size, byte_size; lia).
  cbn [input_loop] in Hi. apply bind_Ok in Hi as (?&Hlen%fail_if_Ok&Hi). apply bind_Ok in Hi as (t&Ht&Hi).
  pose proof (package_add_Ok _ _ _ _ Ht) as ->.
  apply bind_Ok in Hi as (?&Htot%fail_if_Ok&Hi). apply bind_Ok in Hi as (?&Hcheck&Hi).
  apply bind_Ok in Hi as (?&Hdig%fail_if_Ok&Hi). apply bind_Ok in Hi as (?&Hname%fail_if_Ok&Hi).
  cbn [build_loop snd] in Hb. apply bind_Ok in Hb as (next&Hn&Hb). apply package_add_Ok in Hn as ->.
  apply bind_Ok in Hb as ([ms' total']&Hb&[= <- <-]).
  assert (byte_size before + byte_size bytes = byte_size (before ++ bytes))%Z as Ea
    by (unfold byte_size; rewrite length_app; lia).
  cbn [fmap list_fmap concat snd]. rewrite (app_assoc before bytes).
  destruct (IH (S index) (before ++ bytes) ({[sha256_hex bytes]} ∪ digests) ({[to_ascii_lowercase name]} ∪ names)
    (acc ++ [packed index (name, media, bytes)]) ms' total') as (s&Hs1&Hs2&Hs3).
  { by rewrite <- Ea. } { by rewrite <- Ea. } { rewrite <- Ea. lia. }
  exists s. cbn [fst snd manifest_reference parse_loop]. split_and!; [|done|].
  - rewrite <- Hs1. unfold parse_reference at 1.
    cbn [pr_expected_offset pr_total pr_digests pr_names pr_references rm_ordinal rm_display_filename
         rm_media_type rm_byte_length rm_sha256 rm_payload_offset].
    rewrite (bool_decide_eq_true_2 (Z.of_nat index = _)), (bool_decide_eq_true_2 (byte_size before = _)) by done.
    cbn [negb orb fail_if mbind Result_bind]. rewrite Hlen. cbn [fail_if].
    unfold MAX_INTENT_PACKAGE_BYTES in Hs.
    rewrite !package_add_small by (unfold U64_MAX; lia). cbn [mbind Result_bind].
    assert ((byte_size ((before ++ bytes) ++ concat rs.*2) <? byte_size before + byte_size bytes)%Z = false) as ->.
    { apply Z.ltb_ge. rewrite Ea. unfold byte_size. rewrite (length_app (before ++ bytes)). lia. }
    cbn [fail_if]. rewrite Htot. cbn [fail_if].
    assert (slice ((before ++ bytes) ++ concat rs.*2) (Z.to_nat (byte_size before))
      (Z.to_nat (byte_size before + byte_size bytes)) = bytes) as ->.
    { unfold slice, byte_size. rewrite <- app_assoc, Z2Nat.inj_add, !Nat2Z.id, drop_app_length by lia.
      replace (length before + length bytes - length before) with (length bytes) by lia. apply take_app_length. }
    rewrite sha256_hex_valid. cbn [mbind Result_bind].
    rewrite (bool_decide_eq_true_2 (sha256_hex bytes = _)) by done. cbn [negb fail_if]. rewrite Hdig, Hname. cbn [fail_if mbind Result_bind]. rewrite Hcheck. cbn [mbind Result_bind].
    by rewrite Ea.
  - rewrite Hs3, <- app_assoc. done.
Qed.

(** The parts of the bytes of a package. *)
Definition package_bytes (manifest : list Z) (rs : list (string * string * list Z)) : list Z :=
  INTENT_PACKAGE_MAGIC ++ be_bytes 4 (byte_size manifest) ++ manifest ++ concat rs.*2.

Lemma package_magic mb rs : take 8 (package_bytes mb rs) = INTENT_PACKAGE_MAGIC.
Proof. done. Qed.
Lemma package_length_field mb rs : (byte_size mb <= U32_MAX)%Z ->
  be_value (slice (package_bytes mb rs) 8 12) = byte_size mb.
Proof.
  intros Hmax. change (slice (package_bytes mb rs) 8 12) with (be_bytes 4 (byte_size mb)).
  rewrite be_value_be_bytes. apply Z.mod_small. unfold U32_MAX, byte_size in *.
  change (256 ^ Z.of_nat 4)%Z with 4294967296%Z. lia.
Qed.
Lemma package_after mb rs : drop 12 (package_bytes mb rs) = mb ++ concat rs.*2.
Proof. done. Qed.
Lemma package_manifest mb rs : slice (package_bytes mb rs) HEADER_BYTES (Z.to_nat (12 + byte_size mb)) = mb.
Proof.
  unfold slice, HEADER_BYTES, byte_size. rewrite package_after, Z2Nat.inj_add, Nat2Z.id by lia.
  replace (Z.to_nat 12 + length mb - 12) with (length mb) by lia. apply take_app_length.
Qed.
Lemma package_payload mb rs : drop (Z.to_nat (12 + byte_size mb)) (package_bytes mb rs) = concat rs.*2.
Proof.
  unfold byte_size. rewrite Z2Nat.inj_add, Nat2Z.id by lia. change (Z.to_nat 12) with 12.
  by rewrite <- drop_drop, package_after, drop_app_length.
Qed.

Lemma validate_input_Ok prompt rs : validate_input prompt rs = Ok tt ->
  prompt_is_empty prompt = false /\ (Z.of_nat (len prompt) <= MAX_WEB_PROMPT_BYTES)%Z /\
  length rs <= MAX_INTENT_REFERENCES /\ input_loop 0 ∅ ∅ rs = Ok tt.
Proof.
  unfold validate_input. intros Hv. apply bind_Ok in Hv as (?&Hp%fail_if_Ok&Hv).
  apply bind_Ok in Hv as (?&Hc%fail_if_Ok%Nat.ltb_ge&Hv). apply orb_false_iff in Hp as [Hp Hl%Z.ltb_ge]. done.
Qed.

Lemma build_Ok `{!ManifestCodec} created_at prompt rs bytes : build_intent_package created_at prompt rs = Ok bytes ->
  exists mb total ms, validate_input prompt rs = Ok tt /\ build_loop 0 0 rs = Ok (ms, total) /\
    manifest_to_vec {| mf_schema := INTENT_PACKAGE_SCHEMA; mf_created_at := created_at;
      mf_prompt := prompt_manifest prompt; mf_references := ms; mf_limits := expected_limits |} = Ok mb /\
    (byte_size mb <= MAX_MANIFEST_BYTES)%Z /\ bytes = package_bytes mb rs /\
    (12 + byte_size mb + total <= MAX_INTENT_PACKAGE_BYTES)%Z.
Proof.
  unfold build_intent_package. intros Hb. apply bind_Ok in Hb as ([]&Hv&Hb).
  apply bind_Ok in Hb as ([ms total]&Hl&Hb). cbn [fst snd] in Hb.
  apply bind_Ok in Hb as (mb&Hm%map_err_Ok&Hb). apply bind_Ok in Hb as (?&Hsz%fail_if_Ok&Hb).
  apply orb_false_iff in Hsz as [Hsz%Z.ltb_ge _].
  apply bind_Ok in Hb as (t&Ht%ok_or_Ok&Hb). apply bind_Ok in Hb as (?&Hmax%fail_if_Ok%Z.ltb_ge&Hb).
  injection Hb as <-. exists mb, total, ms. split_and!; try done.
  apply bind_Some in Ht as (v&Hv1&Hv2). unfold checked_add_u64, checked_add, HEADER_BYTES in Hv1, Hv2.
  repeat case_match; simplify_eq. lia.
Qed.

Lemma check_prompt_manifest prompt : prompt_is_empty prompt = false ->
  (Z.of_nat (len prompt) <= MAX_WEB_PROMPT_BYTES)%Z -> check_prompt (prompt_manifest prompt) = Ok tt.
Proof.
  intros He Hl. unfold check_prompt, prompt_manifest. cbn [pm_encoding pm_byte_length pm_sha256 pm_text].
  rewrite He, (proj2 (Z.ltb_ge _ _) Hl). unfold byte_size. rewrite bytes_of_length.
  rewrite !bool_decide_eq_true_2 by done. cbn [negb orb fail_if mbind Result_bind].
  by rewrite sha256_hex_valid.
Qed.

(** [C29] A package that was built is read back as what was put into it, in order,
    under the digest of its bytes. *)
Theorem package_round_trip `{!ManifestCodec} `{!ManifestCodecLaws} created_at prompt references bytes :
  build_intent_package created_at prompt references = Ok bytes ->
  parse_intent_package bytes = Ok {| ip_created_at := created_at; ip_prompt := prompt;
    ip_references := packed_from 0 references; ip_package_sha256 := sha256_hex bytes |}.
Proof.
  intros (mb&total&ms&Hv&Hl&Hm&Hsz&->&Hmax)%build_Ok.
  destruct (validate_input_Ok _ _ Hv) as (Hempty&Hlen&Hcount&Hloop).
  destruct (build_total _ _ _ _ _ Hl) as [-> Hms].
  destruct (parse_built references 0 [] ∅ ∅ [] ms _ Hloop Hl) as (s&Hs&Hoff&Hrefs).
  { change (byte_size []) with 0%Z. unfold byte_size in *. lia. }
  assert (0 < byte_size mb)%Z as Hpos.
  { pose proof (manifest_nonempty _ _ Hm). destruct mb; [done|]. unfold byte_size. simpl. lia. }
  assert (byte_size (package_bytes mb references) = 12 + byte_size mb + payload_size references)%Z as Htotal.
  { unfold package_bytes, payload_size, byte_size. rewrite !length_app, be_bytes_length. simpl. lia. }
  assert (0 <= payload_size references)%Z as Hpay by (unfold payload_size, byte_size; lia).
  unfold MAX_MANIFEST_BYTES, MAX_INTENT_PACKAGE_BYTES in *.
  unfold parse_intent_package. rewrite Htotal, package_magic, package_length_field by (unfold U32_MAX; lia).
  assert ((length (package_bytes mb references) <? HEADER_BYTES)%nat = false) as ->.
  { apply Nat.ltb_ge. unfold package_bytes, HEADER_BYTES. rewrite !length_app, be_bytes_length. simpl. lia. }
  unfold MAX_MANIFEST_BYTES, MAX_INTENT_PACKAGE_BYTES.
  rewrite (bool_decide_eq_true_2 (INTENT_PACKAGE_MAGIC = _)), (bool_decide_eq_false_2 (byte_size mb = _)) by (done || lia).
  rewrite (proj2 (Z.ltb_ge (64 * 1024 * 1024) _)), (proj2 (Z.ltb_ge (2 * 1024 * 1024) _)) by lia.
  cbn [negb orb fail_if mbind Result_bind]. change (Z.of_nat HEADER_BYTES) with 12%Z.
  rewrite package_add_small by (unfold U64_MAX; lia). cbn [mbind Result_bind].
  rewrite (proj2 (Z.ltb_ge (12 + byte_size mb + _) _)) by lia. cbn [fail_if mbind Result_bind].
  rewrite package_manifest, (manifest_round_trip _ _ Hm), package_payload.
  cbn [map_err mbind Result_bind mf_schema mf_limits mf_prompt mf_references mf_created_at].
  rewrite (bool_decide_eq_true_2 (INTENT_PACKAGE_SCHEMA = _)), (bool_decide_eq_true_2 (expected_limits = _)) by done.
  cbn [negb orb fail_if mbind Result_bind].
  rewrite check_prompt_manifest by done. cbn [mbind Result_bind].
  rewrite Hms, (proj2 (Nat.ltb_ge _ _)) by done. cbn [fail_if mbind Result_bind].
  change (byte_size []) with 0%Z in Hs. rewrite app_nil_l in Hs, Hoff. unfold parse_start. rewrite Hs.
  cbn [mbind Result_bind]. rewrite Hoff, bool_decide_eq_true_2 by done. cbn [negb fail_if mbind Result_bind].
  by rewrite Hrefs.
Qed.

(** What the loop has read so far: the payload up to the offset, cut at the
    ends of the references, each checked. *)
Record parsed (payload : list Z) (index : nat) (s : ParseState) : Prop := {
  pd_index : length (pr_references s) = index;
  pd_offset : pr_expected_offset s = byte_size (concat (ir_bytes <$> pr_references s));
  pd_payload : concat (ir_bytes <$> pr_references s) `prefix_of` payload;
  pd_total : pr_total s = pr_expected_offset s;
  pd_bound : (pr_total s <= MAX_WEB_REFERENCE_TOTAL_BYTES)%Z;
  pd_digests : pr_digests s = list_to_set (ir_sha256 <$> pr_references s);
  pd_names : pr_names s = list_to_set (to_ascii_lowercase ∘ ir_display_filename <$> pr_references s);
  pd_unique : NoDup (ir_sha256 <$> pr_references s);
  pd_unique_names : NoDup (to_ascii_lowercase ∘ ir_display_filename <$> pr_references s);
  pd_checked : forall i r, pr_references s !! i = Some r -> ir_ordinal r = i /\
    ir_sha256 r = sha256_hex (ir_bytes r) /\ (byte_size (ir_bytes r) <= MAX_WEB_REFERENCE_BYTES)%Z /\
    validate_private_reference_bytes (ir_display_filename r) (ir_media_type r) (ir_bytes r) = Ok tt }.

Lemma parsed_start payload : parsed payload 0 parse_start.
Proof. split; try done; try constructor. apply prefix_nil. Qed.

Lemma slice_prefix {payload : list Z} {before n} : before `prefix_of` payload ->
  (0 <= n)%Z -> (byte_size before + n <= byte_size payload)%Z ->
  exists after, slice payload (Z.to_nat (byte_size before)) (Z.to_nat (byte_size before + n)) = after /\
    byte_size after = n /\ before ++ after `prefix_of` payload.
Proof.
  intros [rest ->] Hn Hb. unfold slice, byte_size in *. rewrite length_app in Hb.
  rewrite Z2Nat.inj_add, Nat2Z.id, drop_app_length by lia.
  replace (length before + Z.to_nat n - length before) with (Z.to_nat n) by lia.
  eexists. split; [done|]. split; [rewrite length_take; lia|].
  exists (drop (Z.to_nat n) rest). by rewrite <- app_assoc, take_drop.
Qed.

Lemma NoDup_snoc_set `{Countable A} (l : list A) x : NoDup l -> x ∉ (list_to_set l : gset A) -> NoDup (l ++ [x]).
Proof.
  intros Hl Hx. rewrite elem_of_list_to_set in Hx. apply NoDup_app. split_and!; [done| |apply NoDup_singleton].
  intros y Hy ->%list_elem_of_singleton. done.
Qed.

Lemma parse_reference_parsed payload s index reference s' : (0 <= rm_byte_length reference)%Z ->
  parse_reference payload s index reference = Ok s' -> parsed payload index s -> parsed payload (S index) s'.
Proof.
  intros Hlen Hp [Hi Ho Hpre Ht Hb Hd Hn Hu Hun Hc]. unfold parse_reference in Hp.
  apply bind_Ok in Hp as (?&Hord%fail_if_Ok&Hp). apply bind_Ok in Hp as (?&H16%fail_if_Ok%Z.ltb_ge&Hp).
  apply bind_Ok in Hp as (e&->%package_add_Ok&Hp). apply bind_Ok in Hp as (?&Hend%fail_if_Ok%Z.ltb_ge&Hp).
  apply bind_Ok in Hp as (t&->%package_add_Ok&Hp). apply bind_Ok in Hp as (?&H48%fail_if_Ok%Z.ltb_ge&Hp).
  apply bind_Ok in Hp as (?&_&Hp). apply bind_Ok in Hp as (?&Hsha%fail_if_Ok&Hp).
  apply bind_Ok in Hp as (?&Hnd%fail_if_Ok%bool_decide_eq_false&Hp).
  apply bind_Ok in Hp as (?&Hnn%fail_if_Ok%bool_decide_eq_false&Hp).
  apply bind_Ok in Hp as ([]&Hcheck%map_err_Ok&[= <-]).
  rewrite Ho in Hend, Hsha, Hcheck |- *.
  destruct (slice_prefix Hpre Hlen Hend) as (bytes&Es&Hsz&Hpre'). rewrite Es in Hsha, Hcheck |- *.
  apply negb_false_iff, bool_decide_eq_true in Hsha. rewrite Hd in Hnd |- *. rewrite Hn in Hnn |- *.
  split; cbn [pr_expected_offset pr_total pr_digests pr_names pr_references];
    rewrite ?fmap_app, ?concat_app, ?list_to_set_app_L; cbn [fmap list_fmap concat compose ir_bytes ir_sha256 ir_display_filename];
    rewrite ?app_nil_r.
  - rewrite length_app, Hi. simpl. lia.
  - unfold byte_size in *. rewrite length_app. lia.
  - done.
  - by rewrite Ht, Ho.
  - done.
  - by rewrite list_to_set_cons, list_to_set_nil, union_empty_r_L, union_comm_L.
  - by rewrite list_to_set_cons, list_to_set_nil, union_empty_r_L, union_comm_L.
  - by apply NoDup_snoc_set.
  - by apply NoDup_snoc_set.
  - intros i r [Hr|[Hlt Hr]]%lookup_app_Some; [by apply Hc|].
    apply list_lookup_singleton_Some in Hr as [Hz <-]. cbn. split_and!; try done; [lia|]. by rewrite Hsz.
Qed.

Lemma parse_loop_parsed payload refs : forall s index s', Forall (λ r, 0 <= rm_byte_length r)%Z refs ->
  parse_loop payload s index refs = Ok s' -> parsed payload index s -> parsed payload (index + length refs) s'.
Proof.
  induction refs as [|r refs IH]; intros s index s' Hf Hp Hs; cbn [parse_loop] in Hp.
  { injection Hp as <-. by rewrite Nat.add_0_r. }
  apply Forall_cons in Hf as [Hr Hf]. apply bind_Ok in Hp as (s1&H1&Hp).
  apply parse_reference_parsed in H1; [|done..]. cbn [length]. rewrite <- Nat.add_succ_comm. by eapply IH.
Qed.

Lemma parse_Ok `{!ManifestCodec} bytes p : parse_intent_package bytes = Ok p ->
  exists n m s, (byte_size bytes <= 67108864)%Z /\ 12 <= length bytes /\ take 8 bytes = INTENT_PACKAGE_MAGIC /\
    be_value (slice bytes 8 12) = n /\ (n <> 0 /\ n <= 2097152 /\ 12 + n <= byte_size bytes)%Z /\
    manifest_from_slice (slice bytes 12 (Z.to_nat (12 + n))) = Ok m /\ check_prompt (mf_prompt m) = Ok tt /\
    length (mf_references m) <= 8 /\
    parse_loop (drop (Z.to_nat (12 + n)) bytes) parse_start 0 (mf_references m) = Ok s /\
    pr_expected_offset s = byte_size (drop (Z.to_nat (12 + n)) bytes) /\
    p = {| ip_created_at := mf_created_at m; ip_prompt := pm_text (mf_prompt m);
           ip_references := pr_references s; ip_package_sha256 := sha256_hex bytes |}.
Proof.
  unfold parse_intent_package. intros Hp. apply bind_Ok in Hp as (?&Hmax%fail_if_Ok%Z.ltb_ge&Hp).
  apply bind_Ok in Hp as (?&Hh%fail_if_Ok&Hp). apply orb_false_iff in Hh as [Hlen%Nat.ltb_ge Hmagic].
  apply negb_false_iff, bool_decide_eq_true in Hmagic.
  apply bind_Ok in Hp as (?&Hn%fail_if_Ok&Hp). apply orb_false_iff in Hn as [Hn%bool_decide_eq_false Hn2%Z.ltb_ge].
  apply bind_Ok in Hp as (st&->%package_add_Ok&Hp). apply bind_Ok in Hp as (?&Hst%fail_if_Ok%Z.ltb_ge&Hp).
  apply bind_Ok in Hp as (m&Hm%map_err_Ok&Hp). apply bind_Ok in Hp as (?&_&Hp).
  apply bind_Ok in Hp as ([]&Hprompt&Hp). apply bind_Ok in Hp as (?&Hc%fail_if_Ok%Nat.ltb_ge&Hp).
  apply bind_Ok in Hp as (s&Hs&Hp). apply bind_Ok in Hp as (?&He%fail_if_Ok&[= <-]).
  apply negb_false_iff, bool_decide_eq_true in He. exists (be_value (slice bytes 8 12)), m, s. split_and!; done.
Qed.

Lemma header_split bytes n : Forall (λ b, 0 <= b < 256)%Z bytes -> 12 <= length bytes ->
  take 8 bytes = INTENT_PACKAGE_MAGIC -> be_value (slice bytes 8 12) = n -> (12 + n <= byte_size bytes)%Z ->
  let manifest := slice bytes 12 (12 + Z.to_nat n) in
  bytes = INTENT_PACKAGE_MAGIC ++ be_bytes 4 (byte_size manifest) ++ manifest ++ drop (Z.to_nat (12 + n)) bytes /\
  byte_size manifest = n /\ (0 <= n)%Z.
Proof.
  intros Hb Hlen Hmagic Hn Hsz manifest.
  assert (Forall (λ b, 0 <= b < 256)%Z (slice bytes 8 12)) as Hbs by (by apply Forall_take, Forall_drop).
  assert (length (slice bytes 8 12) = 4) as Hl4 by (unfold slice; rewrite length_take, length_drop; lia).
  pose proof (be_value_nonneg _ Hbs) as Hn0. rewrite Hn in Hn0.
  assert (byte_size manifest = n) as Hms.
  { unfold manifest, slice, byte_size in *. rewrite length_take, length_drop. lia. }
  split; [|done]. rewrite Hms. rewrite <- Hn at 1. rewrite <- Hl4 at 1. rewrite be_bytes_be_value by done.
  rewrite <- Hmagic. unfold manifest, slice.
  replace (12 - 8) with 4 by lia. replace (12 + Z.to_nat n - 12) with (Z.to_nat n) by lia.
  rewrite Z2Nat.inj_add by lia. change (Z.to_nat 12) with 12.
  rewrite <- (drop_drop bytes (Z.to_nat n) 12), take_drop.
  change 12 with (8 + 4) at 1. by rewrite <- (drop_drop bytes 4 8), !take_drop.
Qed.

Lemma check_prompt_Ok m : check_prompt m = Ok tt ->
  prompt_is_empty (pm_text m) = false /\ (Z.of_nat (len (pm_text m)) <= 1048576)%Z.
Proof.
  unfold check_prompt. intros Hp. apply bind_Ok in Hp as (?&Hf%fail_if_Ok&_).
  apply orb_false_iff in Hf as [Hf He]. apply orb_false_iff in Hf as [Hf Hmax%Z.ltb_ge].
  apply orb_false_iff in Hf as [_ Hs%negb_false_iff%bool_decide_eq_true]. split; [done|].
  unfold byte_size in Hs. rewrite bytes_of_length in Hs. unfold MAX_WEB_PROMPT_BYTES in Hmax. lia.
Qed.

(** [C28] A package that is read accounts for every byte: its magic, the length of
    the manifest, the manifest, and then exactly the references, in order and
    without gap, overlap or trailing bytes; each reference is an image of the
    kind its name and media type say, under the digest of its bytes; no
    contents and no names, up to case, repeat; and everything is within the
    published bounds. *)
Theorem package_accounted `{!ManifestCodec} `{!ManifestCodecLaws} bytes p :
  Forall (λ b, 0 <= b < 256)%Z bytes -> parse_intent_package bytes = Ok p ->
  exists manifest, bytes = INTENT_PACKAGE_MAGIC ++ be_bytes 4 (byte_size manifest) ++ manifest
      ++ concat (ir_bytes <$> ip_references p) /\
    (0 < byte_size manifest <= 2097152)%Z /\ (byte_size bytes <= 67108864)%Z /\
    prompt_is_empty (ip_prompt p) = false /\ (Z.of_nat (len (ip_prompt p)) <= 1048576)%Z /\
    length (ip_references p) <= 8 /\
    (byte_size (concat (ir_bytes <$> ip_references p)) <= 50331648)%Z /\
    NoDup (ir_sha256 <$> ip_references p) /\
    NoDup (to_ascii_lowercase ∘ ir_display_filename <$> ip_references p) /\
    (forall i r, ip_references p !! i = Some r -> ir_ordinal r = i /\
       ir_sha256 r = sha256_hex (ir_bytes r) /\ (byte_size (ir_bytes r) <= 16777216)%Z /\
       validate_private_reference_bytes (ir_display_filename r) (ir_media_type r) (ir_bytes r) = Ok tt) /\
    ip_package_sha256 p = sha256_hex bytes.
Proof.
  intros Hbound (n&m&s&Hmax&Hlen&Hmagic&Hn&Hstart&Hm&Hprompt&Hcount&Hloop&Hend&->)%parse_Ok.
  cbn [ip_references ip_prompt ip_package_sha256].
  destruct (header_split bytes n Hbound Hlen Hmagic Hn ltac:(lia)) as (E&Hslice&Hn0).
  pose proof (manifest_lengths _ _ Hm) as Hlens.
  apply (parse_loop_parsed _ _ _ _ _ Hlens) in Hloop; [|apply parsed_start].
  destruct Hloop as [Hi Ho [rest Hpre] Ht Hb _ _ Hu Hun Hc]. cbn [Nat.add] in Hi.
  assert (rest = []) as ->.
  { apply (f_equal length) in Hpre. rewrite length_app in Hpre. apply (f_equal Z.of_nat) in Hpre.
    unfold byte_size in *. destruct rest; [done|]. simpl in Hpre. lia. }
  rewrite app_nil_r in Hpre. exists (slice bytes 12 (12 + Z.to_nat n)).
  apply check_prompt_Ok in Hprompt as [Hempty Hplen].
  unfold MAX_WEB_REFERENCE_TOTAL_BYTES, MAX_WEB_REFERENCE_BYTES in *.
  split_and!; try done; [by rewrite <- Hpre|lia..].
Qed.
End laws.
