(* ===== verification/PendingIntentions.v ===== *)
(** * Pending intentions

    [engine/src/pending_intention.rs]: the private store of packages that were
    imported and wait for their command. An operation is a sequence of changes of
    the store, each one system call; it may crash before any of them, and is
    otherwise alone in the store while it holds the lock. The random identifiers,
    the clock's answer and what a crash leaves of a directory that is being
    removed are arguments. Failures of the operating system on an entry of the
    expected kind are not modelled. *)
From S2P Require Import Prelude CrashIo Text Digest FileTree IntentPackage.

Definition RECORD_SCHEMA : string := "tohseno.local-pending-intention/1".
Definition RECEIPT_SCHEMA : string := "tohseno.local-pending-intention-receipt/1".
Definition MAX_PRIVATE_JSON_BYTES : Z := 2 * 1024 * 1024.

Inductive PendingIntentionSource := SourceRelay | SourcePortableFile.
Inductive PendingIntentionState := PendingReady | PendingConsumed.
#[export] Instance PendingIntentionSource_eq_dec : EqDecision PendingIntentionSource.
Proof. solve_decision. Defined.
#[export] Instance PendingIntentionState_eq_dec : EqDecision PendingIntentionState.
Proof. solve_decision. Defined.

Record LocalPendingReference := {
  lr_ordinal : nat;
  lr_display_filename : string;
  lr_media_type : string;
  lr_byte_length : Z;
  lr_sha256 : string;
  lr_storage_file : string }.
#[export] Instance LocalPendingReference_eq_dec : EqDecision LocalPendingReference.
Proof. solve_decision. Defined.

Record LocalPendingIntention := {
  lp_schema : string;
  lp_id : string;
  lp_package_schema : string;
  lp_package_sha256 : string;
  lp_prompt : string;
  lp_prompt_sha256 : string;
  lp_references : list LocalPendingReference;
  lp_imported_at : string;
  lp_source : PendingIntentionSource;
  lp_state : PendingIntentionState;
  lp_import_receipt : option string }.
#[export] Instance LocalPendingIntention_eq_dec : EqDecision LocalPendingIntention.
Proof. solve_decision. Defined.

Record IntentionReceipt := {
  rc_schema : string;
  rc_package_sha256 : string;
  rc_pending_id : string;
  rc_state : PendingIntentionState;
  rc_imported_at : string }.

(** The kinds of [io::Error] that the store's own calls meet. *)
Inductive PendingIoError := PendingMissing | PendingExists | PendingNotEmpty | PendingNotDirectory.
Inductive PendingIntentionError : Type :=
  | PendingIo (error : PendingIoError)
  | PendingJson (error : string)
  | PendingPackage (error : IntentPackageError)
  | PendingInvalid (reason : string).
Abbreviation pending_result := (Result PendingIntentionError).

(** [serde_json] on the two records. *)
Class IntentionCodec := {
  record_to_vec : LocalPendingIntention -> Result string (list Z);
  record_from_slice : list Z -> Result string LocalPendingIntention;
  receipt_to_vec : IntentionReceipt -> Result string (list Z);
  receipt_from_slice : list Z -> Result string IntentionReceipt }.

(** ** The store *)

(** The directory of a record: [record.json] and [references/]. *)
Record RecordDirectory := {
  rd_record : option PrivateFile;
  rd_references : option (gmap string PrivateFile) }.
Definition empty_record_directory : RecordDirectory := {| rd_record := None; rd_references := None |}.
Inductive RecordEntry := RecordDir (d : RecordDirectory) | UnsafeRecord.
#[export] Instance RecordDirectory_eq_dec : EqDecision RecordDirectory.
Proof. solve_decision. Defined.

(** The root, [records/] by name, [receipts/] by the digest in the name, and
    what a crash can leave beside them: the directories [.stage-*] and the files
    [receipts/.receipt-*], by the random part of their names. *)
Record IntentionStore := {
  is_root : DirKind;
  is_records_dir : DirKind;
  is_receipts_dir : DirKind;
  is_stages : gmap string RecordDirectory;
  is_records : gmap string RecordEntry;
  is_temporaries : gmap string (list Z);
  is_receipts : gmap string PrivateFile }.

Definition set_kinds (root records receipts : DirKind) (s : IntentionStore) : IntentionStore :=
  {| is_root := root; is_records_dir := records; is_receipts_dir := receipts; is_stages := is_stages s;
     is_records := is_records s; is_temporaries := is_temporaries s; is_receipts := is_receipts s |}.
Definition set_stages (m : gmap string RecordDirectory) (s : IntentionStore) : IntentionStore :=
  {| is_root := is_root s; is_records_dir := is_records_dir s; is_receipts_dir := is_receipts_dir s;
     is_stages := m; is_records := is_records s; is_temporaries := is_temporaries s;
     is_receipts := is_receipts s |}.
Definition set_records (m : gmap string RecordEntry) (s : IntentionStore) : IntentionStore :=
  {| is_root := is_root s; is_records_dir := is_records_dir s; is_receipts_dir := is_receipts_dir s;
     is_stages := is_stages s; is_records := m; is_temporaries := is_temporaries s;
     is_receipts := is_receipts s |}.
Definition set_receipts (temporaries : gmap string (list Z)) (m : gmap string PrivateFile)
    (s : IntentionStore) : IntentionStore :=
  {| is_root := is_root s; is_records_dir := is_records_dir s; is_receipts_dir := is_receipts_dir s;
     is_stages := is_stages s; is_records := is_records s; is_temporaries := temporaries;
     is_receipts := m |}.

(** The order in which [read_dir] lists the records. *)
Class RecordListing := {
  list_records : gmap string RecordEntry -> list string;
  list_records_all : forall m id, id ∈ list_records m <-> is_Some (m !! id) }.

(** ** Validation *)

Definition pending_invalid {T} (reason : string) : pending_result T := Err (PendingInvalid reason).

Definition validate_intention_id (id : string) : pending_result unit :=
  fail_if (negb (len id =? 32)%nat || existsb (λ b, negb (is_lower_hex b)) (bytes_of id))
    (PendingInvalid "pending intention ID is malformed").
Definition validate_intention_digest (digest : string) : pending_result unit :=
  fail_if (negb (len digest =? 64)%nat || existsb (λ b, negb (is_lower_hex b)) (bytes_of digest))
    (PendingInvalid "pending intention digest is malformed").

(** [format!("{ordinal:06}")] *)
Definition storage_name (ordinal : nat) : string :=
  let digits := bytes_of (pretty ordinal) in
  string_of (replicate (6 - length digits) 48%Z ++ digits).

Fixpoint references_in_order (ordinal : nat) (references : list LocalPendingReference) : bool :=
  match references with
  | [] => true
  | r :: references =>
      (lr_ordinal r =? ordinal)%nat && (lr_storage_file r == storage_name ordinal)
      && references_in_order (S ordinal) references
  end.

Section store.
Context `{Platform} `{IntentionCodec}.

Definition validate_intention (record : LocalPendingIntention) (expected_id : string) : pending_result unit :=
  fail_if ((lp_schema record != RECORD_SCHEMA) || (lp_package_schema record != INTENT_PACKAGE_SCHEMA)
           || (lp_id record != expected_id))
    (PendingInvalid "pending intention record is corrupt") ;;
  validate_intention_id (lp_id record) ;;
  validate_intention_digest (lp_package_sha256 record) ;;
  fail_if (prompt_is_empty (lp_prompt record) || (8 <? length (lp_references record))%nat
           || (sha256_hex (bytes_of (lp_prompt record)) != lp_prompt_sha256 record))
    (PendingInvalid "pending intention content is invalid") ;;
  fail_if (negb (references_in_order 0 (lp_references record)))
    (PendingInvalid "pending intention reference order is corrupt").

(** ** Reading *)

Definition read_private_bounded (file : option PrivateFile) (maximum : Z) : pending_result (list Z) :=
  match file with
  | None => Err (PendingIo PendingMissing)
  | Some SpecialFile => pending_invalid "pending intention metadata is unsafe or too large"
  | Some (PrivateBytes bytes) =>
      fail_if (maximum <? byte_size bytes)
        (PendingInvalid "pending intention metadata is unsafe or too large") ;;
      Ok bytes
  end.
Definition read_private_json {A} (from_slice : list Z -> Result string A) (file : option PrivateFile)
    : pending_result A :=
  bytes ← read_private_bounded file MAX_PRIVATE_JSON_BYTES;
  map_err PendingJson (from_slice bytes).

(** [require_real_directory] of the directory of a record. *)
Definition require_record_directory (s : IntentionStore) (id : string) : pending_result RecordDirectory :=
  match is_records s !! id with
  | None => Err (PendingIo PendingMissing)
  | Some UnsafeRecord => pending_invalid "pending intention path is unsafe"
  | Some (RecordDir d) => Ok d
  end.

Definition load_intention (s : IntentionStore) (id : string) : pending_result LocalPendingIntention :=
  validate_intention_id id ;;
  directory ← require_record_directory s id;
  record ← read_private_json record_from_slice (rd_record directory);
  validate_intention record id ;;
  fail_if (lp_state record != PendingReady) (PendingInvalid "pending intention is not ready") ;;
  Ok record.

Definition reference_file (s : IntentionStore) (id name : string) : option PrivateFile :=
  match is_records s !! id with
  | Some (RecordDir d) => references ← rd_references d; references !! name
  | _ => None
  end.

Definition read_reference (s : IntentionStore) (id : string) (ordinal : nat) : pending_result (list Z) :=
  record ← load_intention s id;
  reference ← ok_or (PendingInvalid "pending intention reference does not exist")
                (lp_references record !! ordinal);
  bytes ← read_private_bounded (reference_file s id (lr_storage_file reference)) (lr_byte_length reference);
  fail_if (byte_size bytes != lr_byte_length reference)
    (PendingInvalid "pending intention reference storage is unsafe or corrupt") ;;
  map_err (λ error, PendingInvalid (display_layout_error error))
    (validate_private_reference_bytes (lr_display_filename reference) (lr_media_type reference) bytes) ;;
  fail_if (sha256_hex bytes != lr_sha256 reference)
    (PendingInvalid "pending intention reference digest changed") ;;
  Ok bytes.

(** What [find_by_digest] returns for a package that was consumed. *)
Definition consumed_record (receipt : IntentionReceipt) : LocalPendingIntention := {|
  lp_schema := RECORD_SCHEMA; lp_id := rc_pending_id receipt; lp_package_schema := INTENT_PACKAGE_SCHEMA;
  lp_package_sha256 := rc_package_sha256 receipt; lp_prompt := ""; lp_prompt_sha256 := sha256_hex [];
  lp_references := []; lp_imported_at := rc_imported_at receipt; lp_source := SourcePortableFile;
  lp_state := PendingConsumed; lp_import_receipt := Some "already-consumed" |}.

(** The scan for a record whose receipt was not written. *)
Fixpoint find_unreceipted (s : IntentionStore) (digest : string) (ids : list string)
    : pending_result (option LocalPendingIntention) :=
  match ids with
  | [] => Ok None
  | id :: ids =>
      if negb (is_ok (validate_intention_id id)) then find_unreceipted s digest ids
      else
        record ← load_intention s id;
        if lp_package_sha256 record == digest then Ok (Some record)
        else find_unreceipted s digest ids
  end.

Definition find_by_digest `{RecordListing} (s : IntentionStore) (digest : string)
    : pending_result (option LocalPendingIntention) :=
  validate_intention_digest digest ;;
  match is_receipts s !! digest with
  | Some file =>
      receipt ← read_private_json receipt_from_slice (Some file);
      fail_if ((rc_schema receipt != RECEIPT_SCHEMA) || (rc_package_sha256 receipt != digest))
        (PendingInvalid "pending intention receipt is corrupt") ;;
      if rc_state receipt == PendingReady then
        record ← load_intention s (rc_pending_id receipt);
        Ok (Some record)
      else Ok (Some (consumed_record receipt))
  | None => find_unreceipted s digest (list_records (is_records s))
  end.
End store.

(** ** Operations that change the store *)

Abbreviation Io := (Crashing IntentionStore PendingIntentionError).

Section operations.
Context `{Platform} `{IntentionCodec} `{RecordListing}.

(** [ensure_private_directory], [kind] being what is there. *)
Definition ensure_private_directory (kind : IntentionStore -> DirKind)
    (create : IntentionStore -> IntentionStore) : Io unit :=
  found ← gets (λ s, Ok (kind s));
  match found with
  | UnsafeDir => lift (pending_invalid "pending intention path is unsafe")
  | RealDir => lift (Ok tt)
  | NoDir => change create
  end.
Definition initialize_intentions : Io unit :=
  ensure_private_directory is_root (λ s, set_kinds RealDir (is_records_dir s) (is_receipts_dir s) s) ;;
  ensure_private_directory is_records_dir (λ s, set_kinds (is_root s) RealDir (is_receipts_dir s) s) ;;
  ensure_private_directory is_receipts_dir (λ s, set_kinds (is_root s) (is_records_dir s) RealDir s).

(** The staged directory of a record. *)
Definition on_stage (id : string) (f : RecordDirectory -> RecordDirectory) (s : IntentionStore)
    : IntentionStore := set_stages (alter f id (is_stages s)) s.
Definition put_reference (name : string) (bytes : list Z) (d : RecordDirectory) : RecordDirectory :=
  {| rd_record := rd_record d;
     rd_references := insert name (PrivateBytes bytes) <$> rd_references d |}.
Definition put_record (bytes : list Z) (d : RecordDirectory) : RecordDirectory :=
  {| rd_record := Some (PrivateBytes bytes); rd_references := rd_references d |}.

(** [write_private_new]: the file appears empty, then has its contents. The
    names in a stage that was just created are free. *)
Definition stage_file (id : string) (put : list Z -> RecordDirectory -> RecordDirectory) (bytes : list Z)
    : Io unit := change (on_stage id (put [])) ;; change (on_stage id (put bytes)).

Definition local_reference (r : IntentPackageReference) : LocalPendingReference := {|
  lr_ordinal := ir_ordinal r; lr_display_filename := ir_display_filename r;
  lr_media_type := ir_media_type r; lr_byte_length := byte_size (ir_bytes r);
  lr_sha256 := ir_sha256 r; lr_storage_file := storage_name (ir_ordinal r) |}.

Fixpoint stage_references (id : string) (references : list IntentPackageReference)
    : Io (list LocalPendingReference) :=
  match references with
  | [] => mret []
  | r :: references =>
      stage_file id (put_reference (storage_name (ir_ordinal r))) (ir_bytes r) ;;
      rest ← stage_references id references;
      mret (local_reference r :: rest)
  end.

(** [fs::rename(&stage, &destination)]: a directory replaces nothing but an
    empty directory. *)
Definition publish_stage (id : string) : Io unit :=
  gets (λ s, match is_records s !! id with
             | None => Ok tt
             | Some UnsafeRecord => Err (PendingIo PendingNotDirectory)
             | Some (RecordDir d) =>
                 fail_if (negb (bool_decide (d = empty_record_directory))) (PendingIo PendingNotEmpty)
             end) ;;
  change (λ s, match is_stages s !! id with
               | Some d => set_stages (delete id (is_stages s))
                             (set_records (<[id := RecordDir d]> (is_records s)) s)
               | None => s
               end).

(** [write_private_replace] of the receipt, through a file named with [random]. *)
Definition write_receipt (random : string) (receipt : IntentionReceipt) : Io unit :=
  lift (validate_intention_digest (rc_package_sha256 receipt)) ;;
  bytes ← lift (map_err PendingJson (receipt_to_vec receipt));
  gets (λ s, fail_if (is_receipts_dir s != RealDir) (PendingInvalid "pending intention path is unsafe")) ;;
  gets (λ s, match is_receipts s !! rc_package_sha256 receipt with
             | Some SpecialFile => pending_invalid "pending receipt target is unsafe"
             | _ => Ok tt
             end) ;;
  gets (λ s, fail_if (opt_is_some (is_temporaries s !! random)) (PendingIo PendingExists)) ;;
  change (λ s, set_receipts (<[random := []]> (is_temporaries s)) (is_receipts s) s) ;;
  change (λ s, set_receipts (<[random := bytes]> (is_temporaries s)) (is_receipts s) s) ;;
  change (λ s, set_receipts (delete random (is_temporaries s))
                 (<[rc_package_sha256 receipt := PrivateBytes bytes]> (is_receipts s)) s).

Definition receipt_for (record : LocalPendingIntention) (state : PendingIntentionState) : IntentionReceipt := {|
  rc_schema := RECEIPT_SCHEMA; rc_package_sha256 := lp_package_sha256 record;
  rc_pending_id := lp_id record; rc_state := state; rc_imported_at := lp_imported_at record |}.

Definition intention_record (package : IntentPackage) (source : PendingIntentionSource)
    (id imported_at : string) (references : list LocalPendingReference) : LocalPendingIntention := {|
  lp_schema := RECORD_SCHEMA; lp_id := id; lp_package_schema := INTENT_PACKAGE_SCHEMA;
  lp_package_sha256 := ip_package_sha256 package; lp_prompt := ip_prompt package;
  lp_prompt_sha256 := sha256_hex (bytes_of (ip_prompt package)); lp_references := references;
  lp_imported_at := imported_at; lp_source := source; lp_state := PendingReady;
  lp_import_receipt := None |}.

(** The closure of [import]. *)
Definition stage_and_publish (package : IntentPackage) (source : PendingIntentionSource)
    (id random imported_at : string) : Io LocalPendingIntention :=
  change (on_stage id (λ d, {| rd_record := rd_record d; rd_references := Some ∅ |})) ;;
  references ← stage_references id (ip_references package);
  let record := intention_record package source id imported_at references in
  bytes ← lift (map_err PendingJson (record_to_vec record));
  stage_file id put_record bytes ;;
  publish_stage id ;;
  write_receipt random (receipt_for record PendingReady) ;;
  mret record.

Definition import_intention (package : IntentPackage) (source : PendingIntentionSource)
    (id random imported_at : string) : Io LocalPendingIntention :=
  initialize_intentions ;;
  existing ← gets (λ s, find_by_digest s (ip_package_sha256 package));
  match existing with
  | Some record => mret record
  | None =>
      gets (λ s, fail_if (opt_is_some (is_stages s !! id)) (PendingIo PendingExists)) ;;
      change (λ s, set_stages (<[id := empty_record_directory]> (is_stages s)) s) ;;
      and_then_always (stage_and_publish package source id random imported_at)
        (left_over ← gets (λ s, Ok (opt_is_some (is_stages s !! id)));
         io_when left_over (change (λ s, set_stages (delete id (is_stages s)) s)))
  end.

Definition import_bytes `{ManifestCodec} (bytes : list Z) (source : PendingIntentionSource)
    (id random imported_at : string) : Io LocalPendingIntention :=
  package ← lift (map_err PendingPackage (parse_intent_package bytes));
  import_intention package source id random imported_at.

(** [fs::remove_dir_all] of the directory of a record, [remains] being what a
    crash leaves of it. *)
Definition remove_record (remains : RecordDirectory -> RecordDirectory) (id : string) : Io unit :=
  change_partly
    (λ s, match is_records s !! id with
          | Some (RecordDir d) => set_records (<[id := RecordDir (remains d)]> (is_records s)) s
          | _ => s
          end)
    (λ s, set_records (delete id (is_records s)) s).

Definition changed_before_consumption : PendingIntentionError :=
  PendingInvalid "pending intention changed before consumption".

(** The rest of [consume_loaded] when the receipt does not say that [expected]
    was consumed. *)
Definition consume_ready (remains : RecordDirectory -> RecordDirectory) (random : string)
    (expected : LocalPendingIntention) : Io unit :=
  record ← gets (λ s, load_intention s (lp_id expected));
  lift (fail_if (record != expected) changed_before_consumption) ;;
  write_receipt random (receipt_for record PendingConsumed) ;;
  gets (λ s, require_record_directory s (lp_id record)) ;;
  remove_record remains (lp_id record).

Definition consumed_already (receipt : IntentionReceipt) (expected : LocalPendingIntention) : bool :=
  (rc_schema receipt == RECEIPT_SCHEMA) && (rc_package_sha256 receipt == lp_package_sha256 expected)
  && (rc_pending_id receipt == lp_id expected) && (rc_state receipt == PendingConsumed).

Definition consume_loaded (remains : RecordDirectory -> RecordDirectory) (random : string)
    (expected : LocalPendingIntention) : Io unit :=
  initialize_intentions ;;
  lift (validate_intention expected (lp_id expected)) ;;
  file ← gets (λ s, Ok (is_receipts s !! lp_package_sha256 expected));
  match file with
  | Some SpecialFile => lift (pending_invalid "pending intention receipt is unsafe")
  | None => consume_ready remains random expected
  | Some _ =>
      receipt ← lift (read_private_json receipt_from_slice file);
      if consumed_already receipt expected then
        present ← gets (λ s, Ok (opt_is_some (is_records s !! lp_id expected)));
        io_when present
          (gets (λ s, require_record_directory s (lp_id expected)) ;;
           current ← gets (λ s, load_intention s (lp_id expected));
           lift (fail_if (current != expected) changed_before_consumption) ;;
           remove_record remains (lp_id expected))
      else consume_ready remains random expected
  end.

Definition consume_intention (remains : RecordDirectory -> RecordDirectory) (random id : string) : Io unit :=
  record ← gets (λ s, load_intention s id);
  consume_loaded remains random record.

(** [materialize_references] into a directory that does not exist yet: the
    files it holds afterwards, by name, and the paths in order. *)
Fixpoint materialize_loop (s : IntentionStore) (id : string) (files : gmap string (list Z))
    (references : list LocalPendingReference) : gmap string (list Z) * pending_result (list string) :=
  match references with
  | [] => (files, Ok [])
  | r :: references =>
      match read_reference s id (lr_ordinal r) with
      | Err e => (files, Err e)
      | Ok bytes =>
          if opt_is_some (files !! lr_display_filename r) then (files, Err (PendingIo PendingExists))
          else
            let '(files, rest) := materialize_loop s id (<[lr_display_filename r := bytes]> files) references in
            (files, paths ← rest; Ok (lr_display_filename r :: paths))
      end
  end.
Definition materialize_references (s : IntentionStore) (id : string) (destination_exists : bool)
    : gmap string (list Z) * pending_result (list string) :=
  if destination_exists then (∅, pending_invalid "reference staging destination already exists")
  else match load_intention s id with
       | Err e => (∅, Err e)
       | Ok record => materialize_loop s id ∅ (lp_references record)
       end.
End operations.
