(* ===== verification/PendingIntentionsLaws.v ===== *)
(** * Laws of pending intentions

    In the logic of [CrashIo]: over any sequence of operations and crashes a package keeps
    the identifier it first got, and what was consumed stays consumed. *)
From S2P Require Import Prelude CrashIo Text Digest FileTree IntentPackage IntentPackageLaws PendingIntentions.

Abbreviation Pred := (IntentionStore -> Prop).

(** What a crash leaves of a directory that is removed: its record, or none. *)
Definition leaves_part (remains : RecordDirectory -> RecordDirectory) : Prop :=
  forall d, rd_record (remains d) = rd_record d \/ rd_record (remains d) = None.

(** What the writer and the reader of the two records promise together. *)
Class IntentionCodecLaws `{IntentionCodec} := {
  record_round_trip : forall r bytes, record_to_vec r = Ok bytes -> record_from_slice bytes = Ok r;
  receipt_round_trip : forall r bytes, receipt_to_vec r = Ok bytes -> receipt_from_slice bytes = Ok r }.

Section laws.
Context `{Platform} `{IntentionCodec} `{!IntentionCodecLaws} `{RecordListing}.

(** ** The invariant *)

Definition record_at (s : IntentionStore) (id : string) (r : LocalPendingIntention) : Prop :=
  exists d bytes, is_records s !! id = Some (RecordDir d) /\ rd_record d = Some (PrivateBytes bytes) /\
    record_from_slice bytes = Ok r.
Definition receipt_at (s : IntentionStore) (digest : string) (rc : IntentionReceipt) : Prop :=
  exists bytes, is_receipts s !! digest = Some (PrivateBytes bytes) /\ receipt_from_slice bytes = Ok rc.

(** The identifier of a package, as its receipt or its record says. *)
Definition bound (s : IntentionStore) (digest id : string) : Prop :=
  (exists rc, receipt_at s digest rc /\ rc_pending_id rc = id) \/
  (exists r, record_at s id r /\ lp_package_sha256 r = digest).
Definition consumed (s : IntentionStore) (digest : string) : Prop :=
  exists rc, receipt_at s digest rc /\ rc_state rc = PendingConsumed.

Record sound (s : IntentionStore) : Prop := {
  so_ids : forall id, is_Some (is_records s !! id) -> validate_intention_id id = Ok tt;
  so_unique : forall digest i j, bound s digest i -> bound s digest j -> i = j;
  so_ready : forall digest rc, receipt_at s digest rc -> rc_state rc = PendingReady ->
    exists r, record_at s (rc_pending_id rc) r /\ lp_package_sha256 r = digest }.

(** What every operation keeps of the store it started from. *)
Definition keeps (s0 s : IntentionStore) : Prop :=
  sound s /\ (forall digest id, bound s0 digest id -> bound s digest id) /\
  (forall digest, consumed s0 digest -> consumed s digest).

Lemma keeps_refl s : sound s -> keeps s s.
Proof. intros Hs. by split_and!. Qed.
Lemma keeps_trans s0 s1 s2 : keeps s0 s1 -> keeps s1 s2 -> keeps s0 s2.
Proof. intros (_&Hb1&Hc1) (Hs&Hb2&Hc2). split_and!; auto. Qed.

(** Only the records and the receipts matter. *)
Definition same_content (s s' : IntentionStore) : Prop :=
  is_records s' = is_records s /\ is_receipts s' = is_receipts s.
Lemma same_bound s s' digest id : same_content s s' -> bound s digest id -> bound s' digest id.
Proof. intros [Er Ec]. unfold bound, record_at, receipt_at. by rewrite Er, Ec. Qed.
Lemma same_content_sym s s' : same_content s s' -> same_content s' s.
Proof. by intros []. Qed.
Lemma sound_same s s' : same_content s s' -> sound s -> sound s'.
Proof.
  intros [Er Ec] [Hi Hu Hr]. split; unfold bound, record_at, receipt_at in *; by rewrite ?Er, ?Ec.
Qed.
Lemma keeps_same s0 s s' : same_content s s' -> keeps s0 s -> keeps s0 s'.
Proof.
  intros Hc (Hs&Hb&Hcons). split_and!; [by eapply sound_same| |].
  - intros digest id Hd. by eapply same_bound, Hb.
  - intros digest Hd. apply Hcons in Hd. destruct Hc as [_ Ec]. unfold consumed, receipt_at in *. by rewrite Ec.
Qed.

Lemma record_at_functional s id r r' : record_at s id r -> record_at s id r' -> r = r'.
Proof. intros (d&b&E1&E2&E3) (d'&b'&F1&F2&F3). congruence. Qed.
Lemma receipt_at_functional s digest r r' : receipt_at s digest r -> receipt_at s digest r' -> r = r'.
Proof. intros (b&E1&E2) (b'&F1&F2). congruence. Qed.

Lemma read_private_json_Ok {T} (from : list Z -> Result string T) file x : read_private_json from file = Ok x ->
  exists bytes, file = Some (PrivateBytes bytes) /\ from bytes = Ok x.
Proof.
  unfold read_private_json. intros (bytes&Hb&Hf%map_err_Ok)%bind_Ok. destruct file as [[b|]|]; try done.
  apply bind_Ok in Hb as (?&_&[= <-]). by exists b.
Qed.

Lemma load_intention_Ok s id r : load_intention s id = Ok r ->
  record_at s id r /\ lp_id r = id /\ lp_state r = PendingReady /\ validate_intention r id = Ok tt.
Proof.
  unfold load_intention. intros Hl. apply bind_Ok in Hl as (?&_&Hl). apply bind_Ok in Hl as (d&Hd&Hl).
  apply bind_Ok in Hl as (r'&Hr&Hl). apply bind_Ok in Hl as ([]&Hv&Hl).
  apply bind_Ok in Hl as (?&Hs%fail_if_Ok%negb_false_iff%bool_decide_eq_true&[= ->]).
  apply read_private_json_Ok in Hr as (bytes&Hb&Hf). unfold require_record_directory in Hd.
  destruct (is_records s !! id) as [[d'|]|] eqn:E; simplify_eq. split_and!; [by exists d, bytes| |done|done].
  unfold validate_intention in Hv. apply bind_Ok in Hv as (?&Hc%fail_if_Ok&_).
  apply orb_false_iff in Hc as [_ Hc%negb_false_iff%bool_decide_eq_true]. done.
Qed.

(** What looking a package up finds. *)
Definition finds (s : IntentionStore) (digest : string) (r : LocalPendingIntention) : Prop :=
  bound s digest (lp_id r) /\ lp_package_sha256 r = digest /\
  (lp_state r = PendingConsumed <-> consumed s digest).
Definition unknown (s : IntentionStore) (digest : string) : Prop :=
  is_receipts s !! digest = None /\ forall id r, record_at s id r -> lp_package_sha256 r <> digest.

Lemma find_unreceipted_spec s digest ids found : sound s -> is_receipts s !! digest = None ->
  find_unreceipted s digest ids = Ok found ->
  match found with
  | Some r => finds s digest r
  | None => forall id r, id ∈ ids -> record_at s id r -> lp_package_sha256 r <> digest
  end.
Proof.
  intros Hs Hn. induction ids as [|id ids IH]; cbn [find_unreceipted].
  { intros [= <-] id r Hid. by apply not_elem_of_nil in Hid. }
  destruct (validate_intention_id id) as [[]|e] eqn:Hv; cbn [is_ok negb].
  - intros Hf. apply bind_Ok in Hf as (r&Hl&Hf). destruct (load_intention_Ok _ _ _ Hl) as (Hr&Hid&Hst&_).
    case_bool_decide as E.
    + injection Hf as <-. split_and!; [right; exists r; by rewrite Hid|done|]. rewrite Hst. split; [done|].
      intros (rc&(b&Hb&_)&_). congruence.
    + specialize (IH Hf). destruct found as [r'|]; [done|].
      intros i r' [->|Hi]%elem_of_cons Hr'; [|by eapply IH]. by rewrite <- (record_at_functional _ _ _ _ Hr Hr').
  - intros Hf. specialize (IH Hf). destruct found as [r|]; [done|].
    intros i r [->|Hi]%elem_of_cons Hr; [|by eapply IH].
    destruct Hr as (d&b&Hd&_). by rewrite (so_ids s Hs id) in Hv by by eexists.
Qed.

Lemma find_by_digest_spec s digest found : sound s -> find_by_digest s digest = Ok found ->
  validate_intention_digest digest = Ok tt /\
  match found with Some r => finds s digest r | None => unknown s digest end.
Proof.
  intros Hs Hf. unfold find_by_digest in Hf. apply bind_Ok in Hf as ([]&Hv&Hf). split; [done|].
  destruct (is_receipts s !! digest) as [file|] eqn:E.
  - apply bind_Ok in Hf as (rc&Hrc&Hf). apply bind_Ok in Hf as (?&Hg%fail_if_Ok&Hf).
    apply orb_false_iff in Hg as [_ Hg%negb_false_iff%bool_decide_eq_true].
    apply read_private_json_Ok in Hrc as (b&[= ->]&Hb).
    assert (receipt_at s digest rc) as Hrc by by exists b.
    case_bool_decide as Est.
    + apply bind_Ok in Hf as (r&Hl&[= <-]). destruct (load_intention_Ok _ _ _ Hl) as (Hr&Hid&Hst&_).
      destruct (so_ready s Hs _ _ Hrc Est) as (r'&Hr'&Hd). pose proof (record_at_functional _ _ _ _ Hr Hr') as ->.
      split_and!; [left; by exists rc|done|]. rewrite Hst. split; [done|].
      intros (rc'&Hrc'&Hc). pose proof (receipt_at_functional _ _ _ _ Hrc Hrc') as ->. congruence.
    + injection Hf as <-. split_and!; [left; by exists rc|done|]. split; [|done]. intros _. exists rc.
      split; [done|]. by destruct (rc_state rc).
  - apply find_unreceipted_spec in Hf; [|done..]. destruct found as [r|]; [done|]. split; [done|].
    intros id r Hr. apply (Hf id r); [|exact Hr]. apply list_records_all. destruct Hr as (d&b&Hd&_). by eexists.
Qed.

(** ** The operations *)

(** A predicate that looks at the records and the receipts only. *)
Definition stable (P : Pred) : Prop := forall s s', same_content s s' -> P s -> P s'.

Lemma spec_ensure (P : Pred) kind create : stable P -> (forall s, same_content s (create s)) ->
  spec P (ensure_private_directory kind create) (λ _, P) P.
Proof.
  intros HP Hc. unfold ensure_private_directory. eapply spec_bind; [by apply (spec_gets _ _ (λ _, P))|].
  intros []; cbn beta.
  - apply spec_change; [done|]. intros s. apply HP, Hc.
  - by apply spec_lift.
  - by apply spec_lift.
Qed.
Lemma spec_initialize (P : Pred) : stable P -> spec P initialize_intentions (λ _, P) P.
Proof.
  intros HP. unfold initialize_intentions.
  eapply spec_bind; [by apply spec_ensure|intros []]. eapply spec_bind; [by apply spec_ensure|intros []].
  by apply spec_ensure.
Qed.

(** Staging changes neither records nor receipts. *)
Lemma on_stage_same id f s : same_content s (on_stage id f s).
Proof. done. Qed.
Lemma spec_stage_file (P : Pred) id put bytes : (forall f s, P s -> P (on_stage id f s)) ->
  spec P (stage_file id put bytes) (λ _, P) P.
Proof.
  intros HP. unfold stage_file. eapply spec_bind.
  - apply (spec_change _ _ (λ _, P)); [done|]. intros s. apply HP.
  - intros []. apply spec_change; [done|]. intros s. apply HP.
Qed.
Lemma spec_stage_references (P : Pred) id references : (forall f s, P s -> P (on_stage id f s)) ->
  spec P (stage_references id references) (λ refs s, P s /\ refs = local_reference <$> references) P.
Proof.
  intros HP. induction references as [|r references IH]; cbn [stage_references]; [by apply spec_ret|].
  eapply spec_bind; [by apply spec_stage_file|intros []]. eapply spec_bind; [exact IH|].
  intros refs. apply spec_ret. by intros s [Hs ->].
Qed.

(** The record that the stage holds. *)
Definition staged (id : string) (r : LocalPendingIntention) (s : IntentionStore) : Prop :=
  exists d bytes, is_stages s !! id = Some d /\ rd_record d = Some (PrivateBytes bytes) /\ record_from_slice bytes = Ok r.

Lemma receipt_write_keeps s0 s rc bytes temporaries : keeps s0 s -> receipt_to_vec rc = Ok bytes ->
  bound s (rc_package_sha256 rc) (rc_pending_id rc) ->
  (rc_state rc = PendingReady -> ~ consumed s (rc_package_sha256 rc) /\
     exists r, record_at s (rc_pending_id rc) r /\ lp_package_sha256 r = rc_package_sha256 rc) ->
  let s' := set_receipts temporaries (<[rc_package_sha256 rc := PrivateBytes bytes]> (is_receipts s)) s in
  keeps s0 s' /\ receipt_at s' (rc_package_sha256 rc) rc.
Proof.
  intros (Hs&Hb0&Hc0) Hv Hbound Hready s'.
  assert (receipt_at s' (rc_package_sha256 rc) rc) as Hnew.
  { exists bytes. cbn. rewrite lookup_insert_eq. split; [done|by apply receipt_round_trip]. }
  assert (forall d rc', d <> rc_package_sha256 rc -> receipt_at s' d rc' <-> receipt_at s d rc') as Hother.
  { intros d rc' Hd. unfold receipt_at. cbn. by rewrite lookup_insert_ne by done. }
  assert (forall d i, bound s' d i -> bound s d i) as Hback.
  { intros d i [(rc'&Hrc'&<-)|Hr]; [|by right]. destruct (decide (d = rc_package_sha256 rc)) as [->|Hd].
    - by rewrite (receipt_at_functional _ _ _ _ Hrc' Hnew).
    - left. exists rc'. by rewrite <- Hother. }
  assert (forall d i, bound s d i -> bound s' d i) as Hforth.
  { intros d i Hd. destruct (decide (d = rc_package_sha256 rc)) as [->|Hne].
    - left. exists rc. split; [done|]. by apply (so_unique s Hs (rc_package_sha256 rc)).
    - destruct Hd as [(rc'&Hrc'&<-)|Hr]; [|by right]. left. exists rc'. by rewrite Hother. }
  split; [|done]. split_and!.
  - split.
    + apply (so_ids s Hs).
    + intros d i j Hi Hj. apply (so_unique s Hs d); by apply Hback.
    + intros d rc' Hrc' Hst. destruct (decide (d = rc_package_sha256 rc)) as [->|Hd].
      * rewrite (receipt_at_functional _ _ _ _ Hrc' Hnew) in Hst |- *. by apply Hready.
      * apply (so_ready s Hs); [by rewrite <- Hother|done].
  - auto.
  - intros d (rc'&Hrc'&Hst)%Hc0. destruct (decide (d = rc_package_sha256 rc)) as [->|Hd].
    + exists rc. split; [done|]. destruct (rc_state rc) eqn:E; [|done]. destruct (Hready eq_refl) as [[] _]. by exists rc'.
    + exists rc'. by rewrite Hother.
Qed.

Lemma publish_keeps s0 s id d bytes r stages : keeps s0 s -> validate_intention_id id = Ok tt ->
  is_records s !! id = None \/ is_records s !! id = Some (RecordDir empty_record_directory) ->
  rd_record d = Some (PrivateBytes bytes) -> record_from_slice bytes = Ok r -> unknown s (lp_package_sha256 r) ->
  let s' := set_stages stages (set_records (<[id := RecordDir d]> (is_records s)) s) in
  keeps s0 s' /\ record_at s' id r /\ is_receipts s' !! lp_package_sha256 r = None.
Proof.
  intros (Hs&Hb0&Hc0) Hid Hfree Hd Hr [Hnr Hnone] s'.
  assert (record_at s' id r) as Hnew by (exists d, bytes; cbn; by rewrite lookup_insert_eq).
  assert (forall r', ~ record_at s id r') as Hold.
  { intros r' (d'&b'&E1&E2&_). destruct Hfree as [E|E]; rewrite E in E1; by simplify_eq. }
  assert (forall i r', i <> id -> record_at s' i r' <-> record_at s i r') as Hother.
  { intros i r' Hi. unfold record_at. cbn. by rewrite lookup_insert_ne by done. }
  assert (forall i r', record_at s i r' -> record_at s' i r') as Hforth.
  { intros i r' Hi. apply Hother; [|done]. intros ->. by apply (Hold r'). }
  assert (forall dg i, bound s' dg i -> bound s dg i \/ dg = lp_package_sha256 r /\ i = id) as Hback.
  { intros dg i [Hrc|(r'&Hr'&<-)]; [by left; left|]. destruct (decide (i = id)) as [->|Hi].
    - right. by rewrite (record_at_functional _ _ _ _ Hr' Hnew).
    - left. right. exists r'. by rewrite <- Hother. }
  assert (forall i, ~ bound s (lp_package_sha256 r) i) as Hunbound.
  { intros i [(rc&(b&Hb&_)&_)|(r'&Hr'&E)]; [congruence|by apply (Hnone i r')]. }
  assert (forall dg i, bound s dg i -> bound s' dg i) as Hf.
  { intros dg i [Hrc|(r'&Hr'&E)]; [by left|right; exists r'; auto]. }
  split_and!; [split_and!| |]; try done; [split|by auto].
  - intros i Hi. destruct (decide (i = id)) as [->|Hne]; [done|]. apply (so_ids s Hs). cbn in Hi.
    by rewrite lookup_insert_ne in Hi by done.
  - intros dg i j [Hi|[-> ->]]%Hback [Hj|[E ->]]%Hback; try done.
    + by apply (so_unique s Hs dg).
    + subst. by apply Hunbound in Hi.
    + by apply Hunbound in Hj.
  - intros dg rc Hrc Hst. destruct (so_ready s Hs dg rc Hrc Hst) as (r'&Hr'&E). exists r'. auto.
Qed.

(** Removing a record, or a part of it, once its package is consumed. *)
Lemma remove_keeps s0 s id r (entry : option RecordEntry) : keeps s0 s -> record_at s id r ->
  (exists rc, receipt_at s (lp_package_sha256 r) rc /\ rc_pending_id rc = id /\ rc_state rc = PendingConsumed) ->
  (forall r', match entry with Some (RecordDir d) => exists bytes, rd_record d = Some (PrivateBytes bytes) /\
     record_from_slice bytes = Ok r' | _ => False end -> r' = r) ->
  keeps s0 (set_records (partial_alter (λ _, entry) id (is_records s)) s).
Proof.
  intros (Hs&Hb0&Hc0) Hr (rc&Hrc&Hid&Hst) Hentry. set (s' := set_records _ s).
  assert (forall i r', record_at s' i r' -> record_at s i r') as Hback.
  { intros i r' (d&b&E1&E2&E3). cbn in E1. destruct (decide (i = id)) as [->|Hi].
    - rewrite lookup_partial_alter_eq in E1. subst entry. rewrite (Hentry r'); [done|by exists b].
    - rewrite lookup_partial_alter_ne in E1 by done. by exists d, b. }
  assert (forall i r', i <> id -> record_at s i r' -> record_at s' i r') as Hother.
  { intros i r' Hi (d&b&E1&E2&E3). exists d, b. cbn. by rewrite lookup_partial_alter_ne by done. }
  assert (forall dg i, bound s' dg i -> bound s dg i) as Hb.
  { intros dg i [Hc|(r'&Hr'&E)]; [by left|right; exists r'; auto]. }
  assert (forall dg i, bound s dg i -> bound s' dg i) as Hf.
  { intros dg i [Hc|(r'&Hr'&E)]; [by left|]. destruct (decide (i = id)) as [->|Hi].
    - left. exists rc. pose proof (record_at_functional _ _ _ _ Hr Hr') as <-. by rewrite <- E.
    - right. exists r'. auto. }
  split_and!; [split|by auto|by auto].
  - intros i Hi. cbn in Hi. destruct (decide (i = id)) as [->|Hne].
    + apply (so_ids s Hs). destruct Hr as (d&b&E&_). by eexists.
    + rewrite lookup_partial_alter_ne in Hi by done. by apply (so_ids s Hs).
  - intros dg i j Hi Hj. apply (so_unique s Hs dg); by apply Hb.
  - intros dg rc' Hrc' Hst'. destruct (so_ready s Hs dg rc' Hrc' Hst') as (r'&Hr'&E).
    exists r'. split; [|done]. apply Hother; [|done]. intros Hid'. rewrite Hid' in Hr'.
    pose proof (record_at_functional _ _ _ _ Hr Hr') as <-. subst dg.
    pose proof (receipt_at_functional _ _ _ _ Hrc Hrc') as <-. congruence.
Qed.

Lemma spec_write_receipt s0 random rc (F : Pred) :
  (forall s s', is_records s' = is_records s -> F s -> F s') ->
  spec (λ s, keeps s0 s /\ bound s (rc_package_sha256 rc) (rc_pending_id rc) /\
             (rc_state rc = PendingReady -> ~ consumed s (rc_package_sha256 rc) /\
                exists r, record_at s (rc_pending_id rc) r /\ lp_package_sha256 r = rc_package_sha256 rc) /\ F s)
    (write_receipt random rc)
    (λ _ s, keeps s0 s /\ receipt_at s (rc_package_sha256 rc) rc /\ F s) (keeps s0).
Proof.
  intros HF. set (P := (λ s, _) : Pred). unfold write_receipt.
  assert (forall s, P s -> keeps s0 s) as HI by (by intros s []).
  assert (forall s t, P s -> P (set_receipts t (is_receipts s) s)) as HP.
  { intros s t (Hk&Hb&Hr&Hf). split_and!; try done; [by apply (keeps_same s0 s)|by apply (HF s)]. }
  eapply spec_bind; [apply (spec_lift _ _ (λ _, P)); intros s Hs; destruct (validate_intention_digest _) as [[]|]; auto|intros []].
  eapply (spec_bind _ _ (λ bytes s, P s /\ receipt_to_vec rc = Ok bytes)).
  { apply spec_lift. intros s Hs. destruct (receipt_to_vec rc) eqn:E; cbn; auto. }
  intros bytes. set (P' := (λ s, P s /\ receipt_to_vec rc = Ok bytes) : Pred).
  assert (forall f : IntentionStore -> pending_result unit, spec P' (gets f) (λ _ : unit, P') (keeps s0)) as Hgets.
  { intros f. apply spec_gets. intros s Hs. destruct (f s) as [[]|]; [done|apply HI, Hs]. }
  do 3 (eapply spec_bind; [apply Hgets|intros []]).
  do 2 (eapply spec_bind; [apply (spec_change _ _ (λ _, P')); [by intros s [Hs _]; apply HI|
    by intros s [Hs Hv]; split; [apply HP|]]|intros []]).
  apply spec_change; [by intros s [Hs _]; apply HI|]. intros s [(Hk&Hb&Hr&Hf) Hv].
  destruct (receipt_write_keeps s0 s rc bytes (delete random (is_temporaries s)) Hk Hv Hb Hr) as [Hk' Hrc].
  split_and!; [done..|]. by apply (HF s).
Qed.

Lemma spec_publish s0 id r : validate_intention_id id = Ok tt ->
  spec (λ s, keeps s0 s /\ unknown s (lp_package_sha256 r) /\ staged id r s) (publish_stage id)
    (λ _ s, keeps s0 s /\ record_at s id r /\ is_receipts s !! lp_package_sha256 r = None) (keeps s0).
Proof.
  intros Hid. unfold publish_stage.
  eapply (spec_bind _ _ (λ _ s, (keeps s0 s /\ unknown s (lp_package_sha256 r) /\ staged id r s) /\
    (is_records s !! id = None \/ is_records s !! id = Some (RecordDir empty_record_directory)))).
  - apply spec_gets. intros s Hs. destruct (is_records s !! id) as [[d|]|] eqn:E; [|by destruct Hs|by auto].
    case_bool_decide as Ed; cbn [negb fail_if]; [|by destruct Hs]. subst d. auto.
  - intros []. apply spec_change; [by intros s [[? _] _]|].
    intros s [(Hk&Hu&d&bytes&Hd&Hb&Hr) Hfree]. rewrite Hd. by apply (publish_keeps s0 s id d bytes).
Qed.

Definition imported (s0 : IntentionStore) (digest : string) (r : LocalPendingIntention) (s : IntentionStore) : Prop :=
  keeps s0 s /\ finds s digest r.

Lemma spec_stage_and_publish s0 package source id random at_ : validate_intention_id id = Ok tt ->
  spec (λ s, keeps s0 s /\ unknown s (ip_package_sha256 package) /\ is_Some (is_stages s !! id))
    (stage_and_publish package source id random at_) (imported s0 (ip_package_sha256 package)) (keeps s0).
Proof.
  intros Hid. set (P := (λ s, _) : Pred). unfold stage_and_publish.
  assert (forall s, P s -> keeps s0 s) as HI by (by intros s []).
  assert (forall f s, P s -> P (on_stage id f s)) as HP.
  { intros f s (Hk&Hu&d&Hd). split_and!; [by apply (keeps_same s0 s)|done|]. cbn. rewrite lookup_alter_eq, Hd. by eexists. }
  eapply spec_bind; [apply (spec_change _ _ (λ _, P)); [done|intros s; apply HP]|intros []].
  eapply spec_bind; [eapply spec_weaken; [by apply (spec_stage_references P)|done|intros refs s Hs; exact Hs|done]|].
  intros refs. set (record := intention_record package source id at_ refs).
  eapply (spec_bind _ _ (λ bytes s, P s /\ record_from_slice bytes = Ok record)).
  { apply spec_lift. intros s [Hs _]. destruct (record_to_vec record) as [bytes|] eqn:E; cbn; [|auto].
    split; [done|by apply record_round_trip]. }
  intros bytes. eapply (spec_bind _ _ (λ _ s, P s /\ staged id record s)).
  { unfold stage_file. eapply (spec_bind _ _ (λ _ s, P s /\ record_from_slice bytes = Ok record)).
    - apply spec_change; [by intros s [Hs _]; apply HI|]. intros s [Hs Hb]. split; [by apply HP|done].
    - intros []. apply spec_change; [by intros s [Hs _]; apply HI|]. intros s [Hs Hb]. split; [by apply HP|].
      destruct Hs as (_&_&d&Hd). exists (put_record bytes d), bytes. cbn. by rewrite lookup_alter_eq, Hd. }
  intros []. eapply spec_bind.
  { eapply spec_weaken; [apply (spec_publish s0 id record Hid)| |intros a s Hs; exact Hs|done].
    intros s [(Hk&Hu&_) Hst]. by split_and!. }
  intros []. eapply spec_bind.
  { eapply spec_weaken; [apply (spec_write_receipt s0 random (receipt_for record PendingReady) (λ s, record_at s id record))
      | |intros a s Hs; exact Hs|done].
    - intros s s' E. unfold record_at. by rewrite E.
    - intros s (Hk&Hr&Hn). split_and!; [done|right; by exists record| |done]. intros _. split; [|by exists record].
      intros (rc&(b&Hb&_)&_). cbn in Hb, Hn. congruence. }
  intros []. apply spec_ret. intros s (Hk&Hrc&Hr). split; [done|]. split_and!.
  - left. by exists (receipt_for record PendingReady).
  - done.
  - split; [done|]. intros (rc&Hrc'&Hc). by rewrite (receipt_at_functional _ _ _ _ Hrc' Hrc) in Hc.
Qed.

Lemma imported_stable s0 digest r : stable (imported s0 digest r).
Proof.
  intros s s' Hc [Hk (Hb&Hd&Hst)]. split; [by apply (keeps_same s0 s)|]. split_and!; [by eapply same_bound|done|].
  rewrite Hst. destruct Hc as [_ Ec]. unfold consumed, receipt_at. by rewrite Ec.
Qed.

Lemma spec_import s0 package source id random at_ : validate_intention_id id = Ok tt ->
  spec (keeps s0) (import_intention package source id random at_) (imported s0 (ip_package_sha256 package)) (keeps s0).
Proof.
  intros Hid. unfold import_intention. assert (stable (keeps s0)) as Hstable by (by intros s s'; apply keeps_same).
  eapply spec_bind; [by apply spec_initialize|intros []].
  eapply (spec_bind _ _ (λ found s, keeps s0 s /\ match found with
    Some r => finds s (ip_package_sha256 package) r | None => unknown s (ip_package_sha256 package) end)).
  { apply spec_gets. intros s Hk. destruct (find_by_digest s (ip_package_sha256 package)) as [found|] eqn:E; [|done].
    split; [done|]. by apply find_by_digest_spec in E as [_ ?]; [|by destruct Hk]. }
  intros [r|]; [by apply spec_ret|].
  eapply (spec_bind _ _ (λ _ s, keeps s0 s /\ unknown s (ip_package_sha256 package))).
  { apply spec_gets. intros s [Hk Hu]. by destruct (fail_if _ _) as [[]|]. }
  intros []. eapply (spec_bind _ _ (λ _ s, keeps s0 s /\ unknown s (ip_package_sha256 package) /\
    is_Some (is_stages s !! id))).
  { apply spec_change; [by intros s []|]. intros s [Hk Hu]. split_and!; [by apply (keeps_same s0 s)|done|].
    cbn. rewrite lookup_insert_eq. by eexists. }
  intros []. assert (forall P : Pred, stable P -> spec (E := PendingIntentionError) P
    (left_over ← gets (λ s, Ok (opt_is_some (is_stages s !! id)));
     io_when left_over (change (λ s, set_stages (delete id (is_stages s)) s))) (λ _, P) P) as Hclean.
  { intros P HP. eapply spec_bind; [by apply (spec_gets _ _ (λ _, P))|]. intros b. apply spec_when; intros _; [|done].
    apply spec_change; [done|]. intros s. by apply HP. }
  apply spec_always; [by apply spec_stage_and_publish| |by apply Hclean|by intros r s []].
  intros r. apply Hclean, imported_stable.
Qed.
(** ** Consumption *)

Definition consumed_as (s : IntentionStore) (e : LocalPendingIntention) : Prop :=
  exists rc, receipt_at s (lp_package_sha256 e) rc /\ rc_pending_id rc = lp_id e /\ rc_state rc = PendingConsumed.
Definition consumption (s0 : IntentionStore) (e : LocalPendingIntention) (s : IntentionStore) : Prop :=
  keeps s0 s /\ consumed_as s e /\ is_records s !! lp_id e = None.

Lemma spec_remove_record s0 remains e : leaves_part remains ->
  spec (λ s, keeps s0 s /\ consumed_as s e /\ record_at s (lp_id e) e) (remove_record remains (lp_id e))
    (λ _, consumption s0 e) (keeps s0).
Proof.
  intros Hrem. apply spec_change_partly.
  - intros s (Hk&Hc&Hr). pose proof Hr as (d&bytes&Hd&Hb&Hf). rewrite Hd.
    apply (remove_keeps s0 s (lp_id e) e (Some (RecordDir (remains d)))); [done..|].
    intros r' (b&Hb'&Hf'). destruct (Hrem d) as [E|E]; rewrite E in Hb'; congruence.
  - intros s (Hk&Hc&Hr). split_and!; [by apply (remove_keeps s0 s (lp_id e) e None)|done|].
    cbn. by rewrite lookup_delete_eq.
Qed.

Lemma spec_load_expected s0 e : spec (keeps s0) (gets (λ s, load_intention s (lp_id e)))
  (λ r s, keeps s0 s /\ record_at s (lp_id e) r) (keeps s0).
Proof.
  apply spec_gets. intros s Hk. destruct (load_intention s (lp_id e)) as [r|] eqn:E; [|done].
  split; [done|]. by apply load_intention_Ok in E as [? _].
Qed.
Lemma spec_expected {P : Pred} (r e : LocalPendingIntention) (I : Pred) : (forall s, P s -> I s) ->
  spec P (lift (fail_if (r != e) changed_before_consumption)) (λ _ s, P s /\ r = e) I.
Proof.
  intros HI. apply spec_lift. intros s Hs. case_bool_decide; cbn [negb fail_if]; [done|by apply HI].
Qed.
Lemma spec_require (P : Pred) id (I : Pred) : (forall s, P s -> I s) ->
  spec P (gets (λ s, require_record_directory s id)) (λ _, P) I.
Proof. intros HI. apply spec_gets. intros s Hs. destruct (require_record_directory s id); auto. Qed.

Lemma spec_consume_ready s0 remains random e : leaves_part remains ->
  spec (keeps s0) (consume_ready remains random e) (λ _, consumption s0 e) (keeps s0).
Proof.
  intros Hrem. unfold consume_ready. eapply spec_bind; [apply spec_load_expected|intros r].
  eapply spec_bind; [apply spec_expected; by intros s []|intros []].
  eapply (spec_bind _ _ (λ _ s, (keeps s0 s /\ consumed_as s e /\ record_at s (lp_id e) e) /\ r = e)).
  - intros t s [[Hk Hr] ->]. revert t s Hk Hr.
    enough (spec (λ s, keeps s0 s /\ record_at s (lp_id e) e) (write_receipt random (receipt_for e PendingConsumed))
      (λ _ s, (keeps s0 s /\ consumed_as s e /\ record_at s (lp_id e) e) /\ e = e) (keeps s0)) as Hs
      by (intros t s Hk Hr; by apply (Hs t s)).
    eapply spec_weaken; [apply (spec_write_receipt s0 random (receipt_for e PendingConsumed) (λ s, record_at s (lp_id e) e))
      | | |done].
    + intros s s' E. unfold record_at. by rewrite E.
    + intros s [Hk Hr]. split_and!; [done|right; by exists e|done|done].
    + intros [] s (Hk&Hrc&Hr). split_and!; try done. by exists (receipt_for e PendingConsumed).
  - intros []. eapply spec_bind; [apply spec_require; by intros s [[] _]|intros directory].
    intros t s [Hs ->]. by apply (spec_remove_record s0 remains e Hrem).
Qed.

Lemma spec_consume_loaded s0 remains random e : leaves_part remains ->
  spec (keeps s0) (consume_loaded remains random e) (λ _, consumption s0 e) (keeps s0).
Proof.
  intros Hrem. unfold consume_loaded. assert (stable (keeps s0)) as Hstable by (by intros s s'; apply keeps_same).
  eapply spec_bind; [by apply spec_initialize|intros []].
  eapply spec_bind; [apply (spec_lift _ _ (λ _, keeps s0)); intros s Hk; by destruct (validate_intention _ _) as [[]|]|intros []].
  eapply (spec_bind _ _ (λ file s, keeps s0 s /\ file = is_receipts s !! lp_package_sha256 e)); [by apply spec_gets|].
  intros [[bytes|]|].
  - eapply (spec_bind _ _ (λ rc s, keeps s0 s /\ receipt_at s (lp_package_sha256 e) rc)).
    { apply spec_lift. intros s [Hk Hf]. destruct (read_private_json _ _) as [rc|] eqn:E; [|done].
      split; [done|]. apply read_private_json_Ok in E as (b&[= ->]&Hb). by exists b. }
    intros rc. destruct (consumed_already rc e) eqn:Ec.
    + unfold consumed_already in Ec. res_inv.
      eapply (spec_bind _ _ (λ b s, (keeps s0 s /\ consumed_as s e) /\ b = opt_is_some (is_records s !! lp_id e))).
      { apply spec_gets. intros s [Hk Hrc]. split_and!; try done. by exists rc. }
      intros present. apply spec_when.
      * intros ->. eapply spec_bind; [apply spec_require; by intros s [[] _]|intros directory].
        eapply (spec_bind _ _ (λ r s, keeps s0 s /\ consumed_as s e /\ record_at s (lp_id e) r)).
        { apply spec_gets. intros s [[Hk Hc] _]. destruct (load_intention s (lp_id e)) as [r|] eqn:E; [|done].
          by apply load_intention_Ok in E as [? _]. }
        intros r. eapply spec_bind; [apply spec_expected; by intros s []|intros []].
        intros t s [Hs ->]. by apply (spec_remove_record s0 remains e Hrem).
      * intros -> s [[Hk Hc] Hn]. split_and!; [done..|]. by destruct (is_records s !! lp_id e).
    + eapply spec_weaken; [by apply (spec_consume_ready s0)|by intros s []|done|done].
  - apply spec_lift. by intros s [].
  - eapply spec_weaken; [by apply (spec_consume_ready s0)|by intros s []|done|done].
Qed.

Lemma spec_consume s0 remains random id : leaves_part remains ->
  spec (keeps s0) (consume_intention remains random id) (λ _, keeps s0) (keeps s0).
Proof.
  intros Hrem. unfold consume_intention. eapply spec_bind; [apply (spec_gets _ _ (λ _, keeps s0))|].
  - intros s Hk. by destruct (load_intention s id).
  - intros r. eapply spec_weaken; [by apply (spec_consume_loaded s0)|done|by intros [] s []|done].
Qed.

(** ** Histories of a store *)

(** One operation, run until it returns or crashes. *)
Inductive store_step : IntentionStore -> IntentionStore -> Prop :=
  | step_import package source id random at_ t s s' t' o : validate_intention_id id = Ok tt ->
      import_intention package source id random at_ t s = (s', t', o) -> store_step s s'
  | step_consume_loaded remains random e t s s' t' o : leaves_part remains ->
      consume_loaded remains random e t s = (s', t', o) -> store_step s s'
  | step_consume remains random id t s s' t' o : leaves_part remains ->
      consume_intention remains random id t s = (s', t', o) -> store_step s s'.

Lemma step_keeps s s' : store_step s s' -> sound s -> keeps s s'.
Proof.
  intros [package source id random at_ t s1 s2 t' o Hid E|remains random e t s1 s2 t' o Hr E
    |remains random id t s1 s2 t' o Hr E] Hs; pose proof (keeps_refl _ Hs) as Hk.
  - eapply (spec_end _ _ _ _ (keeps s1)); [by apply spec_import|exact Hk|exact E|by intros r s9 []|done].
  - eapply (spec_end _ _ _ _ (keeps s1)); [by apply spec_consume_loaded|exact Hk|exact E|by intros [] s9 []|done].
  - eapply (spec_end _ _ _ _ (keeps s1)); [by apply spec_consume|exact Hk|exact E|done|done].
Qed.
Lemma steps_keep s s' : rtc store_step s s' -> sound s -> keeps s s'.
Proof.
  induction 1 as [s|s s1 s' Hstep _ IH]; intros Hs; [by apply keeps_refl|].
  pose proof (step_keeps _ _ Hstep Hs) as Hk. eapply keeps_trans; [exact Hk|]. apply IH. by destruct Hk.
Qed.

Definition empty_store : IntentionStore := {|
  is_root := NoDir; is_records_dir := NoDir; is_receipts_dir := NoDir; is_stages := ∅; is_records := ∅;
  is_temporaries := ∅; is_receipts := ∅ |}.
Lemma sound_empty : sound empty_store.
Proof.
  split.
  - intros id [x Hid]. cbn in Hid. by rewrite lookup_empty in Hid.
  - intros d i j [(rc&(b&Hb&_)&_)|(r&(dd&b&Hd&_)&_)]; [cbn in Hb; by rewrite lookup_empty in Hb|cbn in Hd; by rewrite lookup_empty in Hd].
  - intros d rc (b&Hb&_). cbn in Hb. by rewrite lookup_empty in Hb.
Qed.

(** [C27] A package is imported once: whatever happens between two imports that
    return (other imports, consumptions, crashes in the middle of any of them),
    both give the package the same identifier; and once an import has reported
    it consumed, so does every later one. *)
Theorem imported_once s1 p1 src1 id1 rnd1 at1 t1 s2 t2 r1 s3 p2 src2 id2 rnd2 at2 t3 s4 t4 r2 :
  rtc store_step empty_store s1 -> validate_intention_id id1 = Ok tt -> validate_intention_id id2 = Ok tt ->
  import_intention p1 src1 id1 rnd1 at1 t1 s1 = (s2, t2, Returned (Ok r1)) ->
  rtc store_step s2 s3 ->
  import_intention p2 src2 id2 rnd2 at2 t3 s3 = (s4, t4, Returned (Ok r2)) ->
  ip_package_sha256 p1 = ip_package_sha256 p2 ->
  lp_id r1 = lp_id r2 /\ lp_package_sha256 r1 = lp_package_sha256 r2 /\
  (lp_state r1 = PendingConsumed -> lp_state r2 = PendingConsumed).
Proof.
  intros Hr1 Hid1 Hid2 E1 Hr2 E2 Hp.
  pose proof (steps_keep _ _ Hr1 sound_empty) as [Hs1 _].
  pose proof (spec_run _ _ _ _ t1 s1 (spec_import s1 p1 src1 id1 rnd1 at1 Hid1) (keeps_refl _ Hs1)) as I1. rewrite E1 in I1.
  destruct I1 as [[Hs2 _] (Hb1&Hd1&Hc1)]. pose proof (steps_keep _ _ Hr2 Hs2) as (Hs3&Hb23&Hc23).
  pose proof (spec_run _ _ _ _ t3 s3 (spec_import s3 p2 src2 id2 rnd2 at2 Hid2) (keeps_refl _ Hs3)) as I2. rewrite E2 in I2.
  destruct I2 as [(Hs4&Hb34&Hc34) (Hb2&Hd2&Hc2)]. rewrite <- Hp in Hb2, Hd2, Hc2. split_and!.
  - apply (so_unique s4 Hs4 (ip_package_sha256 p1)); auto.
  - congruence.
  - intros Hcons. apply Hc2, Hc34, Hc23. by apply Hc1.
Qed.

(** A consumption that returns is complete and final: the private directory is
    gone, the receipt says consumed under the same identifier, and from then on,
    whatever happens, an import of the package that returns reports it consumed
    and never hands out its contents again. *)
Theorem consumed_for_ever s1 remains random e t1 s2 t2 s3 p source id rnd at_ t3 s4 t4 r :
  rtc store_step empty_store s1 -> leaves_part remains ->
  consume_loaded remains random e t1 s1 = (s2, t2, Returned (Ok tt)) ->
  is_records s2 !! lp_id e = None /\ consumed_as s2 e /\
  (rtc store_step s2 s3 -> validate_intention_id id = Ok tt ->
   import_intention p source id rnd at_ t3 s3 = (s4, t4, Returned (Ok r)) ->
   ip_package_sha256 p = lp_package_sha256 e ->
   lp_state r = PendingConsumed /\ lp_id r = lp_id e).
Proof.
  intros Hr1 Hrem E1. pose proof (steps_keep _ _ Hr1 sound_empty) as [Hs1 _].
  pose proof (spec_run _ _ _ _ t1 s1 (spec_consume_loaded s1 remains random e Hrem) (keeps_refl _ Hs1)) as I1. rewrite E1 in I1.
  destruct I1 as ((Hs2&_)&Hc&Hgone). split_and!; [done..|]. intros Hr2 Hid E2 Hp.
  pose proof (steps_keep _ _ Hr2 Hs2) as (Hs3&Hb23&Hc23).
  pose proof (spec_run _ _ _ _ t3 s3 (spec_import s3 p source id rnd at_ Hid) (keeps_refl _ Hs3)) as I2. rewrite E2 in I2.
  destruct I2 as [(Hs4&Hb34&Hc34) (Hb2&Hd2&Hc2)]. rewrite Hp in Hb2, Hc2. destruct Hc as (rc&Hrc&Hpid&Hst). split.
  - apply Hc2, Hc34, Hc23. by exists rc.
  - apply (so_unique s4 Hs4 (lp_package_sha256 e)); [done|]. apply Hb34, Hb23. left. by exists rc.
Qed.
End laws.
