(* ===== verification/PendingIntentionsRecovery.v ===== *)
(** * Pending intentions survive crashes

    With the total specifications of [CrashIo]: an import that crashed anywhere is completed by the next one, and
    what it imported reads back as what the package held. *)
From S2P Require Import Prelude CrashIo Text Digest FileTree IntentPackage IntentPackageLaws PendingIntentions PendingIntentionsLaws.

(** The names under which references are stored are distinct. *)
Lemma storage_names : NoDup (storage_name <$> seq 0 8).
Proof. apply (bool_decide_unpack _). vm_compute. exact I. Qed.

Section recovery.
Context `{Platform} `{IntentionCodec} `{!IntentionCodecLaws} `{RecordListing}.

(** What reading a package guarantees of it ([package_accounted]). *)
Record well_packed (p : IntentPackage) : Prop := {
  wp_prompt : prompt_is_empty (ip_prompt p) = false;
  wp_digest : validate_intention_digest (ip_package_sha256 p) = Ok tt;
  wp_count : length (ip_references p) <= 8;
  wp_references : forall i r, ip_references p !! i = Some r -> ir_ordinal r = i /\
    ir_sha256 r = sha256_hex (ir_bytes r) /\
    validate_private_reference_bytes (ir_display_filename r) (ir_media_type r) (ir_bytes r) = Ok tt }.

Definition stored_references (refs : list IntentPackageReference) (m : gmap string PrivateFile) : gmap string PrivateFile :=
  foldl (λ m r, <[storage_name (ir_ordinal r) := PrivateBytes (ir_bytes r)]> m) m refs.

Lemma stored_other refs : forall m name, (forall r, r ∈ refs -> storage_name (ir_ordinal r) <> name) ->
  stored_references refs m !! name = m !! name.
Proof.
  induction refs as [|r refs IH]; intros m name Hn; [done|].
  etrans; [apply (IH (<[storage_name (ir_ordinal r) := PrivateBytes (ir_bytes r)]> m)); intros; apply Hn; by right|].
  apply lookup_insert_ne, Hn. by left.
Qed.
Lemma stored_app l l' m : stored_references (l ++ l') m = stored_references l' (stored_references l m).
Proof. apply foldl_app. Qed.
Lemma storage_name_inj i j : i < 8 -> j < 8 -> storage_name i = storage_name j -> i = j.
Proof.
  intros Hi Hj E. eapply (NoDup_lookup (storage_name <$> seq 0 8)); [apply storage_names|..];
    rewrite list_lookup_fmap, lookup_seq_lt by lia; [done|]. simpl. by rewrite E.
Qed.
Lemma stored_lookup refs i r m : (forall i r, refs !! i = Some r -> ir_ordinal r = i) -> length refs <= 8 ->
  refs !! i = Some r -> stored_references refs m !! storage_name i = Some (PrivateBytes (ir_bytes r)).
Proof.
  intros Hord Hlen Hr. pose proof (lookup_lt_Some _ _ _ Hr).
  rewrite <- (take_drop_middle refs i r Hr), stored_app.
  change (r :: drop (S i) refs) with ([r] ++ drop (S i) refs). rewrite stored_app, stored_other.
  - cbn. by rewrite (Hord i r Hr), lookup_insert_eq.
  - intros r' [j Hj]%list_elem_of_lookup Hs. rewrite lookup_drop in Hj. rewrite (Hord _ _ Hj) in Hs.
    apply lookup_lt_Some in Hj. apply storage_name_inj in Hs; lia.
Qed.

(** The directory a package is stored in. *)
Definition package_directory (p : IntentPackage) (bytes : list Z) : RecordDirectory :=
  {| rd_record := Some (PrivateBytes bytes); rd_references := Some (stored_references (ip_references p) ∅) |}.

Lemma stays_in_order refs : forall k, (forall i r, refs !! i = Some r -> ir_ordinal r = k + i) ->
  references_in_order k (local_reference <$> refs) = true.
Proof.
  induction refs as [|r refs IH]; intros k Hord; [done|]. cbn [fmap list_fmap references_in_order].
  pose proof (Hord 0 r eq_refl) as Hr. rewrite Nat.add_0_r in Hr. cbn [local_reference lr_ordinal lr_storage_file].
  rewrite Hr, Nat.eqb_refl, bool_decide_eq_true_2 by done. cbn [andb]. apply IH.
  intros i r' Hi. rewrite (Hord (S i) r' Hi). lia.
Qed.

(** The store holds the package under the identifier. *)
Definition holds (s : IntentionStore) (p : IntentPackage) (id : string) (r : LocalPendingIntention) : Prop :=
  load_intention s id = Ok r /\ lp_package_sha256 r = ip_package_sha256 p /\ lp_prompt r = ip_prompt p /\
  forall i ref, ip_references p !! i = Some ref -> read_reference s id i = Ok (ir_bytes ref).

Lemma package_holds s p source id at_ bytes : well_packed p -> validate_intention_id id = Ok tt ->
  record_to_vec (intention_record p source id at_ (local_reference <$> ip_references p)) = Ok bytes ->
  (byte_size bytes <= MAX_PRIVATE_JSON_BYTES)%Z -> is_records s !! id = Some (RecordDir (package_directory p bytes)) ->
  holds s p id (intention_record p source id at_ (local_reference <$> ip_references p)).
Proof.
  intros [Hprompt Hdig Hcount Hrefs] Hid Hb Hsz Hs. set (r := intention_record _ _ _ _ _).
  assert (load_intention s id = Ok r) as Hload.
  { unfold load_intention, require_record_directory. rewrite Hid, Hs. cbn [mbind Result_bind package_directory rd_record].
    unfold read_private_json, read_private_bounded. rewrite (proj2 (Z.ltb_ge _ _) Hsz). cbn [fail_if mbind Result_bind].
    rewrite (record_round_trip _ _ Hb). cbn [map_err mbind Result_bind]. unfold validate_intention.
    cbn [r intention_record lp_schema lp_package_schema lp_id lp_package_sha256 lp_prompt lp_prompt_sha256 lp_references lp_state].
    rewrite !bool_decide_eq_true_2 by done. cbn [negb orb fail_if mbind Result_bind].
    rewrite Hid, Hdig, Hprompt. cbn [mbind Result_bind orb]. rewrite length_fmap, (proj2 (Nat.ltb_ge _ _) Hcount).
    cbn [fail_if mbind Result_bind orb]. rewrite stays_in_order; [done|]. intros i ref Hi. by apply Hrefs. }
  split_and!; [done..|]. intros i ref Hi. unfold read_reference. rewrite Hload. cbn [mbind Result_bind].
  cbn [r intention_record lp_references]. rewrite list_lookup_fmap, Hi. cbn [fmap option_fmap option_map ok_or mbind Result_bind].
  destruct (Hrefs i ref Hi) as (Hord&Hsha&Hval).
  cbn [local_reference lr_storage_file lr_byte_length lr_display_filename lr_media_type lr_sha256].
  unfold reference_file. rewrite Hs. cbn [package_directory rd_references mbind option_bind]. rewrite Hord.
  rewrite (stored_lookup _ i ref ∅); [|intros; by apply Hrefs|done|done]. cbn [read_private_bounded].
  rewrite Z.ltb_irrefl. cbn [fail_if mbind Result_bind]. rewrite bool_decide_eq_true_2 by done.
  cbn [negb fail_if mbind Result_bind]. rewrite Hval. cbn [map_err mbind Result_bind].
  by rewrite bool_decide_eq_true_2 by done.
Qed.

(** ** Between two attempts *)

(** Only the records matter to what is loaded. *)
Lemma holds_same s s' p id r : is_records s' = is_records s -> holds s p id r -> holds s' p id r.
Proof.
  intros E. unfold holds, read_reference, reference_file, load_intention, require_record_directory. by rewrite E.
Qed.
Lemma load_same s s' id : is_records s' !! id = is_records s !! id -> load_intention s' id = load_intention s id.
Proof. intros E. unfold load_intention, require_record_directory. by rewrite E. Qed.
Lemma holds_at s s' p id r : is_records s' !! id = is_records s !! id -> holds s p id r -> holds s' p id r.
Proof.
  intros E (Hl&Hd&Hp&Hr). split_and!; [by rewrite (load_same _ _ _ E)|done..|]. intros i ref Hi.
  specialize (Hr i ref Hi). unfold read_reference, reference_file in *. by rewrite (load_same _ _ _ E), E.
Qed.

(** What an attempt to import the package needs, and leaves wherever it stops:
    no directory is unsafe, every record loads, one of this package holds it, and
    so does the one that the receipt of the package names, if there is one. *)
Record resumable (p : IntentPackage) (s : IntentionStore) : Prop := {
  rv_safe : is_root s <> UnsafeDir /\ is_records_dir s <> UnsafeDir /\ is_receipts_dir s <> UnsafeDir;
  rv_records : forall id, is_Some (is_records s !! id) -> exists r, load_intention s id = Ok r /\
    (lp_package_sha256 r = ip_package_sha256 p -> holds s p id r);
  rv_receipt : forall file, is_receipts s !! ip_package_sha256 p = Some file -> exists rc r,
    read_private_json receipt_from_slice (Some file) = Ok rc /\ rc_schema rc = RECEIPT_SCHEMA /\
    rc_package_sha256 rc = ip_package_sha256 p /\ rc_state rc = PendingReady /\ holds s p (rc_pending_id rc) r }.

(** The names that the attempt draws are new. *)
Record fresh (id random : string) (s : IntentionStore) : Prop := {
  fr_id : validate_intention_id id = Ok tt;
  fr_stage : is_stages s !! id = None;
  fr_record : is_records s !! id = None;
  fr_temporary : is_temporaries s !! random = None }.

Lemma resumable_same p s s' : is_records s' = is_records s -> is_receipts s' = is_receipts s ->
  (is_root s' <> UnsafeDir /\ is_records_dir s' <> UnsafeDir /\ is_receipts_dir s' <> UnsafeDir) ->
  resumable p s -> resumable p s'.
Proof.
  intros Er Ec Hk [_ Hr Hc]. split; [done|..].
  - intros id Hid. rewrite Er in Hid. destruct (Hr id Hid) as (r&Hl&Hh). exists r.
    rewrite (load_same s s') by (by rewrite Er). split; [done|]. intros Hd. eapply holds_same; [exact Er|auto].
  - intros file Hf. rewrite Ec in Hf. destruct (Hc file Hf) as (rc&r&?&?&?&?&Hh). exists rc, r.
    split_and!; try done. by eapply holds_same.
Qed.

(** The scan finds the record of the package, if there is one. *)
Definition absent (p : IntentPackage) (s : IntentionStore) : Prop := is_receipts s !! ip_package_sha256 p = None.
Lemma holds_load s p id r : holds s p id r -> lp_id r = id /\ lp_package_sha256 r = ip_package_sha256 p.
Proof. intros (Hl&Hd&_). by destruct (load_intention_Ok _ _ _ Hl) as (_&Hid&_). Qed.
Lemma find_unreceipted_total p s ids : resumable p s -> (forall id, id ∈ ids -> is_Some (is_records s !! id)) ->
  exists found, find_unreceipted s (ip_package_sha256 p) ids = Ok found /\
    match found with Some r => holds s p (lp_id r) r | None => True end.
Proof.
  intros Hs. induction ids as [|id ids IH]; intros Hids; cbn [find_unreceipted]; [by exists None|].
  destruct (is_ok (validate_intention_id id)); cbn [negb]; [|apply IH; intros; apply Hids; by right].
  destruct (rv_records _ _ Hs id) as (r&Hl&Hh); [apply Hids; by left|]. rewrite Hl. cbn [mbind Result_bind].
  case_bool_decide as E; [|apply IH; intros; apply Hids; by right]. exists (Some r). split; [done|].
  specialize (Hh E). by destruct (holds_load _ _ _ _ Hh) as [-> _].
Qed.
Lemma find_by_digest_total p s : resumable p s -> validate_intention_digest (ip_package_sha256 p) = Ok tt ->
  exists found, find_by_digest s (ip_package_sha256 p) = Ok found /\
    match found with Some r => holds s p (lp_id r) r | None => absent p s end.
Proof.
  intros Hs Hd. unfold find_by_digest. rewrite Hd. cbn [mbind Result_bind].
  destruct (is_receipts s !! ip_package_sha256 p) as [file|] eqn:E.
  - destruct (rv_receipt _ _ Hs file E) as (rc&r&Hrc&Hsc&Hdg&Hst&Hh). rewrite Hrc. cbn [mbind Result_bind].
    rewrite Hsc, Hdg, Hst, !bool_decide_eq_true_2 by done. cbn [negb orb fail_if mbind Result_bind].
    pose proof Hh as [Hl _]. rewrite Hl. exists (Some r). split; [done|].
    by destruct (holds_load _ _ _ _ Hh) as [-> _].
  - destruct (find_unreceipted_total p s (list_records (is_records s)) Hs) as (found&Hf&Hh).
    { intros id. apply list_records_all. }
    exists found. split; [done|]. by destruct found.
Qed.

(** ** One attempt *)

Lemma tspec_ensure (P Q : Pred) kind create (I : Pred) : (forall s, P s -> I s /\ kind s <> UnsafeDir) ->
  (forall s, P s -> Q (create s)) -> (forall s, P s -> kind s = RealDir -> Q s) ->
  tspec P (ensure_private_directory kind create) 1 (λ _, Q) I.
Proof.
  intros HI Hc Hr t s HP. destruct (HI s HP) as [Hi Hk]. unfold ensure_private_directory, mbind, Io_bind, gets.
  destruct (kind s) eqn:E; [|split; [auto|lia]|done]. destruct t; cbn; split; auto; lia.
Qed.

Section attempt.
Variables (p : IntentPackage) (source : PendingIntentionSource) (id random at_ : string).
Let record := intention_record p source id at_ (local_reference <$> ip_references p).

(** The two records of the attempt can be written, and read back. *)
Definition fits : Prop := exists bytes receipt,
  record_to_vec record = Ok bytes /\ (byte_size bytes <= MAX_PRIVATE_JSON_BYTES)%Z /\
  receipt_to_vec (receipt_for record PendingReady) = Ok receipt /\ (byte_size receipt <= MAX_PRIVATE_JSON_BYTES)%Z.

Definition starting (s : IntentionStore) : Prop := resumable p s /\ fresh id random s.
Definition initialized (s : IntentionStore) : Prop := starting s /\ is_receipts_dir s = RealDir.

Lemma starting_kinds root records receipts s : root <> UnsafeDir -> records <> UnsafeDir -> receipts <> UnsafeDir ->
  starting s -> starting (set_kinds root records receipts s).
Proof.
  intros Hr Hc Hp [Hs [Hi Hst Hrec Ht]]. split; [by apply (resumable_same p s)|by split].
Qed.
Lemma tspec_initialize : tspec starting initialize_intentions 3 (λ _, initialized) (resumable p).
Proof.
  unfold initialize_intentions. change 3 with (1 + (1 + 1)).
  assert (forall s, starting s -> resumable p s /\
    is_root s <> UnsafeDir /\ is_records_dir s <> UnsafeDir /\ is_receipts_dir s <> UnsafeDir) as Hk.
  { intros s [Hv _]. split; [done|apply Hv]. }
  eapply (tspec_bind _ _ _ (λ _, starting)); [apply tspec_ensure; try done|intros []].
  - intros s Hs. split; apply Hk, Hs.
  - intros s Hs. by apply starting_kinds; [|apply Hk..|].
  - eapply (tspec_bind _ _ _ (λ _, starting)); [apply tspec_ensure; try done|intros []].
    + intros s Hs. split; apply Hk, Hs.
    + intros s Hs. by apply starting_kinds; [apply Hk| |apply Hk|].
    + apply tspec_ensure; [|intros s Hs; split; [|done]|by split].
      * intros s Hs. split; apply Hk, Hs.
      * by apply starting_kinds; [apply Hk..| |].
Qed.

(** While the package is staged in [d]. *)
Definition in_stage (d : RecordDirectory) (s : IntentionStore) : Prop :=
  resumable p s /\ is_stages s !! id = Some d /\ is_records s !! id = None /\
  is_temporaries s !! random = None /\ is_receipts_dir s = RealDir /\ absent p s.
Lemma in_stage_on_stage d f s : in_stage d s -> in_stage (f d) (on_stage id f s).
Proof.
  intros (Hv&Hst&Hr&Ht&Hd&Ha). split_and!; try done.
  - apply (resumable_same p s); [done..|apply Hv|done].
  - cbn. by rewrite lookup_alter_eq, Hst.
Qed.
Lemma tspec_stage_file d d' put bytes : put bytes (put [] d) = d' ->
  tspec (in_stage d) (stage_file id put bytes) 2 (λ _, in_stage d') (resumable p).
Proof.
  intros <-. unfold stage_file. change 2 with (1 + 1). eapply (tspec_bind _ _ _ (λ _, in_stage (put [] d))).
  - apply tspec_change; [by intros s []|]. intros s. apply in_stage_on_stage.
  - intros []. apply tspec_change; [by intros s []|]. intros s. apply in_stage_on_stage.
Qed.

Lemma tspec_stage_references refs : forall record m,
  tspec (in_stage {| rd_record := record; rd_references := Some m |}) (stage_references id refs)
    (2 * length refs)
    (λ found s, found = local_reference <$> refs /\
       in_stage {| rd_record := record; rd_references := Some (stored_references refs m) |} s) (resumable p).
Proof.
  induction refs as [|r refs IH]; intros file m; cbn [stage_references]; [by apply tspec_ret|].
  eapply tspec_weaken; [eapply tspec_bind| |done|intros found s Hs; exact Hs|done].
  - apply (tspec_stage_file _ {| rd_record := file; rd_references :=
      Some (<[storage_name (ir_ordinal r) := PrivateBytes (ir_bytes r)]> m) |}).
    unfold put_reference. cbn. by rewrite insert_insert_eq.
  - intros []. eapply tspec_bind; [apply IH|]. intros found. apply tspec_ret. by intros s [-> Hs].
  - cbn. lia.
Qed.

Lemma tspec_publish bytes : well_packed p -> validate_intention_id id = Ok tt -> record_to_vec record = Ok bytes ->
  (byte_size bytes <= MAX_PRIVATE_JSON_BYTES)%Z ->
  tspec (in_stage (package_directory p bytes)) (publish_stage id) 1
    (λ _ s, (resumable p s /\ holds s p id record) /\ is_temporaries s !! random = None /\
       is_receipts_dir s = RealDir /\ absent p s) (resumable p).
Proof.
  intros Hw Hid Hb Hsz. unfold publish_stage. change 1 with (0 + 1).
  eapply (tspec_bind _ _ _ (λ _, in_stage (package_directory p bytes))).
  { apply tspec_gets. intros s Hs. exists tt. split; [|done]. by destruct Hs as (_&_&->&_). }
  intros []. apply tspec_change; [by intros s []|]. intros s (Hv&Hst&Hr&Ht&Hd&Ha). rewrite Hst.
  set (s' := set_stages _ _).
  assert (holds s' p id record) as Hh.
  { apply (package_holds s' p source id at_ bytes); try done. cbn. by rewrite lookup_insert_eq. }
  assert (forall i, i <> id -> is_records s' !! i = is_records s !! i) as Hother by (intros i Hi; cbn; by rewrite lookup_insert_ne).
  split_and!; try done. split; [apply Hv|..].
  - intros i Hi. destruct (decide (i = id)) as [->|Hne]; [exists record; by destruct Hh|].
    rewrite Hother in Hi by done. destruct (rv_records _ _ Hv i Hi) as (r&Hl&Hrh). exists r.
    rewrite (load_same s) by auto. split; [done|]. intros E. apply (holds_at s); auto.
  - intros file Hf. cbn in Hf. by rewrite Ha in Hf.
Qed.

Lemma tspec_write_receipt bytes : well_packed p -> receipt_to_vec (receipt_for record PendingReady) = Ok bytes ->
  (byte_size bytes <= MAX_PRIVATE_JSON_BYTES)%Z ->
  tspec (λ s, (resumable p s /\ holds s p id record) /\ is_temporaries s !! random = None /\
       is_receipts_dir s = RealDir /\ absent p s) (write_receipt random (receipt_for record PendingReady)) 3
    (λ _ s, resumable p s /\ holds s p id record) (resumable p).
Proof.
  intros Hw Hb Hsz. set (P := λ s, resumable p s /\ holds s p id record).
  assert (forall m s, P s -> P (set_receipts m (is_receipts s) s)) as HP.
  { intros m s [Hv Hh]. split; [apply (resumable_same p s); try done; apply Hv|by apply (holds_same s)]. }
  set (P0 := λ s, P s /\ is_temporaries s !! random = None /\ is_receipts_dir s = RealDir /\ absent p s).
  unfold write_receipt. change 3 with (0 + (0 + (0 + (0 + (0 + (1 + (1 + 1))))))).
  eapply (tspec_bind _ _ _ (λ _, P0)).
  { apply tspec_lift. intros s Hs. exists tt. by rewrite <- (wp_digest _ Hw). }
  intros []. eapply (tspec_bind _ _ _ (λ b s, b = bytes /\ P0 s)).
  { apply tspec_lift. intros s Hs. exists bytes. by rewrite Hb. }
  intros b. do 3 (eapply (tspec_bind _ _ _ (λ _ s, b = bytes /\ P0 s));
    [apply tspec_gets; intros s (->&Hp&Ht&Hd&Ha); exists tt; split; [|done];
     first [by rewrite Hd|by rewrite Ht|unfold absent in Ha; cbn; by rewrite Ha]|intros []]).
  set (P1 := λ s, b = bytes /\ P s).
  assert (forall f, (forall s, P1 s -> P1 (f s)) -> tspec (E := PendingIntentionError) P1 (change f) 1 (λ _, P1) (resumable p)) as Hchange.
  { intros f Hf. apply tspec_change; [by intros s (_&Hv&_)|done]. }
  eapply (tspec_bind _ _ _ (λ _, P1)); [|intros []; eapply (tspec_bind _ _ _ (λ _, P1)); [|intros []]].
  - eapply tspec_weaken; [apply Hchange|done|by intros s (->&Hs&_)|done|done].
    intros s [-> Hs]. split; [done|by apply HP].
  - apply Hchange. intros s [-> Hs]. split; [done|by apply HP].
  - apply tspec_change; [by intros s (_&Hv&_)|]. intros s (->&Hv&Hh). split; [|by apply (holds_same s)]. split; [apply Hv| |].
    + intros i Hi. destruct (rv_records _ _ Hv i Hi) as (r&Hl&Hr). exists r. split; [done|]. intros E.
      apply (holds_same s); auto.
    + intros file Hf. cbn in Hf. rewrite lookup_insert_eq in Hf. injection Hf as <-.
      exists (receipt_for record PendingReady), record. split_and!; try done.
      unfold read_private_json, read_private_bounded. rewrite (proj2 (Z.ltb_ge _ _) Hsz). cbn [fail_if mbind Result_bind].
      by rewrite (receipt_round_trip _ _ Hb).
Qed.

(** What an attempt that returns leaves. *)
Definition attempted (r : LocalPendingIntention) (s : IntentionStore) : Prop :=
  resumable p s /\ holds s p (lp_id r) r.

Lemma tspec_stage_and_publish : well_packed p -> validate_intention_id id = Ok tt -> fits ->
  tspec (in_stage empty_record_directory) (stage_and_publish p source id random at_)
    (7 + 2 * length (ip_references p)) attempted (resumable p).
Proof.
  intros Hw Hid (bytes&receipt&Hb&Hbs&Hr&Hrs). unfold stage_and_publish.
  replace (7 + 2 * length (ip_references p)) with (1 + (2 * length (ip_references p) + (0 + (2 + (1 + (3 + 0)))))) by lia.
  eapply (tspec_bind _ _ _ (λ _, in_stage {| rd_record := None; rd_references := Some ∅ |})).
  { apply tspec_change; [by intros s []|]. intros s. apply in_stage_on_stage. }
  intros []. eapply tspec_bind; [apply tspec_stage_references|]. intros refs.
  set (d := {| rd_record := None; rd_references := Some (stored_references (ip_references p) ∅) |}).
  eapply (tspec_bind _ _ _ (λ b s, (b = bytes /\ refs = local_reference <$> ip_references p) /\ in_stage d s)).
  { apply tspec_lift. intros s [-> Hs]. exists bytes. fold record. by rewrite Hb. }
  intros b t s [[-> ->] Hs]. revert t s Hs. fold record.
  apply (tspec_bind _ _ _ (λ _, in_stage (package_directory p bytes))); [by apply tspec_stage_file|intros []].
  eapply tspec_bind; [by apply tspec_publish|intros []].
  eapply tspec_bind; [by eapply tspec_write_receipt|intros []].
  apply tspec_ret. by intros s [].
Qed.

Lemma tspec_import : well_packed p -> fits ->
  tspec starting (import_intention p source id random at_) (12 + 2 * length (ip_references p)) attempted (resumable p).
Proof.
  intros Hw Hf. unfold import_intention.
  replace (12 + 2 * length (ip_references p)) with (3 + (0 + (0 + (1 + ((7 + 2 * length (ip_references p)) + 1))))) by lia.
  eapply tspec_bind; [apply tspec_initialize|intros []].
  eapply (tspec_bind _ _ _ (λ found s, initialized s /\
    match found with Some r => holds s p (lp_id r) r | None => absent p s end)).
  { apply tspec_gets. intros s Hs. destruct (find_by_digest_total p s) as (found&E&Hh); [apply Hs|apply Hw|].
    by exists found. }
  intros [r|].
  { eapply tspec_weaken; [apply (tspec_ret (attempted r) r)| |by intros s [[[]]]|done|done]; [done|lia]. }
  eapply (tspec_bind _ _ _ (λ _ s, initialized s /\ absent p s)).
  { apply tspec_gets. intros s Hs. exists tt. split; [|done]. destruct Hs as ((( _ & [_ -> _ _])&_)&_). done. }
  intros []. eapply (tspec_bind _ _ _ (λ _ s, validate_intention_id id = Ok tt /\ in_stage empty_record_directory s)).
  { apply tspec_change; [by intros s [[[]]]|]. intros s [[[Hv [Hi Hst Hrec Ht]] Hd] Ha]. split; [done|]. split_and!; try done.
    - by apply (resumable_same p s); [..|apply Hv|].
    - cbn. by rewrite lookup_insert_eq. }
  intros [] t s [Hi Hs]. revert t s Hs.
  apply tspec_always; [by apply tspec_stage_and_publish|]. intros r. change 1 with (0 + 1).
  apply (tspec_bind _ _ _ (λ _, attempted r)); [apply tspec_gets; by eexists|]. intros [|]; cbn [io_when].
  - apply tspec_change; [by intros s []|]. intros s [Hv Hh]. split; [|by apply (holds_same s)].
    by apply (resumable_same p s); [..|apply Hv|].
  - eapply tspec_weaken; [apply (tspec_lift _ (Ok tt) (λ _, attempted r))| |done|done|done]; [by eexists|lia].
Qed.
End attempt.

(** An attempt: an import of the package with new names, stopped anywhere. *)
Inductive attempt (p : IntentPackage) : IntentionStore -> IntentionStore -> Prop :=
  | attempt_import source id random at_ t s s' t' o : fresh id random s -> fits p source id at_ ->
      import_intention p source id random at_ t s = (s', t', o) -> attempt p s s'.

Lemma attempt_resumable p s s' : well_packed p -> attempt p s s' -> resumable p s -> resumable p s'.
Proof.
  intros Hw [source id random at_ t s1 s2 t' o Hf Hfit E] Hs.
  pose proof (tspec_run _ _ _ _ _ t s1 (tspec_import p source id random at_ Hw Hfit) (conj Hs Hf)) as Hi. rewrite E in Hi.
  by destruct o as [|[r|e]]; [destruct Hi|destruct Hi as [[] _]|].
Qed.
Lemma attempts_resumable p s s' : well_packed p -> rtc (attempt p) s s' -> resumable p s -> resumable p s'.
Proof. intros Hw. induction 1; [done|]. intros Hs. by eauto using attempt_resumable. Qed.

Lemma digest_valid bytes : validate_intention_digest (sha256_hex bytes) = Ok tt.
Proof.
  pose proof (sha256_hex_valid bytes) as Hv. unfold validate_package_digest in Hv. apply fail_if_Ok in Hv.
  unfold validate_intention_digest. by rewrite Hv.
Qed.

(** What was parsed is well packed. *)
Lemma parsed_well_packed `{ManifestCodec} `{!ManifestCodecLaws} bytes p : parse_intent_package bytes = Ok p -> well_packed p.
Proof.
  intros (n&m&s&_&_&_&_&_&Hm&Hprompt&Hcount&Hloop&_&->)%parse_Ok.
  apply (parse_loop_parsed _ _ _ _ _ (manifest_lengths _ _ Hm)) in Hloop; [|apply parsed_start].
  destruct Hloop as [Hi _ _ _ _ _ _ _ _ Hc]. cbn [Nat.add] in Hi.
  split; cbn [ip_prompt ip_package_sha256 ip_references].
  - by apply check_prompt_Ok in Hprompt as [? _].
  - apply digest_valid.
  - by rewrite Hi.
  - intros i r Hr. by destruct (Hc i r Hr) as (?&?&_&?).
Qed.
Lemma parsed_digest `{ManifestCodec} bytes p : parse_intent_package bytes = Ok p -> ip_package_sha256 p = sha256_hex bytes.
Proof. by intros (n&m&s&_&_&_&_&_&_&_&_&_&_&->)%parse_Ok. Qed.

(** [C26] An import survives every crash: from a store that any number of attempts to
    import the package have left, each stopped anywhere, the next attempt that
    may make [12 + 2 n] changes for [n] references returns; the package is then
    ready, once loaded it is the record returned, and its references read back as
    the bytes the package holds. *)
Theorem import_survives_crashes `{ManifestCodec} `{!ManifestCodecLaws} package_bytes p s s1 source id random at_ t :
  parse_intent_package package_bytes = Ok p -> resumable p s -> rtc (attempt p) s s1 ->
  fresh id random s1 -> fits p source id at_ -> 12 + 2 * length (ip_references p) <= t ->
  exists s2 t2 r, import_bytes package_bytes source id random at_ t s1 = (s2, t2, Returned (Ok r)) /\
    lp_state r = PendingReady /\ lp_package_sha256 r = sha256_hex package_bytes /\ lp_prompt r = ip_prompt p /\
    load_intention s2 (lp_id r) = Ok r /\
    forall i ref, ip_references p !! i = Some ref -> read_reference s2 (lp_id r) i = Ok (ir_bytes ref).
Proof.
  intros Hp Hs Hatt Hfresh Hfit Ht. pose proof (parsed_well_packed _ _ Hp) as Hw.
  pose proof (attempts_resumable p s s1 Hw Hatt Hs) as Hs1.
  pose proof (tspec_run _ _ _ _ _ t s1 (tspec_import p source id random at_ Hw Hfit) (conj Hs1 Hfresh)) as Hi.
  unfold import_bytes. unfold mbind at 1, Io_bind at 1, lift. rewrite Hp. cbn [map_err].
  destruct (import_intention p source id random at_ t s1) as [[s2 t2] [|[r|e]]]; [lia| |done].
  destruct Hi as [[Hv (Hl&Hd&Hprompt&Hrefs)] _]. exists s2, t2, r. split_and!; try done.
  - by destruct (load_intention_Ok _ _ _ Hl) as (_&_&Hst&_).
  - by rewrite Hd, (parsed_digest _ _ Hp).
Qed.

(** A store with no records and no receipts is resumable. *)
Lemma resumable_empty p : resumable p empty_store.
Proof.
  split; [done|..].
  - intros id [x Hx]. cbn in Hx. by rewrite lookup_empty in Hx.
  - intros file Hf. cbn in Hf. by rewrite lookup_empty in Hf.
Qed.
End recovery.
