(* ===== verification/PendingIntentionsStory.v ===== *)
(** * A concrete package and its store

    Codecs that satisfy the laws asked of [serde_json], a package of two images,
    and the store as imports, crashes and a consumption change it: the witnesses
    that the hypotheses of the theorems can hold. *)
From S2P Require Import Prelude CrashIo Text Digest FileTree IntentPackage IntentPackageLaws PendingIntentions PendingIntentionsLaws PendingIntentionsRecovery.

#[local] Existing Instance Toy.platform.

#[local] Instance PromptManifest_eq_dec : EqDecision PromptManifest.
Proof. solve_decision. Defined.
#[local] Instance ReferenceManifest_eq_dec : EqDecision ReferenceManifest.
Proof. solve_decision. Defined.
#[local] Instance Manifest_eq_dec : EqDecision Manifest.
Proof. solve_decision. Defined.
#[local] Instance IntentionReceipt_eq_dec : EqDecision IntentionReceipt.
Proof. solve_decision. Defined.

(** ** Fields, each after its length *)

Definition put_fields (fields : list (list Z)) : list Z :=
  fields ≫= λ f, be_bytes 2 (Z.of_nat (length f)) ++ f.
Fixpoint get_fields (fuel : nat) (bytes : list Z) : option (list (list Z)) :=
  match fuel, bytes with
  | _, [] => Some []
  | S fuel, a :: b :: bytes =>
      let n := Z.to_nat (be_value [a; b]) in
      rest ← get_fields fuel (drop n bytes);
      Some (take n bytes :: rest)
  | _, _ => None
  end.
Definition num (z : Z) : list Z := be_bytes 8 z.
Definition txt (s : string) : list Z := bytes_of s.

(** A writer that reads back what it wrote. *)
Definition checked_writer {A} `{EqDecision A} (to_fields : A -> list (list Z)) (of_fields : list (list Z) -> option A)
    (valid : A -> bool) : (A -> Result string (list Z)) * (list Z -> Result string A) :=
  let from bytes := match get_fields (length bytes) bytes ≫= of_fields with
                    | Some a => if valid a then Ok a else Err "invalid value"
                    | None => Err "malformed" end in
  (λ a, let bytes := put_fields (to_fields a) in
        if bool_decide (bytes <> []) && match from bytes with Ok a' => a' == a | Err _ => false end
        then Ok bytes else Err "not representable",
   from).
Lemma checked_round_trip {A} `{EqDecision A} to_fields of_fields valid (a : A) bytes :
  (checked_writer to_fields of_fields valid).1 a = Ok bytes ->
  (checked_writer to_fields of_fields valid).2 bytes = Ok a /\ bytes <> [].
Proof.
  cbn. destruct (bool_decide _ && _) eqn:E; [|done]. intros [= <-].
  apply andb_true_iff in E as [Hne%bool_decide_eq_true E]. split; [|done].
  destruct (match get_fields _ _ ≫= of_fields with Some _ => _ | None => _ end); [|done].
  by apply bool_decide_eq_true in E as ->.
Qed.
Lemma checked_valid {A} `{EqDecision A} to_fields of_fields valid (a : A) bytes :
  (checked_writer to_fields of_fields valid).2 bytes = Ok a -> valid a = true.
Proof.
  cbn. destruct (_ ≫= of_fields) as [a'|]; [|done]. destruct (valid a') eqn:E; [|done]. by intros [= <-].
Qed.

(** ** The codecs *)

Fixpoint reference_manifests (fields : list (list Z)) : option (list ReferenceManifest) :=
  match fields with
  | [] => Some []
  | o :: n :: m :: l :: s :: p :: fields =>
      rest ← reference_manifests fields;
      Some ({| rm_ordinal := be_value o; rm_display_filename := string_of n; rm_media_type := string_of m;
               rm_byte_length := be_value l; rm_sha256 := string_of s; rm_payload_offset := be_value p |} :: rest)
  | _ => None
  end.
Definition manifest_fields (m : Manifest) : list (list Z) :=
  [txt (mf_schema m); txt (mf_created_at m); txt (pm_encoding (mf_prompt m)); num (pm_byte_length (mf_prompt m));
   txt (pm_sha256 (mf_prompt m)); txt (pm_text (mf_prompt m)); num (lm_version (mf_limits m));
   num (lm_max_prompt_bytes (mf_limits m)); num (lm_max_references (mf_limits m));
   num (lm_max_reference_bytes (mf_limits m)); num (lm_max_total_reference_bytes (mf_limits m));
   num (lm_max_package_bytes (mf_limits m))]
  ++ (mf_references m ≫= λ r, [num (rm_ordinal r); txt (rm_display_filename r); txt (rm_media_type r);
        num (rm_byte_length r); txt (rm_sha256 r); num (rm_payload_offset r)]).
Definition manifest_of (fields : list (list Z)) : option Manifest :=
  match fields with
  | s :: c :: e :: l :: h :: t :: l1 :: l2 :: l3 :: l4 :: l5 :: l6 :: fields =>
      references ← reference_manifests fields;
      Some {| mf_schema := string_of s; mf_created_at := string_of c;
              mf_prompt := {| pm_encoding := string_of e; pm_byte_length := be_value l; pm_sha256 := string_of h;
                              pm_text := string_of t |};
              mf_references := references;
              mf_limits := {| lm_version := be_value l1; lm_max_prompt_bytes := be_value l2;
                lm_max_references := be_value l3; lm_max_reference_bytes := be_value l4;
                lm_max_total_reference_bytes := be_value l5; lm_max_package_bytes := be_value l6 |} |}
  | _ => None
  end.
Definition manifest_writer :=
  checked_writer manifest_fields manifest_of (λ m, forallb (λ r, 0 <=? rm_byte_length r)%Z (mf_references m)).
#[local] Instance toy_manifest : ManifestCodec :=
  {| manifest_to_vec := manifest_writer.1; manifest_from_slice := manifest_writer.2 |}.
#[local] Instance toy_manifest_laws : ManifestCodecLaws.
Proof.
  split.
  - intros m bytes Hm. by apply checked_round_trip in Hm as [? _].
  - intros m bytes Hm. by apply checked_round_trip in Hm as [_ ?].
  - intros bytes m Hm%(checked_valid manifest_fields). rewrite List.forallb_forall in Hm. apply List.Forall_forall.
    intros r Hr. by apply Z.leb_le, Hm.
Qed.

Definition source_text (s : PendingIntentionSource) : list Z :=
  match s with SourceRelay => [1%Z] | SourcePortableFile => [0%Z] end.
Definition state_text (s : PendingIntentionState) : list Z :=
  match s with PendingReady => [1%Z] | PendingConsumed => [0%Z] end.
Fixpoint local_references (fields : list (list Z)) : option (list LocalPendingReference) :=
  match fields with
  | [] => Some []
  | o :: n :: m :: l :: s :: p :: fields =>
      rest ← local_references fields;
      Some ({| lr_ordinal := Z.to_nat (be_value o); lr_display_filename := string_of n; lr_media_type := string_of m;
               lr_byte_length := be_value l; lr_sha256 := string_of s; lr_storage_file := string_of p |} :: rest)
  | _ => None
  end.
Definition record_fields (r : LocalPendingIntention) : list (list Z) :=
  [txt (lp_schema r); txt (lp_id r); txt (lp_package_schema r); txt (lp_package_sha256 r); txt (lp_prompt r);
   txt (lp_prompt_sha256 r); txt (lp_imported_at r); source_text (lp_source r); state_text (lp_state r)]
  ++ (lp_references r ≫= λ f, [num (Z.of_nat (lr_ordinal f)); txt (lr_display_filename f); txt (lr_media_type f);
        num (lr_byte_length f); txt (lr_sha256 f); txt (lr_storage_file f)]).
Definition record_of (fields : list (list Z)) : option LocalPendingIntention :=
  match fields with
  | s :: i :: ps :: h :: p :: ph :: at_ :: src :: st :: fields =>
      references ← local_references fields;
      Some {| lp_schema := string_of s; lp_id := string_of i; lp_package_schema := string_of ps;
              lp_package_sha256 := string_of h; lp_prompt := string_of p; lp_prompt_sha256 := string_of ph;
              lp_references := references; lp_imported_at := string_of at_;
              lp_source := if src == [1%Z] then SourceRelay else SourcePortableFile;
              lp_state := if st == [1%Z] then PendingReady else PendingConsumed; lp_import_receipt := None |}
  | _ => None
  end.
Definition receipt_fields (r : IntentionReceipt) : list (list Z) :=
  [txt (rc_schema r); txt (rc_package_sha256 r); txt (rc_pending_id r); state_text (rc_state r); txt (rc_imported_at r)].
Definition receipt_of (fields : list (list Z)) : option IntentionReceipt :=
  match fields with
  | [s; h; i; st; at_] =>
      Some {| rc_schema := string_of s; rc_package_sha256 := string_of h; rc_pending_id := string_of i;
              rc_state := if st == [1%Z] then PendingReady else PendingConsumed; rc_imported_at := string_of at_ |}
  | _ => None
  end.
Definition record_writer := checked_writer record_fields record_of (λ _, true).
Definition receipt_writer := checked_writer receipt_fields receipt_of (λ _, true).
#[local] Instance toy_intentions : IntentionCodec :=
  {| record_to_vec := record_writer.1; record_from_slice := record_writer.2;
     receipt_to_vec := receipt_writer.1; receipt_from_slice := receipt_writer.2 |}.
#[local] Instance toy_intentions_laws : IntentionCodecLaws.
Proof. split; intros r bytes Hr; by apply checked_round_trip in Hr as [? _]. Qed.

#[local] Instance toy_listing : RecordListing.
Proof.
  refine {| list_records m := (map_to_list m).*1 |}.
  intros m id. rewrite list_elem_of_fmap. split.
  - intros ([i e]&->&Hi%elem_of_map_to_list). by eexists.
  - intros [e He]. exists (id, e). by rewrite elem_of_map_to_list.
Defined.

(** ** A package and its store *)

Definition sketch : list Z := [137; 80; 78; 71; 13; 10; 26; 10; 1; 2; 3]%Z.
Definition photo : list Z := [255; 216; 255; 7]%Z.
Definition images : list (string * string * list Z) :=
  [("sketch.png", "image/png", sketch); ("photo.jpg", "image/jpeg", photo)].
Definition packed (prompt : string) : list Z :=
  match build_intent_package "2026-01-01T00:00:00Z" prompt images with Ok bytes => bytes | Err _ => [] end.
Definition notebook : list Z := packed "a field notebook".
Definition other_notebook : list Z := packed "a second notebook".
Definition package_of (bytes : list Z) : IntentPackage :=
  match parse_intent_package bytes with Ok p => p
  | Err _ => {| ip_created_at := ""; ip_prompt := ""; ip_references := []; ip_package_sha256 := "" |} end.

Definition id_of (c : string) : string := String.concat "" (replicate 32 c).
Definition returned {A} (x : IntentionStore * nat * Outcome PendingIntentionError A) : bool :=
  match x with (_, _, Returned (Ok _)) => true | _ => false end.
Definition after {A} (x : IntentionStore * nat * Outcome PendingIntentionError A) : IntentionStore := fst (fst x).

Definition import_notebook (c random : string) (t : nat) (s : IntentionStore) :=
  import_intention (package_of notebook) SourceRelay (id_of c) random "2026-01-02T00:00:00Z" t s.

(** What a crash leaves when it has removed the record, but not the images. *)
Definition record_gone (d : RecordDirectory) : RecordDirectory :=
  {| rd_record := None; rd_references := rd_references d |}.
Lemma record_gone_part : leaves_part record_gone.
Proof. intros d. by right. Qed.

(** The first import crashes before its receipt, the second finds its record. *)
Definition crashed_store : IntentionStore := after (import_notebook "a" "tmp1" 12 empty_store).
Example crash_then_import :
  returned (import_notebook "a" "tmp1" 12 empty_store) = false /\
  returned (import_notebook "b" "tmp2" 12 crashed_store) = true /\
  map_to_list (is_records crashed_store) = map_to_list (is_records (after (import_notebook "b" "tmp2" 12 crashed_store))).
Proof. vm_compute. done. Qed.

Definition stored : IntentionStore := after (import_notebook "a" "tmp1" 100 empty_store).
Definition stored_record : LocalPendingIntention :=
  match load_intention stored (id_of "a") with
  | Ok r => r
  | Err _ => intention_record (package_of notebook) SourceRelay (id_of "a") "" [] end.
Example images_materialize :
  let '(files, paths) := materialize_references stored (id_of "a") false in
  (files !! "sketch.png", files !! "photo.jpg", paths) = (Some sketch, Some photo, Ok ["sketch.png"; "photo.jpg"]).
Proof. vm_compute. done. Qed.

(** A crash while the directory of a consumed record is removed may leave the
    directory without its record. The consumption is not finished by another
    attempt, and no package that is new can be imported any more: the scan of the
    records fails on the directory that is left. *)
Definition half_removed : IntentionStore :=
  after (consume_loaded record_gone "tmp2" stored_record 3 stored).
Definition import_other (s : IntentionStore) :=
  import_intention (package_of other_notebook) SourceRelay (id_of "b") "tmp3" "2026-01-03T00:00:00Z" 100 s.
Example half_removed_record_stops_imports :
  returned (import_other stored) = true /\
  snd (import_other half_removed) = Returned (Err (PendingIo PendingMissing)) /\
  snd (consume_loaded record_gone "tmp4" stored_record 100 half_removed) = Returned (Err (PendingIo PendingMissing)).
Proof. vm_compute. done. Qed.

(** ** Witnesses *)

Lemma id_of_a : validate_intention_id (id_of "a") = Ok tt.
Proof. vm_compute. reflexivity. Defined.
Lemma id_of_b : validate_intention_id (id_of "b") = Ok tt.
Proof. vm_compute. reflexivity. Defined.

Lemma package_round_trip_witness : exists bytes,
  build_intent_package "2026-01-01T00:00:00Z" "a field notebook" images = Ok bytes /\
  ip_prompt <$> match parse_intent_package bytes with Ok p => Some p | Err _ => None end = Some "a field notebook".
Proof.
  assert (is_ok (build_intent_package "2026-01-01T00:00:00Z" "a field notebook" images) = true) as Hok
    by (vm_compute; reflexivity).
  destruct (build_intent_package "2026-01-01T00:00:00Z" "a field notebook" images) as [bytes|] eqn:E; [|discriminate Hok].
  exists bytes. split; [reflexivity|].
  rewrite (package_round_trip "2026-01-01T00:00:00Z" "a field notebook" images bytes E). reflexivity.
Defined.

Lemma notebook_bytes : Forall (λ b, 0 <= b < 256)%Z notebook.
Proof. apply (bool_decide_unpack _). vm_compute. exact I. Qed.
Lemma notebook_parses : is_ok (parse_intent_package notebook) = true.
Proof. vm_compute. reflexivity. Qed.

Lemma package_accounted_witness : exists p, parse_intent_package notebook = Ok p /\ length (ip_references p) <= 8.
Proof.
  pose proof notebook_parses as Hok. destruct (parse_intent_package notebook) as [p|] eqn:E; [|discriminate Hok].
  exists p. split; [reflexivity|].
  destruct (package_accounted notebook p notebook_bytes E) as (m&_&_&_&_&_&Hc&_). exact Hc.
Defined.

(** The notebook is imported, consumed, and imported again under another name. *)
Lemma imported_once_witness :
  let first := import_notebook "a" "tmp1" 100 empty_store in
  let between := after (consume_loaded record_gone "tmp2" stored_record 100 (after first)) in
  match first, import_notebook "b" "tmp3" 100 between with
  | (_, _, Returned (Ok r1)), (_, _, Returned (Ok r2)) => lp_id r1 = lp_id r2
  | _, _ => False
  end.
Proof.
  cbv zeta.
  assert (returned (import_notebook "a" "tmp1" 100 empty_store) = true) as H1 by (vm_compute; reflexivity).
  assert (returned (import_notebook "b" "tmp3" 100 (after (consume_loaded record_gone "tmp2" stored_record 100
    (after (import_notebook "a" "tmp1" 100 empty_store))))) = true) as H2 by (vm_compute; reflexivity).
  destruct (import_notebook "a" "tmp1" 100 empty_store) as [[s2 t2] [|[r1|e1]]] eqn:E1; try discriminate H1.
  cbn [after fst] in H2 |- *.
  destruct (consume_loaded record_gone "tmp2" stored_record 100 s2) as [[s3 t3] o3] eqn:E3. cbn [after fst] in H2 |- *.
  destruct (import_notebook "b" "tmp3" 100 s3) as [[s4 t4] [|[r2|e2]]] eqn:E2; try discriminate H2.
  unfold import_notebook in E1, E2.
  apply (imported_once empty_store (package_of notebook) SourceRelay (id_of "a") "tmp1" "2026-01-02T00:00:00Z" 100 s2 t2 r1
           s3 (package_of notebook) SourceRelay (id_of "b") "tmp3" "2026-01-02T00:00:00Z" 100 s4 t4 r2
           (rtc_refl _ _) id_of_a id_of_b E1
           (rtc_once _ _ (step_consume_loaded record_gone "tmp2" stored_record 100 s2 s3 t3 o3 record_gone_part E3)) E2
           eq_refl).
Defined.

Definition stored_history : rtc store_step empty_store stored.
Proof.
  destruct (import_notebook "a" "tmp1" 100 empty_store) as [[s t] o] eqn:E.
  assert (stored = s) as -> by (unfold stored; by rewrite E).
  apply rtc_once. unfold import_notebook in E. eapply step_import; [exact id_of_a|exact E].
Qed.
Lemma consumed_for_ever_witness :
  let x := consume_loaded record_gone "tmp2" stored_record 100 stored in
  returned x = true /\ is_records (after x) !! lp_id stored_record = None.
Proof.
  cbv zeta. assert (returned (consume_loaded record_gone "tmp2" stored_record 100 stored) = true) as H1
    by (vm_compute; reflexivity).
  destruct (consume_loaded record_gone "tmp2" stored_record 100 stored) as [[s2 t2] [|[[]|e]]] eqn:E; try discriminate H1.
  split; [reflexivity|].
  destruct (consumed_for_ever stored record_gone "tmp2" stored_record 100 s2 t2 s2 (package_of notebook) SourceRelay
    (id_of "b") "tmp3" "" 100 s2 t2 stored_record stored_history record_gone_part E) as [Hgone _]. exact Hgone.
Defined.

(** The notebook's import crashed after publishing its record; the next one
    finds it. *)
Definition notebook_record (c : string) : LocalPendingIntention :=
  intention_record (package_of notebook) SourceRelay (id_of c) "2026-01-02T00:00:00Z"
    (local_reference <$> ip_references (package_of notebook)).
Definition fits_check (c : string) : bool :=
  match record_to_vec (notebook_record c), receipt_to_vec (receipt_for (notebook_record c) PendingReady) with
  | Ok b, Ok b' => (byte_size b <=? MAX_PRIVATE_JSON_BYTES)%Z && (byte_size b' <=? MAX_PRIVATE_JSON_BYTES)%Z
  | _, _ => false
  end.
Lemma notebook_fits c : fits_check c = true ->
  fits (package_of notebook) SourceRelay (id_of c) "2026-01-02T00:00:00Z".
Proof.
  unfold fits_check. destruct (record_to_vec (notebook_record c)) as [b|] eqn:E1; [|discriminate].
  destruct (receipt_to_vec (receipt_for (notebook_record c) PendingReady)) as [b'|] eqn:E2; [|discriminate].
  intros [H1%Z.leb_le H2%Z.leb_le]%andb_true_iff. exists b, b'.
  exact (conj E1 (conj H1 (conj E2 H2))).
Qed.
Definition fresh_at (id random : string) (s : IntentionStore) : bool :=
  is_ok (validate_intention_id id) && negb (opt_is_some (is_stages s !! id)) && negb (opt_is_some (is_records s !! id))
  && negb (opt_is_some (is_temporaries s !! random)).
Lemma fresh_at_fresh id random s : fresh_at id random s = true -> fresh id random s.
Proof.
  unfold fresh_at. destruct (validate_intention_id id) as [[]|] eqn:E; [|done].
  destruct (is_stages s !! id) eqn:E1, (is_records s !! id) eqn:E2, (is_temporaries s !! random) eqn:E3; try done.
Qed.

Lemma import_survives_crashes_witness : exists s2 t2 r,
  import_bytes notebook SourceRelay (id_of "b") "tmp2" "2026-01-02T00:00:00Z" 100 crashed_store
    = (s2, t2, Returned (Ok r)) /\ lp_state r = PendingReady.
Proof.
  pose proof notebook_parses as Hok. destruct (parse_intent_package notebook) as [p|] eqn:E; [|discriminate Hok].
  assert (package_of notebook = p) as Ep by (unfold package_of; rewrite E; reflexivity).
  assert (rtc (attempt p) empty_store crashed_store) as Hatt.
  { destruct (import_notebook "a" "tmp1" 12 empty_store) as [[s t] o] eqn:Ei.
    assert (crashed_store = s) as -> by (unfold crashed_store; rewrite Ei; reflexivity).
    apply rtc_once. unfold import_notebook in Ei. rewrite Ep in Ei. eapply attempt_import; [..|exact Ei].
    - apply fresh_at_fresh. vm_compute. reflexivity.
    - rewrite <- Ep. apply notebook_fits. vm_compute. reflexivity. }
  assert (12 + 2 * length (ip_references p) <= 100) as Hticks
    by (rewrite <- Ep; apply Nat.leb_le; vm_compute; reflexivity).
  assert (fresh (id_of "b") "tmp2" crashed_store) as Hfresh by (apply fresh_at_fresh; vm_compute; reflexivity).
  assert (fits p SourceRelay (id_of "b") "2026-01-02T00:00:00Z") as Hfit
    by (rewrite <- Ep; apply notebook_fits; vm_compute; reflexivity).
  destruct (import_survives_crashes notebook p empty_store crashed_store SourceRelay (id_of "b") "tmp2"
    "2026-01-02T00:00:00Z" 100 E (resumable_empty p) Hatt Hfresh Hfit Hticks)
    as (s2&t2&r&Hi&Hst&_).
  exists s2, t2, r. split; [exact Hi|exact Hst].
Defined.
