(* ===== verification/ExecutionModel.v ===== *)
(** * Executions of the coding harness: records and rules

    [engine/src/shot_execution.rs] and [engine/src/harness_usage.rs]: the private
    records of one run of the harness, what they must satisfy, what is read from
    Git's output and from the harness's log; and the rules by which
    [application/src/execution_manager.rs] continues a run. An [f64] is its 64
    bits: costs are only copied. *)
From S2P Require Import Prelude Text Digest Clock FileTree.

Definition EXECUTION_RECORD_SCHEMA : string := "tohseno.local-shot-execution/1".
Definition EXECUTION_EVENT_SCHEMA : string := "tohseno.local-shot-execution-event/1".
Definition COMPLETION_RECORD_SCHEMA : string := "tohseno.local-shot-completion/1".
Definition STATE_TRANSITION_SCHEMA : string := "tohseno.state-transition/1".
Definition STATE_TRANSITION_HARNESS_DRAFT_PATH : string := "TOHSENO_STATE_TRANSITION.json".
Definition STATE_TRANSITION_DRAFT_PATH : string := ".tohseno/state-transition-draft.json".
Definition MAX_PRESERVED_INTENT_BYTES : Z := 1024 * 1024.
Definition MAX_EXECUTION_RECORD_BYTES : Z := 1024 * 1024.
Definition MAX_COMPLETION_RECORD_BYTES : Z := 8 * 1024 * 1024.
Definition MAX_EXECUTION_EVENTS_BYTES : Z := 16 * 1024 * 1024.
Definition MAX_EXECUTION_DIRECTORIES : nat := 100 * 1000.

Inductive ExecutionMode := Conception | BirthMaterialization | EvolutionMaterialization.
#[export] Instance ExecutionMode_eq_dec : EqDecision ExecutionMode.
Proof. solve_decision. Defined.

Inductive ExecutionPhase :=
  | Prepared | RunnerStarted | TerminalOpened | ExecutionStarted | ContextLoaded | ConceptionPhase
  | Materializing | HarnessRunning | WorkspaceChanged | Building | Testing | Verifying | Repairing
  | Installing | Launching | ValidationStarted | WaitingForDevice | ValidationCompleted
  | ExecutionCompleted | ExecutionFailed | ExecutionCancelled.
#[export] Instance ExecutionPhase_eq_dec : EqDecision ExecutionPhase.
Proof. solve_decision. Defined.

Definition event_name (phase : ExecutionPhase) : string :=
  match phase with
  | Prepared => "shot.prepared"
  | RunnerStarted => "runner.started"
  | TerminalOpened => "terminal.opened"
  | ExecutionStarted => "execution.started"
  | ContextLoaded => "context.loaded"
  | ConceptionPhase => "execution.conception"
  | Materializing => "execution.materializing"
  | HarnessRunning => "harness.running"
  | WorkspaceChanged => "workspace.changed"
  | Building => "execution.building"
  | Testing => "execution.testing"
  | Verifying => "execution.verifying"
  | Repairing => "execution.repairing"
  | Installing => "execution.installing"
  | Launching => "execution.launching"
  | ValidationStarted => "validation.started"
  | WaitingForDevice => "execution.waiting_for_device"
  | ValidationCompleted => "validation.completed"
  | ExecutionCompleted => "execution.completed"
  | ExecutionFailed => "execution.failed"
  | ExecutionCancelled => "execution.cancelled"
  end.

(** [{:?}] of a phase. *)
Definition debug_phase (phase : ExecutionPhase) : string :=
  match phase with
  | Prepared => "Prepared" | RunnerStarted => "RunnerStarted" | TerminalOpened => "TerminalOpened"
  | ExecutionStarted => "ExecutionStarted" | ContextLoaded => "ContextLoaded" | ConceptionPhase => "Conception"
  | Materializing => "Materializing" | HarnessRunning => "HarnessRunning" | WorkspaceChanged => "WorkspaceChanged"
  | Building => "Building" | Testing => "Testing" | Verifying => "Verifying" | Repairing => "Repairing"
  | Installing => "Installing" | Launching => "Launching" | ValidationStarted => "ValidationStarted"
  | WaitingForDevice => "WaitingForDevice" | ValidationCompleted => "ValidationCompleted"
  | ExecutionCompleted => "ExecutionCompleted" | ExecutionFailed => "ExecutionFailed"
  | ExecutionCancelled => "ExecutionCancelled"
  end.

Record ExecutionReference := {
  xr_label : string;
  xr_relative_path : string;
  xr_digest : Bytes32;
  xr_byte_length : Z;
  xr_media_type : string }.
#[export] Instance ExecutionReference_eq_dec : EqDecision ExecutionReference.
Proof. solve_decision. Defined.

(** ** The selected harness *)

Inductive HarnessAdapter :=
  | CustomExecutable (executable : string) (arguments : list string)
  | LocalOpenAi (base_url privacy_mode : string) (credential_reference : option string)
  | ManagedOpenAi (proxy_origin command_id execution_id privacy_mode : string) (maximum_microusd : Z)
      (pricing_snapshot_at : string) (input_microusd_per_million output_microusd_per_million : Z)
      (estimate_low_microusd estimate_high_microusd : Z).
#[export] Instance HarnessAdapter_eq_dec : EqDecision HarnessAdapter.
Proof. solve_decision. Defined.
Record HarnessSelection := {
  hs_harness : string;
  hs_model : string;
  hs_route : string;
  hs_adapter : option HarnessAdapter }.
#[export] Instance HarnessSelection_eq_dec : EqDecision HarnessSelection.
Proof. solve_decision. Defined.
Record HarnessRoute := {
  hr_id : string;
  hr_label : string;
  hr_billing : string;
  hr_available : bool;
  hr_estimated_additional_cost_usd : option Z;
  hr_cost_estimation : bool }.
(** Of what the discovery of harnesses answers, what a preparation reads. *)
Record ResolvedHarness := {
  rh_id : string;
  rh_label : string;
  rh_routes : list HarnessRoute }.

Record ExecutionPreparation := {
  xp_app_name : string;
  xp_shot_id : ShotId;
  xp_version_ordinal : Z;
  xp_selection : HarnessSelection;
  xp_intent_path : string;
  xp_intention_digest : Bytes32;
  xp_references : list ExecutionReference;
  xp_mode : ExecutionMode }.

Record GitBoundary := {
  gb_tree : string;
  gb_head : option string;
  gb_pre_existing_status : list string }.
#[export] Instance GitBoundary_eq_dec : EqDecision GitBoundary.
Proof. solve_decision. Defined.

Record PreparedExecution := {
  pe_schema : string;
  pe_execution_id : string;
  pe_shot_id : ShotId;
  pe_version_ordinal : Z;
  pe_app_name : string;
  pe_repository : string;
  pe_harness : string;
  pe_harness_display_name : string;
  pe_model : string;
  pe_route : string;
  pe_adapter : option HarnessAdapter;
  pe_route_billing : string;
  pe_estimated_additional_cost_usd : option Z;
  pe_intention_digest : Bytes32;
  pe_intent_path : string;
  pe_references : list ExecutionReference;
  pe_mode : ExecutionMode;
  pe_auto_accept_genome : bool;
  pe_baseline : GitBoundary;
  pe_prepared_at : string;
  pe_process_id : option Z;
  pe_phase : ExecutionPhase }.
#[export] Instance PreparedExecution_eq_dec : EqDecision PreparedExecution.
Proof. solve_decision. Defined.

(** The fields that change after preparation. *)
Definition set_progress (mode : ExecutionMode) (process_id : option Z) (phase : ExecutionPhase)
    (e : PreparedExecution) : PreparedExecution := {|
  pe_schema := pe_schema e; pe_execution_id := pe_execution_id e; pe_shot_id := pe_shot_id e;
  pe_version_ordinal := pe_version_ordinal e; pe_app_name := pe_app_name e; pe_repository := pe_repository e;
  pe_harness := pe_harness e; pe_harness_display_name := pe_harness_display_name e; pe_model := pe_model e;
  pe_route := pe_route e; pe_adapter := pe_adapter e; pe_route_billing := pe_route_billing e;
  pe_estimated_additional_cost_usd := pe_estimated_additional_cost_usd e;
  pe_intention_digest := pe_intention_digest e; pe_intent_path := pe_intent_path e;
  pe_references := pe_references e; pe_mode := mode; pe_auto_accept_genome := pe_auto_accept_genome e;
  pe_baseline := pe_baseline e; pe_prepared_at := pe_prepared_at e; pe_process_id := process_id;
  pe_phase := phase |}.
Definition at_phase (phase : ExecutionPhase) (e : PreparedExecution) : PreparedExecution :=
  set_progress (pe_mode e) (pe_process_id e) phase e.
Definition with_process (process_id : option Z) (e : PreparedExecution) : PreparedExecution :=
  set_progress (pe_mode e) process_id (pe_phase e) e.

Record ShotExecutionEvent := {
  xe_schema : string;
  xe_sequence : Z;
  xe_event : string;
  xe_execution_id : string;
  xe_shot_id : ShotId;
  xe_version_ordinal : Z;
  xe_harness : string;
  xe_model : string;
  xe_timestamp : string;
  xe_phase : ExecutionPhase;
  xe_report : string }.

Inductive ExecutionOutcome := OutcomeCompleted | OutcomeFailed | OutcomeCancelled.
#[export] Instance ExecutionOutcome_eq_dec : EqDecision ExecutionOutcome.
Proof. solve_decision. Defined.
Record ChangedFile := {
  cf_status : string;
  cf_path : string;
  cf_additions : option Z;
  cf_deletions : option Z }.
#[export] Instance ChangedFile_eq_dec : EqDecision ChangedFile.
Proof. solve_decision. Defined.
Record ValidationObservation := {
  vo_command : string;
  vo_status : string;
  vo_evidence : option string }.
#[export] Instance ValidationObservation_eq_dec : EqDecision ValidationObservation.
Proof. solve_decision. Defined.
Inductive PersistentStateTransition := StateChanged | StateUnchanged | StateUnknown.
#[export] Instance PersistentStateTransition_eq_dec : EqDecision PersistentStateTransition.
Proof. solve_decision. Defined.
Inductive DataSafety := DataPreserved | DataDestructive | DataUnknown.
#[export] Instance DataSafety_eq_dec : EqDecision DataSafety.
Proof. solve_decision. Defined.
Record StateTransitionReceipt := {
  sx_schema : string;
  sx_persistent_state : PersistentStateTransition;
  sx_summary : string;
  sx_changes : list string;
  sx_migrations : list string;
  sx_data_safety : DataSafety }.
#[export] Instance StateTransitionReceipt_eq_dec : EqDecision StateTransitionReceipt.
Proof. solve_decision. Defined.
Record HarnessUsage := {
  hu_schema : string;
  hu_harness : string;
  hu_total_tokens : Z;
  hu_reported_attempts : Z }.
#[export] Instance HarnessUsage_eq_dec : EqDecision HarnessUsage.
Proof. solve_decision. Defined.

Record CompletionRecord := {
  cr_schema : string;
  cr_execution_id : string;
  cr_shot_id : ShotId;
  cr_version_ordinal : Z;
  cr_mode : option ExecutionMode;
  cr_outcome : ExecutionOutcome;
  cr_landed : bool;
  cr_harness : string;
  cr_model : string;
  cr_route : string;
  cr_intention_digest : Bytes32;
  cr_reference_digests : list Bytes32;
  cr_started_at : string;
  cr_ended_at : string;
  cr_duration_seconds : Z;
  cr_exit_code : option Z;
  cr_files_changed : list ChangedFile;
  cr_git_diff_summary : string;
  cr_baseline_tree : string;
  cr_final_tree : string;
  cr_pre_existing_worktree_status : list string;
  cr_validation_commands_executed : list string;
  cr_validation_results : list ValidationObservation;
  cr_harness_provided_final_summary : option string;
  cr_independently_computed_repository_state : string;
  cr_estimated_additional_cost_usd : option Z;
  cr_actual_additional_cost_usd : option Z;
  cr_token_usage : option HarnessUsage;
  cr_authoritative_next_action : string }.
#[export] Instance CompletionRecord_eq_dec : EqDecision CompletionRecord.
Proof. solve_decision. Defined.

(** The kinds of [io::Error] met here; the last two carry their message. *)
Inductive ExecutionIoError := ExecNotFound | ExecAlreadyExists (message : string) | ExecInvalidData (message : string).
#[export] Instance ExecutionIoError_eq_dec : EqDecision ExecutionIoError.
Proof. solve_decision. Defined.
Inductive ShotExecutionError : Type :=
  | ExecIo (error : ExecutionIoError)
  | ExecJson (error : string)
  | ExecInvalid (reason : string)
  | ExecGit (reason : string).
Definition display_execution_io (e : ExecutionIoError) : string :=
  match e with
  | ExecNotFound => "No such file or directory (os error 2)"
  | ExecAlreadyExists message | ExecInvalidData message => message
  end.
Definition display_execution_error (e : ShotExecutionError) : string :=
  match e with
  | ExecIo error => display_execution_io error
  | ExecJson error => error
  | ExecInvalid reason => reason
  | ExecGit reason => "Git boundary failed: " +:+ reason
  end.
Abbreviation exec_result := (Result ShotExecutionError).
Definition exec_invalid {T} (reason : string) : exec_result T := Err (ExecInvalid reason).

(** ** Small rules *)

Definition validate_execution_id (value : string) : exec_result unit :=
  fail_if (negb (len value =? 32)%nat || negb (forallb is_lower_hex (bytes_of value)))
    (ExecInvalid "execution identity must be 32 lowercase hexadecimal characters").

(** [str::lines]: a line that ends loses its line end, "\r\n" included; a last
    line that does not end is as it is, and is none when empty. *)
Definition strip_cr (line : list Z) : list Z :=
  match rev line with 13%Z :: r => rev r | _ => line end.
Fixpoint ended_lines (parts : list (list Z)) : list (list Z) :=
  match parts with
  | [] => []
  | [part] => if bool_decide (part = []) then [] else [part]
  | part :: parts => strip_cr part :: ended_lines parts
  end.
Definition text_lines (bytes : list Z) : list (list Z) := ended_lines (split_on 10 bytes).
Definition line_is_blank (line : list Z) : bool := trim (chars line) == [].

(** [str::parse] of an unsigned integer of at most [maximum]. *)
Definition parse_digits (maximum : Z) (bytes : list Z) : option Z :=
  if bool_decide (bytes <> []) && forallb is_ascii_digit bytes then
    let value := foldl (λ acc b, acc * 10 + (b - 48))%Z 0%Z bytes in
    if (value <=? maximum)%Z then Some value else None
  else None.
Definition parse_unsigned (maximum : Z) (bytes : list Z) : option Z :=
  match bytes with 43%Z :: rest => parse_digits maximum rest | _ => parse_digits maximum bytes end.

Definition TAB : Z := 9.
(** The last field after the first two were taken: [fields.next_back()]. *)
Definition field_after (n : nat) (fields : list (list Z)) : option (list Z) := last (drop n fields).

(** The two loops of [changed_files]. *)
Definition numstat_counts (numstat : string) : gmap string (option Z * option Z) :=
  foldl (λ counts line,
    let fields := split_on TAB line in
    match field_after 2 fields with
    | Some path => <[string_of path := (fields !! 0 ≫= parse_unsigned U64_MAX, fields !! 1 ≫= parse_unsigned U64_MAX)]> counts
    | None => counts
    end) ∅ (text_lines (bytes_of numstat)).
Definition changed_file (counts : gmap string (option Z * option Z)) (line : list Z) : ChangedFile :=
  let fields := split_on TAB line in
  let path := string_of (default [] (field_after 1 fields)) in
  let '(additions, deletions) := default (None, None) (counts !! path) in
  {| cf_status := string_of (default (bytes_of "?") (fields !! 0)); cf_path := path;
     cf_additions := additions; cf_deletions := deletions |}.
Definition changed_files (names numstat : string) : list ChangedFile :=
  changed_file (numstat_counts numstat) <$> text_lines (bytes_of names).

Section workspace_signals.
Let lower (f : ChangedFile) : list Z := ascii_lowercase_byte <$> bytes_of (cf_path f).
Definition xcode_signal (f : ChangedFile) : bool :=
  existsb (ends_with (bytes_of ".xcodeproj")) (split_on SLASH (lower f)) || (lower f == bytes_of "project.yml").
Definition resource_signal (f : ChangedFile) : bool :=
  contains_bytes (bytes_of "assets.xcassets") (lower f) || ends_with (bytes_of ".strings") (lower f)
  || ends_with (bytes_of ".xcprivacy") (lower f).
Definition protocol_signal (f : ChangedFile) : bool :=
  starts_with (bytes_of "tohseno/") (lower f) || starts_with (bytes_of "tohsenofascia/") (lower f).
(** The signals in the order of their names, as the set iterates. *)
Definition workspace_signals : list (string * (ChangedFile -> bool)) :=
  [("Swift source", λ f, ends_with (bytes_of ".swift") (lower f)); ("Xcode project definition", xcode_signal);
   ("app resources", resource_signal); ("protocol integration", protocol_signal);
   ("test source", λ f, contains_bytes (bytes_of "test") (lower f))].
End workspace_signals.
Definition workspace_progress_from_changes (files : list ChangedFile) : string :=
  let signals := fst <$> filter (λ s, existsb (snd s) files = true) workspace_signals in
  let scope := if bool_decide (files = []) then "no source-tree file change is visible yet"
               else pretty (length files) +:+ " source-tree file(s) changed" in
  if bool_decide (signals = []) then scope +:+ "; no standardized candidate artifact is visible yet"
  else scope +:+ "; visible artifact classes: " +:+ String.concat ", " signals.

Definition elapsed_seconds `{Platform} (started_at ended_at : string) : Z :=
  match parse_rfc3339 started_at, parse_rfc3339 ended_at with
  | Some started, Some ended =>
      let s := whole_seconds (instant ended - instant started) in
      if (0 <=? s)%Z && (s <=? U64_MAX)%Z then s else 0%Z
  | _, _ => 0%Z
  end.

(** ** The receipt of a state transition *)

Definition unknown_state_transition : StateTransitionReceipt := {|
  sx_schema := STATE_TRANSITION_SCHEMA; sx_persistent_state := StateUnknown;
  sx_summary := "The persistent application state transition could not be established.";
  sx_changes := []; sx_migrations := []; sx_data_safety := DataUnknown |}.

Definition blank_text (s : string) : bool := trim (chars (bytes_of s)) == [].
Definition transition_state_check (r : StateTransitionReceipt) : exec_result unit :=
  let empty := bool_decide (sx_changes r = []) && bool_decide (sx_migrations r = []) in
  match sx_persistent_state r with
  | StateChanged => fail_if (bool_decide (sx_changes r = []))
      (ExecInvalid "a changed state transition must name at least one change")
  | StateUnchanged => fail_if (negb empty)
      (ExecInvalid "an unchanged state transition cannot name changes or migrations")
  | StateUnknown => fail_if (negb empty)
      (ExecInvalid "an unknown state transition cannot claim changes or migrations")
  end.
(** [is_file] is asked of paths below the repository. *)
Definition migration_invalid (is_file : string -> bool) (changed : list ChangedFile) (migration : string) : bool :=
  is_absolute migration
  || existsb (λ part, match part with Normal _ => false | _ => true end) (components migration)
  || (negb (bool_decide (changed = []))
      && (negb (is_file migration) || negb (existsb (λ c, cf_path c == migration) changed))).
Definition validate_state_transition (is_file : string -> bool) (changed : list ChangedFile)
    (r : StateTransitionReceipt) : exec_result unit :=
  fail_if ((sx_schema r != STATE_TRANSITION_SCHEMA) || blank_text (sx_summary r) || (2000 <? len (sx_summary r))%nat
           || (64 <? length (sx_changes r))%nat || (64 <? length (sx_migrations r))%nat
           || existsb (λ v, blank_text v || (1000 <? len v)%nat) (sx_changes r ++ sx_migrations r))
    (ExecInvalid "state transition receipt has an invalid bounded shape") ;;
  transition_state_check r ;;
  match List.find (migration_invalid is_file changed) (sx_migrations r) with
  | Some migration =>
      exec_invalid ("state transition migration path is not changed source: " +:+ migration)
  | None => Ok tt
  end.

(** ** What the harness's log reports *)

Definition HARNESS_USAGE_SCHEMA : string := "tohseno.harness-usage/1".
Definition MAXIMUM_LOG_SCAN_BYTES : Z := 512 * 1024 * 1024.
Definition MAXIMUM_LINE_BYTES : Z := 64 * 1024.
Definition MAXIMUM_COUNT_DIGITS : nat := 20.

Definition usage_marker (harness : string) : option string :=
  if harness == "codex" then Some "tokens used" else None.
Definition parse_count (text : list Z) : option Z :=
  let digits := filter (λ c, negb ((c =? 44)%Z || (c =? 95)%Z || (c =? 32)%Z) = true) text in
  if bool_decide (digits = []) || (MAXIMUM_COUNT_DIGITS <? length digits)%nat || negb (forallb is_ascii_digit digits)
  then None else parse_digits U64_MAX digits.

(** The lines that [read_bounded_line] gives: an end of line only ends them. *)
Fixpoint log_parts (parts : list (list Z)) : list (list Z) :=
  match parts with
  | [] => []
  | [part] => if bool_decide (part = []) then [] else [part]
  | part :: parts => part :: log_parts parts
  end.
Definition bounded_lines (log : list Z) : list (list Z) :=
  take (Z.to_nat MAXIMUM_LINE_BYTES) <$> log_parts (split_on 10 log).
(** The loop of [scan_totals_after]. *)
Fixpoint scan_loop (marker : list Z) (expecting : bool) (total attempts : Z) (lines : list (list Z)) : Z * Z :=
  match lines with
  | [] => (total, attempts)
  | line :: lines =>
      if negb (utf8_valid line) then scan_loop marker false total attempts lines
      else
        let text := trim (chars line) in
        if expecting then
          if bool_decide (text = []) then scan_loop marker expecting total attempts lines
          else match parse_count text with
               | Some value => scan_loop marker false (saturating_add_u64 total value) (Z.min U32_MAX (attempts + 1)) lines
               | None => scan_loop marker false total attempts lines
               end
        else scan_loop marker (text == marker) total attempts lines
  end.
Definition scan_totals_after (log : list Z) (marker : string) : option (Z * Z) :=
  let '(total, attempts) :=
    scan_loop (chars (bytes_of marker)) false 0 0
      (bounded_lines (if (Z.of_nat (length log) <=? MAXIMUM_LOG_SCAN_BYTES)%Z then log
                      else take (Z.to_nat MAXIMUM_LOG_SCAN_BYTES) log)) in
  if (0 <? attempts)%Z then Some (total, attempts) else None.
(** [log] is the regular file, if there is one. *)
Definition read_harness_usage (harness : string) (log : option (list Z)) : option HarnessUsage :=
  marker ← usage_marker harness;
  log ← log;
  totals ← scan_totals_after log marker;
  Some {| hu_schema := HARNESS_USAGE_SCHEMA; hu_harness := harness; hu_total_tokens := fst totals;
          hu_reported_attempts := snd totals |}.

(** ** How a run is continued *)

Definition terminal_execution_phase (phase : ExecutionPhase) : bool :=
  match phase with ExecutionCompleted | ExecutionFailed | ExecutionCancelled => true | _ => false end.

Inductive RunnerRecoveryDisposition := Start | ResumeDelivery | FinalizeAbandoned | Observe.
Definition runner_recovery_disposition (phase : ExecutionPhase) (runner_alive : bool) : RunnerRecoveryDisposition :=
  if runner_alive then Observe
  else match phase with
       | Prepared | RunnerStarted => Start
       | WaitingForDevice => ResumeDelivery
       | ExecutionCompleted | ExecutionFailed | ExecutionCancelled => Observe
       | _ => FinalizeAbandoned
       end.

(** What [run_shot] says of the phase of the execution it was started for. *)
Inductive RunAdmission := RunRefused (message : string) | RunResumes | RunStarts.
Definition in_flight_phase (phase : ExecutionPhase) : bool :=
  match phase with
  | ExecutionStarted | ContextLoaded | ConceptionPhase | Materializing | HarnessRunning | WorkspaceChanged
  | Building | Testing | Verifying | Repairing | Installing | Launching | ValidationStarted => true
  | _ => false
  end.
Definition run_admission (phase : ExecutionPhase) : RunAdmission :=
  if in_flight_phase phase then RunRefused "this execution is already in flight"
  else if terminal_execution_phase phase then RunRefused "this execution already has a final outcome"
  else if phase == WaitingForDevice then RunResumes
  else RunStarts.
(** The phases in which [cancel] waits for a runner it cannot see. *)
Definition cancel_refused_phase (phase : ExecutionPhase) : bool :=
  match phase with RunnerStarted => true | _ => in_flight_phase phase end.

Inductive FactoryStage :=
  | StagePlanning | StageConception | StageMaterializing | StageBuilding | StageTesting | StageVerifying
  | StageRepairing | StageInstalling | StageLaunching.
Definition execution_phase_for_factory_stage (stage : FactoryStage) : ExecutionPhase :=
  match stage with
  | StagePlanning => ContextLoaded
  | StageConception => ConceptionPhase
  | StageMaterializing => Materializing
  | StageBuilding => Building
  | StageTesting => Testing
  | StageVerifying => Verifying
  | StageRepairing => Repairing
  | StageInstalling => Installing
  | StageLaunching => Launching
  end.

Definition EXTERNAL_MARKERS : list string :=
  ["external_environment_constraint"; "acceptance_pending_physical_experience";
   "acceptance_pending_simulator_environment"; "factory identity changed"; "Developer Mode"; "Trust This Computer";
   "device delivery"; "device was not"; "signing"; "provisioning"; "network"; "DNS";
   "protocol body is incomplete"; "lineage"].
Definition DEFECT_MARKERS : list string :=
  ["does not build"; "build failed"; "BUILD FAILED"; "missing required anatomy"; "Simulator artifact failed";
   "engine Simulator tests failed"; "error:"].
Definition mentions (diagnostic : string) (marker : string) : bool :=
  contains_bytes (bytes_of marker) (bytes_of diagnostic).
Definition is_repairable_implementation_defect (diagnostic : string) : bool :=
  if mentions diagnostic "Shot conformance failed:" then true
  else if existsb (mentions diagnostic) EXTERNAL_MARKERS then false
  else if mentions diagnostic "classification=app_problem" then true
  else existsb (mentions diagnostic) DEFECT_MARKERS.
Definition MAX_HARNESS_INVOCATIONS : Z := 2.
Definition repair_allowed (harness_invocations : Z) (diagnostic : string) (shared_elapsed shared_budget : Z) : bool :=
  (harness_invocations <? MAX_HARNESS_INVOCATIONS)%Z && (shared_elapsed <? shared_budget)%Z
  && is_repairable_implementation_defect diagnostic.

(** [format_duration], of whole seconds. *)
Definition format_duration (seconds : Z) : string :=
  let hours := (seconds / 3600)%Z in
  let minutes := (seconds mod 3600 / 60)%Z in
  if (0 <? hours)%Z then pretty hours +:+ "h " +:+ pretty minutes +:+ "m" else pretty minutes +:+ "m".
(** [value] is what the environment holds under the name. *)
Definition bounded_duration_setting (value : option string) (default_secs maximum_secs : Z) : Z :=
  Z.min maximum_secs
    (default default_secs
       (v ← value ≫= (λ text, parse_unsigned U64_MAX (bytes_of text)); if (0 <? v)%Z then Some v else None)).

Definition completion_notification (app_name : string) (c : CompletionRecord) : string * string :=
  ((if cr_landed c then
      if bool_decide (cr_mode c = Some BirthMaterialization) then "BIRTH ACCEPTED · " +:+ app_name
      else "VERSION RECORDED · " +:+ app_name
    else if bool_decide (cr_outcome c = OutcomeCancelled) then "SHOT CANCELLED · " +:+ app_name
    else "CANDIDATE UNSEALED · " +:+ app_name), cr_authoritative_next_action c).

(** [command_execution_id]: 32 characters of the digest after its [0x]. *)
Definition command_execution_id `{Platform} (command_id : string) : string :=
  string_of (take 32 (drop 2 (bytes_of (to_hex (sha256
    (bytes_of "TOHSENO-COMMAND-EXECUTION-V1" ++ 0%Z :: bytes_of command_id)))))).
