(* ===== verification/Executions.v ===== *)
(** * Executions of the coding harness: the records on disk

    [engine/src/shot_execution.rs] and the durable part of
    [application/src/execution_manager.rs]: one Shot's repository, every change of
    it a step after which the process may crash. Git's answers, the discovery of
    harnesses, the operating system's answers about processes and the ledger's
    about the accepted Version are arguments; the clock and [serde_json] are
    parameters. An event is appended by one write, and a rename replaces what has
    the name; other failures of the operating system, permissions, fsync, the lock
    file and Git's temporary index are not modelled. *)
From S2P Require Import Prelude CrashIo Text Digest Clock FileTree ExecutionModel.

(** [serde_json] on the records. *)
Class ExecutionCodec := {
  execution_to_vec : PreparedExecution -> Result string (list Z);
  execution_from_slice : list Z -> Result string PreparedExecution;
  event_to_vec : ShotExecutionEvent -> Result string (list Z);
  event_from_str : list Z -> Result string ShotExecutionEvent;
  completion_to_vec : CompletionRecord -> Result string (list Z);
  completion_from_slice : list Z -> Result string CompletionRecord;
  transition_to_vec : StateTransitionReceipt -> Result string (list Z);
  transition_from_slice : list Z -> Result string StateTransitionReceipt }.
(** The answers of the clock, in order, as RFC 3339. *)
Class ExecutionClock := { now_text : nat -> Result string string }.

(** ** The repository of a Shot *)

(** One execution's directory; what a crash leaves of [.record-<pid>.tmp] is by
    the process that wrote it. *)
Record ExecutionDirectory := {
  xd_record : option PrivateFile;
  xd_events : option PrivateFile;
  xd_completion : option PrivateFile;
  xd_transition : option PrivateFile;
  xd_intent : option PrivateFile;
  xd_log : option PrivateFile;
  xd_pid : option PrivateFile;
  xd_temporaries : gmap Z (list Z) }.
Definition empty_execution_directory : ExecutionDirectory := {|
  xd_record := None; xd_events := None; xd_completion := None; xd_transition := None; xd_intent := None;
  xd_log := None; xd_pid := None; xd_temporaries := ∅ |}.
Inductive ExecutionEntry := ExecutionDir (d : ExecutionDirectory) | LinkEntry (leads_somewhere : bool) | OtherEntry.
(** What a path of the workspace is. *)
Inductive WorkspaceEntry := WorkspaceFile (bytes : list Z) | LinkToFile | OtherPath.
Record ShotRepository := {
  sr_kind : DirKind;
  sr_private : DirKind;
  sr_executions_dir : DirKind;
  sr_executions : gmap string ExecutionEntry;
  sr_files : gmap string WorkspaceEntry;
  sr_calls : nat }.

Definition set_executions (kinds : DirKind * DirKind) (m : gmap string ExecutionEntry) (calls : nat)
    (s : ShotRepository) : ShotRepository :=
  {| sr_kind := sr_kind s; sr_private := fst kinds; sr_executions_dir := snd kinds; sr_executions := m;
     sr_files := sr_files s; sr_calls := calls |}.
Definition on_execution (id : string) (f : ExecutionDirectory -> ExecutionDirectory) (s : ShotRepository) : ShotRepository :=
  set_executions (sr_private s, sr_executions_dir s)
    (alter (λ e, match e with ExecutionDir d => ExecutionDir (f d) | e => e end) id (sr_executions s)) (sr_calls s) s.
Definition directory_of (s : ShotRepository) (id : string) : option ExecutionDirectory :=
  match sr_executions s !! id with Some (ExecutionDir d) => Some d | _ => None end.

Definition set_files (record events completion transition intent log pid : option PrivateFile)
    (temporaries : gmap Z (list Z)) : ExecutionDirectory :=
  {| xd_record := record; xd_events := events; xd_completion := completion; xd_transition := transition;
     xd_intent := intent; xd_log := log; xd_pid := pid; xd_temporaries := temporaries |}.
Definition put_temporaries (m : gmap Z (list Z)) (d : ExecutionDirectory) : ExecutionDirectory :=
  set_files (xd_record d) (xd_events d) (xd_completion d) (xd_transition d) (xd_intent d) (xd_log d) (xd_pid d) m.
Definition put_execution (bytes : list Z) (d : ExecutionDirectory) : ExecutionDirectory :=
  set_files (Some (PrivateBytes bytes)) (xd_events d) (xd_completion d) (xd_transition d) (xd_intent d) (xd_log d)
    (xd_pid d) (xd_temporaries d).
Definition put_events (bytes : list Z) (d : ExecutionDirectory) : ExecutionDirectory :=
  set_files (xd_record d) (Some (PrivateBytes bytes)) (xd_completion d) (xd_transition d) (xd_intent d) (xd_log d)
    (xd_pid d) (xd_temporaries d).
Definition put_completion (bytes : list Z) (d : ExecutionDirectory) : ExecutionDirectory :=
  set_files (xd_record d) (xd_events d) (Some (PrivateBytes bytes)) (xd_transition d) (xd_intent d) (xd_log d)
    (xd_pid d) (xd_temporaries d).
Definition put_transition (bytes : list Z) (d : ExecutionDirectory) : ExecutionDirectory :=
  set_files (xd_record d) (xd_events d) (xd_completion d) (Some (PrivateBytes bytes)) (xd_intent d) (xd_log d)
    (xd_pid d) (xd_temporaries d).
Definition put_intent (bytes : list Z) (d : ExecutionDirectory) : ExecutionDirectory :=
  set_files (xd_record d) (xd_events d) (xd_completion d) (xd_transition d) (Some (PrivateBytes bytes)) (xd_log d)
    (xd_pid d) (xd_temporaries d).
Definition put_log (file : option PrivateFile) (d : ExecutionDirectory) : ExecutionDirectory :=
  set_files (xd_record d) (xd_events d) (xd_completion d) (xd_transition d) (xd_intent d) file (xd_pid d)
    (xd_temporaries d).
Definition put_pid (file : option PrivateFile) (d : ExecutionDirectory) : ExecutionDirectory :=
  set_files (xd_record d) (xd_events d) (xd_completion d) (xd_transition d) (xd_intent d) (xd_log d) file
    (xd_temporaries d).

Abbreviation Io := (Crashing ShotRepository ShotExecutionError).

(** ** Git *)

(** What the commands of [capture_tree] answer. *)
Record GitCapture := {
  gc_read_tree : exec_result unit;
  gc_check_ignore : Result string (option Z);
  gc_add : exec_result unit;
  gc_write_tree : exec_result string }.
Record Git := {
  git_output : list string -> exec_result string;
  git_init : exec_result unit;
  git_capture : GitCapture }.

(** [str::trim], of the string. *)
Definition char_width (c : Z) : nat := if (c <? 128)%Z then 1 else if (c <? 2048)%Z then 2 else if (c <? 65536)%Z then 3 else 4.
Fixpoint white_width (cs : list Z) : nat :=
  match cs with c :: cs => if is_whitespace c then char_width c + white_width cs else 0 | [] => 0 end.
Definition trim_text (s : string) : string :=
  let rest := drop (white_width (chars (bytes_of s))) (bytes_of s) in
  string_of (take (length rest - white_width (rev (chars rest))) rest).
Definition is_ascii_hexdigit (b : Z) : bool := is_ascii_digit b || in_range 97 102 b || in_range 65 70 b.

Definition capture_tree (c : GitCapture) : exec_result string :=
  gc_read_tree c ;;
  match gc_check_ignore c with
  | Err error => Err (ExecGit ("inspect private TOHSENO ignore boundary: " +:+ error))
  | Ok code =>
      fail_if (negb (bool_decide (code = Some 0%Z) || bool_decide (code = Some 1%Z)))
        (ExecGit "inspect private TOHSENO ignore boundary: git check-ignore failed")
  end ;;
  gc_add c ;;
  output ← gc_write_tree c;
  let tree := trim_text output in
  fail_if (negb (len tree =? 40)%nat || negb (forallb is_ascii_hexdigit (bytes_of tree)))
    (ExecGit "Git returned an invalid tree identity") ;;
  Ok tree.
Definition git_changed_files (g : Git) (baseline final_tree : string) : exec_result (list ChangedFile) :=
  names ← git_output g ["diff"; "--name-status"; baseline; final_tree];
  numstat ← git_output g ["diff"; "--numstat"; baseline; final_tree];
  Ok (changed_files names numstat).
Definition workspace_changed_files (g : Git) (e : PreparedExecution) : exec_result (list ChangedFile) :=
  tree ← capture_tree (git_capture g);
  git_changed_files g (gb_tree (pe_baseline e)) tree.
Definition has_workspace_changed (g : Git) (e : PreparedExecution) : exec_result bool :=
  tree ← capture_tree (git_capture g);
  Ok (tree != gb_tree (pe_baseline e)).
Definition capture_git_boundary (g : Git) : exec_result GitBoundary :=
  let head := match git_output g ["rev-parse"; "--verify"; "HEAD"] with Ok o => Some (trim_text o) | Err _ => None end in
  status ← git_output g ["status"; "--porcelain=v1"; "--untracked-files=all"];
  tree ← capture_tree (git_capture g);
  Ok {| gb_tree := tree; gb_head := head; gb_pre_existing_status := string_of <$> text_lines (bytes_of status) |}.
Definition ensure_shot_repository (g : Git) (repository : string) (s : ShotRepository) : exec_result unit :=
  match sr_kind s with
  | NoDir => Err (ExecIo ExecNotFound)
  | UnsafeDir => exec_invalid "Shot repository is not a real directory"
  | RealDir => Ok tt
  end ;;
  let is_own_repository := match git_output g ["rev-parse"; "--show-toplevel"] with
    | Ok top => same_path (trim_text top) repository
    | Err _ => false end in
  if is_own_repository then Ok tt else git_init g.

(** ** Reading *)

Definition require_directory (kind : DirKind) (label : string) : exec_result unit :=
  match kind with
  | NoDir => Err (ExecIo ExecNotFound)
  | UnsafeDir => exec_invalid (label +:+ " is not a real directory")
  | RealDir => Ok tt
  end.
Definition checked_execution_directory (s : ShotRepository) (id : string) : exec_result ExecutionDirectory :=
  require_directory (sr_kind s) "Shot repository" ;;
  require_directory (sr_private s) "private Shot state" ;;
  require_directory (sr_executions_dir s) "execution root" ;;
  match sr_executions s !! id with
  | None => Err (ExecIo ExecNotFound)
  | Some (ExecutionDir d) => Ok d
  | Some _ => exec_invalid "execution directory is not a real directory"
  end.

Definition file_size (bytes : list Z) : Z := Z.of_nat (length bytes).
Definition read_bounded_regular_file (file : option PrivateFile) (maximum : Z) : Result ExecutionIoError (list Z) :=
  match file with
  | None => Err ExecNotFound
  | Some SpecialFile => Err (ExecInvalidData "private execution record is unsafe or exceeds its byte limit")
  | Some (PrivateBytes bytes) =>
      fail_if (maximum <? file_size bytes)%Z
        (ExecInvalidData "private execution record is unsafe or exceeds its byte limit") ;;
      Ok bytes
  end.
(** A file that need not exist. *)
Definition read_optional {A} (file : option PrivateFile) (maximum : Z) (read : list Z -> exec_result A)
    : exec_result (option A) :=
  match read_bounded_regular_file file maximum with
  | Ok bytes => a ← read bytes; Ok (Some a)
  | Err ExecNotFound => Ok None
  | Err error => Err (ExecIo error)
  end.

Section executions.
Context `{Platform} `{ExecutionCodec} `{ExecutionClock}.

Definition load_execution (s : ShotRepository) (repository id : string) : exec_result PreparedExecution :=
  validate_execution_id id ;;
  d ← checked_execution_directory s id;
  bytes ← map_err ExecIo (read_bounded_regular_file (xd_record d) MAX_EXECUTION_RECORD_BYTES);
  execution ← map_err ExecJson (execution_from_slice bytes);
  fail_if ((pe_schema execution != EXECUTION_RECORD_SCHEMA) || (pe_execution_id execution != id)
           || negb (same_path (pe_repository execution) repository))
    (ExecInvalid "execution record does not match this Shot repository") ;;
  Ok execution.

Definition event_matches (e : PreparedExecution) (event : ShotExecutionEvent) : bool :=
  (xe_schema event == EXECUTION_EVENT_SCHEMA) && (xe_execution_id event == pe_execution_id e)
  && (xe_shot_id event == pe_shot_id e) && (xe_version_ordinal event == pe_version_ordinal e)%Z
  && (xe_harness event == pe_harness e) && (xe_model event == pe_model e).
Definition journal_lines (bytes : list Z) : list (list Z) :=
  filter (λ line, negb (line_is_blank line) = true) (text_lines bytes).
Definition read_event (e : PreparedExecution) (line : list Z) : exec_result ShotExecutionEvent :=
  event ← map_err ExecJson (event_from_str line);
  fail_if (negb (event_matches e event)) (ExecInvalid "execution event identity mismatch") ;;
  Ok event.
Fixpoint read_all (e : PreparedExecution) (lines : list (list Z)) : exec_result (list ShotExecutionEvent) :=
  match lines with
  | [] => Ok []
  | line :: lines => event ← read_event e line; events ← read_all e lines; Ok (event :: events)
  end.
Fixpoint contiguous (sequence : Z) (events : list ShotExecutionEvent) : bool :=
  match events with
  | [] => true
  | event :: events => (xe_sequence event == sequence)%Z && contiguous (sequence + 1) events
  end.
Definition read_journal (e : PreparedExecution) (file : option PrivateFile) : exec_result (list ShotExecutionEvent) :=
  bytes ← map_err ExecIo (read_bounded_regular_file file MAX_EXECUTION_EVENTS_BYTES);
  fail_if (negb (utf8_valid bytes)) (ExecInvalid "execution events are not bounded UTF-8") ;;
  events ← read_all e (journal_lines bytes);
  fail_if (negb (contiguous 1 events)) (ExecInvalid "execution event sequence is not contiguous") ;;
  Ok events.
(** The files below the directory that was checked when the record was loaded. *)
Definition file_of (s : ShotRepository) (id : string) (get : ExecutionDirectory -> option PrivateFile) : option PrivateFile :=
  d ← directory_of s id; get d.
Definition read_events (s : ShotRepository) (repository id : string) : exec_result (list ShotExecutionEvent) :=
  execution ← load_execution s repository id;
  read_journal execution (file_of s id xd_events).

Definition load_completion (s : ShotRepository) (repository id : string) : exec_result (option CompletionRecord) :=
  validate_execution_id id ;;
  execution ← load_execution s repository id;
  read_optional (file_of s id xd_completion) MAX_COMPLETION_RECORD_BYTES (λ bytes,
    completion ← map_err ExecJson (completion_from_slice bytes);
    fail_if ((cr_schema completion != COMPLETION_RECORD_SCHEMA) || (cr_execution_id completion != pe_execution_id execution)
             || (cr_shot_id completion != pe_shot_id execution)
             || (cr_version_ordinal completion != pe_version_ordinal execution)%Z)
      (ExecInvalid "execution completion identity mismatch") ;;
    Ok completion).
Definition workspace_is_file (s : ShotRepository) (path : string) : bool :=
  match sr_files s !! path with Some (WorkspaceFile _) | Some LinkToFile => true | _ => false end.
Definition load_state_transition_receipt (s : ShotRepository) (repository id : string)
    : exec_result (option StateTransitionReceipt) :=
  validate_execution_id id ;;
  execution ← load_execution s repository id;
  read_optional (file_of s id xd_transition) MAX_COMPLETION_RECORD_BYTES (λ bytes,
    receipt ← map_err ExecJson (transition_from_slice bytes);
    validate_state_transition (workspace_is_file s) [] receipt ;;
    Ok receipt).
Definition preserved_intent (s : ShotRepository) (id : string) : exec_result (option string) :=
  validate_execution_id id ;;
  found ← read_optional (file_of s id xd_intent) MAX_PRESERVED_INTENT_BYTES (λ bytes,
    Ok (if utf8_valid bytes then Some (string_of bytes) else None));
  Ok (match found with Some text => text | None => None end).

(** ** Writing *)

Definition now : Io string := λ t s,
  (set_executions (sr_private s, sr_executions_dir s) (sr_executions s) (S (sr_calls s)) s, t,
   Returned (map_err ExecInvalid (now_text (sr_calls s)))).

Definition execution_exists (s : ShotRepository) (id : string) : bool :=
  match sr_executions s !! id with Some (LinkEntry b) => b | Some _ => true | None => false end.
Definition made (kind : DirKind) : DirKind := match kind with NoDir => RealDir | k => k end.
(** [create_dir_all] of an execution's directory, one directory at a time; a
    parent that is not a real directory is a link to one. *)
Definition create_execution_directory (id : string) : Io unit :=
  change (λ s, set_executions (made (sr_private s), sr_executions_dir s) (sr_executions s) (sr_calls s) s) ;;
  change (λ s, set_executions (sr_private s, made (sr_executions_dir s)) (sr_executions s) (sr_calls s) s) ;;
  entry ← gets (λ s, Ok (sr_executions s !! id));
  match entry with
  | Some (ExecutionDir _) => mret tt
  | Some _ => lift (Err (ExecIo (ExecAlreadyExists "File exists")))
  | None =>
      change (λ s, set_executions (sr_private s, sr_executions_dir s)
                     (<[id := ExecutionDir empty_execution_directory]> (sr_executions s)) (sr_calls s) s)
  end.
(** [write_private_bytes] by the process [pid], in an execution's directory. *)
Definition write_private (pid : Z) (id : string) (put : list Z -> ExecutionDirectory -> ExecutionDirectory)
    (bytes : list Z) : Io unit :=
  present ← gets (λ s, Ok (opt_is_some (directory_of s id)));
  io_when (negb present) (create_execution_directory id) ;;
  gets (λ s, match directory_of s id with
             | Some d => fail_if (opt_is_some (xd_temporaries d !! pid)) (ExecIo (ExecAlreadyExists "File exists"))
             | None => Err (ExecIo ExecNotFound)
             end) ;;
  change (on_execution id (λ d, put_temporaries (<[pid := []]> (xd_temporaries d)) d)) ;;
  change (on_execution id (λ d, put_temporaries (<[pid := bytes]> (xd_temporaries d)) d)) ;;
  change (on_execution id (λ d, put bytes (put_temporaries (delete pid (xd_temporaries d)) d))).
Definition write_record (pid : Z) (e : PreparedExecution) : Io unit :=
  bytes ← lift (map_err ExecJson (execution_to_vec e));
  write_private pid (pe_execution_id e) put_execution (bytes ++ [10%Z]).

Definition new_event (e : PreparedExecution) (phase : ExecutionPhase) (report : string) (sequence : Z) (timestamp : string)
    : ShotExecutionEvent := {|
  xe_schema := EXECUTION_EVENT_SCHEMA; xe_sequence := sequence; xe_event := event_name phase;
  xe_execution_id := pe_execution_id e; xe_shot_id := pe_shot_id e; xe_version_ordinal := pe_version_ordinal e;
  xe_harness := pe_harness e; xe_model := pe_model e; xe_timestamp := timestamp; xe_phase := phase;
  xe_report := report |}.
(** The sequence of the next event, from the journal. *)
Definition next_sequence (file : option PrivateFile) : exec_result Z :=
  match read_bounded_regular_file file MAX_EXECUTION_EVENTS_BYTES with
  | Ok bytes =>
      fail_if (negb (utf8_valid bytes)) (ExecInvalid "execution events are not bounded UTF-8") ;;
      Ok (Z.of_nat (length (journal_lines bytes)) + 1)%Z
  | Err ExecNotFound => Ok 1%Z
  | Err error => Err (ExecIo error)
  end.
Definition journal_bytes (d : ExecutionDirectory) : list Z :=
  match xd_events d with Some (PrivateBytes bytes) => bytes | _ => [] end.
Definition append_execution_event (e : PreparedExecution) (phase : ExecutionPhase) (report : string) : Io unit :=
  let id := pe_execution_id e in
  sequence ← gets (λ s, next_sequence (file_of s id xd_events));
  timestamp ← now;
  bytes ← lift (map_err ExecJson (event_to_vec (new_event e phase report sequence timestamp)));
  let encoded := bytes ++ [10%Z] in
  existing ← gets (λ s, Ok (file_of s id xd_events));
  let existing_length := match existing with Some (PrivateBytes b) => file_size b | _ => 0%Z end in
  lift (fail_if (MAX_EXECUTION_EVENTS_BYTES <? saturating_add_u64 existing_length (file_size encoded))%Z
          (ExecInvalid "execution event journal reached its byte limit")) ;;
  io_when (bool_decide (existing = None)) (change (on_execution id (put_events []))) ;;
  change (on_execution id (λ d, put_events (journal_bytes d ++ encoded) d)).
Definition update_phase (pid : Z) (e : PreparedExecution) (phase : ExecutionPhase) (report : string) : Io PreparedExecution :=
  let e := at_phase phase e in
  write_record pid e ;;
  append_execution_event e phase report ;;
  mret e.
Definition append_harness_heartbeat (e : PreparedExecution) (report : string) : Io unit :=
  append_execution_event e HarnessRunning report.

(** ** Preparation *)

(** The loop of [ensure_no_active_execution]; the order of the entries is the
    directory's. *)
Fixpoint no_active_loop (s : ShotRepository) (repository : string) (index : nat) (names : list string) : exec_result unit :=
  match names with
  | [] => Ok tt
  | name :: names =>
      fail_if (MAX_EXECUTION_DIRECTORIES <=? index)%nat
        (ExecInvalid "execution history exceeds its local directory limit") ;;
      match sr_executions s !! name with
      | Some (LinkEntry _) => exec_invalid "execution history contains a symlink"
      | Some (ExecutionDir _) =>
          fail_if (negb (utf8_valid (bytes_of name))) (ExecInvalid "execution history contains a non-UTF-8 identity") ;;
          validate_execution_id name ;;
          existing ← load_execution s repository name;
          fail_if (negb (terminal_execution_phase (pe_phase existing)))
            (ExecInvalid ("execution " +:+ pe_execution_id existing +:+ " is still " +:+ debug_phase (pe_phase existing)
               +:+ "; complete or cancel it before preparing another Shot version"))
      | _ => Ok tt
      end ;;
      no_active_loop s repository (S index) names
  end.
(** The order in which [read_dir] lists the executions. *)
Definition ensure_no_active_execution (listing : list string) (repository : string) (s : ShotRepository) : exec_result unit :=
  match sr_executions_dir s with
  | UnsafeDir => exec_invalid "execution root is not a real directory"
  | NoDir => Ok tt
  | RealDir => no_active_loop s repository 0 listing
  end.

Definition bound_to (p : ExecutionPreparation) (e : PreparedExecution) : bool :=
  (pe_shot_id e == xp_shot_id p) && (pe_version_ordinal e == xp_version_ordinal p)%Z
  && (pe_app_name e == xp_app_name p) && (pe_harness e == hs_harness (xp_selection p))
  && (pe_model e == hs_model (xp_selection p)) && (pe_route e == hs_route (xp_selection p))
  && bool_decide (pe_adapter e = hs_adapter (xp_selection p)) && (pe_intention_digest e == xp_intention_digest p)
  && bool_decide (pe_mode e = xp_mode p).
Definition find_route (resolved : ResolvedHarness) (route : string) : option HarnessRoute :=
  List.find (λ r, hr_id r == route) (rh_routes resolved).
Definition estimated_cost (resolved : Result string ResolvedHarness) (selection : HarnessSelection) : Result string (option Z) :=
  option ← resolved;
  Ok (find_route option (hs_route selection) ≫= hr_estimated_additional_cost_usd).
Definition preserve_execution_intent (pid : Z) (e : PreparedExecution) : Io unit :=
  source ← gets (λ s, Ok (sr_files s !! pe_intent_path e));
  match source with
  | Some (WorkspaceFile bytes) =>
      io_when (negb (MAX_PRESERVED_INTENT_BYTES <? file_size bytes)%Z)
        (write_private pid (pe_execution_id e) put_intent bytes)
  | _ => mret tt
  end.
Definition prepared_record (p : ExecutionPreparation) (repository id : string) (harness : ResolvedHarness)
    (route : HarnessRoute) (cost : option Z) (baseline : GitBoundary) (prepared_at : string) : PreparedExecution := {|
  pe_schema := EXECUTION_RECORD_SCHEMA; pe_execution_id := id; pe_shot_id := xp_shot_id p;
  pe_version_ordinal := xp_version_ordinal p; pe_app_name := xp_app_name p; pe_repository := repository;
  pe_harness := rh_id harness; pe_harness_display_name := rh_label harness;
  pe_model := hs_model (xp_selection p); pe_route := hr_id route; pe_adapter := hs_adapter (xp_selection p);
  pe_route_billing := hr_billing route; pe_estimated_additional_cost_usd := cost;
  pe_intention_digest := xp_intention_digest p; pe_intent_path := xp_intent_path p;
  pe_references := xp_references p; pe_mode := xp_mode p; pe_auto_accept_genome := false;
  pe_baseline := baseline; pe_prepared_at := prepared_at; pe_process_id := None; pe_phase := Prepared |}.

(** What the world answers to a preparation: the discovery of harnesses, asked
    twice, Git, and the listing of the executions. *)
Record PrepareWorld := {
  pw_resolved : Result string ResolvedHarness;
  pw_resolved_again : Result string ResolvedHarness;
  pw_git : Git;
  pw_listing : ShotRepository -> list string }.
Definition prepare_execution_with_id (w : PrepareWorld) (pid : Z) (repository : string) (p : ExecutionPreparation)
    (id : string) : Io PreparedExecution :=
  lift (validate_execution_id id) ;;
  harness ← lift (map_err ExecInvalid (pw_resolved w));
  route ← lift (ok_or (ExecInvalid "selected route disappeared") (find_route harness (hs_route (xp_selection p))));
  gets (ensure_shot_repository (pw_git w) repository) ;;
  present ← gets (λ s, Ok (execution_exists s id));
  if (present : bool) then
    existing ← gets (λ s, load_execution s repository id);
    lift (fail_if (negb (bound_to p existing))
            (ExecInvalid "reserved execution identity is already bound to different work")) ;;
    mret existing
  else
    gets (λ s, ensure_no_active_execution (pw_listing w s) repository s) ;;
    create_execution_directory id ;;
    baseline ← lift (capture_git_boundary (pw_git w));
    cost ← lift (map_err ExecInvalid (estimated_cost (pw_resolved_again w) (xp_selection p)));
    prepared_at ← now;
    let prepared := prepared_record p repository id harness route cost baseline prepared_at in
    write_record pid prepared ;;
    preserve_execution_intent pid prepared ;;
    append_execution_event prepared Prepared "The intention, references, and version boundary are prepared." ;;
    mret prepared.
End executions.

(** ** Completion *)

Section completion.
Context `{Platform} `{ExecutionCodec} `{ExecutionClock}.

Definition finalize_state_transition (s : ShotRepository) (changed : list ChangedFile) : StateTransitionReceipt :=
  default unknown_state_transition
    (match sr_files s !! STATE_TRANSITION_DRAFT_PATH with
     | Some (WorkspaceFile bytes) =>
         if (MAX_COMPLETION_RECORD_BYTES <? file_size bytes)%Z then None
         else match transition_from_slice bytes with
              | Ok receipt =>
                  if is_ok (validate_state_transition (workspace_is_file s) changed receipt) then Some receipt else None
              | Err _ => None
              end
     | _ => None
     end).

Definition shown_bool (b : bool) : string := if b then "true" else "false".

(** The arguments of [complete_execution]. *)
Record Ending := {
  ed_started_at : string;
  ed_duration_seconds : Z;
  ed_exit_code : option Z;
  ed_cancelled : bool;
  ed_accepted_version : bool;
  ed_validation_passed : bool;
  ed_validation_evidence : option string }.

Definition birth (e : PreparedExecution) : bool := bool_decide (pe_mode e = BirthMaterialization).
Definition validation_command (e : PreparedExecution) : string :=
  if birth e then "engine birth acceptance: protocol_conformance + intent_fidelity + experience_verification"
  else "engine Version recording: declared verification gates".
Definition validation_of (e : PreparedExecution) (x : Ending) : ValidationObservation := {|
  vo_command := validation_command e;
  vo_status := if ed_accepted_version x then (if ed_validation_passed x then "passed" else "failed") else "not_accepted";
  vo_evidence := ed_validation_evidence x |}.
Definition validation_report (e : PreparedExecution) (x : Ending) : string :=
  if ed_validation_passed x && birth e then "The accepted birth passed all three independent dimensions."
  else if ed_validation_passed x then "The recorded Version passed every gate declared for that Version."
  else if ed_accepted_version x then "An accepted Version exists, but independent verification failed."
  else "The candidate remains unsealed because engine acceptance did not pass.".
Definition ending_outcome (x : Ending) : ExecutionOutcome :=
  if ed_cancelled x then OutcomeCancelled
  else if bool_decide (ed_exit_code x = Some 0%Z) then OutcomeCompleted else OutcomeFailed.
Definition landed_of (x : Ending) : bool := ed_accepted_version x && ed_validation_passed x.
Definition next_action_of (x : Ending) (files : list ChangedFile) : string :=
  if landed_of x then "Experience the accepted app now running on the paired iPhone."
  else if ed_cancelled x then "The Shot was cancelled. Start a new execution only when you want to retry the preserved intention."
  else if negb (bool_decide (files = [])) then "Review the engine diagnostic and unaccepted candidate evidence; repair the failed criteria without changing the accepted intention."
  else "Inspect the execution events, then start a new execution for the preserved exact intention; final execution records are immutable.".

Definition completion_of (e : PreparedExecution) (x : Ending) (files : list ChangedFile)
    (summary final_tree ended_at : string) (usage : option HarnessUsage) : CompletionRecord := {|
  cr_schema := COMPLETION_RECORD_SCHEMA; cr_execution_id := pe_execution_id e; cr_shot_id := pe_shot_id e;
  cr_version_ordinal := pe_version_ordinal e; cr_mode := Some (pe_mode e); cr_outcome := ending_outcome x;
  cr_landed := landed_of x; cr_harness := pe_harness e; cr_model := pe_model e; cr_route := pe_route e;
  cr_intention_digest := pe_intention_digest e; cr_reference_digests := xr_digest <$> pe_references e;
  cr_started_at := ed_started_at x; cr_ended_at := ended_at;
  cr_duration_seconds := Z.max (ed_duration_seconds x) (elapsed_seconds (ed_started_at x) ended_at);
  cr_exit_code := ed_exit_code x; cr_files_changed := files; cr_git_diff_summary := summary;
  cr_baseline_tree := gb_tree (pe_baseline e); cr_final_tree := final_tree;
  cr_pre_existing_worktree_status := gb_pre_existing_status (pe_baseline e);
  cr_validation_commands_executed :=
    if ed_accepted_version x
    then [if birth e then "engine three-dimensional birth acceptance" else "engine declared Version gates"] else [];
  cr_validation_results := [validation_of e x]; cr_harness_provided_final_summary := None;
  cr_independently_computed_repository_state :=
    "Git tree " +:+ final_tree +:+ "; accepted version " +:+ padded4 (pe_version_ordinal e) +:+ ": "
    +:+ shown_bool (ed_accepted_version x) +:+ "; independent verification: "
    +:+ shown_bool (ed_validation_passed x) +:+ ".";
  cr_estimated_additional_cost_usd := pe_estimated_additional_cost_usd e;
  cr_actual_additional_cost_usd :=
    if pe_route_billing e == "subscription" then pe_estimated_additional_cost_usd e else None;
  cr_token_usage := usage; cr_authoritative_next_action := next_action_of x files |}.

Definition final_phase (landed : bool) (outcome : ExecutionOutcome) : ExecutionPhase :=
  if landed then ExecutionCompleted
  else if bool_decide (outcome = OutcomeCancelled) then ExecutionCancelled else ExecutionFailed.
Definition ending_report (e : PreparedExecution) (x : Ending) : string :=
  if landed_of x then
    if birth e then "The complete birth passed all three dimensions and was accepted."
    else "The candidate became a verified accepted Version."
  else "The harness ended with an unsealed candidate; no incomplete Version was accepted.".

Definition log_bytes (file : option PrivateFile) : option (list Z) :=
  match file with Some (PrivateBytes bytes) => Some bytes | _ => None end.
Definition publish_completion (pid : Z) (id : string) (c : CompletionRecord) : Io unit :=
  bytes ← lift (map_err ExecJson (completion_to_vec c));
  write_private pid id put_completion (bytes ++ [10%Z]).
Definition publish_transition (pid : Z) (id : string) (changed : list ChangedFile) : Io unit :=
  receipt ← gets (λ s, Ok (finalize_state_transition s changed));
  bytes ← lift (map_err ExecJson (transition_to_vec receipt));
  write_private pid id put_transition (bytes ++ [10%Z]).
(** The phases before the completion is published. *)
Definition validation_phases (pid : Z) (e : PreparedExecution) (x : Ending) (files : list ChangedFile) : Io PreparedExecution :=
  e ← (if negb (bool_decide (files = [])) && negb (bool_decide (pe_phase e = WorkspaceChanged))
       then update_phase pid e WorkspaceChanged (pretty (length files) +:+ " workspace file(s) changed after the boundary.")
       else mret e);
  e ← update_phase pid e ValidationStarted "Checking the accepted-version and repository evidence.";
  update_phase pid e ValidationCompleted (validation_report e x).

Definition complete_execution (g : Git) (pid : Z) (e : PreparedExecution) (x : Ending)
    : Io (PreparedExecution * CompletionRecord) :=
  let e := with_process None e in
  let id := pe_execution_id e in
  final_tree ← lift (capture_tree (git_capture g));
  files ← lift (git_changed_files g (gb_tree (pe_baseline e)) final_tree);
  publish_transition pid id files ;;
  e ← validation_phases pid e x files;
  summary ← lift (git_output g ["diff"; "--shortstat"; gb_tree (pe_baseline e); final_tree]);
  ended_at ← now;
  log ← gets (λ s, Ok (log_bytes (file_of s id xd_log)));
  let completion := completion_of e x files (trim_text summary) final_tree ended_at (read_harness_usage (pe_harness e) log) in
  publish_completion pid id completion ;;
  e ← update_phase pid e (final_phase (cr_landed completion) (cr_outcome completion)) (ending_report e x);
  mret (e, completion).
End completion.

(** ** Recovery and cancellation, of the manager *)

(** A [Box<dyn Error>]: an error of the engine, of the operating system, or a
    message. *)
Inductive ManagerError :=
  | ManagerExecution (error : ShotExecutionError)
  | ManagerIo (error : ExecutionIoError)
  | ManagerMessage (message : string).
Definition display_manager_error (e : ManagerError) : string :=
  match e with
  | ManagerExecution error => display_execution_error error
  | ManagerIo error => display_execution_io error
  | ManagerMessage message => message
  end.
Abbreviation manager_result := (Result ManagerError).
Abbreviation Managed := (Crashing ShotRepository ManagerError).

Section manager.
Context `{Platform} `{ExecutionCodec} `{ExecutionClock}.

Definition engine {A} (m : Io A) : Managed A := io_map_err ManagerExecution m.

(** What [accepted_validation] answers: accepted, passed, the evidence. *)
Definition Accepted : Type := (bool * bool * option string)%type.

Definition completion_fits (e : PreparedExecution) (c : CompletionRecord) : bool :=
  (cr_schema c == COMPLETION_RECORD_SCHEMA) && (cr_execution_id c == pe_execution_id e)
  && (cr_shot_id c == pe_shot_id e) && (cr_version_ordinal c == pe_version_ordinal e)%Z
  && bool_decide (cr_mode c = Some (pe_mode e)) && (cr_harness c == pe_harness e) && (cr_model c == pe_model e)
  && (cr_route c == pe_route e) && (cr_intention_digest c == pe_intention_digest e)
  && bool_decide (cr_reference_digests c = xr_digest <$> pe_references e).
Definition completion_phase (c : CompletionRecord) : ExecutionPhase := final_phase (cr_landed c) (cr_outcome c).
Definition recovered_report (c : CompletionRecord) : string :=
  if cr_landed c then "Recovered the independently verified accepted execution outcome."
  else if bool_decide (cr_outcome c = OutcomeCancelled) then "Recovered the cancelled execution outcome."
  else "Recovered the unsealed execution outcome; no incomplete Version was accepted.".

Definition terminal_event_present (e : PreparedExecution) (expected : ExecutionPhase) (s : ShotRepository)
    : manager_result bool :=
  events ← match read_events s (pe_repository e) (pe_execution_id e) with
           | Ok events => Ok events
           | Err (ExecIo ExecNotFound) => Ok []
           | Err error => Err (ManagerExecution error)
           end;
  let terminal := filter (λ event, terminal_execution_phase (xe_phase event) = true) events in
  match terminal with
  | [] => Ok false
  | [event] =>
      fail_if (negb (bool_decide (xe_phase event = expected))
               || negb (bool_decide (xe_sequence <$> last events = Some (xe_sequence event))))
        (ManagerMessage "execution event journal contains a conflicting terminal event") ;;
      Ok true
  | _ => Err (ManagerMessage "execution event journal contains duplicate terminal events")
  end.

Definition reconcile_published_completion (pid : Z) (e : PreparedExecution) (c : CompletionRecord)
    (landed_evidence_valid : bool) : Managed unit :=
  lift (fail_if (negb (completion_fits e c))
          (ManagerMessage "execution completion does not match its durable preparation")) ;;
  lift (fail_if (cr_landed c && negb landed_evidence_valid)
          (ManagerMessage "execution completion claims acceptance without an independently verified Version")) ;;
  let phase := completion_phase c in
  let current_is_terminal := terminal_execution_phase (pe_phase e) in
  lift (fail_if (current_is_terminal && negb (bool_decide (pe_phase e = phase)))
          (ManagerMessage "execution terminal phase contradicts its durable completion")) ;;
  has_terminal_event ← gets (terminal_event_present e phase);
  lift (fail_if (negb current_is_terminal && has_terminal_event)
          (ManagerMessage "execution terminal event precedes its durable terminal phase")) ;;
  if (has_terminal_event : bool) then mret tt
  else
    engine (update_phase pid e phase (recovered_report c)) ;;
    present ← gets (terminal_event_present e phase);
    lift (fail_if (negb present) (ManagerMessage "execution terminal event was not durably published")).

(** [remove_runner_pid], whose failure is passed over. *)
Definition remove_runner_pid (id : string) : Managed unit :=
  file ← gets (λ s, Ok (file_of s id xd_pid));
  io_when (opt_is_some file) (change (on_execution id (put_pid None))).

Definition evidence_of (diagnostic : string) (evidence : option string) : string :=
  match evidence with Some evidence => diagnostic +:+ "; " +:+ evidence | None => diagnostic end.
Definition started_at_of (e : PreparedExecution) (events : list ShotExecutionEvent) : string :=
  match List.find (λ event, bool_decide (xe_phase event = ExecutionStarted)) events with
  | Some event => xe_timestamp event
  | None => pe_prepared_at e
  end.
Definition stalled_ending (e : PreparedExecution) (events : list ShotExecutionEvent) (accepted : manager_result Accepted)
    (diagnostic : string) : Ending :=
  let '(is_accepted, passed, evidence) := match accepted with Ok a => a | Err _ => (false, false, None) end in
  {| ed_started_at := started_at_of e events; ed_duration_seconds := 0; ed_exit_code := Some 1%Z;
     ed_cancelled := false; ed_accepted_version := is_accepted; ed_validation_passed := passed;
     ed_validation_evidence := Some (evidence_of diagnostic evidence) |}.
Definition finalize_stalled_execution (g : Git) (accepted : manager_result Accepted) (pid : Z)
    (repository id diagnostic : string) : Managed (option CompletionRecord) :=
  execution ← engine (gets (λ s, load_execution s repository id));
  published ← engine (gets (λ s, load_completion s repository id));
  match (published : option CompletionRecord) with
  | Some completion =>
      valid ← (if cr_landed completion then
                 answer ← lift accepted;
                 mret (fst (fst answer) && snd (fst answer))
               else mret true);
      reconcile_published_completion pid execution completion valid ;;
      remove_runner_pid id ;;
      mret (Some completion)
  | None =>
      if terminal_execution_phase (pe_phase execution) then mret None
      else
        events ← engine (gets (λ s, read_events s repository id));
        ended ← engine (complete_execution g pid execution (stalled_ending execution events accepted diagnostic));
        remove_runner_pid id ;;
        mret (Some (snd ended))
  end.

(** *** The runner's process *)

Definition checked_runner_directory (s : ShotRepository) (id : string) : manager_result ExecutionDirectory :=
  let unsafe {T} : manager_result T :=
    Err (ManagerIo (ExecInvalidData "execution runner storage has an unsafe directory component")) in
  let check (kind : DirKind) : manager_result unit :=
    match kind with NoDir => Err (ManagerIo ExecNotFound) | UnsafeDir => unsafe | RealDir => Ok tt end in
  check (sr_kind s) ;; check (sr_private s) ;; check (sr_executions_dir s) ;;
  match sr_executions s !! id with
  | None => Err (ManagerIo ExecNotFound)
  | Some (ExecutionDir d) => Ok d
  | Some _ => unsafe
  end.
Definition pid_error {T} (message : string) : manager_result T := Err (ManagerIo (ExecInvalidData message)).
Definition read_runner_pid (s : ShotRepository) (id : string) : manager_result (option Z) :=
  d ← checked_runner_directory s id;
  match xd_pid d with
  | None => Ok None
  | Some SpecialFile => pid_error "the unattended runner PID record is unsafe"
  | Some (PrivateBytes bytes) =>
      fail_if (32 <? file_size bytes)%Z (ManagerIo (ExecInvalidData "the unattended runner PID record is unsafe")) ;;
      fail_if (negb (utf8_valid bytes)) (ManagerIo (ExecInvalidData "the unattended runner PID record is not UTF-8")) ;;
      pid ← ok_or (ManagerIo (ExecInvalidData "the unattended runner PID record is malformed"))
              (parse_unsigned U32_MAX (bytes_of (trim_text (string_of bytes))));
      fail_if (pid <=? 1)%Z (ManagerIo (ExecInvalidData "the unattended runner PID is unsafe")) ;;
      Ok (Some pid)
  end.
Definition write_runner_pid (id : string) (runner_pid : Z) : Managed unit :=
  existing ← gets (λ s, read_runner_pid s id);
  match existing with
  | Some existing =>
      lift (fail_if (negb (existing =? runner_pid)%Z)
              (ManagerIo (ExecAlreadyExists "another exact runner already owns this execution")))
  | None => change (on_execution id (put_pid (Some (PrivateBytes (bytes_of (pretty runner_pid) ++ [10%Z])))))
  end.
Definition remove_stale_runner_pid (id : string) : Managed unit :=
  d ← gets (λ s, checked_runner_directory s id);
  match xd_pid d with
  | Some SpecialFile => lift (Err (ManagerMessage "execution runner PID path is unsafe"))
  | Some (PrivateBytes _) => change (on_execution id (put_pid None))
  | None => mret tt
  end.

(** What the operating system answers to a launch: whether the process with a PID
    is this runner, whether the claim is held, and the child that was spawned. *)
Record LaunchWorld := {
  lw_is_runner : Z -> bool;
  lw_claim_held : bool;
  lw_spawn : Result string Z }.
Definition spawn_background_runner (w : LaunchWorld) (id : string) : Managed unit :=
  d ← gets (λ s, checked_runner_directory s id);
  match xd_log d with
  | Some SpecialFile => lift (Err (ManagerMessage "private harness log is not a regular file"))
  | Some (PrivateBytes _) => mret tt
  | None => change (on_execution id (put_log (Some (PrivateBytes []))))
  end ;;
  child ← lift (map_err ManagerMessage (lw_spawn w));
  write_runner_pid id child.
Definition start_background_runner (w : LaunchWorld) (pid : Z) (e : PreparedExecution) : Managed PreparedExecution :=
  e ← engine (update_phase pid e RunnerStarted
        "The unattended Shot runner started; private harness output remains in the local operational log.");
  spawned ← io_try (spawn_background_runner w (pe_execution_id e));
  match (spawned : manager_result unit) with
  | Ok _ => mret e
  | Err error =>
      engine (update_phase pid e Prepared ("The unattended runner did not start: " +:+ display_manager_error error)) ;;
      lift (Err error)
  end.
Definition recorded_runner_is_alive (w : LaunchWorld) (s : ShotRepository) (id : string) : manager_result bool :=
  pid ← read_runner_pid s id;
  Ok (match pid with Some pid => lw_is_runner w pid | None => false end).

Definition ensure_background_runner (w : LaunchWorld) (g : Git) (accepted : manager_result Accepted) (pid : Z)
    (repository id : string) : Managed PreparedExecution :=
  initial ← engine (gets (λ s, load_execution s repository id));
  gets (λ s, checked_runner_directory s id) ;;
  execution ← engine (gets (λ s, load_execution s repository id));
  alive ← gets (λ s, recorded_runner_is_alive w s id);
  match runner_recovery_disposition (pe_phase execution) (alive || lw_claim_held w) with
  | Start => remove_stale_runner_pid id ;; start_background_runner w pid execution
  | ResumeDelivery => remove_stale_runner_pid id ;; spawn_background_runner w id ;; mret execution
  | FinalizeAbandoned =>
      finalize_stalled_execution g accepted pid repository id
        "the exact unattended runner stopped before publishing a terminal record" ;;
      engine (gets (λ s, load_execution s repository id))
  | Observe => mret execution
  end.

(** What the operating system answers to a cancellation: whether a process runs,
    whether the PID is the runner's, whether it could be signalled, whether it
    stopped in time. *)
Record CancelWorld := {
  cw_running : Z -> bool;
  cw_verified : manager_result unit;
  cw_signalled : bool;
  cw_stopped : bool }.
Definition cancelled_ending (e : PreparedExecution) (answer : Accepted) : Ending := {|
  ed_started_at := pe_prepared_at e; ed_duration_seconds := 0; ed_exit_code := None; ed_cancelled := true;
  ed_accepted_version := fst (fst answer); ed_validation_passed := snd (fst answer);
  ed_validation_evidence := snd answer |}.
Definition cancel_running (w : CancelWorld) (g : Git) (accepted : manager_result Accepted) (pid : Z)
    (repository id : string) : Managed CompletionRecord :=
  lift (cw_verified w) ;;
  lift (fail_if (negb (cw_signalled w))
          (ManagerMessage "the unattended runner stopped before cancellation reached it")) ;;
  lift (fail_if (negb (cw_stopped w)) (ManagerMessage "the unattended runner did not stop after cancellation")) ;;
  execution ← engine (gets (λ s, load_execution s repository id));
  published ← engine (gets (λ s, load_completion s repository id));
  match (published : option CompletionRecord) with
  | Some completion => mret completion
  | None =>
      answer ← lift accepted;
      ended ← engine (complete_execution g pid execution (cancelled_ending execution answer));
      remove_runner_pid id ;;
      mret (snd ended)
  end.
Definition cancel_idle (w : CancelWorld) (g : Git) (accepted : manager_result Accepted) (pid : Z)
    (e : PreparedExecution) : Managed CompletionRecord :=
  lift (fail_if (match pe_process_id e with Some child => cw_running w child | None => false end)
          (ManagerMessage "a legacy/manual harness process is still running; stop that process before finalizing cancellation")) ;;
  let dead_recorded_child := opt_is_some (pe_process_id e) in
  let e := with_process None e in
  lift (fail_if (cancel_refused_phase (pe_phase e) && negb dead_recorded_child)
          (ManagerMessage "the unattended runner is between cancellable harness phases; wait for the next event and retry")) ;;
  answer ← lift accepted;
  ended ← engine (complete_execution g pid e (cancelled_ending e answer));
  mret (snd ended).
Definition cancel_execution (w : CancelWorld) (g : Git) (accepted : manager_result Accepted) (pid : Z)
    (repository id : string) : Managed CompletionRecord :=
  execution ← engine (gets (λ s, load_execution s repository id));
  published ← engine (gets (λ s, load_completion s repository id));
  lift (fail_if (opt_is_some published) (ManagerMessage "the execution already has a final completion record")) ;;
  runner ← gets (λ s, read_runner_pid s id);
  match (runner : option Z) with
  | Some runner_pid =>
      if cw_running w runner_pid then cancel_running w g accepted pid repository id
      else remove_runner_pid id ;; cancel_idle w g accepted pid execution
  | None => cancel_idle w g accepted pid execution
  end.

Definition load_command_execution (s : ShotRepository) (repository command_id : string)
    : exec_result (option PreparedExecution) :=
  match load_execution s repository (command_execution_id command_id) with
  | Ok execution => Ok (Some execution)
  | Err (ExecIo ExecNotFound) => Ok None
  | Err error => Err error
  end.
End manager.
