(* ===== verification/ExecutionLaws.v ===== *)
(** * Laws of executions

    In the logic of [CrashIo], with [ok] as a parameter: what every operation on
    the records of an execution keeps, whatever crashes; and, when the records fit
    and nobody left a temporary file of the process, that it succeeds. Over every
    history of a Shot: a published completion is final, the journal of events is
    numbered and ends with at most one terminal event, at most one execution is
    open; and recovery settles what a crash left anywhere. *)
From S2P Require Import Prelude CrashIo Text Digest Clock FileTree ExecutionModel Executions.

(** ** Lines of a journal *)

Record good_line (line : list Z) : Prop := {
  gl_newline : 10%Z ∉ line;
  gl_return : strip_cr line = line;
  gl_blank : line_is_blank line = false;
  gl_utf8 : utf8_valid line = true }.
Definition joined (lines : list (list Z)) : list Z := concat ((λ line, line ++ [10%Z]) <$> lines).

Lemma joined_app a b : joined (a ++ b) = joined a ++ joined b.
Proof. unfold joined. by rewrite fmap_app, concat_app. Qed.
Lemma split_on_nonempty sep bs : split_on sep bs <> [].
Proof. destruct bs as [|b bs]; [done|]. cbn. destruct (b =? sep)%Z; [done|]. by destruct (split_on sep bs). Qed.
Lemma text_lines_joined lines : Forall good_line lines -> text_lines (joined lines) = lines.
Proof.
  unfold text_lines. induction 1 as [|line lines Hl _ IH]; [done|].
  change (joined (line :: lines)) with ((line ++ [10%Z]) ++ joined lines).
  rewrite <- app_assoc. cbn [app]. rewrite split_on_app_sep by apply Hl.
  pose proof (split_on_nonempty 10 (joined lines)) as Hne.
  destruct (split_on 10 (joined lines)) as [|part parts]; [done|]. cbn [ended_lines] in IH |- *.
  by rewrite (gl_return _ Hl), IH.
Qed.
Lemma journal_lines_joined lines : Forall good_line lines -> journal_lines (joined lines) = lines.
Proof.
  intros Hl. unfold journal_lines. rewrite text_lines_joined by done.
  induction Hl as [|line lines Hg _ IH]; [done|]. rewrite filter_cons_True; [by rewrite IH|]. by rewrite (gl_blank _ Hg).
Qed.
Lemma utf8_valid_app a b : utf8_valid a = true -> utf8_valid (a ++ b) = utf8_valid b.
Proof.
  enough (forall n a, length a < n -> utf8_valid a = true -> utf8_valid (a ++ b) = utf8_valid b) as Hn
    by (intros Ha; apply (Hn (S (length a))); [lia|done]).
  clear a. intros n. induction n as [|n IH]; [intros; lia|]. intros [|x a] Hlen; [done|]. cbn [app utf8_valid length] in *.
  destruct (in_range 0 127 x); [intros Ha; apply IH; [lia|done]|].
  destruct a as [|c1 a]; [done|]. cbn [app length] in *.
  destruct (in_range 194 223 x).
  { intros [-> Ha]%andb_true_iff. cbn. apply IH; [lia|done]. }
  destruct a as [|c2 a]; [done|]. cbn [app length] in *.
  destruct (in_range 224 239 x).
  { intros [Hc Ha]%andb_true_iff. rewrite Hc. cbn. apply IH; [lia|done]. }
  destruct a as [|c3 a]; [done|]. cbn [app length] in *.
  intros [Hc Ha]%andb_true_iff. rewrite Hc. cbn. apply IH; [lia|done].
Qed.
Lemma utf8_valid_joined lines : Forall good_line lines -> utf8_valid (joined lines) = true.
Proof.
  induction 1 as [|line lines Hl _ IH]; [done|].
  change (joined (line :: lines)) with ((line ++ [10%Z]) ++ joined lines).
  rewrite <- app_assoc, utf8_valid_app by apply Hl. by cbn.
Qed.
Lemma joined_length lines : length lines <= length (joined lines).
Proof.
  induction lines as [|line lines IH]; [done|].
  change (joined (line :: lines)) with ((line ++ [10%Z]) ++ joined lines). rewrite !length_app. simpl. lia.
Qed.

(** ** Progress of an execution *)

Definition progress_of (e e' : PreparedExecution) : Prop := exists mode process phase, e' = set_progress mode process phase e.
Lemma progress_refl e : progress_of e e.
Proof. exists (pe_mode e), (pe_process_id e), (pe_phase e). by destruct e. Qed.
Lemma progress_trans a b c : progress_of a b -> progress_of b c -> progress_of a c.
Proof. intros (m&p&h&->) (m'&p'&h'&->). by exists m', p', h'. Qed.
Lemma progress_at_phase phase e : progress_of e (at_phase phase e).
Proof. by exists (pe_mode e), (pe_process_id e), phase. Qed.
Lemma progress_with_process child e : progress_of e (with_process child e).
Proof. by exists (pe_mode e), child, (pe_phase e). Qed.

Section codec.
Context `{Platform} `{ExecutionCodec} `{ExecutionClock}.

(** What the writer and the reader of the records promise together. An [f64] may
    be written and read back inexactly; [exact_cost] are those that are not. *)
Class ExecutionCodecLaws := {
  exact_cost : Z -> Prop;
  execution_round_trip : forall e bytes, execution_to_vec e = Ok bytes -> pe_auto_accept_genome e = false ->
    (forall c, pe_estimated_additional_cost_usd e = Some c -> exact_cost c) -> execution_from_slice (bytes ++ [10%Z]) = Ok e;
  completion_round_trip : forall c bytes, completion_to_vec c = Ok bytes ->
    (forall z, cr_estimated_additional_cost_usd c = Some z -> exact_cost z) ->
    (forall z, cr_actual_additional_cost_usd c = Some z -> exact_cost z) -> completion_from_slice (bytes ++ [10%Z]) = Ok c;
  event_round_trip : forall ev line, event_to_vec ev = Ok line -> event_from_str line = Ok ev;
  event_line : forall ev line, event_to_vec ev = Ok line -> good_line line }.
End codec.

Section laws.
Context `{Platform} `{ExecutionCodec} `{ExecutionClock} `{!ExecutionCodecLaws}.

Definition storable (e : PreparedExecution) : Prop :=
  pe_auto_accept_genome e = false /\ forall c, pe_estimated_additional_cost_usd e = Some c -> exact_cost c.
Lemma storable_progress e e' : progress_of e e' -> storable e -> storable e'.
Proof. by intros (m&p&h&->). Qed.

(** ** What the files of an execution hold *)

Definition journal (events : list ShotExecutionEvent) (file : option PrivateFile) : Prop :=
  match file with
  | None => events = []
  | Some SpecialFile => False
  | Some (PrivateBytes bytes) => exists lines, bytes = joined lines /\
      Forall2 (λ line ev, good_line line /\ event_from_str line = Ok ev) lines events
  end.
Definition numbered (e : PreparedExecution) (events : list ShotExecutionEvent) : Prop :=
  Forall (λ ev, event_matches e ev = true) events /\ contiguous 1 events = true.

Lemma contiguous_app a b : forall n, contiguous n (a ++ b) = contiguous n a && contiguous (n + Z.of_nat (length a)) b.
Proof.
  induction a as [|x a IH]; intros n; [cbn; by rewrite Z.add_0_r|]. cbn [app contiguous length]. rewrite IH, andb_assoc.
  do 2 f_equal. lia.
Qed.
Lemma numbered_snoc e events ev : numbered e events -> event_matches e ev = true ->
  xe_sequence ev = (Z.of_nat (length events) + 1)%Z -> numbered e (events ++ [ev]).
Proof.
  intros [Hm Hc] He Hs. split; [by apply Forall_app; split; [|constructor]|].
  rewrite contiguous_app, Hc. cbn [andb contiguous]. rewrite Hs, andb_true_r. apply bool_decide_eq_true. lia.
Qed.
Lemma journal_good lines events : Forall2 (λ line ev, good_line line /\ event_from_str line = Ok ev) lines events ->
  Forall good_line lines /\ length lines = length events.
Proof. induction 1 as [|l ev ls evs [Hg _] _ [IH1 IH2]]; [done|]. split; [by constructor|]. simpl. lia. Qed.

Lemma journal_unique events events' file : journal events file -> journal events' file -> events = events'.
Proof.
  destruct file as [[bytes|]|]; cbn; [|done|by intros -> ->]. intros (l&->&Hl) (l'&Hj&Hl').
  assert (l = l') as <- by (rewrite <- (text_lines_joined l), Hj by apply (journal_good _ _ Hl); apply text_lines_joined, (journal_good _ _ Hl')).
  clear Hj. revert events' Hl'. induction Hl as [|line ev l events [_ He] _ IH]; intros events' Hl'; inversion Hl' as [|? ev' ? v' [_ He']]; [done|].
  subst. f_equal; [congruence|by apply IH].
Qed.

(** What [next_sequence] gives of a journal, and [read_journal]. *)
Lemma next_sequence_journal events file n : journal events file -> next_sequence file = Ok n ->
  n = (Z.of_nat (length events) + 1)%Z.
Proof.
  unfold next_sequence. destruct file as [[bytes|]|]; cbn [journal]; [|done|by intros -> [= <-]].
  intros (lines&->&Hl) Hn. destruct (journal_good _ _ Hl) as [Hg Hlen]. unfold read_bounded_regular_file in Hn.
  destruct (_ <? _)%Z; [done|]. cbn [fail_if mbind Result_bind] in Hn.
  rewrite utf8_valid_joined, journal_lines_joined in Hn by done. injection Hn as <-. by rewrite Hlen.
Qed.
Lemma next_sequence_total events file : journal events file ->
  (forall bytes, file = Some (PrivateBytes bytes) -> (file_size bytes <= MAX_EXECUTION_EVENTS_BYTES)%Z) ->
  is_ok (next_sequence file) = true.
Proof.
  unfold next_sequence. destruct file as [[bytes|]|]; cbn [journal]; [|done|done].
  intros (lines&->&Hl) Hs. destruct (journal_good _ _ Hl) as [Hg _]. unfold read_bounded_regular_file.
  rewrite (proj2 (Z.ltb_ge _ _)) by by apply Hs. cbn [fail_if mbind Result_bind]. by rewrite utf8_valid_joined.
Qed.
Lemma read_all_events e lines events : Forall2 (λ line ev, good_line line /\ event_from_str line = Ok ev) lines events ->
  Forall (λ ev, event_matches e ev = true) events -> read_all e lines = Ok events.
Proof.
  induction 1 as [|l ev ls evs [_ He] _ IH]; intros Hm; [done|]. apply Forall_cons in Hm as [Hv Hm].
  cbn [read_all]. unfold read_event. rewrite He. cbn [map_err mbind Result_bind]. rewrite Hv. cbn [negb fail_if].
  by rewrite (IH Hm).
Qed.
Lemma read_all_Ok e lines events found : Forall2 (λ line ev, good_line line /\ event_from_str line = Ok ev) lines events ->
  read_all e lines = Ok found -> found = events.
Proof.
  intros Hl. revert found. induction Hl as [|l ev ls evs [_ He] _ IH]; intros found Hf; [by injection Hf as <-|].
  cbn [read_all] in Hf. unfold read_event in Hf. rewrite He in Hf. cbn [map_err mbind Result_bind] in Hf.
  destruct (negb (event_matches e ev)); [done|]. cbn [fail_if] in Hf.
  destruct (read_all e ls) as [evs'|]; [|done]. injection Hf as <-. f_equal. by apply IH.
Qed.
Lemma read_journal_Ok e events file found : journal events file -> read_journal e file = Ok found -> found = events.
Proof.
  unfold read_journal. destruct file as [[bytes|]|]; cbn [journal]; [|done|done].
  intros (lines&->&Hl) Hf. destruct (journal_good _ _ Hl) as [Hg _]. unfold read_bounded_regular_file in Hf.
  destruct (_ <? _)%Z; [done|]. cbn [fail_if map_err mbind Result_bind] in Hf.
  rewrite utf8_valid_joined, journal_lines_joined in Hf by done. cbn [negb fail_if] in Hf.
  destruct (read_all e lines) as [evs|] eqn:E; [|done]. cbn in Hf. destruct (negb _); [done|]. cbn in Hf. injection Hf as <-.
  by eapply read_all_Ok.
Qed.
Lemma read_journal_total e events bytes : journal events (Some (PrivateBytes bytes)) -> numbered e events ->
  (file_size bytes <= MAX_EXECUTION_EVENTS_BYTES)%Z -> read_journal e (Some (PrivateBytes bytes)) = Ok events.
Proof.
  intros (lines&->&Hl) [Hm Hc] Hs. destruct (journal_good _ _ Hl) as [Hg _]. unfold read_journal, read_bounded_regular_file.
  rewrite (proj2 (Z.ltb_ge _ _) Hs). cbn [fail_if map_err mbind Result_bind].
  rewrite utf8_valid_joined, journal_lines_joined by done. cbn [negb fail_if].
  rewrite (read_all_events e lines events Hl Hm). cbn [mbind Result_bind]. by rewrite Hc.
Qed.

(** ** The logic *)

(** What one event may take of the journal, when operations must not fail. *)
Definition EVENT_ROOM : Z := 4096.
Definition events_size (d : ExecutionDirectory) : Z := file_size (journal_bytes d).
Record content (e : PreparedExecution) (events : list ShotExecutionEvent) (completion : option PrivateFile)
    (d : ExecutionDirectory) : Prop := {
  ct_record : exists bytes, xd_record d = Some (PrivateBytes bytes) /\ execution_from_slice bytes = Ok e;
  ct_journal : journal events (xd_events d);
  ct_completion : xd_completion d = completion }.

Lemma content_unique d e events f e' events' f' : content e events f d -> content e' events' f' d ->
  e = e' /\ events = events' /\ f = f'.
Proof.
  intros [(b&Hb&He) Hj <-] [(b'&Hb'&He') Hj' <-]. rewrite Hb in Hb'. injection Hb' as <-. rewrite He in He'. injection He' as <-.
  split; [done|]. split; [by eapply journal_unique|done].
Qed.

Section operations.
Context (ok : Prop) (pid : Z) (id : string) (s0 : ShotRepository).
Hypothesis clock_answers : ok -> forall n, is_ok (now_text n) = true.

Definition with_directory (d : ExecutionDirectory) (calls : nat) : ShotRepository :=
  set_executions (sr_private s0, sr_executions_dir s0) (<[id := ExecutionDir d]> (sr_executions s0)) calls s0.
(** Only the directory of the execution, and the clock, differ from [s0]. *)
Definition framed (D : ExecutionDirectory -> Prop) (s : ShotRepository) : Prop :=
  exists d calls, s = with_directory d calls /\ D d.

Lemma on_with_directory f d calls : on_execution id f (with_directory d calls) = with_directory (f d) calls.
Proof. unfold on_execution, with_directory, set_executions. cbn. by rewrite alter_insert_eq. Qed.
Lemma directory_of_with d calls : directory_of (with_directory d calls) id = Some d.
Proof. unfold directory_of. cbn. by rewrite lookup_insert_eq. Qed.
Lemma file_of_with d calls get : file_of (with_directory d calls) id get = get d.
Proof. unfold file_of. by rewrite directory_of_with. Qed.
Lemma framed_weaken (D D' : ExecutionDirectory -> Prop) s : (forall d, D d -> D' d) -> framed D s -> framed D' s.
Proof. intros HD (d&n&->&Hd). exists d, n. auto. Qed.

Lemma triple_on f (D D' I : ExecutionDirectory -> Prop) : (forall d, D d -> I d) -> (forall d, D d -> D' (f d)) ->
  triple (E := ShotExecutionError) ok (framed D) (change (on_execution id f)) 1 (λ _, framed D') (framed I).
Proof.
  intros HI Hf. apply triple_change; [intros s; by apply framed_weaken|].
  intros s (d&n&->&Hd). rewrite on_with_directory. exists (f d), n. auto.
Qed.
Lemma triple_now (D I : ExecutionDirectory -> Prop) : (forall d, D d -> I d) ->
  triple ok (framed D) now 0 (λ ts s, (exists n, now_text n = Ok ts) /\ framed D s) (framed I).
Proof.
  intros HI t s (d&n&->&Hd). unfold now. cbn.
  destruct (now_text n) as [ts|] eqn:E; cbn.
  - split; [|lia]. split; [by exists n|]. by exists d, (S n).
  - split; [exists d, (S n); auto|]. intros Hok. specialize (clock_answers Hok n). by rewrite E in clock_answers.
Qed.

Definition clean (d : ExecutionDirectory) : Prop := ok -> xd_temporaries d !! pid = None.
Lemma triple_write put bytes (D D' : ExecutionDirectory -> Prop) :
  (forall d, xd_temporaries (put bytes d) = xd_temporaries d) -> (forall m d, D d -> D (put_temporaries m d)) ->
  (forall m d, D d -> D' (put bytes (put_temporaries m d))) ->
  triple ok (framed (λ d, D d /\ clean d)) (write_private pid id put bytes) 3 (λ _, framed (λ d, D' d /\ clean d)) (framed D).
Proof.
  intros Ht Hm Hp. unfold write_private.
  apply (triple_bind _ _ 0 (λ b s, b = true /\ framed (λ d, D d /\ clean d) s) _ 3).
  { apply triple_gets. intros s (d&n&->&Hd). rewrite directory_of_with. split; [done|]. by exists d, n. }
  intros b. apply triple_pure. intros ->.
  apply (triple_bind _ _ 0 (λ _, framed (λ d, D d /\ clean d)) _ 3); [by apply triple_when|]. intros [].
  apply (triple_bind _ _ 0 (λ _, framed D) _ 3).
  { apply triple_gets. intros s (d&n&->&Hd&Hc). rewrite directory_of_with.
    destruct (xd_temporaries d !! pid) eqn:E; cbn; [|by exists d, n].
    split; [by exists d, n|]. intros Hok. by rewrite (Hc Hok) in E. }
  intros _. apply (triple_bind _ _ 1 (λ _, framed D) _ 2); [apply triple_on; auto|].
  intros _. apply (triple_bind _ _ 1 (λ _, framed D) _ 1); [apply triple_on; auto|].
  intros _. apply triple_on; [auto|]. intros d Hd. split; [by apply Hp|].
  intros _. rewrite Ht. cbn. by rewrite lookup_delete_eq.
Qed.

(** *** The record, the journal, and a phase *)

Definition record_size (d : ExecutionDirectory) : Z :=
  match xd_record d with Some (PrivateBytes bytes) => file_size bytes | _ => 0%Z end.
(** Room for [k] more events, and a record that can be read. *)
Definition roomy (k : nat) (d : ExecutionDirectory) : Prop :=
  ok -> (record_size d <= MAX_EXECUTION_RECORD_BYTES /\ events_size d + Z.of_nat k * EVENT_ROOM <= MAX_EXECUTION_EVENTS_BYTES)%Z.
Definition live k e events completion (d : ExecutionDirectory) : Prop :=
  (content e events completion d /\ roomy k d) /\ clean d.

Lemma content_temporaries e events f m d : content e events f d -> content e events f (put_temporaries m d).
Proof. by intros []. Qed.
Lemma live_fewer k k' e events f d : k' <= k -> live k e events f d -> live k' e events f d.
Proof.
  intros Hk [[Hc Hr] Hcl]. split; [split; [done|]|done]. intros Hok. destruct (Hr Hok). split; [done|].
  unfold EVENT_ROOM in *. lia.
Qed.

Definition writable_record (e : PreparedExecution) : Prop :=
  ok -> exists bytes, execution_to_vec e = Ok bytes /\ (file_size (bytes ++ [10%Z]) <= MAX_EXECUTION_RECORD_BYTES)%Z.
Definition event_after (events : list ShotExecutionEvent) e phase report ts : ShotExecutionEvent :=
  new_event e phase report (Z.of_nat (length events) + 1) ts.
Definition writable_event (events : list ShotExecutionEvent) e phase report : Prop :=
  ok -> forall n ts, now_text n = Ok ts -> exists line, event_to_vec (event_after events e phase report ts) = Ok line /\
    (file_size (line ++ [10%Z]) <= EVENT_ROOM)%Z.

Lemma triple_record k e events f e1 : storable e1 -> pe_execution_id e1 = id -> writable_record e1 ->
  triple ok (framed (live k e events f)) (write_record pid e1) 3 (λ _, framed (live k e1 events f)) (framed (content e events f)).
Proof.
  intros [Hg Hcost] Hid Hw. unfold write_record. rewrite Hid. destruct (execution_to_vec e1) as [bytes|] eqn:E.
  - apply (triple_bind _ _ 0 (λ b s, b = bytes /\ framed (live k e events f) s) _ 3); [by apply triple_lift|].
    intros b. apply triple_pure. intros ->.
    eapply (triple_weaken _ (framed (λ d, (content e events f d /\ roomy k d) /\ clean d)) _ _ 3 _
      (λ _, framed (λ d, (content e1 events f d /\ roomy k d) /\ clean d)) _ (framed (λ d, content e events f d /\ roomy k d)));
      [|done..|intros s; apply framed_weaken; by intros d []].
    apply triple_write; [done|by intros m d [[] ?]|].
    intros m d [[Hr Hj Hf] Hk]. split.
    + split; [|done|done]. eexists. split; [done|]. by apply execution_round_trip.
    + intros Hok. destruct (Hk Hok) as [_ Hs]. split; [|done].
      destruct (Hw Hok) as (b&Hb&Hl). rewrite E in Hb. by injection Hb as <-.
  - apply (triple_bind _ _ 0 (λ _ _, False) _ 3); [|by intros a t s].
    apply triple_lift. intros s Hs. split; [by eapply framed_weaken; [|exact Hs]; intros d [[] _]|].
    intros Hok. destruct (Hw Hok) as (b&Hb&_). by rewrite E in Hb.
Qed.

Lemma journal_appended events file ev line : journal events file -> event_to_vec ev = Ok line ->
  journal (events ++ [ev]) (Some (PrivateBytes (default [] (match file with Some (PrivateBytes b) => Some b | _ => None end)
    ++ line ++ [10%Z]))).
Proof.
  intros Hj He. assert (exists lines, default [] (match file with Some (PrivateBytes b) => Some b | _ => None end) = joined lines
    /\ Forall2 (λ line ev, good_line line /\ event_from_str line = Ok ev) lines events) as (lines&->&Hl).
  { destruct file as [[bytes|]|]; cbn in Hj |- *; [done|done|]. subst. by exists []. }
  exists (lines ++ [line]). split; [by rewrite joined_app; unfold joined at 3; cbn; rewrite app_nil_r|].
  apply Forall2_app; [done|]. constructor; [|constructor]. split; [by eapply event_line|by apply event_round_trip].
Qed.

Lemma framed_live k e events f s : framed (live k e events f) s -> framed (content e events f) s.
Proof. apply framed_weaken. by intros d [[] _]. Qed.
Lemma content_no_journal e events f d : xd_events d = None -> content e events f d -> content e events f (put_events [] d).
Proof. intros He [Hr Hj Hf]. split; [done| |done]. rewrite He in Hj. cbn in Hj |- *. subst. by exists []. Qed.
Lemma live_no_journal k e events f d : xd_events d = None -> live k e events f d -> live k e events f (put_events [] d).
Proof.
  intros He [[Hc Hr] Hcl]. split; [split; [by apply content_no_journal|]|done].
  intros Hok. destruct (Hr Hok) as [? Hs]. split; [done|]. unfold events_size, journal_bytes in *. by rewrite He in Hs.
Qed.
Lemma live_snoc k e events f d ev line : live (S k) e events f d -> event_to_vec ev = Ok line ->
  (ok -> (file_size (line ++ [10%Z]) <= EVENT_ROOM)%Z) ->
  live k e (events ++ [ev]) f (put_events (journal_bytes d ++ line ++ [10%Z]) d).
Proof.
  intros [[[Hr Hj Hf] Hk] Hcl] He Hs. split; [split|done].
  - split; [done| |done]. pose proof (journal_appended _ _ _ _ Hj He) as Hn. cbn. unfold journal_bytes.
    by destruct (xd_events d) as [[]|].
  - intros Hok. specialize (Hs Hok). destruct (Hk Hok) as [? Hroom]. split; [done|].
    change (file_size (journal_bytes d ++ line ++ [10%Z]) + Z.of_nat k * EVENT_ROOM <= MAX_EXECUTION_EVENTS_BYTES)%Z.
    unfold events_size, file_size in *. rewrite (length_app (journal_bytes d)). unfold EVENT_ROOM in *. lia.
Qed.

Lemma triple_append k e events f e1 phase report : pe_execution_id e1 = id -> writable_event events e1 phase report ->
  triple ok (framed (live (S k) e events f)) (append_execution_event e1 phase report) 2
    (λ _ s, exists ts, framed (live k e (events ++ [event_after events e1 phase report ts]) f) s) (framed (content e events f)).
Proof.
  intros Hid Hw. unfold append_execution_event. rewrite Hid.
  apply (triple_bind _ _ 0 (λ n s, n = (Z.of_nat (length events) + 1)%Z /\ framed (live (S k) e events f) s) _ 2).
  { apply triple_gets. intros s Hs. pose proof (framed_live _ _ _ _ _ Hs) as Hcon. destruct Hs as (d&c&->&Hd).
    rewrite file_of_with. pose proof Hd as [[[_ Hj _] Hroom] _]. destruct (next_sequence (xd_events d)) as [n|] eqn:E.
    - split; [by eapply next_sequence_journal|]. by exists d, c.
    - split; [done|]. intros Hok. destruct (Hroom Hok) as [_ Hs]. pose proof (next_sequence_total _ _ Hj) as Ht.
      rewrite E in Ht. discriminate Ht. intros bytes Hb. unfold events_size, journal_bytes in Hs. rewrite Hb in Hs.
      unfold EVENT_ROOM in Hs. lia. }
  intros n. apply triple_pure. intros ->.
  apply (triple_bind _ _ 0 (λ ts s, (exists n, now_text n = Ok ts) /\ framed (live (S k) e events f) s) _ 2).
  { apply triple_now. by intros d [[] _]. }
  intros ts. apply triple_pure. intros [m Hts]. fold (event_after events e1 phase report ts).
  apply (triple_bind _ _ 0 (λ line s, event_to_vec (event_after events e1 phase report ts) = Ok line /\
    framed (live (S k) e events f) s) _ 2).
  { apply triple_lift. intros s Hs. destruct (event_to_vec _) as [line|] eqn:E; [by split|].
    split; [by eapply framed_live|]. intros Hok. destruct (Hw Hok m ts Hts) as (line&Hl&_). by rewrite E in Hl. }
  intros line. apply triple_pure. intros Hline.
  assert (ok -> (file_size (line ++ [10%Z]) <= EVENT_ROOM)%Z) as Hsize.
  { intros Hok. destruct (Hw Hok m ts Hts) as (line'&Hl&Hn). rewrite Hline in Hl. by injection Hl as <-. }
  apply (triple_bind _ _ 0 (λ ex, framed (λ d, xd_events d = ex /\ live (S k) e events f d)) _ 2).
  { apply triple_gets. intros s (d&c&->&Hd). rewrite file_of_with. by exists d, c. }
  intros ex. apply (triple_bind _ _ 0 (λ _, framed (λ d, xd_events d = ex /\ live (S k) e events f d)) _ 2).
  { apply triple_lift. intros s Hs. destruct (_ <? _)%Z eqn:E; [|done]. cbn.
    split; [by eapply framed_weaken; [|exact Hs]; intros d [_ [[] _]]|]. intros Hok. destruct Hs as (d&c&->&<-&[[_ Hroom] _]).
    destruct (Hroom Hok) as [_ Hn]. specialize (Hsize Hok). unfold events_size, journal_bytes in Hn.
    apply Z.ltb_lt in E. unfold saturating_add_u64 in E.
    unfold MAX_EXECUTION_EVENTS_BYTES, EVENT_ROOM, U64_MAX in *. destruct (xd_events d) as [[]|]; unfold file_size in *; lia. }
  intros _. apply (triple_bind _ _ 1 (λ _, framed (live (S k) e events f)) _ 1).
  { apply triple_when; intros Hex.
    - apply bool_decide_eq_true in Hex as ->. apply triple_on; [by intros d [_ [[] _]]|].
      intros d [He Hl]. by apply live_no_journal.
    - intros s. apply framed_weaken. by intros d []. }
  intros _. eapply (triple_weaken _ (framed (live (S k) e events f)) _ _ 1 _
    (λ _, framed (live k e (events ++ [event_after events e1 phase report ts]) f)) _ (framed (content e events f)));
    [|done..|intros _ s Hs; by exists ts|done].
  apply triple_on; [by intros d [[] _]|]. intros d Hd. by apply live_snoc.
Qed.

Lemma triple_phase k e events f e1 phase report (I : ExecutionDirectory -> Prop) :
  storable e1 -> pe_execution_id e1 = id -> writable_record (at_phase phase e1) ->
  writable_event events (at_phase phase e1) phase report ->
  (forall d, content e events f d -> I d) -> (forall d, content (at_phase phase e1) events f d -> I d) ->
  triple ok (framed (live (S k) e events f)) (update_phase pid e1 phase report) 5
    (λ e2 s, e2 = at_phase phase e1 /\
       exists ts, framed (live k (at_phase phase e1) (events ++ [event_after events (at_phase phase e1) phase report ts]) f) s)
    (framed I).
Proof.
  intros Hst Hid Hr He HI HI'. unfold update_phase.
  apply (triple_bind _ _ 3 (λ _, framed (live (S k) (at_phase phase e1) events f)) _ 2).
  { eapply triple_weaken; [by apply triple_record|done..|intros s; by apply framed_weaken]. }
  intros _. apply (triple_bind _ _ 2 (λ _ s, exists ts, framed (live k (at_phase phase e1)
    (events ++ [event_after events (at_phase phase e1) phase report ts]) f) s) _ 0).
  { eapply triple_weaken; [by apply triple_append|done..|intros s; by apply framed_weaken]. }
  intros _. by apply triple_ret.
Qed.
End operations.
End laws.
