(* ===== verification/ExecutionRecovery.v ===== *)
(** * Executions: completion, recovery, histories

    The theorems of [ExecutionLaws] about whole operations: what a completion, a
    reconciliation and a recovery keep of an execution and what they reach; then
    the histories of one Shot's repository, in which every operation may crash at
    any change. *)
From S2P Require Import Prelude CrashIo Text Digest Clock FileTree ExecutionModel Executions ExecutionLaws.

Section recovery.
Context `{Platform} `{ExecutionCodec} `{ExecutionClock} `{!ExecutionCodecLaws}.

(** ** Executions in order *)

Definition terminal_event (ev : ShotExecutionEvent) : bool := terminal_execution_phase (xe_phase ev).
Definition quiet (events : list ShotExecutionEvent) : Prop := Forall (λ ev, terminal_event ev = false) events.
Definition settled (phase : ExecutionPhase) (events : list ShotExecutionEvent) : Prop :=
  exists before ev, events = before ++ [ev] /\ quiet before /\ xe_phase ev = phase.
(** How a completion, the phase of the record and the journal go together. *)
Definition good (e : PreparedExecution) (events : list ShotExecutionEvent) (completion : option PrivateFile) : Prop :=
  match completion with
  | None => terminal_execution_phase (pe_phase e) = false /\ quiet events
  | Some SpecialFile => False
  | Some (PrivateBytes bytes) => exists c, completion_from_slice bytes = Ok c /\ completion_fits e c = true /\
      ((pe_phase e = ValidationCompleted \/ pe_phase e = completion_phase c) /\ quiet events
       \/ pe_phase e = completion_phase c /\ settled (completion_phase c) events)
  end.

(** One state of an execution after another. *)
Record later e0 events0 (f0 : option PrivateFile) e events (f : option PrivateFile) : Prop := {
  lt_progress : progress_of e0 e;
  lt_events : events0 `prefix_of` events;
  lt_completion : is_Some f0 -> f = f0;
  lt_terminal : terminal_execution_phase (pe_phase e0) = true -> pe_phase e = pe_phase e0;
  lt_numbered : numbered e events;
  lt_good : good e events f }.
Definition since e0 events0 f0 (d : ExecutionDirectory) : Prop :=
  exists e events f, content e events f d /\ later e0 events0 f0 e events f.

Lemma numbered_progress e e' events : progress_of e e' -> numbered e events -> numbered e' events.
Proof. by intros (m&p&h&->). Qed.
Lemma later_refl e events f : numbered e events -> good e events f -> later e events f e events f.
Proof. split; try done. apply progress_refl. Qed.
Lemma later_trans e0 v0 f0 e1 v1 f1 e2 v2 f2 : later e0 v0 f0 e1 v1 f1 -> later e1 v1 f1 e2 v2 f2 -> later e0 v0 f0 e2 v2 f2.
Proof.
  intros [p1 v f t n g] [p2 v' f' t' n' g']. split; try done.
  - by eapply progress_trans.
  - by etrans.
  - intros Hf. rewrite f' by (by rewrite f). by apply f.
  - intros Ht. rewrite t' by (by rewrite (t Ht)). by apply t.
Qed.
Lemma final_phase_terminal landed outcome : terminal_execution_phase (final_phase landed outcome) = true.
Proof. unfold final_phase. destruct landed; [done|]. by destruct (bool_decide _). Qed.
Lemma completion_terminal c : terminal_execution_phase (completion_phase c) = true.
Proof. apply final_phase_terminal. Qed.
Lemma quiet_snoc events ev : quiet events -> terminal_event ev = false -> quiet (events ++ [ev]).
Proof. intros Hq He. by apply Forall_app; split; [|constructor]. Qed.
Lemma event_after_matches e e1 events phase report ts : progress_of e e1 ->
  event_matches e (event_after events e1 phase report ts) = true.
Proof.
  intros (m&p&h&->). unfold event_matches, event_after, new_event. cbn. by rewrite !bool_decide_eq_true_2.
Qed.
Lemma numbered_after e e1 events phase report ts : numbered e events -> progress_of e e1 ->
  numbered e1 (events ++ [event_after events e1 phase report ts]).
Proof.
  intros Hn Hp. eapply numbered_progress; [done|]. apply numbered_snoc; [done|by apply event_after_matches|done].
Qed.
Lemma progress_same_id e e' : progress_of e e' -> pe_execution_id e' = pe_execution_id e.
Proof. by intros (m&p&h&->). Qed.

(** ** Operations on one execution *)

Section one_execution.
Context (ok : Prop) (pid : Z) (s0 : ShotRepository) (e0 : PreparedExecution) (events0 : list ShotExecutionEvent).
Hypothesis clock_answers : ok -> forall n, is_ok (now_text n) = true.
Hypothesis e0_storable : storable e0.
Abbreviation id := (pe_execution_id e0).
Abbreviation here := (framed id s0).

(** The record the process has in memory may be a progress of the one on disk. *)
Lemma at_phase_later f0 e events f e1 phase : later e0 events0 f0 e events f -> progress_of e0 e1 ->
  (terminal_execution_phase (pe_phase e0) = true -> phase = pe_phase e0) -> good (at_phase phase e1) events f ->
  later e0 events0 f0 (at_phase phase e1) events f.
Proof.
  intros [Hp Hv Hf Ht Hn Hg] Hp1 Hterm Hgood.
  assert (progress_of e0 (at_phase phase e1)) as Hp2 by (eapply progress_trans; [done|apply progress_at_phase]).
  split; try done. eapply numbered_progress; [exact Hp2|].
  destruct Hp as (m&p&h&->). exact Hn.
Qed.
Lemma since_content f0 e events f d : later e0 events0 f0 e events f -> content e events f d -> since e0 events0 f0 d.
Proof. intros Hl Hc. by exists e, events, f. Qed.

(** A phase before the completion. *)
Lemma open_phase k e events e1 phase report :
  later e0 events0 None e events None -> progress_of e0 e1 -> terminal_execution_phase phase = false ->
  writable_record ok (at_phase phase e1) -> writable_event ok events (at_phase phase e1) phase report ->
  triple ok (here (live ok pid (S k) e events None)) (update_phase pid e1 phase report) 5
    (λ e2 s, e2 = at_phase phase e1 /\ exists events', length events' = S (length events) /\
       later e0 events0 None e2 events' None /\ here (live ok pid k e2 events' None) s)
    (here (since e0 events0 None)).
Proof.
  intros Hl Hp Hphase Hr He. pose proof (lt_good _ _ _ _ _ _ Hl) as [Hopen Hq].
  assert (terminal_execution_phase (pe_phase e0) = true -> phase = pe_phase e0) as Hterm.
  { intros Ht. rewrite (lt_terminal _ _ _ _ _ _ Hl Ht), Ht in Hopen. done. }
  assert (later e0 events0 None (at_phase phase e1) events None) as Hl1 by by eapply at_phase_later.
  eapply (triple_weaken _ (here (live ok pid (S k) e events None)) _ _ 5 _ _ _ (here (since e0 events0 None)));
    [apply triple_phase; [done|by eapply storable_progress|by apply progress_same_id|done|done|intros d; by apply since_content..]
    |done..|intros e2 s [-> [ts Hs]]|done].
  split; [done|].
  eexists. split; [|split; [|exact Hs]]; [rewrite length_app; cbn; lia|]. split; try apply Hl1.
  - etrans; [apply Hl1|]. by apply prefix_app_r.
  - eapply numbered_after; [apply Hl1|by apply progress_refl].
  - split; [done|]. by apply quiet_snoc.
Qed.

(** The terminal phase, after the completion. *)
Lemma terminal_phase k e events e1 bytes c report f0 :
  later e0 events0 f0 e events (Some (PrivateBytes bytes)) -> progress_of e0 e1 -> completion_from_slice bytes = Ok c ->
  completion_fits e1 c = true -> quiet events ->
  (terminal_execution_phase (pe_phase e0) = true -> completion_phase c = pe_phase e0) ->
  writable_record ok (at_phase (completion_phase c) e1) ->
  writable_event ok events (at_phase (completion_phase c) e1) (completion_phase c) report ->
  triple ok (here (live ok pid (S k) e events (Some (PrivateBytes bytes)))) (update_phase pid e1 (completion_phase c) report) 5
    (λ e2 s, e2 = at_phase (completion_phase c) e1 /\ exists events', settled (completion_phase c) events' /\
       later e0 events0 f0 e2 events' (Some (PrivateBytes bytes)) /\
       here (live ok pid k e2 events' (Some (PrivateBytes bytes))) s)
    (here (since e0 events0 f0)).
Proof.
  intros Hl Hp Hc Hfit Hq Hterm Hr He.
  assert (later e0 events0 f0 (at_phase (completion_phase c) e1) events (Some (PrivateBytes bytes))) as Hl1.
  { eapply at_phase_later; [done..|]. exists c. split; [done|]. split; [done|]. left. by split; [right|]. }
  eapply (triple_weaken _ (here (live ok pid (S k) e events (Some (PrivateBytes bytes)))) _ _ 5 _ _ _ (here (since e0 events0 f0)));
    [apply triple_phase; [done|by eapply storable_progress|by apply progress_same_id|done|done|intros d; by apply since_content..]
    |done..|intros e2 s [-> [ts Hs]]|done].
  split; [done|].
  assert (settled (completion_phase c) (events ++ [event_after events (at_phase (completion_phase c) e1) (completion_phase c) report ts]))
    as Hset by (by eexists events, _).
  eexists. split; [exact Hset|]. split; [|exact Hs]. split; try apply Hl1.
  - etrans; [apply Hl1|]. by apply prefix_app_r.
  - eapply numbered_after; [apply Hl1|by apply progress_refl].
  - exists c. split; [done|]. split; [done|]. right. by split.
Qed.

(** *** A completion *)

Definition git_answers (g : Git) (e : PreparedExecution) (tree : string) (files : list ChangedFile) : Prop :=
  capture_tree (git_capture g) = Ok tree /\ git_changed_files g (gb_tree (pe_baseline e)) tree = Ok files.
Definition completion_events (e : PreparedExecution) (x : Ending) (files : list ChangedFile) : list (ExecutionPhase * string) :=
  [(WorkspaceChanged, pretty (length files) +:+ " workspace file(s) changed after the boundary.");
   (ValidationStarted, "Checking the accepted-version and repository evidence.");
   (ValidationCompleted, validation_report e x);
   (final_phase (landed_of x) (ending_outcome x), ending_report e x)].
(** Git answers a completion, and what it writes can be written and read: [n] is
    the length of the journal before. *)
Record completable (g : Git) (n : nat) (e : PreparedExecution) (x : Ending) : Prop := {
  cm_git : exists tree files, git_answers g e tree files;
  cm_summary : forall tree files, git_answers g e tree files ->
    is_ok (git_output g ["diff"; "--shortstat"; gb_tree (pe_baseline e); tree]) = true;
  cm_transition : forall tree files, git_answers g e tree files ->
    is_ok (transition_to_vec (finalize_state_transition s0 files)) = true;
  cm_record : forall phase, writable_record True (at_phase phase e);
  cm_event : forall tree files events phase report, git_answers g e tree files -> n <= length events <= n + 3 ->
    (phase, report) ∈ completion_events e x files -> writable_event True events (at_phase phase e) phase report;
  cm_completion : forall tree files summary log k ended_at, git_answers g e tree files ->
    git_output g ["diff"; "--shortstat"; gb_tree (pe_baseline e); tree] = Ok summary -> now_text k = Ok ended_at ->
    exists bytes, completion_to_vec (completion_of e x files (trim_text summary) tree ended_at
                    (read_harness_usage (pe_harness e) log)) = Ok bytes /\
      (file_size (bytes ++ [10%Z]) <= MAX_COMPLETION_RECORD_BYTES)%Z }.

Lemma writable_record_ok e : (ok -> writable_record True e) -> writable_record ok e.
Proof. intros Hw Hok. by apply Hw. Qed.
Lemma writable_event_ok events e phase report :
  (ok -> writable_event True events e phase report) -> writable_event ok events e phase report.
Proof. intros Hw Hok. by apply Hw. Qed.

(** A file that is not of the order of the execution. *)
Lemma triple_side put bytes k e events f :
  (forall b d, xd_record (put b d) = xd_record d /\ xd_events (put b d) = xd_events d /\
     xd_completion (put b d) = xd_completion d /\ xd_temporaries (put b d) = xd_temporaries d) ->
  triple ok (here (live ok pid k e events f)) (write_private pid id put bytes) 3 (λ _, here (live ok pid k e events f))
    (here (content e events f)).
Proof.
  intros Hput. eapply (triple_weaken _ (here (λ d, (content e events f d /\ roomy ok k d) /\ clean ok pid d)) _ _ 3 _
    (λ _, here (λ d, (content e events f d /\ roomy ok k d) /\ clean ok pid d)) _ (here (λ d, content e events f d /\ roomy ok k d)));
    [|done..|intros s; apply framed_weaken; by intros d []].
  apply triple_write; [intros d; apply Hput|by intros m d [[] ?]|].
  intros m d [[Hr Hj Hf] Hk]. destruct (Hput bytes (put_temporaries m d)) as (Er&Ee&Ec&_). split.
  - split; [by rewrite Er|by rewrite Ee|by rewrite Ec].
  - unfold roomy, record_size, events_size, journal_bytes in *. rewrite Er, Ee. exact Hk.
Qed.
Lemma triple_transition k e events f files : (ok -> is_ok (transition_to_vec (finalize_state_transition s0 files)) = true) ->
  triple ok (here (live ok pid k e events f)) (publish_transition pid id files) 3 (λ _, here (live ok pid k e events f))
    (here (content e events f)).
Proof.
  intros Ht. unfold publish_transition.
  apply (triple_bind _ _ 0 (λ r s, r = finalize_state_transition s0 files /\ here (live ok pid k e events f) s) _ 3).
  { apply triple_gets. intros s (d&n&->&Hd). split; [done|]. by exists d, n. }
  intros r. apply triple_pure. intros ->.
  apply (triple_bind _ _ 0 (λ _, here (live ok pid k e events f)) _ 3).
  { apply triple_lift. intros s Hs. destruct (transition_to_vec _); cbn; [done|]. split; [by eapply framed_live|].
    intros Hok. by specialize (Ht Hok). }
  intros b. by apply triple_side.
Qed.

Lemma later_completion e events bytes c : later e0 events0 None e events None -> completion_from_slice bytes = Ok c ->
  completion_fits e c = true -> pe_phase e = ValidationCompleted -> later e0 events0 None e events (Some (PrivateBytes bytes)).
Proof.
  intros [Hp Hv _ Ht Hn [_ Hq]] Hc Hfit Hphase. split; try done.
  exists c. split; [done|]. split; [done|]. left. by split; [left|].
Qed.
Lemma triple_publish k e events c : storable e -> later e0 events0 None e events None -> completion_fits e c = true ->
  pe_phase e = ValidationCompleted ->
  (forall z, cr_estimated_additional_cost_usd c = Some z \/ cr_actual_additional_cost_usd c = Some z -> exact_cost z) ->
  (ok -> exists bytes, completion_to_vec c = Ok bytes /\ (file_size (bytes ++ [10%Z]) <= MAX_COMPLETION_RECORD_BYTES)%Z) ->
  triple ok (here (live ok pid k e events None)) (publish_completion pid id c) 3
    (λ _ s, exists bytes, completion_from_slice bytes = Ok c /\ (ok -> file_size bytes <= MAX_COMPLETION_RECORD_BYTES)%Z /\
       later e0 events0 None e events (Some (PrivateBytes bytes)) /\ here (live ok pid k e events (Some (PrivateBytes bytes))) s)
    (here (since e0 events0 None)).
Proof.
  intros Hst Hl Hfit Hphase Hcost Hw. unfold publish_completion. destruct (completion_to_vec c) as [bytes|] eqn:E.
  - assert (completion_from_slice (bytes ++ [10%Z]) = Ok c) as Hc by (apply completion_round_trip; [done|eauto..]).
    apply (triple_bind _ _ 0 (λ b s, b = bytes /\ here (live ok pid k e events None) s) _ 3); [by apply triple_lift|].
    intros b. apply triple_pure. intros ->.
    eapply (triple_weaken _ (here (λ d, (content e events None d /\ roomy ok k d) /\ clean ok pid d)) _ _ 3 _
      (λ _, here (λ d, (content e events (Some (PrivateBytes (bytes ++ [10%Z]))) d /\ roomy ok k d) /\ clean ok pid d)) _
      (here (λ d, content e events None d /\ roomy ok k d)));
      [|done..|intros _ s Hs|intros s; apply framed_weaken; intros d [Hd _]; by eapply since_content].
    + apply triple_write; [done|by intros m d [[] ?]|]. intros m d [[Hr Hj Hf] Hk]. by split.
    + eexists. split; [exact Hc|]. split; [|split; [by eapply later_completion|exact Hs]].
      intros Hok. by destruct (Hw Hok) as (b&[= <-]&Hb).
  - apply (triple_bind _ _ 0 (λ _ _, False) _ 3); [|by intros a t s].
    apply triple_lift. intros s Hs. split; [eapply framed_weaken; [|exact Hs]; intros d [[Hd _] _]; by eapply since_content|].
    intros Hok. by destruct (Hw Hok) as (b&Hb&_).
Qed.

Lemma completion_of_fits e x files summary tree ended_at usage :
  completion_fits e (completion_of e x files summary tree ended_at usage) = true.
Proof. unfold completion_fits, completion_of. cbn. by rewrite !bool_decide_eq_true_2. Qed.
Lemma completion_of_cost e x files summary tree ended_at usage z : storable e ->
  cr_estimated_additional_cost_usd (completion_of e x files summary tree ended_at usage) = Some z \/
  cr_actual_additional_cost_usd (completion_of e x files summary tree ended_at usage) = Some z -> exact_cost z.
Proof. intros [_ Hc] [Hz|Hz]; cbn in Hz; [by apply Hc|]. destruct (_ == _); [by apply Hc|done]. Qed.

Lemma triple_phases k e1 events e x files n :
  later e0 events0 None e1 events None -> progress_of e0 e -> length events = n ->
  (ok -> forall phase, writable_record True (at_phase phase e)) ->
  (ok -> forall events phase report, n <= length events <= n + 3 ->
     (phase, report) ∈ completion_events e x files -> writable_event True events (at_phase phase e) phase report) ->
  triple ok (here (live ok pid (3 + k) e1 events None)) (validation_phases pid e x files) 15
    (λ e2 s, e2 = at_phase ValidationCompleted e /\ exists events', n <= length events' <= n + 3 /\
       later e0 events0 None e2 events' None /\ here (live ok pid k e2 events' None) s)
    (here (since e0 events0 None)).
Proof.
  intros Hl Hp Hn Hr He. unfold validation_phases.
  apply (triple_bind _ _ 5 (λ e2 s, (exists phase, e2 = at_phase phase e) /\ exists e3 events', n <= length events' <= n + 1 /\
       later e0 events0 None e3 events' None /\ here (live ok pid (2 + k) e3 events' None) s) _ 10).
  { destruct (_ && _).
    - eapply (triple_weaken _ (here (live ok pid (3 + k) e1 events None)) _ _ 5 _ _ _ (here (since e0 events0 None)));
        [eapply open_phase|done..|intros e2 s [-> (v&Hv&Hl2&Hs)]|done]; try done.
      + intros Hok. by apply Hr.
      + intros Hok. apply He; [done|lia|set_solver|done].
      + split; [by eexists|]. eexists _, v. split; [lia|done].
    - intros t s Hs. split; [|lia]. split; [exists (pe_phase e); by destruct e|]. exists e1, events.
      split; [lia|]. split; [done|]. eapply framed_weaken; [|exact Hs]. intros d. apply live_fewer. lia. }
  intros e2. apply triple_pure. intros [phase ->]. apply triple_exists. intros e3. apply triple_exists. intros v.
  apply triple_pure. intros Hv. apply triple_pure. intros Hl3.
  apply (triple_bind _ _ 5 (λ e2 s, e2 = at_phase ValidationStarted e /\ exists events', n <= length events' <= n + 2 /\
       later e0 events0 None e2 events' None /\ here (live ok pid (1 + k) e2 events' None) s) _ 5).
  { eapply (triple_weaken _ (here (live ok pid (2 + k) e3 v None)) _ _ 5 _ _ _ (here (since e0 events0 None)));
      [eapply (open_phase _ _ _ (at_phase phase e))|done..|intros e2 s [-> (v'&Hv'&Hl2&Hs)]|done]; try done.
    - eapply progress_trans; [done|apply progress_at_phase].
    - intros Hok. by apply (Hr Hok ValidationStarted).
    - intros Hok. apply He; [done|lia|set_solver|done].
    - split; [done|]. exists v'. split; [lia|done]. }
  intros e2. apply triple_pure. intros ->. apply triple_exists. intros v'. apply triple_pure. intros Hv'.
  apply triple_pure. intros Hl4.
  eapply (triple_weaken _ (here (live ok pid (1 + k) (at_phase ValidationStarted e) v' None)) _ _ 5 _ _ _ (here (since e0 events0 None)));
    [eapply (open_phase _ _ _ (at_phase ValidationStarted e))|done..|intros e2 s [-> (v2&Hv2&Hl2&Hs)]|done]; try done.
  - eapply progress_trans; [done|apply progress_at_phase].
  - intros Hok. by apply (Hr Hok ValidationCompleted).
  - intros Hok. apply He; [done|lia|set_solver|done].
  - split; [done|]. exists v2. split; [lia|done].
Qed.

(** What a completion reaches. *)
Definition completed k (e : PreparedExecution) f0 (c : CompletionRecord) (s : ShotRepository) : Prop :=
  exists bytes events, completion_from_slice bytes = Ok c /\ (ok -> file_size bytes <= MAX_COMPLETION_RECORD_BYTES)%Z /\
    pe_phase e = completion_phase c /\ settled (completion_phase c) events /\
    later e0 events0 f0 e events (Some (PrivateBytes bytes)) /\ here (live ok pid k e events (Some (PrivateBytes bytes))) s.

Lemma triple_lift_eq {A} (r : exec_result A) (D I : ShotRepository -> Prop) :
  (forall s, D s -> I s) -> (ok -> is_ok r = true) -> triple ok D (lift r) 0 (λ a s, r = Ok a /\ D s) I.
Proof.
  intros HI Hr. apply triple_lift. intros s Hs. destruct r; [by split|]. split; [by apply HI|]. intros Hok. by specialize (Hr Hok).
Qed.
Lemma git_known g e tree files tree' files' : git_answers g e tree files -> capture_tree (git_capture g) = Ok tree' ->
  git_changed_files g (gb_tree (pe_baseline e)) tree' = Ok files' -> git_answers g e tree' files'.
Proof. by split. Qed.

Lemma triple_complete k g x ed events e1 : later e0 events0 None ed events None -> progress_of e0 e1 ->
  (ok -> completable g (length events) (with_process None e1) x) ->
  triple ok (here (live ok pid (4 + k) ed events None)) (complete_execution g pid e1 x) 26
    (λ a s, completed k (fst a) None (snd a) s) (here (since e0 events0 None)).
Proof.
  intros Hl Hp1 Hcm. unfold complete_execution. set (e := with_process None e1) in *.
  assert (progress_of e0 e) as Hp by (eapply progress_trans; [done|apply progress_with_process]).
  change (pe_execution_id e) with (pe_execution_id e1). rewrite (progress_same_id _ _ Hp1).
  assert (forall v ev k' s, later e0 events0 None v ev None -> here (live ok pid k' v ev None) s -> here (since e0 events0 None) s)
    as Hsince by (intros v ev k' s Hv; apply framed_weaken; intros d [[Hd _] _]; by eapply since_content).
  apply (triple_bind _ _ 0 (λ tree s, capture_tree (git_capture g) = Ok tree /\ here (live ok pid (4 + k) ed events None) s) _ 26).
  { apply triple_lift_eq; [intros s; by apply Hsince|]. intros Hok. destruct (cm_git _ _ _ _ (Hcm Hok)) as (t&v&Ht&_). by rewrite Ht. }
  intros tree. apply triple_pure. intros Htree.
  apply (triple_bind _ _ 0 (λ files s, git_changed_files g (gb_tree (pe_baseline e)) tree = Ok files /\
    here (live ok pid (4 + k) ed events None) s) _ 26).
  { apply triple_lift_eq; [intros s; by apply Hsince|]. intros Hok. destruct (cm_git _ _ _ _ (Hcm Hok)) as (t&v&Ht&Hv).
    rewrite Htree in Ht. injection Ht as <-. by rewrite Hv. }
  intros files. apply triple_pure. intros Hfiles. assert (git_answers g e tree files) as Hgit by done.
  apply (triple_bind _ _ 3 (λ _, here (live ok pid (4 + k) ed events None)) _ 23).
  { eapply triple_weaken; [apply (triple_transition (4 + k) ed events None files)|done..|intros s; apply framed_weaken; intros d Hd; by eapply since_content].
    intros Hok. by eapply (cm_transition _ _ _ _ (Hcm Hok)). }
  intros _. apply (triple_bind _ _ 15 (λ e2 s, e2 = at_phase ValidationCompleted e /\ exists events',
    length events <= length events' <= length events + 3 /\ later e0 events0 None e2 events' None /\
    here (live ok pid (1 + k) e2 events' None) s) _ 8).
  { eapply triple_phases; [done..|intros Hok; apply (cm_record _ _ _ _ (Hcm Hok))|].
    intros Hok v phase report. by apply (cm_event _ _ _ _ (Hcm Hok) tree files). }
  intros e2. apply triple_pure. intros ->. apply triple_exists. intros v. apply triple_pure. intros Hv. apply triple_pure. intros Hl2.
  apply (triple_bind _ _ 0 (λ summary s, git_output g ["diff"; "--shortstat"; gb_tree (pe_baseline e); tree] = Ok summary /\
    here (live ok pid (1 + k) (at_phase ValidationCompleted e) v None) s) _ 8).
  { apply triple_lift_eq; [intros s; by apply Hsince|]. intros Hok. by eapply (cm_summary _ _ _ _ (Hcm Hok)). }
  intros summary. apply triple_pure. intros Hsummary.
  apply (triple_bind _ _ 0 (λ ts s, (exists n, now_text n = Ok ts) /\
    here (live ok pid (1 + k) (at_phase ValidationCompleted e) v None) s) _ 8).
  { apply triple_now; [done|]. intros d [[Hd _] _]. by eapply since_content. }
  intros ended_at. apply triple_pure. intros [m Hended].
  apply (triple_bind _ _ 0 (λ _, here (live ok pid (1 + k) (at_phase ValidationCompleted e) v None)) _ 8); [by apply triple_gets|].
  intros log. cbv zeta.
  set (c := completion_of (at_phase ValidationCompleted e) x files (trim_text summary) tree ended_at (read_harness_usage _ log)).
  assert (completion_fits (at_phase ValidationCompleted e) c = true) as Hfit by apply completion_of_fits.
  assert (storable (at_phase ValidationCompleted e)) as Hst.
  { eapply storable_progress; [|exact e0_storable]. eapply progress_trans; [exact Hp|apply progress_at_phase]. }
  eapply (triple_bind _ _ 3 _ _ 5).
  { apply (triple_publish (1 + k) (at_phase ValidationCompleted e) v c); [done..|intros z; by apply completion_of_cost|].
    intros Hok. by apply (cm_completion _ _ _ _ (Hcm Hok) tree files summary log m ended_at). }
  intros []. apply triple_exists. intros bytes. apply triple_pure. intros Hc. apply triple_pure. intros Hsize.
  apply triple_pure. intros Hl3.
  eapply (triple_bind _ _ 5 _ _ 0).
  { change (final_phase (cr_landed c) (cr_outcome c)) with (completion_phase c).
    apply (terminal_phase k (at_phase ValidationCompleted e) v (at_phase ValidationCompleted e) bytes c).
    - exact Hl3.
    - eapply progress_trans; [exact Hp|apply progress_at_phase].
    - done.
    - done.
    - apply (lt_good _ _ _ _ _ _ Hl2).
    - intros Ht. destruct (lt_good _ _ _ _ _ _ Hl2) as [Hg _]. by rewrite (lt_terminal _ _ _ _ _ _ Hl2 Ht), Ht in Hg.
    - intros Hok. by apply (cm_record _ _ _ _ (Hcm Hok) (completion_phase c)).
    - intros Hok. apply (cm_event _ _ _ _ (Hcm Hok) tree files v (completion_phase c)); [done|lia| |done].
      change (completion_phase c) with (final_phase (landed_of x) (ending_outcome x)).
      change (ending_report (at_phase ValidationCompleted e) x) with (ending_report e x). unfold completion_events. set_solver. }
  intros e3. apply triple_pure. intros ->. apply triple_exists. intros v2. apply triple_ret.
  intros s (Hset&Hl4&Hs). exists bytes, v2. done.
Qed.

(** *** Reading it back *)

Record placed (repository : string) (e : PreparedExecution) : Prop := {
  pl_valid : validate_execution_id (pe_execution_id e) = Ok tt;
  pl_schema : pe_schema e = EXECUTION_RECORD_SCHEMA;
  pl_repository : same_path (pe_repository e) repository = true }.
Definition real (s : ShotRepository) : Prop :=
  sr_kind s = RealDir /\ sr_private s = RealDir /\ sr_executions_dir s = RealDir.
Lemma placed_progress repository e e' : progress_of e e' -> placed repository e -> placed repository e'.
Proof. by intros (m&p&h&->) []. Qed.

Section readers.
Context (repository : string).
Hypothesis s0_real : real s0.
Hypothesis e0_placed : placed repository e0.

Lemma checked_with d n : checked_execution_directory (with_directory id s0 d n) id = Ok d.
Proof.
  destruct s0_real as (Hk&Hp&Hx). unfold checked_execution_directory, with_directory, set_executions. cbn.
  rewrite Hk, Hp, Hx. cbn. by rewrite lookup_insert_eq.
Qed.
Lemma load_with e events f d n : progress_of e0 e -> content e events f d ->
  load_execution (with_directory id s0 d n) repository id
    = if (MAX_EXECUTION_RECORD_BYTES <? record_size d)%Z
      then Err (ExecIo (ExecInvalidData "private execution record is unsafe or exceeds its byte limit")) else Ok e.
Proof.
  intros Hp [(bytes&Hr&He) _ _]. destruct e0_placed as [Hv Hs Hrep]. unfold load_execution. rewrite Hv. cbn [mbind Result_bind].
  rewrite checked_with. cbn [mbind Result_bind]. unfold record_size. rewrite Hr. cbn [read_bounded_regular_file].
  destruct (_ <? _)%Z; [done|]. cbn [fail_if mbind Result_bind map_err]. rewrite He. cbn [mbind Result_bind map_err].
  destruct Hp as (m&p&h&->). cbn [set_progress pe_schema pe_execution_id pe_repository]. rewrite Hs, Hrep.
  by rewrite !bool_decide_eq_true_2.
Qed.
Lemma read_events_with e events f d n : progress_of e0 e -> content e events f d -> numbered e events ->
  match read_events (with_directory id s0 d n) repository id with
  | Ok found => found = events
  | Err (ExecIo ExecNotFound) => events = [] /\ xd_events d = None
  | Err _ => (MAX_EXECUTION_RECORD_BYTES < record_size d)%Z \/ (MAX_EXECUTION_EVENTS_BYTES < events_size d)%Z
  end.
Proof.
  intros Hp Hc Hn. unfold read_events. rewrite (load_with _ _ _ _ _ Hp Hc).
  destruct (_ <? _)%Z eqn:Hsize; [left; by apply Z.ltb_lt|]. cbn [mbind Result_bind]. rewrite file_of_with.
  pose proof (ct_journal _ _ _ _ Hc) as Hj. unfold events_size, journal_bytes.
  destruct (xd_events d) as [[bytes|]|] eqn:E; [|done|by split].
  destruct (Z.ltb_spec MAX_EXECUTION_EVENTS_BYTES (file_size bytes)) as [Hlt|Hle].
  - unfold read_journal, read_bounded_regular_file. rewrite (proj2 (Z.ltb_lt _ _) Hlt). cbn. by right.
  - by rewrite (read_journal_total e events).
Qed.

End readers.
Lemma placed_self repository e : placed repository e -> placed (pe_repository e) e.
Proof. intros []. split; [done|done|]. by apply bool_decide_eq_true. Qed.

Section reading.
Context (repository : string).
Hypothesis s0_real : real s0.
Hypothesis e0_placed : placed repository e0.

Lemma filter_quiet events : quiet events -> filter (λ ev, terminal_execution_phase (xe_phase ev) = true) events = [].
Proof. induction 1 as [|ev events Hev _ IH]; [done|]. rewrite filter_cons_False; [done|]. unfold terminal_event in Hev. by rewrite Hev. Qed.
Lemma filter_settled phase events : terminal_execution_phase phase = true -> settled phase events -> exists ev,
  filter (λ ev, terminal_execution_phase (xe_phase ev) = true) events = [ev] /\ last events = Some ev /\ xe_phase ev = phase.
Proof.
  intros Hp (before&ev&->&Hq&<-). exists ev. rewrite filter_app, (filter_quiet _ Hq), last_snoc.
  by rewrite filter_cons_True.
Qed.
(** What the journal says of the terminal event. *)
Lemma present_with e events f d n phase : progress_of e0 e -> content e events f d -> numbered e events ->
  terminal_execution_phase phase = true ->
  match terminal_event_present e phase (with_directory id s0 d n) with
  | Ok b => (quiet events -> b = false) /\ (settled phase events -> b = true)
  | Err _ => quiet events \/ settled phase events ->
      (MAX_EXECUTION_RECORD_BYTES < record_size d)%Z \/ (MAX_EXECUTION_EVENTS_BYTES < events_size d)%Z
  end.
Proof.
  intros Hp Hc Hn Hphase. unfold terminal_event_present. rewrite (progress_same_id _ _ Hp).
  assert (pe_repository e = pe_repository e0) as -> by (by destruct Hp as (m&p&h&->)).
  pose proof (read_events_with (pe_repository e0) s0_real (placed_self _ _ e0_placed) e events f d n Hp Hc Hn) as Hr.
  assert (match read_events (with_directory id s0 d n) (pe_repository e0) id with
          | Ok events => Ok events | Err (ExecIo ExecNotFound) => Ok [] | Err error => Err (ManagerExecution error) end = Ok events
    \/ exists error, match read_events (with_directory id s0 d n) (pe_repository e0) id with
          | Ok events => Ok events | Err (ExecIo ExecNotFound) => Ok [] | Err error => Err (ManagerExecution error) end = Err error
        /\ ((MAX_EXECUTION_RECORD_BYTES < record_size d)%Z \/ (MAX_EXECUTION_EVENTS_BYTES < events_size d)%Z)) as [->|(error&->&Hbig)].
  { destruct (read_events _ _ _) as [found|[[]| | |]]; [left; by rewrite Hr|left; by destruct Hr as [-> _]|right; eauto..]. }
  2: by intros _.
  cbn [mbind Result_bind]. cbv zeta.
  destruct (filter _ events) as [|ev [|ev' rest]] eqn:Ef.
  - split; [done|]. intros Hs. by destruct (filter_settled _ _ Hphase Hs) as (ev&Hev&_); rewrite Ef in Hev.
  - destruct (_ || _) eqn:Eb; cbn.
    + intros [Hq|Hs]; [by rewrite (filter_quiet _ Hq) in Ef|]. destruct (filter_settled _ _ Hphase Hs) as (ev'&Hev&Hlast&Hp').
      rewrite Ef in Hev. injection Hev as ->. by rewrite Hlast, Hp', !bool_decide_eq_true_2 in Eb.
    + split; [|done]. intros Hq. by rewrite (filter_quiet _ Hq) in Ef.
  - intros [Hq|Hs]; [by rewrite (filter_quiet _ Hq) in Ef|]. by destruct (filter_settled _ _ Hphase Hs) as (?&Hev&_); rewrite Ef in Hev.
Qed.

(** *** Reconciliation and recovery *)

Lemma live_sizes k e events f d : live ok pid k e events f d -> ok ->
  (record_size d <= MAX_EXECUTION_RECORD_BYTES)%Z /\ (events_size d <= MAX_EXECUTION_EVENTS_BYTES)%Z.
Proof. intros [[_ Hr] _] Hok. destruct (Hr Hok). unfold EVENT_ROOM in *. split; [done|lia]. Qed.
Lemma triple_present k e events f phase (I : ExecutionDirectory -> Prop) : progress_of e0 e -> numbered e events ->
  terminal_execution_phase phase = true -> quiet events \/ settled phase events -> (forall d, content e events f d -> I d) ->
  triple ok (here (live ok pid k e events f)) (gets (terminal_event_present e phase)) 0
    (λ b s, (quiet events -> b = false) /\ (settled phase events -> b = true) /\ here (live ok pid k e events f) s) (here I).
Proof.
  intros Hp Hn Hphase Hq HI. apply triple_gets. intros s (d&n&->&Hd).
  pose proof (present_with e events f d n phase Hp (proj1 (proj1 Hd)) Hn Hphase) as Hres.
  destruct (terminal_event_present _ _ _) as [b|error].
  - destruct Hres. split; [done|]. split; [done|]. by exists d, n.
  - split; [exists d, n; split; [done|]; apply HI, Hd|]. intros Hok. destruct (live_sizes _ _ _ _ _ Hd Hok).
    destruct (Hres Hq); lia.
Qed.

Lemma triple_reconcile k f0 e events bytes c valid : later e0 events0 f0 e events (Some (PrivateBytes bytes)) ->
  completion_from_slice bytes = Ok c -> (ok -> file_size bytes <= MAX_COMPLETION_RECORD_BYTES)%Z ->
  (ok -> cr_landed c = true -> valid = true) ->
  (ok -> writable_record True (at_phase (completion_phase c) e)) ->
  (ok -> writable_event True events (at_phase (completion_phase c) e) (completion_phase c) (recovered_report c)) ->
  triple ok (here (live ok pid (S k) e events (Some (PrivateBytes bytes)))) (reconcile_published_completion pid e c valid) 5
    (λ _ s, exists e', completed k e' f0 c s) (here (since e0 events0 f0)).
Proof.
  intros Hl Hc Hsize Hvalid Hr He. unfold reconcile_published_completion. cbv zeta.
  pose proof (lt_good _ _ _ _ _ _ Hl) as (c'&Hc'&Hfit&Hgood). rewrite Hc in Hc'. injection Hc' as <-.
  rewrite Hfit. cbn [negb fail_if].
  assert (forall s, here (live ok pid (S k) e events (Some (PrivateBytes bytes))) s -> here (since e0 events0 f0) s) as Hsince
    by (intros s; apply framed_weaken; intros d [[Hd _] _]; by eapply since_content).
  pose proof (completion_terminal c) as Hct.
  apply (triple_bind _ _ 0 (λ _, here (live ok pid (S k) e events (Some (PrivateBytes bytes)))) _ 5); [by apply triple_lift|].
  intros []. apply (triple_bind _ _ 0 (λ _, here (live ok pid (S k) e events (Some (PrivateBytes bytes)))) _ 5).
  { apply triple_lift. intros s Hs. destruct (cr_landed c && negb valid) eqn:E; [|done]. cbn. split; [by apply Hsince|].
    intros Hok. apply andb_true_iff in E as [E1 E2]. by rewrite (Hvalid Hok E1) in E2. }
  assert (terminal_execution_phase (pe_phase e) = true -> pe_phase e = completion_phase c) as Hterm
    by (intros Ht; destruct Hgood as [[[Hv|Hv] _]|[Hv _]]; [by rewrite Hv in Ht|done..]).
  intros []. apply (triple_bind _ _ 0 (λ _, here (live ok pid (S k) e events (Some (PrivateBytes bytes)))) _ 5).
  { apply triple_lift. intros s Hs. destruct (terminal_execution_phase (pe_phase e)); [|done]. by rewrite (Hterm eq_refl), bool_decide_eq_true_2. }
  assert (quiet events \/ settled (completion_phase c) events) as Hqs by (destruct Hgood as [[_ Hq]|[_ Hq]]; [by left|by right]).
  intros []. eapply (triple_bind _ _ 0 _ _ 5).
  { eapply triple_present; [apply Hl|apply Hl|done|done|intros d; by apply since_content]. }
  intros present. apply triple_pure. intros Hpq. apply triple_pure. intros Hps.
  apply (triple_bind _ _ 0 (λ _, here (live ok pid (S k) e events (Some (PrivateBytes bytes)))) _ 5).
  { apply triple_lift. intros s Hs. destruct Hgood as [[_ Hq]|[Hv Hq]]; [by rewrite (Hpq Hq), andb_false_r|]. by rewrite Hv, Hct. }
  intros []. destruct Hgood as [[Hv Hq]|[Hv Hset]].
  - rewrite (Hpq Hq). apply (triple_bind _ _ 5 (λ _, completed k (at_phase (completion_phase c) e) f0 c) _ 0).
    + unfold engine. apply triple_map_err.
      eapply (triple_weaken _ (here (live ok pid (S k) e events (Some (PrivateBytes bytes)))) _ _ 5 _ _ _ (here (since e0 events0 f0)));
        [apply (terminal_phase k e events e bytes c _ f0 Hl)|done..|intros e2 s (->&v&Hset&Hl2&Hs); by exists bytes, v|done].
      * apply Hl.
      * done.
      * done.
      * done.
      * intros Ht. rewrite <- Hterm; [by apply Hl|]. by rewrite (lt_terminal _ _ _ _ _ _ Hl Ht).
      * intros Hok. by apply Hr.
      * intros Hok. by apply He.
    + intros e2. apply triple_exists. intros b. apply triple_exists. intros v. do 4 (apply triple_pure; intro).
      apply triple_pure. intros Hl2. change (terminal_event_present e) with (terminal_event_present (at_phase (completion_phase c) e)).
      eapply (triple_bind _ _ 0 _ _ 0).
      { eapply triple_present; [apply Hl2|apply Hl2|done|by right|intros d; by apply since_content]. }
      intros found. apply triple_pure. intros _. apply triple_pure. intros Hfound. apply triple_lift. intros s Hs.
      rewrite Hfound by done. cbn. by exists (at_phase (completion_phase c) e), b, v.
  - rewrite (Hps Hset). intros t s Hs. split; [|lia]. exists e, bytes, events. do 5 (split; [done|]).
    eapply framed_weaken; [|exact Hs]. intros d. apply live_fewer. lia.
Qed.

Lemma load_completion_with e events f d n : progress_of e0 e -> content e events f d -> good e events f ->
  match load_completion (with_directory id s0 d n) repository id with
  | Ok None => f = None
  | Ok (Some c) => exists bytes, f = Some (PrivateBytes bytes) /\ completion_from_slice bytes = Ok c
  | Err _ => (MAX_EXECUTION_RECORD_BYTES < record_size d)%Z \/
      exists bytes, f = Some (PrivateBytes bytes) /\ (MAX_COMPLETION_RECORD_BYTES < file_size bytes)%Z
  end.
Proof.
  intros Hp Hc Hg. unfold load_completion. rewrite (pl_valid _ _ e0_placed). cbn [mbind Result_bind].
  rewrite (load_with repository s0_real e0_placed _ _ _ _ _ Hp Hc). destruct (_ <? _)%Z eqn:Hsize; [left; by apply Z.ltb_lt|]. cbn [mbind Result_bind].
  rewrite file_of_with, (ct_completion _ _ _ _ Hc). destruct f as [[bytes|]|]; [|done|done].
  unfold read_optional. cbn [read_bounded_regular_file].
  destruct (Z.ltb_spec MAX_COMPLETION_RECORD_BYTES (file_size bytes)) as [Hlt|Hle]; [right; by exists bytes|].
  cbn [fail_if mbind Result_bind]. destruct Hg as (c&Hbytes&Hfit&_). rewrite Hbytes. cbn [map_err mbind Result_bind].
  unfold completion_fits in Hfit. rewrite !andb_true_iff in Hfit. destruct Hfit as [[[[[[[[[H4 H5] H6] H7] _] _] _] _] _] _].
  apply bool_decide_eq_true in H4, H5, H6, H7. rewrite H4, H5, H6, H7, !bool_decide_eq_true_2 by done. cbn. by exists bytes.
Qed.

Lemma triple_put_pid k e events f (I : ExecutionDirectory -> Prop) : (forall d, content e events f d -> I d) ->
  triple ok (here (live ok pid k e events f)) (remove_runner_pid id) 1 (λ _, here (live ok pid k e events f)) (here I).
Proof.
  intros HI. unfold remove_runner_pid.
  apply (triple_bind _ _ 0 (λ _, here (live ok pid k e events f)) _ 1); [by apply triple_gets|].
  intros file. apply triple_when; [|done]. intros _. intros t s Hs.
  pose proof (triple_on ok id s0 (put_pid None) (live ok pid k e events f) (live ok pid k e events f) I) as Ht.
  assert (forall d, live ok pid k e events f d -> I d) as Hi by (intros d [[Hd _] _]; by apply HI).
  specialize (Ht Hi). assert (forall d, live ok pid k e events f d -> live ok pid k e events f (put_pid None d)) as Hf by (by intros d [[[] ?] ?]).
  specialize (Ht Hf t s Hs). unfold change in *. destruct t; exact Ht.
Qed.

(** What a recovery needs of the ledger, of Git and of the sizes. *)
Record recovery_supported (g : Git) (accepted : manager_result Accepted) (diagnostic : string) (f0 : option PrivateFile) : Prop := {
  rv_published : forall bytes c, f0 = Some (PrivateBytes bytes) -> completion_from_slice bytes = Ok c ->
    (file_size bytes <= MAX_COMPLETION_RECORD_BYTES)%Z /\
    (cr_landed c = true -> exists evidence, accepted = Ok (true, true, evidence)) /\
    writable_record True (at_phase (completion_phase c) e0) /\
    writable_event True events0 (at_phase (completion_phase c) e0) (completion_phase c) (recovered_report c);
  rv_new : f0 = None -> events0 <> [] /\
    completable g (length events0) (with_process None e0) (stalled_ending e0 events0 accepted diagnostic) }.

Lemma triple_finalize k g accepted diagnostic f0 : numbered e0 events0 -> good e0 events0 f0 ->
  (ok -> recovery_supported g accepted diagnostic f0) ->
  triple ok (here (live ok pid (4 + k) e0 events0 f0)) (finalize_stalled_execution g accepted pid repository id diagnostic) 27
    (λ a s, exists c e' k', a = Some c /\ completed k' e' f0 c s) (here (since e0 events0 f0)).
Proof.
  intros Hn Hg Hrec. pose proof (later_refl _ _ _ Hn Hg) as Hl. unfold finalize_stalled_execution.
  assert (forall d, content e0 events0 f0 d -> since e0 events0 f0 d) as Hsince by (intros d; by apply since_content).
  apply (triple_bind _ _ 0 (λ e s, e = e0 /\ here (live ok pid (4 + k) e0 events0 f0) s) _ 27).
  { apply triple_map_err, triple_gets. intros s (d&n&->&Hd). rewrite (load_with repository s0_real e0_placed e0 events0 f0 d n (progress_refl _)) by apply Hd.
    destruct (_ <? _)%Z eqn:E; [|split; [done|by exists d, n]]. split; [exists d, n; split; [done|]; apply Hsince, Hd|].
    intros Hok. apply Z.ltb_lt in E. destruct (live_sizes _ _ _ _ _ Hd Hok). lia. }
  intros e. apply triple_pure. intros ->.
  apply (triple_bind _ _ 0 (λ r s, match r with
      | None => f0 = None
      | Some c => exists bytes, f0 = Some (PrivateBytes bytes) /\ completion_from_slice bytes = Ok c end
      /\ here (live ok pid (4 + k) e0 events0 f0) s) _ 27).
  { apply triple_map_err, triple_gets. intros s (d&n&->&Hd).
    pose proof (load_completion_with e0 events0 f0 d n (progress_refl _) (proj1 (proj1 Hd)) Hg) as Hload.
    destruct (load_completion _ _ _) as [r|error]; [by split; [|exists d, n]|].
    split; [exists d, n; split; [done|]; apply Hsince, Hd|]. intros Hok. destruct (live_sizes _ _ _ _ _ Hd Hok).
    destruct Hload as [Hload|(bytes&->&Hload)]; [lia|]. destruct Hg as (c&Hc&_).
    destruct (rv_published _ _ _ _ (Hrec Hok) bytes c eq_refl Hc). lia. }
  intros [c|]; apply triple_pure.
  - intros (bytes&->&Hc).
    apply (triple_bind _ _ 0 (λ valid s, (ok -> cr_landed c = true -> valid = true) /\
      here (live ok pid (4 + k) e0 events0 (Some (PrivateBytes bytes))) s) _ 27).
    { destruct (cr_landed c) eqn:Elanded; [|by apply triple_ret]. destruct accepted as [answer|error].
      - apply (triple_bind _ _ 0 (λ a s, a = answer /\ here (live ok pid (4 + k) e0 events0 (Some (PrivateBytes bytes))) s) _ 0);
          [by apply triple_lift|]. intros a. apply triple_pure. intros ->. apply triple_ret. intros s Hs. split; [|done].
        intros Hok _. destruct (rv_published _ _ _ _ (Hrec Hok) bytes c eq_refl Hc) as (_&Hev&_). by destruct (Hev Elanded) as [? [= ->]].
      - apply (triple_bind _ _ 0 (λ _ _, False) _ 0); [|by intros a t s]. apply triple_lift. intros s Hs.
        split; [eapply framed_weaken; [|exact Hs]; intros d Hd; apply Hsince, Hd|].
        intros Hok. destruct (rv_published _ _ _ _ (Hrec Hok) bytes c eq_refl Hc) as (_&Hev&_). by destruct (Hev Elanded). }
    intros valid. apply triple_pure. intros Hvalid.
    apply (triple_bind _ _ 5 (λ _ s, exists e', completed (3 + k) e' (Some (PrivateBytes bytes)) c s) _ 22).
    { apply triple_reconcile; [done|done|intros Hok; by destruct (rv_published _ _ _ _ (Hrec Hok) bytes c eq_refl Hc)|done|..];
        intros Hok; by destruct (rv_published _ _ _ _ (Hrec Hok) bytes c eq_refl Hc) as (_&_&?&?). }
    intros []. apply triple_exists. intros e'. apply triple_exists. intros b. apply triple_exists. intros v.
    do 4 (apply triple_pure; intro). apply triple_pure. intros Hl2.
    apply (triple_bind _ _ 1 (λ _, here (live ok pid (3 + k) e' v (Some (PrivateBytes b)))) _ 21).
    { apply triple_put_pid. intros d. by apply since_content. }
    intros []. intros t s Hs. split; [|lia]. exists c, e', (3 + k). split; [done|]. by exists b, v.
  - intros ->. destruct Hg as [Hopen Hq]. rewrite Hopen.
    apply (triple_bind _ _ 0 (λ v s, v = events0 /\ here (live ok pid (4 + k) e0 events0 None) s) _ 27).
    { apply triple_map_err, triple_gets. intros s (d&n&->&Hd).
      pose proof (read_events_with repository s0_real e0_placed e0 events0 None d n (progress_refl _) (proj1 (proj1 Hd)) Hn) as Hread.
      destruct (read_events _ _ _) as [found|error]; [by split; [|exists d, n]|].
      split; [exists d, n; split; [done|]; apply Hsince, Hd|]. intros Hok. destruct (live_sizes _ _ _ _ _ Hd Hok).
      destruct (rv_new _ _ _ _ (Hrec Hok) eq_refl) as [Hne _]. destruct error as [[]| | |]; try lia. by destruct Hread. }
    intros v. apply triple_pure. intros ->.
    apply (triple_bind _ _ 26 (λ a s, completed k (fst a) None (snd a) s) _ 1).
    { apply triple_map_err, triple_complete; [done|by apply progress_refl|]. intros Hok. by apply (rv_new _ _ _ _ (Hrec Hok)). }
    intros [e' c]. apply triple_exists. intros b. apply triple_exists. intros v.
    do 4 (apply triple_pure; intro). apply triple_pure. intros Hl2.
    apply (triple_bind _ _ 1 (λ _, here (live ok pid k e' v (Some (PrivateBytes b)))) _ 0).
    { apply triple_put_pid. intros d. by apply since_content. }
    intros []. apply triple_ret. intros s Hs. exists c, e', k. split; [done|]. by exists b, v.
Qed.
End reading.
End one_execution.
End recovery.
