(* ===== verification/ExecutionHistory.v ===== *)
(** * Executions: histories of a Shot's repository

    The repository and the runner that may hold an execution in memory, as a
    step relation: every operation of the engine and of the manager, crashed at
    any change or not; one operation at a time. [exec_step] starts a runner where
    [run_shot] does; [fresh_step] leaves out the restart of an execution that has
    its completion, up to which the theorems hold. *)
From S2P Require Import Prelude CrashIo Text Digest Clock FileTree ExecutionModel Executions ExecutionLaws ExecutionRecovery.

Section history.
Context `{Platform} `{ExecutionCodec} `{ExecutionClock} `{!ExecutionCodecLaws}.
Context (repository : string).

(** ** The executions of a repository *)

Definition unprepared (d : ExecutionDirectory) : Prop :=
  xd_record d = None /\ xd_events d = None /\ xd_completion d = None.
Record kept (id : string) e events f (d : ExecutionDirectory) : Prop := {
  kp_placed : placed repository e;
  kp_id : pe_execution_id e = id;
  kp_storable : storable e;
  kp_content : content e events f d;
  kp_numbered : numbered e events;
  kp_good : good e events f }.
(** An execution that is not over, or a directory whose preparation stopped. *)
Definition open_directory (d : ExecutionDirectory) : bool :=
  match xd_record d with
  | Some (PrivateBytes bytes) =>
      match execution_from_slice bytes with Ok e => negb (terminal_execution_phase (pe_phase e)) | Err _ => true end
  | _ => true
  end.
Definition open_execution (s : ShotRepository) (id : string) : Prop :=
  exists d, directory_of s id = Some d /\ open_directory d = true.

Record sound (s : ShotRepository) : Prop := {
  sd_entry : forall id entry, sr_executions s !! id = Some entry -> exists d, entry = ExecutionDir d /\
    (unprepared d \/ exists e events f, kept id e events f d);
  sd_root : sr_executions_dir s = NoDir -> sr_executions s = ∅;
  sd_single : forall a b, open_execution s a -> open_execution s b -> a = b }.
Definition evolves (s s' : ShotRepository) : Prop := forall id d e events f,
  directory_of s id = Some d -> kept id e events f d -> exists d', directory_of s' id = Some d' /\ since e events f d'.

Lemma kept_since id e events f d d' : kept id e events f d -> since e events f d' -> exists e' events' f', kept id e' events' f' d' /\ later e events f e' events' f'.
Proof.
  intros Hk (e'&v'&f'&Hc&Hl). exists e', v', f'. split; [|done]. pose proof (lt_progress _ _ _ _ _ _ Hl) as Hp.
  split; try apply Hl; try done.
  - eapply placed_progress; [exact Hp|apply Hk].
  - rewrite (progress_same_id _ _ Hp). apply Hk.
  - eapply storable_progress; [exact Hp|apply Hk].
Qed.
Lemma since_refl id e events f d : kept id e events f d -> since e events f d.
Proof. intros Hk. exists e, events, f. split; [apply Hk|]. apply later_refl; apply Hk. Qed.
Lemma evolves_refl s : evolves s s.
Proof. intros id d e v f Hd Hk. exists d. split; [done|]. by eapply since_refl. Qed.
Lemma evolves_trans a b c : evolves a b -> evolves b c -> evolves a c.
Proof.
  intros Hab Hbc id d e v f Hd Hk. destruct (Hab id d e v f Hd Hk) as (d'&Hd'&Hs).
  destruct (kept_since _ _ _ _ _ _ Hk Hs) as (e'&v'&f'&Hk'&Hl).
  destruct (Hbc id d' e' v' f' Hd' Hk') as (d''&Hd''&(e2&v2&f2&Hc&Hl2)). exists d''. split; [done|].
  exists e2, v2, f2. split; [done|]. by eapply later_trans.
Qed.
Lemma open_kept id e events f d : kept id e events f d -> open_directory d = negb (terminal_execution_phase (pe_phase e)).
Proof. intros [_ _ _ [(bytes&Hr&He) _ _] _ _]. unfold open_directory. by rewrite Hr, He. Qed.

(** ** An operation that changes one execution *)

Lemma directory_framed id s d n other : other <> id -> directory_of (with_directory id s d n) other = directory_of s other.
Proof. intros Hne. unfold directory_of. cbn. by rewrite lookup_insert_ne. Qed.
Lemma directory_entry s id d : directory_of s id = Some d -> sr_executions s !! id = Some (ExecutionDir d).
Proof. unfold directory_of. destruct (_ !! id) as [[]|]; try done. by intros [= ->]. Qed.
Lemma framed_here s id d (D : ExecutionDirectory -> Prop) : directory_of s id = Some d -> D d -> framed id s D s.
Proof.
  intros Hd HD. exists d, (sr_calls s). split; [|done]. unfold with_directory, set_executions.
  rewrite insert_id by by apply directory_entry. by destruct s.
Qed.
Lemma one_changed s s' id d e events f : sound s -> directory_of s id = Some d -> kept id e events f d ->
  framed id s (since e events f) s' -> sound s' /\ evolves s s'.
Proof.
  intros [He Hroot Hsingle] Hd Hk (d'&n&->&Hs). destruct (kept_since _ _ _ _ _ _ Hk Hs) as (e'&v'&f'&Hk'&Hl).
  assert (forall a, open_execution (with_directory id s d' n) a -> open_execution s a) as Hopen.
  { intros a (da&Ha&Ho). destruct (decide (a = id)) as [->|Hne]; [|exists da; by rewrite directory_framed in Ha].
    rewrite directory_of_with in Ha. injection Ha as <-. exists d. split; [done|].
    rewrite (open_kept _ _ _ _ _ Hk') in Ho. rewrite (open_kept _ _ _ _ _ Hk).
    destruct (terminal_execution_phase (pe_phase e)) eqn:E; [|done].
    by rewrite (lt_terminal _ _ _ _ _ _ Hl E), E in Ho. }
  split; [split|].
  - intros a entry. cbn. destruct (decide (a = id)) as [->|Hne].
    + rewrite lookup_insert_eq. intros [= <-]. exists d'. split; [done|]. right. by exists e', v', f'.
    + rewrite lookup_insert_ne by done. apply He.
  - cbn. intros Hnone. specialize (Hroot Hnone). apply directory_entry in Hd. by rewrite Hroot, lookup_empty in Hd.
  - intros a b Ha Hb. apply Hsingle; by apply Hopen.
  - intros a da ea va fa Ha Hka. destruct (decide (a = id)) as [->|Hne].
    + rewrite Ha in Hd. injection Hd as ->. exists d'. split; [by rewrite directory_of_with|].
      destruct (content_unique d e events f ea va fa) as (<-&<-&<-); [apply Hk|apply Hka|done].
    + exists da. split; [by rewrite directory_framed|]. by eapply since_refl.
Qed.

(** ** The operations, when they may fail *)

Section free.
Context (s0 : ShotRepository) (e0 : PreparedExecution) (events0 : list ShotExecutionEvent).
Hypothesis e0_storable : storable e0.
Hypothesis e0_placed : placed repository e0.
Abbreviation id := (pe_execution_id e0).
Abbreviation here := (framed id s0).

Lemma no_clock : False -> forall n, is_ok (now_text n) = true.
Proof. done. Qed.
Lemma content_live pid k e v f d : content e v f d -> live False pid k e v f d.
Proof. intros Hc. split; [split; [done|]|]; by intros []. Qed.
Lemma here_live pid k e v f s : here (content e v f) s -> here (live False pid k e v f) s.
Proof. apply framed_weaken. intros d. apply content_live. Qed.
Lemma here_since f0 e v f s : later e0 events0 f0 e v f -> here (content e v f) s -> here (since e0 events0 f0) s.
Proof. intros Hl. apply framed_weaken. intros d. by apply since_content. Qed.

Lemma free_map_err {A F} (g : ShotExecutionError -> F) (P : ShotRepository -> Prop) (m : Crashing ShotRepository ShotExecutionError A) Q I : spec P m Q I -> spec P (io_map_err g m) Q I.
Proof. apply triple_map_err. Qed.
Definition side_change (g : ExecutionDirectory -> ExecutionDirectory) : Prop := forall d,
  xd_record (g d) = xd_record d /\ xd_events (g d) = xd_events d /\ xd_completion (g d) = xd_completion d.
Lemma content_side g e v f d : side_change g -> content e v f d -> content e v f (g d).
Proof. intros Hg [Hr Hj Hf]. destruct (Hg d) as (Er&Ee&Ec). split; [by rewrite Er|by rewrite Ee|by rewrite Ec]. Qed.
Lemma since_side f0 g d : side_change g -> since e0 events0 f0 d -> since e0 events0 f0 (g d).
Proof. intros Hg (e&v&f&Hc&Hl). exists e, v, f. split; [by apply content_side|done]. Qed.
Lemma free_side {E} g D : (forall d, D d -> D (g d)) -> spec (E := E) (here D) (change (on_execution id g)) (λ _, here D) (here D).
Proof.
  intros Hg. apply spec_change; [done|]. intros s (d&n&->&Hd). rewrite on_with_directory. exists (g d), n. auto.
Qed.
Lemma free_phase pid e v e1 phase report :
  later e0 events0 None e v None -> progress_of e0 e1 -> terminal_execution_phase phase = false ->
  spec (here (content e v None)) (update_phase pid e1 phase report)
    (λ e2 s, e2 = at_phase phase e1 /\ exists v', later e0 events0 None e2 v' None /\ here (content e2 v' None) s)
    (here (since e0 events0 None)).
Proof.
  intros Hl Hp Ht. apply (spec_weaken _ (here (live False pid 1 e v None)) _ _
    (λ e2 s, e2 = at_phase phase e1 /\ exists v', length v' = S (length v) /\ later e0 events0 None e2 v' None /\
       here (live False pid 0 e2 v' None) s) _ (here (since e0 events0 None))); [|apply here_live| |done].
  - eapply triple_spec, open_phase; try done; by intros [].
  - intros e2 s (->&v'&_&Hl2&Hs). split; [done|]. exists v'. split; [done|]. by eapply framed_live.
Qed.
Lemma free_complete g pid e v e1 x : later e0 events0 None e v None -> progress_of e0 e1 ->
  spec (here (content e v None)) (complete_execution g pid e1 x) (λ _, here (since e0 events0 None)) (here (since e0 events0 None)).
Proof.
  intros Hl Hp. apply (spec_weaken _ (here (live False pid 4 e v None)) _ _
    (λ a, completed False pid s0 e0 events0 0 (fst a) None (snd a)) _ (here (since e0 events0 None))); [|apply here_live| |done].
  - eapply triple_spec, (triple_complete _ _ _ _ _ no_clock e0_storable 0); try done; by intros [].
  - intros a s (b&v'&_&_&_&_&Hl2&Hs). eapply framed_weaken; [|exact Hs]. intros d [[Hd _] _]. by eapply since_content.
Qed.
Lemma free_finalize f0 g accepted pid diagnostic : real s0 -> numbered e0 events0 -> good e0 events0 f0 ->
  spec (here (content e0 events0 f0)) (finalize_stalled_execution g accepted pid repository id diagnostic)
    (λ _, here (since e0 events0 f0)) (here (since e0 events0 f0)).
Proof.
  intros Hreal Hn Hg. apply (spec_weaken _ (here (live False pid 4 e0 events0 f0)) _ _
    (λ a s, exists c e' k', a = Some c /\ completed False pid s0 e0 events0 k' e' f0 c s) _ (here (since e0 events0 f0)));
    [|apply here_live| |done].
  - eapply triple_spec, (triple_finalize _ _ _ _ _ no_clock e0_storable repository Hreal e0_placed 0); try done; by intros [].
  - intros a s (c&e'&k'&_&b&v'&_&_&_&_&Hl2&Hs). eapply framed_weaken; [|exact Hs]. intros d [[Hd _] _]. by eapply since_content.
Qed.

(** Reading. *)
Lemma load_real s id e : load_execution s repository id = Ok e -> real s.
Proof.
  unfold load_execution, checked_execution_directory, require_directory. destruct (validate_execution_id id); [|done].
  cbn [mbind Result_bind]. unfold real. by destruct (sr_kind s), (sr_private s), (sr_executions_dir s).
Qed.
Lemma real_with d n : real (with_directory id s0 d n) -> real s0.
Proof. done. Qed.
Lemma free_load e v f : progress_of e0 e ->
  spec (here (content e v f)) (gets (λ s, load_execution s repository id))
    (λ found s, (found = e /\ real s0) /\ here (content e v f) s) (here (content e v f)).
Proof.
  intros Hp. apply spec_gets. intros s (d&n&->&Hd). destruct (load_execution _ _ _) as [found|] eqn:E; [|by exists d, n].
  assert (real s0) as Hreal by by eapply (real_with d n), load_real.
  rewrite (load_with s0 e0 repository Hreal e0_placed e v f d n Hp Hd) in E. destruct (_ <? _)%Z; [done|]. injection E as <-.
  split; [done|]. by exists d, n.
Qed.
Lemma free_completion e v f : real s0 -> progress_of e0 e -> good e v f ->
  spec (here (content e v f)) (gets (λ s, load_completion s repository id))
    (λ r s, (r = None -> f = None) /\ here (content e v f) s) (here (content e v f)).
Proof.
  intros Hreal Hp Hg. apply spec_gets. intros s (d&n&->&Hd).
  pose proof (load_completion_with s0 e0 repository Hreal e0_placed e v f d n Hp Hd Hg) as Hl.
  destruct (load_completion _ _ _) as [[c|]|]; [split; [done|]; by exists d, n|split; [done|]; by exists d, n|by exists d, n].
Qed.
Lemma free_gets {E A} (r : ShotRepository -> Result E A) (P : ShotRepository -> Prop) : spec P (gets r) (λ _, P) P.
Proof. apply spec_gets. intros s Hs. by destruct (r s). Qed.
Lemma free_lift {E A} (r : Result E A) (P : ShotRepository -> Prop) : spec P (lift r) (λ _, P) P.
Proof. apply spec_lift. intros s Hs. by destruct r. Qed.
Lemma free_mret {E A} (a : A) (P : ShotRepository -> Prop) I : spec (E := E) P (mret a) (λ _, P) I.
Proof. by apply spec_ret. Qed.

(** *** The runner's process *)

Lemma free_keep {E A B} P (I : ShotRepository -> Prop) (m : Crashing ShotRepository E A) (k : A -> Crashing ShotRepository E B) Q :
  spec P m (λ _, P) P -> (forall s, P s -> I s) -> (forall a, spec P (k a) Q I) -> spec P (m ≫= k) Q I.
Proof. intros Hm HI Hk. apply (spec_bind _ _ (λ _, P)); [|done]. by eapply spec_weaken; [exact Hm|..]. Qed.
Section process.
Context (D : ExecutionDirectory -> Prop).
Hypothesis D_side : forall g d, side_change g -> D d -> D (g d).
Abbreviation kept_by m := (spec (here D) m (λ _, here D) (here D)).
Lemma free_write_pid runner : kept_by (write_runner_pid id runner).
Proof.
  unfold write_runner_pid. apply free_keep; [apply free_gets|done|]. intros [existing|]; [apply free_lift|].
  apply free_side. intros d. by apply D_side.
Qed.
Lemma free_remove_pid : kept_by (remove_runner_pid id).
Proof.
  unfold remove_runner_pid. apply free_keep; [apply free_gets|done|]. intros file. apply spec_when; [|done]. intros _.
  apply free_side. intros d. by apply D_side.
Qed.
Lemma free_remove_stale : kept_by (remove_stale_runner_pid id).
Proof.
  unfold remove_stale_runner_pid. apply free_keep; [apply free_gets|done|]. intros d.
  destruct (xd_pid d) as [[]|]; [|apply free_lift|apply free_mret]. apply free_side. intros d'. by apply D_side.
Qed.
Lemma free_spawn w : kept_by (spawn_background_runner w id).
Proof.
  unfold spawn_background_runner. apply free_keep; [apply free_gets|done|]. intros d.
  apply free_keep; [|done|intros []; apply free_keep; [apply free_lift|done|intros child; apply free_write_pid]].
  destruct (xd_log d) as [[]|]; [apply free_mret|apply free_lift|]. apply free_side. intros d'. by apply D_side.
Qed.
End process.
Lemma free_start w pid : numbered e0 events0 -> good e0 events0 None ->
  spec (here (content e0 events0 None)) (start_background_runner w pid e0) (λ _, here (since e0 events0 None)) (here (since e0 events0 None)).
Proof.
  intros Hn Hg. pose proof (later_refl _ _ _ Hn Hg) as Hl. unfold start_background_runner.
  eapply spec_bind.
  { apply free_map_err. apply (free_phase pid e0 events0 e0); [done|apply progress_refl|done]. }
  intros e1 t s [-> (v1&Hl1&Hs)]. revert t s Hs.
  enough (spec (here (content (at_phase RunnerStarted e0) v1 None)) (spawned ← io_try (spawn_background_runner w id);
    match (spawned : manager_result unit) with
    | Ok _ => mret (at_phase RunnerStarted e0)
    | Err error =>
        engine (update_phase pid (at_phase RunnerStarted e0) Prepared ("The unattended runner did not start: " +:+ display_manager_error error)) ;;
        lift (Err error)
    end) (λ _, here (since e0 events0 None)) (here (since e0 events0 None))) as Hsp by (intros t s Hs; by apply Hsp).
  apply (spec_bind _ _ (λ _, here (content (at_phase RunnerStarted e0) v1 None))).
  { apply spec_try; [apply free_spawn; intros g d; by apply content_side|]. intros s'. by apply here_since. }
  intros [[]|error]; [apply spec_ret; intros s'; by apply here_since|].
  eapply spec_bind.
  { apply free_map_err. apply (free_phase pid _ v1 (at_phase RunnerStarted e0)); [done|apply progress_at_phase|done]. }
  intros e2. apply spec_lift. intros s' [-> (v2&Hl2&Hs2)]. by eapply here_since.
Qed.
Lemma free_ensure f0 w g accepted pid : numbered e0 events0 -> good e0 events0 f0 ->
  spec (here (content e0 events0 f0)) (ensure_background_runner w g accepted pid repository id)
    (λ _, here (since e0 events0 f0)) (here (since e0 events0 f0)).
Proof.
  intros Hn Hg. pose proof (later_refl _ _ _ Hn Hg) as Hl. unfold ensure_background_runner.
  assert (forall s, here (content e0 events0 f0) s -> here (since e0 events0 f0) s) as Hsince by (intros s; by apply here_since).
  apply free_keep; [apply free_map_err, free_gets|done|]. intros _. apply free_keep; [apply free_gets|done|]. intros _.
  eapply spec_bind; [eapply spec_weaken; [apply free_map_err, (free_load e0 events0 f0), progress_refl|done..]|].
  intros e. apply triple_pure. intros [-> Hreal].
  apply free_keep; [apply free_gets|done|]. intros alive.
  destruct (runner_recovery_disposition (pe_phase e0) (alive || lw_claim_held w)) eqn:Ed.
  - assert (f0 = None) as Hnone.
    { unfold runner_recovery_disposition in Ed. destruct (alive || _); [done|].
      destruct f0 as [[bytes|]|]; [|done|done]. destruct Hg as (c&_&_&Hphase).
      assert (pe_phase e0 = ValidationCompleted \/ pe_phase e0 = completion_phase c) as [Hp|Hp] by naive_solver; rewrite Hp in Ed; [done|].
      pose proof (completion_terminal c) as Hc. by destruct (completion_phase c). }
    subst f0. apply free_keep; [apply free_remove_stale; intros ? ?; by apply content_side|done|]. intros []. by apply free_start.
  - apply free_keep; [apply free_remove_stale; intros ? ?; by apply content_side|done|]. intros [].
    apply free_keep; [apply free_spawn; intros ? ?; by apply content_side|done|].
    intros []. apply spec_ret. exact Hsince.
  - apply (spec_bind _ _ (λ _, here (since e0 events0 f0))); [by apply free_finalize|]. intros _. apply free_map_err, free_gets.
  - apply spec_ret. exact Hsince.
Qed.
Lemma free_cancel f0 w g accepted pid : numbered e0 events0 -> good e0 events0 f0 ->
  spec (here (content e0 events0 f0)) (cancel_execution w g accepted pid repository id)
    (λ _, here (since e0 events0 f0)) (here (since e0 events0 f0)).
Proof.
  intros Hn Hg. pose proof (later_refl _ _ _ Hn Hg) as Hl.
  assert (forall s, here (content e0 events0 f0) s -> here (since e0 events0 f0) s) as Hsince by (intros s; by apply here_since).
  unfold cancel_execution.
  eapply spec_bind; [eapply spec_weaken; [apply free_map_err, (free_load e0 events0 f0), progress_refl|done..]|].
  intros e. apply triple_pure. intros [-> Hreal].
  eapply spec_bind; [eapply spec_weaken; [apply free_map_err, (free_completion e0 events0 f0 Hreal (progress_refl _) Hg)|done..]|].
  intros published. apply triple_pure. intros Hpub.
  destruct published as [c|]; [apply (spec_bind _ _ (λ _ _, False)); [by apply spec_lift|by intros a t s]|].
  specialize (Hpub eq_refl). subst f0.
  apply free_keep; [apply free_lift|done|]. intros []. apply free_keep; [apply free_gets|done|].
  assert (spec (here (content e0 events0 None)) (cancel_idle w g accepted pid e0) (λ _, here (since e0 events0 None)) (here (since e0 events0 None))) as Hidle.
  { unfold cancel_idle. apply free_keep; [apply free_lift|done|]. intros []. cbv zeta. apply free_keep; [apply free_lift|done|]. intros [].
    apply free_keep; [apply free_lift|done|]. intros answer. apply (spec_bind _ _ (λ _, here (since e0 events0 None))).
    - apply free_map_err. apply (free_complete _ _ e0); [done|apply progress_with_process].
    - intros ended. by apply spec_ret. }
  intros [runner|]; [|done]. destruct (cw_running w runner); [|by apply free_keep; [apply free_remove_pid; intros ? ?; by apply content_side|done|intros []]].
  unfold cancel_running. do 3 (apply free_keep; [apply free_lift|done|]; intros []).
  eapply spec_bind; [eapply spec_weaken; [apply free_map_err, (free_load e0 events0 None), progress_refl|done..]|].
  intros e. apply triple_pure. intros [-> _]. apply free_keep; [apply free_map_err, free_gets|done|].
  intros [c|]; [by apply spec_ret|]. apply free_keep; [apply free_lift|done|]. intros answer.
  apply (spec_bind _ _ (λ _, here (since e0 events0 None))).
  { apply free_map_err. apply (free_complete _ _ e0); [done|apply progress_refl]. }
  intros ended. apply (spec_bind _ _ (λ _, here (since e0 events0 None))); [|intros []; by apply spec_ret].
  apply free_remove_pid. intros g' d. by apply since_side.
Qed.
End free.

(** ** Preparation *)

Lemma load_kept s id e : sound s -> load_execution s repository id = Ok e ->
  exists d events f, directory_of s id = Some d /\ kept id e events f d.
Proof.
  intros Hsound Hload. pose proof (load_real _ _ _ Hload) as Hreal. pose proof Hload as Hentry. unfold load_execution in Hentry.
  destruct (validate_execution_id id) as [[]|]; [|done]. cbn [mbind Result_bind] in Hentry. unfold checked_execution_directory in Hentry.
  pose proof Hreal as (Hk&Hp&Hx). rewrite Hk, Hp, Hx in Hentry. cbn [require_directory mbind Result_bind] in Hentry.
  destruct (sr_executions s !! id) as [entry|] eqn:E; [|done].
  destruct (sd_entry _ Hsound id entry E) as (d&->&Hd). exists d.
  assert (directory_of s id = Some d) as Hdir by (unfold directory_of; by rewrite E). cbn [mbind Result_bind] in Hentry.
  destruct Hd as [(Hr&_&_)|(e'&v&f&Hkept)]; [by rewrite Hr in Hentry|]. exists v, f. split; [done|].
  pose proof Hkept as [Hplaced Hid Hst Hc Hn Hg]. subst id.
  destruct (framed_here s _ d (content e' v f) Hdir Hc) as (d'&n&Es&Hc').
  rewrite Es, (load_with s e' repository Hreal Hplaced e' v f d' n (progress_refl _) Hc') in Hload.
  destruct (_ <? _)%Z; [done|]. by injection Hload as <-.
Qed.
Lemma loop_closed s names : forall index name d, no_active_loop s repository index names = Ok tt -> name ∈ names ->
  sr_executions s !! name = Some (ExecutionDir d) ->
  exists e, load_execution s repository name = Ok e /\ terminal_execution_phase (pe_phase e) = true.
Proof.
  induction names as [|first names IH]; intros index name d Hloop Hin Hd; [by apply elem_of_nil in Hin|].
  cbn [no_active_loop] in Hloop. destruct (_ <=? _)%nat; [done|]. cbn [fail_if mbind Result_bind] in Hloop.
  apply elem_of_cons in Hin as [<-|Hin].
  - rewrite Hd in Hloop. destruct (utf8_valid _); [|done]. cbn [negb fail_if mbind Result_bind] in Hloop.
    destruct (validate_execution_id name) as [[]|]; [|done]. cbn [mbind Result_bind] in Hloop.
    destruct (load_execution s repository name) as [e|]; [|done]. cbn [mbind Result_bind] in Hloop. exists e. split; [done|].
    by destruct (terminal_execution_phase _).
  - destruct (match sr_executions s !! first with Some _ => _ | None => _ end) as [[]|]; [|done].
    cbn [mbind Result_bind] in Hloop. by eapply IH.
Qed.

(** [read_dir] lists every execution, and estimates are read back as written. *)
Definition lists (w : PrepareWorld) : Prop :=
  forall s name, is_Some (sr_executions s !! name) -> name ∈ pw_listing w s.
Definition estimates (w : PrepareWorld) (p : ExecutionPreparation) : Prop :=
  forall c, estimated_cost (pw_resolved_again w) (xp_selection p) = Ok (Some c) -> exact_cost c.

Section prepare.
Context (w : PrepareWorld) (pid : Z) (p : ExecutionPreparation) (id : string) (s : ShotRepository).
Hypothesis s_sound : sound s.
Hypothesis w_lists : lists w.
Hypothesis w_estimates : estimates w p.

(** Nothing but directories without an execution was made; or the execution was,
    and no other is open. *)
Definition untouched (s' : ShotRepository) : Prop :=
  sr_executions s' = sr_executions s /\ (sr_executions_dir s' = NoDir -> sr_executions s = ∅).
Definition fresh_execution (D : ExecutionDirectory -> Prop) (s' : ShotRepository) : Prop :=
  sr_executions s !! id = None /\ (forall a, ~ open_execution s a) /\
  exists s1, sr_executions s1 = sr_executions s /\ sr_executions_dir s1 <> NoDir /\ framed id s1 D s'.
Definition partial (d : ExecutionDirectory) : Prop := unprepared d \/ exists e events, kept id e events None d.

Lemma untouched_sound s' : untouched s' -> sound s' /\ evolves s s' /\
  (forall a d, directory_of s a = Some d -> directory_of s' a = Some d).
Proof.
  intros [He Hr]. pose proof s_sound as [Hent Hroot Hsingle].
  assert (forall a, directory_of s' a = directory_of s a) as Hdir by (intros a; unfold directory_of; by rewrite He).
  split; [split|split].
  - by rewrite He.
  - by rewrite He.
  - intros a b (d&Ha&Ho) (d'&Hb&Ho'). rewrite Hdir in Ha, Hb. apply Hsingle; [by exists d|by exists d'].
  - intros a d e v f Hd Hk. exists d. rewrite Hdir. split; [done|]. by eapply since_refl.
  - intros a d Hd. by rewrite Hdir.
Qed.
Lemma fresh_sound D s' : (forall d, D d -> partial d) -> fresh_execution D s' -> sound s' /\ evolves s s' /\
  (forall a d, directory_of s a = Some d -> directory_of s' a = Some d).
Proof.
  intros HD (Hnone&Hclosed&s1&He&Hr&d'&n&->&Hd'). pose proof s_sound as [Hent Hroot Hsingle].
  assert (forall a, a <> id -> directory_of (with_directory id s1 d' n) a = directory_of s a) as Hdir.
  { intros a Ha. rewrite directory_framed by done. unfold directory_of. by rewrite He. }
  assert (forall a d, directory_of s a = Some d -> a <> id) as Hne.
  { intros a d Hd ->. apply directory_entry in Hd. by rewrite Hnone in Hd. }
  split; [split|split].
  - intros a entry. cbn. destruct (decide (a = id)) as [->|Ha].
    + rewrite lookup_insert_eq. intros [= <-]. exists d'. split; [done|].
      destruct (HD d' Hd') as [?|(e&v&Hk)]; [by left|right; by exists e, v, None].
    + rewrite lookup_insert_ne, He by done. apply Hent.
  - done.
  - assert (forall a, open_execution (with_directory id s1 d' n) a -> a = id) as Hid.
    { intros a (d&Ha&Ho). destruct (decide (a = id)); [done|]. rewrite Hdir in Ha by done. destruct (Hclosed a). by exists d. }
    intros a b Ha Hb. by rewrite (Hid a Ha), (Hid b Hb).
  - intros a d e v f Hd Hk. exists d. rewrite Hdir by by eapply Hne. split; [done|]. by eapply since_refl.
  - intros a d Hd. rewrite Hdir; [done|]. by eapply Hne.
Qed.

Definition made_root : ShotRepository :=
  set_executions (made (sr_private s), made (sr_executions_dir s)) (sr_executions s) (sr_calls s) s.
Lemma made_some k : made k <> NoDir.
Proof. by destruct k. Qed.
Lemma create_spec : sr_executions s !! id = None -> spec (E := ShotExecutionError) (λ x, x = s) (create_execution_directory id)
  (λ _, framed id made_root unprepared) untouched.
Proof.
  intros Hfresh. pose proof (sd_root _ s_sound) as Hroot. unfold create_execution_directory.
  apply (spec_bind _ _ (λ _ x, x = set_executions (made (sr_private s), sr_executions_dir s) (sr_executions s) (sr_calls s) s)).
  { apply spec_change; [by intros x ->; split|by intros x ->]. }
  intros _. apply (spec_bind _ _ (λ _ x, x = made_root)).
  { apply spec_change; [by intros x ->; split|by intros x ->]. }
  intros _. apply (spec_bind _ _ (λ entry x, entry = None /\ x = made_root)).
  { apply spec_gets. intros x ->. by split. }
  intros entry. apply triple_pure. intros ->.
  apply spec_change; [intros x ->; split; [done|]; intros Hd; by destruct (made_some (sr_executions_dir s))|].
  intros x ->. by exists empty_execution_directory, (sr_calls s).
Qed.

Lemma prepared_storable harness route baseline at_ cost : estimated_cost (pw_resolved_again w) (xp_selection p) = Ok cost ->
  storable (prepared_record p repository id harness route cost baseline at_).
Proof. intros Hc. split; [done|]. cbn. intros c ->. by apply w_estimates. Qed.

Lemma partial_weaken s1 (D : ExecutionDirectory -> Prop) x : (forall d, D d -> partial d) -> framed id s1 D x -> framed id s1 partial x.
Proof. apply framed_weaken. Qed.
(** From the directory to the prepared execution. *)
Lemma fill_spec s1 harness route : validate_execution_id id = Ok tt ->
  spec (framed id s1 unprepared)
    (baseline ← lift (capture_git_boundary (pw_git w));
     cost ← lift (map_err ExecInvalid (estimated_cost (pw_resolved_again w) (xp_selection p)));
     prepared_at ← now;
     let prepared := prepared_record p repository id harness route cost baseline prepared_at in
     write_record pid prepared ;;
     preserve_execution_intent pid prepared ;;
     append_execution_event prepared Prepared "The intention, references, and version boundary are prepared." ;;
     mret prepared)
    (λ e, framed id s1 (λ d, exists events, kept id e events None d)) (framed id s1 partial).
Proof.
  intros Hid. assert (forall x, framed id s1 unprepared x -> framed id s1 partial x) as Hun by (intros x; apply framed_weaken; by left).
  apply (spec_bind _ _ (λ _, framed id s1 unprepared)); [apply spec_lift; intros x Hx; destruct (capture_git_boundary _); auto|].
  intros baseline. apply (spec_bind _ _ (λ cost x, estimated_cost (pw_resolved_again w) (xp_selection p) = Ok cost /\ framed id s1 unprepared x)).
  { apply spec_lift. intros x Hx. destruct (estimated_cost _ _); cbn; auto. }
  intros cost. apply triple_pure. intros Hcost.
  apply (spec_bind _ _ (λ ts x, (exists n, now_text n = Ok ts) /\ framed id s1 unprepared x)).
  { apply (triple_now False id s1 no_clock). by left. }
  intros at_. apply triple_pure. intros _. cbv zeta. set (e := prepared_record _ _ _ _ _ _ _ _).
  assert (storable e) as Hst by by apply prepared_storable.
  assert (placed repository e) as Hplaced by (split; [done|done|by apply bool_decide_eq_true]).
  assert (forall v f d, numbered e v -> good e v f -> content e v f d -> kept id e v f d) as Hkept by by split.
  apply (spec_bind _ _ (λ _, framed id s1 (content e [] None))).
  { unfold write_record. destruct (execution_to_vec e) as [bytes|] eqn:E.
    - apply (spec_bind _ _ (λ b x, b = bytes /\ framed id s1 unprepared x)); [by apply spec_lift|].
      intros b. apply triple_pure. intros ->. change (pe_execution_id e) with id.
      eapply spec_weaken; [eapply triple_spec, (triple_write False pid id s1 put_execution (bytes ++ [10%Z]) unprepared (content e [] None))|..];
        [done|by intros m d|..].
      + intros m d (Hr&He&Hc). split; [|change (journal [] (xd_events d)); by rewrite He|done].
        eexists. split; [done|]. destruct Hst. by apply execution_round_trip.
      + intros x. apply framed_weaken. intros d Hd. split; [done|by intros []].
      + intros u x. apply framed_weaken. by intros d [].
      + exact Hun.
    - apply (spec_bind _ _ (λ _ _, False)); [by apply spec_lift|by intros a t x]. }
  assert (forall x, framed id s1 (content e [] None) x -> framed id s1 partial x) as Hpart.
  { intros x. apply framed_weaken. intros d Hd. right. exists e, [].
    apply Hkept; [by split; [constructor|]|by split; [|constructor]|done]. }
  intros []. apply (spec_bind _ _ (λ _, framed id s1 (content e [] None))).
  { unfold preserve_execution_intent. apply (spec_bind _ _ (λ _, framed id s1 (content e [] None))).
    { by eapply spec_weaken; [apply (free_gets _ (framed id s1 (content e [] None)))|..]. }
    intros [[bytes| |]|]; [|by apply spec_ret..]. apply spec_when; [|done]. intros _. change (pe_execution_id e) with id.
    eapply spec_weaken; [eapply triple_spec, (triple_write False pid id s1 put_intent bytes (content e [] None) (content e [] None))|..];
      [done|by intros m d []|by intros m d []|..].
    - intros x. apply framed_weaken. intros d Hd. split; [done|by intros []].
    - intros u x. apply framed_weaken. by intros d [].
    - exact Hpart. }
  intros []. apply (spec_bind _ _ (λ _, framed id s1 (λ d, exists events, kept id e events None d))); [|intros []; by apply spec_ret].
  eapply spec_weaken; [eapply triple_spec, (triple_append False pid id s1 no_clock 0 e [] None e Prepared); [done|by intros []]|..].
  - intros x. apply framed_weaken. intros d. apply content_live.
  - intros u x [ts Hx]. eapply framed_weaken; [|exact Hx]. intros d [[Hd _] _]. eexists. apply Hkept; [..|exact Hd].
    + eapply numbered_after; [|apply progress_refl]. by split; [constructor|].
    + split; [done|]. apply quiet_snoc; [constructor|done].
  - exact Hpart.
Qed.

Lemma no_active_closed listing : (forall name, is_Some (sr_executions s !! name) -> name ∈ listing) ->
  ensure_no_active_execution listing repository s = Ok tt -> forall a, ~ open_execution s a.
Proof.
  intros Hlist Hno a (d&Ha&Ho). pose proof (directory_entry _ _ _ Ha) as Hentry. unfold ensure_no_active_execution in Hno.
  destruct (sr_executions_dir s) eqn:Edir; [|destruct (loop_closed s listing 0 a d Hno) as (e&Hload&Ht); [by apply Hlist|done|]|done].
  - by rewrite (sd_root _ s_sound Edir), lookup_empty in Hentry.
  - destruct (load_kept _ _ _ s_sound Hload) as (d'&v&f&Hd'&Hk). rewrite Ha in Hd'. injection Hd' as <-.
    by rewrite (open_kept _ _ _ _ _ Hk), Ht in Ho.
Qed.
Lemma prepare_spec : spec (λ x, x = s) (prepare_execution_with_id w pid repository p id)
  (λ e x, (x = s /\ load_execution s repository id = Ok e /\ bound_to p e = true)
          \/ fresh_execution (λ d, exists events, kept id e events None d) x)
  (λ x, untouched x \/ fresh_execution partial x).
Proof.
  assert (forall x, x = s -> untouched x \/ fresh_execution partial x) as Hs.
  { intros x ->. left. split; [done|]. apply (sd_root _ s_sound). }
  assert (forall A (r : exec_result A), spec (λ x, x = s) (lift r) (λ a x, r = Ok a /\ x = s) (λ x, untouched x \/ fresh_execution partial x)) as Hlift.
  { intros A r. apply spec_lift. intros x Hx. destruct r; [done|by apply Hs]. }
  unfold prepare_execution_with_id.
  eapply spec_bind; [apply Hlift|]. intros []. apply triple_pure. intros Hid.
  eapply spec_bind; [apply Hlift|]. intros harness. apply triple_pure. intros _.
  eapply spec_bind; [apply Hlift|]. intros route. apply triple_pure. intros _.
  apply (spec_bind _ _ (λ _ x, x = s)); [apply spec_gets; intros x Hx; destruct (ensure_shot_repository _ _ _); [done|by apply Hs]|].
  intros [].
  apply (spec_bind _ _ (λ present x, execution_exists s id = present /\ x = s)); [apply spec_gets; by intros x ->|].
  intros present. apply triple_pure. intros Hpresent. destruct present.
  - apply (spec_bind _ _ (λ e x, load_execution s repository id = Ok e /\ x = s)).
    { apply spec_gets. intros x ->. destruct (load_execution s repository id); [done|by apply Hs]. }
    intros e. apply triple_pure. intros Hload.
    apply (spec_bind _ _ (λ _ x, bound_to p e = true /\ x = s)).
    { apply spec_lift. intros x ->. destruct (bound_to p e); cbn; [done|by apply Hs]. }
    intros []. apply triple_pure. intros Hbound. apply spec_ret. intros x ->. by left.
  - apply (spec_bind _ _ (λ _ x, ensure_no_active_execution (pw_listing w s) repository s = Ok tt /\ x = s)).
    { apply spec_gets. intros x ->. destruct (ensure_no_active_execution _ _ _) as [[]|]; [done|by apply Hs]. }
    intros []. apply triple_pure. intros Hno.
    assert (forall a, ~ open_execution s a) as Hclosed by (eapply no_active_closed; [intros name; apply w_lists|done]).
    assert (sr_executions s !! id = None) as Hfresh.
    { unfold execution_exists in Hpresent. destruct (sr_executions s !! id) as [entry|] eqn:E; [|done].
      by destruct (sd_entry _ s_sound id entry E) as (d&->&_). }
    assert (forall D x, framed id made_root D x -> fresh_execution D x) as Hmade.
    { intros D x Hx. split; [done|]. split; [done|]. exists made_root. split; [done|]. split; [apply made_some|done]. }
    apply (spec_bind _ _ (λ _, framed id made_root unprepared)).
    { eapply spec_weaken; [by apply create_spec|done|done|]. by left. }
    intros []. eapply spec_weaken; [by apply fill_spec|done|..].
    + intros e x Hx. right. by apply Hmade.
    + intros x Hx. right. by apply Hmade.
Qed.
(** Whatever happens, what was there is there; and what is returned is kept. *)
Lemma prepare_run t s' t' o : prepare_execution_with_id w pid repository p id t s = (s', t', o) ->
  (sound s' /\ evolves s s' /\ (forall a d, directory_of s a = Some d -> directory_of s' a = Some d)) /\
  forall e, o = Returned (Ok e) -> exists d events f, directory_of s' id = Some d /\ kept id e events f d.
Proof.
  intros Hrun. pose proof (spec_run _ _ _ _ t s prepare_spec eq_refl) as Hr. rewrite Hrun in Hr.
  assert (untouched s' \/ fresh_execution partial s' -> sound s' /\ evolves s s' /\
    (forall a d, directory_of s a = Some d -> directory_of s' a = Some d)) as Hleft.
  { intros [Hu|Hf]; [by apply untouched_sound|by eapply fresh_sound; [|exact Hf]]. }
  destruct o as [|[e|error]]; [by split; [apply Hleft|]| |by split; [apply Hleft|]].
  destruct Hr as [(->&Hload&_)|Hf]; (split; [|intros e' [= <-]]).
  - split; [done|]. split; [apply evolves_refl|done].
  - destruct (load_kept _ _ _ s_sound Hload) as (d&v&f&Hd). by exists d, v, f.
  - eapply fresh_sound; [|exact Hf]. intros d [v Hk]. right. by exists e, v.
  - destruct Hf as (_&_&s1&_&_&d&n&->&v&Hk). exists d, v, None. split; [by rewrite directory_of_with|done].
Qed.
End prepare.

(** ** Histories *)

Definition with_workspace (files : gmap string WorkspaceEntry) (s : ShotRepository) : ShotRepository :=
  {| sr_kind := sr_kind s; sr_private := sr_private s; sr_executions_dir := sr_executions_dir s;
     sr_executions := sr_executions s; sr_files := files; sr_calls := sr_calls s |}.
(** The runner's record after an operation on it: a crash or an error ends it. *)
Definition runner_after {A} (o : Outcome ShotExecutionError A) (e : A -> PreparedExecution) : option PreparedExecution :=
  match o with Returned (Ok a) => Some (e a) | _ => None end.

(** The repository, and the execution the runner holds in memory. *)
Inductive exec_step : ShotRepository * option PreparedExecution -> ShotRepository * option PreparedExecution -> Prop :=
  | step_prepare w pid p id t s r s' t' o : lists w -> estimates w p ->
      prepare_execution_with_id w pid repository p id t s = (s', t', o) -> exec_step (s, r) (s', r)
  | step_start s id e : load_execution s repository id = Ok e ->
      (forall message, run_admission (pe_phase e) <> RunRefused message) -> exec_step (s, None) (s, Some e)
  | step_memory s e e' : progress_of e e' -> exec_step (s, Some e) (s, Some e')
  | step_phase pid e phase report t s s' t' o : terminal_execution_phase phase = false ->
      update_phase pid e phase report t s = (s', t', o) -> exec_step (s, Some e) (s', runner_after o id)
  | step_heartbeat e report t s s' t' o : append_harness_heartbeat e report t s = (s', t', o) ->
      exec_step (s, Some e) (s', runner_after o (λ _, e))
  | step_complete g pid e x t s s' t' o : complete_execution g pid e x t s = (s', t', o) -> exec_step (s, Some e) (s', None)
  | step_stop s e : exec_step (s, Some e) (s, None)
  | step_ensure w g accepted pid id t s s' t' o :
      ensure_background_runner w g accepted pid repository id t s = (s', t', o) -> exec_step (s, None) (s', None)
  | step_finalize g accepted pid id diagnostic t s s' t' o :
      finalize_stalled_execution g accepted pid repository id diagnostic t s = (s', t', o) -> exec_step (s, None) (s', None)
  | step_cancel w g accepted pid id t s s' t' o :
      cancel_execution w g accepted pid repository id t s = (s', t', o) -> exec_step (s, None) (s', None)
  | step_runner_pid id runner t s r s' t' o : write_runner_pid id runner t s = (s', t', o) -> exec_step (s, r) (s', r)
  | step_forget_pid id t s r s' t' o : remove_runner_pid id t s = (s', t', o) -> exec_step (s, r) (s', r)
  | step_workspace files s r : exec_step (s, r) (with_workspace files s, r).

(** The runner is started for an execution that already has its completion, which
    [run_shot] does not refuse between the publication of the completion and the
    terminal phase. *)
Definition restart (st st' : ShotRepository * option PreparedExecution) : Prop :=
  match snd st, snd st' with
  | None, Some e => is_Some (file_of (fst st) (pe_execution_id e) xd_completion)
  | _, _ => False
  end.
#[local] Instance restart_dec st st' : Decision (restart st st').
Proof. unfold restart. destruct (snd st), (snd st'); apply _. Defined.
(** Every other step. *)
Definition fresh_step (st st' : ShotRepository * option PreparedExecution) : Prop := exec_step st st' /\ ~ restart st st'.

Definition runner_sound (s : ShotRepository) (r : option PreparedExecution) : Prop := forall e1, r = Some e1 ->
  exists d e events, directory_of s (pe_execution_id e1) = Some d /\ kept (pe_execution_id e1) e events None d /\ progress_of e e1.
Definition invariant (st : ShotRepository * option PreparedExecution) : Prop := sound (fst st) /\ runner_sound (fst st) (snd st).

(** *** Every step keeps the invariant *)

Lemma kept_side g id e v f d : side_change g -> kept id e v f d -> kept id e v f (g d).
Proof. intros Hg []. split; try done. by apply content_side. Qed.
Lemma side_sound g id s : side_change g -> sound s -> sound (on_execution id g s) /\ evolves s (on_execution id g s) /\
  forall a d, directory_of s a = Some d -> exists d', directory_of (on_execution id g s) a = Some d' /\ (d' = d \/ d' = g d).
Proof.
  intros Hg [Hent Hroot Hsingle].
  assert (forall a, directory_of (on_execution id g s) a = if decide (a = id) then g <$> directory_of s a else directory_of s a) as Hdir.
  { intros a. unfold directory_of, on_execution, set_executions. cbn. destruct (decide (a = id)) as [->|Hne].
    - rewrite lookup_alter_eq. by destruct (sr_executions s !! id) as [[]|].
    - by rewrite lookup_alter_ne. }
  assert (forall d, open_directory (g d) = open_directory d) as Hopen.
  { intros d. unfold open_directory. by destruct (Hg d) as (->&_). }
  assert (forall a, open_execution (on_execution id g s) a -> open_execution s a) as Hopens.
  { intros a (d&Ha&Ho). rewrite Hdir in Ha. destruct (decide (a = id)); [|by exists d].
    destruct (directory_of s a) as [d'|] eqn:E; [|done]. injection Ha as <-. exists d'. by rewrite <- Hopen. }
  assert (forall a d, directory_of s a = Some d -> exists d', directory_of (on_execution id g s) a = Some d' /\ (d' = d \/ d' = g d)) as Hnew.
  { intros a d Ha. rewrite Hdir, Ha. destruct (decide (a = id)); [exists (g d); auto|exists d; auto]. }
  split; [split|split; [|exact Hnew]].
  - intros a entry. cbn. destruct (decide (a = id)) as [->|Hne]; [|rewrite lookup_alter_ne by done; apply Hent].
    rewrite lookup_alter_eq. destruct (sr_executions s !! id) as [entry'|] eqn:E; [|done]. cbn. intros [= <-].
    destruct (Hent id entry' E) as (d&->&Hd). exists (g d). split; [done|]. destruct Hd as [(Hr&He&Hc)|(e&v&f&Hk)].
    + left. destruct (Hg d) as (Er&Ee&Ec). split; [by rewrite Er|]. split; [by rewrite Ee|by rewrite Ec].
    + right. exists e, v, f. by apply kept_side.
  - cbn. intros Hnone. by rewrite (Hroot Hnone), alter_empty.
  - intros a b Ha Hb. apply Hsingle; by apply Hopens.
  - intros a d e v f Hd Hk. destruct (Hnew a d Hd) as (d'&Hd'&[->| ->]); (eexists; split; [exact Hd'|]); [by eapply since_refl|].
    apply since_side; [done|]. by eapply since_refl.
Qed.
Lemma side_invariant g id s r : side_change g -> invariant (s, r) -> invariant (on_execution id g s, r) /\ evolves s (on_execution id g s).
Proof.
  intros Hg [Hs Hr]. destruct (side_sound g id s Hg Hs) as (Hs'&He&Hd). split; [split; [done|]|done].
  intros e1 E. destruct (Hr e1 E) as (d&e&v&Hd1&Hk&Hp). destruct (Hd _ _ Hd1) as (d'&Hd'&Hor). exists d', e, v.
  split; [done|]. split; [|done]. destruct Hor as [->| ->]; [done|by apply kept_side].
Qed.
Lemma same_invariant st : invariant st -> invariant st /\ evolves (fst st) (fst st).
Proof. intros Hi. split; [done|apply evolves_refl]. Qed.

(** An operation that first loads the execution. *)
Lemma loaded_invariant {A} (m : Crashing ShotRepository ManagerError A) id s t s' t' o :
  (forall error, load_execution s repository id = Err error -> m t s = (s, t, Returned (Err (ManagerExecution error)))) ->
  (forall e events f, placed repository e -> storable e -> pe_execution_id e = id -> real s -> numbered e events -> good e events f ->
     spec (framed id s (content e events f)) m (λ _, framed id s (since e events f)) (framed id s (since e events f))) ->
  sound s -> m t s = (s', t', o) -> sound s' /\ evolves s s'.
Proof.
  intros Herr Hspec Hs Hrun. destruct (load_execution s repository id) as [e|error] eqn:E.
  - destruct (load_kept _ _ _ Hs E) as (d&v&f&Hd&Hk). pose proof (load_real _ _ _ E) as Hreal. eapply one_changed; [done..|].
    eapply spec_end; [eapply (Hspec e v f); by apply Hk || done| |exact Hrun|done|done].
    eapply framed_here; [done|apply Hk].
  - rewrite (Herr _ eq_refl) in Hrun. injection Hrun as <- _ _. split; [done|apply evolves_refl].
Qed.

Lemma runner_step s e1 s' : invariant (s, Some e1) ->
  (forall d e events, directory_of s (pe_execution_id e1) = Some d -> kept (pe_execution_id e1) e events None d -> progress_of e e1 ->
     framed (pe_execution_id e1) s (since e events None) s') -> invariant (s', None) /\ evolves s s'.
Proof.
  intros [Hs Hr] Hf. destruct (Hr e1 eq_refl) as (d&e&v&Hd&Hk&Hp).
  destruct (one_changed s s' _ d e v None Hs Hd Hk (Hf d e v Hd Hk Hp)). split; [by split|done].
Qed.

Lemma manager_step s s' : sound s' /\ evolves s s' -> invariant (s', None) /\ evolves s s'.
Proof. intros [Hs He]. by split; [split|]. Qed.
Lemma side_write_pid id runner t s s' t' o : write_runner_pid id runner t s = (s', t', o) ->
  s' = s \/ s' = on_execution id (put_pid (Some (PrivateBytes (bytes_of (pretty runner) ++ [10%Z])))) s.
Proof.
  unfold write_runner_pid, mbind, Io_bind, gets, lift. destruct (read_runner_pid s id) as [[existing|]|]; [intros [= <- _ _]; by left| |intros [= <- _ _]; by left].
  unfold change. destruct t; intros [= <- _ _]; auto.
Qed.
Lemma side_remove_pid id t s s' t' o : remove_runner_pid id t s = (s', t', o) -> s' = s \/ s' = on_execution id (put_pid None) s.
Proof.
  unfold remove_runner_pid, mbind, Io_bind, gets, io_when, lift. destruct (opt_is_some _); [|intros [= <- _ _]; by left].
  unfold change. destruct t; intros [= <- _ _]; auto.
Qed.
Lemma either_invariant g id s s' r : side_change g -> invariant (s, r) -> s' = s \/ s' = on_execution id g s ->
  invariant (s', r) /\ evolves s s'.
Proof. intros Hg Hi [->| ->]; [by apply (same_invariant (s, r))|by apply side_invariant]. Qed.

Lemma phase_invariant pid e1 phase report t s s' t' o : terminal_execution_phase phase = false -> invariant (s, Some e1) ->
  update_phase pid e1 phase report t s = (s', t', o) -> invariant (s', runner_after o id) /\ evolves s s'.
Proof.
  intros Hphase Hi Hrun. pose proof Hi as [Hs Hr]. destruct (Hr e1 eq_refl) as (d&e&v&Hd&Hk&Hp). cbn [fst] in Hd, Hs.
  pose proof (kp_id _ _ _ _ _ Hk) as Hid. rewrite <- Hid in Hd.
  pose proof (free_phase s e v (kp_storable _ _ _ _ _ Hk) pid e v e1 phase report
    (later_refl _ _ _ (kp_numbered _ _ _ _ _ Hk) (kp_good _ _ _ _ _ Hk)) Hp Hphase) as Hspec.
  assert (framed (pe_execution_id e) s (since e v None) s') as Hf.
  { eapply spec_end; [exact Hspec| |exact Hrun| |done].
    - eapply framed_here; [exact Hd|apply Hk].
    - intros e2 x (_&v'&Hl&Hx). by eapply here_since. }
  rewrite <- Hid in Hk. destruct (one_changed s s' _ d e v None Hs Hd Hk Hf) as [Hs' He]. split; [split; [done|]|done].
  pose proof (spec_run _ _ _ _ t s Hspec (framed_here _ _ _ _ Hd (kp_content _ _ _ _ _ Hk))) as Hres. rewrite Hrun in Hres.
  destruct o as [|[e2|]]; [by intros ?| |by intros ?]. intros e3 [= <-]. destruct Hres as (->&v'&Hl&(d'&n&->&Hc)). cbn [fst].
  assert (pe_execution_id (at_phase phase e1) = pe_execution_id e) as -> by (by rewrite <- (progress_same_id _ _ Hp)).
  exists d', (at_phase phase e1), v'. rewrite directory_of_with. split; [done|]. split; [|apply progress_refl].
  destruct (kept_since _ _ _ _ _ d' Hk) as (e2&v2&f2&Hk2&_); [by exists (at_phase phase e1), v', None|].
  by destruct (content_unique _ _ _ _ _ _ _ Hc (kp_content _ _ _ _ _ Hk2)) as (->&->&->).
Qed.
Lemma heartbeat_frame e1 report t s s' t' o d e v : append_harness_heartbeat e1 report t s = (s', t', o) ->
  directory_of s (pe_execution_id e1) = Some d -> kept (pe_execution_id e1) e v None d -> progress_of e e1 ->
  framed (pe_execution_id e1) s (λ d, exists v', content e v' None d /\ later e v None e v' None) s'.
Proof.
  intros Hrun Hd Hk Hp. pose proof (later_refl _ _ _ (kp_numbered _ _ _ _ _ Hk) (kp_good _ _ _ _ _ Hk)) as Hl.
  eapply spec_end; [eapply triple_spec, (triple_append False 0 (pe_execution_id e1) s no_clock 0 e v None e1 HarnessRunning report eq_refl); by intros []| |exact Hrun|..].
  - eapply framed_weaken; [intros x; apply content_live|]. eapply framed_here; [exact Hd|apply Hk].
  - intros u x [ts Hx]. eapply framed_weaken; [|exact Hx]. intros d' [[Hc _] _]. eexists. split; [exact Hc|].
    destruct Hl as [? ? ? ? Hn [Ho Hq]]. split; try done.
    + by apply prefix_app_r.
    + apply numbered_snoc; [done|by apply event_after_matches|done].
    + split; [done|]. by apply quiet_snoc.
  - intros x. apply framed_weaken. intros d' Hc. by exists v.
Qed.
Lemma step_invariant st st' : fresh_step st st' -> invariant st -> invariant st' /\ evolves (fst st) (fst st').
Proof.
  intros [Hstep Hfresh] Hi. pose proof Hi as [Hs Hr].
  destruct Hstep as [w pid p i t s r s' t' o Hlists Hest Hrun|s i e Hload Hadmit|s e e' Hp|pid e phase report t s s' t' o Hphase Hrun
    |e report t s s' t' o Hrun|g pid e x t s s' t' o Hrun|s e|w g accepted pid i t s s' t' o Hrun|g accepted pid i diagnostic t s s' t' o Hrun
    |w g accepted pid i t s s' t' o Hrun|i runner t s r s' t' o Hrun|i t s r s' t' o Hrun|files s r]; cbn [fst snd] in *.
  - destruct (prepare_run w pid p i s Hs Hlists Hest t s' t' o Hrun) as [(Hs'&He&Hdir) _]. split; [split; [done|]|done].
    intros e1 E. destruct (Hr e1 E) as (d&e&v&Hd&Hk). exists d, e, v. split; [by apply Hdir|done].
  - split; [|apply evolves_refl]. split; [done|]. intros e1 [= <-]. cbn [fst] in *.
    destruct (load_kept _ _ _ Hs Hload) as (d&v&f&Hd&Hk). pose proof (load_real _ _ _ Hload) as Hreal.
    pose proof Hk as [Hplaced Hid _ Hc _ Hg]. exists d, e, v. rewrite Hid. split; [done|]. split; [|apply progress_refl].
    destruct f as [f|]; [|exact Hk]. destruct Hfresh. unfold restart. cbn [fst snd]. exists f.
    unfold file_of. cbn. rewrite Hid, Hd. apply Hc.
  - split; [|apply evolves_refl]. split; [done|]. intros e1 [= <-]. destruct (Hr e eq_refl) as (d&e0&v&Hd&Hk&Hp0).
    rewrite (progress_same_id _ _ Hp). exists d, e0, v. split; [done|]. split; [done|]. by eapply progress_trans.
  - by eapply phase_invariant.
  - destruct (runner_step s e s' Hi) as [Hi' He].
    { intros d e0 v Hd Hk Hp. eapply framed_weaken; [|by eapply heartbeat_frame]. intros d' (v'&Hc&Hl). by eapply since_content. }
    split; [|done]. split; [apply Hi'|]. intros e1 E1. assert (e1 = e) as -> by (destruct o as [|[]]; cbn in E1; congruence).
    destruct (Hr e eq_refl) as (d&e0&v&Hd&Hk&Hp). cbn [fst].
    destruct (heartbeat_frame e report t s s' t' o d e0 v Hrun Hd Hk Hp) as (d'&n&->&v'&Hc&Hl).
    exists d', e0, v'. rewrite directory_of_with. split; [done|]. split; [|done].
    pose proof Hk as [H3 H4 H5 _ _ _]. split; try done; apply Hl.
  - eapply (runner_step s e s' Hi). intros d e0 v Hd Hk Hp. pose proof (kp_id _ _ _ _ _ Hk) as Hid. rewrite <- Hid in *.
    eapply spec_end; [eapply (free_complete s e0 v (kp_storable _ _ _ _ _ Hk) g pid e0 v e x); [|exact Hp]| |exact Hrun|done|done].
    + apply later_refl; apply Hk.
    + eapply framed_here; [exact Hd|apply Hk].
  - split; [|apply evolves_refl]. by split.
  - eapply manager_step, (loaded_invariant _ i s t s' t' o); [| |done|exact Hrun].
    + intros error E. unfold ensure_background_runner, engine, io_map_err, mbind, Io_bind, gets. by rewrite E.
    + intros e v f Hpl Hst <- _ Hn Hg. by apply free_ensure.
  - eapply manager_step, (loaded_invariant _ i s t s' t' o); [| |done|exact Hrun].
    + intros error E. unfold finalize_stalled_execution, engine, io_map_err, mbind, Io_bind, gets. by rewrite E.
    + intros e v f Hpl Hst <- Hreal Hn Hg. by apply free_finalize.
  - eapply manager_step, (loaded_invariant _ i s t s' t' o); [| |done|exact Hrun].
    + intros error E. unfold cancel_execution, engine, io_map_err, mbind, Io_bind, gets. by rewrite E.
    + intros e v f Hpl Hst <- _ Hn Hg. by apply free_cancel.
  - eapply (either_invariant _ i); [|done|by eapply side_write_pid]. done.
  - eapply (either_invariant (put_pid None) i); [done|done|by eapply side_remove_pid].
  - split; [split|]; [|by intros e1 E; apply Hr|].
    + destruct Hs as [H3 H4 H5]. split; [done|done|done].
    + intros i d e v f Hd Hk. exists d. split; [done|]. by eapply since_refl.
Qed.

Lemma history_invariant st st' : rtc fresh_step st st' -> invariant st -> invariant st' /\ evolves (fst st) (fst st').
Proof.
  induction 1 as [st|st1 st2 st3 Hstep _ IH]; intros Hi; [by apply same_invariant|].
  destruct (step_invariant _ _ Hstep Hi) as [Hi2 He]. destruct (IH Hi2) as [Hi3 He3]. split; [done|]. by eapply evolves_trans.
Qed.
(** A history without restarts that starts before the first execution. *)
Definition reached (s : ShotRepository) (r : option PreparedExecution) : Prop :=
  exists s0, sr_executions s0 = ∅ /\ rtc fresh_step (s0, None) (s, r).
Lemma reached_invariant s r : reached s r -> invariant (s, r).
Proof.
  intros (s0&He&Hrtc). eapply history_invariant; [exact Hrtc|]. split; [|by intros e]. split; cbn.
  - intros id entry. by rewrite He, lookup_empty.
  - done.
  - intros a b (d&Ha&_). apply directory_entry in Ha. by rewrite He, lookup_empty in Ha.
Qed.

(** What the readers give of a kept execution. *)
Lemma read_kept id s d e v f e' : directory_of s id = Some d -> kept id e v f d -> load_execution s repository id = Ok e' ->
  e' = e /\ (record_size d <= MAX_EXECUTION_RECORD_BYTES)%Z /\
  (forall events, read_events s repository id = Ok events -> events = v) /\
  ((events_size d <= MAX_EXECUTION_EVENTS_BYTES)%Z -> xd_events d <> None -> read_events s repository id = Ok v) /\
  match load_completion s repository id with
  | Ok None => f = None
  | Ok (Some c) => exists bytes, f = Some (PrivateBytes bytes) /\ completion_from_slice bytes = Ok c
  | Err _ => exists bytes, f = Some (PrivateBytes bytes) /\ (MAX_COMPLETION_RECORD_BYTES < file_size bytes)%Z
  end.
Proof.
  intros Hd [Hplaced Hid _ Hc Hn Hg] Hload. pose proof (load_real _ _ _ Hload) as Hreal. subst id.
  destruct (framed_here s _ d (λ d', d' = d) Hd eq_refl) as (d'&n&Es&->). rewrite Es in Hload |- *.
  pose proof (load_with s e repository Hreal Hplaced e v f d n (progress_refl _) Hc) as Hl. rewrite Hload in Hl.
  destruct (Z.ltb_spec MAX_EXECUTION_RECORD_BYTES (record_size d)) as [Hlt|Hle]; [done|]. injection Hl as ->.
  pose proof (read_events_with s e repository Hreal Hplaced e v f d n (progress_refl _) Hc Hn) as Hr.
  pose proof (load_completion_with s e repository Hreal Hplaced e v f d n (progress_refl _) Hc Hg) as Hcomp.
  split; [done|]. split; [done|]. split; [|split].
  - intros events Hev. by rewrite Hev in Hr.
  - intros Hsize Hfile. destruct (read_events _ _ _) as [found|[[]| | |]]; [by rewrite Hr|by destruct Hr|destruct Hr; lia..].
  - destruct (load_completion _ _ _) as [[c|]|]; [done|done|]. destruct Hcomp as [Hcomp|Hcomp]; [lia|done].
Qed.
Lemma kept_file s id get f : file_of s id get = Some f -> exists d, directory_of s id = Some d /\ get d = Some f.
Proof. unfold file_of. destruct (directory_of s id) as [d|]; [|done]. intros Hf. by exists d. Qed.
Lemma reached_kept s r id d : reached s r -> directory_of s id = Some d -> unprepared d \/ exists e v f, kept id e v f d.
Proof.
  intros Hr Hd. destruct (reached_invariant _ _ Hr) as [Hs _].
  destruct (sd_entry _ Hs id _ (directory_entry _ _ _ Hd)) as (d'&[= <-]&Hk). done.
Qed.

(** The phase and the journal of an execution say what its completion says: at
    most one terminal event, the last, of the phase that the completion has. *)
Definition agrees_with_completion (s : ShotRepository) (id : string) (f : PrivateFile) : Prop :=
  exists bytes c, f = PrivateBytes bytes /\ completion_from_slice bytes = Ok c /\
    forall e, load_execution s repository id = Ok e ->
      completion_fits e c = true /\ (pe_phase e = ValidationCompleted \/ pe_phase e = completion_phase c) /\
      forall events, read_events s repository id = Ok events ->
        quiet events \/ pe_phase e = completion_phase c /\ settled (completion_phase c) events.
Lemma fresh_final s r s' r' id f : reached s r -> rtc fresh_step (s, r) (s', r') ->
  file_of s id xd_completion = Some f -> file_of s' id xd_completion = Some f /\ agrees_with_completion s' id f.
Proof.
  intros Hr Hrtc Hf. destruct (kept_file _ _ _ _ Hf) as (d&Hd&Hfd).
  destruct (reached_kept s r id d Hr Hd) as [(_&_&Hnone)|(e&v&f'&Hk)]; [by rewrite Hnone in Hfd|].
  destruct (history_invariant _ _ Hrtc (reached_invariant _ _ Hr)) as [_ Hev].
  destruct (Hev id d e v f' Hd Hk) as (d'&Hd'&Hsince). cbn [fst] in Hd'.
  destruct (kept_since _ _ _ _ _ _ Hk Hsince) as (e1&v1&f1&Hk1&Hl1).
  rewrite (ct_completion _ _ _ _ (kp_content _ _ _ _ _ Hk)) in Hfd. subst f'.
  rewrite (lt_completion _ _ _ _ _ _ Hl1) in Hk1 by done. split.
  - unfold file_of. rewrite Hd'. cbn. apply (kp_content _ _ _ _ _ Hk1).
  - pose proof (kp_good _ _ _ _ _ Hk1) as Hg. destruct f as [bytes|]; [|done]. destruct Hg as (c&Hc&Hfit&Hphase).
    exists bytes, c. split; [done|]. split; [done|]. intros e' Hload.
    destruct (read_kept _ _ _ _ _ _ _ Hd' Hk1 Hload) as (->&_&Hread&_). split; [done|].
    split; [by destruct Hphase as [[? _]|[? _]]; [|right]|]. intros events Hevents. rewrite (Hread _ Hevents).
    destruct Hphase as [[_ Hq]|[? ?]]; [by left|by right].
Qed.

(** A history goes without a restart, or up to its first one. *)
Lemma until_restart st st' : rtc exec_step st st' -> rtc fresh_step st st' \/
  exists st1 st2, rtc fresh_step st st1 /\ exec_step st1 st2 /\ restart st1 st2 /\ rtc exec_step st2 st'.
Proof.
  induction 1 as [st|st st1 st' Hstep Hrtc IH]; [by left|].
  destruct (decide (restart st st1)) as [Hre|Hre]; [right; by exists st, st1|].
  destruct IH as [IH|(sa&sb&Hsa&Hsb)]; [left|right].
  - by eapply rtc_l.
  - exists sa, sb. split; [by eapply rtc_l|done].
Qed.
(** Only between its completion and its terminal phase is an execution run again. *)
Lemma restart_inv s r s' r' : reached s r -> exec_step (s, r) (s', r') -> restart (s, r) (s', r') -> exists e,
  r = None /\ s' = s /\ r' = Some e /\ load_execution s repository (pe_execution_id e) = Ok e /\
  pe_phase e = ValidationCompleted /\ is_Some (file_of s (pe_execution_id e) xd_completion).
Proof.
  intros Hr Hstep Hre. unfold restart in Hre. cbn in Hre. destruct r as [|]; [done|]. destruct r' as [e'|]; [|done].
  destruct Hre as [f Hf]. pose proof (reached_invariant _ _ Hr) as [Hs _]. inversion Hstep as [| ? i e Hload Hadmit | | | | | | | | | | |]; subst.
  destruct (load_kept _ _ _ Hs Hload) as (d&v&f'&Hd&Hk). pose proof (kp_id _ _ _ _ _ Hk) as Hid. cbn [fst] in Hd.
  assert (f' = Some f) as ->.
  { unfold file_of in Hf. rewrite Hid, Hd in Hf. rewrite <- Hf. symmetry. apply Hk. }
  exists e'. rewrite Hid. split_and!; try done; [|by exists f; rewrite <- Hid].
  pose proof (kp_good _ _ _ _ _ Hk) as Hg. destruct f as [bytes|]; [|done]. destruct Hg as (c&_&_&Hg).
  destruct (decide (pe_phase e' = completion_phase c)) as [Hp|Hp]; [|by naive_solver].
  destruct (Hadmit "this execution already has a final outcome"). unfold run_admission. rewrite Hp.
  pose proof (completion_terminal c). by destruct (completion_phase c).
Qed.
(** [C8] A completion, once published, is the completion for ever, and the phase and
    the journal of its execution agree with it: in every history of preparations,
    runs, crashes, recoveries and cancellations, as long as no runner is started
    again for an execution that has its completion. [run_shot] starts one in the
    phase between the completion and the terminal phase, and nowhere else; until a
    history comes to that point the completion stands. *)
Theorem completion_is_final s r s' r' id f : reached s r -> rtc exec_step (s, r) (s', r') ->
  file_of s id xd_completion = Some f ->
  (file_of s' id xd_completion = Some f /\ agrees_with_completion s' id f) \/
  exists s1 e1, rtc fresh_step (s, r) (s1, None) /\ rtc exec_step (s1, Some e1) (s', r') /\
    load_execution s1 repository (pe_execution_id e1) = Ok e1 /\ pe_phase e1 = ValidationCompleted /\
    is_Some (file_of s1 (pe_execution_id e1) xd_completion) /\
    file_of s1 id xd_completion = Some f /\ agrees_with_completion s1 id f.
Proof.
  intros Hr Hrtc Hf. destruct (until_restart _ _ Hrtc) as [Hfresh|([s1 r1]&[s2 r2]&Hfresh&Hstep&Hre&Hrest)].
  - left. by eapply fresh_final.
  - right. assert (reached s1 r1) as Hr1.
    { destruct Hr as (s0&Hs0&Hr). exists s0. split; [done|]. by etrans. }
    destruct (restart_inv _ _ _ _ Hr1 Hstep Hre) as (e1&->&->&->&Hload&Hphase&Hc). exists s1, e1.
    destruct (fresh_final _ _ _ _ _ _ Hr Hfresh Hf) as [Hf1 Ha1]. by split_and!.
Qed.

(** [C9] In every history in which no runner is started again for an execution that
    has its completion: at most one execution of a Shot is open; an execution is
    over only with its completion, and then keeps its phase; its terminal event, if
    any, is the last one and of that phase. Its identity and its preparation never
    change, and its journal only grows. *)
Theorem executions_disciplined s r s' r' : reached s r -> rtc fresh_step (s, r) (s', r') ->
  (forall a b, open_execution s' a -> open_execution s' b -> a = b) /\
  forall id e, load_execution s repository id = Ok e ->
    (terminal_execution_phase (pe_phase e) = true -> is_Some (file_of s id xd_completion)) /\
    (forall events, read_events s repository id = Ok events -> quiet events \/ settled (pe_phase e) events) /\
    forall e', load_execution s' repository id = Ok e' -> progress_of e e' /\
      (terminal_execution_phase (pe_phase e) = true -> pe_phase e' = pe_phase e) /\
      forall events events', read_events s repository id = Ok events -> read_events s' repository id = Ok events' ->
        events `prefix_of` events'.
Proof.
  intros Hr Hrtc. destruct (history_invariant _ _ Hrtc (reached_invariant _ _ Hr)) as [[Hs' _] Hev]. cbn [fst] in Hs', Hev.
  destruct (reached_invariant _ _ Hr) as [Hs _]. cbn [fst] in Hs. split; [apply Hs'|]. intros id e Hload.
  destruct (load_kept _ _ _ Hs Hload) as (d&v&f&Hd&Hk). destruct (read_kept _ _ _ _ _ _ _ Hd Hk Hload) as (_&_&Hread&_).
  pose proof (kp_good _ _ _ _ _ Hk) as Hg. split; [|split].
  - intros Ht. unfold file_of. rewrite Hd. cbn. rewrite (ct_completion _ _ _ _ (kp_content _ _ _ _ _ Hk)).
    destruct f; [done|]. destruct Hg as [Ho _]. by rewrite Ht in Ho.
  - intros events Hevents. rewrite (Hread _ Hevents). destruct f as [[bytes|]|]; [|done|left; apply Hg].
    destruct Hg as (c&_&_&[[_ Hq]|[-> Hset]]); [by left|by right].
  - intros e' Hload'. destruct (Hev id d e v f Hd Hk) as (d'&Hd'&Hsince). cbn [fst] in Hd'.
    destruct (kept_since _ _ _ _ _ _ Hk Hsince) as (e1&v1&f1&Hk1&[Hp Hpre _ Ht _ _]).
    destruct (read_kept _ _ _ _ _ _ _ Hd' Hk1 Hload') as (->&_&Hread'&_). split; [done|]. split; [done|].
    intros events events' H3 H4. by rewrite (Hread _ H3), (Hread' _ H4).
Qed.

(** An identity that was prepared is bound for ever to the work it was prepared
    for: whatever happened since, preparing it again changes nothing, and gives
    the execution as it then is, or an error; it gives one only for the same Shot,
    Version, app, harness, model, route, intention and mode. *)
Theorem reserved_identity_binds s r w pid p id t s1 t1 e1 s2 r2 w' pid' p' t' s3 t3 o :
  reached s r -> lists w -> estimates w p -> lists w' -> estimates w' p' ->
  prepare_execution_with_id w pid repository p id t s = (s1, t1, Returned (Ok e1)) ->
  rtc fresh_step (s1, r) (s2, r2) ->
  prepare_execution_with_id w' pid' repository p' id t' s2 = (s3, t3, o) ->
  s3 = s2 /\ match o with
              | Returned (Ok e2) => load_execution s2 repository id = Ok e2 /\ progress_of e1 e2 /\ bound_to p' e2 = true /\
                  xp_shot_id p' = pe_shot_id e1 /\ xp_version_ordinal p' = pe_version_ordinal e1 /\
                  xp_intention_digest p' = pe_intention_digest e1
              | Returned (Err _) => True
              | Crashed => False
              end.
Proof.
  intros Hr Hw Hest Hw' Hest' Hrun Hrtc Hrun'. destruct (reached_invariant _ _ Hr) as [Hs Hrunner]. cbn [fst snd] in Hs, Hrunner.
  destruct (prepare_run w pid p id s Hs Hw Hest t s1 t1 _ Hrun) as [(Hs1&Hev1&Hdir) He1].
  destruct (He1 e1 eq_refl) as (d&v&f&Hd&Hk).
  assert (invariant (s1, r)) as Hi1.
  { split; [done|]. intros e E. destruct (Hrunner e E) as (d0&e0&v0&Hd0&Hk0). exists d0, e0, v0. split; [by apply Hdir|done]. }
  destruct (history_invariant _ _ Hrtc Hi1) as [[Hs2 _] Hev]. destruct (Hev id d e1 v f Hd Hk) as (d2&Hd2&Hsince). cbn [fst] in Hd2, Hs2.
  destruct (kept_since _ _ _ _ _ _ Hk Hsince) as (e2&v2&f2&Hk2&Hl2).
  pose proof (directory_entry _ _ _ Hd2) as Hentry. assert (execution_exists s2 id = true) as Hpresent by (unfold execution_exists; by rewrite Hentry).
  unfold prepare_execution_with_id, mbind, Io_bind, gets, lift in Hrun'. rewrite Hpresent in Hrun'.
  destruct (validate_execution_id id) as [[]|]; [|by injection Hrun' as <- _ <-].
  destruct (map_err ExecInvalid (pw_resolved w')) as [harness|]; [|by injection Hrun' as <- _ <-].
  destruct (ok_or _ _) as [route|]; [|by injection Hrun' as <- _ <-].
  destruct (ensure_shot_repository _ _ _) as [[]|]; [|by injection Hrun' as <- _ <-].
  destruct (load_execution s2 repository id) as [e3|] eqn:Hload; [|by injection Hrun' as <- _ <-].
  destruct (bound_to p' e3) eqn:Hbound; cbn [negb fail_if] in Hrun'; [|by injection Hrun' as <- _ <-].
  injection Hrun' as <- _ <-. split; [done|]. destruct (read_kept _ _ _ _ _ _ _ Hd2 Hk2 Hload) as (->&_).
  pose proof (lt_progress _ _ _ _ _ _ Hl2) as Hp. split; [done|]. split; [done|]. split; [done|].
  unfold bound_to in Hbound. rewrite !andb_true_iff in Hbound. destruct Hbound as [[[[[[[[Hb1 Hb2] _] _] _] _] _] Hb3] _].
  apply bool_decide_eq_true in Hb1, Hb2, Hb3. destruct Hp as (m&c&h&->). done.
Qed.

(** [C10] Recovery settles an execution that a crash left at any point once its
    journal has an event, in a history without restarts: given a record and a
    journal that can be read, no temporary file of the recovering process's own
    number, room for four more events, Git, the clock, and a ledger that stands by
    the Version it accepted ([recovery_supported]), it ends with a completion, the
    terminal phase of that completion, and a journal whose last event, the only
    terminal one, says so. *)
Theorem recovery_settles s r id e events g accepted diagnostic pid t :
  reached s r -> load_execution s repository id = Ok e -> read_events s repository id = Ok events ->
  (forall n, is_ok (now_text n) = true) ->
  (forall d, directory_of s id = Some d -> xd_temporaries d !! pid = None /\
     (events_size d + 4 * EVENT_ROOM <= MAX_EXECUTION_EVENTS_BYTES)%Z) ->
  recovery_supported s e events g accepted diagnostic (file_of s id xd_completion) -> 27 <= t ->
  exists s' t' c e' events',
    finalize_stalled_execution g accepted pid repository id diagnostic t s = (s', t', Returned (Ok (Some c))) /\
    load_completion s' repository id = Ok (Some c) /\ load_execution s' repository id = Ok e' /\
    pe_phase e' = completion_phase c /\ read_events s' repository id = Ok events' /\
    settled (completion_phase c) events' /\ events `prefix_of` events' /\ progress_of e e'.
Proof.
  intros Hr Hload Hread Hclock Hroom Hrec Ht. destruct (reached_invariant _ _ Hr) as [Hs _]. cbn [fst] in Hs.
  destruct (load_kept _ _ _ Hs Hload) as (d&v&f&Hd&Hk). pose proof (load_real _ _ _ Hload) as Hreal.
  destruct (read_kept _ _ _ _ _ _ _ Hd Hk Hload) as (_&Hsize&Hv&_). rewrite (Hv _ Hread) in *. destruct (Hroom d Hd) as [Htmp Hevents].
  pose proof Hk as [Hplaced Hid Hst Hc Hn Hg]. subst id.
  assert (file_of s (pe_execution_id e) xd_completion = f) as Hfile by (unfold file_of; rewrite Hd; apply Hc). rewrite Hfile in Hrec.
  pose proof (triple_finalize True pid s e v (λ _, Hclock) Hst repository Hreal Hplaced 0 g accepted diagnostic f Hn Hg (λ _, Hrec) t s) as Hfin.
  assert (framed (pe_execution_id e) s (live True pid (4 + 0) e v f) s) as Hlive.
  { apply (framed_here s _ d); [done|]. split; [split; [done|]|by intros _]. intros _. split; [done|]. exact Hevents. }
  specialize (Hfin Hlive). destruct (finalize_stalled_execution _ _ _ _ _ _ t s) as [[s' t'] [|[a|error]]];
    [destruct Hfin as [_ Hlt]; specialize (Hlt I); lia| |by destruct Hfin as [_ []]].
  destruct Hfin as [(c&e'&k&->&bytes&events'&Hbytes&Hbsize&Hphase&Hset&Hl&(d'&n&->&Hlive')) _].
  assert (kept (pe_execution_id e) e' events' (Some (PrivateBytes bytes)) d') as Hk'.
  { destruct (kept_since _ _ _ _ _ d' Hk) as (e2&v2&f2&Hk2&_); [exists e', events', (Some (PrivateBytes bytes)); split; [apply Hlive'|done]|].
    by destruct (content_unique _ _ _ _ _ _ _ (proj1 (proj1 Hlive')) (kp_content _ _ _ _ _ Hk2)) as (->&->&->). }
  destruct (live_sizes True pid k _ _ _ _ Hlive' I) as [Hrs Hes].
  pose proof (directory_of_with (pe_execution_id e) s d' n) as Hd'.
  assert (load_execution (with_directory (pe_execution_id e) s d' n) repository (pe_execution_id e) = Ok e') as Hload'.
  { rewrite (load_with s e repository Hreal Hplaced e' events' (Some (PrivateBytes bytes)) d' n (lt_progress _ _ _ _ _ _ Hl)) by apply Hlive'.
    by rewrite (proj2 (Z.ltb_ge _ _) Hrs). }
  destruct (read_kept _ _ _ _ _ _ _ Hd' Hk' Hload') as (_&_&_&Hread'&Hcomp).
  eexists _, t', c, e', events'. split; [reflexivity|]. split; [|split; [exact Hload'|split; [done|split; [|split; [done|split; apply Hl]]]]].
  - destruct (load_completion _ _ _) as [[c'|]|]; [|done|].
    + destruct Hcomp as (b&[= <-]&Hb). by rewrite Hbytes in Hb; injection Hb as ->.
    + destruct Hcomp as (b&[= <-]&Hb). specialize (Hbsize I). lia.
  - apply Hread'; [done|]. destruct Hset as (before&ev&->&_). pose proof (ct_journal _ _ _ _ (kp_content _ _ _ _ _ Hk')) as Hj.
    intros Hnone. rewrite Hnone in Hj. by destruct before.
Qed.
End history.
