(* ===== verification/ExecutionStory.v ===== *)
(** * A concrete execution

    Codecs that satisfy the laws asked of [serde_json], a Shot's repository and the
    histories of an execution that is prepared, started, crashed and recovered: the
    witnesses that the hypotheses of the theorems can hold, and two histories that
    the code does not handle. *)
From S2P Require Import Prelude CrashIo Text Digest Clock FileTree ExecutionModel Executions ExecutionLaws ExecutionRecovery ExecutionHistory PendingIntentionsStory.

#[local] Existing Instance Toy.platform.
#[local] Instance ShotExecutionEvent_eq_dec : EqDecision ShotExecutionEvent.
Proof. solve_decision. Defined.

(** ** The codecs *)

Definition all_phases : list ExecutionPhase :=
  [Prepared; RunnerStarted; TerminalOpened; ExecutionStarted; ContextLoaded; ConceptionPhase; Materializing; HarnessRunning;
   WorkspaceChanged; Building; Testing; Verifying; Repairing; Installing; Launching; ValidationStarted; WaitingForDevice;
   ValidationCompleted; ExecutionCompleted; ExecutionFailed; ExecutionCancelled].
Definition phase_of (text : list Z) : option ExecutionPhase :=
  List.find (λ phase, event_name phase == string_of text) all_phases.
Definition opt_num (z : option Z) : list Z := match z with Some z => num z | None => [] end.
Definition num_opt (f : list Z) : option Z := if bool_decide (f = []) then None else Some (be_value f).

Definition shot : ShotId := MkShotId (filled 32 1).
Definition intention : Bytes32 := filled 32 2.
Definition execution_template (id tree at_ : string) (mode : ExecutionMode) (process : option Z) (phase : ExecutionPhase)
    : PreparedExecution := {|
  pe_schema := EXECUTION_RECORD_SCHEMA; pe_execution_id := id; pe_shot_id := shot; pe_version_ordinal := 1;
  pe_app_name := "notebook"; pe_repository := "/shot"; pe_harness := "claude"; pe_harness_display_name := "Claude";
  pe_model := "large"; pe_route := "local"; pe_adapter := None; pe_route_billing := "subscription";
  pe_estimated_additional_cost_usd := None; pe_intention_digest := intention; pe_intent_path := "intent.md";
  pe_references := []; pe_mode := mode; pe_auto_accept_genome := false;
  pe_baseline := {| gb_tree := tree; gb_head := None; gb_pre_existing_status := [] |};
  pe_prepared_at := at_; pe_process_id := process; pe_phase := phase |}.
Definition mode_text (mode : ExecutionMode) : list Z :=
  match mode with Conception => [0%Z] | BirthMaterialization => [1%Z] | EvolutionMaterialization => [2%Z] end.
Definition mode_of (f : list Z) : ExecutionMode :=
  match f with [0%Z] => Conception | [1%Z] => BirthMaterialization | _ => EvolutionMaterialization end.
Definition execution_fields (e : PreparedExecution) : list (list Z) :=
  [txt (pe_execution_id e); txt (gb_tree (pe_baseline e)); txt (pe_prepared_at e); mode_text (pe_mode e);
   opt_num (pe_process_id e); txt (event_name (pe_phase e))].
Definition execution_of (fields : list (list Z)) : option PreparedExecution :=
  match fields with
  | [i; t; a; m; c; h] => phase ← phase_of h; Some (execution_template (string_of i) (string_of t) (string_of a) (mode_of m) (num_opt c) phase)
  | _ => None
  end.
Definition event_fields (ev : ShotExecutionEvent) : list (list Z) :=
  [num (xe_sequence ev); txt (xe_execution_id ev); txt (xe_timestamp ev); txt (event_name (xe_phase ev)); txt (xe_report ev)].
Definition event_of (fields : list (list Z)) : option ShotExecutionEvent :=
  match fields with
  | [n; i; t; h; r] =>
      phase ← phase_of h;
      Some (new_event (execution_template (string_of i) "" "" Conception None phase) phase (string_of r) (be_value n) (string_of t))
  | _ => None
  end.
Fixpoint files_of (fields : list (list Z)) : option (list ChangedFile) :=
  match fields with
  | [] => Some []
  | s :: p :: a :: d :: fields =>
      rest ← files_of fields;
      Some ({| cf_status := string_of s; cf_path := string_of p; cf_additions := num_opt a; cf_deletions := num_opt d |} :: rest)
  | _ => None
  end.
Definition flag (b : bool) : list Z := if b then [1%Z] else [0%Z].
(** A completion by what it was computed from. *)
Definition completion_fields (c : CompletionRecord) : list (list Z) :=
  let v := default {| vo_command := ""; vo_status := ""; vo_evidence := None |} (head (cr_validation_results c)) in
  [txt (cr_execution_id c); txt (cr_baseline_tree c); default [] (mode_text <$> cr_mode c); txt (cr_started_at c); txt (cr_ended_at c);
   num (cr_duration_seconds c); opt_num (cr_exit_code c); flag (bool_decide (cr_outcome c = OutcomeCancelled));
   flag (vo_status v != "not_accepted"); flag (vo_status v == "passed");
   match vo_evidence v with Some t => 1%Z :: txt t | None => [] end; txt (cr_git_diff_summary c); txt (cr_final_tree c)]
  ++ (cr_files_changed c ≫= λ f, [txt (cf_status f); txt (cf_path f); opt_num (cf_additions f); opt_num (cf_deletions f)]).
Definition completion_from (fields : list (list Z)) : option CompletionRecord :=
  match fields with
  | i :: b :: m :: s :: n :: d :: x :: k :: a :: p :: v :: g :: t :: fields =>
      files ← files_of fields;
      Some (completion_of (execution_template (string_of i) (string_of b) "" (mode_of m) None ValidationCompleted)
              {| ed_started_at := string_of s; ed_duration_seconds := be_value d; ed_exit_code := num_opt x; ed_cancelled := k == [1%Z];
                 ed_accepted_version := a == [1%Z]; ed_validation_passed := p == [1%Z];
                 ed_validation_evidence := match v with 1%Z :: t => Some (string_of t) | _ => None end |}
              files (string_of g) (string_of t) (string_of n) None)
  | _ => None
  end.

(** Each byte as two letters, so that a line has no end within. *)
Definition letters (bytes : list Z) : list Z := bytes ≫= λ b, [97 + b / 16; 97 + b mod 16]%Z.
Fixpoint unletters (line : list Z) : list Z :=
  match line with a :: b :: line => ((a - 97) * 16 + (b - 97))%Z :: unletters line | _ => [] end.
Definition good_line_check (line : list Z) : bool :=
  bool_decide (10%Z ∉ line) && bool_decide (strip_cr line = line) && negb (line_is_blank line) && utf8_valid line.

Definition execution_writer := checked_writer execution_fields execution_of (λ _, true).
Definition completion_writer := checked_writer completion_fields completion_from (λ _, true).
Definition event_writer := checked_writer event_fields event_of (λ _, true).
(** A file ends with a line end, which the writer of the file adds. *)
Definition unended (bytes : list Z) : list Z := take (length bytes - 1) bytes.
Lemma unended_snoc bytes : unended (bytes ++ [10%Z]) = bytes.
Proof. unfold unended. rewrite length_app. cbn [length]. by rewrite Nat.add_sub, take_app_length. Qed.
Definition write_event (ev : ShotExecutionEvent) : Result string (list Z) :=
  match event_writer.1 ev with
  | Ok bytes =>
      let line := letters bytes in
      if good_line_check line && bool_decide (event_writer.2 (unletters line) = Ok ev) then Ok line else Err "not representable"
  | Err error => Err error
  end.
Lemma written_event ev line : write_event ev = Ok line -> good_line_check line = true /\ event_writer.2 (unletters line) = Ok ev.
Proof.
  unfold write_event. destruct (event_writer.1 ev) as [bytes|]; [|done]. cbv zeta. destruct (_ && _) eqn:E; [|done].
  intros [= <-]. by apply andb_true_iff in E as [? ?%bool_decide_eq_true].
Qed.
#[local] Instance toy_executions : ExecutionCodec := {|
  execution_to_vec := execution_writer.1;
  execution_from_slice bytes := execution_writer.2 (unended bytes);
  event_to_vec := write_event;
  event_from_str line := event_writer.2 (unletters line);
  completion_to_vec := completion_writer.1;
  completion_from_slice bytes := completion_writer.2 (unended bytes);
  transition_to_vec _ := Ok [123; 125]%Z;
  transition_from_slice _ := Err "not a transition" |}.
#[local] Instance toy_clock : ExecutionClock := {| now_text _ := Ok "2026-01-01T00:00:00Z" |}.

Lemma good_line_checked line : good_line_check line = true -> good_line line.
Proof.
  unfold good_line_check. rewrite !andb_true_iff. intros [[[H1 H2] H3] H4].
  apply bool_decide_eq_true in H1, H2. split; try done. by apply negb_true_iff.
Qed.
#[local] Instance toy_executions_laws : ExecutionCodecLaws.
Proof.
  refine {| exact_cost := λ _, True |}.
  - intros e bytes Hb _ _. cbn. rewrite unended_snoc. by apply checked_round_trip in Hb as [? _].
  - intros c bytes Hb _ _. cbn. rewrite unended_snoc. by apply checked_round_trip in Hb as [? _].
  - intros ev line Hw. by apply written_event.
  - intros ev line Hw. by apply good_line_checked, written_event with ev.
Defined.

(** ** A Shot and its execution *)

Definition tree_a : string := String.concat "" (replicate 40 "a").
Definition tree_b : string := String.concat "" (replicate 40 "b").
Definition git_at (tree : string) : Git := {|
  git_output args :=
    match args with
    | "rev-parse" :: "--show-toplevel" :: _ => Ok "/shot"
    | "rev-parse" :: _ => Err (ExecGit "no commit yet")
    | "diff" :: "--name-status" :: _ => Ok (if tree == tree_a then "" else "M" +:+ string_of [9%Z] +:+ "main.swift" +:+ string_of [10%Z])
    | _ => Ok ""
    end;
  git_init := Err (ExecGit "git init was not expected");
  git_capture := {| gc_read_tree := Ok tt; gc_check_ignore := Ok (Some 1%Z); gc_add := Ok tt; gc_write_tree := Ok tree |} |}.
Definition claude : ResolvedHarness := {|
  rh_id := "claude"; rh_label := "Claude";
  rh_routes := [{| hr_id := "local"; hr_label := "Local"; hr_billing := "subscription"; hr_available := true;
                   hr_estimated_additional_cost_usd := None; hr_cost_estimation := false |}] |}.
Definition prepare_world : PrepareWorld := {|
  pw_resolved := Ok claude; pw_resolved_again := Ok claude; pw_git := git_at tree_a;
  pw_listing s := (map_to_list (sr_executions s)).*1 |}.
Definition preparation (ordinal : Z) : ExecutionPreparation := {|
  xp_app_name := "notebook"; xp_shot_id := shot; xp_version_ordinal := ordinal;
  xp_selection := {| hs_harness := "claude"; hs_model := "large"; hs_route := "local"; hs_adapter := None |};
  xp_intent_path := "intent.md"; xp_intention_digest := intention; xp_references := []; xp_mode := BirthMaterialization |}.
Definition empty_repository : ShotRepository := {|
  sr_kind := RealDir; sr_private := RealDir; sr_executions_dir := NoDir; sr_executions := ∅;
  sr_files := {["intent.md" := WorkspaceFile (bytes_of "a field notebook")]}; sr_calls := 0 |}.
Definition exec_a : string := String.concat "" (replicate 32 "a").
Definition exec_b : string := String.concat "" (replicate 32 "b").

Definition ran {E A} (x : ShotRepository * nat * Outcome E A) : bool := match x with (_, _, Returned (Ok _)) => true | _ => false end.
Definition left_by {E A} (x : ShotRepository * nat * Outcome E A) : ShotRepository := fst (fst x).
Definition prepare (id : string) (ordinal : Z) (t : nat) (s : ShotRepository) :=
  prepare_execution_with_id prepare_world 11 "/shot" (preparation ordinal) id t s.
Definition prepared_repository : ShotRepository := left_by (prepare exec_a 1 100 empty_repository).
Definition loaded (s : ShotRepository) (id : string) : PreparedExecution :=
  match load_execution s "/shot" id with Ok e => e | Err _ => execution_template id "" "" Conception None Prepared end.

Example prepares_again :
  ran (prepare exec_a 1 100 empty_repository) = true /\ ran (prepare exec_a 1 100 prepared_repository) = true /\
  ran (prepare exec_a 2 100 prepared_repository) = false /\ ran (prepare exec_b 2 100 prepared_repository) = false.
Proof. vm_compute. done. Qed.

(** The runner starts, and crashes after it published the completion. *)
Definition run_record : PreparedExecution := at_phase ExecutionStarted (loaded prepared_repository exec_a).
Definition start_run (t : nat) (s : ShotRepository) :=
  update_phase 12 (loaded s exec_a) ExecutionStarted "The unattended runner claimed the prepared Shot." t s.
Definition running : ShotRepository := left_by (start_run 100 prepared_repository).
Definition ending : Ending := {|
  ed_started_at := "2026-01-01T00:00:00Z"; ed_duration_seconds := 0; ed_exit_code := Some 0%Z; ed_cancelled := false;
  ed_accepted_version := true; ed_validation_passed := true; ed_validation_evidence := None |}.
Definition complete (t : nat) (s : ShotRepository) := complete_execution (git_at tree_b) 12 run_record ending t s.
Definition crashed : ShotRepository := left_by (complete 18 running).
Definition recover (t : nat) (s : ShotRepository) :=
  finalize_stalled_execution (git_at tree_b) (Ok (true, true, None)) 13 "/shot" exec_a "the runner stopped" t s.
Definition recovered : ShotRepository := left_by (recover 100 crashed).
Definition phase_in (s : ShotRepository) : ExecutionPhase := pe_phase (loaded s exec_a).
Definition published (s : ShotRepository) : bool := opt_is_some (file_of s exec_a xd_completion).
Definition journal_phases (s : ShotRepository) : list ExecutionPhase :=
  match read_events s "/shot" exec_a with Ok events => xe_phase <$> events | Err _ => [] end.
Example crash_then_recovery :
  (phase_in crashed, published crashed, journal_phases crashed)
    = (ValidationCompleted, true, [Prepared; ExecutionStarted; WorkspaceChanged; ValidationStarted; ValidationCompleted]) /\
  (phase_in recovered, journal_phases recovered)
    = (ExecutionCompleted, [Prepared; ExecutionStarted; WorkspaceChanged; ValidationStarted; ValidationCompleted; ExecutionCompleted]) /\
  journal_phases (left_by (recover 100 recovered)) = journal_phases recovered.
Proof. vm_compute. done. Qed.

(** [run_shot] refuses neither the phase between a published completion and the
    terminal phase, nor an execution that has a completion: run again there, the
    execution is repeated, and its published completion is replaced. *)
Definition failed_ending : Ending := {|
  ed_started_at := "2026-01-01T00:00:00Z"; ed_duration_seconds := 0; ed_exit_code := Some 1%Z; ed_cancelled := false;
  ed_accepted_version := false; ed_validation_passed := false; ed_validation_evidence := None |}.
Definition run_again : ShotRepository :=
  left_by (complete_execution (git_at tree_b) 14 run_record failed_ending 100 (left_by (start_run 100 crashed))).
Definition outcome_in (s : ShotRepository) : option (ExecutionOutcome * bool) :=
  match load_completion s "/shot" exec_a with Ok (Some c) => Some (cr_outcome c, cr_landed c) | _ => None end.
Example run_replaces_completion :
  run_admission (phase_in crashed) = RunStarts /\ outcome_in crashed = Some (OutcomeCompleted, true) /\
  outcome_in run_again = Some (OutcomeFailed, false).
Proof. vm_compute. done. Qed.

(** A crash in the preparation after its directory was made, and before its
    record was: the preparation cannot be repeated, nor any other be made. *)
Definition half_prepared : ShotRepository := left_by (prepare exec_a 1 3 empty_repository).
Example half_prepared_stops_preparations :
  snd (prepare exec_a 1 100 half_prepared) = Returned (Err (ExecIo ExecNotFound)) /\
  snd (prepare exec_b 1 100 half_prepared) = Returned (Err (ExecIo ExecNotFound)) /\
  ran (prepare exec_b 1 100 empty_repository) = true.
Proof. vm_compute. done. Qed.

(** ** Witnesses *)

Lemma toy_lists : lists prepare_world.
Proof.
  intros s name [e He]. cbn. apply list_elem_of_fmap. exists (name, e). by rewrite elem_of_map_to_list.
Qed.
Lemma toy_estimates p : estimates prepare_world p.
Proof. intros c Hc. exact I. Qed.
Abbreviation step := (fresh_step "/shot").
Lemma holding_step s r st' : exec_step "/shot" (s, r) st' -> r = snd st' \/ is_Some r -> step (s, r) st'.
Proof.
  intros Hstep Hr. split; [exact Hstep|]. unfold restart. cbn.
  destruct Hr as [->|[e ->]]; [destruct (snd st'); exact (λ x, x)|exact (λ x, x)].
Qed.
Lemma prepared_reached : reached "/shot" prepared_repository None.
Proof.
  exists empty_repository. split; [done|]. apply rtc_once. unfold prepared_repository, left_by, prepare.
  destruct (prepare_execution_with_id _ _ _ _ _ _ _) as [[s t] o] eqn:E. apply holding_step; [|by left].
  eapply step_prepare; [apply toy_lists|apply toy_estimates|exact E].
Qed.
(** The runner, from its start to its end. *)
Definition loads (s : ShotRepository) (id : string) : bool :=
  match load_execution s "/shot" id with
  | Ok e => match run_admission (pe_phase e) with RunRefused _ => false | _ => true end
              && negb (opt_is_some (file_of s (pe_execution_id e) xd_completion))
  | Err _ => false
  end.
Lemma loads_step s id : loads s id = true -> step (s, None) (s, Some (loaded s id)).
Proof.
  unfold loads, loaded. destruct (load_execution s "/shot" id) as [e|] eqn:E; [|done].
  intros [Ha Hf]%andb_true_iff. split.
  - eapply step_start; [exact E|]. intros message. by destruct (run_admission (pe_phase e)).
  - intros [f Hc]. cbn in Hc. by rewrite Hc in Hf.
Qed.
Definition returns_record (x : ShotRepository * nat * Outcome ShotExecutionError PreparedExecution) (e : PreparedExecution) : bool :=
  match x with (_, _, Returned (Ok e')) => bool_decide (e' = e) | _ => false end.
Lemma running_history : rtc step (prepared_repository, None) (running, Some run_record).
Proof.
  eapply rtc_l; [apply (loads_step prepared_repository exec_a); vm_compute; reflexivity|]. apply rtc_once.
  assert (returns_record (start_run 100 prepared_repository) run_record = true) as Hret by (vm_compute; reflexivity).
  unfold running, left_by, start_run in *.
  destruct (update_phase _ _ _ _ _ _) as [[s t] [|[e|error]]] eqn:E; try discriminate Hret.
  apply bool_decide_eq_true in Hret as ->.
  apply holding_step; [|right; by eexists].
  exact (step_phase "/shot" 12 (loaded prepared_repository exec_a) ExecutionStarted _ 100 prepared_repository s t _ eq_refl E).
Qed.
Lemma crashed_history : rtc step (running, Some run_record) (crashed, None).
Proof.
  apply rtc_once. unfold crashed, left_by, complete. destruct (complete_execution _ _ _ _ _ _) as [[s t] o] eqn:E.
  apply holding_step; [|right; by eexists]. eapply step_complete. exact E.
Qed.
Lemma recovered_history : rtc step (crashed, None) (recovered, None).
Proof.
  apply rtc_once. unfold recovered, left_by, recover. destruct (finalize_stalled_execution _ _ _ _ _ _ _ _) as [[s t] o] eqn:E.
  apply holding_step; [|by left]. eapply step_finalize. exact E.
Qed.
Lemma running_reached : reached "/shot" running None.
Proof.
  destruct prepared_reached as (s0&H0&Hrtc). exists s0. split; [done|]. etrans; [exact Hrtc|]. etrans; [exact running_history|].
  apply rtc_once, holding_step; [apply step_stop|right; by eexists].
Qed.
Lemma crashed_reached : reached "/shot" crashed None.
Proof.
  destruct prepared_reached as (s0&H0&Hrtc). exists s0. split; [done|]. etrans; [exact Hrtc|]. etrans; [exact running_history|].
  exact crashed_history.
Qed.

(** Run again between its completion and its terminal phase, the execution is a
    restart; until then the completion stood. *)
Lemma restarted_history : rtc (exec_step "/shot") (running, Some run_record) (crashed, Some (loaded crashed exec_a)).
Proof.
  etrans; [eapply rtc_subrel; [|exact crashed_history]; by intros x y []|]. apply rtc_once.
  assert (is_ok (load_execution crashed "/shot" exec_a) = true) as H1 by (vm_compute; reflexivity).
  assert (run_admission (phase_in crashed) = RunStarts) as H2 by (vm_compute; reflexivity).
  unfold phase_in, loaded in *. destruct (load_execution crashed "/shot" exec_a) as [e|] eqn:E; [|discriminate H1].
  eapply step_start; [exact E|]. intros message Hm. rewrite H2 in Hm. discriminate Hm.
Qed.
Lemma completion_is_final_witness : exists f, file_of crashed exec_a xd_completion = Some f /\
  (file_of recovered exec_a xd_completion = Some f \/
   exists s1 e1, pe_phase e1 = ValidationCompleted /\ load_execution s1 "/shot" (pe_execution_id e1) = Ok e1).
Proof.
  assert (opt_is_some (file_of crashed exec_a xd_completion) = true) as Hs by (vm_compute; reflexivity).
  destruct (file_of crashed exec_a xd_completion) as [f|] eqn:E; [|discriminate Hs]. exists f. split; [reflexivity|].
  assert (rtc (exec_step "/shot") (crashed, None) (recovered, None)) as Hh.
  { eapply rtc_subrel; [|exact recovered_history]. intros x y [Hxy _]. exact Hxy. }
  destruct (completion_is_final "/shot" crashed None recovered None exec_a f crashed_reached Hh E) as [[Hf _]|(s1&e1&_&_&Hl&Hp&_)].
  - left. exact Hf.
  - right. exists s1, e1. exact (conj Hp Hl).
Defined.

Lemma crashed_open : open_execution crashed exec_a.
Proof.
  assert (match directory_of crashed exec_a with Some d => open_directory d | None => false end = true) as Ho by (vm_compute; reflexivity).
  destruct (directory_of crashed exec_a) as [d|] eqn:E; [|discriminate Ho]. exists d. exact (conj E Ho).
Qed.
Lemma executions_disciplined_witness : open_execution crashed exec_a /\
  (forall b, open_execution crashed b -> exec_a = b) /\
  (forall events, read_events running "/shot" exec_a = Ok events -> forall events', read_events crashed "/shot" exec_a = Ok events' ->
     events `prefix_of` events').
Proof.
  split; [exact crashed_open|].
  destruct (executions_disciplined "/shot" running (Some run_record) crashed None) as [Hone Hall].
  - destruct prepared_reached as (s0&H0&Hrtc). exists s0. split; [exact H0|]. etrans; [exact Hrtc|exact running_history].
  - exact crashed_history.
  - split; [intros b; exact (Hone exec_a b crashed_open)|].
    assert (is_ok (load_execution running "/shot" exec_a) = true) as H1 by (vm_compute; reflexivity).
    assert (is_ok (load_execution crashed "/shot" exec_a) = true) as H2 by (vm_compute; reflexivity).
    destruct (load_execution running "/shot" exec_a) as [e|] eqn:E1; [|discriminate H1].
    destruct (load_execution crashed "/shot" exec_a) as [e'|] eqn:E2; [|discriminate H2].
    destruct (Hall exec_a e E1) as (_&_&Hlater). destruct (Hlater e' E2) as (_&_&Hprefix).
    intros events Hev events' Hev'. exact (Hprefix events events' Hev Hev').
Defined.

Lemma reserved_identity_binds_witness :
  left_by (prepare exec_a 1 100 running) = running /\ load_execution running "/shot" exec_a = Ok run_record.
Proof.
  assert (returns_record (prepare exec_a 1 100 empty_repository) (loaded prepared_repository exec_a) = true) as H1 by (vm_compute; reflexivity).
  assert (returns_record (prepare exec_a 1 100 running) run_record = true) as H2 by (vm_compute; reflexivity).
  unfold left_by, prepare in *.
  destruct (prepare_execution_with_id prepare_world 11 "/shot" (preparation 1) exec_a 100 running) as [[s3 t3] [|[e2|error]]] eqn:E2;
    try discriminate H2.
  destruct (prepare_execution_with_id prepare_world 11 "/shot" (preparation 1) exec_a 100 empty_repository) as [[s1 t1] [|[e1|error]]] eqn:E1;
    try discriminate H1.
  assert (prepared_repository = s1) as Es1 by (unfold prepared_repository, left_by, prepare; rewrite E1; reflexivity).
  assert (reached "/shot" empty_repository None) as H0 by (exists empty_repository; split; [reflexivity|apply rtc_refl]).
  assert (rtc step (s1, None) (running, Some run_record)) as Hh by (rewrite <- Es1; exact running_history).
  destruct (reserved_identity_binds "/shot" empty_repository None prepare_world 11 (preparation 1) exec_a 100 s1 t1 e1 running
    (Some run_record) prepare_world 11 (preparation 1) 100 s3 t3 (Returned (Ok e2)) H0 toy_lists (toy_estimates _) toy_lists
    (toy_estimates _) E1 Hh E2) as [-> [Hl _]].
  apply bool_decide_eq_true in H2. rewrite H2 in Hl. split; [reflexivity|exact Hl].
Defined.

(** What the recovery of the running execution writes can be written. *)
Definition stalled : Ending :=
  stalled_ending run_record (match read_events running "/shot" exec_a with Ok events => events | Err _ => [] end)
    (Ok (true, true, None)) "the runner stopped".
Definition changed : list ChangedFile := [{| cf_status := "M"; cf_path := "main.swift"; cf_additions := None; cf_deletions := None |}].
Definition record_fits (phase : ExecutionPhase) : bool :=
  match execution_to_vec (at_phase phase run_record) with
  | Ok bytes => (file_size (bytes ++ [10%Z]) <=? MAX_EXECUTION_RECORD_BYTES)%Z | Err _ => false end.
Definition event_fits (n : nat) (event : ExecutionPhase * string) : bool :=
  match event_to_vec (new_event (at_phase (fst event) run_record) (fst event) (snd event) (Z.of_nat n + 1) "2026-01-01T00:00:00Z") with
  | Ok line => (file_size (line ++ [10%Z]) <=? EVENT_ROOM)%Z | Err _ => false end.
Definition completion_check : bool :=
  match completion_to_vec (completion_of run_record stalled changed "" tree_b "2026-01-01T00:00:00Z" None) with
  | Ok bytes => (file_size (bytes ++ [10%Z]) <=? MAX_COMPLETION_RECORD_BYTES)%Z | Err _ => false end.
Lemma git_answers_changed tree files : git_answers (git_at tree_b) run_record tree files -> tree = tree_b /\ files = changed.
Proof.
  intros [Ht Hf]. assert (capture_tree (git_capture (git_at tree_b)) = Ok tree_b) as E by (vm_compute; reflexivity).
  rewrite E in Ht. injection Ht as <-. split; [done|].
  assert (git_changed_files (git_at tree_b) (gb_tree (pe_baseline run_record)) tree_b = Ok changed) as E' by (vm_compute; reflexivity).
  rewrite E' in Hf. by injection Hf as <-.
Qed.
Lemma recovery_fits : forallb record_fits all_phases && completion_check
  && forallb (λ n, forallb (event_fits n) (completion_events run_record stalled changed)) (seq 2 4) = true.
Proof. vm_compute. reflexivity. Qed.
Lemma running_completable : completable running (git_at tree_b) 2 run_record stalled.
Proof.
  pose proof recovery_fits as Hfits. rewrite !andb_true_iff, !List.forallb_forall in Hfits. destruct Hfits as [[Hrec Hcomp] Hev]. split.
  - exists tree_b, changed. split; vm_compute; reflexivity.
  - intros tree files _. reflexivity.
  - intros tree files _. reflexivity.
  - intros phase _. assert (record_fits phase = true) as Hp by (apply Hrec; destruct phase; cbn; tauto).
    unfold record_fits in Hp. destruct (execution_to_vec (at_phase phase run_record)) as [bytes|] eqn:E; [|discriminate Hp].
    exists bytes. split; [done|]. by apply Z.leb_le.
  - intros tree files events phase report Hgit Hn Hin _ k ts Hts. destruct (git_answers_changed _ _ Hgit) as [-> ->].
    injection Hts as <-. assert (event_fits (length events) (phase, report) = true) as Hp.
    { assert (forallb (event_fits (length events)) (completion_events run_record stalled changed) = true) as Hl
        by (apply Hev, List.in_seq; lia).
      rewrite List.forallb_forall in Hl. by apply Hl, list_elem_of_In. }
    unfold event_fits in Hp. cbn [fst snd] in Hp. unfold event_after. destruct (event_to_vec _) as [line|] eqn:E; [|discriminate Hp].
    exists line. split; [done|]. by apply Z.leb_le.
  - intros tree files summary log k ended_at Hgit Hsum Hts. destruct (git_answers_changed _ _ Hgit) as [-> ->].
    injection Hts as <-. injection Hsum as <-. unfold completion_check in Hcomp. change (trim_text "") with "".
    change (read_harness_usage (pe_harness run_record) log) with (@None HarnessUsage).
    destruct (completion_to_vec _) as [bytes|] eqn:E; [|discriminate Hcomp]. exists bytes. split; [done|]. by apply Z.leb_le.
Qed.
Definition events_fit (d : ExecutionDirectory) : bool :=
  negb (opt_is_some (xd_temporaries d !! 13%Z)) && (events_size d + 4 * EVENT_ROOM <=? MAX_EXECUTION_EVENTS_BYTES)%Z.
Lemma recovery_settles_witness : exists c e', load_completion (left_by (recover 100 running)) "/shot" exec_a = Ok (Some c) /\
  load_execution (left_by (recover 100 running)) "/shot" exec_a = Ok e' /\ pe_phase e' = completion_phase c.
Proof.
  assert (is_ok (load_execution running "/shot" exec_a) = true) as H1 by (vm_compute; reflexivity).
  assert (match load_execution running "/shot" exec_a with Ok e => bool_decide (e = run_record) && bool_decide (with_process None e = e) | Err _ => false end = true)
    as H2 by (vm_compute; reflexivity).
  assert (match read_events running "/shot" exec_a with Ok events => length events =? 2 | Err _ => false end = true) as H3 by (vm_compute; reflexivity).
  assert (opt_is_some (file_of running exec_a xd_completion) = false) as H4 by (vm_compute; reflexivity).
  assert (match directory_of running exec_a with Some d => events_fit d | None => false end = true) as H5 by (vm_compute; reflexivity).
  destruct (load_execution running "/shot" exec_a) as [e|] eqn:Eload; [|discriminate H1].
  apply andb_true_iff in H2 as [H2 H2']. apply bool_decide_eq_true in H2, H2'. rewrite H2 in Eload, H2'.
  pose proof running_completable as Hcm. unfold stalled in Hcm.
  destruct (read_events running "/shot" exec_a) as [events|] eqn:Eread; [|discriminate H3]. apply Nat.eqb_eq in H3. rewrite <- H3 in Hcm.
  assert (forall n, is_ok (now_text n) = true) as Hclock by (intros n; reflexivity).
  assert (forall d, directory_of running exec_a = Some d -> xd_temporaries d !! 13%Z = None /\
    (events_size d + 4 * EVENT_ROOM <= MAX_EXECUTION_EVENTS_BYTES)%Z) as Hroom.
  { intros d Hd. rewrite Hd in H5. apply andb_true_iff in H5 as [H5 H6]. split; [|by apply Z.leb_le].
    destruct (xd_temporaries d !! 13%Z); [discriminate H5|reflexivity]. }
  assert (recovery_supported running run_record events (git_at tree_b) (Ok (true, true, None)) "the runner stopped"
    (file_of running exec_a xd_completion)) as Hrec.
  { destruct (file_of running exec_a xd_completion) as [f|]; [discriminate H4|]. split; [intros bytes c Hf; discriminate Hf|].
    intros _. split; [intros Hnil; rewrite Hnil in H3; discriminate H3|]. rewrite H2'. exact Hcm. }
  assert (27 <= 100) as Hticks by (apply Nat.leb_le; reflexivity).
  destruct (recovery_settles "/shot" running None exec_a run_record events (git_at tree_b) (Ok (true, true, None)) "the runner stopped" 13 100
    running_reached Eload Eread Hclock Hroom Hrec Hticks) as (s'&t'&c&e'&events'&Hrun&Hc&He&Hp&_).
  unfold recover, left_by. rewrite Hrun. cbn [fst]. exists c, e'. exact (conj Hc (conj He Hp)).
Defined.
