(* ===== verification/Ledger.v ===== *)
(** * The ledger of apps

    [engine/src/ledger.rs]: the family folder, each child of it an app's visible
    folder that carries its own ledger [.tohseno/] with [app.toml] and the Versions
    [evolutions/0001], [0002], ...; a Version is sealed by its file [.complete]. An
    operation is a sequence of changes, each one a system call, after which the
    process may crash; one process at a time changes an app (the lock of
    [lock_app]). TOML and JSON, Unicode's lower case, the clock's answers, random
    identifiers and the order of [read_dir] are parameters or arguments. The two
    roots are distinct, and a link among them is not followed. Copies of the
    working tree ([snapshot_working_tree], [checkout_working_tree]) and the
    migration of version 0.6, the lock file, permissions and fsync are not
    modelled. *)
From S2P Require Import Prelude CrashIo Text Digest Keys Records Lineage Reduction FileTree ExecutionModel.

Definition APP_RECORD_LIMIT : Z := 1024 * 1024.
Definition PROTOCOL_JSON_LIMIT : Z := 4 * 1024 * 1024.
Definition COMPLETE_MARKER : list Z := bytes_of "complete" ++ [10%Z].
Definition RESERVED_APP_NAMES : list string := ["identity"; "locks"; "walls"; "apps"; "config"; "incomplete"].

(** The kinds of [io::Error] met here. *)
Inductive LedgerIoError :=
  | LedgerNotFound | LedgerAlreadyExists | LedgerNotDirectory | LedgerIsDirectory | LedgerLink
  | LedgerUnsafePath | LedgerInvalidData | LedgerVersionMissing (number : Z).
Inductive LedgerError :=
  | LedgerIo (error : LedgerIoError)
  | TomlDecode (error : string)
  | TomlEncode (error : string)
  | InvalidName (name : string)
  | AppExists (name : string)
  | AppMissing (name : string)
  | ShotFinalized (number : Z)
  | LedgerCorrupt (message : string).
Abbreviation ledger_result := (Result LedgerError).
Definition ledger_corrupt {T} (message : string) : ledger_result T := Err (LedgerCorrupt message).
Definition unsafe_path_error : LedgerError := LedgerIo LedgerUnsafePath.

Record AppRecord := {
  ar_name : string;
  ar_target_name : option string;
  ar_bundle_id : string;
  ar_created_at_unix : Z;
  ar_latest_evolution : option Z;
  ar_shot_id : option ShotId;
  ar_builder_id : option BuilderId;
  ar_expression_id : option ExpressionId;
  ar_retired : bool;
  ar_parents : gmap string Z }.
#[export] Instance AppRecord_eq_dec : EqDecision AppRecord.
Proof. solve_decision. Defined.
Definition target_name (r : AppRecord) : string := default (ar_name r) (ar_target_name r).

Definition set_history (latest : option Z) (parents : gmap string Z) (r : AppRecord) : AppRecord := {|
  ar_name := ar_name r; ar_target_name := ar_target_name r; ar_bundle_id := ar_bundle_id r;
  ar_created_at_unix := ar_created_at_unix r; ar_latest_evolution := latest; ar_shot_id := ar_shot_id r;
  ar_builder_id := ar_builder_id r; ar_expression_id := ar_expression_id r; ar_retired := ar_retired r;
  ar_parents := parents |}.
Definition set_identity (shot : option ShotId) (builder : option BuilderId) (expression : option ExpressionId)
    (r : AppRecord) : AppRecord := {|
  ar_name := ar_name r; ar_target_name := ar_target_name r; ar_bundle_id := ar_bundle_id r;
  ar_created_at_unix := ar_created_at_unix r; ar_latest_evolution := ar_latest_evolution r; ar_shot_id := shot;
  ar_builder_id := builder; ar_expression_id := expression; ar_retired := ar_retired r;
  ar_parents := ar_parents r |}.
Definition with_latest (number : Z) (r : AppRecord) : AppRecord := set_history (Some number) (ar_parents r) r.
Definition with_parent (number parent : Z) (r : AppRecord) : AppRecord :=
  set_history (ar_latest_evolution r) (<[pretty number := parent]> (ar_parents r)) r.
Definition with_retired (retired : bool) (r : AppRecord) : AppRecord := {|
  ar_name := ar_name r; ar_target_name := ar_target_name r; ar_bundle_id := ar_bundle_id r;
  ar_created_at_unix := ar_created_at_unix r; ar_latest_evolution := ar_latest_evolution r;
  ar_shot_id := ar_shot_id r; ar_builder_id := ar_builder_id r; ar_expression_id := ar_expression_id r;
  ar_retired := retired; ar_parents := ar_parents r |}.
(** What [load_app] makes of the record of a folder that was renamed. *)
Definition renamed_record (name : string) (r : AppRecord) : AppRecord :=
  if ar_name r == name then r else {|
    ar_name := name; ar_target_name := Some (target_name r); ar_bundle_id := ar_bundle_id r;
    ar_created_at_unix := ar_created_at_unix r; ar_latest_evolution := ar_latest_evolution r;
    ar_shot_id := ar_shot_id r; ar_builder_id := ar_builder_id r; ar_expression_id := ar_expression_id r;
    ar_retired := ar_retired r; ar_parents := ar_parents r |}.

Record AppEvolution := {
  ae_app_name : string;
  ae_number : Z;
  ae_path : string }.

(** ** The family folder *)

(** A path below a Version's directory, by its names; what is below a link is
    what it leads to. *)
Inductive TreeNode := TreeFile (bytes : list Z) | TreeDir | TreeOther.
#[export] Instance TreeNode_eq_dec : EqDecision TreeNode.
Proof. solve_decision. Defined.
Abbreviation VersionFiles := (gmap (list string) TreeNode).
Inductive VersionEntry := VersionDir (files : VersionFiles) | VersionLink (leads_somewhere : bool) | VersionOther.
(** [.tohseno/]; the temporary files of [app.toml] are by process and ordinal. *)
Record LedgerFolder := {
  lf_record : option PrivateFile;
  lf_temporaries : gmap (Z * nat) (list Z);
  lf_evolutions_dir : DirKind;
  lf_evolutions : gmap string VersionEntry;
  lf_incomplete_dir : DirKind;
  lf_incomplete : gmap string VersionEntry }.
Definition empty_ledger_folder : LedgerFolder := {|
  lf_record := None; lf_temporaries := ∅; lf_evolutions_dir := NoDir; lf_evolutions := ∅;
  lf_incomplete_dir := NoDir; lf_incomplete := ∅ |}.
Inductive LedgerEntry := NoLedger | LedgerDir (f : LedgerFolder) | UnsafeLedger.
Inductive AppEntry := AppDir (ledger : LedgerEntry) | OtherApp.
Record Family := {
  fm_root : DirKind;
  fm_machine_root : DirKind;
  fm_locks : DirKind;
  fm_apps : gmap string AppEntry }.

Definition set_apps (m : gmap string AppEntry) (s : Family) : Family :=
  {| fm_root := fm_root s; fm_machine_root := fm_machine_root s; fm_locks := fm_locks s; fm_apps := m |}.
Definition set_roots (root machine locks : DirKind) (s : Family) : Family :=
  {| fm_root := root; fm_machine_root := machine; fm_locks := locks; fm_apps := fm_apps s |}.
Definition on_folder (name : string) (f : LedgerFolder -> LedgerFolder) (s : Family) : Family :=
  set_apps (alter (λ e, match e with AppDir (LedgerDir d) => AppDir (LedgerDir (f d)) | e => e end) name (fm_apps s)) s.
Definition folder_of (s : Family) (name : string) : option LedgerFolder :=
  match fm_apps s !! name with Some (AppDir (LedgerDir f)) => Some f | _ => None end.

Definition set_record (record : option PrivateFile) (temporaries : gmap (Z * nat) (list Z)) (f : LedgerFolder)
    : LedgerFolder := {|
  lf_record := record; lf_temporaries := temporaries; lf_evolutions_dir := lf_evolutions_dir f;
  lf_evolutions := lf_evolutions f; lf_incomplete_dir := lf_incomplete_dir f; lf_incomplete := lf_incomplete f |}.
Definition set_versions (evolutions_dir : DirKind) (evolutions : gmap string VersionEntry) (incomplete_dir : DirKind)
    (incomplete : gmap string VersionEntry) (f : LedgerFolder) : LedgerFolder := {|
  lf_record := lf_record f; lf_temporaries := lf_temporaries f; lf_evolutions_dir := evolutions_dir;
  lf_evolutions := evolutions; lf_incomplete_dir := incomplete_dir; lf_incomplete := incomplete |}.
Definition set_ledger_evolutions (m : gmap string VersionEntry) (f : LedgerFolder) : LedgerFolder :=
  set_versions (lf_evolutions_dir f) m (lf_incomplete_dir f) (lf_incomplete f) f.
Definition on_version (number : Z) (g : VersionFiles -> VersionFiles) (f : LedgerFolder) : LedgerFolder :=
  set_ledger_evolutions (alter (λ e, match e with VersionDir files => VersionDir (g files) | e => e end) (padded4 number)
                    (lf_evolutions f)) f.
Definition version_entry (s : Family) (name : string) (number : Z) : option VersionEntry :=
  f ← folder_of s name; lf_evolutions f !! padded4 number.
Definition version_files (s : Family) (name : string) (number : Z) : option VersionFiles :=
  match version_entry s name number with Some (VersionDir files) => Some files | _ => None end.

(** [for ordinal in 1_u32..] *)
Fixpoint first_free (taken : nat -> bool) (fuel ordinal : nat) : option nat :=
  match fuel with
  | O => None
  | S fuel => if taken ordinal then first_free taken fuel (S ordinal) else Some ordinal
  end.

(** ** Names *)

(** [char::to_lowercase] of the characters that are not ASCII. *)
Class CharCase := { lowercase_table : Z -> list Z }.

Section names.
Context `{CharCase}.

Definition char_to_lowercase (c : Z) : list Z :=
  if (c <? 128)%Z then [ascii_lowercase_byte c] else lowercase_table c.
Definition DASH : Z := 45.
Fixpoint sanitize_loop (cs sanitized : list Z) (last_was_dash : bool) : list Z :=
  match cs with
  | [] => sanitized
  | c :: cs =>
      if is_ascii_alphanumeric c then sanitize_loop cs (sanitized ++ [c]) false
      else if negb last_was_dash && (sanitized != []) then sanitize_loop cs (sanitized ++ [DASH]) true
      else sanitize_loop cs sanitized last_was_dash
  end.
Fixpoint trim_dashes (cs : list Z) : list Z :=
  match cs with c :: r => if (c =? DASH)%Z then trim_dashes r else cs | [] => [] end.
Definition sanitize_component (value : string) : string :=
  let sanitized := sanitize_loop (concat (char_to_lowercase <$> chars (bytes_of value))) [] false in
  string_of (rev (trim_dashes (rev (trim_dashes sanitized)))).
Definition validate_app_name (name : string) : ledger_result unit :=
  fail_if ((name == "") || (63 <? len name)%nat || (sanitize_component name != name)
           || bool_decide (name ∈ RESERVED_APP_NAMES)
           || negb (is_some_and is_ascii_alphanumeric (head (chars (bytes_of name)))))
    (InvalidName name).

(** ** The record *)

(** The order of a [BTreeMap] by its keys. *)
Definition parent_leb (a b : string * Z) : bool := bytes_leb (bytes_of (fst a)) (bytes_of (fst b)).
Definition check_parent (expected_name : string) (link : string * Z) : ledger_result unit :=
  let '(child, parent) := link in
  child ← ok_or (LedgerCorrupt (expected_name +:+ " has a non-integer parent key"))
            (parse_unsigned U32_MAX (bytes_of child));
  fail_if ((child =? 0)%Z || (parent =? 0)%Z || (child <=? parent)%Z)
    (LedgerCorrupt (expected_name +:+ " has invalid parent linkage " +:+ pretty parent +:+ " -> " +:+ pretty child)).
Definition validate_app_record_at (r : AppRecord) (expected_name : string) : ledger_result unit :=
  validate_app_name expected_name ;;
  validate_app_name (ar_name r) ;;
  match ar_target_name r with Some target => validate_app_name target | None => Ok tt end ;;
  fail_if (is_some_and expression_is_zero (ar_expression_id r)) (LedgerCorrupt "app.toml contains a zero ExpressionID") ;;
  fail_if ((ar_bundle_id r == "") || (255 <? len (ar_bundle_id r))%nat
           || existsb is_control (chars (bytes_of (ar_bundle_id r))))
    (LedgerCorrupt (expected_name +:+ " has an invalid bundle identifier")) ;;
  fail_if ((ar_created_at_unix r =? 0)%Z || (ar_latest_evolution r == Some 0%Z))
    (LedgerCorrupt (expected_name +:+ " has invalid ledger chronology")) ;;
  let partial := LedgerCorrupt (expected_name +:+ " has a partial or invalid protocol identity") in
  match ar_shot_id r, ar_builder_id r with
  | None, None => Ok tt
  | Some shot, Some builder => fail_if (shot_is_zero shot || negb (is_ok (builder_validate builder))) partial
  | _, _ => Err partial
  end ;;
  for_each (check_parent expected_name) (stable_sort parent_leb (map_to_list (ar_parents r))).
Definition validate_app_record (r : AppRecord) (expected_name : string) : ledger_result unit :=
  validate_app_record_at r expected_name ;;
  fail_if (ar_name r != expected_name)
    (LedgerCorrupt ("app.toml names " +:+ ar_name r +:+ " inside the " +:+ expected_name +:+ " directory")).
Definition next_app_sequence (r : AppRecord) : ledger_result Z :=
  ok_or (LedgerCorrupt (ar_name r +:+ " exhausted the shot sequence"))
    (checked_add_u32 (default 0%Z (ar_latest_evolution r)) 1).
End names.

(** [toml] and [serde_json]. *)
Class LedgerCodec := {
  app_to_toml : AppRecord -> Result string (list Z);
  app_from_toml : list Z -> Result string AppRecord;
  shot_record_from_slice : list Z -> Result string ShotRecord;
  sidecar_from_slice : list Z -> Result string SignatureSidecar }.

Abbreviation Io := (Crashing Family LedgerError).

Section ledger.
Context `{Platform} `{CharCase} `{LedgerCodec}.
(** The family's root, as a path; a separator more or less in a path is no
    difference to [same_path]. *)
Variable root : string.

Definition app_dir (name : string) : string := root +:+ "/" +:+ name.
Definition tohseno_dir (name : string) : string := app_dir name +:+ "/.tohseno".
Definition evolutions_dir (name : string) : string := tohseno_dir name +:+ "/evolutions".
Definition evolution_at (name : string) (number : Z) : AppEvolution :=
  {| ae_app_name := name; ae_number := number; ae_path := evolutions_dir name +:+ "/" +:+ padded4 number |}.

(** ** Reading *)

Definition require_real_directory (kind : DirKind) : ledger_result unit :=
  match kind with
  | NoDir => Err (LedgerIo LedgerNotFound)
  | UnsafeDir => Err unsafe_path_error
  | RealDir => Ok tt
  end.
Definition number_text (prefix : string) (number : Z) (suffix : string) : string := prefix +:+ pretty number +:+ suffix.

(** [has_valid_completion_marker] of a Version's directory. *)
Definition has_valid_completion_marker (files : VersionFiles) (number : Z) : ledger_result bool :=
  match files !! [".complete"] with
  | None => Ok false
  | Some (TreeFile bytes) =>
      fail_if (bytes != COMPLETE_MARKER) (LedgerCorrupt (number_text "shot " number " has an invalid completion marker")) ;;
      Ok true
  | Some _ => ledger_corrupt (number_text "shot " number " has an invalid completion marker")
  end.
Definition require_real_shot_directory (entry : option VersionEntry) (number : Z) : ledger_result VersionFiles :=
  match entry with
  | None => ledger_corrupt (number_text "shot " number " directory is missing")
  | Some (VersionDir files) => Ok files
  | Some _ => ledger_corrupt (number_text "shot " number " is not a real directory")
  end.

(** The directories that [load_app] asks for. *)
Definition open_ledger (s : Family) (name : string) : ledger_result LedgerFolder :=
  validate_app_name name ;;
  require_real_directory (fm_root s) ;;
  match fm_apps s !! name with
  | None => Err (AppMissing name)
  | Some OtherApp => Err unsafe_path_error
  | Some (AppDir NoLedger) => Err (AppMissing name)
  | Some (AppDir UnsafeLedger) => Err unsafe_path_error
  | Some (AppDir (LedgerDir f)) =>
      match lf_evolutions_dir f with
      | NoDir => Err (AppMissing name)
      | UnsafeDir => Err unsafe_path_error
      | RealDir => Ok f
      end
  end.
Definition file_len (bytes : list Z) : Z := Z.of_nat (length bytes).
Definition read_app_record (s : Family) (name : string) : ledger_result AppRecord :=
  f ← open_ledger s name;
  bytes ← match lf_record f with
    | None => Err (AppMissing name)
    | Some SpecialFile => ledger_corrupt (name +:+ "/app.toml is not a bounded regular file")
    | Some (PrivateBytes bytes) =>
        fail_if (APP_RECORD_LIMIT <? file_len bytes)%Z
          (LedgerCorrupt (name +:+ "/app.toml is not a bounded regular file")) ;;
        Ok bytes
    end;
  fail_if (negb (utf8_valid bytes)) (LedgerIo LedgerInvalidData) ;;
  r ← map_err TomlDecode (app_from_toml bytes);
  validate_app_record_at r name ;;
  Ok r.

Definition assert_writable (s : Family) (shot : AppEvolution) : ledger_result VersionFiles :=
  let name := ae_app_name shot in let number := ae_number shot in
  validate_app_name name ;;
  fail_if (number =? 0)%Z (LedgerCorrupt "shot sequence must be at least 1") ;;
  f ← ok_or (LedgerIo LedgerNotFound) (folder_of s name);
  require_real_directory (lf_evolutions_dir f) ;;
  fail_if (negb (same_path (ae_path shot) (ae_path (evolution_at name number))))
    (LedgerCorrupt (number_text "shot " number " has a path outside its ledger sequence")) ;;
  files ← require_real_shot_directory (lf_evolutions f !! padded4 number) number;
  fail_if (opt_is_some (files !! [".complete"])) (ShotFinalized number) ;;
  Ok files.

Definition find_evolution (s : Family) (name : string) (number : Z) : ledger_result AppEvolution :=
  validate_app_name name ;;
  fail_if (number =? 0)%Z (LedgerCorrupt "shot sequence must be at least 1") ;;
  match version_entry s name number with
  | Some (VersionDir _) => Ok (evolution_at name number)
  | Some _ => ledger_corrupt (number_text "shot " number " is not a real directory")
  | None => Err (LedgerIo (LedgerVersionMissing number))
  end.

(** ** Writing [app.toml] *)

Definition taken_temporary (f : LedgerFolder) (pid : Z) (ordinal : nat) : bool :=
  opt_is_some (lf_temporaries f !! (pid, ordinal)).
Definition tohseno_folder (s : Family) (name : string) : ledger_result LedgerFolder :=
  match fm_apps s !! name with
  | Some (AppDir (LedgerDir f)) => Ok f
  | Some (AppDir UnsafeLedger) => Err unsafe_path_error
  | Some OtherApp => Err (LedgerIo LedgerNotDirectory)
  | _ => Err (LedgerIo LedgerNotFound)
  end.
(** By the process [pid]. *)
Definition write_app_record (pid : Z) (r : AppRecord) : Io unit :=
  let name := ar_name r in
  lift (validate_app_record r name) ;;
  f ← gets (λ s, tohseno_folder s name);
  lift (fail_if (lf_record f == Some SpecialFile) (LedgerCorrupt (name +:+ "/app.toml is unsafe"))) ;;
  encoded ← lift (map_err TomlEncode (app_to_toml r));
  ordinal ← lift (ok_or (LedgerIo LedgerAlreadyExists)
                    (first_free (taken_temporary f pid) (S (size (lf_temporaries f))) 1));
  let temporary := (pid, ordinal) in
  change (on_folder name (λ f, set_record (lf_record f) (<[temporary := []]> (lf_temporaries f)) f)) ;;
  change (on_folder name (λ f, set_record (lf_record f) (<[temporary := encoded]> (lf_temporaries f)) f)) ;;
  change (on_folder name (λ f, set_record (Some (PrivateBytes encoded)) (delete temporary (lf_temporaries f)) f)).

(** ** Loading *)

Definition recover_interrupted_finalization (pid : Z) (r : AppRecord) : Io AppRecord :=
  let name := ar_name r in
  gets (λ s, match ar_latest_evolution r with
    | Some number =>
        files ← require_real_shot_directory (version_entry s name number) number;
        marked ← has_valid_completion_marker files number;
        fail_if (negb marked)
          (LedgerCorrupt (number_text "app.toml recognizes shot " number ", but its completion marker is missing"))
    | None => Ok tt
    end) ;;
  match checked_add_u32 (default 0%Z (ar_latest_evolution r)) 1 with
  | None => mret r
  | Some number =>
      sealed ← gets (λ s, match version_entry s name number with
        | None => Ok false
        | Some (VersionDir files) => has_valid_completion_marker files number
        | Some _ => ledger_corrupt (number_text "next shot " number " is not a real directory")
        end);
      if sealed : bool then write_app_record pid (with_latest number r) ;; mret (with_latest number r)
      else mret r
  end.
Definition load_app (pid : Z) (name : string) : Io AppRecord :=
  found ← gets (λ s, read_app_record s name);
  r ← recover_interrupted_finalization pid (renamed_record name found);
  io_when (ar_name found != name) (write_app_record pid r) ;;
  mret r.

(** ** Creating and adopting *)

Definition initialize_root (kind : Family -> DirKind) (create : Family -> Family) : Io unit :=
  found ← gets (λ s, Ok (kind s));
  match found with
  | RealDir => mret tt
  | UnsafeDir => lift (Err unsafe_path_error)
  | NoDir => change create
  end.
Definition initialize_ledger : Io unit :=
  initialize_root fm_root (λ s, set_roots RealDir (fm_machine_root s) (fm_locks s) s) ;;
  initialize_root fm_machine_root (λ s, set_roots (fm_root s) RealDir (fm_locks s) s) ;;
  initialize_root fm_locks (λ s, set_roots (fm_root s) (fm_machine_root s) RealDir s).
Definition new_app_record (name bundle_id : string) (now : Z) : AppRecord := {|
  ar_name := name; ar_target_name := Some name; ar_bundle_id := bundle_id; ar_created_at_unix := now;
  ar_latest_evolution := None; ar_shot_id := None; ar_builder_id := None; ar_expression_id := None;
  ar_retired := false; ar_parents := ∅ |}.
(** The ledger inside an app's folder. *)
Definition create_ledger (pid : Z) (name bundle_id : string) (now : Z) : Io AppRecord :=
  change (λ s, set_apps (<[name := AppDir (LedgerDir empty_ledger_folder)]> (fm_apps s)) s) ;;
  change (on_folder name (λ f, set_versions RealDir (lf_evolutions f) (lf_incomplete_dir f) (lf_incomplete f) f)) ;;
  write_app_record pid (new_app_record name bundle_id now) ;;
  mret (new_app_record name bundle_id now).
Definition create_app (pid : Z) (name bundle_id : string) (now : Z) : Io AppRecord :=
  lift (validate_app_name name) ;;
  initialize_ledger ;;
  gets (λ s, fail_if (opt_is_some (fm_apps s !! name)) (AppExists name)) ;;
  change (λ s, set_apps (<[name := AppDir NoLedger]> (fm_apps s)) s) ;;
  create_ledger pid name bundle_id now.
Definition adopt_app (pid : Z) (name bundle_id : string) (now : Z) : Io AppRecord :=
  lift (validate_app_name name) ;;
  initialize_ledger ;;
  gets (λ s, match fm_apps s !! name with
    | None => Err (LedgerIo LedgerNotFound)
    | Some OtherApp => Err unsafe_path_error
    | Some (AppDir NoLedger) => Ok tt
    | Some (AppDir _) => Err (AppExists name)
    end) ;;
  create_ledger pid name bundle_id now.

(** ** Reserving *)

(** [path.exists()], which follows a link. *)
Definition entry_exists (e : option VersionEntry) : bool :=
  match e with None => false | Some (VersionLink leads) => leads | Some _ => true end.
Definition attempt_name (number now : Z) (ordinal : nat) : string :=
  padded4 number +:+ "-attempt-" +:+ pretty now +:+ "-" +:+ padded4 (Z.of_nat ordinal).
(** [archive_root] is a directory, or a link to one. *)
Definition archive_incomplete_evolution (name : string) (number now : Z) : Io unit :=
  f ← gets (λ s, ok_or (LedgerIo LedgerNotFound) (folder_of s name));
  io_when (lf_incomplete_dir f == NoDir)
    (change (on_folder name (λ f, set_versions (lf_evolutions_dir f) (lf_evolutions f) RealDir (lf_incomplete f) f))) ;;
  ordinal ← lift (ok_or (LedgerIo LedgerAlreadyExists)
    (first_free (λ ordinal, entry_exists (lf_incomplete f !! attempt_name number now ordinal))
       (S (size (lf_incomplete f))) 1));
  let destination := attempt_name number now ordinal in
  lift (match lf_evolutions f !! padded4 number, lf_incomplete f !! destination with
        | Some (VersionDir _), Some _ => Err (LedgerIo LedgerNotDirectory)
        | _, _ => Ok tt
        end) ;;
  change (on_folder name (λ f,
    match lf_evolutions f !! padded4 number with
    | Some e => set_versions (lf_evolutions_dir f) (delete (padded4 number) (lf_evolutions f)) (lf_incomplete_dir f)
                  (<[destination := e]> (lf_incomplete f)) f
    | None => f
    end)).
Fixpoint create_children (name : string) (number : Z) (children : list string) : Io unit :=
  match children with
  | [] => mret tt
  | child :: children =>
      change (on_folder name (on_version number (insert [child] TreeDir))) ;;
      create_children name number children
  end.
Definition reserve_with_directories (pid : Z) (name : string) (parent : option Z) (children : list string) (now : Z)
    : Io AppEvolution :=
  r ← load_app pid name;
  number ← lift (next_app_sequence r);
  found ← gets (λ s, Ok (version_entry s name number));
  io_when (entry_exists found) (archive_incomplete_evolution name number now) ;;
  gets (λ s, fail_if (opt_is_some (version_entry s name number)) (LedgerIo LedgerAlreadyExists)) ;;
  change (on_folder name (λ f, set_ledger_evolutions (<[padded4 number := VersionDir ∅]> (lf_evolutions f)) f)) ;;
  create_children name number children ;;
  match parent with
  | Some parent => write_app_record pid (with_parent number parent r)
  | None => mret tt
  end ;;
  mret (evolution_at name number).
Definition reserve_evolution (pid : Z) (name : string) (parent : option Z) (now : Z) : Io AppEvolution :=
  reserve_with_directories pid name parent ["images"; "src"; "artifact"] now.
Definition reserve_version (pid : Z) (name : string) (parent : option Z) (now : Z) : Io AppEvolution :=
  reserve_with_directories pid name parent ["src"] now.

(** ** Writing in a reserved Version *)

Definition normal_name (c : Component) : ledger_result string :=
  match c with Normal name => Ok name | _ => Err unsafe_path_error end.
Fixpoint normal_names (cs : list Component) : ledger_result (list string) :=
  match cs with
  | [] => Ok []
  | c :: cs => name ← normal_name c; names ← normal_names cs; Ok (name :: names)
  end.
Fixpoint prepare_directories (name : string) (number : Z) (directory components : list string) : Io (list string) :=
  match components with
  | [] => lift (Err unsafe_path_error)
  | [last] => mret (directory ++ [last])
  | component :: components =>
      let directory := directory ++ [component] in
      node ← gets (λ s, files ← ok_or (LedgerIo LedgerNotFound) (version_files s name number); Ok (files !! directory));
      match node with
      | Some TreeDir => mret tt
      | Some _ => lift (Err unsafe_path_error)
      | None => change (on_folder name (on_version number (insert directory TreeDir)))
      end ;;
      prepare_directories name number directory components
  end.
Definition prepare_shot_path (shot : AppEvolution) (relative_path : string) : Io (list string) :=
  names ← lift (normal_names (components relative_path));
  prepare_directories (ae_app_name shot) (ae_number shot) [] names.
Definition set_node (shot : AppEvolution) (target : list string) (bytes : list Z) : Io unit :=
  change (on_folder (ae_app_name shot) (on_version (ae_number shot) (insert target (TreeFile bytes)))).
(** What opening the path to write finds: the bytes of the file, none when it
    had to be created. *)
Definition open_to_write (shot : AppEvolution) (target : list string) (s : Family) : ledger_result (option (list Z)) :=
  files ← ok_or (LedgerIo LedgerNotFound) (version_files s (ae_app_name shot) (ae_number shot));
  match files !! target with
  | None => Ok None
  | Some (TreeFile bytes) => Ok (Some bytes)
  | Some TreeDir => Err (LedgerIo LedgerIsDirectory)
  | Some TreeOther => Err (LedgerIo LedgerLink)
  end.
Definition write_evolution_file (shot : AppEvolution) (relative_path : string) (contents : list Z) : Io unit :=
  gets (λ s, assert_writable s shot) ;;
  target ← prepare_shot_path shot relative_path;
  gets (open_to_write shot target) ;;
  set_node shot target [] ;;
  set_node shot target contents.
Definition append_evolution_log (shot : AppEvolution) (relative_path : string) (contents : list Z) : Io unit :=
  gets (λ s, assert_writable s shot) ;;
  target ← prepare_shot_path shot relative_path;
  existing ← gets (open_to_write shot target);
  io_when (negb (opt_is_some existing)) (set_node shot target []) ;;
  set_node shot target (default [] existing ++ contents).

(** ** Sealing *)

Definition marker_temporary (pid : Z) (ordinal : nat) : list string :=
  [".complete.tmp-" +:+ pretty pid +:+ "-" +:+ pretty ordinal].
Definition publish_completion_marker (pid : Z) (shot : AppEvolution) : Io unit :=
  let name := ae_app_name shot in let number := ae_number shot in
  files ← gets (λ s, ok_or (LedgerIo LedgerNotFound) (version_files s name number));
  ordinal ← lift (ok_or (LedgerIo LedgerAlreadyExists)
    (first_free (λ ordinal, opt_is_some (files !! marker_temporary pid ordinal)) (S (size files)) 1));
  let temporary := marker_temporary pid ordinal in
  set_node shot temporary [] ;;
  set_node shot temporary COMPLETE_MARKER ;;
  if opt_is_some (files !! [".complete"]) then
    change (on_folder name (on_version number (delete temporary))) ;;
    lift (Err (ShotFinalized number))
  else
    change (on_folder name (on_version number (λ files,
      <[[".complete"] := TreeFile COMPLETE_MARKER]> (delete temporary files)))).
Definition finalize_evolution (pid : Z) (shot : AppEvolution) : Io unit :=
  gets (λ s, assert_writable s shot) ;;
  r ← load_app pid (ae_app_name shot);
  number ← lift (next_app_sequence r);
  lift (fail_if (number != ae_number shot)
          (LedgerCorrupt (number_text "shot " (ae_number shot) " is not the next append-only sequence"))) ;;
  publish_completion_marker pid shot ;;
  write_app_record pid (with_latest (ae_number shot) r).

(** ** The record's other fields *)

Definition latest_evolution (pid : Z) (name : string) : Io (option AppEvolution) :=
  r ← load_app pid name;
  mret (evolution_at name <$> ar_latest_evolution r).
Definition set_retired (pid : Z) (name : string) (retired : bool) : Io unit :=
  r ← load_app pid name;
  write_app_record pid (with_retired retired r).
(** [random] is [ExpressionId::random()]. *)
Definition bind_protocol_identity (pid : Z) (name : string) (shot : ShotId) (builder : BuilderId) (random : ExpressionId)
    : Io AppRecord :=
  r ← load_app pid name;
  match ar_shot_id r, ar_builder_id r with
  | None, None =>
      let r := set_identity (Some shot) (Some builder) (Some random) r in
      write_app_record pid r ;; mret r
  | Some existing_shot, Some existing_builder =>
      lift (fail_if ((existing_shot != shot) || (existing_builder != builder))
              (LedgerCorrupt (name +:+ " has conflicting or partial protocol identity"))) ;;
      mret r
  | _, _ => lift (ledger_corrupt (name +:+ " has conflicting or partial protocol identity"))
  end.
Definition bind_expression_identity (pid : Z) (name : string) (expression : ExpressionId) : Io AppRecord :=
  lift (fail_if (expression_is_zero expression) (LedgerCorrupt "expression identity must not be zero")) ;;
  r ← load_app pid name;
  match ar_expression_id r with
  | None =>
      let r := set_identity (ar_shot_id r) (ar_builder_id r) (Some expression) r in
      write_app_record pid r ;; mret r
  | Some existing =>
      lift (fail_if (existing != expression) (LedgerCorrupt (name +:+ " already has a different ExpressionID"))) ;;
      mret r
  end.

(** ** Listing *)

(** The loop of [list_evolutions] over the entries, in the order of [read_dir]. *)
Fixpoint collect_evolutions (name : string) (latest : option Z) (f : LedgerFolder) (entries : list string)
    : ledger_result (list AppEvolution) :=
  match entries with
  | [] => Ok []
  | entry :: entries =>
      match parse_unsigned U32_MAX (bytes_of entry), lf_evolutions f !! entry with
      | Some number, Some (VersionDir files) =>
          sealed ← has_valid_completion_marker files number;
          if sealed : bool then
            fail_if (negb (is_some_and (λ latest, (number <=? latest)%Z) latest))
              (LedgerCorrupt (number_text "shot " number " is complete but app.toml does not recognize it")) ;;
            rest ← collect_evolutions name latest f entries;
            Ok ({| ae_app_name := name; ae_number := number; ae_path := evolutions_dir name +:+ "/" +:+ entry |} :: rest)
          else collect_evolutions name latest f entries
      | Some number, Some _ => ledger_corrupt (number_text "shot " number " is not a real directory")
      | _, _ => collect_evolutions name latest f entries
      end
  end.
Definition evolution_leb (a b : AppEvolution) : bool := (ae_number a <=? ae_number b)%Z.
Definition list_evolutions (pid : Z) (name : string) (entries : list string) : Io (list AppEvolution) :=
  r ← load_app pid name;
  gets (λ s,
    f ← ok_or (LedgerIo LedgerNotFound) (folder_of s name);
    found ← collect_evolutions name (ar_latest_evolution r) f entries;
    Ok (stable_sort evolution_leb found)).

Definition has_own_ledger (s : Family) (name : string) : bool :=
  match folder_of s name with Some f => opt_is_some (lf_record f) | None => false end.
(** The loop of [list_apps] over the entries of the family folder. *)
Fixpoint load_apps (pid : Z) (entries : list string) : Io (list AppRecord) :=
  match entries with
  | [] => mret []
  | name :: entries =>
      own ← gets (λ s, Ok (utf8_valid (bytes_of name) && has_own_ledger s name));
      if own : bool then
        loaded ← io_try (load_app pid name);
        rest ← load_apps pid entries;
        mret (match loaded with Ok r => r :: rest | Err _ => rest end)
      else load_apps pid entries
  end.
Definition record_leb (a b : AppRecord) : bool := bytes_leb (bytes_of (ar_name a)) (bytes_of (ar_name b)).
Definition list_apps (pid : Z) (entries : list string) : Io (list AppRecord) :=
  initialize_ledger ;;
  records ← load_apps pid entries;
  mret (stable_sort record_leb records).

(** ** Lineages of version 1 *)

Definition read_bounded_json {A} (from_slice : list Z -> Result string A) (path : string) (node : option TreeNode)
    : ledger_result A :=
  bytes ← match node with
    | None => Err (LedgerIo LedgerNotFound)
    | Some (TreeFile bytes) =>
        fail_if (PROTOCOL_JSON_LIMIT <? file_len bytes)%Z (LedgerCorrupt (path +:+ " is not a bounded regular file")) ;;
        Ok bytes
    | Some _ => ledger_corrupt (path +:+ " is not a bounded regular file")
    end;
  map_err (λ error, LedgerCorrupt (path +:+ " is not canonical protocol JSON: " +:+ error)) (from_slice bytes).
Definition read_v1_entry (s : Family) (e : AppEvolution) : ledger_result (ShotRecord * SignatureSidecar) :=
  let node path :=
    match f ← folder_of s (ae_app_name e); lf_evolutions f !! last_name (ae_path e) with
    | Some (VersionDir files) => files !! ["TOHSENO"; path]
    | _ => None
    end in
  record ← read_bounded_json shot_record_from_slice (ae_path e +:+ "/TOHSENO/shot.json") (node "shot.json");
  signature ← read_bounded_json sidecar_from_slice (ae_path e +:+ "/TOHSENO/signature.json") (node "signature.json");
  Ok (record, signature).
Fixpoint read_v1_entries (s : Family) (es : list AppEvolution) : ledger_result (list (ShotRecord * SignatureSidecar)) :=
  match es with
  | [] => Ok []
  | e :: es => entry ← read_v1_entry s e; rest ← read_v1_entries s es; Ok (entry :: rest)
  end.
Definition adapt_ledger_lineage (pid : Z) (name : string) (entries : list string) : Io AdaptedV1Lineage :=
  evolutions ← list_evolutions pid name entries;
  lift (fail_if (bool_decide (length evolutions = 0)) (LedgerCorrupt (name +:+ " has no completed v1 Evolution to migrate"))) ;;
  gets (λ s,
    records ← read_v1_entries s evolutions;
    map_err (λ error, LedgerCorrupt ("v1 lineage is invalid: " +:+ display_error error)) (adapt_v1_lineage records)).
Definition differs {A} `{EqDecision A} (bound : option A) (value : A) : bool := is_some_and (λ b, b != value) bound.
Definition migrate_v1_identity (pid : Z) (name : string) (entries : list string) : Io AdaptedV1Lineage :=
  adapted ← adapt_ledger_lineage pid name entries;
  app ← load_app pid name;
  lift (fail_if (differs (ar_shot_id app) (av_shot_id adapted) || differs (ar_builder_id app) (av_controller adapted)
                 || differs (ar_expression_id app) (av_expression_id adapted))
          (LedgerCorrupt (name +:+ " identity conflicts with its verified v1 lineage"))) ;;
  io_when (opt_is_none (ar_shot_id app) || opt_is_none (ar_builder_id app) || opt_is_none (ar_expression_id app))
    (write_app_record pid (set_identity (Some (av_shot_id adapted)) (Some (av_controller adapted))
                             (Some (av_expression_id adapted)) app)) ;;
  mret adapted.
End ledger.
