(* ===== verification/LedgerLaws.v ===== *)
(** * Laws of the ledger of apps

    The names an app can have; what every operation keeps, wherever it crashes;
    and, over every history of operations, crashes and renamings of a folder: the
    sealed Versions are 1, 2, ..., without a hole, and stay as they were sealed; a
    bound identity stays bound; and loading repairs what a crash left. *)
From S2P Require Import Prelude CrashIo Text Digest Keys Records Lineage Reduction FileTree ExecutionModel Ledger.

(** ** Decimal names *)

Definition decimal (bytes : list Z) : Z := foldl (λ acc b, acc * 10 + (b - 48))%Z 0%Z bytes.
Definition digits (bytes : list Z) : Prop := Forall (λ b, is_ascii_digit b = true) bytes.

Lemma decimal_snoc bytes b : decimal (bytes ++ [b]) = (decimal bytes * 10 + (b - 48))%Z.
Proof. unfold decimal. by rewrite foldl_app. Qed.
Lemma decimal_zeros n bytes : decimal (replicate n 48%Z ++ bytes) = decimal bytes.
Proof. unfold decimal. rewrite foldl_app. f_equal. induction n as [|n IH]; [done|]. exact IH. Qed.
Lemma digit_char (x : N) s : (x < 10)%N ->
  bytes_of (String (pretty_N_char x) s) = (48 + Z.of_N x)%Z :: bytes_of s.
Proof.
  intros Hx. assert (x = 0 \/ x = 1 \/ x = 2 \/ x = 3 \/ x = 4 \/ x = 5 \/ x = 6 \/ x = 7 \/ x = 8 \/ x = 9)%N as Hc by lia.
  by repeat destruct Hc as [->|Hc]; [..|subst].
Qed.
Lemma pretty_N_go_decimal x s : exists ds,
  bytes_of (pretty_N_go x s) = ds ++ bytes_of s /\ digits ds /\ decimal ds = Z.of_N x.
Proof.
  revert s. induction (N.lt_wf_0 x) as [x _ IH]. intros s.
  destruct (decide (x = 0)%N) as [->|Hx]; [exists []; rewrite pretty_N_go_0; by repeat constructor|].
  rewrite pretty_N_go_step by lia.
  destruct (IH (x `div` 10)%N ltac:(apply N.div_lt; lia) (String (pretty_N_char (x `mod` 10)) s)) as (ds&E&Hd&Hv).
  pose proof (N.mod_lt x 10 ltac:(done)) as Hm. rewrite digit_char in E by done.
  exists (ds ++ [48 + Z.of_N (x `mod` 10)]%Z). rewrite <- app_assoc. split; [done|]. split.
  - apply Forall_app. split; [done|]. repeat constructor. unfold is_ascii_digit.
    apply andb_true_intro. clear -Hm. generalize dependent (x `mod` 10)%N. intros d Hd. split; apply Z.leb_le; lia.
  - rewrite decimal_snoc, Hv. pose proof (N.div_mod x 10 ltac:(done)) as E'. clear -E'.
    generalize dependent (x `mod` 10)%N. generalize dependent (x `div` 10)%N. intros; lia.
Qed.
Lemma pretty_decimal (n : Z) : (0 <= n)%Z ->
  bytes_of (pretty n) <> [] /\ digits (bytes_of (pretty n)) /\ decimal (bytes_of (pretty n)) = n.
Proof.
  intros Hn. destruct n as [|p|p]; [|clear Hn|lia].
  { split_and!; [done| |done]. by repeat constructor. }
  change (pretty (Z.pos p)) with (pretty_N_go (N.pos p) "").
  destruct (pretty_N_go_decimal (N.pos p) "") as (ds&E&Hd&Hv). rewrite app_nil_r in E. rewrite E.
  split_and!; [|done|done]. intros ->. by cbn in Hv.
Qed.
Lemma padded4_decimal n : (0 <= n)%Z ->
  bytes_of (padded4 n) <> [] /\ digits (bytes_of (padded4 n)) /\ decimal (bytes_of (padded4 n)) = n.
Proof.
  intros Hn. destruct (pretty_decimal n Hn) as (Hne&Hd&Hv). unfold padded4.
  set (zeros := replicate _ 48%Z). assert (digits zeros) as Hz by by apply Forall_replicate.
  assert (digits (zeros ++ bytes_of (pretty n))) as Ha by by apply Forall_app.
  rewrite bytes_of_string_of by (eapply Forall_impl; [exact Ha|]; intros b; unfold is_ascii_digit; cbn; lia).
  split_and!; [|done|by unfold zeros; rewrite decimal_zeros]. by intros [_ ?]%app_eq_nil.
Qed.
(** The number of a Version is read back from the name of its directory. *)
Lemma parse_decimal maximum bytes : bytes <> [] -> digits bytes -> (decimal bytes <= maximum)%Z ->
  parse_unsigned maximum bytes = Some (decimal bytes).
Proof.
  intros Hne Hd Hv. assert (parse_digits maximum bytes = Some (decimal bytes)) as Hp.
  { unfold parse_digits. rewrite bool_decide_eq_true_2 by done.
    rewrite (proj2 (forallb_forall _ _)) by (intros b Hb; apply (proj1 (Forall_forall _ _) Hd), list_elem_of_In, Hb).
    cbn [andb]. fold (decimal bytes). by rewrite (proj2 (Z.leb_le _ _)). }
  destruct bytes as [|b bytes]; [done|]. apply Forall_cons in Hd as [Hb _].
  unfold parse_unsigned. destruct b as [|p|p]; [done| |done]. by repeat (destruct p as [p|p|]; try done).
Qed.
Lemma parse_padded4 n : (0 <= n <= U32_MAX)%Z -> parse_unsigned U32_MAX (bytes_of (padded4 n)) = Some n.
Proof.
  intros Hn. destruct (padded4_decimal n) as (Hne&Hd&Hv); [lia|]. rewrite parse_decimal; [by rewrite Hv|done..|lia].
Qed.
Lemma parse_pretty n : (0 <= n <= U32_MAX)%Z -> parse_unsigned U32_MAX (bytes_of (pretty n)) = Some n.
Proof.
  intros Hn. destruct (pretty_decimal n) as (Hne&Hd&Hv); [lia|]. rewrite parse_decimal; [by rewrite Hv|done..|lia].
Qed.
Lemma padded4_inj a b : (0 <= a)%Z -> (0 <= b)%Z -> padded4 a = padded4 b -> a = b.
Proof.
  intros Ha Hb E. destruct (padded4_decimal a Ha) as (_&_&<-), (padded4_decimal b Hb) as (_&_&<-). by rewrite E.
Qed.

(** ** Names of apps *)

(** What Unicode says of [char::to_lowercase]. *)
Class CharCaseLaws `{CharCase} := {
  lowercase_no_upper : forall c, (128 <= c)%Z -> Forall (λ d, is_ascii_uppercase d = false) (lowercase_table c) }.

Definition slug_char (c : Z) : bool := is_ascii_lowercase c || is_ascii_digit c.
(** Words of lowercase letters and digits, one dash between two of them. *)
Inductive Slug : list Z -> Prop :=
  | slug_first c : slug_char c = true -> Slug [c]
  | slug_next s c : Slug s -> slug_char c = true -> Slug (s ++ [c])
  | slug_word s c : Slug s -> slug_char c = true -> Slug (s ++ [DASH; c]).

Section names.
Context `{CharCase} `{!CharCaseLaws}.

Lemma slug_char_spec c : slug_char c = true <-> (97 <= c <= 122 \/ 48 <= c <= 57)%Z.
Proof. unfold slug_char, is_ascii_lowercase, is_ascii_digit. lia. Qed.
Lemma slug_chars s : Slug s -> s <> [] /\ Forall (λ c, slug_char c = true \/ c = DASH) s.
Proof.
  induction 1 as [c Hc|s c Hs [Hn IH] Hc|s c Hs [Hn IH] Hc].
  - split; [done|]. constructor; [by left|done].
  - split; [by intros [? ?]%app_eq_nil|]. apply Forall_app. split; [done|]. constructor; [by left|done].
  - split; [by intros [? ?]%app_eq_nil|]. apply Forall_app. split; [done|].
    constructor; [by right|]. constructor; [by left|done].
Qed.
Lemma slug_head s : Slug s -> exists c r, s = c :: r /\ slug_char c = true.
Proof.
  induction 1 as [c Hc|s c Hs (d&r&->&Hd) Hc|s c Hs (d&r&->&Hd) Hc]; [by exists c, []|..]; by eexists _, _.
Qed.
Lemma slug_last s : Slug s -> exists c r, rev s = c :: r /\ slug_char c = true.
Proof.
  intros Hs. destruct Hs as [c Hc|s c Hs Hc|s c Hs Hc]; [by exists c, []| |];
    rewrite rev_app_distr; by eexists _, _.
Qed.
Lemma slug_char_alnum c : slug_char c = true -> is_ascii_alphanumeric c = true.
Proof. unfold slug_char, is_ascii_alphanumeric. by destruct (is_ascii_lowercase c), (is_ascii_uppercase c). Qed.
Lemma trim_slug c r : slug_char c = true -> trim_dashes (c :: r) = c :: r.
Proof. intros Hc%slug_char_spec. unfold trim_dashes, DASH. by rewrite (proj2 (Z.eqb_neq c 45)) by lia. Qed.
Lemma trim_both s : Slug s -> rev (trim_dashes (rev (trim_dashes s))) = s.
Proof.
  intros Hs. destruct (slug_head _ Hs) as (c&r&E&Hc), (slug_last _ Hs) as (d&r'&E'&Hd).
  rewrite E at 1. rewrite trim_slug, <- E by done. rewrite E', trim_slug, <- E' by done. apply rev_involutive.
Qed.

(** A slug is left as it is. *)
Lemma sanitize_slug s rest : Slug s -> sanitize_loop (s ++ rest) [] false = sanitize_loop rest s false.
Proof.
  intros Hs. revert rest. induction Hs as [c Hc|s c Hs IH Hc|s c Hs IH Hc]; intros rest.
  - cbn. by rewrite slug_char_alnum.
  - rewrite <- app_assoc, IH. cbn. by rewrite slug_char_alnum.
  - rewrite <- app_assoc, IH. cbn [app sanitize_loop]. rewrite (slug_char_alnum c), <- app_assoc by done.
    destruct (slug_chars _ Hs) as [Hn _]. change (is_ascii_alphanumeric DASH) with false. cbn iota.
    by rewrite bool_decide_eq_false_2.
Qed.
Lemma slug_ascii s : Slug s -> concat (char_to_lowercase <$> chars s) = s.
Proof.
  intros [_ Hc]%slug_chars. assert (Forall (λ c, c = DASH \/ slug_char c = true) s) as Hs
    by (eapply Forall_impl; [exact Hc|]; intros c [?|?]; auto).
  rewrite chars_ascii.
  - clear Hc. induction Hs as [|c s Hc _ IH]; [done|]. cbn. rewrite IH. unfold char_to_lowercase, ascii_lowercase_byte.
    assert (c = DASH \/ 97 <= c <= 122 \/ 48 <= c <= 57)%Z as Hr by (destruct Hc as [|?%slug_char_spec]; tauto).
    unfold DASH in Hr. rewrite (proj2 (Z.ltb_lt c 128)) by lia. unfold is_ascii_uppercase.
    destruct (Z.leb_spec 65 c), (Z.leb_spec c 90); cbn; try done; lia.
  - eapply Forall_impl; [exact Hs|]. intros c Hr. unfold graphic.
    assert (c = DASH \/ 97 <= c <= 122 \/ 48 <= c <= 57)%Z as Hr' by (destruct Hr as [|?%slug_char_spec]; tauto).
    unfold DASH in Hr'. lia.
Qed.
(** Whatever is sanitized is a slug, or nothing. *)
Lemma sanitize_loop_slug cs acc dash : Forall (λ c, is_ascii_uppercase c = false) cs ->
  (acc = [] /\ dash = false \/ Slug acc /\ dash = false \/ exists s, acc = s ++ [DASH] /\ Slug s /\ dash = true) ->
  exists s, (s = [] \/ Slug s) /\ (sanitize_loop cs acc dash = s \/ sanitize_loop cs acc dash = s ++ [DASH] /\ Slug s).
Proof.
  intros Hc. revert acc dash. induction Hc as [|c cs Hc _ IH]; intros acc dash Hi.
  { cbn. destruct Hi as [[-> _]|[[Hs _]|(s&->&Hs&_)]]; [exists []; auto|exists acc; auto|exists s; auto]. }
  cbn [sanitize_loop]. destruct (is_ascii_alphanumeric c) eqn:Ea.
  - apply IH. right. left. split; [|done].
    assert (slug_char c = true) as Hs by (unfold is_ascii_alphanumeric in Ea; rewrite Hc in Ea; unfold slug_char;
      by destruct (is_ascii_lowercase c), (is_ascii_digit c)).
    destruct Hi as [[-> _]|[[Hi _]|(s&->&Hi&_)]]; [by apply slug_first|by apply slug_next|].
    rewrite <- app_assoc. by apply slug_word.
  - destruct Hi as [[-> ->]|[[Hi ->]|(s&->&Hi&->)]]; cbn [negb andb].
    + rewrite bool_decide_eq_true_2 by done. apply IH. by left.
    + destruct (slug_chars _ Hi) as [Hn _]. rewrite bool_decide_eq_false_2 by done. apply IH. right. right. by exists acc.
    + apply IH. right. right. by exists s.
Qed.
Lemma trim_trailing s : Slug s -> rev (trim_dashes (rev (trim_dashes (s ++ [DASH])))) = s.
Proof.
  intros Hs. pose proof (trim_both _ Hs) as E. destruct (slug_head _ Hs) as (c&r&->&Hc).
  cbn [app]. rewrite trim_slug in E |- * by done.
  rewrite app_comm_cons, rev_app_distr. cbn [rev app trim_dashes] in *. by rewrite Z.eqb_refl.
Qed.
Lemma lowercased_no_upper cs : Forall (λ c, is_ascii_uppercase c = false) (concat (char_to_lowercase <$> cs)).
Proof.
  induction cs as [|c cs IH]; [done|]. cbn. apply Forall_app. split; [|done]. unfold char_to_lowercase.
  destruct (Z.ltb_spec c 128); [|by apply lowercase_no_upper]. repeat constructor. unfold ascii_lowercase_byte.
  destruct (is_ascii_uppercase c) eqn:E; [|done]. unfold is_ascii_uppercase in *. lia.
Qed.
Lemma sanitize_component_slug value : sanitize_component value = "" \/ Slug (bytes_of (sanitize_component value)).
Proof.
  unfold sanitize_component. set (cs := concat _).
  destruct (sanitize_loop_slug cs [] false) as (s&Hs&Hl); [apply lowercased_no_upper|by left|].
  assert (rev (trim_dashes (rev (trim_dashes (sanitize_loop cs [] false)))) = s) as ->.
  { destruct Hl as [->|[-> Hs']]; [|by apply trim_trailing]. destruct Hs as [->|Hs]; [done|by apply trim_both]. }
  destruct Hs as [->|Hs]; [by left|right]. rewrite bytes_of_string_of; [done|].
  destruct (slug_chars _ Hs) as [_ Hf]. eapply Forall_impl; [exact Hf|]. intros c [Hc%slug_char_spec| -> ]; unfold DASH; lia.
Qed.

(** The name of an app is checked by its spelling alone. *)
Theorem app_name_is_slug (name : string) : validate_app_name name = Ok tt <->
  Slug (bytes_of name) /\ len name <= 63 /\ name ∉ RESERVED_APP_NAMES.
Proof.
  unfold validate_app_name. rewrite fail_if_Ok, !orb_false_iff, negb_false_iff, !bool_decide_eq_false, Nat.ltb_ge.
  rewrite negb_false_iff, bool_decide_eq_true. split.
  - intros ((((Hne&Hl)&Hs)&Hr)&_). split; [|done]. destruct (sanitize_component_slug name) as [E|E]; congruence.
  - intros (Hs&Hl&Hr). destruct (slug_head _ Hs) as (c&r&E&Hc). split_and!; try done.
    + intros ->. discriminate E.
    + unfold sanitize_component. rewrite slug_ascii by done.
      pose proof (sanitize_slug _ [] Hs) as Hl'. rewrite app_nil_r in Hl'. rewrite Hl'. cbn [sanitize_loop].
      by rewrite trim_both, string_of_bytes_of.
    + rewrite E. apply slug_char_spec in Hc as Hr'. cbn [chars]. rewrite (proj2 (Z.ltb_lt c 128)) by lia. cbn.
      by apply slug_char_alnum.
Qed.
End names.

(** ** What a ledger holds *)

(** What the writer and the reader of [app.toml] promise together; an integer of
    TOML has 64 bits and a sign. *)
Definition I64_MAX : Z := 9223372036854775807.
Class LedgerCodecLaws `{LedgerCodec} := {
  app_round_trip : forall r bytes, app_to_toml r = Ok bytes -> app_from_toml bytes = Ok r;
  app_utf8 : forall r bytes, app_to_toml r = Ok bytes -> utf8_valid bytes = true;
  app_encodes : forall r, (ar_created_at_unix r <= I64_MAX)%Z -> is_ok (app_to_toml r) = true;
  app_created : forall bytes r, app_from_toml bytes = Ok r -> (ar_created_at_unix r <= I64_MAX)%Z }.

Definition sealed_files (files : VersionFiles) : Prop := files !! [".complete"] = Some (TreeFile COMPLETE_MARKER).
Definition unsealed_files (files : VersionFiles) : Prop := files !! [".complete"] = None.
Definition head_of (r : AppRecord) : Z := default 0%Z (ar_latest_evolution r).
(** The Versions are 1 to [h], all sealed, and perhaps the next one, not sealed. *)
Record numbered_versions (m : gmap string VersionEntry) (h : Z) : Prop := {
  nv_range : (0 <= h <= U32_MAX)%Z;
  nv_entry : forall entry e, m !! entry = Some e -> exists n files,
    (1 <= n <= U32_MAX)%Z /\ (n <= h + 1)%Z /\ entry = padded4 n /\ e = VersionDir files;
  nv_sealed : forall n, (1 <= n <= h)%Z -> exists files, m !! padded4 n = Some (VersionDir files) /\ sealed_files files;
  nv_open : forall files, m !! padded4 (h + 1) = Some (VersionDir files) -> unsealed_files files }.

(** ** Valid records *)

Definition valid_parent (link : string * Z) : Prop := exists child,
  parse_unsigned U32_MAX (bytes_of (fst link)) = Some child /\ child <> 0%Z /\ snd link <> 0%Z /\ (snd link < child)%Z.
Record valid_record `{CharCase} (r : AppRecord) : Prop := {
  vr_name : validate_app_name (ar_name r) = Ok tt;
  vr_target : forall target, ar_target_name r = Some target -> validate_app_name target = Ok tt;
  vr_expression : is_some_and expression_is_zero (ar_expression_id r) = false;
  vr_bundle : ar_bundle_id r <> "" /\ len (ar_bundle_id r) <= 255 /\
    existsb is_control (chars (bytes_of (ar_bundle_id r))) = false;
  vr_chronology : ar_created_at_unix r <> 0%Z /\ ar_latest_evolution r <> Some 0%Z;
  vr_protocol : ar_shot_id r = None /\ ar_builder_id r = None \/ exists shot builder, ar_shot_id r = Some shot /\
    ar_builder_id r = Some builder /\ shot_is_zero shot = false /\ builder_validate builder = Ok tt;
  vr_parents : forall child parent, ar_parents r !! child = Some parent -> valid_parent (child, parent) }.

Section valid_records.
Context `{Platform} `{CharCase}.

Lemma check_parent_Ok name link u : check_parent name link = Ok u <-> valid_parent link.
Proof.
  destruct link as [child parent], u. unfold check_parent, valid_parent. cbn [fst snd].
  destruct (parse_unsigned U32_MAX (bytes_of child)) as [n|]; cbn [ok_or mbind Result_bind].
  - rewrite fail_if_Ok, !orb_false_iff, !Z.eqb_neq, Z.leb_gt. split; [by intros [[? ?] ?]; exists n|].
    by intros (?&[= <-]&?&?&?).
  - split; [done|]. by intros (?&?&_).
Qed.
Lemma valid_record_at r name u : validate_app_record_at r name = Ok u <->
  validate_app_name name = Ok tt /\ valid_record r.
Proof.
  destruct u. unfold validate_app_record_at. cbv zeta.
  rewrite !then_Ok, !fail_if_Ok, for_each_Ok, !orb_false_iff, !bool_decide_eq_false, Nat.ltb_ge, Z.eqb_neq.
  assert (Forall (λ x, check_parent name x = Ok tt) (stable_sort parent_leb (map_to_list (ar_parents r))) <->
          forall child parent, ar_parents r !! child = Some parent -> valid_parent (child, parent)) as ->.
  { rewrite stable_sort_perm, Forall_forall. split.
    - intros Hf child parent Hp. apply (check_parent_Ok name _ tt), Hf. by apply elem_of_map_to_list.
    - intros Hf [child parent] Hp%elem_of_map_to_list. apply check_parent_Ok. by apply Hf. }
  split.
  - intros (Hn&Hr&Ht&He&(([Hb ?]&?)&(Hc&Hp&Hl))). split; [done|]. constructor; try done.
    + intros target E. by rewrite E in Ht.
    + destruct (ar_shot_id r) as [shot|], (ar_builder_id r) as [builder|]; [|done|done|by left].
      apply fail_if_Ok, orb_false_iff in Hp as [Hs Hv%negb_false_iff]. right. exists shot, builder. split_and!; try done.
      by destruct (builder_validate builder) as [[]|].
  - intros (Hn&[Hr Ht He (Hb&?&?) Hc Hp Hl]). split_and!; try done.
    + destruct (ar_target_name r); [by apply Ht|done].
    + apply Hc.
    + apply Hc.
    + destruct Hp as [[-> ->]|(shot&builder&->&->&Hs&Hv)]; [done|]. by rewrite Hs, Hv.
Qed.
Lemma valid_own_name r : valid_record r -> validate_app_record r (ar_name r) = Ok tt.
Proof.
  intros Hv. unfold validate_app_record. apply then_Ok. split; [|by rewrite bool_decide_eq_true_2].
  apply valid_record_at. split; [by apply vr_name|done].
Qed.
End valid_records.

(** The number of sealed Versions is determined by them. *)
Lemma numbered_unique m h h' : numbered_versions m h -> numbered_versions m h' -> h = h'.
Proof.
  assert (forall a b, numbered_versions m a -> numbered_versions m b -> (a <= b)%Z) as Hle.
  { intros a b [? ? Hs _] [? He _ Ho]. destruct (Z.le_gt_cases a b) as [|Hgt]; [done|].
    destruct (Hs (b + 1)%Z) as (files&Hm&Hf); [lia|]. apply Ho in Hm as Hu. unfold sealed_files, unsealed_files in *. congruence. }
  intros Ha Hb. pose proof (Hle _ _ Ha Hb). pose proof (Hle _ _ Hb Ha). lia.
Qed.

(** What stays of a record. *)
Record keeps_identity (r r' : AppRecord) : Prop := {
  ki_target : target_name r' = target_name r;
  ki_bundle : ar_bundle_id r' = ar_bundle_id r;
  ki_created : ar_created_at_unix r' = ar_created_at_unix r;
  ki_protocol : ar_shot_id r <> None -> ar_shot_id r' = ar_shot_id r /\ ar_builder_id r' = ar_builder_id r;
  ki_expression : forall e, ar_expression_id r = Some e ->
    ar_expression_id r' = Some e \/ (ar_shot_id r = None /\ ar_shot_id r' <> None);
  ki_head : (head_of r <= head_of r')%Z }.
#[export] Instance keeps_identity_preorder : PreOrder keeps_identity.
Proof.
  split; [intros r; by constructor; auto|]. intros a b c [] []. constructor; try congruence; [| |lia].
  - intros Ha. destruct (ki_protocol0 Ha) as [E ?]. destruct ki_protocol1 as [? ?]; [congruence|]. split; congruence.
  - intros e He. destruct (ki_expression0 e He) as [He1|[Hn Hs]].
    + destruct (ki_expression1 e He1) as [?|[Hn Hs]]; [by left|right]. split; [|done].
      destruct (ar_shot_id a) eqn:Ea; [|done]. destruct ki_protocol0; congruence.
    + right. split; [done|]. destruct (ki_protocol1 Hs) as [-> _]. done.
Qed.

Lemma alter_partial {A} (f : A -> A) (m : gmap string A) k x : m !! k = Some x ->
  alter f k m = partial_alter (λ _, Some (f x)) k m.
Proof. intros Hk. apply partial_alter_ext. intros y E. rewrite Hk in E. by subst. Qed.

(** The next Version appears, changes or goes. *)
Lemma numbered_update m h e : numbered_versions m h -> (h + 1 <= U32_MAX)%Z ->
  (forall x, e = Some x -> exists files, x = VersionDir files /\ unsealed_files files) ->
  numbered_versions (partial_alter (λ _, e) (padded4 (h + 1)) m) h.
Proof.
  intros [Hr He Hs Ho] Hh Hx. split; [done| | |].
  - intros entry x. destruct (decide (padded4 (h + 1) = entry)) as [<-|Hn].
    + rewrite lookup_partial_alter_eq. intros ->. destruct (Hx x eq_refl) as (files&->&_). exists (h + 1)%Z, files. split_and!; [lia..|done|done].
    + rewrite lookup_partial_alter_ne by done. apply He.
  - intros n Hn. rewrite lookup_partial_alter_ne; [by apply Hs|]. intros E%padded4_inj; lia.
  - intros files. rewrite lookup_partial_alter_eq. intros ->. by destruct (Hx _ eq_refl) as (?&[= <-]&?).
Qed.
(** The next Version is sealed. *)
Lemma numbered_seal m h files : numbered_versions m h -> (h + 1 <= U32_MAX)%Z -> sealed_files files ->
  numbered_versions (partial_alter (λ _, Some (VersionDir files)) (padded4 (h + 1)) m) (h + 1).
Proof.
  intros [Hr He Hs Ho] Hh Hf. split; [lia| | |].
  - intros entry x. destruct (decide (padded4 (h + 1) = entry)) as [<-|Hn].
    + rewrite lookup_partial_alter_eq. intros [= <-]. exists (h + 1)%Z, files. split_and!; [lia..|done|done].
    + rewrite lookup_partial_alter_ne by done. intros (n&fs&?&?&?&?)%He. exists n, fs. split_and!; [lia..|done|done].
  - intros n Hn. destruct (decide (n = h + 1)%Z) as [->|Hne]; [rewrite lookup_partial_alter_eq; by exists files|].
    rewrite lookup_partial_alter_ne; [apply Hs; lia|]. intros E%padded4_inj; lia.
  - intros fs. rewrite lookup_partial_alter_ne by (intros E%padded4_inj; lia).
    intros (n&?&?&?&E&_)%He. apply padded4_inj in E; lia.
Qed.
(** The Version of a directory without a seal is the next one. *)
Lemma unsealed_is_next m h name files : numbered_versions m h -> m !! name = Some (VersionDir files) ->
  unsealed_files files -> name = padded4 (h + 1) /\ (h + 1 <= U32_MAX)%Z.
Proof.
  intros [Hr He Hs Ho] Hm Hu. destruct (He _ _ Hm) as (n&fs&?&?&->&[= <-]).
  destruct (decide (n = h + 1)%Z) as [->|Hn]; [split; [done|lia]|].
  destruct (Hs n) as (fs&Hm'&Hf); [lia|]. unfold unsealed_files, sealed_files in *. congruence.
Qed.
Lemma numbered_head m h name files : numbered_versions m h -> m !! name = Some (VersionDir files) ->
  sealed_files files -> exists n, name = padded4 n /\ (1 <= n <= h)%Z.
Proof.
  intros [Hr He Hs Ho] Hm Hf. destruct (He _ _ Hm) as (n&fs&?&?&->&[= <-]). exists n. split; [done|].
  destruct (decide (n = h + 1)%Z) as [->|Hn]; [|lia]. apply Ho in Hm. unfold unsealed_files, sealed_files in *. congruence.
Qed.

Section laws.
Context `{Platform} `{CharCase} `{LedgerCodec} `{!LedgerCodecLaws}.

Definition recorded (f : LedgerFolder) (r : AppRecord) : Prop := exists bytes,
  lf_record f = Some (PrivateBytes bytes) /\ utf8_valid bytes = true /\ app_from_toml bytes = Ok r.
(** A ledger with its record and the number of its sealed Versions; the record
    may be one behind. *)
Record ledger_at (f : LedgerFolder) (r : AppRecord) (h : Z) : Prop := {
  la_recorded : recorded f r;
  la_valid : valid_record r;
  la_created : (ar_created_at_unix r <= I64_MAX)%Z;
  la_dir : lf_evolutions_dir f = RealDir;
  la_versions : numbered_versions (lf_evolutions f) h;
  la_head : (head_of r = h \/ head_of r + 1 = h)%Z;
  la_nonneg : (0 <= head_of r)%Z;
  la_incomplete : forall name e, lf_incomplete f !! name = Some e -> exists files, e = VersionDir files }.
Definition sound_folder (f : LedgerFolder) : Prop :=
  lf_record f = None /\ lf_evolutions f = ∅ /\ lf_incomplete f = ∅ \/ exists r h, ledger_at f r h.
Definition sound_family (s : Family) : Prop := forall name f, folder_of s name = Some f -> sound_folder f.

Record grows (f f' : LedgerFolder) : Prop := {
  gr_sealed : forall entry files, lf_evolutions f !! entry = Some (VersionDir files) -> sealed_files files ->
    lf_evolutions f' !! entry = Some (VersionDir files);
  gr_record : forall r, recorded f r -> exists r', recorded f' r' /\ keeps_identity r r' }.
#[export] Instance grows_preorder : PreOrder grows.
Proof.
  split.
  - intros f. split; [done|]. intros r Hr. by exists r.
  - intros a b c [] []. split; [by eauto|]. intros r Hr. destruct (gr_record0 r Hr) as (r'&Hr'&Hk).
    destruct (gr_record1 r' Hr') as (r''&Hr''&Hk'). exists r''. split; [done|by etrans].
Qed.
Definition keeps (s0 s : Family) : Prop :=
  sound_family s /\ (fm_root s0 = RealDir -> fm_root s = RealDir) /\
  forall name f, folder_of s0 name = Some f -> exists f', folder_of s name = Some f' /\ grows f f'.
Definition at_folder (s0 : Family) (name : string) (f : LedgerFolder) (s : Family) : Prop :=
  keeps s0 s /\ folder_of s name = Some f.

Lemma ledger_keeps_refl s : sound_family s -> keeps s s.
Proof. intros Hs. split_and!; [done|done|]. intros name f Hf. by exists f. Qed.
Lemma ledger_keeps_trans a b c : keeps a b -> keeps b c -> keeps a c.
Proof.
  intros (_&Hr&Hab) (Hs&Hr'&Hbc). split_and!; [done|by auto|]. intros name f Hf.
  destruct (Hab _ _ Hf) as (g&Hg&G1), (Hbc _ _ Hg) as (k&Hk&G2). exists k. split; [done|by etrans].
Qed.
Lemma recorded_unique f r r' : recorded f r -> recorded f r' -> r = r'.
Proof. intros (b&Eb&_&Hb) (b'&Eb'&_&Hb'). congruence. Qed.
Lemma ledger_sound f r h : ledger_at f r h -> sound_folder f.
Proof. right. by exists r, h. Qed.
Lemma sound_recorded f r : sound_folder f -> recorded f r -> exists h, ledger_at f r h.
Proof.
  intros [[E _]|(r'&h&Hl)] Hr; [by destruct Hr as (?&?&_); congruence|].
  exists h. by rewrite (recorded_unique _ _ _ Hr (la_recorded _ _ _ Hl)).
Qed.

Lemma folder_of_on_folder name g s other :
  folder_of (on_folder name g s) other = (if decide (name = other) then g <$> folder_of s name else folder_of s other).
Proof.
  unfold folder_of, on_folder, set_apps. cbn. destruct (decide (name = other)) as [<-|Hn].
  - rewrite lookup_alter_eq. destruct (fm_apps s !! name) as [[[|f|]|]|]; done.
  - by rewrite lookup_alter_ne.
Qed.
(** One change of a folder. *)
Lemma triple_folder ok s0 name f g : sound_folder (g f) -> grows f (g f) ->
  triple (E := LedgerError) ok (at_folder s0 name f) (change (on_folder name g)) 1 (λ _, at_folder s0 name (g f)) (keeps s0).
Proof.
  intros Hs Hg. apply triple_change; [by intros s []|]. intros s [(Hsound&Hroot&Hkeep) Hf].
  split; [|by rewrite folder_of_on_folder, decide_True, Hf by done]. split_and!; [|done|].
  - intros other k. rewrite folder_of_on_folder. case_decide; [|apply Hsound]. subst. rewrite Hf. by intros [= <-].
  - intros other k Hk. destruct (Hkeep _ _ Hk) as (k'&Hk'&Hgk). rewrite folder_of_on_folder. case_decide; [|by exists k'].
    subst other. rewrite Hf in Hk' |- *. injection Hk' as <-. exists (g f). split; [done|by etrans].
Qed.

Lemma triple_pre {A} {ok} {P : Family -> Prop} P' {m : Io A} {n Q I} :
  triple ok P' m n Q I -> (forall s, P s -> P' s) -> triple ok P m n Q I.
Proof. intros Hm HP t s Hs. by apply Hm, HP. Qed.

(** ** Writing the record *)

Lemma first_free_taken taken fuel ordinal : first_free taken fuel ordinal = None ->
  forall i, i < fuel -> taken (ordinal + i) = true.
Proof.
  revert ordinal. induction fuel as [|fuel IH]; intros ordinal; [lia|]. cbn.
  destruct (taken ordinal) eqn:E; [|done]. intros Hn i Hi. destruct i as [|i]; [by rewrite Nat.add_0_r|].
  rewrite <- Nat.add_succ_comm. apply IH; [done|lia].
Qed.
Lemma first_free_free taken fuel ordinal i : first_free taken fuel ordinal = Some i -> taken i = false.
Proof.
  revert ordinal. induction fuel as [|fuel IH]; intros ordinal; [done|]. cbn.
  destruct (taken ordinal) eqn:E; [apply IH|]. by intros [= <-].
Qed.
(** Among as many ordinals as there are names, and one more, one is free. *)
Lemma first_free_found {K A} `{Countable K} (m : gmap K A) (key : nat -> K) (taken : nat -> bool) :
  Inj (=) (=) key -> (forall i, taken i = true -> is_Some (m !! key i)) ->
  exists i, first_free taken (S (size m)) 1 = Some i /\ taken i = false.
Proof.
  intros Hinj Ht. destruct (first_free taken (S (size m)) 1) as [i|] eqn:E; [exists i; eauto using first_free_free|].
  exfalso. pose proof (first_free_taken _ _ _ E) as Hall. set (l := key <$> seq 1 (S (size m))).
  assert (NoDup l) as Hnd by (apply NoDup_fmap; [done|apply NoDup_seq]).
  assert ((list_to_set l : gset K) ⊆ dom m) as Hsub.
  { intros k. rewrite elem_of_list_to_set, elem_of_dom. intros (i&->&Hi)%list_elem_of_fmap. apply elem_of_seq in Hi.
    apply Ht. replace i with (1 + (i - 1)) by lia. apply Hall. lia. }
  apply subseteq_size in Hsub. rewrite size_list_to_set, size_dom in Hsub by done.
  unfold l in Hsub. rewrite length_fmap, length_seq in Hsub. lia.
Qed.

Definition same_versions (f f' : LedgerFolder) : Prop :=
  lf_evolutions_dir f' = lf_evolutions_dir f /\ lf_evolutions f' = lf_evolutions f /\
  lf_incomplete_dir f' = lf_incomplete_dir f /\ lf_incomplete f' = lf_incomplete f.
Lemma same_versions_trans a b c : same_versions a b -> same_versions b c -> same_versions a c.
Proof. intros (?&?&?&?) (?&?&?&?). split_and!; congruence. Qed.

(** ** Changes of a record *)

Lemma valid_latest r n : valid_record r -> n <> 0%Z -> valid_record (with_latest n r).
Proof. intros [] Hn. constructor; try done. split; [by apply vr_chronology0|]. by intros [= ->]. Qed.
Lemma valid_renamed name r : valid_record r -> validate_app_name name = Ok tt -> valid_record (renamed_record name r).
Proof.
  intros Hv Hn. unfold renamed_record. case_bool_decide; [done|]. destruct Hv. constructor; try done.
  cbn. intros target [= <-]. unfold target_name. destruct (ar_target_name r) as [t|] eqn:E; [by apply vr_target0|done].
Qed.
Lemma identity_latest r n : (head_of r <= n)%Z -> keeps_identity r (with_latest n r).
Proof. by constructor; auto. Qed.
Lemma identity_renamed name r : keeps_identity r (renamed_record name r).
Proof. unfold renamed_record. case_bool_decide; by constructor; auto. Qed.
Lemma name_renamed name r : ar_name (renamed_record name r) = name.
Proof. unfold renamed_record. by case_bool_decide. Qed.
Lemma head_renamed name r : head_of (renamed_record name r) = head_of r.
Proof. unfold renamed_record. by case_bool_decide. Qed.

(** Nothing but temporary files changes. *)
Lemma sound_temporaries f temporaries : sound_folder f -> sound_folder (set_record (lf_record f) temporaries f).
Proof. intros [[? ?]|(r&h&[])]; [by left|right]. exists r, h. by constructor. Qed.
Lemma grows_temporaries f temporaries : grows f (set_record (lf_record f) temporaries f).
Proof. split; [done|]. intros r Hr. by exists r. Qed.

Lemma triple_write_app ok s0 pid name f r h :
  ar_name r = name -> sound_folder f -> numbered_versions (lf_evolutions f) h -> lf_evolutions_dir f = RealDir ->
  (head_of r = h \/ head_of r + 1 = h)%Z -> (0 <= head_of r)%Z ->
  (forall name e, lf_incomplete f !! name = Some e -> exists files, e = VersionDir files) ->
  (forall r0, recorded f r0 -> keeps_identity r0 r) ->
  (ok -> valid_record r /\ (ar_created_at_unix r <= I64_MAX)%Z /\
         lf_record f <> Some SpecialFile) ->
  triple ok (at_folder s0 name f) (write_app_record pid r) 3
    (λ _ s, exists f', at_folder s0 name f' s /\ ledger_at f' r h /\ same_versions f f') (keeps s0).
Proof.
  intros <- Hsound Hn Hd Hh H0h Hinc Hi Hok. set (name := ar_name r). unfold write_app_record. fold name.
  apply (triple_bind _ _ 0 (λ _ s, valid_record r /\ at_folder s0 name f s) _ 3).
  { apply triple_lift. intros s Hs. destruct (validate_app_record r name) as [[]|e] eqn:Ev.
    - split; [|done]. unfold validate_app_record in Ev.
      by apply then_Ok in Ev as [[_ Hv]%valid_record_at _].
    - split; [apply Hs|]. intros (Hv&_)%Hok. unfold name in Ev. by rewrite valid_own_name in Ev. }
  intros []. apply triple_pure. intros Hvalid.
  apply (triple_bind _ _ 0 (λ f' s, f' = f /\ at_folder s0 name f s) _ 3).
  { apply triple_gets. intros s Hs. unfold tohseno_folder. destruct Hs as [Hk Hf]. pose proof Hf as Hf'.
    unfold folder_of in Hf'. destruct (fm_apps s !! name) as [[[|f'|]|]|]; try done. by injection Hf' as ->. }
  intros f'. apply triple_pure. intros ->.
  apply (triple_bind _ _ 0 (λ _, at_folder s0 name f) _ 3).
  { apply triple_lift. intros s Hs. unfold fail_if. destruct (bool_decide_reflect (lf_record f = Some SpecialFile)) as [E|]; [|done].
    split; [apply Hs|]. by intros (_&_&?)%Hok. }
  intros []. apply (triple_bind _ _ 0 (λ encoded s, app_to_toml r = Ok encoded /\ at_folder s0 name f s) _ 3).
  { apply triple_lift. intros s Hs. destruct (app_to_toml r) as [b|e] eqn:E; [by split|]. cbn. split; [apply Hs|].
    intros (_&Hc&_)%Hok. apply app_encodes in Hc. by rewrite E in Hc. }
  intros encoded. apply triple_pure. intros Henc.
  destruct (first_free_found (lf_temporaries f) (pair pid) (taken_temporary f pid)) as (ordinal&->&_).
  { intros a b [= E]. done. }
  { intros i. unfold taken_temporary. destruct (_ !! _); [by eexists|done]. }
  apply (triple_bind _ _ 0 (λ o s, o = ordinal /\ at_folder s0 name f s) _ 3); [by apply triple_lift; intros s Hs|].
  intros o. apply triple_pure. intros ->.
  set (f1 := set_record (lf_record f) (<[(pid, ordinal) := []]> (lf_temporaries f)) f).
  set (f2 := set_record (lf_record f1) (<[(pid, ordinal) := encoded]> (lf_temporaries f1)) f1).
  set (f3 := set_record (Some (PrivateBytes encoded)) (delete (pid, ordinal) (lf_temporaries f2)) f2).
  apply (triple_bind _ _ 1 (λ _, at_folder s0 name f1) _ 2).
  { apply (triple_folder ok s0 name _ (λ f, set_record (lf_record f) (<[(pid, ordinal) := []]> (lf_temporaries f)) f));
      [by apply sound_temporaries|by apply grows_temporaries]. }
  intros []. apply (triple_bind _ _ 1 (λ _, at_folder s0 name f2) _ 1).
  { apply (triple_folder ok s0 name _ (λ f, set_record (lf_record f) (<[(pid, ordinal) := encoded]> (lf_temporaries f)) f));
      [by do 2 apply sound_temporaries|by apply grows_temporaries]. }
  intros [].
  assert (recorded f3 r) as Hr3 by (exists encoded; split_and!; [done|by eapply app_utf8|by apply app_round_trip]).
  assert (ledger_at f3 r h) as Hl3.
  { constructor; try done. eapply app_created, app_round_trip, Henc. }
  eapply triple_weaken; [apply (triple_folder ok s0 name f2
    (λ f, set_record (Some (PrivateBytes encoded)) (delete (pid, ordinal) (lf_temporaries f)) f))|done|done| |done].
  - by eapply ledger_sound.
  - split; [done|]. intros r0 Hr0. exists r. split; [exact Hr3|]. by apply Hi.
  - intros [] s Hs. by exists f3.
Qed.

(** ** Loading *)

Lemma version_entry_folder s name f number : folder_of s name = Some f ->
  version_entry s name number = lf_evolutions f !! padded4 number.
Proof. unfold version_entry. by intros ->. Qed.
Lemma sealed_marker files number : sealed_files files -> has_valid_completion_marker files number = Ok true.
Proof. unfold has_valid_completion_marker. intros ->. by rewrite bool_decide_eq_true_2. Qed.
Lemma unsealed_marker files number : unsealed_files files -> has_valid_completion_marker files number = Ok false.
Proof. unfold has_valid_completion_marker. by intros ->. Qed.
Lemma next_unsealed m h e : numbered_versions m h -> m !! padded4 (h + 1) = Some e ->
  exists files, e = VersionDir files /\ unsealed_files files.
Proof. intros [Hr He Hs Ho] Hm. destruct (He _ _ Hm) as (n&files&_&_&_&->). exists files. split; [done|by apply Ho]. Qed.

Lemma triple_recover ok s0 pid f r0 r h :
  ledger_at f r0 h -> keeps_identity r0 r -> valid_record r -> head_of r = head_of r0 ->
  triple ok (at_folder s0 (ar_name r) f) (recover_interrupted_finalization pid r) 3
    (λ r' s, exists f', at_folder s0 (ar_name r) f' s /\ same_versions f f' /\ head_of r' = h /\ keeps_identity r0 r' /\
       valid_record r' /\ ar_name r' = ar_name r /\ (f' = f /\ r' = r \/ ledger_at f' r' h)) (keeps s0).
Proof.
  intros Hl Hi Hv Hh. set (name := ar_name r). pose proof (la_versions _ _ _ Hl) as Hn.
  pose proof (nv_range _ _ Hn) as Hr. pose proof (la_head _ _ _ Hl) as Hd. pose proof (la_nonneg _ _ _ Hl) as H0h.
  unfold recover_interrupted_finalization. fold name.
  apply (triple_bind _ _ 0 (λ _, at_folder s0 name f) _ 3).
  { apply triple_gets. intros s Hs. destruct (ar_latest_evolution r) as [n|] eqn:E; [|done].
    assert (head_of r = n) as En by (unfold head_of; by rewrite E).
    destruct (vr_chronology _ Hv) as [_ Hn0]. rewrite E in Hn0.
    destruct (nv_sealed _ _ Hn n) as (files&Hm&Hf); [assert (n <> 0)%Z by congruence; lia|].
    rewrite (version_entry_folder _ _ f), Hm by apply Hs. cbn. by rewrite sealed_marker. }
  intros []. fold (head_of r). rewrite Hh.
  assert (forall Q, (forall s, at_folder s0 name f s -> head_of r = h -> Q r s) ->
    head_of r = h -> triple (E := LedgerError) ok (at_folder s0 name f) (mret r) 3 Q (keeps s0)) as Hret.
  { intros Q HQ Hhead t s Hs. split; [by apply HQ|lia]. }
  unfold checked_add_u32, checked_add. destruct (Z.leb_spec (head_of r0 + 1) U32_MAX) as [Hle|Hgt].
  2:{ apply Hret; [|lia]. intros s Hs Hhead. exists f. split_and!; try done. by left. }
  destruct (decide (head_of r0 = h)) as [Heq|Hne].
  - apply (triple_bind _ _ 0 (λ b s, b = false /\ at_folder s0 name f s) _ 3).
    + apply triple_gets. intros s Hs. rewrite (version_entry_folder _ _ f), Heq by apply Hs.
      destruct (lf_evolutions f !! padded4 (h + 1)) as [e|] eqn:E; [|done].
      destruct (next_unsealed _ _ _ Hn E) as (files&->&Hu). by rewrite unsealed_marker.
    + intros b. apply triple_pure. intros ->. apply Hret; [|congruence]. intros s Hs Hhead. exists f.
      split_and!; try done. by left.
  - assert (head_of r0 + 1 = h)%Z as -> by lia.
    apply (triple_bind _ _ 0 (λ b s, b = true /\ at_folder s0 name f s) _ 3).
    + apply triple_gets. intros s Hs. rewrite (version_entry_folder _ _ f) by apply Hs.
      destruct (nv_sealed _ _ Hn h) as (files&->&Hf); [lia|]. by rewrite sealed_marker.
    + intros b. apply triple_pure. intros ->. assert (keeps_identity r0 (with_latest h r)) as Hi'.
      { etrans; [exact Hi|]. apply identity_latest. lia. }
      assert (valid_record (with_latest h r)) as Hv' by (apply valid_latest; [done|lia]).
      eapply (triple_bind _ _ 3 _ _ 0).
      * apply (triple_write_app _ _ _ _ f (with_latest h r) h); [done|by eapply ledger_sound|done|apply Hl|by left|cbn; lia|apply Hl| |].
        -- intros r1 Hr1. by rewrite (recorded_unique _ _ _ Hr1 (la_recorded _ _ _ Hl)).
        -- intros _. split_and!; [done| |]; [rewrite (ki_created _ _ Hi'); apply Hl|].
           destruct (la_recorded _ _ _ Hl) as (bytes&->&_). done.
      * intros []. apply triple_ret. intros s (f'&Hs&Hl'&Hsame). exists f'. split_and!; try done. by right.
Qed.

(** What [load_app] needs. *)
Record loadable (name : string) (f : LedgerFolder) : Prop := {
  lo_name : validate_app_name name = Ok tt;
  lo_ledger : exists r h, ledger_at f r h;
  lo_fits : forall bytes, lf_record f = Some (PrivateBytes bytes) -> (file_len bytes <= APP_RECORD_LIMIT)%Z }.
Definition loaded (s0 : Family) (name : string) (f f' : LedgerFolder) (r : AppRecord) (s : Family) : Prop :=
  at_folder s0 name f' s /\ ledger_at f' r (head_of r) /\ ar_name r = name /\ same_versions f f' /\
  validate_app_name name = Ok tt /\ forall r0, recorded f r0 -> keeps_identity r0 r.
Lemma read_record_sound s name f r : sound_folder f -> folder_of s name = Some f -> read_app_record s name = Ok r ->
  validate_app_name name = Ok tt /\ exists h, ledger_at f r h.
Proof.
  intros Hs Hf. unfold read_app_record, open_ledger. unfold folder_of in Hf.
  destruct (fm_apps s !! name) as [[[|f'|]|]|]; try done. injection Hf as ->.
  intros (f'&(u&Hn&Ho)%bind_Ok&Hr)%bind_Ok. apply bind_Ok in Ho as (u'&_&Ho).
  destruct (lf_evolutions_dir f); try done. injection Ho as <-. destruct u.
  apply bind_Ok in Hr as (bytes&Hb&Hr). destruct (lf_record f) as [[b|]|] eqn:E; try done.
  apply then_Ok in Hb as [_ [= ->]]. apply then_Ok in Hr as [Hu%fail_if_Ok Hr]. apply negb_false_iff in Hu.
  apply bind_Ok in Hr as (r'&Ht%map_err_Ok&Hv). apply then_Ok in Hv as [_ [= ->]]. split; [done|].
  apply sound_recorded; [done|]. by exists bytes.
Qed.
Lemma read_record_total s name f r h : fm_root s = RealDir -> folder_of s name = Some f -> loadable name f ->
  ledger_at f r h -> read_app_record s name = Ok r.
Proof.
  intros Hroot Hf [Hn _ Hfit] Hl. unfold read_app_record, open_ledger. rewrite Hn, Hroot. cbn. unfold folder_of in Hf.
  destruct (fm_apps s !! name) as [[[|f'|]|]|]; try done. injection Hf as ->. rewrite (la_dir _ _ _ Hl). cbn.
  destruct (la_recorded _ _ _ Hl) as (bytes&E&Hu&Hr). rewrite E. specialize (Hfit _ E).
  rewrite (proj2 (Z.ltb_ge _ _)) by done. cbn. rewrite Hu. cbn. rewrite Hr. cbn.
  by rewrite (proj2 (valid_record_at r name tt)) by (split; [done|apply Hl]).
Qed.
Lemma triple_load ok s0 pid name o :
  (ok -> fm_root s0 = RealDir /\ exists f, o = Some f /\ loadable name f) ->
  triple ok (λ s, keeps s0 s /\ folder_of s name = o) (load_app pid name) 6
    (λ r s, exists f f', o = Some f /\ loaded s0 name f f' r s) (keeps s0).
Proof.
  intros Hok. unfold load_app.
  apply (triple_bind _ _ 0 (λ r0 s, exists f, (o = Some f /\ validate_app_name name = Ok tt /\ exists h, ledger_at f r0 h) /\
    at_folder s0 name f s) _ 6).
  { apply triple_gets. intros s [Hk Ho]. destruct o as [f|].
    - destruct (read_app_record s name) as [r0|e] eqn:E.
      + exists f. split; [|done]. split; [done|]. eapply read_record_sound; [by eapply (proj1 Hk)|done|done].
      + split; [done|]. intros (Hroot&f'&[= <-]&Hlo)%Hok. destruct (lo_ledger _ _ Hlo) as (r&h&Hl).
        apply (proj1 (proj2 Hk)) in Hroot. by rewrite (read_record_total s name f r h) in E.
    - destruct (read_app_record s name) as [r0|e] eqn:E.
      + exfalso. unfold read_app_record, open_ledger, folder_of in *. destruct (fm_apps s !! name) as [[[|f'|]|]|]; res_inv; done.
      + split; [done|]. by intros (_&f'&?&_)%Hok. }
  intros r0. apply triple_exists. intros f. apply triple_pure. intros (->&Hn&h&Hl).
  set (r := renamed_record name r0). assert (ar_name r = name) as Hname by apply name_renamed.
  apply (triple_bind _ _ 3 (λ r' s, exists f', at_folder s0 name f' s /\ same_versions f f' /\ head_of r' = h /\
    keeps_identity r0 r' /\ valid_record r' /\ ar_name r' = name /\ (f' = f /\ r' = r \/ ledger_at f' r' h)) _ 3).
  { rewrite <- Hname. apply triple_recover; [done|apply identity_renamed| |apply head_renamed].
    apply valid_renamed; [apply Hl|done]. }
  intros r'. apply triple_exists. intros f'.
  apply (triple_pre (λ s, (same_versions f f' /\ head_of r' = h /\ keeps_identity r0 r' /\ valid_record r' /\
    ar_name r' = name /\ (f' = f /\ r' = r \/ ledger_at f' r' h)) /\ at_folder s0 name f' s)); [|naive_solver].
  apply triple_pure. intros (Hsame&Hhead&Hi&Hv&Hname'&Hf').
  assert (forall r1, recorded f r1 -> keeps_identity r1 r') as Hrec
    by (intros r1 Hr1; by rewrite (recorded_unique _ _ _ Hr1 (la_recorded _ _ _ Hl))).
  assert (sound_folder f' /\ numbered_versions (lf_evolutions f') h /\ lf_evolutions_dir f' = RealDir /\
    (0 <= head_of r')%Z /\ (ar_created_at_unix r' <= I64_MAX)%Z /\ lf_record f' <> Some SpecialFile /\
    (forall name e, lf_incomplete f' !! name = Some e -> exists files, e = VersionDir files) /\
    (forall r1, recorded f' r1 -> keeps_identity r1 r')) as (Hs'&Hn'&Hd'&H0'&Hc'&Hsp'&Hinc'&Hr').
  { assert (forall x, ledger_at f' x h -> sound_folder f' /\ numbered_versions (lf_evolutions f') h /\
      lf_evolutions_dir f' = RealDir /\ lf_record f' <> Some SpecialFile /\
      (forall name e, lf_incomplete f' !! name = Some e -> exists files, e = VersionDir files)) as Hx.
    { intros x Hlx. split_and!; [by eapply ledger_sound|apply Hlx|apply Hlx| |apply Hlx].
      destruct (la_recorded _ _ _ Hlx) as (b&->&_). done. }
    pose proof (nv_range _ _ (la_versions _ _ _ Hl)). rewrite (ki_created _ _ Hi). pose proof (la_created _ _ _ Hl).
    destruct Hf' as [[-> ->]|Hl']; [destruct (Hx _ Hl) as (?&?&?&?&?)|destruct (Hx _ Hl') as (?&?&?&?&?)]; split_and!; try done; try lia.
    intros r1 Hr1. by rewrite (recorded_unique _ _ _ Hr1 (la_recorded _ _ _ Hl')). }
  eapply (triple_bind _ _ 3 (λ _ s, exists f'', loaded s0 name f f'' r' s) _ 0).
  - apply triple_when.
    + intros _. eapply triple_weaken; [apply (triple_write_app ok s0 pid name f' r' h); try done; by left|lia|done| |done].
      intros [] s (f''&Hs&Hl''&Hsame'). exists f''. split_and!; try done; [by rewrite Hhead|by eapply same_versions_trans].
    + intros Hsn s Hs. exists f'. split_and!; try done. rewrite Hhead. destruct Hf' as [[-> ->]|Hl']; [|done].
      apply negb_false_iff, bool_decide_eq_true in Hsn. unfold r, renamed_record. by rewrite bool_decide_eq_true_2.
  - intros []. apply triple_ret. intros s (f''&Hs). by exists f, f''.
Qed.

(** ** The next Version *)

Lemma on_version_eq a b g f : padded4 a = padded4 b -> on_version a g f = on_version b g f.
Proof. unfold on_version. by intros ->. Qed.
(** A change of the next Version, and of what was archived. *)
Lemma update_next f r h e incomplete_dir incomplete :
  ledger_at f r h -> (h + 1 <= U32_MAX)%Z ->
  (forall x, e = Some x -> exists files, x = VersionDir files /\ unsealed_files files) ->
  (forall name e, incomplete !! name = Some e -> exists files, e = VersionDir files) ->
  let f' := set_versions (lf_evolutions_dir f) (partial_alter (λ _, e) (padded4 (h + 1)) (lf_evolutions f))
              incomplete_dir incomplete f in
  ledger_at f' r h /\ grows f f'.
Proof.
  intros Hl Hh He Hi f'. pose proof Hl as []. split.
  - constructor; try done. by apply numbered_update.
  - split; [|intros r0 Hr0; by exists r0]. intros entry files Hm Hf. cbn.
    rewrite lookup_partial_alter_ne; [done|]. intros <-. pose proof (nv_open _ _ la_versions0 _ Hm) as Hu.
    unfold sealed_files, unsealed_files in *. congruence.
Qed.
(** The next Version as it is being filled. *)
Definition open_version (f : LedgerFolder) (r : AppRecord) (h : Z) (files : VersionFiles) : Prop :=
  ledger_at f r h /\ (h + 1 <= U32_MAX)%Z /\ lf_evolutions f !! padded4 (h + 1) = Some (VersionDir files) /\
  unsealed_files files.
Lemma on_version_open f r h files g : open_version f r h files ->
  on_version (h + 1) g f = set_versions (lf_evolutions_dir f)
    (partial_alter (λ _, Some (VersionDir (g files))) (padded4 (h + 1)) (lf_evolutions f))
    (lf_incomplete_dir f) (lf_incomplete f) f.
Proof. intros (_&_&Hm&_). unfold on_version, set_ledger_evolutions. by rewrite (alter_partial _ _ _ _ Hm). Qed.
Lemma open_on_version f r h files g : open_version f r h files -> unsealed_files (g files) ->
  open_version (on_version (h + 1) g f) r h (g files) /\ grows f (on_version (h + 1) g f).
Proof.
  intros Ho Hu. rewrite (on_version_open _ _ _ _ _ Ho). destruct Ho as (Hl&Hh&Hm&_).
  destruct (update_next f r h (Some (VersionDir (g files))) (lf_incomplete_dir f) (lf_incomplete f)) as [Hl' Hg];
    [done|done|intros x [= <-]; by eexists|apply Hl|]. split; [|done]. split_and!; [done|done| |done].
  cbn. by rewrite lookup_partial_alter_eq.
Qed.
Lemma triple_open ok s0 name f r h files number g :
  open_version f r h files -> unsealed_files (g files) -> padded4 number = padded4 (h + 1) ->
  triple (E := LedgerError) ok (at_folder s0 name f) (change (on_folder name (on_version number g))) 1
    (λ _, at_folder s0 name (on_version (h + 1) g f)) (keeps s0).
Proof.
  intros Ho Hu E. destruct (open_on_version _ _ _ _ _ Ho Hu) as [[Hl _] Hg].
  pose proof (triple_folder ok s0 name f (on_version number g)) as Ht. rewrite (on_version_eq number (h + 1)) in Ht by done.
  apply Ht; [by eapply ledger_sound|done].
Qed.

(** ** Reserving *)

Lemma attempt_name_inj number now : Inj (=) (=) (attempt_name number now).
Proof.
  intros a b E. unfold attempt_name in E. do 4 apply (inj (String.app _)) in E. apply padded4_inj in E; lia.
Qed.
Lemma triple_archive ok s0 name f r h files now : open_version f r h files ->
  triple ok (at_folder s0 name f) (archive_incomplete_evolution name (h + 1) now) 2
    (λ _ s, exists f' destination, at_folder s0 name f' s /\ ledger_at f' r h /\
       lf_evolutions f' = delete (padded4 (h + 1)) (lf_evolutions f) /\
       lf_incomplete f !! destination = None /\ lf_incomplete f' = <[destination := VersionDir files]> (lf_incomplete f))
    (keeps s0).
Proof.
  intros (Hl&Hh&Hm&Hu). unfold archive_incomplete_evolution.
  apply (triple_bind _ _ 0 (λ f' s, f' = f /\ at_folder s0 name f s) _ 2).
  { apply triple_gets. intros s Hs. by rewrite (proj2 Hs). }
  intros f'. apply triple_pure. intros ->.
  set (dir := match lf_incomplete_dir f with NoDir => RealDir | k => k end).
  set (f1 := set_versions (lf_evolutions_dir f) (lf_evolutions f) dir (lf_incomplete f) f).
  assert (ledger_at f1 r h /\ grows f f1) as [Hl1 Hg1].
  { split; [by destruct Hl; constructor|]. split; [done|]. intros r0 Hr0. by exists r0. }
  apply (triple_bind _ _ 1 (λ _, at_folder s0 name f1) _ 1).
  { apply triple_when.
    - intros Ed. apply bool_decide_eq_true in Ed. unfold f1, dir. rewrite Ed.
      apply (triple_folder ok s0 name f (λ f, set_versions (lf_evolutions_dir f) (lf_evolutions f) RealDir (lf_incomplete f) f));
        unfold f1, dir in *; rewrite Ed in *; [by eapply ledger_sound|done].
    - intros Ed s Hs. apply bool_decide_eq_false in Ed. enough (f1 = f) as -> by done. unfold f1, dir.
      destruct f as [? ? ? ? [] ?]; done. }
  intros [].
  destruct (first_free_found (lf_incomplete f) (attempt_name (h + 1) now)
    (λ ordinal, entry_exists (lf_incomplete f !! attempt_name (h + 1) now ordinal))) as (ordinal&->&Hfree).
  { apply attempt_name_inj. }
  { intros i. destruct (lf_incomplete f !! attempt_name (h + 1) now i); [intros _; by eexists|done]. }
  assert (lf_incomplete f !! attempt_name (h + 1) now ordinal = None) as Hnone.
  { destruct (lf_incomplete f !! attempt_name (h + 1) now ordinal) as [e|] eqn:E; [|done]. by destruct (la_incomplete _ _ _ Hl _ _ E) as (fs&->). }
  set (destination := attempt_name (h + 1) now ordinal) in *.
  apply (triple_bind _ _ 0 (λ o s, o = ordinal /\ at_folder s0 name f1 s) _ 1); [by apply triple_lift; intros s Hs|].
  intros o. apply triple_pure. intros ->. fold destination. rewrite Hm, Hnone.
  apply (triple_bind _ _ 0 (λ _, at_folder s0 name f1) _ 1); [by apply triple_lift|]. intros [].
  destruct (update_next f1 r h None dir (<[destination := VersionDir files]> (lf_incomplete f))) as [Hl2 Hg2]; [done..| |].
  { intros n e. rewrite lookup_insert_Some. intros [[_ <-]|[_ ?]]; [by eexists|by eapply la_incomplete]. }
  set (move := λ f, match lf_evolutions f !! padded4 (h + 1) with
    | Some e => set_versions (lf_evolutions_dir f) (delete (padded4 (h + 1)) (lf_evolutions f)) (lf_incomplete_dir f)
                  (<[destination := e]> (lf_incomplete f)) f
    | None => f end).
  set (f2 := set_versions _ _ _ _ _) in Hl2, Hg2.
  assert (move f1 = f2) as E2 by (unfold move; cbn; by rewrite Hm).
  eapply triple_weaken; [apply (triple_folder ok s0 name f1 move)|done|done| |done].
  - rewrite E2. by eapply ledger_sound.
  - by rewrite E2.
  - intros [] s Hs. cbn beta in Hs. rewrite E2 in Hs. by exists f2, destination.
Qed.

(** What a reservation puts into the new directory. *)
Definition children_tree (children : list string) (files : VersionFiles) : VersionFiles :=
  foldl (λ files child, <[[child] := TreeDir]> files) files children.
Lemma triple_children ok s0 name r h children : ".complete" ∉ children -> forall f files, open_version f r h files ->
  triple ok (at_folder s0 name f) (create_children name (h + 1) children) (length children)
    (λ _ s, exists f', at_folder s0 name f' s /\ open_version f' r h (children_tree children files) /\
       (forall entry, entry <> padded4 (h + 1) -> lf_evolutions f' !! entry = lf_evolutions f !! entry) /\
       lf_incomplete f' = lf_incomplete f /\ lf_record f' = lf_record f) (keeps s0).
Proof.
  induction children as [|child children IH]; intros Hc f files Ho.
  { apply triple_ret. intros s Hs. by exists f. }
  apply not_elem_of_cons in Hc as [Hne Hc]. cbn [create_children length].
  set (g := insert [child] TreeDir : VersionFiles -> VersionFiles).
  assert (unsealed_files (g files)) as Hu.
  { unfold unsealed_files, g. rewrite lookup_insert_ne; [apply Ho|congruence]. }
  destruct (open_on_version _ _ _ _ _ Ho Hu) as [Ho' _].
  apply (triple_bind _ _ 1 (λ _, at_folder s0 name (on_version (h + 1) g f)) _ (length children)).
  { by eapply triple_open. }
  intros []. eapply triple_weaken; [by apply IH|done|done| |done].
  intros [] s (f'&Hs&Ho''&He&Hi&Hr). exists f'. split_and!; [done|done| |by rewrite Hi|by rewrite Hr].
  intros entry Hentry. rewrite He by done. cbn. by rewrite lookup_alter_ne.
Qed.

(** Steps taken together. *)
Lemma triple_regroup {A} ok P (m1 m2 m3 : Io unit) (k : unit -> Io A) n Q I :
  triple ok P ((m1 ;; m2 ;; m3) ≫= k) n Q I -> triple ok P (m1 ;; m2 ;; (m3 ≫= k)) n Q I.
Proof.
  intros Ht t s HP. specialize (Ht t s HP). unfold mbind, Io_bind in *.
  destruct (m1 t s) as [[s1 t1] [|[[]|e]]]; try done. by destruct (m2 t1 s1) as [[s2 t2] [|[[]|e]]].
Qed.
(** An operation that begins by loading the app. *)
Lemma triple_loaded {A} ok s0 pid name o (k : AppRecord -> Io A) n (Q : A -> Family -> Prop) :
  (ok -> fm_root s0 = RealDir /\ exists f, o = Some f /\ loadable name f) ->
  (forall r f f', o = Some f -> ledger_at f' r (head_of r) -> ar_name r = name -> same_versions f f' ->
     validate_app_name name = Ok tt -> (forall r0, recorded f r0 -> keeps_identity r0 r) ->
     triple ok (at_folder s0 name f') (k r) n Q (keeps s0)) ->
  triple ok (λ s, keeps s0 s /\ folder_of s name = o) (r ← load_app pid name; k r) (6 + n) Q (keeps s0).
Proof.
  intros Hok Hk. eapply triple_bind; [by apply triple_load|]. intros r.
  apply triple_exists. intros f. apply triple_exists. intros f' t s (Ho&Hs&Hl&Hn&Hsame&Hv&Hi). by apply (Hk r f f').
Qed.
(** Writing a record that differs in other fields than the head. *)
Lemma triple_update ok s0 pid name f r h r' : ledger_at f r h -> ar_name r' = name -> head_of r' = head_of r ->
  keeps_identity r r' -> (ok -> valid_record r') ->
  triple ok (at_folder s0 name f) (write_app_record pid r') 3
    (λ _ s, exists f', at_folder s0 name f' s /\ ledger_at f' r' h /\ same_versions f f') (keeps s0).
Proof.
  intros Hl Hn Hh Hi Hok. apply triple_write_app; [done|by eapply ledger_sound|apply Hl|apply Hl| | |apply Hl| |].
  - rewrite Hh. apply Hl.
  - rewrite Hh. apply Hl.
  - intros r0 Hr0. by rewrite (recorded_unique _ _ _ Hr0 (la_recorded _ _ _ Hl)).
  - intros Ho. split_and!; [by apply Hok|rewrite (ki_created _ _ Hi); apply Hl|].
    destruct (la_recorded _ _ _ Hl) as (b&->&_). done.
Qed.

Lemma valid_with_parent r number parent : valid_record r -> (0 <= number <= U32_MAX)%Z -> (0 < parent < number)%Z ->
  valid_record (with_parent number parent r).
Proof.
  intros [] Hn Hp. constructor; try done. cbn. intros child p. rewrite lookup_insert_Some.
  intros [[<- <-]|[_ Hc]]; [|by apply vr_parents0]. exists number. cbn [fst snd].
  rewrite parse_pretty by lia. split_and!; [done|lia..].
Qed.
Lemma children_unsealed children : ".complete" ∉ children -> forall files, unsealed_files files ->
  unsealed_files (children_tree children files).
Proof.
  induction children as [|c children IH]; intros Hc files Hu; [done|]. apply not_elem_of_cons in Hc as [Hn Hc].
  cbn. apply IH; [done|]. unfold unsealed_files. rewrite lookup_insert_ne; [done|congruence].
Qed.

(** What a reservation makes of the folder [f]: the next Version is there, with
    its empty directories; what there was of it is archived; nothing else of the
    Versions changed. *)
Definition reserved (root name : string) (children : list string) (f f' : LedgerFolder) (h : Z) (e : AppEvolution) : Prop :=
  e = evolution_at root name (h + 1) /\
  lf_evolutions f' !! padded4 (h + 1) = Some (VersionDir (children_tree children ∅)) /\
  (forall entry, entry <> padded4 (h + 1) -> lf_evolutions f' !! entry = lf_evolutions f !! entry) /\
  lf_incomplete f ⊆ lf_incomplete f' /\
  (forall x, lf_evolutions f !! padded4 (h + 1) = Some x -> exists destination,
     lf_incomplete f !! destination = None /\ lf_incomplete f' !! destination = Some x).
Lemma triple_create_version ok s0 name f r h children : ledger_at f r h -> (h + 1 <= U32_MAX)%Z ->
  ".complete" ∉ children -> lf_evolutions f !! padded4 (h + 1) = None ->
  triple ok (at_folder s0 name f)
    (gets (λ s, fail_if (opt_is_some (version_entry s name (h + 1))) (LedgerIo LedgerAlreadyExists)) ;;
     change (on_folder name (λ f, set_ledger_evolutions (<[padded4 (h + 1) := VersionDir ∅]> (lf_evolutions f)) f)) ;;
     create_children name (h + 1) children) (1 + length children)
    (λ _ s, exists f', at_folder s0 name f' s /\ open_version f' r h (children_tree children ∅) /\
       (forall entry, entry <> padded4 (h + 1) -> lf_evolutions f' !! entry = lf_evolutions f !! entry) /\
       lf_incomplete f' = lf_incomplete f) (keeps s0).
Proof.
  intros Hl Hh Hc Hnone. apply (triple_bind _ _ 0 (λ _, at_folder s0 name f)).
  { apply triple_gets. intros s Hs. rewrite (version_entry_folder _ _ f), Hnone by apply Hs. done. }
  intros [].
  destruct (update_next f r h (Some (VersionDir ∅)) (lf_incomplete_dir f) (lf_incomplete f)) as [Hl' Hg];
    [done|done|intros x [= <-]; by exists ∅|apply Hl|].
  set (f' := set_ledger_evolutions (<[padded4 (h + 1) := VersionDir ∅]> (lf_evolutions f)) f).
  change (ledger_at f' r h) in Hl'. change (grows f f') in Hg.
  apply (triple_bind _ _ 1 (λ _, at_folder s0 name f')).
  { apply (triple_folder ok s0 name f (λ f, set_ledger_evolutions (<[padded4 (h + 1) := VersionDir ∅]> (lf_evolutions f)) f));
      [by eapply ledger_sound|done]. }
  intros []. assert (open_version f' r h ∅) as Ho by (split_and!; [done|done|cbn; by rewrite lookup_insert_eq|done]).
  eapply triple_weaken; [by apply (triple_children ok s0 name r h children Hc f' ∅)|done|done| |done].
  intros [] s (f''&Hs&Ho'&He&Hi&_). exists f''. split_and!; [done|done| |done].
  intros entry Hne. rewrite He by done. cbn. by rewrite lookup_insert_ne.
Qed.
(** The place of the next Version is free, and what was there is archived. *)
Definition room (f f2 : LedgerFolder) (r : AppRecord) (h : Z) : Prop :=
  ledger_at f2 r h /\ lf_evolutions f2 !! padded4 (h + 1) = None /\
  (forall entry, entry <> padded4 (h + 1) -> lf_evolutions f2 !! entry = lf_evolutions f !! entry) /\
  lf_incomplete f ⊆ lf_incomplete f2 /\ (forall x, lf_evolutions f !! padded4 (h + 1) = Some x -> exists destination,
    lf_incomplete f !! destination = None /\ lf_incomplete f2 !! destination = Some x).
Lemma triple_make_room ok s0 name f f1 r h found now : ledger_at f1 r h -> (h + 1 <= U32_MAX)%Z ->
  lf_evolutions f1 = lf_evolutions f -> lf_incomplete f1 = lf_incomplete f -> found = lf_evolutions f1 !! padded4 (h + 1) ->
  triple ok (at_folder s0 name f1) (io_when (entry_exists found) (archive_incomplete_evolution name (h + 1) now)) 2
    (λ _ s, exists f2, room f f2 r h /\ at_folder s0 name f2 s) (keeps s0).
Proof.
  intros Hl Hh Ee Ei Hfound. apply triple_when.
  - intros Hex. destruct found as [x|]; [|done]. symmetry in Hfound.
    destruct (next_unsealed _ _ _ (la_versions _ _ _ Hl) Hfound) as (files&->&Hu).
    eapply triple_weaken; [by apply (triple_archive ok s0 name f1 r h files now)|done|done| |done].
    intros [] s (f2&d&Hs&Hl2&He&Hd&Hinc). exists f2. split; [|done]. rewrite Ei in Hd, Hinc.
    split_and!; [done|by rewrite He, lookup_delete_eq| | |].
    + intros entry Hne. by rewrite He, lookup_delete_ne, Ee.
    + rewrite Hinc. by apply insert_subseteq.
    + intros x Hx. exists d. split; [done|]. rewrite Hinc, lookup_insert_eq. rewrite <- Ee in Hx. congruence.
  - intros Hex s Hs. exists f1. split; [|done]. assert (lf_evolutions f1 !! padded4 (h + 1) = None) as Hnone.
    { rewrite <- Hfound. destruct found as [x|]; [|done]. symmetry in Hfound.
      by destruct (next_unsealed _ _ _ (la_versions _ _ _ Hl) Hfound) as (files&->&_). }
    split_and!; [done|done|by intros; rewrite Ee|by rewrite Ei|]. intros x Hx. rewrite <- Ee in Hx. congruence.
Qed.
Lemma triple_reserve ok s0 pid root name parent children now o : ".complete" ∉ children ->
  (ok -> fm_root s0 = RealDir /\ exists f, o = Some f /\ loadable name f /\ forall r h, ledger_at f r h ->
     (h + 1 <= U32_MAX)%Z /\ forall p, parent = Some p -> (0 < p <= h)%Z) ->
  triple ok (λ s, keeps s0 s /\ folder_of s name = o) (reserve_with_directories root pid name parent children now)
    (12 + length children)
    (λ e s, exists f f' r, o = Some f /\ at_folder s0 name f' s /\ ledger_at f' r (head_of r) /\
       numbered_versions (lf_evolutions f) (head_of r) /\ reserved root name children f f' (head_of r) e) (keeps s0).
Proof.
  intros Hc Hok. eapply triple_weaken;
    [apply (triple_loaded ok s0 pid name o _ (6 + length children))|lia|done|intros e s Hs; exact Hs|done].
  { intros (Hroot&f&Ho&Hlo&_)%Hok. split; [done|by exists f]. }
  intros r f f1 Ho Hl Hname Hsame Hvn Hi. set (h := head_of r) in *.
  assert (lf_evolutions f1 = lf_evolutions f /\ lf_incomplete f1 = lf_incomplete f) as [Ee Ei] by (destruct Hsame as (?&?&?&?); done).
  assert (ok -> (h + 1 <= U32_MAX)%Z /\ forall p, parent = Some p -> (0 < p <= h)%Z) as Hbound.
  { intros (_&f0&Ho0&Hlo&Hb)%Hok. rewrite Ho in Ho0. injection Ho0 as <-. destruct (lo_ledger _ _ Hlo) as (r0&h0&Hl0).
    assert (h = h0) as ->; [|by eapply Hb]. eapply numbered_unique; [|apply Hl0]. rewrite <- Ee. apply Hl. }
  clear Hok. apply (triple_bind _ _ 0 (λ number s, (number = h + 1 /\ h + 1 <= U32_MAX)%Z /\ at_folder s0 name f1 s) _ (6 + length children)).
  { apply triple_lift. intros s Hs. unfold next_app_sequence, checked_add_u32, checked_add. fold (head_of r). fold h.
    destruct (Z.leb_spec (h + 1) U32_MAX); [done|]. split; [apply Hs|]. intros [? _]%Hbound. lia. }
  intros number. apply triple_pure. intros [-> Hh].
  apply (triple_bind _ _ 0 (λ found s, found = lf_evolutions f1 !! padded4 (h + 1) /\ at_folder s0 name f1 s) _ (6 + length children)).
  { apply triple_gets. intros s Hs. split; [|done]. apply version_entry_folder, Hs. }
  intros found. apply triple_pure. intros Hfound.
  apply (triple_bind _ _ 2 (λ _ s, exists f2, room f f2 r h /\ at_folder s0 name f2 s) _ (4 + length children));
    [by apply triple_make_room|].
  intros []. apply triple_exists. intros f2. apply triple_pure. intros (Hl2&Hnone&He2&Hsub&Harch).
  apply triple_regroup. replace (4 + length children) with (1 + length children + 3) by lia.
  eapply (triple_bind _ _ (1 + length children)
    (λ _ s, exists f3, (open_version f3 r h (children_tree children ∅) /\
      (forall entry, entry <> padded4 (h + 1) -> lf_evolutions f3 !! entry = lf_evolutions f2 !! entry) /\
      lf_incomplete f3 = lf_incomplete f2) /\ at_folder s0 name f3 s) _ 3).
  { eapply triple_weaken; [by apply (triple_create_version ok s0 name f2 r h children)|done|done| |done].
    intros [] s (f3&Hs&Ho3&He3&Hi3). by exists f3. }
  intros []. apply triple_exists. intros f3. apply triple_pure. intros (Ho3&He3&Hi3).
  assert (forall f4, same_versions f3 f4 -> reserved root name children f f4 h (evolution_at root name (h + 1))) as Hres.
  { intros f4 (_&E4&_&I4). unfold reserved. rewrite E4, I4, Hi3. destruct Ho3 as (_&_&Hm&_).
    split_and!; [done|done| |done|done]. intros entry Hne. by rewrite He3, He2. }
  eapply (triple_bind _ _ 3 (λ _ s, exists f4 r4, at_folder s0 name f4 s /\ ledger_at f4 r4 h /\ head_of r4 = h /\ same_versions f3 f4) _ 0).
  - destruct parent as [p|].
    + eapply triple_weaken; [apply (triple_update ok s0 pid name f3 r h (with_parent (h + 1) p r))|done|done| |done].
      * apply Ho3.
      * done.
      * done.
      * by constructor; auto.
      * intros [_ Hp]%Hbound. specialize (Hp p eq_refl). pose proof (la_nonneg _ _ _ Hl).
        apply valid_with_parent; [apply Hl|lia|lia].
      * intros [] s (f4&Hs&Hl4&Hsame4). by exists f4, (with_parent (h + 1) p r).
    + eapply triple_weaken; [by apply (triple_ret _ tt (λ _, at_folder s0 name f3))|lia|done| |done].
      intros [] s Hs. exists f3, r. split_and!; try done; apply Ho3.
  - intros []. apply triple_ret. intros s (f4&r4&Hs&Hl4&Hh4&Hsame4). exists f, f4, r4. rewrite Hh4.
    assert (numbered_versions (lf_evolutions f) h) as Hnum by (rewrite <- Ee; apply Hl).
    exact (conj Ho (conj Hs (conj Hl4 (conj Hnum (Hres _ Hsame4))))).
Qed.

(** ** Sealing *)

Definition same_place (root : string) (shot : AppEvolution) : Prop :=
  same_path (ae_path shot) (ae_path (evolution_at root (ae_app_name shot) (ae_number shot))) = true.
Lemma writable_open root s shot files : sound_family s -> assert_writable root s shot = Ok files ->
  exists f r h, folder_of s (ae_app_name shot) = Some f /\ padded4 (ae_number shot) = padded4 (h + 1) /\
    open_version f r h files.
Proof.
  intros Hsound. unfold assert_writable. cbv zeta. intros (_&Ha)%then_Ok. apply then_Ok in Ha as (_&Ha).
  apply bind_Ok in Ha as (f&Hf%ok_or_Ok&Ha).
  apply then_Ok in Ha as (_&Ha). apply then_Ok in Ha as (_&Ha). apply bind_Ok in Ha as (fs&He&Ha).
  apply then_Ok in Ha as (Hu%fail_if_Ok&[= ->]). assert (lf_evolutions f !! padded4 (ae_number shot) = Some (VersionDir files)) as Hm.
  { unfold require_real_shot_directory in He. destruct (lf_evolutions f !! padded4 (ae_number shot)) as [[fs'| |]|]; try done.
    injection He as He. by rewrite He. }
  assert (unsealed_files files) as Hun by (unfold unsealed_files; by destruct (files !! [".complete"])).
  destruct (Hsound _ _ Hf) as [(_&E&_)|(r&h&Hl)]; [by rewrite E in Hm|].
  destruct (unsealed_is_next _ _ _ _ (la_versions _ _ _ Hl) Hm Hun) as [En Hh]. exists f, r, h.
  split; [done|]. split; [done|]. unfold open_version. by rewrite <- En.
Qed.
Lemma open_writable root s shot f r h files : folder_of s (ae_app_name shot) = Some f -> open_version f r h files ->
  validate_app_name (ae_app_name shot) = Ok tt -> ae_number shot = (h + 1)%Z -> same_place root shot ->
  assert_writable root s shot = Ok files.
Proof.
  intros Hf (Hl&_&Hm&Hu) Hn Hnum Hp. unfold assert_writable. pose proof (nv_range _ _ (la_versions _ _ _ Hl)).
  cbv zeta. unfold same_place in Hp. rewrite Hn, Hf, Hp, (proj2 (Z.eqb_neq (ae_number shot) 0)) by lia.
  cbn. rewrite (la_dir _ _ _ Hl), Hnum, Hm. cbn. unfold unsealed_files in Hu. by rewrite Hu.
Qed.
(** What an operation on a reserved Version begins with. *)
Lemma triple_writable ok s0 root shot o :
  (ok -> validate_app_name (ae_app_name shot) = Ok tt /\ same_place root shot /\
     exists f r h files, o = Some f /\ open_version f r h files /\ ae_number shot = (h + 1)%Z) ->
  triple ok (λ s, keeps s0 s /\ folder_of s (ae_app_name shot) = o) (gets (λ s, assert_writable root s shot)) 0
    (λ files s, exists f r h, (o = Some f /\ padded4 (ae_number shot) = padded4 (h + 1) /\ open_version f r h files) /\
       at_folder s0 (ae_app_name shot) f s) (keeps s0).
Proof.
  intros Hok. apply triple_gets. intros s [Hk Ho]. destruct (assert_writable root s shot) as [files|e] eqn:E.
  - destruct (writable_open _ _ _ _ (proj1 Hk) E) as (f&r&h&Hf&Hn&Hopen). exists f, r, h. split; [split_and!; congruence|done].
  - split; [done|]. intros (Hn&Hp&f&r&h&files&->&Hopen&Hnum)%Hok. by rewrite (open_writable root s shot f r h files) in E.
Qed.

Lemma marker_temporary_inj pid : Inj (=) (=) (marker_temporary pid).
Proof.
  intros a b E. unfold marker_temporary in E. injection E as E. do 3 apply (inj (String.app _)) in E. by apply (inj pretty) in E.
Qed.
Lemma marker_temporary_other pid ordinal : marker_temporary pid ordinal <> [".complete"].
Proof. unfold marker_temporary. intros E. injection E as E. destruct pid; discriminate E. Qed.
Lemma triple_publish_marker ok s0 pid shot f r h files : open_version f r h files -> head_of r = h ->
  padded4 (ae_number shot) = padded4 (h + 1) ->
  triple ok (at_folder s0 (ae_app_name shot) f) (publish_completion_marker pid shot) 3
    (λ _ s, exists f', at_folder s0 (ae_app_name shot) f' s /\ ledger_at f' r (h + 1) /\
       lf_evolutions f' !! padded4 (h + 1) = Some (VersionDir (<[[".complete"] := TreeFile COMPLETE_MARKER]> files)) /\
       (forall entry, entry <> padded4 (h + 1) -> lf_evolutions f' !! entry = lf_evolutions f !! entry) /\
       lf_incomplete f' = lf_incomplete f) (keeps s0).
Proof.
  intros Ho Hh E. set (name := ae_app_name shot). unfold publish_completion_marker. fold name.
  apply (triple_bind _ _ 0 (λ fs s, fs = files /\ at_folder s0 name f s) _ 3).
  { apply triple_gets. intros s Hs. unfold version_files. rewrite (version_entry_folder _ _ f), E by apply Hs.
    destruct Ho as (_&_&->&_). done. }
  intros fs. apply triple_pure. intros ->.
  destruct (first_free_found files (marker_temporary pid) (λ ordinal, opt_is_some (files !! marker_temporary pid ordinal)))
    as (ordinal&->&Hfree).
  { apply marker_temporary_inj. }
  { intros i. destruct (files !! marker_temporary pid i); [intros _; by eexists|done]. }
  apply (triple_bind _ _ 0 (λ o s, o = ordinal /\ at_folder s0 name f s) _ 3); [by apply triple_lift; intros s Hs|].
  intros o. apply triple_pure. intros ->. set (temporary := marker_temporary pid ordinal) in *.
  assert (files !! temporary = None) as Hnone by (by destruct (files !! temporary)).
  assert (temporary <> [".complete"]) as Hne by apply marker_temporary_other.
  pose proof Ho as (_&_&_&Hu). assert (opt_is_some (files !! [".complete"]) = false) as -> by (unfold unsealed_files in Hu; by rewrite Hu).
  set (w1 := insert temporary (TreeFile []) : VersionFiles -> VersionFiles).
  set (w2 := insert temporary (TreeFile COMPLETE_MARKER) : VersionFiles -> VersionFiles).
  set (w3 := λ files : VersionFiles, <[[".complete"] := TreeFile COMPLETE_MARKER]> (delete temporary files)).
  assert (unsealed_files (w1 files)) as Hu1 by (unfold unsealed_files, w1; by rewrite lookup_insert_ne).
  destruct (open_on_version f r h files w1 Ho Hu1) as [Ho1 _]. set (f1 := on_version (h + 1) w1 f) in *.
  assert (unsealed_files (w2 (w1 files))) as Hu2 by (unfold unsealed_files, w2; by rewrite lookup_insert_ne).
  destruct (open_on_version f1 r h _ w2 Ho1 Hu2) as [Ho2 _]. set (f2 := on_version (h + 1) w2 f1) in *.
  apply (triple_bind _ _ 1 (λ _, at_folder s0 name f1) _ 2); [by eapply triple_open|]. intros [].
  apply (triple_bind _ _ 1 (λ _, at_folder s0 name f2) _ 1); [by eapply triple_open|]. intros [].
  set (f3 := on_version (ae_number shot) w3 f2).
  assert (w3 (w2 (w1 files)) = <[[".complete"] := TreeFile COMPLETE_MARKER]> files) as Ew.
  { unfold w3, w2, w1. rewrite insert_insert_eq, delete_insert_id; done. }
  assert (f3 = set_versions (lf_evolutions_dir f2) (partial_alter (λ _, Some (VersionDir (<[[".complete"] := TreeFile COMPLETE_MARKER]> files)))
    (padded4 (h + 1)) (lf_evolutions f2)) (lf_incomplete_dir f2) (lf_incomplete f2) f2) as E3.
  { unfold f3. rewrite (on_version_eq _ (h + 1)) by done. by rewrite (on_version_open _ _ _ _ _ Ho2), Ew. }
  assert (ledger_at f3 r (h + 1)) as Hl3.
  { destruct Ho2 as (Hl2&Hh2&_&_). rewrite E3. destruct Hl2. constructor; try done; [|cbn; lia].
    cbn. apply numbered_seal; [done|done|]. unfold sealed_files. by rewrite lookup_insert_eq. }
  eapply triple_weaken; [apply (triple_folder ok s0 name f2 (on_version (ae_number shot) w3))|done|done| |done].
  - by eapply ledger_sound.
  - fold f3. rewrite E3. destruct Ho2 as (Hl2&_&_&_). split; [|intros r0 Hr0; by exists r0].
    intros entry fs Hm Hf. cbn. rewrite lookup_partial_alter_ne; [done|]. intros <-.
    pose proof (nv_open _ _ (la_versions _ _ _ Hl2) _ Hm) as Hx. unfold sealed_files, unsealed_files in *. congruence.
  - intros [] s Hs. exists f3. split; [exact Hs|]. split; [done|]. rewrite E3. cbn. split; [by rewrite lookup_partial_alter_eq|].
    split; [|done]. intros entry Hentry. rewrite lookup_partial_alter_ne by done. by rewrite !lookup_alter_ne.
Qed.

(** The record catches up with a seal. *)
Lemma triple_write_head ok s0 pid name f r h : ledger_at f r (h + 1) -> head_of r = h -> ar_name r = name ->
  triple ok (at_folder s0 name f) (write_app_record pid (with_latest (h + 1) r)) 3
    (λ _ s, exists f', at_folder s0 name f' s /\ ledger_at f' (with_latest (h + 1) r) (h + 1) /\ same_versions f f') (keeps s0).
Proof.
  intros Hl Hh Hn. pose proof (nv_range _ _ (la_versions _ _ _ Hl)). pose proof (la_nonneg _ _ _ Hl).
  apply triple_write_app; [done|by eapply ledger_sound|apply Hl|apply Hl|by left|cbn; lia|apply Hl| |].
  - intros r0 Hr0. rewrite (recorded_unique _ _ _ Hr0 (la_recorded _ _ _ Hl)). apply identity_latest. lia.
  - intros _. split_and!; [apply valid_latest; [apply Hl|lia]|apply Hl|]. destruct (la_recorded _ _ _ Hl) as (b&->&_). done.
Qed.
(** What sealing makes of the folder [f]: the Version has its marker, and nothing
    else in it or of the Versions changed. *)
Definition sealed_next (f f' : LedgerFolder) (h : Z) : Prop := exists files,
  lf_evolutions f !! padded4 (h + 1) = Some (VersionDir files) /\ unsealed_files files /\
  lf_evolutions f' !! padded4 (h + 1) = Some (VersionDir (<[[".complete"] := TreeFile COMPLETE_MARKER]> files)) /\
  (forall entry, entry <> padded4 (h + 1) -> lf_evolutions f' !! entry = lf_evolutions f !! entry) /\
  lf_incomplete f' = lf_incomplete f.
Lemma triple_seal ok s0 pid root shot o :
  (ok -> fm_root s0 = RealDir /\ same_place root shot /\ exists f r h files, o = Some f /\
     loadable (ae_app_name shot) f /\ open_version f r h files /\ ae_number shot = (h + 1)%Z) ->
  triple ok (λ s, keeps s0 s /\ folder_of s (ae_app_name shot) = o) (finalize_evolution root pid shot) 12
    (λ _ s, exists f f' r h, o = Some f /\ at_folder s0 (ae_app_name shot) f' s /\ ledger_at f' r (h + 1) /\
       head_of r = (h + 1)%Z /\ ae_number shot = (h + 1)%Z /\ sealed_next f f' h) (keeps s0).
Proof.
  intros Hok. set (name := ae_app_name shot) in *. unfold finalize_evolution.
  eapply (triple_bind _ _ 0 _ _ 12).
  { apply triple_writable. intros (_&Hp&f&r&h&files&Ho&Hlo&Hopen&Hn)%Hok. split_and!; [apply Hlo|done|]. by exists f, r, h, files. }
  intros files. apply triple_exists. intros f. apply triple_exists. intros r0. apply triple_exists. intros h.
  apply triple_pure. intros (Ho&E&Hopen). fold name.
  apply (triple_pre (λ s, keeps s0 s /\ folder_of s name = Some f)); [|done].
  apply (triple_loaded ok s0 pid name (Some f) _ 6).
  { intros (Hroot&_&f0&_&_&_&Ho0&Hlo&_)%Hok. split; [done|]. exists f. split; [done|]. congruence. }
  intros r f' f1 [= <-] Hl Hname Hsame Hvn Hi.
  assert (lf_evolutions f1 = lf_evolutions f /\ lf_incomplete f1 = lf_incomplete f) as [Ee Ei] by (destruct Hsame as (?&?&?&?); done).
  destruct Hopen as (Hl0&Hh&Hm&Hu).
  assert (head_of r = h) as Hhead by (eapply numbered_unique; [apply Hl|]; rewrite Ee; apply Hl0).
  apply (triple_bind _ _ 0 (λ number s, number = (h + 1)%Z /\ at_folder s0 name f1 s) _ 6).
  { apply triple_lift. intros s Hs. unfold next_app_sequence, checked_add_u32, checked_add. fold (head_of r).
    rewrite Hhead, (proj2 (Z.leb_le _ _)) by lia. done. }
  intros number. apply triple_pure. intros ->.
  apply (triple_bind _ _ 0 (λ _ s, ae_number shot = (h + 1)%Z /\ at_folder s0 name f1 s) _ 6).
  { apply triple_lift. intros s Hs. unfold fail_if. destruct (bool_decide_reflect (h + 1 = ae_number shot)%Z) as [En|En]; [done|].
    split; [apply Hs|]. intros (_&_&f0&r1&h1&files1&Ho0&_&(Hl1&_)&Hn1)%Hok. apply En. rewrite Hn1. f_equal.
    rewrite Ho in Ho0. injection Ho0 as <-. eapply numbered_unique; [apply Hl0|apply Hl1]. }
  intros []. apply triple_pure. intros En.
  assert (open_version f1 r h files) as Hopen1 by (rewrite <- Hhead in *; split_and!; [done|done|by rewrite Ee|done]).
  eapply (triple_bind _ _ 3 _ _ 3); [by apply (triple_publish_marker ok s0 pid shot f1 r h files)|].
  intros []. apply triple_exists. intros f2. fold name.
  apply (triple_pre (λ s, (ledger_at f2 r (h + 1) /\
       lf_evolutions f2 !! padded4 (h + 1) = Some (VersionDir (<[[".complete"] := TreeFile COMPLETE_MARKER]> files)) /\
       (forall entry, entry <> padded4 (h + 1) -> lf_evolutions f2 !! entry = lf_evolutions f1 !! entry) /\
       lf_incomplete f2 = lf_incomplete f1) /\ at_folder s0 name f2 s)); [|naive_solver].
  apply triple_pure. intros (Hl2&Hm2&He2&Hi2).
  rewrite En. eapply triple_weaken; [by apply (triple_write_head ok s0 pid name f2 r h)|done|done| |done].
  intros [] s (f3&Hs&Hl3&(_&E3&_&I3)). exists f, f3, (with_latest (h + 1) r), h.
  split; [done|]. split; [done|]. split; [done|]. split; [done|]. split; [done|]. exists files.
  rewrite E3, I3, Hm2, Hi2, Ei. split_and!; [done|done|done| |done]. intros entry Hne. by rewrite He2, Ee.
Qed.

(** ** What every operation keeps *)

Definition stable (s0 : Family) {A} (m : Io A) : Prop := spec (keeps s0) m (λ _, keeps s0) (keeps s0).
Lemma stable_bind {A B} s0 (m : Io A) (k : A -> Io B) : stable s0 m -> (forall a, stable s0 (k a)) -> stable s0 (m ≫= k).
Proof. intros Hm Hk. by apply (spec_bind _ _ (λ _, keeps s0)). Qed.
Lemma stable_ret {A} s0 (a : A) : stable s0 (mret a).
Proof. by apply spec_ret. Qed.
Lemma stable_lift {A} s0 (r : ledger_result A) : stable s0 (lift r).
Proof. apply spec_lift. intros s Hs. by destruct r. Qed.
Lemma stable_gets {A} s0 (f : Family -> ledger_result A) : stable s0 (gets f).
Proof. apply spec_gets. intros s Hs. by destruct (f s). Qed.
(** From the folder that is there. *)
Lemma stable_folder {A} s0 name (m : Io A) :
  (forall o, exists n Q, triple False (λ s, keeps s0 s /\ folder_of s name = o) m n Q (keeps s0) /\
     forall a s, Q a s -> keeps s0 s) -> stable s0 m.
Proof.
  intros Hm. apply (triple_spec _ _ 0). intros t s Hs. destruct (Hm (folder_of s name)) as (n&Q&Ht&HQ).
  specialize (Ht t s (conj Hs eq_refl)). destruct (m t s) as [[s' t'] [|[a|e]]]; destruct Ht; split; eauto; by intros [].
Qed.
Lemma stable_loaded {A} s0 pid name (k : AppRecord -> Io A) n :
  (forall r f', ledger_at f' r (head_of r) -> ar_name r = name ->
     triple False (at_folder s0 name f') (k r) n (λ _, keeps s0) (keeps s0)) ->
  stable s0 (r ← load_app pid name; k r).
Proof.
  intros Hk. apply (stable_folder s0 name). intros o. exists (6 + n), (λ _, keeps s0). split; [|done].
  apply triple_loaded; [done|]. intros r f f' _ Hl Hn _ _ _. by apply Hk.
Qed.
Lemma stable_at {A} s0 name f (m : Io A) n : stable s0 m -> triple False (at_folder s0 name f) m n (λ _, keeps s0) (keeps s0).
Proof. intros Hm. eapply triple_weaken; [exact Hm|done|by intros s []|done|done]. Qed.
Lemma stable_checked {A} s0 (r : ledger_result unit) (a : A) : stable s0 (lift r ;; mret a).
Proof. apply stable_bind; [apply stable_lift|]. intros []. apply stable_ret. Qed.
Lemma triple_rewrite s0 pid name f r r' : ledger_at f r (head_of r) -> ar_name r' = name -> head_of r' = head_of r ->
  keeps_identity r r' -> triple False (at_folder s0 name f) (write_app_record pid r') 3 (λ _, keeps s0) (keeps s0).
Proof.
  intros Hl Hn Hh Hi. eapply triple_weaken; [by apply (triple_update False s0 pid name f r _ r' Hl)|done|done| |done].
  intros [] s (f'&Hs&_). apply Hs.
Qed.

Lemma load_stable s0 pid name : stable s0 (load_app pid name).
Proof.
  apply (stable_folder s0 name). intros o. eexists _, _. split; [by apply triple_load|].
  by intros r s (f&f'&_&[Hs _]&_).
Qed.
Lemma set_retired_stable s0 pid name retired : stable s0 (set_retired pid name retired).
Proof. apply (stable_loaded s0 pid name _ 3). intros r f' Hl Hn. eapply triple_rewrite; try done. by constructor; auto. Qed.
Lemma latest_stable s0 root pid name : stable s0 (latest_evolution root pid name).
Proof. apply stable_bind; [apply load_stable|]. intros r. apply stable_ret. Qed.
Lemma bind_protocol_stable s0 pid name shot builder random : stable s0 (bind_protocol_identity pid name shot builder random).
Proof.
  apply (stable_loaded s0 pid name _ 3). intros r f' Hl Hn.
  destruct (ar_shot_id r) as [shot'|] eqn:Es, (ar_builder_id r) as [builder'|] eqn:Eb.
  - apply stable_at, stable_checked.
  - apply stable_at, stable_lift.
  - apply stable_at, stable_lift.
  - apply (triple_bind _ _ 3 (λ _, keeps s0) _ 0); [|intros u; apply stable_ret].
    apply (triple_rewrite s0 pid name f' r); try done. by constructor; auto.
Qed.
Lemma bind_expression_stable s0 pid name expression : stable s0 (bind_expression_identity pid name expression).
Proof.
  apply stable_bind; [apply stable_lift|]. intros []. apply (stable_loaded s0 pid name _ 3). intros r f' Hl Hn.
  destruct (ar_expression_id r) as [e|] eqn:Ee.
  - apply stable_at, stable_checked.
  - apply (triple_bind _ _ 3 (λ _, keeps s0) _ 0); [|intros u; apply stable_ret].
    apply (triple_rewrite s0 pid name f' r); try done. constructor; try done; cbn; intros; congruence.
Qed.
Lemma list_stable s0 root pid name entries : stable s0 (list_evolutions root pid name entries).
Proof. apply stable_bind; [apply load_stable|]. intros r. apply stable_gets. Qed.
Lemma differs_false {A} `{EqDecision A} (bound : option A) value : differs bound value = false -> bound = None \/ bound = Some value.
Proof. unfold differs. destruct bound as [b|]; [|by left]. cbn. intros Hb%negb_false_iff%bool_decide_eq_true. right. by rewrite Hb. Qed.
Lemma migrate_stable s0 root pid name entries : stable s0 (migrate_v1_identity root pid name entries).
Proof.
  apply stable_bind.
  { apply stable_bind; [apply list_stable|]. intros es. apply stable_bind; [apply stable_lift|]. intros []. apply stable_gets. }
  intros adapted. apply (stable_loaded s0 pid name _ 3). intros r f' Hl Hn.
  apply (triple_bind _ _ 0 (λ _ s, (differs (ar_shot_id r) (av_shot_id adapted) = false /\
    differs (ar_builder_id r) (av_controller adapted) = false /\ differs (ar_expression_id r) (av_expression_id adapted) = false) /\
    at_folder s0 name f' s) _ 3).
  { apply triple_lift. intros s Hs. destruct (differs (ar_shot_id r) _), (differs (ar_builder_id r) _), (differs (ar_expression_id r) _);
      try (split; [apply Hs|by intros []]). done. }
  intros []. apply triple_pure. intros (Hs%differs_false&Hb%differs_false&He%differs_false).
  apply (triple_bind _ _ 3 (λ _, keeps s0) _ 0); [|intros u; apply stable_ret].
  apply triple_when; [|by intros _ s []]. intros _. apply (triple_rewrite s0 pid name f' r); try done.
  pose proof (vr_protocol _ (la_valid _ _ _ Hl)) as Hp. constructor; try done; cbn.
  - intros Hne. destruct Hs as [Hs|Hs]; [done|]. split; [done|]. destruct Hb as [Hb|Hb]; [|done].
    destruct Hp as [[? _]|(?&?&_&?&_)]; congruence.
  - intros e Ee. left. destruct He as [He|He]; congruence.
Qed.
Lemma reserve_stable s0 root pid name parent children now : ".complete" ∉ children ->
  stable s0 (reserve_with_directories root pid name parent children now).
Proof.
  intros Hc. apply (stable_folder s0 name). intros o. eexists _, _. split; [by apply triple_reserve|]. by intros e s (f&f'&r&_&[Hs _]&_).
Qed.
Lemma finalize_stable s0 root pid shot : stable s0 (finalize_evolution root pid shot).
Proof.
  apply (stable_folder s0 (ae_app_name shot)). intros o. eexists _, _. split; [by apply triple_seal|]. by intros [] s (f&f'&r&h&_&[Hs _]&_).
Qed.

(** ** Creating, adopting and listing apps *)

Lemma keeps_roots s0 s machine locks : keeps s0 s -> keeps s0 (set_roots RealDir machine locks s).
Proof. intros (Hs&_&Hk). by split_and!. Qed.
Lemma initialize_stable s0 : stable s0 initialize_ledger.
Proof.
  assert (forall (kind : Family -> DirKind) create, (forall s, kind s = NoDir -> keeps s0 s -> keeps s0 (create s)) ->
    stable s0 (initialize_root kind create)) as Hroot.
  { intros kind create Hc. apply (spec_bind _ _ (λ k s, kind s = k /\ keeps s0 s)).
    - apply spec_gets. by intros s Hs.
    - intros [].
      + apply spec_change; [by intros s []|]. intros s [Hk Hs]. by apply Hc.
      + apply spec_ret. by intros s [].
      + apply spec_lift. by intros s []. }
  apply stable_bind; [apply Hroot; intros s _; apply keeps_roots|]. intros [].
  assert (forall s locks machine, keeps s0 s -> keeps s0 (set_roots (fm_root s) machine locks s)) as Hkeep.
  { intros s locks machine (Hs&Hr&Hk). by split_and!. }
  apply stable_bind; [apply Hroot; intros s _; apply Hkeep|]. intros []. apply Hroot. intros s _. apply Hkeep.
Qed.

Lemma half_sound : sound_folder empty_ledger_folder.
Proof. by left. Qed.
Lemma numbered_none : numbered_versions ∅ 0.
Proof. split; [done| | |]; [by intros|intros; lia|done]. Qed.
(** Names that hold no ledger may change. *)
Lemma keeps_insert s0 s name e : keeps s0 s -> folder_of s name = None ->
  (forall f, e = AppDir (LedgerDir f) -> sound_folder f) -> keeps s0 (set_apps (<[name := e]> (fm_apps s)) s).
Proof.
  intros (Hs&Hr&Hk) Hn He.
  assert (forall other, name <> other -> folder_of (set_apps (<[name := e]> (fm_apps s)) s) other = folder_of s other) as Hother.
  { intros other Hne. unfold folder_of. cbn. by rewrite lookup_insert_ne. }
  split_and!; [|done|].
  - intros other f. destruct (decide (name = other)) as [<-|Hne]; [|rewrite Hother by done; apply Hs].
    unfold folder_of. cbn. rewrite lookup_insert_eq. destruct e as [[|f'|]|]; try done. intros [= <-]. by apply He.
  - intros other f Hf. destruct (Hk _ _ Hf) as (f'&Hf'&Hg). exists f'. split; [|done].
    rewrite Hother; [done|]. intros <-. congruence.
Qed.
Lemma create_ledger_stable s0 pid name bundle now :
  spec (λ s, keeps s0 s /\ folder_of s name = None) (create_ledger pid name bundle now) (λ _, keeps s0) (keeps s0).
Proof.
  set (half := set_versions RealDir ∅ NoDir ∅ empty_ledger_folder).
  apply (spec_bind _ _ (λ _, at_folder s0 name empty_ledger_folder)).
  { apply spec_change; [by intros s []|]. intros s [Hk Hn]. split.
    - apply keeps_insert; [done|done|]. intros f [= <-]. apply half_sound.
    - unfold folder_of. cbn. by rewrite lookup_insert_eq. }
  intros []. apply (spec_bind _ _ (λ _, at_folder s0 name half)).
  { apply (triple_spec _ _ 1). apply (triple_folder False s0 name empty_ledger_folder
      (λ f, set_versions RealDir (lf_evolutions f) (lf_incomplete_dir f) (lf_incomplete f) f)); [by left|].
    split; [done|]. by intros r (b&?&_). }
  intros []. apply (spec_bind _ _ (λ _, keeps s0)); [|intros u; apply stable_ret].
  apply (triple_spec _ _ 3). eapply triple_weaken; [apply (triple_write_app False s0 pid name half (new_app_record name bundle now) 0)|done|done| |done].
  - done.
  - by left.
  - apply numbered_none.
  - done.
  - by left.
  - done.
  - done.
  - by intros r (b&?&_).
  - done.
  - intros u s (f'&Hs&_). apply Hs.
Qed.
Lemma create_stable s0 pid name bundle now : stable s0 (create_app pid name bundle now).
Proof.
  apply stable_bind; [apply stable_lift|]. intros u. apply stable_bind; [apply initialize_stable|]. intros u'.
  apply (spec_bind _ _ (λ _ s, keeps s0 s /\ fm_apps s !! name = None)).
  { apply spec_gets. intros s Hs. by destruct (fm_apps s !! name). }
  intros u''. apply (spec_bind _ _ (λ _ s, keeps s0 s /\ folder_of s name = None)); [|intros; apply create_ledger_stable].
  apply spec_change; [by intros s []|]. intros s [Hk Hn]. split.
  - apply keeps_insert; [done|by unfold folder_of; rewrite Hn|done].
  - unfold folder_of. cbn. by rewrite lookup_insert_eq.
Qed.
Lemma adopt_stable s0 pid name bundle now : stable s0 (adopt_app pid name bundle now).
Proof.
  apply stable_bind; [apply stable_lift|]. intros u. apply stable_bind; [apply initialize_stable|]. intros u'.
  apply (spec_bind _ _ (λ _ s, keeps s0 s /\ folder_of s name = None)); [|intros; apply create_ledger_stable].
  apply spec_gets. intros s Hs. unfold folder_of. by destruct (fm_apps s !! name) as [[[|f|]|]|].
Qed.
Lemma load_apps_stable s0 pid entries : stable s0 (load_apps pid entries).
Proof.
  induction entries as [|name entries IH]; [apply stable_ret|]. apply stable_bind; [apply stable_gets|]. intros [|]; [|done].
  apply stable_bind; [apply spec_try; [apply load_stable|done]|]. intros loaded.
  apply stable_bind; [done|]. intros rest. apply stable_ret.
Qed.
Lemma list_apps_stable s0 pid entries : stable s0 (list_apps pid entries).
Proof.
  apply stable_bind; [apply initialize_stable|]. intros u. apply stable_bind; [apply load_apps_stable|]. intros rs. apply stable_ret.
Qed.

(** ** Writing in a reserved Version *)

(** A Version that is not sealed is being filled. *)
Definition filling (s0 : Family) (name : string) (number : Z) (s : Family) : Prop := exists f r h files,
  open_version f r h files /\ padded4 number = padded4 (h + 1) /\ at_folder s0 name f s.
Lemma filling_keeps s0 name number s : filling s0 name number s -> keeps s0 s.
Proof. by intros (f&r&h&files&_&_&?&_). Qed.
Lemma filling_change s0 name number target node : target <> [".complete"] ->
  spec (E := LedgerError) (filling s0 name number) (change (on_folder name (on_version number (insert target node))))
    (λ _, filling s0 name number) (keeps s0).
Proof.
  intros Ht. apply (triple_spec _ _ 1). intros t s (f&r&h&files&Ho&E&Hs). revert t s Hs.
  set (g := insert target node : VersionFiles -> VersionFiles).
  assert (unsealed_files (g files)) as Hu by (unfold unsealed_files, g; rewrite lookup_insert_ne; [apply Ho|done]).
  destruct (open_on_version _ _ _ _ g Ho Hu) as [Ho' _].
  change (triple (E := LedgerError) False (at_folder s0 name f) (change (on_folder name (on_version number g))) 1
    (λ _, filling s0 name number) (keeps s0)).
  eapply triple_weaken; [by apply (triple_open False s0 name f r h files number g)|done|done| |done].
  intros u s Hs. by exists (on_version (h + 1) g f), r, h, (g files).
Qed.
Lemma filling_gets {A} s0 name number (f : Family -> ledger_result A) :
  spec (filling s0 name number) (gets f) (λ _, filling s0 name number) (keeps s0).
Proof. apply spec_gets. intros s Hs. destruct (f s); [done|by eapply filling_keeps]. Qed.
Lemma filling_lift {A} s0 name number (r : ledger_result A) :
  spec (filling s0 name number) (lift r) (λ _, filling s0 name number) (keeps s0).
Proof. apply spec_lift. intros s Hs. destruct r; [done|by eapply filling_keeps]. Qed.
Lemma filling_ret {A} s0 name number (a : A) (Q : A -> Family -> Prop) : (forall s, filling s0 name number s -> Q a s) ->
  spec (E := LedgerError) (filling s0 name number) (mret a) Q (keeps s0).
Proof. apply spec_ret. Qed.

(** A path that does not begin with the name of the seal. *)
Definition leads_elsewhere (names : list string) : Prop := head names <> Some ".complete".
Lemma prepare_filling s0 name number components : forall directory, leads_elsewhere (directory ++ components) ->
  spec (filling s0 name number) (prepare_directories name number directory components)
    (λ target s, leads_elsewhere target /\ filling s0 name number s) (keeps s0).
Proof.
  induction components as [|c components IH]; intros directory Hd.
  { apply spec_lift. apply filling_keeps. }
  destruct components as [|c' components]; [by apply filling_ret|].
  assert (leads_elsewhere (directory ++ [c])) as Hd' by by destruct directory.
  apply (spec_bind _ _ (λ _, filling s0 name number)); [apply filling_gets|]. intros node.
  apply (spec_bind _ _ (λ _, filling s0 name number)).
  - destruct node as [[| |]|]; [apply filling_lift|by apply filling_ret|apply filling_lift|].
    apply filling_change. intros E. by rewrite E in Hd'.
  - intros u. apply IH. by rewrite <- app_assoc.
Qed.
(** What writing in a Version begins with. *)
Lemma stable_writable s0 root shot path (k : list string -> Io unit) : head (components path) <> Some (Normal ".complete") ->
  (forall target, target <> [".complete"] ->
     spec (filling s0 (ae_app_name shot) (ae_number shot)) (k target) (λ _, filling s0 (ae_app_name shot) (ae_number shot)) (keeps s0)) ->
  stable s0 (gets (λ s, assert_writable root s shot) ;; target ← prepare_shot_path shot path; k target).
Proof.
  intros Hp Hk. apply (spec_bind _ _ (λ _, filling s0 (ae_app_name shot) (ae_number shot))).
  { apply spec_gets. intros s Hs. destruct (assert_writable root s shot) as [files|e] eqn:E; [|done].
    destruct (writable_open _ _ _ _ (proj1 Hs) E) as (f&r&h&Hf&Hn&Ho). by exists f, r, h, files. }
  intros files. apply (spec_bind _ _ (λ target s, leads_elsewhere target /\ filling s0 (ae_app_name shot) (ae_number shot) s)).
  - apply (spec_bind _ _ (λ names s, leads_elsewhere names /\ filling s0 (ae_app_name shot) (ae_number shot) s)).
    + apply spec_lift. intros s Hs. destruct (normal_names (components path)) as [names|e] eqn:E; [|by eapply filling_keeps].
      split; [|done]. destruct (components path) as [|c cs]; [by injection E as <-|]. cbn in E.
      destruct c as [| | |first]; try done. destruct (normal_names cs); [|done]. injection E as <-. intros [= ->]. by apply Hp.
    + intros names. apply triple_pure. intros Hnames. by apply prepare_filling.
  - intros target. apply triple_pure. intros Ht. 
    assert (target <> [".complete"]) as Hne by (intros E; rewrite E in Ht; by apply Ht).
    apply (spec_weaken _ _ _ _ _ _ _ (Hk target Hne)); [done| |done]. intros u s. apply filling_keeps.
Qed.
Lemma write_file_stable s0 root shot path contents : head (components path) <> Some (Normal ".complete") ->
  stable s0 (write_evolution_file root shot path contents).
Proof.
  intros Hp. apply stable_writable; [done|]. intros target Ht.
  apply (spec_bind _ _ (λ _, filling s0 (ae_app_name shot) (ae_number shot))); [apply filling_gets|]. intros b.
  apply (spec_bind _ _ (λ _, filling s0 (ae_app_name shot) (ae_number shot))); [by apply filling_change|]. intros u.
  by apply filling_change.
Qed.
Lemma append_log_stable s0 root shot path contents : head (components path) <> Some (Normal ".complete") ->
  stable s0 (append_evolution_log root shot path contents).
Proof.
  intros Hp. apply stable_writable; [done|]. intros target Ht.
  apply (spec_bind _ _ (λ _, filling s0 (ae_app_name shot) (ae_number shot))); [apply filling_gets|]. intros b.
  apply (spec_bind _ _ (λ _, filling s0 (ae_app_name shot) (ae_number shot))); [|intros u; by apply filling_change].
  apply spec_when; [|done]. intros _. by apply filling_change.
Qed.
End laws.

(** ** Histories *)

(** The operations of the ledger, what a reader of it calls included. *)
Inductive LedgerOp :=
  | OpCreate (name bundle_id : string) (now : Z)
  | OpAdopt (name bundle_id : string) (now : Z)
  | OpLoad (name : string)
  | OpListApps (entries : list string)
  | OpReserveEvolution (name : string) (parent : option Z) (now : Z)
  | OpReserveVersion (name : string) (parent : option Z) (now : Z)
  | OpWrite (shot : AppEvolution) (path : string) (contents : list Z)
  | OpAppend (shot : AppEvolution) (path : string) (contents : list Z)
  | OpFinalize (shot : AppEvolution)
  | OpLatest (name : string)
  | OpRetire (name : string) (retired : bool)
  | OpBindProtocol (name : string) (shot : ShotId) (builder : BuilderId) (random : ExpressionId)
  | OpBindExpression (name : string) (expression : ExpressionId)
  | OpList (name : string) (entries : list string)
  | OpMigrate (name : string) (entries : list string).
(** A process runs an operation, and may crash after so many changes; the user
    makes a plain folder, or renames one. *)
Inductive LedgerStep :=
  | Run (pid : Z) (changes : nat) (op : LedgerOp)
  | MakeFolder (name : string)
  | MoveFolder (old new : string).
(** Nobody writes the seal of a Version as one of its files. *)
Definition writes_no_seal (step : LedgerStep) : Prop :=
  match step with
  | Run _ _ (OpWrite _ path _) | Run _ _ (OpAppend _ path _) => head (components path) <> Some (Normal ".complete")
  | _ => True
  end.

Section history.
Context `{Platform} `{CharCase} `{LedgerCodec}.
Variable root : string.

Definition run_op (pid : Z) (op : LedgerOp) : Io unit :=
  match op with
  | OpCreate name bundle_id now => create_app pid name bundle_id now ;; mret tt
  | OpAdopt name bundle_id now => adopt_app pid name bundle_id now ;; mret tt
  | OpLoad name => load_app pid name ;; mret tt
  | OpListApps entries => list_apps pid entries ;; mret tt
  | OpReserveEvolution name parent now => reserve_evolution root pid name parent now ;; mret tt
  | OpReserveVersion name parent now => reserve_version root pid name parent now ;; mret tt
  | OpWrite shot path contents => write_evolution_file root shot path contents
  | OpAppend shot path contents => append_evolution_log root shot path contents
  | OpFinalize shot => finalize_evolution root pid shot
  | OpLatest name => latest_evolution root pid name ;; mret tt
  | OpRetire name retired => set_retired pid name retired
  | OpBindProtocol name shot builder random => bind_protocol_identity pid name shot builder random ;; mret tt
  | OpBindExpression name expression => bind_expression_identity pid name expression ;; mret tt
  | OpList name entries => list_evolutions root pid name entries ;; mret tt
  | OpMigrate name entries => migrate_v1_identity root pid name entries ;; mret tt
  end.
(** The family after a step, and the name of the folder that was [name]. *)
Definition run_step (step : LedgerStep) (at_ : Family * string) : Family * string :=
  let '(s, name) := at_ in
  match step with
  | Run pid changes op => (fst (fst (run_op pid op changes s)), name)
  | MakeFolder made =>
      (match fm_apps s !! made with
       | None => set_apps (<[made := AppDir NoLedger]> (fm_apps s)) s
       | Some _ => s
       end, name)
  | MoveFolder old new =>
      match fm_apps s !! old, fm_apps s !! new with
      | Some e, None => (set_apps (<[new := e]> (delete old (fm_apps s))) s, if name == old then new else name)
      | _, _ => (s, name)
      end
  end.
Definition run_steps (steps : list LedgerStep) (at_ : Family * string) : Family * string :=
  foldl (λ at_ step, run_step step at_) at_ steps.
End history.

Section histories.
Context `{Platform} `{CharCase} `{LedgerCodec} `{!LedgerCodecLaws}.

Lemma run_op_stable s0 root pid changes op : writes_no_seal (Run pid changes op) -> stable s0 (run_op root pid op).
Proof.
  assert (forall A (m : Io A), stable s0 m -> stable s0 (m ;; mret tt)) as Hthen.
  { intros A m Hm. apply stable_bind; [done|]. intros a. apply stable_ret. }
  destruct op; cbn [writes_no_seal run_op]; intros Hw; try apply Hthen.
  - apply create_stable.
  - apply adopt_stable.
  - apply load_stable.
  - apply list_apps_stable.
  - apply reserve_stable. by vm_compute; set_solver.
  - apply reserve_stable. by vm_compute; set_solver.
  - by apply write_file_stable.
  - by apply append_log_stable.
  - apply finalize_stable.
  - apply latest_stable.
  - apply set_retired_stable.
  - apply bind_protocol_stable.
  - apply bind_expression_stable.
  - apply list_stable.
  - apply migrate_stable.
Qed.
Lemma run_step_grows root step s name : sound_family s -> writes_no_seal step ->
  sound_family (fst (run_step root step (s, name))) /\
  forall f, folder_of s name = Some f -> exists f',
    folder_of (fst (run_step root step (s, name))) (snd (run_step root step (s, name))) = Some f' /\ grows f f'.
Proof.
  intros Hs Hw. destruct step as [pid changes op|made|old new]; cbn [run_step].
  - pose proof (run_op_stable s root pid changes op Hw) as Hst.
    destruct (run_op root pid op changes s) as [[s' t'] out] eqn:E. cbn [fst snd].
    assert (keeps s s') as (Hs'&_&Hk) by (eapply (spec_end _ _ _ _ (keeps s)); [exact Hst|by apply ledger_keeps_refl|exact E|done|done]).
    split; [done|]. intros f Hf. by apply Hk.
  - destruct (fm_apps s !! made) as [e|] eqn:Em; cbn [fst snd]; [split; [done|]; intros f Hf; by exists f|].
    assert (keeps s (set_apps (<[made := AppDir NoLedger]> (fm_apps s)) s)) as (Hs'&_&Hk).
    { apply keeps_insert; [by apply ledger_keeps_refl|by unfold folder_of; rewrite Em|done]. }
    split; [done|]. intros f Hf. by apply Hk.
  - destruct (fm_apps s !! old) as [e|] eqn:Eo; [|split; [done|]; intros f Hf; by exists f].
    destruct (fm_apps s !! new) as [e'|] eqn:En; [split; [done|]; intros f Hf; by exists f|]. cbn [fst snd].
    assert (forall other, folder_of (set_apps (<[new := e]> (delete old (fm_apps s))) s) other =
      if decide (other = new) then folder_of s old else if decide (other = old) then None else folder_of s other) as Hfolder.
    { intros other. unfold folder_of. cbn. destruct (decide (other = new)) as [->|Hn]; [by rewrite lookup_insert_eq, Eo|].
      rewrite lookup_insert_ne by done. destruct (decide (other = old)) as [->|Ho]; [by rewrite lookup_delete_eq|].
      by rewrite lookup_delete_ne. }
    split.
    + intros other f. rewrite Hfolder. repeat case_decide; [apply Hs|done|apply Hs].
    + intros f Hf. exists f. split; [|done]. rewrite Hfolder. case_bool_decide as Ename.
      * rewrite decide_True by done. by subst.
      * rewrite decide_False, decide_False; [done|done|]. intros ->. unfold folder_of in Hf. by rewrite En in Hf.
Qed.
Lemma run_steps_grow root steps : forall s name, sound_family s -> Forall writes_no_seal steps ->
  let '(s', name') := run_steps root steps (s, name) in
  sound_family s' /\ forall f, folder_of s name = Some f -> exists f', folder_of s' name' = Some f' /\ grows f f'.
Proof.
  induction steps as [|step steps IH]; intros s name Hs Hw; [split; [done|]; intros f Hf; by exists f|].
  apply Forall_cons in Hw as [Hw Hws]. destruct (run_step_grows root step s name Hs Hw) as [Hs1 Hg1].
  unfold run_steps. cbn [foldl]. fold (run_steps root steps (run_step root step (s, name))).
  destruct (run_step root step (s, name)) as [s1 name1]. cbn [fst snd] in *.
  specialize (IH s1 name1 Hs1 Hws). destruct (run_steps root steps (s1, name1)) as [s' name'] eqn:E'.
  destruct IH as [Hs' Hg']. split; [done|]. intros f Hf. destruct (Hg1 f Hf) as (f1&Hf1&G1).
  destruct (Hg' f1 Hf1) as (f'&Hf'&G'). exists f'. split; [done|by etrans].
Qed.

(** [C11] Over any history of operations, crashes and renamings of folders in which
    nobody writes the seal of a Version as one of its files ([writes_no_seal]): a
    sealed Version keeps every file it was sealed with; an app keeps its bundle,
    its target, its time of creation and its progress, its Shot and builder from
    when they are bound, and its ExpressionID from when it is bound, except that
    the binding of the Shot, if it comes later, may replace that. *)
Theorem ledger_history_permanent root steps s name f s' name' :
  sound_family s -> Forall writes_no_seal steps -> folder_of s name = Some f ->
  run_steps root steps (s, name) = (s', name') -> exists f', folder_of s' name' = Some f' /\
    (forall number files, lf_evolutions f !! padded4 number = Some (VersionDir files) -> sealed_files files ->
       lf_evolutions f' !! padded4 number = Some (VersionDir files)) /\
    (forall r, recorded f r -> exists r', recorded f' r' /\ keeps_identity r r').
Proof.
  intros Hs Hw Hf E. pose proof (run_steps_grow root steps s name Hs Hw) as Hg. rewrite E in Hg.
  destruct Hg as [_ Hg]. destruct (Hg f Hf) as (f'&Hf'&[Hseal Hrec]). exists f'. split_and!; [done|by eauto|done].
Qed.

(** [C12] From a family without apps, over every history in which nobody writes the
    seal of a Version as one of its files ([writes_no_seal]): an app's Versions are
    those from 1 to the number of the sealed ones, and at most the next, and
    [app.toml] is a valid record, at most one Version behind; or the app's creation
    crashed, and it has neither a record nor Versions. *)
Theorem ledger_stays_sound root steps s name :
  (forall other, folder_of s other = None) -> Forall writes_no_seal steps ->
  let s' := fst (run_steps root steps (s, name)) in
  forall other f, folder_of s' other = Some f ->
    lf_record f = None /\ lf_evolutions f = ∅ /\ lf_incomplete f = ∅ \/
    exists r h, recorded f r /\ valid_record r /\ numbered_versions (lf_evolutions f) h /\
      (head_of r = h \/ head_of r + 1 = h)%Z.
Proof.
  intros Hn Hw s' other f Hf. assert (sound_family s) as Hs by (intros o g; rewrite Hn; done).
  pose proof (run_steps_grow root steps s name Hs Hw) as Hg. unfold s' in Hf.
  destruct (run_steps root steps (s, name)) as [s1 n1]. destruct Hg as [Hs1 _].
  destruct (Hs1 _ _ Hf) as [?|(r&h&[])]; [by left|right]. by exists r, h.
Qed.

(** [C14] Nothing writes in a sealed Version through the ledger, and it says why. *)
Theorem sealed_version_refuses root s shot files pid path contents t :
  version_files s (ae_app_name shot) (ae_number shot) = Some files -> is_Some (files !! [".complete"]) ->
  exists e, write_evolution_file root shot path contents t s = (s, t, Returned (Err e)) /\
    append_evolution_log root shot path contents t s = (s, t, Returned (Err e)) /\
    finalize_evolution root pid shot t s = (s, t, Returned (Err e)) /\
    (validate_app_name (ae_app_name shot) = Ok tt -> ae_number shot <> 0%Z -> same_place root shot ->
     (lf_evolutions_dir <$> folder_of s (ae_app_name shot)) = Some RealDir -> e = ShotFinalized (ae_number shot)).
Proof.
  intros Hv [node Hc]. assert (exists e, assert_writable root s shot = Err e /\
    (validate_app_name (ae_app_name shot) = Ok tt -> ae_number shot <> 0%Z -> same_place root shot ->
     (lf_evolutions_dir <$> folder_of s (ae_app_name shot)) = Some RealDir -> e = ShotFinalized (ae_number shot))) as (e&E&He).
  { unfold version_files, version_entry in Hv. unfold assert_writable, same_place. cbv zeta.
    destruct (folder_of s (ae_app_name shot)) as [f|] eqn:Hf; [|done]. cbn in Hv.
    destruct (validate_app_name (ae_app_name shot)) as [[]|e]; [|exists e; split; [done|]; by intros [=]].
    destruct (Z.eqb_spec (ae_number shot) 0); [eexists; split; [done|]; by intros _ ?|]. cbn [mbind Result_bind fail_if ok_or].
    destruct (lf_evolutions_dir f) eqn:Ed; [eexists; split; [done|]; cbn; by rewrite Ed|cbn [mbind Result_bind require_real_directory]|eexists; split; [done|]; cbn; by rewrite Ed].
    destruct (same_path _ _); [|eexists; split; [done|]; by intros _ _ [=]]. cbn [negb fail_if mbind Result_bind].
    destruct (lf_evolutions f !! padded4 (ae_number shot)) as [[fs| |]|]; try done. injection Hv as ->.
    cbn. rewrite Hc. by eexists. }
  exists e. unfold write_evolution_file, append_evolution_log, finalize_evolution, gets, mbind, Io_bind. by rewrite E.
Qed.

(** ** Listing the Versions *)

Definition listed (h : Z) (entry : string) : option Z :=
  n ← parse_unsigned U32_MAX (bytes_of entry); if (n <=? h)%Z then Some n else None.
Lemma versions_named m h : numbered_versions m h -> exists k, (h <= k <= h + 1)%Z /\ (k <= U32_MAX)%Z /\
  (map_to_list m).*1 ≡ₚ padded4 <$> seqZ 1 k.
Proof.
  intros Hn. pose proof (nv_range _ _ Hn) as Hr.
  assert (forall k, (h <= k <= h + 1)%Z -> (k <= U32_MAX)%Z -> (is_Some (m !! padded4 (h + 1)) <-> k = h + 1)%Z ->
    (map_to_list m).*1 ≡ₚ padded4 <$> seqZ 1 k) as Hk.
  { intros k Hk Hu Hlast. apply NoDup_Permutation.
    - apply NoDup_fst_map_to_list.
    - apply NoDup_fmap_2_strong; [|apply NoDup_seqZ]. intros a b Ha%elem_of_seqZ Hb%elem_of_seqZ. apply padded4_inj; lia.
    - intros entry. rewrite !list_elem_of_fmap. split.
      + intros ([entry' e]&->&He%elem_of_map_to_list). destruct (nv_entry _ _ Hn _ _ He) as (n&files&Hn1&Hn2&->&->).
        exists n. split; [done|]. apply elem_of_seqZ. destruct (decide (n = h + 1)%Z) as [->|]; [|lia].
        assert (k = h + 1)%Z; [apply Hlast; by eexists|lia].
      + intros (n&->&Hseq%elem_of_seqZ). destruct (decide (n = h + 1)%Z) as [->|Hne].
        * destruct (proj2 Hlast) as [e He]; [lia|]. exists (padded4 (h + 1), e). split; [done|]. by apply elem_of_map_to_list.
        * destruct (nv_sealed _ _ Hn n) as (files&Hm&_); [lia|]. exists (padded4 n, VersionDir files). split; [done|].
          by apply elem_of_map_to_list. }
  destruct (m !! padded4 (h + 1)) as [e|] eqn:E.
  - exists (h + 1)%Z. assert (h + 1 <= U32_MAX)%Z; [|split_and!; [lia..|]; apply Hk; [lia..|]; split; [done|by eexists]].
    destruct (nv_entry _ _ Hn _ _ E) as (n&files&?&?&En&_). apply padded4_inj in En; lia.
  - exists h. split_and!; [lia..|]. apply Hk; [lia..|]. split; [by intros [? [=]]|lia].
Qed.
Lemma listed_seq h k : (0 <= h <= k)%Z -> (k <= h + 1)%Z -> (k <= U32_MAX)%Z -> omap (listed h) (padded4 <$> seqZ 1 k) = seqZ 1 h.
Proof.
  intros Hh Hk Hu. assert (forall j, (0 <= j <= k)%Z -> (j <= h)%Z -> omap (listed h) (padded4 <$> seqZ 1 j) = seqZ 1 j) as Hj.
  { intros j Hj Hjh. rewrite <- (list_fmap_id (seqZ 1 j)) at 2.
    assert (forall l, Forall (λ n, 1 <= n <= h)%Z l -> omap (listed h) (padded4 <$> l) = id <$> l) as Hl.
    { induction 1 as [|n l Hn _ IH]; [done|]. cbn. rewrite IH. unfold listed. rewrite parse_padded4 by lia. cbn.
      by rewrite (proj2 (Z.leb_le _ _)) by lia. }
    apply Hl, Forall_forall. intros n Hn%elem_of_seqZ. lia. }
  destruct (decide (k = h)) as [->|Hne]; [apply Hj; lia|]. assert (k = h + 1)%Z as -> by lia.
  rewrite seqZ_app, fmap_app, omap_app, Hj by lia. cbn.
  replace (seqZ (1 + h) 1) with [(1 + h)%Z] by done. cbn. unfold listed. rewrite parse_padded4 by lia. cbn.
  rewrite (proj2 (Z.leb_gt _ _)) by lia. by rewrite app_nil_r.
Qed.
Lemma collect_listed root name f r entries : ledger_at f r (head_of r) -> Forall (λ e, is_Some (lf_evolutions f !! e)) entries ->
  collect_evolutions root name (ar_latest_evolution r) f entries = Ok (evolution_at root name <$> omap (listed (head_of r)) entries).
Proof.
  intros Hl. pose proof (la_versions _ _ _ Hl) as Hn. pose proof (la_nonneg _ _ _ Hl) as H0h.
  induction 1 as [|entry entries [e He] _ IH]; [done|]. cbn [collect_evolutions]. rewrite He.
  destruct (nv_entry _ _ Hn _ _ He) as (n&files&?&?&->&->). rewrite parse_padded4 by lia.
  cbn [omap list_omap]. unfold listed at 1. rewrite parse_padded4 by lia. cbn [mbind option_bind].
  destruct (Z.leb_spec n (head_of r)) as [Hle|Hgt].
  - destruct (nv_sealed _ _ Hn n) as (fs&Hm&Hf); [lia|]. rewrite He in Hm. injection Hm as <-.
    rewrite sealed_marker by done. cbn [mbind Result_bind].
    assert (is_some_and (λ latest, (n <=? latest)%Z) (ar_latest_evolution r) = true) as ->.
    { unfold head_of in Hle. destruct (ar_latest_evolution r) as [latest|]; cbn in *; [by apply Z.leb_le|lia]. }
    cbn. by rewrite IH.
  - assert (n = head_of r + 1)%Z as -> by lia. rewrite unsealed_marker by (by eapply nv_open). cbn. by rewrite IH.
Qed.

Lemma evolution_leb_total a b : evolution_leb a b = true \/ evolution_leb b a = true.
Proof. unfold evolution_leb. lia. Qed.
Lemma evolution_leb_trans a b c : evolution_leb a b = true -> evolution_leb b c = true -> evolution_leb a c = true.
Proof. unfold evolution_leb. lia. Qed.
Lemma seqZ_sorted m n : StronglySorted Z.lt (seqZ m n).
Proof.
  unfold seqZ. generalize (Z.to_nat n). intros k. generalize 0 at 1 as j. induction k as [|k IH]; intros j; [constructor|].
  cbn. constructor; [apply IH|]. apply Forall_fmap, Forall_forall. intros i Hi%elem_of_seq. unfold compose. lia.
Qed.
Lemma evolutions_sorted root name h : forall l, StronglySorted Z.lt l -> Forall (λ n, 1 <= n <= h)%Z l ->
  StronglySorted (λ a b, evolution_leb a b = true) (evolution_at root name <$> l).
Proof.
  induction 1 as [|n l Hs IH Hn]; intros Hl; [constructor|]. apply Forall_cons in Hl as [_ Hl]. cbn. constructor; [by apply IH|].
  apply Forall_fmap. eapply Forall_impl; [exact Hn|]. intros m Hm. unfold compose, evolution_leb. cbn. lia.
Qed.

(** [C15] Whatever a crash left, and in whatever order the directory is read, the list
    of an app's Versions is 1, 2, ... up to the number of the sealed ones. *)
Theorem listing_is_exact root pid name s f bytes entries t :
  sound_family s -> fm_root s = RealDir -> folder_of s name = Some f -> validate_app_name name = Ok tt ->
  lf_record f = Some (PrivateBytes bytes) -> (file_len bytes <= APP_RECORD_LIMIT)%Z ->
  entries ≡ₚ (map_to_list (lf_evolutions f)).*1 -> 6 <= t ->
  exists s' t' h, list_evolutions root pid name entries t s = (s', t', Returned (Ok (evolution_at root name <$> seqZ 1 h))) /\
    numbered_versions (lf_evolutions f) h.
Proof.
  intros Hs Hroot Hf Hvn Hb Hlen Hperm Ht. assert (loadable name f) as Hlo.
  { split; [done| |by intros b E; congruence]. destruct (Hs _ _ Hf) as [[E _]|(r&h&Hl)]; [congruence|by exists r, h]. }
  pose proof (triple_load True s pid name (Some f)) as Hload. specialize (Hload ltac:(intros _; split; [done|by exists f])).
  specialize (Hload t s (conj (ledger_keeps_refl s Hs) Hf)). unfold list_evolutions, mbind, Io_bind.
  destruct (load_app pid name t s) as [[s1 t1] [|[r|e]]]; [destruct Hload as [_ Hx]; specialize (Hx I); lia| |by destruct Hload as [_ []]].
  destruct Hload as [(f0&f1&[= <-]&Hat&Hl&Hname&(_&Ee&_)&_) _]. exists s1, t1, (head_of r).
  assert (numbered_versions (lf_evolutions f) (head_of r)) as Hn by (rewrite <- Ee; apply Hl). split; [|done].
  unfold gets. rewrite (proj2 Hat). cbn [ok_or mbind Result_bind].
  rewrite (collect_listed root name f1 r); [|done|].
  2:{ apply Forall_forall. intros e. rewrite Hperm, list_elem_of_fmap. intros ([e' x]&->&Hx%elem_of_map_to_list).
      rewrite Ee. by eexists. }
  cbn. do 3 f_equal. destruct (versions_named _ _ Hn) as (k&Hk&Hu&Hnames). pose proof (nv_range _ _ Hn).
  assert (omap (listed (head_of r)) entries ≡ₚ seqZ 1 (head_of r)) as Hp.
  { rewrite Hperm, Hnames, listed_seq; [done|lia..]. }
  eapply sorted_perm_eq with (leb := evolution_leb); [apply evolution_leb_total|apply evolution_leb_trans|..].
  - apply stable_sort_sorted; [apply evolution_leb_total|apply evolution_leb_trans].
  - apply (evolutions_sorted _ _ (head_of r)); [apply seqZ_sorted|].
    apply Forall_forall. intros n Hn'%elem_of_seqZ. lia.
  - intros a b Ha Hb'. rewrite stable_sort_perm, list_elem_of_fmap in Ha, Hb'. destruct Ha as (n&->&_), Hb' as (m&->&_).
    unfold evolution_leb. cbn. intros. f_equal. lia.
  - rewrite stable_sort_perm. by rewrite Hp.
Qed.

(** ** Recovery and progress *)

Lemma triple_run {A} (P : Family -> Prop) (m : Io A) n Q I t s : triple True P m n Q I -> P s -> n <= t ->
  exists a s' t', m t s = (s', t', Returned (Ok a)) /\ Q a s'.
Proof.
  intros Hm HP Ht. specialize (Hm t s HP). destruct (m t s) as [[s' t'] [|[a|e]]].
  - destruct Hm as [_ Hx]. specialize (Hx Logic.I). lia.
  - exists a, s', t'. split; [done|apply Hm].
  - by destruct Hm as [_ []].
Qed.
(** What an app needs so that it can be loaded: a readable record. *)
Lemma loadable_record s name f bytes : sound_family s -> folder_of s name = Some f -> validate_app_name name = Ok tt ->
  lf_record f = Some (PrivateBytes bytes) -> (file_len bytes <= APP_RECORD_LIMIT)%Z -> loadable name f.
Proof.
  intros Hs Hf Hn Hb Hlen. split; [done| |by intros b E; congruence].
  destruct (Hs _ _ Hf) as [[E _]|(r&h&Hl)]; [congruence|by exists r, h].
Qed.

(** [C13] After any history of operations and crashes in which nobody writes the
    seal of a Version as one of its files ([writes_no_seal]), where the family
    folder exists, an app with a record of at most [APP_RECORD_LIMIT] bytes loads
    under its folder's name, when that is a valid one, with its sealed Versions
    recognized; the next Version can be reserved, with what was left of an earlier
    attempt archived; and the next Version, if it was reserved, can be sealed as it
    is. Six, thirteen and twelve changes are enough. *)
Theorem ledger_recovers root steps s0 name0 pid name f bytes :
  (forall other, folder_of s0 other = None) -> Forall writes_no_seal steps ->
  let s := fst (run_steps root steps (s0, name0)) in
  fm_root s = RealDir -> folder_of s name = Some f -> validate_app_name name = Ok tt ->
  lf_record f = Some (PrivateBytes bytes) -> (file_len bytes <= APP_RECORD_LIMIT)%Z ->
  exists h, numbered_versions (lf_evolutions f) h /\
    (forall t, 6 <= t -> exists r s' t' f', load_app pid name t s = (s', t', Returned (Ok r)) /\
       folder_of s' name = Some f' /\ recorded f' r /\ ar_name r = name /\ head_of r = h /\ same_versions f f') /\
    (forall t now parent, 13 <= t -> (h < U32_MAX)%Z -> (forall p, parent = Some p -> 0 < p <= h)%Z ->
       exists e s' t' f', reserve_version root pid name parent now t s = (s', t', Returned (Ok e)) /\
       folder_of s' name = Some f' /\ reserved root name ["src"] f f' h e) /\
    (forall t files, 12 <= t -> lf_evolutions f !! padded4 (h + 1) = Some (VersionDir files) ->
       exists s' t' f' r, finalize_evolution root pid (evolution_at root name (h + 1)) t s = (s', t', Returned (Ok tt)) /\
       folder_of s' name = Some f' /\ recorded f' r /\ head_of r = (h + 1)%Z /\ sealed_next f f' h).
Proof.
  intros Hn Hw s Hroot Hf Hvn Hb Hlen.
  assert (sound_family s) as Hs.
  { pose proof (run_steps_grow root steps s0 name0) as Hg. unfold s.
    destruct (run_steps root steps (s0, name0)). apply Hg; [by intros o g; rewrite Hn|done]. }
  pose proof (loadable_record s name f bytes Hs Hf Hvn Hb Hlen) as Hlo. destruct (lo_ledger _ _ Hlo) as (r0&h&Hl0).
  pose proof (la_versions _ _ _ Hl0) as Hv. exists h. split; [done|].
  assert (keeps s s /\ folder_of s name = Some f) as Hat by (split; [by apply ledger_keeps_refl|done]).
  split; [|split].
  - intros t Ht. destruct (triple_run _ _ 6 _ _ t s (triple_load True s pid name (Some f)
      (λ _, conj Hroot (ex_intro _ f (conj eq_refl Hlo)))) Hat Ht) as (r&s'&t'&Hrun&f0&f'&[= <-]&[_ Hf']&Hl&Hname&Hsame&_).
    exists r, s', t', f'. split_and!; try done; try apply Hl; try apply Hsame.
    eapply numbered_unique; [apply Hl|]. destruct Hsame as (_&->&_). apply Hv.
  - intros t now parent Ht Hh Hp. assert (".complete" ∉ ["src"]) as Hc by (vm_compute; set_solver).
    assert (True -> fm_root s = RealDir /\ exists f0, Some f = Some f0 /\ loadable name f0 /\ forall r h, ledger_at f0 r h ->
      (h + 1 <= U32_MAX)%Z /\ forall p, parent = Some p -> (0 < p <= h)%Z) as Hok.
    { intros _. split; [done|]. exists f. split_and!; [done|done|]. intros r1 h1 Hl1.
      rewrite (numbered_unique _ _ _ (la_versions _ _ _ Hl1) Hv). split; [lia|done]. }
    destruct (triple_run _ _ 13 _ _ t s (triple_reserve True s pid root name parent ["src"] now (Some f) Hc Hok) Hat Ht)
      as (e&s'&t'&Hrun&f0&f'&r&[= <-]&[_ Hf']&_&Hnum&Hres).
    rewrite (numbered_unique _ _ _ Hnum Hv) in Hres. by exists e, s', t', f'.
  - intros t files Ht Hm. assert (open_version f r0 h files) as Hopen.
    { split_and!; [done| |done|by eapply nv_open]. destruct (nv_entry _ _ Hv _ _ Hm) as (n&fs&?&?&E&_).
      pose proof (nv_range _ _ Hv). apply padded4_inj in E; lia. }
    assert (True -> fm_root s = RealDir /\ same_place root (evolution_at root name (h + 1)) /\ exists f0 r h0 files, Some f = Some f0 /\
      loadable name f0 /\ open_version f0 r h0 files /\ (h + 1)%Z = (h0 + 1)%Z) as Hok.
    { intros _. split; [done|]. split; [by unfold same_place, same_path; apply bool_decide_eq_true|]. by exists f, r0, h, files. }
    destruct (triple_run _ _ 12 _ _ t s (triple_seal True s pid root (evolution_at root name (h + 1)) (Some f) Hok) Hat Ht)
      as ([]&s'&t'&Hrun&f0&f'&r&h1&[= <-]&[_ Hf']&Hl&Hhead&Eh&Hseal).
    cbn in Eh. assert (h1 = h) as -> by lia. exists s', t', f', r. split_and!; try done. apply Hl.
Qed.
End histories.
