(* ===== verification/LedgerStory.v ===== *)
(** * A concrete ledger

    A writer of [app.toml] that satisfies the laws asked of [toml], the history of
    an app whose sealing is interrupted and whose folder is renamed, as witnesses
    that the hypotheses of the theorems can hold; and three histories that the code
    does not handle. *)
From S2P Require Import Prelude CrashIo Text Digest Keys Records Lineage Reduction FileTree ExecutionModel Ledger LedgerLaws.

#[local] Existing Instance Toy.platform.
#[local] Instance Address20_countable : Countable Address20.
Proof. refine (inj_countable' address_bytes MkAddress20 _). by intros []. Defined.
#[local] Instance BuilderId_countable : Countable BuilderId.
Proof. refine (inj_countable' account Build_BuilderId _). by intros []. Defined.

(** ** The parameters *)

Fixpoint bits (p : positive) : list Z :=
  match p with xH => [] | xO p => 48%Z :: bits p | xI p => 49%Z :: bits p end.
Fixpoint unbits (text : list Z) : positive :=
  match text with [] => 1%positive | b :: text => if (b =? 48)%Z then xO (unbits text) else xI (unbits text) end.
Lemma unbits_bits p : unbits (bits p) = p.
Proof. induction p as [p IH|p IH|]; cbn; congruence. Qed.
Lemma bits_ascii p : utf8_valid (bits p) = true.
Proof. induction p as [p IH|p IH|]; cbn; congruence. Qed.

Definition app_fields (r : AppRecord) : list positive :=
  [encode (ar_name r); encode (ar_target_name r); encode (ar_bundle_id r); encode (ar_created_at_unix r);
   encode (ar_latest_evolution r); encode (ar_shot_id r); encode (ar_builder_id r); encode (ar_expression_id r);
   encode (ar_retired r); encode (ar_parents r)].
Definition app_of (fields : list positive) : option AppRecord :=
  match fields with
  | [n; t; b; c; l; s; i; e; r; p] =>
      name ← decode n; target ← decode t; bundle ← decode b; created ← decode c; latest ← decode l;
      shot ← decode s; builder ← decode i; expression ← decode e; retired ← decode r; parents ← decode p;
      Some {| ar_name := name; ar_target_name := target; ar_bundle_id := bundle; ar_created_at_unix := created;
              ar_latest_evolution := latest; ar_shot_id := shot; ar_builder_id := builder;
              ar_expression_id := expression; ar_retired := retired; ar_parents := parents |}
  | _ => None
  end.
Lemma app_of_fields r : app_of (app_fields r) = Some r.
Proof. unfold app_fields, app_of. rewrite !decode_encode. by destruct r. Qed.
Definition representable (r : AppRecord) : bool := (ar_created_at_unix r <=? I64_MAX)%Z.
#[local] Instance toy_case : CharCase := {| lowercase_table c := [c] |}.
#[local] Instance toy_case_laws : CharCaseLaws.
Proof. constructor. intros c Hc. repeat constructor. unfold is_ascii_uppercase. cbn. lia. Qed.
#[local] Instance toy_ledger : LedgerCodec := {|
  app_to_toml r := if representable r then Ok (bits (encode (app_fields r))) else Err "out of range";
  app_from_toml bytes :=
    match decode (unbits bytes) ≫= app_of with
    | Some r => if representable r then Ok r else Err "out of range"
    | None => Err "not a record"
    end;
  shot_record_from_slice _ := Err "not a record";
  sidecar_from_slice _ := Err "not a signature" |}.
#[local] Instance toy_ledger_laws : LedgerCodecLaws.
Proof.
  constructor; cbn.
  - intros r bytes. destruct (representable r) eqn:E; [|done]. intros [= <-].
    rewrite unbits_bits, decode_encode. cbn [mbind option_bind]. by rewrite app_of_fields, E.
  - intros r bytes. destruct (representable r); [|done]. intros [= <-]. apply bits_ascii.
  - intros r Hr. unfold representable. by rewrite (proj2 (Z.leb_le _ _) Hr).
  - intros bytes r. destruct (_ ≫= _) as [x|]; [|done]. destruct (representable x) eqn:E; [|done].
    intros [= <-]. by apply Z.leb_le.
Qed.

(** ** An app *)

Definition no_apps : Family := {| fm_root := NoDir; fm_machine_root := NoDir; fm_locks := NoDir; fm_apps := ∅ |}.
Definition home : string := "/family".
Definition app_shot : ShotId := MkShotId (filled 32 7).
Definition app_builder : BuilderId := {| account := MkAddress20 (filled 20 5) |}.
Definition first_expression : ExpressionId := MkExpressionId (filled 32 8).
Definition other_expression : ExpressionId := MkExpressionId (filled 32 9).
Definition first_version : AppEvolution := evolution_at home "notebook" 1.
Definition swift : list Z := bytes_of "let notebook = true".
(** A Version is reserved and filled; the process crashes when it has sealed it
    and not yet written so into [app.toml]. *)
Definition creation : list LedgerStep :=
  [Run 1 100 (OpCreate "notebook" "app.example.notebook" 100);
   Run 1 100 (OpBindProtocol "notebook" app_shot app_builder first_expression);
   Run 1 100 (OpReserveVersion "notebook" None 101);
   Run 1 100 (OpWrite first_version "src/notebook.swift" swift)].
Definition interrupted : list LedgerStep := creation ++ [Run 1 3 (OpFinalize first_version)].
Definition after (steps : list LedgerStep) : Family := fst (run_steps home steps (no_apps, "notebook")).
Definition folder (s : Family) (name : string) : LedgerFolder := default empty_ledger_folder (folder_of s name).
Definition record_in (s : Family) (name : string) : option AppRecord :=
  match lf_record (folder s name) with
  | Some (PrivateBytes bytes) => match app_from_toml bytes with Ok r => Some r | Err _ => None end
  | _ => None
  end.

(** The seal is there, the record is behind. *)
Example sealing_interrupted : ar_latest_evolution <$> record_in (after interrupted) "notebook" = Some None /\
  ((λ files, files !! [".complete"]) <$> version_files (after interrupted) "notebook" 1) = Some (Some (TreeFile COMPLETE_MARKER)).
Proof. vm_compute. split; reflexivity. Qed.
(** Loading it catches up, whatever the folder is called by now. *)
Example loading_catches_up :
  (λ r, (ar_name r, target_name r, ar_latest_evolution r, ar_shot_id r)) <$>
    record_in (after (interrupted ++ [MoveFolder "notebook" "journal"; Run 2 100 (OpLoad "journal")])) "journal"
  = Some ("journal", "notebook", Some 1%Z, Some app_shot).
Proof. vm_compute. reflexivity. Qed.

(** ** The hypotheses hold *)

Lemma no_apps_empty other : folder_of no_apps other = None.
Proof. reflexivity. Qed.
Lemma no_seal_written : Forall writes_no_seal interrupted.
Proof. repeat constructor. vm_compute. discriminate. Qed.
Lemma interrupted_sound : sound_family (after interrupted).
Proof.
  pose proof (run_steps_grow home interrupted no_apps "notebook") as Hg. unfold after.
  destruct (run_steps home interrupted (no_apps, "notebook")) as [s name].
  apply Hg; [intros other f Hf; by rewrite no_apps_empty in Hf|apply no_seal_written].
Qed.
Definition notebook : LedgerFolder := folder (after interrupted) "notebook".
Lemma notebook_there : folder_of (after interrupted) "notebook" = Some notebook.
Proof.
  unfold notebook, folder. destruct (folder_of (after interrupted) "notebook") as [f|] eqn:E; [reflexivity|].
  assert (opt_is_some (folder_of (after interrupted) "notebook") = true) as H by (vm_compute; reflexivity).
  rewrite E in H. discriminate H.
Qed.
Definition sealed_world : VersionFiles := default ∅ (version_files (after interrupted) "notebook" 1).
Lemma sealed_world_there : lf_evolutions notebook !! padded4 1 = Some (VersionDir sealed_world).
Proof. vm_compute. reflexivity. Qed.
Definition app_bytes : list Z := match lf_record notebook with Some (PrivateBytes bytes) => bytes | _ => [] end.
Lemma app_bytes_there : lf_record notebook = Some (PrivateBytes app_bytes).
Proof. vm_compute. reflexivity. Qed.
Lemma app_bytes_fit : (file_len app_bytes <= APP_RECORD_LIMIT)%Z.
Proof. apply Z.leb_le. vm_compute. reflexivity. Qed.

Definition later : list LedgerStep :=
  [MoveFolder "notebook" "journal"; Run 2 5 (OpLoad "journal"); Run 2 100 (OpReserveVersion "journal" (Some 1%Z) 102);
   Run 3 1 (OpReserveVersion "journal" (Some 1%Z) 103); Run 3 100 (OpRetire "journal" true)].
Lemma ledger_history_permanent_witness : exists f', folder_of (fst (run_steps home later (after interrupted, "notebook"))) "journal" = Some f' /\
  lf_evolutions f' !! padded4 1 = Some (VersionDir sealed_world).
Proof.
  assert (Forall writes_no_seal later) as Hw by (repeat constructor).
  destruct (ledger_history_permanent home later (after interrupted) "notebook" notebook
    (fst (run_steps home later (after interrupted, "notebook"))) "journal"
    interrupted_sound Hw notebook_there) as (f'&Hf'&Hseal&_).
  - assert (snd (run_steps home later (after interrupted, "notebook")) = "journal") as E by (vm_compute; reflexivity).
    rewrite <- E. destruct (run_steps home later (after interrupted, "notebook")). reflexivity.
  - exists f'. split; [exact Hf'|]. apply Hseal; [exact sealed_world_there|]. unfold sealed_files. vm_compute. reflexivity.
Defined.

Lemma ledger_stays_sound_witness :
  lf_record notebook = None /\ lf_evolutions notebook = ∅ /\ lf_incomplete notebook = ∅ \/
  exists r h, recorded notebook r /\ valid_record r /\ numbered_versions (lf_evolutions notebook) h /\
    (head_of r = h \/ head_of r + 1 = h)%Z.
Proof.
  exact (ledger_stays_sound home interrupted no_apps "notebook" no_apps_empty no_seal_written "notebook" notebook notebook_there).
Defined.

Lemma sealed_version_refuses_witness : exists e,
  finalize_evolution home 1 first_version 100 (after interrupted) = (after interrupted, 100, Returned (Err e)).
Proof.
  assert (version_files (after interrupted) (ae_app_name first_version) (ae_number first_version) = Some sealed_world) as Hv
    by (vm_compute; reflexivity).
  assert (is_Some (sealed_world !! [".complete"])) as Hc by (exists (TreeFile COMPLETE_MARKER); vm_compute; reflexivity).
  destruct (sealed_version_refuses home (after interrupted) first_version sealed_world 1 "src/notebook.swift" swift 100 Hv Hc)
    as (e&_&_&He&_). exists e. exact He.
Defined.

Lemma notebook_named : validate_app_name "notebook" = Ok tt.
Proof. vm_compute. reflexivity. Qed.
Lemma family_there : fm_root (after interrupted) = RealDir.
Proof. vm_compute. reflexivity. Qed.
Lemma listing_is_exact_witness : exists s' t' h,
  list_evolutions home 2 "notebook" ["0001"] 6 (after interrupted) = (s', t', Returned (Ok (evolution_at home "notebook" <$> seqZ 1 h))) /\
  numbered_versions (lf_evolutions notebook) h.
Proof.
  assert (["0001"] ≡ₚ (map_to_list (lf_evolutions notebook)).*1) as Hp.
  { assert ((map_to_list (lf_evolutions notebook)).*1 = ["0001"]) as E by (vm_compute; reflexivity). rewrite E. reflexivity. }
  exact (listing_is_exact home 2 "notebook" (after interrupted) notebook app_bytes ["0001"] 6 interrupted_sound family_there
    notebook_there notebook_named app_bytes_there app_bytes_fit Hp (le_n 6)).
Defined.
Lemma ledger_recovers_witness : exists h r s' t' f', load_app 2 "notebook" 6 (after interrupted) = (s', t', Returned (Ok r)) /\
  folder_of s' "notebook" = Some f' /\ recorded f' r /\ head_of r = h.
Proof.
  destruct (ledger_recovers home interrupted no_apps "notebook" 2 "notebook" notebook app_bytes no_apps_empty no_seal_written
    family_there notebook_there notebook_named app_bytes_there app_bytes_fit) as (h&_&Hload&_).
  destruct (Hload 6 (le_n 6)) as (r&s'&t'&f'&Hrun&Hf'&Hr&_&Hh&_). exists h, r, s', t', f'. exact (conj Hrun (conj Hf' (conj Hr Hh))).
Defined.

(** ** What the code does not handle *)

(** An identity of the expression that was bound is replaced when the protocol
    identity is bound after it. *)
Example expression_replaced :
  ar_expression_id <$> record_in (after [Run 1 100 (OpCreate "notebook" "app.example.notebook" 100);
    Run 1 100 (OpBindExpression "notebook" first_expression);
    Run 1 100 (OpBindProtocol "notebook" app_shot app_builder other_expression)]) "notebook" = Some (Some other_expression).
Proof. vm_compute. reflexivity. Qed.
(** A creation that crashed after it made [.tohseno/]: the app exists for
    [create_app] and for [adopt_app], and is missing for [load_app]. *)
Definition half_created : Family := after [Run 1 5 (OpCreate "notebook" "app.example.notebook" 100)].
Example half_created_app_is_stuck :
  snd (create_app 2 "notebook" "app.example.notebook" 101 100 half_created) = Returned (Err (AppExists "notebook")) /\
  snd (adopt_app 2 "notebook" "app.example.notebook" 101 100 half_created) = Returned (Err (AppExists "notebook")) /\
  snd (load_app 2 "notebook" 100 half_created) = Returned (Err (AppMissing "notebook")).
Proof. vm_compute. split; [reflexivity|split; reflexivity]. Qed.
(** A file of a reserved Version can have the name of its seal: the Version is
    then taken as sealed, or the app can no longer be loaded. *)
Example seal_written_as_a_file :
  let wrote bytes := after (creation ++ [Run 1 100 (OpWrite first_version ".complete" bytes)]) in
  snd (load_app 2 "notebook" 100 (wrote (bytes_of "done")))
    = Returned (Err (LedgerCorrupt "shot 1 has an invalid completion marker")) /\
  match snd (load_app 2 "notebook" 100 (wrote COMPLETE_MARKER)) with
  | Returned (Ok r) => ar_latest_evolution r = Some 1%Z
  | _ => False
  end.
Proof. vm_compute. split; reflexivity. Qed.
